(* ===== verification/_CoqProject ===== *)
-Q . S2P
Prelude.v
Wp.v
Text.v
BTree.v
Regex.v
Common.v
Validation.v
Selector.v
SelectorLexer.v
SelectorParser.v
Resource.v
DataObj.v
Watch.v
Ring.v
CacheStore.v
Svc.v
Informer.v
BiIndex.v
Specs.v
Worker.v
Billing.v
SchedState.v
Evict.v
Resume.v
EvictSpec.v
Start.v
Requests.v
Events.v
Dispatch.v
Frames.v
SchedInv.v
SchedSteps.v
SchedLoop.v
SchedSafe.v
Lease.v
Scenario.v
SchedProps.v
FuncAgent.v
GatewayTasks.v
GatewayInv.v
GatewaySteps.v
AgentSteps.v
Gateway.v
GatewayRuns.v
GatewayScenario.v
GatewayProps.v
Atomic.v
External.v
Ceiling.v
ExternalRuns.v
ExternalInv.v
ExternalSteps.v
ExternalSafe.v
ExternalDispatch.v
CeilingProps.v
ExternalScenario.v
ExternalProps.v
Calls.v
ChatStream.v
ChatStreamProps.v
Session.v
SessionTurn.v
SessionRuns.v
SessionInv.v
SessionSteps.v
SessionSafe.v
SessionScenario.v
SessionProps.v
Access.v
Etcd.v
EtcdProps.v
StateSvc.v
Platform.v
Accounts.v
GatewayObjects.v
Onboard.v
SkillChain.v
SkillProps.v
AccountProps.v
ObjectProps.v
