(* ===== verification/Prelude.v ===== *)
(** * The InferX control plane, modelled and verified

    InferX serves model functions on GPU nodes.  The control plane is written
    in Rust: [inferxlib] holds the objects that are stored (functions, pods,
    nodes, tenants, snapshots) with their validation, labels and resources;
    [ixshare] holds the object service with its watch cache, the informers that
    mirror it in every other service, and the scheduler, which puts pods on
    nodes and leases them to the gateways that forward requests.

    ** How the parts interact

    Objects are written through the object service (create, update, delete);
    each type has a watch cache that gives every event the next channel
    revision, keeps the last events in a ring and sends them to its watchers.
    An informer lists a type, then watches from the revision of the list, and
    tells its handlers what changed.  The scheduler is one task: a loop that
    takes one input at a time, an event of its informers, a message of a
    gateway or of a call that ended, a timer or a queued task, and runs the
    handler to its end.  A gateway has an agent for each function it serves,
    which queues requests and decides when a worker more is needed, and a
    worker for each pod it leases from the scheduler; agents and workers are
    tasks that share counters.  Functions that another provider serves are
    external endpoints: a gateway spreads requests over their replicas, each
    behind a limiter, and a controller moves the limiters' ceilings.  A gateway
    also keeps sessions: conversations with a model whose turns call the
    functions of a tenant as tools, answered as streams, with a transcript for
    the user and a context for the model that is compacted when it grows.

    A caller of a gateway has a token: its roles, read from a database and
    cached by user name and by API key, its scope, and the restrictions of its
    key.  The gateway's handlers look at it, then call the state service, which
    knows no callers: it admits an object by what its mirrors hold and writes it
    to etcd, and the watch caches follow etcd.  A new user is given a tenant, a
    namespace, roles, a key and credit by a saga that can be resumed.

    A skill is a model with a prompt that may call other skills: its request is a
    loop of model turns, whose tool calls are made at once, as requests to the
    gateway itself one deeper in the chain; the client may have it traced.

    ** Files and what they model

    Vocabulary.  [Prelude]: outcomes of calls (value, error, panic), the state
    monad [sm], machine integers ([chk]: overflow panics, [cast]: [as]).  [Wp]:
    weakest preconditions, frames and invariants of stateful calls.  [Text],
    [BTree], [Regex]: what is used of Rust's strings, ordered maps and of the
    regex crate.

    inferxlib.  [Common] (common.rs of both crates: errors, addresses),
    [Validation] (validation.rs), [Selector], [SelectorLexer],
    [SelectorParser] (selector.rs), [Resource] (resource.rs, and the scheduler's
    ResourceAlloc), [DataObj] (data_obj.rs), [Specs] (obj_mgr/*.rs, node.rs).

    Store (ixshare/src/metastore).  [Watch] (selection_predicate.rs and the
    events and watchers of watch.rs), [Ring] (its buffers), [CacheStore]
    (cache_store.rs), [Svc] (svc_dir.rs, obj.rs, cacher_client.rs), [Informer]
    (informer.rs, store.rs), [BiIndex] and the others below belong to the
    scheduler.

    Scheduler (ixshare/src/scheduler, peer_mgr.rs).  [BiIndex], [Worker]
    (scheduler.rs: WorkerPod, NodeStatus, FuncStatus, and the [World]: worker
    cells, replies, calls, clock, and the peers of peer_mgr.rs), [Billing],
    [SchedState] (the record [Sched] with the fields of SchedulerHandler),
    [Evict] (FindNode4Pod and below), [Resume] (ResumePod, its completion),
    [Start] (snapshot, restore and Nvidia pods), [Requests] (connect, lease,
    return, kill, gateway timeout, warm-up), [Events] (the handlers of store
    events, reconciliation, clean-up), [Dispatch] (ProcessOnce, Process).
    [Scheduler] proofs: [EvictSpec], [Frames], [SchedInv], [SchedSteps],
    [SchedLoop], [SchedSafe], [Lease], and the properties in [SchedProps],
    evaluated on the cluster of [Scenario].

    Gateway (ixshare/src/gateway).  [FuncAgent] (the state of func_agent_mgr.rs
    and func_worker.rs, and their calls), [GatewayTasks] (what the tasks do from
    one wait to the next, gw_obj_repo.rs), [Gateway] (the manager of agents, and
    the runs of everything); proofs in [GatewayInv], [GatewaySteps],
    [AgentSteps], [GatewayRuns], properties in [GatewayProps], evaluated on
    [GatewayScenario].

    External endpoints.  [Atomic] (calls as programs of atomic actions),
    [External] (external_endpoint.rs, the queries of secret.rs, the
    administrator's handlers of http_gw_external.rs), [Ceiling]
    (external_ceiling.rs), [ExternalRuns] (requests, administrators and the
    controller at the same time); proofs in [ExternalInv], [ExternalSteps],
    [ExternalSafe], properties in [ExternalDispatch], [CeilingProps] and
    [ExternalProps], evaluated on [ExternalScenario].

    Sessions (session.rs).  [Calls] (handlers as trees of actions, questions to
    other services, locks and what is sent to the client; what a call asks and
    says, calls at once in one task, a call served alone, calls together),
    [ChatStream] (how
    streamed answers are read), [Session] (the store, estimates, compaction),
    [SessionTurn] (HandlePrompt, HandlePromptStream and the task of its stream,
    the routes), [SessionRuns] (handlers, streams, clients that
    go away, in any order); proofs in [ChatStreamProps], [SessionInv],
    [SessionSteps], [SessionSafe], properties in [SessionProps], evaluated on
    [SessionScenario].

    Accounts and objects.  [Access] (auth_layer.rs: tokens, scopes, roles,
    restricted keys), [Etcd] (etcd_store.rs; proofs in [EtcdProps]), [StateSvc]
    (admission.rs, state_svc.rs), [Platform] (the state the handlers share, and
    their questions), [Accounts] (the token caches, API keys and roles of
    auth_layer.rs, secret.rs and http_gw.rs), [GatewayObjects] (http_gw.rs,
    http_gateway.rs: objects, quotas, lists), [Onboard] (the saga); proofs and
    properties in [Access], [AccountProps] and [ObjectProps].

    Skill chains.  [SkillChain] (skill_chain.rs, skill_trace_sse.rs, the end of
    SkillCall in http_gateway.rs); properties in [SkillProps].

    ** How code becomes definitions

    A handler [f(&mut self, ..) -> Result<..>] is a call of the monad
    [sm S E A := S -> outcome E A * S]: its early returns, [?] and panics end
    it with the state as it is then.  Rust objects shared by [Arc<Mutex<..>>]
    are cells of a store: a [WorkerPod] is a location and its immutable pod, and
    its worker state and consumer are in the cell, so that copies of a worker in
    several tables share them as they do in the code.  Asynchronous calls to
    node agents are recorded when they are started; their completion is a later
    message.  The tasks of a gateway are steps of a relation from one wait to the
    next, their atomics wrap ([cast]).  A handler of the object service that
    changes an object is a state machine from one lock to the next
    ([Svc.change_step]; [svc_create], [svc_update] and [svc_delete] are its runs
    with no other handler in between).  Where tasks interleave between any two
    locks (external endpoints) a call is a [prog], a tree of atomic actions, one
    for everything done under one lock.  A handler of sessions is a [call], where
    other tasks act between any two nodes; what a stream brings is one answer of
    the world, a list of its items, and a client may go away at any node of a
    handler, which is at more points than the code has.  Handlers of accounts and
    objects are calls too, with [?] as [⇐]; a call of the state service runs its
    handler in place, on the state of the service, between two questions whether
    the request and its answer get through.  The child calls of a turn run in one
    task: the world picks which goes on ([par_all]) and in which order they end;
    between any two steps of what is awaited a heartbeat may be sent ([ticking]),
    and a traced chain may be dropped ([until]).  BTreeMap iterations run over [entries], in key order; ranges are
    [range_from].  HashMap iteration orders are parameters.  The profile the
    services are built with checks overflow, so arithmetic on machine integers
    goes through [chk].  Comments above a definition name file, lines and
    function.

    ** What the theorems show

    Scheduler.  [SchedProps.pod_tables_agree]: the tables agree in every state
    the loop reaches ([SchedSafe.reachable D s]: inputs in any order, with or
    without errors, as long as no pass panics; [D] are the pods that have gone
    astray on the way, on whose place on the idle list nothing is said).
    [lease_request_outcome] says when a request for a worker ends in which way,
    panics included; [lease_respects_gpu_cap], [eviction_makes_room],
    [remove_func_swaps_snapshots].
    [Billing.billing_adds_up]: ticks add up to the time of a session.
    [BiIndex.bi_index_is_relation].  Resources: allocation on a map of GPUs and
    on a node, and its inverse.

    Gateway, in every interleaving of its tasks ([GatewayProps]): a request is
    answered exactly once or waits in exactly one place, the atomic counters are
    what they count, an endpoint has no more replicas leased than its policies
    allow, a connection is in one place, a worker's pod is given back by one task,
    which tells the scheduler until it is answered, ten times at most; with
    constant policies no worker panics.

    External endpoints ([ExternalProps]): limiters count exactly the requests
    that hold their permits, and a static cap is respected, in every
    interleaving; a request alone goes through the replicas by score
    ([dispatch_is_failover]); what a tick of the controller does to the ceilings
    ([tick_moves_ceilings]).

    Sessions ([SessionProps]), in every interleaving of streamed prompts: the
    transcript is a sequence of turns and the context follows it, a turn has its
    session for itself, a stream says once that it is done; what a compaction
    leaves; what is kept of an answer is what was sent, and does not depend on
    how the stream is cut.

    Accounts and objects.  A token made for a key has no right that its user, the
    scope of the key or its restriction does not give
    ([Access.restricted_key_confined]); the caches hold well-formed tokens, and a
    call returns none whose stamp is older than a minute, in every interleaving
    ([AccountProps]); a grant or a
    revocation takes effect at once; what the handlers of tenants, namespaces,
    functions and policies ask etcd to write is what the caller may write
    ([ObjectProps.object_writes_are_permitted]); the store in etcd is a table with
    optimistic revisions, whose writes under a lease that is not there are
    refused ([EtcdProps]).

    Skill chains ([SkillProps]), for every answer of models and children and every
    interleaving: only allowed skills are called, at most five deep; every tool
    call is answered, in order; a trace has contents only for those who may see
    them; the text of a trace is read as it was written.

    Store.  [CacheStore]: a watcher's stream replays to the selected part of the
    store, also from the revision of a list; the effect of an event; the window
    of revisions.  [Svc]: the service is a table, seen through the client, and
    each step of handlers that interleave does to that table what its revision
    allows; lists over the wire are lists of the cache.  [Informer]: informers of
    a whole type, as all of the program are, and their handlers mirror the
    server.  [Ring]: the ring is a bounded queue.
    [DataObj]: the store of objects is a table by tenant, namespace and name.

    Text.  Names are accepted as documented, selectors match as documented, and
    parsing the printed form of a selector gives one that matches the same; the
    parser never panics.

    Some theorems say that the code does something else than what it means to:
    [CacheStore.refresh_keeps_unlisted], [resumed_watch_misses_exit],
    [watch_window], [Informer.redelivered_deletion_fails],
    [SchedProps.remove_func_swaps_snapshots],
    [GatewayProps.retired_requests_hang], [ExternalProps.update_keeps_replicas],
    [SessionProps.ended_turn_cancels_the_next],
    [ObjectProps.anyone_may_write_other_objects], [tenant_admin_lifts_limits],
    [AccountProps.read_key_makes_full_key],
    [SkillProps.forged_child_sees_contents], [chain_has_no_turn_limit],
    [multiline_result_is_cut], [Svc.stale_delete_answers_success],
    [SelectorParser.empty_value_set_is_lost], [AccountProps.old_roles_of_a_key],
    [Scenario.early_pod_is_lost]; the scenarios evaluate more.

    ** What is taken of the world

    Crates outside the repository are parameters with their documented laws:
    [LruSpec] (lru), [JsonOps] (serde_json), [ChanSpec] (tokio channels), uuid,
    float literals, the shuffle of nodes, ipnetwork, [GatewayFloat],
    [ExternalCrates] (url, serde_json and the hash of replicas), [MetricsFloat],
    [ChatCrates] (serde_json and axum's events), [ChatSizes] (sizes of messages
    in JSON, uuids that are distinct), [SessionOrder], [ChatConfig], [EtcdSpec]
    (transactions and reads of etcd), [ProstSpec] (encoding of messages),
    [RolesTable] (the table of roles, for names without a quote), [SkillJson]
    (serde_json, the derived decoders and http's parser of URIs); each law has an
    instance.
    [SchedSafe.good_input] says what inputs are taken to be: an update of a pod
    keeps its function, a node does not start over with a new epoch and its agent
    does not restart (reconciliation is modelled in [Events], but the invariant
    is not followed through it), a pod that waits for its function is still there
    when the function comes (the finding at scheduler_handler.rs:5900).  An update
    of a ready pod that goes astray (its function or host is unknown, or it is on
    the idle list already: the findings at 519 and 5879) and the end of a
    duplicate snapshot that puts leased pods back on the list (2182) are inputs
    like any other, and those pods are among the [strays] from then on.
    [etcd_txn] is etcd's documented behaviour for a put, with its error when the
    lease is not there; which leases there are is any set.
    A run of a gateway or of its endpoints ends at the first panic of a task.  A
    worker may take a request whenever the queue has one (more wake-ups than
    [notify] gives), so the invariants hold for every way of waking; ids of
    workers do not wrap.  The invariants of sessions are for runs whose prompts
    are all streamed: a prompt without a stream takes no lock, and breaks them
    ([SessionScenario.lost_message_runs]).

    ** Bounds and fuel

    Loops over lists are structural.  The regex matcher is by derivatives.  The
    lexer and the parser run on the length of their input ([Lexes_shape],
    [parse_safe] show that it is enough).  [push_failure] runs three times as in
    the code.  The lines of a buffer are read on its length, a child's trace on
    the number of its chunks; a skill chain has no bound in the code, so its loop
    is given a number of turns and says when it has not ended in them: what holds
    of it holds for every number.  Capacities are those of the code: [task_capacity], the ring's
    capacity, the watchers' channels.

    ** What is not modelled

    HTTP, gRPC, SQL and etcd plumbing, and what only wraps it: the gateway's
    other HTTP handlers (logs, metrics, snapshots, usage), tokens of the identity
    provider, the resolution of a skill's route, audit queries, the state
    service's set-up, the command line client, printing and configuration,
    generated code.  Of modelled files: text conversions of objects (serde),
    time-outs and retries of connections, log messages.  Texts of error messages
    are kept up to what is printed with debug formatting of whole collections.

    Next: the aggregated store, the watch of the state service, publication of endpoints,
    reconciliation in the scheduler's invariant, a ledger of a node's
    resources. *)

From stdpp Require Export base gmap sets list strings pretty sorting.
From Stdlib Require Export ZArith Lia.
From Stdlib Require Strings.Ascii.
Export Stdlib.Strings.Ascii (ascii(..), ascii_dec, nat_of_ascii, ascii_of_nat, ascii_nat_embedding).
Export (notations) Stdlib.Strings.Ascii.


(** ** Outcomes of a call

    A Rust function of this code base returns a value, returns [Err], or panics
    (failed [assert!], [unwrap] on [None], index out of range, arithmetic
    overflow: the services are built with the dev profile, [Makefile] line 20,
    which checks overflow).  The three are kept apart. *)

Inductive outcome (E A : Type) : Type :=
| Ok (a : A)
| Err (e : E)
| Panic (why : string).
Arguments Ok {E A} a.
Arguments Err {E A} e.
Arguments Panic {E A} why.

#[global] Instance outcome_ret {E} : MRet (outcome E) := fun _ a => Ok a.
#[global] Instance outcome_bind {E} : MBind (outcome E) := fun _ _ k m =>
  match m with Ok a => k a | Err e => Err e | Panic w => Panic w end.
#[global] Instance outcome_fmap {E} : FMap (outcome E) := fun _ _ f m =>
  match m with Ok a => Ok (f a) | Err e => Err e | Panic w => Panic w end.

#[global] Instance outcome_eq_dec `{EqDecision E, EqDecision A} :
  EqDecision (outcome E A).
Proof. solve_decision. Defined.

Section outcome.
Context {E A B : Type}.

Definition is_ok (m : outcome E A) : bool :=
  match m with Ok _ => true | _ => false end.
Definition is_err (m : outcome E A) : bool :=
  match m with Err _ => true | _ => false end.
Definition no_panic (m : outcome E A) : Prop :=
  match m with Panic _ => False | _ => True end.

(** [Result::unwrap] *)
Definition unwrap (m : outcome E A) : outcome E A :=
  match m with Err _ => Panic "called `Result::unwrap()` on an `Err` value" | m => m end.
(** [Option::unwrap] *)
Definition unwrap_opt (o : option A) : outcome E A :=
  match o with Some a => Ok a | None => Panic "called `Option::unwrap()` on a `None` value" end.
(** [assert!(b)] *)
Definition assert_ (b : bool) (why : string) : outcome E unit :=
  if b then Ok tt else Panic why.

Lemma bind_Ok (m : outcome E A) (k : A → outcome E B) b :
  m ≫= k = Ok b ↔ ∃ a, m = Ok a ∧ k a = Ok b.
Proof.
  destruct m as [a|e|w]; cbn; split.
  - intros H. by exists a.
  - intros (a' & Ha & Hk). by simplify_eq.
  - done.
  - intros (a' & Ha & Hk). by simplify_eq.
  - done.
  - intros (a' & Ha & Hk). by simplify_eq.
Qed.
Lemma bind_Err (m : outcome E A) (k : A → outcome E B) e :
  m ≫= k = Err e ↔ m = Err e ∨ ∃ a, m = Ok a ∧ k a = Err e.
Proof.
  destruct m as [a|e'|w]; cbn; split.
  - intros H. right. by exists a.
  - intros [H|(a' & Ha & Hk)]; by simplify_eq.
  - intros H. left. by simplify_eq.
  - intros [H|(a' & Ha & Hk)]; by simplify_eq.
  - done.
  - intros [H|(a' & Ha & Hk)]; by simplify_eq.
Qed.
Lemma no_panic_bind (m : outcome E A) (k : A → outcome E B) :
  match m with Ok a => match k a with Panic _ => False | _ => True end
             | Err _ => True | Panic _ => False end →
  match m ≫= k with Panic _ => False | _ => True end.
Proof. by destruct m. Qed.
End outcome.

(** Runs [f] over a list from left to right, threading a state: the shape of
    every [for] loop that may fail. *)
Fixpoint foldlM {E A S} (f : S → A → outcome E S) (s : S) (l : list A) : outcome E S :=
  match l with
  | [] => Ok s
  | a :: l => s ← f s a; foldlM f s l
  end.

Lemma foldlM_app {E A S} (f : S → A → outcome E S) s l1 l2 :
  foldlM f s (l1 ++ l2) = (s' ← foldlM f s l1; foldlM f s' l2).
Proof.
  revert s. induction l1 as [|a l1 IH]; intros s; [done|].
  simpl. destruct (f s a); simpl; auto.
Qed.

Lemma foldlM_inv {E A S} (I : list A → S → Prop) (f : S → A → outcome E S) s l s' :
  I [] s →
  (∀ done a s1 s2, I done s1 → f s1 a = Ok s2 → I (done ++ [a]) s2) →
  foldlM f s l = Ok s' → I l s'.
Proof.
  intros H0 Hstep. change l with ([] ++ l) at 2. revert s H0. generalize (@nil A).
  induction l as [|a l IH]; intros done s H0 Hrun; simpl in Hrun.
  - injection Hrun as <-. by rewrite app_nil_r.
  - apply bind_Ok in Hrun as (s1 & H1 & Hrun).
    rewrite (cons_middle a done l), (assoc_L (++)). eauto.
Qed.

Lemma foldlM_ext {E A S} (f g : S → A → outcome E S) s l :
  (∀ s a, f s a = g s a) → foldlM f s l = foldlM g s l.
Proof.
  intros Hfg. revert s. induction l as [|a l IH]; intros s; [done|].
  simpl. rewrite Hfg. destruct (g s a); simpl; auto.
Qed.

Lemma foldlM_total {E A S} (f : S → A → outcome E S) s l :
  (∀ s a, ∃ s', f s a = Ok s') → ∃ s', foldlM f s l = Ok s'.
Proof.
  intros Hf. revert s. induction l as [|a l IH]; intros s; [by eexists|].
  simpl. destruct (Hf s a) as [s' ->]. apply IH.
Qed.

(** A loop that collects [f x] for the [x] that pass a fallible test. *)
Lemma foldlM_filter {E A B} `{EqDecision E} (body : list B → A → outcome E (list B))
    (keep : A → outcome E bool) (f : A → B) acc l r :
  (∀ acc x, body acc x = (b ← keep x; Ok (if (b : bool) then acc ++ [f x] else acc))) →
  foldlM body acc l = Ok r →
  r = acc ++ (f <$> filter (λ x, keep x = Ok true) l) ∧ ∀ x, x ∈ l → ∃ b, keep x = Ok b.
Proof.
  intros Hb. revert acc. induction l as [|x l IH]; intros acc Hrun; simpl in Hrun.
  { injection Hrun as <-. rewrite app_nil_r. split; [done|]. by intros x ?%elem_of_nil. }
  rewrite Hb in Hrun. destruct (keep x) as [b|e|w] eqn:Hk; try done. simpl in Hrun.
  apply IH in Hrun as [-> Hall]. split.
  - destruct b; [rewrite filter_cons_True by done|rewrite filter_cons_False by congruence].
    + by rewrite <-app_assoc. + done.
  - intros y [->|Hy]%elem_of_cons; [by eexists|auto].
Qed.

Lemma filter_all {A} (P : A → Prop) `{∀ x, Decision (P x)} (l : list A) :
  (∀ x, x ∈ l → P x) → filter P l = l.
Proof.
  induction l as [|a l IH]; intros Hl; [done|].
  rewrite filter_cons_True by (apply Hl; by left). f_equal. apply IH. intros x Hx. apply Hl. by right.
Qed.
Lemma filter_none {A} (P : A → Prop) `{∀ x, Decision (P x)} (l : list A) :
  (∀ x, x ∈ l → ¬ P x) → filter P l = [].
Proof.
  induction l as [|a l IH]; intros Hl; [done|].
  rewrite filter_cons_False by (apply Hl; by left). apply IH. intros x Hx. apply Hl. by right.
Qed.

(** The longest prefix of elements that pass a test. *)
Fixpoint take_while {A} (f : A → bool) (l : list A) : list A :=
  match l with
  | [] => []
  | a :: l => if f a then a :: take_while f l else []
  end.

(** ** Stateful calls

    A call that threads a state; the state it leaves counts also when it
    returns [Err], since Rust undoes nothing. *)

Definition sm (S E A : Type) : Type := S → outcome E A * S.
#[global] Instance sm_ret {S E} : MRet (sm S E) := fun _ a s => (Ok a, s).
#[global] Instance sm_bind {S E} : MBind (sm S E) := fun _ _ k m s =>
  match m s with
  | (Ok a, s) => k a s
  | (Err e, s) => (Err e, s)
  | (Panic w, s) => (Panic w, s)
  end.

Section sm.
Context {S E A : Type}.

Definition gets (f : S → A) : sm S E A := λ s, (Ok (f s), s).
Definition modify (f : S → S) : sm S E unit := λ s, (Ok tt, f s).
(** A call that does not touch the state. *)
Definition pure_ (m : outcome E A) : sm S E A := λ s, (m, s).
(** A call on a part of the state. *)
Definition zoom {T} (part : S → T) (put : T → S → S) (m : sm T E A) : sm S E A :=
  λ s, let '(r, t) := m (part s) in (r, put t s).
(** [for a in l { f(a)?; }] *)
Fixpoint eachM {B} (f : B → sm S E unit) (l : list B) : sm S E unit :=
  match l with [] => mret tt | b :: l => _ ← f b; eachM f l end.

Lemma sm_bind_Ok {B} (m : sm S E A) (k : A → sm S E B) s b s' :
  (m ≫= k) s = (Ok b, s') ↔ ∃ a s1, m s = (Ok a, s1) ∧ k a s1 = (Ok b, s').
Proof.
  unfold mbind, sm_bind. destruct (m s) as [[a|e|w] s1]; split; try naive_solver.
Qed.
Lemma sm_bind_run {B} (m : sm S E A) (k : A → sm S E B) s a s1 :
  m s = (Ok a, s1) → (m ≫= k) s = k a s1.
Proof. intros Hm. unfold mbind, sm_bind. by rewrite Hm. Qed.
End sm.

(** ** Machine integers

    Values are in [Z]; an arithmetic operation at type [t] is the exact result
    passed through [chk t], which panics outside the range of [t]; [cast t] is
    the wrapping [as t] conversion. *)

Record int_ty := IntTy { ty_min : Z; ty_max : Z }.
Definition u8 := IntTy 0 255.
Definition u16 := IntTy 0 65535.
Definition u32 := IntTy 0 4294967295.
Definition u64 := IntTy 0 18446744073709551615.
Definition usize := u64.
Definition i32 := IntTy (-2147483648) 2147483647.
Definition i64 := IntTy (-9223372036854775808) 9223372036854775807.

Definition fits (t : int_ty) (z : Z) : Prop := (ty_min t ≤ z ≤ ty_max t)%Z.
#[global] Instance fits_dec t z : Decision (fits t z).
Proof. unfold fits. apply _. Defined.

Definition chk {E} (t : int_ty) (z : Z) : outcome E Z :=
  if decide (fits t z) then Ok z else Panic "arithmetic overflow".
Definition cast (t : int_ty) (z : Z) : Z :=
  ((z - ty_min t) mod (ty_max t - ty_min t + 1) + ty_min t)%Z.

Lemma chk_Ok {E} t z z' : chk (E:=E) t z = Ok z' ↔ z' = z ∧ fits t z.
Proof. unfold chk. case_decide; split; [by intros [= ->]|by intros [-> _]|done|by intros [-> ?]]. Qed.
Lemma chk_fits {E} t z : fits t z → chk (E:=E) t z = Ok z.
Proof. intros. unfold chk. by rewrite decide_True. Qed.
Lemma cast_fits t z : fits t z → cast t z = z.
Proof. unfold fits, cast. intros. rewrite Z.mod_small; lia. Qed.
Lemma cast_range t z : (ty_min t ≤ ty_max t)%Z → fits t (cast t z).
Proof.
  unfold fits, cast. intros.
  pose proof (Z.mod_pos_bound (z - ty_min t) (ty_max t - ty_min t + 1)). lia.
Qed.

(** ** Tactics and hints *)

Create HintDb inferx.
#[export] Hint Resolve chk_fits cast_fits : inferx.

(** Inverts successful monadic runs found in the context. *)
Ltac inv_ok :=
  repeat match goal with
  | H : _ ≫= _ = Ok _ |- _ => apply bind_Ok in H as (? & ? & ?)
  | H : Ok _ = Ok _ |- _ => injection H as H; try subst
  | H : mret _ = Ok _ |- _ => injection H as H; try subst
  | H : Err _ = Ok _ |- _ => discriminate H
  | H : Panic _ = Ok _ |- _ => discriminate H
  | H : chk _ _ = Ok _ |- _ => apply chk_Ok in H as [-> ?]
  | H : assert_ ?b _ = Ok _ |- _ => unfold assert_ in H; destruct b eqn:?; [|discriminate H]
  end.
