(* ===== verification/Wp.v ===== *)
(** * Reasoning about stateful calls

    A weakest precondition for the calls of [Prelude.sm] that return (a call
    that panics satisfies anything: the panic ends the task), calls that keep
    an invariant, and calls that leave a part of the state alone. *)

From S2P Require Import Prelude.

Section wp.
Context {S E : Type}.

(** The call returns a value in a state that satisfies [Q], or an error in one
    that satisfies [X]. *)
Definition wp {A} (m : sm S E A) (Q : A → S → Prop) (X : S → Prop) (s : S) : Prop :=
  match m s with (Ok a, s') => Q a s' | (Err _, s') => X s' | (Panic _, _) => True end.
(** The invariant [I] holds after the call if it held before. *)
Definition keeps {A} (I : S → Prop) (m : sm S E A) : Prop := ∀ s, I s → wp m (λ _, I) I s.
(** The call leaves what [v] sees of the state as it was. *)
Definition frames {A V} (v : S → V) (m : sm S E A) : Prop := ∀ s, v (m s).2 = v s.

Lemma wp_mono {A} (m : sm S E A) (Q Q' : A → S → Prop) (X X' : S → Prop) s :
  wp m Q X s → (∀ a s, Q a s → Q' a s) → (∀ s, X s → X' s) → wp m Q' X' s.
Proof. unfold wp. destruct (m s) as [[]]; auto. Qed.
Lemma wp_bind {A B} (m : sm S E A) (k : A → sm S E B) (Q : B → S → Prop) X s :
  wp m (λ a, wp (k a) Q X) X s → wp (m ≫= k) Q X s.
Proof. unfold wp, mbind, sm_bind. by destruct (m s) as [[]]. Qed.
Lemma wp_ret {A} (a : A) (Q : A → S → Prop) X s : Q a s → wp (mret a) Q X s.
Proof. done. Qed.
Lemma wp_gets {A} (f : S → A) (Q : A → S → Prop) X s : Q (f s) s → wp (gets f) Q X s.
Proof. done. Qed.
Lemma wp_modify (f : S → S) (Q : unit → S → Prop) X s : Q tt (f s) → wp (modify f) Q X s.
Proof. done. Qed.
Lemma wp_pure {A} (r : outcome E A) (Q : A → S → Prop) (X : S → Prop) s :
  (∀ a, r = Ok a → Q a s) → (∀ e, r = Err e → X s) → wp (pure_ r) Q X s.
Proof. unfold wp, pure_. destruct r; eauto. Qed.
Lemma wp_read {A} (f : S → outcome E A) (Q : A → S → Prop) (X : S → Prop) s :
  (∀ a, f s = Ok a → Q a s) → (∀ e, f s = Err e → X s) → wp (λ s, (f s, s)) Q X s.
Proof. unfold wp. destruct (f s); eauto. Qed.
Lemma wp_eachM {B} (I : S → Prop) (f : B → sm S E unit) l (X : S → Prop) s :
  (∀ b s, b ∈ l → I s → wp (f b) (λ _, I) X s) → I s → wp (eachM f l) (λ _, I) X s.
Proof.
  revert s. induction l as [|b l IH]; intros s Hf Hs; [done|]. simpl. apply wp_bind.
  eapply wp_mono; [apply Hf; [by left|done]| |done].
  intros ? s' Hs'. apply IH; [|done]. intros b' s1 Hb'. apply Hf. by right.
Qed.

Lemma keeps_wp {A} (I : S → Prop) (m : sm S E A) (Q : A → S → Prop) (X : S → Prop) s :
  keeps I m → I s → (∀ a s, I s → Q a s) → (∀ s, I s → X s) → wp m Q X s.
Proof. intros Hm Hs HQ HX. eapply wp_mono; [by apply Hm|auto|done]. Qed.
Lemma keeps_bind {A B} I (m : sm S E A) (k : A → sm S E B) :
  keeps I m → (∀ a, keeps I (k a)) → keeps I (m ≫= k).
Proof. intros Hm Hk s Hs. apply wp_bind. by eapply keeps_wp; [done..|intros; apply Hk|]. Qed.
Lemma keeps_ret {A} I (a : A) : keeps I (mret a).
Proof. by intros s. Qed.
Lemma keeps_gets {A} I (f : S → A) : keeps I (gets f).
Proof. by intros s. Qed.
Lemma keeps_modify I (f : S → S) : (∀ s, I s → I (f s)) → keeps I (modify f).
Proof. by intros Hf s Hs; apply Hf. Qed.
Lemma keeps_pure {A} I (r : outcome E A) : keeps I (pure_ r).
Proof. intros s Hs. by apply wp_pure. Qed.
Lemma keeps_eachM {B} I (f : B → sm S E unit) l : (∀ b, b ∈ l → keeps I (f b)) → keeps I (eachM f l).
Proof. intros Hf s Hs. apply wp_eachM; [|done]. intros b s' Hb. by apply Hf. Qed.

(** ** Frames *)

Context {V : Type} (v : S → V).
Implicit Types (I : S → Prop).

Lemma frames_bind {A B} (m : sm S E A) (k : A → sm S E B) :
  frames v m → (∀ a, frames v (k a)) → frames v (m ≫= k).
Proof.
  intros Hm Hk s. specialize (Hm s). unfold mbind, sm_bind. destruct (m s) as [[a|e|w] s1]; [|done..].
  simpl in Hm. by rewrite Hk.
Qed.
Lemma frames_ret {A} (a : A) : frames v (mret (M:=sm S E) a).
Proof. done. Qed.
Lemma frames_gets {A} (f : S → A) : frames v (gets (E:=E) f).
Proof. done. Qed.
Lemma frames_pure {A} (r : outcome E A) : frames v (pure_ r).
Proof. done. Qed.
Lemma frames_modify (f : S → S) : (∀ s, v (f s) = v s) → frames v (modify (E:=E) f).
Proof. by intros Hf s; apply Hf. Qed.
(** A call that only reads. *)
Lemma frames_read {A} (f : S → outcome E A) : frames v (λ s, (f s, s)).
Proof. done. Qed.
Lemma frames_eachM {B} (f : B → sm S E unit) l : (∀ b, frames v (f b)) → frames v (eachM f l).
Proof.
  intros Hf. induction l as [|b l IH]; simpl; [apply frames_ret|]. by apply frames_bind.
Qed.
Lemma frames_keeps {A} I (m : sm S E A) :
  (∀ s s', v s' = v s → I s → I s') → frames v m → keeps I m.
Proof.
  intros HI Hm s Hs. specialize (Hm s). unfold wp. destruct (m s) as [[]]; simpl in *; eauto.
Qed.
(** The result of a framing call carries what is known of the state. *)
Lemma frames_wp {A} (m : sm S E A) (Q : A → S → Prop) (X : S → Prop) s :
  frames v m → (∀ a s', v s' = v s → Q a s') → (∀ s', v s' = v s → X s') → wp m Q X s.
Proof. intros Hm HQ HX. specialize (Hm s). unfold wp. destruct (m s) as [[]]; eauto. Qed.
End wp.

(** ** Calls that never return an error *)

Definition no_err {E A} (m : outcome E A) : Prop := match m with Err _ => False | _ => True end.
Lemma no_err_bind {E A B} (m : outcome E A) (k : A → outcome E B) : no_err m → (∀ a, no_err (k a)) → no_err (m ≫= k).
Proof. destruct m; simpl; auto. Qed.
Lemma no_err_chk {E} t z : no_err (chk (E:=E) t z).
Proof. unfold chk. by case_decide. Qed.
Lemma no_err_assert {E} b why : no_err (assert_ (E:=E) b why).
Proof. by destruct b. Qed.
Lemma no_err_unwrap {E A} (m : outcome E A) : no_err (unwrap m).
Proof. by destruct m. Qed.
Lemma no_err_foldlM {E A T} (f : T → A → outcome E T) s l : (∀ s a, no_err (f s a)) → no_err (foldlM f s l).
Proof. intros Hf. revert s. induction l as [|a l IH]; intros s; simpl; [done|]. apply no_err_bind; auto. Qed.
(** Goes through checks and binds. *)
Ltac no_err_tac :=
  repeat first
    [ apply no_err_chk | apply no_err_assert | apply no_err_unwrap | done | solve [eauto 1 with inferx]
    | apply no_err_bind; [|intros ?] | apply no_err_foldlM; intros ? ?
    | match goal with |- no_err (match ?x with _ => _ end) => destruct x end ].
Lemma wp_pure_no_err {S E A} (r : outcome E A) (Q : A → S → Prop) (X : S → Prop) s :
  no_err r → (∀ a, r = Ok a → Q a s) → wp (pure_ r) Q X s.
Proof. intros Hr HQ. apply wp_pure; [done|]. intros e ->. done. Qed.

(** A stateful call that never returns an error. *)
Definition never_err {S E A} (m : sm S E A) : Prop := ∀ s, no_err (m s).1.
Lemma never_err_bind {S E A B} (m : sm S E A) (k : A → sm S E B) : never_err m → (∀ a, never_err (k a)) → never_err (m ≫= k).
Proof. intros Hm Hk s. specialize (Hm s). unfold mbind, sm_bind. destruct (m s) as [[a|e|w] s1]; [apply Hk|done..]. Qed.
Lemma never_err_pure {S E A} (r : outcome E A) : no_err r → never_err (S:=S) (pure_ r).
Proof. by intros Hr s. Qed.
Lemma never_err_modify {S E} (f : S → S) : never_err (E:=E) (modify f).
Proof. by intros s. Qed.
Lemma never_err_wp {S E A V} (v : S → V) (m : sm S E A) (Q : A → S → Prop) (X : S → Prop) s :
  frames v m → never_err m → (∀ a s', v s' = v s → Q a s') → wp m Q X s.
Proof. intros Hm Hn HQ. specialize (Hm s). specialize (Hn s). unfold wp. destruct (m s) as [[]]; [by apply HQ|done..]. Qed.
Ltac never_err_tac :=
  repeat first
    [ done | apply never_err_modify | apply never_err_pure; solve [no_err_tac] | solve [eauto 1 with inferx]
    | apply never_err_bind; [|intros ?]
    | match goal with |- never_err (match ?x with _ => _ end) => destruct x end ].

(** A view of a view: what frames the whole frames the part. *)
Lemma frames_part {S E A V W} (v : S → V) (f : V → W) (m : sm S E A) : frames v m → frames (f ∘ v) m.
Proof. intros Hm s. simpl. f_equal. apply Hm. Qed.

#[export] Hint Resolve keeps_ret keeps_gets keeps_pure frames_ret frames_gets frames_pure frames_read : inferx.
#[export] Hint Unfold keeps : inferx.
#[export] Hint Resolve no_err_bind no_err_chk no_err_assert no_err_unwrap no_err_foldlM : inferx.

(** Goes through a call that touches nothing [v] sees: binds, branches, loops;
    leaves the calls no rule of the database frames. *)
Ltac frame_step :=
  match goal with
  | |- frames _ (_ ≫= _) => apply frames_bind; [|intros ?]
  | |- frames _ (mret _) => apply frames_ret
  | |- frames _ (gets _) => apply frames_gets
  | |- frames _ (pure_ _) => apply frames_pure
  | |- frames _ (λ s, (_, s)) => apply frames_read
  | |- frames _ (eachM _ _) => apply frames_eachM; intros ?
  | |- frames _ (if ?b then _ else _) => destruct b
  | |- frames _ (match ?x with _ => _ end) => destruct x
  end.
Ltac frame_tac := repeat first [ frame_step | solve [eauto 3 with inferx] ].
