(* ===== verification/Text.v ===== *)
(** * The parts of Rust's [str] and integer parsing the program uses

    Strings are byte sequences (the UTF-8 encoding Rust stores): [len] is the
    number of bytes, [Ord] is the bytewise lexicographic order, and a one-byte
    separator or prefix is matched bytewise. *)

From S2P Require Import Prelude.



Section basics.
Definition chars (s : string) : list ascii := String.list_ascii_of_string s.
Definition of_chars (l : list ascii) : string := String.string_of_list_ascii l.
Definition len (s : string) : nat := String.length s.

Lemma of_chars_chars s : of_chars (chars s) = s.
Proof. apply String.string_of_list_ascii_of_string. Qed.
Lemma chars_of_chars l : chars (of_chars l) = l.
Proof. apply String.list_ascii_of_string_of_list_ascii. Qed.
Lemma chars_app s1 s2 : chars (s1 +:+ s2) = chars s1 ++ chars s2.
Proof. induction s1 as [|c s1 IH]; [done|]. unfold chars in *. simpl. by rewrite <-IH. Qed.
Lemma of_chars_app l1 l2 : of_chars (l1 ++ l2) = of_chars l1 +:+ of_chars l2.
Proof. induction l1 as [|c l1 IH]; [done|]. unfold of_chars in *. simpl. by rewrite IH. Qed.
#[global] Instance chars_inj : Inj (=) (=) chars.
Proof. intros s1 s2 H. rewrite <-(of_chars_chars s1), <-(of_chars_chars s2). by rewrite H. Qed.
#[global] Instance of_chars_inj : Inj (=) (=) of_chars.
Proof. intros s1 s2 H. rewrite <-(chars_of_chars s1), <-(chars_of_chars s2). by rewrite H. Qed.
Lemma len_chars s : len s = length (chars s).
Proof. induction s as [|c s IH]; [done|]. unfold len, chars in *. simpl. by rewrite IH. Qed.
Lemma len_0 s : len s = 0 ↔ s = "".
Proof. by destruct s. Qed.
Lemma sapp_nil_r s : s +:+ "" = s.
Proof. apply (inj chars). rewrite chars_app. apply app_nil_r. Qed.
Lemma sapp_assoc s1 s2 s3 : s1 +:+ (s2 +:+ s3) = (s1 +:+ s2) +:+ s3.
Proof. apply (inj chars). rewrite !chars_app. apply (assoc_L (++)). Qed.
End basics.

(** [str::starts_with], [str::strip_prefix], [str::ends_with] *)
Definition starts_with (pre s : string) : bool := String.prefix pre s.
(** [to_ascii_lowercase] *)
Definition lower (c : ascii) : ascii :=
  let n := nat_of_ascii c in if decide (65 ≤ n ≤ 90) then ascii_of_nat (n + 32) else c.
Definition to_ascii_lowercase (s : string) : string := of_chars (lower <$> chars s).
(** [str::contains] *)
Fixpoint contains (sub s : string) : bool :=
  starts_with sub s || match s with EmptyString => false | String _ s => contains sub s end.
Definition ends_with (post s : string) : bool := bool_decide (chars post `suffix_of` chars s).

Fixpoint strip_prefix (pre s : string) : option string :=
  match pre, s with
  | "", s => Some s
  | String a pre, String b s => if ascii_dec a b then strip_prefix pre s else None
  | String _ _, "" => None
  end.

Lemma starts_with_spec pre s : starts_with pre s = true ↔ ∃ t, s = pre +:+ t.
Proof.
  unfold starts_with. revert s. induction pre as [|a pre IH]; intros s; simpl.
  { split; [|by destruct s]. intros _. by exists s. }
  destruct s as [|b s]; simpl; [naive_solver|].
  destruct (ascii_dec a b) as [->|Hne].
  - rewrite IH. split; intros [t Ht]; exists t; [by rewrite Ht|]. by injection Ht.
  - split; [done|]. intros [t Ht]. by injection Ht as -> ->.
Qed.

Lemma starts_with_app pre t : starts_with pre (pre +:+ t) = true.
Proof. apply starts_with_spec. eauto. Qed.

Lemma strip_prefix_spec pre s t : strip_prefix pre s = Some t ↔ s = pre +:+ t.
Proof.
  revert s. induction pre as [|a pre IH]; intros s; simpl; [naive_solver|].
  destruct s as [|b s]; [done|]. destruct (ascii_dec a b) as [->|Hne].
  - rewrite IH. split; [by intros ->|]. intros H. by injection H.
  - split; [done|]. intros H. by injection H as -> ->.
Qed.

(** [str::split(sep)] for a one-byte separator: the pieces between the
    separators, one more than there are separators. *)
Fixpoint split_go (sep : ascii) (cur : list ascii) (l : list ascii) : list (list ascii) :=
  match l with
  | [] => [reverse cur]
  | c :: l => if ascii_dec c sep then reverse cur :: split_go sep [] l
              else split_go sep (c :: cur) l
  end.
Definition split (sep : ascii) (s : string) : list string :=
  of_chars <$> split_go sep [] (chars s).

(** [str::splitn(2, sep)] *)
Fixpoint splitn2_go (sep : ascii) (cur : list ascii) (l : list ascii) : list (list ascii) :=
  match l with
  | [] => [reverse cur]
  | c :: l => if ascii_dec c sep then [reverse cur; l] else splitn2_go sep (c :: cur) l
  end.
Definition splitn2 (sep : ascii) (s : string) : list string :=
  of_chars <$> splitn2_go sep [] (chars s).

(** [[String]::join(sep)] *)
Fixpoint join (sep : string) (l : list string) : string :=
  match l with
  | [] => ""
  | [x] => x
  | x :: l => x +:+ (sep +:+ join sep l)
  end.

Lemma split_go_nosep sep cur l :
  sep ∉ l → split_go sep cur l = [reverse cur ++ l].
Proof.
  revert cur. induction l as [|c l IH]; intros cur Hl; simpl.
  { by rewrite app_nil_r. }
  destruct (ascii_dec c sep) as [->|_]; [set_solver|].
  rewrite IH by set_solver. by rewrite reverse_cons, <-(assoc_L (++)).
Qed.

Lemma split_go_app sep cur l1 l2 :
  sep ∉ l1 → split_go sep cur (l1 ++ sep :: l2) = (reverse cur ++ l1) :: split_go sep [] l2.
Proof.
  revert cur. induction l1 as [|c l1 IH]; intros cur Hl; simpl.
  { destruct (ascii_dec sep sep); [|done]. by rewrite app_nil_r. }
  destruct (ascii_dec c sep) as [->|_]; [set_solver|].
  rewrite IH by set_solver. by rewrite reverse_cons, <-(assoc_L (++)).
Qed.

Lemma split_nosep sep s : sep ∉ chars s → split sep s = [s].
Proof. intros. unfold split. rewrite split_go_nosep by done. csimpl. by rewrite of_chars_chars. Qed.

Lemma split_app sep s1 s2 :
  sep ∉ chars s1 → split sep (s1 +:+ (String sep s2)) = s1 :: split sep s2.
Proof.
  intros. unfold split. rewrite chars_app. unfold chars at 2. simpl.
  rewrite split_go_app by done. csimpl. by rewrite of_chars_chars.
Qed.

Lemma split_go_nonempty sep cur l : split_go sep cur l ≠ [].
Proof. revert cur. induction l as [|c l IH]; intros cur; simpl; [done|]. by destruct (ascii_dec c sep). Qed.

Lemma split_go_one sep cur l x : split_go sep cur l = [x] → x = reverse cur ++ l ∧ sep ∉ l.
Proof.
  revert cur. induction l as [|c l IH]; intros cur; simpl.
  { intros [= <-]. rewrite app_nil_r. split; [done|apply not_elem_of_nil]. }
  destruct (ascii_dec c sep) as [->|Hne].
  - intros [= _ H]. by destruct (split_go_nonempty sep [] l).
  - intros [-> Hl]%IH. rewrite reverse_cons, <-(assoc_L (++)). split; [done|].
    apply not_elem_of_cons. auto.
Qed.

Lemma split_go_two sep cur l x y :
  split_go sep cur l = [x; y] → ∃ l1, x = reverse cur ++ l1 ∧ l = l1 ++ sep :: y ∧ sep ∉ l1 ∧ sep ∉ y.
Proof.
  revert cur. induction l as [|c l IH]; intros cur; simpl; [done|].
  destruct (ascii_dec c sep) as [->|Hne].
  - intros [= <- H]. apply split_go_one in H as [-> Hl]. exists [].
    rewrite app_nil_r. split_and!; try done. apply not_elem_of_nil.
  - intros (l1 & -> & -> & H1 & H2)%IH. exists (c :: l1).
    rewrite reverse_cons, <-(assoc_L (++)). split_and!; try done. apply not_elem_of_cons. auto.
Qed.

Lemma split_one_inv sep s x : split sep s = [x] → s = x ∧ sep ∉ chars s.
Proof.
  unfold split. intros Hs. destruct (split_go sep [] (chars s)) as [|y [|? ?]] eqn:Hg; try done.
  injection Hs as <-. apply split_go_one in Hg as [-> Hn]. simpl. by rewrite of_chars_chars.
Qed.

Lemma split_two_inv sep s x y :
  split sep s = [x; y] → s = (x +:+ String sep y) ∧ sep ∉ chars x ∧ sep ∉ chars y.
Proof.
  unfold split. intros Hs. destruct (split_go sep [] (chars s)) as [|a [|b [|? ?]]] eqn:Hg; try done.
  injection Hs as <- <-. apply split_go_two in Hg as (l1 & -> & Hl & H1 & H2).
  rewrite !chars_of_chars. simpl. split_and!; try done.
  apply (inj chars). rewrite chars_app, chars_of_chars, Hl.
  change (chars (String sep (of_chars b))) with (sep :: chars (of_chars b)).
  by rewrite chars_of_chars.
Qed.

(** Splitting what [join] joined gives the pieces back. *)
Lemma split_join sep l :
  l ≠ [] → Forall (λ s, sep ∉ chars s) l → split sep (join (String sep "") l) = l.
Proof.
  intros Hne Hall. induction Hall as [|s l Hs Hall IH]; [done|].
  destruct l as [|s' l]; simpl.
  { by apply split_nosep. }
  change (String sep "" +:+ ?r) with (String sep r).
  rewrite split_app by done. f_equal. by apply IH.
Qed.

(** ** [str::trim]

    Strips the characters with the Unicode [White_Space] property from both
    ends, here as their UTF-8 byte sequences. *)
Definition white_space : list (list nat) :=
  [[9]; [10]; [11]; [12]; [13]; [32]; [194; 133]; [194; 160]; [225; 154; 128];
   [226; 128; 128]; [226; 128; 129]; [226; 128; 130]; [226; 128; 131]; [226; 128; 132];
   [226; 128; 133]; [226; 128; 134]; [226; 128; 135]; [226; 128; 136]; [226; 128; 137];
   [226; 128; 138]; [226; 128; 168]; [226; 128; 169]; [226; 128; 175]; [226; 129; 159];
   [227; 128; 128]].

Fixpoint strip_seq (p : list nat) (l : list ascii) : option (list ascii) :=
  match p, l with
  | [], l => Some l
  | n :: p, c :: l => if decide (nat_of_ascii c = n) then strip_seq p l else None
  | _ :: _, [] => None
  end.
Fixpoint first_strip (ps : list (list nat)) (l : list ascii) : option (list ascii) :=
  match ps with
  | [] => None
  | p :: ps => match strip_seq p l with Some l' => Some l' | None => first_strip ps l end
  end.
(** [fuel] bounds the number of stripped characters by the number of bytes. *)
Fixpoint trim_go (fuel : nat) (ps : list (list nat)) (l : list ascii) : list ascii :=
  match fuel with
  | 0 => l
  | S fuel => match first_strip ps l with Some l' => trim_go fuel ps l' | None => l end
  end.
Definition trim_start (l : list ascii) : list ascii := trim_go (length l) white_space l.
Definition trim_end (l : list ascii) : list ascii :=
  reverse (trim_go (length l) (reverse <$> white_space) (reverse l)).
Definition trim (s : string) : string := of_chars (trim_end (trim_start (chars s))).

(** A text with no white-space byte sequence at either end is left alone. *)
Definition untrimmed (l : list ascii) : Prop :=
  first_strip white_space l = None ∧ first_strip (reverse <$> white_space) (reverse l) = None.

Lemma trim_go_id n ps l : first_strip ps l = None → trim_go n ps l = l.
Proof. intros H. destruct n; [done|]. simpl. by rewrite H. Qed.
Lemma trim_id s : untrimmed (chars s) → trim s = s.
Proof.
  intros [H1 H2]. unfold trim, trim_start. rewrite trim_go_id by done.
  unfold trim_end. rewrite trim_go_id by done. by rewrite reverse_involutive, of_chars_chars.
Qed.

(** ** [str::parse] at [u64] and [i64] *)
Definition digit (c : ascii) : option Z :=
  let n := Z.of_nat (nat_of_ascii c) in
  if decide (48 ≤ n ≤ 57)%Z then Some (n - 48)%Z else None.
Fixpoint digits (acc : Z) (l : list ascii) : option Z :=
  match l with
  | [] => Some acc
  | c :: l => match digit c with Some d => digits (10 * acc + d)%Z l | None => None end
  end.
Definition in_type (t : int_ty) (z : option Z) : option Z :=
  match z with Some z => if decide (fits t z) then Some z else None | None => None end.
Definition nonempty_digits (l : list ascii) : option Z :=
  match l with [] => None | _ => digits 0 l end.

Definition parse_u64 (s : string) : option Z :=
  in_type u64 match chars s with
              | "+"%char :: l => nonempty_digits l
              | l => nonempty_digits l
              end.
Definition parse_i64 (s : string) : option Z :=
  in_type i64 match chars s with
              | "+"%char :: l => nonempty_digits l
              | "-"%char :: l => Z.opp <$> nonempty_digits l
              | l => nonempty_digits l
              end.

Lemma digit_nonneg c d : digit c = Some d → (0 ≤ d)%Z.
Proof. unfold digit. case_decide; intros [=]; lia. Qed.
Lemma digits_nonneg acc l z : (0 ≤ acc)%Z → digits acc l = Some z → (0 ≤ z)%Z.
Proof.
  revert acc. induction l as [|c l IH]; intros acc Hacc; simpl; [by intros [= ->]|].
  destruct (digit c) eqn:Hd; [|done]. apply IH. apply digit_nonneg in Hd. lia.
Qed.

Lemma in_type_Some t z n : in_type t z = Some n ↔ z = Some n ∧ fits t n.
Proof. unfold in_type. destruct z; [case_decide|]; naive_solver. Qed.

(** A number above the signed range parses as unsigned only. *)
Lemma parse_i64_above s n : parse_u64 s = Some n → (ty_max i64 < n)%Z → parse_i64 s = None.
Proof.
  unfold parse_u64, parse_i64. intros [Hz _]%in_type_Some Hn.
  assert (∀ z, z = Some n → in_type i64 z = None) as Hi.
  { intros z ->. unfold in_type. rewrite decide_False; [done|]. unfold fits. lia. }
  destruct (chars s) as [|c l]; [done|].
  destruct (decide (c = "-"%char)) as [->|Hne]; [done|].
  destruct c as [[] [] [] [] [] [] [] []]; first [done | by apply Hi].
Qed.

(** ** [str::trim_start_matches], [str::trim_end_matches], [str::trim_matches] *)

Fixpoint drop_chars (c : ascii) (l : list ascii) : list ascii :=
  match l with
  | [] => []
  | a :: l' => if ascii_dec a c then drop_chars c l' else l
  end.
Definition trim_start_matches (c : ascii) (s : string) : string := of_chars (drop_chars c (chars s)).
Definition trim_end_matches (c : ascii) (s : string) : string := of_chars (reverse (drop_chars c (reverse (chars s)))).
Definition trim_matches (c : ascii) (s : string) : string := trim_end_matches c (trim_start_matches c s).

Lemma drop_chars_id c l : head l ≠ Some c → drop_chars c l = l.
Proof. destruct l as [|a l]; simpl; [done|]. intros Ha. destruct (ascii_dec a c); [congruence|done]. Qed.
Lemma trim_matches_id c s :
  head (chars s) ≠ Some c → last (chars s) ≠ Some c → trim_matches c s = s.
Proof.
  intros Hh Hl. unfold trim_matches, trim_start_matches, trim_end_matches.
  rewrite (drop_chars_id c (chars s)), chars_of_chars by done.
  rewrite drop_chars_id by (by rewrite head_reverse). by rewrite reverse_involutive, of_chars_chars.
Qed.

(** ** Orders of map keys *)

(** A key of a [BTreeMap]: a countable type with a decidable total order. *)
Class OrdKey (K : Type) `{Countable K} := {
  kle : relation K;
  #[global] kle_dec :: RelDecision kle;
  #[global] kle_po :: PartialOrder kle;
  #[global] kle_total :: Total kle;
}.
#[global] Program Instance string_key : OrdKey string := {| kle := String.le |}.
#[global] Program Instance Z_key : OrdKey Z := {| kle := Z.le |}.

Example split_ex : split "/" "a//b" = ["a"; ""; "b"].
Proof. reflexivity. Qed.
Example trim_ex : trim (String "009" " a b  ") = "a b".
Proof. reflexivity. Qed.
Example parse_i64_ex : parse_i64 "-12" = Some (-12)%Z ∧ parse_u64 "-12" = None ∧ parse_u64 "+7" = Some 7%Z
  ∧ parse_u64 "" = None ∧ parse_i64 "-" = None.
Proof. repeat split. Qed.
