(* ===== verification/BTree.v ===== *)
(** * [BTreeMap] and [BTreeSet] as the program iterates them

    A map is a [gmap]; [entries] lists it in key order, which is the order of
    every Rust iteration ([for (k, v) in &map], [keys], [values], [range]). *)

From S2P Require Import Prelude.
From S2P Require Import Text.

Section entries.
Context `{OrdKey K} {V : Type}.
Implicit Types (m : gmap K V) (X : gset K).

Definition key_le (p q : K * V) : Prop := kle p.1 q.1.
#[global] Instance key_le_dec : RelDecision key_le.
Proof. intros p q. unfold key_le. apply _. Defined.
#[global] Instance key_le_total : Total key_le.
Proof. intros p q. apply (total kle). Qed.
#[global] Instance key_le_trans : Transitive key_le.
Proof. intros p q r. unfold key_le. apply transitivity. Qed.

Definition entries m : list (K * V) := merge_sort key_le (map_to_list m).
Definition keys m : list K := (entries m).*1.
Definition values m : list V := (entries m).*2.
(** [range((Included(start), Unbounded))] *)
Definition range_from (start : K) m : list (K * V) :=
  filter (λ p, kle start p.1) (entries m).
(** [first_key_value] *)
Definition first_entry m : option (K * V) := head (entries m).
Definition set_elems X : list K := merge_sort kle (elements X).

Lemma entries_perm m : entries m ≡ₚ map_to_list m.
Proof. apply merge_sort_Permutation. Qed.
Lemma elem_of_entries m k v : (k, v) ∈ entries m ↔ m !! k = Some v.
Proof. by rewrite entries_perm, elem_of_map_to_list. Qed.
Lemma elem_of_keys m k : k ∈ keys m ↔ is_Some (m !! k).
Proof.
  unfold keys. rewrite list_elem_of_fmap. split.
  - intros ([k' v] & -> & Hkv%elem_of_entries). eauto.
  - intros [v Hv]. exists (k, v). by rewrite elem_of_entries.
Qed.
Lemma elem_of_values m v : v ∈ values m ↔ ∃ k, m !! k = Some v.
Proof.
  unfold values. rewrite list_elem_of_fmap. split.
  - intros ([k v'] & -> & Hkv%elem_of_entries). eauto.
  - intros [k Hk]. exists (k, v). by rewrite elem_of_entries.
Qed.
Lemma NoDup_keys m : NoDup (keys m).
Proof. unfold keys. rewrite entries_perm. apply NoDup_fst_map_to_list. Qed.
Lemma NoDup_entries m : NoDup (entries m).
Proof. apply (NoDup_fmap_1 fst), NoDup_keys. Qed.
Lemma entries_sorted m : StronglySorted key_le (entries m).
Proof. apply StronglySorted_merge_sort; apply _. Qed.
Lemma length_entries m : length (entries m) = size m.
Proof. rewrite entries_perm. apply length_map_to_list. Qed.
Lemma entries_empty : entries (∅ : gmap K V) = [].
Proof. apply Permutation_nil_r. rewrite entries_perm. by rewrite map_to_list_empty. Qed.
Lemma entries_nil_inv m : entries m = [] → m = ∅.
Proof. intros He. apply map_to_list_empty_iff, Permutation_nil_r. by rewrite <-entries_perm, He. Qed.
Lemma list_to_map_entries m : list_to_map (entries m) = m.
Proof.
  rewrite <-(list_to_map_to_list m) at 2. apply list_to_map_proper; [|apply entries_perm].
  apply NoDup_keys.
Qed.

(** A list of the same entries in key order is [entries]. *)
Lemma sorted_entries_unique (l1 l2 : list (K * V)) :
  StronglySorted key_le l1 → StronglySorted key_le l2 → NoDup l1.*1 → l1 ≡ₚ l2 → l1 = l2.
Proof.
  revert l2. induction l1 as [|p l1 IH]; intros l2 Hs1 Hs2 Hnd Hp.
  { by apply Permutation_nil_l. }
  destruct l2 as [|q l2]; [by apply Permutation_nil_r in Hp|].
  assert (p = q) as ->.
  { assert (p ∈ q :: l2) as Hpin by (rewrite <-Hp; by left).
    assert (q ∈ p :: l1) as Hqin by (rewrite Hp; by left).
    apply StronglySorted_inv in Hs1 as [_ Hf1]. apply StronglySorted_inv in Hs2 as [_ Hf2].
    rewrite Forall_forall in Hf1, Hf2.
    apply elem_of_cons in Hpin as [->|Hpin]; [done|].
    apply elem_of_cons in Hqin as [->|Hqin]; [done|].
    assert (p.1 = q.1) as Heq by (apply (anti_symm kle); [by apply Hf1|by apply Hf2]).
    apply NoDup_cons in Hnd as [Hnin _]. destruct Hnin. rewrite Heq.
    apply list_elem_of_fmap. eauto. }
  f_equal. apply Permutation_cons_inv in Hp.
  apply NoDup_cons in Hnd as [_ Hnd]. apply StronglySorted_inv in Hs1 as [? _].
  apply StronglySorted_inv in Hs2 as [? _]. by apply IH.
Qed.

Lemma entries_list_to_map (l : list (K * V)) :
  StronglySorted key_le l → NoDup l.*1 → entries (list_to_map l) = l.
Proof.
  intros Hs Hnd. symmetry. apply sorted_entries_unique; [done|apply entries_sorted|done|].
  rewrite entries_perm. by rewrite map_to_list_to_map.
Qed.

Lemma elem_of_set_elems X k : k ∈ set_elems X ↔ k ∈ X.
Proof. unfold set_elems. by rewrite merge_sort_Permutation, elem_of_elements. Qed.
Lemma NoDup_set_elems X : NoDup (set_elems X).
Proof. unfold set_elems. rewrite merge_sort_Permutation. apply NoDup_elements. Qed.
Lemma set_elems_sorted X : StronglySorted kle (set_elems X).
Proof. apply StronglySorted_merge_sort; apply _. Qed.
Lemma set_elems_singleton k : set_elems {[k]} = [k].
Proof. unfold set_elems. by rewrite elements_singleton. Qed.
Lemma set_elems_empty : set_elems ∅ = [].
Proof. unfold set_elems. by rewrite elements_empty. Qed.
Lemma list_to_set_set_elems X : list_to_set (set_elems X) = X.
Proof. apply set_eq. intros x. by rewrite elem_of_list_to_set, elem_of_set_elems. Qed.
Lemma NoDup_filter_entries (P : K * V → Prop) `{∀ x, Decision (P x)} m : NoDup (filter P (entries m)).*1.
Proof.
  apply NoDup_fmap_fst; [|apply NoDup_filter, NoDup_entries].
  intros k v1 v2 [_ Hv1]%list_elem_of_filter [_ Hv2]%list_elem_of_filter.
  apply elem_of_entries in Hv1, Hv2. congruence.
Qed.
Lemma list_to_map_filter_entries (P : K * V → Prop) `{∀ x, Decision (P x)} m :
  list_to_map (filter P (entries m)) = filter P m.
Proof.
  apply map_eq. intros k. apply option_eq. intros v.
  rewrite <-elem_of_list_to_map by apply NoDup_filter_entries.
  rewrite list_elem_of_filter, elem_of_entries, map_lookup_filter_Some. tauto.
Qed.
Lemma foldl_insert_lookup (l : list (K * V)) m k :
  NoDup l.*1 →
  foldl (λ m p, <[p.1 := p.2]> m) m l !! k =
  match (list_to_map l : gmap K V) !! k with Some v => Some v | None => m !! k end.
Proof.
  revert m. induction l as [|[k' v'] l IH]; intros m Hnd; csimpl in *; [by rewrite lookup_empty|].
  apply NoDup_cons in Hnd as [Hk Hnd]. rewrite IH by done.
  destruct (decide (k' = k)) as [->|Hne].
  - rewrite (not_elem_of_list_to_map_1 l k) by done. by rewrite !lookup_insert_eq.
  - by rewrite !lookup_insert_ne.
Qed.
End entries.

#[export] Hint Resolve NoDup_keys NoDup_entries entries_sorted NoDup_set_elems set_elems_sorted : inferx.

Lemma sorted_set_unique `{OrdKey K} (l1 l2 : list K) :
  StronglySorted kle l1 → StronglySorted kle l2 → l1 ≡ₚ l2 → l1 = l2.
Proof. apply StronglySorted_unique. apply _. Qed.

Lemma set_elems_list_to_set `{OrdKey K} (l : list K) :
  StronglySorted kle l → NoDup l → set_elems (list_to_set l) = l.
Proof.
  intros Hs Hnd. apply sorted_set_unique; [apply set_elems_sorted|done|].
  unfold set_elems. rewrite merge_sort_Permutation. by apply elements_list_to_set.
Qed.

(** ** Scanning a key range for a prefix

    [for (k, v) in map.range(start..) { if k.starts_with(start) {..} else {break} }] *)
Fixpoint take_prefixed {V} (start : string) (l : list (string * V)) : list (string * V) :=
  match l with
  | [] => []
  | (k, v) :: l => if starts_with start k then (k, v) :: take_prefixed start l else []
  end.

Definition prefix_scan {V} (start : string) (m : gmap string V) : list (string * V) :=
  take_prefixed start (range_from start m).

Lemma ascii_compare_refl a : Stdlib.Strings.Ascii.compare a a = Eq.
Proof. unfold Stdlib.Strings.Ascii.compare. apply N.compare_refl. Qed.

Lemma string_le_cons a b s t :
  (String a s ≤ String b t)%string ↔
  Stdlib.Strings.Ascii.compare a b = Lt ∨ (a = b ∧ (s ≤ t)%string).
Proof.
  unfold String.le, String.leb. simpl.
  destruct (Stdlib.Strings.Ascii.compare a b) eqn:Hc.
  - apply Stdlib.Strings.Ascii.compare_eq_iff in Hc as ->. split; [intros Hst; by right|].
    by intros [?|[_ ?]].
  - split; [intros _; by left|done].
  - split; [done|]. intros [?|[-> _]]; [done|]. by rewrite ascii_compare_refl in Hc.
Qed.

(** The keys carrying a prefix [p] form an interval that starts at [p]. *)
Lemma prefix_le p k : starts_with p k = true → (p ≤ k)%string.
Proof.
  intros [t ->]%starts_with_spec. induction p as [|a p IH]; [by destruct t|].
  change (String a p +:+ t) with (String a (p +:+ t)).
  apply string_le_cons. by right.
Qed.

Lemma prefix_interval p k1 k2 :
  (p ≤ k1)%string → (k1 ≤ k2)%string → starts_with p k2 = true → starts_with p k1 = true.
Proof.
  intros H1 H2 [t ->]%starts_with_spec. revert k1 H1 H2.
  induction p as [|a p IH]; intros k1 H1 H2; [by destruct k1|].
  destruct k1 as [|b k1]; [done|].
  change (String a p +:+ t) with (String a (p +:+ t)) in H2.
  apply string_le_cons in H1, H2.
  assert (a = b ∧ (p ≤ k1)%string ∧ (k1 ≤ p +:+ t)%string) as (-> & Hp & Hk).
  { destruct H1 as [H1|[-> H1]], H2 as [H2|[Hba H2]]; try done.
    - exfalso. unfold Stdlib.Strings.Ascii.compare in H1, H2.
      rewrite N.compare_lt_iff in H1, H2. lia.
    - subst b. by rewrite ascii_compare_refl in H1.
    - by rewrite ascii_compare_refl in H2. }
  specialize (IH k1 Hp Hk). unfold starts_with in *. simpl.
  destruct (ascii_dec b b); [done|congruence].
Qed.

(** The scan stops early without missing a key: it returns exactly the entries
    whose key has the prefix, in key order. *)
Lemma prefix_scan_filter {V} start (m : gmap string V) :
  prefix_scan start m = filter (λ p, starts_with start p.1 = true) (entries m).
Proof.
  unfold prefix_scan, range_from. pose proof (entries_sorted m) as Hs.
  induction (entries m) as [|[k v] l IH]; [done|].
  apply StronglySorted_inv in Hs as [Hs Hall].
  destruct (starts_with start k) eqn:Hk.
  - pose proof (prefix_le _ _ Hk). rewrite !filter_cons_True by done.
    simpl. rewrite Hk. f_equal. by apply IH.
  - rewrite (filter_cons_False (λ p, starts_with start p.1 = true)) by (simpl; congruence).
    destruct (decide (kle start k)) as [Hle|Hle];
      [|rewrite filter_cons_False by done; by apply IH].
    rewrite filter_cons_True by done. simpl. rewrite Hk. symmetry.
    apply filter_none. rewrite Forall_forall in Hall. intros [k' v'] Hin Hk'.
    rewrite (prefix_interval start k k' Hle) in Hk; [done| |done]. by apply (Hall (k', v')).
Qed.

Lemma elem_of_prefix_scan {V} start (m : gmap string V) k v :
  (k, v) ∈ prefix_scan start m ↔ m !! k = Some v ∧ starts_with start k = true.
Proof. rewrite prefix_scan_filter, list_elem_of_filter, elem_of_entries. simpl. tauto. Qed.
