(* ===== verification/Regex.v ===== *)
(** * The regular expressions of the validation module

    The [regex] crate is an external engine: it appears as the class
    [RegexEngine], a predicate on a pattern string and a text.  This file gives
    the pattern syntax the code uses ([print] renders an expression as the exact
    pattern text), its language ([Matches]), and a derivative matcher that is
    proved to decide the language, so that the engine's documented behaviour can
    be stated ([Validation.v]) and shown to be realisable. *)

From S2P Require Import Prelude.
From S2P Require Import Text.

(** An item of a bracketed class: a character, an escaped one, a range. *)
Inductive citem :=
| CLit (c : ascii)
| CEsc (c : ascii)
| CRange (a b : ascii).

Inductive regex :=
| Emp                       (* matcher only: no text *)
| Eps                       (* matcher only: the empty text *)
| Chr (c : ascii)           (* a literal character *)
| Esc (c : ascii)           (* an escaped literal character *)
| Cls (cs : list citem)     (* a bracketed class *)
| Seq (r s : regex)
| Star (r : regex)
| Plus (r : regex)
| Opt (r : regex)
| Alt (r s : regex)         (* matcher only: union *)
| Grp (r : regex).          (* parentheses *)

Definition char1 (c : ascii) : string := String c "".

Definition print_item (i : citem) : string :=
  match i with
  | CLit c => char1 c
  | CEsc c => "\" +:+ char1 c
  | CRange a b => char1 a +:+ ("-" +:+ char1 b)
  end.

Fixpoint print_items (l : list citem) : string :=
  match l with [] => "" | i :: l => print_item i +:+ print_items l end.

(** The pattern text of an expression. *)
Fixpoint print (r : regex) : string :=
  match r with
  | Emp | Eps => ""
  | Chr c => char1 c
  | Esc c => "\" +:+ char1 c
  | Cls cs => "[" +:+ (print_items cs +:+ "]")
  | Seq r s => print r +:+ print s
  | Star r => print r +:+ "*"
  | Plus r => print r +:+ "+"
  | Opt r => print r +:+ "?"
  | Alt r s => print r +:+ ("|" +:+ print s)
  | Grp r => "(" +:+ (print r +:+ ")")
  end.

(** ** Language *)

Definition code (c : ascii) : N := Stdlib.Strings.Ascii.N_of_ascii c.

Definition item_has (i : citem) (c : ascii) : bool :=
  match i with
  | CLit d | CEsc d => bool_decide (c = d)
  | CRange a b => (code a <=? code c)%N && (code c <=? code b)%N
  end.
Definition class_has (cs : list citem) (c : ascii) : bool := existsb (λ i, item_has i c) cs.

Inductive Matches : regex → list ascii → Prop :=
| MEps : Matches Eps []
| MChr c : Matches (Chr c) [c]
| MEsc c : Matches (Esc c) [c]
| MCls cs c : class_has cs c = true → Matches (Cls cs) [c]
| MSeq r s l1 l2 : Matches r l1 → Matches s l2 → Matches (Seq r s) (l1 ++ l2)
| MStar0 r : Matches (Star r) []
| MStarS r l1 l2 : Matches r l1 → Matches (Star r) l2 → Matches (Star r) (l1 ++ l2)
| MPlus r l1 l2 : Matches r l1 → Matches (Star r) l2 → Matches (Plus r) (l1 ++ l2)
| MOpt0 r : Matches (Opt r) []
| MOpt1 r l : Matches r l → Matches (Opt r) l
| MAltL r s l : Matches r l → Matches (Alt r s) l
| MAltR r s l : Matches s l → Matches (Alt r s) l
| MGrp r l : Matches r l → Matches (Grp r) l.

#[export] Hint Constructors Matches : inferx.

(** ** A matcher by derivatives *)

Fixpoint nullable (r : regex) : bool :=
  match r with
  | Emp | Chr _ | Esc _ | Cls _ => false
  | Eps | Star _ | Opt _ => true
  | Seq r s => nullable r && nullable s
  | Plus r | Grp r => nullable r
  | Alt r s => nullable r || nullable s
  end.

(** Smart constructors keep derivatives small. *)
Definition seq (r s : regex) : regex :=
  match r with Emp => Emp | Eps => s | _ => Seq r s end.
Definition alt (r s : regex) : regex :=
  match r, s with Emp, _ => s | _, Emp => r | _, _ => Alt r s end.

Fixpoint deriv (c : ascii) (r : regex) : regex :=
  match r with
  | Emp | Eps => Emp
  | Chr d | Esc d => if ascii_dec c d then Eps else Emp
  | Cls cs => if class_has cs c then Eps else Emp
  | Seq r s => if nullable r then alt (seq (deriv c r) s) (deriv c s) else seq (deriv c r) s
  | Star r | Plus r => seq (deriv c r) (Star r)
  | Opt r | Grp r => deriv c r
  | Alt r s => alt (deriv c r) (deriv c s)
  end.

Fixpoint run (r : regex) (l : list ascii) : bool :=
  match l with [] => nullable r | c :: l => run (deriv c r) l end.

Lemma matches_seq_inv r s l :
  Matches (Seq r s) l → ∃ l1 l2, l = l1 ++ l2 ∧ Matches r l1 ∧ Matches s l2.
Proof. inversion 1; subst; eauto. Qed.

Lemma matches_star_inv r l :
  Matches (Star r) l → l = [] ∨ ∃ l1 l2, l = l1 ++ l2 ∧ l1 ≠ [] ∧ Matches r l1 ∧ Matches (Star r) l2.
Proof.
  intros Hm. remember (Star r) as rs eqn:Hr. induction Hm as [| | | | | |r' l1 l2 H1 _ H2 IH| | | | | |];
    try discriminate; [by left|].
  injection Hr as ->. destruct l1 as [|c l1]; [by apply IH|].
  right. exists (c :: l1), l2. auto.
Qed.

Lemma matches_plus_inv r l :
  Matches (Plus r) l → ∃ l1 l2, l = l1 ++ l2 ∧ Matches r l1 ∧ Matches (Star r) l2.
Proof. inversion 1; subst; eauto. Qed.

Lemma matches_alt_inv r s l : Matches (Alt r s) l → Matches r l ∨ Matches s l.
Proof. inversion 1; subst; auto. Qed.

Lemma matches_seq r s l : Matches (seq r s) l ↔ Matches (Seq r s) l.
Proof.
  destruct r; simpl; try done.
  - split; [by inversion 1|]. intros (l1 & l2 & -> & H1 & H2)%matches_seq_inv. inversion H1.
  - split.
    + intros. change l with ([] ++ l). eauto with inferx.
    + intros (l1 & l2 & -> & H1 & H2)%matches_seq_inv. by inversion H1.
Qed.

Lemma matches_alt r s l : Matches (alt r s) l ↔ Matches (Alt r s) l.
Proof.
  assert (∀ r, Matches r l ↔ Matches (Alt Emp r) l) as He1.
  { intros r'. split; [eauto with inferx|]. intros [H|H]%matches_alt_inv; [inversion H|done]. }
  assert (∀ r, Matches r l ↔ Matches (Alt r Emp) l) as He2.
  { intros r'. split; [eauto with inferx|]. intros [H|H]%matches_alt_inv; [done|inversion H]. }
  destruct r; simpl; try apply He1; destruct s; try done; apply He2.
Qed.

Lemma nullable_matches r : nullable r = true ↔ Matches r [].
Proof.
  induction r as [| | | | |r IHr s IHs|r IH|r IH|r IH|r IHr s IHs|r IH]; simpl.
  - split; [done|inversion 1].
  - split; auto with inferx.
  - split; [done|inversion 1].
  - split; [done|inversion 1].
  - split; [done|inversion 1].
  - rewrite andb_true_iff, IHr, IHs. split.
    + intros [H1 H2]. change (@nil ascii) with (@nil ascii ++ []). eauto with inferx.
    + intros (l1 & l2 & Hn & H1 & H2)%matches_seq_inv.
      symmetry in Hn. apply app_nil in Hn as [-> ->]. done.
  - split; auto with inferx.
  - rewrite IH. split.
    + intros. change (@nil ascii) with (@nil ascii ++ []). eauto with inferx.
    + intros (l1 & l2 & Hn & H1 & H2)%matches_plus_inv.
      symmetry in Hn. apply app_nil in Hn as [-> ->]. done.
  - split; auto with inferx.
  - rewrite orb_true_iff, IHr, IHs. split; [intros []; eauto with inferx|apply matches_alt_inv].
  - rewrite IH. split; [auto with inferx|by inversion 1].
Qed.

Lemma deriv_matches c r l : Matches (deriv c r) l ↔ Matches r (c :: l).
Proof.
  revert l. induction r as [|c'|c'|c'|cs|r IHr s IHs|r IH|r IH|r IH|r IHr s IHs|r IH]; intros l; simpl.
  - split; inversion 1.
  - split; inversion 1.
  - destruct (ascii_dec c c') as [->|Hne]; split; inversion 1; subst; auto with inferx; done.
  - destruct (ascii_dec c c') as [->|Hne]; split; inversion 1; subst; auto with inferx; done.
  - destruct (class_has cs c) eqn:Hc; split; inversion 1; subst; auto with inferx; congruence.
  - assert (Matches (seq (deriv c r) s) l ↔ ∃ l1 l2, l = l1 ++ l2 ∧ Matches r (c :: l1) ∧ Matches s l2)
      as Hseq.
    { rewrite matches_seq. split.
      - intros (l1 & l2 & -> & H1 & H2)%matches_seq_inv. apply IHr in H1. eauto.
      - intros (l1 & l2 & -> & H1 & H2). apply IHr in H1. eauto with inferx. }
    assert (Matches (Seq r s) (c :: l) ↔
      Matches (seq (deriv c r) s) l ∨ Matches r [] ∧ Matches s (c :: l)) as Hall.
    { rewrite Hseq. split.
      - intros (l1 & l2 & Heq & H1 & H2)%matches_seq_inv. destruct l1 as [|c1 l1]; simpl in Heq.
        + right. by subst.
        + injection Heq as -> ->. left. eauto.
      - intros [(l1 & l2 & -> & H1 & H2)|[H1 H2]].
        + change (c :: l1 ++ l2) with ((c :: l1) ++ l2). eauto with inferx.
        + change (c :: l) with ([] ++ c :: l). eauto with inferx. }
    rewrite Hall. destruct (nullable r) eqn:Hn.
    + rewrite matches_alt. apply nullable_matches in Hn. rewrite <-IHs. split.
      * intros [|]%matches_alt_inv; auto.
      * intros [|[_ ?]]; auto with inferx.
    + split; [auto|]. intros [H|[H _]]; [done|]. apply nullable_matches in H. congruence.
  - rewrite matches_seq. split.
    + intros (l1 & l2 & -> & H1 & H2)%matches_seq_inv. apply IH in H1.
      change (c :: l1 ++ l2) with ((c :: l1) ++ l2). eauto with inferx.
    + intros [H|(l1 & l2 & Heq & Hne & H1 & H2)]%matches_star_inv; [done|].
      destruct l1 as [|c1 l1]; [done|]. injection Heq as -> ->. apply IH in H1. eauto with inferx.
  - rewrite matches_seq. split.
    + intros (l1 & l2 & -> & H1 & H2)%matches_seq_inv. apply IH in H1.
      change (c :: l1 ++ l2) with ((c :: l1) ++ l2). eauto with inferx.
    + intros (l1 & l2 & Heq & H1 & H2)%matches_plus_inv.
      destruct l1 as [|c1 l1]; simpl in Heq.
      * subst. apply matches_star_inv in H2 as [|(l1 & l3 & Heq & Hne & H2 & H3)]; [done|].
        destruct l1 as [|c1 l1]; [done|]. injection Heq as -> ->. apply IH in H2. eauto with inferx.
      * injection Heq as -> ->. apply IH in H1. eauto with inferx.
  - rewrite IH. split; [auto with inferx|by inversion 1].
  - rewrite matches_alt. split.
    + intros [H%IHr|H%IHs]%matches_alt_inv; auto with inferx.
    + intros [H%IHr|H%IHs]%matches_alt_inv; auto with inferx.
  - rewrite IH. split; [auto with inferx|by inversion 1].
Qed.

(** The matcher decides the language. *)
Lemma run_matches r l : run r l = true ↔ Matches r l.
Proof.
  revert r. induction l as [|c l IH]; intros r; simpl.
  - apply nullable_matches.
  - rewrite IH. apply deriv_matches.
Qed.

(** ** Languages of the shapes the patterns use *)

Lemma matches_star_cls cs l : Matches (Star (Cls cs)) l ↔ Forall (λ c, class_has cs c = true) l.
Proof.
  split.
  - intros Hm. remember (Star (Cls cs)) as r eqn:Hr.
    induction Hm as [| | | | | |r' l1 l2 H1 _ H2 IH| | | | | |]; try discriminate; [constructor|].
    injection Hr as ->. inversion H1; subst. constructor; auto.
  - induction 1 as [|c l Hc _ IH]; [constructor|]. change (c :: l) with ([c] ++ l).
    eauto with inferx.
Qed.

Lemma matches_plus_cls cs l :
  Matches (Plus (Cls cs)) l ↔ l ≠ [] ∧ Forall (λ c, class_has cs c = true) l.
Proof.
  split.
  - intros (l1 & l2 & -> & H1 & H2)%matches_plus_inv.
    inversion H1; subst. split; [done|]. constructor; [done|]. by apply matches_star_cls.
  - intros [Hne Hall]. destruct Hall as [|c l Hc Hall]; [done|].
    change (c :: l) with ([c] ++ l). apply matches_star_cls in Hall. eauto with inferx.
Qed.

Lemma matches_cls_seq cs r l :
  Matches (Seq (Cls cs) r) l ↔ ∃ c l', l = c :: l' ∧ class_has cs c = true ∧ Matches r l'.
Proof.
  split.
  - intros (l1 & l2 & -> & H1 & H2)%matches_seq_inv. inversion H1; subst. eauto.
  - intros (c & l' & -> & Hc & H). change (c :: l') with ([c] ++ l'). eauto with inferx.
Qed.

Lemma matches_opt_grp r l : Matches (Opt (Grp r)) l ↔ l = [] ∨ Matches r l.
Proof.
  split.
  - inversion 1; subst; [by left|].
    match goal with H : Matches (Grp _) _ |- _ => inversion H; auto end.
  - intros [->|]; auto with inferx.
Qed.

(** [( C E* )? C]-shaped and [C ( E* C )?]-shaped expressions both describe the
    non-empty texts over [E] that start and end with a character of [C]. *)
Definition framed (C E : list citem) (l : list ascii) : Prop :=
  ∃ a b, head l = Some a ∧ last l = Some b ∧ class_has C a = true ∧ class_has C b = true
         ∧ Forall (λ c, class_has E c = true) l.

Lemma matches_star_then_cls C E l :
  Matches (Seq (Star (Cls E)) (Cls C)) l ↔
  ∃ l' b, l = l' ++ [b] ∧ Forall (λ c, class_has E c = true) l' ∧ class_has C b = true.
Proof.
  split.
  - intros (l1 & l2 & -> & H1 & H2)%matches_seq_inv. apply matches_star_cls in H1.
    inversion H2; subst. eauto.
  - intros (l' & b & -> & H1 & H2). apply matches_star_cls in H1. eauto with inferx.
Qed.

Lemma framed_cons C E a l' b :
  (∀ c, class_has C c = true → class_has E c = true) →
  Forall (λ c, class_has E c = true) l' → class_has C a = true → class_has C b = true →
  framed C E (a :: l' ++ [b]).
Proof.
  intros Hsub Hall Ha Hb. exists a, b. repeat split; [|done|done|].
  - change (a :: l' ++ [b]) with ((a :: l') ++ [b]). by rewrite last_snoc.
  - constructor; [auto|]. apply Forall_app. auto.
Qed.

Lemma framed_inv C E l :
  framed C E l → ∃ a, l = [a] ∧ class_has C a = true ∨
    ∃ l' b, l = a :: l' ++ [b] ∧ class_has C a = true ∧ class_has C b = true ∧
            Forall (λ c, class_has E c = true) l'.
Proof.
  intros (a & b & Hh & Hl & Ha & Hb & Hall). destruct l as [|c l]; [done|].
  injection Hh as ->. exists a. destruct l as [|c l _] using rev_ind; [by left|].
  right. exists l, c. change (a :: l ++ [c]) with ((a :: l) ++ [c]) in Hl. rewrite last_snoc in Hl.
  injection Hl as ->. apply Forall_cons in Hall as [_ Hall].
  apply Forall_app in Hall as [Hall _]. auto.
Qed.

Lemma matches_framed_opt_last C E l :
  (∀ c, class_has C c = true → class_has E c = true) →
  Matches (Seq (Cls C) (Opt (Grp (Seq (Star (Cls E)) (Cls C))))) l ↔ framed C E l.
Proof.
  intros Hsub. rewrite matches_cls_seq. split.
  - intros (a & l1 & -> & Ha & [->|Hm]%matches_opt_grp).
    + exists a, a. repeat split; auto.
    + apply matches_star_then_cls in Hm as (l' & b & -> & Hall & Hb). by apply framed_cons.
  - intros (a & [[-> Ha]|(l' & b & -> & Ha & Hb & Hall)])%framed_inv;
      exists a; eexists; split_and!; try done; apply matches_opt_grp; [by left|right].
    apply matches_star_then_cls. eauto.
Qed.

Lemma matches_framed_opt_first C E l :
  (∀ c, class_has C c = true → class_has E c = true) →
  Matches (Seq (Opt (Grp (Seq (Cls C) (Star (Cls E))))) (Cls C)) l ↔ framed C E l.
Proof.
  intros Hsub. split.
  - intros (l1 & l2 & -> & H1 & H2)%matches_seq_inv. inversion H2; subst.
    apply matches_opt_grp in H1 as [->|H1]; [simpl; by exists c, c; repeat split; auto|].
    apply matches_cls_seq in H1 as (a & l' & -> & Ha & Hl). apply matches_star_cls in Hl.
    by apply framed_cons.
  - intros (a & [[-> Ha]|(l' & b & -> & Ha & Hb & Hall)])%framed_inv.
    + change [a] with ([] ++ [a]). eauto with inferx.
    + change (a :: l' ++ [b]) with ((a :: l') ++ [b]).
      constructor; [|eauto with inferx]. apply matches_opt_grp. right.
      apply matches_cls_seq. exists a, l'. rewrite matches_star_cls. auto.
Qed.
