(* ===== verification/Common.v ===== *)
(** * Error types, allocation states and IPv4 addresses

    The error types of the two crates ([Error] of inferxlib, [Share.Error] of
    ixshare) and the conversion between them.  A payload that is a value of a
    foreign error type is kept as the text it renders to; an argument printed
    with [{:?}] is left out of a message.  No code branches on a message. *)

From S2P Require Import Prelude.
From S2P Require Import Text.

(** inferxlib/src/common.rs:6-14 [Error] *)
Inductive Error :=
| CommonError (msg : string)
| NotExist (msg : string)
| Exist (msg : string)
| SchedulerNoEnoughResource (msg : string)
| SerdeJsonError (msg : string)
| StdIOErr (msg : string)
| ReqWestErr (msg : string).

#[global] Instance Error_eq_dec : EqDecision Error.
Proof. solve_decision. Defined.

(** [Result<T>] of inferxlib/src/common.rs *)
Abbreviation Result := (outcome Error).

(** ixshare/src/common.rs:103-109 [AllocState] *)
Record AllocState := MkAllocState {
  as_cpu : bool;
  as_memory : bool;
  as_cacheMem : bool;
  as_gpuType : bool;
  as_gpu : bool;
}.

#[global] Instance AllocState_eq_dec : EqDecision AllocState.
Proof. solve_decision. Defined.

(** ixshare/src/common.rs:112-114 [AllocState::Ok] *)
Definition AllocState_Ok (s : AllocState) : bool :=
  as_cpu s && as_memory s && as_cacheMem s && as_gpuType s && as_gpu s.

Module Share.

(** ixshare/src/common.rs:30-82 [Error]: the constructors the modelled code
    builds or converts to; the others wrap errors of code that is not modelled. *)
Inductive Error :=
| SchedulerErr (msg : string)
| SchedulerNoEnoughResource (msg : string)
| ScheduleFail (st : AllocState)
| NotExist (msg : string)
| PeerNotExist (msg : string)
| Exist (msg : string)
| CommonError (msg : string)
| StdIOErr (msg : string)
| SerdeJsonError (msg : string)
| ReqWestErr (msg : string)
| TokioChannFull
| TokioChannClose
| ProcessDone
| Timeout (ms : Z)
| QueueFull
| NoPermission
| MinRevsionErr (minRevision actualRevision : Z)
| NewKeyExistsErr (key : string) (rv : Z)
| DeleteRevNotMatchErr (expectRv actualRv : Z)
| UpdateRevNotMatchErr (expectRv actualRv : Z)
| SqlxError (code constraint : option string) (message : string)   (* an error of the database; the others are [Foreign] *)
| Foreign (msg : string).

(** [Result<T>] of ixshare/src/common.rs *)
Abbreviation Result := (outcome Error).

(** ixshare/src/common.rs:86-100 [From<InferxLibError>] *)
Definition from_lib (e : Common.Error) : Error :=
  match e with
  | Common.CommonError s => CommonError s
  | Common.NotExist s => NotExist s
  | Common.Exist s => Exist s
  | Common.SchedulerNoEnoughResource s => SchedulerNoEnoughResource s
  | Common.SerdeJsonError s => SerdeJsonError s
  | Common.StdIOErr s => StdIOErr s
  | Common.ReqWestErr s => ReqWestErr s
  end.

(** The [?] operator on a call into inferxlib. *)
Definition lift {A} (m : outcome Common.Error A) : Result A :=
  match m with Ok a => Ok a | Err e => Err (from_lib e) | Panic w => Panic w end.

End Share.

#[global] Instance ShareError_eq_dec : EqDecision Share.Error.
Proof. solve_decision. Defined.

Lemma lift_Ok {A} (m : Result A) a : Share.lift m = Ok a ↔ m = Ok a.
Proof. destruct m; simpl; split; congruence. Qed.

(** ** IPv4 addresses *)

Definition byte_at (a : Z) (i : Z) : Z := cast u8 (Z.shiftr a i).

(** ixshare/src/common.rs:273-280 [IpAddress::AsBytes] *)
Definition AsBytes (a : Z) : list Z := [byte_at a 24; byte_at a 16; byte_at a 8; byte_at a 0].

(** ixshare/src/common.rs:282-288 [IpAddress::New] *)
Definition IpAddress_New (b0 b1 b2 b3 : Z) : Z :=
  Z.lor (Z.lor (Z.lor (Z.shiftl b0 24) (Z.shiftl b1 16)) (Z.shiftl b2 8)) (Z.shiftl b3 0).

Lemma byte_at_land a i : byte_at a i = Z.land (Z.shiftr a i) 255.
Proof.
  unfold byte_at, cast. simpl. change 255%Z with (Z.ones 8) at 2.
  rewrite Z.land_ones by lia. rewrite Z.sub_0_r, Z.add_0_r. done.
Qed.

(** One decimal field of an address, as [Ipv4Addr::from_str] reads it: one to
    three digits, no leading zero, at most 255. *)
Definition ipv4_octet (s : string) : option Z :=
  match chars s with
  | [] => None
  | l => if decide (3 < length l) then None
         else if decide (1 < length l ∧ head l = Some "0"%char) then None
         else in_type u8 (digits 0 l)
  end.
(** ixshare/src/common.rs:295-308 [IpAddress::FromString] *)
Definition IpAddress_FromString (s : string) : Share.Result Z :=
  match ipv4_octet <$> split "." s with
  | [Some a; Some b; Some c; Some d] => Ok (IpAddress_New a b c d)
  | _ => Err (Share.CommonError ("IpAddress fail to parse " +:+ s +:+ " with error "))
  end.

Lemma byte_at_bits a i k :
  (0 ≤ i)%Z → (0 ≤ k)%Z → Z.testbit (byte_at a i) k = (k <? 8)%Z && Z.testbit a (k + i).
Proof.
  intros Hi Hk. rewrite byte_at_land, Z.land_spec, Z.shiftr_spec by done.
  change 255%Z with (Z.ones 8). rewrite Z.testbit_ones_nonneg by lia. apply andb_comm.
Qed.

(** Reassembling the bytes of an address gives the address back. *)
Lemma IpAddress_New_AsBytes a :
  fits u32 a →
  match AsBytes a with [b0; b1; b2; b3] => IpAddress_New b0 b1 b2 b3 = a | _ => False end.
Proof.
  intros Ha. unfold AsBytes, IpAddress_New. apply Z.bits_inj'. intros n Hn.
  rewrite !Z.lor_spec, !Z.shiftl_spec by done.
  assert (∀ i, (0 ≤ i)%Z → Z.testbit (byte_at a i) (n - i) =
    (i <=? n)%Z && (n <? i + 8)%Z && Z.testbit a n) as Hb.
  { intros i Hi. destruct (Z.leb_spec i n).
    - rewrite byte_at_bits by lia. replace (n - i + i)%Z with n by lia.
      destruct (Z.ltb_spec (n - i) 8), (Z.ltb_spec n (i + 8)); try lia; done.
    - rewrite Z.testbit_neg_r by lia. done. }
  rewrite !Hb by lia.
  destruct (decide (n < 32)%Z) as [Hlt|Hge].
  - destruct (Z.leb_spec 24 n), (Z.ltb_spec n (24 + 8)), (Z.leb_spec 16 n), (Z.ltb_spec n (16 + 8)),
      (Z.leb_spec 8 n), (Z.ltb_spec n (8 + 8)), (Z.leb_spec 0 n), (Z.ltb_spec n (0 + 8)); try lia;
      simpl; rewrite ?orb_false_r; done.
  - assert (Z.testbit a n = false) as ->.
    { unfold fits in Ha. simpl in Ha. destruct (decide (a = 0%Z)) as [->|]; [apply Z.testbit_0_l|].
      apply Z.bits_above_log2; [lia|]. apply Z.log2_lt_pow2; [lia|].
      eapply Z.lt_le_trans with (2 ^ 32)%Z; [lia|]. apply Z.pow_le_mono_r; lia. }
    by rewrite !andb_false_r.
Qed.
