(* ===== verification/Validation.v ===== *)
(** * Name and value validation (inferxlib/src/validation.rs)

    Every validator of the file except the three that delegate to the standard
    library's [IpAddr] parser.  The [regex] crate is the class [RegexEngine];
    [RegexSpec] states its documented behaviour on the patterns the file
    compiles, and [derivative_engine] shows it can be met. *)

From S2P Require Import Prelude.
From S2P Require Import Text.
From S2P Require Import Regex.
From S2P Require Import Common.

(** ** Patterns *)

Definition lower : citem := CRange "a" "z".
Definition upper : citem := CRange "A" "Z".
Definition digit09 : citem := CRange "0" "9".

(** inferxlib/src/validation.rs:26-26 [QNAME_CHAR_FMT] *)
Definition QNAME_CHAR_FMT : string := "[A-Za-z0-9]".
(** inferxlib/src/validation.rs:27-27 [QNAME_EXT_CHAR_FMT] *)
Definition QNAME_EXT_CHAR_FMT : string := "[-A-Za-z0-9_.]".
(** inferxlib/src/validation.rs:20-21 [QUALIFIED_NAME_FMT] *)
Definition QUALIFIED_NAME_FMT : string :=
  "(" +:+ QNAME_CHAR_FMT +:+ QNAME_EXT_CHAR_FMT +:+ "*)?" +:+ QNAME_CHAR_FMT.
(** inferxlib/src/validation.rs:29-29 [QUALIFIED_NAME_MAX_LENGTH] *)
Definition QUALIFIED_NAME_MAX_LENGTH : nat := 63.
(** inferxlib/src/validation.rs:156-156 [DNS1123_LABEL_FMT] *)
Definition DNS1123_LABEL_FMT : string := "[a-z0-9]([-a-z0-9]*[a-z0-9])?".
(** inferxlib/src/validation.rs:195-196 [DNS1123_SUBDOMAIN_FMT] *)
Definition DNS1123_SUBDOMAIN_FMT : string :=
  DNS1123_LABEL_FMT +:+ "(\." +:+ DNS1123_LABEL_FMT +:+ ")*".
(** inferxlib/src/validation.rs:192-192 [DNS1123_SUBDOMAIN_MAX_LENGTH] *)
Definition DNS1123_SUBDOMAIN_MAX_LENGTH : nat := 253.
(** inferxlib/src/validation.rs:217-217 [DNS1035_LABEL_FMT] *)
Definition DNS1035_LABEL_FMT : string := "[a-z]([-a-z0-9]*[a-z0-9])?".
(** inferxlib/src/validation.rs:221-221 [DNS1035_LABEL_MAX_LENGTH] *)
Definition DNS1035_LABEL_MAX_LENGTH : nat := 63.
(** inferxlib/src/validation.rs:250-253 [WILDCARD_DNS1123_SUBDOMAIN_FMT] *)
Definition WILDCARD_DNS1123_SUBDOMAIN_FMT : string := "\*\." +:+ DNS1123_LABEL_FMT.
(** inferxlib/src/validation.rs:276-276 [C_IDENTIFIER_FMT] *)
Definition C_IDENTIFIER_FMT : string := "[A-Za-z_][A-Za-z0-9_]*".
(** inferxlib/src/validation.rs:100-100 [HTTP_PATH_FMT] *)
Definition HTTP_PATH_FMT : string := "[A-Za-z0-9/\-._~%!$&'()*+,;=:]+".
(** inferxlib/src/validation.rs:338-338 [PORT_NAME_CHARSET_REGEX] *)
Definition PORT_NAME_CHARSET_FMT : string := "[-a-z0-9]+".
(** inferxlib/src/validation.rs:339-339 [PORT_NAME_ONE_LETTER_REGEXP] *)
Definition PORT_NAME_ONE_LETTER_REGEXP : string := "[a-z]".
(** inferxlib/src/validation.rs:433-433 [PERCENT_FMT] *)
Definition PERCENT_FMT : string := "[0-9]+%".
(** inferxlib/src/validation.rs:451-451 [HTTP_HEADER_NAME_FMT] *)
Definition HTTP_HEADER_NAME_FMT : string := "[-A-Za-z0-9]+".
(** inferxlib/src/validation.rs:470-470 [ENV_VAR_NAME_FMT] *)
Definition ENV_VAR_NAME_FMT : string := "[-._a-zA-Z][-._a-zA-Z0-9]*".
(** inferxlib/src/validation.rs:487-487 [CONFIG_MAP_KEY_FMT] *)
Definition CONFIG_MAP_KEY_FMT : string := "[-._a-zA-Z][-._a-zA-Z0-9]*".

(** The same patterns as expressions. *)
Definition qname_char : list citem := [upper; lower; digit09].
Definition qname_ext : list citem := [CLit "-"; upper; lower; digit09; CLit "_"; CLit "."].
Definition r_qualified : regex := Seq (Opt (Grp (Seq (Cls qname_char) (Star (Cls qname_ext))))) (Cls qname_char).
Definition dns_char : list citem := [lower; digit09].
Definition dns_ext : list citem := [CLit "-"; lower; digit09].
Definition r_label : regex := Seq (Cls dns_char) (Opt (Grp (Seq (Star (Cls dns_ext)) (Cls dns_char)))).
Definition r_subdomain : regex := Seq r_label (Star (Grp (Seq (Esc ".") r_label))).
Definition r_label1035 : regex :=
  Seq (Cls [lower]) (Opt (Grp (Seq (Star (Cls dns_ext)) (Cls dns_char)))).
Definition r_wildcard : regex := Seq (Esc "*") (Seq (Esc ".") r_label).
Definition r_cident : regex :=
  Seq (Cls [upper; lower; CLit "_"]) (Star (Cls [upper; lower; digit09; CLit "_"])).
Definition http_path_cls : list citem :=
  [upper; lower; digit09; CLit "/"; CEsc "-"] ++ (CLit <$> chars "._~%!$&'()*+,;=:").
Definition r_http_path : regex := Plus (Cls http_path_cls).
Definition r_port_name : regex := Plus (Cls dns_ext).
Definition r_percent : regex := Seq (Plus (Cls [digit09])) (Chr "%").
Definition r_header : regex := Plus (Cls [CLit "-"; upper; lower; digit09]).
Definition env_first : list citem := [CLit "-"; CLit "."; CLit "_"; lower; upper].
Definition r_env : regex := Seq (Cls env_first) (Star (Cls (env_first ++ [digit09]))).

(** The anchored patterns compiled with [^] and [$], with their expressions. *)
Definition anchored : list (string * regex) :=
  [(QUALIFIED_NAME_FMT, r_qualified); (DNS1123_LABEL_FMT, r_label);
   (DNS1123_SUBDOMAIN_FMT, r_subdomain); (DNS1035_LABEL_FMT, r_label1035);
   (WILDCARD_DNS1123_SUBDOMAIN_FMT, r_wildcard); (C_IDENTIFIER_FMT, r_cident);
   (HTTP_PATH_FMT, r_http_path); (PORT_NAME_CHARSET_FMT, r_port_name);
   (PERCENT_FMT, r_percent); (HTTP_HEADER_NAME_FMT, r_header);
   (ENV_VAR_NAME_FMT, r_env)].

(** Each expression prints to the pattern text of the source. *)
Lemma anchored_print : Forall (λ p, print p.2 = p.1) anchored.
Proof. repeat constructor. Qed.

Definition anchor (fmt : string) : string := "^" +:+ fmt +:+ "$".

(** ** The regular-expression engine *)

Class RegexEngine := is_match : string → string → bool.

(** Documented behaviour of [Regex::is_match]: with [^] and [$] the whole text
    is matched, without anchors some part of it is. *)
Class RegexSpec `{RegexEngine} : Prop := {
  is_match_anchored fmt r s :
    (fmt, r) ∈ anchored → is_match (anchor fmt) s = true ↔ Matches r (chars s);
  is_match_letter s :
    is_match PORT_NAME_ONE_LETTER_REGEXP s = true ↔
    ∃ c, c ∈ chars s ∧ class_has [lower] c = true;
}.

(** An engine with that behaviour: the derivative matcher on the known patterns. *)
Definition lookup_pattern (pat : string) : option regex :=
  snd <$> list_find (λ p, anchor p.1 = pat) anchored ≫= λ p, Some p.2.
Definition derivative_engine : RegexEngine := λ pat s,
  if decide (pat = PORT_NAME_ONE_LETTER_REGEXP) then existsb (class_has [lower]) (chars s)
  else match lookup_pattern pat with Some r => run r (chars s) | None => false end.

Lemma lookup_pattern_anchored fmt r : (fmt, r) ∈ anchored → lookup_pattern (anchor fmt) = Some r.
Proof.
  intros Hin. repeat (apply elem_of_cons in Hin as [[= -> ->]|Hin]; [by vm_compute|]).
  by apply not_elem_of_nil in Hin.
Qed.

#[global] Instance derivative_engine_spec : @RegexSpec derivative_engine.
Proof.
  constructor; unfold is_match, derivative_engine.
  - intros fmt r s Hin. rewrite decide_False.
    + rewrite (lookup_pattern_anchored fmt r) by done. apply run_matches.
    + destruct fmt as [|? ?]; unfold anchor; intros [=].
  - intros s. rewrite decide_True by done. rewrite existsb_exists.
    setoid_rewrite list_elem_of_In. done.
Qed.

(** ** The validators *)

Section validators.
Context `{Eng : RegexEngine}.

Definition matches_fmt (fmt s : string) : bool := is_match (anchor fmt) s.
Definition common_err {A} (msg : string) : Result A := Err (CommonError msg).

(** inferxlib/src/validation.rs:510-512 [InclusiveRangeError] *)
Definition InclusiveRangeError (lo hi : Z) : Error :=
  CommonError ("must be between " +:+ pretty lo +:+ " and " +:+ pretty hi +:+ ", inclusive").

(** inferxlib/src/validation.rs:203-215 [IsDNS1123Subdomain] *)
Definition IsDNS1123Subdomain (value : string) : Result unit :=
  if DNS1123_SUBDOMAIN_MAX_LENGTH <? len value
  then common_err "DNS1123Subdomain len must be less than 254"
  else if negb (matches_fmt DNS1123_SUBDOMAIN_FMT value)
  then common_err "a lowercase RFC 1123 subdomain must consist of lower case alphanumeric characters, '-' or '.', and must start and end with an alphanumeric character"
  else Ok tt.

(** inferxlib/src/validation.rs:36-72 [IsQualifiedName] *)
Definition IsQualifiedName (value : string) : Result unit :=
  let parts := split "/" value in
  name ← match parts with
         | [name] => Ok name
         | [prefix; name] =>
             if len prefix =? 0 then common_err "Prefix must be non empty"
             else _ ← IsDNS1123Subdomain prefix; Ok name
         | _ => common_err ("'" +:+ value +:+ "' is not a qualified name")
         end;
  if len name =? 0 then common_err "Name must be non empty"
  else if QUALIFIED_NAME_MAX_LENGTH <? len name then common_err "Name len must be less than 64"
  else if negb (matches_fmt QUALIFIED_NAME_FMT name) then common_err "Name is not legal"
  else Ok tt.

(** inferxlib/src/validation.rs:169-188 [IsDNS1123Label] *)
Definition IsDNS1123Label (value : string) : Result unit :=
  if QUALIFIED_NAME_MAX_LENGTH <? len value
  then common_err "DNS1123Label len must be less than 64"
  else if negb (matches_fmt DNS1123_LABEL_FMT value) then
    if matches_fmt DNS1123_SUBDOMAIN_FMT value
    then common_err "DNS1123Label must not contain dots"
    else common_err "a lowercase RFC 1123 label must consist of lower case alphanumeric characters or '-', and must start and end with an alphanumeric character"
  else Ok tt.

(** [name.ends_with(".")] and [&name[0..name.len() - 1]] *)
Definition strip_dot (name : string) : string :=
  match last (chars name) with
  | Some "."%char => of_chars (take (len name - 1) (chars name))
  | _ => name
  end.

(** inferxlib/src/validation.rs:74-98 [IsFullyQualifiedDomainName] *)
Definition IsFullyQualifiedDomainName (name : string) : Result unit :=
  if len name =? 0 then common_err "Name must be non empty"
  else
    let name := strip_dot name in
    _ ← IsDNS1123Subdomain name;
    let parts := split "." name in
    if length parts <? 2
    then common_err "should be a domain with at least two segments separated by dots"
    else foldlM (λ _ label, IsDNS1123Label label) tt parts.

Definition bad_path_msg : string :=
  "must be a domain-prefixed path (such as " +:+ String "034" ("acme.io/foo" +:+ String "034" "").

(** inferxlib/src/validation.rs:111-133 [IsDomainPrefixedPath] *)
Definition IsDomainPrefixedPath (dpPath : string) : Result unit :=
  if len dpPath =? 0 then common_err "Name must be non empty"
  else
    match splitn2 "/" dpPath with
    | [host; path] =>
        if (len host =? 0) || (len path =? 0)
        then common_err bad_path_msg
        else
          _ ← IsDNS1123Subdomain host;
          if negb (matches_fmt HTTP_PATH_FMT path) then common_err ("Invalid path: " +:+ path)
          else Ok tt
    | _ => common_err bad_path_msg
    end.

(** inferxlib/src/validation.rs:138-154 [IsValidLabelValue] *)
Definition IsValidLabelValue (val : string) : Result unit :=
  if QUALIFIED_NAME_MAX_LENGTH <? len val
  then common_err ("must be no more than " +:+ pretty (Z.of_nat QUALIFIED_NAME_MAX_LENGTH)
                   +:+ " characters, actual " +:+ pretty (Z.of_nat (len val)))
  else if negb (matches_fmt QUALIFIED_NAME_FMT val)
  then common_err ("a valid label must be an empty string or consist of alphanumeric characters, '-', '_' or '.', and must start and end with an alphanumeric character actual:" +:+ val)
  else Ok tt.

(** inferxlib/src/validation.rs:231-243 [IsDNS1035Label] *)
Definition IsDNS1035Label (value : string) : Result unit :=
  if DNS1035_LABEL_MAX_LENGTH <? len value
  then common_err "DNS1035 Label len must be less than 64"
  else if negb (matches_fmt DNS1035_LABEL_FMT value)
  then common_err "a DNS-1035 label must consist of lower case alphanumeric characters or '-', start with an alphabetic character, and end with an alphanumeric character"
  else Ok tt.

(** inferxlib/src/validation.rs:259-274 [IsWildcardDNS1123Subdomain] *)
Definition IsWildcardDNS1123Subdomain (value : string) : Result unit :=
  if DNS1123_SUBDOMAIN_MAX_LENGTH <? len value
  then common_err "wildcard DNS1123 Subdomain len must be less than 254"
  else if negb (matches_fmt WILDCARD_DNS1123_SUBDOMAIN_FMT value)
  then common_err "a wildcard DNS-1123 subdomain must start with '*.', followed by a valid DNS subdomain, which must consist of lower case alphanumeric characters, '-' or '.' and end with an alphanumeric character"
  else Ok tt.

(** inferxlib/src/validation.rs:286-292 [IsCIdentifier] *)
Definition IsCIdentifier (value : string) : Result unit :=
  if negb (matches_fmt C_IDENTIFIER_FMT value)
  then common_err "a valid C identifier must start with alphabetic character or '_', followed by a string of alphanumeric characters or '_'"
  else Ok tt.

(** inferxlib/src/validation.rs:304-310 [IsInRange] *)
Definition IsInRange (value lo hi : Z) : Result unit :=
  if (value >=? lo)%Z && (value <=? hi)%Z then Ok tt else Err (InclusiveRangeError lo hi).

(** inferxlib/src/validation.rs:295-301 [IsValidPortNum] *)
Definition IsValidPortNum (port : Z) : Result unit :=
  if (1 <=? port)%Z && (port <=? 65535)%Z then Ok tt else Err (InclusiveRangeError 1 65535).

(** inferxlib/src/validation.rs:314-315 [MIN_USER_ID, MAX_USER_ID] *)
Definition MIN_USER_ID : Z := 0.
Definition MAX_USER_ID : Z := ty_max i32.
(** inferxlib/src/validation.rs:316-317 [MIN_GROUP_ID, MAX_GROUP_ID] *)
Definition MIN_GROUP_ID : Z := 0.
Definition MAX_GROUP_ID : Z := ty_max i32.

(** inferxlib/src/validation.rs:320-326 [IsValidGroupID] *)
Definition IsValidGroupID (gid : Z) : Result unit :=
  if (MIN_GROUP_ID <=? gid)%Z && (gid <=? MAX_GROUP_ID)%Z then Ok tt
  else Err (InclusiveRangeError MIN_GROUP_ID MAX_GROUP_ID).

(** inferxlib/src/validation.rs:329-335 [IsValidUserID] *)
Definition IsValidUserID (uid : Z) : Result unit :=
  if (MIN_USER_ID <=? uid)%Z && (uid <=? MAX_USER_ID)%Z then Ok tt
  else Err (InclusiveRangeError MIN_USER_ID MAX_USER_ID).

(** [port.contains("--")] *)
Fixpoint has_double_dash (l : list ascii) : bool :=
  match l with
  | "-"%char :: (("-"%char :: _) as l') => true
  | _ :: l => has_double_dash l
  | [] => false
  end.

(** inferxlib/src/validation.rs:349-382 [IsValidPortName] *)
Definition IsValidPortName (port : string) : Result unit :=
  if 15 <? len port then common_err "port len must be less than 16"
  else if negb (matches_fmt PORT_NAME_CHARSET_FMT port)
  then common_err "must contain only alpha-numeric characters (a-z, 0-9), and hyphens (-)"
  else if negb (is_match PORT_NAME_ONE_LETTER_REGEXP port)
  then common_err "must contain at least one letter (a-z)"
  else if has_double_dash (chars port) then common_err "must not contain consecutive hyphens"
  else
    let cs := chars port in
    if (0 <? length cs) && (bool_decide (head cs = Some "-"%char) || bool_decide (last cs = Some "-"%char))
    then common_err "must not begin or end with a hyphen"
    else Ok tt.

(** inferxlib/src/validation.rs:443-449 [IsValidPercent] *)
Definition IsValidPercent (value : string) : Result unit :=
  if negb (matches_fmt PERCENT_FMT value)
  then common_err "a valid percent string must be a numeric string followed by an ending '%'"
  else Ok tt.

(** inferxlib/src/validation.rs:462-468 [IsHTTPHeaderName] *)
Definition IsHTTPHeaderName (value : string) : Result unit :=
  if negb (matches_fmt HTTP_HEADER_NAME_FMT value)
  then common_err "a valid HTTP header must consist of alphanumeric characters or '-'"
  else Ok tt.

(** inferxlib/src/validation.rs:479-485 [IsEnvVarName] *)
Definition IsEnvVarName (value : string) : Result unit :=
  if negb (matches_fmt ENV_VAR_NAME_FMT value)
  then common_err "a valid environment variable name must consist of alphabetic characters, digits, '_', '-', or '.', and must not start with a digit"
  else Ok tt.

(** inferxlib/src/validation.rs:496-508 [IsConfigMapKey] *)
Definition IsConfigMapKey (value : string) : Result unit :=
  if 253 <? len value then common_err "port len must be less than 254"
  else if negb (matches_fmt CONFIG_MAP_KEY_FMT value)
  then common_err "a valid environment variable name must consist of alphabetic characters, digits, '_', '-', or '.', and must not start with a digit"
  else Ok tt.

End validators.

(** ** Reference languages *)

(** A DNS label: lower-case alphanumerics and dashes, alphanumeric at both ends. *)
Definition dns_label (s : string) : Prop := framed dns_char dns_ext (chars s).
(** A DNS subdomain: labels separated by dots. *)
Definition dns_subdomain (s : string) : Prop :=
  ∃ labels, labels ≠ [] ∧ Forall dns_label labels ∧ s = join "." labels.
Definition qualified_part (s : string) : Prop :=
  len s ≤ QUALIFIED_NAME_MAX_LENGTH ∧ framed qname_char qname_ext (chars s).

Lemma class_has_cons i cs c : class_has (i :: cs) c = item_has i c || class_has cs c.
Proof. done. Qed.

Ltac class_solve :=
  intros c; unfold dns_char, dns_ext, qname_char, qname_ext, env_first; rewrite ?class_has_cons;
  repeat match goal with |- context [item_has ?i c] =>
    let E := fresh in destruct (item_has i c) eqn:E end;
  done.

Lemma matches_label l : Matches r_label l ↔ framed dns_char dns_ext l.
Proof. apply matches_framed_opt_last. class_solve. Qed.
Lemma matches_qualified l : Matches r_qualified l ↔ framed qname_char qname_ext l.
Proof. apply matches_framed_opt_first. class_solve. Qed.

Lemma framed_no C E c l : class_has E c = false → framed C E l → c ∉ l.
Proof.
  intros Hc (a & b & _ & _ & _ & _ & Hall) Hin.
  rewrite Forall_forall in Hall. rewrite Hall in Hc; done.
Qed.
Lemma framed_nonempty C E l : framed C E l → l ≠ [].
Proof. by intros (a & b & Hh & _) ->. Qed.
Lemma label_no_dot s : dns_label s → "."%char ∉ chars s.
Proof. by apply framed_no. Qed.
Lemma label_no_slash s : dns_label s → "/"%char ∉ chars s.
Proof. by apply framed_no. Qed.

Fixpoint dotted (labels : list string) : string :=
  match labels with [] => "" | s :: labels => "." +:+ (s +:+ dotted labels) end.

Lemma chars_dotted s labels : chars (dotted (s :: labels)) = "."%char :: chars s ++ chars (dotted labels).
Proof. simpl. by rewrite !chars_app. Qed.

Lemma matches_dot_labels l :
  Matches (Star (Grp (Seq (Esc ".") r_label))) l ↔
  ∃ labels, Forall dns_label labels ∧ l = chars (dotted labels).
Proof.
  split.
  - intros Hm. remember (Star _) as r eqn:Hr. induction Hm as [| | | | | |r l1 l2 H1 _ H2 IH| | | | | |];
      try discriminate; [by exists []|].
    injection Hr as ->. destruct (IH eq_refl) as (labels & Hall & ->).
    inversion H1 as [| | | | | | | | | | | |? ? Hs]; subst.
    apply matches_seq_inv in Hs as (d & w & -> & Hd & Hw). inversion Hd; subst.
    exists (of_chars w :: labels). split.
    { constructor; [|done]. unfold dns_label. rewrite chars_of_chars. by apply matches_label. }
    by rewrite chars_dotted, chars_of_chars.
  - intros (labels & Hall & ->). induction Hall as [|s labels Hs Hall IH]; [constructor|].
    rewrite chars_dotted.
    change ("."%char :: chars s ++ ?w) with ((["."%char] ++ chars s) ++ w).
    constructor; [|done]. constructor. constructor; [constructor|]. by apply matches_label.
Qed.

Lemma join_dot s labels : join "." (s :: labels) = s +:+ dotted labels.
Proof.
  revert s. induction labels as [|t labels IH]; intros s; [simpl; by rewrite sapp_nil_r|].
  change (join "." (s :: t :: labels)) with (s +:+ ("." +:+ join "." (t :: labels))).
  by rewrite IH.
Qed.

Lemma matches_subdomain s : Matches r_subdomain (chars s) ↔ dns_subdomain s.
Proof.
  unfold dns_subdomain. split.
  - intros (l1 & l2 & Heq & H1 & H2)%matches_seq_inv.
    apply matches_label in H1. apply matches_dot_labels in H2 as (labels & Hall & ->).
    exists (of_chars l1 :: labels). split_and!; [done| |].
    + constructor; [|done]. unfold dns_label. by rewrite chars_of_chars.
    + apply (inj chars). by rewrite join_dot, chars_app, chars_of_chars.
  - intros (labels & Hne & Hall & ->). destruct Hall as [|s labels Hs Hall]; [done|].
    rewrite join_dot, chars_app. constructor; [by apply matches_label|].
    apply matches_dot_labels. eauto.
Qed.

Lemma subdomain_no_slash s : dns_subdomain s → "/"%char ∉ chars s.
Proof.
  intros (labels & _ & Hall & ->). induction Hall as [|s labels Hs Hall IH]; [set_solver|].
  destruct labels as [|t labels]; [by apply label_no_slash|].
  change (join "." (s :: t :: labels)) with (s +:+ String "." (join "." (t :: labels))).
  rewrite chars_app. apply not_elem_of_app. split; [by apply label_no_slash|].
  change (chars (String "." ?x)) with ("."%char :: chars x). apply not_elem_of_cons. done.
Qed.

Lemma subdomain_split s labels :
  labels ≠ [] → Forall dns_label labels → s = join "." labels → split "." s = labels.
Proof.
  intros Hne Hall ->. apply split_join; [done|]. eapply Forall_impl; [done|]. apply label_no_dot.
Qed.

(** ** What the validators accept *)

Section spec.
Context `{Eng : RegexEngine, Spec : !RegexSpec}.

Lemma matches_fmt_spec fmt r s : (fmt, r) ∈ anchored → matches_fmt fmt s = true ↔ Matches r (chars s).
Proof. apply is_match_anchored. Qed.

Lemma subdomain_fmt s : matches_fmt DNS1123_SUBDOMAIN_FMT s = true ↔ dns_subdomain s.
Proof. rewrite <-matches_subdomain. apply matches_fmt_spec. by repeat constructor. Qed.
Lemma label_fmt s : matches_fmt DNS1123_LABEL_FMT s = true ↔ dns_label s.
Proof. unfold dns_label. rewrite <-matches_label. apply matches_fmt_spec. by repeat constructor. Qed.
Lemma qualified_fmt s : matches_fmt QUALIFIED_NAME_FMT s = true ↔ framed qname_char qname_ext (chars s).
Proof. rewrite <-matches_qualified. apply matches_fmt_spec. by repeat constructor. Qed.

Lemma IsDNS1123Subdomain_Ok s :
  IsDNS1123Subdomain s = Ok tt ↔ len s ≤ DNS1123_SUBDOMAIN_MAX_LENGTH ∧ dns_subdomain s.
Proof.
  unfold IsDNS1123Subdomain. rewrite <-subdomain_fmt.
  destruct (Nat.ltb_spec DNS1123_SUBDOMAIN_MAX_LENGTH (len s));
    [split; [done|intros []; lia]|].
  destruct (matches_fmt _ _); simpl; split; naive_solver.
Qed.

Lemma IsDNS1123Label_Ok s :
  IsDNS1123Label s = Ok tt ↔ len s ≤ QUALIFIED_NAME_MAX_LENGTH ∧ dns_label s.
Proof.
  unfold IsDNS1123Label. rewrite <-label_fmt.
  destruct (Nat.ltb_spec QUALIFIED_NAME_MAX_LENGTH (len s)); [split; [done|intros []; lia]|].
  destruct (matches_fmt DNS1123_LABEL_FMT s); simpl; [naive_solver|].
  destruct (matches_fmt DNS1123_SUBDOMAIN_FMT s); naive_solver.
Qed.

Lemma name_checks_Ok name :
  (if len name =? 0 then common_err "Name must be non empty"
   else if QUALIFIED_NAME_MAX_LENGTH <? len name then common_err "Name len must be less than 64"
   else if negb (matches_fmt QUALIFIED_NAME_FMT name) then common_err "Name is not legal"
   else Ok tt) = Ok tt ↔ qualified_part name.
Proof.
  unfold qualified_part. rewrite <-qualified_fmt.
  destruct (Nat.eqb_spec (len name) 0) as [Hz|Hz].
  { split; [done|]. intros [_ Hm]. apply qualified_fmt in Hm.
    apply len_0 in Hz as ->. by apply framed_nonempty in Hm. }
  destruct (Nat.ltb_spec QUALIFIED_NAME_MAX_LENGTH (len name)); [split; [done|intros []; lia]|].
  destruct (matches_fmt _ _); simpl; naive_solver.
Qed.

Lemma IsValidLabelValue_Ok s : IsValidLabelValue s = Ok tt ↔ qualified_part s.
Proof.
  unfold IsValidLabelValue, qualified_part. rewrite <-qualified_fmt.
  destruct (Nat.ltb_spec QUALIFIED_NAME_MAX_LENGTH (len s)); [split; [done|intros []; lia]|].
  destruct (matches_fmt _ _); simpl; naive_solver.
Qed.

Lemma qualified_part_no_slash s : qualified_part s → "/"%char ∉ chars s.
Proof. intros [_ Hf]. by apply (framed_no _ _ "/"%char) in Hf. Qed.

(** A key is accepted exactly when it is a qualified part, alone or after a DNS
    subdomain and a slash. *)
Definition qualified_name (v : string) : Prop :=
  qualified_part v ∨
  ∃ prefix name, v = prefix +:+ String "/" name ∧ qualified_part name ∧
    len prefix ≤ DNS1123_SUBDOMAIN_MAX_LENGTH ∧ dns_subdomain prefix.

Lemma split_slash_two v a b :
  split "/" v = [a; b] → v = a +:+ String "/" b.
Proof. by intros [? _]%split_two_inv. Qed.

Lemma IsQualifiedName_Ok v : IsQualifiedName v = Ok tt ↔ qualified_name v.
Proof.
  unfold IsQualifiedName, qualified_name. split.
  - intros (name & Hparts & Hname)%bind_Ok. apply name_checks_Ok in Hname.
    destruct (split "/" v) as [|p1 [|p2 [|? ?]]] eqn:Hs; try discriminate.
    + injection Hparts as ->. left. apply split_one_inv in Hs as [-> _]. done.
    + right. destruct (Nat.eqb_spec (len p1) 0); [discriminate|].
      apply bind_Ok in Hparts as ([] & Hd & [= ->]). apply IsDNS1123Subdomain_Ok in Hd as [Hl Hd].
      exists p1, name. split_and!; try done. by apply split_slash_two.
  - intros [Hq|(prefix & name & -> & Hq & Hl & Hd)].
    + rewrite split_nosep by by apply qualified_part_no_slash. simpl. by apply name_checks_Ok.
    + rewrite split_app by by apply subdomain_no_slash.
      rewrite split_nosep by by apply qualified_part_no_slash. simpl.
      destruct (Nat.eqb_spec (len prefix) 0) as [Hz|_].
      { apply len_0 in Hz as ->. apply matches_subdomain in Hd. by apply run_matches in Hd. }
      rewrite (proj2 (IsDNS1123Subdomain_Ok prefix)) by done. simpl. by apply name_checks_Ok.
Qed.

Lemma IsQualifiedName_no_panic v : no_panic (IsQualifiedName v).
Proof.
  unfold IsQualifiedName, IsDNS1123Subdomain, common_err, no_panic, mbind, outcome_bind.
  destruct (split "/" v) as [|p1 [|p2 [|? ?]]]; repeat (simpl; first [done | case_match]).
Qed.

Lemma foldlM_labels_Ok labels :
  foldlM (λ _ label, IsDNS1123Label label) tt labels = Ok tt ↔
  Forall (λ l, len l ≤ QUALIFIED_NAME_MAX_LENGTH ∧ dns_label l) labels.
Proof.
  induction labels as [|l labels IH]; simpl; [done|].
  rewrite bind_Ok, Forall_cons, <-IH, <-IsDNS1123Label_Ok. split.
  - by intros ([] & ? & ?).
  - intros []. by exists tt.
Qed.

Lemma IsWildcardDNS1123Subdomain_Ok v :
  IsWildcardDNS1123Subdomain v = Ok tt ↔
  len v ≤ DNS1123_SUBDOMAIN_MAX_LENGTH ∧ ∃ label, v = "*." +:+ label ∧ dns_label label.
Proof.
  unfold IsWildcardDNS1123Subdomain.
  destruct (Nat.ltb_spec DNS1123_SUBDOMAIN_MAX_LENGTH (len v)); [split; [done|intros []; lia]|].
  assert (matches_fmt WILDCARD_DNS1123_SUBDOMAIN_FMT v = true ↔
    ∃ label, v = "*." +:+ label ∧ dns_label label) as Hm.
  { rewrite (matches_fmt_spec _ r_wildcard) by by repeat constructor. split.
    - intros (l1 & l2 & Heq & H1 & (l3 & l4 & -> & H3 & H4)%matches_seq_inv)%matches_seq_inv.
      inversion H1; subst. inversion H3; subst. exists (of_chars l4). split.
      + apply (inj chars). rewrite chars_app, chars_of_chars. done.
      + unfold dns_label. rewrite chars_of_chars. by apply matches_label.
    - intros (label & -> & Hl). rewrite chars_app.
      change (chars "*." ++ chars label) with (["*"%char] ++ (["."%char] ++ chars label)).
      repeat constructor. by apply matches_label. }
  destruct (matches_fmt _ _); simpl; rewrite <-Hm; split; [|done..|]; naive_solver.
Qed.
End spec.

(** ** Properties *)

(** IsQualifiedName accepts exactly the qualified names: a part of at most 63
    bytes of alphanumerics, dashes, underscores and dots that starts and ends
    with an alphanumeric, optionally after a DNS subdomain of at most 253 bytes
    and a slash; and it never panics. *)
Theorem qualified_name_accepted `{Eng : RegexEngine, Spec : !RegexSpec} (v : string) :
  (IsQualifiedName v = Ok tt ↔ qualified_name v) ∧ no_panic (IsQualifiedName v).
Proof. split; [apply IsQualifiedName_Ok|apply IsQualifiedName_no_panic]. Qed.

Lemma qualified_name_accepted_witness :
  @IsQualifiedName derivative_engine "app.io/in-use_1" = Ok tt ∧ qualified_name "app.io/in-use_1".
Proof.
  split; [by vm_compute|].
  apply (@qualified_name_accepted derivative_engine derivative_engine_spec). by vm_compute.
Defined.

(** IsFullyQualifiedDomainName accepts exactly the names that, with at most
    one trailing dot removed, are a DNS subdomain of at least two labels of at
    most 63 bytes each and at most 253 bytes in all. *)
Theorem fqdn_accepted `{Eng : RegexEngine, Spec : !RegexSpec} (name : string) :
  IsFullyQualifiedDomainName name = Ok tt ↔
  ∃ labels, strip_dot name = join "." labels ∧ 2 ≤ length labels ∧
    len (strip_dot name) ≤ DNS1123_SUBDOMAIN_MAX_LENGTH ∧
    Forall (λ l, len l ≤ QUALIFIED_NAME_MAX_LENGTH ∧ dns_label l) labels.
Proof.
  unfold IsFullyQualifiedDomainName. destruct (Nat.eqb_spec (len name) 0) as [Hz|Hz].
  { apply len_0 in Hz as ->. split; [done|]. intros (labels & Hj & Hlen & _ & Hall).
    destruct labels as [|l [|? ?]]; simpl in Hlen; try lia.
    apply Forall_cons in Hall as [[_ Hl] _]. apply framed_nonempty in Hl. by destruct l. }
  rewrite bind_Ok. split.
  - intros ([] & (Hlen & labels & Hne & Hall & Heq)%IsDNS1123Subdomain_Ok & Hrun).
    rewrite (subdomain_split _ labels) in Hrun by done.
    destruct (Nat.ltb_spec (length labels) 2); [done|]. apply foldlM_labels_Ok in Hrun. eauto.
  - intros (labels & Heq & Hn & Hlen & Hall).
    assert (Forall dns_label labels) by (eapply Forall_impl; [done|by intros ? []]).
    assert (labels ≠ []) by (intros ->; simpl in Hn; lia). exists tt. split.
    + apply IsDNS1123Subdomain_Ok. split; [done|]. by exists labels.
    + rewrite (subdomain_split _ labels) by done. apply foldlM_labels_Ok in Hall.
      destruct (Nat.ltb_spec (length labels) 2); [lia|done].
Qed.

Lemma fqdn_accepted_witness :
  @IsFullyQualifiedDomainName derivative_engine "a.example." = Ok tt ∧
  ∃ labels, strip_dot "a.example." = join "." labels ∧ 2 ≤ length labels.
Proof.
  assert (@IsFullyQualifiedDomainName derivative_engine "a.example." = Ok tt) as H by by vm_compute.
  split; [done|].
  apply (@fqdn_accepted derivative_engine derivative_engine_spec) in H as (labels & ? & ? & _). eauto.
Defined.

(** The wildcard validator accepts exactly an asterisk, a dot and one DNS
    label of at most 253 bytes in all: a wildcard over a name with a further dot, such as the
    documented example [*.bar.com], is rejected. *)
Theorem wildcard_one_label `{Eng : RegexEngine, Spec : !RegexSpec} (v : string) :
  (IsWildcardDNS1123Subdomain v = Ok tt ↔
   len v ≤ DNS1123_SUBDOMAIN_MAX_LENGTH ∧ ∃ label, v = "*." +:+ label ∧ dns_label label) ∧
  ∀ rest, "."%char ∈ chars rest → IsWildcardDNS1123Subdomain ("*." +:+ rest) ≠ Ok tt.
Proof.
  split; [apply IsWildcardDNS1123Subdomain_Ok|].
  intros rest Hdot (_ & label & Heq & Hl)%IsWildcardDNS1123Subdomain_Ok.
  apply (inj (String.append "*.")) in Heq as ->. by apply label_no_dot in Hl.
Qed.

Lemma wildcard_one_label_witness : @IsWildcardDNS1123Subdomain derivative_engine "*.bar.com" ≠ Ok tt.
Proof.
  apply (proj2 (@wildcard_one_label derivative_engine derivative_engine_spec "*.bar.com") "bar.com").
  apply list_elem_of_In. simpl. tauto.
Defined.
