(* ===== verification/Selector.v ===== *)
(** * Label selectors: requirements, selectors and label sets (inferxlib/src/selector.rs)

    The data and the operations of the file up to the lexer; the text syntax is
    in [SelectorLexer] and [SelectorParser].  [Vec<Requirement>] is a list,
    [Labels] a finite map iterated in key order. *)

From S2P Require Import Prelude.
From S2P Require Import Text.
From S2P Require Import BTree.
From S2P Require Import Common.
From S2P Require Import Validation.
From S2P Require Import Regex.


(** inferxlib/src/selector.rs:30-41 [SelectionOp] *)
Inductive SelectionOp :=
| OpNone | DoesNotExist | Equals | DoubleEquals | In | NotEquals | NotIn
| Exists | GreaterThan | LessThan.

#[global] Instance SelectionOp_eq_dec : EqDecision SelectionOp.
Proof. solve_decision. Defined.

(** inferxlib/src/selector.rs:50-63 [SelectionOp::as_str] *)
Definition as_str (op : SelectionOp) : string :=
  match op with
  | OpNone => "" | DoesNotExist => "!" | Equals => "=" | DoubleEquals => "=="
  | In => "in" | NotEquals => "!=" | NotIn => "notin" | Exists => "exists"
  | GreaterThan => "gt" | LessThan => "lt"
  end.

(** inferxlib/src/selector.rs:198-202 [Requirement] *)
Record Requirement := MkRequirement {
  req_key : string;
  req_op : SelectionOp;
  req_strVals : list string;
}.
#[global] Instance Requirement_eq_dec : EqDecision Requirement.
Proof. solve_decision. Defined.

(** [Requirement::default], with inferxlib/src/selector.rs:43-47 [SelectionOp::default] *)
Definition Requirement_default : Requirement := MkRequirement "" DoesNotExist [].

(** [Selector(Vec<Requirement>)] and [Labels(BTreeMap<String, String>)] *)
Abbreviation Selector := (list Requirement).
Abbreviation Labels := (gmap string string).

(** inferxlib/src/selector.rs:204-208 [Ord for Requirement] *)
Definition req_le (r1 r2 : Requirement) : Prop := kle (req_key r1) (req_key r2).
#[global] Instance req_le_dec : RelDecision req_le.
Proof. intros r1 r2. unfold req_le. apply _. Defined.

(** ** Labels *)

(** inferxlib/src/selector.rs:594-596 [Labels::Has] *)
Definition Has (ls : Labels) (label : string) : bool := bool_decide (is_Some (ls !! label)).
(** inferxlib/src/selector.rs:599-604 [Labels::Get] *)
Definition Get (ls : Labels) (label : string) : option string :=
  match ls !! label with None => None | Some v => Some v end.

(** inferxlib/src/selector.rs:533-540 [Labels::Copy] *)
Definition Labels_Copy (ls : Labels) : Labels :=
  foldl (λ m p, <[p.1 := p.2]> m) ∅ (entries ls).
(** inferxlib/src/selector.rs:542-548 [Labels::NewFromSlice] *)
Definition NewFromSlice (item : list (string * string)) : Labels :=
  foldl (λ m p, <[p.1 := p.2]> m) ∅ item.

(** inferxlib/src/selector.rs:580-591 [Labels::String] *)
Definition Labels_String (ls : Labels) : string :=
  foldl (λ ret p,
    let ret := if negb (len ret =? 0) then ret +:+ "," else ret in
    ret +:+ p.1 +:+ "=" +:+ p.2) "" (entries ls).
(** inferxlib/src/selector.rs:607-613 [Labels::Format] *)
Definition Format (ls : Labels) : string :=
  let l := Labels_String ls in if len l =? 0 then "<none>" else l.

(** [for (k, v) in small { match big.get(k) { .. } }] of [Conflict] *)
Fixpoint conflict_loop (big : Labels) (l : list (string * string)) : bool :=
  match l with
  | [] => false
  | (k, v) :: l =>
      match big !! k with
      | None => false
      | Some val => if decide (v ≠ val) then true else conflict_loop big l
      end
  end.
(** inferxlib/src/selector.rs:617-636 [Labels::Conflict] *)
Definition Conflict (self labels : Labels) : bool :=
  let '(small, big) := if size self <? size labels then (self, labels) else (labels, self) in
  conflict_loop big (entries small).

(** inferxlib/src/selector.rs:640-652 [Labels::Merge] *)
Definition Merge (self labels : Labels) : Labels :=
  let merged := foldl (λ m p, <[p.1 := p.2]> m) ∅ (entries self) in
  foldl (λ m p, <[p.1 := p.2]> m) merged (entries labels).

Fixpoint equals_loop (labels : Labels) (l : list (string * string)) : bool :=
  match l with
  | [] => true
  | (k, v) :: l =>
      match labels !! k with
      | None => false
      | Some val => if decide (v ≠ val) then false else equals_loop labels l
      end
  end.
(** inferxlib/src/selector.rs:655-672 [Labels::Equals] *)
Definition Labels_Equals (self labels : Labels) : bool :=
  if negb (size self =? size labels) then false else equals_loop labels (entries self).

Fixpoint matches_loop (labels : Labels) (l : list (string * string)) : bool :=
  match l with
  | [] => true
  | (k, v) :: l =>
      if negb (Has labels k) || negb (bool_decide (Some v = Get labels k)) then false
      else matches_loop labels l
  end.
(** inferxlib/src/selector.rs:674-682 [Labels::Matches] *)
Definition Labels_Matches (self labels : Labels) : bool := matches_loop labels (entries self).

(** inferxlib/src/selector.rs:684-686 [Labels::Empty] *)
Definition Labels_Empty (ls : Labels) : bool := size ls =? 0.

(** inferxlib/src/selector.rs:688-699 [Labels::ToSelector] *)
Definition ToSelector (ls : Labels) : Selector :=
  foldl (λ res p, res ++ [MkRequirement p.1 Equals [p.2]]) [] (entries ls).
(** inferxlib/src/selector.rs:701-703 [Labels::RequiresExactMatch] *)
Definition Labels_RequiresExactMatch (ls : Labels) (lable : string) : option string := Get ls lable.

(** ** Requirements *)

(** inferxlib/src/selector.rs:225-243 [Requirement::Equ] *)
Definition Requirement_Equ (self other : Requirement) : bool :=
  if negb (length (req_strVals self) =? length (req_strVals other)) then false
  else
    let set : gset string := list_to_set (req_strVals self) in
    if existsb (λ str, bool_decide (str ∉ set)) (req_strVals other) then false
    else bool_decide (req_key self = req_key other) && bool_decide (req_op self = req_op other).

(** inferxlib/src/selector.rs:245-257 [Requirement::Copy] *)
Definition Requirement_Copy (self : Requirement) : Requirement :=
  MkRequirement (req_key self) (req_op self)
    (foldl (λ out str, out ++ [str]) [] (req_strVals self)).

(** inferxlib/src/selector.rs:318-326 [Requirement::HasValue] *)
Fixpoint HasValue (strVals : list string) (val : string) : bool :=
  match strVals with
  | [] => false
  | str :: l => if decide (str = val) then true else HasValue l val
  end.

(** inferxlib/src/selector.rs:339-410 [Requirement::Matchs] *)
Definition Matchs (self : Requirement) (ls : Labels) : Result bool :=
  match req_op self with
  | OpNone => Panic "selector::None"
  | In | Equals | DoubleEquals =>
      match Get ls (req_key self) with
      | None => Ok false
      | Some v => Ok (HasValue (req_strVals self) v)
      end
  | NotIn | NotEquals =>
      match Get ls (req_key self) with
      | None => Ok true
      | Some v => Ok (negb (HasValue (req_strVals self) v))
      end
  | Exists => Ok (Has ls (req_key self))
  | DoesNotExist => Ok (negb (Has ls (req_key self)))
  | GreaterThan | LessThan =>
      if negb (Has ls (req_key self)) then Ok false
      else
        match Get ls (req_key self) with
        | None => Ok false
        | Some val =>
            match parse_i64 val with
            | None => Ok false
            | Some lsValue =>
                if negb (length (req_strVals self) =? 1) then Ok false
                else
                  match req_strVals self with
                  | val :: _ =>
                      match parse_i64 val with
                      | None => Ok false
                      | Some rValue =>
                          if decide (req_op self = GreaterThan) then Ok (bool_decide (lsValue > rValue)%Z)
                          else Ok (bool_decide (lsValue < rValue)%Z)
                      end
                  | [] => Ok false
                  end
            end
        end
  end.

(** inferxlib/src/selector.rs:423-430 [Requirement::Values] *)
Definition Values (self : Requirement) : gset string := list_to_set (req_strVals self).

(** inferxlib/src/selector.rs:433-453 [Requirement::Equal] *)
Definition Requirement_Equal (self x : Requirement) : bool :=
  if decide (req_key self ≠ req_key x) then false
  else if decide (req_op self ≠ req_op x) then false
  else if negb (length (req_strVals self) =? length (req_strVals x)) then false
  else forallb (λ i, bool_decide (req_strVals self !! i = req_strVals self !! i))
         (List.seq 0 (length (req_strVals self))).

Definition op_text (op : SelectionOp) : string :=
  match op with
  | Equals => "=" | DoubleEquals => "==" | In => " in " | NotEquals => "!="
  | NotIn => " notin " | GreaterThan => ">" | LessThan => "<" | _ => ""
  end.
Definition is_set_op (op : SelectionOp) : bool :=
  match op with In | NotIn => true | _ => false end.

(** inferxlib/src/selector.rs:458-502 [Requirement::String] *)
Definition Requirement_String (self : Requirement) : string :=
  let output := if decide (req_op self = DoesNotExist) then "!" else "" in
  let output := output +:+ req_key self in
  match req_op self with
  | DoesNotExist | Exists => output
  | _ =>
      let output := output +:+ op_text (req_op self) in
      let output := if is_set_op (req_op self) then output +:+ "(" else output in
      let '(output, _) :=
        foldl (λ '(output, first) v,
                 let '(output, first) := if (first : bool) then (output, false) else (output +:+ ",", first) in
                 (output +:+ v, first))
          (output, true) (set_elems (Values self)) in
      if is_set_op (req_op self) then output +:+ ")" else output
  end.

Section requirement_new.
Context `{Eng : RegexEngine}.

(** inferxlib/src/selector.rs:1250-1252 [ValidateLabelKey] *)
Definition ValidateLabelKey (k : string) : Result unit := IsQualifiedName k.
(** inferxlib/src/selector.rs:1254-1256 [ValidateLabelValue] *)
Definition ValidateLabelValue (_k v : string) : Result unit := IsValidLabelValue v.

(** inferxlib/src/selector.rs:266-316 [Requirement::New] *)
Definition Requirement_New (key : string) (op : SelectionOp) (vals : list string) : Result Requirement :=
  _ ← ValidateLabelKey key;
  _ ← match op with
      | OpNone => Panic "selector::None"
      | In | NotIn =>
          if length vals =? 0 then common_err "for 'in', 'notin' operators, values set can't be empty"
          else Ok tt
      | Equals | DoubleEquals | NotEquals =>
          if negb (length vals =? 1) then common_err "exact-match compatibility requires one single value"
          else Ok tt
      | Exists | DoesNotExist =>
          if negb (length vals =? 0) then common_err "values set must be empty for exists and does not exist"
          else Ok tt
      | GreaterThan | LessThan =>
          if negb (length vals =? 1) then common_err "for 'Gt', 'Lt' operators, exactly one value is required"
          else foldlM (λ _ val,
                 match parse_u64 val with
                 | None => common_err "for 'Gt', 'Lt' operators, the value must be an integer"
                 | Some _ => Ok tt
                 end) tt vals
      end;
  Ok (MkRequirement key op vals).

(** inferxlib/src/selector.rs:185-195 [GetRequirement] *)
Definition GetRequirement (key : string) (op : SelectionOp) (vals : list string) : Result Requirement :=
  match Requirement_New key op vals with
  | Err _ => Ok Requirement_default
  | Ok r => Ok r
  | Panic w => Panic w
  end.

(** inferxlib/src/selector.rs:552-576 [Labels::New] *)
Definition Labels_New (selector : string) : Result Labels :=
  if len selector =? 0 then Ok ∅
  else
    foldlM (λ map label,
      match split "=" label with
      | [l0; l1] =>
          let key := trim l0 in
          _ ← ValidateLabelKey key;
          let value := trim l1 in
          _ ← ValidateLabelValue key value;
          Ok (<[key := value]> map)
      | _ => common_err ("invalid selector: " +:+ label)
      end) ∅ (split "," selector).
End requirement_new.

(** ** Selectors *)

(** [Vec::sort]: a stable sort. *)
Fixpoint stable_insert (r : Requirement) (l : list Requirement) : list Requirement :=
  match l with
  | [] => [r]
  | r' :: l => if decide (req_le r r') then r :: r' :: l else r' :: stable_insert r l
  end.
(** inferxlib/src/selector.rs:97-99 [Selector::Sort] *)
Definition Sort (sel : Selector) : Selector := foldr stable_insert [] sel.

(** inferxlib/src/selector.rs:101-103 [Selector::Add] *)
Definition Selector_Add (sel : Selector) (r : Requirement) : Selector := sel ++ [r].

(** inferxlib/src/selector.rs:74-86 [Selector::Equ] *)
Definition Selector_Equ (self other : Selector) : bool :=
  if negb (length self =? length other) then false
  else forallb (λ p, Requirement_Equ p.1 p.2) (zip self other).

(** inferxlib/src/selector.rs:88-95 [Selector::DeepCopy] *)
Definition Selector_DeepCopy (self : Selector) : Selector :=
  foldl (λ copy r, copy ++ [Requirement_Copy r]) [] self.

(** inferxlib/src/selector.rs:108-116 [Selector::Match] *)
Fixpoint Match (self : Selector) (l : Labels) : Result bool :=
  match self with
  | [] => Ok true
  | r :: self => b ← Matchs r l; if negb b then Ok false else Match self l
  end.

(** inferxlib/src/selector.rs:150-157 [Selector::String] *)
Definition Selector_String (self : Selector) : string :=
  join "," (foldl (λ reqs r, reqs ++ [Requirement_String r]) [] self).

(** inferxlib/src/selector.rs:161-178 [Selector::RequiresExactMatch] *)
Fixpoint RequiresExactMatch (self : Selector) (label : string) : option string :=
  match self with
  | [] => None
  | r :: self =>
      if decide (req_key r = label) then
        match req_op r with
        | Equals | DoubleEquals | In =>
            if length (req_strVals r) =? 1 then head (req_strVals r)
            else RequiresExactMatch self label
        | _ => None
        end
      else None
  end.

(** inferxlib/src/selector.rs:180-182 [Selector::Empty] *)
Definition Selector_Empty (self : Selector) : bool := length self =? 0.

(** inferxlib/src/selector.rs:1289-1305 [SelectorFromValidatedSet] *)
Definition SelectorFromValidatedSet (ls : Labels) : Selector :=
  if size ls =? 0 then []
  else Sort (foldl (λ rs p, rs ++ [MkRequirement p.1 Equals [p.2]]) [] (entries ls)).
(** inferxlib/src/selector.rs:1262-1264 [SelectorFromSet] *)
Definition SelectorFromSet (ls : Labels) : Selector := SelectorFromValidatedSet ls.
(** inferxlib/src/selector.rs:705-707 [Labels::toFullSelector] *)
Definition toFullSelector (ls : Labels) : Selector := SelectorFromSet ls.

(** inferxlib/src/selector.rs:1269-1282 [ValidatedSelectorFromSet] *)
Definition ValidatedSelectorFromSet `{Eng : RegexEngine} (ls : Labels) : Result Selector :=
  if size ls =? 0 then Ok []
  else
    rs ← foldlM (λ rs p, r ← Requirement_New p.1 Equals [p.2]; Ok (rs ++ [r])) [] (entries ls);
    Ok (Sort rs).

(** ** Label sets as maps *)

Lemma foldl_entries_lookup (ls m : Labels) k :
  foldl (λ m p, <[p.1 := p.2]> m) m (entries ls) !! k =
  match ls !! k with Some v => Some v | None => m !! k end.
Proof. rewrite foldl_insert_lookup by apply NoDup_keys. by rewrite list_to_map_entries. Qed.

Lemma Merge_lookup (l1 l2 : Labels) k :
  Merge l1 l2 !! k = match l2 !! k with Some v => Some v | None => l1 !! k end.
Proof.
  unfold Merge. rewrite foldl_entries_lookup. destruct (l2 !! k); [done|].
  rewrite foldl_entries_lookup, lookup_empty. by destruct (l1 !! k).
Qed.

Lemma Labels_Copy_id ls : Labels_Copy ls = ls.
Proof. apply map_eq. intros k. unfold Labels_Copy. rewrite foldl_entries_lookup, lookup_empty. by destruct (ls !! k). Qed.

Lemma equals_loop_spec labels l :
  equals_loop labels l = true ↔ ∀ k v, (k, v) ∈ l → labels !! k = Some v.
Proof.
  induction l as [|[k v] l IH]; simpl; [set_solver|].
  destruct (labels !! k) as [val|] eqn:Hk.
  - case_decide as Hv.
    + split; [done|]. intros H. exfalso. apply Hv. specialize (H k v). rewrite Hk in H.
      assert (Some val = Some v) as [= ->] by (apply H; by left). done.
    + subst val.
      rewrite IH. split; [|set_solver]. intros H k' v' [[= -> ->]|?]%elem_of_cons; [done|auto].
  - split; [done|]. intros H. specialize (H k v). rewrite Hk in H. discriminate H. by left.
Qed.

Lemma matches_loop_spec labels l : matches_loop labels l = equals_loop labels l.
Proof.
  induction l as [|[k v] l IH]; simpl; [done|]. unfold Has, Get.
  destruct (labels !! k) as [val|] eqn:Hk; rewrite ?Hk; simpl; [|done]. rewrite IH.
  destruct (decide (v = val)) as [->|Hne].
  - rewrite !bool_decide_true by done. simpl. by rewrite decide_False by (intros Hn; by apply Hn).
  - rewrite (bool_decide_false (Some v = Some val)) by congruence.
    simpl. by rewrite decide_True.
Qed.

Lemma equals_loop_entries (ls labels : Labels) : equals_loop labels (entries ls) = true ↔ ls ⊆ labels.
Proof.
  rewrite equals_loop_spec, map_subseteq_spec. split; intros H k v Hkv.
  - apply H. by apply elem_of_entries.
  - apply H. by apply elem_of_entries in Hkv.
Qed.

Lemma Labels_Matches_true ls labels : Labels_Matches ls labels = true ↔ ls ⊆ labels.
Proof. unfold Labels_Matches. rewrite matches_loop_spec. apply equals_loop_entries. Qed.

Lemma Labels_Equals_true l1 l2 : Labels_Equals l1 l2 = true ↔ l1 = l2.
Proof.
  unfold Labels_Equals. destruct (Nat.eqb_spec (size l1) (size l2)) as [Hs|Hs]; simpl.
  - rewrite equals_loop_entries. split; [|by intros ->].
    intros Hsub. apply map_subseteq_size_eq; [done|lia].
  - split; [done|]. by intros ->.
Qed.

(** ** What a requirement means *)

(** The documented meaning of each operator on a label set. *)
Definition holds (r : Requirement) (ls : Labels) : Prop :=
  match req_op r with
  | OpNone => False
  | In | Equals | DoubleEquals => ∃ v, ls !! req_key r = Some v ∧ v ∈ req_strVals r
  | NotIn | NotEquals => ∀ v, ls !! req_key r = Some v → v ∉ req_strVals r
  | Exists => is_Some (ls !! req_key r)
  | DoesNotExist => ls !! req_key r = None
  | GreaterThan | LessThan =>
      ∃ v w a b, ls !! req_key r = Some v ∧ req_strVals r = [w] ∧
        parse_i64 v = Some a ∧ parse_i64 w = Some b ∧
        (if decide (req_op r = GreaterThan) then a > b else a < b)%Z
  end.

(** The shape [Requirement_New] guarantees. *)
Definition arity_ok (op : SelectionOp) (vals : list string) : Prop :=
  match op with
  | OpNone => False
  | In | NotIn => vals ≠ []
  | Equals | DoubleEquals | NotEquals => ∃ v, vals = [v]
  | Exists | DoesNotExist => vals = []
  | GreaterThan | LessThan => ∃ v, vals = [v] ∧ is_Some (parse_u64 v)
  end.

Lemma HasValue_true l v : HasValue l v = true ↔ v ∈ l.
Proof.
  induction l as [|s l IH]; simpl; [set_solver|]. case_decide; [set_solver|].
  rewrite IH. set_solver.
Qed.

Lemma Matchs_spec r ls : req_op r ≠ OpNone → ∃ b, Matchs r ls = Ok b ∧ (b = true ↔ holds r ls).
Proof.
  intros Hop. unfold Matchs, holds, Get, Has.
  destruct (req_op r) eqn:Ho; try done;
    destruct (ls !! req_key r) as [v|] eqn:Hv; simpl.
  15-18: destruct (req_strVals r) as [|w [|? ?]] eqn:Hw; simpl;
    try destruct (parse_i64 v) as [a|] eqn:Ha; try destruct (parse_i64 w) as [b|] eqn:Hb; simpl.
  all: eexists; (split; [reflexivity|]).
  all: rewrite ?bool_decide_eq_true, ?HasValue_true, ?negb_true_iff.
  all: rewrite <-?not_true_iff_false, ?HasValue_true; try done; naive_solver.
Qed.

Lemma Match_spec sel ls :
  Forall (λ r, req_op r ≠ OpNone) sel →
  ∃ b, Match sel ls = Ok b ∧ (b = true ↔ Forall (λ r, holds r ls) sel).
Proof.
  intros Hall. induction Hall as [|r sel Hr Hall IH]; simpl.
  { exists true. by split. }
  destruct (Matchs_spec r ls Hr) as (b & -> & Hb). simpl. destruct b; simpl.
  - destruct IH as (b & -> & Hb'). exists b. split; [done|].
    rewrite Forall_cons. naive_solver.
  - exists false. split; [done|]. rewrite Forall_cons. naive_solver.
Qed.

Lemma Requirement_New_Ok `{Eng : RegexEngine, Spec : !RegexSpec} key op vals r :
  Requirement_New key op vals = Ok r ↔
  r = MkRequirement key op vals ∧ qualified_name key ∧ arity_ok op vals.
Proof.
  unfold Requirement_New, ValidateLabelKey, arity_ok. rewrite <-IsQualifiedName_Ok.
  destruct (IsQualifiedName key) as [[]|e|w]; simpl; [|naive_solver..].
  destruct op, vals as [|v [|? ?]]; simpl; try naive_solver.
  all: destruct (parse_u64 v) as [z|] eqn:Hz; simpl; [|unfold is_Some; naive_solver].
  all: split; [intros [= <-]; naive_solver|by intros [-> _]].
Qed.

Lemma Requirement_New_no_panic `{Eng : RegexEngine} key op vals :
  op ≠ OpNone → no_panic (Requirement_New key op vals).
Proof.
  intros Hop. unfold Requirement_New, ValidateLabelKey, common_err.
  pose proof (IsQualifiedName_no_panic key) as Hk.
  destruct (IsQualifiedName key) as [[]|e|w']; simpl; [|done..].
  destruct op, vals as [|v [|? ?]]; simpl; try done; by destruct (parse_u64 v).
Qed.

(** ** Sorting *)

Lemma stable_insert_perm r l : stable_insert r l ≡ₚ r :: l.
Proof. induction l as [|r' l IH]; simpl; [done|]. case_decide; [done|]. rewrite IH. constructor. Qed.
Lemma Sort_perm l : Sort l ≡ₚ l.
Proof. induction l as [|r l IH]; simpl; [done|]. by rewrite stable_insert_perm, IH. Qed.

Lemma stable_insert_sorted r l : StronglySorted req_le l → StronglySorted req_le (stable_insert r l).
Proof.
  induction 1 as [|r' l Hs IH Hall]; simpl; [repeat constructor|]. case_decide as Hle.
  - constructor; [by constructor|]. constructor; [done|].
    eapply Forall_impl; [done|]. intros x Hx. unfold req_le in *. by etrans.
  - constructor; [done|]. rewrite stable_insert_perm. constructor; [|done].
    unfold req_le in *. by destruct (total kle (req_key r) (req_key r')).
Qed.
Lemma Sort_sorted l : StronglySorted req_le (Sort l).
Proof. induction l as [|r l IH]; simpl; [constructor|]. by apply stable_insert_sorted. Qed.

(** Requirements on one key keep their order. *)
Lemma stable_insert_filter k r l :
  filter (λ r, req_key r = k) (stable_insert r l) = filter (λ r, req_key r = k) (r :: l).
Proof.
  induction l as [|r' l IH]; simpl; [done|]. case_decide as Hle; [done|].
  rewrite !(filter_cons _ r'), IH, !(filter_cons _ r), (filter_cons _ r'). repeat case_decide; try done.
  exfalso. apply Hle. unfold req_le. by replace (req_key r) with (req_key r') by congruence.
Qed.
Lemma Sort_stable k l : filter (λ r, req_key r = k) (Sort l) = filter (λ r, req_key r = k) l.
Proof. induction l as [|r l IH]; simpl; [done|]. by rewrite stable_insert_filter, !filter_cons, IH. Qed.

Lemma Sort_sorted_id l : StronglySorted req_le l → Sort l = l.
Proof.
  induction 1 as [|r l Hs IH Hall]; simpl; [done|]. rewrite IH.
  destruct Hall as [|r' l Hr Hall]; simpl; [done|]. by rewrite decide_True.
Qed.

Lemma foldl_app_map {A B} (f : A → B) acc l : foldl (λ res p, res ++ [f p]) acc l = acc ++ (f <$> l).
Proof.
  revert acc. induction l as [|a l IH]; intros acc; csimpl; [by rewrite app_nil_r|].
  by rewrite IH, <-(assoc_L (++)).
Qed.

Definition eq_req (p : string * string) : Requirement := MkRequirement p.1 Equals [p.2].

Lemma SelectorFromSet_entries ls : SelectorFromSet ls = eq_req <$> entries ls.
Proof.
  unfold SelectorFromSet, SelectorFromValidatedSet. destruct (Nat.eqb_spec (size ls) 0) as [Hs|_].
  { apply map_size_empty_iff in Hs as ->. by rewrite entries_empty. }
  change (λ rs p, rs ++ [MkRequirement p.1 Equals [p.2]]) with (λ rs p, rs ++ [eq_req p]).
  rewrite foldl_app_map. simpl. apply Sort_sorted_id.
  pose proof (entries_sorted ls) as Hs. induction Hs as [|p l Hs IH Hall]; csimpl; constructor; [done|].
  apply Forall_fmap. eapply Forall_impl; [done|]. by intros q.
Qed.

(** ** Text of a label set *)

Definition valid_labels (ls : Labels) : Prop :=
  map_Forall (λ k v, qualified_name k ∧ qualified_part v) ls.

(** No white-space sequence starts or ends with an alphanumeric. *)
Definition alnum (c : ascii) : bool := class_has qname_char c.
Definition no_seq_at (ps : list (list nat)) (c : ascii) : bool :=
  forallb (λ p, match p with n :: _ => negb (nat_of_ascii c =? n) | [] => false end) ps.
Lemma first_strip_none ps c l : no_seq_at ps c = true → first_strip ps (c :: l) = None.
Proof.
  induction ps as [|[|n p] ps IH]; simpl; try done.
  intros [Hn Hps]%andb_true_iff. rewrite decide_False; [by apply IH|].
  intros Heq. by rewrite Heq, Nat.eqb_refl in Hn.
Qed.
Lemma alnum_no_seq c :
  alnum c = true → no_seq_at white_space c && no_seq_at (reverse <$> white_space) c = true.
Proof. by destruct c as [[] [] [] [] [] [] [] []]. Qed.
Lemma alnum_no_space c l :
  alnum c = true →
  first_strip white_space (c :: l) = None ∧ first_strip (reverse <$> white_space) (c :: l) = None.
Proof. intros [H1 H2]%alnum_no_seq%andb_true_iff. split; by apply first_strip_none. Qed.

Lemma alnum_untrimmed l a b :
  head l = Some a → last l = Some b → alnum a = true → alnum b = true → untrimmed l.
Proof.
  intros Ha Hb Hca Hcb. split.
  - destruct l as [|c l]; [done|]. injection Ha as ->. exact (proj1 (alnum_no_space a l Hca)).
  - apply last_Some in Hb as [l' ->]. rewrite reverse_snoc. exact (proj2 (alnum_no_space b _ Hcb)).
Qed.

Lemma dns_char_alnum c : class_has dns_char c = true → alnum c = true.
Proof. by destruct c as [[] [] [] [] [] [] [] []]. Qed.

Lemma subdomain_head s : dns_subdomain s → ∃ a, head (chars s) = Some a ∧ alnum a = true.
Proof.
  intros (labels & Hne & Hall & ->). destruct Hall as [|s labels (a & b & Hh & _ & Ha & _) Hall]; [done|].
  exists a. split; [|by apply dns_char_alnum].
  rewrite join_dot, chars_app. destruct (chars s); [done|]. done.
Qed.

Lemma qualified_part_untrimmed s : qualified_part s → untrimmed (chars s).
Proof. intros [_ (a & b & Hh & Hl & Ha & Hb & _)]. by eapply alnum_untrimmed. Qed.

Lemma qualified_name_untrimmed s : qualified_name s → untrimmed (chars s).
Proof.
  intros [Hq|(p & n & -> & [_ (a & b & Hh & Hl & Ha & Hb & _)] & _ & (c & Hc & Hac)%subdomain_head)].
  { by apply qualified_part_untrimmed. }
  rewrite chars_app. change (chars (String "/" n)) with (["/"%char] ++ chars n).
  apply (alnum_untrimmed _ c b); [by destruct (chars p)| |done|done].
  rewrite (assoc_L (++)), last_app. by rewrite Hl.
Qed.

(** The characters of keys and values. *)
Definition name_char (c : ascii) : bool := class_has qname_ext c || bool_decide (c = "/"%char).
Lemma dns_ext_name_char c : class_has dns_ext c = true → name_char c = true.
Proof. by destruct c as [[] [] [] [] [] [] [] []]. Qed.

Lemma qualified_part_chars s : qualified_part s → Forall (λ c, name_char c = true) (chars s).
Proof.
  intros [_ (a & b & _ & _ & _ & _ & Hall)]. eapply Forall_impl; [done|].
  intros c Hc. unfold name_char. by rewrite Hc.
Qed.

Lemma label_chars s : dns_label s → Forall (λ c, name_char c = true) (chars s).
Proof.
  intros (a & b & _ & _ & _ & _ & Hall). eapply Forall_impl; [done|]. apply dns_ext_name_char.
Qed.

Lemma subdomain_chars s : dns_subdomain s → Forall (λ c, name_char c = true) (chars s).
Proof.
  intros (labels & _ & Hall & ->). induction Hall as [|s labels Hs Hall IH]; [by constructor|].
  destruct labels as [|t labels]; [by apply label_chars|].
  change (join "." (s :: t :: labels)) with (s +:+ String "." (join "." (t :: labels))).
  rewrite chars_app. apply Forall_app. split; [by apply label_chars|]. by constructor.
Qed.

Lemma qualified_name_chars s : qualified_name s → Forall (λ c, name_char c = true) (chars s).
Proof.
  intros [Hq|(p & n & -> & Hn & _ & Hp)]; [by apply qualified_part_chars|].
  rewrite chars_app. apply Forall_app. split; [by apply subdomain_chars|].
  constructor; [done|]. by apply qualified_part_chars.
Qed.

Lemma name_chars_no l c : Forall (λ c, name_char c = true) l → name_char c = false → c ∉ l.
Proof. intros Hall Hc Hin. rewrite Forall_forall in Hall. rewrite Hall in Hc; done. Qed.

Definition pair_text (p : string * string) : string := p.1 +:+ String "=" p.2.

Lemma sapp_nonempty s t : s ≠ "" → s +:+ t ≠ "".
Proof. by destruct s. Qed.
Lemma pair_text_nonempty p : pair_text p ≠ "".
Proof. unfold pair_text. by destruct (p.1). Qed.
Lemma join_nonempty sep x l : x ≠ "" → join sep (x :: l) ≠ "".
Proof. intros Hx. destruct l; [done|]. by apply sapp_nonempty. Qed.

Lemma Labels_String_foldl acc l :
  acc ≠ "" →
  foldl (λ ret p,
    let ret := if negb (len ret =? 0) then ret +:+ "," else ret in
    ret +:+ p.1 +:+ "=" +:+ p.2) acc l
  = join "," (acc :: (pair_text <$> l)).
Proof.
  revert acc. induction l as [|p l IH]; intros acc Hacc; [done|].
  csimpl. destruct (Nat.eqb_spec (len acc) 0) as [Hz|_]; [by apply len_0 in Hz|]. simpl.
  rewrite IH.
  - destruct l as [|q l]; csimpl; unfold pair_text; rewrite <-?sapp_assoc; done.
  - by apply sapp_nonempty, sapp_nonempty.
Qed.

Lemma Labels_String_join ls : Labels_String ls = join "," (pair_text <$> entries ls).
Proof.
  unfold Labels_String. destruct (entries ls) as [|[k v] l]; [done|]. csimpl.
  change ("" +:+ k +:+ "=" +:+ v) with (pair_text (k, v)). apply Labels_String_foldl.
  apply pair_text_nonempty.
Qed.

Section labels_new.
Context `{Eng : RegexEngine, Spec : !RegexSpec}.

Definition parse_pair (map : Labels) (label : string) : Result Labels :=
  match split "=" label with
  | [l0; l1] =>
      let key := trim l0 in
      _ ← ValidateLabelKey key;
      let value := trim l1 in
      _ ← ValidateLabelValue key value;
      Ok (<[key := value]> map)
  | _ => common_err ("invalid selector: " +:+ label)
  end.

Lemma parse_pair_text map k v :
  qualified_name k → qualified_part v → parse_pair map (pair_text (k, v)) = Ok (<[k := v]> map).
Proof.
  intros Hk Hv. unfold parse_pair, pair_text. simpl.
  rewrite split_app, split_nosep.
  - rewrite !trim_id by auto using qualified_name_untrimmed, qualified_part_untrimmed.
    unfold ValidateLabelKey, ValidateLabelValue.
    rewrite (proj2 (IsQualifiedName_Ok k)), (proj2 (IsValidLabelValue_Ok v)) by done. done.
  - eapply name_chars_no; [by apply qualified_part_chars|done].
  - eapply name_chars_no; [by apply qualified_name_chars|done].
Qed.

Lemma foldlM_parse_pair map l :
  Forall (λ p, qualified_name p.1 ∧ qualified_part p.2) l →
  foldlM parse_pair map (pair_text <$> l) = Ok (foldl (λ m p, <[p.1 := p.2]> m) map l).
Proof.
  intros Hall. revert map. induction Hall as [|[k v] l [Hk Hv] Hall IH]; intros map; [done|].
  csimpl. rewrite parse_pair_text by done. apply IH.
Qed.

Lemma pair_text_no_comma k v :
  qualified_name k → qualified_part v → ","%char ∉ chars (pair_text (k, v)).
Proof.
  intros Hk Hv. unfold pair_text. simpl. rewrite chars_app. apply not_elem_of_app. split.
  - eapply name_chars_no; [by apply qualified_name_chars|done].
  - apply not_elem_of_cons. split; [done|].
    eapply name_chars_no; [by apply qualified_part_chars|done].
Qed.

Lemma Labels_New_String ls : valid_labels ls → Labels_New (Labels_String ls) = Ok ls.
Proof.
  intros Hv. rewrite Labels_String_join.
  assert (Forall (λ p, qualified_name p.1 ∧ qualified_part p.2) (entries ls)) as Hall.
  { apply Forall_forall. intros [k v] Hkv%elem_of_entries. by apply (Hv k v). }
  unfold Labels_New. destruct (Nat.eqb_spec (len (join "," (pair_text <$> entries ls))) 0) as [Hz|Hz].
  - destruct (entries ls) as [|[k v] l] eqn:He; [by rewrite (entries_nil_inv ls)|].
    exfalso. apply len_0 in Hz. eapply (join_nonempty _ _ _ (pair_text_nonempty (k, v))), Hz.
  - rewrite split_join.
    + change (foldlM parse_pair ∅ (pair_text <$> entries ls) = Ok ls).
      rewrite foldlM_parse_pair by done. f_equal. apply map_eq. intros k.
      rewrite foldl_entries_lookup, lookup_empty. by destruct (ls !! k).
    + intros Hnil. by rewrite Hnil in Hz.
    + apply Forall_fmap. eapply Forall_impl; [done|]. intros [k v] []. by apply pair_text_no_comma.
Qed.

Lemma Labels_New_valid s ls : Labels_New s = Ok ls → valid_labels ls.
Proof.
  unfold Labels_New. destruct (_ =? 0); [intros [= <-]; by intros ? ? ?%lookup_empty_Some|].
  apply (foldlM_inv (λ _ (m : Labels), valid_labels m)); [by intros ? ? ?%lookup_empty_Some|].
  intros done label m1 m2 Hm. destruct (split "=" label) as [|l0 [|l1 [|? ?]]]; try discriminate.
  intros ([] & Hk & ([] & Hv & [= <-])%bind_Ok)%bind_Ok.
  apply map_Forall_insert_2; [|done].
  split; [by apply IsQualifiedName_Ok|by apply IsValidLabelValue_Ok].
Qed.

Lemma Labels_New_no_panic s : no_panic (Labels_New s).
Proof.
  unfold Labels_New. destruct (_ =? 0); [done|]. generalize (∅ : Labels).
  induction (split "," s) as [|label l IH]; intros m; [done|]. simpl.
  destruct (split "=" label) as [|l0 [|l1 [|? ?]]]; try done.
  unfold ValidateLabelKey, ValidateLabelValue.
  pose proof (IsQualifiedName_no_panic (trim l0)) as Hk.
  destruct (IsQualifiedName (trim l0)); simpl; [|done..].
  unfold IsValidLabelValue, common_err. repeat (case_match; try done; simpl); simplify_eq; apply IH.
Qed.
End labels_new.

(** ** Properties *)

(** A selector whose requirements carry a real operator (which
    [Requirement_New] guarantees) never panics on a label set, and matches it
    exactly when every requirement holds in the documented sense: [in], [=] and
    [==] need the key with a listed value, [notin] and [!=] reject only a listed
    value, [gt] and [lt] compare signed integers. *)
Theorem match_semantics (sel : Selector) (ls : Labels) :
  Forall (λ r, arity_ok (req_op r) (req_strVals r)) sel →
  ∃ b, Match sel ls = Ok b ∧ (b = true ↔ Forall (λ r, holds r ls) sel).
Proof.
  intros Hall. apply Match_spec. eapply Forall_impl; [done|].
  intros r Hr Hop. unfold arity_ok in Hr. by rewrite Hop in Hr.
Qed.

Lemma match_semantics_witness :
  let ls := list_to_map [("tier", "web"); ("mem", "16")] in
  let sel := [MkRequirement "mem" GreaterThan ["8"]; MkRequirement "tier" NotIn ["db"; "cache"]] in
  Match sel ls = Ok true ∧ Forall (λ r, holds r ls) sel.
Proof.
  intros ls sel. destruct (match_semantics sel ls) as (b & Hb & Hiff).
  { repeat constructor; simpl; try done. exists "8". split; [done|]. by eexists. }
  assert (Match sel ls = Ok true) as Ht by by vm_compute.
  split; [done|]. apply Hiff. congruence.
Defined.

(** The selector built from a label set matches exactly the label sets that
    contain it, and agrees with [Labels::Matches]. *)
Theorem selector_from_set_matches (ls l : Labels) :
  Match (SelectorFromSet ls) l = Ok (Labels_Matches ls l) ∧
  (Labels_Matches ls l = true ↔ ls ⊆ l).
Proof.
  split; [|apply Labels_Matches_true]. rewrite SelectorFromSet_entries.
  destruct (Match_spec (eq_req <$> entries ls) l) as (b & -> & Hb).
  { apply Forall_fmap, Forall_forall. by intros [k v]. }
  f_equal. apply eq_bool_prop_intro. rewrite !Is_true_true, Hb, Labels_Matches_true.
  rewrite Forall_fmap, Forall_forall, map_subseteq_spec. unfold holds. simpl. split.
  - intros H k v Hkv. apply elem_of_entries in Hkv.
    apply H in Hkv as (v' & ? & ->%list_elem_of_singleton). done.
  - intros H [k v] Hkv%elem_of_entries. exists v. split; [by apply H|]. simpl. by left.
Qed.

(** [Requirement::New] accepts exactly a qualified key with the number of
    values its operator needs (and an unsigned number for [gt] and [lt]),
    returns its arguments unchanged, and panics for no real operator. *)
Theorem requirement_new_accepts `{Eng : RegexEngine, Spec : !RegexSpec} key op vals :
  (∀ r, Requirement_New key op vals = Ok r ↔
     r = MkRequirement key op vals ∧ qualified_name key ∧ arity_ok op vals) ∧
  (op ≠ OpNone → no_panic (Requirement_New key op vals)).
Proof. split; [intros r; apply Requirement_New_Ok|apply Requirement_New_no_panic]. Qed.

Lemma requirement_new_accepts_witness :
  @Requirement_New derivative_engine "app.io/mem" GreaterThan ["8"]
    = Ok (MkRequirement "app.io/mem" GreaterThan ["8"]) ∧
  qualified_name "app.io/mem".
Proof.
  assert (@Requirement_New derivative_engine "app.io/mem" GreaterThan ["8"]
    = Ok (MkRequirement "app.io/mem" GreaterThan ["8"])) as H by by vm_compute.
  split; [done|].
  by apply (@requirement_new_accepts derivative_engine derivative_engine_spec) in H as (_ & ? & _).
Defined.

(** A valid label set (qualified keys, values of 1 to 63 bytes) printed by
    [Labels::String] is read back unchanged by [Labels::New]; [Labels::New]
    never panics and only returns valid label sets. *)
Theorem labels_text_roundtrip `{Eng : RegexEngine, Spec : !RegexSpec} :
  (∀ ls, valid_labels ls → Labels_New (Labels_String ls) = Ok ls) ∧
  (∀ s, no_panic (Labels_New s) ∧ ∀ ls, Labels_New s = Ok ls → valid_labels ls).
Proof.
  split; [apply Labels_New_String|]. intros s.
  split; [apply Labels_New_no_panic|apply Labels_New_valid].
Qed.

Lemma labels_text_roundtrip_witness :
  @Labels_New derivative_engine "b=2, a/x = 1" = Ok (list_to_map [("b", "2"); ("a/x", "1")]) ∧
  @Labels_New derivative_engine (Labels_String (list_to_map [("b", "2"); ("a/x", "1")]))
    = Ok (list_to_map [("b", "2"); ("a/x", "1")]).
Proof.
  assert (@Labels_New derivative_engine "b=2, a/x = 1"
    = Ok (list_to_map [("b", "2"); ("a/x", "1")])) as H by by vm_compute.
  split; [done|].
  apply (@labels_text_roundtrip derivative_engine derivative_engine_spec).
  eapply (proj2 (@labels_text_roundtrip derivative_engine derivative_engine_spec)), H.
Defined.

(** [Labels::Merge] is the right-biased union, [Labels::Equals] decides
    equality, and [Labels::Conflict] answers true only when some key has two
    values; but it stops at the first key the larger set lacks, so it can miss
    a conflicting key. *)
Theorem labels_merge_equals_conflict :
  (∀ (l1 l2 : Labels) k, Merge l1 l2 !! k = match l2 !! k with Some v => Some v | None => l1 !! k end) ∧
  (∀ l1 l2 : Labels, Labels_Equals l1 l2 = true ↔ l1 = l2) ∧
  (∀ l1 l2 : Labels, Conflict l1 l2 = true → ∃ k v1 v2, l1 !! k = Some v1 ∧ l2 !! k = Some v2 ∧ v1 ≠ v2) ∧
  (∃ (l1 l2 : Labels) k v1 v2,
     l1 !! k = Some v1 ∧ l2 !! k = Some v2 ∧ v1 ≠ v2 ∧ Conflict l1 l2 = false).
Proof.
  split_and!; [apply Merge_lookup|apply Labels_Equals_true| |].
  - assert (∀ big l, conflict_loop big l = true →
      ∃ k v1 v2, (k, v1) ∈ l ∧ big !! k = Some v2 ∧ v1 ≠ v2) as Hloop.
    { intros big l. induction l as [|[k v] l IH]; simpl; [done|].
      destruct (big !! k) as [val|] eqn:Hk; [|done]. case_decide as Hv.
      - intros _. exists k, v, val. split; [by left|done].
      - intros (k' & v1 & v2 & ? & ? & ?)%IH. exists k', v1, v2. split; [by right|done]. }
    intros l1 l2. unfold Conflict.
    destruct (size l1 <? size l2); intros (k & v1 & v2 & ?%elem_of_entries & ? & ?)%Hloop; eauto 10.
  - exists (list_to_map [("b", "1"); ("c", "1")]), (list_to_map [("a", "1"); ("b", "2")]), "b", "1", "2".
    split_and!; [by vm_compute|by vm_compute|done|by vm_compute].
Qed.

(** The value of [gt] and [lt] is validated as an unsigned number but compared
    as a signed one: a requirement with a value of [2^63] or more is accepted
    and then matches no label set. *)
Theorem gt_lt_large_value_never_matches `{Eng : RegexEngine, Spec : !RegexSpec} key op v n ls :
  op = GreaterThan ∨ op = LessThan → qualified_name key →
  parse_u64 v = Some n → (ty_max i64 < n)%Z →
  Requirement_New key op [v] = Ok (MkRequirement key op [v]) ∧
  Matchs (MkRequirement key op [v]) ls = Ok false.
Proof.
  intros Hop Hkey Hv Hn. split.
  { apply Requirement_New_Ok. split_and!; try done. destruct Hop as [-> | ->]; simpl; eauto. }
  destruct (Matchs_spec (MkRequirement key op [v]) ls) as (b & -> & Hb); [by destruct Hop as [-> | ->]|].
  f_equal. destruct b; [|done]. exfalso. destruct Hb as [Hb _]. specialize (Hb eq_refl).
  destruct Hop as [-> | ->]; destruct Hb as (? & w & ? & ? & _ & [= <-] & _ & Hw & _);
    by rewrite (parse_i64_above v n) in Hw.
Qed.

Lemma gt_lt_large_value_never_matches_witness :
  @Requirement_New derivative_engine "mem" LessThan ["9223372036854775808"]
    = Ok (MkRequirement "mem" LessThan ["9223372036854775808"]) ∧
  Matchs (MkRequirement "mem" LessThan ["9223372036854775808"]) {["mem" := "1"]} = Ok false.
Proof.
  apply (@gt_lt_large_value_never_matches derivative_engine derivative_engine_spec _ _ _
    9223372036854775808%Z).
  - by right.
  - apply (@IsQualifiedName_Ok derivative_engine derivative_engine_spec). by vm_compute.
  - by vm_compute.
  - done.
Defined.
