(* ===== verification/SelectorLexer.v ===== *)
(** * The lexer of selector texts (inferxlib/src/selector.rs, [Token] to [Lexer])

    The code lexes the [char]s of the text; every character it distinguishes is
    ASCII, so lexing the UTF-8 bytes yields the same literals.  The lexer state
    is threaded explicitly; a loop gets as fuel one more than the number of
    characters, and running out of it is a [Panic], so that [no_panic] also
    states termination. *)

From S2P Require Import Prelude.
From S2P Require Import Text.
From S2P Require Import BTree.
From S2P Require Import Common.
From S2P Require Import Validation.
From S2P Require Import Selector.

(** inferxlib/src/selector.rs:712-741 [Token] *)
Inductive Token :=
| ErrorToken | EndOfStringToken | ClosedParToken | CommaToken | DoesNotExistToken
| DoubleEqualsToken | EqualsToken | GreaterThanToken | IdentifierToken | InToken
| LessThanToken | NotEqualsToken | NotInToken | OpenParToken.

#[global] Instance Token_eq_dec : EqDecision Token.
Proof. solve_decision. Defined.

(** inferxlib/src/selector.rs:749-765 [STRING2TOKEN] *)
Definition STRING2TOKEN : list (string * Token) :=
  [(")", ClosedParToken); (",", CommaToken); ("!", DoesNotExistToken);
   ("==", DoubleEqualsToken); ("=", EqualsToken); (">", GreaterThanToken);
   ("in", InToken); ("<", LessThanToken); ("!=", NotEqualsToken);
   ("notin", NotInToken); ("(", OpenParToken)].

(** [STRING2TOKEN.get(&s)] *)
Fixpoint token_get (table : list (string * Token)) (s : string) : option Token :=
  match table with
  | [] => None
  | (k, t) :: table => if decide (k = s) then Some t else token_get table s
  end.
Definition token_of (s : string) : option Token := token_get STRING2TOKEN s.

(** inferxlib/src/selector.rs:769-772 [ScannedItem] *)
Record ScannedItem := MkItem { tok : Token; literal : string }.

(** inferxlib/src/selector.rs:775-777 [IsWhitespace] *)
Definition IsWhitespace (ch : ascii) : bool :=
  bool_decide (ch = " "%char) || bool_decide (ch = "009"%char)
  || bool_decide (ch = "013"%char) || bool_decide (ch = "010"%char).

(** inferxlib/src/selector.rs:780-787 [IsSpecialSymbol] *)
Definition IsSpecialSymbol (ch : ascii) : bool :=
  match ch with
  | "="%char | "!"%char | "("%char | ")"%char | ","%char | ">"%char | "<"%char => true
  | _ => false
  end.

Definition NUL : ascii := "000"%char.

(** inferxlib/src/selector.rs:792-797 [Lexer] *)
Record Lexer := MkLexer { lex_s : list ascii; lex_pos : nat }.

(** inferxlib/src/selector.rs:802-810 [Lexer::Read] *)
Definition Read (self : Lexer) : ascii * Lexer :=
  match lex_s self !! lex_pos self with
  | Some b => (b, MkLexer (lex_s self) (lex_pos self + 1))
  | None => (NUL, self)
  end.

(** inferxlib/src/selector.rs:813-815 [Lexer::Unread] *)
Definition Unread (self : Lexer) : Result Lexer :=
  if lex_pos self =? 0 then Panic "attempt to subtract with overflow"
  else Ok (MkLexer (lex_s self) (lex_pos self - 1)).

Definition out_of_fuel {A} : Result A := Panic "out of fuel".
Definition lex_fuel (self : Lexer) : nat := S (length (lex_s self)).

Fixpoint scan_id_loop (fuel : nat) (self : Lexer) (buf : list ascii) : Result (list ascii * Lexer) :=
  match fuel with
  | 0 => out_of_fuel
  | S fuel =>
      let '(ch, self) := Read self in
      if decide (ch = NUL) then Ok (buf, self)
      else if IsSpecialSymbol ch || IsWhitespace ch then self ← Unread self; Ok (buf, self)
      else scan_id_loop fuel self (buf ++ [ch])
  end.

(** inferxlib/src/selector.rs:818-839 [Lexer::ScanIDOrKeyword] *)
Definition ScanIDOrKeyword (self : Lexer) : Result (Token * string * Lexer) :=
  '(buf, self) ← scan_id_loop (lex_fuel self) self [];
  let s := of_chars buf in
  match token_of s with
  | None => Ok (IdentifierToken, s, self)
  | Some v => Ok (v, s, self)
  end.

Fixpoint scan_sym_loop (fuel : nat) (self : Lexer) (last : ScannedItem) (buf : list ascii)
  : Result (ScannedItem * list ascii * Lexer) :=
  match fuel with
  | 0 => out_of_fuel
  | S fuel =>
      let '(ch, self) := Read self in
      if decide (ch = NUL) then Ok (last, buf, self)
      else if IsSpecialSymbol ch then
        let buf := buf ++ [ch] in
        let s := of_chars buf in
        match token_of s with
        | Some token => scan_sym_loop fuel self (MkItem token s) buf
        | None =>
            if decide (tok last ≠ ErrorToken) then self ← Unread self; Ok (last, buf, self)
            else scan_sym_loop fuel self last buf
        end
      else self ← Unread self; Ok (last, buf, self)
  end.

(** inferxlib/src/selector.rs:843-883 [Lexer::ScanSpecialSymbol] *)
Definition ScanSpecialSymbol (self : Lexer) : Result (Token * string * Lexer) :=
  '(last, buf, self) ← scan_sym_loop (lex_fuel self) self (MkItem ErrorToken "") [];
  let s := of_chars buf in
  if decide (tok last = ErrorToken)
  then Ok (ErrorToken, "error expected: keyword found '" +:+ s +:+ "'", self)
  else Ok (tok last, literal last, self).

Fixpoint skip_loop (fuel : nat) (self : Lexer) (ch : ascii) : Result (ascii * Lexer) :=
  match fuel with
  | 0 => out_of_fuel
  | S fuel =>
      if negb (IsWhitespace ch) then Ok (ch, self)
      else let '(ch, self) := Read self in skip_loop fuel self ch
  end.
(** inferxlib/src/selector.rs:887-895 [Lexer::SkipWhiteSpaces] *)
Definition SkipWhiteSpaces (self : Lexer) (ch : ascii) : Result (ascii * Lexer) :=
  skip_loop (S (lex_fuel self)) self ch.

(** inferxlib/src/selector.rs:899-911 [Lexer::Lex] *)
Definition Lex (self : Lexer) : Result (Token * string * Lexer) :=
  let '(ch, self) := Read self in
  '(ch, self) ← SkipWhiteSpaces self ch;
  if decide (ch = NUL) then Ok (EndOfStringToken, "", self)
  else if IsSpecialSymbol ch then self ← Unread self; ScanSpecialSymbol self
  else self ← Unread self; ScanIDOrKeyword self.

Fixpoint scan_loop (fuel : nat) (self : Lexer) (scanItems : list ScannedItem)
  : Result (list ScannedItem * Lexer) :=
  match fuel with
  | 0 => out_of_fuel
  | S fuel =>
      '(token, literal, self) ← Lex self;
      let scanItems := scanItems ++ [MkItem token literal] in
      if decide (token = EndOfStringToken) then Ok (scanItems, self)
      else scan_loop fuel self scanItems
  end.

Example lex_ex :
  fst <$> scan_loop 40 (MkLexer (chars "x in (a,,b),y!=1, !z") 0) [] =
  Ok (uncurry MkItem <$>
      [(IdentifierToken, "x"); (InToken, "in"); (OpenParToken, "("); (IdentifierToken, "a");
       (CommaToken, ","); (CommaToken, ","); (IdentifierToken, "b"); (ClosedParToken, ")");
       (CommaToken, ","); (IdentifierToken, "y"); (NotEqualsToken, "!="); (IdentifierToken, "1");
       (CommaToken, ","); (DoesNotExistToken, "!"); (IdentifierToken, "z"); (EndOfStringToken, "")]).
Proof. reflexivity. Qed.

(** ** The lexer on lists of characters

    [lexer_at p t] has read [p] and has [t] left. *)

Definition lexer_at (p t : list ascii) : Lexer := MkLexer (p ++ t) (length p).

Lemma Read_cons p c t : Read (lexer_at p (c :: t)) = (c, lexer_at (p ++ [c]) t).
Proof.
  unfold Read, lexer_at. simpl. rewrite list_lookup_middle by done.
  by rewrite length_app, <-(assoc_L (++)).
Qed.
Lemma Read_nil p : Read (lexer_at p []) = (NUL, lexer_at p []).
Proof. unfold Read, lexer_at. simpl. by rewrite !app_nil_r, lookup_ge_None_2. Qed.
Lemma Unread_at p c t : Unread (lexer_at (p ++ [c]) t) = Ok (lexer_at p (c :: t)).
Proof.
  unfold Unread, lexer_at. simpl. rewrite length_app. simpl.
  destruct (Nat.eqb_spec (length p + 1) 0); [lia|].
  by rewrite <-(assoc_L (++)), Nat.add_sub.
Qed.

Fixpoint id_span (t : list ascii) : list ascii * list ascii :=
  match t with
  | [] => ([], [])
  | c :: t' =>
      if decide (c = NUL) then ([], t')
      else if IsSpecialSymbol c || IsWhitespace c then ([], t)
      else let '(buf, r) := id_span t' in (c :: buf, r)
  end.

Fixpoint sym_span (last : ScannedItem) (buf t : list ascii) : ScannedItem * list ascii :=
  match t with
  | [] => (last, [])
  | c :: t' =>
      if decide (c = NUL) then (last, t')
      else if IsSpecialSymbol c then
        match token_of (of_chars (buf ++ [c])) with
        | Some token => sym_span (MkItem token (of_chars (buf ++ [c]))) (buf ++ [c]) t'
        | None => if decide (tok last ≠ ErrorToken) then (last, t) else sym_span last (buf ++ [c]) t'
        end
      else (last, t)
  end.

Fixpoint skip_ws (t : list ascii) : list ascii :=
  match t with
  | c :: t' => if IsWhitespace c then skip_ws t' else t
  | [] => []
  end.

(** One token and what is left. *)
Definition lex1 (t : list ascii) : Token * string * list ascii :=
  match skip_ws t with
  | [] => (EndOfStringToken, "", [])
  | c :: t' =>
      if decide (c = NUL) then (EndOfStringToken, "", t')
      else if IsSpecialSymbol c then
        let '(last, r) := sym_span (MkItem ErrorToken "") [] (c :: t') in (tok last, literal last, r)
      else
        let '(buf, r) := id_span (c :: t') in
        (default IdentifierToken (token_of (of_chars buf)), of_chars buf, r)
  end.

Lemma scan_id_loop_at fuel p t buf :
  length t < fuel →
  ∃ p', p' ++ (id_span t).2 = p ++ t ∧
    scan_id_loop fuel (lexer_at p t) buf = Ok (buf ++ (id_span t).1, lexer_at p' (id_span t).2).
Proof.
  revert p t buf. induction fuel as [|fuel IH]; intros p t buf Hf; [lia|].
  destruct t as [|c t]; cbn -[decide].
  { rewrite Read_nil. cbv beta iota. rewrite decide_True by done. exists p. by rewrite !app_nil_r. }
  rewrite Read_cons. cbv beta iota. case_decide.
  { exists (p ++ [c]). by rewrite <-(assoc_L (++)), app_nil_r. }
  destruct (IsSpecialSymbol c || IsWhitespace c) eqn:Hc.
  { rewrite Unread_at. exists p. by rewrite !app_nil_r. }
  destruct (IH (p ++ [c]) t (buf ++ [c])) as (p' & Hp & ->); [simpl in Hf; lia|].
  exists p'. destruct (id_span t) as [b r]. simpl in *. split; [by rewrite Hp, <-(assoc_L (++))|].
  by rewrite <-(assoc_L (++)).
Qed.

Lemma scan_sym_loop_at fuel p t last buf :
  length t < fuel →
  ∃ p' buf', p' ++ (sym_span last buf t).2 = p ++ t ∧
    scan_sym_loop fuel (lexer_at p t) last buf
    = Ok ((sym_span last buf t).1, buf', lexer_at p' (sym_span last buf t).2).
Proof.
  revert p t last buf. induction fuel as [|fuel IH]; intros p t last buf Hf; [lia|].
  destruct t as [|c t]; cbn -[decide token_of].
  { rewrite Read_nil. cbv beta iota. rewrite decide_True by done. by exists p, buf. }
  rewrite Read_cons. cbv beta iota. case_decide.
  { exists (p ++ [c]), buf. by rewrite <-(assoc_L (++)). }
  simpl in Hf. assert ((p ++ [c]) ++ t = p ++ c :: t) as Hpc by by rewrite <-(assoc_L (++)).
  destruct (IsSpecialSymbol c).
  - destruct (token_of (of_chars (buf ++ [c]))) as [token|].
    + rewrite <-Hpc. apply IH. lia.
    + case_decide; [|rewrite <-Hpc; apply IH; lia].
      rewrite Unread_at. by exists p, (buf ++ [c]).
  - rewrite Unread_at. by exists p, buf.
Qed.

Lemma skip_loop_at fuel p t c :
  length t + 1 < fuel →
  ∃ p', match skip_ws (c :: t) with
        | [] => p' = p ++ t ∧ skip_loop fuel (lexer_at p t) c = Ok (NUL, lexer_at p' [])
        | c' :: t' => p' ++ t' = p ++ t ∧ skip_loop fuel (lexer_at p t) c = Ok (c', lexer_at p' t') ∧
            (c' = c ∧ t' = t ∧ p' = p ∨ ∃ q, p' = q ++ [c'])
        end.
Proof.
  revert p t c. induction fuel as [|fuel IH]; intros p t c Hf; [lia|]. simpl.
  destruct (IsWhitespace c) eqn:Hc; simpl; [|exists p; auto 10].
  destruct t as [|d t].
  { rewrite Read_nil. destruct fuel; [simpl in Hf; lia|]. exists p. simpl. by rewrite !app_nil_r. }
  rewrite Read_cons. destruct (IH (p ++ [d]) t d) as (p' & Hp'); [simpl in Hf; lia|].
  exists p'. destruct (skip_ws (d :: t)) as [|c' t'].
  - rewrite <-(assoc_L (++)) in Hp'. done.
  - rewrite <-(assoc_L (++)) in Hp'. destruct Hp' as (? & ? & [(-> & -> & ->)|?]); split_and!; try done; right; eauto.
Qed.

Lemma special_token c : IsSpecialSymbol c = true → ∃ t, token_of (of_chars [c]) = Some t ∧ t ≠ ErrorToken.
Proof. destruct c as [[] [] [] [] [] [] [] []]; intros [=]; by eexists. Qed.

Lemma token_of_ne s t : token_of s = Some t → t ≠ ErrorToken ∧ t ≠ EndOfStringToken ∧ t ≠ IdentifierToken.
Proof. unfold token_of. simpl. repeat case_decide; intros [=]; subst; done. Qed.

Lemma sym_span_tok last buf t : tok last ≠ ErrorToken → tok last ≠ EndOfStringToken →
  tok (sym_span last buf t).1 ≠ ErrorToken ∧ tok (sym_span last buf t).1 ≠ EndOfStringToken.
Proof.
  revert last buf. induction t as [|c t IH]; intros last buf H1 H2; cbn -[decide token_of]; [done|].
  case_decide; [done|]. destruct (IsSpecialSymbol c); [|done].
  destruct (token_of _) eqn:Ht; [|case_decide; by auto].
  apply token_of_ne in Ht as (? & ? & ?). by apply IH.
Qed.

Lemma sym_span_start c t :
  IsSpecialSymbol c = true →
  tok (sym_span (MkItem ErrorToken "") [] (c :: t)).1 ≠ ErrorToken ∧
  tok (sym_span (MkItem ErrorToken "") [] (c :: t)).1 ≠ EndOfStringToken.
Proof.
  intros Hc. cbn -[decide token_of of_chars]. rewrite decide_False by by intros ->. rewrite Hc.
  destruct (special_token c Hc) as (k & Hk & _). rewrite Hk.
  apply token_of_ne in Hk as (? & ? & ?). by apply sym_span_tok.
Qed.

(** [Lex] is [lex1], and stays inside the text. *)
Lemma Lex_lex1 p t :
  ∃ p', p' ++ (lex1 t).2 = p ++ t ∧
    Lex (lexer_at p t) = Ok ((lex1 t).1, lexer_at p' (lex1 t).2).
Proof.
  unfold Lex, SkipWhiteSpaces, lex1.
  assert (∀ p t, lex_fuel (lexer_at p t) = S (length p + length t)) as Hfuel.
  { intros p0 t0. unfold lex_fuel, lexer_at. simpl. by rewrite length_app. }
  destruct t as [|c t].
  { rewrite Read_nil. simpl. exists p. done. }
  rewrite Read_cons.
  destruct (skip_loop_at (S (lex_fuel (lexer_at (p ++ [c]) t))) (p ++ [c]) t c) as (p' & Hskip).
  { rewrite Hfuel. lia. }
  destruct (skip_ws (c :: t)) as [|c' t'].
  { destruct Hskip as [-> ->]. cbn. eexists. split; [|done]. by rewrite app_nil_r, <-(assoc_L (++)). }
  destruct Hskip as (Hp & -> & Hq). cbn -[decide sym_span id_span token_of ScanSpecialSymbol ScanIDOrKeyword].
  case_decide as Hnul.
  { exists p'. cbn. split; [by rewrite Hp, <-(assoc_L (++))|done]. }
  assert (∃ q, p' = q ++ [c']) as [q ->] by (destruct Hq as [(-> & -> & ->)|?]; eauto).
  rewrite Unread_at. cbn -[decide sym_span id_span token_of ScanSpecialSymbol ScanIDOrKeyword].
  assert (q ++ c' :: t' = p ++ c :: t) as Hqp by (rewrite <-!(assoc_L (++)) in Hp; done).
  destruct (IsSpecialSymbol c') eqn:Hc.
  - unfold ScanSpecialSymbol.
    destruct (scan_sym_loop_at (lex_fuel (lexer_at q (c' :: t'))) q (c' :: t') (MkItem ErrorToken "") [])
      as (p'' & buf' & Hp'' & ->); [rewrite Hfuel; simpl; lia|].
    pose proof (sym_span_start c' t' Hc) as [Hne _]. destruct (sym_span _ _ _) as [last r].
    cbn -[decide]. rewrite decide_False by done. exists p''. cbn in *. by rewrite Hp''.
  - unfold ScanIDOrKeyword.
    destruct (scan_id_loop_at (lex_fuel (lexer_at q (c' :: t'))) q (c' :: t') [])
      as (p'' & Hp'' & ->); [rewrite Hfuel; simpl; lia|].
    destruct (id_span (c' :: t')) as [buf r]. simpl in *. exists p''.
    split; [congruence|]. by destruct (token_of (of_chars buf)).
Qed.

Lemma id_span_length t : length (id_span t).2 ≤ length t.
Proof.
  induction t as [|c t IH]; [done|]. cbn -[decide]. case_decide; [simpl; lia|].
  destruct (_ || _); [simpl; lia|]. destruct (id_span t). simpl in *. lia.
Qed.
Lemma sym_span_length last buf t : length (sym_span last buf t).2 ≤ length t.
Proof.
  revert last buf. induction t as [|c t IH]; intros last buf; [done|]. cbn -[decide token_of].
  case_decide; [simpl; lia|]. destruct (IsSpecialSymbol c); [|simpl; lia].
  destruct (token_of _); [etrans; [apply IH|lia]|]. case_decide; [simpl; lia|etrans; [apply IH|lia]].
Qed.
Lemma skip_ws_length t : length (skip_ws t) ≤ length t.
Proof. induction t as [|c t IH]; simpl; [done|]. destruct (IsWhitespace c); simpl; lia. Qed.
Lemma skip_ws_head t c t' : skip_ws t = c :: t' → IsWhitespace c = false.
Proof. induction t as [|d t IH]; simpl; [done|]. destruct (IsWhitespace d) eqn:Hd; [done|]. by intros [= -> ->]. Qed.

(** A token other than the end consumes a character, and is no error. *)
Lemma lex1_progress t :
  (lex1 t).1.1 ≠ ErrorToken ∧
  ((lex1 t).1.1 ≠ EndOfStringToken → length (lex1 t).2 < length t).
Proof.
  unfold lex1. pose proof (skip_ws_length t) as Hl.
  destruct (skip_ws t) as [|c t'] eqn:Hs; [done|]. apply skip_ws_head in Hs. simpl in Hl.
  case_decide as Hnul; [done|]. destruct (IsSpecialSymbol c) eqn:Hc.
  - pose proof (sym_span_start c t' Hc) as [H1 _].
    revert H1. cbn -[decide token_of of_chars]. rewrite decide_False by done. rewrite Hc.
    destruct (special_token c Hc) as (k & Hk & _). rewrite Hk.
    pose proof (sym_span_length (MkItem k (of_chars [c])) [c] t').
    destruct (sym_span _ _ _). simpl in *. intros. split; [done|lia].
  - cbn -[decide token_of of_chars]. rewrite decide_False by done. rewrite Hc, Hs. simpl.
    pose proof (id_span_length t'). destruct (id_span t') as [buf r]. simpl in *.
    split; [|lia]. destruct (token_of _) eqn:Ht; [|done]. by apply token_of_ne in Ht as [].
Qed.

(** The token sequence of a text, up to and including its end. *)
Inductive Lexes : list ascii → list ScannedItem → Prop :=
| Lexes_end t : (lex1 t).1.1 = EndOfStringToken → Lexes t [MkItem (lex1 t).1.1 (lex1 t).1.2]
| Lexes_step t items :
    (lex1 t).1.1 ≠ EndOfStringToken → Lexes (lex1 t).2 items →
    Lexes t (MkItem (lex1 t).1.1 (lex1 t).1.2 :: items).

Lemma scan_loop_Lexes fuel p t acc :
  length t < fuel →
  ∃ items l', Lexes t items ∧ scan_loop fuel (lexer_at p t) acc = Ok (acc ++ items, l').
Proof.
  revert p t acc. induction fuel as [|fuel IH]; intros p t acc Hf; [lia|].
  cbn -[decide Lex]. destruct (Lex_lex1 p t) as (p' & Hp & ->).
  pose proof (lex1_progress t) as [_ Hlt]. pose proof (Lexes_end t) as Hend.
  pose proof (Lexes_step t) as Hstep.
  destruct (lex1 t) as [[token lit] r]. cbn -[decide Lex] in *.
  case_decide as Htok.
  - exists [MkItem token lit], (lexer_at p' r). auto.
  - destruct (IH p' r (acc ++ [MkItem token lit])) as (items & l' & Hlex & ->).
    { specialize (Hlt Htok). lia. }
    exists (MkItem token lit :: items), l'. rewrite <-(assoc_L (++)). auto.
Qed.

Lemma Lexes_fun t i1 i2 : Lexes t i1 → Lexes t i2 → i1 = i2.
Proof.
  intros H1. revert i2. induction H1 as [t Ht|t items Ht H1 IH]; intros i2 H2;
    inversion H2; subst; try done. f_equal. by apply IH.
Qed.

Lemma Lexes_shape t items :
  Lexes t items →
  ∃ front lit, items = front ++ [MkItem EndOfStringToken lit] ∧
    Forall (λ i, tok i ≠ EndOfStringToken ∧ tok i ≠ ErrorToken) front.
Proof.
  induction 1 as [t Ht|t items Ht H1 (front & lit & -> & Hall)].
  - rewrite Ht. exists [], (lex1 t).1.2. auto.
  - eexists (_ :: front), lit. split; [done|]. constructor; [|done]. simpl.
    split; [done|]. apply lex1_progress.
Qed.

(** C40: the lexer always stops, and the items it yields end with the one
    end-of-string item and contain no error token: the error branches for the
    lexer's own error token are dead code. *)
Theorem lexer_items (s : list ascii) :
  ∃ front lit l, scan_loop (lex_fuel (MkLexer s 0)) (MkLexer s 0) []
    = Ok (front ++ [MkItem EndOfStringToken lit], l) ∧
    Forall (λ i, tok i ≠ EndOfStringToken ∧ tok i ≠ ErrorToken) front.
Proof.
  change (MkLexer s 0) with (lexer_at [] s).
  destruct (scan_loop_Lexes (lex_fuel (lexer_at [] s)) [] s []) as (items & l & Hl & Hrun).
  { unfold lex_fuel, lexer_at. simpl. lia. }
  apply Lexes_shape in Hl as (front & lit & -> & Hall). by exists front, lit, l.
Qed.
