(* ===== verification/SelectorParser.v ===== *)
(** * The parser of selector texts (inferxlib/src/selector.rs, [Parser], [Parse])

    The parser state is threaded explicitly and indexing past the scanned items
    is a [Panic].  A [HashSet<String>] is a [gset]; the order in which it is
    collected into a vector is not specified, and is the class [HashOrder],
    which may choose a different order for every set built. *)

From S2P Require Import Prelude.
From S2P Require Import Text.
From S2P Require Import BTree.
From S2P Require Import Common.
From S2P Require Import Validation.
From S2P Require Import Selector.
From S2P Require Import SelectorLexer.

(** The iteration order of a [HashSet]; [seed] stands for the set's random
    state (here the parser position at which it is collected). *)
Class HashOrder := hash_iter : nat → gset string → list string.
(** Documented behaviour: every element once, in some order. *)
Class HashSpec `{HashOrder} : Prop :=
  hash_iter_perm seed X : hash_iter seed X ≡ₚ elements X.

Definition btree_order : HashOrder := λ _ X, set_elems X.
#[global] Instance btree_order_spec : @HashSpec btree_order.
Proof. intros seed X. apply merge_sort_Permutation. Qed.

(** inferxlib/src/selector.rs:927-930 [ParserContext] *)
Inductive ParserContext := KeyAndOperator | ValuesCtx.

(** inferxlib/src/selector.rs:916-920 [Parser] *)
Record Parser := MkParser { p_l : Lexer; scanItems : list ScannedItem; position : nat }.

Definition in_context (context : ParserContext) (t : Token) : Token :=
  match context, t with
  | ValuesCtx, (InToken | NotInToken) => IdentifierToken
  | _, t => t
  end.

Definition item_at (self : Parser) (i : nat) : Result ScannedItem :=
  match scanItems self !! i with Some it => Ok it | None => Panic "index out of bounds" end.

(** inferxlib/src/selector.rs:934-946 [Parser::Lookahead] *)
Definition Lookahead (self : Parser) (context : ParserContext) : Result (Token * string) :=
  it ← item_at self (position self);
  Ok (in_context context (tok it), literal it).

(** inferxlib/src/selector.rs:949-962 [Parser::Consume] *)
Definition Consume (self : Parser) (context : ParserContext) : Result (Token * string * Parser) :=
  let self := MkParser (p_l self) (scanItems self) (position self + 1) in
  it ← item_at self (position self - 1);
  Ok (in_context context (tok it), literal it, self).

(** inferxlib/src/selector.rs:966-977 [Parser::Scan] *)
Definition Scan (self : Parser) : Result Parser :=
  '(items, l) ← scan_loop (lex_fuel (p_l self)) (p_l self) (scanItems self);
  Ok (MkParser l items (position self)).

Section parser.
Context `{Eng : RegexEngine, Ord : HashOrder}.

(** inferxlib/src/selector.rs:1051-1078 [Parser::ParseKeyAndInferOperator] *)
Definition ParseKeyAndInferOperator (self : Parser) : Result (string * SelectionOp * Parser) :=
  '(tok, literal, self) ← Consume self ValuesCtx;
  '(operator, tok, literal, self) ←
    (if decide (tok = DoesNotExistToken) then
       '(tok, literal, self) ← Consume self ValuesCtx; Ok (DoesNotExist, tok, literal, self)
     else Ok (OpNone, tok, literal, self));
  if decide (tok ≠ IdentifierToken)
  then common_err ("found '" +:+ literal +:+ "', expected: identifier")
  else
    _ ← ValidateLabelKey literal;
    '(t, _) ← Lookahead self ValuesCtx;
    let operator :=
      if decide (t = EndOfStringToken ∨ t = CommaToken)
      then if decide (operator ≠ DoesNotExist) then Exists else operator
      else operator in
    Ok (literal, operator, self).

(** inferxlib/src/selector.rs:1082-1102 [Parser::ParseOperator] *)
Definition ParseOperator (self : Parser) : Result (SelectionOp * Parser) :=
  '(tok, lit, self) ← Consume self KeyAndOperator;
  match tok with
  | InToken => Ok (In, self)
  | EqualsToken => Ok (Equals, self)
  | DoubleEqualsToken => Ok (DoubleEquals, self)
  | GreaterThanToken => Ok (GreaterThan, self)
  | LessThanToken => Ok (LessThan, self)
  | NotInToken => Ok (NotIn, self)
  | NotEqualsToken => Ok (NotEquals, self)
  | _ => common_err ("found '" +:+ lit +:+ "', expected: In, NotIn ...")
  end.

Fixpoint identifiers_loop (fuel : nat) (self : Parser) (s : gset string)
  : Result (gset string * Parser) :=
  match fuel with
  | 0 => out_of_fuel
  | S fuel =>
      '(tok, lit, self) ← Consume self ValuesCtx;
      match tok with
      | IdentifierToken =>
          let s := {[lit]} ∪ s in
          '(tok2, lit2) ← Lookahead self ValuesCtx;
          match tok2 with
          | CommaToken => identifiers_loop fuel self s
          | ClosedParToken => Ok (s, self)
          | _ => common_err ("found '" +:+ lit2 +:+ "', expected: ',' or ')'")
          end
      | CommaToken =>
          let s := if size s =? 0 then {[""]} ∪ s else s in
          '(tok2, _lit2) ← Lookahead self ValuesCtx;
          if decide (tok = ClosedParToken) then Ok ({[""]} ∪ s, self)
          else if decide (tok2 = CommaToken) then
            '(_, _, self) ← Consume self ValuesCtx;
            identifiers_loop fuel self ({[""]} ∪ s)
          else identifiers_loop fuel self s
      | _ => common_err ("found '" +:+ lit +:+ "', expected: ',', or identifier")
      end
  end.
(** inferxlib/src/selector.rs:1137-1180 [Parser::ParseIdentifiersList] *)
Definition ParseIdentifiersList (self : Parser) : Result (gset string * Parser) :=
  identifiers_loop (S (length (scanItems self))) self ∅.

(** inferxlib/src/selector.rs:1105-1135 [Parser::ParseValues] *)
Definition ParseValues (self : Parser) : Result (gset string * Parser) :=
  '(tok, lit, self) ← Consume self ValuesCtx;
  if decide (tok ≠ OpenParToken) then common_err ("found '" +:+ lit +:+ "' expected: '('")
  else
    '(tok, lit) ← Lookahead self ValuesCtx;
    match tok with
    | IdentifierToken | CommaToken =>
        '(s, self) ← ParseIdentifiersList self;
        '(tok, _, self) ← Consume self ValuesCtx;
        if decide (tok ≠ ClosedParToken) then common_err ("found '" +:+ lit +:+ "', expected: ')'")
        else Ok (s, self)
    | ClosedParToken =>
        '(_, _, self) ← Consume self ValuesCtx;
        Ok (∅, self)
    | _ => common_err ("found '" +:+ lit +:+ "', expected: ',', ')' or identifier")
    end.

(** inferxlib/src/selector.rs:1183-1201 [Parser::ParseExactValue] *)
Definition ParseExactValue (self : Parser) : Result (gset string * Parser) :=
  '(tok, _) ← Lookahead self ValuesCtx;
  if decide (tok = EndOfStringToken ∨ tok = CommaToken) then Ok ({[""]}, self)
  else
    '(tok, lit, self) ← Consume self ValuesCtx;
    if decide (tok = IdentifierToken) then Ok ({[lit]}, self)
    else common_err ("found '" +:+ lit +:+ "', expected: identifier").

(** inferxlib/src/selector.rs:1019-1046 [Parser::ParseRequirement] *)
Definition ParseRequirement (self : Parser) : Result (Requirement * Parser) :=
  '(key, operator, self) ← ParseKeyAndInferOperator self;
  if decide (operator = Exists ∨ operator = DoesNotExist) then
    r ← Requirement_New key operator []; Ok (r, self)
  else
    '(operator, self) ← ParseOperator self;
    '(values, self) ←
      match operator with
      | In | NotIn => ParseValues self
      | Equals | DoubleEquals | NotEquals | GreaterThan | LessThan => ParseExactValue self
      | _ => Ok (∅, self)
      end;
    r ← Requirement_New key operator (hash_iter (position self) values);
    Ok (r, self).

Fixpoint parse_loop (fuel : nat) (self : Parser) (requirements : Selector) : Result (Selector * Parser) :=
  match fuel with
  | 0 => out_of_fuel
  | S fuel =>
      '(tok, lit) ← Lookahead self ValuesCtx;
      match tok with
      | IdentifierToken | DoesNotExistToken =>
          '(r, self) ← ParseRequirement self;
          let requirements := Selector_Add requirements r in
          '(t, l, self) ← Consume self ValuesCtx;
          match t with
          | EndOfStringToken => Ok (requirements, self)
          | CommaToken =>
              '(t2, l2) ← Lookahead self ValuesCtx;
              if decide (t2 ≠ IdentifierToken ∧ t2 ≠ DoesNotExistToken)
              then common_err ("found '" +:+ l2 +:+ "', expected: identifier after ','")
              else parse_loop fuel self requirements
          | _ => common_err ("found '" +:+ l +:+ "', expected: ',' or 'end of string'")
          end
      | EndOfStringToken => Ok (requirements, self)
      | _ => common_err ("found '" +:+ lit +:+ "', expected: !, identifier, or 'end of string'")
      end
  end.
(** inferxlib/src/selector.rs:979-1017 [Parser::Parse] *)
Definition Parser_Parse (self : Parser) : Result (Selector * Parser) :=
  self ← Scan self;
  parse_loop (S (length (scanItems self))) self [].

(** inferxlib/src/selector.rs:1235-1248 [Parse] *)
Definition Parse (selector : string) : Result Selector :=
  let p := MkParser (MkLexer (chars selector) 0) [] 0 in
  '(items, _) ← Parser_Parse p;
  Ok (Sort items).

(** inferxlib/src/selector.rs:70-72 [Selector::Parse] *)
Definition Selector_Parse (selector : string) : Result Selector := Parse selector.
End parser.

Example parse_ex :
  @Parse derivative_engine btree_order "y, x in (foo,,baz),!z, w==2,v>3,u=" =
  Ok [MkRequirement "u" Equals [""]; MkRequirement "v" GreaterThan ["3"];
      MkRequirement "w" DoubleEquals ["2"]; MkRequirement "x" In [""; "baz"; "foo"];
      MkRequirement "y" Exists []; MkRequirement "z" DoesNotExist []].
Proof. by vm_compute. Qed.
Example parse_trailing_comma : is_err (@Parse derivative_engine btree_order "x in (a,)") = true.
Proof. by vm_compute. Qed.

(** ** Safety: the parser never reads past the end-of-string item *)

Definition parser_at (l : Lexer) (d r : list ScannedItem) : Parser := MkParser l (d ++ r) (length d).

Lemma Lookahead_at l d it r ctx :
  Lookahead (parser_at l d (it :: r)) ctx = Ok (in_context ctx (tok it), literal it).
Proof. unfold Lookahead, item_at, parser_at. simpl. by rewrite list_lookup_middle. Qed.
Lemma Consume_at l d it r ctx :
  Consume (parser_at l d (it :: r)) ctx
  = Ok (in_context ctx (tok it), literal it, parser_at l (d ++ [it]) r).
Proof.
  unfold Consume, item_at, parser_at. simpl. rewrite Nat.add_sub, list_lookup_middle by done. simpl.
  by rewrite length_app, <-(assoc_L (++)).
Qed.

(** What is left to read ends with the only end-of-string item. *)
Definition unread (r : list ScannedItem) : Prop :=
  ∃ front lit, r = front ++ [MkItem EndOfStringToken lit] ∧ Forall (λ i, tok i ≠ EndOfStringToken) front.

Lemma unread_cons r : unread r → ∃ it r', r = it :: r'.
Proof. intros (front & lit & -> & _). destruct front; eauto. Qed.
Lemma unread_tail it r : unread (it :: r) → tok it ≠ EndOfStringToken → unread r.
Proof.
  intros (front & lit & Heq & Hall) Hne. destruct front as [|i front]; simplify_eq/=.
  apply Forall_cons in Hall as [_ Hall]. by exists front, lit.
Qed.
Lemma in_context_eos ctx t : in_context ctx t ≠ EndOfStringToken → t ≠ EndOfStringToken.
Proof. by destruct ctx, t. Qed.

(** A parsing step neither panics nor leaves the items, and does not go back. *)
Definition safe {A} (n m : nat) (ok : A → Prop) (x : Result (A * Parser)) : Prop :=
  match x with
  | Panic _ => False
  | Err _ => True
  | Ok (a, p) => ok a ∧ ∃ l d r, p = parser_at l d r ∧ unread r ∧ length (d ++ r) = n ∧ length r ≤ m
  end.

Lemma safe_Ok {A} n m (ok : A → Prop) a l d r :
  ok a → unread r → length (d ++ r) = n → length r ≤ m → safe n m ok (Ok (a, parser_at l d r)).
Proof. intros. split; [done|]. by exists l, d, r. Qed.

Lemma safe_le {A} n m m' (ok : A → Prop) x : safe n m ok x → m ≤ m' → safe n m' ok x.
Proof.
  destruct x as [[a p]|e|w]; [|done..]. intros (Ha & l & d & r & -> & Hr & Hn & Hm) Hle.
  apply safe_Ok; [done..|lia].
Qed.

Ltac take_item r it r' H :=
  let E := fresh in let t := fresh in
  destruct (unread_cons r H) as (it & t & E); subst r; rename t into r'.

Lemma identifiers_loop_safe fuel l d r s :
  unread r → length r < fuel →
  safe (length (d ++ r)) (length r) (λ _, True) (identifiers_loop fuel (parser_at l d r) s).
Proof.
  revert d r s. induction fuel as [|fuel IH]; intros d r s Hr Hf; [lia|].
  take_item r it r Hr. cbn -[decide size in_context]. rewrite Consume_at. cbn -[decide size in_context].
  assert (length (d ++ it :: r) = length ((d ++ [it]) ++ r)) as Hlen by by rewrite <-(assoc_L (++)).
  simpl in Hf.
  destruct (in_context ValuesCtx (tok it)) eqn:Htok; try exact I;
    apply unread_tail in Hr; try (by destruct (tok it));
    take_item r it2 r2 Hr; rewrite Lookahead_at; cbn -[decide size in_context]; rewrite Hlen.
  - (* comma *)
    rewrite decide_False by done.
    case_decide as Hc; [|eapply safe_le; [apply IH; [done|simpl in *; lia]|simpl; lia]].
    rewrite Consume_at. cbn -[decide size in_context]. 
    replace (length ((d ++ [it]) ++ it2 :: r2)) with (length (((d ++ [it]) ++ [it2]) ++ r2))
      by (by rewrite <-!(assoc_L (++))).
    eapply safe_le; [apply IH; [|simpl in Hf; lia]|simpl; lia].
    apply unread_tail in Hr; [done|]. by destruct (tok it2).
  - (* identifier *)
    destruct (in_context ValuesCtx (tok it2)) eqn:Htok2; try exact I.
    + apply safe_Ok; [done..|simpl; lia].
    + eapply safe_le; [apply IH; [done|simpl in *; lia]|simpl; lia].
Qed.

Section parser_safe.
Context `{Eng : RegexEngine, Ord : HashOrder}.

Lemma ParseValues_safe l d r :
  unread r → safe (length (d ++ r)) (length r) (λ _, True) (ParseValues (parser_at l d r)).
Proof.
  intros Hr. unfold ParseValues. take_item r it r Hr. rewrite Consume_at. cbn -[decide size in_context].
  case_decide as Ht; [exact I|].
  assert (unread r) as Hr1 by (apply unread_tail in Hr; [done|]; by destruct (tok it)).
  assert (length (d ++ it :: r) = length ((d ++ [it]) ++ r)) as -> by by rewrite <-(assoc_L (++)).
  take_item r it2 r2 Hr1. rewrite Lookahead_at. cbn -[decide size in_context].
  assert (safe (length ((d ++ [it]) ++ it2 :: r2)) (length (it2 :: r2)) (λ _, True)
    ('(s, self) ← ParseIdentifiersList (parser_at l (d ++ [it]) (it2 :: r2));
     '(tok, _, self) ← Consume self ValuesCtx;
     if decide (tok ≠ ClosedParToken) then common_err ("found '" +:+ literal it2 +:+ "', expected: ')'")
     else Ok (s, self))) as Hlist.
  { unfold ParseIdentifiersList.
    pose proof (identifiers_loop_safe (S (length (scanItems (parser_at l (d ++ [it]) (it2 :: r2)))))
      l (d ++ [it]) (it2 :: r2) ∅ Hr1) as Hs.
    destruct (identifiers_loop _ _ _) as [[s p]|e|w]; [|done|].
    - destruct Hs as (_ & l' & d' & r' & -> & Hr' & Hlen & Hle).
      { unfold parser_at. simpl. rewrite !length_app. simpl. lia. }
      take_item r' it3 r3 Hr'. cbn -[decide size in_context]. rewrite Consume_at. cbn -[decide size in_context].
      case_decide as Hcl; [exact I|]. apply safe_Ok; [done| |by rewrite <-(assoc_L (++))|simpl in *; lia].
      apply unread_tail in Hr'; [done|]. by destruct (tok it3).
    - apply Hs. unfold parser_at. simpl. rewrite !length_app. simpl. lia. }
  destruct (in_context ValuesCtx (tok it2)) eqn:Ht2; try exact I; try (eapply safe_le; [exact Hlist|simpl; lia]).
  rewrite Consume_at. apply safe_Ok; [done| |by rewrite <-!(assoc_L (++))|simpl; lia].
  apply unread_tail in Hr1; [done|]. by destruct (tok it2).
Qed.

Lemma ParseExactValue_safe l d r :
  unread r → safe (length (d ++ r)) (length r) (λ _, True) (ParseExactValue (parser_at l d r)).
Proof.
  intros Hr. unfold ParseExactValue. take_item r it r Hr. rewrite Lookahead_at. cbn -[decide size in_context].
  case_decide as Ht.
  { by apply safe_Ok. }
  rewrite Consume_at. cbn -[decide size in_context]. case_decide as Hid; [|exact I].
  apply safe_Ok; [done| |by rewrite <-(assoc_L (++))|simpl; lia].
  apply unread_tail in Hr; [done|]. by destruct (tok it).
Qed.

Lemma ParseOperator_safe l d r :
  unread r → safe (length (d ++ r)) (length r) (λ op, op ≠ OpNone) (ParseOperator (parser_at l d r)).
Proof.
  intros Hr. unfold ParseOperator. take_item r it r Hr. rewrite Consume_at. cbn -[decide size in_context].
  destruct (tok it) eqn:Ht; try exact I; 
    (apply safe_Ok; [done| |by rewrite <-(assoc_L (++))|simpl; lia]);
    (apply unread_tail in Hr; [done|by rewrite Ht]).
Qed.

Lemma ParseKey_safe l d r :
  unread r →
  safe (length (d ++ r)) (length r) (λ '(key, op), op = Exists ∨ op = DoesNotExist ∨ op = OpNone)
    (ParseKeyAndInferOperator (parser_at l d r)).
Proof.
  intros Hr. unfold ParseKeyAndInferOperator. take_item r it r Hr. rewrite Consume_at. cbn -[decide size in_context].
  assert (∀ op lit d r n m, unread r → length (d ++ r) = n → length r ≤ m →
    op = DoesNotExist ∨ op = OpNone →
    safe n m (λ '(key, op), op = Exists ∨ op = DoesNotExist ∨ op = OpNone)
      (_ ← ValidateLabelKey lit;
       '(t, _) ← Lookahead (parser_at l d r) ValuesCtx;
       let operator :=
         if decide (t = EndOfStringToken ∨ t = CommaToken)
         then if decide (op ≠ DoesNotExist) then Exists else op else op in
       Ok (lit, operator, parser_at l d r))) as Hkey.
  { intros op lit d' r' n m Hr' Hn Hm Hop. unfold ValidateLabelKey.
    pose proof (IsQualifiedName_no_panic lit) as Hq. destruct (IsQualifiedName lit); [|done..].
    take_item r' it2 r2 Hr'. cbn -[decide size in_context]. rewrite Lookahead_at. cbn -[decide size in_context].
    apply safe_Ok; [repeat case_decide; tauto|done..]. }
  assert (length (d ++ it :: r) = length ((d ++ [it]) ++ r)) as -> by by rewrite <-(assoc_L (++)).
  case_decide as Hnot.
  - assert (unread r) as Hr1 by (apply unread_tail in Hr; [done|]; by destruct (tok it)).
    take_item r it2 r2 Hr1. rewrite Consume_at. cbn -[decide size in_context]. case_decide as Hid; [exact I|].
    apply Hkey; [|by rewrite <-!(assoc_L (++))|simpl; lia|by left].
    apply unread_tail in Hr1; [done|]. by destruct (tok it2).
  - cbn -[decide size in_context]. case_decide as Hid; [exact I|].
    apply Hkey; [|done|simpl; lia|by right]. apply unread_tail in Hr; [done|]. by destruct (tok it).
Qed.

Definition made (rq : Requirement) : Prop :=
  Requirement_New (req_key rq) (req_op rq) (req_strVals rq) = Ok rq.

Lemma New_made key op vals rq : Requirement_New key op vals = Ok rq → made rq.
Proof.
  intros H. assert (rq = MkRequirement key op vals) as ->; [|done].
  unfold Requirement_New in H. apply bind_Ok in H as ([] & _ & H). by apply bind_Ok in H as ([] & _ & [= <-]).
Qed.

Lemma New_safe n m key op vals l d r :
  op ≠ OpNone → unread r → length (d ++ r) = n → length r ≤ m →
  safe n m made
    (rq ← Requirement_New key op vals; Ok (rq, parser_at l d r)).
Proof.
  intros Hop Hr Hn Hm. pose proof (Requirement_New_no_panic key op vals Hop) as Hp.
  destruct (Requirement_New key op vals) as [rq|e|w] eqn:Hnew; simpl; [|done..].
  apply New_made in Hnew.
  by apply safe_Ok.
Qed.

Lemma ParseRequirement_safe l d r :
  unread r → safe (length (d ++ r)) (length r) made (ParseRequirement (parser_at l d r)).
Proof.
  intros Hr. unfold ParseRequirement.
  pose proof (ParseKey_safe l d r Hr) as Hkey.
  destruct (ParseKeyAndInferOperator _) as [[[key op] p]|e|w]; [|done..].
  destruct Hkey as (Hop & l1 & d1 & r1 & -> & Hr1 & Hn1 & Hm1). cbn -[decide].
  case_decide as Hex.
  { apply New_safe; [|done..]. by destruct Hex as [-> | ->]. }
  pose proof (ParseOperator_safe l1 d1 r1 Hr1) as Hoper.
  destruct (ParseOperator _) as [[op' p]|e|w]; [|done..].
  destruct Hoper as (Hop' & l2 & d2 & r2 & -> & Hr2 & Hn2 & Hm2). cbn -[decide].
  assert (safe (length (d2 ++ r2)) (length r2) (λ _, True)
    match op' with
    | In | NotIn => ParseValues (parser_at l2 d2 r2)
    | Equals | DoubleEquals | NotEquals | GreaterThan | LessThan => ParseExactValue (parser_at l2 d2 r2)
    | _ => Ok (∅, parser_at l2 d2 r2)
    end) as Hvals.
  { destruct op'; first [by apply ParseValues_safe | by apply ParseExactValue_safe
      | by apply safe_Ok]. }
  destruct (match op' with OpNone => _ | _ => _ end) as [[vals p]|e|w]; [|done..].
  destruct Hvals as (_ & l3 & d3 & r3 & -> & Hr3 & Hn3 & Hm3). cbn -[decide].
  apply New_safe; [done|done|congruence|lia].
Qed.

Lemma parse_loop_safe fuel l d r reqs :
  unread r → length r < fuel → Forall made reqs →
  match parse_loop fuel (parser_at l d r) reqs with
  | Panic _ => False | Err _ => True | Ok (reqs, _) => Forall made reqs end.
Proof.
  revert l d r reqs. induction fuel as [|fuel IH]; intros l d r reqs Hr Hf Hreqs; [lia|].
  pose proof (ParseRequirement_safe l d r Hr) as Hsafe. 
  take_item r it r Hr. cbn -[decide in_context ParseRequirement]. rewrite Lookahead_at.
  cbn -[decide in_context ParseRequirement].
  assert (match '(r0, self) ← ParseRequirement (parser_at l d (it :: r));
      let requirements := Selector_Add reqs r0 in
      '(t, l, self) ← Consume self ValuesCtx;
      match t with
      | EndOfStringToken => Ok (requirements, self)
      | CommaToken =>
          '(t2, l2) ← Lookahead self ValuesCtx;
          if decide (t2 ≠ IdentifierToken ∧ t2 ≠ DoesNotExistToken)
          then common_err ("found '" +:+ l2 +:+ "', expected: identifier after ','")
          else parse_loop fuel self requirements
      | _ => common_err ("found '" +:+ l +:+ "', expected: ',' or 'end of string'")
      end with Panic _ => False | Err _ => True | Ok (reqs, _) => Forall made reqs end) as Hgo.
  { destruct (ParseRequirement _) as [[rq p]|e|w]; [|done..].
    destruct Hsafe as (Hrq & l1 & d1 & r1 & -> & Hr1 & Hn1 & Hm1).
    assert (Forall made (Selector_Add reqs rq)) as Hreqs' by (apply Forall_app; auto).
    take_item r1 it1 r1 Hr1. cbn -[decide in_context Selector_Add]. rewrite Consume_at.
    cbn -[decide in_context Selector_Add].
    destruct (in_context ValuesCtx (tok it1)) eqn:Ht1; try exact I; [done|].
    assert (unread r1) as Hr2 by (apply unread_tail in Hr1; [done|]; by destruct (tok it1)).
    take_item r1 it2 r2 Hr2. rewrite Lookahead_at. cbn -[decide in_context Selector_Add].
    case_decide; [exact I|]. apply IH; [done|simpl in *; lia|done]. }
  destruct (in_context ValuesCtx (tok it)); try exact I; first [exact Hgo | done].
Qed.
End parser_safe.

(** ** Lexing printed text *)

(** A character that belongs to an identifier. *)
Definition plain (c : ascii) : bool :=
  negb (bool_decide (c = NUL)) && negb (IsSpecialSymbol c) && negb (IsWhitespace c).
Definition word (s : string) : Prop := s ≠ "" ∧ Forall (λ c, plain c = true) (chars s).
(** What may follow an identifier. *)
Definition stops (t : list ascii) : Prop :=
  match t with [] => True | c :: _ => c ≠ NUL ∧ IsSpecialSymbol c || IsWhitespace c = true end.

Lemma plain_inv c : plain c = true → c ≠ NUL ∧ IsSpecialSymbol c = false ∧ IsWhitespace c = false.
Proof.
  unfold plain. intros [[Hn Hs]%andb_true_iff Hw]%andb_true_iff.
  rewrite negb_true_iff in Hn, Hs, Hw. by apply bool_decide_eq_false in Hn.
Qed.

Lemma name_char_plain c : name_char c = true → plain c = true.
Proof. by destruct c as [[] [] [] [] [] [] [] []]. Qed.

Lemma id_span_plain w t : Forall (λ c, plain c = true) w → stops t → id_span (w ++ t) = (w, t).
Proof.
  intros Hw Ht. induction Hw as [|c w Hc Hw IH].
  - destruct t as [|c t]; [done|]. destruct Ht as [Hn Hc].
    cbn -[decide]. rewrite decide_False by done. by rewrite Hc.
  - apply plain_inv in Hc as (Hn & Hs & Hsp). cbn -[decide].
    rewrite decide_False by done. rewrite Hs, Hsp. simpl. by rewrite IH.
Qed.

Lemma lex1_word w t :
  word w → stops t → lex1 (chars w ++ t) = (default IdentifierToken (token_of w), w, t).
Proof.
  intros [Hne Hw] Ht. unfold lex1.
  assert (∃ c l, chars w = c :: l) as (c & l & Hc) by (destruct w; [done|by eexists _, _]).
  pose proof Hw as Hw'. rewrite Hc in Hw'. apply Forall_cons in Hw' as [Hpc _].
  apply plain_inv in Hpc as (Hn & Hs & Hsp).
  assert (skip_ws (chars w ++ t) = chars w ++ t) as ->. { rewrite Hc. simpl. by rewrite Hsp. }
  destruct (chars w ++ t) as [|c' l'] eqn:Happ; [by rewrite Hc in Happ|].
  assert (c' = c) as -> by (rewrite Hc in Happ; by injection Happ).
  rewrite decide_False by done. rewrite Hs, <-Happ.
  rewrite (id_span_plain _ _ Hw Ht). by rewrite of_chars_chars.
Qed.

Lemma Lexes_word w t items :
  word w → stops t → Lexes t items →
  Lexes (chars w ++ t) (MkItem (default IdentifierToken (token_of w)) w :: items).
Proof.
  intros Hw Ht Hl. pose proof (Lexes_step (chars w ++ t) items) as Hstep.
  rewrite (lex1_word w t Hw Ht) in Hstep. apply Hstep; [|done]. simpl.
  destruct (token_of w) eqn:Htok; [|done]. by apply token_of_ne in Htok as (_ & ? & _).
Qed.

Lemma Lexes_space t items : Lexes t items → Lexes (" "%char :: t) items.
Proof.
  assert (lex1 (" "%char :: t) = lex1 t) as He by done. destruct 1.
  - rewrite <-He in *. by constructor.
  - rewrite <-He in *. by constructor.
Qed.

(** A symbol is lexed whole when no longer symbol starts there. *)
Definition sym_stops (s : string) (t : list ascii) : Prop :=
  match t with
  | [] => True
  | c :: _ => c ≠ NUL ∧ (IsSpecialSymbol c = true → token_of (of_chars (chars s ++ [c])) = None)
  end.

Lemma sym_span_stop k s t :
  k ≠ ErrorToken → sym_stops s t → sym_span (MkItem k s) (chars s) t = (MkItem k s, t).
Proof.
  intros Hk Ht. destruct t as [|c t]; [done|]. destruct Ht as [Hn Hs].
  cbn -[decide token_of of_chars chars]. rewrite decide_False by done.
  destruct (IsSpecialSymbol c); [|done]. rewrite Hs by done. by rewrite decide_True.
Qed.

Lemma Lexes_sym1 c k t items :
  IsSpecialSymbol c = true → token_of (String c "") = Some k → sym_stops (String c "") t →
  Lexes t items → Lexes (c :: t) (MkItem k (String c "") :: items).
Proof.
  intros Hc Hk Ht Hl. pose proof (token_of_ne _ _ Hk) as (Hk1 & Hk2 & _).
  assert (lex1 (c :: t) = (k, String c "", t)) as He.
  { unfold lex1. assert (IsWhitespace c = false) as Hw.
    { revert Hc. by destruct c as [[] [] [] [] [] [] [] []]. }
    cbn -[decide token_of of_chars sym_span]. rewrite Hw.
    rewrite decide_False by by intros ->. rewrite Hc.
    cbn -[decide token_of of_chars]. rewrite decide_False by by intros ->. rewrite Hc.
    change (of_chars [c]) with (String c ""). rewrite Hk.
    pose proof (sym_span_stop k (String c "") t Hk1 Ht) as Hspan.
    change (chars (String c "")) with [c] in Hspan. by rewrite Hspan. }
  pose proof (Lexes_step (c :: t) items) as Hstep. rewrite He in Hstep. by apply Hstep.
Qed.

Lemma Lexes_sym2 c d k k' t items :
  (c, d) ∈ [("="%char, "="%char); ("!"%char, "="%char)] →
  token_of (String c "") = Some k' → token_of (String c (String d "")) = Some k →
  sym_stops (String c (String d "")) t →
  Lexes t items → Lexes (c :: d :: t) (MkItem k (String c (String d "")) :: items).
Proof.
  intros Hcd Hk' Hk Ht Hl. pose proof (token_of_ne _ _ Hk) as (Hk1 & Hk2 & _).
  assert (lex1 (c :: d :: t) = (k, String c (String d ""), t)) as He.
  { pose proof (sym_span_stop k (String c (String d "")) t Hk1 Ht) as Hspan.
    assert (sym_span (MkItem ErrorToken "") [] (c :: d :: t)
      = sym_span (MkItem k (String c (String d ""))) (chars (String c (String d ""))) t) as Hsp.
    { repeat (apply elem_of_cons in Hcd as [[= -> ->]|Hcd]; [injection Hk as <-; done|]).
      by apply not_elem_of_nil in Hcd. }
    rewrite Hspan in Hsp.
    assert (lex1 (c :: d :: t) =
      let '(last, r) := sym_span (MkItem ErrorToken "") [] (c :: d :: t) in (tok last, literal last, r)) as ->.
    { repeat (apply elem_of_cons in Hcd as [[= -> ->]|Hcd]; [done|]). by apply not_elem_of_nil in Hcd. }
    by rewrite Hsp. }
  pose proof (Lexes_step (c :: d :: t) items) as Hstep. rewrite He in Hstep. by apply Hstep.
Qed.

(** ** The tokens of a printed selector *)

Definition word_item (w : string) : ScannedItem := MkItem (default IdentifierToken (token_of w)) w.
Definition comma : ScannedItem := MkItem CommaToken ",".
Definition val_items (v : string) : list ScannedItem := if decide (v = "") then [] else [word_item v].
Definition tail_items (vs : list string) : list ScannedItem :=
  concat ((λ v, [comma; word_item v]) <$> vs).
Definition set_items (vs : list string) : list ScannedItem :=
  match vs with [] => [] | v :: vs => val_items v ++ tail_items vs end.
Definition op_item (op : SelectionOp) : ScannedItem :=
  match op with
  | Equals => MkItem EqualsToken "=" | DoubleEquals => MkItem DoubleEqualsToken "=="
  | In => MkItem InToken "in" | NotEquals => MkItem NotEqualsToken "!="
  | NotIn => MkItem NotInToken "notin" | GreaterThan => MkItem GreaterThanToken ">"
  | LessThan => MkItem LessThanToken "<" | _ => MkItem ErrorToken ""
  end.
Definition req_items (r : Requirement) : list ScannedItem :=
  match req_op r with
  | DoesNotExist => [MkItem DoesNotExistToken "!"; word_item (req_key r)]
  | Exists => [word_item (req_key r)]
  | In | NotIn =>
      [word_item (req_key r); op_item (req_op r); MkItem OpenParToken "("]
      ++ set_items (set_elems (Values r)) ++ [MkItem ClosedParToken ")"]
  | op => [word_item (req_key r); op_item op] ++ concat (val_items <$> req_strVals r)
  end.

(** A requirement whose text can be read back: a valid one whose values use no
    separator, and whose value set is not just the empty string. *)
Definition printable (r : Requirement) : Prop :=
  qualified_name (req_key r) ∧ arity_ok (req_op r) (req_strVals r) ∧
  Forall (λ v, Forall (λ c, plain c = true) (chars v)) (req_strVals r) ∧
  (is_set_op (req_op r) = true → Values r ≠ {[""]}).

Definition tail_text (vs : list string) : string := foldr (λ v acc, "," +:+ (v +:+ acc)) "" vs.
Lemma join_tail v vs : join "," (v :: vs) = v +:+ tail_text vs.
Proof.
  revert v. induction vs as [|w vs IH]; intros v; [simpl; by rewrite sapp_nil_r|].
  change (join "," (v :: w :: vs)) with (v +:+ ("," +:+ join "," (w :: vs))). by rewrite IH.
Qed.

Definition join_step : string * bool → string → string * bool := λ '(output, first) v,
  let '(output, first) := if (first : bool) then (output, false) else (output +:+ ",", first) in
  (output +:+ v, first).
Lemma join_step_false out vs : foldl join_step (out, false) vs = (out +:+ tail_text vs, false).
Proof.
  revert out. induction vs as [|v vs IH]; intros out; simpl; [by rewrite sapp_nil_r|].
  rewrite IH. by rewrite <-!sapp_assoc.
Qed.
Lemma join_step_true out vs : (foldl join_step (out, true) vs).1 = out +:+ join "," vs.
Proof.
  destruct vs as [|v vs]; simpl foldl; [simpl; by rewrite sapp_nil_r|].
  rewrite join_step_false, join_tail. by rewrite sapp_assoc.
Qed.

Lemma Requirement_String_values r out :
  (let '(output, _) := foldl (λ '(output, first) v,
       let '(output, first) := if (first : bool) then (output, false) else (output +:+ ",", first) in
       (output +:+ v, first)) (out, true) (set_elems (Values r)) in output)
  = out +:+ join "," (set_elems (Values r)).
Proof.
  rewrite <-join_step_true.
  change (λ '(output, first) v,
       let '(output, first) := if (first : bool) then (output, false) else (output +:+ ",", first) in
       (output +:+ v, first)) with join_step.
  by destruct (foldl join_step _ _).
Qed.

Lemma Requirement_String_eq r :
  req_op r ≠ OpNone →
  Requirement_String r =
  match req_op r with
  | DoesNotExist => "!" +:+ req_key r
  | Exists => req_key r
  | In | NotIn => req_key r +:+ (op_text (req_op r) +:+ ("(" +:+ (join "," (set_elems (Values r)) +:+ ")")))
  | op => req_key r +:+ (op_text op +:+ join "," (set_elems (Values r)))
  end.
Proof.
  intros Hop. unfold Requirement_String.
  pose proof (Requirement_String_values r) as Hv.
  destruct (req_op r); try done; simpl op_text; simpl is_set_op; cbn beta iota zeta;
    match goal with |- context [foldl ?f (?o, true) ?l] =>
      specialize (Hv o); destruct (foldl f (o, true) l) as [out b] end;
    rewrite Hv; rewrite <-?sapp_assoc; done.
Qed.

(** What may follow a printed requirement: the end or a comma. *)
Definition after (t : list ascii) : Prop := match t with [] => True | c :: _ => c = ","%char end.
Lemma after_stops t : after t → stops t.
Proof. destruct t; [done|]. by intros ->. Qed.

Lemma plain_sym_stops s c t : plain c = true → sym_stops s (c :: t).
Proof. intros (Hn & Hs & _)%plain_inv. split; [done|]. by rewrite Hs. Qed.
Lemma word_sym_stops s w t : word w → sym_stops s (chars w ++ t).
Proof.
  intros [Hne Hw]. destruct w as [|c w]; [done|]. simpl. apply Forall_cons in Hw as [Hc _].
  by apply plain_sym_stops.
Qed.

Lemma Lexes_tail vs t items :
  Forall word vs → stops t → Lexes t items →
  Lexes (chars (tail_text vs) ++ t) (tail_items vs ++ items).
Proof.
  intros Hvs Ht Hl. induction Hvs as [|v vs Hv Hvs IH]; [done|].
  change (tail_items (v :: vs) ++ items) with (comma :: word_item v :: (tail_items vs ++ items)).
  change (chars (tail_text (v :: vs)) ++ t) with (","%char :: (chars (v +:+ tail_text vs) ++ t)).
  rewrite chars_app, <-(assoc_L (++)). apply Lexes_sym1; [done|done|by apply word_sym_stops|].
  apply Lexes_word; [done| |done]. destruct Hvs; [done|]. done.
Qed.

Lemma set_elems_shape (X : gset string) :
  X ≠ ∅ → ∃ v vs, set_elems X = v :: vs ∧ Forall (λ w, w ≠ "") vs.
Proof.
  intros Hne. destruct (set_elems X) as [|v vs] eqn:He.
  { exfalso. apply Hne. by rewrite <-(list_to_set_set_elems X), He. }
  exists v, vs. split; [done|]. pose proof (NoDup_set_elems X) as Hnd.
  pose proof (set_elems_sorted X) as Hs. rewrite He in Hnd, Hs.
  apply StronglySorted_inv in Hs as [_ Hs]. apply NoDup_cons in Hnd as [Hv _].
  rewrite Forall_forall in Hs |- *. intros w Hw ->. specialize (Hs "" Hw).
  destruct v; [by apply Hv|done].
Qed.

Lemma after_sym_stops s t :
  token_of (s +:+ ",") = None → after t → sym_stops s t.
Proof.
  intros Hs Ht. destruct t as [|c t]; [done|]. rewrite Ht. split; [done|]. intros _.
  by rewrite of_chars_app, of_chars_chars.
Qed.

Lemma Lexes_set vs t items :
  match vs with [] => False | v :: vs => (v = "" ∨ word v) ∧ Forall word vs ∧ (vs = [] → v ≠ "") end →
  after t → Lexes t items →
  Lexes ("("%char :: (chars (join "," vs) ++ (")"%char :: t)))
    (MkItem OpenParToken "(" :: set_items vs ++ MkItem ClosedParToken ")" :: items).
Proof.
  destruct vs as [|v vs]; [done|]. intros (Hv & Hvs & Hne) Ht Hl.
  rewrite join_tail, chars_app. simpl set_items. rewrite <-!(assoc_L (++)).
  assert (Lexes (")"%char :: t) (MkItem ClosedParToken ")" :: items)) as Hclose.
  { apply Lexes_sym1; try done. by apply after_sym_stops. }
  assert (stops (")"%char :: t)) as Hstop by done.
  pose proof (Lexes_tail vs (")"%char :: t) _ Hvs Hstop Hclose) as Htail.
  unfold val_items. case_decide as Hemp.
  - subst v. apply Lexes_sym1; [done|done| |done]. destruct Hvs; [by destruct Hne|done].
  - destruct Hv as [|Hv]; [done|]. apply Lexes_sym1; [done|done|by apply word_sym_stops|].
    apply Lexes_word; [done| |done]. by destruct Hvs.
Qed.

Lemma key_word k : qualified_name k → word k.
Proof.
  intros Hk. split.
  - intros ->. destruct Hk as [[_ Hf]|(p & n & Heq & _)]; [by apply framed_nonempty in Hf|by destruct p].
  - eapply Forall_impl; [by apply qualified_name_chars|]. apply name_char_plain.
Qed.

Lemma printable_set r :
  printable r → is_set_op (req_op r) = true →
  match set_elems (Values r) with
  | [] => False
  | v :: vs => (v = "" ∨ word v) ∧ Forall word vs ∧ (vs = [] → v ≠ "")
  end.
Proof.
  intros (_ & Har & Hvals & Hne) Hop. specialize (Hne Hop).
  assert (Values r ≠ ∅) as Hnil.
  { unfold Values. destruct (req_op r); try done; simpl in Har; destruct (req_strVals r); set_solver. }
  assert (∀ w, w ∈ set_elems (Values r) → w ≠ "" → word w) as Hw.
  { intros w Hw Hwne. split; [done|]. rewrite elem_of_set_elems in Hw. unfold Values in Hw.
    rewrite elem_of_list_to_set in Hw. rewrite Forall_forall in Hvals. by apply Hvals. }
  destruct (set_elems_shape _ Hnil) as (v & vs & He & Hvs). rewrite He in *. split_and!.
  - destruct (decide (v = "")); [by left|right]. apply Hw; [by left|done].
  - rewrite Forall_forall in Hvs |- *. intros w Hin. apply Hw; [by right|by apply Hvs].
  - intros -> ->. apply Hne. rewrite <-(list_to_set_set_elems (Values r)), He. set_solver.
Qed.

Lemma Lexes_value v t items :
  Forall (λ c, plain c = true) (chars v) → after t → Lexes t items →
  Lexes (chars v ++ t) (val_items v ++ items).
Proof.
  intros Hv Ht Hl. unfold val_items. case_decide as Hne; [by subst v|].
  apply Lexes_word; [done| |done]. by apply after_stops.
Qed.

Lemma value_sym_stops s v t :
  Forall (λ c, plain c = true) (chars v) → after t → token_of (s +:+ ",") = None →
  sym_stops s (chars v ++ t).
Proof.
  intros Hv Ht Hs. destruct v as [|c v]; [by apply after_sym_stops|].
  apply Forall_cons in Hv as [Hc _]. by apply plain_sym_stops.
Qed.

Lemma Lexes_exact k op v t items :
  word k → Forall (λ c, plain c = true) (chars v) → after t → Lexes t items →
  op ∈ [Equals; DoubleEquals; NotEquals; GreaterThan; LessThan] →
  Lexes ((chars k ++ chars (op_text op) ++ chars v) ++ t) (word_item k :: op_item op :: val_items v ++ items).
Proof.
  intros Hk Hv Ht Hl Hop. rewrite <-!(assoc_L (++)).
  pose proof (Lexes_value v t items Hv Ht Hl) as Hval.
  assert (∀ s, token_of (s +:+ ",") = None → sym_stops s (chars v ++ t)) as Hstop.
  { intros s. by apply value_sym_stops. }
  repeat (apply elem_of_cons in Hop as [->|Hop]); try by apply not_elem_of_nil in Hop.
  all: apply Lexes_word; [done|done|].
  all: first [by apply Lexes_sym1; try apply Hstop | eapply Lexes_sym2; try apply Hstop; try done].
  all: repeat constructor.
Qed.

Lemma Lexes_req r t items :
  printable r → after t → Lexes t items →
  Lexes (chars (Requirement_String r) ++ t) (req_items r ++ items).
Proof.
  intros Hp Ht Hl. pose proof (printable_set r Hp) as Hset. destruct Hp as (Hk & Har & Hvals & _).
  pose proof (key_word _ Hk) as Hkw. rewrite Requirement_String_eq.
  2:{ intros Hop. unfold arity_ok in Har. by rewrite Hop in Har. }
  assert (∀ op v, op ∈ [Equals; DoubleEquals; NotEquals; GreaterThan; LessThan] → req_strVals r = [v] →
    Lexes (chars (req_key r +:+ (op_text op +:+ join "," (set_elems (Values r)))) ++ t)
      (([word_item (req_key r); op_item op] ++ concat (val_items <$> req_strVals r)) ++ items)) as Hexact.
  { intros op v Hop Hv. assert (Values r = {[v]}) as -> by (unfold Values; rewrite Hv; set_solver).
    rewrite set_elems_singleton, Hv in *. apply Forall_cons in Hvals as [Hvals _].
    simpl. rewrite app_nil_r, !chars_app. by apply Lexes_exact. }
  assert (∀ op, op = In ∨ op = NotIn → is_set_op (req_op r) = true →
    Lexes (chars (req_key r +:+ (op_text op +:+ ("(" +:+ (join "," (set_elems (Values r)) +:+ ")")))) ++ t)
      (([word_item (req_key r); op_item op; MkItem OpenParToken "("]
      ++ set_items (set_elems (Values r)) ++ [MkItem ClosedParToken ")"]) ++ items)) as Hin.
  { intros op Hop Hs. specialize (Hset Hs).
    pose proof (Lexes_set _ t items Hset Ht Hl) as Hlex.
    rewrite !chars_app, <-!(assoc_L (++)).
    destruct Hop as [-> | ->]; (apply Lexes_word; [done|done|]); apply Lexes_space.
    - apply (Lexes_word "in"); [by repeat constructor|done|]. by apply Lexes_space.
    - apply (Lexes_word "notin"); [by repeat constructor|done|]. by apply Lexes_space. }
  unfold req_items. destruct (req_op r) eqn:Hop; simpl in Har; try done.
  - change ("!" +:+ req_key r) with (String "!" (req_key r)).
    apply Lexes_sym1; [done|done|by apply word_sym_stops|].
    apply Lexes_word; [done|by apply after_stops|done].
  - destruct Har as [v Hv]. eapply Hexact; [set_solver|done].
  - destruct Har as [v Hv]. eapply Hexact; [set_solver|done].
  - apply Hin; [by left|done].
  - destruct Har as [v Hv]. eapply Hexact; [set_solver|done].
  - apply Hin; [by right|done].
  - apply Lexes_word; [done|by apply after_stops|done].
  - destruct Har as (v & Hv & _). eapply Hexact; [set_solver|done].
  - destruct Har as (v & Hv & _). eapply Hexact; [set_solver|done].
Qed.

(** ** Parsing the tokens of a printed selector *)

Lemma tail_items_nil : tail_items [] = [].
Proof. done. Qed.
Lemma tail_items_cons v vs : tail_items (v :: vs) = comma :: word_item v :: tail_items vs.
Proof. done. Qed.
#[local] Opaque tail_items.
#[local] Arguments word_item : simpl never.
#[local] Arguments in_context : simpl never.

Lemma word_ident w : word w → in_context ValuesCtx (tok (word_item w)) = IdentifierToken.
Proof.
  intros [Hne Hw]. unfold word_item. simpl.
  assert (∀ s, s ≠ "in" → s ≠ "notin" → s = w → token_of s = None) as Hnone.
  { intros s H1 H2 ->. unfold token_of. simpl.
    repeat (case_decide as Heq; [subst w; first [done | apply Forall_cons in Hw as [Hw _]; by vm_compute in Hw]|clear Heq]).
    done. }
  destruct (decide (w = "in")) as [->|]; [done|]. destruct (decide (w = "notin")) as [->|]; [done|].
  by rewrite (Hnone w).
Qed.

Lemma identifiers_loop_words fuel l d v vs rest s :
  word v → Forall word vs → length (tail_items vs) + 1 < fuel →
  identifiers_loop fuel (parser_at l d (word_item v :: tail_items vs ++ MkItem ClosedParToken ")" :: rest)) s
  = Ok (list_to_set vs ∪ ({[v]} ∪ s),
        parser_at l (d ++ word_item v :: tail_items vs) (MkItem ClosedParToken ")" :: rest)).
Proof.
  intros Hv Hvs. revert fuel d v s Hv. induction Hvs as [|w vs Hw Hvs IH]; intros fuel d v s Hv Hf.
  - destruct fuel as [|fuel]; [lia|]. rewrite tail_items_nil. cbn -[decide size in_context word_item].
    rewrite Consume_at, (word_ident v Hv). cbn -[decide size in_context word_item].
    rewrite Lookahead_at, (left_id_L ∅ (∪) ({[v]} ∪ s)). reflexivity.
  - destruct fuel as [|[|fuel]]; [lia|simpl in Hf; lia|].
    rewrite tail_items_cons in *.
    cbn -[decide size in_context word_item tail_items].
    rewrite Consume_at, (word_ident v Hv). cbn -[decide size in_context word_item tail_items].
    rewrite Lookahead_at. cbn -[decide size in_context word_item tail_items].
    change (in_context ValuesCtx CommaToken) with CommaToken. cbn -[decide size in_context word_item tail_items].
    rewrite Consume_at. change (in_context ValuesCtx (tok comma)) with CommaToken.
    cbn -[decide size in_context word_item tail_items].
    rewrite Lookahead_at, (word_ident w Hw). cbn -[decide size in_context word_item tail_items].
    change (literal (word_item v)) with v. destruct (Nat.eqb_spec (size ({[v]} ∪ s)) 0) as [Hz|_].
    { exfalso. apply size_empty_inv in Hz. set_solver. }
    rewrite !decide_False by done. rewrite IH; [|done|simpl in Hf; lia].
    f_equal. apply (f_equal2 pair); [set_solver|]. by rewrite <-!(assoc_L (++)).
Qed.

Definition set_shape (vs : list string) : Prop :=
  match vs with
  | [] => False
  | v :: vs => (v = "" ∨ word v) ∧ Forall word vs ∧ (vs = [] → v ≠ "")
  end.

(** The comma branch with nothing read yet stands for the empty string. *)
Lemma identifiers_loop_set n l d vs rest :
  set_shape vs → length (set_items vs) + 2 < n →
  identifiers_loop n (parser_at l d (set_items vs ++ MkItem ClosedParToken ")" :: rest)) ∅
  = Ok (list_to_set vs, parser_at l (d ++ set_items vs) (MkItem ClosedParToken ")" :: rest)).
Proof.
  destruct vs as [|v vs]; [done|]. intros (Hv & Hvs & Hne) Hn. simpl set_items in *.
  unfold val_items in *. destruct (decide (v = "")) as [->|Hemp].
  - destruct Hvs as [|w vs Hw Hvs]; [by destruct Hne|]. simpl app in *.
    rewrite tail_items_cons in *.
    destruct n as [|n]; [lia|]. simpl app. cbn -[decide size in_context word_item tail_items].
    rewrite Consume_at. change (in_context ValuesCtx (tok comma)) with CommaToken.
    cbn -[decide size in_context word_item tail_items]. rewrite size_empty. simpl (0 =? 0).
    rewrite Lookahead_at, (word_ident w Hw). cbn -[decide size in_context word_item tail_items].
    rewrite !decide_False by done. rewrite identifiers_loop_words; [|done|done|simpl in Hn; lia].
    f_equal. apply (f_equal2 pair); [set_solver|]. by rewrite <-(assoc_L (++)).
  - destruct Hv as [|Hv]; [done|]. simpl app in *. rewrite identifiers_loop_words; [|done|done|simpl in Hn; lia].
    f_equal. apply (f_equal2 pair); [set_solver|done].
Qed.

Lemma set_items_head vs :
  set_shape vs →
  ∃ it its, set_items vs = it :: its ∧
    (in_context ValuesCtx (tok it) = IdentifierToken ∨ in_context ValuesCtx (tok it) = CommaToken).
Proof.
  destruct vs as [|v vs]; [done|]. intros (Hv & Hvs & Hne). simpl. unfold val_items. case_decide as Hemp.
  - destruct vs as [|w vs]; [by destruct Hne|]. rewrite tail_items_cons. exists comma. eexists. split; [done|by right].
  - destruct Hv as [|Hv]; [done|]. eexists _, _. split; [done|]. left. by apply word_ident.
Qed.

Lemma ParseValues_items l d vs rest :
  set_shape vs →
  ParseValues (parser_at l d (MkItem OpenParToken "(" :: set_items vs ++ MkItem ClosedParToken ")" :: rest))
  = Ok (list_to_set vs,
        parser_at l (d ++ MkItem OpenParToken "(" :: set_items vs ++ [MkItem ClosedParToken ")"]) rest).
Proof.
  intros Hvs. unfold ParseValues. rewrite Consume_at. cbn -[decide in_context ParseIdentifiersList].
  rewrite decide_False by (intros Hn; by apply Hn).
  destruct (set_items_head vs Hvs) as (it & its & He & Hit).
  assert (ParseIdentifiersList (parser_at l (d ++ [MkItem OpenParToken "("])
    (set_items vs ++ MkItem ClosedParToken ")" :: rest))
    = Ok (list_to_set vs, parser_at l ((d ++ [MkItem OpenParToken "("]) ++ set_items vs)
        (MkItem ClosedParToken ")" :: rest))) as Hloop.
  { unfold ParseIdentifiersList. apply identifiers_loop_set; [done|].
    unfold parser_at. simpl. rewrite !length_app. simpl. lia. }
  assert (Lookahead (parser_at l (d ++ [MkItem OpenParToken "("]) (set_items vs ++ MkItem ClosedParToken ")" :: rest))
    ValuesCtx = Ok (in_context ValuesCtx (tok it), literal it)) as ->.
  { rewrite He. simpl app. by rewrite Lookahead_at. }
  destruct Hit as [-> | ->]; cbn -[decide in_context ParseIdentifiersList parser_at];
    rewrite Hloop;
    cbn -[decide in_context]; rewrite Consume_at; cbn -[decide];
    (rewrite decide_False by (intros Hn; by apply Hn)); by rewrite <-!(assoc_L (++)).
Qed.

(** The same requirement up to the order of its values. *)
Definition same_req (r r' : Requirement) : Prop :=
  req_key r = req_key r' ∧ req_op r = req_op r' ∧ Values r = Values r' ∧ NoDup (req_strVals r').

Section parse_items.
Context `{Eng : RegexEngine, Spec : !RegexSpec, Ord : HashOrder, HSpec : !HashSpec}.

Lemma hash_iter_values seed X : list_to_set (hash_iter seed X) = X ∧ NoDup (hash_iter seed X).
Proof.
  split; [|rewrite hash_iter_perm; apply NoDup_elements].
  apply set_eq. intros x. by rewrite elem_of_list_to_set, hash_iter_perm, elem_of_elements.
Qed.

Lemma hash_iter_singleton seed v : hash_iter seed {[v]} = [v].
Proof. apply Permutation_singleton_r. by rewrite hash_iter_perm, elements_singleton. Qed.

Lemma ParseKey_word l d k it rest :
  qualified_name k →
  ParseKeyAndInferOperator (parser_at l d (word_item k :: it :: rest))
  = Ok (k, if decide (in_context ValuesCtx (tok it) = EndOfStringToken ∨ in_context ValuesCtx (tok it) = CommaToken)
           then Exists else OpNone, parser_at l (d ++ [word_item k]) (it :: rest)).
Proof.
  intros Hk. unfold ParseKeyAndInferOperator. rewrite Consume_at, word_ident by by apply key_word.
  cbn -[decide in_context word_item]. rewrite decide_False by done. cbn -[decide in_context word_item].
  rewrite decide_False by (intros Hn; by apply Hn).
  unfold ValidateLabelKey. rewrite (proj2 (IsQualifiedName_Ok _)) by done.
  cbn -[decide in_context word_item]. rewrite Lookahead_at. cbn -[decide in_context word_item].
  case_decide; [|done]. by rewrite decide_True.
Qed.

Lemma New_Ok key op vals :
  qualified_name key → arity_ok op vals → Requirement_New key op vals = Ok (MkRequirement key op vals).
Proof. intros. by apply Requirement_New_Ok. Qed.

Lemma ParseKey_not l d k it rest :
  qualified_name k →
  ParseKeyAndInferOperator (parser_at l d (MkItem DoesNotExistToken "!" :: word_item k :: it :: rest))
  = Ok (k, DoesNotExist, parser_at l (d ++ [MkItem DoesNotExistToken "!"; word_item k]) (it :: rest)).
Proof.
  intros Hk. unfold ParseKeyAndInferOperator. rewrite Consume_at.
  change (in_context ValuesCtx (tok (MkItem DoesNotExistToken "!"))) with DoesNotExistToken.
  cbn -[decide]. rewrite decide_True by done. rewrite Consume_at, word_ident by by apply key_word.
  cbn -[decide]. rewrite decide_False by (intros Hn; by apply Hn).
  unfold ValidateLabelKey. rewrite (proj2 (IsQualifiedName_Ok _)) by done.
  cbn -[decide]. rewrite Lookahead_at. cbn -[decide]. rewrite <-(assoc_L (++)).
  case_decide; [|done]. by rewrite decide_False by (intros Hn; by apply Hn).
Qed.

Definition ends (x : ScannedItem) : Prop := tok x = EndOfStringToken ∨ tok x = CommaToken.

Lemma ParseExactValue_items l d v x rest :
  (v = "" ∨ word v) → ends x →
  ParseExactValue (parser_at l d (val_items v ++ x :: rest))
  = Ok ({[v]}, parser_at l (d ++ val_items v) (x :: rest)).
Proof.
  intros Hv Hx. unfold ParseExactValue, val_items. case_decide as Hemp.
  - subst v. simpl app. rewrite Lookahead_at. cbn -[decide].
    rewrite decide_True by (by destruct Hx as [-> | ->]; [left|right]). by rewrite app_nil_r.
  - destruct Hv as [|Hv]; [done|]. simpl app. rewrite Lookahead_at, (word_ident v Hv). cbn -[decide].
    rewrite decide_False by (intros [|]; done). rewrite Consume_at, (word_ident v Hv). cbn -[decide].
    by rewrite decide_True.
Qed.

Lemma ParseRequirement_exact l d k op v x rest :
  qualified_name k → (v = "" ∨ word v) → ends x → arity_ok op [v] →
  op ∈ [Equals; DoubleEquals; NotEquals; GreaterThan; LessThan] →
  ParseRequirement (parser_at l d (word_item k :: op_item op :: val_items v ++ x :: rest))
  = Ok (MkRequirement k op [v], parser_at l (d ++ word_item k :: op_item op :: val_items v) (x :: rest)).
Proof.
  intros Hk Hv Hx Har Hop. unfold ParseRequirement. rewrite ParseKey_word by done.
  rewrite decide_False.
  2:{ repeat (apply elem_of_cons in Hop as [->|Hop]; [by intros [|]|]). by apply not_elem_of_nil in Hop. }
  cbn -[decide ParseExactValue]. rewrite decide_False by (intros [|]; done).
  unfold ParseOperator. rewrite Consume_at.
  change (in_context KeyAndOperator (tok (op_item op))) with (tok (op_item op)).
  assert (ParseExactValue (parser_at l ((d ++ [word_item k]) ++ [op_item op]) (val_items v ++ x :: rest))
    = Ok ({[v]}, parser_at l (((d ++ [word_item k]) ++ [op_item op]) ++ val_items v) (x :: rest))) as Hex
    by by apply ParseExactValue_items.
  repeat (apply elem_of_cons in Hop as [->|Hop]; [cbn -[decide ParseExactValue] in *; rewrite Hex;
    cbn -[decide hash_iter]; rewrite hash_iter_singleton, New_Ok by done; by rewrite <-!(assoc_L (++))|]).
  by apply not_elem_of_nil in Hop.
Qed.

Lemma ParseRequirement_set l d k op vs x rest :
  qualified_name k → set_shape vs → op = In ∨ op = NotIn →
  ∃ seed, ParseRequirement (parser_at l d (word_item k :: op_item op ::
    MkItem OpenParToken "(" :: set_items vs ++ MkItem ClosedParToken ")" :: x :: rest))
  = Ok (MkRequirement k op (hash_iter seed (list_to_set vs)),
      parser_at l (d ++ word_item k :: op_item op ::
    MkItem OpenParToken "(" :: set_items vs ++ [MkItem ClosedParToken ")"]) (x :: rest)).
Proof.
  intros Hk Hvs Hop. unfold ParseRequirement. rewrite ParseKey_word by done.
  rewrite decide_False by (by destruct Hop as [-> | ->]; intros [|]).
  cbn -[decide ParseValues]. rewrite decide_False by (intros [|]; done).
  unfold ParseOperator. rewrite Consume_at.
  change (in_context KeyAndOperator (tok (op_item op))) with (tok (op_item op)).
  pose proof (ParseValues_items l ((d ++ [word_item k]) ++ [op_item op]) vs (x :: rest) Hvs) as Hv.
  assert (∀ seed, arity_ok op (hash_iter seed (list_to_set vs))) as Har.
  { intros seed. assert (hash_iter seed (list_to_set vs) ≠ []) as Hne.
    { intros Hnil. destruct (hash_iter_values seed (list_to_set vs)) as [He _].
      rewrite Hnil in He. destruct vs; set_solver. }
    by destruct Hop as [-> | ->]. }
  destruct Hop as [-> | ->]; eexists; cbn -[decide ParseValues] in *; rewrite Hv; cbn -[decide hash_iter];
    (rewrite New_Ok; [|done|apply Har]); by rewrite <-!(assoc_L (++)).
Qed.

Lemma ParseRequirement_items l d r x rest :
  printable r → ends x →
  ∃ r', same_req r r' ∧
    ParseRequirement (parser_at l d (req_items r ++ x :: rest))
    = Ok (r', parser_at l (d ++ req_items r) (x :: rest)).
Proof.
  intros Hp Hx. pose proof (printable_set r Hp) as Hset. destruct Hp as (Hk & Har & Hvals & _).
  assert (∀ v, req_strVals r = [v] → (v = "" ∨ word v)) as Hval.
  { intros v Hv. rewrite Hv in Hvals. apply Forall_cons in Hvals as [? _].
    destruct (decide (v = "")); [by left|by right]. }
  assert (∀ v, req_strVals r = [v] → same_req r (MkRequirement (req_key r) (req_op r) [v])) as Hsame.
  { intros v Hv. unfold same_req, Values. simpl. rewrite Hv. split_and!; try done. apply NoDup_singleton. }
  assert (∀ v, req_op r ∈ [Equals; DoubleEquals; NotEquals; GreaterThan; LessThan] → req_strVals r = [v] →
    ∃ r', same_req r r' ∧
    ParseRequirement (parser_at l d (([word_item (req_key r); op_item (req_op r)] ++
      concat (val_items <$> req_strVals r)) ++ x :: rest))
    = Ok (r', parser_at l (d ++ ([word_item (req_key r); op_item (req_op r)] ++
      concat (val_items <$> req_strVals r))) (x :: rest))) as Hexact.
  { intros v Hop Hv. eexists. split; [by apply Hsame|]. rewrite Hv in *. simpl. rewrite app_nil_r.
    by apply ParseRequirement_exact; auto. }
  assert (is_set_op (req_op r) = true → req_op r = In ∨ req_op r = NotIn →
    ∃ r', same_req r r' ∧
    ParseRequirement (parser_at l d (([word_item (req_key r); op_item (req_op r); MkItem OpenParToken "("]
      ++ set_items (set_elems (Values r)) ++ [MkItem ClosedParToken ")"]) ++ x :: rest))
    = Ok (r', parser_at l (d ++ ([word_item (req_key r); op_item (req_op r); MkItem OpenParToken "("]
      ++ set_items (set_elems (Values r)) ++ [MkItem ClosedParToken ")"])) (x :: rest))) as Hin.
  { intros Hs Hop. destruct (ParseRequirement_set l d (req_key r) (req_op r) (set_elems (Values r)) x rest Hk (Hset Hs) Hop)
      as (seed & Hrun). rewrite list_to_set_set_elems in Hrun.
    eexists. split; [|rewrite <-(assoc_L (++)), <-(assoc_L (++)); exact Hrun].
    destruct (hash_iter_values seed (Values r)) as [? ?]. by split_and!. }
  unfold req_items. destruct (req_op r) eqn:Hop; simpl in Har; try done.
  - eexists. split; [|unfold ParseRequirement; simpl app; rewrite ParseKey_not by done; cbn -[decide];
      rewrite decide_True by (by right); by rewrite New_Ok].
    unfold same_req, Values. rewrite Hop, Har. split_and!; try done. apply NoDup_nil_2.
  - destruct Har as [v Hv]. eapply Hexact; [set_solver|done].
  - destruct Har as [v Hv]. eapply Hexact; [set_solver|done].
  - apply Hin; [done|by left].
  - destruct Har as [v Hv]. eapply Hexact; [set_solver|done].
  - apply Hin; [done|by right].
  - eexists. split; [|unfold ParseRequirement; simpl app; rewrite ParseKey_word by done;
      rewrite decide_True by (by destruct Hx as [-> | ->]; [left|right]); cbn -[decide];
      rewrite decide_True by (by left); by rewrite New_Ok].
    unfold same_req, Values. rewrite Hop, Har. split_and!; try done. apply NoDup_nil_2.
  - destruct Har as (v & Hv & _). eapply Hexact; [set_solver|done].
  - destruct Har as (v & Hv & _). eapply Hexact; [set_solver|done].
Qed.
End parse_items.

(** ** Whole selectors *)

Definition eos : ScannedItem := MkItem EndOfStringToken "".
Fixpoint rest_items (sel : Selector) : list ScannedItem :=
  match sel with [] => [eos] | r :: sel => comma :: req_items r ++ rest_items sel end.
Definition sel_items (sel : Selector) : list ScannedItem :=
  match sel with [] => [eos] | r :: sel => req_items r ++ rest_items sel end.

Lemma Selector_String_join sel : Selector_String sel = join "," (Requirement_String <$> sel).
Proof. unfold Selector_String. by rewrite foldl_app_map. Qed.

Lemma req_text_start r t : printable r → sym_stops "," (chars (Requirement_String r) ++ t).
Proof.
  intros (Hk & Har & _). apply key_word in Hk. rewrite Requirement_String_eq.
  2:{ intros Hop. unfold arity_ok in Har. by rewrite Hop in Har. }
  destruct (req_op r); rewrite ?chars_app, <-?(assoc_L (++)); first [by apply word_sym_stops|by split].
Qed.

Lemma Lexes_rest sel :
  Forall printable sel → Lexes (chars (tail_text (Requirement_String <$> sel))) (rest_items sel).
Proof.
  induction 1 as [|r sel Hr Hall IH]; [by apply (Lexes_end [])|].
  change (chars (tail_text (Requirement_String <$> r :: sel)))
    with (","%char :: chars (Requirement_String r +:+ tail_text (Requirement_String <$> sel))).
  rewrite chars_app. simpl rest_items. apply Lexes_sym1; [done|done|by apply req_text_start|].
  apply Lexes_req; [done| |done]. by destruct Hall.
Qed.

Lemma Lexes_selector sel : Forall printable sel → Lexes (chars (Selector_String sel)) (sel_items sel).
Proof.
  intros Hall. rewrite Selector_String_join. destruct Hall as [|r sel Hr Hall]; [by apply (Lexes_end [])|].
  rewrite fmap_cons, join_tail, chars_app. simpl sel_items.
  apply Lexes_req; [done| |by apply Lexes_rest]. by destruct Hall.
Qed.

Lemma req_items_head r :
  printable r → ∃ it its, req_items r = it :: its ∧
    (in_context ValuesCtx (tok it) = IdentifierToken ∨ in_context ValuesCtx (tok it) = DoesNotExistToken).
Proof.
  intros (Hk & _). pose proof (word_ident _ (key_word _ Hk)).
  unfold req_items. destruct (req_op r); eexists _, _; (split; [reflexivity|]); first [by left|by right].
Qed.

Section roundtrip.
Context `{Eng : RegexEngine, Spec : !RegexSpec, Ord : HashOrder, HSpec : !HashSpec}.

Lemma parse_loop_items fuel l d r sel acc :
  printable r → Forall printable sel → length sel < fuel →
  ∃ r' sel' p, same_req r r' ∧ Forall2 same_req sel sel' ∧
    parse_loop fuel (parser_at l d (req_items r ++ rest_items sel)) acc = Ok (acc ++ r' :: sel', p).
Proof.
  intros Hr Hall. revert fuel d r acc Hr. induction Hall as [|r2 sel Hr2 Hall IH]; intros fuel d r acc Hr Hf;
    (destruct fuel as [|fuel]; [simpl in Hf; lia|]);
    destruct (req_items_head r Hr) as (it & its & He & Hit).
  - destruct (ParseRequirement_items l d r eos [] Hr) as (r' & Hsame & Hrun); [by left|].
    cbn -[decide ParseRequirement req_items eos]. 
    assert (Lookahead (parser_at l d (req_items r ++ [eos])) ValuesCtx
      = Ok (in_context ValuesCtx (tok it), literal it)) as -> by (rewrite He; simpl app; by rewrite Lookahead_at).
    destruct Hit as [-> | ->]; cbn -[decide ParseRequirement req_items eos]; rewrite Hrun;
      cbn -[decide ParseRequirement req_items eos]; rewrite Consume_at; by exists r', [], (parser_at l ((d ++ req_items r) ++ [eos]) []).
  - destruct (ParseRequirement_items l d r comma (req_items r2 ++ rest_items sel) Hr) as (r' & Hsame & Hrun); [by right|].
    destruct (req_items_head r2 Hr2) as (it2 & its2 & He2 & Hit2).
    destruct (IH fuel ((d ++ req_items r) ++ [comma]) r2 (acc ++ [r']) Hr2) as (r2' & sel' & p & Hs2 & Hsel & Hrun2); [simpl in Hf; lia|].
    exists r', (r2' :: sel'), p. split_and!; [done|by constructor|].
    cbn -[decide ParseRequirement req_items comma parse_loop]. simpl.
    assert (Lookahead (parser_at l d (req_items r ++ comma :: req_items r2 ++ rest_items sel)) ValuesCtx
      = Ok (in_context ValuesCtx (tok it), literal it)) as -> by (rewrite He; simpl app; by rewrite Lookahead_at).
    assert (Lookahead (parser_at l ((d ++ req_items r) ++ [comma]) (req_items r2 ++ rest_items sel)) ValuesCtx
      = Ok (in_context ValuesCtx (tok it2), literal it2)) as Hla by (rewrite He2; simpl app; by rewrite Lookahead_at).
    rewrite <-(assoc_L (++) acc [r'] (r2' :: sel')) in Hrun2.
    destruct Hit as [-> | ->]; cbn -[decide ParseRequirement req_items comma]; rewrite Hrun;
      cbn -[decide ParseRequirement req_items comma]; rewrite Consume_at;
      change (in_context ValuesCtx (tok comma)) with CommaToken;
      cbn -[decide ParseRequirement req_items comma]; rewrite Hla;
      cbn -[decide ParseRequirement req_items comma];
      (rewrite decide_False by (destruct Hit2 as [-> | ->]; intros [? ?]; done)); exact Hrun2.
Qed.

Lemma rest_items_length sel : length sel < length (rest_items sel).
Proof. induction sel as [|r sel IH]; simpl; [lia|]. rewrite length_app. lia. Qed.

Lemma Parse_Lexes s items :
  Lexes (chars s) items →
  ∃ l', Parse s = ('(reqs, _) ← parse_loop (S (length items)) (parser_at l' [] items) []; Ok (Sort reqs)).
Proof.
  intros Hl. unfold Parse, Parser_Parse, Scan.
  change (MkLexer (chars s) 0) with (lexer_at [] (chars s)). simpl p_l.
  destruct (scan_loop_Lexes (lex_fuel (lexer_at [] (chars s))) [] (chars s) []) as (items' & l' & Hl' & Hrun).
  { unfold lex_fuel, lexer_at. simpl. lia. }
  rewrite (Lexes_fun _ _ _ Hl Hl') in *. exists l'. cbn -[parse_loop lex_fuel scan_loop]. rewrite Hrun. done.
Qed.

Lemma Parse_String sel :
  Forall printable sel →
  ∃ sel', Parse (Selector_String sel) = Ok (Sort sel') ∧ Forall2 same_req sel sel'.
Proof.
  intros Hall. destruct (Parse_Lexes _ _ (Lexes_selector sel Hall)) as (l' & ->).
  destruct Hall as [|r sel Hr Hall]; [by exists []|].
  destruct (parse_loop_items (S (length (sel_items (r :: sel)))) l' [] r sel [] Hr Hall)
    as (r' & sel' & p & Hs & Hsel & Hrun).
  { simpl. rewrite length_app. pose proof (rest_items_length sel). lia. }
  exists (r' :: sel'). split; [|by constructor]. simpl sel_items in *. by rewrite Hrun.
Qed.

Lemma holds_same r r' ls : same_req r r' → arity_ok (req_op r) (req_strVals r) → holds r ls ↔ holds r' ls.
Proof.
  intros (Hk & Hop & Hv & Hnd) Har. unfold holds. rewrite <-Hk, <-Hop.
  assert (∀ v, v ∈ req_strVals r ↔ v ∈ req_strVals r') as Hin.
  { intros v. rewrite <-!(elem_of_list_to_set (C:=gset string)). unfold Values in Hv. by rewrite Hv. }
  assert (∀ w, req_strVals r = [w] → req_strVals r' = [w]) as Hone.
  { intros w Hw. symmetry. apply Permutation_singleton_l. apply NoDup_Permutation; [apply NoDup_singleton|done|].
    intros v. by rewrite <-Hin, Hw. }
  destruct (req_op r) eqn:Ho; simpl in Har; try setoid_rewrite Hin; try done.
  all: destruct Har as (w & Hw & _); rewrite (Hone w Hw), Hw; done.
Qed.

Lemma Forall2_holds sel sel' ls :
  Forall printable sel → Forall2 same_req sel sel' →
  Forall (λ r, holds r ls) sel ↔ Forall (λ r, holds r ls) sel'.
Proof.
  intros Hall Hs. induction Hs as [|r r' sel sel' Hr Hs IH]; [done|].
  apply Forall_cons in Hall as [(_ & Har & _) Hall]. rewrite !Forall_cons, IH by done.
  by rewrite (holds_same r r').
Qed.

Lemma Match_same sel sel' ls :
  Forall printable sel → Forall2 same_req sel sel' → Match (Sort sel') ls = Match sel ls.
Proof.
  intros Hall Hs.
  assert (Forall (λ r, req_op r ≠ OpNone) sel) as Hops.
  { eapply Forall_impl; [done|]. intros r (_ & Har & _) Hop. unfold arity_ok in Har. by rewrite Hop in Har. }
  destruct (Match_spec sel ls Hops) as (b & -> & Hb).
  destruct (Match_spec (Sort sel') ls) as (b' & -> & Hb').
  { rewrite Sort_perm. clear -Hops Hs. induction Hs as [|r r' sel sel' (_ & Hop & _) Hs IH]; [done|].
    apply Forall_cons in Hops as [? ?]. constructor; [congruence|auto]. }
  f_equal. apply eq_bool_prop_intro. rewrite !Is_true_true, Hb, Hb', Sort_perm.
  symmetry. by apply Forall2_holds.
Qed.
End roundtrip.

(** ** Properties *)

(** Parsing any text terminates without a panic (no index past the scanned
    items, no underflow of the lexer position, no requirement without an
    operator); what it returns is sorted by key and holds only requirements that
    [Requirement::New] accepts. *)
Theorem parse_safe `{Eng : RegexEngine, Ord : HashOrder} (s : string) :
  match Parse s with
  | Panic _ => False
  | Err _ => True
  | Ok sel =>
      StronglySorted req_le sel ∧
      Forall (λ r, Requirement_New (req_key r) (req_op r) (req_strVals r) = Ok r) sel
  end.
Proof.
  destruct (scan_loop_Lexes (S (length (chars s))) [] (chars s) []) as (items & l & Hl & _); [lia|].
  destruct (Parse_Lexes s items Hl) as (l' & ->).
  apply Lexes_shape in Hl as (front & lit & -> & Hfront).
  pose proof (parse_loop_safe (S (length (front ++ [MkItem EndOfStringToken lit]))) l' []
    (front ++ [MkItem EndOfStringToken lit]) []) as Hsafe.
  destruct (parse_loop _ _ _) as [[reqs p]|e|w]; simpl; [|done|].
  - split; [apply Sort_sorted|]. rewrite Sort_perm. apply Hsafe; [|lia|done].
    exists front, lit. split; [done|]. eapply Forall_impl; [done|by intros ? []].
  - apply Hsafe; [|lia|done]. exists front, lit. split; [done|]. eapply Forall_impl; [done|by intros ? []].
Qed.

(** C32: a selector printed by [Selector::String] parses back, whatever the
    iteration order of hash sets, if each of its requirements has a qualified
    name as its key, the values its operator takes ([Gt] and [Lt] one number), values without
    blanks, zero bytes and the lexer's symbols, and, for [In] and [NotIn], a
    value set that is not just the empty string: the result is the same
    requirements (same key, operator and set of values) sorted by key, and it
    matches exactly the same label sets. *)
Theorem selector_text_roundtrip
  `{Eng : RegexEngine, Spec : !RegexSpec, Ord : HashOrder, HSpec : !HashSpec} (sel : Selector) :
  Forall printable sel →
  ∃ sel', Parse (Selector_String sel) = Ok (Sort sel') ∧ Forall2 same_req sel sel' ∧
    ∀ ls, Match (Sort sel') ls = Match sel ls.
Proof.
  intros Hall. destruct (Parse_String sel Hall) as (sel' & Hp & Hs). exists sel'.
  split_and!; [done..|]. intros ls. by apply Match_same.
Qed.

Definition sample : Selector :=
  [MkRequirement "tier" In ["web"; ""; "in"]; MkRequirement "app/mem" GreaterThan ["16"];
   MkRequirement "in" NotEquals [""]; MkRequirement "z" DoesNotExist []].

(** The value set of just the empty string is accepted, and its text is not. *)
Lemma empty_value_set_is_lost :
  let r := MkRequirement "x" In [""] in
  @Requirement_New derivative_engine "x" In [""] = Ok r ∧ Requirement_String r = "x in ()" ∧
  is_err (@Parse derivative_engine btree_order (Selector_String [r])) = true.
Proof. vm_compute. done. Qed.

Lemma selector_text_roundtrip_witness :
  Selector_String sample = "tier in (,in,web),app/mem>16,in!=,!z" ∧
  ∃ sel', @Parse derivative_engine btree_order (Selector_String sample) = Ok (Sort sel') ∧
    Forall2 same_req sample sel'.
Proof.
  split; [by vm_compute|].
  destruct (@selector_text_roundtrip derivative_engine derivative_engine_spec btree_order btree_order_spec sample)
    as (sel' & Hp & Hs & _); [|eauto].
  assert (∀ k, @IsQualifiedName derivative_engine k = Ok tt → qualified_name k) as Hk
    by (intros k; apply (@IsQualifiedName_Ok derivative_engine derivative_engine_spec)).
  repeat (apply Forall_cons; split); [..|by constructor]; unfold printable; simpl;
    (split_and!; [apply Hk; by vm_compute|simpl; eauto|by repeat constructor|done]).
Defined.
