(* ===== verification/Resource.v ===== *)
(** * GPU and node resources (inferxlib/src/resource.rs)

    Counters keep their machine type: sums are checked ([chk]), [as]
    conversions wrap ([cast]).  A method taking [&mut self] returns the new
    state first. *)

From S2P Require Import Prelude.
From S2P Require Import Text.
From S2P Require Import BTree.
From S2P Require Import Common.

(** ** GPU types and requests *)

(** inferxlib/src/resource.rs:24-24 [MAX_GPU_COUNT] *)
Definition MAX_GPU_COUNT : nat := 8.

(** [GPUType(String)], inferxlib/src/resource.rs:28-28 *)
Abbreviation GPUType := string.
(** inferxlib/src/resource.rs:37-39 [GPUType::Any] *)
Definition GPUType_Any : GPUType := "Any".
(** inferxlib/src/resource.rs:41-43 [GPUType::Unknown] *)
Definition GPUType_Unknown : GPUType := "Unknown".
(** inferxlib/src/resource.rs:45-51 [GPUType::CanAlloc] *)
Definition GPUType_CanAlloc (self req : GPUType) : bool :=
  if decide (req = "Any") then true else bool_decide (self = req).

(** inferxlib/src/resource.rs:85-94 [GPUResource] *)
Record GPUResource := MkGPUResource {
  gr_type : GPUType;
  gr_gpuCount : Z;
  gr_vRam : Z;
  gr_contextCount : Z;
}.
(** inferxlib/src/resource.rs:97-103 [GPUResource::Sub] *)
Definition GPUResource_Sub (self other : GPUResource) : Result GPUResource :=
  if decide (gr_gpuCount other = 0 ∨ gr_vRam other = 0)%Z then Ok self
  else
    _ ← assert_ (bool_decide (gr_gpuCount self = gr_gpuCount other)) "assertion failed";
    vRam ← chk u64 (gr_vRam self - gr_vRam other);
    Ok (MkGPUResource (gr_type self) (gr_gpuCount self) vRam (gr_contextCount self)).

(** inferxlib/src/resource.rs:65-68 [NodeGPUResource] *)
Record NodeGPUResource := MkNodeGPUResource { ng_type : GPUType; ng_gpus : gset Z }.
(** inferxlib/src/resource.rs:71-81 [NodeGPUResource::New] *)
Definition NodeGPUResource_New (gpuType : GPUType) (gpus : list Z) : NodeGPUResource :=
  MkNodeGPUResource gpuType (foldl (λ set id, {[id]} ∪ set) ∅ gpus).

(** inferxlib/src/resource.rs:126-129 [GPUSet] *)
Inductive GPUSet := Auto | SomeGPUs (s : gset Z).
(** inferxlib/src/resource.rs:138-146 [GPUSet::FirstGpu] *)
Definition FirstGpu (self : GPUSet) : Result Z :=
  match self with
  | Auto => Ok 0%Z
  | SomeGPUs s => unwrap_opt (head (set_elems s))
  end.
(** inferxlib/src/resource.rs:148-157 [GPUSet::V2P] *)
Definition V2P (self : GPUSet) (v : Z) : Result Z :=
  match self with
  | Auto => Ok v
  | SomeGPUs s =>
      let arr := set_elems s in
      _ ← assert_ (bool_decide (cast usize v < Z.of_nat (length arr))%Z) "assertion failed";
      match arr !! Z.to_nat (cast usize v) with Some p => Ok p | None => Panic "index out of bounds" end
  end.

(** inferxlib/src/resource.rs:161-189 [ResourceConfig] *)
Record ResourceConfig := MkResourceConfig {
  rc_allocMemory : Z; rc_cacheMemory : Z; rc_enable2MBPage : bool; rc_enableBlob : bool;
  rc_blobBuffer : Z; rc_gpus : GPUSet; rc_cpu : Z; rc_contextOverhead : Z;
  rc_reserveMemPercentage : Z; rc_flexMemPercentage : Z; rc_maxContextPerGPU : Z;
}.
(** inferxlib/src/resource.rs:192-198 [ResourceConfig::MaxContextPerGPU] *)
Definition MaxContextPerGPU (self : ResourceConfig) : Z :=
  if decide (rc_maxContextPerGPU self = 0%Z) then 1%Z else rc_maxContextPerGPU self.
(** inferxlib/src/resource.rs:200-207 [ResourceConfig::AllocableMem] *)
Definition AllocableMem (self : ResourceConfig) : Result Z :=
  memory ← chk u64 (rc_allocMemory self - rc_cacheMemory self)%Z;
  if rc_enableBlob self then chk u64 (memory - rc_blobBuffer self)%Z else Ok memory.

(** ** Slots per GPU *)

(** inferxlib/src/resource.rs:788-792 [GPUAlloc] *)
Record GPUAlloc := MkGPUAlloc { contextCnt : Z; slotCnt : Z; ncclCnt : Z }.
#[global] Instance GPUAlloc_eq_dec : EqDecision GPUAlloc.
Proof. solve_decision. Defined.

(** inferxlib/src/resource.rs:635-640 [GPUResourceMap] *)
Record GPUResourceMap := MkGPUResourceMap {
  totalSlotCnt : Z;
  gmap_of : gmap Z GPUAlloc;
  slotSize : Z;
}.
(** [GPUResourceMap::default()] *)
Definition GPUResourceMap_default : GPUResourceMap := MkGPUResourceMap 0 ∅ 0.

(** inferxlib/src/resource.rs:211-214 [GPUResourceMap::Gpus] *)
Definition Gpus (self : GPUResourceMap) : list Z := keys (gmap_of self).
(** inferxlib/src/resource.rs:216-222 [GPUResourceMap::PhyGpus] *)
Definition PhyGpus (self : GPUResourceMap) : list Z := Z.of_nat <$> seq 0 (size (gmap_of self)).

Definition all_nonneg (r : GPUAlloc) : Result unit :=
  _ ← assert_ (bool_decide (slotCnt r >= 0)%Z) "Cannot free negative slotCnt";
  _ ← assert_ (bool_decide (contextCnt r >= 0)%Z) "Cannot free negative contextCnt";
  assert_ (bool_decide (ncclCnt r >= 0)%Z) "Cannot free negative ncclCnt".

(** [for (pGpuId, resource) in &other.map { .. }]: each entry is updated by [f]. *)
Definition update_loop (f : GPUAlloc → option GPUAlloc → Result GPUAlloc)
    (m : gmap Z GPUAlloc) (l : list (Z * GPUAlloc)) : Result (gmap Z GPUAlloc) :=
  foldlM (λ m p, e ← f p.2 (m !! p.1); Ok (<[p.1 := e]> m)) m l.

Definition add_entry (total : Z) (resource : GPUAlloc) (entry : option GPUAlloc) : Result GPUAlloc :=
  _ ← all_nonneg resource;
  match entry with
  | None => Ok resource
  | Some alloc =>
      sum ← chk i64 (slotCnt alloc + slotCnt resource)%Z;
      _ ← assert_ (bool_decide (sum <= cast i64 total)%Z) "alloc.slotCnt is too large";
      s ← chk i64 (slotCnt alloc + slotCnt resource)%Z;
      c ← chk i64 (contextCnt alloc + contextCnt resource)%Z;
      n ← chk i64 (ncclCnt alloc + ncclCnt resource)%Z;
      Ok (MkGPUAlloc c s n)
  end.
(** inferxlib/src/resource.rs:224-270 [GPUResourceMap::Add] *)
Definition GPUResourceMap_Add (self free : GPUResourceMap) : Result GPUResourceMap :=
  let size := if decide (slotSize self = 0%Z) then slotSize free else slotSize self in
  m ← update_loop (add_entry (totalSlotCnt self)) (gmap_of self) (entries (gmap_of free));
  Ok (MkGPUResourceMap (totalSlotCnt self) m size).

Definition sub_entry (resource : GPUAlloc) (entry : option GPUAlloc) : Result GPUAlloc :=
  _ ← all_nonneg resource;
  match entry with
  | None => Panic "internal error: entered unreachable code"
  | Some cnt =>
      s ← chk i64 (slotCnt cnt - slotCnt resource)%Z;
      c ← chk i64 (contextCnt cnt - contextCnt resource)%Z;
      n ← chk i64 (ncclCnt cnt - ncclCnt resource)%Z;
      Ok (MkGPUAlloc c s n)
  end.
(** inferxlib/src/resource.rs:272-308 [GPUResourceMap::Sub] *)
Definition GPUResourceMap_Sub (self alloc : GPUResourceMap) : Result GPUResourceMap :=
  _ ← assert_ (bool_decide (slotSize alloc = 0%Z) || bool_decide (slotSize self = slotSize alloc))
        "slot sizes differ";
  m ← update_loop sub_entry (gmap_of self) (entries (gmap_of alloc));
  Ok (MkGPUResourceMap (totalSlotCnt self) m (slotSize self)).

(** inferxlib/src/resource.rs:310-314 [GPUResourceMap::ReqSlotCnt] *)
Definition ReqSlotCnt (self : GPUResourceMap) (vRam : Z) : Result Z :=
  kb ← chk u64 (vRam * 1024)%Z;
  vRam ← chk u64 (kb * 1024)%Z;
  sum ← chk u64 (vRam + slotSize self)%Z;
  sum ← chk u64 (sum - 1)%Z;
  if decide (slotSize self = 0%Z) then Panic "attempt to divide by zero"
  else Ok (cast u32 (sum / slotSize self)%Z).

Definition nccl_need (createSnapshot : bool) (count : Z) : Z :=
  if createSnapshot then 1%Z else if decide (count < 2)%Z then 0%Z else 1%Z.

(** [for (&pGpuId, resource) in &self.map] of [CanAlloc] *)
Fixpoint can_alloc_loop (ctx nccl slots : Z) (l : list (Z * GPUAlloc)) (cnt : Z) (gpus : list Z)
  : Result (option (list Z)) :=
  match l with
  | [] => Ok None
  | (pGpuId, resource) :: l =>
      if decide (contextCnt resource < ctx)%Z then can_alloc_loop ctx nccl slots l cnt gpus
      else if decide (ncclCnt resource < nccl)%Z then can_alloc_loop ctx nccl slots l cnt gpus
      else if decide (slotCnt resource >= slots)%Z then
        cnt ← chk u64 (cnt - 1)%Z;
        let gpus := gpus ++ [pGpuId] in
        if decide (cnt = 0%Z) then Ok (Some gpus) else can_alloc_loop ctx nccl slots l cnt gpus
      else can_alloc_loop ctx nccl slots l cnt gpus
  end.
(** inferxlib/src/resource.rs:382-423 [GPUResourceMap::CanAlloc] *)
Definition GPUResourceMap_CanAlloc (self : GPUResourceMap) (usage : GPUResource) (createSnapshot : bool)
  : Result (option (list Z)) :=
  let cnt := gr_gpuCount usage in
  if decide (cnt = 0%Z) then Ok (Some [])
  else
    let ncclCnt := nccl_need createSnapshot cnt in
    reqSlotCnt ← ReqSlotCnt self (gr_vRam usage);
    can_alloc_loop (cast i64 (gr_contextCount usage)) ncclCnt reqSlotCnt (entries (gmap_of self)) cnt [].

(** [for gpu in gpus] of [Alloc] *)
Fixpoint alloc_loop (give : GPUAlloc) (gpus : list Z) (self map : gmap Z GPUAlloc) (count : Z)
  : Result (gmap Z GPUAlloc * gmap Z GPUAlloc) :=
  match gpus with
  | [] => Ok (self, map)
  | gpu :: gpus =>
      match self !! gpu with
      | None => Panic "internal error: entered unreachable code"
      | Some resource =>
          s ← chk i64 (slotCnt resource - slotCnt give)%Z;
          n ← chk i64 (ncclCnt resource - ncclCnt give)%Z;
          c ← chk i64 (contextCnt resource - contextCnt give)%Z;
          let self := <[gpu := MkGPUAlloc c s n]> self in
          let map := <[gpu := give]> map in
          count ← chk u64 (count - 1)%Z;
          if decide (count = 0%Z) then Ok (self, map) else alloc_loop give gpus self map count
      end
  end.
(** inferxlib/src/resource.rs:316-380 [GPUResourceMap::Alloc] *)
Definition GPUResourceMap_Alloc (self : GPUResourceMap) (usage : GPUResource) (createSnapshot : bool)
  : Result (GPUResourceMap * GPUResourceMap) :=
  gpus ← GPUResourceMap_CanAlloc self usage createSnapshot;
  match gpus with
  | None => Err (SchedulerNoEnoughResource "")
  | Some gpus =>
      let count := gr_gpuCount usage in
      if decide (count = 0%Z)
      then Ok (self, MkGPUResourceMap (totalSlotCnt self) ∅ (slotSize self))
      else
        let ncclCnt := if createSnapshot then 1%Z else if decide (count = 1%Z) then 0%Z else 1%Z in
        slotCnt ← ReqSlotCnt self (gr_vRam usage);
        _ ← assert_ (bool_decide (slotCnt > 0)%Z) "slotCnt must be positive for allocation";
        '(m, map) ← alloc_loop (MkGPUAlloc (cast i64 (gr_contextCount usage)) slotCnt ncclCnt)
                      gpus (gmap_of self) ∅ count;
        Ok (MkGPUResourceMap (totalSlotCnt self) m (slotSize self),
            MkGPUResourceMap (totalSlotCnt self) map (slotSize self))
  end.

(** inferxlib/src/resource.rs:426-433 [GPUResourceMap::GenArr] *)
Definition GenArr (self : GPUResourceMap) : list (Z * Z) :=
  (λ p, (slotCnt p.2, p.1)) <$> entries (gmap_of self).

(** inferxlib/src/resource.rs:696-701 [GPUResourceMap::SlotCnt] *)
Definition SlotCnt (self : GPUResourceMap) (gpuId : Z) : Z :=
  match gmap_of self !! gpuId with None => 0%Z | Some resource => slotCnt resource end.
(** inferxlib/src/resource.rs:668-673 [GPUResourceMap::VRam] *)
Definition VRam (self : GPUResourceMap) (gpuId : Z) : Result Z :=
  chk i64 (cast i64 (slotSize self / 1024 / 1024) * SlotCnt self gpuId)%Z.
(** inferxlib/src/resource.rs:682-690 [GPUResourceMap::FirstSlotCnt] *)
Definition FirstSlotCnt (self : GPUResourceMap) : Z :=
  match first_entry (gmap_of self) with None => 0%Z | Some (_, resource) => slotCnt resource end.
(** inferxlib/src/resource.rs:675-680 [GPUResourceMap::FirstVRam] *)
Definition FirstVRam (self : GPUResourceMap) : Result Z :=
  chk i64 (cast i64 (slotSize self / 1024 / 1024) * FirstSlotCnt self)%Z.
(** inferxlib/src/resource.rs:692-694 [GPUResourceMap::TotalVRam] *)
Definition TotalVRam (self : GPUResourceMap) : Result Z := chk u64 (totalSlotCnt self * slotSize self)%Z.

(** inferxlib/src/resource.rs:723-733 [GPUResourceMap::VirtToPhy] *)
Definition VirtToPhy (self : GPUResourceMap) : gmap Z Z :=
  (foldl (λ '(map, vGpu) pGpu, (<[vGpu := pGpu]> map, (vGpu + 1)%Z)) (∅, 0%Z) (keys (gmap_of self))).1.
(** inferxlib/src/resource.rs:735-743 [GPUResourceMap::PhyToVirt] *)
Definition PhyToVirt (self : GPUResourceMap) : gmap Z Z :=
  (foldl (λ '(map, vGpu) pGpu, (<[pGpu := vGpu]> map, (vGpu + 1)%Z)) (∅, 0%Z) (keys (gmap_of self))).1.

(** ** The array form exchanged with the runtime *)

(** inferxlib/src/resource.rs:747-752 [GPUResourceInfo] *)
Record GPUResourceInfo := MkGPUResourceInfo { info_total : Z; info_map : list Z; info_slotSize : Z }.

(** [info.map[*pGpuId as usize] = resource.slotCnt as u32] *)
Definition info_step (m : list Z) (p : Z * GPUAlloc) : Result (list Z) :=
  _ ← assert_ (bool_decide (slotCnt p.2 >= 0)%Z) "GPUResourceInfo encountered negative slotCnt";
  let i := cast usize p.1 in
  if decide (i < Z.of_nat (length m))%Z then Ok (<[Z.to_nat i := cast u32 (slotCnt p.2)]> m)
  else Panic "index out of bounds".

(** inferxlib/src/resource.rs:703-721 [GPUResourceMap::GPUResourceInfo] *)
Definition to_info (self : GPUResourceMap) : Result GPUResourceInfo :=
  m ← foldlM info_step (replicate MAX_GPU_COUNT 0%Z) (entries (gmap_of self));
  Ok (MkGPUResourceInfo (totalSlotCnt self) m (slotSize self)).

(** inferxlib/src/resource.rs:755-784 [GPUResourceInfo::GPUResourceMap] *)
Definition of_info (self : GPUResourceInfo) : GPUResourceMap :=
  let gpuCnt := length (filter (λ c, 0 < c)%Z (info_map self)) in
  let ncclCnt := if 1 <? gpuCnt then 1%Z else 0%Z in
  MkGPUResourceMap (info_total self)
    (foldl (λ m '(i, c), if decide (0 < c)%Z then <[Z.of_nat i := MkGPUAlloc 1 c ncclCnt]> m else m)
       ∅ (imap (λ i c, (i, c)) (info_map self)))
    (info_slotSize self).

(** ** Node resources *)

(** inferxlib/src/resource.rs:443-457 [NodeResources] *)
Record NodeResources := MkNodeResources {
  nr_nodename : string;
  nr_cpu : Z;
  nr_memory : Z;
  nr_cacheMemory : Z;
  nr_gpuType : GPUType;
  nr_gpus : GPUResourceMap;
  nr_maxContextCnt : Z;
}.
(** inferxlib/src/resource.rs:460-478 [NodeResources::New] *)
Definition NodeResources_New (nodename : string) (cpu memory cacheMemory : Z) (gpuType : GPUType)
    (gpus : GPUResourceMap) (maxContextPerGpu : Z) : NodeResources :=
  MkNodeResources nodename (cast i64 cpu) (cast i64 memory) (cast i64 cacheMemory) gpuType gpus
    (cast i64 maxContextPerGpu).
(** inferxlib/src/resource.rs:480-490 [NodeResources::Copy] *)
Definition NodeResources_Copy (self : NodeResources) : NodeResources :=
  MkNodeResources (nr_nodename self) (nr_cpu self) (nr_memory self) (nr_cacheMemory self)
    (nr_gpuType self) (nr_gpus self) (nr_maxContextCnt self).
(** inferxlib/src/resource.rs:492-502 [NodeResources::GPUResource] *)
Definition NodeResources_GPUResource (self : NodeResources) : NodeResources :=
  MkNodeResources "" 0 0 0 (nr_gpuType self) (nr_gpus self) (nr_maxContextCnt self).

Definition set_usage (self : NodeResources) (memory cacheMemory : Z) (gpus : GPUResourceMap) : NodeResources :=
  MkNodeResources (nr_nodename self) (nr_cpu self) memory cacheMemory (nr_gpuType self) gpus
    (nr_maxContextCnt self).

(** inferxlib/src/resource.rs:504-515 [NodeResources::Sub] *)
Definition NodeResources_Sub (self other : NodeResources) : Result NodeResources :=
  memory ← chk i64 (nr_memory self - nr_memory other)%Z;
  cacheMemory ← chk i64 (nr_cacheMemory self - nr_cacheMemory other)%Z;
  gpus ← GPUResourceMap_Sub (nr_gpus self) (nr_gpus other);
  Ok (set_usage self memory cacheMemory gpus).
(** inferxlib/src/resource.rs:547-560 [NodeResources::Add] *)
Definition NodeResources_Add (self free : NodeResources) : Result NodeResources :=
  _ ← assert_ (bool_decide (nr_gpuType self = nr_gpuType free)) "assertion failed";
  gpus ← GPUResourceMap_Add (nr_gpus self) (nr_gpus free);
  memory ← chk i64 (nr_memory self + nr_memory free)%Z;
  cacheMemory ← chk i64 (nr_cacheMemory self + nr_cacheMemory free)%Z;
  Ok (set_usage self memory cacheMemory gpus).

(** inferxlib/src/resource.rs:570-581 [Resources] *)
Record Resources := MkResources {
  rs_cpu : Z; rs_memory : Z; rs_readyMemory : Z; rs_cacheMemory : Z; rs_gpu : GPUResource;
}.
(** inferxlib/src/resource.rs:600-608 [Resources::SetDefault] *)
Definition SetDefault (self : Resources) : Resources :=
  MkResources (if decide (rs_cpu self = 0%Z) then 100%Z else rs_cpu self)
    (if decide (rs_memory self = 0%Z) then 500%Z else rs_memory self)
    (rs_readyMemory self) (rs_cacheMemory self) (rs_gpu self).
(** inferxlib/src/resource.rs:610-618 [Resources::GPUResource] *)
Definition Resources_GPUResource (self : Resources) : Resources :=
  MkResources 0 0 0 0 (rs_gpu self).
(** inferxlib/src/resource.rs:620-625 [Resources::Sub] *)
Definition Resources_Sub (self other : Resources) : Result Resources :=
  cpu ← chk u64 (rs_cpu self - rs_cpu other)%Z;
  memory ← chk u64 (rs_memory self - rs_memory other)%Z;
  cacheMemory ← chk u64 (rs_cacheMemory self - rs_cacheMemory other)%Z;
  gpu ← GPUResource_Sub (rs_gpu self) (rs_gpu other);
  Ok (MkResources cpu memory (rs_readyMemory self) cacheMemory gpu).

(** inferxlib/src/resource.rs:517-532 [NodeResources::ReadyResourceQuota] *)
Definition ReadyResourceQuota (self : NodeResources) (resource : Resources) : NodeResources :=
  let memory := if decide (0 < rs_readyMemory resource)%Z then rs_readyMemory resource else rs_memory resource in
  MkNodeResources (nr_nodename self) (cast i64 (rs_cpu resource)) (cast i64 memory)
    (cast i64 (rs_cacheMemory resource)) (nr_gpuType self) GPUResourceMap_default (nr_maxContextCnt self).
(** inferxlib/src/resource.rs:535-545 [NodeResources::ResourceQuota] *)
Definition ResourceQuota (self : NodeResources) (resource : Resources) : NodeResources :=
  MkNodeResources (nr_nodename self) (cast i64 (rs_cpu resource)) (cast i64 (rs_memory resource))
    (cast i64 (rs_cacheMemory resource)) (nr_gpuType self) GPUResourceMap_default (nr_maxContextCnt self).

(** ** Allocation on a node (ixshare/src/scheduler/scheduler_handler.rs) *)

(** ixshare/src/scheduler/scheduler_handler.rs:391-399 [ResourceAlloc::CanAlloc] *)
Definition Node_CanAlloc (self : NodeResources) (req : Resources) (createSnapshot : bool)
  : Share.Result AllocState :=
  gpus ← Share.lift (GPUResourceMap_CanAlloc (nr_gpus self) (rs_gpu req) createSnapshot);
  Ok (MkAllocState
    (bool_decide (nr_cpu self >= cast i64 (rs_cpu req))%Z)
    (bool_decide (nr_memory self >= cast i64 (rs_memory req))%Z)
    (bool_decide (nr_cacheMemory self >= cast i64 (rs_cacheMemory req))%Z)
    (GPUType_CanAlloc (nr_gpuType self) (gr_type (rs_gpu req)))
    (bool_decide (is_Some gpus))).

(** ixshare/src/scheduler/scheduler_handler.rs:401-420 [ResourceAlloc::Alloc] *)
Definition Node_Alloc (self : NodeResources) (req : Resources) (createSnapshot : bool)
  : Share.Result (NodeResources * NodeResources) :=
  state ← Node_CanAlloc self req createSnapshot;
  if negb (AllocState_Ok state) then Err (Share.ScheduleFail state)
  else
    memory ← chk i64 (nr_memory self - cast i64 (rs_memory req))%Z;
    cacheMemory ← chk i64 (nr_cacheMemory self - cast i64 (rs_cacheMemory req))%Z;
    '(remaining, gpus) ← Share.lift (GPUResourceMap_Alloc (nr_gpus self) (rs_gpu req) createSnapshot);
    Ok (set_usage self memory cacheMemory remaining,
        MkNodeResources (nr_nodename self) (cast i64 (rs_cpu req)) (cast i64 (rs_memory req))
          (cast i64 (rs_cacheMemory req)) (nr_gpuType self) gpus (nr_maxContextCnt self)).

(** ** Standby *)

(** inferxlib/src/resource.rs:824-828 [StandbyType] *)
Inductive StandbyType := File | Mem | Blob.
#[global] Instance StandbyType_eq_dec : EqDecision StandbyType.
Proof. solve_decision. Defined.

(** inferxlib/src/resource.rs:837-851 [StandbyType::StandbyType] *)
Definition keepalive (self : StandbyType) (blobStoreEnable : bool) : StandbyType :=
  match self with
  | Mem => Mem
  | File => File
  | Blob => if blobStoreEnable then Blob else File
  end.
(** inferxlib/src/resource.rs:853-859 [StandbyType::String] *)
Definition StandbyType_String (self : StandbyType) : string :=
  match self with Mem => "mem" | File => "file" | Blob => "blob" end.
(** inferxlib/src/resource.rs:861-871 [StandbyType::New] *)
Definition StandbyType_New (str : string) : StandbyType :=
  if decide (str = "mem") then Mem
  else if decide (str = "file") then File
  else if decide (str = "blob") then Blob else File.

(** inferxlib/src/resource.rs:795-802 [Standby] *)
Record Standby := MkStandby { gpuMem : StandbyType; pageableMem : StandbyType; pinndMem : StandbyType }.
(** inferxlib/src/resource.rs:805-807 [Standby::GpuMemKeepalive] *)
Definition GpuMemKeepalive (self : Standby) (blobStoreEnable : bool) : StandbyType :=
  keepalive (gpuMem self) blobStoreEnable.
(** inferxlib/src/resource.rs:809-813 [Standby::Needblob] *)
Definition Needblob (self : Standby) : bool :=
  bool_decide (gpuMem self = Blob) || bool_decide (pageableMem self = Blob)
  || bool_decide (pinndMem self = Blob).
(** inferxlib/src/resource.rs:815-820 [Standby::PageableMem] *)
Definition PageableMem (self : Standby) : StandbyType := pageableMem self.

(** ** Updating the entries of a map *)

Lemma update_loop_Ok f m l (g : Z → GPUAlloc) :
  NoDup l.*1 → (∀ k r, (k, r) ∈ l → f r (m !! k) = Ok (g k)) →
  ∃ m', update_loop f m l = Ok m' ∧ ∀ k, m' !! k = if decide (k ∈ l.*1) then Some (g k) else m !! k.
Proof.
  unfold update_loop. revert m. induction l as [|[k r] l IH]; intros m Hnd Hf.
  { exists m. split; [done|]. intros k. by rewrite decide_False by apply not_elem_of_nil. }
  csimpl in *. apply NoDup_cons in Hnd as [Hk Hnd]. rewrite (Hf k r) by (by left). csimpl.
  destruct (IH (<[k := g k]> m) Hnd) as (m' & -> & Hm').
  { intros k' r' Hin. rewrite lookup_insert_ne; [apply Hf; by right|].
    intros ->. apply Hk, list_elem_of_fmap. by exists (k', r'). }
  exists m'. split; [done|]. intros k'. rewrite Hm'.
  destruct (decide (k' ∈ l.*1)) as [Hin|Hin].
  { rewrite decide_True; [done|by right]. }
  destruct (decide (k' = k)) as [->|Hne].
  - rewrite lookup_insert_eq, decide_True; [done|by left].
  - rewrite lookup_insert_ne, decide_False; [done|set_solver|done].
Qed.

Lemma update_entries_Ok f m (other : gmap Z GPUAlloc) (g : Z → GPUAlloc) :
  (∀ k r, other !! k = Some r → f r (m !! k) = Ok (g k)) →
  ∃ m', update_loop f m (entries other) = Ok m' ∧
    ∀ k, m' !! k = match other !! k with Some _ => Some (g k) | None => m !! k end.
Proof.
  intros Hf. destruct (update_loop_Ok f m (entries other) g) as (m' & Hrun & Hm'); [apply NoDup_keys| |].
  { intros k r Hkr%elem_of_entries. by apply Hf. }
  exists m'. split; [done|]. intros k. rewrite Hm'. fold (keys other).
  destruct (other !! k) eqn:Hk.
  - rewrite decide_True; [done|]. apply elem_of_keys. by exists g0.
  - rewrite decide_False; [done|]. rewrite elem_of_keys, Hk. by intros [].
Qed.

(** ** Which GPUs a request takes *)

Definition eligible (ctx nccl slots : Z) (r : GPUAlloc) : Prop :=
  (ctx ≤ contextCnt r ∧ nccl ≤ ncclCnt r ∧ slots ≤ slotCnt r)%Z.
#[global] Instance eligible_dec ctx nccl slots r : Decision (eligible ctx nccl slots r).
Proof. unfold eligible. apply _. Defined.

(** The GPUs with enough slots, contexts and NCCL shares, in key order. *)
Definition candidates (ctx nccl slots : Z) (m : gmap Z GPUAlloc) : list Z :=
  (filter (λ p, eligible ctx nccl slots p.2) (entries m)).*1.

Lemma can_alloc_loop_spec ctx nccl slots l cnt acc :
  (0 < cnt)%Z → fits u64 cnt →
  can_alloc_loop ctx nccl slots l cnt acc =
  Ok (let e := (filter (λ p, eligible ctx nccl slots p.2) l).*1 in
      if decide (Z.to_nat cnt ≤ length e) then Some (acc ++ take (Z.to_nat cnt) e) else None).
Proof.
  revert cnt acc. induction l as [|[k r] l IH]; intros cnt acc Hc Hfit; cbn [can_alloc_loop].
  { rewrite filter_nil. cbn -[decide]. rewrite decide_False; [done|lia]. }
  assert (chk (E:=Error) u64 (cnt - 1) = Ok (cnt - 1)%Z) as Hchk
    by (apply chk_fits; unfold fits, u64 in *; simpl in *; lia).
  rewrite filter_cons. cbn [snd].
  destruct (decide (contextCnt r < ctx)%Z); [rewrite IH by done; by rewrite (decide_False (P:=eligible ctx nccl slots r)) by (unfold eligible; lia)|].
  destruct (decide (ncclCnt r < nccl)%Z); [rewrite IH by done; by rewrite (decide_False (P:=eligible ctx nccl slots r)) by (unfold eligible; lia)|].
  destruct (decide (slotCnt r >= slots)%Z); [|rewrite IH by done; by rewrite (decide_False (P:=eligible ctx nccl slots r)) by (unfold eligible; lia)].
  rewrite (decide_True (P:=eligible ctx nccl slots r)) by (unfold eligible; lia). rewrite Hchk. cbn -[decide take filter].
  destruct (decide (cnt - 1 = 0)%Z) as [Hz|Hz].
  { replace (Z.to_nat cnt) with 1 by lia. by rewrite decide_True by (simpl; lia). }
  rewrite IH; [|lia|unfold fits, u64 in *; simpl in *; lia]. cbn -[decide take filter].
  replace (Z.to_nat cnt) with (S (Z.to_nat (cnt - 1))) by lia. simpl take.
  repeat case_decide; try lia; [|done]. by rewrite <-(assoc_L (++)).
Qed.

Lemma GPUResourceMap_CanAlloc_spec self usage snap slots :
  (0 < gr_gpuCount usage)%Z → fits u64 (gr_gpuCount usage) →
  ReqSlotCnt self (gr_vRam usage) = Ok slots →
  GPUResourceMap_CanAlloc self usage snap =
  Ok (let e := candidates (cast i64 (gr_contextCount usage)) (nccl_need snap (gr_gpuCount usage)) slots (gmap_of self) in
      if decide (Z.to_nat (gr_gpuCount usage) ≤ length e) then Some (take (Z.to_nat (gr_gpuCount usage)) e) else None).
Proof.
  intros Hc Hfit Hreq. unfold GPUResourceMap_CanAlloc. rewrite decide_False by lia. rewrite Hreq.
  cbn -[decide take]. by rewrite can_alloc_loop_spec.
Qed.

Lemma candidates_spec ctx nccl slots m g :
  g ∈ candidates ctx nccl slots m ↔ ∃ r, m !! g = Some r ∧ eligible ctx nccl slots r.
Proof.
  unfold candidates. rewrite list_elem_of_fmap. split.
  - intros ([k r] & -> & [He Hin]%list_elem_of_filter). apply elem_of_entries in Hin. eauto.
  - intros (r & Hg & He). exists (g, r). split; [done|]. apply list_elem_of_filter.
    split; [done|]. by apply elem_of_entries.
Qed.
Lemma NoDup_candidates ctx nccl slots m : NoDup (candidates ctx nccl slots m).
Proof.
  apply NoDup_fmap_fst; [|apply NoDup_filter, NoDup_entries].
  intros k r1 r2 [_ H1%elem_of_entries]%list_elem_of_filter [_ H2%elem_of_entries]%list_elem_of_filter.
  congruence.
Qed.

(** ** Allocating *)

(** Counters of a map are 64-bit values. *)
Definition wf_alloc (r : GPUAlloc) : Prop :=
  fits i64 (contextCnt r) ∧ fits i64 (slotCnt r) ∧ fits i64 (ncclCnt r).
Definition nonneg (r : GPUAlloc) : Prop := (0 ≤ contextCnt r ∧ 0 ≤ slotCnt r ∧ 0 ≤ ncclCnt r)%Z.
Definition minus (r give : GPUAlloc) : GPUAlloc :=
  MkGPUAlloc (contextCnt r - contextCnt give) (slotCnt r - slotCnt give) (ncclCnt r - ncclCnt give).

Lemma all_nonneg_Ok r : nonneg r → all_nonneg r = Ok tt.
Proof.
  intros (? & ? & ?). unfold all_nonneg, assert_. rewrite !bool_decide_true by lia. done.
Qed.

Lemma alloc_loop_spec give gpus self map count :
  nonneg give → NoDup gpus → (∀ g, g ∈ gpus → ∃ r, self !! g = Some r ∧ wf_alloc r ∧
    eligible (contextCnt give) (ncclCnt give) (slotCnt give) r) →
  gpus ≠ [] → count = Z.of_nat (length gpus) → fits u64 count →
  ∃ self' map', alloc_loop give gpus self map count = Ok (self', map') ∧
    (∀ g, self' !! g = if decide (g ∈ gpus) then (λ r, minus r give) <$> (self !! g) else self !! g) ∧
    (∀ g, map' !! g = if decide (g ∈ gpus) then Some give else map !! g).
Proof.
  intros Hgive. revert self map count. induction gpus as [|g gpus IH]; intros self map count Hnd Hel Hne -> Hfit; [done|].
  apply NoDup_cons in Hnd as [Hg Hnd]. cbn [alloc_loop].
  destruct (Hel g) as (r & Hr & (W1 & W2 & W3) & (E1 & E2 & E3)); [by left|]. destruct Hgive as (G1 & G2 & G3).
  rewrite Hr. unfold fits in *. simpl in *.
  repeat (rewrite chk_fits by (unfold fits; simpl in *; lia); cbn -[decide Z.of_nat insert]).
  assert (∀ g', g' ∈ gpus → g' ≠ g) as Hneg by (intros g' ? ->; done).
  destruct gpus as [|g2 gpus].
  { rewrite decide_True by done. do 2 eexists. split; [done|]. split; intros g'; case_decide as Hin.
    - apply elem_of_cons in Hin as [->|?%not_elem_of_nil]; [|done]. by rewrite lookup_insert_eq, Hr.
    - rewrite lookup_insert_ne; [done|]. intros ->. apply Hin. by left.
    - apply elem_of_cons in Hin as [->|?%not_elem_of_nil]; [|done]. by rewrite lookup_insert_eq.
    - rewrite lookup_insert_ne; [done|]. intros ->. apply Hin. by left. }
  rewrite decide_False by (simpl; lia).
  destruct (IH (<[g := minus r give]> self) (<[g := give]> map) (Z.of_nat (length (g :: g2 :: gpus)) - 1)%Z)
    as (self' & map' & Hrun & Hs & Hm); [done| |done|simpl; lia|unfold fits; simpl in *; lia|].
  { intros g' Hin. rewrite lookup_insert_ne by (apply not_eq_sym; by apply Hneg). apply Hel. by right. }
  exists self', map'. split; [exact Hrun|].
  split; intros g'; [rewrite Hs|rewrite Hm]; destruct (decide (g' = g)) as [->|Hne'].
  - rewrite decide_False by done. rewrite decide_True by by left. by rewrite lookup_insert_eq, Hr.
  - rewrite !lookup_insert_ne by done. by destruct (decide (g' ∈ g2 :: gpus)) as [?|?];
      [rewrite decide_True by by right|rewrite decide_False by (rewrite elem_of_cons; tauto)].
  - rewrite decide_False by done. rewrite decide_True by by left. by rewrite lookup_insert_eq.
  - rewrite !lookup_insert_ne by done. by destruct (decide (g' ∈ g2 :: gpus)) as [?|?];
      [rewrite decide_True by by right|rewrite decide_False by (rewrite elem_of_cons; tauto)].
Qed.

(** The state of a node's GPUs: 64-bit counters, never more free slots than
    the capacity. *)
Record wf_gpus (m : GPUResourceMap) : Prop := {
  wf_counters : map_Forall (λ _ r, wf_alloc r) (gmap_of m);
  wf_capacity : map_Forall (λ _ r, slotCnt r ≤ totalSlotCnt m)%Z (gmap_of m);
  wf_total : fits u32 (totalSlotCnt m);
  wf_slotSize : (slotSize m ≠ 0)%Z;
}.

Definition alloc_give (usage : GPUResource) (snap : bool) (slots : Z) : GPUAlloc :=
  MkGPUAlloc (gr_contextCount usage) slots (nccl_need snap (gr_gpuCount usage)).
Definition chosen (self : GPUResourceMap) (usage : GPUResource) (snap : bool) (slots : Z) : list Z :=
  candidates (gr_contextCount usage) (nccl_need snap (gr_gpuCount usage)) slots (gmap_of self).

Lemma chk_id {E} t z : fits t z → chk (E:=E) t z = Ok z.
Proof. apply chk_fits. Qed.

Lemma sub_entry_give give r :
  nonneg give → wf_alloc r → eligible (contextCnt give) (ncclCnt give) (slotCnt give) r →
  sub_entry give (Some r) = Ok (minus r give).
Proof.
  intros Hg (W1 & W2 & W3) (E1 & E2 & E3). unfold sub_entry. rewrite all_nonneg_Ok by done.
  destruct Hg as (G1 & G2 & G3). unfold fits in *. simpl in *.
  repeat (rewrite chk_fits by (unfold fits; simpl in *; lia); cbn -[decide]). done.
Qed.

Lemma add_entry_give total give r :
  nonneg give → wf_alloc r → fits u32 total → (slotCnt r ≤ total)%Z →
  eligible (contextCnt give) (ncclCnt give) (slotCnt give) r →
  add_entry total give (Some (minus r give)) = Ok r.
Proof.
  intros Hg (W1 & W2 & W3) Ht Hle (E1 & E2 & E3). unfold add_entry. rewrite all_nonneg_Ok by done.
  destruct Hg as (G1 & G2 & G3). unfold fits in *. simpl in *. rewrite !Z.sub_add.
  repeat (rewrite chk_fits by (unfold fits; simpl in *; lia); cbn -[decide assert_]).
  unfold assert_. rewrite cast_fits by (unfold fits; simpl; lia). rewrite bool_decide_true by lia.
  cbn -[decide]. repeat (rewrite chk_fits by (unfold fits; simpl in *; lia); cbn -[decide]).
  by destruct r.
Qed.

Lemma GPUResourceMap_eta m : MkGPUResourceMap (totalSlotCnt m) (gmap_of m) (slotSize m) = m.
Proof. by destruct m. Qed.

Section alloc.
Context (self : GPUResourceMap) (usage : GPUResource) (snap : bool) (slots : Z).
Hypothesis (Hwf : wf_gpus self).
Hypothesis (Hcount : (0 < gr_gpuCount usage)%Z) (Hcu : fits u64 (gr_gpuCount usage)).
Hypothesis (Hctx : (0 ≤ gr_contextCount usage)%Z) (Hci : fits i64 (gr_contextCount usage)).
Hypothesis (Hreq : ReqSlotCnt self (gr_vRam usage) = Ok slots) (Hslots : (0 < slots)%Z).

Let give := alloc_give usage snap slots.
Let gpus := take (Z.to_nat (gr_gpuCount usage)) (chosen self usage snap slots).

Lemma give_nonneg : nonneg give.
Proof. unfold give, alloc_give, nonneg, nccl_need. simpl. repeat case_match; lia. Qed.

Lemma gpus_eligible g :
  g ∈ gpus → ∃ r, gmap_of self !! g = Some r ∧ wf_alloc r ∧ (slotCnt r ≤ totalSlotCnt self)%Z ∧
    eligible (contextCnt give) (ncclCnt give) (slotCnt give) r.
Proof.
  intros Hg. apply elem_of_take in Hg as (i & Hi & _). apply list_elem_of_lookup_2 in Hi.
  apply candidates_spec in Hi as (r & Hr & He). exists r. split_and!; [done| | |done].
  - by apply (wf_counters self Hwf g).
  - by apply (wf_capacity self Hwf g).
Qed.

Lemma Alloc_enough :
  Z.to_nat (gr_gpuCount usage) ≤ length (chosen self usage snap slots) →
  ∃ self' a, GPUResourceMap_Alloc self usage snap = Ok (self', a) ∧
    (∀ g, gmap_of a !! g = if decide (g ∈ gpus) then Some give else None) ∧
    GPUResourceMap_Sub self a = Ok self' ∧ GPUResourceMap_Add self' a = Ok self.
Proof.
  intros Hle. pose proof give_nonneg as Hgive.
  assert (length gpus = Z.to_nat (gr_gpuCount usage)) as Hlen by (unfold gpus; rewrite length_take; lia).
  assert (NoDup gpus) as Hnd.
  { unfold gpus. eapply sublist_NoDup; [apply (NoDup_candidates)|]. apply sublist_take. }
  destruct (alloc_loop_spec give gpus (gmap_of self) ∅ (gr_gpuCount usage)) as (m & am & Hrun & Hm & Ham); try done.
  { intros g (r & ? & ? & _ & ?)%gpus_eligible. eauto. }
  { intros Hnil. rewrite Hnil in Hlen. simpl in Hlen. lia. }
  { lia. }
  exists (MkGPUResourceMap (totalSlotCnt self) m (slotSize self)),
    (MkGPUResourceMap (totalSlotCnt self) am (slotSize self)).
  split; [|split_and!].
  - unfold GPUResourceMap_Alloc. rewrite (GPUResourceMap_CanAlloc_spec _ _ _ slots) by done.
    rewrite cast_fits by done. fold (chosen self usage snap slots). cbn -[decide take alloc_loop cast].
    rewrite decide_True by done. fold gpus. rewrite decide_False by lia. rewrite Hreq.
    cbn -[decide alloc_loop cast]. rewrite bool_decide_true by lia. cbn -[decide alloc_loop cast].
    assert (MkGPUAlloc (gr_contextCount usage) slots
      (if snap then 1%Z else if decide (gr_gpuCount usage = 1)%Z then 0%Z else 1%Z) = give) as ->.
    { unfold give, alloc_give, nccl_need. repeat case_match; try done; lia. }
    by rewrite Hrun.
  - intros g. simpl. rewrite Ham. by rewrite lookup_empty.
  - unfold GPUResourceMap_Sub. simpl. unfold assert_.
    rewrite (bool_decide_true (slotSize self = slotSize self)) by done. rewrite orb_true_r. cbn -[update_loop].
    destruct (update_entries_Ok sub_entry (gmap_of self) am
      (λ g, default give ((λ r, minus r give) <$> gmap_of self !! g))) as (m' & -> & Hm').
    { intros g r. rewrite Ham, lookup_empty. case_decide as Hin; [|done]. intros [= <-].
      destruct (gpus_eligible g Hin) as (r & Hr & ? & _ & ?). rewrite Hr. by apply sub_entry_give. }
    cbn. do 2 f_equal. apply map_eq. intros g. rewrite Hm', Ham, Hm, lookup_empty.
    case_decide as Hin; [|done]. destruct (gpus_eligible g Hin) as (r & -> & _). done.
  - unfold GPUResourceMap_Add. simpl. rewrite decide_False by apply (wf_slotSize self Hwf).
    destruct (update_entries_Ok (add_entry (totalSlotCnt self)) m am
      (λ g, default give (gmap_of self !! g))) as (m' & -> & Hm').
    { intros g r. rewrite Ham, lookup_empty. case_decide as Hin; [|done]. intros [= <-].
      destruct (gpus_eligible g Hin) as (r & Hr & ? & ? & ?). rewrite Hm, decide_True, Hr by done. simpl.
      apply add_entry_give; try done. apply (wf_total self Hwf). }
    cbn. rewrite <-(GPUResourceMap_eta self) at 3. do 2 f_equal. apply map_eq. intros g.
    rewrite Hm', Ham, Hm, lookup_empty. case_decide as Hin; [|done].
    destruct (gpus_eligible g Hin) as (r & Hr & _). by rewrite Hr.
Qed.

Lemma Alloc_not_enough :
  length (chosen self usage snap slots) < Z.to_nat (gr_gpuCount usage) →
  GPUResourceMap_Alloc self usage snap = Err (SchedulerNoEnoughResource "").
Proof.
  intros Hlt. unfold GPUResourceMap_Alloc. rewrite (GPUResourceMap_CanAlloc_spec _ _ _ slots) by done.
  rewrite cast_fits by done. fold (chosen self usage snap slots). cbn -[decide take]. by rewrite decide_False by lia.
Qed.
End alloc.

(** ** Slots for an amount of memory *)

Lemma ReqSlotCnt_fits self vRam :
  (0 ≤ vRam)%Z → (0 < slotSize self)%Z → fits u64 (vRam * 1024 * 1024 + slotSize self)%Z →
  ReqSlotCnt self vRam = Ok (cast u32 ((vRam * 1024 * 1024 + slotSize self - 1) / slotSize self))%Z.
Proof.
  intros H0 Hs Hfit. unfold fits in Hfit. simpl in Hfit. unfold ReqSlotCnt.
  repeat (rewrite chk_fits by (unfold fits; simpl; lia); cbn -[decide cast Z.mul Z.div]).
  by rewrite decide_False by lia.
Qed.

Lemma ceil_div_least a b : (0 ≤ a)%Z → (0 < b)%Z →
  (a ≤ (a + b - 1) / b * b)%Z ∧ ∀ n, (a ≤ n * b)%Z → ((a + b - 1) / b ≤ n)%Z.
Proof.
  intros Ha Hb. pose proof (Z.div_mod (a + b - 1) b ltac:(lia)) as Hdm.
  pose proof (Z.mod_pos_bound (a + b - 1) b Hb). split; [nia|].
  intros n Hn. apply Z.lt_succ_r. apply Z.div_lt_upper_bound; nia.
Qed.

(** ** Numbering the GPUs of a map *)

Lemma VirtToPhy_foldl (l : list Z) (m : gmap Z Z) i v :
  (foldl (λ '(map, vGpu) pGpu, (<[vGpu := pGpu]> map, (vGpu + 1)%Z)) (m, i) l).1 !! v =
  if decide (i ≤ v < i + Z.of_nat (length l))%Z then l !! Z.to_nat (v - i) else m !! v.
Proof.
  revert m i. induction l as [|p l IH]; intros m i; simpl.
  { by rewrite decide_False by lia. }
  rewrite IH. destruct (decide (v = i)) as [->|Hne].
  - rewrite decide_False by lia. rewrite decide_True by lia. rewrite lookup_insert_eq, Z.sub_diag. done.
  - rewrite lookup_insert_ne by done. repeat case_decide; try lia; [|done].
    replace (Z.to_nat (v - i)) with (S (Z.to_nat (v - (i + 1)))) by lia. done.
Qed.

Lemma PhyToVirt_foldl (l : list Z) (m : gmap Z Z) i p v :
  NoDup l → (∀ q, q ∈ l → m !! q = None) →
  (foldl (λ '(map, vGpu) pGpu, (<[pGpu := vGpu]> map, (vGpu + 1)%Z)) (m, i) l).1 !! p = Some v ↔
  m !! p = Some v ∨ (i ≤ v)%Z ∧ l !! Z.to_nat (v - i) = Some p.
Proof.
  revert m i. induction l as [|q l IH]; intros m i Hnd Hm; simpl.
  { split; [by left|]. intros [?|[_ ?]]; [done|]. by rewrite lookup_nil in *. }
  apply NoDup_cons in Hnd as [Hq Hnd]. rewrite IH; [|done|].
  2:{ intros q' Hq'. rewrite lookup_insert_ne by (by intros ->). apply Hm. by right. }
  destruct (decide (p = q)) as [->|Hne].
  - rewrite lookup_insert_eq. assert (m !! q = None) as -> by (apply Hm; by left). split.
    + intros [[= <-]|[Hv Hl]]; right; [split; [lia|by rewrite Z.sub_diag]|].
      by apply list_elem_of_lookup_2 in Hl.
    + intros [?|[Hv Hl]]; [done|]. left. f_equal. destruct (Z.to_nat (v - i)) as [|n] eqn:Hn; [lia|].
      simpl in Hl. by apply list_elem_of_lookup_2 in Hl.
  - rewrite lookup_insert_ne by done. split; (intros [?|[Hv Hl]]; [by left|right]).
    + split; [lia|]. by replace (Z.to_nat (v - i)) with (S (Z.to_nat (v - (i + 1)))) by lia.
    + destruct (decide (v = i)) as [->|?]; [rewrite Z.sub_diag in Hl; by injection Hl as ->|].
      split; [lia|]. by replace (Z.to_nat (v - i)) with (S (Z.to_nat (v - (i + 1)))) in Hl by lia.
Qed.

(** ** The array form *)

Definition slots_at (l : list (Z * GPUAlloc)) (i : nat) : option Z :=
  slotCnt <$> ((list_to_map l : gmap Z GPUAlloc) !! Z.of_nat i).

Lemma to_info_loop l (acc : list Z) :
  NoDup l.*1 → (Z.of_nat (length acc) ≤ ty_max usize)%Z →
  Forall (λ p, 0 ≤ p.1 < Z.of_nat (length acc) ∧ 0 ≤ slotCnt p.2 ≤ ty_max u32)%Z l →
  ∃ acc', foldlM info_step acc l = Ok acc' ∧ length acc' = length acc ∧
    ∀ i, i < length acc → acc' !! i = match slots_at l i with Some s => Some s | None => acc !! i end.
Proof.
  revert acc. induction l as [|[g r] l IH]; intros acc Hnd Hlen Hall.
  { exists acc. split; [done|]. split; [done|]. intros i _. unfold slots_at. simpl. by rewrite lookup_empty. }
  apply Forall_cons in Hall as [[Hg Hs] Hall]. simpl in Hg, Hs, Hnd, Hlen. apply NoDup_cons in Hnd as [Hgl Hnd].
  assert (info_step acc (g, r) = Ok (<[Z.to_nat g := slotCnt r]> acc)) as Hstep.
  { unfold info_step, assert_. rewrite bool_decide_true by (simpl; lia).
    cbn -[decide cast length insert]. rewrite !cast_fits by (unfold fits; simpl; lia). by rewrite decide_True by lia. }
  cbn [foldlM]. rewrite Hstep. cbn [mbind outcome_bind].
  destruct (IH (<[Z.to_nat g := slotCnt r]> acc)) as (acc' & Hrun & Hlen' & Hl'); [done|..].
  { by rewrite length_insert. }
  { by rewrite length_insert. }
  exists acc'. rewrite Hlen', length_insert. split_and!; [done|done|].
  intros i Hi. rewrite Hl' by by rewrite length_insert. unfold slots_at. simpl.
  destruct (decide (Z.of_nat i = g)) as [Heq|Hne].
  - rewrite Heq, lookup_insert_eq. rewrite not_elem_of_list_to_map_1 by done. simpl.
    rewrite <-Heq, Nat2Z.id. by rewrite list_lookup_insert_eq.
  - rewrite lookup_insert_ne by done. destruct (_ !! Z.of_nat i) eqn:E; [done|]. simpl.
    rewrite list_lookup_insert_ne by lia. done.
Qed.

Lemma of_info_foldl nccl (l : list Z) i (m : gmap Z GPUAlloc) g :
  (foldl (λ m '(i, c), if decide (0 < c)%Z then <[Z.of_nat i := MkGPUAlloc 1 c nccl]> m else m)
    m (imap (λ j c, (i + j, c)) l)) !! g =
  if decide (Z.of_nat i ≤ g < Z.of_nat (i + length l))%Z then
    match l !! Z.to_nat (g - Z.of_nat i) with
    | Some c => if decide (0 < c)%Z then Some (MkGPUAlloc 1 c nccl) else m !! g
    | None => m !! g
    end
  else m !! g.
Proof.
  revert i m. induction l as [|c l IH]; intros i m; simpl.
  { by rewrite decide_False by lia. }
  rewrite Nat.add_0_r.
  assert (imap ((λ (j : nat) (c0 : Z), (i + j, c0)) ∘ S) l = imap (λ j c, (S i + j, c)) l) as ->.
  { apply imap_ext. intros j x _. simpl. f_equal. lia. }
  rewrite IH. destruct (decide (g = Z.of_nat i)) as [->|Hne].
  - rewrite Z.sub_diag. change ((c :: l) !! Z.to_nat 0) with (Some c). cbn iota beta.
    repeat case_decide; try lia; [by rewrite lookup_insert_eq|done].
  - assert ((if decide (0 < c)%Z then <[Z.of_nat i:=MkGPUAlloc 1 c nccl]> m else m) !! g = m !! g) as ->.
    { case_decide; [by rewrite lookup_insert_ne|done]. }
    repeat case_decide; try lia; try done.
    by replace (Z.to_nat (g - Z.of_nat i)) with (S (Z.to_nat (g - Z.of_nat (S i)))) by lia.
Qed.

Lemma of_info_lookup i g :
  slotCnt <$> gmap_of (of_info i) !! g =
  if decide (0 ≤ g)%Z then
    match info_map i !! Z.to_nat g with
    | Some c => if decide (0 < c)%Z then Some c else None
    | None => None
    end
  else None.
Proof.
  unfold of_info. simpl.
  pose proof (of_info_foldl (if 1 <? length (filter (λ c, 0 < c)%Z (info_map i)) then 1%Z else 0%Z) (info_map i) 0 ∅ g) as H.
  simpl in H. rewrite H, Z.sub_0_r, lookup_empty. clear H.
  destruct (decide (0 ≤ g)%Z); [|by rewrite decide_False by lia].
  destruct (info_map i !! Z.to_nat g) eqn:E.
  - apply lookup_lt_Some in E. rewrite decide_True by lia. by case_decide.
  - by case_decide.
Qed.

(** ** Allocation on a node *)

Section node_alloc.
Context (n : NodeResources) (req : Resources) (snap : bool) (slots : Z).
Hypothesis (Hwf : wf_gpus (nr_gpus n)).
Hypothesis (Hmem : fits i64 (nr_memory n)) (Hcache : fits i64 (nr_cacheMemory n)).
Hypothesis (Hrm : (0 ≤ rs_memory req)%Z) (Hrmf : fits i64 (rs_memory req)).
Hypothesis (Hrc : (0 ≤ rs_cacheMemory req)%Z) (Hrcf : fits i64 (rs_cacheMemory req)).
Hypothesis (Hcount : (0 < gr_gpuCount (rs_gpu req))%Z) (Hcu : fits u64 (gr_gpuCount (rs_gpu req))).
Hypothesis (Hctx : (0 ≤ gr_contextCount (rs_gpu req))%Z) (Hci : fits i64 (gr_contextCount (rs_gpu req))).
Hypothesis (Hreq : ReqSlotCnt (nr_gpus n) (gr_vRam (rs_gpu req)) = Ok slots) (Hslots : (0 < slots)%Z).

Definition node_state : AllocState :=
  MkAllocState
    (bool_decide (nr_cpu n >= cast i64 (rs_cpu req))%Z)
    (bool_decide (nr_memory n >= rs_memory req)%Z)
    (bool_decide (nr_cacheMemory n >= rs_cacheMemory req)%Z)
    (GPUType_CanAlloc (nr_gpuType n) (gr_type (rs_gpu req)))
    (bool_decide (Z.to_nat (gr_gpuCount (rs_gpu req)) ≤ length (chosen (nr_gpus n) (rs_gpu req) snap slots))).

Lemma Node_CanAlloc_state : Node_CanAlloc n req snap = Ok node_state.
Proof.
  unfold Node_CanAlloc. rewrite (GPUResourceMap_CanAlloc_spec _ _ _ slots) by done.
  rewrite (cast_fits _ (gr_contextCount _)), (cast_fits _ (rs_memory _)), (cast_fits _ (rs_cacheMemory _)) by done.
  cbn -[decide take bool_decide cast]. unfold node_state, chosen.
  do 2 f_equal. apply bool_decide_ext. case_decide; split; [done|by eexists|by intros []|done].
Qed.

Lemma Node_Alloc_fail : AllocState_Ok node_state = false →
  Node_Alloc n req snap = Err (Share.ScheduleFail node_state).
Proof. intros Hs. unfold Node_Alloc. rewrite Node_CanAlloc_state. cbn -[node_state]. by rewrite Hs. Qed.

Lemma Node_Alloc_ok : AllocState_Ok node_state = true →
  ∃ n' a, Node_Alloc n req snap = Ok (n', a) ∧
    nr_memory a = rs_memory req ∧ nr_cacheMemory a = rs_cacheMemory req ∧
    size (gmap_of (nr_gpus a)) = Z.to_nat (gr_gpuCount (rs_gpu req)) ∧
    NodeResources_Sub n a = Ok n' ∧ NodeResources_Add n' a = Ok n.
Proof.
  intros Hs. unfold Node_Alloc. rewrite Node_CanAlloc_state. cbn -[node_state cast GPUResourceMap_Alloc].
  rewrite Hs. unfold AllocState_Ok in Hs. cbn -[cast GPUResourceMap_Alloc].
  apply andb_true_iff in Hs as [Hs Hg%bool_decide_eq_true]. apply andb_true_iff in Hs as [Hs _].
  apply andb_true_iff in Hs as [Hs Hc%bool_decide_eq_true]. apply andb_true_iff in Hs as [_ Hm%bool_decide_eq_true].
  destruct (Alloc_enough (nr_gpus n) (rs_gpu req) snap slots Hwf Hcount Hcu Hctx Hci Hreq Hslots Hg)
    as (g' & a & Halloc & Ha & Hsub & Hadd).
  assert (size (gmap_of a) = Z.to_nat (gr_gpuCount (rs_gpu req))) as Hsize.
  { set (gs := take _ _) in Ha.
    assert (gmap_of a = list_to_map ((λ g, (g, alloc_give (rs_gpu req) snap slots)) <$> gs)) as ->.
    { apply map_eq. intros g. rewrite Ha. symmetry. case_decide as Hin.
      - apply elem_of_list_to_map_1'; [|by apply list_elem_of_fmap; eauto].
        intros y (g2 & [= <- <-] & _)%list_elem_of_fmap. done.
      - apply not_elem_of_list_to_map_1. intros (p & -> & (g2 & -> & ?)%list_elem_of_fmap)%list_elem_of_fmap. done. }
    rewrite map_size_list_to_map.
    - rewrite length_fmap. unfold gs. rewrite length_take. lia.
    - rewrite <-list_fmap_compose. cbn. rewrite list_fmap_id. unfold gs.
      eapply sublist_NoDup; [apply NoDup_candidates|apply sublist_take]. }
  rewrite (cast_fits _ (rs_memory _)), (cast_fits _ (rs_cacheMemory _)) by done.
  unfold fits in *. simpl in *.
  do 2 (rewrite chk_fits by (unfold fits; simpl; lia); cbn -[cast GPUResourceMap_Alloc]).
  rewrite Halloc. cbn -[cast]. do 2 eexists. split; [reflexivity|]. simpl. split_and!; try done.
  - unfold NodeResources_Sub. simpl.
    do 2 (rewrite chk_fits by (unfold fits; simpl; lia); cbn -[GPUResourceMap_Sub]). by rewrite Hsub.
  - unfold NodeResources_Add. simpl. rewrite bool_decide_true by done. cbn -[GPUResourceMap_Add]. rewrite Hadd.
    cbn. rewrite !Z.sub_add. do 2 (rewrite chk_fits by (unfold fits; simpl; lia); cbn). by destruct n.
Qed.
End node_alloc.

(** ** Properties *)

(** GPU allocation.  With valid counters and a request for [gpuCount > 0]
    GPUs needing [slots] slots each: if at least [gpuCount] GPUs are eligible
    (enough slots, contexts and NCCL shares) and [slots > 0], exactly the first
    [gpuCount] eligible GPUs in id order are taken, the new state is the old one
    minus the allocation, and freeing it restores the old state; if too few are
    eligible it fails with [SchedulerNoEnoughResource]; and a request for no
    memory that [CanAlloc] approves panics. *)
Theorem gpu_alloc (self : GPUResourceMap) (usage : GPUResource) (snap : bool) (slots : Z) :
  wf_gpus self → (0 < gr_gpuCount usage)%Z → fits u64 (gr_gpuCount usage) →
  (0 ≤ gr_contextCount usage)%Z → fits i64 (gr_contextCount usage) →
  ReqSlotCnt self (gr_vRam usage) = Ok slots →
  let n := Z.to_nat (gr_gpuCount usage) in
  let eligible_gpus := chosen self usage snap slots in
  if decide (length eligible_gpus < n)
  then GPUResourceMap_Alloc self usage snap = Err (SchedulerNoEnoughResource "")
  else if decide (0 < slots)%Z then
    ∃ self' a, GPUResourceMap_Alloc self usage snap = Ok (self', a) ∧
      (∀ g, gmap_of a !! g = if decide (g ∈ take n eligible_gpus) then Some (alloc_give usage snap slots) else None) ∧
      GPUResourceMap_Sub self a = Ok self' ∧ GPUResourceMap_Add self' a = Ok self
  else ∃ why, GPUResourceMap_Alloc self usage snap = Panic why.
Proof.
  intros Hwf Hc Hcu Hx Hxi Hreq n e. case_decide as Hlt.
  { by apply (Alloc_not_enough _ _ _ slots). }
  case_decide as Hs; [apply Alloc_enough; try done; unfold n, e in Hlt; lia|].
  unfold GPUResourceMap_Alloc. rewrite (GPUResourceMap_CanAlloc_spec _ _ _ slots) by done.
  rewrite cast_fits by done. fold (chosen self usage snap slots). cbn -[decide take alloc_loop cast].
  unfold n, e in Hlt. rewrite decide_True by lia. rewrite decide_False by lia. rewrite Hreq. cbn -[decide alloc_loop cast].
  unfold assert_. rewrite bool_decide_false by lia. cbn. eauto.
Qed.

Definition sample_gpus : GPUResourceMap :=
  MkGPUResourceMap 320 (list_to_map [(0%Z, MkGPUAlloc 1 320 1); (1%Z, MkGPUAlloc 1 40 1); (2%Z, MkGPUAlloc 1 320 1)]) 268435456.

Lemma sample_gpus_wf : wf_gpus sample_gpus.
Proof.
  constructor.
  - intros g r. cbn [sample_gpus gmap_of]. intros Hg%elem_of_list_to_map_2.
    repeat (apply elem_of_cons in Hg as [[= -> ->]|Hg]; [by vm_compute|]). by apply not_elem_of_nil in Hg.
  - intros g r. cbn [sample_gpus gmap_of]. intros Hg%elem_of_list_to_map_2.
    repeat (apply elem_of_cons in Hg as [[= -> ->]|Hg]; [by vm_compute|]). by apply not_elem_of_nil in Hg.
  - by vm_compute.
  - done.
Qed.

Lemma gpu_alloc_witness :
  ∃ self' a, GPUResourceMap_Alloc sample_gpus (MkGPUResource "Any" 2 14000 1) false = Ok (self', a) ∧
    GPUResourceMap_Sub sample_gpus a = Ok self' ∧ GPUResourceMap_Add self' a = Ok sample_gpus.
Proof.
  assert (ReqSlotCnt sample_gpus 14000 = Ok 55%Z) as Hreq by by vm_compute.
  pose proof (gpu_alloc sample_gpus (MkGPUResource "Any" 2 14000 1) false 55 sample_gpus_wf) as H.
  assert (chosen sample_gpus (MkGPUResource "Any" 2 14000 1) false 55 = [0%Z; 2%Z]) as Hch by by vm_compute.
  cbn zeta in H. rewrite Hch in H. rewrite decide_False in H by (simpl; lia). rewrite decide_True in H by lia.
  destruct H as (self' & a & ? & _ & ? & ?); [by vm_compute..|]. by exists self', a.
Defined.

(** The slots charged for [vRam] megabytes are the least number whose memory
    covers it, as long as the byte sum fits 64 bits and the quotient 32 bits
    (beyond that the conversion keeps the low 32 bits); with a slot size of 0
    the computation panics. *)
Theorem req_slot_count (self : GPUResourceMap) (vRam : Z) :
  (0 ≤ vRam)%Z → (0 ≤ slotSize self)%Z → fits u64 (vRam * 1024 * 1024 + slotSize self)%Z →
  if decide (slotSize self = 0)%Z then ∃ why, ReqSlotCnt self vRam = Panic why
  else
    let q := ((vRam * 1024 * 1024 + slotSize self - 1) / slotSize self)%Z in
    ReqSlotCnt self vRam = Ok (cast u32 q) ∧
    (vRam * 1024 * 1024 ≤ q * slotSize self)%Z ∧
    (∀ n, (vRam * 1024 * 1024 ≤ n * slotSize self)%Z → (q ≤ n)%Z) ∧
    ((q ≤ ty_max u32)%Z → cast u32 q = q).
Proof.
  intros H0 Hs Hfit. case_decide as Hz.
  - unfold ReqSlotCnt. rewrite Hz in *. unfold fits in Hfit. simpl in Hfit.
    do 3 (rewrite chk_fits by (unfold fits; simpl; lia); cbn -[Z.mul]).
    unfold chk. destruct (decide (fits _ _)); cbn -[decide]; [rewrite decide_True by done|]; eauto.
  - cbn zeta. destruct (ceil_div_least (vRam * 1024 * 1024) (slotSize self)) as [Hup Hleast]; [lia..|].
    split_and!; [by apply ReqSlotCnt_fits; try lia|done|done|].
    intros Hle. apply cast_fits. unfold fits. split; [|done]. simpl. apply Z.div_pos; lia.
Qed.

Lemma req_slot_count_witness :
  ReqSlotCnt sample_gpus 14000 = Ok 55%Z ∧ (14000 * 1024 * 1024 ≤ 55 * 268435456)%Z.
Proof.
  pose proof (req_slot_count sample_gpus 14000 ltac:(lia) ltac:(by vm_compute) ltac:(by vm_compute)) as H.
  rewrite decide_False in H by done. destruct H as (H1 & H2 & _). by vm_compute in H1.
Defined.

(** The virtual numbering of a map's GPUs is the position in id order, and
    [VirtToPhy] and [PhyToVirt] are inverse to each other. *)
Theorem gpu_numbering (self : GPUResourceMap) (v p : Z) :
  (VirtToPhy self !! v = Some p ↔ (0 ≤ v)%Z ∧ Gpus self !! Z.to_nat v = Some p) ∧
  (VirtToPhy self !! v = Some p ↔ PhyToVirt self !! p = Some v).
Proof.
  assert (VirtToPhy self !! v = Some p ↔ (0 ≤ v)%Z ∧ Gpus self !! Z.to_nat v = Some p) as Hv.
  { unfold VirtToPhy, Gpus. rewrite VirtToPhy_foldl, Z.sub_0_r, lookup_empty. case_decide as Hr.
    - split; [intros; split; [lia|done]|by intros []].
    - split; [done|]. intros [? Hl%lookup_lt_Some]. lia. }
  split; [done|]. rewrite Hv. unfold PhyToVirt, Gpus.
  rewrite PhyToVirt_foldl, Z.sub_0_r, lookup_empty; [|apply NoDup_keys|by intros; apply lookup_empty].
  split; [by right|by intros [?|?]].
Qed.

(** A map whose GPU ids are below [MAX_GPU_COUNT] and whose slot counts are
    32-bit values survives the exchange with the runtime's array form: the same
    GPUs come back with the same slots (a GPU without slots is dropped). *)
Theorem gpu_info_roundtrip (self : GPUResourceMap) :
  map_Forall (λ g r, 0 ≤ g < 8 ∧ 0 ≤ slotCnt r ≤ ty_max u32)%Z (gmap_of self) →
  ∃ info, to_info self = Ok info ∧ length (info_map info) = MAX_GPU_COUNT ∧
    totalSlotCnt (of_info info) = totalSlotCnt self ∧ slotSize (of_info info) = slotSize self ∧
    ∀ g, slotCnt <$> gmap_of (of_info info) !! g =
      match gmap_of self !! g with
      | Some r => if decide (0 < slotCnt r)%Z then Some (slotCnt r) else None
      | None => None
      end.
Proof.
  intros Hall. unfold to_info.
  destruct (to_info_loop (entries (gmap_of self)) (replicate MAX_GPU_COUNT 0%Z)) as (m & -> & Hlen & Hm).
  { apply NoDup_keys. }
  { done. }
  { apply Forall_forall. intros [g r] Hg%elem_of_entries. apply Hall in Hg. simpl in *. lia. }
  cbn -[of_info]. eexists. split; [done|]. split_and!; [done|done|done|].
  intros g. rewrite of_info_lookup. simpl info_map. rewrite length_replicate in Hm.
  destruct (decide (0 ≤ g < 8)%Z) as [Hg|Hg].
  - rewrite decide_True by lia. rewrite Hm by (unfold MAX_GPU_COUNT; lia).
    rewrite lookup_replicate_2 by (unfold MAX_GPU_COUNT; lia).
    unfold slots_at. rewrite list_to_map_entries, Z2Nat.id by lia. by destruct (gmap_of self !! g).
  - destruct (gmap_of self !! g) as [r|] eqn:Hr; [by apply Hall in Hr as [? _]|].
    case_decide; [|done]. rewrite lookup_ge_None_2; [done|]. rewrite Hlen, length_replicate. unfold MAX_GPU_COUNT. lia.
Qed.

Lemma gpu_info_roundtrip_witness :
  ∃ info, to_info sample_gpus = Ok info ∧ slotCnt <$> gmap_of (of_info info) !! 2%Z = Some 320%Z.
Proof.
  destruct (gpu_info_roundtrip sample_gpus) as (info & H & _ & _ & _ & Hg).
  { intros g r Hgr%elem_of_list_to_map_2. repeat (apply elem_of_cons in Hgr as [[= -> ->]|Hgr]; [by vm_compute|]).
    by apply not_elem_of_nil in Hgr. }
  exists info. split; [done|]. by rewrite (Hg 2%Z).
Defined.

(** Allocation on a node: with valid counters and a request whose quantities
    are 64-bit, [Alloc] fails exactly when some component of [CanAlloc] is
    false, with that state and no other error; otherwise it hands out the
    requested memory, cache and number of GPUs, leaves the node minus that
    allocation, and adding the allocation back restores the node. *)
Theorem node_alloc (n : NodeResources) (req : Resources) (snap : bool) (slots : Z) :
  wf_gpus (nr_gpus n) → fits i64 (nr_memory n) → fits i64 (nr_cacheMemory n) →
  (0 ≤ rs_memory req)%Z → fits i64 (rs_memory req) →
  (0 ≤ rs_cacheMemory req)%Z → fits i64 (rs_cacheMemory req) →
  (0 < gr_gpuCount (rs_gpu req))%Z → fits u64 (gr_gpuCount (rs_gpu req)) →
  (0 ≤ gr_contextCount (rs_gpu req))%Z → fits i64 (gr_contextCount (rs_gpu req)) →
  ReqSlotCnt (nr_gpus n) (gr_vRam (rs_gpu req)) = Ok slots → (0 < slots)%Z →
  ∃ st, Node_CanAlloc n req snap = Ok st ∧
  if AllocState_Ok st then
    ∃ n' a, Node_Alloc n req snap = Ok (n', a) ∧
      nr_memory a = rs_memory req ∧ nr_cacheMemory a = rs_cacheMemory req ∧
      size (gmap_of (nr_gpus a)) = Z.to_nat (gr_gpuCount (rs_gpu req)) ∧
      NodeResources_Sub n a = Ok n' ∧ NodeResources_Add n' a = Ok n
  else Node_Alloc n req snap = Err (Share.ScheduleFail st).
Proof.
  intros. exists (node_state n req snap slots). split; [by apply Node_CanAlloc_state|].
  destruct (AllocState_Ok _) eqn:Hs; [by apply (Node_Alloc_ok _ _ _ slots)|by apply Node_Alloc_fail].
Qed.

Definition sample_node : NodeResources := MkNodeResources "node1" 8000 65536 32768 "A100" sample_gpus 2.
Definition sample_req : Resources := MkResources 1000 4096 0 1024 (MkGPUResource "Any" 2 14000 1).

Lemma node_alloc_witness :
  ∃ n' a, Node_Alloc sample_node sample_req false = Ok (n', a) ∧ nr_memory a = 4096%Z ∧
    NodeResources_Add n' a = Ok sample_node.
Proof.
  destruct (node_alloc sample_node sample_req false 55) as (st & Hst & H);
    [apply sample_gpus_wf|by vm_compute..|].
  assert (AllocState_Ok st = true) as Hs.
  { assert (Node_CanAlloc sample_node sample_req false = Ok (MkAllocState true true true true true)) as E by by vm_compute.
    rewrite E in Hst. by injection Hst as <-. }
  rewrite Hs in H. destruct H as (n' & a & ? & ? & _ & _ & _ & ?). by exists n', a.
Defined.
