(* ===== verification/DataObj.v ===== *)
(** * Data objects and the in-memory object store (inferxlib/src/data_obj.rs)

    [DataObjectMgr] is an [Arc<Mutex<..>>] around a map: an operation is
    modelled as a function on the map held while the lock is taken.  The
    conversion to and from [serde_json::Value] is the class [Serde]. *)

From S2P Require Import Prelude.
From S2P Require Import Text.
From S2P Require Import BTree.
From S2P Require Import Common.
From S2P Require Import Selector.

(** inferxlib/src/data_obj.rs:34-41 [EventType] *)
Inductive EventType :=
| ENone | EAdded | EModified | EDeleted | EInitDone | EError (msg : string).
#[global] Instance EventType_eq_dec : EqDecision EventType.
Proof. solve_decision. Defined.
(** inferxlib/src/data_obj.rs:44-53 [EventType::DeepCopy] *)
Definition EventType_DeepCopy (self : EventType) : EventType :=
  match self with
  | ENone => ENone | EAdded => EAdded | EModified => EModified | EDeleted => EDeleted
  | EInitDone => EInitDone | EError str => EError str
  end.

(** inferxlib/src/data_obj.rs:100-126 [DataObject] *)
Record DataObject (T : Type) := MkDataObject {
  objType : string;
  tenant : string;
  namespace : string;
  name : string;
  labels : Labels;
  annotations : Labels;
  channelRev : Z;
  srcEpoch : Z;
  revision : Z;
  object : T;
}.
Arguments MkDataObject {T}.
Arguments objType {T}. Arguments tenant {T}. Arguments namespace {T}. Arguments name {T}.
Arguments labels {T}. Arguments annotations {T}. Arguments channelRev {T}. Arguments srcEpoch {T}.
Arguments revision {T}. Arguments object {T}.
#[global] Instance DataObject_eq_dec `{EqDecision T} : EqDecision (DataObject T).
Proof. solve_decision. Defined.

(** inferxlib/src/data_obj.rs:150-153 [EpochRevision] *)
Record EpochRevision := MkEpochRevision { er_srcEpoch : Z; er_revision : Z }.
#[global] Instance EpochRevision_eq_dec : EqDecision EpochRevision.
Proof. solve_decision. Defined.

(** [serde_json::from_value] and [serde_json::to_value] *)
Class Serde (Value T : Type) := {
  from_value : Value → Result T;
  to_value : T → Value;
}.
(** Documented behaviour: a value serialized from a [T] reads back. *)
Class SerdeSpec (Value T : Type) `{Serde Value T} : Prop :=
  from_to_value (t : T) : from_value (to_value t) = Ok t.

Section object.
Context {T : Type}.
Implicit Types (o : DataObject T).

Definition with_object {U} o (u : U) : DataObject U :=
  MkDataObject (objType o) (tenant o) (namespace o) (name o) (labels o) (annotations o)
    (channelRev o) (srcEpoch o) (revision o) u.

(** inferxlib/src/data_obj.rs:183-196 [DataObject::CopyWithRev] *)
Definition CopyWithRev o (channelRev revision : Z) : DataObject T :=
  MkDataObject (objType o) (tenant o) (namespace o) (name o)
    (Labels_Copy (labels o)) (Labels_Copy (annotations o)) channelRev (srcEpoch o) revision (object o).

(** [format!("{}/{}/{}", ..)] *)
Definition key_of (tenant namespace name : string) : string :=
  tenant +:+ String "/" (namespace +:+ String "/" name).
(** inferxlib/src/data_obj.rs:214-216 [DataObject::Key] *)
Definition Key o : string := key_of (tenant o) (namespace o) (name o).
(** inferxlib/src/data_obj.rs:218-223 [DataObject::Objectkey] *)
Definition Objectkey o : string := Key o +:+ "/" +:+ pretty (revision o).
(** inferxlib/src/data_obj.rs:225-230 [DataObject::StoreKey] *)
Definition StoreKey o : string := objType o +:+ String "/" (Key o).
(** inferxlib/src/data_obj.rs:232-237 [DataObject::EpochRevision] *)
Definition EpochRevision_of o : EpochRevision := MkEpochRevision (srcEpoch o) (revision o).
(** inferxlib/src/data_obj.rs:250-263 [DataObject::DeepCopy] *)
Definition DataObject_DeepCopy o : DataObject T :=
  MkDataObject (objType o) (tenant o) (namespace o) (name o)
    (Labels_Copy (labels o)) (Labels_Copy (annotations o)) (channelRev o) (srcEpoch o) (revision o) (object o).
End object.

Section serde.
Context {Value T : Type} `{Serde Value T}.

(** inferxlib/src/data_obj.rs:129-146 [DataObject::To] *)
Definition To (o : DataObject Value) : Result (DataObject T) :=
  t ← from_value (object o); Ok (with_object o t).
(** inferxlib/src/data_obj.rs:162-164 [DataObject::FromDataObject] *)
Definition FromDataObject (obj : DataObject Value) : Result (DataObject T) := To obj.
(** inferxlib/src/data_obj.rs:166-181 [DataObject::DataObject] *)
Definition DataObject_of (o : DataObject T) : DataObject Value := with_object o (to_value (object o)).
End serde.

(** The characters [validate_name] accepts. *)
Definition ascii_alnum (c : ascii) : bool :=
  let n := nat_of_ascii c in
  (48 <=? n) && (n <=? 57) || (65 <=? n) && (n <=? 90) || (97 <=? n) && (n <=? 122).
(** inferxlib/src/data_obj.rs:83-98 [validate_name] *)
Definition validate_name (s : string) : Result string :=
  if forallb (λ b, ascii_alnum b || bool_decide (b = "-"%char) || bool_decide (b = "_"%char)
                   || bool_decide (b = "."%char)) (chars s)
  then Ok s
  else Err (SerdeJsonError "invalid characters: only 0-9, a-z, A-Z, '-', '_' and '.' allowed").

(** ** The object store *)

Section mgr.
Context {T : Type}.
(** [DataObjectMgrInner::objs] *)
Implicit Types (objs : gmap string (DataObject T)) (obj : DataObject T).

(** inferxlib/src/data_obj.rs:287-290 [DataObjectMgr::Contains] *)
Definition Contains objs (tenant namespace name : string) : bool :=
  bool_decide (is_Some (objs !! key_of tenant namespace name)).

(** [start] of the range scans *)
Definition scan_start (tenant namespace : string) : string :=
  if 0 <? len tenant then
    if 0 <? len namespace then tenant +:+ String "/" (namespace +:+ "/") else tenant +:+ "/"
  else "".
Definition prefix_start (tenant namespace nameprefix : string) : string :=
  if len tenant =? 0 then ""
  else if len namespace =? 0 then tenant +:+ "/"
  else key_of tenant namespace nameprefix.

(** inferxlib/src/data_obj.rs:292-316 [DataObjectMgr::IsEmpty] *)
Definition IsEmpty objs (tenant namespace : string) : bool :=
  let start := scan_start tenant namespace in
  match range_from start objs with
  | (key, _) :: _ => negb (starts_with start key)
  | [] => true
  end.
(** inferxlib/src/data_obj.rs:318-343 [DataObjectMgr::GetObjectKeys] *)
Definition GetObjectKeys objs (tenant namespace : string) : Result (list string) :=
  Ok (prefix_scan (scan_start tenant namespace) objs).*1.
(** inferxlib/src/data_obj.rs:345-374 [DataObjectMgr::GetObjectsByPrefix] *)
Definition GetObjectsByPrefix objs (tenant namespace nameprefix : string) : Result (list (DataObject T)) :=
  Ok (prefix_scan (prefix_start tenant namespace nameprefix) objs).*2.
(** inferxlib/src/data_obj.rs:376-401 [DataObjectMgr::GetObjects] *)
Definition GetObjects objs (tenant namespace : string) : Result (list (DataObject T)) :=
  Ok (prefix_scan (scan_start tenant namespace) objs).*2.
(** inferxlib/src/data_obj.rs:403-410 [DataObjectMgr::GetByObjectkey] *)
Definition GetByObjectkey objs (key : string) : Result (DataObject T) :=
  match objs !! key with
  | None => Err (NotExist ("GetByObjectkey::get " +:+ key))
  | Some o => Ok o
  end.
(** inferxlib/src/data_obj.rs:412-426 [DataObjectMgr::Get] *)
Definition Mgr_Get objs (tenant namespace name : string) : Result (DataObject T) :=
  let key := key_of tenant namespace name in
  match objs !! key with
  | None => Err (NotExist ("DataObjectMgr::get " +:+ key +:+ " keyes "))
  | Some o => Ok o
  end.
(** inferxlib/src/data_obj.rs:428-440 [DataObjectMgr::Add] *)
Definition Mgr_Add objs obj : Result (gmap string (DataObject T)) :=
  let key := Key obj in
  if bool_decide (is_Some (objs !! key)) then Err (Exist ("DataObjectMgr::Add " +:+ key))
  else Ok (<[key := obj]> objs).
(** inferxlib/src/data_obj.rs:442-454 [DataObjectMgr::Update] *)
Definition Mgr_Update objs obj : Result (gmap string (DataObject T)) :=
  let key := Key obj in
  if negb (bool_decide (is_Some (objs !! key))) then Err (NotExist ("DataObjectMgr::Update " +:+ key))
  else Ok (<[key := obj]> objs).
(** inferxlib/src/data_obj.rs:456-470 [DataObjectMgr::Remove] *)
Definition Mgr_Remove objs obj : Result (gmap string (DataObject T)) :=
  let key := Key obj in
  if negb (bool_decide (is_Some (objs !! key))) then Err (NotExist ("DataObjectMgr::Remove " +:+ key +:+ "/"))
  else Ok (delete key objs).
End mgr.

(** inferxlib/src/data_obj.rs:474-478 [ObjLink] *)
Record ObjLink := MkObjLink { link_objType : string; link_namespace : string; link_name : string }.
(** inferxlib/src/data_obj.rs:481-483 [ObjLink::Key] *)
Definition ObjLink_Key (self : ObjLink) (tenant : string) : string :=
  key_of tenant (link_namespace self) (link_name self).
(** inferxlib/src/data_obj.rs:487-490 [ObjRef] *)
Inductive ObjRef (T : Type) := Obj (spec : T) | Link (link : ObjLink).
Arguments Obj {T} spec.
Arguments Link {T} link.

(** ** Keys of valid names *)

(** A name [validate_name] accepts. *)
Definition valid_name (s : string) : Prop := validate_name s = Ok s.
Definition valid_obj {T} (o : DataObject T) : Prop :=
  valid_name (tenant o) ∧ valid_name (namespace o) ∧ valid_name (name o).

Lemma valid_name_no_slash s : valid_name s → "/"%char ∉ chars s.
Proof.
  unfold valid_name, validate_name. destruct (forallb _ _) eqn:Hall; [|done]. intros _ Hin.
  rewrite forallb_forall in Hall. apply list_elem_of_In, Hall in Hin. by vm_compute in Hin.
Qed.

Lemma app_sep_inj (c : ascii) l1 l2 r1 r2 :
  c ∉ l1 → c ∉ l2 → l1 ++ c :: r1 = l2 ++ c :: r2 → l1 = l2 ∧ r1 = r2.
Proof.
  revert l2. induction l1 as [|a l1 IH]; intros [|b l2] H1 H2 Heq; simplify_eq/=; try set_solver.
  destruct (IH l2) as [-> ->]; set_solver.
Qed.

Lemma sapp_sep_inj c s1 s2 r1 r2 :
  c ∉ chars s1 → c ∉ chars s2 → s1 +:+ String c r1 = s2 +:+ String c r2 → s1 = s2 ∧ r1 = r2.
Proof.
  intros H1 H2 Heq. apply (f_equal chars) in Heq. rewrite !chars_app in Heq.
  apply (app_sep_inj c) in Heq as [Hs Hr]; [|done..]. by apply (inj chars) in Hs, Hr.
Qed.

Lemma key_of_inj t1 n1 a1 t2 n2 a2 :
  valid_name t1 → valid_name n1 → valid_name t2 → valid_name n2 →
  key_of t1 n1 a1 = key_of t2 n2 a2 → t1 = t2 ∧ n1 = n2 ∧ a1 = a2.
Proof.
  intros Ht1%valid_name_no_slash Hn1%valid_name_no_slash Ht2%valid_name_no_slash Hn2%valid_name_no_slash.
  unfold key_of. intros [-> H]%sapp_sep_inj; [|done..]. apply sapp_sep_inj in H as [-> ->]; done.
Qed.

(** ** Scopes *)

Lemma starts_with_cancel p x y : starts_with (p +:+ x) (p +:+ y) = starts_with x y.
Proof.
  apply eq_bool_prop_intro. rewrite !Is_true_true, !starts_with_spec. split.
  - intros [t Ht]. exists t. rewrite <-sapp_assoc in Ht. by apply (inj (String.append p)) in Ht.
  - intros [t ->]. exists t. by rewrite <-sapp_assoc.
Qed.

Lemma starts_with_slash s1 s2 x r :
  "/"%char ∉ chars s1 → "/"%char ∉ chars s2 →
  starts_with (s1 +:+ String "/" x) (s2 +:+ String "/" r) = true ↔ s1 = s2 ∧ starts_with x r = true.
Proof.
  intros H1 H2. split.
  - intros [t Ht]%starts_with_spec. rewrite <-sapp_assoc in Ht.
    change (String "/" x +:+ t) with (String "/" (x +:+ t)) in Ht.
    apply sapp_sep_inj in Ht as [-> ->]; [|done..]. split; [done|]. apply starts_with_app.
  - intros [-> Hx]. by rewrite starts_with_cancel.
Qed.

Lemma starts_with_empty s : starts_with "" s = true.
Proof. by destruct s. Qed.

Lemma scan_start_spec t n o T (obj : DataObject T) :
  valid_name t → valid_name n → valid_obj obj → o = Key obj →
  starts_with (scan_start t n) o = true ↔ t = "" ∨ tenant obj = t ∧ (n = "" ∨ namespace obj = n).
Proof.
  intros Ht%valid_name_no_slash Hn%valid_name_no_slash (Hto & Hno & _) ->.
  apply valid_name_no_slash in Hto, Hno. unfold scan_start, Key, key_of.
  destruct (Nat.ltb_spec 0 (len t)) as [Hlt|Hlt].
  - assert (t ≠ "") as Htne by (rewrite <-len_0; lia). destruct (Nat.ltb_spec 0 (len n)) as [Hln|Hln].
    + assert (n ≠ "") by (rewrite <-len_0; lia). rewrite starts_with_slash by done.
      change (n +:+ "/") with (n +:+ String "/" ""). rewrite starts_with_slash by done.
      rewrite starts_with_empty. naive_solver.
    + assert (n = "") as -> by (apply len_0; lia). change (t +:+ "/") with (t +:+ String "/" "").
      rewrite starts_with_slash, starts_with_empty by done. naive_solver.
  - assert (t = "") as -> by (apply len_0; lia). rewrite starts_with_empty. naive_solver.
Qed.

Lemma prefix_start_spec t n p T (obj : DataObject T) :
  valid_name t → valid_name n → valid_obj obj →
  starts_with (prefix_start t n p) (Key obj) = true ↔
  t = "" ∨ tenant obj = t ∧ (n = "" ∨ namespace obj = n ∧ starts_with p (name obj) = true).
Proof.
  intros Ht%valid_name_no_slash Hn%valid_name_no_slash (Hto & Hno & _).
  apply valid_name_no_slash in Hto, Hno. unfold prefix_start, Key, key_of.
  destruct (Nat.eqb_spec (len t) 0) as [->%len_0|Hlt]; [rewrite starts_with_empty; naive_solver|].
  assert (t ≠ "") as Htne by (rewrite <-len_0; lia).
  destruct (Nat.eqb_spec (len n) 0) as [->%len_0|Hln].
  - change (t +:+ "/") with (t +:+ String "/" "").
    rewrite starts_with_slash, starts_with_empty by done. naive_solver.
  - assert (n ≠ "") by (rewrite <-len_0; lia). rewrite !starts_with_slash by done. naive_solver.
Qed.

(** ** Refinement of an abstract object table *)

Section refine.
Context {T : Type}.

(** An object's identity. *)
Definition obj_id (o : DataObject T) : string * string * string := (tenant o, namespace o, name o).

(** The store [objs] holds the abstract table [s] of objects by identity. *)
Record refines (objs : gmap string (DataObject T)) (s : gmap (string * string * string) (DataObject T)) : Prop := {
  refines_lookup t n a : valid_name t → valid_name n → valid_name a → objs !! key_of t n a = s !! (t, n, a);
  refines_key k o : objs !! k = Some o → k = Key o ∧ valid_obj o;
  refines_id i o : s !! i = Some o → i = obj_id o ∧ valid_obj o;
}.

Lemma refines_empty : refines ∅ ∅.
Proof. split; intros *; rewrite ?lookup_empty; done. Qed.

Lemma refines_obj objs s o : refines objs s → valid_obj o → objs !! Key o = s !! obj_id o.
Proof. intros Hr (? & ? & ?). by apply refines_lookup. Qed.

Lemma refines_insert objs s o : refines objs s → valid_obj o → refines (<[Key o := o]> objs) (<[obj_id o := o]> s).
Proof.
  intros Hr Ho. pose proof Ho as (Ht & Hn & Ha). split.
  - intros t n a Ht' Hn' Ha'. destruct (decide ((t, n, a) = obj_id o)) as [Heq|Hne].
    + unfold obj_id, Key in *. simplify_eq. by rewrite !lookup_insert_eq.
    + rewrite !lookup_insert_ne; [by apply refines_lookup|done|].
      intros Heq. apply Hne. apply key_of_inj in Heq as (<- & <- & <-); done.
  - intros k o' [[<- <-]|[_ Hk]]%lookup_insert_Some; [done|by eapply refines_key].
  - intros i o' [[<- <-]|[_ Hi]]%lookup_insert_Some; [done|by eapply refines_id].
Qed.

Lemma refines_delete objs s o : refines objs s → valid_obj o → refines (delete (Key o) objs) (delete (obj_id o) s).
Proof.
  intros Hr Ho. pose proof Ho as (Ht & Hn & Ha). split.
  - intros t n a Ht' Hn' Ha'. destruct (decide ((t, n, a) = obj_id o)) as [Heq|Hne].
    + unfold obj_id, Key in *. simplify_eq. by rewrite !lookup_delete_eq.
    + rewrite !lookup_delete_ne; [by apply refines_lookup|done|].
      intros Heq. apply Hne. apply key_of_inj in Heq as (<- & <- & <-); done.
  - intros k o' [_ Hk]%lookup_delete_Some. by eapply refines_key.
  - intros i o' [_ Hi]%lookup_delete_Some. by eapply refines_id.
Qed.

Lemma prefix_scan_objects objs s (P : DataObject T → Prop) start :
  refines objs s → (∀ o, valid_obj o → starts_with start (Key o) = true ↔ P o) →
  ∀ o, o ∈ (prefix_scan start objs).*2 ↔ s !! obj_id o = Some o ∧ P o.
Proof.
  intros Hr HP o. rewrite list_elem_of_fmap. split.
  - intros ([k o'] & -> & [Hk Hp]%elem_of_prefix_scan). simpl.
    pose proof (refines_key _ _ Hr _ _ Hk) as [-> Hv]. rewrite <-(refines_obj objs) by done.
    split; [done|]. by apply HP.
  - intros [Hs Hp]. pose proof (refines_id _ _ Hr _ _ Hs) as [_ Hv]. exists (Key o, o). split; [done|].
    apply elem_of_prefix_scan. rewrite (refines_obj objs s) by done. split; [done|]. by apply HP.
Qed.

Lemma prefix_scan_keys objs s start :
  refines objs s → (prefix_scan start objs).*1 = Key <$> (prefix_scan start objs).*2.
Proof.
  intros Hr. rewrite <-list_fmap_compose. apply list_fmap_ext. intros i [k o] Hi%list_elem_of_lookup_2.
  apply elem_of_prefix_scan in Hi as [Hk _]. by apply (refines_key _ _ Hr) in Hk as [-> _].
Qed.

Lemma IsEmpty_scan (objs : gmap string (DataObject T)) t n :
  IsEmpty objs t n = bool_decide (prefix_scan (scan_start t n) objs = []).
Proof.
  unfold IsEmpty, prefix_scan. destruct (range_from _ objs) as [|[k o] l]; [done|]. simpl.
  by destruct (starts_with _ k).
Qed.
End refine.

(** ** Properties *)

(** The object store implements a table of objects by tenant, namespace and
    name: when it refines such a table, each operation returns what the table
    says (an [Exist] or [NotExist] error exactly when the identity is present or
    absent), and the store after [Add], [Update] or [Remove] refines the table
    after the same step. *)
Theorem store_refines_table {T} (objs : gmap string (DataObject T)) s o :
  refines objs s → valid_obj o →
  (match Mgr_Add objs o with
   | Ok objs' => s !! obj_id o = None ∧ refines objs' (<[obj_id o := o]> s)
   | Err e => is_Some (s !! obj_id o) ∧ e = Exist ("DataObjectMgr::Add " +:+ Key o)
   | Panic _ => False
   end) ∧
  (match Mgr_Update objs o with
   | Ok objs' => is_Some (s !! obj_id o) ∧ refines objs' (<[obj_id o := o]> s)
   | Err e => s !! obj_id o = None ∧ e = NotExist ("DataObjectMgr::Update " +:+ Key o)
   | Panic _ => False
   end) ∧
  (match Mgr_Remove objs o with
   | Ok objs' => is_Some (s !! obj_id o) ∧ refines objs' (delete (obj_id o) s)
   | Err e => s !! obj_id o = None ∧ ∃ msg, e = NotExist msg
   | Panic _ => False
   end) ∧
  (match Mgr_Get objs (tenant o) (namespace o) (name o) with
   | Ok o' => s !! obj_id o = Some o'
   | Err e => s !! obj_id o = None ∧ ∃ msg, e = NotExist msg
   | Panic _ => False
   end) ∧
  Contains objs (tenant o) (namespace o) (name o) = bool_decide (is_Some (s !! obj_id o)).
Proof.
  intros Hr Ho. pose proof (refines_obj _ _ _ Hr Ho) as Hl.
  unfold Mgr_Add, Mgr_Update, Mgr_Remove, Mgr_Get, Contains. fold (Key o). rewrite Hl.
  split_and!; [..|done]; destruct (s !! obj_id o) as [o'|] eqn:Hs; simpl; split_and?; eauto;
    by first [apply refines_insert | apply refines_delete].
Qed.

Definition sample_obj : DataObject nat := MkDataObject "pod" "acme" "prod" "web-1" ∅ ∅ 0 0 0 7.

Lemma store_refines_table_witness :
  Mgr_Add ∅ sample_obj = Ok {["acme/prod/web-1" := sample_obj]} ∧
  refines {["acme/prod/web-1" := sample_obj]} {[("acme", "prod", "web-1") := sample_obj]}.
Proof.
  split; [done|].
  destruct (store_refines_table ∅ ∅ sample_obj refines_empty) as (Hadd & _); [by vm_compute|].
  exact (proj2 Hadd).
Defined.

(** The range scans of the store return exactly the objects in scope, in key
    order and without duplicates: all objects for an empty tenant, one tenant's
    for an empty namespace, one namespace's otherwise (never those of a tenant
    or namespace whose name merely starts with the given one), and with a name
    prefix those whose name carries it; the prefix is ignored when the tenant
    or namespace is empty. *)
Theorem store_scans {T} (objs : gmap string (DataObject T)) s t n p :
  refines objs s → valid_name t → valid_name n →
  ∃ l lp, GetObjects objs t n = Ok l ∧ GetObjectsByPrefix objs t n p = Ok lp ∧
    GetObjectKeys objs t n = Ok (Key <$> l) ∧ IsEmpty objs t n = bool_decide (l = []) ∧
    (∀ o, o ∈ l ↔ s !! obj_id o = Some o ∧ (t = "" ∨ tenant o = t ∧ (n = "" ∨ namespace o = n))) ∧
    (∀ o, o ∈ lp ↔ s !! obj_id o = Some o ∧
       (t = "" ∨ tenant o = t ∧ (n = "" ∨ namespace o = n ∧ starts_with p (name o) = true))) ∧
    StronglySorted String.le (Key <$> l) ∧ NoDup (Key <$> l).
Proof.
  intros Hr Ht Hn. exists (prefix_scan (scan_start t n) objs).*2, (prefix_scan (prefix_start t n p) objs).*2.
  rewrite <-(prefix_scan_keys objs s) by done. split_and!; [done..| | | | |].
  - rewrite IsEmpty_scan. apply bool_decide_ext. by destruct (prefix_scan _ objs).
  - apply (prefix_scan_objects objs s); [done|]. intros o Ho. by apply scan_start_spec.
  - apply (prefix_scan_objects objs s); [done|]. intros o Ho. by apply prefix_start_spec.
  - rewrite prefix_scan_filter. pose proof (entries_sorted objs) as Hs.
    induction Hs as [|q l Hs IH Hall]; [constructor|]. rewrite filter_cons. case_decide; [|done].
    csimpl. constructor; [done|]. apply Forall_fmap. rewrite Forall_forall in Hall |- *.
    intros q' [_ Hq']%list_elem_of_filter. by apply Hall.
  - rewrite prefix_scan_filter. apply NoDup_fmap_fst; [|apply NoDup_filter, NoDup_entries].
    intros k o1 o2 [_ H1%elem_of_entries]%list_elem_of_filter [_ H2%elem_of_entries]%list_elem_of_filter.
    congruence.
Qed.

Lemma store_scans_witness :
  IsEmpty {["acme/prod/web-1" := sample_obj]} "acm" "" = true ∧
  ∃ l, GetObjects {["acme/prod/web-1" := sample_obj]} "acme" "prod" = Ok l ∧ sample_obj ∈ l.
Proof.
  split; [by vm_compute|].
  assert (refines {["acme/prod/web-1" := sample_obj]} {[obj_id sample_obj := sample_obj]}) as Hr.
  { apply (refines_insert ∅ ∅ sample_obj refines_empty). by vm_compute. }
  destruct (store_scans _ _ "acme" "prod" "" Hr eq_refl eq_refl) as (l & _ & Hl & _ & _ & _ & Hin & _).
  exists l. split; [done|]. apply Hin. split; [by rewrite lookup_singleton_eq|by right; split; [|right]].
Defined.
