(* ===== verification/Watch.v ===== *)
(** * Selection predicates, watchers and event buffers
      (ixshare/src/metastore: selection_predicate.rs, watch.rs)

    [serde_json::Value] is a type with the two views the code takes of it
    ([JsonOps]); a bounded tokio channel is the class [Chan]. *)

From S2P Require Import Prelude.
From S2P Require Import Text.
From S2P Require Import BTree.
From S2P Require Import Common.
From S2P Require Import Validation.
From S2P Require Import Selector.
From S2P Require Import DataObj.

(** [Value::get(&str)], and the text [Selector::ToString] renders. *)
Class JsonOps (Value : Type) := {
  json_get : Value → string → option Value;
  json_text : Value → string;
}.

(** [tokio::sync::mpsc::error::TrySendError] *)
Inductive TrySendError := Full | Closed.
(** The sending half of a bounded channel. *)
Class Chan (S M : Type) := {
  chan_new : nat → S;
  try_send : S → M → S * option TrySendError;
}.
(** Documented behaviour: a message is accepted, in order, or refused and the
    channel is unchanged; an open channel with room accepts. *)
Class ChanSpec (S M : Type) `{Chan S M} := {
  sent : S → list M;
  room : S → nat → Prop;
  sent_new n : sent (chan_new n) = [];
  room_new n : room (chan_new n) n;
  try_send_ok s m s' : try_send s m = (s', None) → sent s' = sent s ++ [m];
  try_send_err s m s' e : try_send s m = (s', Some e) → s' = s;
  try_send_room s m n : room s (1 + n) → ∃ s', try_send s m = (s', None) ∧ room s' n;
}.

(** A channel nobody reads: capacity and messages. *)
Definition queue (M : Type) : Type := nat * list M.
#[global] Instance queue_chan M : Chan (queue M) M := {|
  chan_new n := (n, []);
  try_send q m := if decide (length q.2 < q.1) then ((q.1, q.2 ++ [m]), None) else (q, Some Full);
|}.
#[global] Program Instance queue_chan_spec M : ChanSpec (queue M) M := {|
  sent q := q.2;
  room q n := length q.2 + n ≤ q.1;
|}.
Next Obligation. done. Qed.
Next Obligation. simpl. lia. Qed.
Next Obligation. intros M [n l] m s'. simpl. case_decide; intros [= <-]; done. Qed.
Next Obligation. intros M [n l] m s' e. simpl. case_decide; [done|]. by intros [= <- <-]. Qed.
Next Obligation.
  intros M [c l] m n Hr. simpl in *. rewrite decide_True by lia. eexists. split; [done|].
  simpl. rewrite length_app. simpl. lia.
Qed.

Section predicate.
Context {Value : Type} `{JsonOps Value}.
Implicit Types (obj : DataObject Value).

(** ** Selection predicates *)

(** ixshare/src/metastore/selection_predicate.rs:22-25 [Continue] *)
Record Continue := MkContinue { ct_key : string; ct_revision : Z }.

(** ixshare/src/metastore/selection_predicate.rs:28-46 [Continue::Continue] *)
Definition Continue_Continue (self : Continue) (keyPrefix : string) : Share.Result (string * Z) :=
  if decide (ct_revision self = 0%Z)
  then Err (Share.CommonError "continue key is not valid: incorrect encoded start resourceVersion (version meta.k8s.io/v1)")
  else if len (ct_key self) =? 0
  then Err (Share.CommonError "continue key is not valid: encoded start key empty (version meta.k8s.io/v1)")
  else
    let key := if negb (starts_with "/" (ct_key self)) then "/" +:+ ct_key self else ct_key self in
    Ok (keyPrefix +:+ of_chars (drop 1 (chars key)), ct_revision self).
(** ixshare/src/metastore/selection_predicate.rs:48-53 [Continue::DeepCopy] *)
Definition Continue_DeepCopy (self : Continue) : Continue := MkContinue (ct_key self) (ct_revision self).

(** ixshare/src/metastore/selection_predicate.rs:127-143 [EncodeContinue] *)
Definition EncodeContinue (key keyPrefix : string) (revision : Z) : Share.Result Continue :=
  match strip_prefix keyPrefix key with
  | Some nextKey => Ok (MkContinue nextKey revision)
  | None => Err (Share.CommonError ("unable to encode next field: the key '" +:+ key +:+ "' and key prefix '"
                  +:+ keyPrefix +:+ "' do not match"))
  end.

(** ixshare/src/metastore/selection_predicate.rs:57-62 [SelectionPredicate] *)
Record SelectionPredicate := MkPredicate {
  sp_label : Selector; sp_field : Selector; sp_limit : Z; sp_continue : option Continue;
}.
(** [SelectionPredicate::default()] *)
Definition SelectionPredicate_default : SelectionPredicate := MkPredicate [] [] 0 None.

(** ixshare/src/metastore/selection_predicate.rs:95-105 [SelectionPredicate::DeepCopy] *)
Definition SelectionPredicate_DeepCopy (self : SelectionPredicate) : SelectionPredicate :=
  MkPredicate (Selector_DeepCopy (sp_label self)) (Selector_DeepCopy (sp_field self)) (sp_limit self)
    (Continue_DeepCopy <$> sp_continue self).
(** ixshare/src/metastore/selection_predicate.rs:107-109 [SelectionPredicate::Empty] *)
Definition SelectionPredicate_Empty (self : SelectionPredicate) : bool :=
  Selector_Empty (sp_label self) && Selector_Empty (sp_field self).
(** ixshare/src/metastore/selection_predicate.rs:111-113 [SelectionPredicate::HasContinue] *)
Definition HasContinue (self : SelectionPredicate) : bool := bool_decide (is_Some (sp_continue self)).
(** ixshare/src/metastore/selection_predicate.rs:115-124 [SelectionPredicate::Continue] *)
Definition SelectionPredicate_Continue (self : SelectionPredicate) (keyPrefix : string) : Share.Result (string * Z) :=
  match sp_continue self with
  | None => Err (Share.CommonError "SelectionPredicate has no continue")
  | Some c => Continue_Continue c keyPrefix
  end.

(** [for s in split { tmp = tmp.get(s)? }] *)
Fixpoint json_path (val : Value) (path : list string) : option Value :=
  match path with
  | [] => Some val
  | s :: path => match json_get val s with None => None | Some v => json_path v path end
  end.
Fixpoint attributes_loop (val : Value) (rs : Selector) (map : Labels) : option Labels :=
  match rs with
  | [] => Some map
  | r :: rs =>
      match json_path val (split "." (req_key r)) with
      | None => None
      | Some tmp => attributes_loop val rs (<[req_key r := json_text tmp]> map)
      end
  end.
(** inferxlib/src/selector.rs:129-146 [Selector::GetAttributes] *)
Definition GetAttributes (self : Selector) (val : Value) : option Labels := attributes_loop val self ∅.

Definition meta_attrs obj (rs : Selector) (attrs : Labels) : Labels :=
  foldl (λ attrs r,
    if decide (req_key r = "metadata.name") then <["metadata.name" := name obj]> attrs
    else if decide (req_key r = "metadata.namespace") then <["metadata.namespace" := namespace obj]> attrs
    else attrs) attrs rs.

(** ixshare/src/metastore/selection_predicate.rs:65-93 [SelectionPredicate::Match] *)
Definition Predicate_Match (self : SelectionPredicate) obj : Share.Result bool :=
  if SelectionPredicate_Empty self then Ok true
  else
    matched ← Share.lift (Match (sp_label self) (labels obj));
    if (matched : bool) then
      match GetAttributes (sp_field self) (object obj) with
      | None => Ok false
      | Some attrs => Share.lift (Match (sp_field self) (meta_attrs obj (sp_field self) attrs))
      end
    else Ok matched.

(** ixshare/src/metastore/selection_predicate.rs:146-150 [RevisionMatch] *)
Inductive RevisionMatch := RM_None | NotOlderThan | Exact.
(** ixshare/src/metastore/selection_predicate.rs:159-172 [ListOption] *)
Record ListOption := MkListOption {
  lo_revision : Z; lo_revisionMatch : RevisionMatch; lo_predicate : SelectionPredicate;
}.
(** ixshare/src/metastore/selection_predicate.rs:175-181 [ListOption::DeepCopy] *)
Definition ListOption_DeepCopy (self : ListOption) : ListOption :=
  MkListOption (lo_revision self) (lo_revisionMatch self) (SelectionPredicate_DeepCopy (lo_predicate self)).

(** ** Events and watchers *)

(** inferxlib/src/data_obj.rs:72-76 [WatchEvent] *)
Record WatchEvent := MkWatchEvent { we_type : EventType; we_obj : DataObject Value }.

(** ixshare/src/metastore/watch.rs:537-544 [WatchCacheEvent] *)
Record WatchCacheEvent := MkCacheEvent {
  wc_type : EventType;
  wc_obj : DataObject Value;
  wc_prevObj : option (DataObject Value);
  wc_channelRev : Z;
  wc_revision : Z;
  wc_recordTime : Z;
}.
(** ixshare/src/metastore/watch.rs:560-562 [WatchCacheEvent::Key] *)
Definition WatchCacheEvent_Key (self : WatchCacheEvent) : string := Key (wc_obj self).

Section watcher.
Context {S : Type} `{Chan S WatchEvent}.

(** ixshare/src/metastore/watch.rs:31-41 [CacheWatcher] *)
Record CacheWatcher := MkCacheWatcher {
  cw_id : Z;
  cw_sender : S;
  cw_namespace : string;
  cw_predicate : SelectionPredicate;
  cw_identifier : string;
}.
(** ixshare/src/metastore/watch.rs:44-62 [CacheWatcher::New] *)
Definition CacheWatcher_New (id : Z) (channelSize : nat) (namespace : string)
    (predicate : SelectionPredicate) (identifier : string) : CacheWatcher :=
  MkCacheWatcher id (chan_new channelSize) namespace predicate identifier.

(** ixshare/src/metastore/watch.rs:64-70 [CacheWatcher::Match] *)
Definition Watcher_Match (self : CacheWatcher) (objKey : string) obj : Share.Result bool :=
  if negb (starts_with (cw_namespace self) objKey) then Ok false
  else Predicate_Match (cw_predicate self) obj.

(** ixshare/src/metastore/watch.rs:72-103 [CacheWatcher::ConvertToWatchEvent] *)
Definition ConvertToWatchEvent (self : CacheWatcher) (event : WatchCacheEvent)
  : Share.Result (option WatchEvent) :=
  curObjPasses ← (if decide (wc_type event ≠ EDeleted)
                  then Watcher_Match self (WatchCacheEvent_Key event) (wc_obj event) else Ok false);
  oldObjPasses ← match wc_prevObj event with
                 | None => Ok false
                 | Some old => Watcher_Match self (WatchCacheEvent_Key event) old
                 end;
  if curObjPasses && oldObjPasses
  then Ok (Some (MkWatchEvent EModified (DataObject_DeepCopy (wc_obj event))))
  else if curObjPasses && negb oldObjPasses
  then Ok (Some (MkWatchEvent EAdded (DataObject_DeepCopy (wc_obj event))))
  else if negb curObjPasses && oldObjPasses
  then
    old ← unwrap_opt (wc_prevObj event);
    Ok (Some (MkWatchEvent EDeleted (CopyWithRev old (wc_channelRev event) (wc_revision event))))
  else Ok None.

Definition with_sender (self : CacheWatcher) (s : S) : CacheWatcher :=
  MkCacheWatcher (cw_id self) s (cw_namespace self) (cw_predicate self) (cw_identifier self).

(** ixshare/src/metastore/watch.rs:105-118 [CacheWatcher::SendWatchCacheEvent]: the
    watcher after the call, and the call's result. *)
Definition SendWatchCacheEvent (self : CacheWatcher) (event : WatchCacheEvent)
  : CacheWatcher * Share.Result unit :=
  match ConvertToWatchEvent self event with
  | Err e => (self, Err e)
  | Panic w => (self, Panic w)
  | Ok None => (self, Ok tt)
  | Ok (Some watchEvent) =>
      let '(s, e) := try_send (cw_sender self) watchEvent in
      (with_sender self s,
       match e with
       | None => Ok tt
       | Some Full => Err Share.TokioChannFull
       | Some Closed => Err Share.TokioChannClose
       end)
  end.
End watcher.
End predicate.
Arguments WatchEvent : clear implicits.
Arguments WatchCacheEvent : clear implicits.
Arguments CacheWatcher : clear implicits.
