(* ===== verification/Ring.v ===== *)
(** * The event buffers (ixshare/src/metastore/watch.rs, [RingBuf], [WatchCacheBuf])

    Both index a vector of optional cells modulo its capacity with two counters
    that only grow.  [Vec::with_capacity(n)] followed by [resize(n, None)] has
    [n] cells; the vector's capacity is taken to be its length.  Counters are
    unbounded: 64 bits do not wrap in reach. *)

From S2P Require Import Prelude.
From S2P Require Import Common.

Section ring.
Context {E : Type}.

(** ixshare/src/metastore/watch.rs:566-570 [RingBuf] *)
Record RingBuf := MkRingBuf { rb_buf : list (option E); rb_head : nat; rb_tail : nat }.
(** ixshare/src/metastore/watch.rs:133-138 [WatchCacheBuf] *)
Record WatchCacheBuf := MkWatchCacheBuf { cb_buffer : list (option E); cb_head : nat; cb_tail : nat }.

Definition capacity (buf : list (option E)) : nat := length buf.
(** [i % capacity] *)
Definition slot {X} (buf : list (option E)) (i : nat) : outcome X nat :=
  if capacity buf =? 0 then Panic "attempt to calculate the remainder with a divisor of zero"
  else Ok (i mod capacity buf).
(** [buf[idx]] *)
Definition cell {X} (buf : list (option E)) (idx : nat) : outcome X (option E) :=
  match buf !! idx with Some c => Ok c | None => Panic "index out of bounds" end.
(** [buf[idx] = c] *)
Definition set_cell {X} (buf : list (option E)) (idx : nat) (c : option E) : outcome X (list (option E)) :=
  if decide (idx < length buf) then Ok (<[idx := c]> buf) else Panic "index out of bounds".

(** ixshare/src/metastore/watch.rs:573-581 [RingBuf::New] *)
Definition RingBuf_New (cap : nat) : RingBuf := MkRingBuf (replicate cap None) 0 0.
(** ixshare/src/metastore/watch.rs:583-590 [RingBuf::Reset] *)
Definition RingBuf_Reset (self : RingBuf) : RingBuf :=
  MkRingBuf ((λ _, None) <$> rb_buf self) 0 0.
(** ixshare/src/metastore/watch.rs:622-624 [RingBuf::Size] *)
Definition Size {X} (self : RingBuf) : outcome X nat :=
  if decide (rb_head self ≤ rb_tail self) then Ok (rb_tail self - rb_head self)
  else Panic "attempt to subtract with overflow".
(** ixshare/src/metastore/watch.rs:626-628 [RingBuf::Full] *)
Definition RingBuf_Full {X} (self : RingBuf) : outcome X bool :=
  n ← Size self; Ok (n =? capacity (rb_buf self)).
(** ixshare/src/metastore/watch.rs:618-620 [RingBuf::OldestIdx] *)
Definition OldestIdx {X} (self : RingBuf) : outcome X nat := slot (rb_buf self) (rb_head self).
(** ixshare/src/metastore/watch.rs:630-638 [RingBuf::Push] *)
Definition RingBuf_Push {X} (self : RingBuf) (event : E) : outcome X RingBuf :=
  full ← RingBuf_Full self;
  let head := if (full : bool) then rb_head self + 1 else rb_head self in
  idx ← slot (rb_buf self) (rb_tail self);
  buf ← set_cell (rb_buf self) idx (Some event);
  Ok (MkRingBuf buf head (rb_tail self + 1)).
(** ixshare/src/metastore/watch.rs:640-649 [RingBuf::Pop] *)
Definition RingBuf_Pop {X} (self : RingBuf) : outcome X (option E * RingBuf) :=
  if rb_head self =? rb_tail self then Ok (None, self)
  else
    _ ← assert_ (rb_head self <? rb_tail self) "assertion failed";
    idx ← slot (rb_buf self) (rb_head self);
    c ← cell (rb_buf self) idx;
    buf ← set_cell (rb_buf self) idx None;
    Ok (c, MkRingBuf buf (rb_head self + 1) (rb_tail self)).

(** [for i in head..tail { .. &self.buf[i % capacity] .. }], keeping the events
    that pass [keep]. *)
Definition scan_cells {X} (missing : X) (keep : E → outcome X bool) (buf : list (option E))
    (head tail : nat) : outcome X (list E) :=
  foldlM (λ acc i,
    idx ← slot buf i;
    c ← cell buf idx;
    match c with
    | None => Err missing
    | Some o => b ← keep o; Ok (if (b : bool) then acc ++ [o] else acc)
    end) [] (seq head (tail - head)).

(** ixshare/src/metastore/watch.rs:131-131 [BUFFER_SIZE] *)
Definition BUFFER_SIZE : nat := 100.
(** ixshare/src/metastore/watch.rs:141-150 [WatchCacheBuf::New] *)
Definition WatchCacheBuf_New : WatchCacheBuf := MkWatchCacheBuf (replicate BUFFER_SIZE None) 0 0.
(** ixshare/src/metastore/watch.rs:152-154 [WatchCacheBuf::IsEmpty] *)
Definition WatchCacheBuf_IsEmpty (self : WatchCacheBuf) : bool := cb_head self =? cb_tail self.
(** ixshare/src/metastore/watch.rs:156-158 [WatchCacheBuf::IsFull] *)
Definition WatchCacheBuf_IsFull {X} (self : WatchCacheBuf) : outcome X bool :=
  if decide (cb_head self ≤ cb_tail self)
  then Ok (cb_tail self - cb_head self =? capacity (cb_buffer self))
  else Panic "attempt to subtract with overflow".
(** ixshare/src/metastore/watch.rs:160-163 [WatchCacheBuf::Reset] *)
Definition WatchCacheBuf_Reset (self : WatchCacheBuf) : WatchCacheBuf :=
  MkWatchCacheBuf (cb_buffer self) 0 0.
(** ixshare/src/metastore/watch.rs:165-174 [WatchCacheBuf::Push]: the refused event, if any *)
Definition WatchCacheBuf_Push {X} (self : WatchCacheBuf) (event : E) : outcome X (option E * WatchCacheBuf) :=
  full ← WatchCacheBuf_IsFull self;
  if (full : bool) then Ok (Some event, self)
  else
    idx ← slot (cb_buffer self) (cb_tail self);
    buf ← set_cell (cb_buffer self) idx (Some event);
    Ok (None, MkWatchCacheBuf buf (cb_head self) (cb_tail self + 1)).
(** ixshare/src/metastore/watch.rs:176-184 [WatchCacheBuf::Pop] *)
Definition WatchCacheBuf_Pop {X} (self : WatchCacheBuf) : outcome X (option E * WatchCacheBuf) :=
  if WatchCacheBuf_IsEmpty self then Ok (None, self)
  else
    idx ← slot (cb_buffer self) (cb_head self);
    c ← cell (cb_buffer self) idx;
    buf ← set_cell (cb_buffer self) idx None;
    Ok (c, MkWatchCacheBuf buf (cb_head self + 1) (cb_tail self)).

(** ** Representation of a bounded queue *)

(** The cells from [head] to [tail] hold the queue [q]. *)
Record rep (buf : list (option E)) (head tail : nat) (q : list E) : Prop := {
  rep_cap : 0 < length buf;
  rep_tail : tail = head + length q;
  rep_len : length q ≤ length buf;
  rep_cell i e : q !! i = Some e → buf !! ((head + i) mod length buf) = Some (Some e);
}.

Lemma mod_inj h i j c : i < c → j < c → (h + i) mod c = (h + j) mod c → i = j.
Proof.
  intros Hi Hj Heq. pose proof (Nat.div_mod (h + i) c ltac:(lia)) as H1.
  pose proof (Nat.div_mod (h + j) c ltac:(lia)) as H2. rewrite Heq in H1.
  set (a := (h + i) / c) in *. set (b := (h + j) / c) in *.
  assert (a = b) by nia. nia.
Qed.

Lemma slot_Ok {X} buf i : 0 < length buf → slot (X:=X) buf i = Ok (i mod length buf).
Proof. intros Hc. unfold slot, capacity. destruct (Nat.eqb_spec (length buf) 0); [lia|done]. Qed.

Lemma set_cell_Ok {X} buf i c :
  0 < length buf → set_cell (X:=X) buf (i mod length buf) c = Ok (<[i mod length buf := c]> buf).
Proof. intros Hc. unfold set_cell. rewrite decide_True; [done|]. apply Nat.mod_upper_bound. lia. Qed.

Lemma rep_append buf head tail q e :
  rep buf head tail q → length q < length buf →
  rep (<[tail mod length buf := Some e]> buf) head (tail + 1) (q ++ [e]).
Proof.
  intros [Hc -> Hl Hcell] Hlt. split; rewrite ?length_insert, ?length_app; simpl; try lia.
  intros i e' Hi. destruct (decide (i = length q)) as [->|Hne].
  - rewrite list_lookup_middle in Hi by done. injection Hi as <-.
    apply list_lookup_insert_eq. apply Nat.mod_upper_bound. lia.
  - assert (i < length q) as Hiq.
    { apply lookup_lt_Some in Hi. rewrite length_app in Hi. simpl in Hi. lia. }
    rewrite lookup_app_l in Hi by done. rewrite list_lookup_insert_ne; [by apply Hcell|].
    intros Heq. apply mod_inj in Heq; lia.
Qed.

Lemma rep_drop buf head tail e q : rep buf head tail (e :: q) → rep buf (head + 1) tail q.
Proof.
  intros [Hc Ht Hl Hcell]. simpl in *. split; try lia.
  intros i e' Hi. replace (head + 1 + i) with (head + S i) by lia. by apply Hcell.
Qed.

(** Overwriting the cell just dropped does not touch the queue. *)
Lemma rep_clear buf head tail e q c :
  rep buf head tail (e :: q) → rep (<[head mod length buf := c]> buf) (head + 1) tail q.
Proof.
  intros Hr. pose proof (rep_drop _ _ _ _ _ Hr) as [Hc Ht Hl Hcell]. destruct Hr as [_ _ Hl' _].
  simpl in Hl'. split; rewrite ?length_insert; try done.
  intros i e' Hi. rewrite list_lookup_insert_ne; [by apply Hcell|].
  apply lookup_lt_Some in Hi. intros Heq. replace (head + 1 + i) with (head + (S i)) in Heq by lia.
  rewrite <-(Nat.add_0_r head) in Heq at 1. apply mod_inj in Heq; lia.
Qed.

Lemma rep_head_cell {X} buf head tail e q :
  rep buf head tail (e :: q) → cell (X:=X) buf (head mod length buf) = Ok (Some e).
Proof.
  intros [_ _ _ Hcell]. unfold cell. pose proof (Hcell 0 e eq_refl) as H0.
  rewrite Nat.add_0_r in H0. by rewrite H0.
Qed.

(** When full, the tail overwrites the head's cell. *)
Lemma rep_overwrite buf head tail e0 q e :
  rep buf head tail (e0 :: q) → length (e0 :: q) = length buf →
  rep (<[tail mod length buf := Some e]> buf) (head + 1) (tail + 1) (q ++ [e]).
Proof.
  intros Hr Hfull. apply rep_append; [by apply rep_drop in Hr|simpl in Hfull; lia].
Qed.

Definition ring_rep (r : RingBuf) (q : list E) : Prop := rep (rb_buf r) (rb_head r) (rb_tail r) q.
Definition buf_rep (b : WatchCacheBuf) (q : list E) : Prop := rep (cb_buffer b) (cb_head b) (cb_tail b) q.

Lemma rep_empty buf : 0 < length buf → rep buf 0 0 [].
Proof. intros Hc. split; try done; simpl; lia. Qed.

Lemma ring_rep_New cap : 0 < cap → ring_rep (RingBuf_New cap) [].
Proof. intros Hc. apply rep_empty. simpl. by rewrite length_replicate. Qed.

Lemma ring_Size {X} r q : ring_rep r q → Size (X:=X) r = Ok (length q).
Proof. intros [Hc Ht Hl _]. unfold Size. rewrite Ht, decide_True by lia. f_equal. lia. Qed.

(** What pushing does to a bounded queue: the oldest event makes room. *)
Definition push_bounded (cap : nat) (q : list E) (e : E) : list E :=
  (if length q =? cap then drop 1 q else q) ++ [e].

Lemma push_bounded_drop cap q e :
  0 < cap → length q ≤ cap → push_bounded cap q e = drop (length q + 1 - cap) (q ++ [e]).
Proof.
  intros Hc Hq. unfold push_bounded. destruct (Nat.eqb_spec (length q) cap) as [<-|Hn].
  - replace (length q + 1 - length q) with 1 by lia. rewrite drop_app_le by lia. done.
  - replace (length q + 1 - cap) with 0 by lia. done.
Qed.
(** Pushing several events keeps the last [cap] of all. *)
Lemma push_all cap q es :
  0 < cap → length q ≤ cap →
  foldl (push_bounded cap) q es = drop (length q + length es - cap) (q ++ es).
Proof.
  intros Hc. revert q. induction es as [|e es IH]; intros q Hq; simpl.
  { rewrite app_nil_r. by replace (length q + 0 - cap) with 0 by lia. }
  assert (length (push_bounded cap q e) = min cap (length q + 1)) as Hl.
  { rewrite push_bounded_drop by done. rewrite length_drop, length_app. simpl. lia. }
  rewrite IH by lia. rewrite Hl, push_bounded_drop by done.
  replace (q ++ e :: es) with ((q ++ [e]) ++ es) by by rewrite <-app_assoc.
  rewrite <-(drop_app_le (q ++ [e]) es) by (rewrite length_app; simpl; lia).
  rewrite drop_drop. f_equal. lia.
Qed.

Lemma ring_Push {X} r q e :
  ring_rep r q →
  ∃ r', RingBuf_Push (X:=X) r e = Ok r' ∧ length (rb_buf r') = length (rb_buf r) ∧
    ring_rep r' (push_bounded (length (rb_buf r)) q e).
Proof.
  intros Hr. pose proof Hr as [Hc Ht Hl Hcell]. unfold RingBuf_Push, RingBuf_Full.
  rewrite (ring_Size _ q) by done. cbn -[slot set_cell]. rewrite slot_Ok by done. cbn -[set_cell].
  rewrite set_cell_Ok by done. cbn. eexists. split; [done|]. simpl. rewrite length_insert.
  split; [done|]. unfold push_bounded, capacity, ring_rep. simpl.
  destruct (Nat.eqb_spec (length q) (length (rb_buf r))) as [Hfull|Hn].
  - destruct q as [|e0 q]; [simpl in *; lia|]. simpl. by eapply rep_overwrite.
  - apply rep_append; [done|lia].
Qed.

Lemma ring_Pop {X} r q :
  ring_rep r q →
  match q with
  | [] => RingBuf_Pop (X:=X) r = Ok (None, r)
  | e :: q' => ∃ r', RingBuf_Pop (X:=X) r = Ok (Some e, r') ∧ ring_rep r' q'
  end.
Proof.
  intros Hr. pose proof Hr as [Hc Ht Hl Hcell]. unfold RingBuf_Pop.
  destruct q as [|e q]; simpl in Ht.
  { rewrite Ht, Nat.add_0_r, Nat.eqb_refl. done. }
  destruct (Nat.eqb_spec (rb_head r) (rb_tail r)); [lia|]. unfold assert_.
  destruct (Nat.ltb_spec (rb_head r) (rb_tail r)); [|lia]. cbn -[slot set_cell cell].
  rewrite slot_Ok by done. cbn -[set_cell cell].
  rewrite (rep_head_cell _ _ _ _ _ Hr). cbn -[set_cell].
  rewrite set_cell_Ok by done. cbn. eexists. split; [done|]. by eapply rep_clear.
Qed.

Lemma scan_cells_rep {X} missing (keep : E → outcome X bool) buf head tail q :
  rep buf head tail q →
  scan_cells missing keep buf head tail =
  foldlM (λ acc o, b ← keep o; Ok (if (b : bool) then acc ++ [o] else acc)) [] q.
Proof.
  intros Hr. unfold scan_cells. replace (tail - head) with (length q).
  2:{ destruct Hr as [_ -> _ _]. lia. }
  match goal with |- foldlM ?f _ _ = foldlM ?g _ _ =>
    enough (∀ acc head, rep buf head tail q →
      foldlM f acc (seq head (length q)) = foldlM g acc q) by auto end.
  clear head Hr. induction q as [|e q IH]; intros acc head Hr; [done|]. cbn -[slot cell].
  rewrite slot_Ok by apply Hr. cbn -[cell]. rewrite (rep_head_cell _ _ _ _ _ Hr). cbn.
  destruct (keep e) as [b|err|w]; cbn; [|done..]. apply IH.
  replace (S head) with (head + 1) by lia. by eapply rep_drop.
Qed.
End ring.
Arguments RingBuf : clear implicits.
Arguments WatchCacheBuf : clear implicits.

(** ** Properties *)

(** The ring buffer is a bounded queue of the last [capacity] events: a new
    one is empty, [Push] appends and drops the oldest event only when the
    buffer is full, [Pop] removes the oldest, [Size] counts, the oldest event
    is the one [OldestIdx] points at; none of them panics on a buffer with a
    cell. *)
Theorem ring_is_bounded_queue {E} (cap : nat) :
  0 < cap →
  ring_rep (@RingBuf_New E cap) [] ∧
  ∀ (r : RingBuf E) q, ring_rep r q → length (rb_buf r) = cap →
    (∀ e, ∃ r', RingBuf_Push (X:=Share.Error) r e = Ok r' ∧ length (rb_buf r') = cap ∧
       ring_rep r' (push_bounded cap q e)) ∧
    (match q with
     | [] => RingBuf_Pop (X:=Share.Error) r = Ok (None, r)
     | e :: q' => ∃ r', RingBuf_Pop (X:=Share.Error) r = Ok (Some e, r') ∧ ring_rep r' q'
     end) ∧
    Size (X:=Share.Error) r = Ok (length q) ∧
    (∀ e q', q = e :: q' → ∃ i, OldestIdx (X:=Share.Error) r = Ok i ∧ rb_buf r !! i = Some (Some e)) ∧
    length q ≤ cap.
Proof.
  intros Hc. split; [by apply ring_rep_New|]. intros r q Hr <-. split_and!.
  - intros e. by apply ring_Push.
  - by apply ring_Pop.
  - by apply ring_Size.
  - intros e q' ->. destruct Hr as [H0 _ _ Hcell]. unfold OldestIdx. rewrite slot_Ok by done.
    eexists. split; [done|]. rewrite <-(Nat.add_0_r (rb_head r)). by apply (Hcell 0 e).
  - by destruct Hr.
Qed.

Lemma ring_is_bounded_queue_witness :
  ∃ r, RingBuf_Push (X:=Share.Error) (RingBuf_New 2) 7 = Ok r ∧ ring_rep r [7].
Proof.
  destruct (@ring_is_bounded_queue nat 2 ltac:(lia)) as (Hnew & H).
  destruct (H _ [] Hnew eq_refl) as (Hpush & _). destruct (Hpush 7) as (r & ? & _ & ?). by exists r.
Defined.

(** [WatchCacheBuf] is a queue that refuses an event instead of dropping one:
    [Push] on a full buffer hands the event back and changes nothing, otherwise
    it appends; [Pop] removes the oldest. *)
Theorem cache_buf_is_queue {E} (b : WatchCacheBuf E) q e :
  buf_rep b q →
  (∃ b', WatchCacheBuf_Push (X:=Share.Error) b e
         = Ok (if length q =? length (cb_buffer b) then Some e else None, b') ∧
     buf_rep b' (if length q =? length (cb_buffer b) then q else q ++ [e])) ∧
  (∃ b', WatchCacheBuf_Pop (X:=Share.Error) b = Ok (head q, b') ∧ buf_rep b' (tail q)).
Proof.
  intros Hr. pose proof Hr as [Hc Ht Hl Hcell]. split.
  - unfold WatchCacheBuf_Push, WatchCacheBuf_IsFull, capacity. rewrite decide_True by lia.
    replace (cb_tail b - cb_head b) with (length q) by lia. cbn -[slot set_cell].
    destruct (Nat.eqb_spec (length q) (length (cb_buffer b))) as [Hf|Hf]; [by eexists|].
    rewrite slot_Ok by done. cbn -[set_cell]. rewrite set_cell_Ok by done. cbn.
    eexists. split; [done|]. apply rep_append; [done|lia].
  - unfold WatchCacheBuf_Pop, WatchCacheBuf_IsEmpty. destruct q as [|e0 q]; simpl in Ht.
    { rewrite Ht, Nat.add_0_r, Nat.eqb_refl. by eexists. }
    destruct (Nat.eqb_spec (cb_head b) (cb_tail b)); [lia|].
    rewrite slot_Ok by done. cbn -[set_cell cell].
    rewrite (rep_head_cell _ _ _ _ _ Hr). cbn -[set_cell].
    rewrite set_cell_Ok by done. cbn. eexists. split; [done|]. by eapply rep_clear.
Qed.

Lemma cache_buf_is_queue_witness :
  ∃ b, WatchCacheBuf_Push (X:=Share.Error) WatchCacheBuf_New 7 = Ok (None, b) ∧ buf_rep b [7].
Proof.
  destruct (cache_buf_is_queue (E:=nat) WatchCacheBuf_New [] 7) as ((b & ? & ?) & _).
  { apply rep_empty. by vm_compute; lia. }
  by exists b.
Defined.
