(* ===== verification/CacheStore.v ===== *)
(** * The watch cache of one object type (ixshare/src/metastore/cache_store.rs)

    [CacheStore] is an [Arc<RwLock<CacheStoreInner>>]: an operation is a function
    on the inner record held while the lock is taken.  The revision counter is
    one atomic shared by all caches of a process, so it is a value of its own
    next to the record ([AtomicI64] is unbounded here).  [recordTime] is the
    argument [now]; the logging is left out. *)

From S2P Require Import Prelude.
From S2P Require Import Text.
From S2P Require Import BTree.
From S2P Require Import Common.
From S2P Require Import Validation.
From S2P Require Import Selector.
From S2P Require Import DataObj.
From S2P Require Import Watch.
From S2P Require Import Ring.

(** ixshare/src/metastore/cache_store.rs:35-35 [DEFAULT_CACHE_COUNT] *)
Definition DEFAULT_CACHE_COUNT : nat := 2000.

(** ixshare/src/metastore/cache_store.rs:60-62 [ChannelRev::Next]: the value returned,
    and the counter afterwards *)
Definition ChannelRev_Next (rev : Z) : Z * Z := ((rev + 1)%Z, (rev + 1)%Z).
(** ixshare/src/metastore/cache_store.rs:64-66 [ChannelRev::Current] *)
Definition ChannelRev_Current (rev : Z) : Z := (rev + 1)%Z.

(** ixshare/src/etcd/watch.rs:372-377 [DataObjList] *)
Record DataObjList (Value : Type) := MkDataObjList {
  dl_objs : list (DataObject Value);
  dl_revision : Z;
  dl_continue : option Continue;
  dl_remainCount : Z;
}.
Arguments MkDataObjList {Value}. Arguments dl_objs {Value}. Arguments dl_revision {Value}.
Arguments dl_continue {Value}. Arguments dl_remainCount {Value}.
Definition DataObjList_default {Value} : DataObjList Value := MkDataObjList [] 0 None 0.

(** ixshare/src/metastore/cache_store.rs:38-52 [BackendStore] *)
Record BackendStore (Value : Type) := MkBackend {
  bs_Get : string → Z → Share.Result (option (DataObject Value));
  bs_List : string → ListOption → Share.Result (DataObjList Value);
}.
Arguments bs_Get {Value}. Arguments bs_List {Value}. Arguments MkBackend {Value}.

Section cache.
Context {Value : Type} `{JsonOps Value} {S : Type} `{Chan S (WatchEvent Value)}.
Abbreviation Obj := (DataObject Value).
Abbreviation Event := (WatchCacheEvent Value).
Abbreviation Watcher := (CacheWatcher S).
Implicit Types (obj : Obj) (rev : Z).

(** ixshare/src/metastore/cache_store.rs:275-298 [CacheStoreInner] *)
Record CacheStoreInner := MkCacheStore {
  cs_backendStore : option (BackendStore Value);
  cs_objectType : string;
  cs_cache : RingBuf Event;
  cs_listRevision : Z;
  cs_lastWatcherId : Z;
  cs_cacheStore : gmap string Obj;
  cs_watchers : gmap Z Watcher;
}.
Implicit Types (self : CacheStoreInner).

Definition with_watchers self (ws : gmap Z Watcher) : CacheStoreInner :=
  MkCacheStore (cs_backendStore self) (cs_objectType self) (cs_cache self) (cs_listRevision self)
    (cs_lastWatcherId self) (cs_cacheStore self) ws.

(** ixshare/src/metastore/cache_store.rs:301-327 [CacheStoreInner::New] *)
Definition CacheStoreInner_New (store : option (BackendStore Value)) (objectType : string) : CacheStoreInner :=
  MkCacheStore store objectType (RingBuf_New DEFAULT_CACHE_COUNT) 0 0 ∅ ∅.
(** ixshare/src/metastore/cache_store.rs:333-335 [CacheStoreInner::StoreKey] *)
Definition CacheStore_StoreKey self (key : string) : string := cs_objectType self +:+ "/" +:+ key.
(** ixshare/src/metastore/cache_store.rs:473-478 [CacheStoreInner::GetByKey] *)
Definition GetByKey self (key : string) : option Obj := cs_cacheStore self !! key.
(** ixshare/src/metastore/cache_store.rs:239-241 [CacheStore::Contains] *)
Definition CacheStore_Contains self (key : string) : bool := bool_decide (is_Some (GetByKey self key)).
(** ixshare/src/metastore/cache_store.rs:180-182 [CacheStore::Count] *)
Definition CacheStore_Count self : nat := size (cs_cacheStore self).
(** ixshare/src/metastore/cache_store.rs:231-233 [CacheStore::GetObject] *)
Definition CacheStore_GetObject self (key : string) : option Obj := cs_cacheStore self !! key.

(** The loop [for (idx, w) in &mut self.watchers]: the watchers after it, and
    the ids to remove. *)
Definition send_one (wcEvent : Event) (acc : gmap Z Watcher * list Z) (entry : Z * Watcher)
  : Share.Result (gmap Z Watcher * list Z) :=
  let '(ws, removeWatches) := acc in
  let '(idx, w) := entry in
  let '(w, r) := SendWatchCacheEvent w wcEvent in
  match r with
  | Ok _ => Ok (<[idx := w]> ws, removeWatches)
  | Err _ => Ok (<[idx := w]> ws, removeWatches ++ [idx])
  | Panic why => Panic why
  end.
Definition send_loop (ws : gmap Z Watcher) (wcEvent : Event) : Share.Result (gmap Z Watcher * list Z) :=
  foldlM (send_one wcEvent) (ws, []) (entries ws).

(** [get older update, ignore this] *)
Definition stale self (event : WatchEvent Value) : bool :=
  match cs_cacheStore self !! Key (we_obj event) with
  | Some o => bool_decide (revision (we_obj event) ≤ revision o)%Z
  | None => false
  end.
(** [wcEvent] *)
Definition cache_event (now channelRev : Z) self (event : WatchEvent Value) : Event :=
  MkCacheEvent (EventType_DeepCopy (we_type event))
    (CopyWithRev (we_obj event) channelRev (revision (we_obj event)))
    (cs_cacheStore self !! Key (we_obj event)) channelRev (revision (we_obj event)) now.

(** ixshare/src/metastore/cache_store.rs:407-471 [CacheStoreInner::ProcessEvent] *)
Definition ProcessEvent (now : Z) rev self (event : WatchEvent Value) : Share.Result (Z * CacheStoreInner) :=
  let revision_ := revision (we_obj event) in
  let '(channelRev_, rev) := ChannelRev_Next rev in
  let key := Key (we_obj event) in
  if stale self event then Ok (rev, self)
  else
    let wcEvent := cache_event now channelRev_ self event in
    '(ws, removeWatches) ← send_loop (cs_watchers self) wcEvent;
    cache ← RingBuf_Push (cs_cache self) wcEvent;
    Ok (rev, MkCacheStore (cs_backendStore self) (cs_objectType self) cache (cs_listRevision self)
      (cs_lastWatcherId self)
      (if decide (we_type event = EDeleted) then delete key (cs_cacheStore self)
       else <[key := CopyWithRev (we_obj event) channelRev_ revision_]> (cs_cacheStore self))
      (foldl (λ ws idx, delete idx ws) ws removeWatches)).

(** ixshare/src/metastore/cache_store.rs:380-387 [CacheStoreInner::Add] *)
Definition Cache_Add (now : Z) rev self obj := ProcessEvent now rev self (MkWatchEvent EAdded (DataObject_DeepCopy obj)).
(** ixshare/src/metastore/cache_store.rs:398-405 [CacheStoreInner::Update] *)
Definition Cache_Update (now : Z) rev self obj := ProcessEvent now rev self (MkWatchEvent EModified (DataObject_DeepCopy obj)).
(** ixshare/src/metastore/cache_store.rs:389-396 [CacheStoreInner::Remove] *)
Definition Cache_Remove (now : Z) rev self obj := ProcessEvent now rev self (MkWatchEvent EDeleted (DataObject_DeepCopy obj)).

Definition refresh_events self (objs : list Obj) : list (WatchEvent Value) :=
  let set : gset string := list_to_set (Key <$> objs) in
  omap (λ obj, match cs_cacheStore self !! Key obj with
               | Some oldObj => if decide (revision oldObj ≠ revision obj)
                                then Some (MkWatchEvent EModified obj) else None
               | None => Some (MkWatchEvent EAdded obj)
               end) objs
  ++ omap (λ '(key, obj), if decide (key ∈ set) then None else Some (MkWatchEvent EDeleted obj))
       (entries (cs_cacheStore self)).
(** ixshare/src/metastore/cache_store.rs:337-378 [CacheStoreInner::Refresh] *)
Definition Refresh (now : Z) rev self (objs : list Obj) : Share.Result (Z * CacheStoreInner) :=
  foldlM (λ '(rev, self) event, ProcessEvent now rev self event) (rev, self) (refresh_events self objs).

(** ixshare/src/metastore/cache_store.rs:480-499 [CacheStoreInner::GetAllEventsFromStore] *)
Definition GetAllEventsFromStore (now : Z) self (pred : SelectionPredicate) : Share.Result (list Event) :=
  foldlM (λ buf '(_, obj),
    b ← Predicate_Match pred obj;
    if (b : bool)
    then Ok (buf ++ [MkCacheEvent EAdded obj None (channelRev obj) (revision obj) now])
    else Ok buf) [] (entries (cs_cacheStore self)).

(** ixshare/src/metastore/watch.rs:592-616 [RingBuf::GetAllEvents] *)
Definition RingBuf_GetAllEvents (self : RingBuf Event) (startRev : Z) (pred : SelectionPredicate) : Share.Result (list Event) :=
  scan_cells (Share.CommonError "watch cache isn't correctly initialized")
    (λ o, if decide (startRev ≤ wc_channelRev o)%Z then Predicate_Match pred (wc_obj o) else Ok false)
    (rb_buf self) (rb_head self) (rb_tail self).

(** [oldest], the first revision a watch can still start from *)
Definition oldest_rev self : Share.Result Z :=
  size ← Size (cs_cache self);
  if bool_decide (0 ≤ cs_listRevision self)%Z && (rb_tail (cs_cache self) =? 0)
  then Ok (cs_listRevision self + 1)%Z
  else if 0 <? size then
    idx ← OldestIdx (cs_cache self);
    c ← cell (rb_buf (cs_cache self)) idx;
    e ← unwrap_opt c;
    Ok (wc_channelRev e)
  else Err (Share.CommonError ("CacheStoreInner: watch cache isn't correctly initialized self.listRevision = "
              +:+ pretty (cs_listRevision self) +:+ " tail = " +:+ pretty (rb_tail (cs_cache self)))).

(** ixshare/src/metastore/cache_store.rs:501-552 [CacheStoreInner::GetAllEvents] *)
Definition GetAllEvents (now : Z) self (revision : Z) (pred : SelectionPredicate) : Share.Result (list Event) :=
  oldest ← oldest_rev self;
  if decide (revision = 0)%Z then GetAllEventsFromStore now self pred
  else if decide (revision < oldest - 1)%Z then
    Err (Share.CommonError ("too old resource version: " +:+ pretty revision +:+ " (" +:+ pretty (oldest - 1)%Z +:+ ")"))
  else RingBuf_GetAllEvents (cs_cache self) revision pred.

Definition replay (w : Watcher) (events : list Event) : Share.Result Watcher :=
  foldlM (λ w e, let '(w, r) := SendWatchCacheEvent w e in _ ← r; Ok w) w events.
Definition channel_size (events : list Event) : nat := max (length events + 200) DEFAULT_CACHE_COUNT.

(** ixshare/src/metastore/cache_store.rs:554-574 [CacheStoreInner::Watch]: the cache after
    the call, and the id of the stream it returns *)
Definition CacheStore_Watch (now : Z) self (namespace : string) (revision : Z) (predicate : SelectionPredicate)
  : CacheStoreInner * Share.Result Z :=
  let wid := (cs_lastWatcherId self + 1)%Z in
  let self := MkCacheStore (cs_backendStore self) (cs_objectType self) (cs_cache self)
                (cs_listRevision self) wid (cs_cacheStore self) (cs_watchers self) in
  match (events ← GetAllEvents now self revision predicate;
         replay (CacheWatcher_New wid (channel_size events) namespace predicate "") events) with
  | Ok watcher => (with_watchers self (<[wid := watcher]> (cs_watchers self)), Ok wid)
  | Err e => (self, Err e)
  | Panic w => (self, Panic w)
  end.

(** ixshare/src/metastore/cache_store.rs:130-141 [CacheStore::RemoveWatch] *)
Definition RemoveWatch self (watcherId : Z) : Share.Result CacheStoreInner :=
  match cs_watchers self !! watcherId with
  | None => Err (Share.CommonError ("doesn't existing watcher " +:+ pretty watcherId))
  | Some _ => Ok (with_watchers self (delete watcherId (cs_watchers self)))
  end.

(** ixshare/src/metastore/cache_store.rs:248-271 [CacheStore::WaitUntilRev]; [notified]: the
    notification comes before the 3 s timeout (nothing in the code base sends it) *)
Definition WaitUntilRev rev (notified : bool) (channelRev : Z) : Share.Result unit :=
  if decide (channelRev = 0)%Z then Ok tt
  else if decide (channelRev ≤ ChannelRev_Current rev)%Z then Ok tt
  else if notified then Ok tt else Err (Share.Timeout 3000).

(** ixshare/src/metastore/cache_store.rs:155-178 [CacheStore::Get] *)
Definition CacheStore_Get rev (notified : bool) self (tenant namespace name : string) (revision : Z)
  : Share.Result (option Obj) :=
  let objKey := tenant +:+ "/" +:+ namespace +:+ "/" +:+ name in
  if decide (revision = -1)%Z then
    match cs_backendStore self with
    | None => Ok None
    | Some s => bs_Get s (CacheStore_StoreKey self objKey) revision
    end
  else
    _ ← WaitUntilRev rev notified revision;
    Ok (cs_cacheStore self !! objKey).

Definition obj_key_prefix (tenant namespace : string) : string :=
  if len tenant =? 0 then ""
  else if len namespace =? 0 then tenant
  else tenant +:+ "/" +:+ namespace.
(** ixshare/src/metastore/cache_store.rs:184-225 [CacheStore::List] *)
Definition CacheStore_List rev (notified : bool) self (tenant namespace : string) (opts : ListOption)
  : Share.Result (DataObjList Value) :=
  if decide (lo_revision opts = -1)%Z then
    match cs_backendStore self with
    | None => Ok DataObjList_default
    | Some s =>
        let opts := ListOption_DeepCopy opts in
        bs_List s (CacheStore_StoreKey self namespace)
          (MkListOption 0 (lo_revisionMatch opts) (lo_predicate opts))
    end
  else
    _ ← WaitUntilRev rev notified (lo_revision opts);
    objs ← foldlM (λ objs '(_, obj),
      if starts_with (obj_key_prefix tenant namespace) (Key obj) then
        b ← Predicate_Match (lo_predicate opts) obj;
        if (b : bool) then Ok (objs ++ [obj]) else Ok objs
      else Ok objs) [] (entries (cs_cacheStore self));
    Ok (MkDataObjList objs (ChannelRev_Current rev) None 0).

(** ** What a client of a watch stream sees *)

(** Applying the events of a stream to a table of objects. *)
Definition apply_event (v : gmap string Obj) (e : WatchEvent Value) : gmap string Obj :=
  if decide (we_type e = EDeleted) then delete (Key (we_obj e)) v
  else <[Key (we_obj e) := we_obj e]> v.
Definition apply_events (v : gmap string Obj) (es : list (WatchEvent Value)) : gmap string Obj :=
  foldl apply_event v es.

(** The part of the store a watcher selects. *)
Definition selected (w : Watcher) (m : gmap string Obj) : gmap string Obj :=
  filter (λ '(k, o), Watcher_Match w k o = Ok true) m.

(** The store after an event of the cache's log. *)
Definition store_after (e : Event) (m : gmap string Obj) : gmap string Obj :=
  if decide (wc_type e = EDeleted) then delete (WatchCacheEvent_Key e) m
  else <[WatchCacheEvent_Key e := wc_obj e]> m.
(** The event's previous object is the one the store had, and is older. *)
Definition logged (e : Event) (m : gmap string Obj) : Prop :=
  wc_prevObj e = m !! WatchCacheEvent_Key e ∧ wc_revision e = revision (wc_obj e) ∧
  ∀ o, wc_prevObj e = Some o → (revision o < wc_revision e)%Z.

(** An event fits the table it is applied to: an addition is new, a change or a
    deletion is newer than what is there. *)
Definition event_ok (m : gmap string Obj) (e : WatchEvent Value) : Prop :=
  match we_type e with
  | EAdded => m !! Key (we_obj e) = None
  | EModified | EDeleted => ∃ o, m !! Key (we_obj e) = Some o ∧ (revision o < revision (we_obj e))%Z
  | _ => False
  end.
Fixpoint stream_ok (m : gmap string Obj) (es : list (WatchEvent Value)) : Prop :=
  match es with [] => True | e :: es => event_ok m e ∧ stream_ok (apply_event m e) es end.
Lemma stream_ok_snoc m es e : stream_ok m (es ++ [e]) ↔ stream_ok m es ∧ event_ok (apply_events m es) e.
Proof. revert m. induction es as [|e' es IH]; intros m; simpl; [tauto|]. rewrite IH. tauto. Qed.
(** Objects are stored under their keys. *)
Definition keyed (m : gmap string Obj) : Prop := map_Forall (λ k o, Key o = k) m.

Section spec.
Context `{!ChanSpec S (WatchEvent Value)}.

Lemma Key_CopyWithRev obj c r : Key (CopyWithRev obj c r) = Key obj.
Proof. done. Qed.
Lemma DeepCopy_id obj : DataObject_DeepCopy obj = obj.
Proof. destruct obj. unfold DataObject_DeepCopy. simpl. by rewrite !Labels_Copy_id. Qed.

(** A watcher looks at the same part whatever it has sent. *)
Lemma Match_with_sender (w : Watcher) s k obj : Watcher_Match (with_sender w s) k obj = Watcher_Match w k obj.
Proof. done. Qed.
Lemma selected_with_sender w s m : selected (with_sender w s) m = selected w m.
Proof. done. Qed.
Lemma Send_keeps (w : Watcher) e w' r :
  SendWatchCacheEvent w e = (w', r) → ∃ s, w' = with_sender w s.
Proof.
  unfold SendWatchCacheEvent. intros Hs.
  destruct (ConvertToWatchEvent w e) as [[we|]|err|why].
  - destruct (try_send (cw_sender w) we) as [s x]. injection Hs as <- _. by eexists.
  - injection Hs as <- _. exists (cw_sender w). by destruct w.
  - injection Hs as <- _. exists (cw_sender w). by destruct w.
  - injection Hs as <- _. exists (cw_sender w). by destruct w.
Qed.

Lemma selected_lookup w m k : selected w m !! k = m !! k ≫= λ o, if decide (Watcher_Match w k o = Ok true) then Some o else None.
Proof. unfold selected. rewrite map_lookup_filter. destruct (m !! k); [|done]. simpl. unfold guard. by case_decide. Qed.

Lemma keyed_after e m : keyed m → keyed (store_after e m).
Proof.
  intros Hm. unfold store_after. case_decide; [by apply map_Forall_delete|].
  by apply map_Forall_insert_2.
Qed.

Lemma store_after_eq e m :
  store_after e m !! WatchCacheEvent_Key e = if decide (wc_type e = EDeleted) then None else Some (wc_obj e).
Proof. unfold store_after. case_decide; [apply lookup_delete_eq|apply lookup_insert_eq]. Qed.
Lemma store_after_ne e m k : k ≠ WatchCacheEvent_Key e → store_after e m !! k = m !! k.
Proof. intros Hk. unfold store_after. case_decide; [by apply lookup_delete_ne|by apply lookup_insert_ne]. Qed.

Lemma apply_insert (m m' : gmap string Obj) k ty obj :
  m' !! k = Some obj → (∀ k', k' ≠ k → m' !! k' = m !! k') → Key obj = k → ty ≠ EDeleted →
  m' = apply_event m (MkWatchEvent ty obj).
Proof.
  intros Hk Hne Hkey Hty. unfold apply_event. rewrite decide_False by done. simpl. rewrite Hkey.
  apply map_eq. intros k'. destruct (decide (k' = k)) as [->|Hn].
  - by rewrite Hk, lookup_insert_eq. - by rewrite Hne, lookup_insert_ne.
Qed.

(** The translated event takes the selected part of the store to the selected
    part of the store after it. *)
Lemma convert_apply (w : Watcher) e m c :
  keyed m → logged e m → ConvertToWatchEvent w e = Ok c →
  match c with
  | Some we => selected w (store_after e m) = apply_event (selected w m) we ∧ event_ok (selected w m) we
  | None => selected w (store_after e m) = selected w m
  end.
Proof.
  intros Hm (Hlog & Hrev & Hnew) Hc. unfold ConvertToWatchEvent in Hc.
  set (k := WatchCacheEvent_Key e) in *.
  apply bind_Ok in Hc as (cur & Hcur & Hc). apply bind_Ok in Hc as (old & Hold & Hc).
  (* what the store after the event holds at the key, selected *)
  assert (selected w (store_after e m) !! k = if cur then Some (wc_obj e) else None) as Hk.
  { unfold k. rewrite selected_lookup, store_after_eq.
    destruct (decide (wc_type e = EDeleted)) as [Ht|Ht].
    - rewrite decide_False in Hcur by tauto. by injection Hcur as <-.
    - rewrite decide_True in Hcur by done. cbn. fold k. rewrite Hcur. destruct cur; by case_decide. }
  assert (selected w m !! k = if old then m !! k else None) as Hk0.
  { rewrite selected_lookup. rewrite Hlog in Hold. destruct (m !! k) as [o|]; cbn; [|by destruct old].
    rewrite Hold. destruct old; by case_decide. }
  assert (∀ k', k' ≠ k → selected w (store_after e m) !! k' = selected w m !! k') as Hne.
  { intros k' Hk'. by rewrite !selected_lookup, store_after_ne. }
  assert (Key (wc_obj e) = k) as Hkey by done.
  assert (∀ o, old = true → m !! k = Some o → selected w m !! k = Some o) as Hsel.
  { intros o -> Ho. by rewrite Hk0. }
  destruct cur, old; simpl in Hc.
  - injection Hc as <-. rewrite DeepCopy_id. split; [by apply (apply_insert _ _ k)|].
    destruct (m !! k) as [o|] eqn:Ho; [|by rewrite Hlog in Hold].
    exists o. split; [by apply Hsel|]. simpl. rewrite <-Hrev. by apply Hnew.
  - injection Hc as <-. rewrite DeepCopy_id. split; [by apply (apply_insert _ _ k)|]. done.
  - rewrite Hlog in Hc. destruct (m !! k) as [o|] eqn:Ho; [|done]. simpl in Hc. injection Hc as <-.
    pose proof (Hm _ _ Ho) as Hko. split.
    + unfold apply_event. rewrite decide_True by done. simpl. rewrite Key_CopyWithRev, Hko.
      apply map_eq. intros k'. destruct (decide (k' = k)) as [->|Hn].
      * by rewrite Hk, lookup_delete_eq. * by rewrite Hne, lookup_delete_ne.
    + exists o. simpl. rewrite Key_CopyWithRev, Hko. split; [by apply Hsel|]. by apply Hnew.
  - injection Hc as <-. apply map_eq. intros k'. destruct (decide (k' = k)) as [->|Hn]; [|auto].
    by rewrite Hk, Hk0.
Qed.

(** A client that starts from [base] and has applied what [w] sent sees the
    selected part of [m]. *)
Definition synced (base : gmap string Obj) (w : Watcher) (m : gmap string Obj) : Prop :=
  apply_events base (sent (cw_sender w)) = selected w m ∧ stream_ok base (sent (cw_sender w)).

Lemma send_synced base w e m w' :
  keyed m → logged e m → synced base w m → SendWatchCacheEvent w e = (w', Ok tt) →
  synced base w' (store_after e m).
Proof.
  intros Hm Hlog [Hs Hok] Hsend. unfold SendWatchCacheEvent in Hsend.
  destruct (ConvertToWatchEvent w e) as [[we|]|err|why] eqn:Hc; try done;
    pose proof (convert_apply _ _ _ _ Hm Hlog Hc) as Hap.
  - destruct Hap as [Hap Hev]. destruct (try_send (cw_sender w) we) as [s x] eqn:Hx.
    destruct x as [[]|]; simplify_eq. unfold synced. simpl.
    rewrite selected_with_sender, Hap, (try_send_ok _ _ _ Hx). split.
    + unfold apply_events. rewrite foldl_app. simpl. f_equal. exact Hs.
    + apply stream_ok_snoc. by rewrite Hs.
  - simplify_eq. unfold synced. by rewrite Hap.
Qed.

Lemma send_loop_aux e l m rm m' rm' :
  NoDup l.*1 →
  foldlM (send_one e) (m, rm) l = Ok (m', rm') →
  ∀ id : Z, match (list_to_map l : gmap Z Watcher) !! id with
        | Some w => ∃ w', m' !! id = Some w' ∧
            ((SendWatchCacheEvent w e = (w', Ok tt) ∧ (id ∈ rm' ↔ id ∈ rm)) ∨
             (∃ x, SendWatchCacheEvent w e = (w', Err x)) ∧ id ∈ rm')
        | None => m' !! id = m !! id ∧ (id ∈ rm' ↔ id ∈ rm)
        end.
Proof.
  revert m rm. induction l as [|[i w] l IH]; intros m rm Hnd Hrun id; simpl in *.
  { by injection Hrun as <- <-. }
  inversion Hnd as [|?? Hni Hnd']; subst.
  assert ((list_to_map l : gmap Z Watcher) !! i = None) as Hnone.
  { by apply not_elem_of_list_to_map. }
  destruct (SendWatchCacheEvent w e) as [w' r] eqn:Hs.
  destruct (decide (id = i)) as [->|Hne].
  - rewrite lookup_insert_eq. destruct r as [[]|x|why]; simpl in Hrun; [| |done];
      pose proof (IH _ _ Hnd' Hrun i) as Hi; rewrite Hnone in Hi; destruct Hi as [Hm Hrm];
      rewrite lookup_insert_eq in Hm; exists w'; (split; [done|]); [by left|right].
    split; [by eexists|]. apply Hrm. set_solver.
  - rewrite lookup_insert_ne by done. destruct r as [[]|x|why]; simpl in Hrun; [| |done];
      pose proof (IH _ _ Hnd' Hrun id) as Hi; destruct (list_to_map l !! id) as [w0|].
    + done.
    + by rewrite lookup_insert_ne in Hi.
    + destruct Hi as (w1 & ? & [[? ?]|?]); exists w1; (split; [done|]); [left|by right].
      split; [done|]. set_solver.
    + rewrite lookup_insert_ne in Hi by done. set_solver.
Qed.

Lemma foldl_delete_lookup (m : gmap Z Watcher) rm id :
  foldl (λ ws idx, delete idx ws) m rm !! id = if decide (id ∈ rm) then None else m !! id.
Proof.
  revert m. induction rm as [|i rm IH]; intros m; simpl; [done|]. rewrite IH.
  destruct (decide (id = i)) as [->|Hne].
  - rewrite lookup_delete_eq. rewrite (decide_True (P:=i ∈ i :: rm)) by set_solver. by case_decide.
  - rewrite lookup_delete_ne by done. by destruct (decide (id ∈ rm)), (decide (id ∈ i :: rm)); set_solver.
Qed.

(** The watchers that could be sent the event stay, the others are removed. *)
Lemma send_loop_spec ws e ws' rm id :
  send_loop ws e = Ok (ws', rm) →
  foldl (λ ws idx, delete idx ws) ws' rm !! id =
  ws !! id ≫= λ w, match SendWatchCacheEvent w e with (w', Ok _) => Some w' | _ => None end.
Proof.
  intros Hrun. pose proof (send_loop_aux _ _ _ _ _ _ (NoDup_keys ws) Hrun id) as Hid.
  rewrite list_to_map_entries in Hid. rewrite foldl_delete_lookup.
  destruct (ws !! id) as [w|]; simpl.
  - destruct Hid as (w' & Hm & [[Hs Hrm]|[[x Hs] Hrm]]); rewrite Hs.
    + rewrite decide_False by set_solver. done.
    + by rewrite decide_True.
  - destruct Hid as [-> Hrm]. by rewrite decide_False by set_solver.
Qed.

Lemma send_loop_no_Err ws e x : send_loop ws e ≠ Err x.
Proof.
  unfold send_loop. generalize (ws, @nil Z). induction (entries ws) as [|[i w] l IH]; intros [m rm]; [done|].
  simpl. destruct (SendWatchCacheEvent w e) as [w' [[]|y|y]]; simpl; try apply IH; done.
Qed.

(** ** The invariant, and the runs of a cache *)

(** [q] is the content of the ring, oldest first. *)
Record cache_inv rev (q : list Event) self : Prop := {
  ci_keyed : keyed (cs_cacheStore self);
  ci_ring : ring_rep (cs_cache self) q;
  ci_cap : length (rb_buf (cs_cache self)) = DEFAULT_CACHE_COUNT;
  ci_start : q = [] → rb_tail (cs_cache self) = 0;
  ci_past e : e ∈ q → (wc_channelRev e ≤ rev)%Z;
  ci_rev : (0 ≤ rev)%Z;
  ci_list : cs_listRevision self = 0%Z;
  ci_ids id : is_Some (cs_watchers self !! id) → (id ≤ cs_lastWatcherId self)%Z;
}.

Lemma cap_pos : 0 < DEFAULT_CACHE_COUNT.
Proof. unfold DEFAULT_CACHE_COUNT. lia. Qed.

Lemma cache_inv_New store objectType rev : (0 ≤ rev)%Z → cache_inv rev [] (CacheStoreInner_New store objectType).
Proof.
  intros Hrev. split; simpl; try done.
  - apply ring_rep_New, cap_pos.
  - by intros e ?%elem_of_nil.
  - by intros id []%lookup_empty_is_Some.
Qed.

Lemma cache_inv_rev rev rev' q self : (rev ≤ rev')%Z → cache_inv rev q self → cache_inv rev' q self.
Proof.
  intros Hle []. split; try done; [|lia]. intros e He. etrans; [by apply ci_past0|done].
Qed.

(** The log entries an event adds: none when it is stale. *)
Definition event_log (now : Z) rev self (event : WatchEvent Value) : list Event :=
  if stale self event then [] else [cache_event now (rev + 1) self event].

Lemma cache_event_logged now rev self event :
  stale self event = false → logged (cache_event now rev self event) (cs_cacheStore self).
Proof.
  intros Hst. split_and!; [done..|]. intros o Ho. unfold stale in Hst. simpl in *. rewrite Ho in Hst.
  apply bool_decide_eq_false in Hst. lia.
Qed.

(** One event: the log grows, the store takes it, the watchers that could be
    told stay. *)
Lemma ProcessEvent_spec now rev q self event rev' self' :
  cache_inv rev q self → ProcessEvent now rev self event = Ok (rev', self') →
  let es := event_log now rev self event in
  rev' = (rev + 1)%Z ∧
  cache_inv rev' (foldl (push_bounded DEFAULT_CACHE_COUNT) q es) self' ∧
  cs_cacheStore self' = foldl (λ m e, store_after e m) (cs_cacheStore self) es ∧
  cs_lastWatcherId self' = cs_lastWatcherId self ∧
  ∀ id, cs_watchers self' !! id =
    foldl (λ w e, w ≫= λ w, match SendWatchCacheEvent w e with (w', Ok _) => Some w' | _ => None end)
      (cs_watchers self !! id) es.
Proof.
  intros Hinv Hrun. unfold event_log. unfold ProcessEvent in Hrun.
  cbn -[send_loop RingBuf_Push cache_event] in Hrun. destruct (stale self event) eqn:Hst.
  { injection Hrun as <- <-. simpl. split_and!; try done. eapply cache_inv_rev; [|done]. lia. }
  set (e := cache_event now (rev + 1) self event) in *.
  apply bind_Ok in Hrun as ([ws rm] & Hsend & Hrun). apply bind_Ok in Hrun as (cache & Hpush & Hrun).
  injection Hrun as <- <-. simpl. pose proof Hinv as [Hk Hr Hc Hstart Hp Hrev Hl Hids].
  destruct (ring_Push (X:=Share.Error) _ _ e Hr) as (r' & Hpush' & Hc' & Hr').
  rewrite Hpush in Hpush'. injection Hpush' as <-.
  pose proof (λ id, send_loop_spec _ _ _ _ id Hsend) as Hws.
  assert (∀ m, (if decide (we_type event = EDeleted) then delete (Key (we_obj event)) m
     else <[Key (we_obj event) := CopyWithRev (we_obj event) (rev + 1) (revision (we_obj event))]> m)
     = store_after e m) as Hst'.
  { intros m. unfold store_after. change (WatchCacheEvent_Key e) with (Key (we_obj event)).
    change (wc_type e) with (EventType_DeepCopy (we_type event)).
    by destruct (we_type event). }
  split_and!; try done. split; simpl; try done.
  - rewrite Hst'. by apply keyed_after.
  - by rewrite <-Hc.
  - by rewrite Hc', Hc.
  - unfold push_bounded. by intros [_ ?]%app_eq_nil.
  - unfold push_bounded. intros e' [He'| ->%list_elem_of_singleton]%elem_of_app; [|done].
    etrans; [apply Hp|lia]. case_match; [|done]. by apply (subseteq_drop 1 q).
  - lia.
  - intros id. rewrite Hws. destruct (cs_watchers self !! id) eqn:Hid; simpl; [|by intros []].
    intros _. apply Hids. by eexists.
Qed.

(** Runs: events, watches and their end, the counter taken by another cache of
    the process, and a reader taking messages off its channel ([sent] is what
    was sent).  The log collects the entries added to the ring. *)
Inductive cache_step : Z * CacheStoreInner → list Event → Z * CacheStoreInner → Prop :=
| step_event now event rev self rev' self' :
    ProcessEvent now rev self event = Ok (rev', self') →
    cache_step (rev, self) (event_log now rev self event) (rev', self')
| step_watch now namespace revision predicate rev self self' res :
    CacheStore_Watch now self namespace revision predicate = (self', res) → no_panic res →
    cache_step (rev, self) [] (rev, self')
| step_unwatch wid rev self self' :
    RemoveWatch self wid = Ok self' → cache_step (rev, self) [] (rev, self')
| step_counter rev rev' self :
    (rev ≤ rev')%Z → cache_step (rev, self) [] (rev', self)
| step_recv wid w s rev self :
    cs_watchers self !! wid = Some w → sent s = sent (cw_sender w) →
    cache_step (rev, self) [] (rev, with_watchers self (<[wid := with_sender w s]> (cs_watchers self))).

Inductive cache_steps : Z * CacheStoreInner → list Event → Z * CacheStoreInner → Prop :=
| steps_refl c : cache_steps c [] c
| steps_step c1 es1 c2 es2 c3 : cache_step c1 es1 c2 → cache_steps c2 es2 c3 → cache_steps c1 (es1 ++ es2) c3.

(** A watch changes nothing but the watchers. *)
Lemma Watch_frame now self ns r pred self' res :
  CacheStore_Watch now self ns r pred = (self', res) →
  cs_cacheStore self' = cs_cacheStore self ∧ cs_cache self' = cs_cache self ∧
  cs_listRevision self' = cs_listRevision self ∧
  cs_lastWatcherId self' = (cs_lastWatcherId self + 1)%Z ∧
  ∀ id, (id ≤ cs_lastWatcherId self)%Z → cs_watchers self' !! id = cs_watchers self !! id.
Proof.
  unfold CacheStore_Watch. case_match; intros [= <- <-]; simpl; split_and!; try done.
  intros id Hid. rewrite lookup_insert_ne by lia. done.
Qed.
Lemma Watch_other now self ns r pred self' res id :
  CacheStore_Watch now self ns r pred = (self', res) → (cs_lastWatcherId self + 1 < id)%Z →
  cs_watchers self' !! id = cs_watchers self !! id.
Proof.
  unfold CacheStore_Watch. case_match; intros [= <- <-] Hid; simpl; try done.
  rewrite lookup_insert_ne by lia. done.
Qed.

Lemma cache_inv_watchers rev q self self' :
  cache_inv rev q self → cs_cacheStore self' = cs_cacheStore self → cs_cache self' = cs_cache self →
  cs_listRevision self' = cs_listRevision self →
  (∀ id, is_Some (cs_watchers self' !! id) → (id ≤ cs_lastWatcherId self')%Z) →
  cache_inv rev q self'.
Proof. intros [] Hs Hc Hl Hids. split; rewrite ?Hs, ?Hc, ?Hl; done. Qed.

Lemma cache_step_inv rev q self es rev' self' :
  cache_step (rev, self) es (rev', self') → cache_inv rev q self →
  cache_inv rev' (foldl (push_bounded DEFAULT_CACHE_COUNT) q es) self' ∧ (rev ≤ rev')%Z ∧
  cs_cacheStore self' = foldl (λ m e, store_after e m) (cs_cacheStore self) es ∧
  (cs_lastWatcherId self ≤ cs_lastWatcherId self')%Z.
Proof.
  intros Hst Hinv. inversion Hst; subst.
  - destruct (ProcessEvent_spec _ _ _ _ _ _ _ Hinv ltac:(eassumption)) as (-> & ? & ? & -> & _).
    split_and!; try done; lia.
  - edestruct Watch_frame as (Hs & Hc & Hl & Hid & _); [eassumption|]. simpl.
    split_and!; try done; [|lia]. eapply cache_inv_watchers; try done.
    intros id [w Hw]. rewrite Hid. destruct (decide (id ≤ cs_lastWatcherId self + 1)%Z); [done|].
    erewrite Watch_other in Hw by (eassumption || lia).
    assert (id ≤ cs_lastWatcherId self)%Z; [|lia]. eapply ci_ids; [done|by eexists].
  - unfold RemoveWatch in *. case_match; simplify_eq. simpl. split_and!; try done.
    eapply cache_inv_watchers; try done. simpl. intros id Hid. eapply ci_ids; [done|].
    destruct Hid as [w Hw]. apply lookup_delete_Some in Hw as [_ Hw]. by eexists.
  - simpl. split_and!; try done. by eapply cache_inv_rev.
  - simpl. split_and!; try done. eapply cache_inv_watchers; try done. simpl. intros id [w' Hw].
    eapply ci_ids; [done|]. destruct (decide (id = wid)) as [->|Hne]; [by eexists|].
    rewrite lookup_insert_ne in Hw by done. by eexists.
Qed.

Lemma cache_steps_inv rev q self es rev' self' :
  cache_steps (rev, self) es (rev', self') → cache_inv rev q self →
  cache_inv rev' (foldl (push_bounded DEFAULT_CACHE_COUNT) q es) self' ∧ (rev ≤ rev')%Z ∧
  cs_cacheStore self' = foldl (λ m e, store_after e m) (cs_cacheStore self) es.
Proof.
  intros Hst. remember (rev, self) as c eqn:Hc. remember (rev', self') as c' eqn:Hc'.
  revert rev self q Hc Hc'. induction Hst as [c|c1 es1 [rev1 self1] es2 c3 Hstep Hst IH];
    intros rev self q -> Hc' Hinv.
  { injection Hc' as -> ->. done. }
  destruct (cache_step_inv _ _ _ _ _ _ Hstep Hinv) as (Hinv1 & Hle & Hs & _).
  destruct (IH _ _ _ eq_refl Hc' Hinv1) as (Hinv2 & Hle2 & Hs2).
  rewrite !foldl_app, <-Hs. split_and!; try done. lia.
Qed.

(** ** Replays *)

Fixpoint chain (m : gmap string Obj) (es : list Event) : Prop :=
  match es with [] => True | e :: es => logged e m ∧ chain (store_after e m) es end.

Lemma chain_app m es1 es2 :
  chain m (es1 ++ es2) ↔ chain m es1 ∧ chain (foldl (λ m e, store_after e m) m es1) es2.
Proof. revert m. induction es1 as [|e es1 IH]; intros m; simpl; [tauto|]. rewrite IH. tauto. Qed.

Lemma replay_cons w e es :
  replay w (e :: es) = let '(w1, r) := SendWatchCacheEvent w e in _ ← r; replay w1 es.
Proof. unfold replay. simpl. by destruct (SendWatchCacheEvent w e) as [w1 []]. Qed.

(** Replaying a log, events without effect on what is selected left out. *)
Lemma replay_synced base w w' m es (P : Event → Prop) `{∀ e, Decision (P e)} :
  keyed m → chain m es → synced base w m →
  (∀ e m, e ∈ es → ¬ P e → logged e m → selected w (store_after e m) = selected w m) →
  replay w (filter P es) = Ok w' →
  synced base w' (foldl (λ m e, store_after e m) m es) ∧ ∃ s, w' = with_sender w s.
Proof.
  revert w m. induction es as [|e es IH]; intros w m Hm Hch Hs Hskip Hrun; simpl in Hch.
  { injection Hrun as <-. split; [done|]. exists (cw_sender w). by destruct w. }
  destruct Hch as [Hlog Hch]. simpl. destruct (decide (P e)) as [HP|HP].
  - rewrite filter_cons_True, replay_cons in Hrun by done.
    destruct (SendWatchCacheEvent w e) as [w1 [[]|x|y]] eqn:Hsend; try done. simpl in Hrun.
    destruct (Send_keeps _ _ _ _ Hsend) as [s ->].
    destruct (IH (with_sender w s) (store_after e m)) as (? & s' & ->); try done.
    + by apply keyed_after. + by eapply send_synced.
    + intros e' m' He' Hn Hl'. rewrite !selected_with_sender. apply Hskip; [by right|done..].
    + split; [done|]. by exists s'.
  - rewrite filter_cons_False in Hrun by done. apply (IH w); try done.
    + by apply keyed_after.
    + unfold synced. by rewrite (Hskip e m) by (done || by left).
    + intros e' m' He'. apply Hskip. by right.
Qed.

Lemma cache_step_chain c es c' q :
  cache_step c es c' → cache_inv c.1 q c.2 → chain (cs_cacheStore c.2) es.
Proof.
  intros Hst Hinv. inversion Hst; subst; simpl; try done.
  unfold event_log. destruct (stale self event) eqn:Hs; [done|]. split; [by apply cache_event_logged|done].
Qed.

Lemma cache_step_log c es c' q :
  cache_step c es c' → cache_inv c.1 q c.2 → ∀ e, e ∈ es → (c.1 < wc_channelRev e)%Z.
Proof.
  intros Hst Hinv e He. inversion Hst; subst; simpl in *; try by apply elem_of_nil in He.
  unfold event_log in He. destruct (stale self event); [by apply elem_of_nil in He|].
  apply list_elem_of_singleton in He as ->. simpl. lia.
Qed.

Lemma cache_steps_chain c es c' q :
  cache_steps c es c' → cache_inv c.1 q c.2 →
  chain (cs_cacheStore c.2) es ∧ ∀ e, e ∈ es → (c.1 < wc_channelRev e)%Z.
Proof.
  intros Hst. revert q. induction Hst as [c|c1 es1 c2 es2 c3 Hstep Hst IH]; intros q Hinv.
  { split; [done|]. by intros e ?%elem_of_nil. }
  pose proof (cache_step_chain _ _ _ _ Hstep Hinv) as Hch. pose proof (cache_step_log _ _ _ _ Hstep Hinv) as Hlog.
  destruct c1 as [rev1 self1], c2 as [rev2 self2]. simpl in *.
  destruct (cache_step_inv _ _ _ _ _ _ Hstep Hinv) as (Hinv2 & Hle & Hs & _).
  destruct (IH _ Hinv2) as [Hch2 Hlog2]. rewrite Hs in Hch2. split; [by apply chain_app|].
  intros e [He|He]%elem_of_app; [auto|]. specialize (Hlog2 _ He). lia.
Qed.

(** ** A watcher through a run *)

(** Watcher [wid], as long as it is there, selects by [namespace] and
    [predicate] and is in step with the store. *)
Definition tracked base (wid : Z) namespace predicate self : Prop :=
  (wid ≤ cs_lastWatcherId self)%Z ∧
  ∀ w, cs_watchers self !! wid = Some w →
    cw_namespace w = namespace ∧ cw_predicate w = predicate ∧ synced base w (cs_cacheStore self).

Lemma cache_step_tracked base wid ns pred rev q self es rev' self' :
  cache_inv rev q self → cache_step (rev, self) es (rev', self') →
  tracked base wid ns pred self → tracked base wid ns pred self'.
Proof.
  intros Hinv Hst [Hid Hw]. pose proof (cache_step_inv _ _ _ _ _ _ Hst Hinv) as (_ & _ & _ & Hlast).
  split; [lia|]. intros w Hw'. inversion Hst; subst; simpl in *.
  - edestruct ProcessEvent_spec as (_ & _ & -> & _ & Hws); [done..|]. rewrite Hws in Hw'.
    unfold event_log in *. destruct (stale self event) eqn:Hst'; simpl in *; [by apply Hw|].
    destruct (cs_watchers self !! wid) as [w0|] eqn:Hw0; simpl in Hw'; [|done].
    destruct (Hw w0 eq_refl) as (? & ? & ?).
    destruct (SendWatchCacheEvent w0 _) as [w1 [[]|x|y]] eqn:Hsend; simplify_eq.
    destruct (Send_keeps _ _ _ _ Hsend) as [s ->]. split_and!; try done.
    eapply send_synced; [by apply Hinv|by apply cache_event_logged|done..].
  - edestruct Watch_frame as (-> & _ & _ & _ & Hold); [eassumption|]. apply Hw. by rewrite <-Hold.
  - unfold RemoveWatch in *. case_match; simplify_eq. simpl in *. apply Hw.
    by apply lookup_delete_Some in Hw' as [_ ?].
  - by apply Hw.
  - destruct (decide (wid = wid0)) as [->|Hne].
    + rewrite lookup_insert_eq in Hw'. simplify_eq. simpl.
      edestruct Hw as (? & ? & Hsy); [done|]. split_and!; try done. unfold synced in *. simpl.
      rewrite selected_with_sender. destruct Hsy as [<- ?]. split; congruence.
    + rewrite lookup_insert_ne in Hw' by done. by apply Hw.
Qed.

Lemma cache_steps_tracked base wid ns pred c es c' q :
  cache_steps c es c' → cache_inv c.1 q c.2 →
  tracked base wid ns pred c.2 → tracked base wid ns pred c'.2.
Proof.
  intros Hst. revert q. induction Hst as [c|[rev1 self1] es1 [rev2 self2] es2 c3 Hstep Hst IH];
    intros q Hinv Htr; [done|]. simpl in *.
  destruct (cache_step_inv _ _ _ _ _ _ Hstep Hinv) as (Hinv2 & _).
  eapply IH; [done|]. exact (cache_step_tracked _ _ _ _ _ _ _ _ _ _ Hinv Hstep Htr).
Qed.

(** ** Where a watch starts *)

Lemma from_store_Ok now self pred l :
  GetAllEventsFromStore now self pred = Ok l →
  l = (λ '(k, o), MkCacheEvent EAdded o None (channelRev o) (revision o) now) <$>
        filter (λ '(k, o), Predicate_Match pred o = Ok true) (entries (cs_cacheStore self)).
Proof.
  intros Hl. eapply (foldlM_filter _ (λ '(k, o), Predicate_Match pred o)
    (λ '(k, o), MkCacheEvent EAdded o None (channelRev o) (revision o) now)) in Hl as [-> _].
  - simpl. f_equal. apply list_filter_iff. by intros [k o].
  - intros acc [k o]. destruct (Predicate_Match pred o) as [[]|e|w]; done.
Qed.

(** The events that build a store from nothing. *)
Lemma chain_from_empty (mk : Obj → Event) (l : list (string * Obj)) m :
  (∀ o, wc_prevObj (mk o) = None ∧ wc_type (mk o) = EAdded ∧ wc_obj (mk o) = o ∧
     wc_revision (mk o) = revision o) →
  NoDup l.*1 → (∀ k o, (k, o) ∈ l → Key o = k ∧ m !! k = None) →
  chain m ((λ '(k, o), mk o) <$> l) ∧
  foldl (λ m e, store_after e m) m ((λ '(k, o), mk o) <$> l) = list_to_map l ∪ m.
Proof.
  intros Hmk. revert m. induction l as [|[k o] l IH]; intros m Hnd Hl; csimpl.
  { split; [done|]. by rewrite (left_id_L ∅ (∪)). }
  inversion Hnd as [|?? Hni Hnd']; subst.
  destruct (Hmk o) as (Hp & Ht & Ho & Hr). destruct (Hl k o ltac:(by left)) as [Hkey Hnone].
  assert (WatchCacheEvent_Key (mk o) = k) as Hk by (unfold WatchCacheEvent_Key; by rewrite Ho).
  assert (store_after (mk o) m = <[k := o]> m) as Hs.
  { unfold store_after. rewrite Ht, Hk, Ho. done. }
  rewrite Hs. destruct (IH (<[k := o]> m)) as [Hch Hf]; [done| |].
  { intros k' o' Hin. destruct (Hl k' o' ltac:(by right)) as [? ?]. split; [done|].
    rewrite lookup_insert_ne; [done|]. intros ->. apply Hni. apply list_elem_of_fmap. by exists (k', o'). }
  split; [split; [unfold logged; by rewrite Hp, Hk, Hnone, Ho, Hr|done]|].
  rewrite Hf. rewrite <-insert_union_l. rewrite insert_union_r; [done|]. by apply not_elem_of_list_to_map.
Qed.

(** A watch from revision 0 starts in step with the store. *)
Lemma Watch_now_tracked now self ns pred self' wid :
  keyed (cs_cacheStore self) →
  CacheStore_Watch now self ns 0 pred = (self', Ok wid) → tracked ∅ wid ns pred self'.
Proof.
  intros Hk Hw. unfold CacheStore_Watch in Hw. case_match eqn:Hrun; simplify_eq.
  apply bind_Ok in Hrun as (events & Hev & Hrun). unfold GetAllEvents in Hev.
  apply bind_Ok in Hev as (oldest & _ & Hev). simpl in Hev.
  apply from_store_Ok in Hev. set (m := cs_cacheStore self) in *.
  set (l := filter _ _) in Hev.
  destruct (chain_from_empty (λ o, MkCacheEvent EAdded o None (channelRev o) (revision o) now) l ∅) as [Hch Hf].
  { done. }
  { apply NoDup_filter_entries. }
  { intros k o [_ Hin]%list_elem_of_filter. apply elem_of_entries in Hin. split; [by apply Hk|done]. }
  rewrite <-Hev in Hch, Hf. rewrite (right_id_L ∅ (∪)) in Hf.
  rewrite <-(filter_all (λ _, True) events) in Hrun at 2 by done.
  eapply (replay_synced ∅ _ _ ∅) in Hrun as [Hs [s ->]]; try done.
  2:{ unfold synced. simpl. rewrite sent_new. unfold selected. by rewrite map_filter_empty. }
  destruct Hs as [Hs Hok].
  split; [simpl; lia|]. intros w. simpl. rewrite lookup_insert_eq. intros [= <-]. split_and!; try done.
  split; [|done]. rewrite Hs, Hf. unfold l. rewrite list_to_map_filter_entries.
  unfold selected. rewrite map_filter_filter_l; [done|]. intros k o _.
  unfold Watcher_Match. simpl. by destruct (starts_with ns k).
Qed.

(** The answer of [List], as a table. *)
Definition table (l : DataObjList Value) : gmap string Obj := list_to_map ((λ o, (Key o, o)) <$> dl_objs l).

Lemma List_Ok rev notified self tenant namespace opts l :
  lo_revision opts ≠ (-1)%Z → CacheStore_List rev notified self tenant namespace opts = Ok l →
  dl_revision l = ChannelRev_Current rev ∧
  dl_objs l = filter (λ o, starts_with (obj_key_prefix tenant namespace) (Key o) = true ∧
                Predicate_Match (lo_predicate opts) o = Ok true) (values (cs_cacheStore self)).
Proof.
  intros Hr Hl. unfold CacheStore_List in Hl. rewrite decide_False in Hl by done.
  apply bind_Ok in Hl as ([] & _ & Hl). apply bind_Ok in Hl as (objs & Hobjs & Hl).
  injection Hl as <-. split; [done|]. simpl.
  eapply (foldlM_filter _ (λ '(_, o), if starts_with (obj_key_prefix tenant namespace) (Key o)
    then Predicate_Match (lo_predicate opts) o else Ok false) (λ '(_, o), o)) in Hobjs as [-> _].
  - simpl. unfold values. induction (entries (cs_cacheStore self)) as [|[k o] es IH]; [done|]. csimpl.
    rewrite !filter_cons, <-IH.
    destruct (starts_with _ _) eqn:Hs, (decide (Predicate_Match (lo_predicate opts) o = Ok true)) as [Hm|Hm];
      rewrite ?Hm; repeat case_decide; naive_solver congruence.
  - intros acc [k o]. by destruct (starts_with _ _), (Predicate_Match (lo_predicate opts) o) as [[]|e|w].
Qed.

Lemma List_selected rev notified self tenant namespace opts l w :
  lo_revision opts ≠ (-1)%Z → keyed (cs_cacheStore self) →
  CacheStore_List rev notified self tenant namespace opts = Ok l →
  cw_namespace w = obj_key_prefix tenant namespace → cw_predicate w = lo_predicate opts →
  table l = selected w (cs_cacheStore self).
Proof.
  intros Hr Hk Hl Hns Hp. destruct (List_Ok _ _ _ _ _ _ _ Hr Hl) as [_ Hobjs].
  unfold table. rewrite Hobjs.
  assert ((λ o, (Key o, o)) <$> filter (λ o, starts_with (obj_key_prefix tenant namespace) (Key o) = true ∧
            Predicate_Match (lo_predicate opts) o = Ok true) (values (cs_cacheStore self))
          = filter (λ '(k, o), Watcher_Match w k o = Ok true) (entries (cs_cacheStore self))) as ->.
  2:{ apply list_to_map_filter_entries. }
  unfold values. assert (∀ k o, (k, o) ∈ entries (cs_cacheStore self) → Key o = k) as Hall.
  { intros k o Hin%elem_of_entries. by apply Hk. }
  induction (entries (cs_cacheStore self)) as [|[k o] es IH]; [done|]. csimpl.
  rewrite !filter_cons. rewrite <-IH by (intros; apply Hall; by right).
  rewrite (Hall k o) by by left. 
  assert (starts_with (obj_key_prefix tenant namespace) k = true ∧
    Predicate_Match (lo_predicate opts) o = Ok true ↔ Watcher_Match w k o = Ok true) as Hiff.
  { unfold Watcher_Match. rewrite Hns, Hp. destruct (starts_with _ k); simpl; naive_solver. }
  case_decide; case_decide; csimpl; rewrite ?(Hall k o) by (by left); [done|tauto..|done].
Qed.

(** The listed objects have distinct keys. *)
Lemma List_keys_NoDup rev notified self tenant namespace opts l :
  lo_revision opts ≠ (-1)%Z → keyed (cs_cacheStore self) →
  CacheStore_List rev notified self tenant namespace opts = Ok l → NoDup (Key <$> dl_objs l).
Proof.
  intros Hr Hk Hl. destruct (List_Ok _ _ _ _ _ _ _ Hr Hl) as [_ ->].
  assert (Key <$> values (cs_cacheStore self) = keys (cs_cacheStore self)) as Hkeys.
  { unfold values, keys. assert (∀ k o, (k, o) ∈ entries (cs_cacheStore self) → Key o = k) as Hall.
    { intros k o Hin%elem_of_entries. by apply Hk. }
    induction (entries (cs_cacheStore self)) as [|[k o] es IH]; [done|]. csimpl.
    rewrite (Hall k o) by by left. f_equal. apply IH. intros. apply Hall. by right. }
  apply NoDup_fmap_2_strong.
  - intros o1 o2 [_ H1%elem_of_values]%list_elem_of_filter [_ H2%elem_of_values]%list_elem_of_filter Heq.
    destruct H1 as [k1 H1], H2 as [k2 H2]. pose proof (Hk _ _ H1) as Hk1. pose proof (Hk _ _ H2) as Hk2. simpl in *. congruence.
  - apply NoDup_filter, (NoDup_fmap_1 Key). rewrite Hkeys. apply NoDup_keys.
Qed.

(** What a watch from a revision replays: the logged events not older than it,
    unless the oldest of them is more than one revision later. *)
Lemma GetAllEvents_rev now rev q self r pred :
  cache_inv rev q self → (0 < r)%Z →
  GetAllEvents now self r pred =
  match q with
  | e :: _ => if decide (r < wc_channelRev e - 1)%Z
      then Err (Share.CommonError ("too old resource version: " +:+ pretty r +:+ " (" +:+ pretty (wc_channelRev e - 1)%Z +:+ ")"))
      else RingBuf_GetAllEvents (cs_cache self) r pred
  | [] => Ok []
  end.
Proof.
  intros Hinv Hr. unfold GetAllEvents, oldest_rev. rewrite (ci_list _ _ _ Hinv).
  pose proof (ci_ring _ _ _ Hinv) as Hring. rewrite (ring_Size _ q) by done. change (bool_decide (0 ≤ 0)%Z) with true.
  cbn -[decide OldestIdx RingBuf_GetAllEvents]. destruct q as [|e q].
  - rewrite (ci_start _ _ _ Hinv) by done. cbn -[decide RingBuf_GetAllEvents].
    rewrite !decide_False by lia. unfold RingBuf_GetAllEvents. by rewrite (scan_cells_rep _ _ _ _ _ _ Hring).
  - destruct (Nat.eqb_spec (rb_tail (cs_cache self)) 0) as [Ht|_].
    { destruct Hring as [_ Ht' _ _]. simpl in Ht'. lia. }
    cbn -[decide OldestIdx RingBuf_GetAllEvents]. unfold OldestIdx. rewrite slot_Ok by apply Hring.
    cbn -[decide cell RingBuf_GetAllEvents]. rewrite (rep_head_cell _ _ _ _ _ Hring). cbn -[decide RingBuf_GetAllEvents].
    rewrite (decide_False (P:=r = 0%Z)) by lia. done.
Qed.

(** An event that leaves what a predicate selects is dropped from replays; this
    says an event does not. *)
Definition stays_selected (pred : SelectionPredicate) (e : Event) : Prop :=
  ∀ o, wc_prevObj e = Some o → Predicate_Match pred o = Ok true → Predicate_Match pred (wc_obj e) = Ok true.

Lemma skip_unselected w e m :
  logged e m → Predicate_Match (cw_predicate w) (wc_obj e) = Ok false → stays_selected (cw_predicate w) e →
  selected w (store_after e m) = selected w m.
Proof.
  intros Hlog Hno Hstay.
  assert (∀ k o, Predicate_Match (cw_predicate w) o ≠ Ok true → Watcher_Match w k o ≠ Ok true) as Hn.
  { intros k o Ho. unfold Watcher_Match. by destruct (negb _). }
  apply map_eq. intros k. rewrite !selected_lookup.
  destruct (decide (k = WatchCacheEvent_Key e)) as [->|Hk]; [|by rewrite store_after_ne].
  rewrite store_after_eq. destruct Hlog as [Hlog _]. rewrite <-Hlog.
  transitivity (@None Obj).
  - case_decide; [done|]. simpl. rewrite decide_False; [done|]. apply Hn. congruence.
  - destruct (wc_prevObj e) as [o|] eqn:Ho; [|done]. simpl. rewrite decide_False; [done|].
    apply Hn. intros Hm. rewrite (Hstay o) in Hno by done. done.
Qed.

(** The replay of a run of at most [DEFAULT_CACHE_COUNT] events brings a
    watcher from the store before the run to the store after it. *)
Lemma replay_run now base w w' rev q self evs rev1 self1 events :
  cache_inv rev q self → cache_steps (rev, self) evs (rev1, self1) → length evs ≤ DEFAULT_CACHE_COUNT →
  Forall (stays_selected (cw_predicate w)) evs →
  GetAllEvents now self1 (ChannelRev_Current rev) (cw_predicate w) = Ok events →
  synced base w (cs_cacheStore self) → replay w events = Ok w' →
  synced base w' (cs_cacheStore self1) ∧ ∃ s, w' = with_sender w s.
Proof.
  intros Hinv Hst Hlen Hstay Hget Hs Hrep.
  destruct (cache_steps_inv _ _ _ _ _ _ Hst Hinv) as (Hinv1 & _ & ->).
  destruct (cache_steps_chain _ _ _ _ Hst Hinv) as [Hch Hlog]. simpl in *.
  assert (length q ≤ DEFAULT_CACHE_COUNT) as Hq.
  { rewrite <-(ci_cap _ _ _ Hinv). by destruct (ci_ring _ _ _ Hinv). }
  rewrite push_all in Hinv1 by (done || apply cap_pos).
  rewrite drop_app_le in Hinv1 by lia. set (q0 := drop _ q) in *.
  set (pred := cw_predicate w) in *. set (r := ChannelRev_Current rev) in *.
  set (P := λ e : Event, Predicate_Match pred (wc_obj e) = Ok true).
  assert (events = filter P evs ∧ ∀ e, e ∈ evs → ∃ b, Predicate_Match pred (wc_obj e) = Ok b) as [-> Hall].
  { pose proof (ci_rev _ _ _ Hinv) as Hrev.
    rewrite (GetAllEvents_rev _ _ _ _ _ _ Hinv1) in Hget by (unfold r, ChannelRev_Current; lia).
    assert (∀ e, e ∈ q0 → (wc_channelRev e < r)%Z) as Hold.
    { intros e He%subseteq_drop. apply (ci_past _ _ _ Hinv) in He. unfold r, ChannelRev_Current. lia. }
    destruct (q0 ++ evs) as [|e0 q1] eqn:Hq1.
    { apply app_eq_nil in Hq1 as [_ ->]. injection Hget as <-. split; [done|]. by intros e ?%elem_of_nil. }
    case_decide; [done|]. unfold RingBuf_GetAllEvents in Hget.
    rewrite (scan_cells_rep _ _ _ _ _ _ (ci_ring _ _ _ Hinv1)) in Hget. rewrite <-Hq1 in Hget.
    eapply (foldlM_filter _ _ id) in Hget as [-> Hget]; [|done]. rewrite app_nil_l, list_fmap_id, filter_app.
    rewrite (filter_none _ q0). 2:{ intros e He. rewrite decide_False by (specialize (Hold e He); lia). done. }
    assert (∀ e, e ∈ evs → (r ≤ wc_channelRev e)%Z) as Hnew.
    { intros e He. specialize (Hlog e He). unfold r, ChannelRev_Current. lia. }
    split.
    - rewrite app_nil_l. clear -Hnew. induction evs as [|e evs IH]; [done|].
      rewrite !filter_cons, IH by (intros; apply Hnew; by right).
      unfold P. rewrite (decide_True (P:=(r ≤ wc_channelRev e)%Z)) by (apply Hnew; by left). done.
    - intros e He. destruct (Hget e) as [b Hb]; [set_solver|].
      rewrite decide_True in Hb by auto. by exists b. }
  eapply (replay_synced base _ _ _ evs P); try done; [by apply Hinv|].
  intros e m He Hn Hl. destruct (Hall e He) as [[] Hb]; [done|]. apply skip_unselected; [done..|].
  rewrite Forall_forall in Hstay. by apply Hstay.
Qed.

(** A channel with room for them takes the events of a replay. *)
Lemma replay_room w n es :
  (∀ k o, ∃ b, Watcher_Match w k o = Ok b) → room (cw_sender w) n → length es ≤ n →
  ∃ w', replay w es = Ok w'.
Proof.
  revert w n. induction es as [|e es IH]; intros w n Hm Hroom Hlen; [by eexists|]. simpl in Hlen.
  rewrite replay_cons. unfold SendWatchCacheEvent.
  assert (∃ c, ConvertToWatchEvent w e = Ok c) as [c ->].
  { unfold ConvertToWatchEvent. destruct (Hm (WatchCacheEvent_Key e) (wc_obj e)) as [cur Hcur].
    destruct (wc_prevObj e) as [o|].
    - destruct (Hm (WatchCacheEvent_Key e) o) as [old Hold].
      rewrite Hcur, Hold. case_decide; destruct cur, old; by eexists.
    - rewrite Hcur. case_decide; destruct cur; by eexists. }
  destruct c as [we|]; simpl; [|apply (IH _ n); [done..|lia]].
  destruct n as [|n]; [lia|]. destruct (try_send_room _ we _ Hroom) as (s & -> & Hroom'). simpl.
  apply (IH (with_sender w s) n); [done..|lia].
Qed.

(** The objects under a key prefix that a predicate selects. *)
Definition view_of (ns : string) (pred : SelectionPredicate) (m : gmap string Obj) : gmap string Obj :=
  filter (λ '(k, o), starts_with ns k = true ∧ Predicate_Match pred o = Ok true) m.
Lemma selected_view w m : selected w m = view_of (cw_namespace w) (cw_predicate w) m.
Proof.
  unfold selected, view_of. apply map_filter_ext. intros k o _. unfold Watcher_Match.
  destruct (starts_with _ k); simpl; naive_solver.
Qed.

Lemma tracked_view base wid ns pred self w :
  tracked base wid ns pred self → cs_watchers self !! wid = Some w →
  apply_events base (sent (cw_sender w)) = view_of ns pred (cs_cacheStore self) ∧
  stream_ok base (sent (cw_sender w)).
Proof. intros [_ Hw] Hlk. destruct (Hw w Hlk) as (<- & <- & [<-%eq_sym ?]). by rewrite selected_view. Qed.

Lemma Watch_inv now rev q self ns r pred self1 wid :
  cache_inv rev q self → CacheStore_Watch now self ns r pred = (self1, Ok wid) →
  cache_inv rev q self1 ∧ cs_cacheStore self1 = cs_cacheStore self.
Proof.
  intros Hinv Hw.
  destruct (cache_step_inv _ _ _ _ _ _ (step_watch _ _ _ _ rev _ _ _ Hw I) Hinv) as (? & _ & ? & _). done.
Qed.

(** A watch from a revision, of a client whose table shows the store before
    the run since that revision. *)
Lemma Watch_resume_tracked now base rev q self evs rev1 self1 ns pred self2 wid :
  cache_inv rev q self → cache_steps (rev, self) evs (rev1, self1) → length evs ≤ DEFAULT_CACHE_COUNT →
  Forall (stays_selected pred) evs → base = view_of ns pred (cs_cacheStore self) →
  CacheStore_Watch now self1 ns (ChannelRev_Current rev) pred = (self2, Ok wid) →
  tracked base wid ns pred self2.
Proof.
  intros Hinv Hst Hlen Hstay Hbase Hw. unfold CacheStore_Watch in Hw. case_match eqn:Hrun; simplify_eq.
  apply bind_Ok in Hrun as (events & Hev & Hrun).
  eapply (replay_run now (view_of ns pred (cs_cacheStore self))) in Hrun as [Hs [s ->]]; try done.
  2:{ unfold synced. rewrite selected_view. simpl. by rewrite sent_new. }
  split; [simpl; lia|]. intros w. simpl. rewrite lookup_insert_eq. intros [= <-]. done.
Qed.

Lemma Watch_accepts now rev q self ns r pred :
  cache_inv rev q self → (∀ o, ∃ b, Predicate_Match pred o = Ok b) →
  (r = 0 ∨ 0 < r ∧ ∀ e, head q = Some e → wc_channelRev e - 1 ≤ r)%Z →
  ∃ self1, CacheStore_Watch now self ns r pred = (self1, Ok (cs_lastWatcherId self + 1)%Z).
Proof.
  intros Hinv Hm Hr. unfold CacheStore_Watch.
  set (self0 := MkCacheStore _ _ _ _ _ _ _).
  assert (cache_inv rev q self0) as Hinv0.
  { eapply cache_inv_watchers; try done. simpl. intros id Hid. apply (ci_ids _ _ _ Hinv) in Hid. lia. }
  assert (∃ events, GetAllEvents now self0 r pred = Ok events) as [events ->].
  { destruct Hr as [->|[Hr Hold]].
    - unfold GetAllEvents, oldest_rev. rewrite (ring_Size _ q) by apply Hinv.
      assert (∃ l, GetAllEventsFromStore now self0 pred = Ok l) as [l Hl].
      { apply foldlM_total. intros acc [k o]. destruct (Hm o) as [[] ->]; by eexists. }
      rewrite (ci_list _ _ _ Hinv0). change (bool_decide (0 ≤ 0)%Z) with true. cbn -[OldestIdx GetAllEventsFromStore].
      destruct (Nat.eqb_spec (rb_tail (cs_cache self)) 0) as [Ht|Ht]; [by exists l|].
      destruct q as [|e q]; [by destruct (Ht (ci_start _ _ _ Hinv eq_refl))|].
      cbn -[OldestIdx GetAllEventsFromStore]. unfold OldestIdx. rewrite slot_Ok by apply Hinv.
      cbn -[cell GetAllEventsFromStore]. rewrite (rep_head_cell _ _ _ _ _ (ci_ring _ _ _ Hinv)).
      by exists l.
    - rewrite (GetAllEvents_rev _ _ _ _ _ _ Hinv0 Hr). destruct q as [|e q]; [by eexists|].
      rewrite decide_False by (specialize (Hold e eq_refl); lia).
      unfold RingBuf_GetAllEvents. rewrite (scan_cells_rep _ _ _ _ _ _ (ci_ring _ _ _ Hinv0)).
      apply foldlM_total. intros acc o. case_decide; [|by eexists].
      destruct (Hm (wc_obj o)) as [b ->]. by eexists. }
  cbn -[replay].
  edestruct (replay_room (CacheWatcher_New (cs_lastWatcherId self + 1) (channel_size events) ns pred "")
    (channel_size events) events) as [w ->]; [| |unfold channel_size; lia|by eexists].
  - intros k o. unfold Watcher_Match. simpl. destruct (negb _); [by eexists|]. apply Hm.
  - apply room_new.
Qed.

Lemma ProcessEvent_no_Err now rev q self ev x : cache_inv rev q self → ProcessEvent now rev self ev ≠ Err x.
Proof.
  intros Hinv Hrun. unfold ProcessEvent in Hrun. simpl in Hrun. destruct (stale self ev); [done|].
  destruct (send_loop _ _) as [[ws rm]|y|w] eqn:Hs; cbn -[RingBuf_Push] in Hrun; [|by apply send_loop_no_Err in Hs|done].
  destruct (ring_Push (X:=Share.Error) _ _ (cache_event now (rev + 1) self ev) (ci_ring _ _ _ Hinv)) as (r & Hp & _).
  rewrite Hp in Hrun. done.
Qed.

Lemma ProcessEvent_stale now rev self ev : stale self ev = true → ProcessEvent now rev self ev = Ok ((rev + 1)%Z, self).
Proof. intros Hs. unfold ProcessEvent. simpl. by rewrite Hs. Qed.

Lemma Refresh_nil now rev self :
  keyed (cs_cacheStore self) →
  Refresh now rev self [] = Ok ((rev + Z.of_nat (size (cs_cacheStore self)))%Z, self).
Proof.
  intros Hk. unfold Refresh, refresh_events. csimpl.
  rewrite <-length_entries. assert (∀ k o, (k, o) ∈ entries (cs_cacheStore self) →
    cs_cacheStore self !! k = Some o ∧ Key o = k) as Hall.
  { intros k o Hin%elem_of_entries. split; [done|by apply Hk]. }
  revert rev. induction (entries (cs_cacheStore self)) as [|[k o] es IH]; intros rev.
  { simpl. by rewrite Z.add_0_r. }
  destruct (Hall k o ltac:(by left)) as [Hl Hkey]. csimpl.
  rewrite decide_False by set_solver. simpl. rewrite ProcessEvent_stale.
  2:{ unfold stale. simpl. rewrite Hkey, Hl. by apply bool_decide_eq_true. }
  simpl. rewrite IH by (intros; apply Hall; by right). do 2 f_equal. lia.
Qed.
End spec.
End cache.
Arguments CacheStoreInner : clear implicits.

(** ** Properties *)

(** C28: a client that watches from revision 0 and applies the events it was sent
    sees, at every moment of any later run of the cache (events, other watches,
    other caches taking revisions, stale events), exactly the stored objects
    under its key prefix that its predicate selects, for as long as the cache
    keeps the watcher; each event fits what the client has (an addition is of a
    new object, a change or deletion is newer than the object it replaces). *)
Theorem watch_stream_follows_store {Value S : Type} `{JsonOps Value, ChanSpec S (WatchEvent Value)}
    now rev q (self self1 : CacheStoreInner Value S) ns pred wid es rev2 self2 w :
  cache_inv rev q self → CacheStore_Watch now self ns 0 pred = (self1, Ok wid) →
  cache_steps (rev, self1) es (rev2, self2) → cs_watchers self2 !! wid = Some w →
  apply_events ∅ (sent (cw_sender w)) = view_of ns pred (cs_cacheStore self2) ∧
  stream_ok ∅ (sent (cw_sender w)).
Proof.
  intros Hinv Hw Hst Hlk. pose proof (Watch_now_tracked _ _ _ _ _ _ (ci_keyed _ _ _ Hinv) Hw) as Htr.
  destruct (Watch_inv _ _ _ _ _ _ _ _ _ Hinv Hw) as [Hinv1 _].
  eapply tracked_view; [|done].
  exact (cache_steps_tracked _ _ _ _ (rev, self1) _ (rev2, self2) _ Hst Hinv1 Htr).
Qed.

(** Listing and then watching from the revision of the answer loses nothing:
    a client that starts from the listed objects and applies the events of a
    watch started later from the answer's revision sees the selected part of
    the store at every moment after, provided no more events than the buffer
    holds happened in between and none of them moved an object out of the
    selection. *)
Theorem list_then_watch_follows_store {Value S : Type} `{JsonOps Value, ChanSpec S (WatchEvent Value)}
    now rev q (self self1 self2 self3 : CacheStoreInner Value S) notified tenant ns opts l evs rev1 wid es rev3 w :
  cache_inv rev q self → lo_revision opts ≠ (-1)%Z →
  CacheStore_List rev notified self tenant ns opts = Ok l →
  cache_steps (rev, self) evs (rev1, self1) → length evs ≤ DEFAULT_CACHE_COUNT →
  Forall (stays_selected (lo_predicate opts)) evs →
  CacheStore_Watch now self1 (obj_key_prefix tenant ns) (dl_revision l) (lo_predicate opts) = (self2, Ok wid) →
  cache_steps (rev1, self2) es (rev3, self3) → cs_watchers self3 !! wid = Some w →
  apply_events (table l) (sent (cw_sender w)) =
    view_of (obj_key_prefix tenant ns) (lo_predicate opts) (cs_cacheStore self3) ∧
  stream_ok (table l) (sent (cw_sender w)).
Proof.
  intros Hinv Hr Hl Hst Hlen Hstay Hw Hst2 Hlk.
  set (w0 := CacheWatcher_New 0 0 (obj_key_prefix tenant ns) (lo_predicate opts) "" : CacheWatcher S).
  pose proof (List_selected _ _ _ _ _ _ _ w0 Hr (ci_keyed _ _ _ Hinv) Hl eq_refl eq_refl) as Hbase.
  rewrite selected_view in Hbase. destruct (List_Ok _ _ _ _ _ _ _ Hr Hl) as [Hrev _]. rewrite Hrev in Hw.
  pose proof (Watch_resume_tracked _ _ _ _ _ _ _ _ _ _ _ _ Hinv Hst Hlen Hstay Hbase Hw) as Htr.
  destruct (cache_steps_inv _ _ _ _ _ _ Hst Hinv) as (Hinv1 & _).
  destruct (Watch_inv _ _ _ _ _ _ _ _ _ Hinv1 Hw) as [Hinv2 _].
  eapply tracked_view; [|done].
  exact (cache_steps_tracked _ _ _ _ (rev1, self2) _ (rev3, self3) _ Hst2 Hinv2 Htr).
Qed.

(** An event never fails: it takes the next revision; a stale one (not newer
    than the stored object) changes nothing else; any other is put in the
    buffer, replaces or deletes the stored object, and reaches every watcher,
    of which exactly those that cannot be sent to are dropped. *)
Theorem process_event_effect {Value S : Type} `{JsonOps Value, ChanSpec S (WatchEvent Value)}
    now rev q (self : CacheStoreInner Value S) event :
  cache_inv rev q self →
  is_err (ProcessEvent now rev self event) = false ∧
  ∀ rev' self', ProcessEvent now rev self event = Ok (rev', self') →
    rev' = (rev + 1)%Z ∧
    if stale self event then self' = self
    else
      let e := cache_event now (rev + 1) self event in
      cache_inv rev' (push_bounded DEFAULT_CACHE_COUNT q e) self' ∧
      cs_cacheStore self' = store_after e (cs_cacheStore self) ∧
      ∀ id, cs_watchers self' !! id =
        match cs_watchers self !! id with
        | Some w => let '(w', r) := SendWatchCacheEvent w e in if is_ok r then Some w' else None
        | None => None
        end.
Proof.
  intros Hinv. split.
  - destruct (ProcessEvent _ _ _ _) eqn:Hrun; try done. by apply (ProcessEvent_no_Err _ _ _ _ _ _ Hinv) in Hrun.
  - intros rev' self' Hrun. destruct (ProcessEvent_spec _ _ _ _ _ _ _ Hinv Hrun) as (-> & Hinv' & Hs & _ & Hws).
    unfold event_log in *. destruct (stale self event) eqn:Hst.
    + rewrite ProcessEvent_stale in Hrun by done. by simplify_eq.
    + split; [done|]. split_and!; [done..|]. intros id. rewrite Hws. simpl.
      destruct (cs_watchers self !! id) as [w|]; [|done]. simpl.
      by destruct (SendWatchCacheEvent w _) as [w' [[]|x|y]].
Qed.

(** A watch is accepted, and its stream has room for the replay, when its
    predicate can be evaluated on every object and it starts from 0, or from a
    revision at most one before the oldest buffered event. *)
Theorem watch_is_accepted {Value S : Type} `{JsonOps Value, ChanSpec S (WatchEvent Value)}
    now rev q (self : CacheStoreInner Value S) ns r pred :
  cache_inv rev q self → (∀ o, ∃ b, Predicate_Match pred o = Ok b) →
  (r = 0 ∨ 0 < r ∧ ∀ e, head q = Some e → wc_channelRev e - 1 ≤ r)%Z →
  ∃ self1, CacheStore_Watch now self ns r pred = (self1, Ok (cs_lastWatcherId self + 1)%Z) ∧ cache_inv rev q self1.
Proof.
  intros Hinv Hm Hr. destruct (Watch_accepts now _ _ _ ns r pred Hinv Hm Hr) as [self1 Hw].
  exists self1. split; [done|]. by apply (Watch_inv _ _ _ _ _ _ _ _ _ Hinv Hw).
Qed.

(** The window of revisions a watch can start from is one too wide: it is
    accepted from the revision before the oldest buffered event's, and replays
    the buffered events only, although an event of that very revision, which
    belongs to what the client asked for, may have been dropped from the buffer. *)
Theorem watch_window {Value S : Type} `{JsonOps Value, ChanSpec S (WatchEvent Value)}
    now rev e q (self : CacheStoreInner Value S) r :
  cache_inv rev (e :: q) self → (0 < r)%Z →
  Forall (λ e', r ≤ wc_channelRev e')%Z (e :: q) →
  GetAllEvents now self r SelectionPredicate_default =
  if decide (wc_channelRev e - 1 ≤ r)%Z then Ok (e :: q)
  else Err (Share.CommonError ("too old resource version: " +:+ pretty r +:+ " (" +:+ pretty (wc_channelRev e - 1)%Z +:+ ")")).
Proof.
  intros Hinv Hr Hall. rewrite (GetAllEvents_rev _ _ _ _ _ _ Hinv Hr).
  destruct (decide (wc_channelRev e - 1 ≤ r)%Z); [rewrite decide_False by lia|by rewrite decide_True by lia].
  unfold RingBuf_GetAllEvents. rewrite (scan_cells_rep _ _ _ _ _ _ (ci_ring _ _ _ Hinv)).
  enough (∀ l acc, Forall (λ e', r ≤ wc_channelRev e')%Z l →
    foldlM (λ acc o, b ← (if decide (r ≤ wc_channelRev o)%Z
      then Predicate_Match SelectionPredicate_default (wc_obj o) else Ok false);
      Ok (if (b : bool) then acc ++ [o] else acc)) acc l = Ok (acc ++ l)) as Hl by by apply (Hl (e :: q) []).
  intros es. induction es as [|e' es IH]; intros acc Hes; simpl; [by rewrite app_nil_r|].
  apply Forall_cons in Hes as [He' Hes]. rewrite decide_True by done. simpl.
  rewrite IH by done. by rewrite <-app_assoc.
Qed.

(** Refreshing a cache with the new list of objects does not remove the
    objects that are no longer listed: the deletions it derives carry the
    stored revision and are ignored as stale.  Only the revision counter
    moves. *)
Theorem refresh_keeps_unlisted {Value S : Type} `{JsonOps Value, ChanSpec S (WatchEvent Value)}
    now rev q (self : CacheStoreInner Value S) :
  cache_inv rev q self →
  Refresh now rev self [] = Ok ((rev + Z.of_nat (size (cs_cacheStore self)))%Z, self).
Proof. intros Hinv. by apply Refresh_nil, (ci_keyed _ _ _ Hinv). Qed.

(** ** Concrete runs *)

(** JSON values as texts without fields. *)
#[local] Instance text_json : JsonOps string := {| json_get _ _ := None; json_text v := v |}.
#[local] Abbreviation Cache := (CacheStoreInner string (queue (WatchEvent string))).

Definition pod (nm app : string) (r : Z) : DataObject string :=
  MkDataObject "pod" "t" "ns" nm {["app" := app]} ∅ 0 0 r "{}".
Definition empty_cache : Cache := CacheStoreInner_New None "pod".
Lemma empty_cache_inv : cache_inv 0 [] empty_cache.
Proof. by apply cache_inv_New. Qed.

(** Lets a computation that succeeds be named. *)
Definition cache_of (r : Share.Result (Z * Cache)) : Z * Cache :=
  match r with Ok c => c | _ => (0%Z, empty_cache) end.
Definition app_a : SelectionPredicate :=
  MkPredicate [MkRequirement "app" Equals ["a"]] [] 0 None.
Definition add_a : WatchEvent string := MkWatchEvent EAdded (pod "p" "a" 1).
Definition after_add : Z * Cache := cache_of (ProcessEvent 0 0 empty_cache add_a).
Lemma after_add_run : ProcessEvent 0 0 empty_cache add_a = Ok (1%Z, after_add.2).
Proof. vm_compute. reflexivity. Qed.
Definition log_a : WatchCacheEvent string := cache_event 0 1 empty_cache add_a.
Lemma after_add_inv : cache_inv 1 [log_a] after_add.2.
Proof. by destruct (ProcessEvent_spec _ _ _ _ _ _ _ empty_cache_inv after_add_run) as (_ & ? & _). Qed.

Lemma watch_stream_follows_store_witness :
  let s1 := (CacheStore_Watch 0 empty_cache "t/ns/" 0 app_a).1 in
  let s2 := cache_of (ProcessEvent 0 0 s1 add_a) in
  ∃ w, cs_watchers s2.2 !! 1%Z = Some w ∧
    apply_events ∅ (sent (cw_sender w)) = view_of "t/ns/" app_a (cs_cacheStore s2.2).
Proof.
  intros s1 s2. destruct (cs_watchers s2.2 !! 1%Z) as [w|] eqn:Hw; [exists w; split; [done|]|].
  - eapply (watch_stream_follows_store 0 0 [] empty_cache s1 _ _ 1 _ s2.1 s2.2); [apply empty_cache_inv| | |exact Hw].
    + vm_compute. reflexivity.
    + eapply (steps_step _ _ (s2.1, s2.2)); [|apply steps_refl].
      apply (step_event 0 add_a). vm_compute. reflexivity.
  - exfalso. vm_compute in Hw. discriminate.
Defined.

Definition list_opts : ListOption := MkListOption 0 Exact app_a.
Lemma list_then_watch_follows_store_witness :
  let s2 := (CacheStore_Watch 0 after_add.2 "t/ns" 1 app_a).1 in
  ∃ w, cs_watchers s2 !! 1%Z = Some w ∧
    apply_events ∅ (sent (cw_sender w)) = view_of "t/ns" app_a (cs_cacheStore s2).
Proof.
  intros s2. destruct (cs_watchers s2 !! 1%Z) as [w|] eqn:Hw; [exists w; split; [done|]|].
  - eapply (list_then_watch_follows_store 0 0 [] empty_cache after_add.2 s2 s2 false "t" "ns" list_opts
      (MkDataObjList [] 1 None 0) [log_a] 1 1); [apply empty_cache_inv|done|vm_compute; reflexivity| | | | | |exact Hw].
    + eapply (steps_step _ [log_a] (1%Z, after_add.2) []); [|apply steps_refl].
      exact (step_event 0 add_a 0 empty_cache _ _ after_add_run).
    + vm_compute. lia.
    + constructor; [|constructor]. intros o Ho. vm_compute in Ho. discriminate.
    + vm_compute. reflexivity.
    + apply steps_refl.
  - exfalso. vm_compute in Hw. discriminate.
Defined.

Lemma process_event_effect_witness : is_err (ProcessEvent 0 1 after_add.2 add_a) = false.
Proof. apply (process_event_effect 0 1 [log_a] after_add.2 add_a after_add_inv). Defined.

Lemma watch_is_accepted_witness :
  ∃ self1, CacheStore_Watch 0 after_add.2 "" 1 SelectionPredicate_default = (self1, Ok 1%Z).
Proof.
  destruct (watch_is_accepted 0 1 [log_a] after_add.2 "" 1 SelectionPredicate_default after_add_inv) as (s & Hs & _).
  - intros o. by exists true.
  - right. split; [lia|]. intros e [= <-]. vm_compute. discriminate.
  - by exists s.
Defined.

Lemma watch_window_witness : GetAllEvents 0 after_add.2 1 SelectionPredicate_default = Ok [log_a].
Proof.
  rewrite (watch_window 0 1 log_a [] after_add.2 1 after_add_inv); [done|lia|].
  constructor; [|constructor]. vm_compute. discriminate.
Defined.

Lemma refresh_keeps_unlisted_witness : Refresh 0 1 after_add.2 [] = Ok (2%Z, after_add.2).
Proof. exact (refresh_keeps_unlisted 0 1 [log_a] after_add.2 after_add_inv). Defined.

Definition after_move : Z * Cache := cache_of (ProcessEvent 0 1 after_add.2 (MkWatchEvent EModified (pod "p" "b" 2))).
(** A watch resumed from a revision does not report an object that was
    changed out of its selection in between: a client lists pod [p] (label
    [app=a]), the label becomes [b], the client's watch from the listed
    revision is accepted and sends nothing, so the client keeps showing [p]
    although the selected part of the store is empty. *)
Theorem resumed_watch_misses_exit :
  let l := CacheStore_List 1 false after_add.2 "t" "ns" list_opts in
  let r := CacheStore_Watch 0 after_move.2 "t/ns" 2 app_a in
  l = Ok (MkDataObjList (map (λ o, CopyWithRev o 1 1) [pod "p" "a" 1]) 2 None 0) ∧ r.2 = Ok 1%Z ∧
  (sent ∘ cw_sender) <$> (cs_watchers r.1 !! 1%Z) = Some [] ∧
  view_of "t/ns" app_a (cs_cacheStore r.1) = ∅.
Proof. split_and!; vm_compute; reflexivity. Qed.
