(* ===== verification/Svc.v ===== *)
(** * The object service and its client
      (ixshare/src/metastore: obj.rs, svc_dir.rs, cacher_client.rs)

    [SvcDir] serves the caches of one process by object type; all of them share
    one revision counter.  A handler is a function on the state, [CacherClient]
    a function of the remote call it makes ([rpc]); the transport itself is
    that parameter.  The streaming half of [watch] is the watcher's channel. *)

From S2P Require Import Prelude.
From S2P Require Import Text.
From S2P Require Import BTree.
From S2P Require Import Common.
From S2P Require Import Validation.
From S2P Require Import Selector.
From S2P Require Import SelectorLexer.
From S2P Require Import SelectorParser.
From S2P Require Import DataObj.
From S2P Require Import Watch.
From S2P Require Import Ring.
From S2P Require Import CacheStore.

(** ** Messages *)

(** ixshare/src/pb_gen/ixmeta.rs:43-48 [Kv] *)
Record Kv := MkKv { kv_key : string; kv_val : string }.
(** ixshare/src/pb_gen/ixmeta.rs:53-68 [Object] *)
Record Object := MkObject {
  ob_kind : string; ob_tenant : string; ob_namespace : string; ob_name : string;
  ob_labels : list Kv; ob_annotations : list Kv; ob_data : string;
}.
(** ixshare/src/pb_gen/ixmeta.rs:72-93 [Obj] *)
Record Obj := MkObj {
  oj_kind : string; oj_tenant : string; oj_namespace : string; oj_name : string;
  oj_channel_rev : Z; oj_revision : Z; oj_src_epoch : Z;
  oj_labels : list Kv; oj_annotations : list Kv; oj_data : string;
}.

(** [serde_json::to_string] and [serde_json::from_str]; both results are unwrapped. *)
Class JsonText (T : Type) := {
  json_to_string : T → option string;
  json_from_str : string → option T;
}.
(** Documented behaviour: a value is rendered, and its text reads back. *)
Class JsonTextSpec (T : Type) `{JsonText T} : Prop :=
  json_roundtrip (t : T) : ∃ s, json_to_string t = Some s ∧ json_from_str s = Some t.

(** ixshare/src/metastore/obj.rs:18-29 [Labels::ToVec] *)
Definition ToVec (l : Labels) : list Kv := (λ '(k, v), MkKv k v) <$> entries l.
(** [for l in &item.labels { lables.insert(l.key.clone(), l.val.clone()); }] *)
Definition of_kvs (kvs : list Kv) : Labels := foldl (λ m kv, <[kv_key kv := kv_val kv]> m) ∅ kvs.

Section conversions.
Context {T : Type} `{JsonText T} {X : Type}.

(** ixshare/src/metastore/obj.rs:56-66 [DataObject::Object] *)
Definition to_Object (o : DataObject T) : outcome X Object :=
  data ← unwrap_opt (json_to_string (object o));
  Ok (MkObject (objType o) (tenant o) (namespace o) (name o) (ToVec (labels o)) (ToVec (annotations o)) data).
(** ixshare/src/metastore/obj.rs:68-81 [DataObject::Obj] *)
Definition to_Obj (o : DataObject T) : outcome X Obj :=
  data ← unwrap_opt (json_to_string (object o));
  Ok (MkObj (objType o) (tenant o) (namespace o) (name o) (channelRev o) (revision o) (srcEpoch o)
    (ToVec (labels o)) (ToVec (annotations o)) data).
(** ixshare/src/metastore/obj.rs:91-120 [DataObject::NewFromObj] *)
Definition NewFromObj (item : Obj) : outcome X (DataObject T) :=
  object ← unwrap_opt (json_from_str (oj_data item));
  Ok (MkDataObject (oj_kind item) (oj_tenant item) (oj_namespace item) (oj_name item)
    (of_kvs (oj_labels item)) (of_kvs (oj_annotations item))
    (oj_channel_rev item) (oj_src_epoch item) (oj_revision item) object).
(** ixshare/src/metastore/obj.rs:122-154 [DataObject::NewFromObject] *)
Definition NewFromObject (item : Object) (channelRev revision srcEpoch : Z) : outcome X (DataObject T) :=
  object ← unwrap_opt (json_from_str (ob_data item));
  Ok (MkDataObject (ob_kind item) (ob_tenant item) (ob_namespace item) (ob_name item)
    (of_kvs (ob_labels item)) (of_kvs (ob_annotations item)) channelRev srcEpoch revision object).
(** ixshare/src/metastore/obj.rs:157-184 [From<&Object>] *)
Definition of_Object (item : Object) : outcome X (DataObject T) :=
  object ← unwrap_opt (json_from_str (ob_data item));
  Ok (MkDataObject (ob_kind item) (ob_tenant item) (ob_namespace item) (ob_name item)
    (of_kvs (ob_labels item)) (of_kvs (ob_annotations item)) 0 0 0 object).
(** ixshare/src/metastore/obj.rs:186-213 [From<&Obj>] *)
Definition of_Obj (item : Obj) : outcome X (DataObject T) :=
  object ← unwrap_opt (json_from_str (oj_data item));
  Ok (MkDataObject (oj_kind item) (oj_tenant item) (oj_namespace item) (oj_name item)
    (of_kvs (oj_labels item)) (of_kvs (oj_annotations item))
    (oj_channel_rev item) (oj_src_epoch item) (oj_revision item) object).
(** [for o in resp.objs { objs.push(o.Obj()); }] *)
Definition to_Objs (objs : list (DataObject T)) : outcome X (list Obj) :=
  foldlM (λ objs o, oj ← to_Obj o; Ok (objs ++ [oj])) [] objs.
(** [for dataO in &resp.objs { objs.push(NewFromObj(dataO)) }] *)
Definition of_Objs (objs : list Obj) : outcome X (list (DataObject T)) :=
  foldlM (λ objs o, d ← NewFromObj o; Ok (objs ++ [d])) [] objs.
End conversions.

Lemma foldl_kvs (l : list (string * string)) (m : Labels) :
  foldl (λ m kv, <[kv_key kv := kv_val kv]> m) m ((λ '(k, v), MkKv k v) <$> l)
  = foldl (λ m p, <[p.1 := p.2]> m) m l.
Proof. revert m. induction l as [|[k v] l IH]; intros m; [done|]. apply IH. Qed.
Lemma of_kvs_ToVec l : of_kvs (ToVec l) = l.
Proof. unfold of_kvs, ToVec. rewrite foldl_kvs. apply Labels_Copy_id. Qed.

Section conversion_lemmas.
Context {T : Type} `{JsonTextSpec T} {X : Type}.
Implicit Types (o : DataObject T).

(** The message of an object, and the object that comes out of it. *)
Lemma to_Obj_Ok o :
  ∃ oj, (∀ X, to_Obj (X:=X) o = Ok oj) ∧ (∀ X, NewFromObj (X:=X) oj = Ok o) ∧ (∀ X, of_Obj (X:=X) oj = Ok o).
Proof.
  destruct (json_roundtrip (object o)) as (s & Hs & Hr).
  eexists. split_and!; intros Y.
  - unfold to_Obj. rewrite Hs. done.
  - unfold NewFromObj. simpl. rewrite Hr. cbn -[of_kvs]. rewrite !of_kvs_ToVec. by destruct o.
  - unfold of_Obj. simpl. rewrite Hr. cbn -[of_kvs]. rewrite !of_kvs_ToVec. by destruct o.
Qed.
Lemma to_Object_Ok o :
  ∃ ob, (∀ X, to_Object (X:=X) o = Ok ob) ∧
    (∀ X c r e, NewFromObject (X:=X) ob c r e = Ok (MkDataObject (objType o) (tenant o) (namespace o) (name o)
       (labels o) (annotations o) c e r (object o))) ∧
    (∀ X, of_Object (X:=X) ob = Ok (MkDataObject (objType o) (tenant o) (namespace o) (name o)
       (labels o) (annotations o) 0 0 0 (object o))).
Proof.
  destruct (json_roundtrip (object o)) as (s & Hs & Hr).
  eexists. split_and!; intros Y.
  - unfold to_Object. rewrite Hs. done.
  - intros c r e. unfold NewFromObject. simpl. rewrite Hr. cbn -[of_kvs]. by rewrite !of_kvs_ToVec.
  - unfold of_Object. simpl. rewrite Hr. cbn -[of_kvs]. by rewrite !of_kvs_ToVec.
Qed.

Lemma to_Objs_Ok (os : list (DataObject T)) :
  ∃ ojs, (∀ X, to_Objs (X:=X) os = Ok ojs) ∧ (∀ X, of_Objs (X:=X) ojs = Ok os).
Proof.
  unfold to_Objs, of_Objs. enough (∀ (acc : list Obj) (acc' : list (DataObject T)), ∃ ojs : list Obj,
    (∀ X, foldlM (λ objs o, oj ← to_Obj (X:=X) o; Ok (objs ++ [oj])) acc os = Ok (acc ++ ojs)) ∧
    (∀ X, foldlM (λ objs x, d ← NewFromObj (X:=X) x; Ok (objs ++ [d])) acc' ojs = Ok (acc' ++ os))) as Hall
    by apply (Hall [] []).
  induction os as [|o os IH]; intros acc acc'.
  { exists []. simpl. by rewrite !app_nil_r. }
  destruct (to_Obj_Ok o) as (oj & Hto & Hof & _).
  destruct (IH (acc ++ [oj]) (acc' ++ [o])) as (ojs & Hto' & Hof').
  exists (oj :: ojs). split; intros Y; simpl.
  - rewrite Hto. simpl. by rewrite Hto', <-app_assoc.
  - rewrite Hof. simpl. by rewrite Hof', <-app_assoc.
Qed.
End conversion_lemmas.


(** ixshare/src/pb_gen/ixmeta.rs:233-238 [WEvent] *)
Record WEvent := MkWEvent { wv_event_type : Z; wv_obj : option Obj }.
(** ixshare/src/pb_gen/ixmeta.rs:106-109 [CreateRequestMessage] *)
Record CreateRequest := MkCreateRequest { cr_obj : option Obj }.
(** ixshare/src/pb_gen/ixmeta.rs:170-175 [UpdateRequestMessage] *)
Record UpdateRequest := MkUpdateRequest { ur_expect_rev : Z; ur_obj : option Obj }.
(** ixshare/src/pb_gen/ixmeta.rs:146-157 [DeleteRequestMessage] *)
Record DeleteRequest := MkDeleteRequest {
  dr_obj_type : string; dr_tenant : string; dr_namespace : string; dr_name : string; dr_expect_rev : Z;
}.
(** The answers of [create], [update] and [delete]. *)
Record RevResponse := MkRevResponse { rr_error : string; rr_revision : Z }.
(** ixshare/src/pb_gen/ixmeta.rs:122-133 [GetRequestMessage] *)
Record GetRequest := MkGetRequest {
  gr_obj_type : string; gr_tenant : string; gr_namespace : string; gr_name : string; gr_revision : Z;
}.
(** ixshare/src/pb_gen/ixmeta.rs:137-142 [GetResponseMessage] *)
Record GetResponse := MkGetResponse { gs_error : string; gs_obj : option Obj }.
(** ixshare/src/pb_gen/ixmeta.rs:188-201 [ListRequestMessage] *)
Record ListRequest := MkListRequest {
  lr_obj_type : string; lr_tenant : string; lr_namespace : string; lr_revision : Z;
  lr_label_selector : string; lr_field_selector : string;
}.
(** ixshare/src/pb_gen/ixmeta.rs:205-212 [ListResponseMessage] *)
Record ListResponse := MkListResponse { ls_error : string; ls_revision : Z; ls_objs : list Obj }.

(** ** The service *)

Section svc.
Context {Value : Type} `{JsonOps Value, JsonText Value} {S : Type} `{Chan S (WatchEvent Value)}.
Context `{Eng : RegexEngine, Ord : HashOrder}.
Abbreviation Cache := (CacheStoreInner Value S).

(** ixshare/src/metastore/svc_dir.rs:67-71 [SvcDirInner] *)
Record SvcDir := MkSvcDir { sd_map : gmap string Cache; sd_channelRev : Z; sd_version : string }.
Implicit Types (self : SvcDir).

(** ixshare/src/metastore/svc_dir.rs:46-51 [SvcDir::GetCacher] *)
Definition GetCacher self (objType : string) : option Cache := sd_map self !! objType.
(** ixshare/src/metastore/svc_dir.rs:53-55 [SvcDir::AddCacher] *)
Definition AddCacher self (cacher : Cache) : SvcDir :=
  MkSvcDir (<[cs_objectType cacher := cacher]> (sd_map self)) (sd_channelRev self) (sd_version self).
(** ixshare/src/metastore/svc_dir.rs:61-63 [SvcDir::ObjectTypes] *)
Definition ObjectTypes self : list string := keys (sd_map self).

Definition with_rev self (rev : Z) : SvcDir := MkSvcDir (sd_map self) rev (sd_version self).
(** The cache behind the handle [GetCacher] gave, after a call on it. *)
Definition with_cache self (objType : string) (rev : Z) (c : Cache) : SvcDir :=
  MkSvcDir (<[objType := c]> (sd_map self)) rev (sd_version self).
Definition set_revision (o : DataObject Value) (r : Z) : DataObject Value :=
  MkDataObject (objType o) (tenant o) (namespace o) (name o) (labels o) (annotations o) (channelRev o) (srcEpoch o) r (object o).

(** A handler that changes an object takes the locks it needs one after the
    other (the revision it stamps, the object a delete reads, the cache, the
    revision it answers); other handlers run between any two of them.  What a
    handler has before it: *)
Inductive Change :=
| TakeRevision (new : bool) (dataobj : DataObject Value)   (** create ([new]) or update *)
| PutObject (new : bool) (dataobj : DataObject Value)
| TakeDeletion (req : DeleteRequest)
| ReadObject (req : DeleteRequest) (version : Z)
| RemoveObject (objType : string) (obj : DataObject Value)
| ReadCounter
| Answered (r : Share.Result RevResponse).

(** ixshare/src/metastore/svc_dir.rs:116-140 [SvcDir::create], :161-184 [SvcDir::update] and
    :200-253 [SvcDir::delete], up to the next lock.  The map of caches is only
    filled while the program starts. *)
Definition change_step (now : Z) (notified : bool) self (ch : Change) : SvcDir * Change :=
  let refuse self (msg : string) := (self, Answered (Ok (MkRevResponse msg 0))) in
  match ch with
  | TakeRevision new dataobj =>
      let '(version, rev) := ChannelRev_Next (sd_channelRev self) in
      let self := with_rev self rev in
      let dataobj := set_revision dataobj version in
      match GetCacher self (objType dataobj) with
      | None => refuse self ("svcdir get doesn't support obj type " +:+ objType dataobj)
      | Some _ => (self, PutObject new dataobj)
      end
  | PutObject new dataobj =>
      match GetCacher self (objType dataobj) with
      | None => (self, Answered (Panic "no cacher"))
      | Some cacher =>
          match (if new then Cache_Add else Cache_Update) now (sd_channelRev self) cacher dataobj with
          | Err e => refuse self (if new then "svcdir fail to add obj with error " else "svcdir fail to update obj with error ")
          | Ok (rev, c) => (with_cache self (objType dataobj) rev c, ReadCounter)
          | Panic w => (self, Answered (Panic w))
          end
      end
  | TakeDeletion req =>
      match GetCacher self (dr_obj_type req) with
      | None => refuse self ("statesvc doesn't support obj type " +:+ dr_obj_type req)
      | Some _ =>
          let '(version, rev) := ChannelRev_Next (sd_channelRev self) in
          (with_rev self rev, ReadObject req version)
      end
  | ReadObject req version =>
      let key := dr_obj_type req +:+ "/" +:+ dr_tenant req +:+ "/" +:+ dr_namespace req +:+ "/" +:+ dr_name req in
      match GetCacher self (dr_obj_type req) with
      | None => (self, Answered (Panic "no cacher"))
      | Some cacher =>
          match CacheStore_Get (sd_channelRev self) notified cacher (dr_tenant req) (dr_namespace req) (dr_name req)
                  (dr_expect_rev req) with
          | Err e => refuse self "Fail: "
          | Panic w => (self, Answered (Panic w))
          | Ok None => refuse self ("delete object " +:+ key +:+ " Fail not exist")
          | Ok (Some obj) => (self, RemoveObject (dr_obj_type req) (set_revision obj version))
          end
      end
  | RemoveObject t obj =>
      match GetCacher self t with
      | None => (self, Answered (Panic "no cacher"))
      | Some cacher =>
          match Cache_Remove now (sd_channelRev self) cacher obj with
          | Err e => refuse self "svcdir fail to delete obj with error "
          | Ok (rev, c) => (with_cache self t rev c, ReadCounter)
          | Panic w => (self, Answered (Panic w))
          end
      end
  | ReadCounter => (self, Answered (Ok (MkRevResponse "" (ChannelRev_Current (sd_channelRev self)))))
  | Answered r => (self, Answered r)
  end.
(** A handler that runs with no other between its steps: it has at most four. *)
Definition change_alone (now : Z) (notified : bool) self (ch : Change) : SvcDir * Share.Result RevResponse :=
  let '(self, ch) := Nat.iter 4 (λ '(self, ch), change_step now notified self ch) (self, ch) in
  (self, match ch with Answered r => r | _ => Panic "unfinished" end).

(** ixshare/src/metastore/svc_dir.rs:98-141 [SvcDir::create], alone *)
Definition svc_create (now : Z) self (req : CreateRequest) : SvcDir * Share.Result RevResponse :=
  match cr_obj req with
  | None => (self, Ok (MkRevResponse "create error: invalid request" 0))
  | Some o =>
      match of_Obj o with
      | Err e => (self, Err e)
      | Panic w => (self, Panic w)
      | Ok dataobj => change_alone now false self (TakeRevision true dataobj)
      end
  end.

(** ixshare/src/metastore/svc_dir.rs:143-185 [SvcDir::update], alone *)
Definition svc_update (now : Z) self (req : UpdateRequest) : SvcDir * Share.Result RevResponse :=
  match ur_obj req with
  | None => (self, Ok (MkRevResponse "update error: invalid request" 0))
  | Some o =>
      match of_Obj o with
      | Err e => (self, Err e)
      | Panic w => (self, Panic w)
      | Ok dataobj => change_alone now false self (TakeRevision false dataobj)
      end
  end.

(** ixshare/src/metastore/svc_dir.rs:194-254 [SvcDir::delete], alone *)
Definition svc_delete (now : Z) (notified : bool) self (req : DeleteRequest) : SvcDir * Share.Result RevResponse :=
  change_alone now notified self (TakeDeletion req).

(** ixshare/src/metastore/svc_dir.rs:256-291 [SvcDir::get] *)
Definition svc_get (notified : bool) self (req : GetRequest) : SvcDir * Share.Result GetResponse :=
  (self,
   match GetCacher self (gr_obj_type req) with
   | None => Ok (MkGetResponse ("svcdir get doesn't support obj type " +:+ gr_obj_type req) None)
   | Some cacher =>
       match CacheStore_Get (sd_channelRev self) notified cacher (gr_tenant req) (gr_namespace req) (gr_name req) (gr_revision req) with
       | Err e => Ok (MkGetResponse "Fail: " None)
       | Panic w => Panic w
       | Ok None => Ok (MkGetResponse "" None)
       | Ok (Some o) => oj ← to_Obj o; Ok (MkGetResponse "" (Some oj))
       end
   end).

(** ixshare/src/metastore/svc_dir.rs:293-358 [SvcDir::list] *)
Definition svc_list (notified : bool) self (req : ListRequest) : SvcDir * Share.Result ListResponse :=
  (self,
   match GetCacher self (lr_obj_type req) with
   | None => Ok (MkListResponse ("svcdir list doesn't support obj type " +:+ lr_obj_type req) 0 [])
   | Some cacher =>
       match Parse (lr_label_selector req) with
       | Err e => Ok (MkListResponse "Fail: " 0 [])
       | Panic w => Panic w
       | Ok labelSelector =>
           match Parse (lr_field_selector req) with
           | Err e => Ok (MkListResponse "Fail: " 0 [])
           | Panic w => Panic w
           | Ok fieldSelector =>
               let opts := MkListOption (lr_revision req) Exact (MkPredicate labelSelector fieldSelector 0 None) in
               match CacheStore_List (sd_channelRev self) notified cacher (lr_tenant req) (lr_namespace req) opts with
               | Err e => Ok (MkListResponse "Fail: " 0 [])
               | Panic w => Panic w
               | Ok resp => objs ← to_Objs (dl_objs resp); Ok (MkListResponse "" (dl_revision resp) objs)
               end
           end
       end
   end).

(** [tonic::Status::invalid_argument] *)
Inductive Status := InvalidArgument (msg : string).
(** ixshare/src/metastore/svc_dir.rs:363-418 [SvcDir::watch], up to the loop: the
    watcher it registers, or the status it ends the stream with *)
Definition svc_watch (now : Z) self (req : ListRequest) : SvcDir * Share.Result (Z + Status) :=
  match GetCacher self (lr_obj_type req) with
  | None => (self, Ok (inr (InvalidArgument ("doesn't support obj type " +:+ lr_obj_type req))))
  | Some cacher =>
      match Parse (lr_label_selector req) with
      | Err e => (self, Ok (inr (InvalidArgument "Fail: ")))
      | Panic w => (self, Panic w)
      | Ok labelSelector =>
          match Parse (lr_field_selector req) with
          | Err e => (self, Ok (inr (InvalidArgument "Fail: ")))
          | Panic w => (self, Panic w)
          | Ok fieldSelector =>
              let '(c, r) := CacheStore_Watch now cacher (lr_namespace req) (lr_revision req)
                               (MkPredicate labelSelector fieldSelector 0 None) in
              (with_cache self (lr_obj_type req) (sd_channelRev self) c,
               match r with
               | Ok wid => Ok (inl wid)
               | Err e => Ok (inr (InvalidArgument "Fail: "))
               | Panic w => Panic w
               end)
          end
      end
  end.

(** ixshare/src/metastore/svc_dir.rs:419-458 [SvcDir::watch], the loop: the message
    sent for an event, or the status that ends the stream *)
Definition svc_event (event : WatchEvent Value) : Share.Result (WEvent + Status) :=
  match we_type event with
  | EError s => Ok (inr (InvalidArgument ("Fail: " +:+ s)))
  | t =>
      let eventType := match t with EAdded => 1 | EModified => 2 | EDeleted => 3 | EInitDone => 4 | _ => 0 end%Z in
      oj ← to_Obj (we_obj event);
      Ok (inl (MkWEvent eventType (Some oj)))
  end.
End svc.
Arguments SvcDir : clear implicits.

(** ** The client *)

Section client.
Context {Value : Type} `{JsonText Value} {St : Type}.

(** [if resp.error.len() == 0 { return Ok(resp.revision) } return Err(..)] *)
Definition rev_result (r : Share.Result RevResponse) : Share.Result Z :=
  resp ← r;
  if len (rr_error resp) =? 0 then Ok (rr_revision resp) else Err (Share.CommonError (rr_error resp)).

(** ixshare/src/metastore/cacher_client.rs:183-194 [CacherClientInner::Create] *)
Definition Client_Create (rpc : St → CreateRequest → St * Share.Result RevResponse) (st : St)
    (obj : DataObject Value) : St * Share.Result Z :=
  match to_Obj obj with
  | Ok o => let '(st, r) := rpc st (MkCreateRequest (Some o)) in (st, rev_result r)
  | Err e => (st, Err e)
  | Panic w => (st, Panic w)
  end.
(** ixshare/src/metastore/cacher_client.rs:221-235 [CacherClientInner::Update] *)
Definition Client_Update (rpc : St → UpdateRequest → St * Share.Result RevResponse) (st : St)
    (obj : DataObject Value) (expectRev : Z) : St * Share.Result Z :=
  match to_Obj obj with
  | Ok o => let '(st, r) := rpc st (MkUpdateRequest expectRev (Some o)) in (st, rev_result r)
  | Err e => (st, Err e)
  | Panic w => (st, Panic w)
  end.
(** ixshare/src/metastore/cacher_client.rs:196-219 [CacherClientInner::Delete] *)
Definition Client_Delete (rpc : St → DeleteRequest → St * Share.Result RevResponse) (st : St)
    (objType tenant namespace name : string) (expectRev : Z) : St * Share.Result Z :=
  let '(st, r) := rpc st (MkDeleteRequest objType tenant namespace name expectRev) in (st, rev_result r).
(** ixshare/src/metastore/cacher_client.rs:237-263 [CacherClientInner::Get] *)
Definition Client_Get (rpc : St → GetRequest → St * Share.Result GetResponse) (st : St)
    (objType tenant namespace name : string) (revision : Z) : St * Share.Result (option (DataObject Value)) :=
  let '(st, r) := rpc st (MkGetRequest objType tenant namespace name revision) in
  (st,
   resp ← r;
   if len (gs_error resp) =? 0 then
     match gs_obj resp with
     | None => Ok None
     | Some o => d ← NewFromObj o; Ok (Some d)
     end
   else Err (Share.CommonError (gs_error resp))).
(** ixshare/src/metastore/cacher_client.rs:276-311 [CacherClientInner::List] *)
Definition Client_List (rpc : St → ListRequest → St * Share.Result ListResponse) (st : St)
    (objType tenant namespace : string) (opts : ListOption) : St * Share.Result (DataObjList Value) :=
  let req := MkListRequest objType tenant namespace (lo_revision opts)
    (Selector_String (sp_label (lo_predicate opts))) (Selector_String (sp_field (lo_predicate opts))) in
  let '(st, r) := rpc st req in
  (st,
   resp ← r;
   if len (ls_error resp) =? 0 then
     objs ← of_Objs (ls_objs resp);
     Ok (MkDataObjList objs (ls_revision resp) None 0)
   else Err (Share.CommonError (ls_error resp))).
(** ixshare/src/metastore/cacher_client.rs:340-372 [WatchStream::Next] on a message of the
    stream *)
Definition WatchStream_Next (e : WEvent) : Share.Result (option (WatchEvent Value)) :=
  eventType ← (if (wv_event_type e =? 0)%Z then Ok ENone
               else if (wv_event_type e =? 1)%Z then Ok EAdded
               else if (wv_event_type e =? 2)%Z then Ok EModified
               else if (wv_event_type e =? 3)%Z then Ok EDeleted
               else Err (Share.CommonError ("invalid watch response type " +:+ pretty (wv_event_type e))));
  match wv_obj e with
  | None => Err (Share.CommonError "invalid watch response ob is none")
  | Some o => obj ← NewFromObj o; Ok (Some (MkWatchEvent eventType obj))
  end.
End client.

(** ** The service as tables *)

Section tables.
Context {Value : Type} `{JsonOps Value, JsonTextSpec Value} {S : Type} `{ChanSpec S (WatchEvent Value)}.
Context `{Eng : RegexEngine, Ord : HashOrder}.
Abbreviation Dir := (SvcDir Value S).
Implicit Types (sd : Dir) (o : DataObject Value).

(** The stored objects, by type and key. *)
Definition objects sd : gmap string (gmap string (DataObject Value)) := cs_cacheStore <$> sd_map sd.

(** Every cache is well formed and no stored object is newer than the counter. *)
Definition svc_ok sd : Prop :=
  (0 ≤ sd_channelRev sd)%Z ∧
  ∀ t c, sd_map sd !! t = Some c →
    (∃ q, cache_inv (sd_channelRev sd) q c) ∧
    ∀ k o, cs_cacheStore c !! k = Some o → (revision o ≤ sd_channelRev sd)%Z.

Lemma svc_ok_rev sd rev : (sd_channelRev sd ≤ rev)%Z → svc_ok sd → svc_ok (with_rev sd rev).
Proof.
  intros Hle [Hz Hall]. split; simpl; [lia|]. intros t c Hc. destruct (Hall t c Hc) as [[q Hq] Ho]. split.
  - exists q. by eapply cache_inv_rev.
  - intros k o Hk. specialize (Ho k o Hk). lia.
Qed.

(** An event newer than everything stored is never stale. *)
Lemma ProcessEvent_fresh now rev q c event rev' c' :
  cache_inv rev q c → (∀ k o, cs_cacheStore c !! k = Some o → revision o < revision (we_obj event))%Z →
  ProcessEvent now rev c event = Ok (rev', c') →
  rev' = (rev + 1)%Z ∧ (∃ q', cache_inv rev' q' c') ∧
  cs_cacheStore c' = store_after (cache_event now (rev + 1) c event) (cs_cacheStore c).
Proof.
  intros Hinv Hnew Hrun. destruct (ProcessEvent_spec _ _ _ _ _ _ _ Hinv Hrun) as (-> & Hinv' & Hs & _).
  assert (stale c event = false) as Hst.
  { unfold stale. destruct (cs_cacheStore c !! Key (we_obj event)) as [o|] eqn:Ho; [|done].
    apply bool_decide_eq_false. specialize (Hnew _ _ Ho). lia. }
  unfold event_log in *. rewrite Hst in *. split_and!; [done|by eexists|done].
Qed.

Lemma store_after_revs rev c e :
  (∀ k o, cs_cacheStore c !! k = Some o → revision o ≤ rev)%Z → (revision (wc_obj e) ≤ rev)%Z →
  ∀ k o, store_after e (cs_cacheStore (Value:=Value) (S:=S) c) !! k = Some o → (revision o ≤ rev)%Z.
Proof.
  intros Hc He k o. destruct (decide (k = WatchCacheEvent_Key e)) as [->|Hne].
  - rewrite store_after_eq. case_decide; [done|]. by intros [= <-].
  - rewrite store_after_ne by done. apply Hc.
Qed.

(** What a handler that passes an event of the next revision on does. *)
Lemma put_event now sd t c ev rev' c' :
  svc_ok sd → sd_map sd !! t = Some c → revision (we_obj ev) = (sd_channelRev sd + 1)%Z →
  ProcessEvent now (sd_channelRev sd + 1) c ev = Ok (rev', c') →
  let sd' := with_cache (with_rev sd (sd_channelRev sd + 1)) t rev' c' in
  rev' = (sd_channelRev sd + 2)%Z ∧ svc_ok sd' ∧
  objects sd' = <[t := store_after (cache_event now rev' c ev) (cs_cacheStore c)]> (objects sd).
Proof.
  intros Hok Hc Hrev Hrun. destruct (svc_ok_rev sd (sd_channelRev sd + 1) ltac:(lia) Hok) as [Hz' Hall'].
  destruct Hok as [_ Hall]. destruct (Hall' t c Hc) as [[q Hq] _]. destruct (Hall t c Hc) as [_ Hold].
  simpl in *. eapply ProcessEvent_fresh in Hrun as (-> & Hq' & Hs); [|exact Hq|].
  2:{ intros k o Ho. specialize (Hold k o Ho). lia. }
  replace (sd_channelRev sd + 1 + 1)%Z with (sd_channelRev sd + 2)%Z in * by lia.
  split; [done|]. split.
  - split; simpl; [lia|]. intros t' c''. destruct (decide (t' = t)) as [->|Hne].
    + rewrite lookup_insert_eq. intros [= <-]. split; [done|]. rewrite Hs. apply store_after_revs.
      * intros k o Ho. specialize (Hold k o Ho). lia.
      * simpl. lia.
    + rewrite lookup_insert_ne by done. intros Hc''. destruct (Hall' t' c'' Hc'') as [[q'' Hq''] Ho]. split.
      * exists q''. eapply cache_inv_rev; [|done]. lia.
      * intros k o Hk. specialize (Ho k o Hk). lia.
  - unfold objects. simpl. by rewrite fmap_insert, Hs.
Qed.

Lemma objects_lookup sd t : objects sd !! t = cs_cacheStore <$> sd_map sd !! t.
Proof. apply lookup_fmap. Qed.

Lemma rev_result_ok r z : rev_result r = Ok z → ∃ resp, r = Ok resp ∧ rr_error resp = "" ∧ rr_revision resp = z.
Proof.
  unfold rev_result. destruct r as [resp|e|w]; simpl; [|done..].
  destruct (len (rr_error resp) =? 0) eqn:Hl; [|done]. intros [= <-]. exists resp. split_and!; try done.
  apply Nat.eqb_eq in Hl. by apply len_0.
Qed.

(** The object a create or an update stores. *)
Definition stored_obj sd o : DataObject Value := CopyWithRev o (sd_channelRev sd + 2) (sd_channelRev sd + 1).

(** What is left of a handler, in a state others may have changed since it
    took its revision: that revision is not newer than the counter. *)
Definition change_ok sd (ch : Change (Value:=Value)) : Prop :=
  match ch with
  | PutObject _ o => is_Some (sd_map sd !! objType o) ∧ (revision o ≤ sd_channelRev sd)%Z
  | ReadObject req version => is_Some (sd_map sd !! dr_obj_type req) ∧ (version ≤ sd_channelRev sd)%Z
  | RemoveObject t o => is_Some (sd_map sd !! t) ∧ (revision o ≤ sd_channelRev sd)%Z
  | _ => True
  end.
(** What a step answers does not panic. *)
Definition change_no_panic (ch : Change (Value:=Value)) : Prop :=
  match ch with Answered r => no_panic r | _ => True end.
(** [o] is newer than what [m] has at its key. *)
Definition newer o (m : gmap string (DataObject Value)) : Prop :=
  match m !! Key o with Some old => (revision old < revision o)%Z | None => True end.
#[local] Instance newer_dec o m : Decision (newer o m).
Proof. unfold newer. destruct (m !! Key o); apply _. Defined.

(** What an event of a cache does to the service's tables. *)
Lemma event_tables now sd t c ev rev' c' :
  svc_ok sd → sd_map sd !! t = Some c → (revision (we_obj ev) ≤ sd_channelRev sd)%Z →
  ProcessEvent now (sd_channelRev sd) c ev = Ok (rev', c') →
  let sd' := with_cache sd t rev' c' in
  rev' = (sd_channelRev sd + 1)%Z ∧ svc_ok sd' ∧
  objects sd' = (if decide (newer (we_obj ev) (cs_cacheStore c))
    then <[t := store_after (cache_event now rev' c ev) (cs_cacheStore c)]> (objects sd) else objects sd).
Proof.
  intros Hok Hc Hrev Hrun. pose proof (svc_ok_rev sd (sd_channelRev sd + 1) ltac:(lia) Hok) as [Hz Hall'].
  destruct Hok as [_ Hall]. destruct (Hall t c Hc) as [[q Hq] Hold].
  destruct (ProcessEvent_spec _ _ _ _ _ _ _ Hq Hrun) as (-> & Hq' & Hs & _). unfold event_log in *.
  assert (stale c ev = true ↔ ¬ newer (we_obj ev) (cs_cacheStore c)) as Hst.
  { unfold stale, newer. destruct (cs_cacheStore c !! Key (we_obj ev)); [|by split].
    rewrite bool_decide_eq_true. lia. }
  split; [done|]. split.
  - split; simpl; [done|]. intros t' c''. destruct (decide (t' = t)) as [->|Hne].
    + rewrite lookup_insert_eq. intros [= <-]. split; [by eexists|]. rewrite Hs.
      destruct (stale c ev); simpl; [intros k o Ho; specialize (Hold k o Ho); lia|].
      apply store_after_revs; [intros k o Ho; specialize (Hold k o Ho); lia|simpl; lia].
    + rewrite lookup_insert_ne by done. apply Hall'.
  - unfold objects. simpl. rewrite fmap_insert, Hs. case_decide as Hn.
    + destruct (stale c ev); [|done]. by destruct Hst as [Hst _]; destruct (Hst eq_refl).
    + rewrite (proj2 Hst Hn). simpl. apply insert_id. by rewrite lookup_fmap, Hc.
Qed.

Lemma CacheStore_Get_now rev notified (c : CacheStoreInner Value S) tn ns nm :
  CacheStore_Get rev notified c tn ns nm 0 = Ok (cs_cacheStore c !! key_of tn ns nm).
Proof. done. Qed.

(** One step, whatever ran before it.  A change takes effect when it is newer
    than what is stored at its key, and goes on to its answer either way. *)
Definition change_spec sd (ch : Change (Value:=Value)) sd' (ch' : Change (Value:=Value)) : Prop :=
  let rev := sd_channelRev sd in
  match ch with
  | TakeRevision new o =>
      objects sd' = objects sd ∧ sd_channelRev sd' = (rev + 1)%Z ∧
      match objects sd !! objType o with
      | Some _ => ch' = PutObject new (set_revision o (rev + 1))
      | None => ∃ r, ch' = Answered r ∧ is_err (rev_result r) = true
      end
  | PutObject _ o => ∃ m, objects sd !! objType o = Some m ∧ ch' = ReadCounter ∧
      objects sd' = <[objType o := if decide (newer o m) then <[Key o := CopyWithRev o (rev + 1) (revision o)]> m else m]> (objects sd)
  | TakeDeletion req => objects sd' = objects sd ∧
      match objects sd !! dr_obj_type req with
      | Some _ => ch' = ReadObject req (rev + 1) ∧ sd_channelRev sd' = (rev + 1)%Z
      | None => ∃ r, ch' = Answered r ∧ is_err (rev_result r) = true
      end
  | ReadObject req version => objects sd' = objects sd ∧ ∃ m, objects sd !! dr_obj_type req = Some m ∧
      (dr_expect_rev req = 0%Z →
       match m !! key_of (dr_tenant req) (dr_namespace req) (dr_name req) with
       | Some o => ch' = RemoveObject (dr_obj_type req) (set_revision o version)
       | None => ∃ r, ch' = Answered r ∧ is_err (rev_result r) = true
       end)
  | RemoveObject t o => ∃ m, objects sd !! t = Some m ∧ ch' = ReadCounter ∧
      objects sd' = <[t := if decide (newer o m) then delete (Key o) m else m]> (objects sd)
  | ReadCounter => sd' = sd ∧ ∃ r, ch' = Answered r ∧ rev_result r = Ok (rev + 1)%Z
  | Answered r => sd' = sd ∧ ch' = ch
  end.

(** Changes left to others stay what they were when the counter advances. *)
Lemma change_ok_mono sd sd' ch :
  (∀ t, is_Some (sd_map sd !! t) → is_Some (sd_map sd' !! t)) → (sd_channelRev sd ≤ sd_channelRev sd')%Z →
  change_ok sd ch → change_ok sd' ch.
Proof. intros Hm Hle. destruct ch; simpl; try done; intros [? ?]; (split; [by apply Hm|lia]). Qed.

Lemma change_event now sd t c ev rev' c' :
  svc_ok sd → sd_map sd !! t = Some c → (revision (we_obj ev) ≤ sd_channelRev sd)%Z →
  ProcessEvent now (sd_channelRev sd) c ev = Ok (rev', c') →
  let sd' := with_cache sd t rev' c' in
  svc_ok sd' ∧ (∀ ch, change_ok sd ch → change_ok sd' ch) ∧
  objects sd' = <[t := if decide (newer (we_obj ev) (cs_cacheStore c))
    then store_after (cache_event now (sd_channelRev sd + 1) c ev) (cs_cacheStore c) else cs_cacheStore c]> (objects sd).
Proof.
  intros Hok Hc Hrev Hrun. destruct (event_tables _ _ _ _ _ _ _ Hok Hc Hrev Hrun) as (-> & Hok' & Hobjs).
  split; [done|]. split.
  - intros ch. apply change_ok_mono; simpl; [|lia]. intros t' ?. by apply lookup_insert_is_Some'; right.
  - rewrite Hobjs. case_decide; [done|]. symmetry. apply insert_id. by rewrite objects_lookup, Hc.
Qed.

Lemma change_step_spec now notified sd ch sd' ch' :
  svc_ok sd → change_ok sd ch → change_step now notified sd ch = (sd', ch') → change_no_panic ch' →
  svc_ok sd' ∧ change_ok sd' ch' ∧ (∀ ch2, change_ok sd ch2 → change_ok sd' ch2) ∧ change_spec sd ch sd' ch'.
Proof.
  intros Hok Hch Hrun Hnp. pose proof (svc_ok_rev sd (sd_channelRev sd + 1) ltac:(lia) Hok) as Hok1.
  assert (∀ ch2, change_ok sd ch2 → change_ok (with_rev sd (sd_channelRev sd + 1)) ch2) as Hmono.
  { intros ch2. apply change_ok_mono; simpl; [done|lia]. }
  destruct ch as [new o|new o|req|req v|t o| |r]; cbn -[ProcessEvent CacheStore_Get] in Hrun, Hch; unfold GetCacher in Hrun.
  - unfold change_spec. rewrite objects_lookup. simpl in Hrun.
    destruct (sd_map sd !! objType o) as [c|] eqn:Hc; injection Hrun as <- <-; simpl.
    + split_and!; rewrite ?Hc; simpl; (done || lia).
    + split_and!; try done. by eexists.
  - destruct Hch as [[c Hc] Hle]. rewrite Hc in Hrun.
    assert (∃ ty, ty ≠ EDeleted ∧ (if new then Cache_Add else Cache_Update) now (sd_channelRev sd) c o =
      ProcessEvent now (sd_channelRev sd) c (MkWatchEvent ty (DataObject_DeepCopy o))) as (ty & Hty & Heq).
    { destruct new; [by exists EAdded|by exists EModified]. }
    rewrite Heq in Hrun. destruct (ProcessEvent _ _ _ _) as [[rev' c']|e|w] eqn:Hev.
    + injection Hrun as <- <-. rewrite DeepCopy_id in Hev.
      destruct (change_event _ _ _ _ (MkWatchEvent ty o) _ _ Hok Hc Hle Hev) as (? & ? & Hobjs). split_and!; try done.
      exists (cs_cacheStore c). split; [by rewrite objects_lookup, Hc|split; [done|]]. rewrite Hobjs.
      f_equal. simpl. destruct (decide (newer o _)); [|done]. unfold store_after. by destruct ty.
    + destruct Hok as [_ Hall]. destruct (Hall _ c Hc) as [[q Hq] _].
      by apply (ProcessEvent_no_Err _ _ _ _ _ _ Hq) in Hev.
    + by injection Hrun as <- <-.
  - unfold change_spec. rewrite objects_lookup. simpl in Hrun.
    destruct (sd_map sd !! dr_obj_type req) as [c|] eqn:Hc; injection Hrun as <- <-; simpl.
    + split_and!; rewrite ?Hc; simpl; (done || lia).
    + split_and!; try done. by eexists.
  - destruct Hch as [[c Hc] Hle]. rewrite Hc in Hrun.
    assert (sd' = sd ∧ change_ok sd ch') as [-> Hch'].
    { destruct (CacheStore_Get _ _ _ _ _ _ _) as [[obj|]|e|w]; injection Hrun as <- <-; simpl; rewrite ?Hc; by eauto. }
    unfold change_spec. split_and!; try done. exists (cs_cacheStore c).
    split; [by rewrite objects_lookup, Hc|]. intros Hz. rewrite Hz, CacheStore_Get_now in Hrun.
    destruct (cs_cacheStore c !! _); injection Hrun as <-; [done|]. by eexists.
  - destruct Hch as [[c Hc] Hle]. rewrite Hc in Hrun. unfold Cache_Remove in Hrun.
    destruct (ProcessEvent _ _ _ _) as [[rev' c']|e|w] eqn:Hev.
    + injection Hrun as <- <-. rewrite DeepCopy_id in Hev.
      destruct (change_event _ _ _ _ (MkWatchEvent EDeleted o) _ _ Hok Hc Hle Hev) as (? & ? & Hobjs). split_and!; try done.
      exists (cs_cacheStore c). split; [by rewrite objects_lookup, Hc|done].
    + destruct Hok as [_ Hall]. destruct (Hall _ c Hc) as [[q Hq] _].
      by apply (ProcessEvent_no_Err _ _ _ _ _ _ Hq) in Hev.
    + by injection Hrun as <- <-.
  - injection Hrun as <- <-. unfold change_spec. split_and!; try done. by eexists.
  - by injection Hrun as <- <-.
Qed.

(** The handlers, alone. *)
Lemma alone_put now notified sd new o :
  change_alone now notified sd (TakeRevision new o) =
  (let self := with_rev sd (sd_channelRev sd + 1) in
   let dataobj := set_revision o (sd_channelRev sd + 1) in
   match GetCacher self (objType dataobj) with
   | None => (self, Ok (MkRevResponse ("svcdir get doesn't support obj type " +:+ objType o) 0))
   | Some cacher =>
       match ProcessEvent now (sd_channelRev sd + 1) cacher
               (MkWatchEvent (if new then EAdded else EModified) (DataObject_DeepCopy dataobj)) with
       | Ok (rev, c) => (with_cache self (objType dataobj) rev c, Ok (MkRevResponse "" (ChannelRev_Current rev)))
       | Err e => (self, Ok (MkRevResponse (if new then "svcdir fail to add obj with error "
                                            else "svcdir fail to update obj with error ") 0))
       | Panic w => (self, Panic w)
       end
   end).
Proof.
  unfold change_alone, GetCacher. cbn -[ProcessEvent]. unfold GetCacher. simpl.
  destruct (sd_map sd !! objType o) as [c|] eqn:Hc; [|done]. cbn -[ProcessEvent]. unfold GetCacher. simpl. rewrite Hc.
  destruct new; unfold Cache_Add, Cache_Update; by destruct (ProcessEvent _ _ _ _) as [[rev c']|e|w].
Qed.
Lemma alone_deletion now notified sd req :
  change_alone now notified sd (TakeDeletion req) =
  (let self := with_rev sd (sd_channelRev sd + 1) in
   match sd_map sd !! dr_obj_type req with
   | None => (sd, Ok (MkRevResponse ("statesvc doesn't support obj type " +:+ dr_obj_type req) 0))
   | Some cacher =>
       match CacheStore_Get (sd_channelRev sd + 1) notified cacher (dr_tenant req) (dr_namespace req) (dr_name req)
               (dr_expect_rev req) with
       | Err e => (self, Ok (MkRevResponse "Fail: " 0))
       | Panic w => (self, Panic w)
       | Ok None => (self, Ok (MkRevResponse ("delete object " +:+ (dr_obj_type req +:+ "/" +:+ dr_tenant req +:+ "/" +:+
                                dr_namespace req +:+ "/" +:+ dr_name req) +:+ " Fail not exist") 0))
       | Ok (Some obj) =>
           match Cache_Remove now (sd_channelRev sd + 1) cacher (set_revision obj (sd_channelRev sd + 1)) with
           | Err e => (self, Ok (MkRevResponse "svcdir fail to delete obj with error " 0))
           | Ok (rev, c) => (with_cache self (dr_obj_type req) rev c, Ok (MkRevResponse "" (ChannelRev_Current rev)))
           | Panic w => (self, Panic w)
           end
       end
   end).
Proof.
  unfold change_alone. cbn -[CacheStore_Get Cache_Remove String.append]. unfold GetCacher. simpl.
  destruct (sd_map sd !! dr_obj_type req) as [c|] eqn:Hc; [|done].
  cbn -[CacheStore_Get Cache_Remove String.append]. unfold GetCacher. simpl. rewrite Hc.
  destruct (CacheStore_Get _ _ _ _ _ _ _) as [[obj|]|e|w] eqn:Hget; [|done| |]; 
    cbn -[CacheStore_Get Cache_Remove String.append]; [|done..]. unfold GetCacher. simpl. rewrite Hc.
  by destruct (Cache_Remove _ _ _ _) as [[rev c']|e|w].
Qed.

(** The common end of [create] and [update]. *)
Lemma put_tail now sd o ty unknown failed sd' res :
  svc_ok sd → ty ≠ EDeleted → len unknown ≠ 0 →
  (let self := with_rev sd (sd_channelRev sd + 1) in
   let dataobj := set_revision o (sd_channelRev sd + 1) in
   match GetCacher self (objType dataobj) with
   | None => (self, Ok (MkRevResponse unknown 0))
   | Some cacher =>
       match ProcessEvent now (sd_channelRev sd + 1) cacher (MkWatchEvent ty (DataObject_DeepCopy dataobj)) with
       | Ok (rev, c) => (with_cache self (objType dataobj) rev c, Ok (MkRevResponse "" (ChannelRev_Current rev)))
       | Err e => (self, Ok (MkRevResponse failed 0))
       | Panic w => (self, Panic w)
       end
   end) = (sd', res) → no_panic (rev_result res) →
  svc_ok sd' ∧
  match objects sd !! objType o with
  | Some m => rev_result res = Ok (sd_channelRev sd + 3)%Z ∧
      objects sd' = <[objType o := <[Key o := stored_obj sd o]> m]> (objects sd)
  | None => is_err (rev_result res) = true ∧ objects sd' = objects sd
  end.
Proof.
  intros Hok Hty Hmsg Hrun Hnp. cbn -[ProcessEvent] in Hrun. rewrite objects_lookup. unfold GetCacher in Hrun.
  pose proof (svc_ok_rev sd (sd_channelRev sd + 1) ltac:(lia) Hok) as Hok1. simpl in Hrun.
  destruct (sd_map sd !! objType o) as [c|] eqn:Hc; simpl.
  - destruct (ProcessEvent _ _ _ _) as [[rev' c']|e|w] eqn:Hev.
    + injection Hrun as <- <-. pose proof (λ Hr, put_event _ _ _ _ _ _ _ Hok Hc Hr Hev) as Hput.
      destruct (Hput eq_refl) as (-> & Hok' & Hobjs). split; [done|].
      split; [unfold rev_result, ChannelRev_Current; simpl; f_equal; lia|].
      change (objects (with_cache (with_rev sd (sd_channelRev sd + 1)) (objType o) (sd_channelRev sd + 2) c') =
        <[objType o:=<[Key o:=stored_obj sd o]> (cs_cacheStore c)]> (objects sd)).
      rewrite Hobjs. f_equal. unfold store_after. rewrite decide_False by by destruct ty.
      unfold cache_event. cbn [wc_obj we_obj]. rewrite DeepCopy_id. done.
    + destruct Hok1 as [_ Hall]. destruct (Hall _ c Hc) as [[q Hq] _].
      by apply (ProcessEvent_no_Err _ _ _ _ _ _ Hq) in Hev.
    + by injection Hrun as <- <-.
  - injection Hrun as <- <-. split; [done|]. split; [|done]. unfold rev_result. simpl.
    by destruct (Nat.eqb_spec (len unknown) 0).
Qed.

Lemma Client_Create_spec now sd o sd' res :
  svc_ok sd → Client_Create (svc_create now) sd o = (sd', res) → no_panic res →
  svc_ok sd' ∧
  match objects sd !! objType o with
  | Some m => res = Ok (sd_channelRev sd + 3)%Z ∧ objects sd' = <[objType o := <[Key o := stored_obj sd o]> m]> (objects sd)
  | None => is_err res = true ∧ objects sd' = objects sd
  end.
Proof.
  intros Hok Hrun Hnp. destruct (to_Obj_Ok o) as (oj & Hto & _ & Hof).
  unfold Client_Create in Hrun. rewrite Hto in Hrun. destruct (svc_create _ _ _) as [sd1 r] eqn:Hsvc.
  injection Hrun as <- <-. unfold svc_create in Hsvc. simpl in Hsvc. rewrite Hof, alone_put in Hsvc.
  by eapply (put_tail _ _ _ EAdded) in Hsvc.
Qed.
Lemma Client_Update_spec now sd o expect sd' res :
  svc_ok sd → Client_Update (svc_update now) sd o expect = (sd', res) → no_panic res →
  svc_ok sd' ∧
  match objects sd !! objType o with
  | Some m => res = Ok (sd_channelRev sd + 3)%Z ∧ objects sd' = <[objType o := <[Key o := stored_obj sd o]> m]> (objects sd)
  | None => is_err res = true ∧ objects sd' = objects sd
  end.
Proof.
  intros Hok Hrun Hnp. destruct (to_Obj_Ok o) as (oj & Hto & _ & Hof).
  unfold Client_Update in Hrun. rewrite Hto in Hrun. destruct (svc_update _ _ _) as [sd1 r] eqn:Hsvc.
  injection Hrun as <- <-. unfold svc_update in Hsvc. simpl in Hsvc. rewrite Hof, alone_put in Hsvc.
  by eapply (put_tail _ _ _ EModified) in Hsvc.
Qed.


Lemma Client_Delete_spec now notified sd t tn ns nm sd' res :
  svc_ok sd → Client_Delete (svc_delete now notified) sd t tn ns nm 0 = (sd', res) → no_panic res →
  svc_ok sd' ∧
  match objects sd !! t with
  | Some m =>
      match m !! key_of tn ns nm with
      | Some _ => res = Ok (sd_channelRev sd + 3)%Z ∧ objects sd' = <[t := delete (key_of tn ns nm) m]> (objects sd)
      | None => is_err res = true ∧ objects sd' = objects sd
      end
  | None => is_err res = true ∧ objects sd' = objects sd
  end.
Proof.
  intros Hok Hrun Hnp. unfold Client_Delete in Hrun. destruct (svc_delete _ _ _ _) as [sd1 r] eqn:Hsvc.
  injection Hrun as <- <-. unfold svc_delete in Hsvc. rewrite alone_deletion in Hsvc.
  cbn -[CacheStore_Get ProcessEvent] in Hsvc.
  rewrite objects_lookup. destruct (sd_map sd !! t) as [c|] eqn:Hc; simpl.
  2:{ injection Hsvc as <- <-. done. }
  pose proof (svc_ok_rev sd (sd_channelRev sd + 1) ltac:(lia) Hok) as Hok1.
  rewrite CacheStore_Get_now in Hsvc. destruct (cs_cacheStore c !! key_of tn ns nm) as [obj|] eqn:Hobj.
  2:{ injection Hsvc as <- <-. done. }
  unfold Cache_Remove in Hsvc. destruct (ProcessEvent _ _ _ _) as [[rev' c']|e|w] eqn:Hev.
  - injection Hsvc as <- <-. pose proof (λ Hr, put_event _ _ _ _ _ _ _ Hok Hc Hr Hev) as Hput.
    destruct (Hput eq_refl) as (-> & Hok' & Hobjs). split; [done|].
    split; [unfold rev_result, ChannelRev_Current; simpl; f_equal; lia|].
    change (objects (with_cache (with_rev sd (sd_channelRev sd + 1)) t (sd_channelRev sd + 2) c') =
      <[t:=delete (key_of tn ns nm) (cs_cacheStore c)]> (objects sd)).
    rewrite Hobjs. f_equal. unfold store_after. rewrite decide_True by done. f_equal.
    destruct Hok as [_ Hall]. destruct (Hall _ c Hc) as [[q Hq] _].
    exact (ci_keyed _ _ _ Hq _ _ Hobj).
  - destruct Hok1 as [_ Hall]. destruct (Hall _ c Hc) as [[q Hq] _].
    by apply (ProcessEvent_no_Err _ _ _ _ _ _ Hq) in Hev.
  - by injection Hsvc as <- <-.
Qed.

Lemma Client_Get_spec notified sd t tn ns nm :
  ∃ res, Client_Get (svc_get notified) sd t tn ns nm 0 = (sd, res) ∧
    match objects sd !! t with
    | Some m => res = Ok (m !! key_of tn ns nm)
    | None => is_err res = true
    end.
Proof.
  unfold Client_Get, svc_get, GetCacher. cbn -[CacheStore_Get]. rewrite objects_lookup.
  eexists. split; [done|]. destruct (sd_map sd !! t) as [c|]; [|done].
  cbn -[CacheStore_Get]. rewrite CacheStore_Get_now.
  destruct (cs_cacheStore c !! key_of tn ns nm) as [o|]; [|done].
  destruct (to_Obj_Ok o) as (oj & Hto & Hof & _). rewrite Hto. simpl. by rewrite Hof.
Qed.

(** Only the requirements matter to a list, not the order they are written in. *)
Lemma Predicate_Match_same `{!RegexSpec, !HashSpec} sel sel' limit limit' o :
  Forall printable sel → Forall2 same_req sel sel' →
  Predicate_Match (MkPredicate (Sort sel') [] limit' None) o = Predicate_Match (MkPredicate sel [] limit None) o.
Proof.
  intros Hall Hs. unfold Predicate_Match, SelectionPredicate_Empty, Selector_Empty. simpl.
  rewrite (Match_same sel sel' _ Hall Hs). replace (length (Sort sel')) with (length sel); [done|].
  rewrite (Forall2_length _ _ _ Hs). apply Permutation_length, Permutation_sym, Sort_perm.
Qed.

Lemma CacheStore_List_ext rev notified (c : CacheStoreInner Value S) tn ns opts opts' :
  lo_revision opts ≠ (-1)%Z → lo_revision opts' = lo_revision opts →
  (∀ o, Predicate_Match (lo_predicate opts') o = Predicate_Match (lo_predicate opts) o) →
  CacheStore_List rev notified c tn ns opts' = CacheStore_List rev notified c tn ns opts.
Proof.
  intros Hr Hr' Hp. unfold CacheStore_List. rewrite Hr', !decide_False by done.
  erewrite foldlM_ext; [done|]. intros acc [k o]. by rewrite Hp.
Qed.

Lemma Client_List_spec `{!RegexSpec, !HashSpec} notified sd t tn ns opts sel limit :
  lo_predicate opts = MkPredicate sel [] limit None → lo_revision opts ≠ (-1)%Z → Forall printable sel →
  (Client_List (svc_list notified) sd t tn ns opts).2 =
  match sd_map sd !! t with
  | None => Err (Share.CommonError ("svcdir list doesn't support obj type " +:+ t))
  | Some c =>
      match CacheStore_List (sd_channelRev sd) notified c tn ns opts with
      | Ok l => Ok (MkDataObjList (dl_objs l) (dl_revision l) None 0)
      | Err _ => Err (Share.CommonError "Fail: ")
      | Panic w => Panic w
      end
  end.
Proof.
  intros Hp Hr Hall. unfold Client_List, svc_list, GetCacher. cbn -[CacheStore_List Parse].
  destruct (sd_map sd !! t) as [c|]; [|done]. rewrite Hp. cbn -[CacheStore_List Parse Selector_String].
  destruct (Parse_String sel Hall) as (sel' & -> & Hs).
  destruct (Parse_String [] (List.Forall_nil _)) as (nil' & -> & Hnil). apply Forall2_nil_inv_l in Hnil as ->.
  rewrite (CacheStore_List_ext _ _ _ _ _ opts); [|done|done|].
  2:{ intros o. rewrite Hp. simpl. by apply Predicate_Match_same. }
  destruct (CacheStore_List _ _ _ _ _ _) as [l|e|w]; cbn -[to_Objs of_Objs]; [|done..].
  destruct (to_Objs_Ok (dl_objs l)) as (ojs & Hto & Hof). rewrite Hto. cbn -[of_Objs]. by rewrite Hof.
Qed.
End tables.

(** ** Properties *)

(** C30: through the client and the service, the objects of each type are a table
    by key.  When a request's handler runs with no other between its locks and
    does not panic: create and update store the object with two fresh revisions
    and answer the next one, whatever was stored (the service tells them apart
    nowhere); delete, with expected revision 0, removes an existing object; get,
    at revision 0, reads; a request that fails (unknown type, missing object)
    changes no object.  When other handlers run between its locks, each step
    of a handler that changes an object is: it takes the counter's next value as
    its revision (unknown type: an error); a delete at revision 0 reads its
    object (missing: an error); the change takes effect on the table as it is by
    then if its revision is newer than that of the object stored at its key, and
    otherwise changes nothing; either way it then answers success with the
    counter's next value.  No step touches another key or invalidates what
    other handlers have left to do. *)
Theorem svc_is_table {Value S : Type} `{JsonOps Value, JsonTextSpec Value, ChanSpec S (WatchEvent Value)}
    now notified (sd : SvcDir Value S) :
  svc_ok sd →
  (∀ o sd' res, Client_Create (svc_create now) sd o = (sd', res) ∨
                (∃ expect, Client_Update (svc_update now) sd o expect = (sd', res)) → no_panic res →
     svc_ok sd' ∧
     match objects sd !! objType o with
     | Some m => res = Ok (sd_channelRev sd + 3)%Z ∧
         objects sd' = <[objType o := <[Key o := CopyWithRev o (sd_channelRev sd + 2) (sd_channelRev sd + 1)]> m]> (objects sd)
     | None => is_err res = true ∧ objects sd' = objects sd
     end) ∧
  (∀ t tn ns nm sd' res, Client_Delete (svc_delete now notified) sd t tn ns nm 0 = (sd', res) → no_panic res →
     svc_ok sd' ∧
     match objects sd !! t ≫= λ m, _ ← m !! key_of tn ns nm; Some m with
     | Some m => res = Ok (sd_channelRev sd + 3)%Z ∧ objects sd' = <[t := delete (key_of tn ns nm) m]> (objects sd)
     | None => is_err res = true ∧ objects sd' = objects sd
     end) ∧
  (∀ t tn ns nm, ∃ res, Client_Get (svc_get notified) sd t tn ns nm 0 = (sd, res) ∧
     match objects sd !! t with Some m => res = Ok (m !! key_of tn ns nm) | None => is_err res = true end) ∧
  (∀ ch sd' ch', change_ok sd ch → change_step now notified sd ch = (sd', ch') → change_no_panic ch' →
     svc_ok sd' ∧ change_ok sd' ch' ∧ (∀ ch2, change_ok sd ch2 → change_ok sd' ch2) ∧ change_spec sd ch sd' ch').
Proof.
  intros Hok. split_and!.
  - intros o sd' res [Hrun|[expect Hrun]] Hnp.
    + by apply (Client_Create_spec now). + by apply (Client_Update_spec now _ _ expect).
  - intros t tn ns nm sd' res Hrun Hnp. destruct (Client_Delete_spec _ _ _ _ _ _ _ _ _ Hok Hrun Hnp) as [? Hm].
    split; [done|]. destruct (objects sd !! t) as [m|]; [|done]. simpl. by destruct (m !! key_of tn ns nm).
  - intros t tn ns nm. apply Client_Get_spec.
  - intros ch sd' ch' Hch Hrun Hnp. by eapply change_step_spec.
Qed.

(** A list through the service, its selectors rendered to text by the client
    and parsed back by the server, gives what the cache's own list gives for
    the same options, for any valid label selector (and no field selector). *)
Theorem remote_list_is_local_list {Value S : Type}
    `{JsonOps Value, JsonTextSpec Value, ChanSpec S (WatchEvent Value)}
    `{Eng : RegexEngine, !RegexSpec, Ord : HashOrder, !HashSpec}
    notified (sd : SvcDir Value S) t c tn ns opts sel limit l :
  sd_map sd !! t = Some c → lo_predicate opts = MkPredicate sel [] limit None → lo_revision opts ≠ (-1)%Z →
  Forall printable sel →
  CacheStore_List (sd_channelRev sd) notified c tn ns opts = Ok l →
  (Client_List (svc_list notified) sd t tn ns opts).2 = Ok (MkDataObjList (dl_objs l) (dl_revision l) None 0).
Proof.
  intros Hc Hp Hr Hall Hl. rewrite (Client_List_spec _ _ _ _ _ _ _ _ Hp Hr Hall), Hc, Hl. done.
Qed.

(** Objects survive the wire: an object reads back from its [Obj] message
    with its revisions, from its [Object] message with the given ones (zeros
    for the plain conversion); an event reads back on the client, except the
    end-of-initial-list one, which the server sends as type 4 and the client
    refuses. *)
Theorem wire_roundtrip {Value : Type} `{JsonTextSpec Value} (o : DataObject Value) :
  (∃ oj, to_Obj (X:=Share.Error) o = Ok oj ∧ NewFromObj (X:=Share.Error) oj = Ok o ∧ of_Obj (X:=Share.Error) oj = Ok o) ∧
  (∃ ob, to_Object (X:=Share.Error) o = Ok ob ∧
     NewFromObject (X:=Share.Error) ob (channelRev o) (revision o) (srcEpoch o) = Ok o ∧
     of_Object (X:=Share.Error) ob = Ok (MkDataObject (objType o) (tenant o) (namespace o) (name o) (labels o) (annotations o) 0 0 0 (object o))) ∧
  (∀ ty, ty ∈ [ENone; EAdded; EModified; EDeleted] →
     ∃ w, svc_event (MkWatchEvent ty o) = Ok (inl w) ∧ WatchStream_Next w = Ok (Some (MkWatchEvent ty o))) ∧
  (∃ w, svc_event (MkWatchEvent EInitDone o) = Ok (inl w) ∧ is_err (WatchStream_Next (Value:=Value) w) = true).
Proof.
  destruct (to_Obj_Ok o) as (oj & Hto & Hof & Hof'). destruct (to_Object_Ok o) as (ob & Hob & Hnew & Hold).
  split_and!.
  - by exists oj.
  - exists ob. split_and!; [done| |done]. rewrite Hnew. by destruct o.
  - intros ty Hty. exists (MkWEvent (match ty with EAdded => 1 | EModified => 2 | EDeleted => 3 | _ => 0 end)%Z (Some oj)).
    unfold svc_event, WatchStream_Next. simpl. rewrite Hto.
    repeat (apply elem_of_cons in Hty as [->|Hty]; [simpl; by rewrite Hof|]). by apply elem_of_nil in Hty.
  - exists (MkWEvent 4 (Some oj)). unfold svc_event. simpl. by rewrite Hto.
Qed.

(** ** Concrete runs *)

#[local] Instance text_json : JsonOps string := {| json_get _ _ := None; json_text v := v |}.
#[local] Instance text_wire : JsonText string := {| json_to_string v := Some v; json_from_str s := Some s |}.
#[local] Instance text_wire_spec : JsonTextSpec string.
Proof. intros t. by exists t. Qed.

Definition pod_dir : SvcDir string (queue (WatchEvent string)) :=
  AddCacher (MkSvcDir ∅ 0 "") (CacheStoreInner_New None "pod").
Lemma pod_dir_ok : svc_ok pod_dir.
Proof.
  split; [done|]. intros t c Hc.
  change (sd_map pod_dir) with (<["pod" := CacheStoreInner_New None "pod"]> (∅ : gmap string (CacheStoreInner string (queue (WatchEvent string))))) in Hc.
  apply lookup_insert_Some in Hc as [[<- <-]|[_ Hc]]; [|done].
  split; [|intros k o; unfold CacheStoreInner_New; cbn [cs_cacheStore]; by rewrite lookup_empty]. exists []. by apply cache_inv_New.
Qed.

(** A delete whose object is updated after it was read: the delete answers
    success and the object stays. *)
Definition p_deletion : DeleteRequest := MkDeleteRequest "pod" "t" "ns" "p" 0.
Lemma stale_delete_answers_success :
  let sd0 := (Client_Create (svc_create 0) pod_dir (pod "p" "a" 7)).1 in
  let '(sd1, d1) := change_step 0 true sd0 (TakeDeletion p_deletion) in
  let '(sd2, d2) := change_step 0 true sd1 d1 in
  let '(sd3, updated) := Client_Update (svc_update 0) sd2 (pod "p" "b" 0) 0 in
  let '(sd4, d3) := change_step 0 true sd3 d2 in
  let '(sd5, d4) := change_step 0 true sd4 d3 in
  is_ok updated = true ∧ d4 = Answered (Ok (MkRevResponse "" 7)) ∧
  objects sd5 !! "pod" = Some {["t/ns/p" := CopyWithRev (pod "p" "b" 0) 5 4]}.
Proof. vm_compute. done. Qed.

Lemma svc_is_table_witness :
  let '(sd', res) := Client_Create (svc_create 0) pod_dir (pod "p" "a" 7) in
  res = Ok 3%Z ∧ objects sd' !! "pod" = Some {["t/ns/p" := CopyWithRev (pod "p" "a" 7) 2 1]}.
Proof.
  destruct (svc_is_table 0 true pod_dir pod_dir_ok) as (Hput & _).
  destruct (Client_Create (svc_create 0) pod_dir (pod "p" "a" 7)) as [sd' res] eqn:Hrun.
  assert (no_panic res) as Hnp by (vm_compute in Hrun; by injection Hrun as _ <-).
  destruct (Hput _ _ _ (or_introl Hrun) Hnp) as [_ Hm].
  change (objects pod_dir !! objType (pod "p" "a" 7)) with (Some (∅ : gmap string (DataObject string))) in Hm.
  destruct Hm as [-> ->]. split; [done|]. by rewrite lookup_insert_eq.
Defined.

Lemma remote_list_is_local_list_witness :
  (@Client_List string _ _ (@svc_list string _ _ _ derivative_engine btree_order true) pod_dir "pod" "t" "ns"
    (MkListOption 0 Exact SelectionPredicate_default)).2 = Ok (MkDataObjList [] 1 None 0).
Proof.
  apply (@remote_list_is_local_list string (queue (WatchEvent string)) _ _ _ _ _ derivative_engine derivative_engine_spec
    btree_order btree_order_spec true pod_dir "pod" (CacheStoreInner_New None "pod") "t" "ns" _ [] 0
    (MkDataObjList [] 1 None 0)); done.
Defined.

Lemma wire_roundtrip_witness :
  ∃ w, svc_event (MkWatchEvent EAdded (pod "p" "a" 7)) = Ok (inl w) ∧
    WatchStream_Next w = Ok (Some (MkWatchEvent EAdded (pod "p" "a" 7))).
Proof. apply (wire_roundtrip (pod "p" "a" 7)). set_solver. Defined.
