(* ===== verification/Informer.v ===== *)
(** * Informers (ixshare/src/metastore: store.rs, informer.rs, aggregate_client.rs)

    An informer keeps a local copy of the objects of one type, lists them once
    and then follows a watch, telling its handlers of every change.  The store
    is an [Arc<RwLock<..>>], the informer's other fields are atomics: an
    operation is a function on the state.  A handler is the class
    [EventHandler]; the connection to the service is the list or the messages
    an operation receives. *)

From S2P Require Import Prelude.
From S2P Require Import Text.
From S2P Require Import BTree.
From S2P Require Import Common.
From S2P Require Import Validation.
From S2P Require Import Selector.
From S2P Require Import DataObj.
From S2P Require Import Watch.
From S2P Require Import Ring.
From S2P Require Import CacheStore.

(** The derived order of [EpochRevision]: the epoch first. *)
Definition er_le (a b : EpochRevision) : Prop :=
  (er_srcEpoch a < er_srcEpoch b ∨ er_srcEpoch a = er_srcEpoch b ∧ er_revision a ≤ er_revision b)%Z.
#[global] Instance er_countable : Countable EpochRevision.
Proof.
  apply (inj_countable' (λ e, (er_srcEpoch e, er_revision e)) (λ p, MkEpochRevision p.1 p.2)). by intros [].
Defined.
#[global] Instance er_le_dec : RelDecision er_le.
Proof. intros a b. unfold er_le. apply _. Defined.
#[global] Instance er_le_po : PartialOrder er_le.
Proof.
  split; [split|].
  - intros a. unfold er_le. lia.
  - intros a b c. unfold er_le. lia.
  - intros [a1 a2] [b1 b2]. unfold er_le. simpl. intros ??. f_equal; lia.
Qed.
#[global] Instance er_le_total : Total er_le.
Proof. intros a b. unfold er_le. lia. Qed.
#[global] Instance er_key : OrdKey EpochRevision := {| kle := er_le |}.
(** [a < b] *)
Definition er_lt (a b : EpochRevision) : Prop := er_le a b ∧ a ≠ b.
#[global] Instance er_lt_dec a b : Decision (er_lt a b).
Proof. unfold er_lt. apply _. Defined.

Section informer.
Context {Value : Type}.
Abbreviation Obj := (DataObject Value).
Implicit Types (obj : Obj).

(** inferxlib/src/data_obj.rs:63-69 [DeltaEvent] *)
Record DeltaEvent := MkDelta {
  de_type : EventType;
  de_inInitialList : bool;
  de_obj : Obj;
  de_oldObj : option Obj;
}.

(** ** The local store *)

(** ixshare/src/metastore/store.rs:87-90 [ThreadSafeStoreInner] *)
Record ThreadSafeStore := MkStore { ts_id : Z; ts_map : gmap string Obj }.
Implicit Types (self : ThreadSafeStore).
(** ixshare/src/metastore/store.rs:93-100 [ThreadSafeStoreInner::default]; [id] is the next
    [STORE_ID] *)
Definition Store_default (id : Z) : ThreadSafeStore := MkStore id ∅.

(** ixshare/src/metastore/store.rs:115-126 [ThreadSafeStore::Add] *)
Definition Store_Add self obj : ThreadSafeStore * Share.Result unit :=
  let key := Key obj in
  (MkStore (ts_id self) (<[key := obj]> (ts_map self)),
   match ts_map self !! key with
   | None => Ok tt
   | Some _ => Err (Share.CommonError ("ThreadSafeStore Add get not none prev obj with obj " +:+ key))
   end).
(** ixshare/src/metastore/store.rs:128-139 [ThreadSafeStore::Update] *)
Definition Store_Update self obj : ThreadSafeStore * Share.Result Obj :=
  let key := Key obj in
  (MkStore (ts_id self) (<[key := obj]> (ts_map self)),
   match ts_map self !! key with
   | None => Err (Share.CommonError ("ThreadSafeStore Update get none prev obj with key " +:+ key))
   | Some o => Ok o
   end).
(** ixshare/src/metastore/store.rs:141-152 [ThreadSafeStore::Delete] *)
Definition Store_Delete self obj : ThreadSafeStore * Share.Result Obj :=
  let key := Key obj in
  (MkStore (ts_id self) (delete key (ts_map self)),
   match ts_map self !! key with
   | None => Err (Share.CommonError ("ThreadSafeStore Update get none prev obj with key " +:+ key))
   | Some o => Ok o
   end).
(** ixshare/src/metastore/store.rs:154-157 [ThreadSafeStore::List] *)
Definition Store_List self : list Obj := values (ts_map self).
(** ixshare/src/metastore/store.rs:159-161 [ThreadSafeStore::ListKeys] *)
Definition Store_ListKeys self : list string := keys (ts_map self).
(** ixshare/src/metastore/store.rs:206-211 [ThreadSafeStore::Get] *)
Definition Store_Get self (key : string) : option Obj := ts_map self !! key.

Definition replace_one (old : gmap string Obj) (initList : bool)
    (acc : gmap string Obj * list DeltaEvent) (o : Obj) : Share.Result (gmap string Obj * list DeltaEvent) :=
  let '(map, events) := acc in
  let map := <[Key o := o]> map in
  match old !! Key o with
  | None => Ok (map, events ++ [MkDelta EAdded initList o None])
  | Some obj =>
      _ ← assert_ (bool_decide (revision obj ≤ revision o)%Z) "assertion failed";
      if decide (revision o ≠ revision obj)
      then Ok (map, events ++ [MkDelta EModified false o (Some obj)])
      else Ok (map, events)
  end.
Definition removed_events (old new : gmap string Obj) : list DeltaEvent :=
  omap (λ '(k, o), match new !! k with None => Some (MkDelta EDeleted false o None) | Some _ => None end) (entries old).
(** ixshare/src/metastore/store.rs:163-204 [ThreadSafeStore::Replace] *)
Definition Store_Replace self (items : list Obj) : Share.Result (ThreadSafeStore * list DeltaEvent) :=
  let initList := size (ts_map self) =? 0 in
  '(map, events) ← foldlM (replace_one (ts_map self) initList) (∅, []) items;
  Ok (MkStore (ts_id self) map, events ++ removed_events (ts_map self) map).

(** ** The informer *)

(** ixshare/src/metastore/informer.rs:160-188 [Informer::Merge], the event for a listed
    object *)
Definition merge_new (first : bool) (old : gmap string Obj) (entry : string * Obj) : option DeltaEvent :=
  let '(k, v) := entry in
  match old !! k with
  | None => Some (MkDelta EAdded first v None)
  | Some o => if decide (er_lt (EpochRevision_of o) (EpochRevision_of v))
              then Some (MkDelta EModified first v (Some o)) else None
  end.
(** The events a merge finds, in the order it finds them. *)
Definition merge_found (first : bool) (old new : gmap string Obj) : list DeltaEvent :=
  omap (merge_new first old) (entries new) ++ removed_events old new.
(** [map.insert(v.EpochRevision(), ..)] *)
Definition by_revision (found : list DeltaEvent) : gmap EpochRevision DeltaEvent :=
  foldl (λ map e, <[EpochRevision_of (de_obj e) := e]> map) ∅ found.
(** ixshare/src/metastore/informer.rs:156-214 [Informer::Merge] on the informer's store *)
Definition Informer_Merge (first : bool) self (newstore : ThreadSafeStore) : ThreadSafeStore * list DeltaEvent :=
  let map := by_revision (merge_found first (ts_map self) (ts_map newstore)) in
  (MkStore (ts_id newstore) (ts_map newstore), values map).

(** ixshare/src/metastore/informer.rs:34-36 [EventHandler] *)
Class EventHandler (H : Type) := handle : H → ThreadSafeStore → DeltaEvent → H.
Context {H : Type} `{EventHandler H}.

(** ixshare/src/metastore/informer.rs:449-466 [InformerInner]: [closed] without the
    notifications, the addresses left out *)
Record Informer := MkInformer {
  in_objType : string;
  in_tenant : string;
  in_namespace : string;
  in_opts : ListOption;
  in_revision : Z;
  in_lastEventHandlerId : Z;
  in_store : ThreadSafeStore;
  in_handlers : gmap Z H;
  in_closed : bool;
}.
Implicit Types (inf : Informer).
(** ixshare/src/metastore/informer.rs:52-77 [Informer::New] *)
Definition Informer_New (id : Z) (objType tenant namespace : string) (opts : ListOption) : Informer :=
  MkInformer objType tenant namespace (ListOption_DeepCopy opts) 0 0 (Store_default id) ∅ false.

Definition set_inf (inf : Informer) (rev : Z) (store : ThreadSafeStore) (hs : gmap Z H) : Informer :=
  MkInformer (in_objType inf) (in_tenant inf) (in_namespace inf) (in_opts inf) rev
    (in_lastEventHandlerId inf) store hs (in_closed inf).

(** ixshare/src/metastore/informer.rs:440-445 [Informer::Distribute] *)
Definition Distribute inf (event : DeltaEvent) : Informer :=
  set_inf inf (in_revision inf) (in_store inf) ((λ h, handle h (in_store inf) event) <$> in_handlers inf).

(** ixshare/src/metastore/informer.rs:86-108 [Informer::AddEventHandler] *)
Definition AddEventHandler inf (h : H) : Informer * Share.Result Z :=
  if in_closed inf then (inf, Err (Share.CommonError "the informer is closed"))
  else
    let id := in_lastEventHandlerId inf in
    let h := foldl (λ h obj, handle h (in_store inf) (MkDelta EAdded true obj None)) h (Store_List (in_store inf)) in
    (MkInformer (in_objType inf) (in_tenant inf) (in_namespace inf) (in_opts inf) (in_revision inf) (id + 1)
       (in_store inf) (<[id := h]> (in_handlers inf)) (in_closed inf), Ok id).
(** ixshare/src/metastore/informer.rs:110-112 [Informer::RemoveEventHandler] *)
Definition RemoveEventHandler inf (id : Z) : Informer * option H :=
  (set_inf inf (in_revision inf) (in_store inf) (delete id (in_handlers inf)), in_handlers inf !! id).

(** [for o in objs.objs { store.Add(&o)?; }] *)
Fixpoint add_all self (objs : list Obj) : ThreadSafeStore * Share.Result unit :=
  match objs with
  | [] => (self, Ok tt)
  | o :: objs => let '(self, r) := Store_Add self o in
                 match r with Ok _ => add_all self objs | r => (self, r) end
  end.
(** [DataObject { objType, ..Default::default() }] *)
Definition init_done_obj (default : Value) (objType : string) : Obj :=
  MkDataObject objType "" "" "" ∅ ∅ 0 0 0 default.
(** ixshare/src/metastore/informer.rs:216-261 [Informer::InitList]: [answer] is the answer of
    [client.List], [default] the default [serde_json::Value] *)
Definition InitList (default : Value) (id : Z) inf (answer : Share.Result (DataObjList Value)) (first : bool)
  : Informer * Share.Result unit :=
  match answer with
  | Err e => (inf, Err e)
  | Panic w => (inf, Panic w)
  | Ok objs =>
      let inf := set_inf inf (dl_revision objs) (in_store inf) (in_handlers inf) in
      let '(store, r) := add_all (Store_default id) (dl_objs objs) in
      match r with
      | Ok _ =>
          let '(merged, events) := Informer_Merge first (in_store inf) store in
          let inf := set_inf inf (in_revision inf) merged (in_handlers inf) in
          let inf := foldl Distribute inf events in
          (if first then Distribute inf (MkDelta EInitDone true (init_done_obj default (in_objType inf)) None) else inf,
           Ok tt)
      | r => (inf, r)
      end
  end.

(** ixshare/src/metastore/informer.rs:311-352 [Informer::WatchUpdate], the arm of one
    event *)
Definition watch_event inf (e : WatchEvent Value) : Informer * Share.Result unit :=
  let obj := we_obj e in
  let store := in_store inf in
  let inf := set_inf inf (channelRev obj) store (in_handlers inf) in
  let deliver store (de : DeltaEvent) := (Distribute (set_inf inf (in_revision inf) store (in_handlers inf)) de, Ok tt) in
  let failed store (x : Share.Error) := (set_inf inf (in_revision inf) store (in_handlers inf), Err x) in
  if match Store_Get store (Key obj) with Some old => bool_decide (revision obj ≤ revision old)%Z | None => false end
  then (inf, Ok tt)
  else
    match we_type e with
    | EAdded =>
        match Store_Add store obj with
        | (store, Ok _) => deliver store (MkDelta (we_type e) false obj None)
        | (store, Err x) => failed store x
        | (_, Panic w) => (inf, Panic w)
        end
    | EModified =>
        match Store_Update store obj with
        | (store, Ok oldObj) => deliver store (MkDelta (we_type e) false obj (Some oldObj))
        | (store, Err x) => failed store x
        | (_, Panic w) => (inf, Panic w)
        end
    | EDeleted =>
        match Store_Delete store obj with
        | (store, Ok old) => deliver store (MkDelta (we_type e) false obj (Some old))
        | (store, Err x) => failed store x
        | (_, Panic w) => (inf, Panic w)
        end
    | _ => (inf, Panic "Informer::Process get unexpect type")
    end.

(** What ends a pass over a stream: the stream (a new watch from the saved
    revision follows), an error returned to the caller, or nothing yet. *)
Inductive pass_end := Rewatch | Returned (r : Share.Result unit) | Waiting.
(** ixshare/src/metastore/informer.rs:263-359 [Informer::WatchUpdate], the messages of one
    stream *)
Fixpoint WatchUpdate inf (msgs : list (Share.Result (option (WatchEvent Value)))) : Informer * pass_end :=
  match msgs with
  | [] => (inf, Waiting)
  | Err _ :: _ | Ok None :: _ => (inf, Rewatch)
  | Panic w :: _ => (inf, Returned (Panic w))
  | Ok (Some e) :: msgs =>
      let '(inf, r) := watch_event inf e in
      match r with Ok _ => WatchUpdate inf msgs | r => (inf, Returned r) end
  end.

(** ** Replays of events *)

(** What a handler that keeps its own table does with an event. *)
Definition apply_delta (m : gmap string Obj) (e : DeltaEvent) : gmap string Obj :=
  match de_type e with
  | EAdded | EModified => <[Key (de_obj e) := de_obj e]> m
  | EDeleted => delete (Key (de_obj e)) m
  | _ => m
  end.
(** What an event leaves at its key. *)
Definition delta_effect (e : DeltaEvent) : option Obj := if decide (de_type e = EDeleted) then None else Some (de_obj e).
Definition is_change (e : DeltaEvent) : Prop := de_type e = EAdded ∨ de_type e = EModified ∨ de_type e = EDeleted.

Lemma apply_delta_lookup m e k :
  is_change e → apply_delta m e !! k = if decide (k = Key (de_obj e)) then delta_effect e else m !! k.
Proof.
  intros He. unfold apply_delta, delta_effect. destruct He as [->|[->| ->]]; simpl; case_decide; subst;
    by rewrite ?lookup_insert_eq, ?lookup_delete_eq, ?lookup_insert_ne, ?lookup_delete_ne.
Qed.

(** A replay leaves at a key what its events for that key agree on. *)
Lemma replay_deltas m es k x :
  Forall is_change es → (∀ e, e ∈ es → Key (de_obj e) = k → delta_effect e = x) →
  foldl apply_delta m es !! k = m !! k ∧ (∀ e, e ∈ es → Key (de_obj e) ≠ k) ∨
  foldl apply_delta m es !! k = x ∧ ∃ e, e ∈ es ∧ Key (de_obj e) = k.
Proof.
  intros Hch. induction es as [|e es IH] using rev_ind; intros Heff.
  { left. split; [done|]. by intros e ?%elem_of_nil. }
  apply Forall_app in Hch as [Hch He]. rewrite foldl_app. simpl.
  rewrite apply_delta_lookup by by inversion He.
  destruct (decide (k = Key (de_obj e))) as [->|Hne].
  - right. split; [apply Heff; [set_solver|done]|]. exists e. set_solver.
  - destruct (IH Hch) as [[-> Hno]|[-> (e' & ? & ?)]].
    + intros e' He' Hk. apply Heff; [set_solver|done].
    + left. split; [done|]. intros e' [He'| ->%list_elem_of_singleton]%elem_of_app; [by apply Hno|congruence].
    + right. split; [done|]. exists e'. set_solver.
Qed.

Lemma elem_of_removed old new e :
  e ∈ removed_events old new ↔ ∃ k o, old !! k = Some o ∧ new !! k = None ∧ e = MkDelta EDeleted false o None.
Proof.
  unfold removed_events. rewrite list_elem_of_omap. split.
  - intros ([k o] & Hin%elem_of_entries & He). destruct (new !! k) eqn:Hn; [done|]. injection He as <-. eauto.
  - intros (k & o & Ho & Hn & ->). exists (k, o). rewrite Hn. split; [by apply elem_of_entries|done].
Qed.

(** ** Merging a new list *)

Lemma elem_of_found first old new e :
  e ∈ merge_found first old new ↔
  (∃ k v, new !! k = Some v ∧ merge_new first old (k, v) = Some e) ∨
  (∃ k o, old !! k = Some o ∧ new !! k = None ∧ e = MkDelta EDeleted false o None).
Proof.
  unfold merge_found. rewrite elem_of_app, elem_of_removed, list_elem_of_omap. f_equiv. split.
  - intros ([k v] & Hin%elem_of_entries & He). eauto.
  - intros (k & v & Hv & He). exists (k, v). split; [by apply elem_of_entries|done].
Qed.

Lemma merge_new_change first old k v e :
  merge_new first old (k, v) = Some e → is_change e ∧ de_obj e = v ∧ de_type e ≠ EDeleted.
Proof.
  unfold merge_new. destruct (old !! k); [case_decide; [|done]|]; intros [= <-]; unfold is_change; simpl; auto.
Qed.

(** Replaying the found events, whatever their order and repetitions. *)
Lemma replay_found first old new es :
  keyed old → keyed new →
  (∀ k o v, old !! k = Some o → new !! k = Some v → ¬ er_lt (EpochRevision_of o) (EpochRevision_of v) → v = o) →
  (∀ e, e ∈ es ↔ e ∈ merge_found first old new) →
  foldl apply_delta old es = new.
Proof.
  intros Hold Hnew Hsame Hes. apply map_eq. intros k.
  destruct (replay_deltas old es k (new !! k)) as [[-> Hno]|[-> _]]; [| | |done].
  - apply Forall_forall. intros e He. apply Hes, elem_of_found in He as [(k' & v & _ & He)|(k' & o & _ & _ & ->)].
    + by destruct (merge_new_change _ _ _ _ _ He). + unfold is_change. auto.
  - intros e He Hk. apply Hes, elem_of_found in He as [(k' & v & Hv & He)|(k' & o & Ho & Hn & ->)].
    + apply merge_new_change in He as (_ & Hobj & Hty). unfold delta_effect.
      rewrite decide_False, Hobj by done. rewrite Hobj, (Hnew _ _ Hv) in Hk. by subst.
    + simpl in Hk. rewrite (Hold _ _ Ho) in Hk. subst. done.
  - destruct (new !! k) as [v|] eqn:Hv.
    + destruct (merge_new first old (k, v)) as [e|] eqn:He.
      * exfalso. apply (Hno e); [apply Hes, elem_of_found; eauto|].
        apply merge_new_change in He as (_ & -> & _). by apply Hnew.
      * unfold merge_new in He. destruct (old !! k) as [o|] eqn:Ho; [|done].
        case_decide; [done|]. by rewrite (Hsame k o v).
    + destruct (old !! k) as [o|] eqn:Ho; [|done]. exfalso.
      apply (Hno (MkDelta EDeleted false o None)); [apply Hes, elem_of_found; eauto 10|]. by apply Hold.
Qed.

Lemma by_revision_lookup found r :
  NoDup ((EpochRevision_of ∘ de_obj) <$> found) →
  by_revision found !! r = (list_to_map ((λ e, (EpochRevision_of (de_obj e), e)) <$> found) : gmap _ _) !! r.
Proof.
  intros Hnd. unfold by_revision.
  assert (∀ m, foldl (λ map e, <[EpochRevision_of (de_obj e) := e]> map) m found =
    foldl (λ m p, <[p.1 := p.2]> m) m ((λ e, (EpochRevision_of (de_obj e), e)) <$> found)) as ->.
  { induction found as [|e found IH]; intros m; [done|]. apply IH. by apply NoDup_cons in Hnd as [_ ?]. }
  rewrite foldl_insert_lookup by by rewrite <-list_fmap_compose. by destruct (list_to_map _ !! r).
Qed.

Lemma elem_of_by_revision found e :
  NoDup ((EpochRevision_of ∘ de_obj) <$> found) → e ∈ values (by_revision found) ↔ e ∈ found.
Proof.
  intros Hnd. rewrite elem_of_values. setoid_rewrite by_revision_lookup; [|done]. split.
  - intros (r & Hr). apply elem_of_list_to_map_2 in Hr. apply list_elem_of_fmap in Hr as (e' & [= -> ->] & ?). done.
  - intros He. exists (EpochRevision_of (de_obj e)). apply elem_of_list_to_map_1.
    + by rewrite <-list_fmap_compose.
    + apply list_elem_of_fmap. by exists e.
Qed.

(** The entries of the map are keyed by their event's revision. *)
Lemma by_revision_keys found r e : by_revision found !! r = Some e → r = EpochRevision_of (de_obj e).
Proof.
  unfold by_revision. induction found as [|e' found IH] using rev_ind; [done|].
  rewrite foldl_app. simpl. intros [[<- <-]|[_ Hl]]%lookup_insert_Some; [done|auto].
Qed.

Lemma by_revision_sorted found :
  StronglySorted (λ e1 e2, er_le (EpochRevision_of (de_obj e1)) (EpochRevision_of (de_obj e2))) (values (by_revision found)).
Proof.
  unfold values. pose proof (entries_sorted (by_revision found)) as Hs.
  assert (∀ r e, (r, e) ∈ entries (by_revision found) → r = EpochRevision_of (de_obj e)) as Hk.
  { intros r e Hin%elem_of_entries. by eapply by_revision_keys. }
  induction Hs as [|[r e] l Hs IH Hall]; csimpl; constructor.
  - apply IH. intros r' e' ?. apply Hk. by right.
  - apply Forall_fmap. rewrite Forall_forall in Hall |- *. intros [r' e'] Hin. simpl.
    rewrite <-(Hk r e), <-(Hk r' e') by first [by left|by right]. apply (Hall _ Hin).
Qed.

(** ** Replacing the store *)

Definition obj_table (objs : list Obj) : gmap string Obj := list_to_map ((λ o, (Key o, o)) <$> objs).
Lemma keys_fmap (objs : list Obj) : ((λ o, (Key o, o)) <$> objs).*1 = Key <$> objs.
Proof. by rewrite <-list_fmap_compose. Qed.
Lemma obj_table_lookup objs o : NoDup (Key <$> objs) → o ∈ objs → obj_table objs !! Key o = Some o.
Proof.
  intros Hnd Ho. apply elem_of_list_to_map_1; [by rewrite keys_fmap|]. apply list_elem_of_fmap. by exists o.
Qed.
Lemma obj_table_keyed objs : keyed (obj_table objs).
Proof. intros k o Hl%elem_of_list_to_map_2. by apply list_elem_of_fmap in Hl as (o' & [= -> ->] & _). Qed.
Lemma obj_table_elem objs k o : obj_table objs !! k = Some o → o ∈ objs ∧ k = Key o.
Proof. intros Hl%elem_of_list_to_map_2. by apply list_elem_of_fmap in Hl as (o' & [= -> ->] & ?). Qed.

Definition replace_event (old : gmap string Obj) (initList : bool) (o : Obj) : option DeltaEvent :=
  match old !! Key o with
  | None => Some (MkDelta EAdded initList o None)
  | Some obj => if decide (revision o ≠ revision obj) then Some (MkDelta EModified false o (Some obj)) else None
  end.
Lemma replace_one_Ok old initList m es o :
  (∀ obj, old !! Key o = Some obj → revision obj ≤ revision o)%Z →
  replace_one old initList (m, es) o = Ok (<[Key o := o]> m, es ++ option_list (replace_event old initList o)).
Proof.
  intros Ho. unfold replace_one, replace_event. destruct (old !! Key o) as [obj|]; [|done].
  unfold assert_. rewrite bool_decide_eq_true_2 by by apply Ho. simpl.
  case_decide; simpl; by rewrite ?app_nil_r.
Qed.
Lemma replace_loop_Ok old initList m es items :
  (∀ o obj, o ∈ items → old !! Key o = Some obj → revision obj ≤ revision o)%Z →
  foldlM (replace_one old initList) (m, es) items =
  Ok (foldl (λ m o, <[Key o := o]> m) m items, es ++ omap (replace_event old initList) items).
Proof.
  revert m es. induction items as [|o items IH]; intros m es Hall; [simpl; by rewrite app_nil_r|].
  cbn -[replace_one]. rewrite replace_one_Ok by (intros; apply Hall; [by left|done]). cbn -[replace_one].
  rewrite IH by (intros; apply Hall; [by right|done]). rewrite <-app_assoc. do 3 f_equal.
  by destruct (replace_event old initList o).
Qed.
Lemma foldl_insert_objs objs : NoDup (Key <$> objs) → foldl (λ m o, <[Key o := o]> m) ∅ objs = obj_table objs.
Proof.
  intros Hnd.
  assert (∀ m, foldl (λ m o, <[Key o := o]> m) m objs = foldl (λ m p, <[p.1 := p.2]> m) m ((λ o, (Key o, o)) <$> objs)) as ->.
  { clear. induction objs as [|o objs IH]; intros m; [done|]. apply IH. }
  apply map_eq. intros k. rewrite foldl_insert_lookup by by rewrite keys_fmap. unfold obj_table.
  by destruct (list_to_map _ !! k).
Qed.

Lemma Store_Replace_Ok self items :
  NoDup (Key <$> items) → keyed (ts_map self) →
  (∀ o obj, o ∈ items → ts_map self !! Key o = Some obj → revision obj ≤ revision o ∧ (revision obj = revision o → o = obj))%Z →
  ∃ es, Store_Replace self items = Ok (MkStore (ts_id self) (obj_table items), es) ∧
    foldl apply_delta (ts_map self) es = obj_table items.
Proof.
  intros Hnd Hk Hall. unfold Store_Replace. rewrite replace_loop_Ok by naive_solver. simpl.
  rewrite foldl_insert_objs by done. eexists. split; [done|].
  set (old := ts_map self) in *. set (b := _ =? 0). apply map_eq. intros k.
  destruct (replay_deltas old (omap (replace_event old b) items ++ removed_events old (obj_table items)) k
    (obj_table items !! k)) as [[-> Hno]|[-> _]]; [| | |done].
  - apply Forall_forall. intros e [He|He]%elem_of_app.
    + apply list_elem_of_omap in He as (o & Ho & He). unfold replace_event, is_change in *.
      destruct (old !! Key o); [case_decide; [|done]|]; injection He as <-; auto.
    + apply elem_of_removed in He as (k' & o & _ & _ & ->). unfold is_change. auto.
  - intros e [He|He]%elem_of_app Hke.
    + apply list_elem_of_omap in He as (o & Ho & He). unfold replace_event in He.
      destruct (old !! Key o); [case_decide; [|done]|]; injection He as <-; simpl in *; subst;
        symmetry; by apply obj_table_lookup.
    + apply elem_of_removed in He as (k' & o & Ho & Hn & ->). simpl in Hke. rewrite (Hk _ _ Ho) in Hke. by subst.
  - destruct (obj_table items !! k) as [v|] eqn:Hv.
    + apply obj_table_elem in Hv as [Hv ->]. destruct (replace_event old b v) as [e|] eqn:He.
      * exfalso. apply (Hno e). { apply elem_of_app. left. apply list_elem_of_omap. eauto. }
        unfold replace_event in He. destruct (old !! Key v); [case_decide; [|done]|]; by injection He as <-.
      * unfold replace_event in He. destruct (old !! Key v) as [obj|] eqn:Ho; [|done].
        case_decide as Hr; [done|]. destruct (Hall v obj Hv Ho) as [_ Heq]. f_equal. symmetry. apply Heq. lia.
    + destruct (old !! k) as [o|] eqn:Ho; [|done]. exfalso.
      apply (Hno (MkDelta EDeleted false o None)); [|by apply Hk].
      apply elem_of_app. right. apply elem_of_removed. eauto 10.
Qed.

(** ** Following a watch *)

Lemma Distribute_frame inf de :
  in_store (Distribute inf de) = in_store inf ∧ in_revision (Distribute inf de) = in_revision inf.
Proof. done. Qed.

(** An event that fits the store is applied, remembered and handed on. *)
Lemma watch_event_ok inf e :
  event_ok (ts_map (in_store inf)) e →
  ∃ de, watch_event inf e =
    (Distribute (set_inf inf (channelRev (we_obj e))
       (MkStore (ts_id (in_store inf)) (apply_event (ts_map (in_store inf)) e)) (in_handlers inf)) de, Ok tt) ∧
    de_type de = we_type e ∧ de_obj de = we_obj e.
Proof.
  unfold event_ok, watch_event, apply_event, Store_Get. intros He.
  destruct (we_type e) eqn:Hty; try done.
  - rewrite He. simpl. unfold Store_Add. rewrite He.
    eexists. split; [done|]. done.
  - destruct He as (o & Ho & Hrev). rewrite Ho, bool_decide_eq_false_2 by lia. unfold Store_Update. rewrite Ho.
    eexists. split; [done|]. done.
  - destruct He as (o & Ho & Hrev). rewrite Ho, bool_decide_eq_false_2 by lia. unfold Store_Delete. rewrite Ho.
    simpl. eexists. split; [done|]. done.
Qed.

Lemma WatchUpdate_ok inf es :
  stream_ok (ts_map (in_store inf)) es →
  ∃ inf', WatchUpdate inf ((λ e, Ok (Some e)) <$> es) = (inf', Waiting) ∧
    ts_map (in_store inf') = apply_events (ts_map (in_store inf)) es ∧
    in_revision inf' = from_option (λ e, channelRev (we_obj e)) (in_revision inf) (last es).
Proof.
  revert inf. induction es as [|e es IH]; intros inf Hok; [by eexists|]. destruct Hok as [He Hok].
  destruct (watch_event_ok inf e He) as (de & Hev & _ & _). csimpl. rewrite Hev.
  destruct (IH (Distribute (set_inf inf (channelRev (we_obj e))
    (MkStore (ts_id (in_store inf)) (apply_event (ts_map (in_store inf)) e)) (in_handlers inf)) de) Hok)
    as (inf' & -> & Hm & Hr).
  exists inf'. split_and!; [done..|]. rewrite Hr. destruct es as [|e' es]; [done|].
  rewrite !last_cons. by destruct (last es).
Qed.

Lemma add_all_Ok self objs :
  NoDup (Key <$> objs) → (∀ o, o ∈ objs → ts_map self !! Key o = None) →
  add_all self objs = (MkStore (ts_id self) (foldl (λ m o, <[Key o := o]> m) (ts_map self) objs), Ok tt).
Proof.
  revert self. induction objs as [|o objs IH]; intros self Hnd Hno; [by destruct self|].
  csimpl in Hnd. apply NoDup_cons in Hnd as [Ho Hnd]. simpl. unfold Store_Add. rewrite Hno by by left.
  rewrite IH; [done..|]. intros o' Ho'. simpl. rewrite lookup_insert_ne; [apply Hno; by right|].
  intros Heq. apply Ho. rewrite Heq. apply list_elem_of_fmap. by exists o'.
Qed.

Lemma foldl_Distribute inf es :
  foldl Distribute inf es = set_inf inf (in_revision inf) (in_store inf)
    ((λ h, foldl (λ h de, handle h (in_store inf) de) h es) <$> in_handlers inf).
Proof.
  revert inf. induction es as [|e es IH]; intros inf; simpl.
  - unfold set_inf. rewrite map_fmap_id. by destruct inf.
  - rewrite IH. unfold Distribute, set_inf. simpl. f_equal. by rewrite <-map_fmap_compose.
Qed.

(** A list takes the informer's store to the listed objects, whatever it was. *)
Lemma InitList_Ok default id inf l first :
  NoDup (Key <$> dl_objs l) →
  ∃ inf', InitList default id inf (Ok l) first = (inf', Ok tt) ∧
    in_store inf' = MkStore id (obj_table (dl_objs l)) ∧ in_revision inf' = dl_revision l.
Proof.
  intros Hnd. unfold InitList. rewrite add_all_Ok by done. simpl. rewrite foldl_insert_objs by done.
  rewrite foldl_Distribute. destruct first; eexists; split_and!; done.
Qed.
End informer.
Arguments ThreadSafeStore : clear implicits.
Arguments DeltaEvent : clear implicits.
Arguments Informer : clear implicits.

(** ** Handlers that keep a copy *)

Section replicas.
Context {Value : Type}.
Abbreviation Table := (gmap string (DataObject Value)).
Implicit Types (inf : Informer Value Table).

(** A handler whose state is a table it applies every event to. *)
#[local] Instance replica : EventHandler (Value:=Value) Table := λ h _ e, apply_delta h e.

(** Every handler has the informer's objects. *)
Definition replicas inf : Prop := ∀ id h, in_handlers inf !! id = Some h → h = ts_map (in_store inf).

Lemma replicas_foldl inf rev store es :
  foldl apply_delta (ts_map (in_store inf)) es = ts_map store → replicas inf →
  replicas (set_inf inf rev store ((λ h, foldl (λ h de, handle h store de) h es) <$> in_handlers inf)).
Proof.
  intros Hes Hr id h. simpl. rewrite lookup_fmap. destruct (in_handlers inf !! id) as [h0|] eqn:Hh; [|done].
  intros [= <-]. rewrite (Hr id h0 Hh), <-Hes. done.
Qed.

Lemma AddEventHandler_replicas inf id inf' :
  keyed (ts_map (in_store inf)) → replicas inf → AddEventHandler inf ∅ = (inf', Ok id) → replicas inf'.
Proof.
  intros Hk Hr Hadd. unfold AddEventHandler in Hadd. destruct (in_closed inf); [done|].
  injection Hadd as <- <-. intros id h. simpl. intros [[_ <-]|[_ Hh]]%lookup_insert_Some; [|by eapply Hr].
  unfold Store_List, values, handle, replica.
  assert (∀ m, foldl (λ h obj, apply_delta h (MkDelta EAdded true obj None)) m (entries (ts_map (in_store inf))).*2 =
    foldl (λ m p, <[p.1 := p.2]> m) m (entries (ts_map (in_store inf)))) as ->.
  { assert (∀ k o, (k, o) ∈ entries (ts_map (in_store inf)) → Key o = k) as Hall.
    { intros k o Hin%elem_of_entries. by apply Hk. }
    induction (entries (ts_map (in_store inf))) as [|[k o] es IH]; intros m; [done|]. csimpl.
    unfold apply_delta at 2. simpl. rewrite (Hall k o) by by left. apply IH. intros. apply Hall. by right. }
  apply map_eq. intros k. rewrite foldl_insert_lookup by apply NoDup_keys. rewrite list_to_map_entries.
  by destruct (ts_map (in_store inf) !! k).
Qed.

Lemma watch_event_replicas inf e :
  event_ok (ts_map (in_store inf)) e → replicas inf → replicas (watch_event inf e).1.
Proof.
  intros He Hr. destruct (watch_event_ok inf e He) as (de & -> & Hty & Hobj). simpl.
  apply (replicas_foldl inf _ (MkStore (ts_id (in_store inf)) (apply_event (ts_map (in_store inf)) e)) [de]); [|done].
  simpl. unfold apply_delta, apply_event. rewrite Hty, Hobj. unfold event_ok in He. by destruct (we_type e).
Qed.

Lemma InitList_replicas inf inf' default id l first :
  keyed (ts_map (in_store inf)) → NoDup (Key <$> dl_objs l) →
  (∀ o v, ts_map (in_store inf) !! Key v = Some o → v ∈ dl_objs l →
    ¬ er_lt (EpochRevision_of o) (EpochRevision_of v) → v = o) →
  NoDup ((EpochRevision_of ∘ de_obj) <$> merge_found first (ts_map (in_store inf)) (obj_table (dl_objs l))) →
  replicas inf → InitList default id inf (Ok l) first = (inf', Ok tt) → replicas inf'.
Proof.
  intros Hk Hnd Hsame Her Hr Hrun. unfold InitList in Hrun. rewrite add_all_Ok in Hrun by done.
  simpl in Hrun. rewrite foldl_insert_objs in Hrun by done. rewrite foldl_Distribute in Hrun. simpl in Hrun.
  assert (∀ rev, replicas (set_inf inf rev (MkStore id (obj_table (dl_objs l)))
    ((λ h, foldl (λ h de, handle h (MkStore id (obj_table (dl_objs l))) de) h
       (values (by_revision (merge_found first (ts_map (in_store inf)) (obj_table (dl_objs l)))))) <$> in_handlers inf))) as Hok.
  { intros rev. apply replicas_foldl; [|done]. simpl. apply (replay_found first); [done|apply obj_table_keyed| |].
    - intros k o v Ho Hv Hn. apply obj_table_elem in Hv as [Hv ->]. by apply Hsame.
    - intros e. by apply elem_of_by_revision. }
  destruct first; injection Hrun as <-; [|apply Hok].
  intros id' h. simpl. rewrite lookup_fmap. destruct (_ !! id') as [h0|] eqn:Hh; [|done].
  intros [= <-]. unfold handle at 1, replica at 1, apply_delta. simpl. exact (Hok 0%Z id' h0 Hh).
Qed.
End replicas.

(** ** Properties *)

(** C27: an informer of a whole type (no tenant, no namespace: as every informer
    of the program is) takes the answer [l] of a list with its options; the
    server then processes [evs], at most as many events as its ring buffer
    holds, none of which takes a selected object out of the selection without
    deleting it; then the informer's watch from the listed revision is opened,
    and the server goes on for any number of steps.  Once the informer has
    processed what that watch sent so far, its store is exactly the server's
    selected objects at that moment, whatever it was before; the list and every
    event succeed, and the revision it would watch from next is that of the
    last event.  (A server whose cache is consistent, and a list that is not the
    one at revision -1, which asks the store behind the cache.  With a tenant
    the watch would have another prefix than the list: the finding at
    svc_dir.rs:413.) *)
Theorem informer_mirrors_server {Value S H : Type}
    `{JsonOps Value, ChanSpec S (WatchEvent Value), EventHandler Value H}
    now rev q (self self1 self2 self3 : CacheStoreInner Value S) notified l evs rev1 wid es rev3 w
    default id (inf : Informer Value H) first :
  in_tenant inf = "" → in_namespace inf = "" → lo_revision (in_opts inf) ≠ (-1)%Z →
  cache_inv rev q self →
  CacheStore_List rev notified self (in_tenant inf) (in_namespace inf) (in_opts inf) = Ok l →
  cache_steps (rev, self) evs (rev1, self1) → length evs ≤ DEFAULT_CACHE_COUNT →
  Forall (stays_selected (lo_predicate (in_opts inf))) evs →
  CacheStore_Watch now self1 (in_namespace inf) (dl_revision l) (lo_predicate (in_opts inf)) = (self2, Ok wid) →
  cache_steps (rev1, self2) es (rev3, self3) → cs_watchers self3 !! wid = Some w →
  ∃ inf1 inf2, InitList default id inf (Ok l) first = (inf1, Ok tt) ∧ in_revision inf1 = dl_revision l ∧
    WatchUpdate inf1 ((λ e, Ok (Some e)) <$> sent (cw_sender w)) = (inf2, Waiting) ∧
    ts_map (in_store inf2) = view_of "" (lo_predicate (in_opts inf)) (cs_cacheStore self3) ∧
    in_revision inf2 = from_option (λ e, channelRev (we_obj e)) (dl_revision l) (last (sent (cw_sender w))).
Proof.
  intros -> Hns Hr Hinv Hl Hst Hlen Hstay Hw Hst2 Hlk. rewrite Hns in Hl, Hw.
  set (w0 := CacheWatcher_New 0 0 "" (lo_predicate (in_opts inf)) "" : CacheWatcher S).
  pose proof (List_selected _ _ _ _ _ _ _ w0 Hr (ci_keyed _ _ _ Hinv) Hl eq_refl eq_refl) as Hbase.
  rewrite selected_view in Hbase. destruct (List_Ok _ _ _ _ _ _ _ Hr Hl) as [Hrev _]. rewrite Hrev in Hw.
  pose proof (Watch_resume_tracked _ _ _ _ _ _ _ _ _ _ _ _ Hinv Hst Hlen Hstay Hbase Hw) as Htr.
  destruct (cache_steps_inv _ _ _ _ _ _ Hst Hinv) as (Hinv1 & _).
  destruct (Watch_inv _ _ _ _ _ _ _ _ _ Hinv1 Hw) as [Hinv2 _].
  pose proof (cache_steps_tracked _ _ _ _ (rev1, self2) _ (rev3, self3) _ Hst2 Hinv2 Htr) as Htr3.
  destruct (tracked_view _ _ _ _ _ _ Htr3 Hlk) as [Hview Hok].
  destruct (InitList_Ok default id inf l first) as (inf1 & Hinit & Hs1 & Hr1).
  { by eapply List_keys_NoDup; [| |exact Hl]; [|apply Hinv]. }
  destruct (WatchUpdate_ok inf1 (sent (cw_sender w))) as (inf2 & Hrun & Hs2 & Hr2).
  { rewrite Hs1. exact Hok. }
  exists inf1, inf2. split_and!; try done.
  - rewrite Hs2, Hs1. exact Hview.
  - by rewrite Hr2, Hr1.
Qed.

(** Replacing the store's content reports the differences: unless a listed
    object is older than the stored one (which the code asserts), the store
    ends with exactly the listed objects and replaying the events on the old
    content gives the new one. *)
Theorem replace_reports_difference {Value : Type} (self : ThreadSafeStore Value) items :
  NoDup (Key <$> items) → keyed (ts_map self) →
  (∀ o obj, o ∈ items → ts_map self !! Key o = Some obj → revision obj ≤ revision o ∧ (revision obj = revision o → o = obj))%Z →
  ∃ es, Store_Replace self items = Ok (MkStore (ts_id self) (obj_table items), es) ∧
    foldl apply_delta (ts_map self) es = obj_table items.
Proof. apply Store_Replace_Ok. Qed.

(** Merging a new list: the store becomes the new list; the events come in
    the order of their objects' epochs and revisions, and if no two of the
    found changes carry the same epoch and revision, replaying them on the old
    content gives the new one.  (Two that do overwrite each other: only the
    last is reported.) *)
Theorem merge_reports_difference {Value : Type} first (self newstore : ThreadSafeStore Value) :
  keyed (ts_map self) → keyed (ts_map newstore) →
  (∀ k o v, ts_map self !! k = Some o → ts_map newstore !! k = Some v →
     ¬ er_lt (EpochRevision_of o) (EpochRevision_of v) → v = o) →
  NoDup ((EpochRevision_of ∘ de_obj) <$> merge_found first (ts_map self) (ts_map newstore)) →
  let '(merged, es) := Informer_Merge first self newstore in
  ts_map merged = ts_map newstore ∧ foldl apply_delta (ts_map self) es = ts_map newstore ∧
  StronglySorted (λ e1 e2, er_le (EpochRevision_of (de_obj e1)) (EpochRevision_of (de_obj e2))) es.
Proof.
  intros Hk Hk' Hsame Hnd. simpl. split_and!; [done| |apply by_revision_sorted].
  apply (replay_found first); [done..|]. intros e. by apply elem_of_by_revision.
Qed.

(** A handler that keeps its own table has the informer's objects: from the
    moment it is added, through lists and through every event of a watch that
    fits the store. *)
Theorem handlers_mirror_store {Value : Type} (inf inf' : Informer Value (gmap string (DataObject Value))) id e default l first :
  keyed (ts_map (in_store inf)) → replicas inf →
  (@AddEventHandler _ _ replica inf ∅ = (inf', Ok id) → replicas inf') ∧
  (event_ok (ts_map (in_store inf)) e → replicas (@watch_event _ _ replica inf e).1) ∧
  (NoDup (Key <$> dl_objs l) →
   (∀ o v, ts_map (in_store inf) !! Key v = Some o → v ∈ dl_objs l →
      ¬ er_lt (EpochRevision_of o) (EpochRevision_of v) → v = o) →
   NoDup ((EpochRevision_of ∘ de_obj) <$> merge_found first (ts_map (in_store inf)) (obj_table (dl_objs l))) →
   @InitList _ _ replica default id inf (Ok l) first = (inf', Ok tt) → replicas inf').
Proof.
  intros Hk Hr. split_and!.
  - by apply AddEventHandler_replicas.
  - intros He. by apply watch_event_replicas.
  - intros Hnd Hsame Her. by apply InitList_replicas.
Qed.

(** The last event of a broken watch is delivered again by the next one (the
    server replays from the saved revision inclusive): an addition or a change
    is skipped, but a deletion fails, with the saved revision and the store
    left as they are, so that the next watch fails in the same way. *)
Theorem redelivered_deletion_fails {Value H : Type} `{EventHandler Value H} (inf : Informer Value H) e :
  event_ok (ts_map (in_store inf)) e →
  let inf1 := (watch_event inf e).1 in
  if decide (we_type e = EDeleted)
  then ∃ x, watch_event inf1 e = (inf1, Err x) ∧
    ∀ msgs, WatchUpdate inf1 (Ok (Some e) :: msgs) = (inf1, Returned (Err x))
  else watch_event inf1 e = (inf1, Ok tt).
Proof.
  intros He inf1. destruct (watch_event_ok inf e He) as (de & Hev & _ & _).
  subst inf1. rewrite Hev. simpl. unfold event_ok in He. unfold apply_event.
  destruct (we_type e) eqn:Hty; try done; simpl.
  - unfold watch_event. rewrite Hty. simpl. unfold Store_Get. simpl. rewrite lookup_insert_eq.
    by rewrite bool_decide_eq_true_2 by lia.
  - unfold watch_event. rewrite Hty. simpl. unfold Store_Get. simpl. rewrite lookup_insert_eq.
    by rewrite bool_decide_eq_true_2 by lia.
  - set (inf1 := Distribute _ _). assert (∃ x, watch_event inf1 e = (inf1, Err x)) as [x Hx].
    { unfold watch_event. rewrite Hty. simpl. unfold Store_Get, Store_Delete. simpl. rewrite !lookup_delete_eq.
      simpl. eexists. f_equal. unfold inf1, Distribute, set_inf. simpl. do 2 f_equal. apply delete_delete_eq. }
    exists x. split; [done|]. intros msgs. simpl. by rewrite Hx.
Qed.

(** ** Concrete runs *)

#[local] Existing Instance CacheStore.text_json.
#[local] Existing Instance replica.
Abbreviation Copy := (gmap string (DataObject string)).
Definition pod_informer : Informer string Copy := Informer_New 0 "pod" "" "" list_opts.
(** The server's cache after a watch from revision 1, the list having been
    taken of the empty cache and [p] added since. *)
Definition resumed : CacheStoreInner string (queue (WatchEvent string)) :=
  (CacheStore_Watch 0 after_add.2 "" 1 app_a).1.
Definition empty_answer : DataObjList string := MkDataObjList [] 1 None 0.

Lemma informer_mirrors_server_witness :
  ∃ w, cs_watchers resumed !! 1%Z = Some w ∧
    ∃ inf1 inf2, InitList "" 1 pod_informer (Ok empty_answer) true = (inf1, Ok tt) ∧
      WatchUpdate inf1 ((λ e, Ok (Some e)) <$> sent (cw_sender w)) = (inf2, Waiting) ∧
      ts_map (in_store inf2) = view_of "" app_a (cs_cacheStore resumed).
Proof.
  destruct (cs_watchers resumed !! 1%Z) as [w|] eqn:Hw; [exists w; split; [done|]|].
  - destruct (informer_mirrors_server 0 0 [] empty_cache after_add.2 resumed resumed false
      empty_answer [log_a] 1 1 [] 1 w "" 1 pod_informer true) as (inf1 & inf2 & H1 & _ & H2 & H3 & _); [..|eauto].
    + done.
    + done.
    + done.
    + apply empty_cache_inv.
    + vm_compute. reflexivity.
    + eapply (steps_step _ [log_a] (1%Z, after_add.2) []); [|apply steps_refl].
      exact (step_event 0 add_a 0 empty_cache _ _ after_add_run).
    + vm_compute. lia.
    + constructor; [|constructor]. intros o Ho. vm_compute in Ho. discriminate.
    + vm_compute. reflexivity.
    + apply steps_refl.
    + exact Hw.
  - exfalso. vm_compute in Hw. discriminate.
Defined.

Definition one_pod : ThreadSafeStore string := MkStore 0 (obj_table [pod "p" "a" 1]).

Lemma replace_reports_difference_witness :
  ∃ es, Store_Replace one_pod [pod "p" "b" 2; pod "r" "a" 3] =
          Ok (MkStore 0 (obj_table [pod "p" "b" 2; pod "r" "a" 3]), es) ∧
    foldl apply_delta (ts_map one_pod) es = obj_table [pod "p" "b" 2; pod "r" "a" 3].
Proof.
  apply (replace_reports_difference one_pod [pod "p" "b" 2; pod "r" "a" 3]).
  - apply (bool_decide_unpack _). by vm_compute.
  - apply obj_table_keyed.
  - intros o obj Ho Hl. apply obj_table_elem in Hl as [Hobj%list_elem_of_singleton Hk]. subst obj.
    apply elem_of_cons in Ho as [->|Ho]; [split; [by vm_compute|done]|].
    apply list_elem_of_singleton in Ho as ->. done.
Defined.

Lemma merge_reports_difference_witness :
  foldl apply_delta (ts_map one_pod) (Informer_Merge false one_pod (MkStore 1 (obj_table [pod "r" "a" 3]))).2
  = obj_table [pod "r" "a" 3].
Proof.
  apply (merge_reports_difference false one_pod (MkStore 1 (obj_table [pod "r" "a" 3]))).
  - apply obj_table_keyed.
  - apply obj_table_keyed.
  - intros k o v Ho Hv _. apply obj_table_elem in Ho as [Ho%list_elem_of_singleton Hk].
    apply obj_table_elem in Hv as [Hv%list_elem_of_singleton Hk']. subst. done.
  - apply (bool_decide_unpack _). by vm_compute.
Defined.

Lemma handlers_mirror_store_witness :
  is_ok (AddEventHandler pod_informer ∅).2 = true ∧ replicas (AddEventHandler pod_informer ∅).1.
Proof.
  split; [by vm_compute|].
  destruct (AddEventHandler pod_informer ∅) as [inf [id|e|why]] eqn:Hrun; [|by vm_compute in Hrun..].
  revert Hrun. apply (handlers_mirror_store pod_informer inf id (MkWatchEvent EAdded (pod "p" "a" 1)) "" empty_answer true).
  - exact (map_Forall_empty (M:=gmap string) (λ k o, Key o = k)).
  - exact (map_Forall_empty (M:=gmap Z) (λ _ h, h = ts_map (in_store pod_informer))).
Defined.

Definition add_event : WatchEvent string := MkWatchEvent EAdded (pod "p" "a" 1).
Definition delete_event : WatchEvent string := MkWatchEvent EDeleted (pod "p" "a" 2).
Lemma redelivered_deletion_fails_witness :
  let inf := (watch_event pod_informer add_event).1 in
  let inf1 := (watch_event inf delete_event).1 in
  ∃ x, WatchUpdate inf1 [Ok (Some delete_event)] = (inf1, Returned (Err x)).
Proof.
  intros inf inf1. assert (event_ok (ts_map (in_store inf)) delete_event) as He.
  { exists (pod "p" "a" 1). split; [by vm_compute|done]. }
  destruct (redelivered_deletion_fails inf delete_event He) as (x & _ & Hx). exists x. apply Hx.
Defined.
