(* ===== verification/BiIndex.v ===== *)
(** * A two-way index of pairs (ixshare/src/scheduler/scheduler.rs, [BiIndex])

    The scheduler keeps what it knows about a (function, node) pair in two maps
    of maps, one per direction. *)

From S2P Require Import Prelude.
From S2P Require Import Text.
From S2P Require Import BTree.

Section biindex.
Context {Info : Type} `{EqDecision Info}.
Abbreviation Nested := (gmap string (gmap string Info)).

(** ixshare/src/scheduler/scheduler.rs:596-599 [BiIndex] *)
Record BiIndex := MkBiIndex { byId1 : Nested; byId2 : Nested }.
Implicit Types (self : BiIndex) (m : Nested).

(** ixshare/src/scheduler/scheduler.rs:602-607 [BiIndex::New] *)
Definition BiIndex_New : BiIndex := MkBiIndex ∅ ∅.
(** ixshare/src/scheduler/scheduler.rs:635-637 [BiIndex::Get12] *)
Definition Get12 self (id1 id2 : string) : option Info := byId1 self !! id1 ≫= λ x, x !! id2.
(** ixshare/src/scheduler/scheduler.rs:640-642 [BiIndex::Get21] *)
Definition Get21 self (id2 id1 : string) : option Info := byId2 self !! id2 ≫= λ x, x !! id1.

(** [m.entry(a).or_default().insert(b, info)] *)
Definition put m (a b : string) (info : Info) : Nested := <[a := <[b := info]> (default ∅ (m !! a))]> m.
(** [if let Some(x) = m.get_mut(a) { x.remove(b); if x.is_empty() { m.remove(a); } }] *)
Definition take_out m (a b : string) : Nested :=
  match m !! a with
  | Some x => let x := delete b x in if decide (x = ∅) then delete a m else <[a := x]> m
  | None => m
  end.

(** ixshare/src/scheduler/scheduler.rs:611-632 [BiIndex::Set]: whether it changed, and the index *)
Definition Set_ self (id1 id2 : string) (info : Info) : bool * BiIndex :=
  if decide (Get12 self id1 id2 = Some info) then (false, self)
  else (true, MkBiIndex (put (byId1 self) id1 id2 info) (put (byId2 self) id2 id1 info)).
(** ixshare/src/scheduler/scheduler.rs:645-659 [BiIndex::RemovePair] *)
Definition RemovePair self (id1 id2 : string) : BiIndex :=
  MkBiIndex (take_out (byId1 self) id1 id2) (take_out (byId2 self) id2 id1).
(** ixshare/src/scheduler/scheduler.rs:662-673 [BiIndex::RemoveById1] *)
Definition RemoveById1 self (id1 : string) : BiIndex :=
  match byId1 self !! id1 with
  | Some map2 => MkBiIndex (delete id1 (byId1 self)) (foldl (λ m id2, take_out m id2 id1) (byId2 self) (keys map2))
  | None => self
  end.
(** ixshare/src/scheduler/scheduler.rs:676-687 [BiIndex::RemoveById2] *)
Definition RemoveById2 self (id2 : string) : BiIndex :=
  match byId2 self !! id2 with
  | Some map1 => MkBiIndex (foldl (λ m id1, take_out m id1 id2) (byId1 self) (keys map1)) (delete id2 (byId2 self))
  | None => self
  end.
(** ixshare/src/scheduler/scheduler.rs:690-692 [BiIndex::GetById1] *)
Definition GetById1 self (id1 : string) : option (gmap string Info) := byId1 self !! id1.
(** ixshare/src/scheduler/scheduler.rs:695-697 [BiIndex::GetById2] *)
Definition GetById2 self (id2 : string) : option (gmap string Info) := byId2 self !! id2.
(** ixshare/src/scheduler/scheduler.rs:699-701 [BiIndex::Len] *)
Definition Len self : nat := sum_list (size <$> values (byId1 self)).
(** ixshare/src/scheduler/scheduler.rs:703-705 [BiIndex::IsEmpty] *)
Definition BiIndex_IsEmpty self : bool := bool_decide (byId1 self = ∅).

(** ** The relation an index stands for *)

Definition at_ m (a b : string) : option Info := m !! a ≫= λ x, x !! b.
(** No empty inner map. *)
Definition full m : Prop := map_Forall (λ _ x, x ≠ ∅) m.
(** Both directions agree. *)
Record bi_ok self : Prop := {
  bi_agree id1 id2 : Get12 self id1 id2 = Get21 self id2 id1;
  bi_full1 : full (byId1 self);
  bi_full2 : full (byId2 self);
}.

Lemma at_put m a b info a' b' :
  at_ (put m a b info) a' b' = if decide (a' = a ∧ b' = b) then Some info else at_ m a' b'.
Proof.
  unfold at_, put. destruct (decide (a' = a)) as [->|Ha].
  - rewrite lookup_insert_eq. simpl. destruct (decide (b' = b)) as [->|Hb].
    + rewrite lookup_insert_eq. by rewrite decide_True.
    + rewrite lookup_insert_ne by done. rewrite decide_False by naive_solver. by destruct (m !! a).
  - rewrite lookup_insert_ne by done. by rewrite decide_False by naive_solver.
Qed.
Lemma full_put m a b info : full m → full (put m a b info).
Proof. intros Hm. apply map_Forall_insert_2; [|done]. apply insert_non_empty. Qed.

Lemma at_take_out m a b a' b' :
  at_ (take_out m a b) a' b' = if decide (a' = a ∧ b' = b) then None else at_ m a' b'.
Proof.
  unfold at_, take_out. destruct (m !! a) as [x|] eqn:Hx.
  - destruct (decide (a' = a)) as [->|Ha].
    + assert (delete b x !! b' = if decide (a = a ∧ b' = b) then None else x !! b') as Hb.
      { destruct (decide (b' = b)) as [->|?]; [by rewrite lookup_delete_eq, decide_True|].
        rewrite lookup_delete_ne by done. by rewrite decide_False by naive_solver. }
      rewrite Hx. simpl. rewrite <-Hb. destruct (decide (delete b x = ∅)) as [He|].
      * rewrite lookup_delete_eq. by rewrite He, lookup_empty.
      * by rewrite lookup_insert_eq.
    + rewrite (decide_False (P:=a' = a ∧ b' = b)) by naive_solver.
      case_decide; by rewrite ?lookup_delete_ne, ?lookup_insert_ne.
  - case_decide as Hd; [|done]. destruct Hd as [-> ->]. by rewrite Hx.
Qed.
Lemma full_take_out m a b : full m → full (take_out m a b).
Proof.
  intros Hm. unfold take_out. destruct (m !! a); [|done].
  case_decide; [by apply map_Forall_delete|by apply map_Forall_insert_2].
Qed.

Lemma at_take_all m b ks a' b' :
  at_ (foldl (λ m a, take_out m a b) m ks) a' b' = if decide (a' ∈ ks ∧ b' = b) then None else at_ m a' b'.
Proof.
  revert m. induction ks as [|a ks IH]; intros m; cbn [foldl].
  - rewrite decide_False; [done|]. by intros [?%elem_of_nil _].
  - rewrite IH, at_take_out. repeat case_decide; set_solver.
Qed.
Lemma full_take_all m b ks : full m → full (foldl (λ m a, take_out m a b) m ks).
Proof. revert m. induction ks as [|a ks IH]; intros m Hm; [done|]. by apply IH, full_take_out. Qed.

Lemma at_delete m a a' b' : at_ (delete a m) a' b' = if decide (a' = a) then None else at_ m a' b'.
Proof.
  unfold at_. case_decide as Ha; [subst; by rewrite lookup_delete_eq|by rewrite lookup_delete_ne].
Qed.

Lemma bi_ok_relation m1 m2 (R : string → string → option Info) :
  (∀ i j, at_ m1 i j = R i j) → (∀ i j, at_ m2 j i = R i j) → full m1 → full m2 →
  bi_ok (MkBiIndex m1 m2) ∧ ∀ i j, Get12 (MkBiIndex m1 m2) i j = R i j.
Proof.
  intros H1 H2 Hf1 Hf2. split; [|exact H1]. split; [|done..]. intros i j.
  change (at_ m1 i j = at_ m2 j i). by rewrite H1, H2.
Qed.

Lemma elem_of_ids1 self id1 x j : byId1 self !! id1 = Some x → j ∈ keys x ↔ is_Some (Get12 self id1 j).
Proof. intros Hx. rewrite elem_of_keys. unfold Get12. by rewrite Hx. Qed.
Lemma elem_of_ids2 self id2 x i : byId2 self !! id2 = Some x → i ∈ keys x ↔ is_Some (Get21 self id2 i).
Proof. intros Hx. rewrite elem_of_keys. unfold Get21. by rewrite Hx. Qed.

Lemma full_none m a : full m → (m !! a = None ↔ ∀ b, at_ m a b = None).
Proof.
  intros Hm. unfold at_. destruct (m !! a) as [x|] eqn:Hx; [|done]. split; [done|]. intros Hb. exfalso.
  apply (Hm _ _ Hx). apply map_eq. intros b. rewrite lookup_empty. exact (Hb b).
Qed.
End biindex.
Arguments BiIndex : clear implicits.

(** ** Properties *)

(** An index stands for one relation: both directions and the listings by
    either id show the same pairs, no empty inner map is kept, and each
    operation does to the relation what its name says ([Set] tells whether
    the pair changed). *)
Theorem bi_index_is_relation {Info : Type} `{EqDecision Info} (self : BiIndex Info) :
  bi_ok self →
  (∀ id1 id2 info, let '(changed, self') := Set_ self id1 id2 info in
     bi_ok self' ∧ changed = negb (bool_decide (Get12 self id1 id2 = Some info)) ∧
     ∀ i j, Get12 self' i j = if decide (i = id1 ∧ j = id2) then Some info else Get12 self i j) ∧
  (∀ id1 id2, let self' := RemovePair self id1 id2 in
     bi_ok self' ∧ ∀ i j, Get12 self' i j = if decide (i = id1 ∧ j = id2) then None else Get12 self i j) ∧
  (∀ id1, let self' := RemoveById1 self id1 in
     bi_ok self' ∧ ∀ i j, Get12 self' i j = if decide (i = id1) then None else Get12 self i j) ∧
  (∀ id2, let self' := RemoveById2 self id2 in
     bi_ok self' ∧ ∀ i j, Get12 self' i j = if decide (j = id2) then None else Get12 self i j) ∧
  (∀ i, (GetById1 self i = None ↔ ∀ j, Get12 self i j = None) ∧ (GetById2 self i = None ↔ ∀ j, Get21 self i j = None)) ∧
  (BiIndex_IsEmpty self = true ↔ ∀ i j, Get12 self i j = None).
Proof.
  intros [Hag Hf1 Hf2]. split_and!.
  - intros id1 id2 info. unfold Set_. destruct (decide (Get12 self id1 id2 = Some info)) as [Hs|Hs].
    + split_and!; [done|by rewrite bool_decide_eq_true_2|]. intros i j. case_decide as Hij; [|done]. by destruct Hij as [-> ->].
    + rewrite bool_decide_eq_false_2 by done. assert (∀ P Q : Prop, P ∧ Q → P ∧ true = negb false ∧ Q) as Hand by tauto.
      apply Hand. apply bi_ok_relation; [| |by apply full_put..]; intros i j; rewrite at_put.
      * done.
      * change (at_ (byId2 self) j i) with (Get21 self j i). rewrite <-Hag. repeat case_decide; tauto.
  - intros id1 id2. apply bi_ok_relation; [| |by apply full_take_out..]; intros i j; rewrite at_take_out; [done|].
    change (at_ (byId2 self) j i) with (Get21 self j i). rewrite <-Hag. repeat case_decide; tauto.
  - intros id1. unfold RemoveById1. destruct (byId1 self !! id1) as [x|] eqn:Hx.
    + apply bi_ok_relation; [| |by apply map_Forall_delete|by apply full_take_all]; intros i j.
      * apply at_delete.
      * rewrite at_take_all. change (at_ (byId2 self) j i) with (Get21 self j i). rewrite <-Hag.
        destruct (decide (i = id1)) as [->|Hi].
        -- case_decide as Hd; [done|]. apply eq_None_not_Some. rewrite <-(elem_of_ids1 _ _ _ _ Hx). tauto.
        -- by rewrite decide_False by tauto.
    + split; [done|]. intros i j. case_decide as Hi; [|done]. subst. unfold Get12. by rewrite Hx.
  - intros id2. unfold RemoveById2. destruct (byId2 self !! id2) as [x|] eqn:Hx.
    + apply bi_ok_relation; [| |by apply full_take_all|by apply map_Forall_delete]; intros i j.
      * rewrite at_take_all. change (at_ (byId1 self) i j) with (Get12 self i j).
        destruct (decide (j = id2)) as [->|Hj].
        -- case_decide as Hd; [done|]. apply eq_None_not_Some. rewrite Hag, <-(elem_of_ids2 _ _ _ _ Hx). tauto.
        -- by rewrite decide_False by tauto.
      * rewrite at_delete. change (at_ (byId2 self) j i) with (Get21 self j i). by rewrite <-Hag.
    + split; [done|]. intros i j. case_decide as Hj; [|done]. subst. rewrite Hag. unfold Get21. by rewrite Hx.
  - intros i. split; by apply full_none.
  - unfold BiIndex_IsEmpty. rewrite bool_decide_eq_true. split.
    + intros He i j. unfold Get12. by rewrite He.
    + intros Hn. apply map_eq. intros i. rewrite lookup_empty. apply full_none; [done|]. apply Hn.
Qed.

Lemma bi_index_is_relation_witness :
  Get21 (RemoveById2 (Set_ (Set_ BiIndex_New "f" "n1" 1).2 "f" "n2" 2).2 "n1") "n2" "f" = Some 2.
Proof.
  assert (bi_ok (@BiIndex_New nat)) as H0 by (split; [done|apply map_Forall_empty..]).
  destruct (bi_index_is_relation _ H0) as (Hset & _). destruct (Hset "f" "n1" 1) as (H1 & _).
  destruct (bi_index_is_relation _ H1) as (Hset1 & _). destruct (Hset1 "f" "n2" 2) as (H2 & _).
  destruct (bi_index_is_relation _ H2) as (_ & _ & _ & Hrm & _). destruct (Hrm "n1") as (H3 & Hget).
  rewrite <-(bi_agree _ H3). rewrite Hget. by vm_compute.
Defined.
