(* ===== verification/Specs.v ===== *)
(** * Objects of the control plane (inferxlib/src/obj_mgr, inferxlib/src/node.rs)

    Policies, tenants, snapshots, functions and pods as the scheduler reads
    them.  A record has the fields that the modelled code reads or writes; the
    others (container definitions, probes, sample calls, ...) are carried along
    unread and left out.  A 64 bit float is an element of a type [F] with
    literals; no modelled code computes with one. *)

From S2P Require Import Prelude.
From S2P Require Import Text.
From S2P Require Import BTree.
From S2P Require Import Common.
From S2P Require Import DataObj.
From S2P Require Import Selector.
From S2P Require Import Resource.

(** ** Policies *)

(** A 64 bit float literal. *)
Class FloatLit (F : Type) := lit : string → F.

Section policy.
Context {F : Type} `{FloatLit F}.

(** inferxlib/src/obj_mgr/funcpolicy_mgr.rs:16-16 [VIRTUAL_ENDPOINTS_NAMESPACE] *)
Definition VIRTUAL_ENDPOINTS_NAMESPACE : string := "endpoints".
(** inferxlib/src/obj_mgr/funcpolicy_mgr.rs:10-10 [DEFAULT_PARALLEL_LEVEL] *)
Definition DEFAULT_PARALLEL_LEVEL : Z := 50.
(** inferxlib/src/obj_mgr/funcpolicy_mgr.rs:11-11 [DEFAULT_QUEUE_LEN] *)
Definition DEFAULT_QUEUE_LEN : Z := 100.
(** inferxlib/src/obj_mgr/funcpolicy_mgr.rs:12-12 [DEFAULT_QUEUE_TIMEOUT] *)
Definition DEFAULT_QUEUE_TIMEOUT : F := lit "30.0".
(** inferxlib/src/obj_mgr/funcpolicy_mgr.rs:13-13 [DEFAULT_SCALEIN_TIMEOUT] *)
Definition DEFAULT_SCALEIN_TIMEOUT : F := lit "1.0".
(** inferxlib/src/obj_mgr/funcpolicy_mgr.rs:14-14 [DEFAULT_QUEUE_RATIO] *)
Definition DEFAULT_QUEUE_RATIO : F := lit "0.1".
(** inferxlib/src/obj_mgr/funcpolicy_mgr.rs:19-21 [ScaleOutPolicy] *)
Inductive ScaleOutPolicy := WaitQueueRatio (waitRatio : F).
(** inferxlib/src/obj_mgr/funcpolicy_mgr.rs:30-33 [RuntimeConfig] *)
Record RuntimeConfig := MkRuntimeConfig { GraphSync : bool }.
(** inferxlib/src/obj_mgr/funcpolicy_mgr.rs:36-63 [FuncPolicySpec] *)
Record FuncPolicySpec := MkFuncPolicySpec {
  nvidiaReplica : Z; minReplica : Z; maxReplica : Z; standbyPerNode : Z;
  parallel : Z; queueLen : Z; queueTimeout : F;
  scaleoutPolicy : ScaleOutPolicy; scaleinTimeout : F; runtimeConfig : RuntimeConfig;
}.
(** inferxlib/src/obj_mgr/funcpolicy_mgr.rs:66-85 [PartialFuncPolicySpec] *)
Record PartialFuncPolicySpec := MkPartial {
  p_minReplica : option Z; p_maxReplica : option Z; p_standbyPerNode : option Z;
  p_parallel : option Z; p_queueLen : option Z; p_queueTimeout : option F;
  p_scaleoutPolicy : option ScaleOutPolicy; p_scaleinTimeout : option F; p_runtimeConfig : option RuntimeConfig;
}.
(** inferxlib/src/obj_mgr/funcpolicy_mgr.rs:88-95 [FuncPolicySchedulerDefaults] *)
Record FuncPolicySchedulerDefaults := MkSchedulerDefaults {
  d_minReplica : option Z; d_maxReplica : option Z; d_standbyPerNode : option Z;
}.
(** inferxlib/src/obj_mgr/funcpolicy_mgr.rs:98-111 [EndpointGatewayPolicySpec] *)
Record EndpointGatewayPolicySpec := MkEndpointPolicy {
  e_maxReplica : Z; e_parallel : Z; e_queueLen : Z; e_queueTimeout : F;
  e_scaleoutPolicy : ScaleOutPolicy; e_scaleinTimeout : F;
}.
(** inferxlib/src/obj_mgr/funcpolicy_mgr.rs:113-117 [default_ScaleOutPolicy] *)
Definition default_ScaleOutPolicy : ScaleOutPolicy := WaitQueueRatio DEFAULT_QUEUE_RATIO.
(** inferxlib/src/obj_mgr/funcpolicy_mgr.rs:123-125 [default_runtime_config] *)
Definition default_runtime_config : RuntimeConfig := MkRuntimeConfig false.
(** inferxlib/src/obj_mgr/funcpolicy_mgr.rs:152-165 [FuncPolicySpec::default] *)
Definition FuncPolicySpec_default : FuncPolicySpec :=
  MkFuncPolicySpec 0 0 1 1 DEFAULT_PARALLEL_LEVEL DEFAULT_QUEUE_LEN DEFAULT_QUEUE_TIMEOUT
    default_ScaleOutPolicy DEFAULT_SCALEIN_TIMEOUT default_runtime_config.
(** inferxlib/src/obj_mgr/funcpolicy_mgr.rs:240-249 [EndpointGatewayPolicySpec::default] *)
Definition EndpointGatewayPolicySpec_default : EndpointGatewayPolicySpec :=
  MkEndpointPolicy 1 DEFAULT_PARALLEL_LEVEL DEFAULT_QUEUE_LEN DEFAULT_QUEUE_TIMEOUT
    default_ScaleOutPolicy DEFAULT_SCALEIN_TIMEOUT.
(** inferxlib/src/obj_mgr/funcpolicy_mgr.rs:169-205 [PartialFuncPolicySpec::Normalize] *)
Definition Normalize (self : PartialFuncPolicySpec) (namespace : string) : FuncPolicySpec :=
  let policy := FuncPolicySpec_default in
  let standby := if decide (namespace = VIRTUAL_ENDPOINTS_NAMESPACE) then 0%Z else standbyPerNode policy in
  MkFuncPolicySpec (nvidiaReplica policy)
    (default (minReplica policy) (p_minReplica self))
    (default (maxReplica policy) (p_maxReplica self))
    (default standby (p_standbyPerNode self))
    (default (parallel policy) (p_parallel self))
    (default (queueLen policy) (p_queueLen self))
    (default (queueTimeout policy) (p_queueTimeout self))
    (default (scaleoutPolicy policy) (p_scaleoutPolicy self))
    (default (scaleinTimeout policy) (p_scaleinTimeout self))
    (default (runtimeConfig policy) (p_runtimeConfig self)).
(** inferxlib/src/obj_mgr/funcpolicy_mgr.rs:209-219 [FuncPolicySchedulerDefaults::ApplyTo] *)
Definition ApplyTo (self : FuncPolicySchedulerDefaults) (policy : FuncPolicySpec) : FuncPolicySpec :=
  MkFuncPolicySpec (nvidiaReplica policy)
    (default (minReplica policy) (d_minReplica self))
    (default (maxReplica policy) (d_maxReplica self))
    (default (standbyPerNode policy) (d_standbyPerNode self))
    (parallel policy) (queueLen policy) (queueTimeout policy) (scaleoutPolicy policy)
    (scaleinTimeout policy) (runtimeConfig policy).
(** inferxlib/src/obj_mgr/funcpolicy_mgr.rs:223-236 [EndpointGatewayPolicySpec::AsFuncPolicySpec] *)
Definition AsFuncPolicySpec (self : EndpointGatewayPolicySpec) : FuncPolicySpec :=
  MkFuncPolicySpec 0 0 (e_maxReplica self) 0 (e_parallel self) (e_queueLen self) (e_queueTimeout self)
    (e_scaleoutPolicy self) (e_scaleinTimeout self) default_runtime_config.
End policy.
Arguments ScaleOutPolicy : clear implicits.
Arguments FuncPolicySpec : clear implicits.
Arguments PartialFuncPolicySpec : clear implicits.
Arguments EndpointGatewayPolicySpec : clear implicits.

(** inferxlib/src/obj_mgr/funcpolicy_mgr.rs:252-270 [NormalizeFuncPolicyDataObject] *)
Definition NormalizeFuncPolicyDataObject {F Value} `{FloatLit F, Serde Value (PartialFuncPolicySpec F), Serde Value (FuncPolicySpec F)}
    (obj : DataObject Value) : Result (DataObject Value) :=
  partial ← To (T:=PartialFuncPolicySpec F) obj;
  let normalized := with_object partial (Normalize (object partial) (namespace partial)) in
  Ok (DataObject_of normalized).

(** ** Tenants *)

(** inferxlib/src/obj_mgr/tenant_mgr.rs:48-63 [ResourceLimit] *)
Record ResourceLimit := MkResourceLimit {
  maxFuncCnt : Z; allocMemStandby : bool; minReplicaCap : Z; maxGpu : Z;
  rl_maxReplica : Z; maxStandby : Z; maxQueueLen : Z;
}.
(** inferxlib/src/obj_mgr/tenant_mgr.rs:28-38 [default_resourcelimit] *)
Definition default_resourcelimit : ResourceLimit := MkResourceLimit 6 false 0 2 2 1 100.
(** inferxlib/src/obj_mgr/tenant_mgr.rs:100-105 [TenantSpec] *)
Record TenantSpec := MkTenantSpec { resourceLimit : ResourceLimit; quota_exempt : bool }.
(** inferxlib/src/obj_mgr/tenant_mgr.rs:41-45 [TenantStatus] *)
Record TenantStatus := MkTenantStatus { disable : bool; quota_exceeded : bool }.
(** inferxlib/src/obj_mgr/tenant_mgr.rs:23-26 [TenantObject] *)
Record TenantObject := MkTenantObject { tn_spec : TenantSpec; tn_status : TenantStatus }.
Abbreviation Tenant := (DataObject TenantObject).

(** ** Snapshots *)

(** inferxlib/src/obj_mgr/funcsnapshot_mgr.rs:21-21 [ONE_GB] *)
Definition ONE_GB : Z := 1073741824.
(** inferxlib/src/obj_mgr/funcsnapshot_mgr.rs:10-19 [SnapshotInfo] *)
Record SnapshotInfo := MkSnapshotInfo {
  hostMemSize : Z; processCheckpointSize : Z; fatbinSize : Z; gpuMemSizes : gmap Z Z;
  si_standby : Standby; containerImage : string;
}.
(** inferxlib/src/obj_mgr/funcsnapshot_mgr.rs:69-73 [SnapshotStandyInfo] *)
Record SnapshotStandyInfo := MkStandyInfo { ss_pageable : Z; ss_pinned : Z; ss_gpu : Z }.

(** [(size + ONE_GB - 1) / ONE_GB * 1024]: whole gigabytes, in megabytes *)
Definition gb_ceil_mb {X} (size : Z) : outcome X Z :=
  a ← chk u64 (size + ONE_GB)%Z; chk u64 ((a - 1) / ONE_GB * 1024)%Z.

(** inferxlib/src/obj_mgr/funcsnapshot_mgr.rs:24-34 [SnapshotInfo::SnapshotStandyInfo] *)
Definition SnapshotInfo_StandyInfo {X} (self : SnapshotInfo) : outcome X SnapshotStandyInfo :=
  gpu ← foldlM (λ gpu size, chk u64 (gpu + size)%Z) 0%Z (values (gpuMemSizes self));
  Ok (MkStandyInfo (processCheckpointSize self) (hostMemSize self) gpu).
(** inferxlib/src/obj_mgr/funcsnapshot_mgr.rs:36-49 [SnapshotInfo::StandyCacheMemory] *)
Definition StandyCacheMemory {X} (self : SnapshotInfo) : outcome X Z :=
  match pinndMem (si_standby self) with Mem => gb_ceil_mb (hostMemSize self) | _ => Ok 0%Z end.
(** inferxlib/src/obj_mgr/funcsnapshot_mgr.rs:51-55 [SnapshotInfo::ReadyCacheMemory] *)
Definition ReadyCacheMemory {X} (self : SnapshotInfo) : outcome X Z := gb_ceil_mb (hostMemSize self).
(** inferxlib/src/obj_mgr/funcsnapshot_mgr.rs:57-65 [SnapshotInfo::StandbyMemory] *)
Definition StandbyMemory {X} (self : SnapshotInfo) : outcome X Z :=
  match PageableMem (si_standby self) with Mem => gb_ceil_mb (processCheckpointSize self) | _ => Ok 0%Z end.

(** inferxlib/src/obj_mgr/funcsnapshot_mgr.rs:124-131 [SnapshotState] *)
Inductive SnapshotState := Available | Loading | SnapshotReady.
#[global] Instance SnapshotState_eq_dec : EqDecision SnapshotState.
Proof. solve_decision. Defined.
(** inferxlib/src/obj_mgr/funcsnapshot_mgr.rs:99-105 [ContainerSnapshot] *)
Record ContainerSnapshot := MkContainerSnapshot {
  cs_funckey : string; cs_nodename : string; cs_state : SnapshotState; cs_info : SnapshotInfo;
}.
(** inferxlib/src/obj_mgr/funcsnapshot_mgr.rs:108-116 [ContainerSnapshot::StandbyResource] *)
Definition StandbyResource {X} (self : ContainerSnapshot) : outcome X Resources :=
  memory ← StandbyMemory (cs_info self);
  cacheMemory ← StandyCacheMemory (cs_info self);
  Ok (MkResources 0 memory 0 cacheMemory (MkGPUResource GPUType_Any 0 0 0)).

(** ** Functions *)

Section objects.
Context {F : Type}.

(** inferxlib/src/obj_mgr/func_mgr.rs:252-288 [FuncSpec] *)
Record FuncSpec := MkFuncSpec {
  fs_version : Z; fs_resources : Resources; fs_standby : Standby; fs_policy : ObjRef (FuncPolicySpec F);
}.
(** inferxlib/src/obj_mgr/func_mgr.rs:374-377 [FuncState] *)
Inductive FuncState := Normal | Fail.
#[global] Instance FuncState_eq_dec : EqDecision FuncState.
Proof. solve_decision. Defined.
(** inferxlib/src/obj_mgr/func_mgr.rs:386-390 [FuncStatus] *)
Record FuncObjStatus := MkFuncObjStatus { fo_state : FuncState; snapshotingFailureCnt : Z; resumingFailureCnt : Z }.
(** inferxlib/src/obj_mgr/func_mgr.rs:393-398 [FuncObject] *)
Record FuncObject := MkFuncObject { fo_spec : FuncSpec; fo_status : FuncObjStatus }.
Abbreviation Function := (DataObject FuncObject).

Definition with_gpu_context (r : Resources) (memory ctx : Z) : Resources :=
  MkResources (rs_cpu r) memory (rs_readyMemory r) (rs_cacheMemory r)
    (MkGPUResource (gr_type (rs_gpu r)) (gr_gpuCount (rs_gpu r)) (gr_vRam (rs_gpu r)) ctx).
(** inferxlib/src/obj_mgr/func_mgr.rs:305-315 [FuncSpec::SnapshotResource] *)
Definition SnapshotResource {X} (self : FuncSpec) (contextCnt : Z) : outcome X Resources :=
  let resource := fs_resources self in
  memory ← match gpuMem (fs_standby self) with
           | Mem => v ← chk u64 (gr_vRam (rs_gpu resource) * gr_gpuCount (rs_gpu resource))%Z; Ok (Z.max (rs_memory resource) v)
           | _ => Ok (rs_memory resource)
           end;
  Ok (with_gpu_context resource memory contextCnt).
(** inferxlib/src/obj_mgr/func_mgr.rs:317-321 [FuncSpec::RunningResource] *)
Definition RunningResource (self : FuncSpec) : Resources :=
  with_gpu_context (fs_resources self) (rs_memory (fs_resources self)) 1.
(** inferxlib/src/obj_mgr/func_mgr.rs:406-414 [Function::Id] *)
Definition Function_Id (self : Function) : string :=
  tenant self +:+ "/" +:+ namespace self +:+ "/" +:+ name self +:+ "/" +:+ pretty (fs_version (fo_spec (object self))).

(** ** Pods *)

(** inferxlib/src/obj_mgr/pod_mgr.rs:49-53 [CreatePodType] *)
Inductive CreatePodType := CreateNormal | CreateSnapshot | CreateRestore.
#[global] Instance CreatePodType_eq_dec : EqDecision CreatePodType.
Proof. solve_decision. Defined.
(** inferxlib/src/obj_mgr/pod_mgr.rs:72-75 [Runtime] *)
Inductive Runtime := InferX | Nvidia.
#[global] Instance Runtime_eq_dec : EqDecision Runtime.
Proof. solve_decision. Defined.
(** inferxlib/src/obj_mgr/pod_mgr.rs:258-300 [PodState] *)
Inductive PodState :=
| PInit | PPullingImage | PCreating | PCreated | PLoading | PReady | PTerminating | PTerminated | PFailed
| PCleanup | PDeleted | PSnapshoted | PRestoring | PStandby | PResuming | PResumeDone | PMemHibernated
| PSnapshoting | PLoadingTimeout.
#[global] Instance PodState_eq_dec : EqDecision PodState.
Proof. solve_decision. Defined.
(** inferxlib/src/obj_mgr/pod_mgr.rs:309-316 [PodState::BlockStandby] *)
Definition BlockStandby (self : PodState) : bool :=
  match self with PRestoring | PCreating | PResuming => true | _ => false end.

(** inferxlib/src/obj_mgr/pod_mgr.rs:88-128 [FuncPodSpec] *)
Record FuncPodSpec := MkFuncPodSpec {
  funcname : string; fprevision : Z; pod_id : string; funcspec : FuncSpec; nodename : string;
  runtime : Runtime; ipAddr : Z; create_type : CreatePodType; host_ip : string; host_port : Z;
  reqResources : Resources; allocResources : NodeResources;
}.
(** inferxlib/src/obj_mgr/pod_mgr.rs:152-155 [FuncPodObject], with the [state] of its status *)
Record FuncPodObject := MkFuncPodObject { fp_spec : FuncPodSpec; fp_state : PodState }.
Abbreviation FuncPod := (DataObject FuncPodObject).

Definition pod_spec (self : FuncPod) : FuncPodSpec := fp_spec (object self).
Definition pod_state (self : FuncPod) : PodState := fp_state (object self).
(** inferxlib/src/obj_mgr/pod_mgr.rs:171-173 [FuncPod::NvidiaRuntime] *)
Definition NvidiaRuntime (self : FuncPod) : bool := bool_decide (runtime (pod_spec self) = Nvidia).
(** inferxlib/src/obj_mgr/pod_mgr.rs:175-183 [FuncPod::FuncPodKey] *)
Definition FuncPodKey (tenant namespace funcname : string) (revision : Z) (id : string) : string :=
  tenant +:+ "/" +:+ namespace +:+ "/" +:+ funcname +:+ "/" +:+ pretty revision +:+ "/" +:+ id.
(** inferxlib/src/obj_mgr/pod_mgr.rs:185-187 [FuncPod::FuncObjectKey] *)
Definition FuncObjectKey (tenant namespace funcname : string) (revision : Z) : string :=
  tenant +:+ "/" +:+ namespace +:+ "/" +:+ funcname +:+ "/" +:+ pretty revision.
(** inferxlib/src/obj_mgr/pod_mgr.rs:189-197 [FuncPod::PodKey] *)
Definition PodKey (self : FuncPod) : string :=
  FuncPodKey (tenant self) (namespace self) (funcname (pod_spec self)) (fprevision (pod_spec self)) (pod_id (pod_spec self)).
(** inferxlib/src/obj_mgr/pod_mgr.rs:199-204 [FuncPod::FuncKey] *)
Definition FuncKey (self : FuncPod) : string :=
  FuncObjectKey (tenant self) (namespace self) (funcname (pod_spec self)) (fprevision (pod_spec self)).
End objects.
Arguments FuncSpec : clear implicits. Arguments FuncObject : clear implicits.
Arguments FuncPodSpec : clear implicits. Arguments FuncPodObject : clear implicits.
Abbreviation Function F := (DataObject (FuncObject F)).
Abbreviation FuncPod F := (DataObject (FuncPodObject F)).

(** inferxlib/src/node.rs:51-58 [WorkerPodState] *)
Inductive WorkerPodState :=
| WInit | WStandby | WResuming | WIdle | WWorking (gatewayId : Z) | WTerminating.
#[global] Instance WorkerPodState_eq_dec : EqDecision WorkerPodState.
Proof. solve_decision. Defined.
(** inferxlib/src/node.rs:61-66 [WorkerPodState::IsIdle] *)
Definition IsIdle (self : WorkerPodState) : bool := match self with WIdle => true | _ => false end.
(** inferxlib/src/node.rs:68-75 [WorkerPodState::IsResumed] *)
Definition IsResumed (self : WorkerPodState) : bool :=
  match self with WIdle | WWorking _ | WResuming => true | _ => false end.
(** inferxlib/src/node.rs:77-82 [WorkerPodState::IsReady] *)
Definition IsReady (self : WorkerPodState) : bool := match self with WInit | WStandby => false | _ => true end.

(** ** Function status *)

(** inferxlib/src/obj_mgr/funcstatus_mgr.rs:26-34 [FunctionStatusDef] *)
Record FunctionStatusDef := MkFunctionStatusDef {
  fd_version : Z; fd_published : bool; fd_state : FuncState; fd_snapshotingFailureCnt : Z; fd_resumingFailureCnt : Z;
}.
Abbreviation FunctionStatus := (DataObject FunctionStatusDef).
(** inferxlib/src/obj_mgr/funcstatus_mgr.rs:42-47 [FunctionStatus::Id] *)
Definition FunctionStatus_Id (self : FunctionStatus) : string :=
  tenant self +:+ "/" +:+ namespace self +:+ "/" +:+ name self +:+ "/" +:+ pretty (fd_version (object self)).

(** ** Nodes *)

(** inferxlib/src/obj_mgr/node_mgr.rs:8-13 [NAState] *)
Inductive NAState := NodeProxyAvailable | NodeAgentConnected | NodeAgentReady.
#[global] Instance NAState_eq_dec : EqDecision NAState.
Proof. solve_decision. Defined.
(** inferxlib/src/obj_mgr/node_mgr.rs:22-34 [NodeSpec] *)
Record NodeSpec := MkNodeSpec {
  nodeEpoch : Z; nodeIp : string; naIp : string; node_cidr : string; podMgrPort : Z; tsotSvcPort : Z;
  stateSvcPort : Z; node_resources : NodeResources; blobStoreEnable : bool; CUDA_VISIBLE_DEVICES : string;
  node_state : NAState;
}.
Abbreviation Node := (DataObject NodeSpec).
(** inferxlib/src/obj_mgr/node_mgr.rs:44-46 [Node::NodeAgentUrl] *)
Definition NodeAgentUrl (self : Node) : string :=
  "http://" +:+ naIp (object self) +:+ ":" +:+ pretty (podMgrPort (object self)).
