(* ===== verification/Worker.v ===== *)
(** * Workers, node and function status (ixshare/src/scheduler/scheduler.rs,
      scheduler_handler.rs)

    A [WorkerPod] is an [Arc]: the same worker sits in the maps of the handler,
    of its node and of its function, and its two [Mutex]es are changed through
    any of them.  It is a location of the store [cells] with the pod it was made
    for, which never changes.  [World] holds that store and what else lives
    outside the handler: reply channels, peers (peer_mgr.rs), metrics, the clock
    and the calls sent to node agents. *)

From S2P Require Import Prelude.
From S2P Require Import Text.
From S2P Require Import BTree.
From S2P Require Import Common.
From S2P Require Import DataObj.
From S2P Require Import Resource.
From S2P Require Import Specs.

(** ** Peers (ixshare/src/peer_mgr.rs)

    Which host serves which block of pod addresses.  [PeerMgr] is an
    [Arc<RwLock<..>>]; an operation is a function on the table it guards. *)

Module Peer.
(** ixshare/src/peer_mgr.rs:29-29 [MASK_BITS] *)
Definition MASK_BITS : Z := 12.
(** ixshare/src/peer_mgr.rs:44-48 [PeerInner] *)
Record Peer := MkPeer { hostIp : Z; port : Z; cidrAddr : Z }.
#[global] Instance Peer_eq_dec : EqDecision Peer.
Proof. solve_decision. Defined.
(** ixshare/src/peer_mgr.rs:74-80 [PeerMgrInner] *)
Record PeerMgr := MkPeerMgr { peers : gmap Z Peer; maskbits : Z; mask : Z; cidr : Z }.

(** [!((1 << maskbits) - 1)] at [u32] *)
Definition not_u32 (a : Z) : Z := (ty_max u32 - a)%Z.
(** ixshare/src/peer_mgr.rs:94-111 [PeerMgr::New] *)
Definition PeerMgr_New (b0 b1 b2 b3 : Z) : PeerMgr :=
  MkPeerMgr ∅ MASK_BITS (not_u32 (Z.shiftl 1 MASK_BITS - 1)) (IpAddress_New b0 b1 0 b3).
(** ixshare/src/peer_mgr.rs:113-120 [PeerMgr::BelongCidr] *)
Definition BelongCidr (self : PeerMgr) (ip : Z) : bool :=
  bool_decide (Z.land ip 4278190080 = cidr self).
(** ixshare/src/peer_mgr.rs:122-134 [PeerMgr::AddPeer] *)
Definition AddPeer (self : PeerMgr) (hostIp port cidrAddr : Z) : Share.Result PeerMgr :=
  match peers self !! cidrAddr with
  | Some _ => Err (Share.Exist "PeerMgr::AddPeer get existing peer ")
  | None => Ok (MkPeerMgr (<[cidrAddr := MkPeer hostIp port cidrAddr]> (peers self)) (maskbits self) (mask self) (cidr self))
  end.
(** ixshare/src/peer_mgr.rs:136-147 [PeerMgr::RemovePeer] *)
Definition RemovePeer (self : PeerMgr) (cidrAddr : Z) : Share.Result PeerMgr :=
  match peers self !! cidrAddr with
  | None => Err (Share.NotExist "PeerMgr::RemovePeer peer  not existing")
  | Some _ => Ok (MkPeerMgr (delete cidrAddr (peers self)) (maskbits self) (mask self) (cidr self))
  end.
(** ixshare/src/peer_mgr.rs:149-161 [PeerMgr::LookforPeer] *)
Definition LookforPeer (self : PeerMgr) (ip : Z) : Share.Result Peer :=
  match peers self !! Z.land ip (mask self) with
  | None => Err (Share.PeerNotExist "PeerMgr::LookforPeer peer doesn't exist")
  | Some peer => Ok peer
  end.
End Peer.
Export Peer.

(** ** Messages (ixshare/proto/na.proto) *)

(** ixshare/proto/na.proto:137-144 [LeaseWorkerReq] *)
Record LeaseWorkerReq := MkLeaseWorkerReq {
  lq_tenant : string; lq_namespace : string; lq_funcname : string; lq_fprevision : Z;
  lq_gateway_id : Z; lq_consumer_tenant : string;
}.
(** ixshare/proto/na.proto:146-154 [LeaseWorkerResp] *)
Record LeaseWorkerResp := MkLeaseWorkerResp {
  lp_error : string; lp_id : string; lp_ipaddr : Z; lp_keepalive : bool; lp_hostipaddr : Z; lp_hostport : Z;
  lp_hostnetwork : bool;
}.
(** [LeaseWorkerResp { error, ..Default::default() }] *)
Definition lease_error (error : string) : LeaseWorkerResp := MkLeaseWorkerResp error "" 0 false 0 0 false.
(** ixshare/proto/na.proto:120-126 [WorkerId] *)
Record WorkerId := MkWorkerId {
  wi_tenant : string; wi_namespace : string; wi_funcname : string; wi_fprevision : Z; wi_id : string;
}.
(** ixshare/proto/na.proto:156-163 [ReturnWorkerReq] *)
Record ReturnWorkerReq := MkReturnWorkerReq { rq_worker : WorkerId; failworker : bool }.
(** ixshare/proto/na.proto:128-131 [ConnectReq] *)
Record ConnectReq := MkConnectReq { cq_gateway_id : Z; cq_workers : list WorkerId }.
(** ixshare/proto/na.proto:185-190 [KillPodStatus] *)
Inductive KillPodStatus := KillOk | KillNotFound | KillInvalidState | KillInternal.
#[global] Instance KillPodStatus_eq_dec : EqDecision KillPodStatus.
Proof. solve_decision. Defined.
(** ixshare/proto/na.proto:192-195 [KillPodResp] *)
Record KillPodResp := MkKillPodResp { kp_error : string; kp_status : KillPodStatus }.
(** What a reply channel carries: a lease, or the [error] of a [ReturnWorkerResp]
    or [ConnectResp]. *)
Inductive Reply := LeaseReply (resp : LeaseWorkerResp) | ReturnReply (error : string) | ConnectReply (error : string).
(** Calls sent to node agents; they run in the background and end in a message
    back to the scheduler.  The specification, labels and annotations sent with
    a new pod are left out. *)
Inductive Rpc :=
| TerminatePod (podKey : string)
| ResumePodRpc (podKey nodename : string) (alloc : NodeResources) (terminate : list string)
| CreatePodRpc (funcid nodename podKey : string) (create_type : CreatePodType) (alloc quota : NodeResources)
    (terminate : list string)
| RemoveSnapshotRpc (funckey nodename : string)
| UpdateFuncStatus (status : FunctionStatus) (expected_rev : Z).   (* to the state service *)

(** ** Workers *)

Section worker.
Context {F : Type}.
Abbreviation FuncPod := (FuncPod F).
Abbreviation Function := (Function F).

(** ixshare/src/scheduler/scheduler.rs:315-319 [WorkerPodInner], the part behind the locks *)
Record Cell := MkCell { workerState : WorkerPodState; consumer_tenant : option string }.
(** ixshare/src/scheduler/scheduler.rs:331-331 [WorkerPod] *)
Record WorkerPod := MkWorkerPod { wp_loc : nat; pod : FuncPod }.

Record World := MkWorld {
  cells : gmap nat Cell;
  next_cell : nat;
  hung_up : gset nat;          (* reply channels whose receiver is gone *)
  sent : list (nat * Reply);   (* replies, in the order they were sent *)
  peer_mgr : PeerMgr;
  usedGpuCnt : gmap string Z;
  now : Z;                     (* the clock, in nanoseconds *)
  rpcs : list Rpc;             (* calls started, in order *)
}.
Implicit Types (w : World) (p : WorkerPod).

Definition set_cells (f : gmap nat Cell → gmap nat Cell) w : World :=
  MkWorld (f (cells w)) (next_cell w) (hung_up w) (sent w) (peer_mgr w) (usedGpuCnt w) (now w) (rpcs w).
Definition push_sent (tx : nat) (r : Reply) w : World :=
  MkWorld (cells w) (next_cell w) (hung_up w) (sent w ++ [(tx, r)]) (peer_mgr w) (usedGpuCnt w) (now w) (rpcs w).
Definition set_used (m : gmap string Z) w : World :=
  MkWorld (cells w) (next_cell w) (hung_up w) (sent w) (peer_mgr w) m (now w) (rpcs w).
Definition push_rpc (c : Rpc) w : World :=
  MkWorld (cells w) (next_cell w) (hung_up w) (sent w) (peer_mgr w) (usedGpuCnt w) (now w) (rpcs w ++ [c]).

(** The cell of a worker; an [Arc] never dangles. *)
Definition cell w p : Cell := default (MkCell WInit None) (cells w !! wp_loc p).
Definition set_cell p (c : Cell) w : World := set_cells <[wp_loc p := c]> w.

(** ixshare/src/scheduler/scheduler.rs:334-336 [WorkerPod::State] *)
Definition State w p : WorkerPodState := workerState (cell w p).
(** ixshare/src/scheduler/scheduler.rs:342-344 [WorkerPod::SetState] *)
Definition SetState p (state : WorkerPodState) w : World := set_cell p (MkCell state (consumer_tenant (cell w p))) w.
(** [*worker.consumer_tenant.lock().unwrap() = t] *)
Definition SetConsumer p (t : option string) w : World := set_cell p (MkCell (workerState (cell w p)) t) w.
(** ixshare/src/scheduler/scheduler.rs:346-356 [WorkerPod::SetIdle] *)
Definition SetIdle p w : World := SetState p WIdle (SetConsumer p None w).
(** ixshare/src/scheduler/scheduler.rs:358-381 [WorkerPod::SetWorking] *)
Definition SetWorking p (gatewayId : Z) : sm World Share.Error unit := λ w,
  match State w p with
  | WTerminating | WResuming | WStandby => (Panic "WorkerPod::SetWorking", w)
  | WWorking _ | WInit | WIdle => (Ok tt, SetState p (WWorking gatewayId) w)
  end.
(** ixshare/src/scheduler/scheduler.rs:383-410 [WorkerPod::New] *)
Definition WorkerPod_New (pod : FuncPod) w : WorkerPod * World :=
  let p := MkWorkerPod (next_cell w) pod in
  let w := MkWorld (<[next_cell w := MkCell WInit None]> (cells w)) (S (next_cell w)) (hung_up w) (sent w)
             (peer_mgr w) (usedGpuCnt w) (now w) (rpcs w) in
  let w := if decide (pod_state pod = PReady) then SetIdle p w else w in
  let w := if decide (pod_state pod = PStandby) then SetState p WStandby w else w in
  let w := if decide (pod_state pod = PResuming) then SetState p WResuming w else w in
  (p, w).

(** [tx.send(r)]: whether the receiver was still there *)
Definition send (tx : nat) (r : Reply) : sm World Share.Error bool := λ w,
  if decide (tx ∈ hung_up w) then (Ok false, w) else (Ok true, push_sent tx r w).
(** [tx.send(r).unwrap()] *)
Definition send_unwrap (tx : nat) (r : Reply) : sm World Share.Error unit :=
  ok ← send tx r; pure_ (assert_ ok "called `Result::unwrap()` on an `Err` value").

(** ixshare/src/gateway/metrics.rs:197-208 [IxGauge::Inc] *)
Definition Inc (label : string) (cnt : Z) : sm World Share.Error Z := λ w,
  match usedGpuCnt w !! label with
  | None => (Ok cnt, set_used (<[label := cnt]> (usedGpuCnt w)) w)
  | Some v => match chk u64 (v + cnt)%Z with
              | Ok v => (Ok v, set_used (<[label := v]> (usedGpuCnt w)) w)
              | r => (r, w)
              end
  end.
(** ixshare/src/gateway/metrics.rs:210-229 [IxGauge::Dec] *)
Definition Dec (label : string) (cnt : Z) : sm World Share.Error Z := λ w,
  match usedGpuCnt w !! label with
  | None => (Ok 0%Z, w)
  | Some v => let v := Z.max 0 (v - cnt) in (Ok v, set_used (<[label := v]> (usedGpuCnt w)) w)
  end.

(** ** Nodes *)

(** ixshare/src/scheduler/scheduler_handler.rs:151-157 [PendingPodInner] *)
Record PendingPod := MkPendingPod {
  pp_nodeName : string; pp_podKey : string; pp_funcId : string; pp_allocResources : NodeResources;
  schedulingTime : Z;
}.
(** ixshare/src/scheduler/scheduler_handler.rs:187-202 [NodeStatus] *)
Record NodeStatus := MkNodeStatus {
  node : Node;
  total : NodeResources;
  available : NodeResources;
  ns_pendingPods : gmap string PendingPod;
  ns_pods : gmap string WorkerPod;
  ns_stoppingPods : gset string;
  createTime : Z;
  ns_state : NAState;
}.
Implicit Types (ns : NodeStatus).

Definition set_available ns (r : NodeResources) : NodeStatus :=
  MkNodeStatus (node ns) (total ns) r (ns_pendingPods ns) (ns_pods ns) (ns_stoppingPods ns) (createTime ns) (ns_state ns).
Definition set_ns_pods ns (pending : gmap string PendingPod) (pods : gmap string WorkerPod) (stopping : gset string)
  : NodeStatus :=
  MkNodeStatus (node ns) (total ns) (available ns) pending pods stopping (createTime ns) (ns_state ns).
(** [available.Sub(..)], [available.Add(..)] *)
Definition take_resources ns (r : NodeResources) : Share.Result NodeStatus :=
  a ← Share.lift (NodeResources_Sub (available ns) r); Ok (set_available ns a).
(** ixshare/src/scheduler/scheduler_handler.rs:353-371 [NodeStatus::FreeResource] *)
Definition FreeResource ns (free : NodeResources) : Share.Result NodeStatus :=
  a ← Share.lift (NodeResources_Add (available ns) free); Ok (set_available ns a).

(** ixshare/src/scheduler/scheduler_handler.rs:205-228 [NodeStatus::New] *)
Definition NodeStatus_New (node : Node) (total : NodeResources) (pods : gmap string WorkerPod) (time : Z)
  : Share.Result NodeStatus :=
  available ← foldlM (λ available p, Share.lift (NodeResources_Sub available (allocResources (pod_spec (pod p)))))
                (NodeResources_Copy total) (values pods);
  Ok (MkNodeStatus node total available ∅ pods ∅ time (node_state (object node))).
(** ixshare/src/scheduler/scheduler_handler.rs:230-235 [NodeStatus::AddPendingPod] *)
Definition NodeStatus_AddPendingPod ns (pendingPod : PendingPod) : NodeStatus :=
  set_ns_pods ns (<[pp_podKey pendingPod := pendingPod]> (ns_pendingPods ns)) (ns_pods ns) (ns_stoppingPods ns).
(** ixshare/src/scheduler/scheduler_handler.rs:237-255 [NodeStatus::AddPod] *)
Definition NodeStatus_AddPod ns (p : WorkerPod) : Share.Result NodeStatus :=
  let podKey := PodKey (pod p) in
  ns ← match ns_pendingPods ns !! podKey with
       | None => take_resources ns (allocResources (pod_spec (pod p)))
       | Some _ => Ok (set_ns_pods ns (delete podKey (ns_pendingPods ns)) (ns_pods ns) (ns_stoppingPods ns))
       end;
  Ok (set_ns_pods ns (ns_pendingPods ns) (<[podKey := p]> (ns_pods ns)) (ns_stoppingPods ns)).
(** ixshare/src/scheduler/scheduler_handler.rs:257-277 [NodeStatus::UpdatePod] *)
Definition NodeStatus_UpdatePod ns (p oldPod : WorkerPod) : Share.Result NodeStatus :=
  let podKey := PodKey (pod p) in
  let pending := if decide (pod_state (pod oldPod) = PResuming ∧ pod_state (pod p) = PReady)
                 then delete podKey (ns_pendingPods ns) else ns_pendingPods ns in
  _ ← assert_ (bool_decide (is_Some (ns_pods ns !! podKey))) "assertion failed";
  Ok (set_ns_pods ns pending (<[podKey := p]> (ns_pods ns)) (ns_stoppingPods ns)).
(** ixshare/src/scheduler/scheduler_handler.rs:279-300 [NodeStatus::RemovePod] *)
Definition NodeStatus_RemovePod ns (podKey : string) (resources : NodeResources) : Share.Result NodeStatus :=
  let pendingExist := bool_decide (is_Some (ns_pendingPods ns !! podKey)) in
  let exist_ := bool_decide (is_Some (ns_pods ns !! podKey)) in
  let ns := set_ns_pods ns (delete podKey (ns_pendingPods ns)) (delete podKey (ns_pods ns))
              (ns_stoppingPods ns ∖ {[podKey]}) in
  if pendingExist || exist_ then FreeResource ns resources else Ok ns.
(** ixshare/src/scheduler/scheduler_handler.rs:302-341 [NodeStatus::AllocResource]: the node and what was given *)
Definition AllocResource ns (req : Resources) (createSnapshot : bool) : Share.Result (NodeStatus * NodeResources) :=
  '(a, res) ← Node_Alloc (available ns) req createSnapshot; Ok (set_available ns a, res).
(** ixshare/src/scheduler/scheduler_handler.rs:343-346 [NodeStatus::ReadyResourceQuota] *)
Definition NodeStatus_ReadyResourceQuota ns (req : Resources) : NodeResources := ReadyResourceQuota (available ns) req.
(** ixshare/src/scheduler/scheduler_handler.rs:348-351 [NodeStatus::ResourceQuota] *)
Definition NodeStatus_ResourceQuota ns (req : Resources) : NodeResources := ResourceQuota (available ns) req.
(** ixshare/src/scheduler/scheduler_handler.rs:374-376 [NodeStatus::AddStoppingPod] *)
Definition NodeStatus_AddStoppingPod ns (podKey : string) : NodeStatus :=
  set_ns_pods ns (ns_pendingPods ns) (ns_pods ns) ({[podKey]} ∪ ns_stoppingPods ns).
(** ixshare/src/scheduler/scheduler_handler.rs:380-382 [NodeStatus::RemoveStoppingPod]: whether it was there *)
Definition NodeStatus_RemoveStoppingPod ns (podKey : string) : bool * NodeStatus :=
  (bool_decide (podKey ∈ ns_stoppingPods ns),
   set_ns_pods ns (ns_pendingPods ns) (ns_pods ns) (ns_stoppingPods ns ∖ {[podKey]})).

(** ** Functions *)

(** ixshare/src/scheduler/scheduler_handler.rs:424-427 [LeaseReq] *)
Record LeaseReq := MkLeaseReq { l_req : LeaseWorkerReq; l_time : Z }.
(** ixshare/src/scheduler/scheduler_handler.rs:430-442 [FuncStatus] *)
Record FuncStatus := MkFuncStatus {
  func : Function;
  fs_pods : gmap string WorkerPod;
  fs_pendingPods : gmap string PendingPod;
  fs_stoppingPods : gset string;
  leaseWorkerReqs : list (LeaseReq * nat);
}.
Implicit Types (fs : FuncStatus).

Definition set_fs_pods fs (pods : gmap string WorkerPod) (pending : gmap string PendingPod) (stopping : gset string)
  : FuncStatus := MkFuncStatus (func fs) pods pending stopping (leaseWorkerReqs fs).
Definition set_queue fs (q : list (LeaseReq * nat)) : FuncStatus :=
  MkFuncStatus (func fs) (fs_pods fs) (fs_pendingPods fs) (fs_stoppingPods fs) q.

(** ixshare/src/scheduler/scheduler_handler.rs:445-453 [FuncStatus::New] *)
Definition FuncStatus_New (fp : Function) (pods : gmap string WorkerPod) : FuncStatus := MkFuncStatus fp pods ∅ ∅ [].
(** ixshare/src/scheduler/scheduler_handler.rs:455-461 [FuncStatus::PushLeaseWorkerReq] *)
Definition FuncStatus_PushLeaseWorkerReq fs (req : LeaseWorkerReq) (tx : nat) (time : Z) : FuncStatus :=
  set_queue fs (leaseWorkerReqs fs ++ [(MkLeaseReq req time, tx)]).
(** ixshare/src/scheduler/scheduler_handler.rs:463-465 [FuncStatus::PopLeaseWorkerReq] *)
Definition PopLeaseWorkerReq fs : option (LeaseReq * nat) * FuncStatus :=
  match leaseWorkerReqs fs with [] => (None, fs) | r :: q => (Some r, set_queue fs q) end.

(** [(now - since).as_millis()] *)
Definition millis (now since : Z) : Z := (Z.max 0 (now - since) / 1000000)%Z.
(** The loop of [ReconcileStuckLeaseRequests] over the queue: what is left and
    how many were removed. *)
Fixpoint drop_stuck (now timeout_ms : Z) (q : list (LeaseReq * nat)) : list (LeaseReq * nat) * nat :=
  match q with
  | [] => ([], 0)
  | (req, tx) :: q' =>
      (* [elapsed()] is [Err] when the clock is before the request's time *)
      if decide (l_time req ≤ now ∧ timeout_ms < cast u64 (millis now (l_time req)))%Z
      then let '(rest, n) := drop_stuck now timeout_ms q' in (rest, S n) else (q, 0)
  end.
(** ixshare/src/scheduler/scheduler_handler.rs:467-484 [FuncStatus::ReconcileStuckLeaseRequests] *)
Definition ReconcileStuckLeaseRequests fs (now timeout_ms : Z) : nat * FuncStatus :=
  let '(q, n) := drop_stuck now timeout_ms (leaseWorkerReqs fs) in (n, set_queue fs q).
(** ixshare/src/scheduler/scheduler_handler.rs:486-490 [FuncStatus::AddPendingPod] *)
Definition FuncStatus_AddPendingPod fs (pendingPod : PendingPod) : FuncStatus :=
  set_fs_pods fs (fs_pods fs) (<[pp_podKey pendingPod := pendingPod]> (fs_pendingPods fs)) (fs_stoppingPods fs).
(** ixshare/src/scheduler/scheduler_handler.rs:492-494 [FuncStatus::HasPendingPod] *)
Definition FuncStatus_HasPendingPod fs : bool := bool_decide (fs_pendingPods fs ≠ ∅).
(** ixshare/src/scheduler/scheduler_handler.rs:496-501 [FuncStatus::AddPod] *)
Definition FuncStatus_AddPod fs (p : WorkerPod) : FuncStatus :=
  let podKey := PodKey (pod p) in
  set_fs_pods fs (<[podKey := p]> (fs_pods fs)) (delete podKey (fs_pendingPods fs)) (fs_stoppingPods fs).

(** [if tenant.is_empty() { None } else { Some(tenant.clone()) }] *)
Definition consumer_of (tenant : string) : option string := if decide (tenant = "") then None else Some tenant.
(** The lease that names a worker behind a peer. *)
Definition grant (p : WorkerPod) (peer : Peer) (keepalive : bool) : LeaseWorkerResp :=
  MkLeaseWorkerResp "" (pod_id (pod_spec (pod p))) (ipAddr (pod_spec (pod p))) keepalive
    (hostIp peer) (Peer.port peer) (NvidiaRuntime (pod p)).
Definition gpu_count (p : WorkerPod) : Z := gr_gpuCount (rs_gpu (reqResources (pod_spec (pod p)))).

(** The loop of [UpdatePod] over the waiting requests: whether the pod stays
    idle, and the requests left. *)
Fixpoint serve_waiting (p : WorkerPod) (q : list (LeaseReq * nat)) w
  : outcome Share.Error bool * list (LeaseReq * nat) * World :=
  match q with
  | [] => (Ok true, [], SetIdle p w)
  | (req, tx) :: q =>
      if decide (now w < l_time req)%Z then (Panic "called `Result::unwrap()` on an `Err` value", q, w) else
      match LookforPeer (peer_mgr w) (ipAddr (pod_spec (pod p))) with
      | Err e => (Err e, q, w)
      | Panic why => (Panic why, q, w)
      | Ok peer =>
          match send tx (LeaseReply (grant p peer false)) w with
          | (Ok true, w) =>
              let '(r, w) := (_ ← SetWorking p (lq_gateway_id (l_req req));
                              _ ← modify (SetConsumer p (consumer_of (lq_consumer_tenant (l_req req))));
                              _ ← Inc (nodename (pod_spec (pod p))) (gpu_count p);
                              mret false) w in
              (r, q, w)
          | (_, w) => serve_waiting p q w
          end
      end
  end.
(** ixshare/src/scheduler/scheduler_handler.rs:503-601 [FuncStatus::UpdatePod] *)
Definition FuncStatus_UpdatePod (p : WorkerPod) : sm (World * FuncStatus) Share.Error bool := λ '(w, fs),
  let podKey := PodKey (pod p) in
  let known := bool_decide (is_Some (fs_pods fs !! podKey)) in
  let fs := set_fs_pods fs (<[podKey := p]> (fs_pods fs)) (fs_pendingPods fs) (fs_stoppingPods fs) in
  if negb known then (Panic ("podkey is " +:+ podKey), (w, fs))
  else if bool_decide (pod_state (pod p) = PReady) && IsIdle (State w p) then
    let '(r, q, w) := serve_waiting p (leaseWorkerReqs fs) w in (r, (w, set_queue fs q))
  else (Ok false, (w, fs)).
(** ixshare/src/scheduler/scheduler_handler.rs:603-608 [FuncStatus::RemovePod] *)
Definition FuncStatus_RemovePod fs (podKey : string) : FuncStatus :=
  set_fs_pods fs (delete podKey (fs_pods fs)) (delete podKey (fs_pendingPods fs)) (fs_stoppingPods fs ∖ {[podKey]}).
(** ixshare/src/scheduler/scheduler_handler.rs:611-613 [FuncStatus::AddStoppingPod] *)
Definition FuncStatus_AddStoppingPod fs (podKey : string) : FuncStatus :=
  set_fs_pods fs (fs_pods fs) (fs_pendingPods fs) ({[podKey]} ∪ fs_stoppingPods fs).
(** ixshare/src/scheduler/scheduler_handler.rs:617-619 [FuncStatus::RemoveStoppingPod]: whether it was there *)
Definition FuncStatus_RemoveStoppingPod fs (podKey : string) : bool * FuncStatus :=
  (bool_decide (podKey ∈ fs_stoppingPods fs),
   set_fs_pods fs (fs_pods fs) (fs_pendingPods fs) (fs_stoppingPods fs ∖ {[podKey]})).
End worker.
Arguments WorkerPod : clear implicits. Arguments NodeStatus : clear implicits. Arguments FuncStatus : clear implicits.
