(* ===== verification/Billing.v ===== *)
(** * Billing of snapshot pods and standby models
      (ixshare/src/scheduler/scheduler_handler.rs, ixshare/src/audit.rs)

    Two kinds of sessions that end in usage ticks: one per pod that makes a
    snapshot, one per model with a ready snapshot.  The class [BillingSession]
    is what the two kinds share; the ticks handed to [USAGE_TICK_AGENT] are the
    list [ticks] (the agent drops a tick when its channel is full).  Times are
    nanoseconds of one clock, which stands for [Instant] and for [Utc]. *)

From S2P Require Import Prelude.
From S2P Require Import Text.
From S2P Require Import BTree.
From S2P Require Import Common.
From S2P Require Import DataObj.
From S2P Require Import Resource.
From S2P Require Import Specs.
From S2P Require Import Worker.

(** ixshare/src/scheduler/scheduler_handler.rs:113-128 [SnapshotBillingSession] *)
Record SnapshotBillingSession := MkSnapshotSession {
  sb_session_id : string; sb_start_time : Z; sb_last_tick_time : Z; sb_pod_id : Z; sb_funckey : string;
  sb_nodename : string; sb_tenant : string; sb_namespace : string; sb_funcname : string; sb_fprevision : Z;
  sb_gpu_type : string; sb_gpu_count : Z; sb_vram_mb : Z; sb_total_vram_mb : Z;
}.
(** ixshare/src/scheduler/scheduler_handler.rs:135-148 [StandbyBillingSession] *)
Record StandbyBillingSession := MkStandbySession {
  st_session_id : string; st_start_time : Z; st_last_tick_time : Z; st_funckey : string;
  st_tenant : string; st_namespace : string; st_funcname : string; st_fprevision : Z;
  st_gpu_type : string; st_gpu_count : Z; st_vram_mb : Z; st_total_vram_mb : Z;
}.
(** ixshare/src/audit.rs:374-397 [UsageTick] *)
Record UsageTick := MkUsageTick {
  ut_session_id : string; ut_tenant : string; ut_caller_tenant : option string; ut_namespace : string;
  ut_funcname : string; ut_fprevision : Z; ut_nodename : option string; ut_pod_id : option Z;
  ut_gateway_id : option Z; ut_gpu_type : string; ut_gpu_count : Z; ut_vram_mb : Z; ut_total_vram_mb : Z;
  ut_tick_time : Z; ut_interval_ms : Z; ut_tick_type : string; ut_usage_type : string; ut_is_coldstart : bool;
}.

(** ** What a session is *)

Class BillingSession (Sess : Type) := {
  session_id : Sess → string;
  start_time : Sess → Z;
  last_tick_time : Sess → Z;
  set_last : Z → Sess → Sess;
  (** the tick of a session: its type, time, interval and [is_coldstart] *)
  tick : string → Z → Z → bool → Sess → UsageTick;
}.
Class BillingSessionSpec (Sess : Type) `{BillingSession Sess} : Prop := {
  id_set_last t s : session_id (set_last t s) = session_id s;
  start_set_last t s : start_time (set_last t s) = start_time s;
  last_set_last t s : last_tick_time (set_last t s) = t;
  tick_id k t i c s : ut_session_id (tick k t i c s) = session_id s;
  tick_interval k t i c s : ut_interval_ms (tick k t i c s) = i;
  tick_kind k t i c s : ut_tick_type (tick k t i c s) = k;
  tick_at k t i c s : ut_tick_time (tick k t i c s) = t;
}.

#[global] Instance snapshot_session : BillingSession SnapshotBillingSession := {|
  session_id := sb_session_id;
  start_time := sb_start_time;
  last_tick_time := sb_last_tick_time;
  set_last t s := MkSnapshotSession (sb_session_id s) (sb_start_time s) t (sb_pod_id s) (sb_funckey s)
    (sb_nodename s) (sb_tenant s) (sb_namespace s) (sb_funcname s) (sb_fprevision s) (sb_gpu_type s)
    (sb_gpu_count s) (sb_vram_mb s) (sb_total_vram_mb s);
  tick kind time interval cold s := MkUsageTick (sb_session_id s) (sb_tenant s) None (sb_namespace s)
    (sb_funcname s) (sb_fprevision s) (Some (sb_nodename s)) (Some (sb_pod_id s)) None (sb_gpu_type s)
    (sb_gpu_count s) (sb_vram_mb s) (sb_total_vram_mb s) time interval kind "snapshot" cold;
|}.
#[global] Instance standby_session : BillingSession StandbyBillingSession := {|
  session_id := st_session_id;
  start_time := st_start_time;
  last_tick_time := st_last_tick_time;
  set_last t s := MkStandbySession (st_session_id s) (st_start_time s) t (st_funckey s)
    (st_tenant s) (st_namespace s) (st_funcname s) (st_fprevision s) (st_gpu_type s)
    (st_gpu_count s) (st_vram_mb s) (st_total_vram_mb s);
  tick kind time interval cold s := MkUsageTick (st_session_id s) (st_tenant s) None (st_namespace s)
    (st_funcname s) (st_fprevision s) None None None (st_gpu_type s)
    (st_gpu_count s) (st_vram_mb s) (st_total_vram_mb s) time interval kind "standby" cold;
|}.
#[global] Instance snapshot_session_spec : BillingSessionSpec SnapshotBillingSession.
Proof. by split. Qed.
#[global] Instance standby_session_spec : BillingSessionSpec StandbyBillingSession.
Proof. by split. Qed.

(** [now.duration_since(since).as_millis() as i64] *)
Definition interval_ms (now since : Z) : Z := cast i64 (millis now since).

(** The billing part of the handler's state; [uuids] counts the session ids made. *)
Record Billing := MkBilling {
  snapshot_billing_sessions : gmap string SnapshotBillingSession;
  standby_billing_sessions : gmap string StandbyBillingSession;
  ticks : list UsageTick;
  uuids : nat;
}.
Definition no_billing : Billing := MkBilling ∅ ∅ [] 0.

(** ** The loops and calls both kinds share *)

Section sessions.
Context {Sess : Type} `{BillingSession Sess}.

(** Collects a tick for every session with an interval above 0, then emits them
    and moves the sessions' [last_tick_time]. *)
Definition due (now : Z) (m : gmap string Sess) : list (string * UsageTick) :=
  omap (λ p, let interval := interval_ms now (last_tick_time p.2) in
             if decide (0 < interval)%Z then Some (p.1, tick "periodic" now interval false p.2) else None)
    (entries m).
Definition emit_one (now : Z) (st : gmap string Sess * list UsageTick) (p : string * UsageTick)
  : gmap string Sess * list UsageTick :=
  (match st.1 !! p.1 with Some s => <[p.1 := set_last now s]> st.1 | None => st.1 end, st.2 ++ [p.2]).
Definition emit_periodic (now : Z) (m : gmap string Sess) (out : list UsageTick)
  : gmap string Sess * list UsageTick := foldl (emit_one now) (m, out) (due now m).

(** Removes the session and emits its final tick. *)
Definition finish (now : Z) (key : string) (m : gmap string Sess) (out : list UsageTick)
  : gmap string Sess * list UsageTick :=
  match m !! key with
  | None => (m, out)
  | Some s => (delete key m, out ++ [tick "final" now (interval_ms now (last_tick_time s)) false s])
  end.
(** Opens a session with its start tick. *)
Definition open (now : Z) (key : string) (s : Sess) (cold : bool) (m : gmap string Sess) (out : list UsageTick)
  : gmap string Sess * list UsageTick := (<[key := s]> m, out ++ [tick "start" now 0 cold s]).
End sessions.

(** ** The calls *)

Section billing.
Context {F : Type}.
(** The random session ids, in the order they are drawn ([Uuid::new_v4]). *)
Variable uuid : nat → string.
(** [SCHEDULER_CONFIG.enableSnapshotBilling] *)
Variable snapshot_billing_enabled : bool.
Implicit Types (b : Billing).

Definition with_snapshot b (r : gmap string SnapshotBillingSession * list UsageTick) : Billing :=
  MkBilling r.1 (standby_billing_sessions b) r.2 (uuids b).
Definition with_standby b (r : gmap string StandbyBillingSession * list UsageTick) : Billing :=
  MkBilling (snapshot_billing_sessions b) r.1 r.2 (uuids b).
Definition draw_uuid b : Billing :=
  MkBilling (snapshot_billing_sessions b) (standby_billing_sessions b) (ticks b) (S (uuids b)).

(** ixshare/src/scheduler/scheduler_handler.rs:2343-2420 [SchedulerHandler::start_snapshot_pod_billing] *)
Definition start_snapshot_pod_billing (now : Z) (pod : FuncPod F) b : Share.Result Billing :=
  if negb snapshot_billing_enabled then Ok b else
  let spec := pod_spec pod in
  let gpu_count := cast i32 (gr_gpuCount (rs_gpu (reqResources spec))) in
  total ← Share.lift (TotalVRam (nr_gpus (allocResources spec)));
  if decide (gpu_count = 0%Z) then Ok b else
  let session := MkSnapshotSession (uuid (uuids b)) now now (default 0%Z (parse_i64 (pod_id spec))) (FuncKey pod)
    (nodename spec) (tenant pod) (namespace pod) (funcname spec) (fprevision spec)
    (nr_gpuType (allocResources spec)) gpu_count (cast i64 (gr_vRam (rs_gpu (reqResources spec))))
    (cast i64 (total / 1024 / 1024)) in
  let b := draw_uuid b in
  Ok (with_snapshot b (open now (PodKey pod) session true (snapshot_billing_sessions b) (ticks b))).
(** ixshare/src/scheduler/scheduler_handler.rs:2424-2469 [SchedulerHandler::end_snapshot_pod_billing] *)
Definition end_snapshot_pod_billing (now : Z) (pod_key : string) b : Billing :=
  if negb snapshot_billing_enabled then b
  else with_snapshot b (finish now pod_key (snapshot_billing_sessions b) (ticks b)).
(** ixshare/src/scheduler/scheduler_handler.rs:2473-2528 [SchedulerHandler::emit_periodic_billing_ticks] *)
Definition emit_periodic_billing_ticks (now : Z) b : Billing :=
  if negb snapshot_billing_enabled then b
  else with_snapshot b (emit_periodic now (snapshot_billing_sessions b) (ticks b)).

(** ixshare/src/scheduler/scheduler_handler.rs:2541-2638 [SchedulerHandler::start_standby_billing], with the function
    [self.funcs] has under [funckey] *)
Definition start_standby_billing (now : Z) (funckey : string) (func : option (Function F)) b : Share.Result Billing :=
  match standby_billing_sessions b !! funckey, func with
  | Some _, _ | None, None => Ok b
  | None, Some func =>
      let gpu := rs_gpu (fs_resources (fo_spec (object func))) in
      let gpu_count := cast i32 (gr_gpuCount gpu) in
      if decide (gpu_count = 0%Z) then Ok b else
      let vram_mb := cast i64 (gr_vRam gpu) in
      total_vram_mb ← chk i64 (gpu_count * vram_mb)%Z;
      match split "/" funckey with
      | tenant :: namespace :: funcname :: revision :: _ =>
          match parse_i64 revision with
          | None => Ok b
          | Some fprevision =>
              let session := MkStandbySession (uuid (uuids b)) now now funckey tenant namespace funcname fprevision
                (gr_type gpu) gpu_count vram_mb total_vram_mb in
              let b := draw_uuid b in
              Ok (with_standby b (open now funckey session false (standby_billing_sessions b) (ticks b)))
          end
      | _ => Ok b
      end
  end.
(** ixshare/src/scheduler/scheduler_handler.rs:2642-2679 [SchedulerHandler::end_standby_billing] *)
Definition end_standby_billing (now : Z) (funckey : string) b : Billing :=
  with_standby b (finish now funckey (standby_billing_sessions b) (ticks b)).
(** ixshare/src/scheduler/scheduler_handler.rs:2683-2729 [SchedulerHandler::emit_periodic_standby_ticks] *)
Definition emit_periodic_standby_ticks (now : Z) b : Billing :=
  with_standby b (emit_periodic now (standby_billing_sessions b) (ticks b)).
End billing.

(** ** What the ticks of a session add up to *)

Definition of_session (id : string) (out : list UsageTick) : list UsageTick :=
  filter (λ t, ut_session_id t = id) out.
Definition billed_ms (id : string) (out : list UsageTick) : Z := foldr Z.add 0%Z (ut_interval_ms <$> of_session id out).
(** The ticks of [id] account for a time [d] up to the fractions of a
    millisecond they cut off, less than one millisecond each. *)
Definition accounts (d : Z) (id : string) (out : list UsageTick) : Prop :=
  (0 ≤ d - 1000000 * billed_ms id out ≤ 1000000 * Z.of_nat (length (of_session id out)))%Z.

Lemma foldr_add_app l1 l2 : foldr Z.add 0%Z (l1 ++ l2) = (foldr Z.add 0 l1 + foldr Z.add 0 l2)%Z.
Proof. induction l1; simpl; lia. Qed.

Lemma accounts_other d id out t : ut_session_id t ≠ id → accounts d id out → accounts d id (out ++ [t]).
Proof.
  intros Ht. unfold accounts, billed_ms, of_session. rewrite filter_app, (filter_cons_False _ t) by done.
  by rewrite filter_nil, app_nil_r.
Qed.
Lemma accounts_same d d' id out t :
  ut_session_id t = id → ut_interval_ms t = ((d' - d) / 1000000)%Z → (d ≤ d')%Z →
  accounts d id out → accounts d' id (out ++ [t]).
Proof.
  intros Ht Hi Hd. unfold accounts, billed_ms, of_session. rewrite filter_app, (filter_cons_True _ t) by done.
  rewrite filter_nil, fmap_app, foldr_add_app, length_app. simpl. rewrite Hi.
  pose proof (Z.div_mod (d' - d) 1000000). pose proof (Z.mod_pos_bound (d' - d) 1000000). lia.
Qed.

Section ledger.
Variable uuid : nat → string.
Context `{!Inj (=) (=) uuid}.

(** Which session sits where: [(true, k)] for the pod [k], [(false, k)] for the
    model [k]; its id, start and last tick. *)
Abbreviation View := (bool * string → option (string * Z * Z)).

Record ledger (n : nat) (now : Z) (view : View) (out : list UsageTick) : Prop := {
  l_open x id s l : view x = Some (id, s, l) →
    (∃ i, i < n ∧ id = uuid i) ∧ (0 ≤ s ∧ s ≤ l ≤ now)%Z ∧ accounts (l - s) id out ∧
    ∀ t, t ∈ out → ut_session_id t = id → ut_tick_type t ≠ "final" ∧ (ut_tick_type t = "start" → ut_tick_time t = s);
  l_inj x y id s l s' l' : view x = Some (id, s, l) → view y = Some (id, s', l') → x = y;
  l_drawn t : t ∈ out → ∃ i, i < n ∧ ut_session_id t = uuid i;
  l_closed t0 t1 : t0 ∈ out → t1 ∈ out → ut_session_id t0 = ut_session_id t1 →
    ut_tick_type t0 = "start" → ut_tick_type t1 = "final" →
    accounts (ut_tick_time t1 - ut_tick_time t0) (ut_session_id t0) out;
}.

Lemma ledger_ext n now v v' out : (∀ x, v' x = v x) → ledger n now v out → ledger n now v' out.
Proof. intros Hv [H1 H2 H3 H4]. split; [intros x| |done|done]; intros *; rewrite ?Hv; eauto. Qed.
Lemma ledger_time n now now' v out : (now ≤ now')%Z → ledger n now v out → ledger n now' v out.
Proof.
  intros Hn [H1 H2 H3 H4]. split; [|done..]. intros x id s l (Hi & Hs & Ha & Ht)%H1. split_and!; try done; lia.
Qed.
Lemma ledger_none n now : ledger n now (λ _, None) [].
Proof. split; [done|done|set_solver..]. Qed.

Lemma ledger_open n now v out x t :
  ledger n now v out → ut_session_id t = uuid n → ut_tick_type t = "start" → ut_tick_time t = now →
  ut_interval_ms t = 0%Z → (0 ≤ now)%Z →
  ledger (S n) now (λ y, if decide (y = x) then Some (uuid n, now, now) else v y) (out ++ [t]).
Proof.
  intros [H1 H2 H3 H4] Hid Hk Ht Hi Hnow.
  assert (∀ u, u ∈ out → ut_session_id u ≠ uuid n) as Hfresh.
  { intros u (i & Hlt & ->)%H3 ?%(inj uuid). lia. }
  assert (accounts 0 (uuid n) out) as H0.
  { unfold accounts, billed_ms, of_session. rewrite filter_none; [by simpl|]. auto. }
  split.
  - intros y id s l. case_decide as Hy.
    + intros [= <- <- <-]. split_and!; [by exists n; split; [lia|]|lia|lia|lia| |].
      * rewrite Z.sub_diag. apply (accounts_same 0); [done| |lia|done]. by rewrite Hi.
      * intros u [Hu| ->%list_elem_of_singleton]%elem_of_app Hu'; [by apply Hfresh in Hu|]. by rewrite Hk.
    + intros ((i & Hlt & ->) & Hs & Ha & Hu)%H1. split_and!; [by exists i; split; [lia|]|lia|lia|lia| |].
      * apply accounts_other; [|done]. rewrite Hid. intros ?%(inj uuid). lia.
      * intros u [Hin| ->%list_elem_of_singleton]%elem_of_app Hu'; [by apply Hu|].
        rewrite Hid in Hu'. apply (inj uuid) in Hu'. lia.
  - intros y y' id s l s' l'. repeat case_decide; try congruence; eauto.
    + intros [= <- _ _] ((i & Hlt & ?%(inj uuid)) & _)%H1. lia.
    + intros ((i & Hlt & ->) & _)%H1 [= ?%(inj uuid) _ _]. lia.
  - intros u [(i & ? & ?)%H3| ->%list_elem_of_singleton]%elem_of_app; [exists i|exists n]; split; try done; lia.
  - intros t0 t1 [Ht0| ->%list_elem_of_singleton]%elem_of_app [Ht1| ->%list_elem_of_singleton]%elem_of_app Heq Hs Hf;
      try congruence.
    + apply accounts_other; [|by apply H4]. rewrite Hid. by apply not_eq_sym, Hfresh.
    + rewrite Hid in Heq. by apply symmetry, Hfresh in Heq.
Qed.

(** A tick of an open session that moves its last tick to now, or closes it. *)
Lemma ledger_tick n now v out x id s l t (closes : bool) :
  ledger n now v out → v x = Some (id, s, l) → ut_session_id t = id → ut_tick_time t = now →
  ut_tick_type t = (if closes then "final" else "periodic") → ut_interval_ms t = ((now - l) / 1000000)%Z →
  ledger n now (λ y, if decide (y = x) then if closes then None else Some (id, s, now) else v y) (out ++ [t]).
Proof.
  intros [H1 H2 H3 H4] Hx Hid Ht Hk Hi. destruct (H1 _ _ _ _ Hx) as (Hdrawn & Hs & Ha & Hticks).
  assert (ut_tick_type t ≠ "start") as Hns by (rewrite Hk; by destruct closes).
  assert (accounts (now - s) id (out ++ [t])) as Hacc.
  { apply (accounts_same (l - s)); try done; [|lia]. rewrite Hi. f_equal. lia. }
  split.
  - intros y id' s' l'. case_decide as Hy.
    + destruct closes; [done|]. intros [= <- <- <-]. split_and!; [done|lia|lia|lia|done|].
      intros u [Hu| ->%list_elem_of_singleton]%elem_of_app Hu'; [by apply Hticks|]. rewrite Hk. done.
    + intros Hv. destruct (H1 _ _ _ _ Hv) as (Hd' & Hs' & Ha' & Ht'). split_and!; [done|lia|lia|lia| |].
      * apply accounts_other; [|done]. rewrite Hid. intros ->. by apply Hy, eq_sym, (H2 _ _ _ _ _ _ _ Hx Hv).
      * intros u [Hin| ->%list_elem_of_singleton]%elem_of_app Hu'; [by apply Ht'|].
        exfalso. rewrite Hid in Hu'. subst id'. by apply Hy, eq_sym, (H2 _ _ _ _ _ _ _ Hx Hv).
  - intros y y' id' a b a' b'. repeat case_decide; destruct closes; try congruence; eauto.
    + intros [= <- _ _] Hv. subst. eauto.
    + intros Hv [= <- _ _]. subst. eauto.
  - intros u [?| ->%list_elem_of_singleton]%elem_of_app; [eauto|]. by rewrite Hid.
  - intros t0 t1 [Ht0| ->%list_elem_of_singleton]%elem_of_app [Ht1| ->%list_elem_of_singleton]%elem_of_app Heq Hst Hf;
      try congruence.
    + apply accounts_other; [|by apply H4]. rewrite Hid. intros Hid0. by destruct (Hticks t1) as [? _]; [|congruence|].
    + rewrite Ht, Heq, Hid. destruct (Hticks t0) as [_ ->]; [done|congruence|done|done].
Qed.

(** ** The sessions of one kind *)

Section kind.
Context {Sess : Type} `{BillingSessionSpec Sess}.
Variable kd : bool.
Implicit Types (m : gmap string Sess) (rest : View).

Definition view_in m rest : View := λ x,
  if decide (x.1 = kd) then (λ s, (session_id s, start_time s, last_tick_time s)) <$> m !! x.2 else rest x.

Lemma interval_ms_exact now s : (0 ≤ s ≤ now)%Z → fits i64 now → interval_ms now s = ((now - s) / 1000000)%Z.
Proof.
  unfold fits. simpl. intros Hs Hn. unfold interval_ms, millis. rewrite Z.max_r by lia. apply cast_fits.
  unfold fits. simpl. split; [|apply Z.lt_le_incl, Z.div_lt_upper_bound; lia].
  transitivity 0%Z; [lia|]. apply Z.div_pos; lia.
Qed.

Lemma ledger_view_in n now m rest out k s :
  ledger n now (view_in m rest) out → m !! k = Some s →
  (0 ≤ start_time s ∧ start_time s ≤ last_tick_time s ≤ now)%Z.
Proof.
  intros HL Hk. eapply (l_open _ _ _ _ HL (kd, k)). unfold view_in. simpl. by rewrite decide_True, Hk.
Qed.

Lemma open_ledger n now m rest out k s cold m' out' :
  ledger n now (view_in m rest) out → session_id s = uuid n → start_time s = now → last_tick_time s = now →
  (0 ≤ now)%Z → open now k s cold m out = (m', out') → ledger (S n) now (view_in m' rest) out'.
Proof.
  intros HL Hid Hs Hl Hnow [= <- <-]. eapply ledger_ext; [|eapply (ledger_open n now _ out (kd, k))]; try done.
  - intros [kd' k']. unfold view_in. simpl. destruct (decide (kd' = kd)) as [->|Hkd].
    + destruct (decide (k' = k)) as [->|Hk].
      * rewrite (decide_True (P:=(kd, k) = (kd, k))) by done. rewrite lookup_insert_eq. simpl. by rewrite Hid, Hs, Hl.
      * rewrite lookup_insert_ne by done. by rewrite (decide_False (P:=(kd, k') = (kd, k))) by congruence.
    + by rewrite decide_False by congruence.
  - by rewrite tick_id.
  - by rewrite tick_kind.
  - by rewrite tick_at.
  - by rewrite tick_interval.
Qed.

Lemma finish_ledger n now m rest out k m' out' :
  ledger n now (view_in m rest) out → fits i64 now → finish now k m out = (m', out') → ledger n now (view_in m' rest) out'.
Proof.
  intros HL Hfit. unfold finish. destruct (m !! k) as [s|] eqn:Hk; [|by intros [= <- <-]]. intros [= <- <-].
  pose proof (ledger_view_in _ _ _ _ _ _ _ HL Hk) as Hs.
  eapply ledger_ext; [|eapply (ledger_tick n now _ out (kd, k) _ _ _ _ true HL)]; rewrite ?tick_id, ?tick_kind, ?tick_at, ?tick_interval; try done.
  - intros [kd' k']. unfold view_in. simpl. destruct (decide (kd' = kd)) as [->|Hkd].
    + destruct (decide (k' = k)) as [->|Hk'].
      * rewrite (decide_True (P:=(kd, k) = (kd, k))) by done. by rewrite lookup_delete_eq.
      * rewrite lookup_delete_ne by done. by rewrite (decide_False (P:=(kd, k') = (kd, k))) by congruence.
    + by rewrite decide_False by congruence.
  - unfold view_in. simpl. by rewrite decide_True, Hk.
  - apply interval_ms_exact; [lia|done].
Qed.

Lemma emit_one_ledger n now m rest out k s m' out' :
  ledger n now (view_in m rest) out → fits i64 now → m !! k = Some s →
  emit_one now (m, out) (k, tick "periodic" now (interval_ms now (last_tick_time s)) false s) = (m', out') →
  ledger n now (view_in m' rest) out'.
Proof.
  intros HL Hfit Hk. unfold emit_one. simpl. rewrite Hk. intros [= <- <-].
  pose proof (ledger_view_in _ _ _ _ _ _ _ HL Hk) as Hs.
  eapply ledger_ext; [|eapply (ledger_tick n now _ out (kd, k) _ _ _ _ false HL)]; rewrite ?tick_id, ?tick_kind, ?tick_at, ?tick_interval; try done.
  - intros [kd' k']. unfold view_in. simpl. destruct (decide (kd' = kd)) as [->|Hkd].
    + destruct (decide (k' = k)) as [->|Hk'].
      * rewrite (decide_True (P:=(kd, k) = (kd, k))) by done. rewrite lookup_insert_eq. simpl.
        by rewrite id_set_last, start_set_last, last_set_last.
      * rewrite lookup_insert_ne by done. by rewrite (decide_False (P:=(kd, k') = (kd, k))) by congruence.
    + by rewrite decide_False by congruence.
  - unfold view_in. simpl. by rewrite decide_True, Hk.
  - apply interval_ms_exact; [lia|done].
Qed.

Lemma emit_periodic_ledger n now m rest out m' out' :
  ledger n now (view_in m rest) out → fits i64 now → emit_periodic now m out = (m', out') →
  ledger n now (view_in m' rest) out'.
Proof.
  intros HL Hfit. unfold emit_periodic, due.
  assert (∀ l m1 out1, ledger n now (view_in m1 rest) out1 → NoDup l.*1 → (∀ k s, (k, s) ∈ l → m1 !! k = Some s) →
    foldl (emit_one now) (m1, out1) (omap (λ p, let interval := interval_ms now (last_tick_time p.2) in
      if decide (0 < interval)%Z then Some (p.1, tick "periodic" now interval false p.2) else None) l) = (m', out') →
    ledger n now (view_in m' rest) out') as Hl.
  { intros l. induction l as [|[k s] l IH]; intros m1 out1 HL1 Hnd Hin; csimpl; [by intros [= <- <-]|].
    apply NoDup_cons in Hnd as [Hk Hnd]. assert (∀ k' s', (k', s') ∈ l → m1 !! k' = Some s') as Hin' by (intros; apply Hin; by right).
    case_decide; [|by apply IH]. cbn [foldl].
    destruct (emit_one now (m1, out1) _) as [m2 out2] eqn:He. apply IH; [|done|].
    - eapply emit_one_ledger; [done|done| |exact He]. apply Hin. by left.
    - intros k' s' Hks. unfold emit_one in He. simpl in He. injection He as <- _.
      destruct (m1 !! k) eqn:Hmk; [|by apply Hin']. rewrite lookup_insert_ne; [by apply Hin'|].
      intros ->. apply Hk, list_elem_of_fmap. by exists (k', s'). }
  apply Hl; [done|apply NoDup_keys|]. by intros k s ?%elem_of_entries.
Qed.
End kind.
End ledger.

(** ** Sequences of calls *)

Section calls.
Context {F : Type}.
Variable uuid : nat → string.
Variable enabled : bool.

(** What the scheduler calls; a model's function is the one known at that time. *)
Inductive BillingCall :=
| StartPod (pod : FuncPod F) | EndPod (pod_key : string) | TickPods
| StartModel (funckey : string) (func : option (Function F)) | EndModel (funckey : string) | TickModels.

Definition bill (b : Billing) (c : Z * BillingCall) : Share.Result Billing :=
  let now := c.1 in
  match c.2 with
  | StartPod pod => start_snapshot_pod_billing uuid enabled now pod b
  | EndPod key => Ok (end_snapshot_pod_billing enabled now key b)
  | TickPods => Ok (emit_periodic_billing_ticks enabled now b)
  | StartModel key func => start_standby_billing uuid now key func b
  | EndModel key => Ok (end_standby_billing now key b)
  | TickModels => Ok (emit_periodic_standby_ticks now b)
  end.

Definition billing_view (b : Billing) : bool * string → option (string * Z * Z) :=
  view_in true (snapshot_billing_sessions b) (view_in false (standby_billing_sessions b) (λ _, None)).
Definition billing_view' (b : Billing) : bool * string → option (string * Z * Z) :=
  view_in false (standby_billing_sessions b) (view_in true (snapshot_billing_sessions b) (λ _, None)).
Lemma billing_view_swap b x : billing_view b x = billing_view' b x.
Proof. unfold billing_view, billing_view', view_in. destruct x as [[] k]; by repeat case_decide. Qed.

Context `{!Inj (=) (=) uuid}.

Lemma bill_ledger now b c b' :
  ledger uuid (uuids b) now (billing_view b) (ticks b) → (now ≤ c.1)%Z → (0 ≤ now)%Z → fits i64 c.1 →
  bill b c = Ok b' → ledger uuid (uuids b') c.1 (billing_view b') (ticks b').
Proof.
  intros HL Hle Hnow Hfit. eapply ledger_time in HL; [|exact Hle].
  assert (ledger uuid (uuids b) c.1 (billing_view' b) (ticks b)) as HL'
    by (eapply ledger_ext; [|exact HL]; intros; by rewrite billing_view_swap).
  assert (∀ b1, ledger uuid (uuids b1) c.1 (billing_view' b1) (ticks b1) →
    ledger uuid (uuids b1) c.1 (billing_view b1) (ticks b1)) as Hswap
    by (intros; eapply ledger_ext; [|done]; intros; by rewrite billing_view_swap).
  unfold bill. destruct c as [t [pod|key| |key func|key| ]]; simpl in *.
  - unfold start_snapshot_pod_billing. destruct (negb enabled); [by intros [= <-]|].
    intros (tot & _ & Hb)%bind_Ok. case_decide; [by injection Hb as <-|]. injection Hb as <-.
    eapply open_ledger; [apply _|apply _|exact HL|..]; [..|apply surjective_pairing]; try done; simpl; lia.
  - intros [= <-]. unfold end_snapshot_pod_billing. destruct (negb enabled); [done|].
    eapply finish_ledger; [apply _|exact HL|done|apply surjective_pairing].
  - intros [= <-]. unfold emit_periodic_billing_ticks. destruct (negb enabled); [done|].
    eapply emit_periodic_ledger; [apply _|exact HL|done|apply surjective_pairing].
  - unfold start_standby_billing. destruct (_ !! key), func as [func|]; [by intros [= <-]..| |by intros [= <-]].
    case_decide; [by intros [= <-]|]. intros (tot & _ & Hb)%bind_Ok.
    destruct (split "/" key) as [|p1 [|p2 [|p3 [|p4 ps]]]]; try by injection Hb as <-.
    destruct (parse_i64 p4); injection Hb as <-; [|done]. apply Hswap.
    eapply open_ledger; [apply _|apply _|exact HL'|..]; [..|apply surjective_pairing]; try done; simpl; lia.
  - intros [= <-]. apply Hswap. eapply finish_ledger; [apply _|exact HL'|done|apply surjective_pairing].
  - intros [= <-]. apply Hswap. eapply emit_periodic_ledger; [apply _|exact HL'|done|apply surjective_pairing].
Qed.

Lemma bills_ledger now calls b b' :
  ledger uuid (uuids b) now (billing_view b) (ticks b) → (0 ≤ now)%Z →
  StronglySorted Z.le (now :: calls.*1) → Forall (fits i64) calls.*1 →
  foldlM bill b calls = Ok b' → ∃ now', ledger uuid (uuids b') now' (billing_view b') (ticks b').
Proof.
  revert now b. induction calls as [|c calls IH]; intros now b HL Hnow Hs Hfit; simpl.
  { intros [= <-]. eauto. }
  intros (b1 & Hb1 & Hrun)%bind_Ok. apply StronglySorted_inv in Hs as [Hs Hle].
  apply Forall_cons in Hle as [Hle _]. apply Forall_cons in Hfit as [Hfc Hfit].
  eapply (IH c.1); [by eapply bill_ledger|lia|done|done|exact Hrun].
Qed.
End calls.
Arguments BillingCall : clear implicits.

(** ** Properties *)

(** C29: what is billed.  However sessions are opened, ticked and closed at times
    that do not go back, and as long as session ids are never drawn twice: the
    ticks of a closed session, from its start tick to its final one, add up to
    the time between the two, and those of an open session to the time up to
    its last tick, in both cases up to less than a millisecond per tick, never
    too much; and the ticks of one session are never mixed with another's. *)
Theorem billing_adds_up {F} (uuid : nat → string) (enabled : bool) (calls : list (Z * BillingCall F)) (b : Billing) :
  Inj (=) (=) uuid → StronglySorted Z.le (0%Z :: calls.*1) → Forall (fits i64) calls.*1 →
  foldlM (bill uuid enabled) no_billing calls = Ok b →
  (∀ t0 t1, t0 ∈ ticks b → t1 ∈ ticks b → ut_session_id t0 = ut_session_id t1 →
     ut_tick_type t0 = "start" → ut_tick_type t1 = "final" →
     accounts (ut_tick_time t1 - ut_tick_time t0) (ut_session_id t0) (ticks b)) ∧
  (∀ key s, snapshot_billing_sessions b !! key = Some s →
     accounts (last_tick_time s - start_time s) (session_id s) (ticks b)) ∧
  (∀ key s, standby_billing_sessions b !! key = Some s →
     accounts (last_tick_time s - start_time s) (session_id s) (ticks b)) ∧
  (∀ k1 s1 k2 s2, snapshot_billing_sessions b !! k1 = Some s1 → standby_billing_sessions b !! k2 = Some s2 →
     session_id s1 ≠ session_id s2).
Proof.
  intros Hinj Hs Hf Hrun.
  destruct (bills_ledger uuid enabled 0 calls no_billing b) as [now HL]; try done.
  { eapply ledger_ext; [|by apply ledger_none]. intros [[] k]; unfold billing_view, view_in; simpl; by rewrite lookup_empty. }
  assert (∀ key s, snapshot_billing_sessions b !! key = Some s →
    billing_view b (true, key) = Some (session_id s, start_time s, last_tick_time s)) as Hv1.
  { intros key s Hk. unfold billing_view, view_in. simpl. by rewrite Hk. }
  assert (∀ key s, standby_billing_sessions b !! key = Some s →
    billing_view b (false, key) = Some (session_id s, start_time s, last_tick_time s)) as Hv2.
  { intros key s Hk. unfold billing_view, view_in. simpl. by rewrite Hk. }
  split_and!.
  - apply (l_closed _ _ _ _ _ HL).
  - intros key s Hk%Hv1. by apply (l_open _ _ _ _ _ HL) in Hk as (_ & _ & ? & _).
  - intros key s Hk%Hv2. by apply (l_open _ _ _ _ _ HL) in Hk as (_ & _ & ? & _).
  - intros k1 s1 k2 s2 H1%Hv1 H2%Hv2 Heq. rewrite Heq in H1.
    by pose proof (l_inj _ _ _ _ _ HL _ _ _ _ _ _ _ H1 H2).
Qed.

Definition sample_spec (nodename : string) (gpus : Z) : FuncPodSpec unit :=
  MkFuncPodSpec "f" 1 "7" (MkFuncSpec 1 (MkResources 0 0 0 0 (MkGPUResource "Any" gpus 14000 1))
      (MkStandby File File File) (Link (MkObjLink "" "" ""))) nodename InferX 0 CreateSnapshot "" 0
    (MkResources 0 0 0 0 (MkGPUResource "Any" gpus 14000 1))
    (MkNodeResources nodename 0 0 0 "A100" GPUResourceMap_default 2).
Definition sample_pod (nodename : string) (gpus : Z) (state : PodState) : FuncPod unit :=
  MkDataObject "pod" "t" "n" "f-7" ∅ ∅ 0 0 0 (MkFuncPodObject (sample_spec nodename gpus) state).

(** Ticks at 1.9995 and 3.999 milliseconds after the start bill 1 and 1. *)
Lemma billing_adds_up_witness :
  ∃ b, foldlM (bill pretty true) no_billing
    [(0%Z, StartPod (sample_pod "n1" 1 PInit)); (1999500%Z, TickPods); (3999000%Z, EndPod "t/n/f/1/7")] = Ok b ∧
    ut_interval_ms <$> ticks b = [0; 1; 1]%Z ∧ accounts 3999000 "0" (ticks b).
Proof.
  destruct (foldlM (bill pretty true) no_billing
    [(0%Z, StartPod (sample_pod "n1" 1 PInit)); (1999500%Z, TickPods); (3999000%Z, EndPod "t/n/f/1/7")])
    as [b|e|why] eqn:Hrun; [|by vm_compute in Hrun..].
  destruct (billing_adds_up pretty true
    [(0%Z, StartPod (sample_pod "n1" 1 PInit)); (1999500%Z, TickPods); (3999000%Z, EndPod "t/n/f/1/7")] b) as (Hc & _).
  { apply _. }
  { repeat (apply SSorted_cons || apply SSorted_nil || apply Forall_cons; repeat split || apply Forall_nil); simpl; lia. }
  { by repeat constructor. }
  { done. }
  vm_compute in Hrun. injection Hrun as <-. eexists. split; [done|]. split; [done|].
  opose proof (Hc _ _ _ _ _ _ _) as Hacc; [by eapply (list_elem_of_lookup_2 _ 0)|by eapply (list_elem_of_lookup_2 _ 2)|done..|exact Hacc].
Defined.
