(* ===== verification/SchedState.v ===== *)
(** * State of the scheduler and what it reads off it
      (ixshare/src/scheduler/scheduler_handler.rs, [SchedulerHandler])

    The handler is one task that takes a message at a time, so its state is a
    record passed from call to call; [world] is what lies outside it.  Fields
    the modelled calls do not use are left out (timers, the message sender,
    semaphores). *)

From S2P Require Import Prelude.
From S2P Require Import Text.
From S2P Require Import BTree.
From S2P Require Import Common.
From S2P Require Import DataObj.
From S2P Require Import Resource.
From S2P Require Import Specs.
From S2P Require Import Worker.
From S2P Require Import Billing.
From S2P Require Import BiIndex.

(** ** The LRU map of idle pods

    [LruCache<String, ()>] of the crate lru, unbounded: keys from the most to
    the least recently put. *)

Class Lru (L : Type) := {
  lru_new : L;
  lru_keys : L → list string;
  lru_put : string → L → L;
  lru_pop : string → L → bool * L;
}.
(** Documented behaviour of the crate. *)
Class LruSpec (L : Type) `{Lru L} : Prop := {
  keys_new : lru_keys lru_new = [];
  keys_put k l : lru_keys (lru_put k l) = k :: filter (.≠ k) (lru_keys l);
  keys_pop k l : lru_keys (lru_pop k l).2 = filter (.≠ k) (lru_keys l);
  pop_found k l : (lru_pop k l).1 = bool_decide (k ∈ lru_keys l);
}.
(** A list is one. *)
#[global] Instance list_lru : Lru (list string) := {|
  lru_new := [];
  lru_keys l := l;
  lru_put k l := k :: filter (.≠ k) l;
  lru_pop k l := (bool_decide (k ∈ l), filter (.≠ k) l);
|}.
#[global] Instance list_lru_spec : LruSpec (list string).
Proof. by split. Qed.

(** The settings of the scheduler that are read (ixshare/src/node_config.rs). *)
Class SchedConfig := {
  inferxEndpointFuncDefaultPolicy : FuncPolicySchedulerDefaults;
  enableSnapshotBilling : bool;
  uuid : nat → string;   (* the session ids [Uuid::new_v4] draws *)
}.

(** ixshare/src/scheduler/scheduler_handler.rs:6270-6277 [ListType] *)
Inductive ListType := LNode | LFuncPod | LFunc | LFuncStatus | LSnapshot | LFuncpolicy.
#[global] Instance ListType_eq_dec : EqDecision ListType.
Proof. solve_decision. Defined.
Definition list_type_no (t : ListType) : nat :=
  match t with LNode => 0 | LFuncPod => 1 | LFunc => 2 | LFuncStatus => 3 | LSnapshot => 4 | LFuncpolicy => 5 end.
#[global] Instance ListType_countable : Countable ListType.
Proof.
  apply (inj_countable list_type_no (λ n, [LNode; LFuncPod; LFunc; LFuncStatus; LSnapshot; LFuncpolicy] !! n)).
  by intros [].
Defined.
(** ixshare/src/scheduler/scheduler.rs:530-537 [SnapshotScheduleState] *)
Inductive SnapshotScheduleState :=
| SInit | SDone | SScheduled | SScheduleFail (msg : string) | SCannot (msg : string) | SWaiting (msg : string).
#[global] Instance SnapshotScheduleState_eq_dec : EqDecision SnapshotScheduleState.
Proof. solve_decision. Defined.
(** ixshare/src/scheduler/scheduler.rs:574-578 [SnapshotScheduleInfoInner] *)
Record SnapshotScheduleInfo := MkSnapshotScheduleInfo {
  si_funcId : string; si_nodename : string; si_state : SnapshotScheduleState;
}.
#[global] Instance SnapshotScheduleInfo_eq_dec : EqDecision SnapshotScheduleInfo.
Proof. solve_decision. Defined.
(** ixshare/src/scheduler/scheduler.rs:481-490 [SchedTask] *)
Inductive SchedTask :=
| RefreshSnapshot
| RemoveSnapshotFromNode_ (funckey nodename : string)
| SnapshotTask (funcId nodename : string)
| NvidiaPodTask (funcId : string)
| StandbyTask (nodename : string)
| AddNodeTask (nodename : string)
| AddFuncTask (funcId : string)
| DelayedInitNode (nodename : string).
(** ixshare/src/scheduler/scheduler_handler.rs:670-673 [TerminatingMeta] *)
Record TerminatingMeta := MkTerminatingMeta { since : Z; stuck_retry_count : Z }.
(** ixshare/src/scheduler/scheduler_handler.rs:6342-6345 [FindNodeType] *)
Inductive FindNodeType := Resume | NvidiaRuntimePod.
#[global] Instance FindNodeType_eq_dec : EqDecision FindNodeType.
Proof. solve_decision. Defined.

Section sched.
Context {F L : Type} `{FloatLit F, Lru L, SchedConfig}.
Abbreviation WorkerPod := (WorkerPod F).
Abbreviation NodeStatus := (NodeStatus F).
Abbreviation FuncStatus := (FuncStatus F).
Abbreviation FuncPolicySpec := (FuncPolicySpec F).
Abbreviation Function := (Function F).

(** ixshare/src/scheduler/scheduler_handler.rs:676-765 [SchedulerHandler] *)
Record Sched := MkSched {
  nodeEpochs : gmap string Z;
  pods : gmap string WorkerPod;  (* by pod key *)
  gateways : gmap Z Z;  (* gateway id, time of its last refresh *)
  nodes : gmap string NodeStatus;
  nodePods : gmap string (gmap string WorkerPod);  (* pods whose node is not known yet, by node *)
  funcs : gmap string FuncStatus;
  funcstatus : gmap string FunctionStatus;
  tenants : gmap string Tenant;  (* by tenant name *)
  snapshots : gmap string (gmap string ContainerSnapshot);  (* by function, then node *)
  pendingsnapshots : gmap string (gset string);  (* nodes by function *)
  idlePods : L;  (* pod keys *)
  terminating_pods : gmap string TerminatingMeta;
  funcPods : gmap string (gmap string WorkerPod);  (* pods whose function is not known yet, by function *)
  funcpolicy : gmap string FuncPolicySpec;
  listed : gset ListType;  (* the lists that are done *)
  listDone : bool;
  warmupStartTime : option Z;
  warmupComplete : bool;
  taskQueue : list SchedTask;  (* in the order they were added *)
  delayed_tasks : list (Z * SchedTask);  (* with the time they are due *)
  SnapshotSched : BiIndex SnapshotScheduleInfo;  (* by function and node *)
  pending_snapshot_removals : gset string;  (* [funckey:nodename] *)
  billing : Billing;
  world : World;
}.
Abbreviation M := (sm Sched Share.Error).
Implicit Types (s : Sched) (p : WorkerPod).

Definition upd_nodeEpochs (f : gmap string Z → gmap string Z) (s : Sched) : Sched :=
  MkSched (f (nodeEpochs s)) (pods s) (gateways s) (nodes s) (nodePods s) (funcs s) (funcstatus s) (tenants s) (snapshots s) (pendingsnapshots s) (idlePods s) (terminating_pods s) (funcPods s) (funcpolicy s) (listed s) (listDone s) (warmupStartTime s) (warmupComplete s) (taskQueue s) (delayed_tasks s) (SnapshotSched s) (pending_snapshot_removals s) (billing s) (world s).
Definition upd_pods (f : gmap string WorkerPod → gmap string WorkerPod) (s : Sched) : Sched :=
  MkSched (nodeEpochs s) (f (pods s)) (gateways s) (nodes s) (nodePods s) (funcs s) (funcstatus s) (tenants s) (snapshots s) (pendingsnapshots s) (idlePods s) (terminating_pods s) (funcPods s) (funcpolicy s) (listed s) (listDone s) (warmupStartTime s) (warmupComplete s) (taskQueue s) (delayed_tasks s) (SnapshotSched s) (pending_snapshot_removals s) (billing s) (world s).
Definition upd_gateways (f : gmap Z Z → gmap Z Z) (s : Sched) : Sched :=
  MkSched (nodeEpochs s) (pods s) (f (gateways s)) (nodes s) (nodePods s) (funcs s) (funcstatus s) (tenants s) (snapshots s) (pendingsnapshots s) (idlePods s) (terminating_pods s) (funcPods s) (funcpolicy s) (listed s) (listDone s) (warmupStartTime s) (warmupComplete s) (taskQueue s) (delayed_tasks s) (SnapshotSched s) (pending_snapshot_removals s) (billing s) (world s).
Definition upd_nodes (f : gmap string NodeStatus → gmap string NodeStatus) (s : Sched) : Sched :=
  MkSched (nodeEpochs s) (pods s) (gateways s) (f (nodes s)) (nodePods s) (funcs s) (funcstatus s) (tenants s) (snapshots s) (pendingsnapshots s) (idlePods s) (terminating_pods s) (funcPods s) (funcpolicy s) (listed s) (listDone s) (warmupStartTime s) (warmupComplete s) (taskQueue s) (delayed_tasks s) (SnapshotSched s) (pending_snapshot_removals s) (billing s) (world s).
Definition upd_nodePods (f : gmap string (gmap string WorkerPod) → gmap string (gmap string WorkerPod)) (s : Sched) : Sched :=
  MkSched (nodeEpochs s) (pods s) (gateways s) (nodes s) (f (nodePods s)) (funcs s) (funcstatus s) (tenants s) (snapshots s) (pendingsnapshots s) (idlePods s) (terminating_pods s) (funcPods s) (funcpolicy s) (listed s) (listDone s) (warmupStartTime s) (warmupComplete s) (taskQueue s) (delayed_tasks s) (SnapshotSched s) (pending_snapshot_removals s) (billing s) (world s).
Definition upd_funcs (f : gmap string FuncStatus → gmap string FuncStatus) (s : Sched) : Sched :=
  MkSched (nodeEpochs s) (pods s) (gateways s) (nodes s) (nodePods s) (f (funcs s)) (funcstatus s) (tenants s) (snapshots s) (pendingsnapshots s) (idlePods s) (terminating_pods s) (funcPods s) (funcpolicy s) (listed s) (listDone s) (warmupStartTime s) (warmupComplete s) (taskQueue s) (delayed_tasks s) (SnapshotSched s) (pending_snapshot_removals s) (billing s) (world s).
Definition upd_funcstatus (f : gmap string FunctionStatus → gmap string FunctionStatus) (s : Sched) : Sched :=
  MkSched (nodeEpochs s) (pods s) (gateways s) (nodes s) (nodePods s) (funcs s) (f (funcstatus s)) (tenants s) (snapshots s) (pendingsnapshots s) (idlePods s) (terminating_pods s) (funcPods s) (funcpolicy s) (listed s) (listDone s) (warmupStartTime s) (warmupComplete s) (taskQueue s) (delayed_tasks s) (SnapshotSched s) (pending_snapshot_removals s) (billing s) (world s).
Definition upd_tenants (f : gmap string Tenant → gmap string Tenant) (s : Sched) : Sched :=
  MkSched (nodeEpochs s) (pods s) (gateways s) (nodes s) (nodePods s) (funcs s) (funcstatus s) (f (tenants s)) (snapshots s) (pendingsnapshots s) (idlePods s) (terminating_pods s) (funcPods s) (funcpolicy s) (listed s) (listDone s) (warmupStartTime s) (warmupComplete s) (taskQueue s) (delayed_tasks s) (SnapshotSched s) (pending_snapshot_removals s) (billing s) (world s).
Definition upd_snapshots (f : gmap string (gmap string ContainerSnapshot) → gmap string (gmap string ContainerSnapshot)) (s : Sched) : Sched :=
  MkSched (nodeEpochs s) (pods s) (gateways s) (nodes s) (nodePods s) (funcs s) (funcstatus s) (tenants s) (f (snapshots s)) (pendingsnapshots s) (idlePods s) (terminating_pods s) (funcPods s) (funcpolicy s) (listed s) (listDone s) (warmupStartTime s) (warmupComplete s) (taskQueue s) (delayed_tasks s) (SnapshotSched s) (pending_snapshot_removals s) (billing s) (world s).
Definition upd_pendingsnapshots (f : gmap string (gset string) → gmap string (gset string)) (s : Sched) : Sched :=
  MkSched (nodeEpochs s) (pods s) (gateways s) (nodes s) (nodePods s) (funcs s) (funcstatus s) (tenants s) (snapshots s) (f (pendingsnapshots s)) (idlePods s) (terminating_pods s) (funcPods s) (funcpolicy s) (listed s) (listDone s) (warmupStartTime s) (warmupComplete s) (taskQueue s) (delayed_tasks s) (SnapshotSched s) (pending_snapshot_removals s) (billing s) (world s).
Definition upd_idlePods (f : L → L) (s : Sched) : Sched :=
  MkSched (nodeEpochs s) (pods s) (gateways s) (nodes s) (nodePods s) (funcs s) (funcstatus s) (tenants s) (snapshots s) (pendingsnapshots s) (f (idlePods s)) (terminating_pods s) (funcPods s) (funcpolicy s) (listed s) (listDone s) (warmupStartTime s) (warmupComplete s) (taskQueue s) (delayed_tasks s) (SnapshotSched s) (pending_snapshot_removals s) (billing s) (world s).
Definition upd_terminating_pods (f : gmap string TerminatingMeta → gmap string TerminatingMeta) (s : Sched) : Sched :=
  MkSched (nodeEpochs s) (pods s) (gateways s) (nodes s) (nodePods s) (funcs s) (funcstatus s) (tenants s) (snapshots s) (pendingsnapshots s) (idlePods s) (f (terminating_pods s)) (funcPods s) (funcpolicy s) (listed s) (listDone s) (warmupStartTime s) (warmupComplete s) (taskQueue s) (delayed_tasks s) (SnapshotSched s) (pending_snapshot_removals s) (billing s) (world s).
Definition upd_funcPods (f : gmap string (gmap string WorkerPod) → gmap string (gmap string WorkerPod)) (s : Sched) : Sched :=
  MkSched (nodeEpochs s) (pods s) (gateways s) (nodes s) (nodePods s) (funcs s) (funcstatus s) (tenants s) (snapshots s) (pendingsnapshots s) (idlePods s) (terminating_pods s) (f (funcPods s)) (funcpolicy s) (listed s) (listDone s) (warmupStartTime s) (warmupComplete s) (taskQueue s) (delayed_tasks s) (SnapshotSched s) (pending_snapshot_removals s) (billing s) (world s).
Definition upd_funcpolicy (f : gmap string FuncPolicySpec → gmap string FuncPolicySpec) (s : Sched) : Sched :=
  MkSched (nodeEpochs s) (pods s) (gateways s) (nodes s) (nodePods s) (funcs s) (funcstatus s) (tenants s) (snapshots s) (pendingsnapshots s) (idlePods s) (terminating_pods s) (funcPods s) (f (funcpolicy s)) (listed s) (listDone s) (warmupStartTime s) (warmupComplete s) (taskQueue s) (delayed_tasks s) (SnapshotSched s) (pending_snapshot_removals s) (billing s) (world s).
Definition upd_listed (f : gset ListType → gset ListType) (s : Sched) : Sched :=
  MkSched (nodeEpochs s) (pods s) (gateways s) (nodes s) (nodePods s) (funcs s) (funcstatus s) (tenants s) (snapshots s) (pendingsnapshots s) (idlePods s) (terminating_pods s) (funcPods s) (funcpolicy s) (f (listed s)) (listDone s) (warmupStartTime s) (warmupComplete s) (taskQueue s) (delayed_tasks s) (SnapshotSched s) (pending_snapshot_removals s) (billing s) (world s).
Definition upd_listDone (f : bool → bool) (s : Sched) : Sched :=
  MkSched (nodeEpochs s) (pods s) (gateways s) (nodes s) (nodePods s) (funcs s) (funcstatus s) (tenants s) (snapshots s) (pendingsnapshots s) (idlePods s) (terminating_pods s) (funcPods s) (funcpolicy s) (listed s) (f (listDone s)) (warmupStartTime s) (warmupComplete s) (taskQueue s) (delayed_tasks s) (SnapshotSched s) (pending_snapshot_removals s) (billing s) (world s).
Definition upd_warmupStartTime (f : option Z → option Z) (s : Sched) : Sched :=
  MkSched (nodeEpochs s) (pods s) (gateways s) (nodes s) (nodePods s) (funcs s) (funcstatus s) (tenants s) (snapshots s) (pendingsnapshots s) (idlePods s) (terminating_pods s) (funcPods s) (funcpolicy s) (listed s) (listDone s) (f (warmupStartTime s)) (warmupComplete s) (taskQueue s) (delayed_tasks s) (SnapshotSched s) (pending_snapshot_removals s) (billing s) (world s).
Definition upd_warmupComplete (f : bool → bool) (s : Sched) : Sched :=
  MkSched (nodeEpochs s) (pods s) (gateways s) (nodes s) (nodePods s) (funcs s) (funcstatus s) (tenants s) (snapshots s) (pendingsnapshots s) (idlePods s) (terminating_pods s) (funcPods s) (funcpolicy s) (listed s) (listDone s) (warmupStartTime s) (f (warmupComplete s)) (taskQueue s) (delayed_tasks s) (SnapshotSched s) (pending_snapshot_removals s) (billing s) (world s).
Definition upd_taskQueue (f : list SchedTask → list SchedTask) (s : Sched) : Sched :=
  MkSched (nodeEpochs s) (pods s) (gateways s) (nodes s) (nodePods s) (funcs s) (funcstatus s) (tenants s) (snapshots s) (pendingsnapshots s) (idlePods s) (terminating_pods s) (funcPods s) (funcpolicy s) (listed s) (listDone s) (warmupStartTime s) (warmupComplete s) (f (taskQueue s)) (delayed_tasks s) (SnapshotSched s) (pending_snapshot_removals s) (billing s) (world s).
Definition upd_delayed_tasks (f : list (Z * SchedTask) → list (Z * SchedTask)) (s : Sched) : Sched :=
  MkSched (nodeEpochs s) (pods s) (gateways s) (nodes s) (nodePods s) (funcs s) (funcstatus s) (tenants s) (snapshots s) (pendingsnapshots s) (idlePods s) (terminating_pods s) (funcPods s) (funcpolicy s) (listed s) (listDone s) (warmupStartTime s) (warmupComplete s) (taskQueue s) (f (delayed_tasks s)) (SnapshotSched s) (pending_snapshot_removals s) (billing s) (world s).
Definition upd_SnapshotSched (f : BiIndex SnapshotScheduleInfo → BiIndex SnapshotScheduleInfo) (s : Sched) : Sched :=
  MkSched (nodeEpochs s) (pods s) (gateways s) (nodes s) (nodePods s) (funcs s) (funcstatus s) (tenants s) (snapshots s) (pendingsnapshots s) (idlePods s) (terminating_pods s) (funcPods s) (funcpolicy s) (listed s) (listDone s) (warmupStartTime s) (warmupComplete s) (taskQueue s) (delayed_tasks s) (f (SnapshotSched s)) (pending_snapshot_removals s) (billing s) (world s).
Definition upd_pending_snapshot_removals (f : gset string → gset string) (s : Sched) : Sched :=
  MkSched (nodeEpochs s) (pods s) (gateways s) (nodes s) (nodePods s) (funcs s) (funcstatus s) (tenants s) (snapshots s) (pendingsnapshots s) (idlePods s) (terminating_pods s) (funcPods s) (funcpolicy s) (listed s) (listDone s) (warmupStartTime s) (warmupComplete s) (taskQueue s) (delayed_tasks s) (SnapshotSched s) (f (pending_snapshot_removals s)) (billing s) (world s).
Definition upd_billing (f : Billing → Billing) (s : Sched) : Sched :=
  MkSched (nodeEpochs s) (pods s) (gateways s) (nodes s) (nodePods s) (funcs s) (funcstatus s) (tenants s) (snapshots s) (pendingsnapshots s) (idlePods s) (terminating_pods s) (funcPods s) (funcpolicy s) (listed s) (listDone s) (warmupStartTime s) (warmupComplete s) (taskQueue s) (delayed_tasks s) (SnapshotSched s) (pending_snapshot_removals s) (f (billing s)) (world s).
Definition upd_world (f : World → World) (s : Sched) : Sched :=
  MkSched (nodeEpochs s) (pods s) (gateways s) (nodes s) (nodePods s) (funcs s) (funcstatus s) (tenants s) (snapshots s) (pendingsnapshots s) (idlePods s) (terminating_pods s) (funcPods s) (funcpolicy s) (listed s) (listDone s) (warmupStartTime s) (warmupComplete s) (taskQueue s) (delayed_tasks s) (SnapshotSched s) (pending_snapshot_removals s) (billing s) (f (world s)).

(** ixshare/src/scheduler/scheduler_handler.rs:768-807 [SchedulerHandler::default] *)
Definition SchedulerHandler_New (w : World) : Sched :=
  MkSched ∅ ∅ ∅ ∅ ∅ ∅ ∅ ∅ ∅ ∅ lru_new ∅ ∅ ∅ ∅ false None false [] [] BiIndex_New ∅ no_billing w.

(** A call on the outside world, and one on a node or function. *)
Definition on_world {A} (m : sm World Share.Error A) : M A := zoom world (λ w, upd_world (λ _, w)) m.
Definition state_of s p : WorkerPodState := State (world s) p.
Definition put_node (name : string) (ns : NodeStatus) : M unit := modify (upd_nodes <[name := ns]>).
Definition put_func (key : string) (fs : FuncStatus) : M unit := modify (upd_funcs <[key := fs]>).
Definition clock : M Z := gets (now ∘ world).

(** ** Tenants *)

(** ixshare/src/scheduler/scheduler_handler.rs:107-107 [PLATFORM_TENANT] *)
Definition PLATFORM_TENANT : string := "inferx".
(** ixshare/src/scheduler/scheduler_handler.rs:108-108 [PLATFORM_SHARED_NAMESPACE] *)
Definition PLATFORM_SHARED_NAMESPACE : string := "endpoint".
(** ixshare/src/scheduler/scheduler_handler.rs:827-829 [SchedulerHandler::IsPlatformSharedFunc] *)
Definition IsPlatformSharedFunc (tenant namespace : string) : bool :=
  bool_decide (tenant = PLATFORM_TENANT) && bool_decide (namespace = PLATFORM_SHARED_NAMESPACE).
(** ixshare/src/scheduler/scheduler_handler.rs:831-837 [SchedulerHandler::EffectiveTenant] *)
Definition EffectiveTenant (req : LeaseWorkerReq) : string :=
  if decide (lq_consumer_tenant req = "") then lq_tenant req else lq_consumer_tenant req.
(** ixshare/src/scheduler/scheduler_handler.rs:839-841 [SchedulerHandler::TenantIsGpuCapExempt] *)
Definition TenantIsGpuCapExempt (tenant : string) : bool :=
  bool_decide (tenant = PLATFORM_TENANT) || bool_decide (tenant = "public").
(** ixshare/src/scheduler/scheduler_handler.rs:843-849 [SchedulerHandler::TenantGpuLimit] *)
Definition TenantGpuLimit s (tenant : string) : Z :=
  match tenants s !! tenant with
  | Some obj => maxGpu (resourceLimit (tn_spec (object obj)))
  | None => 2%Z
  end.
(** Whether a worker counts for a tenant: it works or is being resumed, for
    that consumer, or else the pod is the tenant's own. *)
Definition busy (st : WorkerPodState) : bool := match st with WWorking _ | WResuming => true | _ => false end.
Definition charged_to (w : World) p : string := default (tenant (pod p)) (consumer_tenant (cell w p)).
Definition counts_for (w : World) (t : string) p : bool := busy (State w p) && bool_decide (charged_to w p = t).
(** ixshare/src/scheduler/scheduler_handler.rs:851-871 [SchedulerHandler::TenantActiveGpu] *)
Definition TenantActiveGpu s (tenant : string) : Share.Result Z :=
  foldlM (λ sum p, chk u64 (sum + gpu_count p)%Z) 0%Z (filter (λ p, counts_for (world s) tenant p) (values (pods s))).

(** ** Policies *)

(** [FuncPolicy::KEY] *)
Definition FuncPolicy_KEY : string := "funcpolicy".
(** ixshare/src/scheduler/scheduler_handler.rs:873-891 [SchedulerHandler::ResolveReferencedFuncPolicy] *)
Definition ResolveReferencedFuncPolicy s (tenant : string) (p : ObjRef FuncPolicySpec) : FuncPolicySpec :=
  match p with
  | Obj p => p
  | Link l =>
      if decide (link_objType l ≠ FuncPolicy_KEY) then FuncPolicySpec_default
      else default FuncPolicySpec_default (funcpolicy s !! ObjLink_Key l tenant)
  end.
(** ixshare/src/scheduler/scheduler_handler.rs:4445-4467 [SchedulerHandler::FuncPolicy] *)
Definition FuncPolicy s (tenant namespace name : string) (p : ObjRef FuncPolicySpec) : FuncPolicySpec :=
  match funcpolicy s !! (tenant +:+ "/" +:+ namespace +:+ "/" +:+ name) with
  | Some p => p
  | None =>
      let policy := ResolveReferencedFuncPolicy s tenant p in
      if IsPlatformSharedFunc tenant namespace then ApplyTo inferxEndpointFuncDefaultPolicy policy else policy
  end.

(** ** Pods and nodes *)

(** ixshare/src/scheduler/scheduler_handler.rs:2104-2117 [SchedulerHandler::GetFuncPod] *)
Definition GetFuncPod s (tenant namespace fpname : string) (revision : Z) (id : string) : Share.Result WorkerPod :=
  let podKey := FuncPodKey tenant namespace fpname revision id in
  match pods s !! podKey with
  | None => Err (Share.NotExist ("pod " +:+ podKey +:+ " doesn't exist"))
  | Some p => Ok p
  end.
(** ixshare/src/scheduler/scheduler_handler.rs:2119-2129 [SchedulerHandler::GetFuncPodsByKey] *)
Definition GetFuncPodsByKey s (fpkey : string) : list WorkerPod :=
  match funcs s !! fpkey with None => [] | Some fpStatus => values (fs_pods fpStatus) end.
(** ixshare/src/scheduler/scheduler_handler.rs:2131-2140 [SchedulerHandler::GetFuncPods] *)
Definition GetFuncPods s (tenant namespace fpname : string) (revision : Z) : list WorkerPod :=
  GetFuncPodsByKey s (FuncObjectKey tenant namespace fpname revision).
(** ixshare/src/scheduler/scheduler_handler.rs:2142-2148 [SchedulerHandler::GetFunc] *)
Definition GetFunc s (tenant namespace name : string) : Share.Result Function :=
  let fpkey := tenant +:+ "/" +:+ namespace +:+ "/" +:+ name in
  match funcs s !! fpkey with
  | None => Err (Share.NotExist ("GetFunc " +:+ fpkey))
  | Some fpStatus => Ok (func fpStatus)
  end.
(** ixshare/src/scheduler/scheduler_handler.rs:3405-3424 [SchedulerHandler::ReadyPodCount] *)
Definition ReadyPodCount s (funcname : string) : nat :=
  length (filter (λ p, IsResumed (state_of s p)) (GetFuncPodsByKey s funcname)).
(** ixshare/src/scheduler/scheduler_handler.rs:3426-3440 [SchedulerHandler::NvidiaRuntimePodCount] *)
Definition NvidiaRuntimePodCount s (funcname : string) : nat :=
  length (filter (λ p, NvidiaRuntime (pod p)) (GetFuncPodsByKey s funcname)).
(** ixshare/src/scheduler/scheduler_handler.rs:3695-3702 [SchedulerHandler::IsNodeReady] *)
Definition IsNodeReady s (nodename : string) : bool :=
  match nodes s !! nodename with None => false | Some ns => bool_decide (ns_state ns = NodeAgentReady) end.
(** ixshare/src/scheduler/scheduler_handler.rs:3704-3715 [SchedulerHandler::GetSnapshotNodes] *)
Definition GetSnapshotNodes s (funcid : string) : gset string :=
  match snapshots s !! funcid with None => ∅ | Some ns => dom ns end.
(** ixshare/src/scheduler/scheduler_handler.rs:3836-3850 [SchedulerHandler::GetReadySnapshotNodes] *)
Definition GetReadySnapshotNodes s (funcid : string) : list string :=
  match snapshots s !! funcid with
  | None => []
  | Some snapshots => (filter (λ q, cs_state q.2 = SnapshotReady) (entries snapshots)).*1
  end.
(** ixshare/src/scheduler/scheduler_handler.rs:3717-3724 [SchedulerHandler::HasPendingPod] *)
Definition HasPendingPod s (funcid : string) : bool :=
  match funcs s !! funcid with None => false | Some fs => FuncStatus_HasPendingPod fs end.

(** ** Pending snapshots *)

(** ixshare/src/scheduler/scheduler_handler.rs:2150-2161 [SchedulerHandler::AddPendingSnapshot] *)
Definition AddPendingSnapshot (funcid nodename : string) s : Sched :=
  upd_pendingsnapshots (λ m, <[funcid := {[nodename]} ∪ default ∅ (m !! funcid)]> m) s.
(** ixshare/src/scheduler/scheduler_handler.rs:2163-2176 [SchedulerHandler::RemovePendingSnapshot] *)
Definition RemovePendingSnapshot (funcid nodename : string) s : Sched :=
  match pendingsnapshots s !! funcid with
  | None => s
  | Some nodes =>
      let nodes := nodes ∖ {[nodename]} in
      upd_pendingsnapshots (if decide (nodes = ∅) then delete funcid else <[funcid := nodes]>) s
  end.
(** ixshare/src/scheduler/scheduler_handler.rs:2178-2180 [SchedulerHandler::HasPendingSnapshot] *)
Definition HasPendingSnapshot s (funcid : string) : bool := bool_decide (is_Some (pendingsnapshots s !! funcid)).

(** ixshare/src/scheduler/scheduler_handler.rs:4042-4064 [SchedulerHandler::SetSnapshotStatus]; the audit record of a
    change is not kept *)
Definition SetSnapshotStatus (funcId nodename : string) (state : SnapshotScheduleState) s : Sched :=
  upd_SnapshotSched (λ b, (Set_ b funcId nodename (MkSnapshotScheduleInfo funcId nodename state)).2) s.

(** ** Tasks *)

(** ixshare/src/scheduler/scheduler_handler.rs:959-962 [SchedulerHandler::schedule_delayed_task] *)
Definition schedule_delayed_task (delay : Z) (task : SchedTask) s : Sched :=
  upd_delayed_tasks (λ l, l ++ [((now (world s) + delay)%Z, task)]) s.
(** The capacity of the queue's channel. *)
Definition task_capacity : nat := 2000.
(** ixshare/src/scheduler/scheduler.rs:456-458 [TaskQueue::AddTask] *)
Definition AddTask (task : SchedTask) : M unit := λ s,
  if decide (length (taskQueue s) < task_capacity) then (Ok tt, upd_taskQueue (λ l, l ++ [task]) s)
  else (Panic "called `Result::unwrap()` on an `Err` value", s).
(** One second in nanoseconds. *)
Definition second : Z := 1000000000.
(** ixshare/src/scheduler/scheduler_handler.rs:3878-3903 [SchedulerHandler::AddSnapshotTask] *)
Definition AddSnapshotTask (nodename funcId : string) : M unit := λ s,
  match funcs s !! funcId with
  | None => (Panic "internal error: entered unreachable code", s)
  | Some f =>
      let policy := FuncPolicy s (tenant (func f)) (namespace (func f)) (name (func f)) (fs_policy (fo_spec (object (func f)))) in
      if decide (standbyPerNode policy = 0%Z) then (Ok tt, s)
      else (Ok tt, schedule_delayed_task second (SnapshotTask funcId nodename) s)
  end.
(** ixshare/src/scheduler/scheduler_handler.rs:3905-3910 [SchedulerHandler::AddNvidiaPodTask] *)
Definition AddNvidiaPodTask (funcId : string) s : Sched := schedule_delayed_task second (NvidiaPodTask funcId) s.
(** ixshare/src/scheduler/scheduler_handler.rs:3912-3917 [SchedulerHandler::AddStandbyTask] *)
Definition AddStandbyTask (nodename : string) s : Sched := schedule_delayed_task second (StandbyTask nodename) s.

(** ** Memory of a resumed pod *)

Definition snapshot_on s (funcId nodename : string) : Share.Result ContainerSnapshot :=
  nodes ← unwrap_opt (snapshots s !! funcId); unwrap_opt (nodes !! nodename).
(** ixshare/src/scheduler/scheduler_handler.rs:3323-3333 [SchedulerHandler::StandyResource] *)
Definition StandyResource s (funcId nodename : string) : Share.Result Resources :=
  snapshot ← snapshot_on s funcId nodename; StandbyResource snapshot.
(** ixshare/src/scheduler/scheduler_handler.rs:3393-3403 [SchedulerHandler::SnapshotReadyCacheMemory] *)
Definition SnapshotReadyCacheMemory s (funcId nodename : string) : Share.Result Z :=
  snapshot ← snapshot_on s funcId nodename; ReadyCacheMemory (cs_info snapshot).
(** ixshare/src/scheduler/scheduler_handler.rs:3336-3364 [SchedulerHandler::ReadyResource] *)
Definition ReadyResource s (funcResource : Resources) (funcId nodename : string) : Share.Result Resources :=
  snapshot ← snapshot_on s funcId nodename;
  cacheMemory ← ReadyCacheMemory (cs_info snapshot);
  memory ← (if decide (0 < rs_readyMemory funcResource)%Z then Ok (rs_readyMemory funcResource)
            else chk u64 (rs_memory funcResource - cacheMemory)%Z);
  Ok (MkResources (rs_cpu funcResource) memory (rs_readyMemory funcResource) cacheMemory
        (MkGPUResource (gr_type (rs_gpu funcResource)) (gr_gpuCount (rs_gpu funcResource))
           (gr_vRam (rs_gpu funcResource)) 1)).
(** ixshare/src/scheduler/scheduler_handler.rs:3367-3390 [SchedulerHandler::ReqResumeResource] *)
Definition ReqResumeResource s (funcResource : Resources) (funcId nodename : string) : Share.Result Resources :=
  extra ← ReadyResource s funcResource funcId nodename;
  standby ← StandyResource s funcId nodename;
  let monus a b := if decide (b < a)%Z then (a - b)%Z else 0%Z in
  Ok (MkResources (rs_cpu extra) (monus (rs_memory extra) (rs_memory standby)) (rs_readyMemory extra)
        (monus (rs_cacheMemory extra) (rs_cacheMemory standby)) (rs_gpu extra)).
End sched.
Arguments Sched : clear implicits.
