(* ===== verification/Evict.v ===== *)
(** * Making room for a pod (ixshare/src/scheduler/scheduler_handler.rs)

    Choosing a node for a pod, and idle pods to stop where no node has room:
    the least recently used ones first, never below the [minReplica] of their
    function.  Nothing is stopped here: the calls simulate the node's
    resources with the chosen pods gone. *)

From S2P Require Import Prelude.
From S2P Require Import Text.
From S2P Require Import BTree.
From S2P Require Import Common.
From S2P Require Import DataObj.
From S2P Require Import Resource.
From S2P Require Import Specs.
From S2P Require Import Worker.
From S2P Require Import SchedState.

Section evict.
Context {F L : Type} `{FloatLit F, Lru L, SchedConfig}.
Abbreviation WorkerPod := (WorkerPod F).
Abbreviation Sched := (Sched F L).
Abbreviation Function := (Function F).
Abbreviation M := (sm Sched Share.Error).
Implicit Types (s : Sched) (p : WorkerPod) (workids : list WorkerPod).

Definition pod_policy s p : FuncPolicySpec F :=
  FuncPolicy s (tenant (pod p)) (namespace (pod p)) (funcname (pod_spec (pod p))) (fs_policy (funcspec (pod_spec (pod p)))).
Definition count_func (funckey : string) workids : nat := length (filter (λ p, FuncKey (pod p) = funckey) workids).
(** ixshare/src/scheduler/scheduler_handler.rs:3958-3984 [SchedulerHandler::VerifyMinReplicaPolicy] *)
Definition VerifyMinReplicaPolicy s p workids : Share.Result bool :=
  let evictfuncname := FuncKey (pod p) in
  left ← chk usize (Z.of_nat (ReadyPodCount s evictfuncname) - Z.of_nat (count_func evictfuncname workids))%Z;
  Ok (negb (bool_decide (left <= minReplica (pod_policy s p))%Z)).

(** [for (podKey, _) in self.idlePods.iter().rev()] of [TryFreeResources]: the
    pods to stop, the keys without a pod, and what is available then. *)
Fixpoint free_loop s (nodename : string) (req : Resources) (createSnapshot : bool) (l : list string)
    workids (miss : list string) (available : NodeResources)
  : Share.Result (list WorkerPod * list string * NodeResources) :=
  match l with
  | [] => Ok (workids, miss, available)
  | podKey :: l =>
      match pods s !! podKey with
      | None => free_loop s nodename req createSnapshot l workids (miss ++ [podKey]) available
      | Some p =>
          if decide (Specs.nodename (pod_spec (pod p)) ≠ nodename)
          then free_loop s nodename req createSnapshot l workids miss available
          else if NvidiaRuntime (pod p) then free_loop s nodename req createSnapshot l workids miss available
          else
            keep ← VerifyMinReplicaPolicy s p workids;
            if negb keep then free_loop s nodename req createSnapshot l workids miss available
            else
              let workids := workids ++ [p] in
              available ← unwrap (Share.lift (NodeResources_Add available (allocResources (pod_spec (pod p)))));
              state ← Node_CanAlloc available req createSnapshot;
              if AllocState_Ok state then Ok (workids, miss, available)
              else free_loop s nodename req createSnapshot l workids miss available
      end
  end.
Definition idle_oldest_first s : list string := reverse (lru_keys (idlePods s)).
(** [self.idlePods.pop(k)] *)
Definition pop_idle (k : string) s : Sched := upd_idlePods (λ l, (lru_pop k l).2) s.
Definition put_idle (k : string) s : Sched := upd_idlePods (lru_put k) s.
(** ixshare/src/scheduler/scheduler_handler.rs:3986-4040 [SchedulerHandler::TryFreeResources]; also returns the
    resources the caller's [available] ends with *)
Definition TryFreeResources (nodename funcId : string) (available : NodeResources) (reqResource : Resources)
    (createSnapshot : bool) : M (list WorkerPod * NodeResources) :=
  '(workids, miss, available) ← (λ s, (free_loop s nodename reqResource createSnapshot (idle_oldest_first s) [] [] available, s));
  _ ← modify (λ s, foldl (λ s k, pop_idle k s) s miss);
  state ← pure_ (Node_CanAlloc available reqResource createSnapshot);
  if AllocState_Ok state then mret (workids, available)
  else pure_ (Err (Share.SchedulerNoEnoughResource
         ("Node " +:+ nodename +:+ " has no enough free resource to run " +:+ funcId +:+ " "))).

(** ** A node for a pod *)

(** What the pod needs on a node. *)
Definition pod_needs s (func : Function) (findnodeType : FindNodeType) (nr : NodeResources) (nodename : string)
  : Share.Result Resources :=
  match findnodeType with
  | Resume => ReqResumeResource s (RunningResource (fo_spec (object func))) (Function_Id func) nodename
  | NvidiaRuntimePod => SnapshotResource (fo_spec (object func)) (cast u64 (nr_maxContextCnt nr))
  end.
Definition whole_gpu (findnodeType : FindNodeType) : bool := negb (bool_decide (findnodeType = Resume)).
(** Standby pods of the function that are not being resumed. *)
Definition standby_pods_on (node : NodeStatus F) (funcId : string) : list (string * WorkerPod) :=
  filter (λ q, pod_state (pod q.2) = PStandby ∧ FuncKey (pod q.2) = funcId ∧ ns_pendingPods node !! q.1 = None)
    (entries (ns_pods node)).

Abbreviation Candidates := (gmap string (NodeResources * list WorkerPod)).

(** The first loop: a candidate with room now, or all candidates that could be
    made to have it. *)
Fixpoint first_fit s (func : Function) (findnodeType : FindNodeType) (candidateNodes : list string)
    (nodeSnapshots : Candidates) : Share.Result (option (string * NodeResources) * Candidates) :=
  match candidateNodes with
  | [] => Ok (None, nodeSnapshots)
  | nodename :: l =>
      node ← unwrap_opt (nodes s !! nodename);
      if bool_decide (findnodeType = Resume ∧ standby_pods_on node (Function_Id func) = [])
      then first_fit s func findnodeType l nodeSnapshots
      else
        let nr := available node in
        req ← pod_needs s func findnodeType nr nodename;
        state ← Node_CanAlloc nr req (whole_gpu findnodeType);
        if AllocState_Ok state then Ok (Some (nodename, nr), nodeSnapshots)
        else first_fit s func findnodeType l (<[nodename := (nr, [])]> nodeSnapshots)
  end.
(** The second loop: idle pods of other functions are stopped in turn, until the
    node of one of them has room. *)
Fixpoint evict_loop s (func : Function) (findnodeType : FindNodeType) (l : list string)
    (nodeSnapshots : Candidates) (miss : list string)
  : Share.Result (option (string * NodeResources) * Candidates * list string) :=
  match l with
  | [] => Ok (None, nodeSnapshots, miss)
  | podKey :: l =>
      match pods s !! podKey with
      | None => evict_loop s func findnodeType l nodeSnapshots (miss ++ [podKey])
      | Some p =>
          if decide (FuncKey (pod p) = Function_Id func) then evict_loop s func findnodeType l nodeSnapshots miss
          else
            let nodename := Specs.nodename (pod_spec (pod p)) in
            match nodeSnapshots !! nodename with
            | None => evict_loop s func findnodeType l nodeSnapshots miss
            | Some (nr, workids) =>
                keep ← VerifyMinReplicaPolicy s p workids;
                if negb keep then evict_loop s func findnodeType l nodeSnapshots miss
                else
                  let workids := workids ++ [p] in
                  nr ← unwrap (Share.lift (NodeResources_Add nr (allocResources (pod_spec (pod p)))));
                  let nodeSnapshots := <[nodename := (nr, workids)]> nodeSnapshots in
                  req ← pod_needs s func findnodeType nr nodename;
                  state ← Node_CanAlloc nr req (whole_gpu findnodeType);
                  if AllocState_Ok state then Ok (Some (nodename, nr), nodeSnapshots, miss)
                  else evict_loop s func findnodeType l nodeSnapshots miss
            end
      end
  end.
(** ixshare/src/scheduler/scheduler_handler.rs:3444-3608 [SchedulerHandler::FindNode4Pod] *)
Definition FindNode4Pod (func : Function) (findnodeType : FindNodeType) (candidateNodes : gset string)
  : M (string * list WorkerPod * NodeResources) :=
  '(found, nodeSnapshots) ← (λ s, (first_fit s func findnodeType (set_elems candidateNodes) ∅, s));
  match found with
  | Some (nodename, nr) => mret (nodename, [], nr)
  | None =>
      '(found, nodeSnapshots, miss) ← (λ s, (evict_loop s func findnodeType (idle_oldest_first s) nodeSnapshots [], s));
      _ ← modify (λ s, foldl (λ s k, pop_idle k s) s miss);
      match found with
      | None =>
          (* the request printed in the message *)
          _ ← pure_ (match findnodeType with
                     | Resume => Ok (RunningResource (fo_spec (object func)))
                     | NvidiaRuntimePod => SnapshotResource (fo_spec (object func)) 1
                     end);
          pure_ (Err (Share.SchedulerNoEnoughResource ("can't find enough resource for " +:+ Key func)))
      | Some (nodename, nr) =>
          '(_, workids) ← pure_ (unwrap_opt (nodeSnapshots !! nodename));
          mret (nodename, workids, nr)
      end
  end.
(** ixshare/src/scheduler/scheduler_handler.rs:3610-3636 [SchedulerHandler::GetBestNvidiaRuntimeNode] *)
Definition GetBestNvidiaRuntimeNode (fp : Function) : M (string * list WorkerPod * NodeResources) :=
  ready ← gets (λ s, dom (filter (λ q, ns_state q.2 = NodeAgentReady) (nodes s)));
  if decide (ready = ∅)
  then pure_ (Err (Share.SchedulerErr ("No resource for nvidia runtime for func " +:+ Function_Id fp)))
  else FindNode4Pod fp NvidiaRuntimePod ready.
(** ixshare/src/scheduler/scheduler_handler.rs:3638-3693 [SchedulerHandler::GetBestResumeWorker] *)
Definition GetBestResumeWorker (fp : Function) : M (WorkerPod * list WorkerPod * NodeResources) :=
  pods ← gets (λ s, GetFuncPodsByKey s (Function_Id fp));
  let none_left := Share.SchedulerNoEnoughResource ("no standby worker for function " +:+ Function_Id fp) in
  if decide (pods = []) then pure_ (Err none_left) else
  nodes ← gets (λ s, list_to_set (C:=gset string)
             (Specs.nodename ∘ pod_spec ∘ pod <$>
                filter (λ p, pod_state (pod p) = PStandby ∧ IsNodeReady s (Specs.nodename (pod_spec (pod p)))) pods));
  if decide (nodes = ∅)
  then pure_ (Err (Share.SchedulerErr ("No standy pod for func " +:+ Function_Id fp)))
  else
    '(nodename, terminalworkers, nodeResource) ← FindNode4Pod fp Resume nodes;
    worker ← gets (λ s, head (filter (λ p, pod_state (pod p) = PStandby ∧ state_of s p = WStandby ∧
                                         Specs.nodename (pod_spec (pod p)) = nodename) pods));
    match worker with
    | Some worker => mret (worker, terminalworkers, nodeResource)
    | None => pure_ (Err none_left)
    end.
(** ixshare/src/scheduler/scheduler_handler.rs:3726-3773 [SchedulerHandler::GetSnapshotCandidateNodes] *)
Definition GetSnapshotCandidateNodes s (func : Function) : Share.Result (gset string) :=
  let standby := fs_standby (fo_spec (object func)) in
  foldlM (λ nodes_ ns,
      let nm := name (node ns) in
      if negb (IsNodeReady s nm) then Ok nodes_
      else if decide (Z.max 0 (now (world s) - createTime ns) < 5 * second)%Z then Ok nodes_
      else if negb (blobStoreEnable (object (node ns))) && Needblob standby then Ok nodes_
      else if decide (nm ∈ GetSnapshotNodes s (Function_Id func)) then Ok nodes_
      else match nodes s !! nm with
           | None => Ok nodes_
           | Some ns =>
               state ← Node_CanAlloc (total ns) (fs_resources (fo_spec (object func))) true;
               Ok (if AllocState_Ok state then {[nm]} ∪ nodes_ else nodes_)
           end) ∅ (values (nodes s)).
(** ixshare/src/scheduler/scheduler_handler.rs:3775-3819 [SchedulerHandler::GetBestNodeToRestore], with the order
    [shuffle] puts the nodes in *)
Definition GetBestNodeToRestore s (shuffle : list string → list string) (fp : Function) : Share.Result string :=
  let funcid := Function_Id fp in
  let existnodes : gset string := list_to_set
    (filter (λ n, IsNodeReady s n)
       (Specs.nodename ∘ pod_spec ∘ pod <$> filter (λ p, pod_state (pod p) ≠ PReady) (GetFuncPodsByKey s funcid))) in
  let res := match snapshots s !! funcid with
             | None => []
             | Some set => filter (λ n, IsNodeReady s n ∧ n ∉ existnodes) (keys set)
             end in
  if decide (res = []) then Err (Share.CommonError ("can't find snapshot to restore " +:+ funcid))
  else unwrap_opt (head (shuffle res)).
End evict.
