(* ===== verification/Resume.v ===== *)
(** * Resuming and starting pods (ixshare/src/scheduler/scheduler_handler.rs)

    The calls that reserve resources on a node, mark the pods to stop and send
    the request to the node agent, and the messages that report how the request
    ended.  A request runs in the background: it is an entry of [rpcs], and its
    result arrives later as a call of the matching [Process..Complete]. *)

From S2P Require Import Prelude.
From S2P Require Import Text.
From S2P Require Import BTree.
From S2P Require Import Common.
From S2P Require Import DataObj.
From S2P Require Import Resource.
From S2P Require Import Specs.
From S2P Require Import Worker.
From S2P Require Import SchedState.
From S2P Require Import Evict.

(** How a request to a node agent failed: a transport error with its [{:?}]
    text, a gRPC status code, a message, or anything else. *)
Inductive RpcError := RpcTransport (debug : string) | RpcStatus (code : Z) | RpcCommon (msg : string) | RpcOther.
(** [tonic::Code::Unimplemented], [tonic::Code::Unavailable] *)
Definition code_Unimplemented : Z := 12.
Definition code_Unavailable : Z := 14.
(** ixshare/src/scheduler/scheduler_handler.rs:1128-1155 [SchedulerHandler::is_safe_to_restore] *)
Definition is_safe_to_restore (e : RpcError) : bool :=
  match e with
  | RpcTransport err_str =>
      contains "Connection refused" err_str || contains "ConnectionRefused" err_str || contains "dns error" err_str
      || contains "failed to lookup" err_str || contains "No route to host" err_str || contains "Network unreachable" err_str
  | RpcStatus code => bool_decide (code = code_Unavailable) || bool_decide (code = code_Unimplemented)
  | RpcCommon msg => contains "Connection refused" msg || contains "ConnectionRefused" msg
  | RpcOther => false
  end.

Section resume.
Context {F L : Type} `{FloatLit F, Lru L, SchedConfig}.
Abbreviation WorkerPod := (WorkerPod F).
Abbreviation NodeStatus := (NodeStatus F).
Abbreviation Sched := (Sched F L).
Abbreviation Function := (Function F).
Abbreviation M := (sm Sched Share.Error).
Implicit Types (s : Sched) (p : WorkerPod).

Definition pod_key p : string := PodKey (pod p).
Definition pod_node p : string := Specs.nodename (pod_spec (pod p)).

(** ixshare/src/scheduler/scheduler_handler.rs:907-916 [SchedulerHandler::mark_terminating] *)
Definition mark_terminating p s : Sched :=
  upd_terminating_pods <[pod_key p := MkTerminatingMeta (now (world s)) 0]>
    (upd_world (SetState p WTerminating) s).
(** ixshare/src/scheduler/scheduler_handler.rs:5206-5223 [SchedulerHandler::StopWorker] *)
Definition StopWorker (pod : FuncPod F) : M unit := λ s,
  match nodes s !! Specs.nodename (pod_spec pod) with
  | None => (Err (Share.CommonError ("Node " +:+ Specs.nodename (pod_spec pod) +:+ " not found")), s)
  | Some _ => (Ok tt, upd_world (push_rpc (TerminatePod (PodKey pod))) s)
  end.

(** [let removed = self.idlePods.pop(&key).is_some(); assert!(removed);] *)
Definition claim_idle p : M unit := λ s,
  (assert_ (lru_pop (pod_key p) (idlePods s)).1 "assertion failed: removed", pop_idle (pod_key p) s).
(** [AddStoppingPod] on the function of a stopped pod, if it is known *)
Definition stop_in_func p s : Sched :=
  match funcs s !! FuncKey (pod p) with
  | Some fs => upd_funcs <[FuncKey (pod p) := FuncStatus_AddStoppingPod fs (pod_key p)]> s
  | None => s
  end.
(** [self.nodes.get_mut(nodename).unwrap()] *)
Definition the_node (nodename : string) : M NodeStatus := λ s, (unwrap_opt (nodes s !! nodename), s).
(** [nodeStatus.available.Sub(&resources)?] *)
Definition reserve (nodename : string) (resources : NodeResources) : M unit :=
  ns ← the_node nodename;
  ns ← pure_ (take_resources ns resources);
  put_node nodename ns.
(** [AddStoppingPod] for the stopped pods on their node and on their functions. *)
Definition mark_stopping (nodename : string) (workers : list WorkerPod) : M unit :=
  ns ← the_node nodename;
  _ ← put_node nodename (foldl (λ ns w, NodeStatus_AddStoppingPod ns (pod_key w)) ns workers);
  modify (λ s, foldl (λ s w, stop_in_func w s) s workers).

(** ixshare/src/scheduler/scheduler_handler.rs:5117-5199 [SchedulerHandler::ResumeWorker] *)
Definition ResumeWorker (podKey nodename : string) (alloc : NodeResources) (terminate : list WorkerPod) : M unit :=
  modify (upd_world (push_rpc (ResumePodRpc podKey nodename alloc (pod_key <$> terminate)))).
(** The functions whose key starts with [fpKey], from [range] on. *)
Definition funcs_from s (fpKey : string) : list string :=
  take_while (starts_with fpKey) (range_from fpKey (funcs s)).*1.
(** ixshare/src/scheduler/scheduler_handler.rs:4789-4965 [SchedulerHandler::ResumePod] *)
Definition ResumePod (fpKey : string) (consumer_tenant : option string) : M unit :=
  vec ← gets (λ s, funcs_from s fpKey);
  match vec with
  | [] => pure_ (Err (Share.NotExist ("GetFunc " +:+ fpKey)))
  | _ :: _ :: _ => pure_ (Err (Share.CommonError ("CreateWorker get multiple func for " +:+ fpKey)))
  | [key] =>
      found ← gets (λ s, funcs s !! key);
      match found with
      | None => pure_ (Err (Share.NotExist ("CreateWorker can't find funcpcakge with id " +:+ fpKey)))
      | Some fpStatus =>
          let fp := func fpStatus in
          '(p, terminateWorkers, nodeResource) ← GetBestResumeWorker fp;
          let nodename := pod_node p in
          readyResource ← (λ s, (ReadyResource s (RunningResource (fo_spec (object fp))) fpKey nodename, s));
          let standbyResource := allocResources (pod_spec (pod p)) in
          nodeResource ← pure_ (Share.lift (NodeResources_Add nodeResource standbyResource));
          '(_, resources) ← pure_ (Node_Alloc nodeResource readyResource false);
          _ ← the_node nodename;
          _ ← eachM claim_idle terminateWorkers;
          _ ← modify (upd_world (SetState p WResuming));
          _ ← modify (upd_world (SetConsumer p (consumer_tenant ≫= consumer_of)));
          _ ← modify (λ s, foldl (λ s w, mark_terminating w s) s terminateWorkers);
          _ ← mark_stopping nodename terminateWorkers;
          _ ← reserve nodename resources;
          let podKey := FuncPodKey (tenant fp) (namespace fp) (name fp) (fs_version (fo_spec (object fp)))
                          (pod_id (pod_spec (pod p))) in
          let fpKey := FuncObjectKey (tenant fp) (namespace fp) (name fp) (fs_version (fo_spec (object fp))) in
          time ← clock;
          ns ← the_node nodename;
          _ ← put_node nodename (NodeStatus_AddPendingPod ns (MkPendingPod nodename podKey fpKey resources time));
          ResumeWorker (FuncPodKey (tenant (pod p)) (namespace (pod p)) (funcname (pod_spec (pod p)))
              (fprevision (pod_spec (pod p))) (pod_id (pod_spec (pod p)))) nodename resources terminateWorkers
      end
  end.

(** ** How a request ended *)

(** Gives back what was reserved on a node, and forgets its pending pod. *)
Definition give_back (nodename podKey : string) (resources : NodeResources) : M unit :=
  node ← gets (λ s, nodes s !! nodename);
  match node with
  | None => mret tt
  | Some ns =>
      ns ← pure_ (FreeResource ns resources);
      put_node nodename (set_ns_pods ns (delete podKey (ns_pendingPods ns)) (ns_pods ns) (ns_stoppingPods ns))
  end.
Definition forget_pending (funcid podKey : string) s : Sched :=
  match funcs s !! funcid with
  | Some fs => upd_funcs <[funcid := set_fs_pods fs (fs_pods fs) (delete podKey (fs_pendingPods fs)) (fs_stoppingPods fs)]> s
  | None => s
  end.
Definition unstop_in_func (funcid podKey : string) s : Sched :=
  match funcs s !! funcid with
  | Some fs => upd_funcs <[funcid := (FuncStatus_RemoveStoppingPod fs podKey).2]> s
  | None => s
  end.
(** Puts a pod that was to be stopped back among the idle ones. *)
Definition restore_idle (podKey : string) s : Sched :=
  match pods s !! podKey with
  | None => s
  | Some p =>
      match nodes s !! pod_node p with
      | None => s
      | Some ns =>
          let '(stopping, ns) := NodeStatus_RemoveStoppingPod ns podKey in
          let s := upd_nodes <[pod_node p := ns]> s in
          if stopping then
            unstop_in_func (FuncKey (pod p)) podKey (put_idle podKey (upd_world (SetState p WIdle) s))
          else s
      end
  end.
(** [tx.send(resp).ok()] of a lease reply *)
Definition reply_lease (tx : nat) (resp : LeaseWorkerResp) : M unit :=
  _ ← on_world (send tx (LeaseReply resp)); mret tt.
(** ixshare/src/scheduler/scheduler_handler.rs:1161-1319 [SchedulerHandler::ProcessResumeWorkerComplete] *)
Definition ProcessResumeWorkerComplete (pod_key nodename : string) (result : option RpcError)
    (resources : NodeResources) (terminated_pod_keys : list string) : M unit :=
  match result with
  | None => mret tt
  | Some e =>
      if is_safe_to_restore e then
        _ ← give_back nodename pod_key resources;
        worker ← gets (λ s, pods s !! pod_key);
        match worker with
        | None => pure_ (Panic "Critical error: Cannot restore pod")
        | Some worker =>
            _ ← modify (upd_world (SetState worker WStandby));
            let funcid := FuncKey (pod worker) in
            fs ← gets (λ s, funcs s !! funcid);
            _ ← match fs with
                | None => mret tt
                | Some _ =>
                    _ ← modify (forget_pending funcid pod_key);
                    fs ← (λ s, (unwrap_opt (funcs s !! funcid), s));
                    match PopLeaseWorkerReq fs with
                    | (None, _) => mret tt
                    | (Some (_, tx), fs) =>
                        _ ← put_func funcid fs;
                        reply_lease tx (lease_error "Resume RPC failed (safe to restore)")
                    end
                end;
            modify (λ s, foldl (λ s k, restore_idle k s) s terminated_pod_keys)
        end
      else pure_ (Panic "Critical error: Cannot safely restore pod after ResumeWorker RPC failure")
  end.
End resume.
