(* ===== verification/EvictSpec.v ===== *)
(** * What making room for a pod does
      (ixshare/src/scheduler/scheduler_handler.rs)

    The pods that [TryFreeResources] and [FindNode4Pod] choose to stop: idle
    ones of one node, the least recently used first, as many as it takes, none
    below the [minReplica] of its function. *)

From S2P Require Import Prelude.
From S2P Require Import Wp.
From S2P Require Import BTree.
From S2P Require Import Common.
From S2P Require Import DataObj.
From S2P Require Import Resource.
From S2P Require Import Specs.
From S2P Require Import Worker.
From S2P Require Import SchedState.
From S2P Require Import Evict.
From S2P Require Import Resume.

Section evict_spec.
Context {F L : Type} `{FloatLit F, HL : Lru L, !LruSpec L, SchedConfig}.
Abbreviation Sched := (Sched F L).
Implicit Types (s : Sched) (p q : WorkerPod F) (ws : list (WorkerPod F)).

Definition add_alloc (nr : NodeResources) p : Share.Result NodeResources :=
  Share.lift (NodeResources_Add nr (allocResources (pod_spec (pod p)))).

(** The workers [ws] may be stopped on node [n] for the sake of a pod: they were
    picked from [keys] in order, pass the test [good], leave each of their
    functions its replicas, and [nr] is what the node has once they are gone. *)
Record victims s (good : WorkerPod F → Prop) (keys : list string) (n : string) (nr0 : NodeResources) ws nr : Prop := {
  v_picked : ∃ ks, ks `sublist_of` keys ∧ Forall2 (λ k p, pods s !! k = Some p) ks ws;
  v_node p : p ∈ ws → pod_node p = n ∧ good p;
  v_sum : foldlM add_alloc nr0 ws = Ok nr;
  v_keep i p : ws !! i = Some p →
    (minReplica (pod_policy s p) < Z.of_nat (ReadyPodCount s (FuncKey (pod p))) - Z.of_nat (count_func (FuncKey (pod p)) (take i ws)))%Z;
}.

Lemma victims_none s good keys n nr : victims s good keys n nr [] nr.
Proof.
  split; [|by intros p ?%elem_of_nil|done|done]. exists []. split; [apply sublist_nil_l|constructor].
Qed.
Lemma victims_skip s good keys n nr0 ws nr k :
  victims s good keys n nr0 ws nr → victims s good (keys ++ [k]) n nr0 ws nr.
Proof.
  intros [(ks & Hks & Hp) Hn Hs Hk]. split; try done. exists ks. split; [|done]. by apply sublist_inserts_r.
Qed.
Lemma VerifyMinReplicaPolicy_Ok s p ws :
  VerifyMinReplicaPolicy s p ws = Ok true →
  (minReplica (pod_policy s p) < Z.of_nat (ReadyPodCount s (FuncKey (pod p))) - Z.of_nat (count_func (FuncKey (pod p)) ws))%Z.
Proof.
  unfold VerifyMinReplicaPolicy. intros Hv. inv_ok.
  match goal with H : negb _ = true |- _ => apply negb_true_iff, bool_decide_eq_false in H end. lia.
Qed.
Lemma victims_add s (good : WorkerPod F → Prop) keys n nr0 ws nr nr' k p :
  victims s good keys n nr0 ws nr → pods s !! k = Some p → pod_node p = n → good p →
  VerifyMinReplicaPolicy s p ws = Ok true → add_alloc nr p = Ok nr' →
  victims s good (keys ++ [k]) n nr0 (ws ++ [p]) nr'.
Proof.
  intros [(ks & Hks & Hp) Hn Hs Hk] Hpk Hpn Hg Hv Ha. split.
  - exists (ks ++ [k]). split; [by apply sublist_app|]. apply Forall2_app; [done|by constructor].
  - intros q [Hq| ->%list_elem_of_singleton]%elem_of_app; [by apply Hn|done].
  - rewrite foldlM_app, Hs. simpl. by rewrite Ha.
  - intros i q [Hi|[Hi Hq]]%lookup_app_Some.
    + rewrite take_app_le by (apply lookup_lt_Some in Hi; lia). by apply Hk.
    + apply list_lookup_singleton_Some in Hq as [Hi0 <-]. rewrite take_app_ge by done.
      replace (i - length ws) with 0 by lia. simpl. rewrite app_nil_r. by apply VerifyMinReplicaPolicy_Ok.
Qed.

(** ** [TryFreeResources] *)

(** The keys without a pod. *)
Definition gone_keys s (keys : list string) : Prop := ∀ k, k ∈ keys → pods s !! k = None.
Lemma gone_snoc s keys k : gone_keys s keys → pods s !! k = None → gone_keys s (keys ++ [k]).
Proof. intros Hg Hk k' [?| ->%list_elem_of_singleton]%elem_of_app; auto. Qed.

Lemma free_loop_spec s n req snap l done_ ws miss nr0 nr ws' miss' nr' :
  victims s (λ p, NvidiaRuntime (pod p) = false) done_ n nr0 ws nr → gone_keys s miss →
  free_loop s n req snap l ws miss nr = Ok (ws', miss', nr') →
  victims s (λ p, NvidiaRuntime (pod p) = false) (done_ ++ l) n nr0 ws' nr' ∧ gone_keys s miss'.
Proof.
  revert done_ ws miss nr. induction l as [|k l IH]; intros done_ ws miss nr Hv Hm Hrun; simpl in Hrun.
  { inv_ok. by rewrite app_nil_r. }
  rewrite (cons_middle k done_ l), app_assoc. pose proof (victims_skip _ _ _ _ _ _ _ k Hv) as Hskip.
  destruct (pods s !! k) as [p|] eqn:Hp; [|by eapply IH; [..|exact Hrun]; [done|apply gone_snoc]].
  case_decide as Hn; [by eapply IH|].
  destruct (NvidiaRuntime (pod p)) eqn:Hnv; [by eapply IH|].
  apply bind_Ok in Hrun as ([] & Hkeep & Hrun); simpl in Hrun; [|by eapply IH].
  apply bind_Ok in Hrun as (nr1 & Hnr1 & Hrun). apply bind_Ok in Hrun as (st & Hst & Hrun).
  assert (victims s (λ p, NvidiaRuntime (pod p) = false) (done_ ++ [k]) n nr0 (ws ++ [p]) nr1) as Hadd.
  { eapply victims_add; try done. unfold add_alloc. by destruct (Share.lift _). }
  destruct (AllocState_Ok st); [|by eapply IH]. inv_ok. split; [|done].
  destruct Hadd as [(ks & Hks & ?) ???]. split; try done. exists ks. split; [|done]. by apply sublist_inserts_r.
Qed.

(** Dropping keys that have no pod from the idle list. *)
Lemma foldl_pop_idle_keys s miss k :
  k ∈ lru_keys (idlePods (foldl (λ s k, pop_idle k s) s miss)) ↔ k ∈ lru_keys (idlePods s) ∧ k ∉ miss.
Proof.
  revert s. induction miss as [|k' miss IH]; intros s; simpl; [rewrite elem_of_nil; naive_solver|].
  rewrite IH. unfold pop_idle. simpl. rewrite keys_pop, list_elem_of_filter, elem_of_cons. naive_solver.
Qed.
Lemma foldl_pop_idle_only s miss :
  ∃ l, foldl (λ s k, pop_idle k s) s miss = upd_idlePods (λ _, l) s.
Proof.
  revert s. induction miss as [|k miss IH]; intros s; simpl.
  - exists (idlePods s). by destruct s.
  - destruct (IH (pop_idle k s)) as [l ->]. by exists l.
Qed.
(** A call that at most drops keys without a pod from the idle list. *)
Definition drops_gone {A} (m : sm Sched Share.Error A) s : Prop :=
  ∃ miss, gone_keys s miss ∧ (m s).2 = foldl (λ s k, pop_idle k s) s miss.
Lemma drops_nothing {A} (m : sm Sched Share.Error A) s : (m s).2 = s → drops_gone m s.
Proof. intros Hm. exists []. split; [by intros k ?%elem_of_nil|done]. Qed.

Lemma TryFreeResources_drops n funcId avail req snap s : drops_gone (TryFreeResources n funcId avail req snap) s.
Proof.
  unfold TryFreeResources, drops_gone, mbind, sm_bind.
  destruct (free_loop _ _ _ _ _ _ _ _) as [[[ws miss] nr]|e|w] eqn:Hrun; [|by apply drops_nothing..].
  exists miss. apply (free_loop_spec s n req snap _ [] _ _ avail) in Hrun as [_ Hm];
    [|apply victims_none|by intros k ?%elem_of_nil].
  split; [done|]. simpl. destruct (Node_CanAlloc _ _ _) as [st|e|w]; [|done..]. simpl. by destruct (AllocState_Ok st).
Qed.
Lemma TryFreeResources_Ok n funcId avail req snap s ws nr s' :
  TryFreeResources n funcId avail req snap s = (Ok (ws, nr), s') →
  victims s (λ p, NvidiaRuntime (pod p) = false) (idle_oldest_first s) n avail ws nr ∧
  ∃ st, Node_CanAlloc nr req snap = Ok st ∧ AllocState_Ok st = true.
Proof.
  unfold TryFreeResources, mbind, sm_bind. intros Hrun.
  destruct (free_loop _ _ _ _ _ _ _ _) as [[[ws1 miss] nr1]|e|w] eqn:Hloop; [|done..].
  apply (free_loop_spec s n req snap _ [] _ _ avail) in Hloop as [Hv _];
    [|apply victims_none|by intros k ?%elem_of_nil].
  simpl in Hrun. destruct (Node_CanAlloc _ _ _) as [st|e|w] eqn:Hst; [|done..]. simpl in Hrun.
  destruct (AllocState_Ok st) eqn:Hok; [|done]. unfold mret, sm_ret in Hrun. simplify_eq.
  split; [done|by exists st].
Qed.

(** ** [FindNode4Pod] *)

Abbreviation Candidates := (gmap string (NodeResources * list (WorkerPod F))).
Implicit Types (func : Function F) (ty : FindNodeType) (cand : Candidates).

(** The node has room for the pod once it has [nr]. *)
Definition has_room s func ty (n : string) (nr : NodeResources) : Prop :=
  ∃ req st, pod_needs s func ty nr n = Ok req ∧ Node_CanAlloc nr req (whole_gpu ty) = Ok st ∧ AllocState_Ok st = true.
(** What the loops know of each candidate. *)
Definition cands_ok s func (nodes_ : list string) (keys : list string) cand : Prop :=
  ∀ n nr ws, cand !! n = Some (nr, ws) →
    n ∈ nodes_ ∧ ∃ ns, nodes s !! n = Some ns ∧
      victims s (λ p, FuncKey (pod p) ≠ Function_Id func) keys n (available ns) ws nr.

Lemma first_fit_spec s func ty all l cand found cand' :
  (∀ n, n ∈ l → n ∈ all) → cands_ok s func all [] cand →
  first_fit s func ty l cand = Ok (found, cand') →
  cands_ok s func all [] cand' ∧
  ∀ n nr, found = Some (n, nr) → n ∈ all ∧ ∃ ns, nodes s !! n = Some ns ∧ nr = available ns ∧ has_room s func ty n nr.
Proof.
  revert cand. induction l as [|n l IH]; intros cand Hl Hc Hrun; simpl in Hrun.
  { by inv_ok; simplify_eq. }
  apply bind_Ok in Hrun as (ns & Hns & Hrun).
  assert (nodes s !! n = Some ns) as Hn by (unfold unwrap_opt in Hns; by destruct (nodes s !! n); simplify_eq).
  assert (∀ n, n ∈ l → n ∈ all) as Hl' by (intros; apply Hl; by right).
  destruct (bool_decide _); [by eapply IH|].
  apply bind_Ok in Hrun as (req & Hreq & Hrun). apply bind_Ok in Hrun as (st & Hst & Hrun).
  destruct (AllocState_Ok st) eqn:Hok.
  - inv_ok. simplify_eq. split; [done|]. intros ? ? [= <- <-].
    split; [apply Hl; by left|]. exists ns. repeat split; try done. by exists req, st.
  - eapply IH; [done| |done]. intros n' nr ws [[<- [= <- <-]]|[? ?]]%lookup_insert_Some; [|by apply Hc].
    split; [apply Hl; by left|]. exists ns. split; [done|]. apply victims_none.
Qed.

Lemma evict_loop_spec s func ty all l done_ cand miss found cand' miss' :
  cands_ok s func all done_ cand → gone_keys s miss →
  evict_loop s func ty l cand miss = Ok (found, cand', miss') →
  gone_keys s miss' ∧
  ∀ n nr, found = Some (n, nr) →
    ∃ ns ws, n ∈ all ∧ cand' !! n = Some (nr, ws) ∧ nodes s !! n = Some ns ∧ has_room s func ty n nr ∧
      victims s (λ p, FuncKey (pod p) ≠ Function_Id func) (done_ ++ l) n (available ns) ws nr.
Proof.
  revert done_ cand miss. induction l as [|k l IH]; intros done_ cand miss Hc Hm Hrun; simpl in Hrun.
  { by inv_ok; simplify_eq. }
  rewrite (cons_middle k done_ l), app_assoc.
  assert (cands_ok s func all (done_ ++ [k]) cand) as Hskip.
  { intros n nr ws Hn. destruct (Hc n nr ws Hn) as (? & ns & ? & ?). eauto using victims_skip. }
  destruct (pods s !! k) as [p|] eqn:Hp; [|by eapply IH; [..|exact Hrun]; [done|apply gone_snoc]].
  case_decide as Hf; [by eapply IH|].
  destruct (cand !! nodename (pod_spec (pod p))) as [[nr ws]|] eqn:Hcn; [|by eapply IH].
  apply bind_Ok in Hrun as ([] & Hkeep & Hrun); simpl in Hrun; [|by eapply IH].
  apply bind_Ok in Hrun as (nr1 & Hnr1 & Hrun). apply bind_Ok in Hrun as (req & Hreq & Hrun).
  apply bind_Ok in Hrun as (st & Hst & Hrun).
  destruct (Hc _ _ _ Hcn) as (Hall & ns & Hns & Hv).
  assert (victims s (λ p, FuncKey (pod p) ≠ Function_Id func) (done_ ++ [k]) (nodename (pod_spec (pod p)))
            (available ns) (ws ++ [p]) nr1) as Hadd.
  { eapply victims_add; try done. unfold add_alloc. by destruct (Share.lift _). }
  destruct (AllocState_Ok st) eqn:Hok.
  - inv_ok. simplify_eq. split; [done|]. intros ? ? [= <- <-]. exists ns, (ws ++ [p]).
    rewrite lookup_insert_eq. split_and!; try done; [by exists req, st|].
    destruct Hadd as [(ks & Hks & ?) ???]. split; try done. exists ks. split; [|done]. by apply sublist_inserts_r.
  - eapply IH; [|done|done]. intros n' nr' ws' [[<- [= <- <-]]|[? ?]]%lookup_insert_Some; [by eauto|by apply Hskip].
Qed.

Lemma FindNode4Pod_run func ty nodes_ s :
  drops_gone (FindNode4Pod func ty nodes_) s ∧
  ∀ n ws nr s', FindNode4Pod func ty nodes_ s = (Ok (n, ws, nr), s') →
    ∃ ns, n ∈ nodes_ ∧ nodes s !! n = Some ns ∧ has_room s func ty n nr ∧
      victims s (λ p, FuncKey (pod p) ≠ Function_Id func) (idle_oldest_first s) n (available ns) ws nr.
Proof.
  unfold FindNode4Pod, drops_gone, mbind, sm_bind.
  destruct (first_fit _ _ _ _ _) as [[found cand]|e|w] eqn:Hfit; [|by split; [apply drops_nothing|]..].
  apply (first_fit_spec s func ty (set_elems nodes_)) in Hfit as [Hcand Hfound]; [|done|by intros ???].
  destruct found as [[n nr]|].
  { split; [by apply drops_nothing|]. intros n' ws nr' s' Hret. unfold mret, sm_ret in Hret. simplify_eq.
    destruct (Hfound n' nr' eq_refl) as (Hin & ns & Hns & -> & Hroom).
    exists ns. split_and!; try done; [by apply elem_of_set_elems|apply victims_none]. }
  destruct (evict_loop _ _ _ _ _ _) as [[[found cand'] miss]|e|w] eqn:Hloop; [|by split; [apply drops_nothing|]..].
  apply (evict_loop_spec s func ty (set_elems nodes_) _ []) in Hloop as [Hm Hfound']; [|done|by intros k ?%elem_of_nil].
  clear Hfound. simpl. split.
  - exists miss. split; [done|].
    destruct found as [[n nr]|].
    + simpl. by destruct (cand' !! n) as [[]|].
    + destruct ty; simpl; [done|]. by destruct (SnapshotResource _ _).
  - intros n ws nr s' Hret. destruct found as [[n1 nr1]|].
    + destruct (Hfound' n1 nr1 eq_refl) as (ns & ws1 & Hin & Hc & Hns & Hroom & Hv).
      simpl in Hret. rewrite Hc in Hret. simpl in Hret. unfold mret, sm_ret in Hret. simplify_eq.
      exists ns. split_and!; try done. by apply elem_of_set_elems.
    + destruct ty; simpl in Hret; [done|]. by destruct (SnapshotResource _ _).
Qed.

Lemma GetBestNvidiaRuntimeNode_run fp s :
  drops_gone (GetBestNvidiaRuntimeNode fp) s ∧
  ∀ n ws nr s', GetBestNvidiaRuntimeNode fp s = (Ok (n, ws, nr), s') →
    ∃ ns, nodes s !! n = Some ns ∧ has_room s fp NvidiaRuntimePod n nr ∧
      victims s (λ p, FuncKey (pod p) ≠ Function_Id fp) (idle_oldest_first s) n (available ns) ws nr.
Proof.
  unfold GetBestNvidiaRuntimeNode, drops_gone, mbind, sm_bind, gets. case_decide; [by split; [apply drops_nothing|]|].
  match goal with |- context [FindNode4Pod fp NvidiaRuntimePod ?c s] =>
    destruct (FindNode4Pod_run fp NvidiaRuntimePod c s) as [Hd Hok] end.
  split; [done|]. intros n ws nr s' Hrun. destruct (Hok n ws nr s' Hrun) as (ns & _ & ? & ? & ?). eauto.
Qed.
(** The worker to resume: a standby one of the function, on the node with room. *)
Lemma GetBestResumeWorker_run fp s :
  drops_gone (GetBestResumeWorker fp) s ∧
  ∀ p ws nr s', GetBestResumeWorker fp s = (Ok (p, ws, nr), s') →
    p ∈ GetFuncPodsByKey s (Function_Id fp) ∧ pod_state (pod p) = PStandby ∧ state_of s p = WStandby ∧
    ∃ ns, nodes s !! pod_node p = Some ns ∧ has_room s fp Resume (pod_node p) nr ∧
      victims s (λ q, FuncKey (pod q) ≠ Function_Id fp) (idle_oldest_first s) (pod_node p) (available ns) ws nr.
Proof.
  unfold GetBestResumeWorker, drops_gone, mbind, sm_bind, gets. cbn beta iota.
  case_decide; [by split; [apply drops_nothing|]|]. cbn beta iota. case_decide; [by split; [apply drops_nothing|]|].
  match goal with |- context [FindNode4Pod fp Resume ?c s] =>
    destruct (FindNode4Pod_run fp Resume c s) as [Hd Hok]; unfold drops_gone in Hd;
    destruct (FindNode4Pod fp Resume c s) as [[[[n ws] nr]|e|w] s1] eqn:Hrun end; [|by split..].
  destruct (Hok n ws nr s1 eq_refl) as (ns & _ & Hns & Hroom & Hv). clear Hok.
  simpl in Hd. destruct Hd as (miss & Hm & ->). destruct (foldl_pop_idle_only s miss) as [l Hl].
  cbn beta iota. set (worker := head _). assert (∀ p, worker = Some p →
    p ∈ GetFuncPodsByKey s (Function_Id fp) ∧ pod_state (pod p) = PStandby ∧ state_of s p = WStandby ∧ pod_node p = n) as Hw.
  { intros p Hp. apply head_Some_elem_of, list_elem_of_filter in Hp as [(? & Hst & ?) ?].
    rewrite Hl in Hst. done. }
  split.
  - exists miss. split; [done|]. by destruct worker.
  - intros p ws' nr' s' Hret. destruct worker as [p'|]; [|done]. unfold mret, sm_ret in Hret. simplify_eq.
    destruct (Hw p eq_refl) as (? & ? & ? & <-). eauto 10.
Qed.
End evict_spec.
