(* ===== verification/Start.v ===== *)
(** * Creating pods: snapshots, standby pods, NVIDIA pods
      (ixshare/src/scheduler/scheduler_handler.rs)

    The tasks that start a new pod on a node, the messages that report how its
    creation ended, and the prewarming of functions.  A pod's id comes from the
    id service: the argument [uid] is its answer.  Where the code shuffles a
    list, the argument [shuffle] is the order it is put in. *)

From S2P Require Import Prelude.
From S2P Require Import Text.
From S2P Require Import BTree.
From S2P Require Import Common.
From S2P Require Import DataObj.
From S2P Require Import Resource.
From S2P Require Import Specs.
From S2P Require Import Worker.
From S2P Require Import SchedState.
From S2P Require Import Evict.
From S2P Require Import Resume.

(** The order of the delayed tasks. *)
Definition due_le (a b : Z * SchedTask) : Prop := (a.1 ≤ b.1)%Z.
#[global] Instance due_le_dec : RelDecision due_le.
Proof. intros a b. unfold due_le. apply _. Defined.

Section start.
Context {F L : Type} `{FloatLit F, Lru L, SchedConfig}.
Abbreviation WorkerPod := (WorkerPod F).
Abbreviation NodeStatus := (NodeStatus F).
Abbreviation Sched := (Sched F L).
Abbreviation Function := (Function F).
Abbreviation M := (sm Sched Share.Error).
Implicit Types (s : Sched) (p : WorkerPod).

(** [func.Version()] *)
Definition Version (func : Function) : Z := fs_version (fo_spec (object func)).
(** The key of the pod with number [id] of a function. *)
Definition new_pod_key (func : Function) (id : Z) : string :=
  FuncPodKey (tenant func) (namespace func) (name func) (Version func) (pretty id).
(** ixshare/src/scheduler/scheduler_handler.rs:4969-5108 [SchedulerHandler::StartWorker] *)
Definition StartWorker (uid : Share.Result Z) (func : Function) (allocResources resourceQuota : NodeResources)
    (createType : CreatePodType) (terminatePods : list WorkerPod) (nodename : string) : M Z :=
  id ← pure_ uid;
  let id := cast u64 id in
  _ ← modify (upd_world (push_rpc (CreatePodRpc
        (FuncObjectKey (tenant func) (namespace func) (name func) (Version func)) nodename (new_pod_key func id)
        createType allocResources resourceQuota (pod_key <$> terminatePods))));
  mret id.

(** What a new pod needs that takes whole GPUs on the node. *)
Definition snapshot_needs (func : Function) (ns : NodeStatus) : Share.Result Resources :=
  SnapshotResource (fo_spec (object func)) (cast u64 (nr_maxContextCnt (NodeResources_GPUResource (node_resources (object (node ns)))))).
(** Claims the pods to stop, then takes the resources off the node. *)
Definition evict_and_reserve (func : Function) (nodename : string) (nodeResources : NodeResources)
    (terminateWorkers : list WorkerPod) : M NodeResources :=
  _ ← eachM (λ w, _ ← claim_idle w; modify (mark_terminating w)) terminateWorkers;
  _ ← mark_stopping nodename terminateWorkers;
  ns ← the_node nodename;
  snapshotResource ← pure_ (snapshot_needs func ns);
  '(_, resources) ← pure_ (Node_Alloc nodeResources snapshotResource true);
  _ ← reserve nodename resources;
  mret resources.
Definition add_pending (nodename : string) (pending : PendingPod) : M unit :=
  ns ← the_node nodename; put_node nodename (NodeStatus_AddPendingPod ns pending).
(** [self.funcs.get_mut(funcId).unwrap().AddPendingPod(..)] *)
Definition add_func_pending (funcId : string) (pending : PendingPod) : M unit :=
  fs ← (λ s, (unwrap_opt (funcs s !! funcId), s)); put_func funcId (FuncStatus_AddPendingPod fs pending).

(** ixshare/src/scheduler/scheduler_handler.rs:4088-4199 [SchedulerHandler::CreateOneNividaPod] *)
Definition CreateOneNividaPod (uid : Share.Result Z) (funcId : string) : M unit :=
  fs ← gets (λ s, funcs s !! funcId);
  match fs with
  | None => pure_ (Err (Share.NotExist ("CreateWorker can't find funcpcakge with id " +:+ funcId)))
  | Some fpStatus =>
      let func := func fpStatus in
      '(nodename, terminateWorkers, nodeResources) ← GetBestNvidiaRuntimeNode func;
      resources ← evict_and_reserve func nodename nodeResources terminateWorkers;
      id ← StartWorker uid func resources resources CreateNormal terminateWorkers nodename;
      time ← clock;
      add_pending nodename (MkPendingPod nodename (new_pod_key func id) funcId resources time)
  end.

(** Whether a snapshot is on the node or on its way. *)
Definition snapshot_known s (funcId nodename : string) : bool :=
  bool_decide (is_Some (snapshots s !! funcId ≫= λ ss, ss !! nodename))
  || bool_decide (nodename ∈ default ∅ (pendingsnapshots s !! funcId)).
(** Frees what is missing on the node; a busy node is tried again later. *)
Definition make_room (funcId nodename : string) (available : NodeResources) (reqResource : Resources)
  : M (list WorkerPod * NodeResources) :=
  state ← pure_ (Node_CanAlloc available reqResource true);
  if AllocState_Ok state then mret ([], available)
  else λ s,
    match TryFreeResources nodename funcId available reqResource true s with
    | (Err (Share.SchedulerNoEnoughResource msg), s) =>
        (_ ← modify (SetSnapshotStatus funcId nodename (SWaiting "Resource is busy"));
         _ ← AddSnapshotTask nodename funcId;
         pure_ (Err (Share.SchedulerNoEnoughResource msg))) s
    | r => r
    end.
(** ixshare/src/scheduler/scheduler_handler.rs:4201-4443 [SchedulerHandler::TryCreateSnapshotOnNode] *)
Definition TryCreateSnapshotOnNode (uid : Share.Result Z) (funcId nodename : string) : M unit :=
  known ← gets (λ s, snapshot_known s funcId nodename);
  fs ← gets (λ s, funcs s !! funcId);
  failed ← gets (λ s, bool_decide (fd_state ∘ object <$> funcstatus s !! funcId = Some Fail));
  ns ← gets (λ s, nodes s !! nodename);
  match known, fs, failed, ns with
  | true, _, _, _ | _, None, _, _ | _, _, true, _ | _, _, _, None => mret tt
  | false, Some fpStatus, false, Some nodeStatus =>
      let func := func fpStatus in
      if negb (blobStoreEnable (object (node nodeStatus))) && Needblob (fs_standby (fo_spec (object func))) then
        _ ← modify (SetSnapshotStatus funcId nodename (SCannot "NodAgent doesn't support blob"));
        pure_ (Err (Share.SchedulerNoEnoughResource "NodAgent doesn't support blob"))
      else
      ready ← gets (λ s, IsNodeReady s nodename);
      if negb ready then
        _ ← AddSnapshotTask nodename funcId;
        pure_ (Err (Share.SchedulerNoEnoughResource "NodAgent node ready"))
      else
      reqResource ← pure_ (snapshot_needs func nodeStatus);
      state ← pure_ (Node_CanAlloc (total nodeStatus) reqResource true);
      if negb (AllocState_Ok state) then
        _ ← modify (SetSnapshotStatus funcId nodename (SCannot "has no enough resource to run "));
        pure_ (Err (Share.SchedulerNoEnoughResource
                 ("Node " +:+ nodename +:+ " has no enough resource to run " +:+ funcId)))
      else
      '(terminateWorkers, nodeResources) ← make_room funcId nodename (available nodeStatus) reqResource;
      resources ← evict_and_reserve func nodename nodeResources terminateWorkers;
      id ← (λ s, match StartWorker uid func resources resources CreateSnapshot terminateWorkers nodename s with
                 | (Err e, s) =>
                     (_ ← modify (SetSnapshotStatus funcId nodename (SScheduleFail "snapshoting sched fail "));
                      _ ← AddSnapshotTask nodename funcId;
                      pure_ (Err e)) s
                 | r => r
                 end);
      _ ← modify (SetSnapshotStatus funcId nodename SScheduled);
      time ← clock;
      let pendingPod := MkPendingPod nodename (new_pod_key func id) funcId resources time in
      _ ← add_pending nodename pendingPod;
      _ ← add_func_pending funcId pendingPod;
      modify (AddPendingSnapshot funcId nodename)
  end.

(** ** Standby pods *)

(** The functions with a ready snapshot on the node and how many standby pods
    they have there, or [None] when a pod of the node is in transition. *)
Definition standby_counts s (nodename : string) : option (gmap string Z) :=
  let funcPodCnt : gmap string Z := omap (λ m : gmap string ContainerSnapshot,
    match m !! nodename with Some snapshot => if decide (cs_state snapshot = SnapshotReady) then Some 0%Z else None | None => None end)
    (snapshots s) in
  let here := filter (λ p, pod_node p = nodename) (values (pods s)) in
  if existsb (λ p, BlockStandby (pod_state (pod p))) here then None
  else Some (foldl (λ cnt p,
    if decide (pod_state (pod p) ≠ PStandby ∧ pod_state (pod p) ≠ PPullingImage) then cnt
    else match cnt !! FuncKey (pod p) with None => cnt | Some c => <[FuncKey (pod p) := (c + 1)%Z]> cnt end)
    funcPodCnt here).
Definition func_policy s (func : Function) : FuncPolicySpec F :=
  FuncPolicy s (tenant func) (namespace func) (name func) (fs_policy (fo_spec (object func))).
(** Functions that lack standby pods, and those with too many and by how much. *)
Definition standby_wanted s (cnt : gmap string Z) : list string * list (string * Z) :=
  foldl (λ '(need, excess) '(funcId, c),
      match funcs s !! funcId with
      | None => (need, excess)
      | Some f =>
          let want := standbyPerNode (func_policy s (func f)) in
          if decide (c < want)%Z then (need ++ [funcId], excess)
          else if decide (want < c)%Z then (need, excess ++ [(funcId, (c - want)%Z)]) else (need, excess)
      end) ([], []) (entries cnt).
(** Stops pods one by one; a pod that cannot be stopped is skipped. *)
Definition stop_quietly (p : WorkerPod) : M unit := λ s,
  match StopWorker (pod p) s with (Panic why, s) => (Panic why, s) | (_, s) => (Ok tt, s) end.
Definition drop_excess (nodename : string) (q : string * Z) : M unit := λ s,
  let standby_pods := filter (λ p, FuncKey (pod p) = q.1 ∧ pod_node p = nodename ∧ pod_state (pod p) = PStandby)
                        (values (pods s)) in
  eachM stop_quietly (take (Z.to_nat q.2) standby_pods) s.
(** ixshare/src/scheduler/scheduler_handler.rs:4475-4706 [SchedulerHandler::TryAdjustStandbyPodsOnNode] *)
Definition TryAdjustStandbyPodsOnNode (shuffle : list string → list string) (uid : Share.Result Z) (nodename : string)
  : M unit :=
  ns ← gets (λ s, nodes s !! nodename);
  match ns with
  | None => mret tt
  | Some ns =>
      _ ← modify (AddStandbyTask nodename);
      ready ← gets (λ s, IsNodeReady s nodename);
      if bool_decide (ns_pendingPods ns ≠ ∅) || negb ready then mret tt else
      cnt ← gets (λ s, standby_counts s nodename);
      match cnt with
      | None => mret tt
      | Some cnt =>
          '(needStandby, excessStandby) ← gets (λ s, standby_wanted s cnt);
          _ ← eachM (drop_excess nodename) excessStandby;
          if decide (needStandby = []) then mret tt else
          funcId ← pure_ (unwrap_opt (head (shuffle needStandby)));
          f ← gets (λ s, funcs s !! funcId);
          match f with
          | None => mret tt
          | Some f =>
              let function := func f in
              standbyResource ← (λ s, (StandyResource s funcId nodename, s));
              ns ← the_node nodename;
              '(ns, alloc) ← pure_ (AllocResource ns standbyResource false);
              _ ← put_node nodename ns;
              let resourceQuota := NodeStatus_ReadyResourceQuota ns (fs_resources (fo_spec (object function))) in
              id ← (λ s, match StartWorker uid function alloc resourceQuota CreateRestore [] nodename s with
                         | (Err e, s) =>
                             match nodes s !! nodename with
                             | None => (Err e, s)
                             | Some ns => (ns ← pure_ (FreeResource ns alloc); _ ← put_node nodename ns; pure_ (Err e)) s
                             end
                         | r => r
                         end);
              time ← clock;
              let pendingPod := MkPendingPod nodename (new_pod_key function id) funcId alloc time in
              _ ← add_pending nodename pendingPod;
              add_func_pending funcId pendingPod
          end
      end
  end.

(** ** How a creation ended *)

(** ixshare/src/scheduler/scheduler_handler.rs:1414-1546 [SchedulerHandler::ProcessStartWorkerComplete] *)
Definition ProcessStartWorkerComplete (funcid nodename podkey : string) (create_type : CreatePodType)
    (result : option RpcError) (resources : NodeResources) (terminated_pod_keys : list string) : M unit :=
  match result with
  | None => mret tt
  | Some e =>
      if is_safe_to_restore e then
        _ ← give_back nodename podkey resources;
        _ ← modify (forget_pending funcid podkey);
        _ ← modify (if decide (create_type = CreateSnapshot) then RemovePendingSnapshot funcid nodename else id);
        _ ← modify (λ s, foldl (λ s k, restore_idle k s) s terminated_pod_keys);
        if decide (create_type = CreateSnapshot) then AddSnapshotTask nodename funcid else mret tt
      else pure_ (Panic "StartWorker RPC failed - not safe to restore, cleanup may be needed")
  end.

(** Puts a stopped pod back among the idle ones and charges its request again. *)
Definition restore_and_charge (podKey : string) : M unit := λ s,
  match pods s !! podKey with
  | None => (Ok tt, s)
  | Some p =>
      let s := match nodes s !! pod_node p with
               | Some ns => upd_nodes <[pod_node p := (NodeStatus_RemoveStoppingPod ns podKey).2]> s
               | None => s
               end in
      let s := put_idle podKey (unstop_in_func (FuncKey (pod p)) podKey s) in
      match nodes s !! pod_node p with
      | None => (Ok tt, s)
      | Some ns =>
          match AllocResource ns (reqResources (pod_spec (pod p))) false with
          | Ok (ns, _) => (Ok tt, upd_nodes <[pod_node p := ns]> s)
          | Err _ => (Ok tt, s)
          | Panic why => (Panic why, s)
          end
      end
  end.
(** ixshare/src/scheduler/scheduler_handler.rs:2182-2256 [SchedulerHandler::ProcessCleanupDuplicateSnapshot] *)
Definition ProcessCleanupDuplicateSnapshot (funcid nodename podkey : string) (resources : NodeResources)
    (terminated_pod_keys : list string) : M unit :=
  _ ← modify (RemovePendingSnapshot funcid nodename);
  _ ← give_back nodename podkey resources;
  _ ← modify (forget_pending funcid podkey);
  eachM restore_and_charge terminated_pod_keys.

(** ** Prewarming *)

(** [.await.ok()]: errors are dropped, a panic is not *)
Definition quiet {A} (m : M A) : M unit := λ s,
  match m s with (Panic why, s) => (Panic why, s) | (_, s) => (Ok tt, s) end.
(** Whether a call returned [Ok]. *)
Definition succeeds {A} (m : M A) : M bool := λ s,
  match m s with (Panic why, s) => (Panic why, s) | (Err _, s) => (Ok false, s) | (Ok _, s) => (Ok true, s) end.
(** ixshare/src/scheduler/scheduler_handler.rs:4709-4756 [SchedulerHandler::ProcessAddFunc]: whether a pod was prewarmed *)
Definition ProcessAddFunc (uid : Share.Result Z) (funcid : string) : M bool :=
  waiting ← gets (λ s, bool_decide (is_Some (funcPods s !! funcid)));
  fs ← gets (λ s, funcs s !! funcid);
  match waiting, fs with
  | true, _ | _, None => mret false
  | false, Some fpStatus =>
      let func := func fpStatus in
      match fo_state (fo_status (object func)) with
      | Fail => mret false
      | Normal =>
          policy ← gets (λ s, func_policy s func);
          nvidia ← gets (λ s, Z.of_nat (NvidiaRuntimePodCount s funcid));
          _ ← (if decide (nvidia < nvidiaReplica policy)%Z then quiet (CreateOneNividaPod uid funcid) else mret tt);
          ready ← gets (λ s, Z.of_nat (ReadyPodCount s funcid));
          if decide (ready < minReplica policy)%Z then
            succeeds (ResumePod funcid None)
          else mret false
      end
  end.
(** ixshare/src/scheduler/scheduler_handler.rs:3821-3834 [SchedulerHandler::RefreshScheduling], with the order [shuffle]
    puts the functions in and the ids [uids] it is given *)
Definition RefreshScheduling (shuffle : list string → list string) (uids : string → Share.Result Z) : M unit :=
  funcids ← gets (λ s, shuffle (keys (funcs s)));
  (fix go (l : list string) : M unit :=
     match l with
     | [] => mret tt
     | fpId :: l => warmed ← ProcessAddFunc (uids fpId) fpId; if (warmed : bool) then mret tt else go l
     end) funcids.
(** ixshare/src/scheduler/scheduler_handler.rs:3852-3876 [SchedulerHandler::InitSnapshotTask] *)
Definition InitSnapshotTask : M unit :=
  funcIds ← gets (λ s, keys (funcs s));
  nodes_ ← gets (λ s, keys (nodes s));
  eachM (λ funcId, eachM (λ nodename,
    known ← gets (λ s, snapshot_known s funcId nodename);
    if (known : bool) then mret tt else AddSnapshotTask nodename funcId) nodes_) funcIds.
(** ixshare/src/scheduler/scheduler_handler.rs:3919-3956 [SchedulerHandler::ProcessTask] *)
Definition ProcessTask (shuffle : list string → list string) (uid : Share.Result Z) (task : SchedTask) : M unit :=
  match task with
  | AddNodeTask nodename => modify (schedule_delayed_task (3 * second) (DelayedInitNode nodename))
  | DelayedInitNode nodename =>
      funcIds ← gets (λ s, keys (funcs s));
      _ ← eachM (AddSnapshotTask nodename) funcIds;
      modify (AddStandbyTask nodename)
  | AddFuncTask funcId =>
      nodes_ ← gets (λ s, keys (nodes s));
      eachM (λ nodename, AddSnapshotTask nodename funcId) nodes_
  | SnapshotTask funcId nodename => quiet (TryCreateSnapshotOnNode uid funcId nodename)
  | NvidiaPodTask funcId => quiet (CreateOneNividaPod uid funcId)
  | StandbyTask nodename => quiet (TryAdjustStandbyPodsOnNode shuffle uid nodename)
  | RefreshSnapshot | RemoveSnapshotFromNode_ _ _ => mret tt
  end.
(** ixshare/src/scheduler/scheduler_handler.rs:964-974 [SchedulerHandler::drain_due_delayed_tasks]: the tasks that are
    due move to the queue, the earliest first (of two due at the same time, the
    one scheduled first) *)
Definition drain_due_delayed_tasks : M unit := λ s,
  let due := filter (λ q, q.1 ≤ now (world s))%Z (delayed_tasks s) in
  let s := upd_delayed_tasks (filter (λ q, ¬ q.1 ≤ now (world s))%Z) s in
  eachM (λ q, AddTask q.2) (merge_sort due_le due) s.
End start.
