(* ===== verification/Requests.v ===== *)
(** * Requests of gateways (ixshare/src/scheduler/scheduler_handler.rs)

    Leasing a worker, returning it, killing a pod, connecting, staying alive. *)

From S2P Require Import Prelude.
From S2P Require Import Text.
From S2P Require Import BTree.
From S2P Require Import Common.
From S2P Require Import DataObj.
From S2P Require Import Resource.
From S2P Require Import Specs.
From S2P Require Import Worker.
From S2P Require Import SchedState.
From S2P Require Import Evict.
From S2P Require Import Resume.
From S2P Require Import Start.

(** [{:?}] of the error of a missing pod, without the quotes *)
Definition debug (e : Share.Error) : string :=
  match e with Share.NotExist msg => "NotExist(" +:+ msg +:+ ")" | _ => "Error" end.

Section requests.
Context {F L : Type} `{FloatLit F, Lru L, SchedConfig}.
Abbreviation WorkerPod := (WorkerPod F).
Abbreviation Sched := (Sched F L).
Abbreviation M := (sm Sched Share.Error).
Implicit Types (s : Sched) (p : WorkerPod).

(** [tx.send(resp).unwrap()] *)
Definition answer (tx : nat) (resp : LeaseWorkerResp) : M unit := on_world (send_unwrap tx (LeaseReply resp)).

(** ixshare/src/scheduler/scheduler_handler.rs:4769-4787 [SchedulerHandler::PushLeaseWorkerReq] *)
Definition PushLeaseWorkerReq (fpKey : string) (req : LeaseWorkerReq) (tx : nat) : M unit := λ s,
  match funcs s !! fpKey with
  | None => (Err (Share.NotExist ("CreateWorker can't find funcpcakge with id " +:+ fpKey)), s)
  | Some fpStatus => put_func fpKey (FuncStatus_PushLeaseWorkerReq fpStatus req tx (now (world s))) s
  end.

(** [pod.object.status.state == PodState::Ready && worker.State().IsIdle()] *)
Definition leasable s p : bool := bool_decide (pod_state (pod p) = PReady) && IsIdle (state_of s p).
(** Hands an idle worker to a gateway. *)
Definition lease_idle (req : LeaseWorkerReq) (tx : nat) (worker : WorkerPod) : M unit :=
  _ ← on_world (SetWorking worker (lq_gateway_id req));
  _ ← modify (upd_world (SetConsumer worker (consumer_of (lq_consumer_tenant req))));
  _ ← claim_idle worker;
  let spec := pod_spec (pod worker) in
  if decide (runtime spec ≠ InferX) then
    ipaddr ← pure_ (unwrap (IpAddress_FromString (host_ip spec)));
    answer tx (MkLeaseWorkerResp "" (pod_id spec) ipaddr true ipaddr (host_port spec) (NvidiaRuntime (pod worker)))
  else
    peer ← (λ s, (LookforPeer (peer_mgr (world s)) (ipAddr spec), s));
    _ ← on_world (Inc (nodename spec) (gpu_count worker));
    answer tx (grant worker peer true).
(** ixshare/src/scheduler/scheduler_handler.rs:1729-1927 [SchedulerHandler::ProcessLeaseWorkerReq] *)
Definition ProcessLeaseWorkerReq (req : LeaseWorkerReq) (tx : nat) : M unit :=
  let effective_tenant := EffectiveTenant req in
  let funcname := FuncObjectKey (lq_tenant req) (lq_namespace req) (lq_funcname req) (lq_fprevision req) in
  fs ← gets (λ s, funcs s !! funcname);
  match fs with
  | None =>
      let msg := "ProcessLeaseWorkerReq can't find func with id " +:+ funcname in
      _ ← answer tx (lease_error msg); pure_ (Err (Share.NotExist msg))
  | Some fpStatus =>
      let func := func fpStatus in
      let req_gpu_count := gr_gpuCount (rs_gpu (RunningResource (fo_spec (object func)))) in
      over ← (if TenantIsGpuCapExempt effective_tenant then mret false
              else
                active_gpu ← (λ s, (TenantActiveGpu s effective_tenant, s));
                max_gpu ← gets (λ s, TenantGpuLimit s effective_tenant);
                (* saturating_add *)
                mret (bool_decide (max_gpu < Z.min (ty_max u64) (active_gpu + req_gpu_count))%Z));
      if (over : bool) then
        answer tx (lease_error ("ProcessLeaseWorkerReq tenant " +:+ effective_tenant +:+ " exceed max_gpu limit "))
      else
      worker ← gets (λ s, head (filter (λ p, leasable s p)
                 (GetFuncPods s (lq_tenant req) (lq_namespace req) (lq_funcname req) (lq_fprevision req))));
      match worker with
      | Some worker => lease_idle req tx worker
      | None =>
          policy ← gets (λ s, func_policy s func);
          readyCnt ← gets (λ s, Z.of_nat (ReadyPodCount s funcname));
          if decide (maxReplica policy ≤ readyCnt)%Z then
            let msg := "ProcessLeaseWorkerReq can't create pod for func " +:+ funcname in
            _ ← answer tx (lease_error msg); pure_ (Err (Share.NotExist msg))
          else
            resumed ← succeeds (ResumePod funcname (Some effective_tenant));
            if (resumed : bool) then PushLeaseWorkerReq funcname req tx
            else answer tx (lease_error "Failed to resume pod: ")
      end
  end.

(** ixshare/src/scheduler/scheduler_handler.rs:1929-2038 [SchedulerHandler::ProcessReturnWorkerReq] *)
Definition ProcessReturnWorkerReq (req : ReturnWorkerReq) (tx : nat) : M unit :=
  let w := rq_worker req in
  found ← gets (λ s, GetFuncPod s (wi_tenant w) (wi_namespace w) (wi_funcname w) (wi_fprevision w) (wi_id w));
  match found with
  | Err e => on_world (send_unwrap tx (ReturnReply (debug e)))
  | Panic why => pure_ (Panic why)
  | Ok worker =>
      _ ← on_world (Dec (nodename (pod_spec (pod worker))) (gpu_count worker));
      state ← gets (λ s, state_of s worker);
      _ ← (if failworker req then
             if decide (state = WTerminating) then mret tt
             else _ ← modify (mark_terminating worker); quiet (StopWorker (pod worker))
           else
             if decide (state = WTerminating) then mret tt
             else _ ← modify (upd_world (SetIdle worker)); modify (put_idle (pod_key worker)));
      on_world (send_unwrap tx (ReturnReply ""))
  end.

(** ixshare/src/scheduler/scheduler_handler.rs:2040-2102 [SchedulerHandler::ProcessKillPod] *)
Definition ProcessKillPod (req : WorkerId) : M KillPodResp :=
  let pod_key := FuncPodKey (wi_tenant req) (wi_namespace req) (wi_funcname req) (wi_fprevision req) (wi_id req) in
  found ← gets (λ s, pods s !! pod_key);
  match found with
  | None => mret (MkKillPodResp ("pod not found: " +:+ pod_key) KillNotFound)
  | Some p =>
      state ← gets (λ s, state_of s p);
      match state with
      | WIdle =>
          _ ← modify (pop_idle pod_key);
          ok ← succeeds (StopWorker (pod p));
          if (ok : bool) then _ ← modify (mark_terminating p); mret (MkKillPodResp "" KillOk)
          else _ ← modify (put_idle pod_key); mret (MkKillPodResp "" KillInternal)
      | WStandby | WWorking _ =>
          ok ← succeeds (StopWorker (pod p));
          if (ok : bool) then _ ← modify (mark_terminating p); mret (MkKillPodResp "" KillOk)
          else mret (MkKillPodResp "" KillInternal)
      | WTerminating => mret (MkKillPodResp "pod is already terminating" KillInvalidState)
      | WInit | WResuming =>
          mret (MkKillPodResp ("pod " +:+ pod_key +:+ " is not in a killable state: ") KillInvalidState)
      end
  end.
(** ixshare/src/scheduler/scheduler_handler.rs:1369-1412 [SchedulerHandler::ProcessStopWorkerComplete] *)
Definition ProcessStopWorkerComplete (pod_key : string) (result : option RpcError) : M unit := λ s,
  match terminating_pods s !! pod_key with
  | None => (Ok tt, s)
  | Some meta =>
      match (match result with None => Ok 0%Z | Some _ => chk u32 (stuck_retry_count meta + 1) end) with
      | Ok n => (Ok tt, upd_terminating_pods <[pod_key := MkTerminatingMeta (since meta) n]> s)
      | Err e => (Err e, s)
      | Panic why => (Panic why, s)
      end
  end.

(** ** Gateways *)

(** ixshare/src/scheduler/scheduler_handler.rs:1105-1110 [SchedulerHandler::ProcessRefreshGateway] *)
Definition ProcessRefreshGateway (gatewayId : Z) : M unit := λ s,
  (Ok tt, upd_gateways <[gatewayId := now (world s)]> s).
(** A worker of a gateway that is gone becomes idle. *)
Definition release_if (gone : gset Z) (p : WorkerPod) : M unit :=
  state ← gets (λ s, state_of s p);
  match state with
  | WWorking gatewayId =>
      if decide (gatewayId ∈ gone) then
        _ ← on_world (Dec (nodename (pod_spec (pod p))) (gpu_count p));
        _ ← modify (upd_world (SetIdle p));
        modify (put_idle (pod_key p))
      else mret tt
  | _ => mret tt
  end.
(** ixshare/src/scheduler/scheduler_handler.rs:1548-1607 [SchedulerHandler::ProcessGatewayTimeout] *)
Definition ProcessGatewayTimeout : M unit :=
  gone ← gets (λ s, dom (filter (λ q, 4000 * 1000000 < Z.max 0 (now (world s) - q.2))%Z (gateways s)));
  if decide (gone = ∅) then mret tt else
  _ ← modify (upd_gateways (filter (λ q, q.1 ∉ gone)));
  pods ← gets (λ s, values (pods s));
  eachM (release_if gone) pods.

(** The workers a gateway says it holds: those that are known, or [None] when
    one of them was given to someone else. *)
Fixpoint held s (gatewayId : Z) (workers : list WorkerId) : option (list WorkerPod) :=
  match workers with
  | [] => Some []
  | w :: workers =>
      match GetFuncPod s (wi_tenant w) (wi_namespace w) (wi_funcname w) (wi_fprevision w) (wi_id w) with
      | Ok p =>
          if decide (state_of s p ≠ WIdle ∧ state_of s p ≠ WWorking gatewayId) then None
          else (p ::.) <$> held s gatewayId workers
      | _ => held s gatewayId workers
      end
  end.
(** ixshare/src/scheduler/scheduler_handler.rs:1629-1693 [SchedulerHandler::ProcessConnectReq] *)
Definition ProcessConnectReq (req : ConnectReq) (tx : nat) : M bool :=
  ready ← gets listDone;
  if negb ready then
    _ ← on_world (send tx (ConnectReply "Scheduler still initializing, please retry")); mret false
  else
  pods ← gets (λ s, held s (cq_gateway_id req) (cq_workers req));
  match pods with
  | None => _ ← on_world (send_unwrap tx (ConnectReply "ProcessConnectReq the leasing worker  has been reassigned")); mret false
  | Some pods =>
      _ ← eachM (λ p, _ ← on_world (SetWorking p (cq_gateway_id req)); modify (pop_idle (pod_key p))) pods;
      _ ← on_world (send tx (ConnectReply ""));
      mret true
  end.
(** ixshare/src/scheduler/scheduler_handler.rs:1718-1727 [SchedulerHandler::CompleteWarmupAfterConnect] *)
Definition CompleteWarmupAfterConnect (shuffle : list string → list string) (uids : string → Share.Result Z) : M unit :=
  complete ← gets warmupComplete;
  if (complete : bool) then mret tt else
  _ ← modify (upd_warmupComplete (λ _, true));
  _ ← RefreshScheduling shuffle uids;
  InitSnapshotTask.
(** ixshare/src/scheduler/scheduler_handler.rs:1697-1716 [SchedulerHandler::CheckAndCompleteWarmup] *)
Definition CheckAndCompleteWarmup (shuffle : list string → list string) (uids : string → Share.Result Z) : M unit := λ s,
  match warmupComplete s, warmupStartTime s with
  | false, Some start_time =>
      if decide (5 * second < Z.max 0 (now (world s) - start_time))%Z
      then CompleteWarmupAfterConnect shuffle uids s else (Ok tt, s)
  | _, _ => (Ok tt, s)
  end.
(** ixshare/src/scheduler/scheduler_handler.rs:5568-5581 [SchedulerHandler::ReconcileAllStuckLeaseRequests] *)
Definition ReconcileAllStuckLeaseRequests (timeout_ms : Z) : M nat := λ s,
  let r := (λ fs, ReconcileStuckLeaseRequests fs (now (world s)) timeout_ms) <$> funcs s in
  (Ok (sum_list (values (fst <$> r))), upd_funcs (λ _, snd <$> r) s).
End requests.
