(* ===== verification/Events.v ===== *)
(** * Events of pods, functions, nodes and snapshots
      (ixshare/src/scheduler/scheduler_handler.rs)

    What the scheduler does when the informer reports a change.  A pod may be
    reported before its node or function: it waits in [nodePods] or [funcPods]. *)

From S2P Require Import Prelude.
From S2P Require Import Text.
From S2P Require Import BTree.
From S2P Require Import Common.
From S2P Require Import DataObj.
From S2P Require Import Resource.
From S2P Require Import Specs.
From S2P Require Import Worker.
From S2P Require Import Billing.
From S2P Require Import BiIndex.
From S2P Require Import SchedState.
From S2P Require Import Evict.
From S2P Require Import Resume.
From S2P Require Import Start.
From S2P Require Import Requests.

(** The state service as [RemovePod] uses it: whether a connection could be
    made, and the answers to the successive [Update] and [Get] calls. *)
Record StatusClient := MkStatusClient {
  sc_connected : bool;
  sc_Update : nat → Share.Result unit;
  sc_Get : nat → Share.Result (option FunctionStatus);
}.

(** ixshare/src/scheduler/scheduler_handler.rs:809-818 [is_snapshot_pod_finished] *)
Definition is_snapshot_pod_finished (state : PodState) : bool :=
  match state with PSnapshoted | PTerminating | PTerminated | PCleanup | PDeleted => true | _ => false end.

Definition IsWorking (st : WorkerPodState) : bool := match st with WWorking _ => true | _ => false end.

(** [cnt += 1], and [Fail] from the third failure on *)
Definition count_failure (status : FunctionStatus) : Share.Result FunctionStatus :=
  let d := object status in
  n ← chk u64 (fd_snapshotingFailureCnt d + 1)%Z;
  Ok (with_object status (MkFunctionStatusDef (fd_version d) (fd_published d)
        (if decide (3 ≤ n)%Z then Fail else fd_state d) n (fd_resumingFailureCnt d))).

Section events.
Context {F L : Type} `{FloatLit F, Lru L, SchedConfig}.
Abbreviation FuncPod := (FuncPod F).
Abbreviation WorkerPod := (WorkerPod F).
Abbreviation NodeStatus := (NodeStatus F).
Abbreviation Sched := (Sched F L).
Abbreviation Function := (Function F).
Abbreviation M := (sm Sched Share.Error).
Implicit Types (s : Sched) (p : WorkerPod).

(** A billing call at the present time. *)
Definition bill_now (f : Z → Billing → Share.Result Billing) : M unit := λ s,
  match f (now (world s)) (billing s) with
  | Ok b => (Ok tt, upd_billing (λ _, b) s)
  | Err e => (Err e, s)
  | Panic why => (Panic why, s)
  end.
Definition start_standby (funckey : string) : M unit := λ s,
  bill_now (λ now, start_standby_billing uuid now funckey (func <$> funcs s !! funckey)) s.

(** ** Pods *)

(** Files a pod under a key that is not known yet. *)
Definition park (key podKey : string) p (m : gmap string (gmap string WorkerPod)) : gmap string (gmap string WorkerPod) :=
  <[key := <[podKey := p]> (default ∅ (m !! key))]> m.
Definition new_worker (pod : FuncPod) : M WorkerPod :=
  on_world (λ w, let '(p, w) := WorkerPod_New pod w in (Ok p, w)).

(** ixshare/src/scheduler/scheduler_handler.rs:5750-5808 [SchedulerHandler::AddPod] *)
Definition AddPod (pod : FuncPod) : M unit :=
  let podKey := PodKey pod in
  let nodename := nodename (pod_spec pod) in
  let fpKey := FuncKey pod in
  boxPod ← new_worker pod;
  fresh ← gets (λ s, bool_decide (pods s !! podKey = None));
  _ ← modify (upd_pods <[podKey := boxPod]>);
  _ ← pure_ (assert_ fresh "assertion failed");
  _ ← (if bool_decide (create_type (pod_spec pod) = CreateSnapshot) && bool_decide (pod_state pod ≠ PFailed) then
         _ ← modify (AddPendingSnapshot fpKey nodename);
         if is_snapshot_pod_finished (pod_state pod) then mret tt
         else bill_now (λ now, start_snapshot_pod_billing uuid enableSnapshotBilling now pod)
       else mret tt);
  idle ← gets (λ s, leasable s boxPod);
  _ ← (if (idle : bool) then _ ← modify (upd_world (SetIdle boxPod)); modify (put_idle podKey) else mret tt);
  node ← gets (λ s, nodes s !! nodename);
  _ ← match node with
      | None => modify (upd_nodePods (park nodename podKey boxPod))
      | Some ns => ns ← pure_ (NodeStatus_AddPod ns boxPod); put_node nodename ns
      end;
  fs ← gets (λ s, funcs s !! fpKey);
  match fs with
  | None => modify (upd_funcPods (park fpKey podKey boxPod))
  | Some fpStatus => put_func fpKey (FuncStatus_AddPod fpStatus boxPod)
  end.

(** [fpStatus.UpdatePod(&boxPod).await?] *)
Definition func_update (fpKey : string) p : M bool := λ s,
  match funcs s !! fpKey with
  | None => (Ok false, s)
  | Some fs =>
      let '(r, (w, fs)) := FuncStatus_UpdatePod p (world s, fs) in
      (r, upd_world (λ _, w) (upd_funcs <[fpKey := fs]> s))
  end.
(** ixshare/src/scheduler/scheduler_handler.rs:5810-5898 [SchedulerHandler::UpdatePod] *)
Definition UpdatePod (pod : FuncPod) : M unit :=
  let podKey := PodKey pod in
  let nodeName := nodename (pod_spec pod) in
  let funcKey := FuncKey pod in
  boxPod ← new_worker pod;
  old ← gets (λ s, pods s !! podKey);
  _ ← modify (upd_pods <[podKey := boxPod]>);
  match old with
  | None => pure_ (Panic "UpdatePod get none old pod")
  | Some oldPod =>
      old_state ← gets (λ s, state_of s oldPod);
      _ ← (if IsWorking old_state then
             _ ← modify (upd_world (SetState boxPod old_state));
             modify (λ s, upd_world (SetConsumer boxPod (consumer_tenant (cell (world s) oldPod))) s)
           else mret tt);
      node ← gets (λ s, nodes s !! nodeName);
      _ ← match node with
          | None => modify (upd_nodePods (park nodeName podKey boxPod))
          | Some ns =>
              ns ← pure_ (NodeStatus_UpdatePod ns boxPod oldPod);
              ns ← pure_ (if bool_decide (pod_state (Worker.pod oldPod) = PStandby) && bool_decide (pod_state pod = PResuming)
                          then FreeResource ns (allocResources (pod_spec (Worker.pod oldPod))) else Ok ns);
              put_node nodeName ns
          end;
      known ← gets (λ s, bool_decide (is_Some (funcs s !! funcKey)));
      add_to_idle ← (if (known : bool) then func_update funcKey boxPod
                     else _ ← modify (upd_funcPods (park funcKey podKey boxPod)); mret false);
      if (add_to_idle : bool) then modify (put_idle podKey) else mret tt
  end.

(** The loop that stores a failure count: up to three attempts, each on the
    latest status. *)
Fixpoint push_failure (client : StatusClient) (fuel attempts : nat) (status : FunctionStatus) : M unit :=
  match fuel with
  | 0 => pure_ (Panic "RemovePod failed to update funcstatus")
  | S fuel =>
      _ ← modify (upd_world (push_rpc (UpdateFuncStatus status (revision status))));
      match sc_Update client attempts with
      | Ok _ => mret tt
      | Panic why => pure_ (Panic why)
      | Err _ =>
          if decide (fuel = 0) then pure_ (Panic "RemovePod failed to update funcstatus") else
          latest ← pure_ (unwrap (sc_Get client attempts));
          latest ← pure_ (unwrap_opt latest);
          status ← pure_ (count_failure latest);
          push_failure client fuel (S attempts) status
      end
  end.
(** What [RemovePod] does about a failed pod whose function is known. *)
Definition note_failure (client : StatusClient) (pod : FuncPod) (func : Function) : M unit :=
  let funcKey := FuncKey pod in
  match create_type (pod_spec pod) with
  | CreateSnapshot =>
      status ← gets (λ s, funcstatus s !! funcKey);
      match status with
      | None => mret tt
      | Some status =>
          status ← pure_ (count_failure status);
          _ ← AddSnapshotTask (nodename (pod_spec pod)) funcKey;
          if negb (sc_connected client) then pure_ (Panic "called `Result::unwrap()` on an `Err` value")
          else push_failure client 3 0 status
      end
  | CreateRestore => _ ← pure_ (chk u64 (resumingFailureCnt (fo_status (object func)) + 1)%Z); mret tt
  | CreateNormal => mret tt
  end.
(** A snapshot pod that goes away before it is done is made again. *)
Definition retry_snapshot (pod : FuncPod) : M unit :=
  let funcKey := FuncKey pod in
  let nodeName := nodename (pod_spec pod) in
  if bool_decide (create_type (pod_spec pod) = CreateSnapshot) && negb (is_snapshot_pod_finished (pod_state pod)) then
    has_snapshot ← gets (λ s, bool_decide (is_Some (snapshots s !! funcKey ≫= λ m, m !! nodeName)));
    _ ← (if (has_snapshot : bool) then mret tt else AddSnapshotTask nodeName funcKey);
    modify (RemovePendingSnapshot funcKey nodeName)
  else mret tt.
(** ixshare/src/scheduler/scheduler_handler.rs:5900-6086 [SchedulerHandler::RemovePod] *)
Definition RemovePod (client : StatusClient) (pod : FuncPod) : M unit :=
  let podKey := PodKey pod in
  let nodeName := nodename (pod_spec pod) in
  let funcKey := FuncKey pod in
  _ ← modify (upd_terminating_pods (delete podKey));
  _ ← (if decide (create_type (pod_spec pod) = CreateSnapshot)
       then bill_now (λ now b, Ok (end_snapshot_pod_billing enableSnapshotBilling now podKey b)) else mret tt);
  worker ← gets (λ s, pods s !! podKey);
  _ ← modify (upd_pods (delete podKey));
  match worker with
  | None => pure_ (Panic "internal error: entered unreachable code")
  | Some worker =>
      state ← gets (λ s, state_of s worker);
      _ ← (if IsWorking state
           then _ ← on_world (Dec (nodename (pod_spec (Worker.pod worker))) (gpu_count worker)); mret tt
           else mret tt);
      fs ← gets (λ s, funcs s !! funcKey);
      _ ← match fs with
          | Some fs => if decide (pod_state pod = PFailed) then note_failure client pod (func fs) else mret tt
          | None => mret tt
          end;
      _ ← retry_snapshot pod;
      _ ← modify (pop_idle podKey);
      node ← gets (λ s, nodes s !! nodeName);
      _ ← match node with
          | None => mret tt
          | Some ns => ns ← pure_ (NodeStatus_RemovePod ns podKey (allocResources (pod_spec pod))); put_node nodeName ns
          end;
      fs ← gets (λ s, funcs s !! funcKey);
      match fs with
      | None => mret tt
      | Some fpStatus => put_func funcKey (FuncStatus_RemovePod fpStatus podKey)
      end
  end.

(** ** Functions *)

(** ixshare/src/scheduler/scheduler_handler.rs:6088-6104 [SchedulerHandler::AddFunc] *)
Definition AddFunc (spec : Function) : M unit := λ s,
  let fpId := Function_Id spec in
  match funcs s !! fpId with
  | Some _ => (Err (Share.Exist ("FuncMgr::add " +:+ fpId)), s)
  | None =>
      let pods := default ∅ (funcPods s !! fpId) in
      (Ok tt, upd_funcs <[fpId := FuncStatus_New spec pods]> (upd_funcPods (delete fpId) s))
  end.
(** ixshare/src/scheduler/scheduler_handler.rs:6106-6127 [SchedulerHandler::RemoveFunc] *)
Definition RemoveFunc (spec : Function) : M unit :=
  let key := Function_Id spec in
  known ← gets (λ s, bool_decide (is_Some (funcs s !! key)));
  if negb known then pure_ (Err (Share.NotExist ("FuncMgr::Remove " +:+ key))) else
  _ ← modify (upd_funcs (delete key));
  _ ← modify (upd_funcPods (delete key));
  _ ← modify (upd_funcstatus (delete key));
  _ ← modify (upd_pendingsnapshots (delete key));
  bill_now (λ now b, Ok (end_standby_billing now key b)).
(** The pods of [range(funckey + "/" ..)] up to the first of another function. *)
Definition pods_of s (funckey : string) : list WorkerPod :=
  take_while (λ p, bool_decide (FuncKey (pod p) = funckey)) (range_from (funckey +:+ "/") (pods s)).*2.
(** ixshare/src/scheduler/scheduler_handler.rs:2835-2847 [SchedulerHandler::HasPod] *)
Definition HasPod s (funckey : string) : bool := bool_decide (pods_of s funckey ≠ []).
(** ixshare/src/scheduler/scheduler_handler.rs:2850-2890 [SchedulerHandler::RemovePodsByFunckey] *)
Definition RemovePodsByFunckey (funckey : string) : M bool :=
  pods ← gets (λ s, pods_of s funckey);
  _ ← eachM (λ p, ok ← succeeds (StopWorker (pod p)); if (ok : bool) then modify (mark_terminating p) else mret tt) pods;
  mret (bool_decide (pods = [])).
(** ixshare/src/scheduler/scheduler_handler.rs:2900-2961 [SchedulerHandler::RemoveSnapshotFromNode] *)
Definition RemoveSnapshotFromNode (nodename funckey : string) : M unit := λ s,
  let pending_key := funckey +:+ ":" +:+ nodename in
  if decide (pending_key ∈ pending_snapshot_removals s) then (Ok tt, s)
  else match nodes s !! nodename with
       | None => (Err (Share.CommonError ("Node " +:+ nodename +:+ " not found")), s)
       | Some _ => (Ok tt, upd_world (push_rpc (RemoveSnapshotRpc funckey nodename))
                             (upd_pending_snapshot_removals ({[pending_key]} ∪.) s))
       end.
(** ixshare/src/scheduler/scheduler_handler.rs:2766-2783 [SchedulerHandler::RemoveSnapshotByFunckey] *)
Definition RemoveSnapshotByFunckey (funckey : string) : M unit :=
  nodes_ ← gets (λ s, keys (default ∅ (snapshots s !! funckey)));
  eachM (λ nodename, quiet (RemoveSnapshotFromNode nodename funckey)) nodes_.
(** ixshare/src/scheduler/scheduler_handler.rs:4760-4767 [SchedulerHandler::ProcessRemoveFunc] *)
Definition ProcessRemoveFunc (spec : Function) : M unit :=
  hasPod ← RemovePodsByFunckey (Function_Id spec);
  if negb hasPod then RemoveSnapshotByFunckey (Function_Id spec) else mret tt.
(** ixshare/src/scheduler/scheduler_handler.rs:1321-1367 [SchedulerHandler::ProcessRemoveSnapshotComplete] *)
Definition ProcessRemoveSnapshotComplete (funckey nodename : string) (result : option RpcError) s : Sched :=
  let s := upd_pending_snapshot_removals (.∖ {[funckey +:+ ":" +:+ nodename]}) s in
  match result, snapshots s !! funckey with
  | None, Some m =>
      let m := delete nodename m in
      upd_snapshots (if decide (m = ∅) then delete funckey else <[funckey := m]>) s
  | _, _ => s
  end.
(** ixshare/src/scheduler/scheduler_handler.rs:2785-2808 [SchedulerHandler::CleanSnapshots] *)
Definition CleanSnapshots : M unit :=
  gone ← gets (λ s, filter (λ k, funcs s !! k = None) (keys (snapshots s)));
  eachM (λ funckey, has ← gets (λ s, HasPod s funckey);
                    if (has : bool) then mret tt else quiet (RemoveSnapshotByFunckey funckey)) gone.
(** ixshare/src/scheduler/scheduler_handler.rs:2810-2833 [SchedulerHandler::CleanPods] *)
Definition CleanPods : M unit :=
  gone ← gets (λ s, set_elems (list_to_set (C:=gset string)
            (filter (λ k, funcs s !! k = None) ((λ p, FuncKey (pod p)) <$> values (pods s)))));
  eachM (λ funckey, quiet (RemovePodsByFunckey funckey)) gone.

(** ** Snapshots *)

(** ixshare/src/scheduler/scheduler_handler.rs:2258-2293 [SchedulerHandler::AddSnapshot] *)
Definition AddSnapshot (snapshot : ContainerSnapshot) : M unit :=
  let funckey := cs_funckey snapshot in
  let nodename := cs_nodename snapshot in
  _ ← modify (RemovePendingSnapshot funckey nodename);
  _ ← modify (upd_snapshots (λ m, <[funckey := <[nodename := snapshot]> (default ∅ (m !! funckey))]> m));
  if decide (cs_state snapshot = SnapshotReady) then start_standby funckey else mret tt.
(** ixshare/src/scheduler/scheduler_handler.rs:2295-2318 [SchedulerHandler::UpdateSnapshot] *)
Definition UpdateSnapshot (snapshot : ContainerSnapshot) : M unit :=
  let funckey := cs_funckey snapshot in
  m ← gets (λ s, snapshots s !! funckey);
  match m with
  | None => mret tt
  | Some m =>
      _ ← modify (upd_snapshots <[funckey := <[cs_nodename snapshot := snapshot]> m]>);
      if decide (cs_state snapshot = SnapshotReady) then start_standby funckey else mret tt
  end.
(** ixshare/src/scheduler/scheduler_handler.rs:2320-2331 [SchedulerHandler::RemoveSnapshot] *)
Definition RemoveSnapshot (snapshot : ContainerSnapshot) s : Sched :=
  match snapshots s !! cs_funckey snapshot with
  | None => s
  | Some m => upd_snapshots <[cs_funckey snapshot := delete (cs_nodename snapshot) m]> s
  end.
(** ixshare/src/scheduler/scheduler_handler.rs:2734-2759 [SchedulerHandler::recover_standby_billing] *)
Definition recover_standby_billing : M unit :=
  funckeys ← gets (λ s, (filter (λ q, existsb (λ sn, bool_decide (cs_state sn = SnapshotReady)) (values q.2) = true)
                           (entries (snapshots s))).*1);
  eachM start_standby funckeys.

(** ** Nodes *)

(** ixshare/src/scheduler/scheduler_handler.rs:5335-5367 [SchedulerHandler::AddNode] *)
Definition AddNode (node : Node) : M unit :=
  let nodeName := name node in
  known ← gets (λ s, bool_decide (is_Some (nodes s !! nodeName)));
  if (known : bool) then pure_ (Err (Share.Exist ("NodeMgr::add " +:+ nodeName))) else
  pods ← gets (λ s, default ∅ (nodePods s !! nodeName));
  _ ← modify (upd_nodePods (delete nodeName));
  time ← clock;
  ns ← pure_ (NodeStatus_New node (node_resources (object node)) pods time);
  _ ← put_node nodeName ns;
  AddTask (AddNodeTask nodeName).
(** ixshare/src/scheduler/scheduler_handler.rs:5369-5382 [SchedulerHandler::UpdateNode] *)
Definition UpdateNode (node : Node) : M unit :=
  let nodeName := name node in
  ns ← gets (λ s, nodes s !! nodeName);
  match ns with
  | None => pure_ (Err (Share.NotExist ("NodeMgr::UpdateNode " +:+ nodeName)))
  | Some ns =>
      put_node nodeName (MkNodeStatus node (total ns) (available ns) (ns_pendingPods ns) (ns_pods ns)
                           (ns_stoppingPods ns) (createTime ns) (node_state (object node)))
  end.
(** ixshare/src/scheduler/scheduler_handler.rs:5585-5615 [SchedulerHandler::CleanFuncStatusForNode] *)
Definition CleanFuncStatusForNode (nodename : string) s : Sched :=
  match nodes s !! nodename with
  | None => s
  | Some ns =>
      let s := foldl (λ s '(pod_key, pending), forget_pending (pp_funcId pending) pod_key s) s (entries (ns_pendingPods ns)) in
      foldl (λ s pod_key, match ns_pods ns !! pod_key with
                          | Some worker => unstop_in_func (FuncKey (pod worker)) pod_key s
                          | None => s
                          end) s (set_elems (ns_stoppingPods ns))
  end.
(** [RemovePendingSnapshot] for every function *)
Definition no_pending_snapshots_on (nodename : string) s : Sched :=
  foldl (λ s funcId, RemovePendingSnapshot funcId nodename s) s (keys (pendingsnapshots s)).
(** ixshare/src/scheduler/scheduler_handler.rs:5617-5643 [SchedulerHandler::RemoveNode] *)
Definition RemoveNode (node : Node) : M unit :=
  let key := name node in
  known ← gets (λ s, bool_decide (is_Some (nodes s !! key)));
  if negb known then pure_ (Err (Share.NotExist ("NodeMgr::Remove " +:+ key))) else
  _ ← modify (CleanFuncStatusForNode key);
  _ ← modify (no_pending_snapshots_on key);
  modify (upd_nodes (delete key)).
(** [ends_with(suffix)] *)
Definition ends_with (suffix s : string) : bool :=
  bool_decide (drop (length (chars s) - length (chars suffix)) (chars s) = chars suffix).
(** ixshare/src/scheduler/scheduler_handler.rs:5667-5748 [SchedulerHandler::CleanNode] *)
Definition CleanNode (client : StatusClient) (nodename : string) : M unit :=
  tempPods ← gets (λ s, values (default ∅ (nodePods s !! nodename)));
  _ ← modify (upd_nodePods (delete nodename));
  _ ← eachM (λ wp, quiet (RemovePod client (pod wp))) tempPods;
  _ ← modify (CleanFuncStatusForNode nodename);
  pods ← gets (λ s, match nodes s !! nodename with Some ns => values (ns_pods ns) | None => [] end);
  _ ← eachM (λ wp, quiet (RemovePod client (pod wp))) pods;
  _ ← modify (upd_snapshots (λ m, filter (λ q, q.2 ≠ ∅) (delete nodename <$> m)));
  _ ← modify (no_pending_snapshots_on nodename);
  _ ← modify (upd_pending_snapshot_removals (filter (λ key, ends_with (":" +:+ nodename) key = false)));
  _ ← modify (upd_SnapshotSched (λ b, RemoveById2 b nodename));
  node ← gets (λ s, node <$> nodes s !! nodename);
  match node with None => mret tt | Some node => quiet (RemoveNode node) end.
(** ixshare/src/scheduler/scheduler_handler.rs:5647-5665 [SchedulerHandler::CheckNodeEpoch] *)
Definition CheckNodeEpoch (client : StatusClient) (nodename : string) (nodeEpoch : Z) : M unit :=
  old ← gets (λ s, nodeEpochs s !! nodename);
  match old with
  | None => modify (upd_nodeEpochs <[nodename := nodeEpoch]>)
  | Some oldEpoch =>
      if decide (oldEpoch = nodeEpoch) then mret tt else
      _ ← CleanNode client nodename;
      modify (upd_nodeEpochs <[nodename := nodeEpoch]>)
  end.

(** A surviving pod's worker state follows the pod's. *)
Definition sync_state (p : WorkerPod) : M unit :=
  state ← gets (λ s, state_of s p);
  match pod_state (pod p) with
  | PReady =>
      if IsWorking state then mret tt
      else _ ← modify (upd_world (SetState p WIdle)); modify (put_idle (pod_key p))
  | PStandby => modify (upd_world (SetState p WStandby))
  | _ => pure_ (Panic "Reconciliation: Unexpected pod state")
  end.
(** ixshare/src/scheduler/scheduler_handler.rs:5384-5566 [SchedulerHandler::ReconcileNodeAfterNodeAgentRestart] *)
Definition ReconcileNodeAfterNodeAgentRestart (nodename : string) (new_node_info : Node) : M unit :=
  ns ← gets (λ s, nodes s !! nodename);
  match ns with
  | None => mret tt
  | Some ns =>
      let stable p := bool_decide (pod_state (pod p) = PStandby) || bool_decide (pod_state (pod p) = PReady) in
      let pods_to_remove := (filter (λ q, stable q.2 = false) (entries (ns_pods ns))).*1 in
      let without {A} (m : gmap string A) : gmap string A := foldl (λ m k, delete k m) m pods_to_remove in
      let ns := set_ns_pods ns ∅ (without (ns_pods ns)) ∅ in
      _ ← put_node nodename ns;
      _ ← modify (upd_funcs (fmap (λ fs, set_fs_pods fs (without (fs_pods fs)) (without (fs_pendingPods fs))
                                           (fs_stoppingPods fs ∖ list_to_set pods_to_remove))));
      _ ← modify (upd_pods without);
      _ ← modify (upd_nodePods (λ m, match m !! nodename with Some temp => <[nodename := without temp]> m | None => m end));
      _ ← modify (upd_funcPods (fmap without));
      let total := NodeResources_Copy (node_resources (object new_node_info)) in
      available ← pure_ (foldlM (λ available p, Share.lift (NodeResources_Sub available (allocResources (pod_spec (pod p)))))
                           (NodeResources_Copy total) (values (ns_pods ns)));
      _ ← put_node nodename (MkNodeStatus (node ns) total available ∅ (ns_pods ns) ∅ (createTime ns) (ns_state ns));
      _ ← eachM sync_state (values (ns_pods ns));
      modify (no_pending_snapshots_on nodename)
  end.

(** ** Start-up *)

(** ixshare/src/scheduler/scheduler_handler.rs:5299-5333 [SchedulerHandler::ListDone]: whether all lists are done *)
Definition ListDone (listType : ListType) : M bool :=
  _ ← modify (upd_listed ({[listType]} ∪.));
  all ← gets (λ s, bool_decide (listed s = {[LNode; LFuncPod; LFunc; LFuncStatus; LSnapshot; LFuncpolicy]}));
  if negb all then mret false else
  _ ← modify (upd_listDone (λ _, true));
  _ ← recover_standby_billing;
  time ← clock;
  _ ← modify (upd_warmupStartTime (λ _, Some time));
  _ ← modify (upd_warmupComplete (λ _, false));
  mret true.
End events.
