(* ===== verification/Dispatch.v ===== *)
(** * The scheduler's loop (ixshare/src/scheduler/scheduler_handler.rs,
      [ProcessOnce] and [Process])

    One pass of the loop takes what its [select!] gives it, a message, a timer,
    an informer event or a task, and hands it to its handler.  The pass also
    fixes what the world answers meanwhile ([Env]). *)

From S2P Require Import Prelude.
From S2P Require Import Common.
From S2P Require Import DataObj.
From S2P Require Import Resource.
From S2P Require Import Specs.
From S2P Require Import Worker.
From S2P Require Import Billing.
From S2P Require Import SchedState.
From S2P Require Import Evict.
From S2P Require Import Resume.
From S2P Require Import Start.
From S2P Require Import Requests.
From S2P Require Import Events.

(** What the world answers during a pass: the time, the callers that are gone,
    the ids given to new pods (by function), the order of a shuffle, the state
    service, and the address that [Ipv4Network::from_str] (crate ipnetwork)
    finds in a text. *)
Record Env := MkEnv {
  env_now : Z;
  env_hung_up : gset nat;
  env_uids : string → Share.Result Z;
  env_shuffle : list string → list string;
  env_client : StatusClient;
  env_network : string → option Z;
}.

Section dispatch.
Context {F L : Type} `{FloatLit F, Lru L, SchedConfig}.
Abbreviation Sched := (Sched F L).
Abbreviation M := (sm Sched Share.Error).
Implicit Types (s : Sched) (env : Env).

(** ixshare/src/scheduler/scheduler_handler.rs:623-667 [WorkerHandlerMsg]; a message's [Sender] is the number of its
    reply channel *)
Inductive WorkerHandlerMsg :=
| MStartWorker
| MStopWorker
| MKillPod (req : WorkerId)
| MConnectScheduler (req : ConnectReq) (tx : nat)
| MLeaseWorker (req : LeaseWorkerReq) (tx : nat)
| MReturnWorker (req : ReturnWorkerReq) (tx : nat)
| MRefreshGateway (gatewayId : Z)
| MDumpState
| MCleanupDuplicateSnapshot (funcid nodename podkey : string) (resources : NodeResources) (terminated : list string)
| MResumeWorkerComplete (pod_key nodename : string) (result : option RpcError) (resources : NodeResources)
    (terminated : list string)
| MStartWorkerComplete (funcid nodename podkey : string) (create_type : CreatePodType) (result : option RpcError)
    (resources : NodeResources) (terminated : list string)
| MRemoveSnapshotComplete (funckey nodename : string) (result : option RpcError)
| MStopWorkerComplete (pod_key : string) (result : option RpcError).

(** The object of an event once [FromDataObject] has read it. *)
Inductive Obj :=
| OFunction (func : Function F)
| OFunctionStatus (status : FunctionStatus)
| ONode (node : Node)
| OFuncPod (pod : FuncPod F)
| OSnapshot (snapshot : DataObject ContainerSnapshot)
| OFuncPolicy (policy : DataObject (FuncPolicySpec F))
| OTenant (tenant : Tenant)
| OOther.

(** What a pass of the loop got. *)
Inductive Input :=
| IMsg (msg : option WorkerHandlerMsg)   (* [None]: all senders are gone *)
| IDelayTick
| IBillingTick
| IStandbyTick
| ISchedTick
| IEvent (type_ : EventType) (obj : Obj) (oldObj : option Obj)
| IEventsClosed
| ITask
| IClose.

Definition set_world_peers (m : PeerMgr) (w : World) : World :=
  MkWorld (cells w) (next_cell w) (hung_up w) (sent w) m (usedGpuCnt w) (now w) (rpcs w).
(** The world as the pass finds it. *)
Definition at_env (env : Env) (w : World) : World :=
  MkWorld (cells w) (next_cell w) (env_hung_up env) (sent w) (peer_mgr w) (usedGpuCnt w) (env_now env) (rpcs w).

(** The branches of [ProcessOnce] on messages. *)
Definition on_msg env (msg : WorkerHandlerMsg) : M unit :=
  match msg with
  | MConnectScheduler m tx =>
      ok ← ProcessConnectReq m tx;
      if (ok : bool) then CompleteWarmupAfterConnect (env_shuffle env) (env_uids env) else mret tt
  | MLeaseWorker m tx => ProcessLeaseWorkerReq m tx
  | MReturnWorker m tx => quiet (ProcessReturnWorkerReq m tx)
  | MKillPod req => _ ← ProcessKillPod req; mret tt
  | MRefreshGateway m => ProcessRefreshGateway m
  | MDumpState => mret tt
  | MCleanupDuplicateSnapshot funcid nodename podkey resources terminated =>
      quiet (ProcessCleanupDuplicateSnapshot funcid nodename podkey resources terminated)
  | MResumeWorkerComplete pod_key nodename result resources terminated =>
      ok ← succeeds (ProcessResumeWorkerComplete pod_key nodename result resources terminated);
      if (ok : bool) then mret tt else pure_ (Panic "CRITICAL: ProcessResumeWorkerComplete failed")
  | MStartWorkerComplete funcid nodename podkey create_type result resources terminated =>
      quiet (ProcessStartWorkerComplete funcid nodename podkey create_type result resources terminated)
  | MRemoveSnapshotComplete funckey nodename result => modify (ProcessRemoveSnapshotComplete funckey nodename result)
  | MStopWorkerComplete pod_key result => ProcessStopWorkerComplete pod_key result
  | MStartWorker | MStopWorker => mret tt
  end.

(** [self.taskQueue.AddFunc(&funcid)] after a prewarming *)
Definition prewarm env (funcid : string) : M unit :=
  _ ← ProcessAddFunc (env_uids env funcid) funcid; AddTask (AddFuncTask funcid).
(** A function that goes away. *)
Definition drop_function (func : Function F) : M unit := _ ← ProcessRemoveFunc func; RemoveFunc func.
(** The address of [Ipv4Network::from_str(text).unwrap()] *)
Definition network env (text : string) : M Z := pure_ (unwrap_opt (env_network env text)).
(** [PEER_MGR.AddPeer(..)], [PEER_MGR.RemovePeer(..)]; an error is a panic *)
Definition on_peers (f : PeerMgr → Share.Result PeerMgr) : M unit := λ s,
  match f (peer_mgr (world s)) with
  | Ok m => (Ok tt, upd_world (set_world_peers m) s)
  | _ => (Panic "PEER_MGR", s)
  end.

(** The branches of [ProcessOnce] on [EventType::Added]. *)
Definition on_added env (obj : Obj) : M unit :=
  match obj with
  | OFunction func =>
      let funcid := Function_Id func in
      _ ← AddFunc func;
      ready ← gets (λ s, listDone s && warmupComplete s);
      if (ready : bool) then prewarm env funcid else mret tt
  | OFunctionStatus status => modify (upd_funcstatus <[FunctionStatus_Id status := status]>)
  | ONode node =>
      _ ← CheckNodeEpoch (env_client env) (name node) (nodeEpoch (object node));
      peerIp ← network env (nodeIp (object node));
      cidr ← network env (node_cidr (object node));
      _ ← on_peers (λ m, AddPeer m peerIp (tsotSvcPort (object node)) cidr);
      AddNode node
  | OFuncPod pod =>
      _ ← CheckNodeEpoch (env_client env) (nodename (pod_spec pod)) (srcEpoch pod);
      AddPod pod
  | OSnapshot snapshot =>
      _ ← CheckNodeEpoch (env_client env) (cs_nodename (object snapshot)) (srcEpoch snapshot);
      AddSnapshot (object snapshot)
  | OFuncPolicy policy => modify (upd_funcpolicy <[Key policy := object policy]>)
  | OTenant tenant => modify (upd_tenants <[name tenant := tenant]>)
  | OOther => mret tt
  end.
(** The branches on [EventType::Modified]. *)
Definition on_modified env (obj : Obj) (oldObj : option Obj) : M unit :=
  match obj with
  | OFunction spec =>
      match oldObj with
      | Some (OFunction oldspec) =>
          _ ← drop_function oldspec;
          _ ← AddFunc spec;
          ready ← gets listDone;
          if (ready : bool) then prewarm env (Function_Id spec) else mret tt
      | Some _ => pure_ (Err (Share.SerdeJsonError "FromDataObject"))
      | None => pure_ (Panic "called `Option::unwrap()` on a `None` value")
      end
  | OFunctionStatus status => modify (upd_funcstatus <[FunctionStatus_Id status := status]>)
  | ONode node =>
      old_state ← gets (λ s, ns_state <$> nodes s !! name node);
      _ ← UpdateNode node;
      if decide (old_state = Some NodeAgentConnected ∧ node_state (object node) = NodeAgentReady)
      then ReconcileNodeAfterNodeAgentRestart (name node) node else mret tt
  | OFuncPod pod => UpdatePod pod
  | OSnapshot snapshot => UpdateSnapshot (object snapshot)
  | OFuncPolicy policy => modify (upd_funcpolicy <[Key policy := object policy]>)
  | OTenant tenant => modify (upd_tenants <[name tenant := tenant]>)
  | OOther => mret tt
  end.
(** The branches on [EventType::Deleted]. *)
Definition on_deleted env (obj : Obj) (oldObj : option Obj) : M unit :=
  match obj with
  | OFunction _ =>
      match oldObj with
      | Some (OFunction spec) => drop_function spec
      | Some _ => pure_ (Err (Share.SerdeJsonError "FromDataObject"))
      | None => pure_ (Panic "called `Option::unwrap()` on a `None` value")
      end
  | OFunctionStatus status => modify (upd_funcstatus (delete (FunctionStatus_Id status)))
  | ONode node =>
      cidr ← network env (node_cidr (object node));
      _ ← on_peers (λ m, RemovePeer m cidr);
      RemoveNode node
  | OFuncPod pod => RemovePod (env_client env) pod
  | OSnapshot snapshot => modify (RemoveSnapshot (object snapshot))
  | OFuncPolicy policy => modify (upd_funcpolicy (delete (Key policy)))
  | OTenant tenant => modify (upd_tenants (delete (name tenant)))
  | OOther => mret tt
  end.
(** The branches on [EventType::InitDone]. *)
Definition on_init_done (obj : Obj) : M unit :=
  let done_ t := _ ← ListDone t; mret tt in
  match obj with
  | OFunction _ => done_ LFunc | OFunctionStatus _ => done_ LFuncStatus | ONode _ => done_ LNode
  | OFuncPod _ => done_ LFuncPod | OSnapshot _ => done_ LSnapshot | OFuncPolicy _ => done_ LFuncpolicy
  | OTenant _ | OOther => mret tt
  end.
(** The branch on the timer of 4 seconds. *)
Definition on_sched_tick env : M unit :=
  done_ ← gets listDone;
  if negb done_ then mret tt else
  _ ← CheckAndCompleteWarmup (env_shuffle env) (env_uids env);
  warm ← gets warmupComplete;
  if negb warm then mret tt else
  _ ← RefreshScheduling (env_shuffle env) (env_uids env);
  _ ← CleanPods;
  _ ← CleanSnapshots;
  _ ← ProcessGatewayTimeout;
  _ ← ReconcileAllStuckLeaseRequests 30000;
  mret tt.
(** [self.taskQueue.Next()] and the task *)
Definition on_task env : M unit := λ s,
  match taskQueue s with
  | [] => (Ok tt, s)
  | task :: q => ProcessTask (env_shuffle env) (env_uids env (match task with
                   | SnapshotTask funcId _ | NvidiaPodTask funcId => funcId | _ => "" end)) task
                   (upd_taskQueue (λ _, q) s)
  end.

(** ixshare/src/scheduler/scheduler_handler.rs:2963-3291 [SchedulerHandler::ProcessOnce], after the set-up of the timers *)
Definition ProcessOnce env (input : Input) : M unit :=
  match input with
  | IMsg (Some msg) => on_msg env msg
  | IDelayTick => drain_due_delayed_tasks
  | IBillingTick => modify (λ s, upd_billing (emit_periodic_billing_ticks enableSnapshotBilling (now (world s))) s)
  | IStandbyTick => modify (λ s, upd_billing (emit_periodic_standby_ticks (now (world s))) s)
  | ISchedTick => on_sched_tick env
  | IEvent EAdded obj _ => on_added env obj
  | IEvent EModified obj oldObj => on_modified env obj oldObj
  | IEvent EDeleted obj oldObj => on_deleted env obj oldObj
  | IEvent EInitDone obj _ => on_init_done obj
  | IEvent _ _ _ => pure_ (Err (Share.CommonError "PodHandler::ProcessDeltaEvent "))
  | ITask => on_task env
  | IMsg None | IEventsClosed | IClose => pure_ (Err Share.ProcessDone)
  end.
(** ixshare/src/scheduler/scheduler_handler.rs:3293-3315 [SchedulerHandler::Process], on the passes it makes: an error
    other than [ProcessDone] is dropped *)
Fixpoint Process (passes : list (Env * Input)) : M unit :=
  match passes with
  | [] => mret tt
  | (env, input) :: passes => λ s,
      match ProcessOnce env input (upd_world (at_env env) s) with
      | (Err Share.ProcessDone, s) => (Ok tt, s)
      | (Panic why, s) => (Panic why, s)
      | (_, s) => Process passes s
      end
  end.
End dispatch.
