(* ===== verification/Frames.v ===== *)
(** * What the scheduler's bookkeeping leaves alone
      (ixshare/src/scheduler/scheduler_handler.rs)

    Most calls of the handler only touch the books: resources and pending pods
    of nodes, snapshots, tasks, billing, requests sent out.  A view of the state
    that sees none of these is framed by all of them; the laws a view has to
    meet are a class, and the invariants of the later files instantiate it. *)

From S2P Require Import Prelude.
From S2P Require Import Wp.
From S2P Require Import Common.
From S2P Require Import DataObj.
From S2P Require Import Resource.
From S2P Require Import Specs.
From S2P Require Import Worker.
From S2P Require Import Billing.
From S2P Require Import BiIndex.
From S2P Require Import SchedState.
From S2P Require Import Evict.
From S2P Require Import Resume.
From S2P Require Import Start.
From S2P Require Import Requests.
From S2P Require Import Events.

Lemma no_err_lift {A} (m : Result A) : no_err m → no_err (Share.lift m).
Proof. by destruct m. Qed.
#[export] Hint Resolve no_err_lift : inferx.

Section frames.
Context {F L : Type} `{FloatLit F, Lru L, SchedConfig}.
Abbreviation Sched := (Sched F L).
Abbreviation M := (sm Sched Share.Error).
Implicit Types (s : Sched) (p : WorkerPod F).

(** A view that does not see the books. *)
Class Bookkeeping {V} (v : Sched → V) : Prop := {
  bk_nodes f s : v (upd_nodes f s) = v s;
  bk_nodePods f s : v (upd_nodePods f s) = v s;
  bk_nodeEpochs f s : v (upd_nodeEpochs f s) = v s;
  bk_pendingsnapshots f s : v (upd_pendingsnapshots f s) = v s;
  bk_snapshots f s : v (upd_snapshots f s) = v s;
  bk_funcstatus f s : v (upd_funcstatus f s) = v s;
  bk_terminating_pods f s : v (upd_terminating_pods f s) = v s;
  bk_SnapshotSched f s : v (upd_SnapshotSched f s) = v s;
  bk_delayed_tasks f s : v (upd_delayed_tasks f s) = v s;
  bk_taskQueue f s : v (upd_taskQueue f s) = v s;
  bk_pending_snapshot_removals f s : v (upd_pending_snapshot_removals f s) = v s;
  bk_billing f s : v (upd_billing f s) = v s;
  bk_listed f s : v (upd_listed f s) = v s;
  bk_listDone f s : v (upd_listDone f s) = v s;
  bk_warmupStartTime f s : v (upd_warmupStartTime f s) = v s;
  bk_warmupComplete f s : v (upd_warmupComplete f s) = v s;
  bk_gateways f s : v (upd_gateways f s) = v s;
  bk_rpc c s : v (upd_world (push_rpc c) s) = v s;
  bk_used m s : v (upd_world (set_used m) s) = v s;
  bk_func s k fs pending stopping :
    funcs s !! k = Some fs → v (upd_funcs <[k := set_fs_pods fs (fs_pods fs) pending stopping]> s) = v s;
}.

Context {V : Type} (v : Sched → V) `{!Bookkeeping v}.

Lemma frames_foldl {A} (f : Sched → A → Sched) l s : (∀ s a, v (f s a) = v s) → v (foldl f s l) = v s.
Proof. intros Hf. revert s. induction l as [|a l IH]; intros s; [done|]. simpl. by rewrite IH. Qed.
Lemma frames_quiet {A} (m : M A) : frames v m → frames v (quiet m).
Proof. intros Hm s. specialize (Hm s). unfold quiet. by destruct (m s) as [[]]. Qed.
Lemma frames_succeeds {A} (m : M A) : frames v m → frames v (succeeds m).
Proof. intros Hm s. specialize (Hm s). unfold succeeds. by destruct (m s) as [[]]. Qed.

(** ** Nodes and functions *)

Lemma put_node_frames name ns : frames v (put_node name ns).
Proof. apply frames_modify. intros s. apply bk_nodes. Qed.
Lemma the_node_frames nodename : frames v (the_node nodename).
Proof. done. Qed.
Lemma reserve_frames nodename r : frames v (reserve nodename r).
Proof. unfold reserve. frame_tac; auto using put_node_frames, the_node_frames. Qed.
Lemma stop_in_func_frames p s : v (stop_in_func p s) = v s.
Proof. unfold stop_in_func. case_match; [|done]. by apply bk_func. Qed.
Lemma unstop_in_func_frames k key s : v (unstop_in_func k key s) = v s.
Proof. unfold unstop_in_func. case_match; [|done]. by apply bk_func. Qed.
Lemma forget_pending_frames k key s : v (forget_pending k key s) = v s.
Proof. unfold forget_pending. case_match; [|done]. by apply bk_func. Qed.
Lemma mark_stopping_frames nodename l : frames v (mark_stopping nodename l).
Proof.
  unfold mark_stopping. frame_tac; auto using put_node_frames, the_node_frames.
  apply frames_modify. intros s. apply frames_foldl. intros. apply stop_in_func_frames.
Qed.
Lemma add_pending_frames nodename q : frames v (add_pending nodename q).
Proof. unfold add_pending. frame_tac; auto using put_node_frames, the_node_frames. Qed.
Lemma add_func_pending_frames k q : frames v (add_func_pending k q).
Proof.
  intros s. unfold add_func_pending, mbind, sm_bind. destruct (funcs s !! k) as [fs|] eqn:Hfs; [|done]. simpl.
  by apply bk_func.
Qed.
Lemma give_back_frames nodename key r : frames v (give_back nodename key r).
Proof. unfold give_back. frame_tac; auto using put_node_frames. Qed.

(** ** Calls sent out, tasks, snapshots *)

Lemma StopWorker_frames pod : frames v (StopWorker pod).
Proof. intros s. unfold StopWorker. case_match; [|done]. apply bk_rpc. Qed.
Lemma ResumeWorker_frames k n a l : frames v (ResumeWorker k n a l).
Proof. apply frames_modify. intros s. apply bk_rpc. Qed.
Lemma StartWorker_frames uid func a q c l n : frames v (StartWorker uid func a q c l n).
Proof. unfold StartWorker. frame_tac. apply frames_modify. intros s. apply bk_rpc. Qed.
Lemma Inc_frames label cnt : frames v (on_world (Inc label cnt)).
Proof.
  intros s. unfold on_world, zoom, Inc. destruct (usedGpuCnt (world s) !! label) as [n|].
  - destruct (chk u64 (n + cnt)); simpl; [apply bk_used|by destruct s..].
  - apply bk_used.
Qed.
Lemma Dec_frames label cnt : frames v (on_world (Dec label cnt)).
Proof.
  intros s. unfold on_world, zoom, Dec. destruct (usedGpuCnt (world s) !! label) as [n|].
  - apply bk_used.
  - by destruct s.
Qed.
Lemma schedule_delayed_task_frames d t s : v (schedule_delayed_task d t s) = v s.
Proof. apply bk_delayed_tasks. Qed.
Lemma AddTask_frames t : frames v (AddTask t).
Proof. intros s. unfold AddTask. case_decide; [apply bk_taskQueue|done]. Qed.
Lemma AddSnapshotTask_frames n k : frames v (AddSnapshotTask n k).
Proof.
  intros s. unfold AddSnapshotTask. case_match; [|done]. case_decide; [done|]. apply schedule_delayed_task_frames.
Qed.
Lemma SetSnapshotStatus_frames k n st s : v (SetSnapshotStatus k n st s) = v s.
Proof. apply bk_SnapshotSched. Qed.
Lemma AddPendingSnapshot_frames k n s : v (AddPendingSnapshot k n s) = v s.
Proof. apply bk_pendingsnapshots. Qed.
Lemma RemovePendingSnapshot_frames k n s : v (RemovePendingSnapshot k n s) = v s.
Proof. unfold RemovePendingSnapshot. case_match; [|done]. apply bk_pendingsnapshots. Qed.
Lemma no_pending_snapshots_on_frames n s : v (no_pending_snapshots_on n s) = v s.
Proof. apply frames_foldl. intros. apply RemovePendingSnapshot_frames. Qed.
Lemma bill_now_frames f : frames v (bill_now f).
Proof. intros s. unfold bill_now. case_match; simpl; [apply bk_billing|done..]. Qed.
Lemma start_standby_frames k : frames v (start_standby k).
Proof. intros s. unfold start_standby. apply bill_now_frames. Qed.
Lemma RemoveSnapshotFromNode_frames n k : frames v (RemoveSnapshotFromNode n k).
Proof.
  intros s. unfold RemoveSnapshotFromNode. case_decide; [done|]. case_match; [|done]. simpl.
  rewrite bk_rpc. apply bk_pending_snapshot_removals.
Qed.
Lemma clock_frames : frames v clock.
Proof. done. Qed.
End frames.

#[export] Hint Resolve put_node_frames the_node_frames reserve_frames mark_stopping_frames add_pending_frames
  add_func_pending_frames give_back_frames StopWorker_frames ResumeWorker_frames StartWorker_frames Inc_frames
  Dec_frames AddTask_frames AddSnapshotTask_frames bill_now_frames start_standby_frames
  RemoveSnapshotFromNode_frames clock_frames frames_quiet frames_succeeds : inferx.
#[export] Hint Extern 0 (Bookkeeping _) => apply _ : inferx.
Create Rewrite HintDb books.
#[export] Hint Rewrite @stop_in_func_frames @unstop_in_func_frames @forget_pending_frames
  @schedule_delayed_task_frames @SetSnapshotStatus_frames @AddPendingSnapshot_frames @RemovePendingSnapshot_frames
  @no_pending_snapshots_on_frames using apply _ : books.
