(* ===== verification/SchedInv.v ===== *)
(** * The scheduler's pod tables
      (ixshare/src/scheduler/scheduler_handler.rs)

    [pods], the pods of each function and [idlePods] describe the same workers.
    The invariant [ok_but D] says how, for all pods but those with a key in
    [D], which a handler is in the middle of changing: a ready pod whose worker
    is idle can be found in [idlePods], and no pod in [idlePods] is leased out.
    The loop loses track of some workers for good (the findings at lines 519,
    2182 and 5879 of the source); their keys are the [strays], and the invariant
    between two passes of the loop, [sched_ok], is about all the others. *)

From S2P Require Import Prelude.
From S2P Require Import Wp.
From S2P Require Import Text.
From S2P Require Import BTree.
From S2P Require Import Common.
From S2P Require Import DataObj.
From S2P Require Import Resource.
From S2P Require Import Specs.
From S2P Require Import Worker.
From S2P Require Import Billing.
From S2P Require Import BiIndex.
From S2P Require Import SchedState.
From S2P Require Import Evict.
From S2P Require Import Resume.
From S2P Require Import EvictSpec.
From S2P Require Import Start.
From S2P Require Import Requests.
From S2P Require Import Events.
From S2P Require Import Dispatch.
From S2P Require Import Frames.

(** The keys of the pods whose listing the loop has lost track of. *)
Class Strays := MkStrays { strays : gset string }.

Section inv.
Context {F L : Type} `{FloatLit F, HL : Lru L, !LruSpec L, SchedConfig, stray : Strays}.
Abbreviation Sched := (Sched F L).
Abbreviation M := (sm Sched Share.Error).
Implicit Types (s : Sched) (p q : WorkerPod F) (D : gset string).

Definition idle_keys s : list string := lru_keys (idlePods s).
(** The pods of each function. *)
Definition func_pods s : gmap string (gmap string (WorkerPod F)) := fs_pods <$> funcs s.

Record ok_but D s : Prop := {
  ok_key k p : pods s !! k = Some p → pod_key p = k;
  ok_loc k p : pods s !! k = Some p → wp_loc p < next_cell (world s);
  ok_inj k1 k2 p1 p2 : pods s !! k1 = Some p1 → pods s !! k2 = Some p2 → wp_loc p1 = wp_loc p2 → k1 = k2;
  ok_func f m k p : func_pods s !! f = Some m → m !! k = Some p → pods s !! k = Some p ∧ FuncKey (pod p) = f;
  ok_idle k p : k ∉ D → pods s !! k = Some p → pod_state (pod p) = PReady → state_of s p = WIdle → k ∈ idle_keys s;
  ok_nodup : NoDup (idle_keys s);
  ok_free k p : k ∉ D → pods s !! k = Some p → k ∈ idle_keys s → IsWorking (state_of s p) = false;
}.
(** The invariant between two passes of the loop. *)
Definition sched_ok s : Prop := ok_but strays s.

(** What the invariant depends on. *)
Definition tables s := (pods s, func_pods s, idlePods s, cells (world s), next_cell (world s)).
Lemma ok_but_tables D s s' : tables s' = tables s → ok_but D s → ok_but D s'.
Proof.
  unfold tables. intros [= Hp Hf Hi Hc Hn] [K Lo I Fu Id Nd Fr].
  split; unfold func_pods, idle_keys, state_of, State, cell in *; rewrite ?Hp, ?Hf, ?Hi, ?Hc, ?Hn; auto.
Qed.
#[global] Instance tables_bookkeeping : Bookkeeping tables.
Proof.
  split; try done. intros s k fs pending stopping Hfs. unfold tables, func_pods. simpl.
  rewrite fmap_insert. simpl. rewrite insert_id; [done|]. by rewrite lookup_fmap, Hfs.
Qed.
Lemma keeps_tables {A} D (m : M A) : frames tables m → keeps (ok_but D) m.
Proof. apply frames_keeps. intros s s'. apply ok_but_tables. Qed.

(** ** One pod at a time *)

Lemma ok_but_mono D D' s : D ⊆ D' → ok_but D s → ok_but D' s.
Proof. intros HD [K Lo I Fu Id Nd Fr]. split; eauto. Qed.
Lemma ok_but_enter k s : sched_ok s → ok_but ({[k]} ∪ strays) s.
Proof. apply ok_but_mono. set_solver. Qed.
(** The pod with key [k] is back in order. *)
Lemma ok_but_exit k D s :
  ok_but ({[k]} ∪ D) s →
  (∀ p, k ∉ D → pods s !! k = Some p →
    (pod_state (pod p) = PReady → state_of s p = WIdle → k ∈ idle_keys s) ∧
    (k ∈ idle_keys s → IsWorking (state_of s p) = false)) →
  ok_but D s.
Proof.
  intros [K Lo I Fu Id Nd Fr] Hk. split; eauto.
  - intros k' p Hk' Hp. destruct (decide (k' = k)) as [->|]; [by apply Hk|]. apply Id; set_solver.
  - intros k' p Hk' Hp. destruct (decide (k' = k)) as [->|]; [by apply Hk|]. apply Fr; set_solver.
Qed.

Lemma cell_set_cell w p c : cell (set_cell p c w) p = c.
Proof. unfold cell, set_cell. simpl. by rewrite lookup_insert_eq. Qed.
Lemma cell_set_cell_ne w p q c : wp_loc p ≠ wp_loc q → cell (set_cell p c w) q = cell w q.
Proof. intros. unfold cell, set_cell. simpl. by rewrite lookup_insert_ne. Qed.
Lemma State_set_cell w p c : State (set_cell p c w) p = workerState c.
Proof. unfold State. by rewrite cell_set_cell. Qed.

(** Changes the state of a worker whose key is exempt. *)
Lemma ok_but_cell D s k p c :
  ok_but D s → pods s !! k = Some p → k ∈ D → ok_but D (upd_world (set_cell p c) s).
Proof.
  intros [K Lo I Fu Id Nd Fr] Hp Hk. split; [exact K|exact Lo|exact I|exact Fu| |exact Nd|].
  all: intros k' q Hk' Hq; simpl in Hq; unfold state_of, State; simpl; rewrite cell_set_cell_ne;
    [by eauto|intros He; apply Hk'; by rewrite (I k' k q p)].
Qed.
Lemma elem_of_put k k' s : k' ∈ idle_keys (put_idle k s) ↔ k' = k ∨ k' ∈ idle_keys s.
Proof.
  unfold idle_keys, put_idle. simpl. rewrite keys_put, elem_of_cons, list_elem_of_filter.
  destruct (decide (k' = k)); naive_solver.
Qed.
Lemma elem_of_pop k k' s : k' ∈ idle_keys (pop_idle k s) ↔ k' ≠ k ∧ k' ∈ idle_keys s.
Proof. unfold idle_keys, pop_idle. simpl. by rewrite keys_pop, list_elem_of_filter. Qed.
Lemma NoDup_pop k s : NoDup (idle_keys s) → NoDup (idle_keys (pop_idle k s)).
Proof. intros. unfold idle_keys, pop_idle. simpl. rewrite keys_pop. by apply NoDup_filter. Qed.
Lemma NoDup_put k s : NoDup (idle_keys s) → NoDup (idle_keys (put_idle k s)).
Proof.
  intros. unfold idle_keys, put_idle. simpl. rewrite keys_put. constructor; [|by apply NoDup_filter].
  rewrite list_elem_of_filter. naive_solver.
Qed.
Lemma ok_but_put D s k : ok_but D s → k ∈ D → ok_but D (put_idle k s).
Proof.
  intros [K Lo I Fu Id Nd Fr] Hk. split; [exact K|exact Lo|exact I|exact Fu|..]; [|apply NoDup_put, Nd|].
  - intros k' p Hk' Hp Hr Hst. apply elem_of_put. right. by eapply Id.
  - intros k' p Hk' Hp [->|Hi]%elem_of_put; [done|]. by eapply Fr.
Qed.
(** Takes out a key that is exempt or has no pod. *)
Lemma ok_but_pop D s k : ok_but D s → k ∈ D ∨ pods s !! k = None → ok_but D (pop_idle k s).
Proof.
  intros [K Lo I Fu Id Nd Fr] Hk. split; [exact K|exact Lo|exact I|exact Fu|..]; [|apply NoDup_pop, Nd|].
  - intros k' p Hk' Hp Hr Hst. apply elem_of_pop. split; [|by eapply Id].
    intros ->. simpl in Hp. destruct Hk as [?|Hk]; [done|]. by rewrite Hk in Hp.
  - intros k' p Hk' Hp [_ Hi]%elem_of_pop. by eapply Fr.
Qed.
(** A worker stays listed as long as it is not leased. *)
Lemma put_idle_ok s k p :
  sched_ok s → pods s !! k = Some p → IsWorking (state_of s p) = false → sched_ok (put_idle k s).
Proof.
  intros Hs Hp Hw. apply (ok_but_exit k); [|intros q _ Hq].
  - apply ok_but_put; [by apply ok_but_enter|set_solver].
  - simpl in Hq. assert (q = p) as -> by congruence. split; [|done]. intros _ _. apply elem_of_put. by left.
Qed.
(** [SetIdle] (or [SetState(Idle)]), then [idlePods.put]. *)
Lemma ok_but_idle D s k p t :
  ok_but ({[k]} ∪ D) s → pods s !! k = Some p → ok_but D (put_idle k (upd_world (set_cell p (MkCell WIdle t)) s)).
Proof.
  intros Hs Hp. apply (ok_but_exit k); [|intros q _ Hq].
  - apply ok_but_put; [|set_solver]. eapply ok_but_cell; [done..|set_solver].
  - simpl in Hq. assert (q = p) as -> by congruence. unfold state_of. simpl. rewrite State_set_cell. split; [|done].
    intros _ _. apply elem_of_put. by left.
Qed.
Lemma idle_and_put_ok s k p t :
  sched_ok s → pods s !! k = Some p → sched_ok (put_idle k (upd_world (set_cell p (MkCell WIdle t)) s)).
Proof. intros Hs. apply ok_but_idle. eapply ok_but_mono; [|exact Hs]. set_solver. Qed.
(** A worker that becomes neither idle nor leased may stay listed, and is in
    order again. *)
Lemma ok_but_other D s k p c :
  ok_but ({[k]} ∪ D) s → pods s !! k = Some p → workerState c ≠ WIdle → IsWorking (workerState c) = false →
  ok_but D (upd_world (set_cell p c) s).
Proof.
  intros Hs Hp Hi Hw. apply (ok_but_exit k); [|intros q _ Hq].
  - eapply ok_but_cell; [done..|set_solver].
  - simpl in Hq. assert (q = p) as -> by congruence. unfold state_of. simpl. rewrite State_set_cell. done.
Qed.
Lemma set_other_ok s k p c :
  sched_ok s → pods s !! k = Some p → workerState c ≠ WIdle → IsWorking (workerState c) = false →
  sched_ok (upd_world (set_cell p c) s).
Proof. intros Hs. apply ok_but_other. eapply ok_but_mono; [|exact Hs]. set_solver. Qed.
Lemma ok_but_terminating D s k p :
  ok_but ({[k]} ∪ D) s → pods s !! k = Some p → ok_but D (mark_terminating p s).
Proof.
  intros Hs Hp.
  apply (ok_but_tables D (upd_world (set_cell p (MkCell WTerminating (consumer_tenant (cell (world s) p)))) s)); [done|].
  by eapply ok_but_other.
Qed.
Lemma mark_terminating_ok s k p : sched_ok s → pods s !! k = Some p → sched_ok (mark_terminating p s).
Proof. intros Hs. apply ok_but_terminating. eapply ok_but_mono; [|exact Hs]. set_solver. Qed.
Lemma terminate_all_ok D s (ws : list (WorkerPod F)) :
  ok_but (list_to_set (pod_key <$> ws) ∪ D) s → (∀ w, w ∈ ws → pods s !! pod_key w = Some w) →
  ok_but D (foldl (λ s w, mark_terminating w s) s ws) ∧
  pods (foldl (λ s w, mark_terminating w s) s ws) = pods s.
Proof.
  revert s. induction ws as [|w ws IH]; intros s Hs Hws; simpl in *.
  - by rewrite union_empty_l_L in Hs.
  - apply (IH (mark_terminating w s)); [|intros w' Hw'; simpl; apply Hws; by right].
    eapply ok_but_terminating; [|apply Hws; by left]. eapply ok_but_mono; [|exact Hs]. set_solver.
Qed.

(** ** Handlers *)

Lemma claim_all_wp D ws (Q : unit → Sched → Prop) X s :
  ok_but D s → list_to_set (pod_key <$> ws) ⊆ D →
  (∀ s', ok_but D s' → pods s' = pods s → Q tt s') → wp (eachM claim_idle ws) Q X s.
Proof.
  intros Hs HD HQ.
  eapply wp_mono; [apply (wp_eachM (λ s', ok_but D s' ∧ pods s' = pods s) _ _ X)| |done].
  - intros w s1 Hw [H1 Hp]. unfold wp, claim_idle, assert_. destruct (lru_pop _ _).1; [|done]. split; [|done].
    apply ok_but_pop; [done|]. left. apply HD, elem_of_list_to_set, list_elem_of_fmap. eauto.
  - done.
  - intros [] s' [??]. by apply HQ.
Qed.

(** A call after which the pods are the same and all is in order. *)
Definition steady {A} (m : M A) : Prop :=
  ∀ s, sched_ok s → wp m (λ _ s', sched_ok s' ∧ pods s' = pods s) (λ s', sched_ok s' ∧ pods s' = pods s) s.
Lemma steady_keeps {A} (m : M A) : steady m → keeps sched_ok m.
Proof. intros Hm s Hs. eapply wp_mono; [by apply Hm|naive_solver..]. Qed.
Lemma steady_tables {A} (m : M A) : frames tables m → steady m.
Proof.
  intros Hm s Hs. eapply frames_wp; [done|..].
  all: intros; split; [by eapply ok_but_tables|]; unfold tables in *; congruence.
Qed.
Lemma steady_bind {A B} (m : M A) (k : A → M B) : steady m → (∀ a, steady (k a)) → steady (m ≫= k).
Proof.
  intros Hm Hk s Hs. apply wp_bind. eapply wp_mono; [by apply Hm| |done].
  intros a s1 [H1 Hp]. rewrite <-Hp. by apply Hk.
Qed.
Lemma steady_quiet {A} (m : M A) : steady m → steady (quiet m).
Proof. intros Hm s Hs. specialize (Hm s Hs). unfold wp, quiet in *. by destruct (m s) as [[]]. Qed.
Lemma steady_succeeds {A} (m : M A) : steady m → steady (succeeds m).
Proof. intros Hm s Hs. specialize (Hm s Hs). unfold wp, succeeds in *. by destruct (m s) as [[]]. Qed.
Lemma steady_modify (f : Sched → Sched) : (∀ s, sched_ok s → sched_ok (f s) ∧ pods (f s) = pods s) → steady (modify f).
Proof. intros Hf s Hs. by apply wp_modify, Hf. Qed.
Lemma steady_eachM {B} (f : B → M unit) l : (∀ b, b ∈ l → steady (f b)) → steady (eachM f l).
Proof.
  induction l as [|b l IH]; intros Hf; simpl; [by intros s Hs|].
  apply steady_bind; [apply Hf; by left|]. intros _. apply IH. intros b' Hb'. apply Hf. by right.
Qed.
(** A result read off the state. *)
Lemma steady_gets {A B} (f : Sched → A) (k : A → M B) :
  (∀ s, sched_ok s → wp (k (f s)) (λ _ s', sched_ok s' ∧ pods s' = pods s) (λ s', sched_ok s' ∧ pods s' = pods s) s) →
  steady (gets f ≫= k).
Proof. intros Hk s Hs. apply wp_bind, wp_gets, Hk, Hs. Qed.

(** ** Choosing and claiming workers *)

Lemma foldl_pop_ok D miss s : gone_keys s miss → ok_but D s → ok_but D (foldl (λ s k, pop_idle k s) s miss).
Proof.
  revert s. induction miss as [|k miss IH]; intros s Hm Hs; [done|]. simpl. apply IH.
  - intros k' Hk'. apply Hm. by right.
  - apply ok_but_pop; [done|]. right. apply Hm. by left.
Qed.
Lemma steady_drops {A} (m : M A) : (∀ s, drops_gone m s) → steady m.
Proof.
  intros Hm s Hs. destruct (Hm s) as (miss & Hg & Hm'). unfold wp.
  assert (sched_ok (m s).2 ∧ pods (m s).2 = pods s) as Hok.
  { rewrite Hm'. split; [by apply foldl_pop_ok|]. by destruct (foldl_pop_idle_only s miss) as [l ->]. }
  by destruct (m s) as [[]].
Qed.
(** Victims are distinct workers of [pods], listed as idle; unless it is a
    stray, none is leased. *)
Lemma victims_ok s good n nr0 ws nr :
  sched_ok s → victims s good (idle_oldest_first s) n nr0 ws nr →
  NoDup (pod_key <$> ws) ∧
  ∀ w, w ∈ ws → pods s !! pod_key w = Some w ∧ pod_key w ∈ idle_keys s ∧
    (pod_key w ∉ strays → IsWorking (state_of s w) = false).
Proof.
  intros Hs [(ks & Hks & Hall) _ _ _].
  assert (pod_key <$> ws = ks) as Hkeys.
  { clear Hks. induction Hall as [|k w ks ws Hw _ IH]; [done|]. simpl. f_equal; [by eapply (ok_key strays)|done]. }
  assert (NoDup (idle_oldest_first s)) as Hnd.
  { unfold idle_oldest_first. rewrite reverse_Permutation. apply (ok_nodup strays s Hs). }
  split; [rewrite Hkeys; by eapply sublist_NoDup|].
  intros w Hw. apply list_elem_of_lookup in Hw as [i Hi].
  destruct (Forall2_lookup_r _ _ _ _ _ Hall Hi) as (k & Hk & Hp).
  rewrite (ok_key strays s Hs _ _ Hp). split; [done|].
  assert (k ∈ idle_keys s) as Hidle.
  { apply elem_of_reverse. eapply elem_of_sublist; [|done]. by eapply list_elem_of_lookup_2. }
  split; [done|]. intros Hk'. by eapply (ok_free strays s Hs).
Qed.

Lemma func_pods_lookup s f p :
  sched_ok s → p ∈ GetFuncPodsByKey s f → pods s !! pod_key p = Some p ∧ FuncKey (pod p) = f.
Proof.
  intros Hs Hp. unfold GetFuncPodsByKey in Hp. destruct (funcs s !! f) as [fs|] eqn:Hf; [|by apply elem_of_nil in Hp].
  apply elem_of_values in Hp as [k' Hk].
  destruct (ok_func strays s Hs f (fs_pods fs) k' p) as [Hp ?]; [by unfold func_pods; rewrite lookup_fmap, Hf|done|].
  by rewrite (ok_key strays s Hs k' p Hp).
Qed.

Lemma GetBestResumeWorker_wp fp s (Q : WorkerPod F * list (WorkerPod F) * NodeResources → Sched → Prop) (X : Sched → Prop) :
  sched_ok s →
  (∀ p ws nr s1, sched_ok s1 → pods s1 = pods s → pods s !! pod_key p = Some p →
     (∀ w, w ∈ ws → pods s !! pod_key w = Some w) → Q (p, ws, nr) s1) →
  (∀ s1, sched_ok s1 → pods s1 = pods s → X s1) →
  wp (GetBestResumeWorker fp) Q X s.
Proof.
  intros Hs HQ HX. pose proof (steady_drops (GetBestResumeWorker fp) (λ s, proj1 (GetBestResumeWorker_run fp s)) s Hs) as Hst.
  destruct (GetBestResumeWorker_run fp s) as [_ Hrun]. unfold wp in *.
  destruct (GetBestResumeWorker fp s) as [[[[p ws] nr]|e|w] s1]; [|naive_solver|done].
  destruct (Hrun p ws nr s1 eq_refl) as (Hp & _ & _ & ns & _ & _ & Hv), Hst as [??].
  apply HQ; [done..|by eapply func_pods_lookup|]. intros w Hw. by eapply victims_ok.
Qed.

Lemma ResumePod_steady fpKey t : steady (ResumePod fpKey t).
Proof.
  unfold ResumePod. apply steady_gets. intros s Hs. destruct (funcs_from s fpKey) as [|key [|]]; [done| |done].
  apply wp_bind, wp_gets. destruct (funcs s !! key) as [fs|]; [|done].
  apply wp_bind, GetBestResumeWorker_wp; [done| |done]. intros p ws nr s1 Hs1 Hp1 Hp Hws.
  assert (∀ s', sched_ok s' → pods s' = pods s1 → sched_ok s' ∧ pods s' = pods s) as HX by (by rewrite <-Hp1).
  rewrite <-Hp1 in Hp. assert (∀ w, w ∈ ws → pods s1 !! pod_key w = Some w) as Hws1 by by rewrite Hp1.
  clear Hws. apply wp_bind, wp_read; [|by intros; apply HX]. intros ready _.
  apply wp_bind, wp_pure; [|by intros; apply HX]. intros nr' _.
  apply wp_bind, wp_pure; [|by intros; apply HX]. intros [? resources] _.
  apply wp_bind, wp_read; [|by intros; apply HX]. intros ? _.
  apply wp_bind, (claim_all_wp (list_to_set (pod_key <$> ws) ∪ strays)); [|apply union_subseteq_l|].
  { eapply ok_but_mono; [|exact Hs1]. set_solver. }
  intros s2 Hs2 Hp2. do 2 apply wp_bind, wp_modify. apply wp_bind, wp_modify.
  set (s3 := upd_world (SetConsumer p _) _).
  assert (ok_but (list_to_set (pod_key <$> ws) ∪ strays) s3 ∧ pods s3 = pods s1) as [Hs3 Hp3].
  { split; [|done]. unfold s3, SetConsumer, SetState.
    apply (ok_but_other _ _ (pod_key p)); cbn [workerState]; [|by simpl; rewrite Hp2|by simpl; rewrite cell_set_cell..].
    eapply ok_but_mono; [apply union_subseteq_r|].
    apply (ok_but_other _ _ (pod_key p)); [|by rewrite Hp2|done..].
    eapply ok_but_mono; [apply union_subseteq_r|done]. }
  apply terminate_all_ok in Hs3 as [Hs4 Hp4]; [|by rewrite Hp3].
  match goal with |- wp ?m _ _ ?s4 => assert (frames tables m) as Hf end.
  { apply frames_bind; [apply mark_stopping_frames, _|intros _]. apply frames_bind; [apply reserve_frames, _|intros _].
    apply frames_bind; [done|intros time]. apply frames_bind; [done|intros ns].
    apply frames_bind; [apply put_node_frames, _|intros _]. apply ResumeWorker_frames, _. }
  eapply frames_wp; [exact Hf|..].
  all: intros; apply HX; [by eapply ok_but_tables|]; unfold tables in *; congruence.
Qed.
End inv.
