(* ===== verification/SchedSteps.v ===== *)
(** * The handlers keep the pod tables
      (ixshare/src/scheduler/scheduler_handler.rs)

    Every handler of the loop, shown to keep [SchedInv.sched_ok]. *)

From S2P Require Import Prelude.
From S2P Require Import Wp.
From S2P Require Import Text.
From S2P Require Import BTree.
From S2P Require Import Common.
From S2P Require Import DataObj.
From S2P Require Import Resource.
From S2P Require Import Specs.
From S2P Require Import Worker.
From S2P Require Import Billing.
From S2P Require Import BiIndex.
From S2P Require Import SchedState.
From S2P Require Import Evict.
From S2P Require Import Resume.
From S2P Require Import EvictSpec.
From S2P Require Import Start.
From S2P Require Import Requests.
From S2P Require Import Events.
From S2P Require Import Dispatch.
From S2P Require Import Frames.

From S2P Require Import SchedInv.

Section steps.
Context {F L : Type} `{FloatLit F, HL : Lru L, !LruSpec L, SchedConfig, stray : Strays}.
Abbreviation Sched := (Sched F L).
Abbreviation M := (sm Sched Share.Error).
Implicit Types (s : Sched) (p q : WorkerPod F) (ws : list (WorkerPod F)).

(** Goes through the parts of a call that only read or keep books. *)
Ltac steady_books := apply steady_tables; frame_tac.

(** ** Starting pods *)

Lemma claim_and_mark_steady w s :
  sched_ok s → pods s !! pod_key w = Some w →
  wp (_ ← claim_idle w; modify (mark_terminating w)) (λ _ s', sched_ok s' ∧ pods s' = pods s)
     (λ s', sched_ok s' ∧ pods s' = pods s) s.
Proof.
  intros Hs Hw. apply wp_bind. unfold wp at 1, claim_idle, assert_. destruct (lru_pop _ _).1; [|done].
  apply wp_modify. split; [|done]. apply (ok_but_terminating _ _ (pod_key w)); [|done].
  apply ok_but_pop; [|set_solver]. by apply ok_but_enter.
Qed.
Lemma evict_and_reserve_wp func n nr ws s :
  sched_ok s → (∀ w, w ∈ ws → pods s !! pod_key w = Some w) →
  wp (evict_and_reserve func n nr ws) (λ _ s', sched_ok s' ∧ pods s' = pods s) (λ s', sched_ok s' ∧ pods s' = pods s) s.
Proof.
  intros Hs Hws. unfold evict_and_reserve. apply wp_bind.
  eapply wp_mono; [apply (wp_eachM (λ s', sched_ok s' ∧ pods s' = pods s) _ _ (λ s', sched_ok s' ∧ pods s' = pods s))|..|done].
  - intros w s1 Hw [H1 Hp1]. rewrite <-Hp1. apply claim_and_mark_steady; [done|]. rewrite Hp1. by apply Hws.
  - done.
  - intros _ s1 [H1 <-].
    match goal with |- wp ?m _ _ _ => assert (steady m) as Hm; [steady_books|] end. by apply Hm.
Qed.
Lemma GetBestNvidiaRuntimeNode_wp fp s (Q : string * list (WorkerPod F) * NodeResources → Sched → Prop) (X : Sched → Prop) :
  sched_ok s →
  (∀ n ws nr s1, sched_ok s1 → pods s1 = pods s → (∀ w, w ∈ ws → pods s !! pod_key w = Some w) → Q (n, ws, nr) s1) →
  (∀ s1, sched_ok s1 → pods s1 = pods s → X s1) →
  wp (GetBestNvidiaRuntimeNode fp) Q X s.
Proof.
  intros Hs HQ HX.
  pose proof (steady_drops (GetBestNvidiaRuntimeNode fp) (λ s, proj1 (GetBestNvidiaRuntimeNode_run fp s)) s Hs) as Hst.
  destruct (GetBestNvidiaRuntimeNode_run fp s) as [_ Hrun]. unfold wp in *.
  destruct (GetBestNvidiaRuntimeNode fp s) as [[[[n ws] nr]|e|w] s1]; [|naive_solver|done].
  destruct (Hrun n ws nr s1 eq_refl) as (ns & _ & _ & Hv), Hst as [??].
  apply HQ; [done..|]. intros w Hw. by eapply victims_ok.
Qed.
Lemma CreateOneNividaPod_steady uid k : steady (CreateOneNividaPod uid k).
Proof.
  unfold CreateOneNividaPod. apply steady_gets. intros s Hs. destruct (funcs s !! k) as [fs|]; [|done].
  apply wp_bind, GetBestNvidiaRuntimeNode_wp; [done| |done]. intros n ws nr s1 Hs1 Hp1 Hws. rewrite <-Hp1 in *.
  apply wp_bind. eapply wp_mono; [by apply evict_and_reserve_wp| |done]. intros r s2 [Hs2 <-].
  match goal with |- wp ?m _ _ _ => assert (steady m) as Hm; [steady_books|] end. by apply Hm.
Qed.

Lemma make_room_wp k n avail req s (Q : list (WorkerPod F) * NodeResources → Sched → Prop) (X : Sched → Prop) :
  sched_ok s →
  (∀ ws nr s1, sched_ok s1 → pods s1 = pods s → (∀ w, w ∈ ws → pods s !! pod_key w = Some w) → Q (ws, nr) s1) →
  (∀ s1, sched_ok s1 → pods s1 = pods s → X s1) →
  wp (make_room k n avail req) Q X s.
Proof.
  intros Hs HQ HX. unfold make_room. apply wp_bind, wp_pure; [|by intros; apply HX]. intros st _.
  destruct (AllocState_Ok st). { apply wp_ret, HQ; [done..|]. by intros w ?%elem_of_nil. }
  pose proof (steady_drops _ (TryFreeResources_drops n k avail req true) s Hs) as Hst.
  pose proof (TryFreeResources_Ok n k avail req true s) as Hok. unfold wp in *.
  destruct (TryFreeResources n k avail req true s) as [[[ws nr]|e|w] s1]; [| |done].
  - destruct (Hok ws nr s1 eq_refl) as [Hv _], Hst as [??]. apply HQ; [done..|]. intros w Hw. by eapply victims_ok.
  - destruct Hst as [Hs1 Hp1]. destruct e; try by apply HX.
    match goal with |- match ?m s1 with _ => _ end => change (wp m Q X s1) end.
    assert (∀ s', tables s' = tables s1 → X s') as HX'.
    { intros s' He. apply HX; [by eapply ok_but_tables|]. unfold tables in He. congruence. }
    apply wp_bind, wp_modify, wp_bind. eapply frames_wp; [apply AddSnapshotTask_frames, _|..].
    + intros _ s2 Hs2. apply wp_pure; [done|]. intros _ _. apply HX'. by rewrite Hs2, SetSnapshotStatus_frames by apply _.
    + intros s2 Hs2. apply HX'. by rewrite Hs2, SetSnapshotStatus_frames by apply _.
Qed.
(** Reads the state. *)
Lemma wp_the {A B} (f : Sched → A) (k : A → M B) (Q : B → Sched → Prop) X s : wp (k (f s)) Q X s → wp (gets f ≫= k) Q X s.
Proof. intros. by apply wp_bind, wp_gets. Qed.
(** An error after some cleaning up. *)
Lemma steady_rescue {A} (m : M A) (k : Share.Error → M A) :
  steady m → (∀ e, steady (k e)) → steady (λ s, match m s with (Err e, s) => k e s | r => r end).
Proof.
  intros Hm Hk s Hs. specialize (Hm s Hs). unfold wp in *. destruct (m s) as [[a|e|w] s1]; [done| |done].
  destruct Hm as [Hs1 <-]. by apply Hk.
Qed.
Lemma TryCreateSnapshotOnNode_steady uid k n : steady (TryCreateSnapshotOnNode uid k n).
Proof.
  unfold TryCreateSnapshotOnNode. intros s Hs. do 4 apply wp_the.
  destruct (snapshot_known s k n); [done|]. destruct (funcs s !! k) as [fs|]; [|done].
  destruct (bool_decide _); [done|]. destruct (nodes s !! n) as [ns|]; [|done].
  assert (∀ {A} (f : Sched → Sched) e, (∀ s, tables (f s) = tables s) →
    steady (A:=A) (_ ← modify f; pure_ (Err e))) as Hgive.
  { intros A f e Hf. apply steady_tables. apply frames_bind; [by apply frames_modify|done]. }
  destruct (negb _ && _). { apply Hgive; [|done]. intros. by apply SetSnapshotStatus_frames, _. }
  apply wp_the. destruct (negb _).
  { match goal with |- wp ?m _ _ _ => assert (steady m) as Hm by steady_books end. by apply Hm. }
  apply wp_bind, wp_pure; [|done]. intros req _. apply wp_bind, wp_pure; [|done]. intros st _.
  destruct (negb _). { apply Hgive; [|done]. intros. by apply SetSnapshotStatus_frames, _. }
  apply wp_bind, make_room_wp; [done| |done]. intros ws nr s1 Hs1 Hp1 Hws. rewrite <-Hp1 in *.
  apply wp_bind. eapply wp_mono; [by apply evict_and_reserve_wp| |done]. intros r s2 [Hs2 <-].
  match goal with |- wp ?m _ _ _ => assert (steady m) as Hm end; [|by apply Hm].
  apply steady_bind.
  { apply steady_rescue; [steady_books|]. intros e. apply steady_tables.
    apply frames_bind; [by apply frames_modify|intros _]. frame_tac. }
  intros id. apply steady_tables. apply frames_bind; [by apply frames_modify|intros _].
  frame_tac. apply frames_modify. intros. by apply AddPendingSnapshot_frames, _.
Qed.

Lemma drop_excess_frames n (x : string * Z) : frames (tables (F:=F) (L:=L)) (drop_excess n x).
Proof.
  intros s. unfold drop_excess. apply frames_eachM. clear s. intros p s. unfold stop_quietly.
  pose proof (StopWorker_frames tables (pod p) s) as Hf. by destruct (StopWorker (pod p) s) as [[]].
Qed.
Lemma TryAdjustStandbyPodsOnNode_steady shuffle uid n : steady (TryAdjustStandbyPodsOnNode shuffle uid n : M unit).
Proof.
  apply steady_tables. unfold TryAdjustStandbyPodsOnNode.
  apply frames_bind; [done|intros ns]. destruct ns as [ns|]; [|done].
  apply frames_bind; [by apply frames_modify|intros _]. apply frames_bind; [done|intros ready].
  destruct (_ || _); [done|]. apply frames_bind; [done|intros [cnt|]]; [|done].
  apply frames_bind; [done|intros [need excess]].
  apply frames_bind; [apply frames_eachM; intros; apply drop_excess_frames|intros _].
  destruct (decide _); [done|]. apply frames_bind; [done|intros k]. apply frames_bind; [done|intros [f|]]; [|done].
  do 3 (apply frames_bind; [done|intros ?]). destruct a1 as [ns' alloc].
  apply frames_bind; [apply put_node_frames, _|intros _].
  apply frames_bind; [|intros id; frame_tac].
  intros s. pose proof (StartWorker_frames tables uid (func f) alloc
    (NodeStatus_ReadyResourceQuota ns' (fs_resources (fo_spec (object (func f))))) CreateRestore [] n s) as Hf.
  destruct (StartWorker _ _ _ _ _ _ _ s) as [[id|e|w] s1]; simpl in Hf; [done| |done].
  destruct (nodes s1 !! n) as [ns1|]; [|done]. rewrite <-Hf.
  match goal with |- tables (?m s1).2 = _ => assert (frames tables m) as Hm by frame_tac end. apply Hm.
Qed.

(** ** How requests ended *)

Lemma tables_put_func s k fs fs' :
  funcs s !! k = Some fs → fs_pods fs' = fs_pods fs → tables (upd_funcs <[k := fs']> s) = tables s.
Proof.
  intros Hfs Hp. unfold tables, func_pods. simpl. rewrite fmap_insert, Hp, insert_id; [done|]. by rewrite lookup_fmap, Hfs.
Qed.
Lemma send_frames tx r : frames (tables (F:=F) (L:=L)) (on_world (send tx r)).
Proof. intros s. unfold on_world, zoom, send. case_decide; [by destruct s|done]. Qed.
Lemma send_unwrap_frames tx r : frames (tables (F:=F) (L:=L)) (on_world (send_unwrap tx r)).
Proof.
  intros s. unfold on_world, zoom, send_unwrap, send, mbind, sm_bind. case_decide; [by destruct s|done].
Qed.
Lemma reply_lease_frames tx r : frames (tables (F:=F) (L:=L)) (reply_lease tx r).
Proof. unfold reply_lease. apply frames_bind; [apply send_frames|done]. Qed.

Lemma restore_idle_ok k s : sched_ok s → sched_ok (restore_idle k s) ∧ pods (restore_idle k s) = pods s.
Proof.
  intros Hs. unfold restore_idle. destruct (pods s !! k) as [p|] eqn:Hp; [|done].
  destruct (nodes s !! pod_node p) as [ns|]; [|done].
  destruct (NodeStatus_RemoveStoppingPod ns k) as [[] ns']; [|by split; [apply (ok_but_tables strays s)|]].
  set (s1 := upd_nodes _ s). assert (sched_ok s1) as Hs1 by (by apply (ok_but_tables strays s)).
  pose proof (unstop_in_func_frames tables (FuncKey (pod p)) k
    (put_idle k (upd_world (SetState p WIdle) s1))) as Hf.
  split; [|by unfold tables in Hf; simplify_eq]. eapply ok_but_tables; [exact Hf|]. by eapply idle_and_put_ok.
Qed.
Lemma restore_all_steady keys : steady (modify (λ s, foldl (λ s k, restore_idle k s) s keys) : M unit).
Proof.
  apply steady_modify. induction keys as [|k keys IH]; intros s Hs; [done|]. simpl.
  destruct (restore_idle_ok k s Hs) as [Hs1 Hp1]. rewrite <-Hp1. by apply IH.
Qed.
Lemma ProcessStartWorkerComplete_steady k n podkey ct r res keys :
  steady (ProcessStartWorkerComplete k n podkey ct r res keys : M unit).
Proof.
  unfold ProcessStartWorkerComplete. destruct r as [e|]; [|by steady_books]. destruct (is_safe_to_restore e); [|by steady_books].
  apply steady_bind; [steady_books|intros _].
  apply steady_bind; [|intros _].
  { apply steady_tables, frames_modify. intros. by apply forget_pending_frames, _. }
  apply steady_bind; [|intros _].
  { apply steady_tables, frames_modify. intros s. case_decide; [by apply RemovePendingSnapshot_frames, _|done]. }
  apply steady_bind; [apply restore_all_steady|intros _]. steady_books.
Qed.
Lemma ProcessResumeWorkerComplete_steady k n r res keys : steady (ProcessResumeWorkerComplete k n r res keys : M unit).
Proof.
  unfold ProcessResumeWorkerComplete. destruct r as [e|]; [|by steady_books]. destruct (is_safe_to_restore e); [|by steady_books].
  apply steady_bind; [steady_books|intros _].
  intros s Hs. apply wp_the. destruct (pods s !! k) as [p|] eqn:Hp; [|done].
  apply wp_bind, wp_modify. set (s1 := upd_world _ s).
  assert (sched_ok s1) as Hs1 by (by eapply set_other_ok). change (pods s) with (pods s1).
  match goal with |- wp ?m _ _ _ => assert (steady m) as Hm end; [|by apply Hm].
  clear Hs1 s1 Hp Hs s. apply steady_gets. intros s Hs. destruct (funcs s !! FuncKey (pod p)) as [fs|]; cycle 1.
  { apply (steady_bind (mret tt)); [by steady_books| |done]. intros. apply restore_all_steady. }
  match goal with |- wp ?m _ _ _ => assert (steady m) as Hm end; [|by apply Hm].
  apply steady_bind; [|intros _; apply restore_all_steady].
  apply steady_bind; [|intros _].
  { apply steady_tables, frames_modify. intros. by apply forget_pending_frames, _. }
  clear. apply steady_tables. intros s. unfold mbind, sm_bind.
  destruct (funcs s !! FuncKey (pod p)) as [fs|] eqn:Hfs; [|done]. simpl.
  unfold PopLeaseWorkerReq. destruct (leaseWorkerReqs fs) as [|[r tx] q]; [done|].
  change (tables (reply_lease tx (lease_error "Resume RPC failed (safe to restore)")
    (upd_funcs <[FuncKey (pod p) := set_queue fs q]> s)).2 = tables s).
  rewrite reply_lease_frames. by eapply tables_put_func.
Qed.

(** Pods put back after a duplicate snapshot keep their worker's state: one
    that is leased and no stray must not be among them. *)
Lemma restore_and_charge_wp k s :
  sched_ok s → (∀ p, k ∉ strays → pods s !! k = Some p → IsWorking (state_of s p) = false) →
  wp (restore_and_charge k) (λ _ s', sched_ok s' ∧ pods s' = pods s ∧ cells (world s') = cells (world s)) (λ _, False) s.
Proof.
  intros Hs Hk. unfold wp, restore_and_charge. destruct (pods s !! k) as [p|] eqn:Hp; [|done].
  set (s1 := match nodes s !! pod_node p with Some _ => _ | None => s end).
  assert (tables s1 = tables s) as H1 by (unfold s1; by case_match).
  set (s2 := put_idle k (unstop_in_func (FuncKey (pod p)) k s1)).
  assert (tables s2 = tables (put_idle k s)) as H2.
  { pose proof (unstop_in_func_frames tables (FuncKey (pod p)) k s1) as Hf. rewrite H1 in Hf. subst s2.
    unfold tables, func_pods, put_idle in *. simpl in *. congruence. }
  assert (sched_ok (put_idle k s)) as Hs2.
  { destruct (decide (k ∈ strays)); [by apply ok_but_put|]. eapply put_idle_ok; [done..|by apply Hk]. }
  assert (∀ s', tables s' = tables s2 → sched_ok s' ∧ pods s' = pods s ∧ cells (world s') = cells (world s)) as Hend.
  { intros s' He. rewrite H2 in He. split; [by eapply ok_but_tables|]. unfold tables in He. simpl in He. by simplify_eq. }
  destruct (nodes s2 !! pod_node p) as [ns|]; [|by apply Hend].
  destruct (AllocResource _ _ _) as [[ns' ?]|e|w]; [by apply Hend..|done].
Qed.
Lemma ProcessCleanupDuplicateSnapshot_wp k n podkey res keys s :
  sched_ok s → (∀ k p, k ∈ keys → k ∉ strays → pods s !! k = Some p → IsWorking (state_of s p) = false) →
  wp (ProcessCleanupDuplicateSnapshot k n podkey res keys) (λ _ s', sched_ok s' ∧ pods s' = pods s)
     (λ s', sched_ok s' ∧ pods s' = pods s) s.
Proof.
  intros Hs Hk. unfold ProcessCleanupDuplicateSnapshot.
  assert (∀ s', tables s' = tables s → sched_ok s' ∧ pods s' = pods s ∧ cells (world s') = cells (world s)) as Hst.
  { intros s' He. split; [by eapply ok_but_tables|]. unfold tables in He. by simplify_eq. }
  assert (∀ s', tables s' = tables s → sched_ok s' ∧ pods s' = pods s) as HX by (by intros s' (? & ? & ?)%Hst).
  assert (∀ s', tables s' = tables (RemovePendingSnapshot k n s) → tables s' = tables s) as Hrem.
  { intros s' ->. by apply RemovePendingSnapshot_frames, _. }
  apply wp_bind, wp_modify, wp_bind.
  eapply frames_wp; [apply give_back_frames, _| |by intros s1 H1; apply HX, Hrem].
  intros _ s1 H1%Hrem. apply wp_bind, wp_modify.
  assert (tables (forget_pending k podkey s1) = tables s) as H2.
  { rewrite <-H1. by apply forget_pending_frames, _. }
  set (I s' := sched_ok s' ∧ pods s' = pods s ∧ cells (world s') = cells (world s)).
  eapply wp_mono; [apply (wp_eachM I _ _ (λ _, False))| |done].
  - intros key s2 Hkey (Hs2 & Hp2 & Hc2). unfold I. rewrite <-Hp2, <-Hc2. apply restore_and_charge_wp; [done|].
    intros p Hns Hp. rewrite Hp2 in Hp. specialize (Hk key p Hkey Hns Hp). unfold state_of, State, cell in *. by rewrite Hc2.
  - by apply Hst.
  - by intros _ s2 (? & ? & _).
Qed.

(** ** Prewarming and tasks *)

Lemma ProcessAddFunc_steady uid k : steady (ProcessAddFunc uid k : M bool).
Proof.
  unfold ProcessAddFunc. apply steady_gets. intros s Hs. apply wp_the. destruct (bool_decide _); [done|].
  destruct (funcs s !! k) as [fs|]; [|done]. destruct (fo_state _); [|done].
  match goal with |- wp ?m _ _ _ => assert (steady m) as Hm end; [|by apply Hm].
  do 2 (apply steady_bind; [by steady_books|intros ?]).
  apply steady_bind; [destruct (decide _); [apply steady_quiet, CreateOneNividaPod_steady|by steady_books]|intros _].
  apply steady_bind; [by steady_books|intros ?].
  destruct (decide _); [apply steady_succeeds, ResumePod_steady|by steady_books].
Qed.
Lemma RefreshScheduling_steady shuffle uids : steady (RefreshScheduling shuffle uids : M unit).
Proof.
  unfold RefreshScheduling. apply steady_bind; [by steady_books|intros l].
  induction l as [|k l IH]; [by steady_books|].
  apply steady_bind; [apply ProcessAddFunc_steady|intros []; [by steady_books|done]].
Qed.
Lemma InitSnapshotTask_steady : steady (InitSnapshotTask : M unit).
Proof. unfold InitSnapshotTask. by steady_books. Qed.
Lemma drain_due_delayed_tasks_steady : steady (drain_due_delayed_tasks : M unit).
Proof.
  apply steady_tables. intros s. unfold drain_due_delayed_tasks.
  by rewrite (frames_eachM tables) by (intros; apply AddTask_frames, _).
Qed.
Lemma ProcessTask_steady shuffle uid task : steady (ProcessTask shuffle uid task : M unit).
Proof.
  destruct task; simpl.
  - by steady_books.
  - by steady_books.
  - apply steady_quiet, TryCreateSnapshotOnNode_steady.
  - apply steady_quiet, CreateOneNividaPod_steady.
  - apply steady_quiet, TryAdjustStandbyPodsOnNode_steady.
  - by apply steady_tables, frames_modify.
  - by steady_books.
  - apply steady_tables. frame_tac. by apply frames_modify.
Qed.
End steps.
