(* ===== verification/SchedLoop.v ===== *)
(** * The scheduler's loop keeps the pod tables
      (ixshare/src/scheduler/scheduler_handler.rs)

    The requests of gateways and the informer's events, the whole loop, and
    what the invariant means for leases and evictions. *)

From S2P Require Import Prelude.
From S2P Require Import Wp.
From S2P Require Import Text.
From S2P Require Import BTree.
From S2P Require Import Common.
From S2P Require Import DataObj.
From S2P Require Import Resource.
From S2P Require Import Specs.
From S2P Require Import Worker.
From S2P Require Import Billing.
From S2P Require Import BiIndex.
From S2P Require Import SchedState.
From S2P Require Import Evict.
From S2P Require Import Resume.
From S2P Require Import EvictSpec.
From S2P Require Import Start.
From S2P Require Import Requests.
From S2P Require Import Events.
From S2P Require Import Dispatch.
From S2P Require Import Frames.

From S2P Require Import SchedInv.

From S2P Require Import SchedSteps.

Section loop.
Context {F L : Type} `{FloatLit F, HL : Lru L, !LruSpec L, SchedConfig, stray : Strays}.
Abbreviation Sched := (Sched F L).
Abbreviation M := (sm Sched Share.Error).
Implicit Types (s : Sched) (p q : WorkerPod F) (ws : list (WorkerPod F)).

Ltac steady_books := apply steady_tables; frame_tac; eauto using send_frames, send_unwrap_frames with inferx.

(** ** Requests *)

Lemma on_world_SetWorking p g s :
  on_world (SetWorking p g) s =
  match state_of s p with
  | WTerminating | WResuming | WStandby => (Panic "WorkerPod::SetWorking", s)
  | _ => (Ok tt, upd_world (SetState p (WWorking g)) s)
  end.
Proof. unfold on_world, zoom, SetWorking, state_of. by destruct (State (world s) p), s. Qed.
(** A worker is leased, and no longer listed. *)
Lemma lease_and_pop_ok s k p g t :
  sched_ok s → pods s !! k = Some p → sched_ok (pop_idle k (upd_world (set_cell p (MkCell (WWorking g) t)) s)).
Proof.
  intros Hs Hp. apply (ok_but_exit k).
  - apply ok_but_pop; [|set_solver].
    eapply ok_but_cell; [by apply ok_but_enter|done|set_solver].
  - intros q _ Hq. simpl in Hq. assert (q = p) as -> by congruence. unfold state_of. simpl. rewrite State_set_cell.
    split; [done|]. by intros [? _]%elem_of_pop.
Qed.
Lemma lease_idle_wp req tx p s :
  sched_ok s → pods s !! pod_key p = Some p → state_of s p = WIdle →
  wp (lease_idle req tx p) (λ _ s', sched_ok s' ∧ pods s' = pods s) (λ s', sched_ok s' ∧ pods s' = pods s) s.
Proof.
  intros Hs Hp Hst. unfold lease_idle. apply wp_bind. unfold wp at 1. rewrite on_world_SetWorking, Hst.
  apply wp_bind, wp_modify, wp_bind. unfold wp at 1, claim_idle, assert_. destruct (lru_pop _ _).1; [|done].
  set (s1 := pop_idle _ _).
  assert (sched_ok s1) as Hs1.
  { eapply ok_but_tables; [|by apply (lease_and_pop_ok s (pod_key p) p (lq_gateway_id req) (consumer_of (lq_consumer_tenant req)))].
    unfold s1, tables, pop_idle, SetConsumer, SetState, set_cell, set_cells. simpl.
    unfold cell. simpl. by rewrite lookup_insert_eq, insert_insert_eq. }
  change (pods s) with (pods s1). match goal with |- wp ?m _ _ _ => assert (steady m) as Hm end; [|by apply Hm].
  clear. unfold answer. by steady_books.
Qed.
Lemma ProcessLeaseWorkerReq_steady req tx : steady (ProcessLeaseWorkerReq req tx : M unit).
Proof.
  unfold ProcessLeaseWorkerReq. apply steady_gets. intros s Hs.
  destruct (funcs s !! _) as [fs|] eqn:Hfs; cycle 1.
  { match goal with |- wp ?m _ _ _ => assert (steady m) as Hm end; [|by apply Hm]. unfold answer. by steady_books. }
  match goal with |- wp ?m _ _ _ => assert (steady m) as Hm end; [clear Hfs s Hs|by apply Hm].
  apply steady_bind; [by steady_books|intros []]. { unfold answer. by steady_books. }
  apply steady_gets. intros s Hs.
  destruct (head _) as [p|] eqn:Hp.
  { apply head_Some_elem_of, list_elem_of_filter in Hp as [Hl Hin].
    apply andb_prop_elim in Hl as [_ Hidle]. unfold GetFuncPods in Hin.
    destruct (func_pods_lookup s _ p Hs Hin) as [Hpp _].
    apply lease_idle_wp; [done..|]. by destruct (state_of s p). }
  match goal with |- wp ?m _ _ _ => assert (steady m) as Hm end; [clear Hp s Hs|by apply Hm].
  do 2 (apply steady_bind; [by steady_books|intros ?]).
  destruct (decide _). { unfold answer. by steady_books. }
  apply steady_bind; [apply steady_succeeds, ResumePod_steady|intros []]; [|unfold answer; by steady_books].
  apply steady_tables. intros s. unfold PushLeaseWorkerReq. destruct (funcs s !! _) as [fs'|] eqn:Hfs; [|done].
  by eapply tables_put_func.
Qed.

Lemma GetFuncPod_Ok s tn nsp fn rev id p :
  sched_ok s → GetFuncPod s tn nsp fn rev id = Ok p → pods s !! pod_key p = Some p.
Proof.
  intros Hs Hp. unfold GetFuncPod in Hp. destruct (pods s !! _) as [q|] eqn:Hq; [|done]. simplify_eq.
  by rewrite (ok_key strays s Hs _ _ Hq).
Qed.
Lemma SetIdle_cell p w : SetIdle p w = set_cell p (MkCell WIdle None) (set_cell p (MkCell (workerState (cell w p)) None) w).
Proof. unfold SetIdle, SetState, SetConsumer. by rewrite cell_set_cell. Qed.
(** [SetIdle] and [idlePods.put] of a pod. *)
Lemma ok_but_release D s k p :
  ok_but ({[k]} ∪ D) s → pods s !! k = Some p → ok_but D (put_idle k (upd_world (SetIdle p) s)).
Proof.
  intros Hs Hp. change (upd_world (SetIdle p) s) with (upd_world (λ _, SetIdle p (world s)) s).
  rewrite SetIdle_cell. eapply ok_but_tables; [|by apply (ok_but_idle D s k p None)].
  unfold tables, put_idle, set_cell. simpl. by rewrite insert_insert_eq.
Qed.
Lemma release_ok s k p :
  sched_ok s → pods s !! k = Some p → sched_ok (put_idle k (upd_world (SetIdle p) s)).
Proof. intros Hs. apply ok_but_release. eapply ok_but_mono; [|exact Hs]. set_solver. Qed.
Lemma ProcessReturnWorkerReq_steady req tx : steady (ProcessReturnWorkerReq req tx : M unit).
Proof.
  unfold ProcessReturnWorkerReq. apply steady_gets. intros s Hs.
  destruct (GetFuncPod _ _ _ _ _ _) as [p|e|w] eqn:Hp; [|eapply (steady_tables (on_world _)), Hs; by apply send_unwrap_frames|done].
  apply GetFuncPod_Ok in Hp; [|done].
  apply wp_bind. eapply frames_wp; [apply (Dec_frames tables)|..].
  2:{ intros s1 H1. split; [by eapply ok_but_tables|]. unfold tables in H1. by simplify_eq. }
  intros _ s1 H1. assert (sched_ok s1) as Hs1 by (by eapply ok_but_tables).
  assert (pods s1 = pods s) as Hp1 by (unfold tables in H1; by simplify_eq). rewrite <-Hp1 in *. clear H1 Hp1 Hs s.
  apply wp_the. match goal with |- wp (?m ≫= _) _ _ _ => assert (∀ Q X : Sched → Prop,
    (∀ s', sched_ok s' → pods s' = pods s1 → Q s') → (∀ s', sched_ok s' → pods s' = pods s1 → X s') →
    wp m (λ _, Q) X s1) as Hm end.
  { intros Q X HQ HX. destruct (failworker req), (decide _); [by apply wp_ret, HQ| |by apply wp_ret, HQ|].
    - apply wp_bind, wp_modify.
      assert (sched_ok (mark_terminating p s1)) as Hs2 by (by eapply mark_terminating_ok).
      eapply frames_wp; [apply frames_quiet, (StopWorker_frames tables)|intros _ s2 H2; apply HQ|intros s2 H2; apply HX].
      all: try (by eapply ok_but_tables). all: unfold tables in H2; simpl in H2; by simplify_eq.
    - apply wp_bind, wp_modify, wp_modify, HQ; [by apply release_ok|done]. }
  apply wp_bind, Hm; [|done]. intros s2 Hs2 <-. eapply (steady_tables (on_world _)), Hs2. by apply send_unwrap_frames.
Qed.

Lemma ProcessKillPod_steady req : steady (ProcessKillPod req : M KillPodResp).
Proof.
  unfold ProcessKillPod. apply steady_gets. intros s Hs. set (k := FuncPodKey _ _ _ _ _).
  destruct (pods s !! k) as [p|] eqn:Hp; [|done]. apply wp_the.
  assert (wp (ok ← succeeds (StopWorker (pod p));
     (if (ok : bool) then _ ← modify (mark_terminating p); mret (MkKillPodResp "" KillOk)
      else mret (MkKillPodResp "" KillInternal)))
     (λ _ s', sched_ok s' ∧ pods s' = pods s) (λ s', sched_ok s' ∧ pods s' = pods s) s) as Hbusy.
  { apply wp_bind. eapply frames_wp; [apply frames_succeeds, (StopWorker_frames tables)|..].
    - intros ok s1 H1. assert (sched_ok s1) as Hs1 by (by eapply ok_but_tables).
      assert (pods s1 = pods s) as Hp1 by (unfold tables in H1; by simplify_eq).
      destruct ok; [|done]. apply wp_bind, wp_modify, wp_ret. split; [|done].
      eapply mark_terminating_ok; [done|]. by rewrite Hp1.
    - intros s1 H1. split; [by eapply ok_but_tables|]. unfold tables in H1. by simplify_eq. }
  destruct (state_of s p) eqn:Hst; [done|exact Hbusy|done| |exact Hbusy|done]. clear Hbusy.
  apply wp_bind, wp_modify, wp_bind. unfold wp at 1, succeeds, StopWorker.
  simpl. destruct (nodes s !! nodename (pod_spec (pod p))) as [ns|]; simpl.
  - apply wp_bind, wp_modify, wp_ret. split; [|done].
    apply (ok_but_terminating _ _ k); [|done].
    apply (ok_but_tables _ (pop_idle k s)); [done|]. apply ok_but_pop; [|set_solver].
    by apply ok_but_enter.
  - apply wp_bind, wp_modify, wp_ret. split; [|done]. apply (ok_but_exit k).
    + apply ok_but_put; [|set_solver]. apply ok_but_pop; [|set_solver]. by apply ok_but_enter.
    + intros q _ Hq. simpl in Hq. assert (q = p) as -> by congruence.
      change (state_of (put_idle k (pop_idle k s)) p) with (state_of s p). rewrite Hst. split; [|done].
      intros _ _. apply elem_of_put. by left.
Qed.

Lemma ProcessStopWorkerComplete_steady k r : steady (ProcessStopWorkerComplete k r : M unit).
Proof.
  apply steady_tables. intros s. unfold ProcessStopWorkerComplete. destruct (terminating_pods s !! k) as [meta|]; [|done].
  destruct r as [e|]; [|apply bk_terminating_pods]. destruct (chk _ _); [apply bk_terminating_pods|done..].
Qed.
Lemma pod_in_values s p : sched_ok s → p ∈ values (pods s) → pods s !! pod_key p = Some p.
Proof. intros Hs [k Hk]%elem_of_values. by rewrite (ok_key strays s Hs k p Hk). Qed.
(** A loop over pods of the table. *)
Lemma steady_pods_loop (f : WorkerPod F → M unit) ws s :
  sched_ok s → (∀ p, p ∈ ws → pods s !! pod_key p = Some p) →
  (∀ p s', sched_ok s' → pods s' !! pod_key p = Some p →
     wp (f p) (λ _ s1, sched_ok s1 ∧ pods s1 = pods s') (λ s1, sched_ok s1 ∧ pods s1 = pods s') s') →
  wp (eachM f ws) (λ _ s1, sched_ok s1 ∧ pods s1 = pods s) (λ s1, sched_ok s1 ∧ pods s1 = pods s) s.
Proof.
  intros Hs Hws Hf. apply (wp_eachM (λ s1, sched_ok s1 ∧ pods s1 = pods s)); [|done].
  intros p s1 Hp [Hs1 Hp1]. rewrite <-Hp1. apply Hf; [done|]. rewrite Hp1. by apply Hws.
Qed.
Lemma release_if_wp gone p s :
  sched_ok s → pods s !! pod_key p = Some p →
  wp (release_if gone p) (λ _ s', sched_ok s' ∧ pods s' = pods s) (λ s', sched_ok s' ∧ pods s' = pods s) s.
Proof.
  intros Hs Hp. unfold release_if. apply wp_the. destruct (state_of s p); try done. destruct (decide _); [|done].
  apply wp_bind. eapply frames_wp; [apply (Dec_frames tables)|..].
  - intros _ s1 H1. assert (pods s1 = pods s) as Hp1 by (unfold tables in H1; by simplify_eq).
    apply wp_bind, wp_modify, wp_modify. split; [|done]. apply release_ok; [by eapply ok_but_tables|by rewrite Hp1].
  - intros s1 H1. split; [by eapply ok_but_tables|]. unfold tables in H1. by simplify_eq.
Qed.
Lemma ProcessGatewayTimeout_steady : steady (ProcessGatewayTimeout : M unit).
Proof.
  unfold ProcessGatewayTimeout. apply steady_bind; [by steady_books|intros gone]. destruct (decide _); [by steady_books|].
  apply steady_bind; [by apply steady_tables, frames_modify|intros _].
  intros s Hs. apply wp_the, steady_pods_loop; [done|by intros; apply pod_in_values|]. intros. by apply release_if_wp.
Qed.
Lemma held_in_pods s g l ps p : sched_ok s → held s g l = Some ps → p ∈ ps → pods s !! pod_key p = Some p.
Proof.
  intros Hs. revert ps. induction l as [|w l IH]; intros ps Hh Hp; simpl in Hh.
  { simplify_eq. by apply elem_of_nil in Hp. }
  destruct (GetFuncPod _ _ _ _ _ _) as [q|e|why] eqn:Hq; [|by eapply IH..].
  case_decide; [done|]. apply fmap_Some in Hh as (ps' & Hh & ->).
  apply elem_of_cons in Hp as [->|Hp]; [by eapply GetFuncPod_Ok|by eapply IH].
Qed.
Lemma ProcessConnectReq_steady req tx : steady (ProcessConnectReq req tx : M bool).
Proof.
  unfold ProcessConnectReq. apply steady_bind; [by steady_books|intros []]; simpl; [|by steady_books].
  apply steady_gets. intros s Hs. destruct (held _ _ _) as [ps|] eqn:Hh.
  - apply wp_bind. eapply wp_mono; [apply steady_pods_loop; [done|by intros; eapply held_in_pods|]| |done].
    + intros p s1 Hs1 Hp. apply wp_bind. unfold wp at 1. rewrite on_world_SetWorking.
      destruct (state_of s1 p); try done; (apply wp_modify; split; [|done]); by apply lease_and_pop_ok.
    + intros _ s1 [Hs1 <-]. match goal with |- wp ?m _ _ _ => assert (steady m) as Hm by by steady_books end. by apply Hm.
  - match goal with |- wp ?m _ _ _ => assert (steady m) as Hm by by steady_books end. by apply Hm.
Qed.
Lemma CompleteWarmupAfterConnect_steady shuffle uids : steady (CompleteWarmupAfterConnect shuffle uids : M unit).
Proof.
  unfold CompleteWarmupAfterConnect. apply steady_bind; [by steady_books|intros []]; [by steady_books|].
  apply steady_bind; [by apply steady_tables, frames_modify|intros _].
  apply steady_bind; [apply RefreshScheduling_steady|intros _]. apply InitSnapshotTask_steady.
Qed.
Lemma CheckAndCompleteWarmup_steady shuffle uids : steady (CheckAndCompleteWarmup shuffle uids : M unit).
Proof.
  intros s Hs. unfold wp, CheckAndCompleteWarmup. destruct (warmupComplete s); [done|].
  destruct (warmupStartTime s) as [start|]; [|done]. case_decide; [|done]. by apply CompleteWarmupAfterConnect_steady.
Qed.
Lemma ReconcileAllStuckLeaseRequests_steady ms : steady (ReconcileAllStuckLeaseRequests ms : M nat).
Proof.
  apply steady_tables. intros s. unfold ReconcileAllStuckLeaseRequests. simpl. unfold tables, func_pods. simpl.
  do 4 f_equal. rewrite <-!map_fmap_compose. apply map_fmap_ext. intros k fs _. simpl.
  unfold ReconcileStuckLeaseRequests. by destruct (drop_stuck _ _ _).
Qed.

(** ** Cleaning up *)

Lemma pods_of_in s k p : sched_ok s → p ∈ pods_of s k → pods s !! pod_key p = Some p.
Proof.
  intros Hs Hp. unfold pods_of in Hp.
  assert (∀ (f : WorkerPod F → bool) l, p ∈ take_while f l → p ∈ l) as Htw.
  { intros f l. induction l as [|a l IH]; simpl; [done|]. destruct (f a); [|by intros ?%elem_of_nil].
    intros [->|?]%elem_of_cons; [by left|right; auto]. }
  apply Htw, list_elem_of_fmap in Hp as ([k' q] & -> & [_ Hq]%list_elem_of_filter). simpl.
  apply elem_of_entries in Hq. by rewrite (ok_key strays s Hs k' q Hq).
Qed.
Lemma RemovePodsByFunckey_steady k : steady (RemovePodsByFunckey k : M bool).
Proof.
  unfold RemovePodsByFunckey. apply steady_gets. intros s Hs. apply wp_bind.
  eapply wp_mono; [apply steady_pods_loop; [done|by intros; eapply pods_of_in|]|by intros|done].
  intros p s1 Hs1 Hp. apply wp_bind.
  eapply frames_wp; [apply frames_succeeds, (StopWorker_frames tables)|..].
  - intros ok s2 H2. assert (pods s2 = pods s1) as Hp2 by (unfold tables in H2; by simplify_eq).
    assert (sched_ok s2) as Hs2 by (by eapply ok_but_tables).
    destruct ok; [|done]. apply wp_modify. split; [|done]. eapply mark_terminating_ok; [done|]. by rewrite Hp2.
  - intros s2 H2. split; [by eapply ok_but_tables|]. unfold tables in H2. by simplify_eq.
Qed.
Lemma RemoveSnapshotByFunckey_steady k : steady (RemoveSnapshotByFunckey k : M unit).
Proof. unfold RemoveSnapshotByFunckey. by steady_books. Qed.
Lemma CleanPods_steady : steady (CleanPods : M unit).
Proof.
  unfold CleanPods. apply steady_bind; [by steady_books|intros l].
  apply steady_eachM. intros k _. apply steady_quiet, RemovePodsByFunckey_steady.
Qed.
Lemma CleanSnapshots_steady : steady (CleanSnapshots : M unit).
Proof.
  unfold CleanSnapshots. apply steady_bind; [by steady_books|intros l]. apply steady_eachM. intros k _.
  apply steady_bind; [by steady_books|intros []]; [by steady_books|].
  apply steady_quiet, RemoveSnapshotByFunckey_steady.
Qed.
Lemma ProcessRemoveFunc_steady func : steady (ProcessRemoveFunc func : M unit).
Proof.
  unfold ProcessRemoveFunc. apply steady_bind; [apply RemovePodsByFunckey_steady|intros []]; simpl; [by steady_books|].
  apply RemoveSnapshotByFunckey_steady.
Qed.

(** ** Functions and pods *)

Lemma ok_funcs_change s s' :
  (pods s', idlePods s', cells (world s'), next_cell (world s')) =
    (pods s, idlePods s, cells (world s), next_cell (world s)) →
  (∀ f m k p, func_pods s' !! f = Some m → m !! k = Some p → pods s !! k = Some p ∧ FuncKey (pod p) = f) →
  sched_ok s → sched_ok s'.
Proof.
  intros [= Hp Hi Hc Hn] Hf [K Lo I Fu Id Nd Fr].
  split; unfold idle_keys, state_of, State, cell in *; rewrite ?Hp, ?Hi, ?Hc, ?Hn; auto.
Qed.
(** The pods that wait for the function are still there. *)
Definition parked_ok s (k : string) : Prop :=
  ∀ m key p, funcPods s !! k = Some m → m !! key = Some p → pods s !! key = Some p ∧ FuncKey (pod p) = k.
Lemma AddFunc_wp func s :
  sched_ok s → parked_ok s (Function_Id func) →
  wp (AddFunc func) (λ _ s', sched_ok s' ∧ pods s' = pods s) (λ s', sched_ok s' ∧ pods s' = pods s) s.
Proof.
  intros Hs Hpark. unfold wp, AddFunc. destruct (funcs s !! Function_Id func) as [fs|]; [done|]. split; [|done].
  apply (ok_funcs_change s); [done| |exact Hs]. intros f m k p. unfold func_pods. simpl.
  rewrite fmap_insert. simpl. intros [[<- <-]|[_ Hm]]%lookup_insert_Some Hk.
  - destruct (funcPods s !! Function_Id func) as [m|] eqn:Hm; simpl in Hk; [|by rewrite lookup_empty in Hk].
    by eapply Hpark.
  - by eapply (ok_func strays s Hs).
Qed.
Lemma RemoveFunc_steady func : steady (RemoveFunc func : M unit).
Proof.
  unfold RemoveFunc. apply steady_bind; [by steady_books|intros []]; simpl; [|by steady_books].
  set (k := Function_Id func).
  apply steady_bind; [|intros _].
  { apply steady_modify. intros s Hs. split; [|done]. apply (ok_funcs_change s); [done| |exact Hs].
    intros f m key p. unfold func_pods. simpl. rewrite fmap_delete. intros [_ Hm]%lookup_delete_Some.
    by apply (ok_func strays s Hs). }
  do 3 (apply steady_bind; [by apply steady_tables, frames_modify|intros _]). by steady_books.
Qed.

(** The state a new worker starts in. *)
Definition first_state (st : PodState) : WorkerPodState :=
  match st with PReady => WIdle | PStandby => WStandby | PResuming => WResuming | _ => WInit end.
Lemma WorkerPod_New_spec (pod : FuncPod F) w :
  ∃ w', WorkerPod_New pod w = (MkWorkerPod (next_cell w) pod, w') ∧
    cells w' = <[next_cell w := MkCell (first_state (pod_state pod)) None]> (cells w) ∧ next_cell w' = S (next_cell w).
Proof.
  unfold WorkerPod_New. destruct (pod_state pod) eqn:Hst; (eexists; split; [reflexivity|]).
  all: rewrite ?SetIdle_cell; unfold SetState, SetConsumer, set_cell, cell; simpl;
    by rewrite ?lookup_insert_eq, ?insert_insert_eq.
Qed.
(** A new worker, not yet in a table. *)
Lemma new_worker_wp pod s (Q : WorkerPod F → Sched → Prop) X :
  sched_ok s →
  (∀ s1, let p := MkWorkerPod (next_cell (world s)) pod in
     sched_ok s1 → pods s1 = pods s → func_pods s1 = func_pods s → funcs s1 = funcs s → nodes s1 = nodes s → idlePods s1 = idlePods s →
     (∀ q, wp_loc q < next_cell (world s) → cell (world s1) q = cell (world s) q) →
     peer_mgr (world s1) = peer_mgr (world s) →
     state_of s1 p = first_state (pod_state pod) → wp_loc p < next_cell (world s1) →
     (∀ k q, pods s !! k = Some q → wp_loc q ≠ wp_loc p) → Q p s1) →
  wp (new_worker pod) Q X s.
Proof.
  intros Hs HQ. unfold wp, new_worker, on_world, zoom.
  destruct (WorkerPod_New_spec pod (world s)) as (w' & Hnew & Hc & Hn). rewrite Hnew.
  assert (∀ q, wp_loc q < next_cell (world s) → cell w' q = cell (world s) q) as Hcell.
  { intros q Hq. unfold cell. rewrite Hc, lookup_insert_ne; [done|lia]. }
  destruct Hs as [K Lo I Fu Id Nd Fr]. apply HQ; try done.
  - split; try done.
    + intros k p Hp. simpl. rewrite Hn. apply Nat.lt_lt_succ_r. by eapply Lo.
    + intros k p Hk Hp Hr. unfold state_of, State. simpl. rewrite Hcell by by eapply Lo. by apply Id.
    + intros k p Hk Hp Hi. unfold state_of, State. simpl. rewrite Hcell by by eapply Lo. by eapply Fr.
  - unfold WorkerPod_New in Hnew. injection Hnew as <-. simpl. by repeat case_decide.
  - unfold state_of, State, cell. simpl. by rewrite Hc, lookup_insert_eq.
  - simpl. lia.
  - intros k q Hq. specialize (Lo k q Hq). simpl. lia.
Qed.

(** Puts a new worker in the table, in place of the old one if there is one. *)
Lemma ok_but_new_pod s k p :
  sched_ok s → pod_key p = k → wp_loc p < next_cell (world s) → (∀ k' q, pods s !! k' = Some q → wp_loc q ≠ wp_loc p) →
  (∀ f m, func_pods s !! f = Some m → m !! k = None) →
  ok_but ({[k]} ∪ strays) (upd_pods <[k := p]> s).
Proof.
  intros [K Lo I Fu Id Nd Fr] Hk Hloc Hfresh Hf. split; simpl; try done.
  - intros k' q [[<- <-]|[_ Hq]]%lookup_insert_Some; [done|by apply K].
  - intros k' q [[<- <-]|[_ Hq]]%lookup_insert_Some; [done|by eapply Lo].
  - intros k1 k2 p1 p2 [[<- <-]|[_ H1]]%lookup_insert_Some [[<- <-]|[_ H2]]%lookup_insert_Some Hl; [done| | |by eapply I].
    + by destruct (Hfresh k2 p2 H2).
    + by destruct (Hfresh k1 p1 H1).
  - intros f m key q Hm Hkey. rewrite lookup_insert_ne; [by eapply Fu|]. intros ->.
    specialize (Hf f m Hm). by rewrite Hf in Hkey.
  - intros k' q Hk' Hq. rewrite lookup_insert_ne in Hq by set_solver. apply Id; set_solver.
  - intros k' q Hk' Hq. rewrite lookup_insert_ne in Hq by set_solver. apply Fr; set_solver.
Qed.
(** The worker of [pods] is filed under its function. *)
Lemma ok_func_insert D s k p fs :
  ok_but D s → pods s !! k = Some p →
  (∀ key q, fs_pods fs !! key = Some q → key = k ∧ q = p ∨ pods s !! key = Some q ∧ FuncKey (pod q) = FuncKey (pod p)) →
  ok_but D (upd_funcs <[FuncKey (pod p) := fs]> s).
Proof.
  intros [K Lo I Fu Id Nd Fr] Hp Hfs. split; try done.
  intros f m key q. unfold func_pods. simpl. rewrite fmap_insert.
  intros [[<- <-]|[_ Hm]]%lookup_insert_Some Hkey; [|by eapply Fu].
  destruct (Hfs key q Hkey) as [[-> ->]|[??]]; done.
Qed.

(** Files a worker of [pods] under its function, or lets it wait. *)
Lemma file_pod_wp k p s (fs' : FuncStatus F → FuncStatus F) :
  sched_ok s → pods s !! k = Some p →
  (∀ fs key q, fs_pods (fs' fs) !! key = Some q → key = k ∧ q = p ∨ fs_pods fs !! key = Some q) →
  wp (fs ← gets (λ s, funcs s !! FuncKey (pod p));
      match fs with
      | None => modify (upd_funcPods (park (FuncKey (pod p)) k p))
      | Some fs => put_func (FuncKey (pod p)) (fs' fs)
      end) (λ _, sched_ok) sched_ok s.
Proof.
  intros Hs Hp Hfs. apply wp_the. destruct (funcs s !! _) as [fs|] eqn:Hf; apply wp_modify.
  - apply (ok_func_insert strays s k); [done..|]. intros key q Hq. destruct (Hfs fs key q Hq) as [?|Hold]; [by left|].
    right. eapply (ok_func strays s Hs); [|done]. unfold func_pods. by rewrite lookup_fmap, Hf.
  - by apply (ok_but_tables strays s).
Qed.
Lemma start_snapshot_no_err time (pod : FuncPod F) b : no_err (start_snapshot_pod_billing uuid enableSnapshotBilling time pod b).
Proof.
  unfold start_snapshot_pod_billing. destruct (negb _); [done|].
  apply no_err_bind; [apply no_err_lift, no_err_chk|].
  intros. by case_decide.
Qed.
Lemma AddPod_keeps pod : keeps sched_ok (AddPod pod : M unit).
Proof.
  intros s Hs. unfold AddPod. set (k := PodKey pod).
  apply wp_bind, new_worker_wp; [done|]. intros s1 p Hs1 Hp1 Hf1 _ _ Hi1 _ _ Hst1 Hloc1 Hfresh1.
  apply wp_the, wp_bind, wp_modify, wp_bind, wp_pure_no_err; [apply no_err_assert|].
  intros [] Hassert. unfold assert_ in Hassert. destruct (bool_decide _) eqn:Hnone; [|done]. clear Hassert.
  apply bool_decide_eq_true in Hnone.
  assert (ok_but ({[k]} ∪ strays) (upd_pods <[k := p]> s1)) as Hs2.
  { apply ok_but_new_pod; [done..|by rewrite Hp1|]. intros f m Hm. destruct (m !! k) as [q|] eqn:Hq; [|done].
    destruct (ok_func strays s1 Hs1 f m k q Hm Hq). congruence. }
  assert (pods (upd_pods <[k := p]> s1) !! k = Some p) as Hp2 by (simpl; by rewrite lookup_insert_eq).
  assert (state_of (upd_pods <[k := p]> s1) p = first_state (pod_state pod)) as Hst2 by done.
  revert Hs2 Hp2 Hst2. generalize (upd_pods <[k := p]> s1). clear Hs1 Hp1 Hf1 Hi1 Hst1 Hloc1 Hfresh1 Hnone.
  intros s2 Hs2 Hp2 Hst2. apply wp_bind.
  (* until the pod is listed its key is exempt *)
  set (Inv s' := ok_but ({[k]} ∪ strays) s' ∧ pods s' !! k = Some p ∧ state_of s' p = first_state (pod_state pod)).
  assert (∀ s', tables s' = tables s2 → Inv s') as HI.
  { intros s' He. split; [by eapply ok_but_tables|]. injection He as Hp _ _ Hc _.
    unfold state_of, State, cell in *. by rewrite Hp, Hc. }
  eapply (wp_mono _ (λ _, Inv) _ (λ _, False)); [| |done].
  { destruct (_ && _); [|by apply wp_ret, HI]. apply wp_bind, wp_modify.
    assert (tables (AddPendingSnapshot (FuncKey pod) (nodename (pod_spec pod)) s2) = tables s2) as He
      by (by apply AddPendingSnapshot_frames, _).
    destruct (is_snapshot_pod_finished _); [by apply wp_ret, HI|]. unfold wp, bill_now.
    pose proof (start_snapshot_no_err (now (world (AddPendingSnapshot (FuncKey pod) (nodename (pod_spec pod)) s2))) pod
      (billing (AddPendingSnapshot (FuncKey pod) (nodename (pod_spec pod)) s2))) as Hne.
    destruct (start_snapshot_pod_billing _ _ _ _ _); [|done..]. apply HI. by rewrite bk_billing by apply _. }
  clear HI. intros _ s3 (Hs3 & Hp3 & Hst3). apply wp_the, wp_bind.
  eapply (wp_mono _ (λ _ s', sched_ok s' ∧ pods s' !! k = Some p) _ (λ _, False)); [| |done].
  { unfold leasable. rewrite Hst3. destruct (bool_decide _) eqn:Hready; simpl.
    - apply bool_decide_eq_true in Hready. simpl in Hready. rewrite Hready. simpl. apply wp_bind, wp_modify, wp_modify.
      split; [|done]. apply ok_but_release; [done|done].
    - apply wp_ret. split; [|done]. apply (ok_but_exit k); [done|].
      intros q _ Hq. assert (q = p) as -> by congruence. rewrite Hst3. split; [|by destruct (pod_state pod)].
      intros Hr _. by apply bool_decide_eq_false in Hready. }
  intros _ s4 [Hs4 Hp4]. apply wp_the.
  apply wp_bind. eapply (frames_wp tables).
  { destruct (nodes s4 !! _) as [ns|]; [|by apply frames_modify]. apply frames_bind; [done|intros]. apply put_node_frames, _. }
  2:{ intros s5 H5. by eapply ok_but_tables. }
  intros _ s5 H5. assert (sched_ok s5) as Hs5 by (by eapply ok_but_tables).
  injection H5 as Hp5 _ _ _ _. apply (file_pod_wp k p); [done|by rewrite Hp5|].
  intros fs key q. simpl. intros [[<- <-]|[_ ?]]%lookup_insert_Some; auto.
Qed.
End loop.
