(* ===== verification/SchedSafe.v ===== *)
(** * The scheduler in operation: what holds after every pass of its loop
      (ixshare/src/scheduler/scheduler_handler.rs)

    Updates and removals of pods, the whole of [ProcessOnce], the states the
    loop can reach, and what the invariant means for leases and evictions. *)

From S2P Require Import Prelude.
From S2P Require Import Wp.
From S2P Require Import Text.
From S2P Require Import BTree.
From S2P Require Import Common.
From S2P Require Import DataObj.
From S2P Require Import Resource.
From S2P Require Import Specs.
From S2P Require Import Worker.
From S2P Require Import Billing.
From S2P Require Import BiIndex.
From S2P Require Import SchedState.
From S2P Require Import Evict.
From S2P Require Import Resume.
From S2P Require Import EvictSpec.
From S2P Require Import Start.
From S2P Require Import Requests.
From S2P Require Import Events.
From S2P Require Import Dispatch.
From S2P Require Import Frames.

From S2P Require Import SchedInv.

From S2P Require Import SchedSteps.

From S2P Require Import SchedLoop.

Section safe.
Context {F L : Type} `{FloatLit F, HL : Lru L, !LruSpec L, SchedConfig, stray : Strays}.
Abbreviation Sched := (Sched F L).
Abbreviation M := (sm Sched Share.Error).
Implicit Types (s : Sched) (p q : WorkerPod F) (ws : list (WorkerPod F)).

Ltac steady_books := apply steady_tables; frame_tac; eauto using send_frames, send_unwrap_frames with inferx.

(** ** An updated pod *)

Lemma no_err_FreeResource (ns : NodeStatus F) r : no_err (FreeResource ns r).
Proof.
  unfold FreeResource, NodeResources_Add, GPUResourceMap_Add, update_loop.
  apply no_err_bind; [apply no_err_lift|done]. unfold add_entry, all_nonneg. no_err_tac.
Qed.

(** The host of the pod is a known peer. *)
Definition host_known w (pod : FuncPod F) : bool := is_ok (LookforPeer (peer_mgr w) (ipAddr (pod_spec pod))).
(** The loop over the waiting requests: the worker changes hands only when
    requests wait, and the loop fails only when its host is not known. *)
Lemma serve_waiting_spec p l w :
  State w p = WIdle →
  match serve_waiting p l w with
  | (Panic _, _, _) => True
  | (Err _, _, w') => cells w' = cells w ∧ next_cell w' = next_cell w ∧ l ≠ [] ∧ host_known w (pod p) = false
  | (Ok stays, _, w') => ∃ c, cells w' = <[wp_loc p := c]> (cells w) ∧ next_cell w' = next_cell w ∧
      if stays then workerState c = WIdle else IsWorking (workerState c) = true ∧ l ≠ []
  end.
Proof.
  intros Hst. induction l as [|[r tx] l IH]; cbn [serve_waiting].
  - rewrite SetIdle_cell. exists (MkCell WIdle None). split_and!; [|done..]. unfold set_cell. simpl. by rewrite insert_insert_eq.
  - case_decide; [done|]. unfold host_known in *. destruct (LookforPeer _ _) as [peer|e|why]; [|done..].
    unfold send. case_decide.
    { destruct (serve_waiting p l w) as [[[stays|?|?] ?] ?]; [|naive_solver|done].
      destruct IH as (c & ? & ? & Hc). exists c. split_and!; [done..|]. destruct stays; naive_solver. }
    unfold mbind, sm_bind, SetWorking. change (State (push_sent tx _ w) p) with (State w p). rewrite Hst. simpl.
    set (w2 := SetConsumer p _ _).
    assert (cells w2 = <[wp_loc p := MkCell (WWorking (lq_gateway_id (l_req r))) (consumer_of (lq_consumer_tenant (l_req r)))]> (cells w)) as Hc.
    { unfold w2, SetConsumer, SetState, set_cell, cell. simpl. by rewrite lookup_insert_eq, insert_insert_eq. }
    unfold Inc. destruct (usedGpuCnt w2 !! _) as [n|]; simpl; [|eexists; split_and!; [exact Hc|done..]].
    destruct (chk u64 (n + gpu_count p)) eqn:Hchk; simpl; [eexists; split_and!; [exact Hc|done..]| |done].
    pose proof (no_err_chk (E:=Share.Error) u64 (n + gpu_count p)) as Hne. by rewrite Hchk in Hne.
Qed.

(** A worker that takes the place of another one in the table and with its
    function; its key is still exempt. *)
Lemma ok_but_replace s k p old :
  sched_ok s → pods s !! k = Some old → pod_key p = k → FuncKey (pod old) = FuncKey (pod p) →
  wp_loc p < next_cell (world s) → (∀ k' q, pods s !! k' = Some q → wp_loc q ≠ wp_loc p) →
  match funcs s !! FuncKey (pod p) with
  | None => ok_but ({[k]} ∪ strays) (upd_pods <[k := p]> s)
  | Some fs => ∀ fs', fs_pods fs' = <[k := p]> (fs_pods fs) →
      ok_but ({[k]} ∪ strays) (upd_funcs <[FuncKey (pod p) := fs']> (upd_pods <[k := p]> s))
  end.
Proof.
  intros Hs Hold Hk Hf Hloc Hfresh.
  assert (∀ f m q, func_pods s !! f = Some m → m !! k = Some q → f = FuncKey (pod p)) as Honly.
  { intros f m q Hm Hq. destruct (ok_func strays s Hs f m k q Hm Hq). congruence. }
  destruct (funcs s !! FuncKey (pod p)) as [fs|] eqn:Hfs.
  - intros fs' Hfs'.
    set (s0 := upd_funcs <[FuncKey (pod p) := set_fs_pods fs (delete k (fs_pods fs)) ∅ ∅]> s).
    assert (sched_ok s0) as Hs0.
    { apply (ok_funcs_change s); [done| |exact Hs]. intros f m key q. unfold s0, func_pods. simpl.
      rewrite fmap_insert. intros [[<- <-]|[_ Hm]]%lookup_insert_Some Hq; [|by eapply (ok_func strays s Hs)].
      simpl in Hq. apply lookup_delete_Some in Hq as [_ Hq]. eapply (ok_func strays s Hs); [|done].
      unfold func_pods. by rewrite lookup_fmap, Hfs. }
    assert (ok_but ({[k]} ∪ strays) (upd_pods <[k := p]> s0)) as Hs1.
    { apply ok_but_new_pod; try done. intros f m. unfold s0, func_pods. simpl. rewrite fmap_insert.
      intros [[<- <-]|[Hne Hm]]%lookup_insert_Some; [simpl; by rewrite lookup_delete_eq|].
      destruct (m !! k) as [q|] eqn:Hq; [|done]. destruct Hne. symmetry. by eapply Honly. }
    apply (ok_func_insert _ _ k p fs') in Hs1; [|by simpl; rewrite lookup_insert_eq|].
    + eapply ok_but_tables; [|exact Hs1]. unfold tables, func_pods. simpl.
      by rewrite !fmap_insert, insert_insert_eq.
    + intros key q. rewrite Hfs'. intros [[<- <-]|[Hne Hq]]%lookup_insert_Some; [by left|]. right. simpl.
      rewrite lookup_insert_ne by done. eapply (ok_func strays s Hs); [|done]. unfold func_pods. by rewrite lookup_fmap, Hfs.
  - apply ok_but_new_pod; try done. intros f m Hm. destruct (m !! k) as [q|] eqn:Hq; [|done].
    pose proof (Honly f m q Hm Hq) as ->. unfold func_pods in Hm. by rewrite lookup_fmap, Hfs in Hm.
Qed.

(** A pod that is reported under a known key is one of the same function. *)
Definition same_func s (pod : FuncPod F) : Prop :=
  ∀ old, pods s !! PodKey pod = Some old → FuncKey (Worker.pod old) = FuncKey pod.
(** The updates after which the loop has lost track of the pod: it is ready, its
    worker was not leased, and either its function is not known (the worker is
    idle and not listed) or requests wait for it and it is listed already (it is
    leased and stays listed) or its host is not a known peer (the call fails
    before it is listed). *)
Definition update_astray s (pod : FuncPod F) : bool :=
  bool_decide (pod_state pod = PReady) &&
  negb (match pods s !! PodKey pod with Some old => IsWorking (state_of s old) | None => false end) &&
  match funcs s !! FuncKey pod with
  | None => true
  | Some fs => bool_decide (leaseWorkerReqs fs ≠ []) && (bool_decide (PodKey pod ∈ idle_keys s) || negb (host_known (world s) pod))
  end.

(** The last part of [UpdatePod]: the worker [p] that replaces [old] in [pods]
    is filed under its function, and served or listed when it is idle. *)
Lemma finish_update_wp s s1 k p old :
  sched_ok s → pods s !! k = Some old → pod_key p = k → FuncKey (pod old) = FuncKey (pod p) →
  wp_loc p < next_cell (world s) → (∀ k' q, pods s !! k' = Some q → wp_loc q ≠ wp_loc p) →
  tables s1 = tables (upd_pods <[k := p]> s) → funcs s1 = funcs s →
  (k ∉ strays → pod_state (pod p) = PReady → state_of s p = WIdle →
     ∃ fs, funcs s !! FuncKey (pod p) = Some fs ∧
       (leaseWorkerReqs fs ≠ [] → k ∉ idle_keys s ∧ host_known (world s1) (pod p) = true)) →
  (k ∉ strays → k ∈ idle_keys s → IsWorking (state_of s p) = false) →
  wp (known ← gets (λ s, bool_decide (is_Some (funcs s !! FuncKey (pod p))));
      add_to_idle ← (if (known : bool) then func_update (FuncKey (pod p)) p
                     else _ ← modify (upd_funcPods (park (FuncKey (pod p)) k p)); mret false);
      if (add_to_idle : bool) then modify (put_idle k) else mret tt) (λ _, sched_ok) sched_ok s1.
Proof.
  intros Hs Hold Hk Hf Hloc Hfresh Htab Hfuncs Hready Hfree.
  pose proof (ok_but_replace s k p old Hs Hold Hk Hf Hloc Hfresh) as Hrep.
  injection Htab as Hp1 Hf1 Hi1 Hc1 Hn1.
  assert (pods s1 !! k = Some p) as Hp1k by (rewrite Hp1; apply lookup_insert_eq).
  assert (∀ s2 c, pods s2 = pods s1 → state_of s2 p = c → ok_but ({[k]} ∪ strays) s2 →
    (k ∉ strays → pod_state (pod p) = PReady → c = WIdle → k ∈ idle_keys s2) →
    (k ∉ strays → k ∈ idle_keys s2 → IsWorking c = false) → sched_ok s2) as Hexit.
  { intros s2 c Hp2 Hc Hs2 H1 H2. apply (ok_but_exit k); [done|].
    intros q Hn Hq. rewrite Hp2, Hp1k in Hq. simplify_eq. auto. }
  assert (state_of s1 p = state_of s p) as Hst by (unfold state_of, State, cell; by rewrite Hc1).
  apply wp_the, wp_bind. rewrite Hfuncs. destruct (funcs s !! FuncKey (pod p)) as [fs|] eqn:Hfs; cycle 1.
  { rewrite bool_decide_false by by intros []. apply wp_bind, wp_modify, wp_ret, wp_ret.
    eapply (Hexit _ (state_of s p)); [done|done| | |].
    - eapply ok_but_tables; [|exact Hrep]. unfold tables, func_pods in *. simpl in *. congruence.
    - intros Hn Hr Hi. by destruct (Hready Hn Hr Hi) as (? & ? & _).
    - unfold idle_keys. simpl. rewrite Hi1. apply Hfree. }
  rewrite bool_decide_true by done. unfold wp at 1, func_update. rewrite Hfuncs, Hfs. unfold FuncStatus_UpdatePod.
  destruct (bool_decide (is_Some _)); simpl; [|done].
  set (fs1 l := set_queue (set_fs_pods fs (<[PodKey (pod p) := p]> (fs_pods fs)) (fs_pendingPods fs) (fs_stoppingPods fs)) l).
  set (s2 l w := upd_world (λ _, w) (upd_funcs <[FuncKey (pod p) := fs1 l]> s1)).
  assert (∀ l, ok_but ({[k]} ∪ strays) (upd_funcs <[FuncKey (pod p) := fs1 l]> (upd_pods <[k := p]> s))) as Hnew.
  { intros l. apply Hrep. unfold pod_key in Hk. by subst k. }
  assert (∀ l, ok_but ({[k]} ∪ strays) (s2 l (world s1))) as Hsame.
  { intros l. eapply ok_but_tables; [|apply (Hnew l)]. unfold tables, func_pods in *. simpl in *.
    rewrite !fmap_insert. congruence. }
  assert (∀ l c w, cells w = <[wp_loc p := c]> (cells (world s1)) → next_cell w = next_cell (world s1) → ok_but ({[k]} ∪ strays) (s2 l w)) as Hcell.
  { intros l c w Hcw Hnw. specialize (Hnew l).
    apply (ok_but_cell _ _ k p c) in Hnew; [|by simpl; rewrite lookup_insert_eq|set_solver].
    eapply ok_but_tables; [|exact Hnew]. unfold tables, func_pods in *. simpl in *. rewrite !fmap_insert, Hcw, Hnw.
    congruence. }
  destruct (bool_decide (pod_state (pod p) = PReady) && IsIdle (State (world s1) p)) eqn:Hri.
  - apply andb_true_iff in Hri as [Hr%bool_decide_eq_true Hidle].
    assert (State (world s1) p = WIdle) as Hw by (by destruct (State (world s1) p)).
    assert (k ∉ strays → leaseWorkerReqs fs ≠ [] → k ∉ idle_keys s ∧ host_known (world s1) (pod p) = true) as Hwait.
    { intros Hn. destruct (Hready Hn Hr) as (? & [= <-] & ?); [by rewrite <-Hst|done]. }
    pose proof (serve_waiting_spec p (leaseWorkerReqs fs) (world s1) Hw) as Hserve. simpl.
    destruct (serve_waiting p (leaseWorkerReqs fs) (world s1)) as [[[stays|e|why] l] w']; [| |done].
    2:{ destruct Hserve as (Hcw & Hnw & Hl & Hh). apply (Hexit _ (state_of s1 p)); [done| | |..].
        - unfold state_of, State, cell. simpl. by rewrite Hcw.
        - eapply ok_but_tables; [|apply (Hsame l)]. unfold tables, func_pods. simpl. by rewrite Hcw, Hnw.
        - intros Hn. destruct (Hwait Hn Hl) as [_ ?]. congruence.
        - intros Hn. destruct (Hwait Hn Hl) as [_ ?]. congruence. }
    destruct Hserve as (c & Hcw & Hnw & Hc). specialize (Hcell l c w' Hcw Hnw).
    assert (state_of (s2 l w') p = workerState c) as Hsc.
    { unfold state_of, State, cell, s2. simpl. by rewrite Hcw, lookup_insert_eq. }
    assert (idle_keys (s2 l w') = idle_keys s) as Hik by (unfold idle_keys; simpl; by rewrite Hi1).
    destruct stays.
    + apply wp_modify, (Hexit _ (workerState c)); [done|done| |..].
      * apply ok_but_put; [done|set_solver].
      * intros _ _ _. apply elem_of_put. by left.
      * by rewrite Hc.
    + destruct Hc as [Hc Hl]. apply wp_ret, (Hexit _ (workerState c)); [done|done|done|..].
      * intros _ _ Hi. by rewrite Hi in Hc.
      * intros Hn Hi. change (k ∈ idle_keys (s2 l w')) in Hi. rewrite Hik in Hi. by destruct (Hwait Hn Hl).
  - simpl. apply wp_ret. change (sched_ok (s2 (leaseWorkerReqs fs) (world s1))).
    apply (Hexit _ (state_of s p)); [done|exact Hst|done|..].
    + intros _ Hr Hi. rewrite <-Hst in Hi. unfold state_of in Hi. by rewrite Hr, Hi, bool_decide_true in Hri.
    + unfold idle_keys. simpl. rewrite Hi1. apply Hfree.
Qed.

(** The cell of a worker that no pod has. *)
Lemma ok_fresh_cell s p c :
  sched_ok s → (∀ k q, pods s !! k = Some q → wp_loc q ≠ wp_loc p) → sched_ok (upd_world (set_cell p c) s).
Proof.
  intros [K Lo I Fu Id Nd Fr] Hf. split; try done; intros k q Hk Hq; unfold state_of, State; simpl;
    (rewrite cell_set_cell_ne by (intros He; by apply (Hf k q Hq))); eauto.
Qed.
Lemma UpdatePod_wp pod s :
  sched_ok s → same_func s pod → (update_astray s pod = true → PodKey pod ∈ strays) →
  wp (UpdatePod pod) (λ _, sched_ok) sched_ok s.
Proof.
  intros Hs Hfunc Hastray. unfold UpdatePod. set (k := PodKey pod) in *.
  apply wp_bind, new_worker_wp; [done|].
  intros s1 p Hs1 Hp1 Hf1 Hfu1 _ Hi1 Hc1 Hpeer1 Hst1 Hloc1 Hfresh1.
  apply wp_the, wp_bind, wp_modify. rewrite Hp1. destruct (pods s !! k) as [old|] eqn:Hold; [|done].
  assert (state_of (upd_pods <[k := p]> s1) old = state_of s old) as Hso.
  { unfold state_of, State. simpl. rewrite Hc1; [done|by eapply (ok_loc strays s Hs)]. }
  apply wp_the. rewrite Hso.
  (* [s2]: the table as it was, and the new worker's cell as the handler sets it *)
  set (st := if IsWorking (state_of s old) then state_of s old else first_state (pod_state pod)).
  apply wp_bind. apply (wp_mono _ (λ _ s3, ∃ s2, sched_ok s2 ∧ pods s2 = pods s ∧ funcs s2 = funcs s ∧ idlePods s2 = idlePods s ∧
    wp_loc p < next_cell (world s2) ∧ state_of s2 p = st ∧ peer_mgr (world s2) = peer_mgr (world s) ∧
    s3 = upd_pods <[k := p]> s2) _ (λ _, False)); [| |done].
  { subst st. destruct (IsWorking (state_of s old)) eqn:Hw; [|by apply wp_ret; exists s1; rewrite Hpeer1].
    apply wp_bind, wp_modify, wp_modify.
    exists (upd_world (SetConsumer p (consumer_tenant (cell (world s1) old))) (upd_world (SetState p (state_of s old)) s1)).
    assert (wp_loc old ≠ wp_loc p) as Hne by by eapply Hfresh1.
    split_and!; try done.
    - unfold SetConsumer, SetState. apply ok_fresh_cell; [apply ok_fresh_cell|]; simpl; rewrite ?Hp1; done.
    - unfold state_of. simpl. unfold State, SetConsumer, SetState. by rewrite !cell_set_cell.
    - cbv beta. assert (∀ w, cell (SetState p (state_of s old) w) old = cell w old) as He.
      { intros w. unfold SetState. by apply cell_set_cell_ne. }
      simpl. by rewrite He. }
  intros _ s3 (s2 & Hs2 & Hp2 & Hfu2 & Hi2 & Hloc2 & Hst2 & Hpeer2 & ->). apply wp_the.
  assert (∀ s4, tables s4 = tables (upd_pods <[k := p]> s2) → funcs s4 = funcs s2 → peer_mgr (world s4) = peer_mgr (world s2) →
    wp (known ← gets (λ s, bool_decide (is_Some (funcs s !! FuncKey pod)));
        add_to_idle ← (if (known : bool) then func_update (FuncKey pod) p
                       else _ ← modify (upd_funcPods (park (FuncKey pod) k p)); mret false);
        if (add_to_idle : bool) then modify (put_idle k) else mret tt) (λ _, sched_ok) sched_ok s4) as Hend.
  { intros s4 H4 Hf4 Hp4. apply (finish_update_wp s2 s4 k p old); try done.
    - by rewrite Hp2.
    - by apply Hfunc.
    - intros k' q. rewrite Hp2. apply Hfresh1.
    - intros Hn Hr Hw. rewrite Hst2 in Hw. destruct (update_astray s pod) eqn:Ha; [by destruct Hn; apply Hastray|].
      unfold update_astray in Ha. fold k in Ha. rewrite Hold, (bool_decide_true _ Hr) in Ha.
      destruct (IsWorking (state_of s old)) eqn:Hwk; [unfold st in Hw; by rewrite Hw in Hwk|]. simpl in Ha, Hw.
      rewrite Hfu2. simpl. destruct (funcs s !! FuncKey pod) as [fs|]; [|done]. exists fs. split; [done|]. intros Hl.
      rewrite (bool_decide_true _ Hl) in Ha. apply orb_false_iff in Ha as [Ha%bool_decide_eq_false Hh%negb_false_iff].
      unfold idle_keys, host_known in *. by rewrite Hi2, Hp4, Hpeer2.
    - unfold idle_keys. rewrite Hi2, Hst2. intros Hn Hi. unfold st. destruct (IsWorking (state_of s old)) eqn:Hw.
      + by rewrite (ok_free strays s Hs k old) in Hw.
      + by destruct (pod_state pod). }
  apply wp_bind. destruct (nodes (upd_pods <[k := p]> s2) !! _) as [ns|]; cycle 1.
  { apply wp_modify. by apply Hend. }
  apply wp_bind, wp_pure_no_err.
  { unfold NodeStatus_UpdatePod. no_err_tac. }
  intros ns' _. apply wp_bind, wp_pure_no_err.
  { destruct (_ && _); [apply no_err_FreeResource|done]. }
  intros ns2 _. apply wp_modify. by apply Hend.
Qed.

(** ** A removed pod *)

Lemma AddSnapshotTask_never_err n k : never_err (AddSnapshotTask n k : M unit).
Proof. intros s. unfold AddSnapshotTask. destruct (funcs s !! k); [|done]. by case_decide. Qed.
Lemma Dec_never_err label cnt : never_err (on_world (Dec label cnt) : sm Sched Share.Error Z).
Proof. intros s. unfold on_world, zoom, Dec. by destruct (usedGpuCnt (world s) !! label). Qed.
Lemma count_failure_no_err st : no_err (count_failure st).
Proof. unfold count_failure. no_err_tac. Qed.
Lemma push_failure_frames client fuel n st : frames (tables (F:=F) (L:=L)) (push_failure client fuel n st).
Proof.
  revert n st. induction fuel as [|fuel IH]; intros n st; [done|]. simpl.
  apply frames_bind; [apply frames_modify; intros; apply bk_rpc|intros _].
  destruct (sc_Update client n); [done| |done]. destruct (decide _); [done|]. frame_tac.
Qed.
Lemma push_failure_never_err client fuel n st : never_err (push_failure client fuel n st : M unit).
Proof.
  revert n st. induction fuel as [|fuel IH]; intros n st; [done|]. simpl.
  apply never_err_bind; [done|intros _]. destruct (sc_Update client n); [done| |done]. destruct (decide _); [done|].
  apply never_err_bind; [apply never_err_pure, no_err_unwrap|intros ?].
  apply never_err_bind; [apply never_err_pure; by destruct a|intros ?].
  apply never_err_bind; [apply never_err_pure, count_failure_no_err|intros ?]. apply IH.
Qed.
Lemma note_failure_quiet client pod func :
  frames (tables (F:=F) (L:=L)) (note_failure client pod func) ∧ never_err (note_failure client pod func : M unit).
Proof.
  unfold note_failure. destruct (create_type (pod_spec pod)); [done| |split].
  - split.
    + apply frames_bind; [done|intros [st|]]; [|done]. frame_tac. apply push_failure_frames.
    + apply never_err_bind; [done|intros [st|]]; [|done].
      apply never_err_bind; [apply never_err_pure, count_failure_no_err|intros ?].
      apply never_err_bind; [apply AddSnapshotTask_never_err|intros _].
      destruct (negb _); [done|apply push_failure_never_err].
  - frame_tac.
  - apply never_err_bind; [apply never_err_pure, no_err_chk|done].
Qed.
Lemma retry_snapshot_quiet pod :
  frames (tables (F:=F) (L:=L)) (retry_snapshot pod) ∧ never_err (retry_snapshot pod : M unit).
Proof.
  unfold retry_snapshot. destruct (_ && _); [|done]. split.
  - frame_tac. apply frames_modify. intros. by apply RemovePendingSnapshot_frames, _.
  - apply never_err_bind; [done|intros []]; (apply never_err_bind; [|done]); [done|apply AddSnapshotTask_never_err].
Qed.

(** The pod leaves the table and its function. *)
Lemma ok_but_removed s k p :
  ok_but ({[k]} ∪ strays) s → pods s !! k = Some p →
  match funcs s !! FuncKey (pod p) with
  | None => sched_ok (upd_pods (delete k) s)
  | Some fs => ∀ fs', fs_pods fs' = delete k (fs_pods fs) →
      sched_ok (upd_funcs <[FuncKey (pod p) := fs']> (upd_pods (delete k) s))
  end.
Proof.
  intros Hs Hp.
  assert (∀ fm : gmap string (FuncStatus F), (∀ f fs key q, fm !! f = Some fs → fs_pods fs !! key = Some q →
      key ≠ k ∧ ∃ fs0, funcs s !! f = Some fs0 ∧ fs_pods fs0 !! key = Some q) →
    sched_ok (upd_funcs (λ _, fm) (upd_pods (delete k) s))) as Hgen.
  { destruct Hs as [K Lo I Fu Id Nd Fr]. intros fm Hfm. split; simpl; try done.
    - intros key q [_ Hq]%lookup_delete_Some. by apply K.
    - intros key q [_ Hq]%lookup_delete_Some. by eapply Lo.
    - intros k1 k2 p1 p2 [_ H1]%lookup_delete_Some [_ H2]%lookup_delete_Some. by eapply I.
    - intros f m key q. unfold func_pods. simpl. rewrite lookup_fmap. intros (fs & Hfs & ->)%fmap_Some Hq.
      destruct (Hfm f fs key q Hfs Hq) as (Hne & fs0 & Hf0 & Hq0).
      rewrite lookup_delete_ne by done. eapply (Fu f); [|done]. unfold func_pods. by rewrite lookup_fmap, Hf0.
    - intros key q Hn [? Hq]%lookup_delete_Some. apply Id; [by apply not_elem_of_union; split; [apply not_elem_of_singleton|]|done].
    - intros key q Hn [? Hq]%lookup_delete_Some. apply Fr; [by apply not_elem_of_union; split; [apply not_elem_of_singleton|]|done]. }
  assert (∀ f fs q, funcs s !! f = Some fs → fs_pods fs !! k = Some q → f = FuncKey (pod p)) as Honly.
  { intros f fs q Hf Hq. destruct (ok_func ({[k]} ∪ strays) s Hs f (fs_pods fs) k q) as [Hq' ?]; [|done|congruence].
    unfold func_pods. by rewrite lookup_fmap, Hf. }
  destruct (funcs s !! FuncKey (pod p)) as [fs|] eqn:Hfs.
  - intros fs' Hfs'. apply (Hgen (<[FuncKey (pod p) := fs']> (funcs s))).
    intros f fs0 key q [[<- <-]|[Hne Hf]]%lookup_insert_Some Hq.
    + rewrite Hfs' in Hq. apply lookup_delete_Some in Hq as [? Hq]. eauto.
    + split; [|eauto]. intros ->. destruct Hne. symmetry. by eapply Honly.
  - assert (sched_ok (upd_funcs (λ _, funcs s) (upd_pods (delete k) s))) as Hok; [|by destruct s].
    apply Hgen. intros f fs key q Hf Hq. split; [|eauto]. intros ->.
    pose proof (Honly f fs q Hf Hq) as ->. congruence.
Qed.

Lemma NodeStatus_RemovePod_no_err (ns : NodeStatus F) k r : no_err (NodeStatus_RemovePod ns k r).
Proof. unfold NodeStatus_RemovePod. destruct (_ || _); [apply no_err_FreeResource|done]. Qed.
Lemma RemovePod_wp client pod s : sched_ok s → same_func s pod → wp (RemovePod client pod) (λ _, sched_ok) sched_ok s.
Proof.
  intros Hs Hgood. unfold RemovePod. set (k := PodKey pod) in *.
  apply wp_bind, wp_modify, wp_bind.
  apply (never_err_wp tables).
  { destruct (decide _); [apply bill_now_frames, _|done]. }
  { destruct (decide _); [|done]. by intros s'. }
  intros _ s1 H1. change (tables s1 = tables s) in H1. assert (sched_ok s1) as Hs1 by (by eapply ok_but_tables).
  injection H1 as Hp1 _ _ _ _. assert (same_func s1 pod) as Hgood1 by (unfold same_func; by rewrite Hp1).
  clear Hs Hgood Hp1 s. unfold same_func in Hgood1. fold k in Hgood1.
  apply wp_the. destruct (pods s1 !! k) as [p|] eqn:Hp; cycle 1.
  { by apply wp_bind, wp_modify. }
  apply wp_bind, wp_modify. specialize (Hgood1 p eq_refl).
  (* what follows sees the table without the pod; the invariant is about it with the pod *)
  set (Inv s' := ok_but ({[k]} ∪ strays) (upd_pods (λ _, pods s1) s') ∧ pods s' = delete k (pods s1)).
  assert (∀ s' s'', tables s'' = tables s' → Inv s' → Inv s'') as HInv.
  { intros s' s'' He [Hok Hpd]. injection He as Hp' Hf' Hi' Hc' Hn'. split; [|congruence].
    eapply ok_but_tables; [|exact Hok]. unfold tables, func_pods in *. simpl. congruence. }
  assert (Inv (upd_pods (delete k) s1)) as HI.
  { split; [|done]. apply (ok_but_enter k) in Hs1. eapply ok_but_tables; [|exact Hs1]. done. }
  assert (∀ A (m : M A) (Q : A → Sched → Prop) s', Inv s' → frames tables m → never_err m →
    (∀ a s'', Inv s'' → Q a s'') → wp m Q sched_ok s') as Hstep.
  { intros A m Q s' HI' Hf Hn HQ. eapply (never_err_wp tables); [done..|]. intros a s'' He. apply HQ. by eapply HInv. }
  revert HI. generalize (upd_pods (delete k) s1). intros s2 HI. apply wp_the, wp_bind, Hstep; [done|..].
  { destruct (IsWorking _); [|done]. apply frames_bind; [apply Dec_frames, _|done]. }
  { destruct (IsWorking _); [|done]. apply never_err_bind; [apply Dec_never_err|done]. }
  clear s2 HI. intros _ s2 HI. apply wp_the, wp_bind, Hstep; [done|..].
  { destruct (funcs s2 !! _); [|done]. destruct (decide _); [|done]. apply note_failure_quiet. }
  { destruct (funcs s2 !! _); [|done]. destruct (decide _); [|done]. apply note_failure_quiet. }
  clear s2 HI. intros _ s2 HI. apply wp_bind, Hstep; [done|apply retry_snapshot_quiet..|].
  clear s2 HI. intros _ s2 HI. apply wp_bind, wp_modify.
  assert (Inv (pop_idle k s2)) as HI2.
  { destruct HI as [Hok Hpd]. split; [|done].
    eapply ok_but_tables; [|by apply (ok_but_pop ({[k]} ∪ strays) _ k Hok); left; set_solver]. done. }
  revert HI2. generalize (pop_idle k s2). clear s2 HI. intros s2 HI. apply wp_the, wp_bind, Hstep; [done|..].
  { destruct (nodes s2 !! _); [|done]. apply frames_bind; [done|intros; apply put_node_frames, _]. }
  { destruct (nodes s2 !! _); [|done]. apply never_err_bind; [apply never_err_pure, NodeStatus_RemovePod_no_err|done]. }
  clear s2 HI. intros _ s2 [Hok Hpd]. apply wp_the.
  pose proof (ok_but_removed _ k p Hok Hp) as Hrem. simpl in Hrem. rewrite <-Hgood1.
  assert (∀ fm : gmap string (FuncStatus F), tables (upd_funcs (λ _, fm) s2) = tables (upd_funcs (λ _, fm) (upd_pods (delete k) (upd_pods (λ _, pods s1) s2)))) as He.
  { intros fm. unfold tables, func_pods. simpl. congruence. }
  destruct (funcs s2 !! FuncKey (Worker.pod p)) as [fs|].
  - apply wp_modify. eapply ok_but_tables; [|by apply (Hrem (FuncStatus_RemovePod fs k))].
    apply (He (<[FuncKey (Worker.pod p) := FuncStatus_RemovePod fs k]> (funcs s2))).
  - apply wp_ret. eapply ok_but_tables; [|exact Hrem]. unfold tables, func_pods. simpl. congruence.
Qed.

(** ** Nodes and snapshots *)

Lemma CleanFuncStatusForNode_frames n s : tables (CleanFuncStatusForNode n s) = tables s.
Proof.
  unfold CleanFuncStatusForNode. destruct (nodes s !! n) as [ns|]; [|done].
  rewrite (frames_foldl tables).
  - apply (frames_foldl tables). intros s' [k q]. apply forget_pending_frames, _.
  - intros s' k. destruct (ns_pods ns !! k); [apply unstop_in_func_frames, _|done].
Qed.
Lemma node_calls_frames :
  (∀ node, frames (tables (F:=F) (L:=L)) (AddNode node)) ∧ (∀ node, frames (tables (F:=F) (L:=L)) (UpdateNode node)) ∧
  (∀ node, frames (tables (F:=F) (L:=L)) (RemoveNode node)).
Proof.
  split_and!; intros node.
  - unfold AddNode. apply frames_bind; [done|intros []]; [done|]. apply frames_bind; [done|intros ps].
    apply frames_bind; [by apply frames_modify|intros _]. frame_tac.
  - unfold UpdateNode. frame_tac.
  - unfold RemoveNode. apply frames_bind; [done|intros []]; simpl; [|done].
    do 2 (apply frames_bind; [apply frames_modify; intros;
      first [apply CleanFuncStatusForNode_frames|apply no_pending_snapshots_on_frames, _]|intros _]).
    by apply frames_modify.
Qed.
Lemma snapshot_calls_frames :
  (∀ sn, frames (tables (F:=F) (L:=L)) (AddSnapshot sn)) ∧ (∀ sn, frames (tables (F:=F) (L:=L)) (UpdateSnapshot sn)) ∧
  (∀ sn s, tables (RemoveSnapshot sn s) = tables s) ∧
  (∀ k n r s, tables (ProcessRemoveSnapshotComplete k n r s) = tables s) ∧
  (∀ t, frames (tables (F:=F) (L:=L)) (ListDone t)).
Proof.
  split_and!.
  - intros sn. unfold AddSnapshot. apply frames_bind; [apply frames_modify; intros; apply RemovePendingSnapshot_frames, _|intros _].
    apply frames_bind; [by apply frames_modify|intros _]. frame_tac.
  - intros sn. unfold UpdateSnapshot. apply frames_bind; [done|intros [m|]]; [|done].
    apply frames_bind; [by apply frames_modify|intros _]. frame_tac.
  - intros sn s. unfold RemoveSnapshot. by destruct (snapshots s !! cs_funckey sn).
  - intros k n r s. unfold ProcessRemoveSnapshotComplete. destruct r; [done|]. by destruct (snapshots _ !! k).
  - intros t. unfold ListDone. apply frames_bind; [by apply frames_modify|intros _].
    apply frames_bind; [done|intros []]; [|done]. simpl. apply frames_bind; [by apply frames_modify|intros _].
    apply frames_bind; [unfold recover_standby_billing; frame_tac|intros _]. apply frames_bind; [done|intros time].
    do 2 (apply frames_bind; [by apply frames_modify|intros _]). done.
Qed.
(** The node's epoch is the one that is known, or the first one. *)
Definition same_epoch s (n : string) (epoch : Z) : Prop := ∀ e, nodeEpochs s !! n = Some e → e = epoch.
Lemma CheckNodeEpoch_wp client n epoch s (Q : unit → Sched → Prop) X :
  same_epoch s n epoch →
  (∀ s', tables s' = tables s → pods s' = pods s → funcs s' = funcs s → Q tt s') → wp (CheckNodeEpoch client n epoch) Q X s.
Proof.
  intros He HQ. unfold CheckNodeEpoch. apply wp_the. destruct (nodeEpochs s !! n) as [e|] eqn:Hn.
  - rewrite decide_True by by apply He. by apply HQ.
  - by apply wp_modify, HQ.
Qed.

(** ** The loop *)

(** What the inputs of the loop are taken to say: a pod keeps its function
    ([same_func]), pods that came before their function are still there when it
    comes, and no node starts over. *)
Definition good_input s (input : Input (F:=F)) : Prop :=
  match input with
  | IEvent EAdded (OFunction func) _ | IEvent EModified (OFunction func) _ => parked_ok s (Function_Id func)
  | IEvent EAdded (ONode node) _ => same_epoch s (name node) (nodeEpoch (object node))
  | IEvent EAdded (OFuncPod pod) _ => same_epoch s (nodename (pod_spec pod)) (srcEpoch pod)
  | IEvent EAdded (OSnapshot sn) _ => same_epoch s (cs_nodename (object sn)) (srcEpoch sn)
  | IEvent EModified (ONode node) _ =>
      ¬ (ns_state <$> nodes s !! name node = Some NodeAgentConnected ∧ node_state (object node) = NodeAgentReady)
  | IEvent EModified (OFuncPod pod) _ | IEvent EDeleted (OFuncPod pod) _ => same_func s pod
  | _ => True
  end.
(** The pods that an input makes the loop lose track of: one whose update goes
    astray, and the leased ones among those that are put back on the list after
    a duplicate snapshot. *)
Definition is_leased s (k : string) : bool := match pods s !! k with Some p => IsWorking (state_of s p) | None => false end.
Definition astray s (input : Input (F:=F)) : gset string :=
  match input with
  | IMsg (Some (MCleanupDuplicateSnapshot _ _ _ _ keys)) => list_to_set (filter (λ k, is_leased s k = true) keys)
  | IEvent EModified (OFuncPod pod) _ => if update_astray s pod then {[PodKey pod]} else ∅
  | _ => ∅
  end.

Lemma steady_wp {A} (m : M A) s : steady m → sched_ok s → wp m (λ _, sched_ok) sched_ok s.
Proof. intros Hm. by apply steady_keeps. Qed.
Lemma on_peers_steady f : steady (on_peers f : M unit).
Proof. apply steady_tables. intros s. unfold on_peers. by destruct (f (peer_mgr (world s))). Qed.
Lemma prewarm_steady env k : steady (prewarm env k : M unit).
Proof. unfold prewarm. apply steady_bind; [apply ProcessAddFunc_steady|intros _; by steady_books]. Qed.

Lemma on_msg_wp env msg s : sched_ok s → astray s (IMsg (Some msg)) ⊆ strays → wp (on_msg env msg) (λ _, sched_ok) sched_ok s.
Proof.
  intros Hs Hg. destruct snapshot_calls_frames as (_ & _ & _ & Hrem & _).
  destruct msg as [| |req|req tx|req tx|req tx|g| |k n pk r keys|pk n r res keys|k n pk ct r res keys|k n r|k r];
    cbn [on_msg]; try by apply steady_wp; [steady_books|].
  - apply steady_wp; [|done]. apply steady_bind; [apply ProcessKillPod_steady|intros _; by steady_books].
  - apply steady_wp; [|done].
    apply steady_bind; [apply ProcessConnectReq_steady|intros []]; [apply CompleteWarmupAfterConnect_steady|by steady_books].
  - apply steady_wp; [|done]. apply ProcessLeaseWorkerReq_steady.
  - apply steady_wp; [|done]. apply steady_quiet, ProcessReturnWorkerReq_steady.
  - assert (∀ k p, k ∈ keys → k ∉ strays → pods s !! k = Some p → IsWorking (state_of s p) = false) as Hk.
    { intros key p Hkey Hn Hp. destruct (IsWorking (state_of s p)) eqn:Hw; [|done]. destruct Hn. apply Hg. simpl.
      apply elem_of_list_to_set, list_elem_of_filter. unfold is_leased. by rewrite Hp. }
    pose proof (ProcessCleanupDuplicateSnapshot_wp k n pk r keys s Hs Hk) as Hw. unfold wp, quiet in *.
    destruct (ProcessCleanupDuplicateSnapshot _ _ _ _ _ s) as [[]]; naive_solver.
  - apply steady_wp; [|done].
    apply steady_bind; [apply steady_succeeds, ProcessResumeWorkerComplete_steady|intros []; by steady_books].
  - apply steady_wp; [|done]. apply steady_quiet, ProcessStartWorkerComplete_steady.
  - apply wp_modify. eapply ok_but_tables; [apply Hrem|done].
  - apply steady_wp; [|done]. apply ProcessStopWorkerComplete_steady.
Qed.

Lemma drop_function_keeps_parked func k s :
  parked_ok s k →
  wp (drop_function func) (λ _ s', pods s' = pods s → parked_ok s' k) (λ _, True) s.
Proof.
  intros Hk. unfold drop_function.
  assert (∀ m : M unit, (∀ s m1, funcPods (m s).2 !! k = Some m1 → funcPods s !! k = Some m1) → wp m (λ _ s', pods s' = pods s → parked_ok s' k) (λ _, True) s) as Hgen.
  { intros m Hm. specialize (Hm s). unfold wp. destruct (m s) as [[]]; [|done..]. simpl in Hm.
    intros Hp m1 key p Hm1 Hkey. rewrite Hp. eapply Hk; [by apply Hm|done]. }
  apply Hgen. clear s Hk Hgen. intros s m1.
  assert (Bookkeeping (λ s : Sched, funcPods s)) as Hbk by by split.
  assert (frames (λ s : Sched, funcPods s) (ProcessRemoveFunc func)) as Hf.
  { unfold ProcessRemoveFunc, RemovePodsByFunckey, RemoveSnapshotByFunckey.
    frame_tac; try by apply frames_succeeds, StopWorker_frames, _. by apply frames_modify. }
  specialize (Hf s). unfold mbind, sm_bind. destruct (ProcessRemoveFunc func s) as [[[]|e|w] s1]; simpl in *; [|by rewrite Hf..].
  rewrite <-Hf. clear Hf. unfold RemoveFunc, mbind, sm_bind, gets, modify. cbn beta iota.
  destruct (negb _); [done|]. cbn beta iota. set (s2 := upd_pendingsnapshots _ _). unfold bill_now. simpl.
  intros Hm. by apply lookup_delete_Some in Hm as [_ ?].
Qed.
Lemma drop_function_steady func : steady (drop_function func : M unit).
Proof. unfold drop_function. apply steady_bind; [apply ProcessRemoveFunc_steady|intros _; apply RemoveFunc_steady]. Qed.

Lemma AddFunc_then_wp env func (ready : Sched → bool) s :
  sched_ok s → parked_ok s (Function_Id func) →
  wp (_ ← AddFunc func; r ← gets ready; if (r : bool) then prewarm env (Function_Id func) else mret tt)
     (λ _, sched_ok) sched_ok s.
Proof.
  intros Hs Hpark. apply wp_bind. eapply wp_mono; [by apply AddFunc_wp| |naive_solver].
  intros _ s1 [Hs1 _]. apply wp_the. destruct (ready s1); [|done]. apply steady_wp; [apply prewarm_steady|done].
Qed.
Lemma on_added_wp env obj s : sched_ok s → good_input s (IEvent EAdded obj None) → wp (on_added env obj) (λ _, sched_ok) sched_ok s.
Proof.
  intros Hs Hg. destruct node_calls_frames as (Hadd & _), snapshot_calls_frames as (Hsnap & _).
  destruct obj as [func|status|node|pod|sn|policy|t|]; cbn [on_added]; cbn in Hg;
    try by first [apply wp_ret|apply wp_modify, (ok_but_tables strays s)].
  - by apply (AddFunc_then_wp env func (λ s, listDone s && warmupComplete s)).
  - apply wp_bind, CheckNodeEpoch_wp; [done|]. intros s1 H1 _ _.
    apply steady_wp; [|by eapply ok_but_tables].
    do 2 (apply steady_bind; [by steady_books|intros ?]). apply steady_bind; [apply on_peers_steady|intros _].
    apply steady_tables, Hadd.
  - apply wp_bind, CheckNodeEpoch_wp; [done|]. intros s1 H1 _ _. apply AddPod_keeps. by eapply ok_but_tables.
  - apply wp_bind, CheckNodeEpoch_wp; [done|]. intros s1 H1 _ _.
    apply steady_wp; [apply steady_tables, Hsnap|by eapply ok_but_tables].
Qed.
Lemma on_modified_wp env obj old s :
  sched_ok s → good_input s (IEvent EModified obj old) → astray s (IEvent EModified obj old) ⊆ strays →
  wp (on_modified env obj old) (λ _, sched_ok) sched_ok s.
Proof.
  intros Hs Hg Ha. destruct node_calls_frames as (_ & Hupd & _), snapshot_calls_frames as (_ & Hsnap & _).
  destruct obj as [func|status|node|pod|sn|policy|t|]; cbn [on_modified]; cbn in Hg;
    try by first [apply wp_ret|apply wp_modify, (ok_but_tables strays s)].
  - destruct old as [[oldf| | | | | | |]|]; try done. apply wp_bind.
    pose proof (drop_function_keeps_parked oldf (Function_Id func) s Hg) as Hk.
    pose proof (drop_function_steady oldf s Hs) as Hd. unfold wp in *.
    destruct (drop_function oldf s) as [[[]|e|w] s1]; [|naive_solver|done].
    destruct Hd as [Hs1 Hp1]. by apply (AddFunc_then_wp env func listDone); [|apply Hk].
  - apply wp_the, wp_bind. eapply frames_wp; [apply Hupd| |by intros; eapply ok_but_tables].
    intros _ s1 H1. rewrite decide_False by done. by eapply ok_but_tables.
  - apply UpdatePod_wp; [done..|]. intros He. apply Ha. simpl. rewrite He. by apply elem_of_singleton.
  - apply steady_wp; [apply steady_tables, Hsnap|done].
Qed.
Lemma on_deleted_wp env obj old s :
  sched_ok s → good_input s (IEvent EDeleted obj old) → wp (on_deleted env obj old) (λ _, sched_ok) sched_ok s.
Proof.
  intros Hs Hg. destruct node_calls_frames as (_ & _ & Hrem), snapshot_calls_frames as (_ & _ & Hsnap & _).
  destruct obj as [func|status|node|pod|sn|policy|t|]; cbn [on_deleted]; cbn in Hg;
    try by first [apply wp_ret|apply wp_modify, (ok_but_tables strays s)].
  - destruct old as [[oldf| | | | | | |]|]; try done. apply steady_wp; [apply drop_function_steady|done].
  - apply steady_wp; [|done]. apply steady_bind; [by steady_books|intros cidr].
    apply steady_bind; [apply on_peers_steady|intros _]. apply steady_tables, Hrem.
  - by apply RemovePod_wp.
Qed.
Lemma on_sched_tick_steady env : steady (on_sched_tick env : M unit).
Proof.
  unfold on_sched_tick. apply steady_bind; [by steady_books|intros []]; simpl; [|by steady_books].
  apply steady_bind; [apply CheckAndCompleteWarmup_steady|intros _].
  apply steady_bind; [by steady_books|intros []]; simpl; [|by steady_books].
  apply steady_bind; [apply RefreshScheduling_steady|intros _]. apply steady_bind; [apply CleanPods_steady|intros _].
  apply steady_bind; [apply CleanSnapshots_steady|intros _]. apply steady_bind; [apply ProcessGatewayTimeout_steady|intros _].
  apply steady_bind; [apply ReconcileAllStuckLeaseRequests_steady|intros _]. by steady_books.
Qed.
Lemma on_task_steady env : steady (on_task env : M unit).
Proof.
  intros s Hs. unfold wp, on_task. destruct (taskQueue s) as [|task q]; [done|].
  apply (ProcessTask_steady _ _ task (upd_taskQueue (λ _, q) s)). by apply (ok_but_tables strays s).
Qed.
Lemma ProcessOnce_wp env input s :
  sched_ok s → good_input s input → astray s input ⊆ strays → wp (ProcessOnce env input) (λ _, sched_ok) sched_ok s.
Proof.
  intros Hs Hg Ha. destruct snapshot_calls_frames as (_ & _ & _ & _ & Hlist).
  destruct input as [[msg|]| | | | |ty obj old| | |]; cbn [ProcessOnce];
    try by apply wp_pure.
  - by apply on_msg_wp.
  - apply steady_wp; [apply drain_due_delayed_tasks_steady|done].
  - by apply wp_modify, (ok_but_tables strays s).
  - by apply wp_modify, (ok_but_tables strays s).
  - apply steady_wp; [apply on_sched_tick_steady|done].
  - destruct ty; try done; [by apply on_added_wp|by apply on_modified_wp|by apply on_deleted_wp|].
    apply steady_wp; [|done]. apply steady_tables. unfold on_init_done.
    destruct obj; try done; (apply frames_bind; [apply Hlist|done]).
  - apply steady_wp; [apply on_task_steady|done].
Qed.

End safe.

Section runs.
Context {F L : Type} `{FloatLit F, HL : Lru L, !LruSpec L, SchedConfig}.
Abbreviation Sched := (Sched F L).
Implicit Types s : Sched.

(** States of the loop: from the start of the service, pass after pass, with
    the keys of the pods it has lost track of on the way. *)
Inductive reachable : gset string → Sched → Prop :=
| reach_start w : reachable ∅ (SchedulerHandler_New w)
| reach_pass D s env input r s' :
    reachable D s → good_input (upd_world (at_env env) s) input →
    ProcessOnce env input (upd_world (at_env env) s) = (r, s') → no_panic r →
    reachable (astray (upd_world (at_env env) s) input ∪ D) s'.

Lemma reachable_ok D s : reachable D s → sched_ok (stray := MkStrays D) s.
Proof.
  induction 1 as [w|D s env input r s' _ IH Hg Hrun Hr].
  - split; try (by intros; simplify_map_eq/=).
    change (NoDup (lru_keys (lru_new (L:=L)))). rewrite keys_new. constructor.
  - set (D' := astray _ input ∪ D). assert (sched_ok (stray := MkStrays D') (upd_world (at_env env) s)) as Hs.
    { apply (ok_but_tables D' s); [done|]. eapply ok_but_mono; [|exact IH]. apply union_subseteq_r. }
    assert (astray (upd_world (at_env env) s) input ⊆ D') as Ha by apply union_subseteq_l.
    pose proof (ProcessOnce_wp (stray := MkStrays D') env input _ Hs Hg Ha) as Hw. unfold wp in Hw. rewrite Hrun in Hw. by destruct r.
Qed.
End runs.
