(* ===== verification/Lease.v ===== *)
(** * Leases (ixshare/src/scheduler/scheduler_handler.rs,
      [ProcessLeaseWorkerReq])

    What a lease request comes to: it is answered or waits, a worker it is
    given was idle, and the tenant's GPU limit is kept. *)

From S2P Require Import Prelude.
From S2P Require Import Wp.
From S2P Require Import Text.
From S2P Require Import BTree.
From S2P Require Import Common.
From S2P Require Import DataObj.
From S2P Require Import Resource.
From S2P Require Import Specs.
From S2P Require Import Worker.
From S2P Require Import Billing.
From S2P Require Import BiIndex.
From S2P Require Import SchedState.
From S2P Require Import Evict.
From S2P Require Import Resume.
From S2P Require Import EvictSpec.
From S2P Require Import Start.
From S2P Require Import Requests.
From S2P Require Import Events.
From S2P Require Import Dispatch.
From S2P Require Import Frames.

From S2P Require Import SchedInv.

From S2P Require Import SchedSteps.

From S2P Require Import SchedLoop.

From S2P Require Import SchedSafe.

Section lease.
Context {F L : Type} `{FloatLit F, HL : Lru L, !LruSpec L, SchedConfig, stray : Strays}.
Abbreviation Sched := (Sched F L).
Abbreviation M := (sm Sched Share.Error).
Implicit Types (s : Sched) (p q : WorkerPod F) (ws : list (WorkerPod F)).

(** The requests that wait, by function. *)
Definition queues s : gmap string (list (LeaseReq * nat)) := leaseWorkerReqs <$> funcs s.
(** Replies, clients that have gone away, and waiting requests. *)
Definition mail s := (sent (world s), hung_up (world s), queues s).
#[global] Instance mail_bookkeeping : Bookkeeping mail.
Proof.
  split; try done. intros s k fs pending stopping Hfs. unfold mail, queues. simpl.
  rewrite fmap_insert. simpl. rewrite insert_id; [done|]. by rewrite lookup_fmap, Hfs.
Qed.
Lemma foldl_same {A V} (v : Sched → V) (f : Sched → A → Sched) l s : (∀ s a, v (f s a) = v s) → v (foldl f s l) = v s.
Proof. intros Hf. revert s. induction l as [|a l IH]; intros s; [done|]. simpl. by rewrite IH. Qed.
Lemma GetBestResumeWorker_mail fp : frames mail (GetBestResumeWorker fp).
Proof.
  intros s. destruct (proj1 (GetBestResumeWorker_run fp s)) as (miss & _ & ->).
  by destruct (foldl_pop_idle_only s miss) as [l ->].
Qed.
Lemma ResumePod_mail k t : frames mail (ResumePod k t).
Proof.
  unfold ResumePod. apply frames_bind; [done|intros [|key [|]]]; [done| |done].
  apply frames_bind; [done|intros [fs|]]; [|done].
  apply frames_bind; [apply GetBestResumeWorker_mail|intros [[p ws] nr]].
  apply frames_bind; [done|intros ready]. apply frames_bind; [done|intros nr'].
  apply frames_bind; [done|intros [? resources]]. apply frames_bind; [done|intros ?].
  apply frames_bind; [by apply frames_eachM|intros _].
  do 2 (apply frames_bind; [by apply frames_modify|intros _]).
  apply frames_bind; [apply frames_modify; intros; by apply foldl_same|intros _].
  apply frames_bind; [apply mark_stopping_frames, _|intros _].
  apply frames_bind; [apply reserve_frames, _|intros _]. apply frames_bind; [done|intros time].
  apply frames_bind; [done|intros ns]. apply frames_bind; [apply put_node_frames, _|intros _].
  apply ResumeWorker_frames, _.
Qed.
(** A reply was sent on [tx], and nothing else happened to the mail. *)
Definition replied s s' (tx : nat) (resp : LeaseWorkerResp) : Prop :=
  mail s' = (sent (world s) ++ [(tx, LeaseReply resp)], hung_up (world s), queues s).
Lemma answer_wp tx resp s (Q : unit → Sched → Prop) X :
  (∀ s', s' = upd_world (push_sent tx (LeaseReply resp)) s → Q tt s') → wp (answer tx resp) Q X s.
Proof.
  intros HQ. unfold wp, answer, on_world, zoom, send_unwrap, send, mbind, sm_bind.
  case_decide; [done|]. simpl. by apply HQ.
Qed.

(** The worker [p] is given to the gateway of the request; nothing else of the
    pod tables changes. *)
Record leased s s' (req : LeaseWorkerReq) p : Prop := {
  ls_was_idle : pod_key p ∈ idle_keys s;
  ls_pods : pods s' = pods s;
  ls_funcs : func_pods s' = func_pods s;
  ls_cells : cells (world s') =
    <[wp_loc p := MkCell (WWorking (lq_gateway_id req)) (consumer_of (lq_consumer_tenant req))]> (cells (world s));
  ls_idle k : k ∈ idle_keys s' ↔ k ≠ pod_key p ∧ k ∈ idle_keys s;
}.
Lemma leased_tables s s' s'' req p : tables s'' = tables s' → leased s s' req p → leased s s'' req p.
Proof.
  intros [= Hp Hf Hi Hc Hn] [W P Fu Ce Id]. split; [congruence..|]. unfold idle_keys. by rewrite Hi.
Qed.
(** How a lease of an idle worker ends: with a reply, or, when the worker's
    host is not known, with an error and no reply. *)
Definition granted s s' (req : LeaseWorkerReq) (tx : nat) p : Prop :=
  (runtime (pod_spec (pod p)) = InferX → ∃ peer, LookforPeer (peer_mgr (world s)) (ipAddr (pod_spec (pod p))) = Ok peer) ∧
  ∃ resp, lp_error resp = "" ∧ lp_id resp = pod_id (pod_spec (pod p)) ∧ replied s s' tx resp ∧ leased s s' req p.
Definition lost s s' (req : LeaseWorkerReq) p : Prop :=
  runtime (pod_spec (pod p)) = InferX ∧ (∃ e, LookforPeer (peer_mgr (world s)) (ipAddr (pod_spec (pod p))) = Err e) ∧ mail s' = mail s ∧ leased s s' req p.
Lemma lease_idle_outcome req tx p s :
  sched_ok s → pods s !! pod_key p = Some p → state_of s p = WIdle → pod_state (pod p) = PReady →
  wp (lease_idle req tx p) (λ _ s', granted s s' req tx p) (λ s', lost s s' req p) s.
Proof.
  intros Hs Hp Hst Hr. unfold lease_idle. apply wp_bind. unfold wp at 1. rewrite on_world_SetWorking, Hst.
  apply wp_bind, wp_modify, wp_bind. unfold wp at 1, claim_idle, assert_. rewrite pop_found.
  case_bool_decide as Hidle; [|done]. set (s1 := pop_idle _ _).
  assert (leased s s1 req p) as Hl.
  { split; [done..| |].
    - unfold s1, SetConsumer, SetState, set_cell, cell. simpl. by rewrite lookup_insert_eq, insert_insert_eq.
    - intros k. unfold s1. by rewrite elem_of_pop. }
  assert (mail s1 = mail s) as Hm by done.
  assert (peer_mgr (world s1) = peer_mgr (world s)) as Hpe by done.
  revert Hl Hm Hpe. generalize s1. clear s1. intros s1 Hl Hm Hpe. cbv zeta.
  assert (∀ s2 resp, tables s2 = tables s1 → mail s2 = mail s1 → lp_error resp = "" → lp_id resp = pod_id (pod_spec (pod p)) →
    (runtime (pod_spec (pod p)) = InferX → ∃ peer, LookforPeer (peer_mgr (world s)) (ipAddr (pod_spec (pod p))) = Ok peer) →
    granted s (upd_world (push_sent tx (LeaseReply resp)) s2) req tx p) as Hgrant.
  { intros s2 resp H1 H2 He Hid Hhost. split; [done|]. exists resp. split_and!; [done..| |by eapply leased_tables; [|exact Hl]].
    rewrite Hm in H2. injection H2 as H2 H3 H4. unfold replied, mail. simpl. unfold queues in *. simpl in *. congruence. }
  destruct (decide _) as [Hrt|Hrt].
  - apply wp_bind, wp_pure_no_err; [apply no_err_unwrap|]. intros ip _. apply answer_wp. intros s' ->. by apply Hgrant.
  - apply dec_stable in Hrt.
    apply wp_bind, wp_read; [|intros e He; split_and!; [done|rewrite <-Hpe; by exists e|done..]].
    intros peer Hpeer. apply wp_bind.
    apply (never_err_wp (λ s, (tables s, mail s))).
    { intros s'. f_equal; [apply (Inc_frames tables)|apply (Inc_frames mail)]. }
    { intros s'. unfold on_world, zoom, Inc. destruct (usedGpuCnt (world s') !! _); [|done].
      destruct (chk u64 _) eqn:Hc; [done| |done]. pose proof (no_err_chk (E:=Share.Error) u64 (z + gpu_count p)) as Hne.
      by rewrite Hc in Hne. }
    intros _ s2 He. apply answer_wp. intros s' ->.
    apply Hgrant; [exact (f_equal fst He)|exact (f_equal snd He)|done..|]. intros _. exists peer. by rewrite <-Hpe.
Qed.
(** What makes the lease of an idle worker panic. *)
Inductive lease_idle_panic s (tx : nat) p : Prop :=
| panic_client_gone : tx ∈ hung_up (world s) → lease_idle_panic s tx p
| panic_unlisted : pod_key p ∉ idle_keys s → lease_idle_panic s tx p
| panic_host_ip e : runtime (pod_spec (pod p)) ≠ InferX → IpAddress_FromString (host_ip (pod_spec (pod p))) = Err e → lease_idle_panic s tx p
| panic_gauge v : usedGpuCnt (world s) !! Specs.nodename (pod_spec (pod p)) = Some v → ¬ fits u64 (v + gpu_count p) → lease_idle_panic s tx p.
Lemma answer_panic tx resp s w s' : answer tx resp s = (Panic w, s') → tx ∈ hung_up (world s).
Proof. unfold answer, on_world, zoom, send_unwrap, send, mbind, sm_bind. by case_decide. Qed.
Lemma lease_idle_panics req tx p s w s' :
  state_of s p = WIdle → lease_idle req tx p s = (Panic w, s') → lease_idle_panic s tx p.
Proof.
  intros Hst. unfold lease_idle, mbind, sm_bind. rewrite on_world_SetWorking, Hst. simpl.
  unfold claim_idle, assert_. rewrite pop_found. fold (idle_keys s). simpl.
  case_bool_decide; simpl; [|by intros _; apply panic_unlisted].
  set (s1 := pop_idle _ _). assert (hung_up (world s1) = hung_up (world s)) as Hh by done.
  assert (usedGpuCnt (world s1) = usedGpuCnt (world s)) as Hu by done. revert Hh Hu. generalize s1. clear s1. intros s1 Hh Hu.
  case_decide; simpl.
  - destruct (IpAddress_FromString _) as [ip|e|why] eqn:Hip; simpl.
    + intros Ha%answer_panic. apply panic_client_gone. by rewrite <-Hh.
    + intros _. by eapply panic_host_ip.
    + unfold IpAddress_FromString in Hip. by repeat case_match.
  - destruct (LookforPeer _ _) as [peer|e|why] eqn:Hpeer; simpl; [|done|unfold LookforPeer in Hpeer; by case_match].
    unfold on_world, zoom, Inc. rewrite Hu. destruct (usedGpuCnt (world s) !! _) as [v|] eqn:Hv; simpl.
    + destruct (chk u64 (v + gpu_count p)) eqn:Hc; simpl.
      * intros Ha%answer_panic. apply panic_client_gone. by rewrite <-Hh.
      * done.
      * intros _. eapply panic_gauge; [done|]. intros Hf. by rewrite chk_fits in Hc.
    + intros Ha%answer_panic. apply panic_client_gone. by rewrite <-Hh.
Qed.

Definition req_func (req : LeaseWorkerReq) : string :=
  FuncObjectKey (lq_tenant req) (lq_namespace req) (lq_funcname req) (lq_fprevision req).
(** The GPUs that the function asks for would take the tenant past its limit. *)
Definition over_cap s (req : LeaseWorkerReq) (fs : FuncStatus F) : Prop :=
  TenantIsGpuCapExempt (EffectiveTenant req) = false ∧
  ∃ active, TenantActiveGpu s (EffectiveTenant req) = Ok active ∧
    (TenantGpuLimit s (EffectiveTenant req) <
       Z.min (ty_max u64) (active + gr_gpuCount (rs_gpu (RunningResource (fo_spec (object (func fs)))))))%Z.
(** The first ready pod of the function whose worker is idle. *)
Definition first_leasable s (req : LeaseWorkerReq) : option (WorkerPod F) :=
  head (filter (λ p, leasable s p) (GetFuncPods s (lq_tenant req) (lq_namespace req) (lq_funcname req) (lq_fprevision req))).
Definition no_replica_left s (req : LeaseWorkerReq) (fs : FuncStatus F) : Prop :=
  (maxReplica (func_policy s (func fs)) ≤ Z.of_nat (ReadyPodCount s (req_func req)))%Z.
(** An error reply is all that happens. *)
Definition refused s s' (tx : nat) : Prop := ∃ resp, lp_error resp ≠ "" ∧ s' = upd_world (push_sent tx (LeaseReply resp)) s.
(** How a lease request ends, when, and whether the call returns [Ok]. *)
Inductive lease_result s (req : LeaseWorkerReq) (tx : nat) : bool → Sched → Prop :=
| lease_unknown s' :
    funcs s !! req_func req = None → refused s s' tx → lease_result s req tx false s'
| lease_over_cap fs s' :
    funcs s !! req_func req = Some fs → over_cap s req fs → refused s s' tx → lease_result s req tx true s'
| lease_granted fs p s' :
    funcs s !! req_func req = Some fs → ¬ over_cap s req fs → first_leasable s req = Some p →
    granted s s' req tx p → lease_result s req tx true s'
| lease_lost fs p s' :
    funcs s !! req_func req = Some fs → ¬ over_cap s req fs → first_leasable s req = Some p →
    lost s s' req p → lease_result s req tx false s'
| lease_no_replica fs s' :
    funcs s !! req_func req = Some fs → ¬ over_cap s req fs → first_leasable s req = None →
    no_replica_left s req fs → refused s s' tx → lease_result s req tx false s'
| lease_no_resume fs e s1 s' :
    funcs s !! req_func req = Some fs → ¬ over_cap s req fs → first_leasable s req = None →
    ¬ no_replica_left s req fs → ResumePod (req_func req) (Some (EffectiveTenant req)) s = (Err e, s1) →
    refused s1 s' tx → lease_result s req tx true s'
| lease_waits fs time s1 s' :
    funcs s !! req_func req = Some fs → ¬ over_cap s req fs → first_leasable s req = None →
    ¬ no_replica_left s req fs → ResumePod (req_func req) (Some (EffectiveTenant req)) s = (Ok tt, s1) →
    tables s' = tables s1 →
    mail s' = (sent (world s), hung_up (world s),
               <[req_func req := leaseWorkerReqs fs ++ [(MkLeaseReq req time, tx)]]> (queues s)) →
    lease_result s req tx true s'.
(** What makes a lease request panic. *)
Inductive lease_panic s (req : LeaseWorkerReq) (tx : nat) : Prop :=
| lease_client_gone : tx ∈ hung_up (world s) → lease_panic s req tx
| lease_sum_overflows why : TenantActiveGpu s (EffectiveTenant req) = Panic why → lease_panic s req tx
| lease_worker_panics p : first_leasable s req = Some p → lease_idle_panic s tx p → lease_panic s req tx
| lease_resume_panics why s1 :
    first_leasable s req = None → ResumePod (req_func req) (Some (EffectiveTenant req)) s = (Panic why, s1) → lease_panic s req tx.

(** An error reply, then the end of the call. *)
Lemma refuse_run s (tx : nat) (msg : string) (k : M unit) r s' :
  msg ≠ "" → (∀ s, (k s).2 = s ∧ no_panic (k s).1) → (_ ← answer tx (lease_error msg); k) s = (r, s') →
  match r with Panic _ => tx ∈ hung_up (world s) | _ => refused s s' tx ∧ r = (k s').1 end.
Proof.
  intros Hmsg Hk. unfold mbind, sm_bind. destruct (answer tx (lease_error msg) s) as [[[]|e|w] s1] eqn:Ha.
  - unfold answer, on_world, zoom, send_unwrap, send, mbind, sm_bind in Ha. case_decide; [done|]. simpl in Ha.
    injection Ha as <-. intros Hr. set (s1 := upd_world _ s) in *.
    assert (refused s s1 tx) as Hs1 by (by exists (lease_error msg)).
    destruct (Hk s1) as [Hs2 Hnp]. rewrite Hr in Hs2, Hnp. simpl in *. subst s'. rewrite Hr. by destruct r.
  - unfold answer, on_world, zoom, send_unwrap, send, mbind, sm_bind in Ha. by case_decide.
  - intros [= <- <-]. by apply answer_panic in Ha.
Qed.
Lemma answer_refuse_run s (tx : nat) (msg : string) r s' :
  msg ≠ "" → answer tx (lease_error msg) s = (r, s') →
  match r with Panic _ => tx ∈ hung_up (world s) | _ => refused s s' tx ∧ r = Ok tt end.
Proof.
  intros Hmsg Ha. pose proof (refuse_run s tx msg (mret tt) r s' Hmsg (λ _, conj eq_refl I)) as Hr.
  unfold mbind, sm_bind in Hr. rewrite Ha in Hr. destruct r as [[]|e|w]; by apply Hr.
Qed.
(** Whether the cap is passed; the state stays. *)
Lemma over_cap_run s req (fs : FuncStatus F) r s1 :
  (if TenantIsGpuCapExempt (EffectiveTenant req) then mret false
   else active_gpu ← (λ s, (TenantActiveGpu s (EffectiveTenant req), s));
        max_gpu ← gets (λ s, TenantGpuLimit s (EffectiveTenant req));
        mret (bool_decide (max_gpu < Z.min (ty_max u64) (active_gpu +
          gr_gpuCount (rs_gpu (RunningResource (fo_spec (object (func fs)))))))%Z) : M bool) s = (r, s1) →
  match r with
  | Ok b => s1 = s ∧ (b = true ↔ over_cap s req fs)
  | Err _ => False
  | Panic why => TenantActiveGpu s (EffectiveTenant req) = Panic why
  end.
Proof.
  unfold over_cap. destruct (TenantIsGpuCapExempt _); [intros [= <- <-]; split; [done|by split; [|intros [? _]]]|].
  unfold mbind, sm_bind. destruct (TenantActiveGpu s _) as [n|e|w] eqn:Hn; intros [= <- <-]; [|exfalso|done].
  - split; [done|]. rewrite bool_decide_eq_true. split; [by intros; split; [|by exists n]|]. by intros (_ & ? & [= <-] & ?).
  - pose proof (no_err_foldlM (E:=Share.Error) (λ sum p, chk u64 (sum + gpu_count p)%Z) 0%Z
      (filter (λ p, counts_for (world s) (EffectiveTenant req) p) (values (pods s)))) as Hne.
    unfold TenantActiveGpu in Hn. rewrite Hn in Hne. apply Hne. intros. apply no_err_chk.
Qed.
(** The request waits. *)
Lemma PushLeaseWorkerReq_run s s1 req (tx : nat) (fs : FuncStatus F) r s' :
  funcs s !! req_func req = Some fs → mail s1 = mail s → PushLeaseWorkerReq (req_func req) req tx s1 = (r, s') →
  r = Ok tt ∧ tables s' = tables s1 ∧ ∃ time,
    mail s' = (sent (world s), hung_up (world s), <[req_func req := leaseWorkerReqs fs ++ [(MkLeaseReq req time, tx)]]> (queues s)).
Proof.
  intros Hfs Hm. unfold PushLeaseWorkerReq. injection Hm as Hm1 Hm2 Hm3.
  assert (queues s1 !! req_func req = Some (leaseWorkerReqs fs)) as Hq by (rewrite Hm3; unfold queues; by rewrite lookup_fmap, Hfs).
  unfold queues in Hq. rewrite lookup_fmap in Hq. destruct (funcs s1 !! req_func req) as [fs1|] eqn:Hfs1; simpl in Hq; [|done].
  injection Hq as Hq. intros [= <- <-]. split_and!; [done|by eapply tables_put_func|]. exists (now (world s1)).
  unfold mail, queues. simpl. rewrite fmap_insert. unfold queues in Hm3. simpl. by rewrite Hm1, Hm2, Hm3, Hq.
Qed.
Lemma first_leasable_ready s req p :
  sched_ok s → first_leasable s req = Some p →
  pods s !! pod_key p = Some p ∧ FuncKey (pod p) = req_func req ∧ pod_state (pod p) = PReady ∧ state_of s p = WIdle.
Proof.
  intros Hs Hp. apply head_Some_elem_of, list_elem_of_filter in Hp as [Hl Hin].
  apply andb_prop_elim in Hl as [Hready Hidle]. apply bool_decide_unpack in Hready.
  destruct (func_pods_lookup s _ p Hs Hin) as [Hpp Hfp]. split_and!; [done..|]. by destruct (state_of s p).
Qed.
Lemma lease_runs req tx s r s' :
  sched_ok s → ProcessLeaseWorkerReq req tx s = (r, s') →
  match r with Panic _ => lease_panic s req tx | _ => lease_result s req tx (is_ok r) s' end.
Proof.
  intros Hs. unfold ProcessLeaseWorkerReq. fold (req_func req). unfold mbind at 1, sm_bind, gets at 1.
  destruct (funcs s !! req_func req) as [fs|] eqn:Hfs; cycle 1.
  { intros Hr. apply refuse_run in Hr; [|done..]. destruct r as [x|e|w]; [| |by apply lease_client_gone].
    all: destruct Hr as [Href He]; first [done|by apply lease_unknown]. }
  unfold mbind at 1, sm_bind. match goal with |- context [match ?m s with _ => _ end] => destruct (m s) as [[over|e|w] s1] eqn:Hover end.
  all: apply over_cap_run in Hover; first [done|by intros [= <- <-]; eapply lease_sum_overflows|idtac].
  destruct Hover as [-> Hover]. destruct over.
  { intros Hr. apply answer_refuse_run in Hr; [|done]. destruct r as [x|e|w]; [| |by apply lease_client_gone].
    all: destruct Hr as [Href He]; first [done|eapply lease_over_cap; [done|by apply Hover|done]]. }
  assert (¬ over_cap s req fs) as Hcap by (by intros ?%Hover). clear Hover.
  unfold mbind at 1, sm_bind, gets at 1. fold (first_leasable s req). destruct (first_leasable s req) as [p|] eqn:Hp.
  { destruct (first_leasable_ready s req p Hs Hp) as (Hpp & Hfp & Hready & Hst).
    pose proof (lease_idle_outcome req tx p s Hs Hpp Hst Hready) as Hw. unfold wp in Hw. intros Hrun. rewrite Hrun in Hw.
    destruct r as [[]|e|w]; [by eapply lease_granted|by eapply lease_lost|].
    eapply lease_worker_panics; [done|]. by eapply lease_idle_panics. }
  unfold mbind at 1, sm_bind, gets at 1. unfold mbind at 1, sm_bind, gets at 1.
  destruct (decide _) as [Hmax|Hmax].
  { intros Hr. apply refuse_run in Hr; [|done..]. destruct r as [x|e|w]; [| |by apply lease_client_gone].
    all: destruct Hr as [Href He]; first [done|by eapply lease_no_replica]. }
  unfold mbind at 1, sm_bind, succeeds.
  pose proof (ResumePod_mail (req_func req) (Some (EffectiveTenant req)) s) as Hm.
  destruct (ResumePod (req_func req) (Some (EffectiveTenant req)) s) as [[[]|e|w] s1] eqn:Hres; simpl in Hm.
  - intros Hpush. eapply PushLeaseWorkerReq_run in Hpush as (-> & Ht & time & Hmail); [|done..]. by eapply lease_waits.
  - intros Hr. apply answer_refuse_run in Hr; [|done]. injection Hm as _ Hh _. rewrite Hh in Hr.
    destruct r as [x|e'|w]; [| |by apply lease_client_gone]; destruct Hr as [Href He]; first [done|by eapply lease_no_resume].
  - intros [= <- <-]. by eapply lease_resume_panics.
Qed.

(** ** GPUs of a tenant *)

(** What a worker counts for a tenant. *)
Definition gpu_share (w : World) (t : string) p : Z := if counts_for w t p then gpu_count p else 0.
Definition gpu_sum (w : World) (t : string) (l : list (WorkerPod F)) : Z := foldr (λ p n, gpu_share w t p + n)%Z 0%Z l.
Lemma gpu_sum_nonneg w t l : (∀ p, p ∈ l → 0 ≤ gpu_count p)%Z → (0 ≤ gpu_sum w t l)%Z.
Proof.
  induction l as [|p l IH]; intros Hl; simpl; [done|]. assert (0 ≤ gpu_sum w t l)%Z by (apply IH; intros; apply Hl; by right).
  assert (0 ≤ gpu_count p)%Z by (apply Hl; by left). unfold gpu_share. destruct (counts_for w t p); lia.
Qed.
Lemma active_gpu_run (w : World) (t : string) l a :
  (∀ p, p ∈ l → 0 ≤ gpu_count p)%Z → (0 ≤ a)%Z →
  let run := foldlM (λ sum p, chk (E:=Share.Error) u64 (sum + gpu_count p)%Z) a (filter (λ p, counts_for w t p) l) in
  (∀ n, run = Ok n → n = a + gpu_sum w t l)%Z ∧ ((a + gpu_sum w t l ≤ ty_max u64)%Z → run = Ok (a + gpu_sum w t l)%Z).
Proof.
  revert a. induction l as [|p l IH]; intros a Hl Ha; simpl.
  - split; [intros n [= <-]; lia|intros; f_equal; lia].
  - assert (0 ≤ gpu_count p)%Z as Hp by (apply Hl; by left).
    assert (∀ q, q ∈ l → 0 ≤ gpu_count q)%Z as Hl' by (intros; apply Hl; by right).
    pose proof (gpu_sum_nonneg w t l Hl') as Hnn.
    unfold gpu_share. destruct (counts_for w t p) eqn:Hc; simpl in IH.
    + rewrite filter_cons_True by by rewrite Hc. simpl. destruct (IH (a + gpu_count p)%Z Hl') as [H1 H2]; [lia|].
      split.
      * intros n Hrun. apply bind_Ok in Hrun as (b & Hb & Hrun). apply chk_Ok in Hb as [-> _].
        rewrite (H1 _ Hrun). lia.
      * intros Hle. rewrite chk_fits by (unfold fits; simpl in *; lia). simpl. rewrite H2 by (simpl in *; lia). f_equal. lia.
    + rewrite filter_cons_False by (rewrite Hc; by intros []). rewrite Z.add_0_l. by apply IH.
Qed.
Definition gpus_ok s : Prop := ∀ k p, pods s !! k = Some p → (0 ≤ gpu_count p)%Z.
Lemma TenantActiveGpu_sum s t :
  gpus_ok s →
  (∀ n, TenantActiveGpu s t = Ok n → n = gpu_sum (world s) t (values (pods s))) ∧
  ((gpu_sum (world s) t (values (pods s)) ≤ ty_max u64)%Z → TenantActiveGpu s t = Ok (gpu_sum (world s) t (values (pods s)))).
Proof.
  intros Hs. unfold TenantActiveGpu.
  destruct (active_gpu_run (world s) t (values (pods s)) 0) as [H1 H2]; [|done|].
  { intros p [k Hk]%elem_of_values. by eapply Hs. }
  by rewrite Z.add_0_l in *.
Qed.
(** One worker more is charged at most. *)
Lemma gpu_sum_one w w' t k d l :
  NoDup (pod_key <$> l) → (0 ≤ d)%Z →
  (∀ q, q ∈ l → gpu_share w' t q ≤ gpu_share w t q + if decide (pod_key q = k) then d else 0)%Z →
  (gpu_sum w' t l ≤ gpu_sum w t l + d)%Z.
Proof.
  intros Hnd Hd. assert (∀ l, (∀ q, q ∈ l → gpu_share w' t q ≤ gpu_share w t q)%Z → (gpu_sum w' t l ≤ gpu_sum w t l)%Z) as Hmono.
  { induction l0 as [|q l0 IH]; intros Hq; simpl; [done|]. pose proof (Hq q ltac:(by left)).
    assert (gpu_sum w' t l0 ≤ gpu_sum w t l0)%Z by (apply IH; intros; apply Hq; by right). lia. }
  revert Hnd. induction l as [|q l IH]; intros Hnd Hq; simpl; [lia|]. simpl in Hnd. apply NoDup_cons in Hnd as [Hnin Hnd].
  pose proof (Hq q ltac:(by left)) as Hq1. case_decide as Hk.
  - assert (gpu_sum w' t l ≤ gpu_sum w t l)%Z; [|lia]. apply Hmono. intros q' Hq'.
    pose proof (Hq q' ltac:(by right)) as Hq2. rewrite decide_False in Hq2; [lia|].
    intros He. apply Hnin, list_elem_of_fmap. exists q'. split; [congruence|done].
  - assert (gpu_sum w' t l ≤ gpu_sum w t l + d)%Z; [|lia]. apply IH; [done|]. intros q' Hq'. apply Hq. by right.
Qed.
Lemma NoDup_pod_keys s : sched_ok s → NoDup (pod_key <$> values (pods s)).
Proof.
  intros Hs. assert (pod_key <$> values (pods s) = keys (pods s)) as ->; [|apply NoDup_keys].
  unfold values, keys. rewrite <-list_fmap_compose. apply list_fmap_ext. intros i [k p] Hi. simpl.
  apply (ok_key strays s Hs). apply elem_of_entries. by eapply list_elem_of_lookup_2.
Qed.

(** From [s] to [s'] the tenant [t] is charged [d] more at most, for the pod
    with key [k], and no other tenant is charged more. *)
Definition charges s s' (t k : string) (d : Z) : Prop :=
  pods s' = pods s ∧ ∀ k' q t', pods s !! k' = Some q →
    (gpu_share (world s') t' q ≤ gpu_share (world s) t' q + if decide (t' = t ∧ k' = k) then d else 0)%Z.
Lemma charges_sum s s' t k d t' :
  sched_ok s → (0 ≤ d)%Z → charges s s' t k d →
  (gpu_sum (world s') t' (values (pods s')) ≤ gpu_sum (world s) t' (values (pods s)) + if decide (t' = t) then d else 0)%Z.
Proof.
  intros Hs Hd [Hp Hc]. rewrite Hp. apply (gpu_sum_one _ _ _ k); [by apply NoDup_pod_keys|by case_decide|].
  intros q [k' Hq]%elem_of_values. rewrite (ok_key strays s Hs k' q Hq). specialize (Hc k' q t' Hq).
  repeat case_decide; try lia; naive_solver.
Qed.
(** What the GPU counts depend on. *)
Definition workers s := (pods s, cells (world s)).
#[global] Instance workers_bookkeeping : Bookkeeping workers.
Proof. by split. Qed.
Lemma charges_workers s s' s'' t k d : workers s'' = workers s' → charges s s' t k d → charges s s'' t k d.
Proof.
  intros [= Hp Hc] [Hp' Hch]. split; [congruence|]. intros k' q t' Hq. specialize (Hch k' q t' Hq).
  unfold gpu_share, counts_for, charged_to, State, cell in *. by rewrite Hc.
Qed.
Lemma charges_refl s s' t k d : (0 ≤ d)%Z → workers s' = workers s → charges s s' t k d.
Proof. intros Hd He. eapply charges_workers; [done|]. split; [done|]. intros. case_decide; lia. Qed.
(** A worker's share when its cell or another's is set. *)
Lemma gpu_share_set w p q c t :
  gpu_share (set_cell p c w) t q =
    if decide (wp_loc p = wp_loc q)
    then if busy (workerState c) && bool_decide (default (tenant (pod q)) (consumer_tenant c) = t) then gpu_count q else 0%Z
    else gpu_share w t q.
Proof.
  unfold gpu_share, counts_for, charged_to, State. case_decide as Hl.
  - assert (cell (set_cell p c w) q = c) as ->; [|done]. unfold cell, set_cell. simpl. by rewrite Hl, lookup_insert_eq.
  - by rewrite cell_set_cell_ne.
Qed.
Lemma gpu_share_bounds w t q : (0 ≤ gpu_count q → 0 ≤ gpu_share w t q ≤ gpu_count q)%Z.
Proof. unfold gpu_share. destruct (counts_for w t q); lia. Qed.
Lemma charges_terminating s s' t k d w :
  gpus_ok s → (0 ≤ d)%Z → charges s s' t k d → charges s (mark_terminating w s') t k d.
Proof.
  intros Hg Hd [Hp Hc]. split; [done|]. intros k' q t' Hq. specialize (Hc k' q t' Hq).
  change (world (mark_terminating w s')) with (set_cell w (MkCell WTerminating (consumer_tenant (cell (world s') w))) (world s')).
  rewrite gpu_share_set. destruct (decide (wp_loc w = wp_loc q)); [|done]. simpl.
  pose proof (gpu_share_bounds (world s) t' q (Hg k' q Hq)). case_decide; lia.
Qed.
(** The worker [p] is made busy for the tenant [t]. *)
Lemma charges_busy s s' p c t :
  sched_ok s → gpus_ok s → pods s !! pod_key p = Some p → workers s' = workers (upd_world (set_cell p c) s) →
  default (tenant (pod p)) (consumer_tenant c) = t → charges s s' t (pod_key p) (gpu_count p).
Proof.
  intros Hs Hg Hp He Ht. eapply charges_workers; [exact He|]. split; [done|]. intros k' q t' Hq. simpl.
  rewrite gpu_share_set. pose proof (gpu_share_bounds (world s) t' q (Hg k' q Hq)) as Hb.
  destruct (decide (wp_loc p = wp_loc q)) as [Hl|].
  - assert (k' = pod_key p) as -> by by eapply (ok_inj strays s Hs). rewrite Hp in Hq. simplify_eq.
    destruct (busy _); simpl; [case_bool_decide|]; repeat case_decide; try lia; naive_solver.
  - case_decide; [|lia]. pose proof (Hg _ _ Hp). lia.
Qed.

(** The function asked for is the only one its key finds. *)
Lemma funcs_from_self s f key : is_Some (funcs s !! f) → funcs_from s f = [key] → key = f.
Proof.
  intros [fs Hfs] Hvec.
  assert (funcs_from s f = (prefix_scan f (funcs s)).*1) as Hscan.
  { unfold funcs_from, prefix_scan. induction (range_from f (funcs s)) as [|[k v] l IH]; [done|]. simpl.
    destruct (starts_with f k); [simpl; f_equal; exact IH|done]. }
  assert (f ∈ funcs_from s f) as Hin.
  { rewrite Hscan. apply list_elem_of_fmap. exists (f, fs). split; [done|]. apply elem_of_prefix_scan. split; [done|].
    apply starts_with_spec. exists "". by rewrite sapp_nil_r. }
  rewrite Hvec in Hin. by apply list_elem_of_singleton in Hin.
Qed.

(** What a resume charges: one pod of the function, to the consumer. *)
Definition resume_charges s (f t : string) s' : Prop :=
  pods s' = pods s ∧ ∃ k d t0, charges s s' t0 k d ∧ (0 ≤ d)%Z ∧
    (d = 0%Z ∨ ∃ p, pods s !! k = Some p ∧ FuncKey (pod p) = f ∧ d = gpu_count p ∧ t0 = default (tenant (pod p)) (consumer_of t)).
Lemma resume_charges_same s f t s' : workers s' = workers s → resume_charges s f t s'.
Proof.
  intros He. split; [exact (f_equal fst He)|]. exists "", 0%Z, "". split_and!; [by apply charges_refl|done|by left].
Qed.
Definition func_ids_ok s : Prop := ∀ f fs, funcs s !! f = Some fs → Function_Id (func fs) = f.
Lemma ResumePod_charges s f t :
  sched_ok s → gpus_ok s → func_ids_ok s → is_Some (funcs s !! f) →
  wp (ResumePod f (Some t)) (λ _, resume_charges s f t) (resume_charges s f t) s.
Proof.
  intros Hs Hg Hid Hf. unfold ResumePod. apply wp_the. pose proof (resume_charges_same s f t s eq_refl) as Hsame.
  destruct (funcs_from s f) as [|key [|]] eqn:Hvec; [done| |done]. apply funcs_from_self in Hvec as ->; [|done].
  apply wp_the. destruct (funcs s !! f) as [fs|] eqn:Hfs; [|done].
  apply wp_bind. destruct (GetBestResumeWorker_run (func fs) s) as [(miss & _ & Hs1) Hrun].
  assert (workers (GetBestResumeWorker (func fs) s).2 = workers s) as Hw1.
  { rewrite Hs1. by destruct (foldl_pop_idle_only s miss) as [l ->]. }
  unfold wp at 1. destruct (GetBestResumeWorker (func fs) s) as [[[[p ws] nr]|e|w] s1] eqn:Hbest; [|by apply resume_charges_same|done].
  destruct (Hrun p ws nr s1 eq_refl) as (Hp & _). rewrite (Hid f fs Hfs) in Hp.
  destruct (func_pods_lookup s f p Hs Hp) as [Hpp Hpf]. simpl in Hw1. clear Hrun Hbest Hs1 miss Hp.
  assert (∀ s', workers s' = workers s1 → resume_charges s f t s') as Hstay.
  { intros s' He. apply resume_charges_same. congruence. }
  apply wp_bind, wp_read; [|intros; by apply Hstay]. intros ready _.
  apply wp_bind, wp_pure; [|intros; by apply Hstay]. intros nr' _.
  apply wp_bind, wp_pure; [|intros; by apply Hstay]. intros [? resources] _.
  apply wp_bind, wp_read; [|intros; by apply Hstay]. intros ? _.
  apply wp_bind, (frames_wp workers); [by apply frames_eachM| |by apply Hstay]. intros _ s2 Hw2.
  do 2 apply wp_bind, wp_modify. set (s3 := upd_world (SetConsumer p _) _).
  assert (charges s s3 (default (tenant (pod p)) (consumer_of t)) (pod_key p) (gpu_count p)) as Hch.
  { eapply (charges_busy s s3 p (MkCell WResuming (consumer_of t))); [done..| |done].
    rewrite Hw1 in Hw2. injection Hw2 as Hp2 Hc2. unfold s3, workers, SetConsumer, SetState, set_cell, cell. simpl.
    by rewrite Hp2, Hc2, lookup_insert_eq, insert_insert_eq. }
  assert (0 ≤ gpu_count p)%Z as Hgp by by eapply Hg.
  apply wp_bind, wp_modify.
  assert (charges s (foldl (λ s w, mark_terminating w s) s3 ws) (default (tenant (pod p)) (consumer_of t)) (pod_key p) (gpu_count p)) as Hch'.
  { clear -Hch Hg Hgp. revert Hch. generalize s3. induction ws as [|w ws IH]; intros s4 Hch; [done|].
    simpl. apply IH. by apply charges_terminating. }
  revert Hch'. generalize (foldl (λ s w, mark_terminating w s) s3 ws). intros s4 Hch'.
  match goal with |- wp ?m _ _ _ => assert (frames workers m) as Hm end.
  { apply frames_bind; [apply mark_stopping_frames, _|intros _]. apply frames_bind; [apply reserve_frames, _|intros _].
    apply frames_bind; [done|intros time]. apply frames_bind; [done|intros ns].
    apply frames_bind; [apply put_node_frames, _|intros _]. apply ResumeWorker_frames, _. }
  assert (∀ s', workers s' = workers s4 → resume_charges s f t s') as Hend.
  { intros s' He. pose proof (charges_workers _ _ _ _ _ _ He Hch') as Hc. split; [apply Hc|].
    exists (pod_key p), (gpu_count p), (default (tenant (pod p)) (consumer_of t)). split_and!; [done..|right; by exists p]. }
  by eapply (frames_wp workers); [exact Hm|intros _ s'; apply Hend|apply Hend].
Qed.

(** What is taken of the pods of the function asked for: they are the tenant's,
    and ask for the GPUs the function asks for. *)
Definition req_pods_ok s (req : LeaseWorkerReq) : Prop :=
  ∀ fs k p, funcs s !! req_func req = Some fs → pods s !! k = Some p → FuncKey (pod p) = req_func req →
    tenant (pod p) = lq_tenant req ∧ gpu_count p = gr_gpuCount (rs_gpu (RunningResource (fo_spec (object (func fs))))).
Lemma consumer_effective req : default (lq_tenant req) (consumer_of (lq_consumer_tenant req)) = EffectiveTenant req.
Proof. unfold consumer_of, EffectiveTenant. by case_decide. Qed.
Lemma consumer_effective' req : default (lq_tenant req) (consumer_of (EffectiveTenant req)) = EffectiveTenant req.
Proof. unfold consumer_of. case_decide as He; [|done]. unfold EffectiveTenant in *. by case_decide; simplify_eq/=. Qed.

(** The tenant is charged for one pod at most, and only within its limit. *)
Definition within_limit s (t : string) s' : Prop :=
  ∃ k d t0, charges s s' t0 k d ∧ (0 ≤ d)%Z ∧
    (d = 0%Z ∨ t0 = t ∧ (gpu_sum (world s) t (values (pods s)) + d ≤ TenantGpuLimit s t)%Z).
Lemma within_limit_same s t s' : workers s' = workers s → within_limit s t s'.
Proof. intros He. exists "", 0%Z, "". split_and!; [by apply charges_refl|done|by left]. Qed.
Lemma within_limit_workers s t s1 s2 : workers s2 = workers s1 → within_limit s t s1 → within_limit s t s2.
Proof. intros He (k & d & t0 & Hc & ?). exists k, d, t0. split; [by eapply charges_workers|done]. Qed.
Lemma answer_workers tx resp : frames workers (answer tx resp).
Proof.
  intros s. unfold answer, on_world, zoom, send_unwrap, send, mbind, sm_bind. case_decide; [by destruct s|done].
Qed.

Lemma ProcessLeaseWorkerReq_within req tx s :
  sched_ok s → gpus_ok s → func_ids_ok s → req_pods_ok s req →
  TenantIsGpuCapExempt (EffectiveTenant req) = false → (TenantGpuLimit s (EffectiveTenant req) < ty_max u64)%Z →
  wp (ProcessLeaseWorkerReq req tx) (λ _, within_limit s (EffectiveTenant req)) (within_limit s (EffectiveTenant req)) s.
Proof.
  intros Hs Hg Hid Hpods Hex Hlim. unfold ProcessLeaseWorkerReq. apply wp_the. fold (req_func req). set (t := EffectiveTenant req) in *.
  assert (∀ s1 A (m : M A), within_limit s t s1 → frames workers m → wp m (λ _, within_limit s t) (within_limit s t) s1) as Hframe.
  { intros s1 A m Hw Hm. eapply frames_wp; [exact Hm|..]; intros; by eapply within_limit_workers. }
  assert (within_limit s t s) as Hsame by by apply within_limit_same.
  destruct (funcs s !! req_func req) as [fs|] eqn:Hfs.
  2:{ apply Hframe; [done|]. apply frames_bind; [apply answer_workers|done]. }
  rewrite Hex. apply wp_bind, wp_bind, wp_read; [|by intros].
  intros n Hn. apply wp_the, wp_ret. destruct (TenantActiveGpu_sum s t Hg) as [Hsum _]. apply Hsum in Hn as ->.
  set (g := gr_gpuCount _). set (total := gpu_sum _ _ _).
  assert (0 ≤ total)%Z as Htot.
  { apply gpu_sum_nonneg. intros p [k Hk]%elem_of_values. by eapply Hg. }
  destruct (bool_decide _) eqn:Hover; [by apply Hframe; [|apply answer_workers]|].
  apply bool_decide_eq_false in Hover. assert (total + g ≤ TenantGpuLimit s t)%Z as Hfit by lia. clear Hover.
  assert (∀ k p, pods s !! k = Some p → FuncKey (pod p) = req_func req → gpu_count p = g ∧ tenant (pod p) = lq_tenant req) as Hreq.
  { intros k p Hp Hf. by destruct (Hpods fs k p Hfs Hp Hf). }
  apply wp_the. fold (first_leasable s req). destruct (first_leasable s req) as [p|] eqn:Hp.
  { destruct (first_leasable_ready s req p Hs Hp) as (Hpp & Hpf & Hready & Hst). destruct (Hreq _ p Hpp Hpf) as [Hgp Htp].
    assert (∀ s', leased s s' req p → within_limit s t s') as Hend.
    { intros s' [_ Hpo _ Hce _]. exists (pod_key p), g, t. split_and!; [|rewrite <-Hgp; by eapply Hg|by right].
      rewrite <-Hgp. apply (charges_busy s s' p (MkCell (WWorking (lq_gateway_id req)) (consumer_of (lq_consumer_tenant req)))); try done.
      - unfold workers. simpl. congruence.
      - simpl. rewrite Htp. apply consumer_effective. }
    eapply wp_mono; [by apply lease_idle_outcome|..].
    - intros [] s' (_ & resp & _ & _ & _ & Hl). by apply Hend.
    - intros s' (_ & _ & _ & Hl). by apply Hend. }
  clear Hp. do 2 apply wp_the. destruct (decide _).
  { apply Hframe; [done|]. apply frames_bind; [apply answer_workers|done]. }
  assert (∀ s', resume_charges s (req_func req) t s' → within_limit s t s') as Hres.
  { intros s' (_ & k & d & t0 & Hc & Hd & Hk). exists k, d, t0. split_and!; [done..|].
    destruct Hk as [?|(p & Hp & Hpf & -> & ->)]; [by left|right]. destruct (Hreq k p Hp Hpf) as [-> ->].
    split; [apply consumer_effective'|done]. }
  apply wp_bind. pose proof (ResumePod_charges s (req_func req) t Hs Hg Hid ltac:(by rewrite Hfs)) as Hresume.
  unfold wp, succeeds in *. destruct (ResumePod (req_func req) (Some t) s) as [[[]|e|w] s1]; [| |done].
  - apply (Hframe s1 unit); [by apply Hres|]. intros s2. unfold PushLeaseWorkerReq. by destruct (funcs s2 !! _).
  - apply (Hframe s1 unit); [by apply Hres|apply answer_workers].
Qed.
End lease.
