(* ===== verification/Scenario.v ===== *)
(** * A small cluster

    A run of the scheduler's loop from an empty state: one node, two functions
    and their pods.  It is the input at which the properties of the scheduler
    are evaluated. *)

From S2P Require Import Prelude.
From S2P Require Import Text.
From S2P Require Import BTree.
From S2P Require Import Common.
From S2P Require Import DataObj.
From S2P Require Import Resource.
From S2P Require Import Specs.
From S2P Require Import Worker.
From S2P Require Import Billing.
From S2P Require Import BiIndex.
From S2P Require Import SchedState.
From S2P Require Import Evict.
From S2P Require Import Resume.
From S2P Require Import Start.
From S2P Require Import Requests.
From S2P Require Import Events.
From S2P Require Import Dispatch.
From S2P Require Import Wp.
From S2P Require Import SchedInv.
From S2P Require Import SchedLoop.
From S2P Require Import SchedSafe.

(** Floats are not looked at; sessions are numbered. *)
#[local] Instance unit_float : FloatLit unit := λ _, tt.
#[local] Instance sample_config : SchedConfig := {|
  inferxEndpointFuncDefaultPolicy := MkSchedulerDefaults None None None;
  enableSnapshotBilling := true;
  uuid n := pretty n;
|}.
Abbreviation SampleSched := (Sched unit (list string)).

Definition world0 : World := MkWorld ∅ 0 ∅ [] (PeerMgr_New 10 0 0 0) ∅ 0 [].
Definition env0 : Env :=
  MkEnv (60 * second) ∅ (λ _, Ok 9%Z) (λ l, l)
    (MkStatusClient true (λ _, Ok tt) (λ _, Ok None))
    (λ text, if decide (text = "10.1.0.0") then Some 167837696%Z else Some 167837697%Z).

Definition sample {T} (ns name : string) (o : T) : DataObject T := MkDataObject "" "t" ns name ∅ ∅ 0 1 1 o.
Definition gpus2 : GPUResourceMap :=
  MkGPUResourceMap 320 (list_to_map [(0%Z, MkGPUAlloc 1 320 1); (1%Z, MkGPUAlloc 1 320 1)]) 268435456.
Definition node1 : Node :=
  sample "system" "node1" (MkNodeSpec 1 "10.1.0.1" "10.1.0.1" "10.1.0.0" 1233 1234 1235
    (MkNodeResources "node1" 8000 65536 32768 "A100" gpus2 2) false "" NodeAgentReady).
Definition tenant_t : Tenant :=
  sample "system" "t" (MkTenantObject (MkTenantSpec (MkResourceLimit 6 false 0 3 2 1 100) false) (MkTenantStatus false false)).
Definition res (gpus : Z) : Resources := MkResources 100 4096 0 0 (MkGPUResource "Any" gpus 14000 1).
Definition func_of (nm : string) : Function unit :=
  sample "ns" nm (MkFuncObject (MkFuncSpec 1 (res 2) (MkStandby File File File) (DataObj.Obj FuncPolicySpec_default)) (MkFuncObjStatus Normal 0 0)).
(** A pod that holds both GPUs of the node when it is ready, none in standby. *)
Definition held (ready : bool) : NodeResources :=
  MkNodeResources "node1" 100 4096 0 "A100"
    (MkGPUResourceMap 110 (if ready then list_to_map [(0%Z, MkGPUAlloc 1 320 1); (1%Z, MkGPUAlloc 1 320 1)] else ∅) 268435456) 2.
Definition pod_of (nm id : string) (st : PodState) : FuncPod unit :=
  sample "ns" (nm +:+ "-" +:+ id)
    (MkFuncPodObject (MkFuncPodSpec nm 1 id (fo_spec (object (func_of nm))) "node1" InferX 167837698 CreateNormal "10.1.0.1" 80
       (res 2) (held (bool_decide (st = PReady)))) st).
Definition snapshot_of (nm : string) : DataObject ContainerSnapshot :=
  sample "ns" nm (MkContainerSnapshot ("t/ns/" +:+ nm +:+ "/1") "node1" SnapshotReady
    (MkSnapshotInfo 1073741824 1073741824 0 ∅ (MkStandby File File File) "")).

(** ** Running the loop *)

Definition added obj : Input (F:=unit) := IEvent EAdded obj None.
Definition epoch_fits (s : SampleSched) (n : string) (epoch : Z) : bool := bool_decide (default epoch (nodeEpochs s !! n) = epoch).
(** Decides [good_input] for the inputs that are used here. *)
Definition goodb (s : SampleSched) (input : Input (F:=unit)) : bool :=
  match input with
  | IEvent EAdded (OFunction func) _ => bool_decide (funcPods s !! Function_Id func = None)
  | IEvent EAdded (ONode node) _ => epoch_fits s (name node) (nodeEpoch (object node))
  | IEvent EAdded (OFuncPod pod) _ => epoch_fits s (nodename (pod_spec pod)) (srcEpoch pod)
  | IEvent EAdded (OSnapshot sn) _ => epoch_fits s (cs_nodename (object sn)) (srcEpoch sn)
  | IEvent EAdded (OTenant _) _ => true
  | IEvent EModified (OFuncPod pod) _ =>
      bool_decide ((λ p, FuncKey (Worker.pod p)) <$> pods s !! PodKey pod = Some (FuncKey pod))
  | IMsg (Some (MLeaseWorker _ _)) => true
  | _ => false
  end.
Lemma epoch_fits_spec s n epoch : epoch_fits s n epoch = true → same_epoch s n epoch.
Proof. unfold epoch_fits, same_epoch. intros Hb%bool_decide_eq_true e He. by rewrite He in Hb. Qed.
Lemma goodb_spec s input : goodb s input = true → good_input s input.
Proof.
  destruct input as [[[]|]| | | | |[] [] old| | |]; simpl; try done.
  - intros Hn%bool_decide_eq_true m key p Hm. by rewrite Hn in Hm.
  - apply epoch_fits_spec.
  - apply epoch_fits_spec.
  - apply epoch_fits_spec.
  - intros Hp%bool_decide_eq_true q Hq. rewrite Hq in Hp. by injection Hp.
Qed.
(** The state after the inputs, unless one is not good or panics. *)
Fixpoint passes (l : list (Input (F:=unit))) (s : SampleSched) : option SampleSched :=
  match l with
  | [] => Some s
  | input :: l =>
      let s := upd_world (at_env env0) s in
      if goodb s input then
        match ProcessOnce env0 input s with
        | (Panic _, _) => None
        | (_, s) => passes l s
        end
      else None
  end.
(** The pods that are lost track of on the way. *)
Fixpoint strays_of (l : list (Input (F:=unit))) (D : gset string) (s : SampleSched) : gset string :=
  match l with
  | [] => D
  | input :: l => let s := upd_world (at_env env0) s in strays_of l (astray s input ∪ D) (ProcessOnce env0 input s).2
  end.
Lemma passes_reachable l D s s' : reachable D s → passes l s = Some s' → reachable (strays_of l D s) s'.
Proof.
  revert D s. induction l as [|input l IH]; intros D s Hs; simpl; [by intros [= <-]|].
  destruct (goodb _ input) eqn:Hg; [|done]. destruct (ProcessOnce _ _ _) as [r s1] eqn:Hrun. simpl.
  assert (no_panic r → reachable (astray (upd_world (at_env env0) s) input ∪ D) s1) as Hr
    by by (intros; eapply reach_pass; [exact Hs|by apply goodb_spec|exact Hrun|]).
  destruct r; [apply IH, Hr|apply IH, Hr|]; done.
Qed.
Definition run_from_start (l : list (Input (F:=unit))) : SampleSched :=
  default (SchedulerHandler_New world0) (passes l (SchedulerHandler_New world0)).
Definition strays_from_start (l : list (Input (F:=unit))) : gset string :=
  if passes l (SchedulerHandler_New world0) then strays_of l ∅ (SchedulerHandler_New world0) else ∅.
Lemma run_reachable l : reachable (strays_from_start l) (run_from_start l).
Proof.
  unfold run_from_start, strays_from_start. destruct (passes l _) as [s|] eqn:Hs; simpl; [|apply reach_start].
  eapply passes_reachable; [apply reach_start|exact Hs].
Qed.

(** The cluster with a standby pod of [f] and an idle pod of [g] that holds the
    GPUs. *)
Definition cluster : list (Input (F:=unit)) :=
  [added (OTenant tenant_t); added (ONode node1); added (OFunction (func_of "f")); added (OFunction (func_of "g"));
   added (OSnapshot (snapshot_of "f")); added (OSnapshot (snapshot_of "g"));
   added (OFuncPod (pod_of "f" "7" PStandby)); added (OFuncPod (pod_of "g" "8" PReady))].
Definition cluster_state : SampleSched := run_from_start cluster.
Definition lease_of (nm : string) (gateway : Z) : LeaseWorkerReq := MkLeaseWorkerReq "t" "ns" nm 1 gateway "".

(** A pod that becomes ready before its function is known: it is idle, and not
    listed. *)
Definition early_pod : list (Input (F:=unit)) :=
  [added (OTenant tenant_t); added (ONode node1); added (OFuncPod (pod_of "f" "7" PStandby));
   IEvent EModified (OFuncPod (pod_of "f" "7" PReady)) None].
Lemma early_pod_is_lost :
  strays_from_start early_pod = {["t/ns/f/1/7"]} ∧ idlePods (run_from_start early_pod) = [] ∧
  (λ p, (pod_state (pod p), state_of (run_from_start early_pod) p)) <$> pods (run_from_start early_pod) !! "t/ns/f/1/7" = Some (PReady, WIdle).
Proof. split_and!; by vm_compute. Qed.

Lemma cluster_no_strays : strays_from_start cluster = ∅.
Proof. by vm_compute. Qed.
Lemma cluster_runs :
  keys (pods cluster_state) = ["t/ns/f/1/7"; "t/ns/g/1/8"] ∧ idlePods cluster_state = ["t/ns/g/1/8"] ∧
  keys (funcs cluster_state) = ["t/ns/f/1"; "t/ns/g/1"] ∧ keys (nodes cluster_state) = ["node1"].
Proof. by vm_compute. Qed.
