(* ===== verification/SchedProps.v ===== *)
(** * What the scheduler promises
      (ixshare/src/scheduler/scheduler_handler.rs)

    The pod tables agree in every state the loop can reach; what a lease request
    comes to; that a lease keeps the tenant's GPU limit; that eviction makes
    room.  Each is evaluated on the cluster of [Scenario]. *)

From S2P Require Import Prelude.
From S2P Require Import Wp.
From S2P Require Import Text.
From S2P Require Import BTree.
From S2P Require Import Common.
From S2P Require Import DataObj.
From S2P Require Import Resource.
From S2P Require Import Specs.
From S2P Require Import Worker.
From S2P Require Import Billing.
From S2P Require Import BiIndex.
From S2P Require Import SchedState.
From S2P Require Import Evict.
From S2P Require Import Resume.
From S2P Require Import EvictSpec.
From S2P Require Import Start.
From S2P Require Import Requests.
From S2P Require Import Events.
From S2P Require Import Dispatch.
From S2P Require Import SchedInv.
From S2P Require Import SchedLoop.
From S2P Require Import SchedSafe.
From S2P Require Import Lease.
From S2P Require Import Scenario.

Section props.
Context {F L : Type} `{FloatLit F, HL : Lru L, !LruSpec L, SchedConfig}.
Abbreviation Sched := (Sched F L).
Implicit Types (s : Sched) (p : WorkerPod F) (ws : list (WorkerPod F)).

(** C1: in every state the loop reaches, the tables agree on the pods: a pod is
    filed under its own key and has its worker state to itself, a function's
    pods are pods of that function and still known, and the keys of the idle
    list are distinct; and for every pod that the loop has not lost track of, an
    idle worker whose pod is ready is in that list, and no worker of the list is
    leased to a gateway.  The pods it has lost track of, [D], are those of the
    findings at lines 519, 2182 and 5879: a pod reported ready, not leased before,
    while its function is not known, or while requests wait for it and it is
    already listed or its host is no known peer; and a leased pod that is put
    back on the list after a duplicate snapshot.  Every input may come in every
    order, on these conditions ([good_input]): an update or deletion of a pod is
    of the function the pod was filed under, the pods that wait for a function
    are still known when it comes, and no node agent starts over (a new epoch,
    or ready again after a lost connection).  A panic ends the run. *)
Theorem pod_tables_agree D s :
  reachable D s →
  (∀ k p, pods s !! k = Some p → PodKey (pod p) = k) ∧
  (∀ k1 k2 p1 p2, pods s !! k1 = Some p1 → pods s !! k2 = Some p2 → wp_loc p1 = wp_loc p2 → k1 = k2) ∧
  (∀ f p, p ∈ GetFuncPodsByKey s f → pods s !! PodKey (pod p) = Some p ∧ FuncKey (pod p) = f) ∧
  NoDup (lru_keys (idlePods s)) ∧
  (∀ k p, k ∉ D → pods s !! k = Some p → pod_state (pod p) = PReady → state_of s p = WIdle → k ∈ lru_keys (idlePods s)) ∧
  (∀ k p g, k ∉ D → pods s !! k = Some p → k ∈ lru_keys (idlePods s) → state_of s p ≠ WWorking g).
Proof.
  intros Hs%reachable_ok. split_and!.
  - apply (ok_key D s Hs).
  - apply (ok_inj D s Hs).
  - intros f p Hp. by apply (func_pods_lookup (stray := MkStrays D)).
  - apply (ok_nodup D s Hs).
  - intros k p. by apply (ok_idle D s Hs).
  - intros k p g HD Hp Hk Hw. pose proof (ok_free D s Hs k p HD Hp Hk) as Hf. by rewrite Hw in Hf.
Qed.

(** C4: what a lease request comes to, in every state the loop reaches (as for
    C1), and when.  It is refused with a message, and nothing else changes, when
    its function is not known, when the GPUs the function asks for would take a
    tenant that is not exempt past its limit, or when no worker of the function
    is ready and idle and it has as many ready pods as its policy allows.
    Otherwise the first of its ready, idle workers is leased: it works for the
    gateway from then on and leaves the idle list, and the reply names its pod;
    only when its host is not a known peer the worker is taken but no answer is
    sent and the call fails.  When there is no such worker a pod is resumed: if
    that succeeds the request waits at the end of the function's queue without
    an answer, if not it is refused.  The call panics only when the client has
    gone away, a sum or gauge of GPUs overflows, the address of the worker's
    host does not parse, the worker that was chosen is not on the idle list
    (then its pod is one of those lost track of), or resuming panics. *)
Theorem lease_request_outcome D s (req : LeaseWorkerReq) (tx : nat) r s' :
  reachable D s → ProcessLeaseWorkerReq req tx s = (r, s') →
  match r with
  | Panic _ => lease_panic s req tx ∧
      ∀ p, first_leasable s req = Some p → pod_key p ∉ lru_keys (idlePods s) → pod_key p ∈ D
  | _ => lease_result s req tx (is_ok r) s'
  end.
Proof.
  intros Hs%reachable_ok Hrun. pose proof (lease_runs (stray := MkStrays D) req tx s r s' Hs Hrun) as Hr.
  destruct r as [x|e|w]; [exact Hr..|]. split; [exact Hr|]. intros p Hp Hk.
  destruct (first_leasable_ready (stray := MkStrays D) s req p Hs Hp) as (Hpp & _ & Hready & Hst).
  destruct (decide (pod_key p ∈ D)); [done|]. by destruct Hk; eapply (ok_idle D s Hs).
Qed.

Lemma TenantActiveGpu_fits s t n : TenantActiveGpu s t = Ok n → (n ≤ ty_max u64)%Z.
Proof.
  unfold TenantActiveGpu. intros Hn. apply (foldlM_inv (λ _ n, (n ≤ ty_max u64)%Z)) in Hn; [done|done|].
  by intros ? ? ? ? _ [-> [_ ?]]%chk_Ok.
Qed.
(** C7: a lease keeps the GPU limit of the tenant that is charged, unless that
    tenant is exempt ([public] and [inferx] are) or its limit is [u64::MAX]: when
    the GPUs of its working and resuming workers are within the limit before the
    request, they are after it, whether the request is granted, waits or is
    refused, and no other tenant's number grows.  This is so in every state the
    loop reaches (as for C1) and for every request that does not panic, when GPU
    counts are unsigned, each function is filed under its id, and the pods of
    the function are the tenant's and ask for the GPUs its specification asks
    for. *)
Theorem lease_respects_gpu_cap D s (req : LeaseWorkerReq) (tx : nat) r s' n :
  reachable D s → gpus_ok s → func_ids_ok s → req_pods_ok s req →
  let t := EffectiveTenant req in
  TenantIsGpuCapExempt t = false → (TenantGpuLimit s t < ty_max u64)%Z →
  TenantActiveGpu s t = Ok n → (n ≤ TenantGpuLimit s t)%Z →
  ProcessLeaseWorkerReq req tx s = (r, s') → no_panic r →
  (∃ n', TenantActiveGpu s' t = Ok n' ∧ (n' ≤ TenantGpuLimit s t)%Z) ∧
  ∀ t' m, t' ≠ t → TenantActiveGpu s t' = Ok m → ∃ m', TenantActiveGpu s' t' = Ok m' ∧ (m' ≤ m)%Z.
Proof.
  intros Hs%reachable_ok Hg Hid Hpods t Hex Hlim Hn Hle Hrun Hr.
  assert (within_limit s t s') as (k & d & t0 & Hc & Hd & Hcase).
  { pose proof (ProcessLeaseWorkerReq_within (stray := MkStrays D) req tx s Hs Hg Hid Hpods Hex Hlim) as Hw. unfold wp in Hw.
    rewrite Hrun in Hw. by destruct r as [[]|e|w]. }
  assert (gpus_ok s') as Hg' by (destruct Hc as [Hp _]; unfold gpus_ok; by rewrite Hp).
  assert (∀ t' b, (gpu_sum (world s) t' (values (pods s)) + (if decide (t' = t0) then d else 0) ≤ b)%Z →
            (b ≤ ty_max u64)%Z → ∃ n', TenantActiveGpu s' t' = Ok n' ∧ (n' ≤ b)%Z) as Hafter.
  { intros t' b Hab Hb. pose proof (charges_sum (stray := MkStrays D) s s' t0 k d t' Hs Hd Hc) as Hsum.
    exists (gpu_sum (world s') t' (values (pods s'))). split; [|lia]. apply (TenantActiveGpu_sum s' t' Hg'). lia. }
  apply (TenantActiveGpu_sum s t Hg) in Hn. split.
  - apply Hafter; [|lia]. case_decide; destruct Hcase as [->|[-> ?]]; subst; lia.
  - intros t' m Hne Hm. pose proof (TenantActiveGpu_fits s t' m Hm). apply (TenantActiveGpu_sum s t' Hg) in Hm.
    apply Hafter; [|done]. rewrite <-Hm. case_decide; destruct Hcase as [->|[-> ?]]; subst; first [lia|done].
Qed.

(** C8: in every state the loop reaches (as for C1), a node found for a pod has
    room for it: it is one of the candidates, and with the resources that are returned, its available ones and those of the
    workers to stop, it can allocate what the pod needs.  The workers to stop are
    distinct workers of other functions on that node, taken from the least
    recently used on, all of the idle list, and stopping them leaves each function its
    minimum of replicas.  None is leased to a gateway, but for the pods the loop
    has lost track of ([D], as in C1): those it may stop while they work. *)
Theorem eviction_makes_room D s (func : Function F) (ty : FindNodeType) (nodes_ : gset string) n ws nr s' :
  reachable D s → FindNode4Pod func ty nodes_ s = (Ok (n, ws, nr), s') →
  n ∈ nodes_ ∧ has_room s func ty n nr ∧
  (∃ ns, nodes s !! n = Some ns ∧ foldlM add_alloc (available ns) ws = Ok nr) ∧
  (∃ ks, ks `sublist_of` idle_oldest_first s ∧ pod_key <$> ws = ks) ∧ NoDup (pod_key <$> ws) ∧
  (∀ w, w ∈ ws → pods s !! pod_key w = Some w ∧ pod_node w = n ∧ FuncKey (pod w) ≠ Function_Id func ∧
     pod_key w ∈ lru_keys (idlePods s) ∧ (pod_key w ∉ D → ∀ g, state_of s w ≠ WWorking g)) ∧
  ∀ i w, ws !! i = Some w →
    (minReplica (pod_policy s w) < Z.of_nat (ReadyPodCount s (FuncKey (pod w))) - Z.of_nat (count_func (FuncKey (pod w)) (take i ws)))%Z.
Proof.
  intros Hs%reachable_ok Hrun. apply FindNode4Pod_run in Hrun as (ns & Hin & Hns & Hroom & Hv).
  destruct (victims_ok (stray := MkStrays D) s _ n (available ns) ws nr Hs Hv) as [Hnd Hall].
  destruct Hv as [(ks & Hks & Hpods) Hnode Hsum Hkeep].
  split_and!; try done; [by exists ns| |].
  - exists ks. split; [done|]. clear -Hpods Hs. induction Hpods as [|k w ks ws Hw _ IH]; [done|].
    simpl. f_equal; [by eapply (ok_key D)|done].
  - intros w Hw. destruct (Hall w Hw) as (? & Hi & Hfree), (Hnode w Hw). split_and!; try done.
    intros HD g Hg. specialize (Hfree HD). by rewrite Hg in Hfree.
Qed.
End props.

(** ** A function that goes away *)

Section removal.
Context {F L : Type} `{FloatLit F, HL : Lru L, SchedConfig}.
Abbreviation Sched := (Sched F L).
Implicit Types (s : Sched) (p : WorkerPod F).

(** What [ProcessRemoveFunc] reads of the state besides the pods. *)
Definition removal_view s := (nodes s, snapshots s, pending_snapshot_removals s).
Lemma RemovePodsByFunckey_wp k s (Q : bool → Sched → Prop) X :
  (∀ s', removal_view s' = removal_view s → (pods_of s k = [] → s' = s) →
     (∀ p, p ∈ pods_of s k → is_Some (nodes s !! pod_node p) → TerminatePod (pod_key p) ∈ rpcs (world s')) →
     Q (bool_decide (pods_of s k = [])) s') →
  wp (RemovePodsByFunckey k) Q X s.
Proof.
  intros HQ. unfold RemovePodsByFunckey. apply wp_bind, wp_gets.
  set (l := pods_of s k) in *. clearbody l. apply wp_bind.
  assert (∀ s0, removal_view s0 = removal_view s →
    wp (eachM (λ p, ok ← succeeds (StopWorker (pod p)); if (ok : bool) then modify (mark_terminating p) else mret tt) l)
      (λ _ s', removal_view s' = removal_view s ∧ (l = [] → s' = s0) ∧
         (∀ c, c ∈ rpcs (world s0) → c ∈ rpcs (world s')) ∧
         ∀ p, p ∈ l → is_Some (nodes s !! pod_node p) → TerminatePod (pod_key p) ∈ rpcs (world s')) X s0) as Hloop.
  { clear HQ. induction l as [|p l IH]; intros s0 Hv; simpl.
    { unfold wp. simpl. split_and!; try done. by intros p ?%elem_of_nil. }
    apply wp_bind. apply (wp_mono _ (λ _ s1, removal_view s1 = removal_view s ∧
        (∀ c, c ∈ rpcs (world s0) → c ∈ rpcs (world s1)) ∧
        (is_Some (nodes s !! pod_node p) → TerminatePod (pod_key p) ∈ rpcs (world s1))) _ (λ _, False)); [| |done].
    - unfold wp, mbind, sm_bind, succeeds, StopWorker. injection Hv as Hn Hsn Hpe.
      fold (pod_node p) (pod_key p). destruct (nodes s0 !! pod_node p) as [ns|] eqn:Hnode; simpl.
      + split_and!; [unfold removal_view; simpl; congruence| |]; intros; apply elem_of_app; [by left|right; by apply list_elem_of_singleton].
      + split_and!; [unfold removal_view; simpl; congruence|done|]. rewrite <-Hn, Hnode. by intros [? ?].
    - intros _ s1 (Hv1 & Hgrow & Hp). eapply wp_mono; [by apply IH| |done].
      intros _ s2 (Hv2 & _ & Hgrow2 & Hl). split_and!; auto; [done|].
      intros q [->|Hq]%elem_of_cons Hnq; auto. }
  eapply wp_mono; [by apply Hloop| |done]. intros _ s' (Hv & Hnil & _ & Hall). by apply HQ.
Qed.

(** The removal of a snapshot is under way, or was asked for. *)
Definition removal_key (k n : string) : string := k +:+ ":" +:+ n.
Lemma removal_key_inj k : Inj (=) (=) (removal_key k).
Proof. intros n1 n2 He%(inj _). done. Qed.
Definition asked_since s s' (k n : string) : Prop :=
  removal_key k n ∈ pending_snapshot_removals s ∨ RemoveSnapshotRpc k n ∈ rpcs (world s').
Lemma RemoveSnapshotByFunckey_wp k s (Q : unit → Sched → Prop) X :
  (∀ s', (∀ c, c ∈ rpcs (world s) → c ∈ rpcs (world s')) →
     (∀ n, is_Some (snapshots s !! k ≫= λ m, m !! n) → is_Some (nodes s !! n) → asked_since s s' k n) → Q tt s') →
  wp (RemoveSnapshotByFunckey k) Q X s.
Proof.
  intros HQ. unfold RemoveSnapshotByFunckey. apply wp_bind, wp_gets.
  set (l := keys _). assert (∀ n, is_Some (snapshots s !! k ≫= λ m, m !! n) → n ∈ l) as Hl.
  { intros n Hn. apply elem_of_keys. by destruct (snapshots s !! k). }
  clearbody l. set (I (done_ : list string) s' := nodes s' = nodes s ∧ (∀ c, c ∈ rpcs (world s) → c ∈ rpcs (world s')) ∧
    (∀ n, removal_key k n ∈ pending_snapshot_removals s' → asked_since s s' k n) ∧
    ∀ n, n ∈ done_ → is_Some (nodes s !! n) → removal_key k n ∈ pending_snapshot_removals s').
  assert (∀ (l : list string) done_ s0, I done_ s0 →
    wp (eachM (λ n, quiet (RemoveSnapshotFromNode n k)) l) (λ _, I (done_ ++ l)) (λ _, False) s0) as Hloop.
  { clear Hl HQ l. induction l as [|n l IH]; intros done_ s0 (Hn & Hgrow & Hp & Hd); simpl; [by rewrite app_nil_r|].
    rewrite (cons_middle n done_ l), app_assoc. apply wp_bind. unfold wp at 1, quiet, RemoveSnapshotFromNode.
    change (k +:+ ":" +:+ n) with (removal_key k n). case_decide as Hin; [|destruct (nodes s0 !! n) eqn:Hnode].
    - apply IH. split_and!; try done. intros n' [?| ->%list_elem_of_singleton]%elem_of_app; auto.
    - apply IH. split_and!; simpl; [done| | |].
      + intros c Hc. apply elem_of_app. left. auto.
      + intros n' [He%elem_of_singleton|Hn']%elem_of_union.
        * apply removal_key_inj in He as ->. right. apply elem_of_app. right. by apply list_elem_of_singleton.
        * destruct (Hp n' Hn') as [?|?]; [by left|right]. simpl. apply elem_of_app. by left.
      + intros n' [?| ->%list_elem_of_singleton]%elem_of_app Hk; set_solver.
    - apply IH. split_and!; try done. intros n' [?| ->%list_elem_of_singleton]%elem_of_app Hk; [auto|].
      rewrite <-Hn, Hnode in Hk. by destruct Hk. }
  eapply wp_mono; [apply (Hloop l [])| |done].
  - split_and!; try done; [by left|by intros n ?%elem_of_nil].
  - intros [] s' (_ & Hgrow & Hp & Hd). apply HQ; [done|]. intros n Hn Hk. apply Hp, Hd; [by apply Hl|done].
Qed.

(** Calls that always return. *)
Definition returns {A} (m : sm Sched Share.Error A) : Prop := ∀ s, is_ok (m s).1 = true.
Lemma returns_bind {A B} (m : sm Sched Share.Error A) (k : A → sm Sched Share.Error B) :
  returns m → (∀ a, returns (k a)) → returns (m ≫= k).
Proof.
  intros Hm Hk s. specialize (Hm s). unfold mbind, sm_bind. destruct (m s) as [[a|e|w] s1]; [apply Hk|done..].
Qed.
Lemma returns_eachM {B} (f : B → sm Sched Share.Error unit) l : (∀ b, returns (f b)) → returns (eachM f l).
Proof. intros Hf. induction l as [|b l IH]; [done|]. by apply returns_bind. Qed.
Lemma ProcessRemoveFunc_returns (spec : Function F) : returns (ProcessRemoveFunc spec).
Proof.
  assert (∀ p, returns (succeeds (StopWorker (F:=F) (L:=L) (pod p)))) as Hstop.
  { intros p s. unfold succeeds, StopWorker. by destruct (nodes s !! _). }
  apply returns_bind.
  - apply returns_bind; [done|intros l]. apply returns_bind; [|done]. apply returns_eachM. intros p.
    apply returns_bind; [apply Hstop|by intros []].
  - intros []; [done|]. apply returns_bind; [done|intros l]. apply returns_eachM. intros n s.
    unfold quiet, RemoveSnapshotFromNode. case_decide; [done|]. by destruct (nodes s !! _).
Qed.

(** What becomes of a function that is removed while it has pods: every pod
    on a known node is asked to terminate, and the removal of the snapshots on
    known nodes is asked for at once, under the pods that may be restored from
    them.  Without pods nothing is done: the snapshots stay, although this is the
    case in which the caller means to remove them.  ([RemovePodsByFunckey]
    answers [true] when there are no pods; the caller takes it for "has pods".) *)
Theorem remove_func_swaps_snapshots s (spec : Function F) :
  let k := Function_Id spec in
  ∃ s', ProcessRemoveFunc spec s = (Ok tt, s') ∧
  if decide (pods_of s k = []) then s' = s
  else (∀ p, p ∈ pods_of s k → is_Some (nodes s !! pod_node p) → TerminatePod (pod_key p) ∈ rpcs (world s')) ∧
       ∀ n, is_Some (snapshots s !! k ≫= λ m, m !! n) → is_Some (nodes s !! n) → asked_since s s' k n.
Proof.
  intros k. assert (wp (ProcessRemoveFunc spec) (λ _ s', if decide (pods_of s k = []) then s' = s
    else (∀ p, p ∈ pods_of s k → is_Some (nodes s !! pod_node p) → TerminatePod (pod_key p) ∈ rpcs (world s')) ∧
       ∀ n, is_Some (snapshots s !! k ≫= λ m, m !! n) → is_Some (nodes s !! n) → asked_since s s' k n) (λ _, False) s) as Hw.
  { apply wp_bind, RemovePodsByFunckey_wp. fold k. intros s1 Hv Hnil Hall.
    case_decide as Hno; [rewrite bool_decide_true by done; by apply wp_ret, Hnil|].
    rewrite bool_decide_false by done. injection Hv as Hn Hsn Hpe.
    apply RemoveSnapshotByFunckey_wp. fold k. intros s2 Hgrow Hasked. split; [auto|].
    intros n Hs Hk. destruct (Hasked n) as [?|?]; [by rewrite Hsn|by rewrite Hn|left; congruence|by right]. }
  pose proof (ProcessRemoveFunc_returns spec s) as Hr. unfold wp in Hw.
  destruct (ProcessRemoveFunc spec s) as [[[]|e|w] s']; [|done..]. by exists s'.
Qed.
End removal.

(** ** On the cluster *)

#[local] Existing Instance unit_float.
#[local] Existing Instance sample_config.

Lemma pod_tables_agree_witness :
  ∃ p, pods cluster_state !! "t/ns/g/1/8" = Some p ∧ "t/ns/g/1/8" ∈ lru_keys (idlePods cluster_state) ∧
    NoDup (lru_keys (idlePods cluster_state)) ∧ state_of cluster_state p ≠ WWorking 3.
Proof.
  destruct (pod_tables_agree (strays_from_start cluster) cluster_state (run_reachable _)) as (_ & _ & _ & Hnd & Hidle & Hfree). rewrite cluster_no_strays in Hidle, Hfree.
  destruct (pods cluster_state !! "t/ns/g/1/8") as [p|] eqn:Hp; [|by vm_compute in Hp].
  assert (bool_decide (pod_state (pod p) = PReady ∧ state_of cluster_state p = WIdle) = true) as Hb.
  { assert ((λ p, bool_decide (pod_state (pod p) = PReady ∧ state_of cluster_state p = WIdle)) <$>
      (pods cluster_state !! "t/ns/g/1/8") = Some true) as E by by vm_compute. rewrite Hp in E. by injection E. }
  apply bool_decide_eq_true in Hb as [H1 H2]. exists p.
  assert ("t/ns/g/1/8" ∈ lru_keys (idlePods cluster_state)) as Hk by by eapply Hidle.
  split_and!; [done..|]. by eapply Hfree.
Defined.

(** The function [g] has an idle worker: it is leased.  The function [f] has one
    to resume: the request waits.  The function [h] is not known. *)
Lemma lease_request_outcome_witness :
  (let '(r, s') := ProcessLeaseWorkerReq (lease_of "g" 3) 5 cluster_state in
   r = Ok tt ∧ lease_result cluster_state (lease_of "g" 3) 5 true s' ∧ length (sent (world s')) = 1) ∧
  (let '(r, s') := ProcessLeaseWorkerReq (lease_of "f" 3) 5 cluster_state in
   r = Ok tt ∧ lease_result cluster_state (lease_of "f" 3) 5 true s' ∧ sent (world s') = []) ∧
  (let '(r, s') := ProcessLeaseWorkerReq (lease_of "h" 3) 5 cluster_state in
   is_ok r = false ∧ lease_result cluster_state (lease_of "h" 3) 5 false s').
Proof.
  pose proof (lease_request_outcome (strays_from_start cluster) cluster_state (lease_of "g" 3) 5) as Hg.
  pose proof (lease_request_outcome (strays_from_start cluster) cluster_state (lease_of "f" 3) 5) as Hf.
  pose proof (lease_request_outcome (strays_from_start cluster) cluster_state (lease_of "h" 3) 5) as Hh.
  assert ((λ x, (x.1, length (sent (world x.2)))) (ProcessLeaseWorkerReq (lease_of "g" 3) 5 cluster_state) = (Ok tt, 1)) as Eg by by vm_compute.
  assert ((λ x, (x.1, sent (world x.2))) (ProcessLeaseWorkerReq (lease_of "f" 3) 5 cluster_state) = (Ok tt, [])) as Ef by by vm_compute.
  assert ((λ x, match x.1 with Err _ => true | _ => false end) (ProcessLeaseWorkerReq (lease_of "h" 3) 5 cluster_state) = true) as Eh by by vm_compute.
  destruct (ProcessLeaseWorkerReq (lease_of "g" 3) 5 cluster_state) as [rg sg], (ProcessLeaseWorkerReq (lease_of "f" 3) 5 cluster_state) as [rf sf],
    (ProcessLeaseWorkerReq (lease_of "h" 3) 5 cluster_state) as [rh sh].
  simpl in Eg, Ef, Eh. injection Eg as -> ->. injection Ef as -> ->. destruct rh as [|e|]; [done| |done].
  split; [split_and!; [done| |done]|split; [split_and!; [done| |done]|split; [done|]]].
  - exact (Hg _ _ (run_reachable _) eq_refl).
  - exact (Hf _ _ (run_reachable _) eq_refl).
  - exact (Hh _ _ (run_reachable _) eq_refl).
Defined.

Lemma check_all {V} (f : V → bool) (m : gmap string V) k v :
  forallb f (map_to_list m).*2 = true → m !! k = Some v → f v = true.
Proof.
  intros Hf Hk. assert (Forall f (map_to_list m).*2) as Ha by by apply Is_true_true, forallb_True in Hf.
  rewrite Forall_forall in Ha. apply Is_true_true, Ha, list_elem_of_fmap. exists (k, v). by rewrite elem_of_map_to_list.
Qed.
Lemma lease_respects_gpu_cap_witness :
  let '(r, s') := ProcessLeaseWorkerReq (lease_of "g" 3) 5 cluster_state in
  r = Ok tt ∧ TenantActiveGpu cluster_state "t" = Ok 0%Z ∧ TenantActiveGpu s' "t" = Ok 2%Z ∧
  ∃ n', TenantActiveGpu s' "t" = Ok n' ∧ (n' ≤ 3)%Z.
Proof.
  pose proof (lease_respects_gpu_cap (strays_from_start cluster) cluster_state (lease_of "g" 3) 5) as Hcap.
  assert (∀ k p, pods cluster_state !! k = Some p → tenant (pod p) = "t" ∧ gpu_count p = 2%Z) as Hp.
  { intros k p Hk. assert (bool_decide (tenant (pod p) = "t" ∧ gpu_count p = 2%Z) = true) as Hb; [|by apply bool_decide_eq_true in Hb].
    refine (check_all (λ p : WorkerPod unit, bool_decide (tenant (pod p) = "t" ∧ gpu_count p = 2%Z)) (pods cluster_state) k p _ Hk).
    by vm_compute. }
  set (asks (fs : FuncStatus unit) := gr_gpuCount (rs_gpu (RunningResource (fo_spec (object (func fs)))))).
  assert (∀ k fs, funcs cluster_state !! k = Some fs → asks fs = 2%Z) as Hf.
  { intros k fs Hk. apply Z.eqb_eq.
    refine (check_all (λ fs, (asks fs =? 2)%Z) (funcs cluster_state) k fs _ Hk). by vm_compute. }
  assert (func_ids_ok cluster_state) as Hid.
  { intros k fs Hk. assert (k ∈ keys (funcs cluster_state)) as Hin by (apply elem_of_keys; by rewrite Hk).
    rewrite (proj1 (proj2 (proj2 cluster_runs))) in Hin. revert Hk.
    apply elem_of_cons in Hin as [-> | ->%list_elem_of_singleton]; intros Hk.
    - assert ((λ fs, Function_Id (func fs)) <$> (funcs cluster_state !! "t/ns/f/1") = Some "t/ns/f/1") as E by by vm_compute.
      rewrite Hk in E. by injection E.
    - assert ((λ fs, Function_Id (func fs)) <$> (funcs cluster_state !! "t/ns/g/1") = Some "t/ns/g/1") as E by by vm_compute.
      rewrite Hk in E. by injection E. }
  assert (gpus_ok cluster_state) as Hg by (intros k p Hk; destruct (Hp k p Hk); lia).
  assert (req_pods_ok cluster_state (lease_of "g" 3)) as Hpods.
  { intros fs k p Hfs Hk _. fold (asks fs). rewrite (Hf _ fs Hfs). by apply (Hp k). }
  assert ((λ x, (x.1, TenantActiveGpu x.2 "t")) (ProcessLeaseWorkerReq (lease_of "g" 3) 5 cluster_state) = (Ok tt, Ok 2%Z)) as E by by vm_compute.
  destruct (ProcessLeaseWorkerReq (lease_of "g" 3) 5 cluster_state) as [r s']. simpl in E. injection E as -> E.
  split_and!; [done|by vm_compute|done|].
  refine (proj1 (Hcap (Ok tt) s' 0%Z (run_reachable _) Hg Hid Hpods _ _ _ _ eq_refl I)); by vm_compute.
Defined.

Lemma eviction_makes_room_witness :
  ∃ w nr s', FindNode4Pod (func_of "f") Resume {["node1"]} cluster_state = (Ok ("node1", [w], nr), s') ∧
    pod_key w = "t/ns/g/1/8" ∧ has_room cluster_state (func_of "f") Resume "node1" nr.
Proof.
  pose proof (eviction_makes_room (strays_from_start cluster) cluster_state (func_of "f") Resume {["node1"]}) as Hev.
  assert ((λ x, match x.1 with Ok (n, ws, _) => Some (n, pod_key <$> ws) | _ => None end)
    (FindNode4Pod (func_of "f") Resume {["node1"]} cluster_state) = Some ("node1", ["t/ns/g/1/8"])) as E by by vm_compute.
  destruct (FindNode4Pod (func_of "f") Resume {["node1"]} cluster_state) as [[[[n ws] nr]|e|y] s']; [|done..].
  simpl in E. injection E as -> E. destruct ws as [|w [|]]; [done| |done].
  exists w, nr, s'. split_and!; [done|by injection E|]. by destruct (Hev _ _ _ _ (run_reachable _) eq_refl) as (_ & Hr & _).
Defined.
