(* ===== verification/FuncAgent.v ===== *)
(** * Agents and workers of a gateway
      (ixshare/src/gateway/func_agent_mgr.rs, ixshare/src/gateway/func_worker.rs)

    For every function a gateway serves it has an agent, a task that queues the
    requests of its clients and decides when a worker more is needed; for every
    worker a task that leases a pod of the scheduler and serves requests.  The
    tasks share the agent's counters and its queue.  A definition below is what
    one task does between two points where it waits: a step of the system; the
    shared counters are atomics that wrap.  A client is given a connection (a
    [HttpSender], here its number) and sends it back, when it is done, through
    the worker's channel [finishQueue]. *)

From S2P Require Import Prelude.
From S2P Require Import Text.
From S2P Require Import BTree.
From S2P Require Import Common.
From S2P Require Import DataObj.
From S2P Require Import Resource.
From S2P Require Import Specs.
From S2P Require Import Worker.
From S2P Require Import Billing.

(** ** Leases of endpoints *)

(** ixshare/src/gateway/func_agent_mgr.rs:42-44 [EndpointLeaseLimiterInner] *)
Abbreviation Leases := (gmap string Z).
(** ixshare/src/gateway/func_agent_mgr.rs:62-71 [EndpointLeaseLimiter::TryAcquire] *)
Definition Lease_TryAcquire (key : string) (max_replica : Z) (leases : Leases) : bool * Leases :=
  let current := default 0%Z (leases !! key) in
  if decide (max_replica ≤ current)%Z then (false, leases) else (true, <[key := (current + 1)%Z]> leases).
(** ixshare/src/gateway/func_agent_mgr.rs:73-85 [EndpointLeaseLimiter::Release] *)
Definition Lease_Release (key : string) (leases : Leases) : Leases :=
  match leases !! key with
  | None => leases
  | Some current => if decide (current ≤ 1)%Z then delete key leases else <[key := (current - 1)%Z]> leases
  end.
(** ixshare/src/gateway/func_agent_mgr.rs:88-95 [EndpointLeaseLimiter::Count] *)
Definition Lease_Count (key : string) (leases : Leases) : Z := default 0%Z (leases !! key).

(** ** Functions and requests *)

(** ixshare/src/gateway/func_agent_mgr.rs:99-104 [FuncIdentity] *)
Record FuncIdentity := MkFuncIdentity { fi_tenant : string; fi_namespace : string; fi_funcname : string; fi_version : Z }.
#[global] Instance FuncIdentity_eq_dec : EqDecision FuncIdentity.
Proof. solve_decision. Defined.
(** ixshare/src/gateway/func_agent_mgr.rs:107-112 [FuncIdentity::Key] *)
Definition FuncIdentity_Key (self : FuncIdentity) : string :=
  fi_tenant self +:+ "/" +:+ fi_namespace self +:+ "/" +:+ fi_funcname self +:+ "/" +:+ pretty (fi_version self).
(** ixshare/src/gateway/func_agent_mgr.rs:114-116 [FuncIdentity::Prefix] *)
Definition FuncIdentity_Prefix (self : FuncIdentity) : string :=
  fi_tenant self +:+ "/" +:+ fi_namespace self +:+ "/" +:+ fi_funcname self.

(** ixshare/src/gateway/func_worker.rs:1280-1289 [FuncClientReq]; [tx] is the number of the reply channel, times are in
    milliseconds *)
Record FuncClientReq := MkClientReq {
  cr_caller_tenant : option string; cr_keepalive : bool; cr_enqueueTime : Z; cr_timeout : Z; cr_tx : nat;
}.
#[global] Instance FuncClientReq_eq_dec : EqDecision FuncClientReq.
Proof. solve_decision. Defined.
(** What a client is told: a connection, an error, or that its request was
    dropped. *)
Inductive Answer := AClient (sender : nat) (keepalive : bool) | AError (e : Share.Error) | ADropped.

(** ixshare/src/gateway/func_worker.rs:188-196 [FuncWorkerState] *)
Inductive FuncWorkerState := FInit | FIdle | FProcessing | FFinish.
#[global] Instance FuncWorkerState_eq_dec : EqDecision FuncWorkerState.
Proof. solve_decision. Defined.

(** ixshare/src/gateway/func_worker.rs:59-70 [GpuTrackingInfo]; instants are nanoseconds *)
Record GpuTrackingInfo := MkGpuTracking {
  gt_nodename : string; gt_gpu_type : string; gt_gpu_count : Z; gt_vram_mb : Z; gt_total_vram_mb : Z;
  gt_lease_start : option Z; gt_is_coldstart : bool; gt_session_id : option string; gt_last_tick_time : option Z;
}.
(** [GpuTrackingInfo::default()] *)
Definition GpuTracking_default : GpuTrackingInfo := MkGpuTracking "" "" 0 0 0 None false None None.

(** Where a worker's task is: it leases, it is about to look at its state, it is
    idle (with [isScaleInWorker] as it was read, and since when), it answers the requests it has
    taken, it waits while serving (with all its slots taken, or not), it has
    ended. *)
Inductive WorkerPc :=
| PLease
| PHead
| PIdle (isScaleInWorker : bool) (since : Z)
| PServe (reqs : list FuncClientReq)
| PWait (full : bool)
| PEnd.
#[global] Instance WorkerPc_eq_dec : EqDecision WorkerPc.
Proof. solve_decision. Defined.

(** ixshare/src/gateway/func_worker.rs:125-171 [FuncWorkerInner], with where its task is and the connections that clients
    hold *)
Record FuncWorker := MkFuncWorker {
  fw_parallelLevel : Z;
  fw_keepaliveTime : Z;
  fw_lease_released : bool;
  fw_id : Z;
  fw_keepalive : bool;
  fw_state : FuncWorkerState;
  fw_ongoingReqCnt : Z;
  fw_failCount : Z;
  fw_gpuTracking : GpuTrackingInfo;
  fw_caller_tenant : option string;   (* billingContext *)
  fw_senders : list nat;              (* connPool.senders, the last pushed first *)
  fw_finishQueue : list nat;
  fw_clients : list nat;
  fw_close : bool;                    (* closeNotify holds a permit *)
  fw_pc : WorkerPc;
}.
Implicit Types (w : FuncWorker).

Definition set_pc (pc : WorkerPc) w : FuncWorker :=
  MkFuncWorker (fw_parallelLevel w) (fw_keepaliveTime w) (fw_lease_released w) (fw_id w) (fw_keepalive w) (fw_state w)
    (fw_ongoingReqCnt w) (fw_failCount w) (fw_gpuTracking w) (fw_caller_tenant w) (fw_senders w) (fw_finishQueue w)
    (fw_clients w) (fw_close w) pc.
Definition set_close (b : bool) w : FuncWorker :=
  MkFuncWorker (fw_parallelLevel w) (fw_keepaliveTime w) (fw_lease_released w) (fw_id w) (fw_keepalive w) (fw_state w)
    (fw_ongoingReqCnt w) (fw_failCount w) (fw_gpuTracking w) (fw_caller_tenant w) (fw_senders w) (fw_finishQueue w)
    (fw_clients w) b (fw_pc w).
(** ixshare/src/gateway/func_worker.rs:296-298 [FuncWorker::SetState] *)
Definition FuncWorker_SetState (st : FuncWorkerState) w : FuncWorker :=
  MkFuncWorker (fw_parallelLevel w) (fw_keepaliveTime w) (fw_lease_released w) (fw_id w) (fw_keepalive w) st
    (fw_ongoingReqCnt w) (fw_failCount w) (fw_gpuTracking w) (fw_caller_tenant w) (fw_senders w) (fw_finishQueue w)
    (fw_clients w) (fw_close w) (fw_pc w).
Definition set_released (b : bool) w : FuncWorker :=
  MkFuncWorker (fw_parallelLevel w) (fw_keepaliveTime w) b (fw_id w) (fw_keepalive w) (fw_state w)
    (fw_ongoingReqCnt w) (fw_failCount w) (fw_gpuTracking w) (fw_caller_tenant w) (fw_senders w) (fw_finishQueue w)
    (fw_clients w) (fw_close w) (fw_pc w).
Definition set_ongoing (n : Z) w : FuncWorker :=
  MkFuncWorker (fw_parallelLevel w) (fw_keepaliveTime w) (fw_lease_released w) (fw_id w) (fw_keepalive w) (fw_state w)
    n (fw_failCount w) (fw_gpuTracking w) (fw_caller_tenant w) (fw_senders w) (fw_finishQueue w)
    (fw_clients w) (fw_close w) (fw_pc w).
Definition set_failCount (n : Z) w : FuncWorker :=
  MkFuncWorker (fw_parallelLevel w) (fw_keepaliveTime w) (fw_lease_released w) (fw_id w) (fw_keepalive w) (fw_state w)
    (fw_ongoingReqCnt w) n (fw_gpuTracking w) (fw_caller_tenant w) (fw_senders w) (fw_finishQueue w)
    (fw_clients w) (fw_close w) (fw_pc w).
Definition set_gpu (g : GpuTrackingInfo) w : FuncWorker :=
  MkFuncWorker (fw_parallelLevel w) (fw_keepaliveTime w) (fw_lease_released w) (fw_id w) (fw_keepalive w) (fw_state w)
    (fw_ongoingReqCnt w) (fw_failCount w) g (fw_caller_tenant w) (fw_senders w) (fw_finishQueue w)
    (fw_clients w) (fw_close w) (fw_pc w).
Definition set_caller (c : option string) w : FuncWorker :=
  MkFuncWorker (fw_parallelLevel w) (fw_keepaliveTime w) (fw_lease_released w) (fw_id w) (fw_keepalive w) (fw_state w)
    (fw_ongoingReqCnt w) (fw_failCount w) (fw_gpuTracking w) c (fw_senders w) (fw_finishQueue w)
    (fw_clients w) (fw_close w) (fw_pc w).
Definition set_pool (pool finish clients : list nat) w : FuncWorker :=
  MkFuncWorker (fw_parallelLevel w) (fw_keepaliveTime w) (fw_lease_released w) (fw_id w) (fw_keepalive w) (fw_state w)
    (fw_ongoingReqCnt w) (fw_failCount w) (fw_gpuTracking w) (fw_caller_tenant w) pool finish clients (fw_close w) (fw_pc w).
Definition set_lease (id : Z) (keepalive : bool) w : FuncWorker :=
  MkFuncWorker (fw_parallelLevel w) (fw_keepaliveTime w) (fw_lease_released w) id keepalive (fw_state w)
    (fw_ongoingReqCnt w) (fw_failCount w) (fw_gpuTracking w) (fw_caller_tenant w) (fw_senders w) (fw_finishQueue w)
    (fw_clients w) (fw_close w) (fw_pc w).

(** ** The gateway's view of the store *)

(** ixshare/src/gateway/gw_obj_repo.rs:109-133 [GwObjRepoInner]: the managers that agents and workers ask *)
Record GwObjRepo (F : Type) := MkRepo {
  funcMgr : gmap string (Function F);
  podMgr : gmap string (FuncPod F);
  funcpolicyMgr : gmap string (DataObject (FuncPolicySpec F));
}.
Arguments MkRepo {F}.
Arguments funcMgr {F}.
Arguments podMgr {F}.
Arguments funcpolicyMgr {F}.

(** The floating point operations that are used:
    [reqCnt as f64 > (1.0 + ratio) * totalSlotCnt as f64], and
    [(timeout * 1000.0) as u64]. *)
Class GatewayFloat (F : Type) := {
  over_ratio : F → Z → Z → bool;
  to_millis : F → Z;
}.

(** What the gateway is configured with, and the session ids it draws. *)
Class GatewayConfig (F : Type) := {
  gatewayId : Z;
  endpointsDefaultPolicy : EndpointGatewayPolicySpec F;
  uuid : nat → string;
}.

(** What a gateway's tasks share: the leases of endpoints, how many requests
    were made and the answers given to them, the ticks handed to the agent that
    stores them, how many session ids and how many connections were made, the
    clock in nanoseconds. *)
Record Shared := MkShared {
  sh_leases : Leases;
  sh_reqs : nat;
  sh_answers : list (nat * Answer);
  sh_ticks : list UsageTick;
  sh_uuids : nat;
  sh_conns : nat;
  sh_now : Z;
}.
(** Milliseconds of the clock. *)
Definition ms (t : Z) : Z := (t / 1000000)%Z.

Definition set_leases (l : Leases) (sh : Shared) : Shared :=
  MkShared l (sh_reqs sh) (sh_answers sh) (sh_ticks sh) (sh_uuids sh) (sh_conns sh) (sh_now sh).
Definition add_answers (l : list (nat * Answer)) (sh : Shared) : Shared :=
  MkShared (sh_leases sh) (sh_reqs sh) (sh_answers sh ++ l) (sh_ticks sh) (sh_uuids sh) (sh_conns sh) (sh_now sh).
Definition add_tick (t : UsageTick) (sh : Shared) : Shared :=
  MkShared (sh_leases sh) (sh_reqs sh) (sh_answers sh) (sh_ticks sh ++ [t]) (sh_uuids sh) (sh_conns sh) (sh_now sh).
Definition set_numbers (reqs uuids conns : nat) (now : Z) (sh : Shared) : Shared :=
  MkShared (sh_leases sh) reqs (sh_answers sh) (sh_ticks sh) uuids conns now.

(** ixshare/src/gateway/func_agent_mgr.rs:431-436 [WorkerUpdate] *)
Inductive WorkerUpdate :=
| UReady (worker : Z) | UWorkerFail (worker : Z) (e : Share.Error) | UWorkerLeaseFail (worker : Z) (e : Share.Error)
| UIdleTimeout (worker : Z).

Section agent.
Context {F : Type} `{FloatLit F, GatewayFloat F}.

(** ixshare/src/gateway/func_agent_mgr.rs:120-126 [FuncRouteTarget] *)
Record FuncRouteTarget := MkRoute {
  rt_logical : FuncIdentity; rt_physical : FuncIdentity; rt_func : Function F; rt_policy : FuncPolicySpec F;
  rt_caller_tenant : option string;
}.
(** ixshare/src/gateway/func_agent_mgr.rs:129-131 [FuncRouteTarget::AgentKey] *)
Definition AgentKey (self : FuncRouteTarget) : string := FuncIdentity_Key (rt_logical self).
(** ixshare/src/gateway/func_agent_mgr.rs:133-137 [FuncRouteTarget::IsEndpointRoute] *)
Definition IsEndpointRoute (self : FuncRouteTarget) : bool :=
  let l := rt_logical self in let p := rt_physical self in
  negb (bool_decide (fi_tenant l = fi_tenant p)) || negb (bool_decide (fi_namespace l = fi_namespace p))
  || negb (bool_decide (fi_funcname l = fi_funcname p)).

(** What an agent is made with. *)
Record AgentConfig := MkAgentConfig {
  ac_tenant : string; ac_namespace : string; ac_funcName : string;
  ac_physicalTenant : string; ac_physicalNamespace : string; ac_physicalFuncName : string;
  ac_func : Function F; ac_funcVersion : Z; ac_endpointLeaseKey : option string; ac_isEndpointRoute : bool;
}.
(** ixshare/src/gateway/func_agent_mgr.rs:445-478 [FuncAgentInner], with what its task keeps: the tokens of the throttle
    and whether it waits, is about to look at the queue, or has ended *)
Inductive AgentPc := QHead | QSelect | QEnd.
#[global] Instance AgentPc_eq_dec : EqDecision AgentPc.
Proof. solve_decision. Defined.
Record FuncAgent := MkFuncAgent {
  fa_config : AgentConfig;
  fa_scaleoutPolicy : ScaleOutPolicy F;
  fa_scaleinTimeout : Z;
  fa_parallelLeve : Z;
  fa_queueLen : Z;
  fa_reqQueueTx : list FuncClientReq;       (* the channel, oldest first *)
  fa_reqQueue : list FuncClientReq;         (* the queue, from its back (oldest) to its front *)
  fa_updates : list WorkerUpdate;           (* the channel of worker updates *)
  fa_totalSlot : Z;
  fa_startingSlot : Z;
  fa_activeReqCnt : Z;
  fa_workers : gset Z;                      (* the registered workers, by id *)
  fa_nextWorkerId : Z;
  fa_scaleInWorkerId : Z;
  fa_tasks : gmap Z FuncWorker;             (* every worker, registered or not *)
  fa_returns : list (Z * bool);             (* the return tasks spawned: the worker, [failworker] *)
  fa_dropped : list WorkerUpdate;           (* the updates nobody receives *)
  fa_tokens : Z;
  fa_close : bool;                          (* closeNotify holds a permit *)
  fa_pc : AgentPc;
}.
Implicit Types (g : FuncAgent) (sh : Shared).

Definition set_tasks (t : gmap Z FuncWorker) g : FuncAgent :=
  MkFuncAgent (fa_config g) (fa_scaleoutPolicy g) (fa_scaleinTimeout g) (fa_parallelLeve g) (fa_queueLen g) (fa_reqQueueTx g)
    (fa_reqQueue g) (fa_updates g) (fa_totalSlot g) (fa_startingSlot g) (fa_activeReqCnt g) (fa_workers g) (fa_nextWorkerId g)
    (fa_scaleInWorkerId g) t (fa_returns g) (fa_dropped g) (fa_tokens g) (fa_close g) (fa_pc g).
Definition set_counts (total starting active : Z) g : FuncAgent :=
  MkFuncAgent (fa_config g) (fa_scaleoutPolicy g) (fa_scaleinTimeout g) (fa_parallelLeve g) (fa_queueLen g) (fa_reqQueueTx g)
    (fa_reqQueue g) (fa_updates g) (cast usize total) (cast usize starting) (cast usize active) (fa_workers g)
    (fa_nextWorkerId g) (fa_scaleInWorkerId g) (fa_tasks g) (fa_returns g) (fa_dropped g) (fa_tokens g) (fa_close g) (fa_pc g).
Definition set_reqs (chan queue : list FuncClientReq) g : FuncAgent :=
  MkFuncAgent (fa_config g) (fa_scaleoutPolicy g) (fa_scaleinTimeout g) (fa_parallelLeve g) (fa_queueLen g) chan
    queue (fa_updates g) (fa_totalSlot g) (fa_startingSlot g) (fa_activeReqCnt g) (fa_workers g) (fa_nextWorkerId g)
    (fa_scaleInWorkerId g) (fa_tasks g) (fa_returns g) (fa_dropped g) (fa_tokens g) (fa_close g) (fa_pc g).
Definition set_updates (u : list WorkerUpdate) (dropped : list WorkerUpdate) g : FuncAgent :=
  MkFuncAgent (fa_config g) (fa_scaleoutPolicy g) (fa_scaleinTimeout g) (fa_parallelLeve g) (fa_queueLen g) (fa_reqQueueTx g)
    (fa_reqQueue g) u (fa_totalSlot g) (fa_startingSlot g) (fa_activeReqCnt g) (fa_workers g) (fa_nextWorkerId g)
    (fa_scaleInWorkerId g) (fa_tasks g) (fa_returns g) dropped (fa_tokens g) (fa_close g) (fa_pc g).
Definition set_returns (l : list (Z * bool)) g : FuncAgent :=
  MkFuncAgent (fa_config g) (fa_scaleoutPolicy g) (fa_scaleinTimeout g) (fa_parallelLeve g) (fa_queueLen g) (fa_reqQueueTx g)
    (fa_reqQueue g) (fa_updates g) (fa_totalSlot g) (fa_startingSlot g) (fa_activeReqCnt g) (fa_workers g) (fa_nextWorkerId g)
    (fa_scaleInWorkerId g) (fa_tasks g) l (fa_dropped g) (fa_tokens g) (fa_close g) (fa_pc g).
Definition set_workers (ws : gset Z) (next scalein : Z) g : FuncAgent :=
  MkFuncAgent (fa_config g) (fa_scaleoutPolicy g) (fa_scaleinTimeout g) (fa_parallelLeve g) (fa_queueLen g) (fa_reqQueueTx g)
    (fa_reqQueue g) (fa_updates g) (fa_totalSlot g) (fa_startingSlot g) (fa_activeReqCnt g) ws next scalein (fa_tasks g)
    (fa_returns g) (fa_dropped g) (fa_tokens g) (fa_close g) (fa_pc g).
Definition set_policy (p : FuncPolicySpec F) g : FuncAgent :=
  MkFuncAgent (fa_config g) (scaleoutPolicy p) (to_millis (scaleinTimeout p)) (parallel p) (queueLen p) (fa_reqQueueTx g)
    (fa_reqQueue g) (fa_updates g) (fa_totalSlot g) (fa_startingSlot g) (fa_activeReqCnt g) (fa_workers g) (fa_nextWorkerId g)
    (fa_scaleInWorkerId g) (fa_tasks g) (fa_returns g) (fa_dropped g) (fa_tokens g) (fa_close g) (fa_pc g).
Definition set_task_pc (tokens : Z) (close : bool) (pc : AgentPc) g : FuncAgent :=
  MkFuncAgent (fa_config g) (fa_scaleoutPolicy g) (fa_scaleinTimeout g) (fa_parallelLeve g) (fa_queueLen g) (fa_reqQueueTx g)
    (fa_reqQueue g) (fa_updates g) (fa_totalSlot g) (fa_startingSlot g) (fa_activeReqCnt g) (fa_workers g) (fa_nextWorkerId g)
    (fa_scaleInWorkerId g) (fa_tasks g) (fa_returns g) (fa_dropped g) tokens close pc.

(** Adds to the counters; atomics wrap. *)
Definition count_by (total starting active : Z) g : FuncAgent :=
  set_counts (fa_totalSlot g + total) (fa_startingSlot g + starting) (fa_activeReqCnt g + active) g.
Definition on_task (i : Z) (f : FuncWorker → FuncWorker) g : FuncAgent := set_tasks (alter f i (fa_tasks g)) g.

(** The state a task of the agent sees: the agent and what all tasks share. *)
Definition AgentState : Type := FuncAgent * Shared.
Abbreviation M := (sm AgentState Share.Error).
Definition agent_do (f : FuncAgent → FuncAgent) : M unit := modify (λ s, (f s.1, s.2)).
Definition shared_do (f : Shared → Shared) : M unit := modify (λ s, (s.1, f s.2)).
(** [self.field] of the worker [i]. *)
Definition worker_get {A} (i : Z) (f : FuncWorker → A) : M A := λ s, (unwrap_opt (f <$> fa_tasks s.1 !! i), s).

(** ixshare/src/gateway/func_agent_mgr.rs:481-483 [FuncAgentInner::Key] *)
Definition FuncAgent_Key g : string := let c := fa_config g in ac_tenant c +:+ "/" +:+ ac_namespace c +:+ "/" +:+ ac_funcName c.
(** ixshare/src/gateway/func_agent_mgr.rs:505-516 [FuncAgentInner::ScaleInWorkerId] *)
Definition ScaleInWorkerId (workers : gset Z) : Z :=
  if decide (size workers ≤ 1) then (-1)%Z else default (-1)%Z (head (set_elems workers)).
(** ixshare/src/gateway/func_agent_mgr.rs:485-493 [FuncAgentInner::AddWorker] *)
Definition AddWorker (i : Z) g : FuncAgent :=
  let ws := {[i]} ∪ fa_workers g in set_workers ws (fa_nextWorkerId g) (ScaleInWorkerId ws) g.
(** ixshare/src/gateway/func_agent_mgr.rs:495-499 [FuncAgentInner::RemoveWorker] *)
Definition RemoveWorker (i : Z) g : FuncAgent :=
  let ws := fa_workers g ∖ {[i]} in set_workers ws (fa_nextWorkerId g) (ScaleInWorkerId ws) g.
(** ixshare/src/gateway/func_agent_mgr.rs:961-969 [FuncAgent::SendWorkerStatusUpdate]; the channel has 100
    places and is closed when the agent has ended *)
Definition SendWorkerStatusUpdate (u : WorkerUpdate) g : FuncAgent :=
  if decide (fa_pc g ≠ QEnd ∧ length (fa_updates g) < 100) then set_updates (fa_updates g ++ [u]) (fa_dropped g) g
  else set_updates (fa_updates g) (fa_dropped g ++ [u]) g.
(** ixshare/src/gateway/func_agent_mgr.rs:598-602 [FuncAgent::TotalSlot] *)
Definition TotalSlot g : Share.Result Z := chk usize (Z.of_nat (size (fa_workers g)) * fa_parallelLeve g)%Z.
(** ixshare/src/gateway/func_agent_mgr.rs:716-720 [FuncAgent::NeedLastWorker] *)
Definition NeedLastWorker g : Share.Result bool :=
  total ← TotalSlot g;
  slots ← chk usize (total - fa_parallelLeve g)%Z;
  Ok (bool_decide (slots < fa_activeReqCnt g)%Z).
(** ixshare/src/gateway/func_agent_mgr.rs:693-714 [FuncAgent::NeedNewWorker] *)
Definition NeedNewWorker g : Share.Result bool :=
  total ← TotalSlot g;
  match fa_scaleoutPolicy g with WaitQueueRatio ratio => Ok (over_ratio ratio (fa_activeReqCnt g) total) end.

(** ** The queue of requests *)

Definition elapsed (now : Z) (r : FuncClientReq) : Z := (now - cr_enqueueTime r)%Z.
(** ixshare/src/gateway/func_agent_mgr.rs:1147-1167 [ClientReqQueue::CleanTimeout]: those that timed out, and the rest *)
Fixpoint CleanTimeout (now : Z) (q : list FuncClientReq) : list FuncClientReq * list FuncClientReq :=
  match q with
  | [] => ([], [])
  | r :: q' => if decide (cr_timeout r < elapsed now r)%Z then let '(out, rest) := CleanTimeout now q' in (r :: out, rest)
               else ([], q)
  end.
(** ixshare/src/gateway/func_agent_mgr.rs:1169-1191 [ClientReqQueue::Send] *)
Definition Queue_Send (r : FuncClientReq) : M bool := λ s,
  if decide (fa_queueLen s.1 ≤ Z.of_nat (length (fa_reqQueue s.1)))%Z
  then (Ok false, (s.1, add_answers [(cr_tx r, AError Share.QueueFull)] s.2))
  else (Ok true, (set_reqs (fa_reqQueueTx s.1) (fa_reqQueue s.1 ++ [r]) s.1, s.2)).
(** ixshare/src/gateway/func_agent_mgr.rs:1193-1205 [ClientReqQueue::TryRecvBatch] *)
Definition TryRecvBatch (cnt : Z) : M (list FuncClientReq) := λ s,
  let q := fa_reqQueue s.1 in
  (Ok (take (Z.to_nat cnt) q), (set_reqs (fa_reqQueueTx s.1) (drop (Z.to_nat cnt) q) s.1, s.2)).

(** ** Billing of a worker's lease *)

(** The tick of a session; [gateway_id] is the gateway's. *)
Definition request_tick (gateway_id : Z) g w (session_id : string) (now interval : Z) (kind : string) : UsageTick :=
  let c := fa_config g in let t := fw_gpuTracking w in
  MkUsageTick session_id (ac_tenant c) (fw_caller_tenant w) (ac_namespace c) (ac_funcName c) (ac_funcVersion c)
    (Some (gt_nodename t)) (Some (cast i64 (fw_id w))) (Some gateway_id) (gt_gpu_type t) (gt_gpu_count t) (gt_vram_mb t)
    (gt_total_vram_mb t) now interval kind "request" (gt_is_coldstart t).
Definition set_session (cold : bool) (session : option string) (last : option Z) (t : GpuTrackingInfo) : GpuTrackingInfo :=
  MkGpuTracking (gt_nodename t) (gt_gpu_type t) (gt_gpu_count t) (gt_vram_mb t) (gt_total_vram_mb t) (gt_lease_start t)
    cold session last.
(** ixshare/src/gateway/func_worker.rs:928-984 [FuncWorker::insert_billing_tick] *)
Definition insert_billing_tick (gateway_id : Z) (i : Z) : M unit := λ s,
  let '(g, sh) := s in
  match fa_tasks g !! i with
  | None => (Ok tt, s)
  | Some w =>
      let t := fw_gpuTracking w in
      match gt_session_id t, gt_last_tick_time t with
      | Some id, Some last =>
          if decide (gt_gpu_count t = 0%Z) then (Ok tt, s) else
          let tick := request_tick gateway_id g w id (sh_now sh) (interval_ms (sh_now sh) last) "periodic" in
          (Ok tt, (on_task i (set_gpu (set_session false (Some id) (Some (sh_now sh)) t)) g, add_tick tick sh))
      | _, _ => (Ok tt, s)
      end
  end.
(** ixshare/src/gateway/func_worker.rs:988-1027 [FuncWorker::insert_start_billing_tick] *)
Definition insert_start_billing_tick (gateway_id : Z) (i : Z) : M unit := λ s,
  let '(g, sh) := s in
  match fa_tasks g !! i with
  | None => (Ok tt, s)
  | Some w =>
      let t := fw_gpuTracking w in
      match gt_session_id t with
      | Some id =>
          if decide (gt_gpu_count t = 0%Z) then (Ok tt, s)
          else (Ok tt, (g, add_tick (request_tick gateway_id g w id (sh_now sh) 0 "start") sh))
      | None => (Ok tt, s)
      end
  end.
(** ixshare/src/gateway/func_worker.rs:1030-1089 [FuncWorker::insert_final_billing_tick] *)
Definition insert_final_billing_tick (gateway_id : Z) (i : Z) : M unit := λ s,
  let '(g, sh) := s in
  match fa_tasks g !! i with
  | None => (Ok tt, s)
  | Some w =>
      let t := fw_gpuTracking w in
      match gt_session_id t, gt_last_tick_time t with
      | Some id, Some last =>
          if decide (gt_gpu_count t = 0%Z) then (Ok tt, s) else
          let interval := interval_ms (sh_now sh) last in
          if decide (interval < 100)%Z then (Ok tt, s) else
          (Ok tt, (on_task i (set_gpu (set_session (gt_is_coldstart t) None None t)) g,
                   add_tick (request_tick gateway_id g w id (sh_now sh) interval "final") sh))
      | _, _ => (Ok tt, s)
      end
  end.
End agent.
