(* ===== verification/GatewayTasks.v ===== *)
(** * The tasks of a gateway
      (ixshare/src/gateway/func_worker.rs, ixshare/src/gateway/func_agent_mgr.rs,
      ixshare/src/gateway/gw_obj_repo.rs)

    What a worker's task and an agent's task do from one wait to the next
    ([worker_step], [agent_step]), as functions of what ended the wait.  An
    [await] on a lock nobody holds is not a wait. *)

From S2P Require Import Prelude.
From S2P Require Import Text.
From S2P Require Import BTree.
From S2P Require Import Common.
From S2P Require Import DataObj.
From S2P Require Import Resource.
From S2P Require Import Specs.
From S2P Require Import Worker.
From S2P Require Import Billing.
From S2P Require Import FuncAgent.

Section tasks.
Context {F : Type} `{FloatLit F, GatewayFloat F, GatewayConfig F}.
Implicit Types (g : FuncAgent (F:=F)) (sh : Shared) (repo : GwObjRepo F) (i : Z).
Abbreviation M := (sm (FuncAgent (F:=F) * Shared) Share.Error).

Definition on_worker i (f : FuncWorker → FuncWorker) : M unit := agent_do (on_task i f).
Definition agent_get {A} (f : FuncAgent (F:=F) → A) : M A := gets (λ s, f s.1).

(** ** Policies *)

(** ixshare/src/gateway/gw_obj_repo.rs:218-240 [GwObjRepo::FuncPolicy] *)
Definition Repo_FuncPolicy repo (func : Function F) : FuncPolicySpec F :=
  match Mgr_Get (funcpolicyMgr repo) (tenant func) (namespace func) (name func) with
  | Ok p => object p
  | _ =>
      match fs_policy (fo_spec (object func)) with
      | Obj p => p
      | Link l =>
          if negb (bool_decide (link_objType l = "funcpolicy")) then FuncPolicySpec_default else
          match Mgr_Get (funcpolicyMgr repo) (tenant func) (link_namespace l) (link_name l) with
          | Ok p => object p
          | _ => FuncPolicySpec_default
          end
      end
  end.
(** ixshare/src/gateway/gw_obj_repo.rs:808-828 [GwObjRepo::EndpointRoutePolicy] *)
Definition EndpointRoutePolicy repo (tenant slug : string) : FuncPolicySpec F :=
  match Mgr_Get (funcpolicyMgr repo) tenant VIRTUAL_ENDPOINTS_NAMESPACE slug with
  | Ok p => object p
  | _ =>
      let policy := AsFuncPolicySpec endpointsDefaultPolicy in
      match Mgr_Get (funcMgr repo) "inferx" "endpoint" slug with
      | Ok func =>
          let backing := Repo_FuncPolicy repo func in
          MkFuncPolicySpec (nvidiaReplica policy) (minReplica policy) (maxReplica policy) (standbyPerNode policy)
            (parallel backing) (queueLen backing) (queueTimeout backing) (scaleoutPolicy backing) (scaleinTimeout backing)
            (runtimeConfig policy)
      | _ => policy
      end
  end.
(** ixshare/src/gateway/func_agent_mgr.rs:604-628 [FuncAgent::UpdatePolicy] *)
Definition UpdatePolicy repo g : FuncAgent :=
  let c := fa_config g in
  let policy :=
    if ac_isEndpointRoute c then
      match Mgr_Get (funcpolicyMgr repo) (ac_tenant c) (ac_namespace c) (ac_funcName c) with
      | Ok p => object p
      | _ => EndpointRoutePolicy repo (ac_tenant c) (ac_funcName c)
      end
    else Repo_FuncPolicy repo (ac_func c) in
  set_policy policy g.

(** ** Leases *)

Definition max_replica repo g : Z :=
  let c := fa_config g in
  match Mgr_Get (funcpolicyMgr repo) (ac_tenant c) (ac_namespace c) (ac_funcName c) with
  | Ok policy => maxReplica (object policy)
  | _ => e_maxReplica endpointsDefaultPolicy
  end.
(** ixshare/src/gateway/func_agent_mgr.rs:580-596 [FuncAgent::TryAcquireEndpointLease] *)
Definition TryAcquireEndpointLease repo : M bool := λ s,
  match ac_endpointLeaseKey (fa_config s.1) with
  | None => (Ok true, s)
  | Some key =>
      let '(ok, leases) := Lease_TryAcquire key (max_replica repo s.1) (sh_leases s.2) in
      (Ok ok, (s.1, set_leases leases s.2))
  end.
(** ixshare/src/gateway/func_worker.rs:391-399 [FuncWorker::ReleaseEndpointLease] *)
Definition ReleaseEndpointLease i : M unit :=
  released ← worker_get i fw_lease_released;
  _ ← on_worker i (set_released true);
  key ← agent_get (ac_endpointLeaseKey ∘ fa_config);
  match key, released with
  | Some key, false => shared_do (λ sh, set_leases (Lease_Release key (sh_leases sh)) sh)
  | _, _ => mret tt
  end.
(** ixshare/src/gateway/func_worker.rs:371-389 [FuncWorker::FinishWorker]; metrics are left out *)
Definition FinishWorker i : M unit :=
  _ ← ReleaseEndpointLease i;
  p ← worker_get i fw_parallelLevel;
  _ ← agent_do (count_by (- p) 0 0);
  st ← worker_get i fw_state;
  _ ← pure_ (assert_ (bool_decide (st = FIdle) || bool_decide (st = FProcessing)) "assertion failed");
  _ ← insert_final_billing_tick gatewayId i;
  n ← worker_get i fw_ongoingReqCnt;
  _ ← agent_do (count_by 0 0 (- n));
  on_worker i (FuncWorker_SetState FFinish).
(** The task returns: the receiver of [finishQueue] goes with what it holds. *)
Definition end_task i : M unit := on_worker i (λ w, set_pc PEnd (set_pool (fw_senders w) [] (fw_clients w) w)).
(** The task that returns a worker's pod to the scheduler; [reply n] is the
    answer to its call [n] of [ReturnWorker], the text of the error if it fails.
    The result is the waits between its calls, in milliseconds, and whether the
    pod was returned.  That it is no longer counted among the leased workers,
    which follows in every case, is left out. *)
(** ixshare/src/gateway/func_agent_mgr.rs:973-1022 [FuncAgent::spawn_return_worker_retry]; the loop *)
Fixpoint return_loop (reply : nat → option string) (fuel retry_count : nat) (backoff : Z) : list Z * bool :=
  match fuel with
  | 0 => ([], false)
  | S fuel =>
      match reply retry_count with
      | None => ([], true)
      | Some error_str =>
          if contains "NotExist" error_str then ([], false)
          else
            let retry_count := S retry_count in
            if decide (10 ≤ retry_count) then ([], false)
            else let '(waits, success) := return_loop reply fuel retry_count (Z.min (backoff * 2) 5000) in
                 (backoff :: waits, success)
      end
  end.
Definition return_task (reply : nat → option string) : list Z * bool := return_loop reply 10 0 500.
(** The task is started. *)
(** ixshare/src/gateway/func_agent_mgr.rs:971-972 [FuncAgent::spawn_return_worker_retry] *)
Definition spawn_return_worker_retry i (failworker : bool) : M unit :=
  agent_do (λ g, set_returns (fa_returns g ++ [(i, failworker)]) g).

(** ** Connections *)

(** ixshare/src/gateway/func_worker.rs:1187-1193 [ConnectionPool::ReturnSender] *)
Definition ReturnSender (unusable : nat → bool) (n : nat) w : FuncWorker :=
  if unusable n then w else set_pool (n :: fw_senders w) (fw_finishQueue w) (fw_clients w) w.
Fixpoint pop_usable (unusable : nat → bool) (senders : list nat) : option nat * list nat :=
  match senders with
  | [] => (None, [])
  | n :: l => if unusable n then pop_usable unusable l else (Some n, l)
  end.
(** ixshare/src/gateway/func_worker.rs:1195-1223 [ConnectionPool::GetConnect]; [conn] is the error of a new connection to the
    pod, if there is one *)
Definition GetConnect i (unusable : nat → bool) (conn : option Share.Error) : M nat :=
  senders ← worker_get i fw_senders;
  let '(o, rest) := pop_usable unusable senders in
  _ ← on_worker i (λ w, set_pool rest (fw_finishQueue w) (fw_clients w) w);
  match o with
  | Some n => mret n
  | None =>
      _ ← pure_ match conn with
                | None => Ok tt
                | Some (Share.CommonError s) => Err (Share.CommonError ("Socket fail: " +:+ s))
                | Some e => Err e
                end;
      n ← gets (sh_conns ∘ snd);
      _ ← shared_do (λ sh, set_numbers (sh_reqs sh) (sh_uuids sh) (S n) (sh_now sh) sh);
      mret n
  end.
(** ixshare/src/gateway/func_worker.rs:476-522 [FuncWorker::HandleReturn]; whether connections failed, and whether they can be
    used again, is given *)
Definition HandleReturn i (fails unusable : nat → bool) (sender : nat) : M bool :=
  _ ← agent_do (count_by 0 0 (-1));
  ongoing ← worker_get i fw_ongoingReqCnt;
  _ ← on_worker i (set_ongoing (cast usize (ongoing - 1)));
  failed ← (if fails sender then
              c ← worker_get i fw_failCount;
              _ ← on_worker i (set_failCount (cast usize (c + 1)));
              mret (bool_decide (c = 3%Z))
            else
              _ ← on_worker i (set_failCount 0);
              mret false);
  if (failed : bool) then
    _ ← FinishWorker i;
    _ ← agent_do (RemoveWorker i);
    _ ← agent_do (SendWorkerStatusUpdate (UWorkerFail i (Share.CommonError "Http fail")));
    mret true
  else
    _ ← (if decide (ongoing = 1%Z) then on_worker i (FuncWorker_SetState FIdle) else mret tt);
    _ ← on_worker i (ReturnSender unusable sender);
    mret false.
(** The [try_recv] loop around it. *)
Fixpoint HandleReturns i (fails unusable : nat → bool) (l : list nat) : M bool :=
  match l with
  | [] => mret false
  | n :: l =>
      stop ← HandleReturn i fails unusable n;
      if (stop : bool) then mret true else HandleReturns i fails unusable l
  end.
(** ixshare/src/gateway/func_worker.rs:1450-1460 [QHttpCallClient::drop] *)
Definition QHttpCallClient_drop (n : nat) w : FuncWorker :=
  let clients := filter (λ m, m ≠ n) (fw_clients w) in
  match fw_pc w with
  | PEnd => set_pool (fw_senders w) (fw_finishQueue w) clients w
  | _ =>
      if decide (Z.of_nat (length (fw_finishQueue w)) < fw_parallelLevel w * 2)%Z
      then set_pool (fw_senders w) (fw_finishQueue w ++ [n]) clients w
      else set_pool (fw_senders w) (fw_finishQueue w) clients w
  end.

(** ** A worker's task *)

(** The session and the pod's resources, as [Process] notes them after the
    lease. *)
Definition lease_tracking repo g (id : Z) (keepalive : bool) sh : Share.Result GpuTrackingInfo :=
  let c := fa_config g in
  let session := uuid (sh_uuids sh) in
  let pod_name := ac_physicalTenant c +:+ "/" +:+ ac_physicalNamespace c +:+ "/" +:+ ac_physicalFuncName c +:+ "/"
    +:+ pretty (ac_funcVersion c) +:+ "/" +:+ pretty id in
  match Mgr_Get (podMgr repo) (ac_physicalTenant c) (ac_physicalNamespace c) pod_name with
  | Ok pod =>
      let spec := fp_spec (object pod) in
      total ← Share.lift (TotalVRam (nr_gpus (allocResources spec)));
      Ok (MkGpuTracking (nodename spec) (nr_gpuType (allocResources spec))
        (cast i32 (gr_gpuCount (rs_gpu (reqResources spec)))) (cast i64 (gr_vRam (rs_gpu (reqResources spec))))
        (cast i64 (total / 1024 / 1024)) (Some (sh_now sh)) (negb keepalive) (Some session) (Some (sh_now sh)))
  | _ => Ok (MkGpuTracking "" "" 0 0 0 (Some (sh_now sh)) (negb keepalive) (Some session) (Some (sh_now sh)))
  end.
(** ixshare/src/gateway/func_worker.rs:534-563 [FuncWorker::Process]: the lease fails *)
Definition lease_failed i (e : Share.Error) : M unit :=
  _ ← ReleaseEndpointLease i;
  p ← worker_get i fw_parallelLevel;
  _ ← agent_do (count_by 0 (- p) 0);
  _ ← agent_do (RemoveWorker i);
  let e := match e with Share.SchedulerErr s => Share.SchedulerErr s | _ => Share.CommonError "" end in
  _ ← agent_do (SendWorkerStatusUpdate (UWorkerLeaseFail i e));
  end_task i.
(** ixshare/src/gateway/func_worker.rs:584-669 [FuncWorker::Process]: the lease is granted *)
Definition leased repo i (resp : LeaseWorkerResp) : M unit :=
  id ← pure_ (unwrap_opt (parse_i64 (lp_id resp)));
  p ← worker_get i fw_parallelLevel;
  _ ← agent_do (count_by p (- p) 0);
  _ ← on_worker i (set_lease id (lp_keepalive resp));
  info ← (λ s, (lease_tracking repo s.1 id (lp_keepalive resp) s.2, s));
  _ ← on_worker i (set_gpu info);
  _ ← shared_do (λ sh, set_numbers (sh_reqs sh) (S (sh_uuids sh)) (sh_conns sh) (sh_now sh) sh);
  _ ← insert_start_billing_tick gatewayId i;
  _ ← agent_do (SendWorkerStatusUpdate (UReady i));
  on_worker i (set_pc PHead ∘ FuncWorker_SetState FProcessing).
(** ixshare/src/gateway/func_worker.rs:671-756 [FuncWorker::Process]: the head of the loop *)
Definition worker_head i : M unit :=
  scaleIn ← agent_get (λ g, bool_decide (i = fa_scaleInWorkerId g));
  st ← worker_get i fw_state;
  match st with
  | FInit | FFinish => pure_ (Panic "internal error: entered unreachable code")
  | FIdle => now ← gets (sh_now ∘ snd); on_worker i (set_pc (PIdle scaleIn now))
  | FProcessing =>
      par ← agent_get fa_parallelLeve;
      ongoing ← worker_get i fw_ongoingReqCnt;
      cnt ← pure_ (chk usize (par - ongoing)%Z);
      reqs ← (if decide (0 < cnt)%Z then TryRecvBatch cnt else mret []);
      on_worker i (λ w, set_pc (PServe reqs) (set_ongoing (cast usize (fw_ongoingReqCnt w + Z.of_nat (length reqs))) w))
  end.
(** ixshare/src/gateway/func_worker.rs:757-780 [FuncWorker::Process]: one request of the batch *)
Definition serve i (req : FuncClientReq) (reqs : list FuncClientReq) (unusable : nat → bool) (conn : option Share.Error)
    : M unit := λ s,
  match (_ ← on_worker i (set_caller (cr_caller_tenant req)); GetConnect i unusable conn) s with
  | (Ok n, s) =>
      (_ ← shared_do (add_answers [(cr_tx req, AClient n (cr_keepalive req))]);
       on_worker i (λ w, set_pc (PServe reqs) (set_pool (fw_senders w) (fw_finishQueue w) (fw_clients w ++ [n]) w))) s
  | (Err e, s) =>
      (_ ← shared_do (add_answers [(cr_tx req, AError (Share.CommonError "Funcworker connect fail with error "))]);
       _ ← FinishWorker i;
       _ ← agent_do (RemoveWorker i);
       _ ← agent_do (SendWorkerStatusUpdate (UWorkerFail i e));
       _ ← shared_do (add_answers ((λ r, (cr_tx r, ADropped)) <$> reqs));
       end_task i) s
  | (Panic p, s) => (Panic p, s)
  end.
(** ixshare/src/gateway/func_worker.rs:790-806 [FuncWorker::Process]: the batch is served *)
Definition served i : M unit :=
  ongoing ← worker_get i fw_ongoingReqCnt;
  par ← agent_get fa_parallelLeve;
  if decide (ongoing = 0%Z) then on_worker i (set_pc PHead ∘ FuncWorker_SetState FIdle)
  else on_worker i (set_pc (PWait (negb (bool_decide (ongoing < par)%Z)))).
(** [closeNotify] was notified. *)
Definition worker_closed i (failworker : bool) : M unit :=
  _ ← on_worker i (set_close false);
  _ ← FinishWorker i;
  _ ← agent_do (RemoveWorker i);
  _ ← spawn_return_worker_retry i failworker;
  end_task i.

(** What ends a worker's wait: the scheduler's answer, the task just goes on, a
    connection is there, a notification, the queue has a request, the keepalive
    time is over, the millisecond of a poll, connections come back, the billing
    interval. *)
Inductive WorkerEvent :=
| WLease (repo : GwObjRepo F) (resp : LeaseWorkerResp + Share.Error)
| WRun
| WServe (unusable : nat → bool) (conn : option Share.Error)
| WClose
| WReq
| WPoll
| WKeepalive
| WReturn (fails unusable : nat → bool)
| WBill.

(** Whether the event can end the wait. *)
Definition worker_enabled i (ev : WorkerEvent) g sh : bool :=
  match fa_tasks g !! i with
  | None => false
  | Some w =>
      match fw_pc w, ev with
      | PLease, WLease _ _ => true
      | PHead, WRun => true
      | PServe (_ :: _), WServe _ _ => true
      | PServe [], WRun => true
      | PIdle _ _, WClose | PWait _, WClose => fw_close w
      | PIdle true _, WPoll => true
      | PIdle false _, WReq | PWait false, WReq => negb (bool_decide (fa_reqQueue g = []))
      | PIdle _ since, WKeepalive => bool_decide (fw_keepaliveTime w * 1000000 ≤ sh_now sh - since)%Z
      | PWait _, WReturn _ _ => negb (bool_decide (fw_finishQueue w = []))
      | PIdle _ _, WBill | PWait _, WBill => true
      | _, _ => false
      end
  end.
(** ixshare/src/gateway/func_worker.rs:699-888 [FuncWorker::Process]: the waits of the loop, and what follows each of them *)
Definition worker_step i (ev : WorkerEvent) : M unit :=
  pc ← worker_get i fw_pc;
  match ev, pc with
  | WLease repo (inl resp), PLease => leased repo i resp
  | WLease _ (inr e), PLease => lease_failed i e
  | WRun, PHead => worker_head i
  | WRun, PServe [] => served i
  | WServe unusable conn, PServe (req :: reqs) => serve i req reqs unusable conn
  | WClose, PIdle _ _ => worker_closed i false
  | WClose, PWait _ => worker_closed i true
  | WPoll, PIdle true _ =>
      last ← (λ s, (NeedLastWorker s.1, s));
      if (last : bool) then on_worker i (set_pc PHead ∘ FuncWorker_SetState FProcessing) else mret tt
  | WReq, PIdle false _ => on_worker i (set_pc PHead ∘ FuncWorker_SetState FProcessing)
  | WReq, PWait false => on_worker i (set_pc PHead)
  | WKeepalive, PIdle _ _ =>
      _ ← FinishWorker i;
      _ ← agent_do (SendWorkerStatusUpdate (UIdleTimeout i));
      end_task i
  | WReturn fails unusable, PWait _ =>
      l ← worker_get i fw_finishQueue;
      _ ← on_worker i (λ w, set_pool (fw_senders w) [] (fw_clients w) w);
      stop ← HandleReturns i fails unusable l;
      if (stop : bool) then end_task i else on_worker i (set_pc PHead)
  | WBill, PIdle _ _ => insert_billing_tick gatewayId i
  | WBill, PWait _ => _ ← insert_billing_tick gatewayId i; on_worker i (set_pc PHead)
  | _, _ => mret tt
  end.

(** ** An agent's task *)

(** [mpsc::channel(buffer)], which panics when there is no place or too many. *)
Definition channel (buffer : Z) : Share.Result unit :=
  _ ← assert_ (bool_decide (0 < buffer)%Z) "mpsc bounded channel requires buffer > 0";
  assert_ (bool_decide (buffer ≤ ty_max usize / 8)%Z) "a semaphore may not have more than MAX_PERMITS permits".
(** ixshare/src/gateway/func_worker.rs:210-290 [FuncWorker::New] *)
Definition FuncWorker_New (parallelLeve keepaliveTime : Z) : Share.Result FuncWorker :=
  buffer ← chk usize (parallelLeve * 2)%Z;
  _ ← channel buffer;
  Ok (MkFuncWorker parallelLeve keepaliveTime false (-1) false FInit 0 0 GpuTracking_default None [] [] [] false PLease).
(** ixshare/src/gateway/func_agent_mgr.rs:896-959 [FuncAgent::NewWorker] *)
Definition NewWorker repo : M unit :=
  acquired ← TryAcquireEndpointLease repo;
  if negb (acquired : bool) then mret tt else
  keepaliveTime ← agent_get fa_scaleinTimeout;
  workerId ← agent_get (λ g, fa_nextWorkerId g + 1)%Z;
  _ ← agent_do (λ g, set_workers (fa_workers g) workerId (fa_scaleInWorkerId g) g);
  p ← agent_get fa_parallelLeve;
  _ ← agent_do (count_by 0 p 0);
  worker ← pure_ (FuncWorker_New p (Z.max 10 keepaliveTime));
  _ ← agent_do (λ g, set_tasks (<[workerId := worker]> (fa_tasks g)) g);
  agent_do (AddWorker workerId).
(** ixshare/src/gateway/func_agent_mgr.rs:1322-1330 [Throttle::TryAcquire] *)
Definition Throttle_TryAcquire : M bool := λ s,
  let g := s.1 in
  if decide (0 < fa_tokens g)%Z then (Ok true, (set_task_pc (fa_tokens g - 1) (fa_close g) (fa_pc g) g, s.2)) else (Ok false, s).
(** ixshare/src/gateway/func_agent_mgr.rs:1293-1305 [Throttle::Refill]: a tick of it; the capacity is 2 *)
Definition Throttle_Refill g : FuncAgent :=
  if decide (fa_tokens g < 2)%Z then set_task_pc (fa_tokens g + 1) (fa_close g) (fa_pc g) g else g.
Definition set_agent_pc (pc : AgentPc) : M unit := agent_do (λ g, set_task_pc (fa_tokens g) (fa_close g) pc g).

(** ixshare/src/gateway/func_agent_mgr.rs:743-762 [FuncAgent::Process]: the head of the loop *)
Definition agent_head repo : M unit :=
  now ← gets (sh_now ∘ snd);
  q ← agent_get (λ g, CleanTimeout (ms now) (fa_reqQueue g));
  _ ← agent_do (λ g, set_reqs (fa_reqQueueTx g) q.2 g);
  _ ← shared_do (add_answers ((λ r, (cr_tx r, AError (Share.Timeout (cr_timeout r)))) <$> q.1));
  _ ← agent_do (count_by 0 0 (- Z.of_nat (length q.1)));
  need ← (λ s, (NeedNewWorker s.1, s));
  token ← (if (need : bool) then Throttle_TryAcquire else mret false);
  _ ← (if (token : bool) then NewWorker repo else mret tt);
  set_agent_pc QSelect.
(** A request of the channel goes to the queue. *)
Definition enqueue (req : FuncClientReq) : M unit :=
  queued ← Queue_Send req;
  if (queued : bool) then agent_do (count_by 0 0 1) else mret tt.
(** ixshare/src/gateway/func_agent_mgr.rs:799-840 [FuncAgent::Process]: an update of a worker *)
Definition worker_update (u : WorkerUpdate) : M unit :=
  match u with
  | UReady _ => mret tt
  | UWorkerFail i _ => _ ← agent_do (RemoveWorker i); spawn_return_worker_retry i true
  | UIdleTimeout i => _ ← agent_do (RemoveWorker i); spawn_return_worker_retry i false
  | UWorkerLeaseFail i _ => agent_do (RemoveWorker i)
  end.

(** What ends an agent's wait: it just goes on, it is closed, a request, the
    interval of policy updates, 10 ms, an update of a worker. *)
Inductive AgentEvent :=
| AHead (repo : GwObjRepo F)
| AClose
| AReq
| APolicy (repo : GwObjRepo F)
| ATimer
| AUpdate.
Definition agent_enabled (ev : AgentEvent) g : bool :=
  match fa_pc g, ev with
  | QHead, AHead _ => true
  | QSelect, AClose => fa_close g
  | QSelect, AReq => negb (bool_decide (fa_reqQueueTx g = []))
  | QSelect, (APolicy _ | ATimer) => true
  | QSelect, AUpdate => negb (bool_decide (fa_updates g = []))
  | _, _ => false
  end.
(** ixshare/src/gateway/func_agent_mgr.rs:765-846 [FuncAgent::Process]: the wait, and what follows; the receivers of an
    agent that ends go with what they hold *)
Definition agent_step (ev : AgentEvent) : M unit :=
  match ev with
  | AHead repo => agent_head repo
  | AClose =>
      chan ← agent_get fa_reqQueueTx;
      _ ← shared_do (add_answers ((λ r, (cr_tx r, ADropped)) <$> chan));
      _ ← agent_do (λ g, set_reqs [] (fa_reqQueue g) (set_updates [] (fa_dropped g ++ fa_updates g) g));
      agent_do (λ g, set_task_pc (fa_tokens g) false QEnd g)
  | AReq =>
      chan ← agent_get fa_reqQueueTx;
      _ ← agent_do (λ g, set_reqs [] (fa_reqQueue g) g);
      _ ← eachM enqueue chan;
      set_agent_pc QHead
  | APolicy repo => _ ← agent_do (UpdatePolicy repo); set_agent_pc QHead
  | ATimer => set_agent_pc QHead
  | AUpdate =>
      us ← agent_get fa_updates;
      match us with
      | [] => mret tt
      | u :: us =>
          _ ← agent_do (λ g, set_updates us (fa_dropped g) g);
          _ ← worker_update u;
          set_agent_pc QHead
      end
  end.
(** ixshare/src/gateway/func_agent_mgr.rs:630-656 [FuncAgent::EnqReq]; the channel has 1000 places *)
Definition EnqReq (caller_tenant : option string) (timestamp timeout : Z) (tx : nat) : M unit := λ s,
  let req := MkClientReq caller_tenant true timestamp timeout tx in
  if decide (fa_pc s.1 ≠ QEnd ∧ length (fa_reqQueueTx s.1) < 1000)
  then (Ok tt, (set_reqs (fa_reqQueueTx s.1 ++ [req]) (fa_reqQueue s.1) s.1, s.2))
  else (Err (Share.CommonError "FuncAgent Queue is full"), s).
(** ixshare/src/gateway/func_agent_mgr.rs:531-578 [FuncAgent::New] *)
Definition FuncAgent_New (route : FuncRouteTarget (F:=F)) : FuncAgent :=
  let l := rt_logical route in let p := rt_physical route in let policy := rt_policy route in
  MkFuncAgent
    (MkAgentConfig (fi_tenant l) (fi_namespace l) (fi_funcname l) (fi_tenant p) (fi_namespace p) (fi_funcname p)
       (rt_func route) (fi_version l) (if IsEndpointRoute route then Some (FuncIdentity_Prefix l) else None)
       (IsEndpointRoute route))
    (scaleoutPolicy policy) (to_millis (scaleinTimeout policy)) (parallel policy) (queueLen policy) [] [] [] 0 0 0 ∅ 0 (-1)
    ∅ [] [] 2 false QHead.
End tasks.
