(* ===== verification/GatewayInv.v ===== *)
(** * What the tasks of a gateway keep

    Invariants of an agent with its workers, kept by every step of a task, and
    an account of what a step does to what tasks of different agents share:
    the leases of endpoints, the requests and their answers, the connections. *)

From S2P Require Import Prelude.
From S2P Require Import Text.
From S2P Require Import BTree.
From S2P Require Import Common.
From S2P Require Import DataObj.
From S2P Require Import Resource.
From S2P Require Import Specs.
From S2P Require Import Worker.
From S2P Require Import Billing.
From S2P Require Import FuncAgent.
From S2P Require Import GatewayTasks.

(** ** Sums over the workers of an agent *)

Definition wsum {A} (f : A → Z) (m : gmap Z A) : Z := map_fold (λ _ w acc, f w + acc)%Z 0%Z m.
Definition wcat {A B} (f : A → list B) (m : gmap Z A) : list B := map_fold (λ _ w acc, f w ++ acc) [] m.

Section sums.
Context {A : Type}.
Implicit Types (m : gmap Z A) (f : A → Z).

Lemma wsum_new f m i w : m !! i = None → wsum f (<[i := w]> m) = (f w + wsum f m)%Z.
Proof. intros Hi. unfold wsum. rewrite map_fold_insert_L; [done|intros; lia|done]. Qed.
Lemma wsum_update f m i w w' : m !! i = Some w → wsum f (<[i := w']> m) = (wsum f m - f w + f w')%Z.
Proof.
  intros Hi. rewrite <-(insert_delete_id m i w Hi) at 2. rewrite <-insert_delete_eq.
  rewrite !wsum_new by apply lookup_delete_eq. lia.
Qed.
Lemma wsum_nonneg f m : (∀ i w, m !! i = Some w → 0 ≤ f w)%Z → (0 ≤ wsum f m)%Z.
Proof.
  induction m as [|i w m Hi IH] using map_ind; intros Hf; [done|]. rewrite wsum_new by done.
  assert (0 ≤ f w)%Z by (apply (Hf i); by simplify_map_eq).
  assert (0 ≤ wsum f m)%Z; [|lia]. apply IH. intros j w' Hj. apply (Hf j).
  rewrite lookup_insert_ne; [done|]. by intros ->; rewrite Hi in Hj.
Qed.
Lemma wsum_bound f m i w : m !! i = Some w → (∀ j w, m !! j = Some w → 0 ≤ f w)%Z → (f w ≤ wsum f m)%Z.
Proof.
  intros Hi Hf. rewrite <-(insert_delete_id m i w Hi). rewrite wsum_new by apply lookup_delete_eq.
  assert (0 ≤ wsum f (delete i m))%Z; [|lia]. apply wsum_nonneg. intros j w' [? Hj]%lookup_delete_Some. by apply (Hf j).
Qed.
Lemma wsum_ext f f' m : (∀ i w, m !! i = Some w → f w = f' w) → wsum f m = wsum f' m.
Proof.
  induction m as [|i w m Hi IH] using map_ind; intros Hf; [done|]. rewrite !wsum_new by done.
  rewrite (Hf i w) by by simplify_map_eq. rewrite IH; [done|]. intros j w' Hj. apply (Hf j).
  rewrite lookup_insert_ne; [done|]. by intros ->; rewrite Hi in Hj.
Qed.
Lemma wsum_size m : wsum (λ _, 1%Z) m = Z.of_nat (size m).
Proof.
  induction m as [|i w m Hi IH] using map_ind; [done|]. rewrite wsum_new, map_size_insert_None by done. lia.
Qed.

Context {B : Type}.
Implicit Types (c : A → list B).
Lemma wcat_new c m i w : m !! i = None → wcat c (<[i := w]> m) ≡ₚ c w ++ wcat c m.
Proof.
  intros Hi. unfold wcat. eapply (map_fold_insert (≡ₚ) (λ _ w acc, c w ++ acc)); [|intros ????? _ _ _; apply Permutation_app_swap_app|done].
  intros j z x y Hxy. by apply Permutation_app_head.
Qed.
Lemma wcat_split c m i w : m !! i = Some w → wcat c m ≡ₚ c w ++ wcat c (delete i m).
Proof. intros Hi. rewrite <-(insert_delete_id m i w Hi) at 1. by rewrite wcat_new by apply lookup_delete_eq. Qed.
Lemma wcat_update c m i w w' :
  m !! i = Some w → wcat c (<[i := w']> m) ≡ₚ c w' ++ wcat c (delete i m).
Proof. intros Hi. rewrite <-insert_delete_eq. by rewrite wcat_new by apply lookup_delete_eq. Qed.
Lemma elem_of_wcat c m b : b ∈ wcat c m ↔ ∃ i w, m !! i = Some w ∧ b ∈ c w.
Proof.
  induction m as [|i w m Hi IH] using map_ind.
  - unfold wcat. rewrite map_fold_empty. split; [by intros ?%elem_of_nil|]. intros (i & w & Hi & _). by rewrite lookup_empty in Hi.
  - rewrite wcat_new, elem_of_app, IH by done. split.
    + intros [Hb|(j & w' & Hj & Hb)]; [by exists i, w; simplify_map_eq|]. exists j, w'. split; [|done].
      rewrite lookup_insert_ne; [done|]. by intros ->; rewrite Hi in Hj.
    + intros (j & w' & [[-> ->]|[? Hj]]%lookup_insert_Some & Hb); eauto.
Qed.
End sums.

Lemma cast_add t a b : cast t (cast t a + b) = cast t (a + b).
Proof.
  unfold cast. f_equal. generalize (ty_max t - ty_min t + 1)%Z as n. intros n.
  replace ((a - ty_min t) mod n + ty_min t + b - ty_min t)%Z with ((a - ty_min t) mod n + b)%Z by lia.
  rewrite Zplus_mod_idemp_l. f_equal. lia.
Qed.
Lemma cast_add3 t a b c : cast t (cast t a + b + c) = cast t (a + b + c).
Proof. by rewrite <-Z.add_assoc, cast_add, Z.add_assoc. Qed.
Lemma cast_idem t a : cast t (cast t a) = cast t a.
Proof. pose proof (cast_add t a 0) as Ha. by rewrite !Z.add_0_r in Ha. Qed.

(** ** Runs of stateful calls

    The call returns, and [Q] holds after it, or it panics and [P] holds. *)

Section run.
Context {S E : Type} (P : Prop).
Definition run {A} (m : sm S E A) (Q : A → S → Prop) (s : S) : Prop :=
  match m s with (Ok a, s') => Q a s' | (Err _, _) => False | (Panic _, _) => P end.

Lemma run_mono {A} (m : sm S E A) (Q Q' : A → S → Prop) s : run m Q s → (∀ a s, Q a s → Q' a s) → run m Q' s.
Proof. unfold run. destruct (m s) as [[]]; auto. Qed.
Lemma run_bind {A B} (m : sm S E A) (k : A → sm S E B) (Q : B → S → Prop) s :
  run m (λ a, run (k a) Q) s → run (m ≫= k) Q s.
Proof. unfold run, mbind, sm_bind. by destruct (m s) as [[]]. Qed.
Lemma run_ret {A} (a : A) (Q : A → S → Prop) s : Q a s → run (mret a) Q s.
Proof. done. Qed.
Lemma run_gets {A} (f : S → A) (Q : A → S → Prop) s : Q (f s) s → run (gets f) Q s.
Proof. done. Qed.
Lemma run_modify (f : S → S) (Q : unit → S → Prop) s : Q tt (f s) → run (modify f) Q s.
Proof. done. Qed.
Lemma run_pure {A} (r : outcome E A) (Q : A → S → Prop) s :
  match r with Ok a => Q a s | Err _ => False | Panic _ => P end → run (pure_ r) Q s.
Proof. done. Qed.
Lemma run_read {A} (f : S → outcome E A) (Q : A → S → Prop) s :
  match f s with Ok a => Q a s | Err _ => False | Panic _ => P end → run (λ s, (f s, s)) Q s.
Proof. done. Qed.
(** [match m { Ok(a) => k1(a), Err(e) => k2(e) }] *)
Lemma run_catch {A B} (m : sm S E A) (k1 : A → sm S E B) (k2 : E → sm S E B) (Q : B → S → Prop) s :
  match m s with (Ok a, s') => run (k1 a) Q s' | (Err e, s') => run (k2 e) Q s' | (Panic _, _) => P end →
  run (λ s, match m s with (Ok a, s') => k1 a s' | (Err e, s') => k2 e s' | (Panic p, s') => (Panic p, s') end) Q s.
Proof. unfold run. by destruct (m s) as [[]]. Qed.
End run.

(** ** What a worker is worth *)

Definition live w : bool := match fw_pc w with PLease | PEnd => false | _ => true end.
Definition batch w : list FuncClientReq := match fw_pc w with PServe reqs => reqs | _ => [] end.
(** The connections it knows: kept, on their way back, at clients. *)
Definition conns w : list nat := fw_senders w ++ fw_finishQueue w ++ fw_clients w.
Definition held w : Z := Z.of_nat (length (fw_finishQueue w) + length (fw_clients w) + length (batch w)).
(** Its share of the agent's counters. *)
Definition load w : Z := if live w then fw_ongoingReqCnt w else 0.
Definition slots w : Z := if live w then fw_parallelLevel w else 0.
Definition starting w : Z := match fw_pc w with PLease => fw_parallelLevel w | _ => 0 end.
Definition unreleased w : Z := if fw_lease_released w then 0 else 1.
Definition finished w : Prop := fw_pc w = PEnd ∧ fw_state w = FFinish.

Section inv.
Context {F : Type} `{FloatLit F, GatewayFloat F, GatewayConfig F}.
(** [Some p] when every policy that was ever in force allows [p] requests at a
    time. *)
Variable calm : option Z.
(** How many replicas an endpoint may have at most. *)
Variable cap : string → Z.
Implicit Types (g : FuncAgent (F:=F)) (sh : Shared) (i : Z).

(** A worker; [reg] says it is registered. *)
Record worker_ok (reg : Prop) w : Prop := {
  wk_lease : fw_pc w = PLease → reg ∧ fw_lease_released w = false ∧ fw_state w = FInit ∧ fw_ongoingReqCnt w = 0%Z ∧ conns w = [];
  wk_end : fw_pc w = PEnd → fw_lease_released w = true ∧ fw_finishQueue w = [];
  wk_live : live w → reg ∧ fw_lease_released w = false ∧ fits usize (fw_ongoingReqCnt w) ∧ (held w ≤ fw_ongoingReqCnt w)%Z
    ∧ (fw_state w = FIdle ∧ fw_ongoingReqCnt w = 0%Z ∨ fw_state w = FProcessing);
  wk_pc : match fw_pc w with
          | PIdle _ _ => fw_state w = FIdle
          | PServe _ => fw_state w = FProcessing
          | PWait _ => fw_state w = FProcessing ∧ (0 < fw_ongoingReqCnt w)%Z
          | _ => True
          end;
  wk_calm p : calm = Some p →
    fw_parallelLevel w = p ∧ (live w → fw_ongoingReqCnt w ≤ p ∧ held w = fw_ongoingReqCnt w)%Z;
}.

(** The workers whose pods go back to the scheduler, or should. *)
Definition ended_by (u : WorkerUpdate) : option Z :=
  match u with UWorkerFail i _ | UIdleTimeout i => Some i | _ => None end.
Definition trail g : list Z := (fa_returns g).*1 ++ omap ended_by (fa_updates g ++ fa_dropped g).

Record AgentInv g : Prop := {
  iv_active : fa_activeReqCnt g = cast usize (Z.of_nat (length (fa_reqQueue g)) + wsum load (fa_tasks g));
  iv_total : fa_totalSlot g = cast usize (wsum slots (fa_tasks g));
  iv_starting : fa_startingSlot g = cast usize (wsum starting (fa_tasks g));
  iv_parallel : fits usize (fa_parallelLeve g) ∧ ∀ p, calm = Some p → fa_parallelLeve g = p;
  iv_worker i w : fa_tasks g !! i = Some w → worker_ok (i ∈ fa_workers g) w;
  iv_known i : i ∈ fa_workers g → is_Some (fa_tasks g !! i);
  iv_ids i : is_Some (fa_tasks g !! i) → (1 ≤ i ≤ fa_nextWorkerId g)%Z;
  iv_next : (0 ≤ fa_nextWorkerId g)%Z;
  iv_trail : NoDup (trail g);
  iv_trail_in i : i ∈ trail g ↔ ∃ w, fa_tasks g !! i = Some w ∧ finished w;
  iv_ghost i w : fa_tasks g !! i = Some w → fw_pc w = PEnd → i ∈ fa_workers g →
    UIdleTimeout i ∈ fa_updates g ++ fa_dropped g;
  iv_refused i e : UWorkerLeaseFail i e ∈ fa_updates g ++ fa_dropped g → ∃ w, fa_tasks g !! i = Some w ∧ fw_pc w = PEnd;
}.

(** The share of an agent in what all agents share. *)
Definition mine (key : string) g : Z :=
  if decide (ac_endpointLeaseKey (fa_config g) = Some key) then wsum unreleased (fa_tasks g) else 0.
Definition pending g : list nat :=
  cr_tx <$> (fa_reqQueueTx g ++ fa_reqQueue g ++ wcat batch (fa_tasks g)).
Definition agent_conns g : list nat := wcat conns (fa_tasks g).

(** What a step does to the agent and to what is shared. *)
Record Step g sh g' sh' : Prop := {
  sp_inv : AgentInv g';
  sp_config : fa_config g' = fa_config g;
  sp_leases key : (Lease_Count key (sh_leases sh') - mine key g' = Lease_Count key (sh_leases sh) - mine key g)%Z;
  sp_answers : (sh_answers sh').*1 ++ pending g' ≡ₚ (sh_answers sh).*1 ++ pending g;
  sp_conns : agent_conns g' ⊆+ agent_conns g ++ seq (sh_conns sh) (sh_conns sh' - sh_conns sh);
  sp_fresh : sh_conns sh ≤ sh_conns sh';
  sp_reqs : sh_reqs sh' = sh_reqs sh;
  sp_cap key : (Lease_Count key (sh_leases sh') ≤ Z.max (Lease_Count key (sh_leases sh)) (cap key))%Z;
}.
Definition pre g sh : Prop := AgentInv g ∧ ∀ key, (mine key g ≤ Lease_Count key (sh_leases sh))%Z.

Lemma unreleased_nonneg w : (0 ≤ unreleased w)%Z.
Proof. unfold unreleased. by destruct (fw_lease_released w). Qed.
Lemma mine_nonneg key g : (0 ≤ mine key g)%Z.
Proof. unfold mine. case_decide; [|done]. apply wsum_nonneg. intros ? w _. apply unreleased_nonneg. Qed.
Lemma Step_pre g sh g' sh' : pre g sh → Step g sh g' sh' → pre g' sh'.
Proof.
  intros [_ Hl] Hs. split; [apply Hs|]. intros key. pose proof (sp_leases _ _ _ _ Hs key). specialize (Hl key). lia.
Qed.
Lemma Step_refl g sh : AgentInv g → Step g sh g sh.
Proof. intros Hg. split; try done; [by rewrite Nat.sub_diag, app_nil_r|lia]. Qed.
Lemma Step_trans g sh g1 sh1 g2 sh2 : Step g sh g1 sh1 → Step g1 sh1 g2 sh2 → Step g sh g2 sh2.
Proof.
  intros Ha Hb. split.
  - apply Hb.
  - by rewrite (sp_config _ _ _ _ Hb), (sp_config _ _ _ _ Ha).
  - intros key. by rewrite (sp_leases _ _ _ _ Hb key), (sp_leases _ _ _ _ Ha key).
  - by rewrite (sp_answers _ _ _ _ Hb), (sp_answers _ _ _ _ Ha).
  - etrans; [apply Hb|]. etrans; [apply submseteq_app; [apply Ha|reflexivity]|]. rewrite <-app_assoc.
    pose proof (sp_fresh _ _ _ _ Ha). pose proof (sp_fresh _ _ _ _ Hb).
    replace (sh_conns sh2 - sh_conns sh) with ((sh_conns sh1 - sh_conns sh) + (sh_conns sh2 - sh_conns sh1)) by lia.
    rewrite seq_app. replace (sh_conns sh + (sh_conns sh1 - sh_conns sh)) with (sh_conns sh1) by lia. done.
  - pose proof (sp_fresh _ _ _ _ Ha). pose proof (sp_fresh _ _ _ _ Hb). lia.
  - by rewrite (sp_reqs _ _ _ _ Hb), (sp_reqs _ _ _ _ Ha).
  - intros key. pose proof (sp_cap _ _ _ _ Ha key). pose proof (sp_cap _ _ _ _ Hb key). lia.
Qed.

(** ** A step that changes one worker *)

(** What the step does to the rest of the agent, given what becomes of the
    worker. *)
Record Changes g sh g' sh' i w w' : Prop := {
  ch_tasks : fa_tasks g' = <[i := w']> (fa_tasks g);
  ch_config : fa_config g' = fa_config g;
  ch_active : fa_activeReqCnt g' = cast usize (fa_activeReqCnt g + (load w' - load w)
    + (Z.of_nat (length (fa_reqQueue g')) - Z.of_nat (length (fa_reqQueue g))));
  ch_total : fa_totalSlot g' = cast usize (fa_totalSlot g + (slots w' - slots w));
  ch_starting : fa_startingSlot g' = cast usize (fa_startingSlot g + (starting w' - starting w));
  ch_parallel : fa_parallelLeve g' = fa_parallelLeve g;
  ch_next : fa_nextWorkerId g' = fa_nextWorkerId g;
  ch_workers j : j ∈ fa_workers g' → j ∈ fa_workers g;
  ch_others j : j ≠ i → j ∈ fa_workers g → j ∈ fa_workers g';
  ch_ok : worker_ok (i ∈ fa_workers g') w';
  ch_trail : finished w ∧ finished w' ∧ trail g' ≡ₚ trail g ∨ ¬ finished w ∧ ¬ finished w' ∧ trail g' ≡ₚ trail g
    ∨ ¬ finished w ∧ finished w' ∧ trail g' ≡ₚ i :: trail g;
  ch_ghost u : u ∈ fa_updates g ++ fa_dropped g → u ∈ fa_updates g' ++ fa_dropped g';
  ch_end : fw_pc w' = PEnd → i ∈ fa_workers g' → UIdleTimeout i ∈ fa_updates g' ++ fa_dropped g';
  ch_sent j e : UWorkerLeaseFail j e ∈ fa_updates g' ++ fa_dropped g' →
    UWorkerLeaseFail j e ∈ fa_updates g ++ fa_dropped g ∨ j = i ∧ fw_pc w' = PEnd;
  ch_given : (unreleased w' ≤ unreleased w)%Z;
  ch_stays : fw_pc w = PEnd → fw_pc w' = PEnd;
  ch_leases key : Lease_Count key (sh_leases sh') =
    (Lease_Count key (sh_leases sh)
     + if decide (ac_endpointLeaseKey (fa_config g) = Some key) then unreleased w' - unreleased w else 0)%Z;
  ch_answers : (sh_answers sh').*1 ++ (cr_tx <$> fa_reqQueueTx g' ++ fa_reqQueue g' ++ batch w')
    ≡ₚ (sh_answers sh).*1 ++ (cr_tx <$> fa_reqQueueTx g ++ fa_reqQueue g ++ batch w);
  ch_conns : conns w' ⊆+ conns w ++ seq (sh_conns sh) (sh_conns sh' - sh_conns sh);
  ch_fresh : sh_conns sh ≤ sh_conns sh';
  ch_reqs : sh_reqs sh' = sh_reqs sh;
}.

Lemma worker_ok_reg (r r' : Prop) w : (r → r') → worker_ok r w → worker_ok r' w.
Proof.
  intros Hr [Hl He Hv Hpc Hc]. split; [|done| |done..].
  - intros Hw. destruct (Hl Hw) as (? & ?). auto.
  - intros Hw. destruct (Hv Hw) as (? & ?). auto.
Qed.
Lemma trail_in g i w : AgentInv g → fa_tasks g !! i = Some w → i ∈ trail g ↔ finished w.
Proof. intros Hg Hi. rewrite (iv_trail_in g Hg). split; [intros (w' & ? & ?); congruence|eauto]. Qed.

Lemma Changes_Step g sh g' sh' i w w' : AgentInv g → fa_tasks g !! i = Some w → Changes g sh g' sh' i w w' → Step g sh g' sh'.
Proof.
  intros Hg Hi Hc. pose proof (ch_tasks _ _ _ _ _ _ _ Hc) as Ht. split.
  - split.
    + rewrite (ch_active _ _ _ _ _ _ _ Hc), Ht, (iv_active g Hg), <-Z.add_assoc, cast_add.
      rewrite (wsum_update _ _ _ _ _ Hi). f_equal. lia.
    + rewrite (ch_total _ _ _ _ _ _ _ Hc), Ht, (iv_total g Hg), cast_add, (wsum_update _ _ _ _ _ Hi). f_equal. lia.
    + rewrite (ch_starting _ _ _ _ _ _ _ Hc), Ht, (iv_starting g Hg), cast_add, (wsum_update _ _ _ _ _ Hi). f_equal. lia.
    + rewrite (ch_parallel _ _ _ _ _ _ _ Hc). apply Hg.
    + intros j wj. rewrite Ht, lookup_insert_Some. intros [[<- <-]|[Hj Hw]]; [by apply (ch_ok _ _ _ _ _ _ _ Hc)|].
      eapply worker_ok_reg; [|by apply (iv_worker g Hg)]. intros ?. by apply (ch_others _ _ _ _ _ _ _ Hc).
    + intros j Hj. rewrite Ht, lookup_insert_is_Some'. right. by apply (iv_known g Hg), (ch_workers _ _ _ _ _ _ _ Hc).
    + intros j. rewrite Ht, lookup_insert_is_Some', (ch_next _ _ _ _ _ _ _ Hc). intros [<-|Hj]; apply (iv_ids g Hg); eauto.
    + rewrite (ch_next _ _ _ _ _ _ _ Hc). apply (iv_next g Hg).
    + destruct (ch_trail _ _ _ _ _ _ _ Hc) as [(_ & _ & ->)|[(_ & _ & ->)|(Hf & _ & ->)]]; [apply Hg..|].
      apply NoDup_cons. split; [|apply Hg]. by rewrite (trail_in g i w).
    + intros j. rewrite Ht. setoid_rewrite lookup_insert_Some.
      assert (j ∈ trail g' ↔ j ∈ trail g ∧ j ≠ i ∨ j = i ∧ finished w') as ->.
      { pose proof (trail_in g i w Hg Hi) as Hti.
        destruct (ch_trail _ _ _ _ _ _ _ Hc) as [(? & ? & ->)|[(? & ? & ->)|(? & ? & ->)]];
          destruct (decide (j = i)) as [->|]; set_solver. }
      rewrite (iv_trail_in g Hg). naive_solver.
    + intros j wj. rewrite Ht, lookup_insert_Some. intros [[<- <-]|[Hj Hw]]; [apply (ch_end _ _ _ _ _ _ _ Hc)|].
      intros Hpc Hin. apply (ch_ghost _ _ _ _ _ _ _ Hc). apply (iv_ghost g Hg j wj); [done..|]. by apply (ch_workers _ _ _ _ _ _ _ Hc).
    + intros j e Hj. rewrite Ht. apply (ch_sent _ _ _ _ _ _ _ Hc) in Hj as [Hj|[-> Hpc]]; [|exists w'; by simplify_map_eq].
      apply (iv_refused g Hg) in Hj as (wj & Hj & Hpc). destruct (decide (i = j)) as [->|Hne]; [|exists wj; by simplify_map_eq].
      exists w'. simplify_map_eq. split; [done|]. by apply (ch_stays _ _ _ _ _ _ _ Hc).
  - apply Hc.
  - intros key. unfold mine. rewrite (ch_leases _ _ _ _ _ _ _ Hc), (ch_config _ _ _ _ _ _ _ Hc), Ht.
    case_decide; [|lia]. rewrite (wsum_update _ _ _ _ _ Hi). lia.
  - unfold pending. rewrite Ht, (wcat_update _ _ _ _ w' Hi), (wcat_split _ _ _ _ Hi), !fmap_app.
    pose proof (ch_answers _ _ _ _ _ _ _ Hc) as Ha. rewrite !fmap_app in Ha.
    rewrite !(assoc_L (++)) in Ha. rewrite !(assoc_L (++)). by apply Permutation_app_tail.
  - unfold agent_conns. rewrite Ht, (wcat_update _ _ _ _ w' Hi), (wcat_split _ _ _ _ Hi).
    etrans; [apply submseteq_app; [apply Hc|reflexivity]|]. rewrite <-!app_assoc. by rewrite (Permutation_app_comm (seq _ _)).
  - apply Hc.
  - apply Hc.
  - intros key. rewrite (ch_leases _ _ _ _ _ _ _ Hc). pose proof (ch_given _ _ _ _ _ _ _ Hc). case_decide; lia.
Qed.
End inv.
