(* ===== verification/GatewaySteps.v ===== *)
(** * The steps of a gateway's workers

    Every step of a worker's task keeps the invariants of [GatewayInv] and
    accounts for what it shares, and it panics for known reasons only. *)

From S2P Require Import Prelude.
From S2P Require Import Text.
From S2P Require Import BTree.
From S2P Require Import Common.
From S2P Require Import DataObj.
From S2P Require Import Resource.
From S2P Require Import Specs.
From S2P Require Import Worker.
From S2P Require Import Billing.
From S2P Require Import FuncAgent.
From S2P Require Import GatewayTasks.
From S2P Require Import GatewayInv.

(** ** Leases *)

Lemma Lease_Release_count key k l :
  (1 ≤ Lease_Count key l)%Z →
  Lease_Count k (Lease_Release key l) = (Lease_Count k l + if decide (key = k) then -1 else 0)%Z.
Proof.
  unfold Lease_Count, Lease_Release. destruct (l !! key) as [c|] eqn:Hc; simpl; [|lia]. intros Hpos.
  destruct (decide (key = k)) as [->|Hne].
  - rewrite Hc. simpl. destruct (decide (c ≤ 1)%Z); simplify_map_eq; simpl; lia.
  - destruct (decide (c ≤ 1)%Z); rewrite ?lookup_delete_ne, ?lookup_insert_ne by done; lia.
Qed.
Lemma Lease_TryAcquire_count key k m l :
  Lease_Count k (Lease_TryAcquire key m l).2
    = (Lease_Count k l + if (Lease_TryAcquire key m l).1 then if decide (key = k) then 1 else 0 else 0)%Z.
Proof.
  unfold Lease_TryAcquire, Lease_Count. case_decide; simpl; [lia|]. destruct (decide (key = k)) as [->|Hne].
  - simplify_map_eq. simpl. lia.
  - rewrite lookup_insert_ne by done. lia.
Qed.

Section steps.
Context {F : Type} `{FloatLit F, GatewayFloat F, GatewayConfig F}.
Variable calm : option Z.
Variable cap : string → Z.
Implicit Types (g : FuncAgent (F:=F)) (sh : Shared) (i : Z) (P : Prop).
Abbreviation Inv := (AgentInv calm).
Abbreviation Step := (Step calm cap).
Abbreviation pre := (pre calm).
Abbreviation M := (sm (FuncAgent (F:=F) * Shared) Share.Error).

(** ** Runs *)

Definition put i w g : FuncAgent := set_tasks (<[i := w]> (fa_tasks g)) g.
Lemma on_task_put i f g w : fa_tasks g !! i = Some w → on_task i f g = put i (f w) g.
Proof.
  intros Hi. unfold on_task, put. f_equal. apply map_eq. intros j. destruct (decide (i = j)) as [->|Hne].
  - by rewrite lookup_alter_eq, Hi, lookup_insert_eq.
  - by rewrite lookup_alter_ne, lookup_insert_ne.
Qed.
Lemma put_put i w w' g : put i w' (put i w g) = put i w' g.
Proof. unfold put. simpl. by rewrite insert_insert_eq. Qed.
Lemma put_id i w g : fa_tasks g !! i = Some w → put i w g = g.
Proof. intros Hi. unfold put. rewrite insert_id by done. by destruct g. Qed.
Lemma put_lookup i w g : fa_tasks (put i w g) !! i = Some w.
Proof. apply lookup_insert_eq. Qed.

Lemma put_count i w a b c g : put i w (count_by a b c g) = count_by a b c (put i w g).
Proof. done. Qed.
Lemma put_send i w ups drs g : put i w (set_updates ups drs g) = set_updates ups drs (put i w g).
Proof. done. Qed.
Lemma put_unregister i j w g : put i w (RemoveWorker j g) = RemoveWorker j (put i w g).
Proof. done. Qed.
Lemma put_returns i w l g : put i w (set_returns l g) = set_returns l (put i w g).
Proof. done. Qed.

Section rules.
Context {P : Prop}.
Lemma run_get {A} i (f : FuncWorker → A) g sh w (Q : A → FuncAgent * Shared → Prop) :
  fa_tasks g !! i = Some w → Q (f w) (g, sh) → run P (worker_get i f) Q (g, sh).
Proof. intros Hi HQ. unfold run, worker_get. simpl. by rewrite Hi. Qed.
Lemma run_on i f g sh w (Q : unit → FuncAgent * Shared → Prop) :
  fa_tasks g !! i = Some w → Q tt (put i (f w) g, sh) → run P (on_worker i f) Q (g, sh).
Proof. intros Hi HQ. unfold run, on_worker, agent_do, modify. simpl. by rewrite (on_task_put i f g w Hi). Qed.
Lemma run_do f g sh (Q : unit → FuncAgent (F:=F) * Shared → Prop) : Q tt (f g, sh) → run P (agent_do f) Q (g, sh).
Proof. done. Qed.
Lemma run_shared f g sh (Q : unit → FuncAgent (F:=F) * Shared → Prop) : Q tt (g, f sh) → run P (shared_do f) Q (g, sh).
Proof. done. Qed.
Lemma run_agent_get {A} (f : FuncAgent → A) g sh (Q : A → FuncAgent (F:=F) * Shared → Prop) :
  Q (f g) (g, sh) → run P (agent_get f) Q (g, sh).
Proof. done. Qed.
(** An update is sent, or it is dropped. *)
Lemma run_send u g sh (Q : unit → FuncAgent (F:=F) * Shared → Prop) :
  (∀ ups drs, ups ++ drs ≡ₚ u :: fa_updates g ++ fa_dropped g → Q tt (set_updates ups drs g, sh)) →
  run P (agent_do (SendWorkerStatusUpdate u)) Q (g, sh).
Proof.
  intros HQ. apply run_do. unfold SendWorkerStatusUpdate. case_decide; apply HQ; solve_Permutation.
Qed.
(** What a run leaves alone in what is shared. *)
Definition quiet sh sh' : Prop :=
  sh_answers sh' = sh_answers sh ∧ sh_conns sh' = sh_conns sh ∧ sh_reqs sh' = sh_reqs sh ∧ sh_now sh' = sh_now sh.
Lemma run_billing i gid g sh w (Q : unit → FuncAgent * Shared → Prop) :
  fa_tasks g !! i = Some w →
  (∀ t sh', quiet sh sh' → sh_leases sh' = sh_leases sh → Q tt (put i (set_gpu t w) g, sh')) →
  run P (insert_billing_tick gid i) Q (g, sh).
Proof.
  intros Hi HQ. unfold run, insert_billing_tick. rewrite Hi.
  assert (Q tt (g, sh)) as Hsame.
  { rewrite <-(put_id i w g Hi). specialize (HQ (fw_gpuTracking w) sh). by destruct w; apply HQ. }
  destruct (gt_session_id _); [|done]. destruct (gt_last_tick_time _); [|done]. case_decide; [done|].
  rewrite (on_task_put i _ g w Hi). by apply HQ.
Qed.
Lemma run_start_billing i gid g sh w (Q : unit → FuncAgent * Shared → Prop) :
  fa_tasks g !! i = Some w →
  (∀ sh', quiet sh sh' → sh_leases sh' = sh_leases sh → Q tt (g, sh')) →
  run P (insert_start_billing_tick gid i) Q (g, sh).
Proof.
  intros Hi HQ. unfold run, insert_start_billing_tick. rewrite Hi.
  destruct (gt_session_id _); [case_decide|]; by apply HQ.
Qed.
Lemma run_final_billing i gid g sh w (Q : unit → FuncAgent * Shared → Prop) :
  fa_tasks g !! i = Some w →
  (∀ t sh', quiet sh sh' → sh_leases sh' = sh_leases sh → Q tt (put i (set_gpu t w) g, sh')) →
  run P (insert_final_billing_tick gid i) Q (g, sh).
Proof.
  intros Hi HQ. unfold run, insert_final_billing_tick. rewrite Hi.
  assert (Q tt (g, sh)) as Hsame.
  { rewrite <-(put_id i w g Hi). specialize (HQ (fw_gpuTracking w) sh). by destruct w; apply HQ. }
  destruct (gt_session_id _); [|done]. destruct (gt_last_tick_time _); [|done]. case_decide; [done|].
  case_decide; [done|]. rewrite (on_task_put i _ g w Hi). by apply HQ.
Qed.

(** The lease of an endpoint is given back. *)
Definition given_back g sh sh' : Prop :=
  ∀ key, Lease_Count key (sh_leases sh') =
    (Lease_Count key (sh_leases sh) + if decide (ac_endpointLeaseKey (fa_config g) = Some key) then -1 else 0)%Z.
Lemma run_release i g sh w (Q : unit → FuncAgent * Shared → Prop) :
  fa_tasks g !! i = Some w → fw_lease_released w = false →
  (∀ key, ac_endpointLeaseKey (fa_config g) = Some key → 1 ≤ Lease_Count key (sh_leases sh))%Z →
  (∀ sh', quiet sh sh' → given_back g sh sh' → Q tt (put i (set_released true w) g, sh')) →
  run P (ReleaseEndpointLease i) Q (g, sh).
Proof.
  intros Hi Hr Hpos HQ. apply run_bind, (run_get i _ g sh w _ Hi), run_bind, (run_on i _ g sh w _ Hi).
  apply run_bind, run_agent_get. simpl. rewrite Hr. unfold given_back in HQ.
  destruct (ac_endpointLeaseKey (fa_config g)) as [key|].
  - apply run_shared, HQ; [done|]. intros k. simpl. rewrite (Lease_Release_count key k _ (Hpos key eq_refl)).
    destruct (decide (key = k)); case_decide; try congruence; lia.
  - apply run_ret, HQ; [done|]. intros k. case_decide; [done|lia].
Qed.
Definition finish t w : FuncWorker := FuncWorker_SetState FFinish (set_gpu t (set_released true w)).
Lemma run_FinishWorker i g sh w (Q : unit → FuncAgent * Shared → Prop) :
  fa_tasks g !! i = Some w → fw_lease_released w = false → fw_state w = FIdle ∨ fw_state w = FProcessing →
  (∀ key, ac_endpointLeaseKey (fa_config g) = Some key → 1 ≤ Lease_Count key (sh_leases sh))%Z →
  (∀ t sh', quiet sh sh' → given_back g sh sh' →
     Q tt (count_by 0 0 (- fw_ongoingReqCnt w) (count_by (- fw_parallelLevel w) 0 0 (put i (finish t w) g)), sh')) →
  run P (FinishWorker i) Q (g, sh).
Proof.
  intros Hi Hr Hst Hpos HQ. apply run_bind, (run_release i g sh w _ Hi Hr Hpos). intros sh1 Hq1 Hl1.
  apply run_bind. eapply run_get; [apply put_lookup|]. apply run_bind, run_do.
  apply run_bind. eapply run_get; [apply (put_lookup i _ g)|].
  apply run_bind, run_pure. assert (bool_decide (fw_state w = FIdle) || bool_decide (fw_state w = FProcessing) = true) as Hb.
  { apply orb_true_iff. rewrite !bool_decide_eq_true. done. }
  simpl. rewrite Hb. simpl.
  apply run_bind. eapply run_final_billing; [apply (put_lookup i _ g)|]. intros t sh2 Hq2 Hl2.
  apply run_bind. eapply run_get; [apply put_lookup|]. apply run_bind, run_do. eapply run_on; [apply put_lookup|].
  rewrite !put_count, !put_put. apply HQ; [unfold quiet in *; intuition congruence|].
  intros key. by rewrite Hl2.
Qed.
End rules.

(** ** The account of a step *)

Lemma trail_sent g ups drs u : ups ++ drs ≡ₚ u :: fa_updates g ++ fa_dropped g →
  (fa_returns g).*1 ++ omap ended_by (ups ++ drs) ≡ₚ match ended_by u with Some i => i :: trail g | None => trail g end.
Proof.
  intros Hu. unfold trail. rewrite Hu. simpl. destruct (ended_by u); [|done]. by rewrite Permutation_middle.
Qed.
Lemma trail_returned g i b : (fa_returns g ++ [(i, b)]).*1 ++ omap ended_by (fa_updates g ++ fa_dropped g) ≡ₚ i :: trail g.
Proof. unfold trail. rewrite fmap_app. simpl. solve_Permutation. Qed.

Lemma pre_lease g sh i w key :
  pre g sh → fa_tasks g !! i = Some w → fw_lease_released w = false →
  ac_endpointLeaseKey (fa_config g) = Some key → (1 ≤ Lease_Count key (sh_leases sh))%Z.
Proof.
  intros [Hg Hl] Hi Hr Hk. specialize (Hl key). unfold mine in Hl. rewrite decide_True in Hl by done.
  pose proof (wsum_bound unreleased (fa_tasks g) i w Hi (λ j v _, unreleased_nonneg v)) as Hb.
  unfold unreleased in Hb at 1. rewrite Hr in Hb. lia.
Qed.
Lemma live_not_finished w : live w → ¬ finished w.
Proof. unfold live, finished. intros Hl [Hpc _]. by rewrite Hpc in Hl. Qed.

(** A live worker's task ends: its counters are taken back, its lease is given
    back, and it is noted once that its pod has to be returned. *)
Lemma Changes_end g sh g' sh' i w w' :
  Inv g → fa_tasks g !! i = Some w → live w →
  fa_tasks g' = <[i := w']> (fa_tasks g) →
  fw_pc w' = PEnd → fw_state w' = FFinish → fw_lease_released w' = true → fw_finishQueue w' = [] →
  fw_parallelLevel w' = fw_parallelLevel w → conns w' ⊆+ conns w ++ seq (sh_conns sh) (sh_conns sh' - sh_conns sh) →
  fa_config g' = fa_config g → fa_parallelLeve g' = fa_parallelLeve g → fa_nextWorkerId g' = fa_nextWorkerId g →
  fa_reqQueue g' = fa_reqQueue g → fa_reqQueueTx g' = fa_reqQueueTx g →
  fa_activeReqCnt g' = cast usize (fa_activeReqCnt g - fw_ongoingReqCnt w) →
  fa_totalSlot g' = cast usize (fa_totalSlot g - fw_parallelLevel w) →
  fa_startingSlot g' = cast usize (fa_startingSlot g) →
  (fa_workers g' = fa_workers g ∖ {[i]} ∨ fa_workers g' = fa_workers g ∧ UIdleTimeout i ∈ fa_updates g' ++ fa_dropped g') →
  trail g' ≡ₚ i :: trail g → (∀ u, u ∈ fa_updates g ++ fa_dropped g → u ∈ fa_updates g' ++ fa_dropped g') →
  (∀ j e, UWorkerLeaseFail j e ∈ fa_updates g' ++ fa_dropped g' → UWorkerLeaseFail j e ∈ fa_updates g ++ fa_dropped g) →
  given_back g sh sh' → (sh_answers sh').*1 ≡ₚ (sh_answers sh).*1 ++ (cr_tx <$> batch w) →
  sh_conns sh ≤ sh_conns sh' → sh_reqs sh' = sh_reqs sh →
  Changes calm g sh g' sh' i w w'.
Proof.
  intros Hg Hi Hl Ht Hpc Hst Hrel Hfin Hp Hcs Hcf Hpar Hnext Hq Htx Ha Htot Hs Hw Htr Hgh Hsent Hback Hans Hc Hr.
  pose proof (iv_worker _ g Hg i w Hi) as [_ _ Hlive _ Hcalm]. destruct (Hlive Hl) as (Hreg & Hur & _).
  assert (live w' = false) as Hl' by (unfold live; by rewrite Hpc).
  assert (load w' = 0 ∧ load w = fw_ongoingReqCnt w ∧ slots w' = 0 ∧ slots w = fw_parallelLevel w)%Z as (Hld' & Hld & Hsl' & Hsl).
  { unfold load, slots. by rewrite Hl', (Is_true_true_1 _ Hl). }
  assert (starting w' = 0 ∧ starting w = 0)%Z as [Hsw' Hsw].
  { unfold starting, live in *. rewrite Hpc. by destruct (fw_pc w). }
  split; try done.
  - rewrite Ha, Hq, Hld', Hld. f_equal; lia.
  - rewrite Htot, Hsl', Hsl. f_equal; lia.
  - rewrite Hs, Hsw', Hsw. f_equal; lia.
  - destruct Hw as [->|[-> _]]; set_solver.
  - destruct Hw as [->|[-> _]]; set_solver.
  - split; rewrite ?Hpc; try done; [by rewrite Hl'|]. intros p Hcp. rewrite Hp, Hl'. split; [by apply Hcalm|done].
  - right; right. repeat split; [by apply live_not_finished|done..].
  - intros _ Hin. destruct Hw as [Hw|[_ Hw]]; [|done]. rewrite Hw in Hin. set_solver.
  - intros j e Hj. left. by eapply Hsent.
  - unfold unreleased. by rewrite Hrel, Hur.
  - intros key. rewrite Hback. unfold unreleased. by rewrite Hrel, Hur.
  - rewrite Htx, Hq, Hans. unfold batch at 2. rewrite Hpc, !fmap_app. simpl. rewrite app_nil_r. solve_Permutation.
Qed.

(** A live worker stays live. *)
Lemma Changes_live g sh g' sh' i w w' :
  Inv g → live w → live w' →
  fa_tasks g' = <[i := w']> (fa_tasks g) → worker_ok calm (i ∈ fa_workers g) w' →
  fw_parallelLevel w' = fw_parallelLevel w → fw_lease_released w' = fw_lease_released w →
  fa_workers g' = fa_workers g → trail g' = trail g → fa_updates g' = fa_updates g → fa_dropped g' = fa_dropped g →
  fa_config g' = fa_config g → fa_parallelLeve g' = fa_parallelLeve g → fa_nextWorkerId g' = fa_nextWorkerId g →
  fa_activeReqCnt g' = cast usize (fa_activeReqCnt g + (fw_ongoingReqCnt w' - fw_ongoingReqCnt w)
    + (Z.of_nat (length (fa_reqQueue g')) - Z.of_nat (length (fa_reqQueue g)))) →
  fa_totalSlot g' = cast usize (fa_totalSlot g) → fa_startingSlot g' = cast usize (fa_startingSlot g) →
  sh_leases sh' = sh_leases sh →
  (sh_answers sh').*1 ++ (cr_tx <$> fa_reqQueueTx g' ++ fa_reqQueue g' ++ batch w')
    ≡ₚ (sh_answers sh).*1 ++ (cr_tx <$> fa_reqQueueTx g ++ fa_reqQueue g ++ batch w) →
  conns w' ⊆+ conns w ++ seq (sh_conns sh) (sh_conns sh' - sh_conns sh) →
  sh_conns sh ≤ sh_conns sh' → sh_reqs sh' = sh_reqs sh →
  Changes calm g sh g' sh' i w w'.
Proof.
  intros Hg Hl Hl' Ht Hok Hp Hr Hw Htr Hu Hd Hcf Hpar Hnext Ha Htot Hs Hle Hans Hc Hfr Hrq.
  assert (load w' = fw_ongoingReqCnt w' ∧ load w = fw_ongoingReqCnt w ∧ slots w' = slots w)%Z as (Hld' & Hld & Hsl).
  { unfold load, slots. by rewrite (Is_true_true_1 _ Hl'), (Is_true_true_1 _ Hl). }
  assert (starting w' = 0 ∧ starting w = 0)%Z as [Hsw' Hsw].
  { unfold starting, live in *. by destruct (fw_pc w), (fw_pc w'). }
  split; try done.
  - by rewrite Hld', Hld.
  - rewrite Htot, Hsl. f_equal; lia.
  - rewrite Hs, Hsw', Hsw. f_equal; lia.
  - by rewrite Hw.
  - by rewrite Hw.
  - by rewrite Hw.
  - right; left. split_and!; [by apply live_not_finished..|by rewrite Htr].
  - by rewrite Hu, Hd.
  - intros Hpc. unfold live in Hl'. by rewrite Hpc in Hl'.
  - intros j e. rewrite Hu, Hd. by left.
  - unfold unreleased. by rewrite Hr.
  - intros Hpc. unfold live in Hl. by rewrite Hpc in Hl.
  - intros key. rewrite Hle. unfold unreleased. rewrite Hr. case_decide; lia.
Qed.
Lemma Changes_at g sh g' sh' i w w' :
  Inv g → fa_tasks g !! i = Some w → fa_tasks g' = <[i := w']> (fa_tasks g) → Changes calm g sh g' sh' i w w' → Step g sh g' sh'.
Proof. intros Hg Hi _. by apply Changes_Step. Qed.
Lemma cast_total g : Inv g → fa_totalSlot g = cast usize (fa_totalSlot g).
Proof. intros Hg. by rewrite (iv_total _ g Hg), cast_idem. Qed.
Lemma cast_starting g : Inv g → fa_startingSlot g = cast usize (fa_startingSlot g).
Proof. intros Hg. by rewrite (iv_starting _ g Hg), cast_idem. Qed.
Lemma cast_active g : Inv g → fa_activeReqCnt g = cast usize (fa_activeReqCnt g).
Proof. intros Hg. by rewrite (iv_active _ g Hg), cast_idem. Qed.

Lemma conns_ended w w' l :
  fw_senders w' = fw_senders w → fw_clients w' = fw_clients w → fw_finishQueue w' = [] → conns w' ⊆+ conns w ++ l.
Proof.
  intros Hs Hc Hf. apply submseteq_inserts_r. unfold conns. rewrite Hs, Hc, Hf. by apply submseteq_skips_l, submseteq_inserts_l.
Qed.
(** Counters after a few additions. *)
Ltac count_tac := simpl; repeat first [rewrite cast_add | rewrite cast_add3]; f_equal; lia.

(** ** The ends of a worker's task *)

Section step.
Context (P : Prop) (i : Z) (g : FuncAgent (F:=F)) (sh : Shared) (w : FuncWorker).
Hypotheses (Hpre : pre g sh) (Hi : fa_tasks g !! i = Some w).

Lemma step_worker : worker_ok calm (i ∈ fa_workers g) w.
Proof. by apply (iv_worker calm g (proj1 Hpre)). Qed.
Lemma live_ok : live w → i ∈ fa_workers g ∧ fw_lease_released w = false ∧ fits usize (fw_ongoingReqCnt w)
  ∧ (held w ≤ fw_ongoingReqCnt w)%Z ∧ (fw_state w = FIdle ∧ fw_ongoingReqCnt w = 0%Z ∨ fw_state w = FProcessing).
Proof. apply step_worker. Qed.
Lemma live_key : live w → ∀ key, ac_endpointLeaseKey (fa_config g) = Some key → (1 ≤ Lease_Count key (sh_leases sh))%Z.
Proof. intros Hl key. destruct (live_ok Hl) as (_ & Hr & _). by apply (pre_lease g sh i w key Hpre Hi). Qed.

Lemma worker_closed_ok b : live w → batch w = [] →
  run P (worker_closed i b) (λ _ s', Step g sh s'.1 s'.2) (g, sh).
Proof.
  intros Hl Hb. destruct (live_ok Hl) as (_ & Hr & _ & _ & Hst).
  apply run_bind, (run_on i _ g sh w _ Hi), run_bind.
  eapply (run_FinishWorker i _ sh (set_close false w)); [apply put_lookup|done|naive_solver|by apply live_key|].
  intros t sh' (Hq1 & Hq2 & Hq3 & _) Hback. rewrite put_put.
  apply run_bind, run_do, run_bind, run_do. eapply run_on; [apply put_lookup|].
  rewrite !put_returns, !put_unregister, !put_count, put_put.
  cbn [fst snd]. eapply Changes_at; [exact (proj1 Hpre)|exact Hi|reflexivity|]. eapply Changes_end; try done; try exact (proj1 Hpre).
  - by apply conns_ended.
  - count_tac.
  - count_tac.
  - count_tac.
  - by left.
  - exact (trail_returned g i b).
  - by rewrite Hq1, Hb, app_nil_r.
  - by rewrite Hq2.
Qed.

Lemma keepalive_ok : live w → batch w = [] →
  run P (_ ← FinishWorker i; _ ← agent_do (SendWorkerStatusUpdate (UIdleTimeout i)); end_task i)
    (λ _ s', Step g sh s'.1 s'.2) (g, sh).
Proof.
  intros Hl Hb. destruct (live_ok Hl) as (_ & Hr & _ & _ & Hst).
  apply run_bind, (run_FinishWorker i g sh w); [done..|naive_solver|by apply live_key|].
  intros t sh' (Hq1 & Hq2 & Hq3 & _) Hback.
  apply run_bind, run_send. intros ups drs Hu. eapply run_on; [apply put_lookup|].
  rewrite !put_send, !put_count, put_put. cbn [fst snd].
  eapply Changes_at; [exact (proj1 Hpre)|exact Hi|reflexivity|]. eapply Changes_end; try done; try exact (proj1 Hpre).
  - by apply conns_ended.
  - count_tac.
  - count_tac.
  - count_tac.
  - right. split; [done|]. simpl. rewrite Hu. by left.
  - exact (trail_sent g ups drs (UIdleTimeout i) Hu).
  - intros u Hin. simpl. rewrite Hu. by right.
  - intros j e'. simpl. rewrite Hu. by intros [[=]|?]%elem_of_cons.
  - by rewrite Hq1, Hb, app_nil_r.
  - by rewrite Hq2.
Qed.

(** What the loop keeps of the worker, as its fields show it. *)
Lemma live_worker_ok (r : Prop) v :
  live v → r → fw_lease_released v = false → fits usize (fw_ongoingReqCnt v) → (held v ≤ fw_ongoingReqCnt v)%Z →
  (fw_state v = FIdle ∧ fw_ongoingReqCnt v = 0%Z ∨ fw_state v = FProcessing) →
  match fw_pc v with
  | PIdle _ _ => fw_state v = FIdle
  | PServe _ => fw_state v = FProcessing
  | PWait _ => fw_state v = FProcessing ∧ (0 < fw_ongoingReqCnt v)%Z
  | _ => True
  end →
  (∀ p, calm = Some p → fw_parallelLevel v = p ∧ fw_ongoingReqCnt v ≤ p ∧ held v = fw_ongoingReqCnt v)%Z →
  worker_ok calm r v.
Proof.
  intros Hl Hr Hrel Hf Hh Hst Hpc Hc. split; [|..|done|done|].
  - intros He. unfold live in Hl. by rewrite He in Hl.
  - intros He. unfold live in Hl. by rewrite He in Hl.
  - intros p Hp. destruct (Hc p Hp) as (? & ? & ?). done.
Qed.
Lemma calm_ok : live w → ∀ p, calm = Some p → (fw_parallelLevel w = p ∧ fw_ongoingReqCnt w ≤ p ∧ held w = fw_ongoingReqCnt w)%Z.
Proof. intros Hl p Hp. destruct (wk_calm _ _ _ step_worker p Hp) as [? Hc]. by destruct (Hc Hl). Qed.

(** Only the program counter, the state or the tracking of a worker change. *)
Definition same_work v : Prop :=
  conns v = conns w ∧ fw_ongoingReqCnt v = fw_ongoingReqCnt w ∧ held v = held w ∧ fw_parallelLevel v = fw_parallelLevel w
  ∧ fw_lease_released v = fw_lease_released w ∧ batch v = [].
Lemma same_work_Step v sh' :
  live w → batch w = [] → live v → same_work v → quiet sh sh' → sh_leases sh' = sh_leases sh →
  (fw_state v = FIdle ∧ fw_ongoingReqCnt v = 0%Z ∨ fw_state v = FProcessing) →
  match fw_pc v with
  | PIdle _ _ => fw_state v = FIdle
  | PServe _ => fw_state v = FProcessing
  | PWait _ => fw_state v = FProcessing ∧ (0 < fw_ongoingReqCnt v)%Z
  | _ => True
  end →
  Step g sh (put i v g) sh'.
Proof.
  intros Hl Hb Hlv (Hcs & Ho & Hh & Hp & Hr & Hbv) (Hq1 & Hq2 & Hq3 & _) Hle Hst Hpc.
  destruct (live_ok Hl) as (Hreg & Hrel & Hf & Hhd & _).
  eapply Changes_at; [exact (proj1 Hpre)|exact Hi|reflexivity|]. apply Changes_live; try done; try exact (proj1 Hpre).
  - apply live_worker_ok; try done; try congruence. intros p. rewrite Hp, Ho, Hh. by apply calm_ok.
  - simpl. rewrite (cast_active g (proj1 Hpre)) at 1. f_equal. rewrite Ho. lia.
  - exact (cast_total g (proj1 Hpre)).
  - exact (cast_starting g (proj1 Hpre)).
  - by rewrite Hq1, Hbv, Hb.
  - rewrite Hcs. by apply submseteq_inserts_r.
  - by rewrite Hq2.
Qed.

(** ** The lease *)

Lemma lease_ok : fw_pc w = PLease →
  i ∈ fa_workers g ∧ fw_lease_released w = false ∧ fw_state w = FInit ∧ fw_ongoingReqCnt w = 0%Z ∧ conns w = [].
Proof. apply step_worker. Qed.
Lemma lease_failed_ok e : fw_pc w = PLease → run P (lease_failed i e) (λ _ s', Step g sh s'.1 s'.2) (g, sh).
Proof.
  intros Hpc. destruct (lease_ok Hpc) as (Hreg & Hr & Hst & Ho & Hcs).
  assert (¬ finished w) as Hnf by (unfold finished; rewrite Hpc; by intros [? _]).
  apply run_bind, (run_release i g sh w _ Hi Hr); [by intros key; apply (pre_lease g sh i w key Hpre Hi)|].
  intros sh' (Hq1 & Hq2 & Hq3 & _) Hback.
  apply run_bind. eapply run_get; [apply put_lookup|]. apply run_bind, run_do, run_bind, run_do.
  apply run_bind, run_send. intros ups drs Hu. eapply run_on; [apply put_lookup|].
  rewrite !put_send, !put_unregister, !put_count, put_put. cbn [fst snd].
  eapply Changes_at; [exact (proj1 Hpre)|exact Hi|reflexivity|].
  split; simpl; unfold load, slots, starting, live, batch, unreleased; rewrite ?Hpc; simpl; try done; try congruence; try solve [count_tac].
  - set_solver.
  - set_solver.
  - split; simpl; try done. intros p Hp. split; [by apply (wk_calm _ _ _ step_worker)|done].
  - right; left. split_and!; [done|unfold finished; simpl; intros [_ ?]; congruence|].
    exact (trail_sent g ups drs (UWorkerLeaseFail i _) Hu).
  - intros u Hin. rewrite Hu. by right.
  - set_solver.
  - intros j e'. rewrite Hu. intros [[= -> _]|?]%elem_of_cons; auto.
  - by rewrite Hr.
  - intros key. rewrite Hback, Hr. by simpl; case_decide.
  - by rewrite Hq1.
  - apply conns_ended; try done.
Qed.

Lemma lease_tracking_no_err repo id k : match lease_tracking repo g id k sh with Err _ => False | _ => True end.
Proof.
  unfold lease_tracking. destruct (Mgr_Get _ _ _ _); [|done..]. unfold TotalVRam, chk. by case_decide.
Qed.
Lemma leased_ok repo resp : fw_pc w = PLease →
  (match parse_i64 (lp_id resp) with
   | None => True
   | Some id => ∃ why, lease_tracking repo g id (lp_keepalive resp) sh = Panic why
   end → P) →
  run P (leased repo i resp) (λ _ s', Step g sh s'.1 s'.2) (g, sh).
Proof.
  intros Hpc HP. destruct (lease_ok Hpc) as (Hreg & Hr & Hst & Ho & Hcs).
  assert (¬ finished w) as Hnf by (unfold finished; rewrite Hpc; by intros [? _]).
  apply run_bind, run_pure. destruct (parse_i64 (lp_id resp)) as [id|]; simpl; [|by apply HP].
  apply run_bind, (run_get i _ g sh w _ Hi), run_bind, run_do.
  apply run_bind. eapply run_on; [exact Hi|]. rewrite put_count. apply run_bind, run_read.
  assert (lease_tracking repo (count_by (fw_parallelLevel w) (- fw_parallelLevel w) 0
    (put i (set_lease id (lp_keepalive resp) w) g)) id (lp_keepalive resp) sh = lease_tracking repo g id (lp_keepalive resp) sh)
    as Heq by done.
  cbn [fst snd]. rewrite Heq. pose proof (lease_tracking_no_err repo id (lp_keepalive resp)) as Hne.
  destruct (lease_tracking repo g id (lp_keepalive resp) sh) as [info| |why]; [|done|apply HP; eauto].
  apply run_bind. eapply run_on; [apply put_lookup|]. rewrite put_count, put_put.
  apply run_bind, run_shared, run_bind. eapply run_start_billing; [apply put_lookup|]. intros sh' (Hq1 & Hq2 & Hq3 & _) Hle.
  apply run_bind, run_send. intros ups drs Hu. eapply run_on; [apply put_lookup|].
  rewrite put_send, put_count, put_put. cbn [fst snd].
  eapply Changes_at; [exact (proj1 Hpre)|exact Hi|reflexivity|].
  split; simpl; unfold load, slots, starting, live, batch, unreleased; rewrite ?Hpc; simpl; try done; try congruence; try solve [count_tac].
  - assert (fw_finishQueue w = [] ∧ fw_clients w = []) as [Hf Hcl].
    { unfold conns in Hcs. apply app_eq_nil in Hcs as [_ Hcs]. by apply app_eq_nil in Hcs. }
    apply live_worker_ok; simpl; rewrite ?Ho; try done.
    + unfold held, batch. simpl. by rewrite Hf, Hcl.
    + by right.
    + intros p Hp. unfold held, batch. simpl. rewrite Hf, Hcl. split_and!; [by apply (wk_calm _ _ _ step_worker)| |done].
      destruct (iv_parallel _ _ (proj1 Hpre)) as [Hfit Hpar]. rewrite (Hpar p Hp) in Hfit. unfold fits in Hfit. simpl in Hfit. lia.
  - right; left. split_and!; [done|unfold finished; simpl; by intros [? _]|].
    exact (trail_sent g ups drs (UReady i) Hu).
  - intros u Hin. rewrite Hu. by right.
  - intros j e'. rewrite Hu. intros [[=]|?]%elem_of_cons; auto.
  - intros key. rewrite Hle. simpl. case_decide; lia.
  - by rewrite Hq1.
  - unfold conns in *. simpl. rewrite Hcs. by apply submseteq_nil_l.
  - by rewrite Hq2.
Qed.

(** ** The loop *)

(** The step only sets the worker, whose work stays what it was. *)
Lemma set_worker_ok f :
  live w → batch w = [] → live (f w) → same_work (f w) →
  (fw_state (f w) = FIdle ∧ fw_ongoingReqCnt (f w) = 0%Z ∨ fw_state (f w) = FProcessing) →
  match fw_pc (f w) with
  | PIdle _ _ => fw_state (f w) = FIdle
  | PServe _ => fw_state (f w) = FProcessing
  | PWait _ => fw_state (f w) = FProcessing ∧ (0 < fw_ongoingReqCnt (f w))%Z
  | _ => True
  end →
  run P (on_worker i f) (λ _ s', Step g sh s'.1 s'.2) (g, sh).
Proof. intros Hl Hb Hl' Hs Hst Hpc. apply (run_on i _ g sh w _ Hi). by apply same_work_Step. Qed.
Lemma pc_live pc : fw_pc w = pc → match pc with PLease | PEnd => false | _ => true end = true → live w.
Proof. intros Hpc Hl. unfold live. rewrite Hpc. by destruct pc. Qed.
Lemma pc_batch pc : fw_pc w = pc → match pc with PServe _ => false | _ => true end = true → batch w = [].
Proof. intros Hpc Hl. unfold batch. rewrite Hpc. by destruct pc. Qed.

Lemma to_head_ok : live w → batch w = [] →
  run P (on_worker i (set_pc PHead ∘ FuncWorker_SetState FProcessing)) (λ _ s', Step g sh s'.1 s'.2) (g, sh).
Proof.
  intros Hl Hb. apply set_worker_ok; try done; [|by right].
  repeat split; unfold held; rewrite ?Hb; done.
Qed.
Lemma back_to_head_ok f : live w → fw_pc w = PWait f →
  run P (on_worker i (set_pc PHead)) (λ _ s', Step g sh s'.1 s'.2) (g, sh).
Proof.
  intros Hl Hpc. pose proof (pc_batch _ Hpc eq_refl) as Hb. apply set_worker_ok; try done.
  - repeat split; unfold held; rewrite ?Hb; done.
  - apply live_ok, Hl.
Qed.
Lemma poll_ok b t : fw_pc w = PIdle b t →
  (¬ fits usize (Z.of_nat (size (fa_workers g)) * fa_parallelLeve g) → P) →
  run P (last ← (λ s, (NeedLastWorker s.1, s));
         if (last : bool) then on_worker i (set_pc PHead ∘ FuncWorker_SetState FProcessing) else mret tt)
    (λ _ s', Step g sh s'.1 s'.2) (g, sh).
Proof.
  intros Hpc HP. assert (live w) as Hl by by eapply pc_live. destruct (live_ok Hl) as (Hreg & _).
  apply run_bind, run_read. unfold NeedLastWorker, TotalSlot. simpl.
  destruct (decide (fits usize (Z.of_nat (size (fa_workers g)) * fa_parallelLeve g))) as [Hfit|]; 
    [|by unfold chk; rewrite decide_False by done; apply HP].
  rewrite chk_fits by done. simpl. rewrite chk_fits; simpl.
  - case_bool_decide; [apply to_head_ok; [done|by eapply pc_batch]|]. by apply Step_refl, Hpre.
  - assert (size (fa_workers g) ≠ 0) by (intros Hz; apply size_empty_iff in Hz; set_solver).
    destruct (iv_parallel _ _ (proj1 Hpre)) as [Hp _]. unfold fits in *. simpl in *. nia.
Qed.
Lemma billed_Step t sh' f : live w → batch w = [] → quiet sh sh' → sh_leases sh' = sh_leases sh → f = id ∨ f = set_pc PHead →
  Step g sh (put i (f (set_gpu t w)) g) sh'.
Proof.
  intros Hl Hb Hq Hle Hf.
  assert (batch (f (set_gpu t w)) = []) as Hb' by (destruct Hf as [-> | ->]; done).
  assert (live (f (set_gpu t w))) as Hl' by (destruct Hf as [-> | ->]; done).
  apply same_work_Step; try done.
  - unfold same_work, held. rewrite Hb, Hb'. by destruct Hf as [-> | ->].
  - destruct Hf as [-> | ->]; apply live_ok, Hl.
  - destruct Hf as [-> | ->]; [|done]. apply (wk_pc _ _ _ step_worker).
Qed.
Lemma bill_idle_ok : live w → batch w = [] → run P (insert_billing_tick gatewayId i) (λ _ s', Step g sh s'.1 s'.2) (g, sh).
Proof. intros Hl Hb. eapply run_billing; [exact Hi|]. intros t sh' Hq Hle. apply (billed_Step t sh' id); auto. Qed.
Lemma bill_ok : live w → batch w = [] →
  run P (_ ← insert_billing_tick gatewayId i; on_worker i (set_pc PHead)) (λ _ s', Step g sh s'.1 s'.2) (g, sh).
Proof.
  intros Hl Hb. apply run_bind. eapply run_billing; [exact Hi|]. intros t sh' Hq Hle.
  eapply run_on; [apply put_lookup|]. rewrite put_put. apply billed_Step; auto.
Qed.

Lemma held_no_batch v : batch v = [] → held v = Z.of_nat (length (fw_finishQueue v) + length (fw_clients v)).
Proof. intros Hb. unfold held. rewrite Hb. simpl. lia. Qed.

Lemma worker_head_ok : fw_pc w = PHead → (fa_parallelLeve g < fw_ongoingReqCnt w → P)%Z →
  run P (worker_head i) (λ _ s', Step g sh s'.1 s'.2) (g, sh).
Proof.
  intros Hpc HP. assert (live w) as Hl by by eapply pc_live. assert (batch w = []) as Hb by by eapply pc_batch.
  destruct (live_ok Hl) as (Hreg & Hr & Hf & Hh & Hst).
  apply run_bind, run_agent_get, run_bind, (run_get i _ g sh w _ Hi). destruct Hst as [[Hst Ho]|Hst]; rewrite Hst.
  { apply run_bind, run_gets. apply set_worker_ok; try done; [|by left]. repeat split; unfold held; by rewrite ?Hb. }
  apply run_bind, run_agent_get, run_bind, (run_get i _ g sh w _ Hi), run_bind, run_pure.
  destruct (iv_parallel _ _ (proj1 Hpre)) as [Hp Hpar]. unfold fits in Hp, Hf. simpl in Hp, Hf.
  destruct (decide (fw_ongoingReqCnt w ≤ fa_parallelLeve g)%Z) as [Hle|];
    [|unfold chk; rewrite decide_False by (unfold fits; simpl; lia); apply HP; lia].
  rewrite chk_fits by (unfold fits; simpl; lia). set (cnt := (fa_parallelLeve g - fw_ongoingReqCnt w)%Z).
  assert (∀ reqs rest, reqs ++ rest = fa_reqQueue g → (Z.of_nat (length reqs) ≤ cnt)%Z →
    run P (on_worker i (λ w, set_pc (PServe reqs) (set_ongoing (cast usize (fw_ongoingReqCnt w + Z.of_nat (length reqs))) w)))
      (λ _ s', Step g sh s'.1 s'.2) (set_reqs (fa_reqQueueTx g) rest g, sh)) as Hrun.
  { intros reqs rest Hq Hlen. eapply run_on; [exact Hi|]. cbn [fst snd].
    assert (cast usize (fw_ongoingReqCnt w + Z.of_nat (length reqs)) = fw_ongoingReqCnt w + Z.of_nat (length reqs))%Z as ->
      by (apply cast_fits; unfold fits; simpl; lia).
    eapply Changes_at; [exact (proj1 Hpre)|exact Hi|reflexivity|].
    apply Changes_live; try done; try exact (proj1 Hpre).
    - apply live_worker_ok; simpl; try done.
      + unfold fits; simpl; lia.
      + rewrite (held_no_batch w Hb) in Hh. unfold held, batch. simpl. lia.
      + by right.
      + intros p Hpp. destruct (calm_ok Hl p Hpp) as (? & ? & Hex). rewrite (held_no_batch w Hb) in Hex.
        specialize (Hpar p Hpp). unfold held, batch. simpl. split_and!; [done|lia|lia].
    - simpl. rewrite (cast_active g (proj1 Hpre)) at 1. f_equal. rewrite <-Hq, length_app. lia.
    - exact (cast_total g (proj1 Hpre)).
    - exact (cast_starting g (proj1 Hpre)).
    - rewrite Hb. simpl. rewrite <-Hq, app_nil_r, !fmap_app. solve_Permutation.
    - by apply submseteq_inserts_r. }
  apply run_bind. destruct (decide (0 < cnt)%Z).
  - apply Hrun; [apply take_drop|]. rewrite length_take. lia.
  - apply run_ret. assert (set_reqs (fa_reqQueueTx g) (fa_reqQueue g) g = g) as Heq by by destruct g.
    pose proof (Hrun [] (fa_reqQueue g) eq_refl) as Hnone. rewrite Heq in Hnone. apply Hnone. simpl. lia.
Qed.

Lemma served_ok : fw_pc w = PServe [] → run P (served i) (λ _ s', Step g sh s'.1 s'.2) (g, sh).
Proof.
  intros Hpc. assert (live w) as Hl by by eapply pc_live. assert (batch w = []) as Hb by (unfold batch; by rewrite Hpc).
  destruct (live_ok Hl) as (_ & _ & Hf & _). pose proof (wk_pc _ _ _ step_worker) as Hw. rewrite Hpc in Hw.
  apply run_bind, (run_get i _ g sh w _ Hi), run_bind, run_agent_get. case_decide.
  - apply set_worker_ok; try done; [|by left]. repeat split; unfold held; by rewrite ?Hb.
  - apply set_worker_ok; try done; [|by right|].
    + repeat split; unfold held; by rewrite ?Hb.
    + simpl. split; [done|]. unfold fits in Hf. simpl in Hf. lia.
Qed.
End step.

(** ** Returned connections

    While the loop handles a list of returned connections, the worker is seen
    as one that still has the rest of them in its queue. *)

Definition refill (l : list nat) w : FuncWorker := set_pc PHead (set_pool (fw_senders w) l (fw_clients w) w).
Definition ended w : FuncWorker := set_pc PEnd (set_pool (fw_senders w) [] (fw_clients w) w).

Section returns.
Context (P : Prop) (i : Z) (fails unusable : nat → bool).

(** What a returned connection leaves of the worker. *)
Definition returned w : FuncWorker := set_ongoing (fw_ongoingReqCnt w - 1) w.
Lemma return_start g sh w f n l :
  pre (put i (refill (n :: l) w) g) sh → fw_pc w = PWait f →
  cast usize (fw_ongoingReqCnt w - 1) = (fw_ongoingReqCnt w - 1)%Z ∧ (1 + Z.of_nat (length l + length (fw_clients w)) ≤ fw_ongoingReqCnt w)%Z.
Proof.
  intros Hpre Hpc. destruct (live_ok i _ sh (refill (n :: l) w) Hpre (put_lookup _ _ _) I) as (_ & _ & Hf & Hh & _).
  unfold held in Hh. simpl in Hh, Hf. unfold fits in Hf. simpl in Hf. split; [|lia].
  apply cast_fits. unfold fits. simpl. lia.
Qed.

(** The connection comes back and the worker goes on. *)
Lemma return_kept g sh w f n l w' :
  pre (put i (refill (n :: l) w) g) sh → fw_pc w = PWait f →
  fw_ongoingReqCnt w' = (fw_ongoingReqCnt w - 1)%Z → fw_state w' = (if decide (fw_ongoingReqCnt w = 1%Z) then FIdle else fw_state w) →
  fw_lease_released w' = fw_lease_released w → fw_parallelLevel w' = fw_parallelLevel w → fw_clients w' = fw_clients w →
  (fw_senders w' = fw_senders w ∨ fw_senders w' = n :: fw_senders w) →
  Step (put i (refill (n :: l) w) g) sh (put i (refill l w') (count_by 0 0 (-1) g)) sh.
Proof.
  intros Hpre Hpc Ho Hst Hr Hp Hcl Hse.
  destruct (return_start g sh w f n l Hpre Hpc) as [_ Hlen]. pose proof (proj1 Hpre) as Hg.
  destruct (live_ok i _ sh (refill (n :: l) w) Hpre (put_lookup _ _ _) I) as (Hreg & Hrel & Hf & Hh & Hst').
  unfold held in Hh. simpl in Hreg, Hrel, Hf, Hh, Hst'. unfold fits in Hf. simpl in Hf.
  eapply (Changes_at _ _ _ _ i); [done|apply put_lookup|simpl; by rewrite insert_insert_eq|].
  apply Changes_live; try done; simpl.
  - by rewrite insert_insert_eq.
  - apply live_worker_ok; simpl; rewrite ?Ho, ?Hr; try done.
    + unfold fits; simpl; lia.
    + unfold held; simpl. rewrite Hcl. lia.
    + rewrite Hst. case_decide; [left; split; [done|lia]|]. destruct Hst' as [[? ?]|?]; [lia|by right].
    + intros p Hcp. destruct (calm_ok i _ sh _ Hpre (put_lookup _ _ _) I p Hcp) as (Hpp & Hpo & Hph).
      unfold held in *. simpl in *. rewrite Hcl, Hp. split_and!; [done|lia|lia].
  - rewrite Ho. f_equal; lia.
  - by rewrite Z.add_0_r.
  - by rewrite Z.add_0_r.
  - rewrite Nat.sub_diag, app_nil_r. unfold conns. simpl. rewrite Hcl.
    destruct Hse as [-> | ->]; [|apply Permutation_submseteq; solve_Permutation].
    apply submseteq_skips_l. by apply submseteq_cons.
Qed.

(** The fourth failure in a row ends the worker. *)
Lemma return_failed g sh w f n l c Q :
  fa_tasks g !! i = Some w → pre (put i (refill (n :: l) w) g) sh → fw_pc w = PWait f →
  (∀ s', ∀ w', fa_tasks s'.1 !! i = Some w' → Step (put i (refill (n :: l) w) g) sh (put i (ended w') s'.1) s'.2 → Q true s') →
  run P (_ ← FinishWorker i;
         _ ← agent_do (RemoveWorker i);
         _ ← agent_do (SendWorkerStatusUpdate (UWorkerFail i (Share.CommonError "Http fail")));
         mret true) Q
    (put i (set_failCount c (returned w)) (count_by 0 0 (-1) g), sh).
Proof.
  intros Hi Hpre Hpc HQ. pose proof (proj1 Hpre) as Hg.
  destruct (return_start g sh w f n l Hpre Hpc) as [_ Hlen].
  destruct (live_ok i _ sh (refill (n :: l) w) Hpre (put_lookup _ _ _) I) as (Hreg & Hrel & Hf & Hh & Hst').
  set (w1 := set_failCount c (returned w)).
  apply run_bind, (run_FinishWorker i _ sh w1); [apply put_lookup|done|naive_solver| |].
  { apply (live_key i _ sh _ Hpre (put_lookup _ _ _) I). }
  intros t sh' (Hq1 & Hq2 & Hq3 & _) Hback. rewrite put_put.
  apply run_bind, run_do, run_bind, run_send. intros ups drs Hu. apply run_ret.
  eapply HQ; [apply put_lookup|]. cbn [fst snd]. rewrite put_send, put_unregister, !put_count, put_put.
  eapply (Changes_at _ _ _ _ i); [done|apply put_lookup|simpl; by rewrite insert_insert_eq|].
  eapply Changes_end; try done.
  - apply put_lookup.
  - simpl. by rewrite insert_insert_eq.
  - unfold conns. simpl. apply submseteq_inserts_r, submseteq_skips_l, (submseteq_cons n), submseteq_inserts_l. done.
  - unfold w1. count_tac.
  - unfold w1. count_tac.
  - count_tac.
  - by left.
  - exact (trail_sent g ups drs (UWorkerFail i _) Hu).
  - intros u Hin. simpl. rewrite Hu. by right.
  - intros j e'. simpl. rewrite Hu. by intros [[=]|?]%elem_of_cons.
  - by rewrite Hq1, app_nil_r.
  - by rewrite Hq2.
Qed.

Lemma HandleReturn_ok g sh w f n l Q :
  fa_tasks g !! i = Some w → pre (put i (refill (n :: l) w) g) sh → fw_pc w = PWait f → fw_finishQueue w = [] →
  (∀ s' w', fa_tasks s'.1 !! i = Some w' → Step (put i (refill (n :: l) w) g) sh (put i (ended w') s'.1) s'.2 → Q true s') →
  (∀ s' w', fa_tasks s'.1 !! i = Some w' → fw_pc w' = PWait f → fw_finishQueue w' = [] →
     Step (put i (refill (n :: l) w) g) sh (put i (refill l w') s'.1) s'.2 → Q false s') →
  run P (HandleReturn i fails unusable n) Q (g, sh).
Proof.
  intros Hi Hpre Hpc Hfin Hstop Hgo. destruct (return_start g sh w f n l Hpre Hpc) as [Hcast _].
  apply run_bind, run_do, run_bind. eapply run_get; [exact Hi|]. apply run_bind. eapply run_on; [exact Hi|]. rewrite Hcast.
  assert (∀ c, run P
    (_ ← (if decide (fw_ongoingReqCnt w = 1%Z) then on_worker i (FuncWorker_SetState FIdle) else mret tt);
     _ ← on_worker i (ReturnSender unusable n); mret false) Q
    (put i (set_failCount c (returned w)) (count_by 0 0 (-1) g), sh)) as Hkept.
  { intros c. apply run_bind. case_decide as Ho.
    - eapply run_on; [apply put_lookup|]. rewrite put_put. apply run_bind. eapply run_on; [apply put_lookup|].
      rewrite put_put. apply run_ret. eapply Hgo; [apply put_lookup|..].
      all: cbn [fst snd]; rewrite ?put_put; unfold ReturnSender; destruct (unusable n); try done.
      all: eapply return_kept; try done; [by rewrite decide_True|auto].
    - apply run_ret, run_bind. eapply run_on; [apply put_lookup|]. rewrite put_put. apply run_ret.
      eapply Hgo; [apply put_lookup|..].
      all: cbn [fst snd]; rewrite ?put_put; unfold ReturnSender; destruct (unusable n); try done.
      all: eapply return_kept; try done; [by rewrite decide_False|auto]. }
  apply run_bind. destruct (fails n).
  - apply run_bind. eapply run_get; [apply put_lookup|]. apply run_bind. eapply run_on; [apply put_lookup|].
    rewrite put_put. apply run_ret. case_bool_decide; [|apply Hkept]. by eapply return_failed.
  - apply run_bind. eapply run_on; [apply put_lookup|]. rewrite put_put. apply run_ret. apply Hkept.
Qed.

Lemma HandleReturns_ok l g sh w f Q :
  fa_tasks g !! i = Some w → pre (put i (refill l w) g) sh → fw_pc w = PWait f → fw_finishQueue w = [] →
  (∀ s' w', fa_tasks s'.1 !! i = Some w' → Step (put i (refill l w) g) sh (put i (ended w') s'.1) s'.2 → Q true s') →
  (∀ s' w', fa_tasks s'.1 !! i = Some w' → fw_finishQueue w' = [] →
     Step (put i (refill l w) g) sh (put i (set_pc PHead w') s'.1) s'.2 → Q false s') →
  run P (HandleReturns i fails unusable l) Q (g, sh).
Proof.
  revert g sh w. induction l as [|n l IH]; intros g sh w Hi Hpre Hpc Hfin Hstop Hgo.
  - apply run_ret. eapply Hgo; [exact Hi|done|]. assert (refill [] w = set_pc PHead w) as -> by (destruct w; by simplify_eq/=).
    apply Step_refl. destruct w; simplify_eq/=. apply Hpre.
  - apply run_bind. eapply HandleReturn_ok; [done..| |].
    + intros s' w' Hw' Hs. apply run_ret. by eapply Hstop.
    + intros [g1 sh1] w' Hw' Hpc' Hfin' Hs. pose proof (Step_pre _ _ _ _ _ _ Hpre Hs) as Hpre1. simpl in *.
      apply (IH g1 sh1 w'); try done.
      * intros s2 w2 Hw2 Hs2. eapply Hstop; [exact Hw2|]. by eapply Step_trans.
      * intros s2 w2 Hw2 Hf2 Hs2. eapply Hgo; [exact Hw2|done|]. by eapply Step_trans.
Qed.
End returns.

(** ** Serving a request *)

Lemma pop_usable_spec unusable l : match pop_usable unusable l with
  | (Some n, rest) => n :: rest ⊆+ l
  | (None, rest) => rest = []
  end.
Proof.
  induction l as [|n l IH]; simpl; [done|]. destruct (unusable n); [|done].
  destruct (pop_usable unusable l) as [[m|] rest]; [|done]. by apply submseteq_cons.
Qed.

Lemma run_on_eq i f g sh w : fa_tasks g !! i = Some w → on_worker i f (g, sh) = (Ok tt, (put i (f w) g, sh)).
Proof. intros Hi. unfold on_worker, agent_do, modify. simpl. by rewrite (on_task_put i f g w Hi). Qed.
Lemma GetConnect_spec i unusable conn g sh w :
  fa_tasks g !! i = Some w →
  (∃ n rest sh', GetConnect i unusable conn (g, sh) = (Ok n, (put i (set_pool rest (fw_finishQueue w) (fw_clients w) w) g, sh'))
     ∧ (n :: rest ⊆+ fw_senders w ∧ sh_conns sh' = sh_conns sh ∨ n = sh_conns sh ∧ rest = [] ∧ sh_conns sh' = S (sh_conns sh))
     ∧ sh_leases sh' = sh_leases sh ∧ sh_answers sh' = sh_answers sh ∧ sh_reqs sh' = sh_reqs sh)
  ∨ ∃ e, GetConnect i unusable conn (g, sh) = (Err e, (put i (set_pool [] (fw_finishQueue w) (fw_clients w) w) g, sh)).
Proof.
  intros Hi. unfold GetConnect. rewrite (sm_bind_run _ _ _ (fw_senders w) (g, sh)) by (unfold worker_get; simpl; by rewrite Hi).
  pose proof (pop_usable_spec unusable (fw_senders w)) as Hpop. destruct (pop_usable _ _) as [[n|] rest].
  - rewrite (sm_bind_run _ _ _ tt _ (run_on_eq i _ g sh w Hi)). left. exists n, rest, sh. naive_solver.
  - subst rest. rewrite (sm_bind_run _ _ _ tt _ (run_on_eq i _ g sh w Hi)).
    destruct conn as [[]|]; [right; eexists; reflexivity..|]. left. eexists _, [], _. split; [reflexivity|]. naive_solver.
Qed.

Section serving.
Context (P : Prop) (i : Z) (g : FuncAgent (F:=F)) (sh : Shared) (w : FuncWorker) (req : FuncClientReq) (reqs : list FuncClientReq).
Hypotheses (Hpre : pre g sh) (Hi : fa_tasks g !! i = Some w) (Hpc : fw_pc w = PServe (req :: reqs)).

Lemma serving_live : live w.
Proof. unfold live. by rewrite Hpc. Qed.
Lemma serving_batch : batch w = req :: reqs.
Proof. unfold batch. by rewrite Hpc. Qed.

(** A connection is handed to the client. *)
Lemma serve_answered n rest a sh' :
  n :: rest ⊆+ fw_senders w ∧ sh_conns sh' = sh_conns sh ∨ n = sh_conns sh ∧ rest = [] ∧ sh_conns sh' = S (sh_conns sh) →
  sh_leases sh' = sh_leases sh → (sh_answers sh').*1 = (sh_answers sh).*1 ++ [cr_tx req] → sh_reqs sh' = sh_reqs sh →
  Step g sh (put i (set_pc (PServe reqs) (set_pool rest (fw_finishQueue w) (fw_clients w ++ [n]) (set_caller a w))) g) sh'.
Proof.
  intros Hn Hle Hans Hrq. pose proof serving_live as Hl. pose proof serving_batch as Hb.
  destruct (live_ok i g sh w Hpre Hi Hl) as (Hreg & Hr & Hf & Hh & Hst).
  pose proof (wk_pc _ _ _ (step_worker i g sh w Hpre Hi)) as Hw. rewrite Hpc in Hw.
  eapply (Changes_at _ _ _ _ i); [exact (proj1 Hpre)|exact Hi|reflexivity|].
  apply Changes_live; try done; try exact (proj1 Hpre).
  - apply live_worker_ok; simpl; try done.
    + unfold held in *. rewrite Hb in Hh. simpl in *. rewrite length_app. unfold batch. simpl. lia.
    + intros p Hp. destruct (calm_ok i g sh w Hpre Hi Hl p Hp) as (? & ? & Hex). split_and!; [done..|].
      unfold held in *. rewrite Hb in Hex. simpl in *. rewrite length_app. unfold batch. simpl. lia.
  - simpl. rewrite (cast_active g (proj1 Hpre)) at 1. f_equal. lia.
  - exact (cast_total g (proj1 Hpre)).
  - exact (cast_starting g (proj1 Hpre)).
  - rewrite Hans, Hb. simpl. rewrite !fmap_app. simpl. solve_Permutation.
  - unfold conns. simpl. destruct Hn as [[Hn ->]|(-> & -> & ->)].
    + rewrite Nat.sub_diag, app_nil_r. trans ((n :: rest) ++ fw_finishQueue w ++ fw_clients w).
      * apply Permutation_submseteq. solve_Permutation.
      * by apply submseteq_app.
    + replace (S (sh_conns sh) - sh_conns sh) with 1 by lia. simpl.
      rewrite <-!(assoc_L (++)). by apply submseteq_inserts_l.
  - destruct Hn as [[_ ->]|(_ & _ & ->)]; lia.
Qed.

(** The pod cannot be reached. *)
Lemma serve_failed e :
  run P (_ ← shared_do (add_answers [(cr_tx req, AError (Share.CommonError "Funcworker connect fail with error "))]);
         _ ← FinishWorker i;
         _ ← agent_do (RemoveWorker i);
         _ ← agent_do (SendWorkerStatusUpdate (UWorkerFail i e));
         _ ← shared_do (add_answers ((λ r, (cr_tx r, ADropped)) <$> reqs));
         end_task i)
    (λ _ s', Step g sh s'.1 s'.2)
    (put i (set_pool [] (fw_finishQueue w) (fw_clients w) (set_caller (cr_caller_tenant req) w)) g, sh).
Proof.
  pose proof serving_live as Hl. pose proof serving_batch as Hb.
  destruct (live_ok i g sh w Hpre Hi Hl) as (Hreg & Hr & Hf & Hh & Hst).
  apply run_bind, run_shared, run_bind. eapply run_FinishWorker; [apply put_lookup|done|naive_solver| |].
  { intros key. by apply (live_key i g sh w Hpre Hi Hl). }
  intros t sh' (Hq1 & Hq2 & Hq3 & _) Hback. rewrite put_put.
  apply run_bind, run_do, run_bind, run_send. intros ups drs Hu. apply run_bind, run_shared.
  eapply run_on; [apply put_lookup|]. rewrite put_send, put_unregister, !put_count, put_put. cbn [fst snd].
  eapply Changes_at; [exact (proj1 Hpre)|exact Hi|reflexivity|]. eapply Changes_end; try done; try exact (proj1 Hpre).
  - unfold conns. simpl. apply submseteq_inserts_r, submseteq_inserts_l, submseteq_inserts_l. done.
  - count_tac.
  - count_tac.
  - count_tac.
  - by left.
  - exact (trail_sent g ups drs (UWorkerFail i e) Hu).
  - intros u Hin. simpl. rewrite Hu. by right.
  - intros j e'. simpl. rewrite Hu. by intros [[=]|?]%elem_of_cons.
  - simpl. rewrite Hq1, Hb. simpl. rewrite !fmap_app, <-list_fmap_compose. simpl. by rewrite <-(assoc_L (++)).
  - simpl. by rewrite Hq2.
Qed.

Lemma serve_ok unusable conn : run P (serve i req reqs unusable conn) (λ _ s', Step g sh s'.1 s'.2) (g, sh).
Proof.
  set (w1 := set_caller (cr_caller_tenant req) w).
  apply run_catch. rewrite (sm_bind_run _ _ _ tt (put i w1 g, sh)) by exact (run_on_eq i (set_caller (cr_caller_tenant req)) g sh w Hi).
  destruct (GetConnect_spec i unusable conn (put i w1 g) sh w1 (put_lookup _ _ _))
    as [(n & rest & sh' & -> & Hn & Hle & Hans & Hrq)|(e & ->)].
  - rewrite put_put. apply run_bind, run_shared. eapply run_on; [apply put_lookup|]. rewrite put_put. cbn [fst snd].
    apply serve_answered; try done. simpl. rewrite fmap_app. by rewrite Hans.
  - rewrite put_put. apply serve_failed.
Qed.
End serving.

(** ** Every step of a worker *)

(** What makes a worker's task panic: the policy allows fewer requests than the
    worker serves, the scheduler's answer names no pod number, the pod's memory
    or the agent's slots do not fit their integers. *)
Definition worker_panics i (ev : WorkerEvent) g sh : Prop :=
  match ev with
  | WRun => ∃ w, fa_tasks g !! i = Some w ∧ (fa_parallelLeve g < fw_ongoingReqCnt w)%Z
  | WLease repo (inl resp) =>
      match parse_i64 (lp_id resp) with
      | None => True
      | Some id => ∃ why, lease_tracking repo g id (lp_keepalive resp) sh = Panic why
      end
  | WPoll => ¬ fits usize (Z.of_nat (size (fa_workers g)) * fa_parallelLeve g)
  | _ => False
  end.

Lemma worker_step_ok i ev g sh :
  pre g sh → worker_enabled i ev g sh = true →
  run (worker_panics i ev g sh) (worker_step i ev) (λ _ s', Step g sh s'.1 s'.2) (g, sh).
Proof.
  intros Hpre. unfold worker_enabled. destruct (fa_tasks g !! i) as [w|] eqn:Hi; [|done]. intros Hen.
  set (P := worker_panics i ev g sh).
  apply run_bind, (run_get i _ g sh w _ Hi).
  destruct (fw_pc w) as [| |b t|[|req reqs]|f|] eqn:Hpc, ev; try discriminate Hen;
    try solve [destruct b; discriminate Hen]; try solve [destruct f; discriminate Hen].
  - destruct resp as [resp|e]; [by eapply leased_ok|by eapply lease_failed_ok].
  - eapply worker_head_ok; [done..|]. intros Hlt. exists w. done.
  - eapply worker_closed_ok; [done..|by eapply pc_live|by eapply pc_batch].
  - destruct b; [discriminate Hen|]. eapply to_head_ok; [done..|by eapply pc_live|by eapply pc_batch].
  - destruct b; [|discriminate Hen]. by eapply poll_ok.
  - assert (live w) by by eapply pc_live. assert (batch w = []) by by eapply pc_batch. destruct b; by eapply keepalive_ok.
  - destruct b; (eapply bill_idle_ok; [done..|by eapply pc_live|by eapply pc_batch]).
  - by eapply served_ok.
  - by eapply serve_ok.
  - eapply worker_closed_ok; [done..|by eapply pc_live|by eapply pc_batch].
  - destruct f; [discriminate Hen|]. eapply back_to_head_ok; [done..|by eapply pc_live|done].
  - assert (live w) as Hl by by eapply pc_live. assert (batch w = []) as Hb by by eapply pc_batch.
    apply run_bind, (run_get i _ g sh w _ Hi), run_bind, (run_on i _ g sh w _ Hi), run_bind.
    set (w0 := set_pool (fw_senders w) [] (fw_clients w) w).
    assert (Step g sh (put i (refill (fw_finishQueue w) w0) (put i w0 g)) sh) as Hstart.
    { rewrite put_put. eapply same_work_Step; try done; [|apply (live_ok i g sh w Hpre Hi Hl)].
      repeat split. unfold held. by rewrite Hb. }
    eapply (HandleReturns_ok P i fails unusable (fw_finishQueue w) _ sh w0); [apply put_lookup|by eapply Step_pre|done..| |].
    + intros [g' sh'] w' Hw' Hs. simpl in Hw'. eapply run_on; [exact Hw'|]. by eapply Step_trans.
    + intros [g' sh'] w' Hw' Hfin Hs. simpl in Hw'. eapply run_on; [exact Hw'|]. by eapply Step_trans.
  - eapply bill_ok; [done..|by eapply pc_live|by eapply pc_batch].
Qed.

(** ** A client drops its connection *)

Lemma conns_filter n (l : list nat) : n ∈ l → n :: filter (λ m, m ≠ n) l ⊆+ l.
Proof.
  induction l as [|m l IH]; [by intros ?%elem_of_nil|]. rewrite elem_of_cons. intros [<-|Hin].
  - rewrite filter_cons_False by naive_solver. apply submseteq_skip. apply sublist_submseteq, sublist_filter.
  - destruct (decide (m = n)) as [->|Hne].
    + rewrite filter_cons_False by naive_solver. apply submseteq_skip. apply sublist_submseteq, sublist_filter.
    + rewrite filter_cons_True by done. rewrite submseteq_swap. by apply submseteq_skip, IH.
Qed.

Lemma length_filter_out n (l : list nat) : n ∈ l → length (filter (λ m, m ≠ n) l) + 1 ≤ length l.
Proof. intros Hin. pose proof (submseteq_length _ _ (conns_filter n l Hin)) as Hl. simpl in Hl. lia. Qed.
Lemma length_filter_out_nodup n (l : list nat) : n ∈ l → NoDup l → length (filter (λ m, m ≠ n) l) + 1 = length l.
Proof.
  induction l as [|m l IH]; [by intros ?%elem_of_nil|]. rewrite elem_of_cons, NoDup_cons. intros Hin [Hm Hl].
  destruct (decide (m = n)) as [->|Hne].
  - rewrite filter_cons_False by naive_solver. simpl. rewrite filter_all; [lia|]. intros x Hx ->. done.
  - rewrite filter_cons_True by done. simpl. rewrite <-IH by naive_solver. lia.
Qed.
Lemma drop_ok i n g sh w :
  pre g sh → fa_tasks g !! i = Some w → n ∈ fw_clients w → NoDup (fw_clients w) → (∀ p, calm = Some p → 0 < p)%Z →
  Step g sh (put i (QHttpCallClient_drop n w) g) sh.
Proof.
  intros Hpre Hi Hn Hnd Hpos. pose proof (step_worker i g sh w Hpre Hi) as Hok.
  set (l := filter (λ m, m ≠ n) (fw_clients w)).
  pose proof (length_filter_out n _ Hn) as Hlen. pose proof (length_filter_out_nodup n _ Hn Hnd) as Hex.
  assert (∀ q, q = fw_finishQueue w ∨ q = fw_finishQueue w ++ [n] →
    conns (set_pool (fw_senders w) q l w) ⊆+ conns w ++ seq (sh_conns sh) (sh_conns sh - sh_conns sh)) as Hcs.
  { intros q Hq. rewrite Nat.sub_diag, app_nil_r. unfold conns. simpl. apply submseteq_skips_l.
    destruct Hq as [-> | ->].
    - apply submseteq_skips_l, sublist_submseteq, sublist_filter.
    - rewrite <-app_assoc. apply submseteq_skips_l. by apply conns_filter. }
  assert (live w ∨ fw_pc w = PLease ∨ fw_pc w = PEnd) as [Hl|[Hpc|Hpc]].
  { unfold live. destruct (fw_pc w); auto. }
  - destruct (live_ok i g sh w Hpre Hi Hl) as (Hreg & Hr & Hf & Hh & Hst).
    assert (∃ q, QHttpCallClient_drop n w = set_pool (fw_senders w) q l w
      ∧ (q = fw_finishQueue w ++ [n] ∨ q = fw_finishQueue w ∧ (fw_parallelLevel w * 2 ≤ Z.of_nat (length (fw_finishQueue w)))%Z))
      as (q & Heq & Hq).
    { unfold QHttpCallClient_drop. unfold live in Hl. fold l. destruct (fw_pc w); try done; case_decide;
        eexists; (split; [reflexivity|]); auto; right; split; auto; lia. }
    assert (length q ≤ length (fw_finishQueue w) + 1) as Hlq by (destruct Hq as [-> | [-> _]]; rewrite ?length_app; simpl; lia).
    rewrite Heq. eapply (Changes_at _ _ _ _ i); [exact (proj1 Hpre)|exact Hi|reflexivity|].
    apply Changes_live; try done; try exact (proj1 Hpre).
    + apply live_worker_ok; try done.
      * unfold held, batch in *. simpl. fold l in Hlen. lia.
      * apply (wk_pc _ _ _ Hok).
      * intros p Hp. destruct (calm_ok i g sh w Hpre Hi Hl p Hp) as (Hpp & Hop & Hhp). split_and!; [done..|].
        specialize (Hpos p Hp). fold l in Hex. unfold held, batch in *. simpl.
        destruct Hq as [-> | [-> Hfull]]; [rewrite length_app; simpl; lia|]. rewrite Hpp in Hfull. lia.
    + simpl. rewrite (cast_active g (proj1 Hpre)) at 1. f_equal. lia.
    + exact (cast_total g (proj1 Hpre)).
    + exact (cast_starting g (proj1 Hpre)).
    + apply Hcs. naive_solver.
  - destruct (lease_ok i g sh w Hpre Hi Hpc) as (_ & _ & _ & _ & Hc). unfold conns in Hc.
    apply app_eq_nil in Hc as [_ [_ Hc]%app_eq_nil]. rewrite Hc in Hn. by apply elem_of_nil in Hn.
  - assert (QHttpCallClient_drop n w = set_pool (fw_senders w) (fw_finishQueue w) l w) as -> by (unfold QHttpCallClient_drop; by rewrite Hpc).
    eapply (Changes_at _ _ _ _ i); [exact (proj1 Hpre)|exact Hi|reflexivity|].
    split; simpl; unfold load, slots, starting, live, batch; simpl; rewrite ?Hpc; try done.
    + rewrite (cast_active g (proj1 Hpre)) at 1. f_equal. lia.
    + rewrite (cast_total g (proj1 Hpre)) at 1. f_equal. lia.
    + rewrite (cast_starting g (proj1 Hpre)) at 1. f_equal. lia.
    + split; simpl; rewrite ?Hpc; try done.
      * intros _. apply (wk_end _ _ _ Hok Hpc).
      * unfold live. simpl. by rewrite Hpc.
      * intros p Hp. split; [by apply (wk_calm _ _ _ Hok)|]. unfold live. simpl. by rewrite Hpc.
    + destruct (decide (fw_state w = FFinish)) as [Hs|Hs]; [left|right; left]; unfold finished; simpl; naive_solver.
    + intros _. by apply (iv_ghost _ _ (proj1 Hpre) i w).
    + intros j e Hj. by left.
    + intros key. unfold unreleased. simpl. case_decide; lia.
    + apply Hcs. by left.
Qed.
End steps.
