(* ===== verification/AgentSteps.v ===== *)
(** * The steps of a gateway's agents

    Every step of an agent's task keeps the invariants of [GatewayInv] and
    accounts for what it shares, and it panics for known reasons only. *)

From S2P Require Import Prelude.
From S2P Require Import Text.
From S2P Require Import BTree.
From S2P Require Import Common.
From S2P Require Import DataObj.
From S2P Require Import Resource.
From S2P Require Import Specs.
From S2P Require Import Worker.
From S2P Require Import Billing.
From S2P Require Import FuncAgent.
From S2P Require Import GatewayTasks.
From S2P Require Import GatewayInv.
From S2P Require Import GatewaySteps.

Section steps.
Context {F : Type} `{FloatLit F, GatewayFloat F, GatewayConfig F}.
Variable calm : option Z.
Variable cap : string → Z.
Implicit Types (g : FuncAgent (F:=F)) (sh : Shared) (i : Z) (repo : GwObjRepo F).
Abbreviation Inv := (AgentInv calm).
Abbreviation Step := (Step calm cap).
Abbreviation pre := (pre calm).

(** ** Steps that leave the workers' tasks alone *)

Record Queues g sh g' sh' : Prop := {
  qu_tasks : fa_tasks g' = fa_tasks g;
  qu_config : fa_config g' = fa_config g;
  qu_active : fa_activeReqCnt g' =
    cast usize (fa_activeReqCnt g + (Z.of_nat (length (fa_reqQueue g')) - Z.of_nat (length (fa_reqQueue g))));
  qu_total : fa_totalSlot g' = cast usize (fa_totalSlot g);
  qu_starting : fa_startingSlot g' = cast usize (fa_startingSlot g);
  qu_parallel : fits usize (fa_parallelLeve g') ∧ ∀ p, calm = Some p → fa_parallelLeve g' = p;
  qu_next : fa_nextWorkerId g' = fa_nextWorkerId g;
  qu_workers j : j ∈ fa_workers g' → j ∈ fa_workers g;
  qu_registered j w : j ∈ fa_workers g → fa_tasks g !! j = Some w → fw_pc w ≠ PEnd → j ∈ fa_workers g';
  qu_trail : trail g' ≡ₚ trail g;
  qu_ghost j : j ∈ fa_workers g' → UIdleTimeout j ∈ fa_updates g ++ fa_dropped g → UIdleTimeout j ∈ fa_updates g' ++ fa_dropped g';
  qu_sent u : u ∈ fa_updates g' ++ fa_dropped g' → u ∈ fa_updates g ++ fa_dropped g;
  qu_leases : sh_leases sh' = sh_leases sh;
  qu_answers : (sh_answers sh').*1 ++ (cr_tx <$> fa_reqQueueTx g' ++ fa_reqQueue g')
    ≡ₚ (sh_answers sh).*1 ++ (cr_tx <$> fa_reqQueueTx g ++ fa_reqQueue g);
  qu_conns : sh_conns sh' = sh_conns sh;
  qu_reqs : sh_reqs sh' = sh_reqs sh;
}.
Lemma Queues_Step g sh g' sh' : Inv g → Queues g sh g' sh' → Step g sh g' sh'.
Proof.
  intros Hg Hq. pose proof (qu_tasks _ _ _ _ Hq) as Ht. split.
  - split; rewrite ?Ht.
    + rewrite (qu_active _ _ _ _ Hq), (iv_active _ g Hg), cast_add. f_equal. lia.
    + rewrite (qu_total _ _ _ _ Hq), (iv_total _ g Hg). by rewrite !cast_idem.
    + rewrite (qu_starting _ _ _ _ Hq), (iv_starting _ g Hg). by rewrite !cast_idem.
    + apply Hq.
    + intros j w Hj. pose proof (iv_worker _ g Hg j w Hj) as Hok. destruct (decide (fw_pc w = PEnd)) as [Hpc|Hpc].
      * destruct Hok as [_ He _ _ Hc]. split; [congruence|done| |by rewrite Hpc|done].
        intros Hx. unfold live in Hx. by rewrite Hpc in Hx.
      * eapply worker_ok_reg; [|exact Hok]. intros ?. by eapply (qu_registered _ _ _ _ Hq).
    + intros j Hj. by apply (iv_known _ g Hg), (qu_workers _ _ _ _ Hq).
    + rewrite (qu_next _ _ _ _ Hq). apply (iv_ids _ g Hg).
    + rewrite (qu_next _ _ _ _ Hq). apply (iv_next _ g Hg).
    + rewrite (qu_trail _ _ _ _ Hq). apply (iv_trail _ g Hg).
    + intros j. rewrite (qu_trail _ _ _ _ Hq). apply (iv_trail_in _ g Hg).
    + intros j w Hj Hpc Hin. apply (qu_ghost _ _ _ _ Hq); [done|].
      apply (iv_ghost _ g Hg j w); [done..|]. by apply (qu_workers _ _ _ _ Hq).
    + intros j e Hj. eapply (iv_refused _ g Hg), (qu_sent _ _ _ _ Hq), Hj.
  - apply Hq.
  - intros key. unfold mine. by rewrite (qu_leases _ _ _ _ Hq), (qu_config _ _ _ _ Hq), Ht.
  - unfold pending. rewrite Ht. pose proof (qu_answers _ _ _ _ Hq) as Ha. rewrite !fmap_app in Ha. rewrite !fmap_app.
    rewrite !(assoc_L (++)) in Ha. rewrite !(assoc_L (++)). by apply Permutation_app_tail.
  - unfold agent_conns. rewrite Ht. by apply submseteq_inserts_r.
  - by rewrite (qu_conns _ _ _ _ Hq).
  - apply Hq.
  - intros key. rewrite (qu_leases _ _ _ _ Hq). lia.
Qed.

(** ** A new worker *)

Definition new_worker (p keepaliveTime : Z) : FuncWorker :=
  MkFuncWorker p keepaliveTime false (-1) false FInit 0 0 GpuTracking_default None [] [] [] false PLease.
Definition with_worker (p k : Z) g : FuncAgent :=
  let id := (fa_nextWorkerId g + 1)%Z in
  AddWorker id (set_tasks (<[id := new_worker p k]> (fa_tasks g))
    (count_by 0 p 0 (set_workers (fa_workers g) id (fa_scaleInWorkerId g) g))).

Lemma with_worker_Step k g sh sh' :
  Inv g →
  (∀ key, Lease_Count key (sh_leases sh') = Lease_Count key (sh_leases sh)
    + if decide (ac_endpointLeaseKey (fa_config g) = Some key) then 1 else 0)%Z →
  (∀ key, ac_endpointLeaseKey (fa_config g) = Some key → Lease_Count key (sh_leases sh) + 1 ≤ cap key)%Z →
  quiet sh sh' → Step g sh (with_worker (fa_parallelLeve g) k g) sh'.
Proof.
  intros Hg Hle Hcap (Hq1 & Hq2 & Hq3 & _). set (id := (fa_nextWorkerId g + 1)%Z).
  assert (fa_tasks g !! id = None) as Hnew.
  { destruct (fa_tasks g !! id) eqn:Hi; [|done]. 
    assert (1 ≤ id ≤ fa_nextWorkerId g)%Z by (apply (iv_ids _ g Hg); by rewrite Hi). unfold id in *. lia. }
  assert (fa_tasks (with_worker (fa_parallelLeve g) k g) = <[id := new_worker (fa_parallelLeve g) k]> (fa_tasks g)) as Ht by done.
  assert (∀ j w, <[id := new_worker (fa_parallelLeve g) k]> (fa_tasks g) !! j = Some w → fw_pc w = PEnd → fa_tasks g !! j = Some w) as Hold.
  { intros j w [[<- <-]|[_ Hj]]%lookup_insert_Some; [done|done]. }
  split; rewrite ?Ht.
  - split; rewrite ?Ht; simpl.
    + rewrite wsum_new by done. unfold load at 1. simpl. rewrite (iv_active _ g Hg), cast_add. f_equal. lia.
    + rewrite wsum_new by done. unfold slots at 1. simpl. rewrite (iv_total _ g Hg), cast_add. f_equal. lia.
    + rewrite wsum_new by done. unfold starting at 1. simpl. rewrite (iv_starting _ g Hg), cast_add. f_equal. lia.
    + apply (iv_parallel _ g Hg).
    + intros j w [[<- <-]|[Hne Hj]]%lookup_insert_Some.
      * split; simpl; try done. { intros _. split_and!; try done. set_solver. }
        intros p Hp. split; [by apply (iv_parallel _ g Hg)|done].
      * eapply worker_ok_reg; [|by apply (iv_worker _ g Hg)]. set_solver.
    + intros j. rewrite elem_of_union, elem_of_singleton, lookup_insert_is_Some'.
      intros [->|Hj]; [by left|right; by apply (iv_known _ g Hg)].
    + pose proof (iv_next _ g Hg). intros j. rewrite lookup_insert_is_Some'. fold id.
      intros [<-|Hj]; [unfold id; lia|]. apply (iv_ids _ g Hg) in Hj. unfold id. lia.
    + pose proof (iv_next _ g Hg). lia.
    + apply (iv_trail _ g Hg).
    + intros j. change (trail (with_worker (fa_parallelLeve g) k g)) with (trail g). rewrite (iv_trail_in _ g Hg). split.
      * intros (w & Hj & Hf). exists w. split; [|done]. rewrite lookup_insert_ne; [done|]. by intros <-; rewrite Hnew in Hj.
      * intros (w & Hj & Hf). exists w. split; [|done]. apply Hold; [done|apply Hf].
    + intros j w Hj Hpc Hin. apply Hold in Hj; [|done]. apply (iv_ghost _ g Hg j w Hj Hpc).
      apply elem_of_union in Hin as [->%elem_of_singleton|Hin]; [|done]. fold id in Hj. by rewrite Hnew in Hj.
    + intros j e Hj. apply (iv_refused _ g Hg) in Hj as (w & Hj & Hpc). exists w. split; [|done].
      rewrite lookup_insert_ne; [done|]. by intros <-; rewrite Hnew in Hj.
  - done.
  - intros key. unfold mine. simpl. rewrite Hle. case_decide; [|lia]. fold id. rewrite wsum_new by done. unfold unreleased at 1. simpl. lia.
  - unfold pending. simpl. fold id. rewrite Hq1, !fmap_app, (wcat_new _ _ _ _ Hnew). done.
  - unfold agent_conns. simpl. fold id. rewrite (wcat_new _ _ _ _ Hnew). unfold conns at 1. simpl. by apply submseteq_inserts_r.
  - by rewrite Hq2.
  - done.
  - intros key. rewrite Hle. case_decide as Hk; [|lia]. specialize (Hcap key Hk). lia.
Qed.

Lemma FuncWorker_New_spec p k : match FuncWorker_New p k with
  | Ok w => w = new_worker p k
  | Err _ => False
  | Panic _ => ¬ (0 < p * 2 ≤ ty_max usize / 8)%Z
  end.
Proof.
  unfold FuncWorker_New, chk, channel, assert_. case_decide as Hf; simpl.
  - repeat (case_bool_decide; simpl); try done; simpl in *; lia.
  - assert (18446744073709551615 / 8 = 2305843009213693951)%Z as -> by done. intros Hp. apply Hf. unfold fits. simpl. lia.
Qed.
Lemma NewWorker_ok (P : Prop) repo g sh :
  pre g sh → (∀ key, ac_endpointLeaseKey (fa_config g) = Some key → max_replica repo g ≤ cap key)%Z →
  (¬ (0 < fa_parallelLeve g * 2 ≤ ty_max usize / 8)%Z → P) →
  run P (NewWorker repo) (λ _ s', Step g sh s'.1 s'.2) (g, sh).
Proof.
  intros [Hg Hl] Hcap HP.
  assert (∀ sh', quiet sh sh' → (∀ key, Lease_Count key (sh_leases sh') = Lease_Count key (sh_leases sh)
      + if decide (ac_endpointLeaseKey (fa_config g) = Some key) then 1 else 0)%Z →
    (∀ key, ac_endpointLeaseKey (fa_config g) = Some key → Lease_Count key (sh_leases sh) + 1 ≤ cap key)%Z →
    run P (keepaliveTime ← agent_get fa_scaleinTimeout;
           workerId ← agent_get (λ g, fa_nextWorkerId g + 1)%Z;
           _ ← agent_do (λ g, set_workers (fa_workers g) workerId (fa_scaleInWorkerId g) g);
           p ← agent_get fa_parallelLeve;
           _ ← agent_do (count_by 0 p 0);
           worker ← pure_ (FuncWorker_New p (Z.max 10 keepaliveTime));
           _ ← agent_do (λ g, set_tasks (<[workerId := worker]> (fa_tasks g)) g);
           agent_do (AddWorker workerId)) (λ _ s', Step g sh s'.1 s'.2) (g, sh')) as Hrun.
  { intros sh' Hq Hle Hcp. apply run_bind, run_agent_get, run_bind, run_agent_get, run_bind, run_do, run_bind, run_agent_get.
    apply run_bind, run_do, run_bind, run_pure.
    pose proof (FuncWorker_New_spec (fa_parallelLeve g) (Z.max 10 (fa_scaleinTimeout g))) as Hn.
    cbn [fa_parallelLeve set_workers]. destruct (FuncWorker_New _ _) as [w| |]; [subst w|done|by apply HP].
    apply run_bind, run_do, run_do. by apply (with_worker_Step (Z.max 10 (fa_scaleinTimeout g)) g sh sh'). }
  apply run_bind. unfold run at 1, TryAcquireEndpointLease. simpl.
  destruct (ac_endpointLeaseKey (fa_config g)) as [key|] eqn:Hkey.
  - pose proof (λ k, Lease_TryAcquire_count key k (max_replica repo g) (sh_leases sh)) as Hc.
    destruct (Lease_TryAcquire _ _ _) as [[] leases] eqn:Ht; simpl in *.
    + apply Hrun; [done| |].
      * intros k. simpl. rewrite Hc. destruct (decide (key = k)); case_decide; try congruence; lia.
      * intros k [= <-]. specialize (Hcap key eq_refl). revert Ht. unfold Lease_TryAcquire, Lease_Count. case_decide; [done|]. lia.
    + assert (leases = sh_leases sh) as ->.
      { revert Ht. unfold Lease_TryAcquire. case_decide; congruence. }
      apply run_ret. assert (set_leases (sh_leases sh) sh = sh) as -> by by destruct sh. by apply Step_refl.
  - apply Hrun; [done| |done]. intros k. rewrite decide_False by done. lia.
Qed.

(** ** Every step of an agent *)

Lemma CleanTimeout_split now q : (CleanTimeout now q).1 ++ (CleanTimeout now q).2 = q.
Proof. induction q as [|r q IH]; simpl; [done|]. case_decide; [|done]. destruct (CleanTimeout now q). simpl in *. by rewrite IH. Qed.

(** What makes an agent's task panic: its slots do not fit, or the policy allows
    no request at a time, or too many for a channel. *)
Definition agent_panics (ev : AgentEvent (F:=F)) g : Prop :=
  match ev with
  | AHead _ => ¬ fits usize (Z.of_nat (size (fa_workers g)) * fa_parallelLeve g)
      ∨ ¬ (0 < fa_parallelLeve g * 2 ≤ ty_max usize / 8)%Z
  | _ => False
  end.
(** The input is good: an endpoint is allowed at most [cap] replicas; a policy
    is of its type, and the one that is in force when all allow the same number
    of requests. *)
Definition agent_input (ev : AgentEvent (F:=F)) g : Prop :=
  match ev with
  | AHead repo => ∀ key, ac_endpointLeaseKey (fa_config g) = Some key → (max_replica repo g ≤ cap key)%Z
  | APolicy repo => fits usize (fa_parallelLeve (UpdatePolicy repo g)) ∧ ∀ p, calm = Some p → fa_parallelLeve (UpdatePolicy repo g) = p
  | _ => True
  end.

(** The agent only moves on. *)
Lemma pc_Step g sh tokens close pc : Inv g → Step g sh (set_task_pc tokens close pc g) sh.
Proof.
  intros Hg. apply Queues_Step; [done|]. split; try done; simpl.
  - rewrite (cast_active calm g Hg) at 1. f_equal. lia.
  - exact (cast_total calm g Hg).
  - exact (cast_starting calm g Hg).
  - apply (iv_parallel _ g Hg).
Qed.
Lemma run_agent_pc P pc g sh g0 sh0 :
  Step g0 sh0 g sh → run P (set_agent_pc pc) (λ _ s', Step g0 sh0 s'.1 s'.2) (g, sh).
Proof. intros Hs. apply run_do. eapply Step_trans; [exact Hs|]. apply pc_Step, Hs. Qed.

Lemma cleaned_Step g sh (out rest : list FuncClientReq) (answer : FuncClientReq → Answer) :
  Inv g → out ++ rest = fa_reqQueue g →
  Step g sh (count_by 0 0 (- Z.of_nat (length out)) (set_reqs (fa_reqQueueTx g) rest g))
    (add_answers ((λ r, (cr_tx r, answer r)) <$> out) sh).
Proof.
  intros Hg Hq. apply Queues_Step; [done|]. split; try done; simpl.
  - rewrite <-Hq, length_app. f_equal. lia.
  - f_equal. lia.
  - f_equal. lia.
  - apply (iv_parallel _ g Hg).
  - rewrite <-Hq, !fmap_app, <-list_fmap_compose. simpl. solve_Permutation.
Qed.

Lemma agent_head_ok P repo g sh :
  pre g sh → agent_input (AHead repo) g → (agent_panics (AHead repo) g → P) → run P (agent_head repo) (λ _ s', Step g sh s'.1 s'.2) (g, sh).
Proof.
  intros Hpre Hcap HP. simpl in Hcap. pose proof (CleanTimeout_split (ms (sh_now sh)) (fa_reqQueue g)) as Hq.
  apply run_bind, run_gets, run_bind, run_agent_get. cbn [compose snd].
  destruct (CleanTimeout (ms (sh_now sh)) (fa_reqQueue g)) as [out rest]. simpl in Hq.
  apply run_bind, run_do, run_bind, run_shared, run_bind, run_do, run_bind, run_read. cbn [fst snd].
  pose proof (cleaned_Step g sh out rest (λ r, AError (Share.Timeout (cr_timeout r))) (proj1 Hpre) Hq) as Hs.
  set (g1 := count_by _ _ _ _) in *. set (sh1 := add_answers _ _) in *.
  assert (fa_workers g1 = fa_workers g ∧ fa_parallelLeve g1 = fa_parallelLeve g
    ∧ max_replica repo g1 = max_replica repo g) as (Hw1 & Hp1 & Hm1) by done. clearbody g1 sh1.
  unfold NeedNewWorker, TotalSlot. rewrite Hw1, Hp1.
  destruct (decide (fits usize (Z.of_nat (size (fa_workers g)) * fa_parallelLeve g))) as [Hf|Hf];
    [rewrite chk_fits by done|unfold chk; rewrite decide_False by done; apply HP; by left]. simpl.
  destruct (fa_scaleoutPolicy g1) as [ratio]. apply run_bind.
  assert (∀ (b : bool), run P (if b then Throttle_TryAcquire else mret false)
    (λ (token : bool) s', Step g sh s'.1 s'.2 ∧ fa_parallelLeve s'.1 = fa_parallelLeve g
      ∧ max_replica repo s'.1 = max_replica repo g) (g1, sh1)) as Htok.
  { intros []; [|done]. unfold run, Throttle_TryAcquire. simpl. case_decide; [|done].
    split; [|done]. eapply Step_trans; [exact Hs|]. apply pc_Step, Hs. }
  eapply run_mono; [apply Htok|]. intros token [g2 sh2] (Hs2 & Hp2 & Hm2). simpl in Hs2, Hp2, Hm2. apply run_bind.
  destruct token; [|by apply run_ret, run_agent_pc].
  eapply run_mono; [apply (NewWorker_ok P repo g2 sh2)|].
  - by eapply Step_pre.
  - rewrite Hm2, (sp_config _ _ _ _ _ _ Hs2). done.
  - rewrite Hp2. intros Hp. apply HP. by right.
  - intros [] [g3 sh3] Hs3. apply run_agent_pc. by eapply Step_trans.
Qed.

(** The channel's requests go to the queue, one by one. *)
Lemma enqueues_ok P l g sh :
  Inv (set_reqs l (fa_reqQueue g) g) → fa_reqQueueTx g = [] →
  run P (eachM enqueue l) (λ _ s', Step (set_reqs l (fa_reqQueue g) g) sh s'.1 s'.2) (g, sh).
Proof.
  revert g sh. induction l as [|r l IH]; intros g sh Hg Htx; simpl.
  { apply run_ret. assert (set_reqs [] (fa_reqQueue g) g = g) as Heq by (destruct g; simpl in *; by subst).
    rewrite Heq in Hg |- *. by apply Step_refl. }
  apply run_bind. unfold enqueue. apply run_bind. unfold run at 1, Queue_Send. simpl.
  destruct (decide (fa_queueLen g ≤ Z.of_nat (length (fa_reqQueue g)))%Z).
  - apply run_ret.
    assert (Step (set_reqs (r :: l) (fa_reqQueue g) g) sh (set_reqs l (fa_reqQueue g) g)
      (add_answers [(cr_tx r, AError Share.QueueFull)] sh)) as Hs.
    { apply Queues_Step; [done|]. split; try done; simpl.
      - etrans; [exact (cast_active calm _ Hg)|]. simpl. f_equal. lia.
      - exact (cast_total calm _ Hg).
      - exact (cast_starting calm _ Hg).
      - apply (iv_parallel _ _ Hg).
      - rewrite !fmap_app. simpl. solve_Permutation. }
    eapply run_mono; [apply IH; [apply Hs|done]|]. intros [] s' Hs'. by eapply Step_trans.
  - apply run_do. rewrite Htx.
    set (g1 := count_by 0 0 1 (set_reqs [] (fa_reqQueue g ++ [r]) g)).
    assert (Step (set_reqs (r :: l) (fa_reqQueue g) g) sh (set_reqs l (fa_reqQueue g1) g1) sh) as Hs.
    { apply Queues_Step; [done|]. split; try done; simpl.
      - rewrite length_app. simpl. f_equal. lia.
      - f_equal. lia.
      - f_equal. lia.
      - apply (iv_parallel _ _ Hg).
      - rewrite !fmap_app. simpl. solve_Permutation. }
    eapply run_mono; [apply (IH g1 sh); [apply Hs|done]|]. intros [] s' Hs'. by eapply Step_trans.
Qed.

(** An update of a worker is taken from the channel. *)
Lemma update_Step u us g sh workers scalein returns :
  Inv g → fa_updates g = u :: us →
  (workers = fa_workers g ∨ ∃ i w, workers = fa_workers g ∖ {[i]} ∧ fa_tasks g !! i = Some w ∧ fw_pc w = PEnd) →
  returns.*1 ++ omap ended_by us ≡ₚ (fa_returns g).*1 ++ omap ended_by (u :: us) →
  (∀ j, j ∈ workers → u ≠ UIdleTimeout j) →
  Step g sh (set_returns returns (set_workers workers (fa_nextWorkerId g) scalein (set_updates us (fa_dropped g) g))) sh.
Proof.
  intros Hg Hu Hw Htr Hidle. apply Queues_Step; [done|]. split; try done; simpl.
  - rewrite (cast_active calm g Hg) at 1. f_equal. lia.
  - exact (cast_total calm g Hg).
  - exact (cast_starting calm g Hg).
  - apply (iv_parallel _ g Hg).
  - destruct Hw as [->|(i & w & -> & _)]; set_solver.
  - intros j w Hj Ht Hpc. destruct Hw as [->|(i & w' & -> & Hi & Hpc')]; [done|].
    apply elem_of_difference. split; [done|]. intros ->%elem_of_singleton. congruence.
  - unfold trail. simpl. rewrite Hu, !omap_app. simpl in Htr. rewrite !(assoc_L (++)). apply Permutation_app_tail.
    rewrite Htr. simpl. by destruct (ended_by u).
  - intros j Hj. rewrite Hu, !elem_of_app, elem_of_cons. intros [[Heq|?]|?]; auto. by destruct (Hidle j Hj).
  - intros v. rewrite Hu, !elem_of_app, elem_of_cons. tauto.
Qed.
Lemma update_ended u us g i : Inv g → fa_updates g = u :: us → ended_by u = Some i ∨ (∃ e, u = UWorkerLeaseFail i e) →
  ∃ w, fa_tasks g !! i = Some w ∧ fw_pc w = PEnd.
Proof.
  intros Hg Hu [Hi|[e ->]].
  - assert (i ∈ trail g) as Hin.
    { unfold trail. rewrite Hu. simpl. rewrite Hi. apply elem_of_app. right. by left. }
    apply (iv_trail_in _ g Hg) in Hin as (w & ? & ? & ?). eauto.
  - apply (iv_refused _ g Hg i e). rewrite Hu. by left.
Qed.
Lemma worker_update_ok P u us g sh :
  Inv g → fa_updates g = u :: us →
  run P (worker_update u) (λ _ s', Step g sh s'.1 s'.2) (set_updates us (fa_dropped g) g, sh).
Proof.
  intros Hg Hu. destruct u as [i|i e|i e|i].
  - apply run_ret. eapply (update_Step _ us g sh (fa_workers g) (fa_scaleInWorkerId g) (fa_returns g)); try done. by left.
  - apply run_bind, run_do, run_do. cbn [fst snd].
    eapply (update_Step _ us g sh (fa_workers g ∖ {[i]}) (ScaleInWorkerId (fa_workers g ∖ {[i]})) (fa_returns g ++ [(i, true)])); try done.
    + right. destruct (update_ended _ _ g i Hg Hu) as (w & ? & ?); [by left|]. eauto.
    + simpl. rewrite fmap_app. simpl. by rewrite <-(assoc_L (++)).
  - apply run_do. cbn [fst snd].
    assert (RemoveWorker i (set_updates us (fa_dropped g) g) = set_returns (fa_returns g) (set_workers (fa_workers g ∖ {[i]})
      (fa_nextWorkerId g) (ScaleInWorkerId (fa_workers g ∖ {[i]})) (set_updates us (fa_dropped g) g))) as -> by done.
    eapply (update_Step _ us g sh (fa_workers g ∖ {[i]}) (ScaleInWorkerId (fa_workers g ∖ {[i]})) (fa_returns g)); try done.
    right. destruct (update_ended _ _ g i Hg Hu) as (w & ? & ?); [by right; eauto|]. eauto.
  - apply run_bind, run_do, run_do. cbn [fst snd].
    eapply (update_Step _ us g sh (fa_workers g ∖ {[i]}) (ScaleInWorkerId (fa_workers g ∖ {[i]})) (fa_returns g ++ [(i, false)])); try done.
    + right. destruct (update_ended _ _ g i Hg Hu) as (w & ? & ?); [by left|]. eauto.
    + simpl. rewrite fmap_app. simpl. by rewrite <-(assoc_L (++)).
    + intros j [_ Hj]%elem_of_difference [= ->]. set_solver.
Qed.

Lemma agent_step_ok ev g sh :
  pre g sh → agent_enabled ev g = true → agent_input ev g →
  run (agent_panics ev g) (agent_step ev) (λ _ s', Step g sh s'.1 s'.2) (g, sh).
Proof.
  intros Hpre Hen Hin. pose proof (proj1 Hpre) as Hg. set (P := agent_panics ev g).
  assert (agent_panics ev g → P) as HP by done. clearbody P.
  destruct ev as [repo| | |repo| |]; unfold agent_enabled in Hen.
  - by apply agent_head_ok.
  - apply run_bind, run_agent_get, run_bind, run_shared, run_bind, run_do, run_do. cbn [fst snd].
    match goal with |- Step g sh (set_task_pc _ _ _ ?g') ?sh' => assert (Step g sh g' sh') as Hs end.
    { apply Queues_Step; [done|]. split; try done; simpl.
      * rewrite (cast_active calm g Hg) at 1. f_equal. lia.
      * exact (cast_total calm g Hg).
      * exact (cast_starting calm g Hg).
      * apply (iv_parallel _ g Hg).
      * unfold trail. simpl. rewrite !omap_app. solve_Permutation.
      * intros j _. rewrite !elem_of_app. tauto.
      * intros u. rewrite !elem_of_app. tauto.
      * rewrite !fmap_app, <-list_fmap_compose. simpl. solve_Permutation. }
    eapply Step_trans; [exact Hs|]. apply pc_Step, Hs.
  - apply run_bind, run_agent_get, run_bind, run_do, run_bind.
    assert (set_reqs (fa_reqQueueTx g) (fa_reqQueue g) g = g) as Heq by by destruct g.
    eapply run_mono; [apply (enqueues_ok P (fa_reqQueueTx g) (set_reqs [] (fa_reqQueue g) g) sh); [by destruct g|done]|].
    intros [] [g' sh'] Hs. apply run_agent_pc. by destruct g.
  - apply run_bind, run_do, run_agent_pc. destruct Hin as [Hf Hc]. apply Queues_Step; [done|]. split; try done; simpl.
    + rewrite (cast_active calm g Hg) at 1. f_equal. lia.
    + exact (cast_total calm g Hg).
    + exact (cast_starting calm g Hg).
  - by apply run_agent_pc, Step_refl.
  - apply run_bind, run_agent_get. destruct (fa_updates g) as [|u us] eqn:Hu; [by apply run_ret, Step_refl|].
    apply run_bind, run_do, run_bind. eapply run_mono; [by apply worker_update_ok|].
    intros [] [g' sh'] Hs. by apply run_agent_pc.
Qed.
End steps.
