(* ===== verification/Gateway.v ===== *)
(** * A gateway
      (ixshare/src/gateway/func_agent_mgr.rs)

    The manager of agents with all agents it ever started, and the runs of the
    whole gateway: any interleaving of steps of its tasks, of clients that ask
    for a connection or drop one, and of time. *)

From S2P Require Import Prelude.
From S2P Require Import Text.
From S2P Require Import BTree.
From S2P Require Import Common.
From S2P Require Import DataObj.
From S2P Require Import Resource.
From S2P Require Import Specs.
From S2P Require Import Worker.
From S2P Require Import Billing.
From S2P Require Import FuncAgent.
From S2P Require Import GatewayTasks.
From S2P Require Import GatewayInv.
From S2P Require Import GatewaySteps.
From S2P Require Import AgentSteps.

(** ixshare/src/gateway/func_agent_mgr.rs:254-257 [PodLeaseInfo] *)
Record PodLeaseInfo := MkPodLeaseInfo { leased_pod : bool; endpoint_consumer_tenant : option string }.

Section gateway.
Context {F : Type} `{FloatLit F, GatewayFloat F, GatewayConfig F}.
Implicit Types (g : FuncAgent (F:=F)) (sh : Shared) (i : Z) (n : nat).

(** ixshare/src/gateway/func_agent_mgr.rs:244-248 [FuncAgentMgrInner]: the map holds numbers of agents; an agent that was retired
    goes on until its tasks end *)
Record Gateway := MkGateway { gw_current : gmap string nat; gw_agents : list (FuncAgent (F:=F)); gw_shared : Shared }.
Implicit Types (gw : Gateway).
Definition Gateway_New : Gateway := MkGateway ∅ [] (MkShared ∅ 0 [] [] 0 0 0).

Definition on_agent n (f : FuncAgent → FuncAgent) gw : Gateway := MkGateway (gw_current gw) (alter f n (gw_agents gw)) (gw_shared gw).
(** A call of a task of the agent. *)
Definition at_agent {A} n (m : sm (FuncAgent (F:=F) * Shared) Share.Error A) gw : outcome Share.Error A * Gateway :=
  match gw_agents gw !! n with
  | None => (Panic "no agent", gw)
  | Some g => let '(r, (g', sh')) := m (g, gw_shared gw) in
              (r, MkGateway (gw_current gw) (<[n := g']> (gw_agents gw)) sh')
  end.

(** [notify_one] on what closes an agent and its registered workers *)
Definition close_agent g : FuncAgent :=
  let g := foldr (λ i, on_task i (set_close true)) g (set_elems (fa_workers g)) in
  set_task_pc (fa_tokens g) true (fa_pc g) g.
(** ixshare/src/gateway/func_agent_mgr.rs:339-354 [FuncAgentMgr::RetireAgent] *)
Definition RetireAgent (funcId : string) gw : Gateway :=
  match gw_current gw !! funcId with
  | None => gw
  | Some n => on_agent n close_agent (MkGateway (delete funcId (gw_current gw)) (gw_agents gw) (gw_shared gw))
  end.
(** The keys [GetClient] takes for those of other versions of the function. *)
Definition stale_agents (route : FuncRouteTarget (F:=F)) gw : list string :=
  filter (λ key, starts_with (FuncIdentity_Prefix (rt_logical route)) key = true ∧ key ≠ AgentKey route) (keys (gw_current gw)).
(** The agent of the key, a new one if there is none. *)
Definition agent_of (route : FuncRouteTarget (F:=F)) gw : nat * Gateway :=
  match gw_current gw !! AgentKey route with
  | Some n => (n, gw)
  | None => (length (gw_agents gw),
             MkGateway (<[AgentKey route := length (gw_agents gw)]> (gw_current gw)) (gw_agents gw ++ [FuncAgent_New route]) (gw_shared gw))
  end.
(** ixshare/src/gateway/func_agent_mgr.rs:278-337 [FuncAgentMgr::GetClient]: up to the wait for the answer; the request gets the
    next number *)
Definition GetClient (route : FuncRouteTarget (F:=F)) (timeout timestamp : Z) gw : Gateway :=
  let stale := stale_agents route gw in
  let '(n, gw) := agent_of route gw in
  let gw := foldl (λ gw funcId, RetireAgent funcId gw) gw stale in
  let sh := gw_shared gw in
  let tx := sh_reqs sh in
  let gw := MkGateway (gw_current gw) (gw_agents gw) (set_numbers (S tx) (sh_uuids sh) (sh_conns sh) (sh_now sh) sh) in
  match at_agent n (EnqReq (rt_caller_tenant route) timestamp timeout tx) gw with
  | (Err e, gw) => MkGateway (gw_current gw) (gw_agents gw) (add_answers [(tx, AError e)] (gw_shared gw))
  | (_, gw) => gw
  end.
(** ixshare/src/gateway/func_agent_mgr.rs:370-417 [FuncAgentMgr::PodLeaseState] *)
Definition PodLeaseState gw : gmap string PodLeaseInfo :=
  let agents := omap (λ key, n ← gw_current gw !! key; gw_agents gw !! n) (keys (gw_current gw)) in
  foldl (λ leases g,
    let c := fa_config g in
    foldl (λ leases i,
      match fa_tasks g !! i with
      | None => leases
      | Some w =>
          if decide (fw_id w < 0)%Z then leases else
          let pod_key := ac_physicalTenant c +:+ "/" +:+ ac_physicalNamespace c +:+ "/" +:+ ac_physicalFuncName c +:+ "/"
            +:+ pretty (ac_funcVersion c) +:+ "/" +:+ pretty (fw_id w) in
          let consumer := if bool_decide (ac_physicalTenant c = "inferx") && bool_decide (ac_physicalNamespace c = "endpoint")
                          then Some (ac_tenant c) else None in
          <[pod_key := MkPodLeaseInfo true consumer]> leases
      end) leases (set_elems (fa_workers g))) ∅ agents.

(** ** Runs *)

Inductive Event :=
| GClient (route : FuncRouteTarget (F:=F)) (timeout timestamp : Z)
| GRetire (funcId : string)
| GAgent (n : nat) (ev : AgentEvent (F:=F))
| GWorker (n : nat) (i : Z) (ev : WorkerEvent (F:=F))
| GDrop (n : nat) (i : Z) (conn : nat)
| GRefill (n : nat)
| GTime (now : Z).

Definition enabled (ev : Event) gw : bool :=
  match ev with
  | GClient _ _ _ | GRetire _ => true
  | GAgent n ev => match gw_agents gw !! n with Some g => agent_enabled ev g | None => false end
  | GWorker n i ev => match gw_agents gw !! n with Some g => worker_enabled i ev g (gw_shared gw) | None => false end
  | GDrop n i conn =>
      match gw_agents gw !! n with
      | Some g => match fa_tasks g !! i with Some w => bool_decide (conn ∈ fw_clients w) | None => false end
      | None => false
      end
  | GRefill n => bool_decide (n < length (gw_agents gw))
  | GTime now => bool_decide (sh_now (gw_shared gw) ≤ now)%Z
  end.
Definition gw_step (ev : Event) gw : Share.Result unit * Gateway :=
  match ev with
  | GClient route timeout timestamp => (Ok tt, GetClient route timeout timestamp gw)
  | GRetire funcId => (Ok tt, RetireAgent funcId gw)
  | GAgent n ev => at_agent n (agent_step ev) gw
  | GWorker n i ev => at_agent n (worker_step i ev) gw
  | GDrop n i conn => (Ok tt, on_agent n (on_task i (QHttpCallClient_drop conn)) gw)
  | GRefill n => (Ok tt, on_agent n Throttle_Refill gw)
  | GTime now => let sh := gw_shared gw in
      (Ok tt, MkGateway (gw_current gw) (gw_agents gw) (set_numbers (sh_reqs sh) (sh_uuids sh) (sh_conns sh) now sh))
  end.
End gateway.
