(* ===== verification/GatewayRuns.v ===== *)
(** * What holds in every run of a gateway *)

From S2P Require Import Prelude.
From S2P Require Import Text.
From S2P Require Import BTree.
From S2P Require Import Common.
From S2P Require Import DataObj.
From S2P Require Import Resource.
From S2P Require Import Specs.
From S2P Require Import Worker.
From S2P Require Import Billing.
From S2P Require Import FuncAgent.
From S2P Require Import GatewayTasks.
From S2P Require Import GatewayInv.
From S2P Require Import GatewaySteps.
From S2P Require Import AgentSteps.
From S2P Require Import Gateway.

(** A sum over a list, when one element changes. *)
Definition lsum {A} (f : A → Z) (l : list A) : Z := foldr (λ a acc, f a + acc)%Z 0%Z l.
Lemma lsum_app {A} (f : A → Z) l1 l2 : lsum f (l1 ++ l2) = (lsum f l1 + lsum f l2)%Z.
Proof. induction l1 as [|a l1 IH]; simpl; [done|]. unfold lsum in *. simpl. rewrite IH. lia. Qed.
Lemma lsum_split {A} (f : A → Z) l n a b :
  l !! n = Some a → lsum f (<[n := b]> l) = (lsum f l - f a + f b)%Z.
Proof.
  intros Hn. assert (n < length l) as Hlt by by eapply lookup_lt_Some.
  rewrite insert_take_drop by done. rewrite <-(take_drop_middle l n a Hn) at 3.
  rewrite !lsum_app. simpl. unfold lsum. lia.
Qed.
Lemma lsum_nonneg {A} (f : A → Z) l : (∀ a, 0 ≤ f a)%Z → (0 ≤ lsum f l)%Z.
Proof. intros Hf. induction l as [|a l IH]; simpl; [done|]. specialize (Hf a). unfold lsum in *. lia. Qed.
Lemma lsum_bound {A} (f : A → Z) l n a : (∀ a, 0 ≤ f a)%Z → l !! n = Some a → (f a ≤ lsum f l)%Z.
Proof.
  intros Hf Hn. rewrite <-(take_drop_middle l n a Hn), lsum_app. simpl.
  pose proof (lsum_nonneg f (take n l) Hf). pose proof (lsum_nonneg f (drop (S n) l) Hf). unfold lsum in *. simpl. lia.
Qed.
Lemma concat_split {A B} (f : A → list B) l n a b :
  l !! n = Some a → ∃ rest, concat (f <$> l) ≡ₚ f a ++ rest ∧ concat (f <$> <[n := b]> l) ≡ₚ f b ++ rest.
Proof.
  intros Hn. assert (n < length l) as Hlt by by eapply lookup_lt_Some.
  exists (concat (f <$> take n l) ++ concat (f <$> drop (S n) l)). rewrite insert_take_drop by done.
  rewrite <-(take_drop_middle l n a Hn) at 1. rewrite !fmap_app, !concat_app. simpl. split; solve_Permutation.
Qed.
Lemma NoDup_submseteq {A} (l k : list A) : l ⊆+ k → NoDup k → NoDup l.
Proof. intros [r Hr]%submseteq_Permutation Hk. rewrite Hr in Hk. by apply NoDup_app in Hk as [? _]. Qed.

Section runs.
Context {F : Type} `{FloatLit F, GatewayFloat F, GatewayConfig F}.
(** How many requests at a time the policies of an agent allow, when they agree;
    how many replicas an endpoint may have. *)
Context (allowed : AgentConfig (F:=F) → option Z) (cap : string → Z).
Implicit Types (g : FuncAgent (F:=F)) (sh : Shared) (i : Z) (n : nat) (gw : Gateway (F:=F)).
Definition calm g : option Z := allowed (fa_config g).

(** Policies are of their type, and as [allowed] and [cap] say. *)
Definition good_input (ev : Event (F:=F)) gw : Prop :=
  match ev with
  | GClient route _ _ =>
      let g := FuncAgent_New route in
      fits usize (fa_parallelLeve g) ∧ ∀ p, calm g = Some p → fa_parallelLeve g = p ∧ (0 < p)%Z
  | GAgent n ev => ∀ g, gw_agents gw !! n = Some g → agent_input (calm g) cap ev g
  | _ => True
  end.
(** The states a gateway comes to, as long as none of its tasks panics. *)
Inductive gw_reachable : Gateway (F:=F) → Prop :=
| gw_start : gw_reachable Gateway_New
| gw_next gw ev gw' :
    gw_reachable gw → enabled ev gw = true → good_input ev gw → gw_step ev gw = (Ok tt, gw') → gw_reachable gw'.

(** ** The invariant *)

Record GwInv gw : Prop := {
  gi_agent n g : gw_agents gw !! n = Some g → AgentInv (calm g) g;
  gi_leases key : Lease_Count key (sh_leases (gw_shared gw)) = lsum (mine key) (gw_agents gw);
  gi_cap key : (Lease_Count key (sh_leases (gw_shared gw)) ≤ Z.max 0 (cap key))%Z;
  gi_requests : (sh_answers (gw_shared gw)).*1 ++ concat (pending <$> gw_agents gw) ≡ₚ seq 0 (sh_reqs (gw_shared gw));
  gi_conns : NoDup (concat (agent_conns <$> gw_agents gw));
  gi_positive n g p : gw_agents gw !! n = Some g → calm g = Some p → (0 < p)%Z;
  gi_fresh c : c ∈ concat (agent_conns <$> gw_agents gw) → c < sh_conns (gw_shared gw);
}.

Lemma gi_pre gw n g : GwInv gw → gw_agents gw !! n = Some g → pre (calm g) g (gw_shared gw).
Proof.
  intros Hi Hn. split; [by eapply gi_agent|]. intros key. rewrite (gi_leases gw Hi).
  apply (lsum_bound (mine key) _ n); [|done]. intros ?. apply mine_nonneg.
Qed.
(** A step of one agent. *)
Lemma GwInv_step gw n g g' sh' :
  GwInv gw → gw_agents gw !! n = Some g → Step (calm g) cap g (gw_shared gw) g' sh' →
  GwInv (MkGateway (gw_current gw) (<[n := g']> (gw_agents gw)) sh').
Proof.
  intros Hi Hn Hs. assert (n < length (gw_agents gw)) as Hlt by by eapply lookup_lt_Some.
  destruct (concat_split pending _ n g g' Hn) as (rp & Hp & Hp').
  destruct (concat_split agent_conns _ n g g' Hn) as (rc & Hc & Hc').
  assert (concat (agent_conns <$> <[n:=g']> (gw_agents gw)) ⊆+
    concat (agent_conns <$> gw_agents gw) ++ seq (sh_conns (gw_shared gw)) (sh_conns sh' - sh_conns (gw_shared gw))) as Hsub.
  { rewrite Hc', Hc. etrans; [apply submseteq_app; [apply Hs|reflexivity]|].
    apply Permutation_submseteq. solve_Permutation. }
  split; simpl.
  - intros m gm. destruct (decide (m = n)) as [->|Hne].
    + rewrite list_lookup_insert_eq by done. intros [= <-]. unfold calm. rewrite (sp_config _ _ _ _ _ _ Hs). apply Hs.
    + rewrite list_lookup_insert_ne by done. apply (gi_agent gw Hi).
  - intros key. rewrite (lsum_split _ _ _ _ _ Hn), <-(gi_leases gw Hi). pose proof (sp_leases _ _ _ _ _ _ Hs key). lia.
  - intros key. pose proof (gi_cap gw Hi key). pose proof (sp_cap _ _ _ _ _ _ Hs key). lia.
  - rewrite (sp_reqs _ _ _ _ _ _ Hs), <-(gi_requests gw Hi), Hp', Hp, !(assoc_L (++)), (sp_answers _ _ _ _ _ _ Hs). done.
  - eapply NoDup_submseteq; [exact Hsub|]. apply NoDup_app. split_and!; [apply (gi_conns gw Hi)| |apply NoDup_seq].
    intros c Hin%(gi_fresh gw Hi) [? ?]%elem_of_seq. lia.
  - intros m gm p. destruct (decide (m = n)) as [->|Hne].
    + rewrite list_lookup_insert_eq by done. intros [= <-]. unfold calm. rewrite (sp_config _ _ _ _ _ _ Hs).
      by apply (gi_positive gw Hi n).
    + rewrite list_lookup_insert_ne by done. apply (gi_positive gw Hi).
  - intros c Hin. pose proof (sp_fresh _ _ _ _ _ _ Hs). pose proof (elem_of_submseteq _ _ _ Hin Hsub) as Hx.
    apply elem_of_app in Hx as [Hx%(gi_fresh gw Hi)|Hx%elem_of_seq]; lia.
Qed.

(** ** Clients and retired agents *)

Lemma close_task_Step c i g sh : AgentInv c g → Step c cap g sh (on_task i (set_close true) g) sh.
Proof.
  intros Hg. destruct (fa_tasks g !! i) as [w|] eqn:Hi.
  - rewrite (on_task_put i _ g w Hi). eapply (Changes_at _ _ _ _ _ _ i); [done|exact Hi|reflexivity|].
    split; try done; simpl.
    + rewrite (cast_active _ g Hg) at 1. f_equal. unfold load, live. simpl. lia.
    + rewrite (cast_total _ g Hg) at 1. f_equal. unfold slots, live. simpl. lia.
    + rewrite (cast_starting _ g Hg) at 1. f_equal. unfold starting. simpl. lia.
    + destruct (iv_worker _ g Hg i w Hi) as [? ? ? ? ?]. split; done.
    + destruct (decide (fw_pc w = PEnd ∧ fw_state w = FFinish)) as [Hf|Hf]; [left|right; left]; unfold finished; simpl; auto.
    + intros Hpc. by apply (iv_ghost _ g Hg i w).
    + intros j e Hj. by left.
    + intros key. unfold unreleased. simpl. case_decide; lia.
    + by apply submseteq_inserts_r.
  - assert (on_task i (set_close true) g = g) as ->; [|by apply Step_refl].
    unfold on_task. rewrite alter_id; [by destruct g|]. intros x. by rewrite Hi.
Qed.
Lemma close_agent_Step c g sh : AgentInv c g → Step c cap g sh (close_agent g) sh.
Proof.
  intros Hg. unfold close_agent. generalize (set_elems (fa_workers g)) as l. intros l.
  assert (Step c cap g sh (foldr (λ i, on_task i (set_close true)) g l) sh) as Hs.
  { induction l as [|i l IH]; simpl; [by apply Step_refl|]. eapply Step_trans; [exact IH|]. apply close_task_Step, IH. }
  eapply Step_trans; [exact Hs|]. apply pc_Step, Hs.
Qed.
Lemma GwInv_on_agent gw n f :
  GwInv gw → (∀ g, gw_agents gw !! n = Some g → Step (calm g) cap g (gw_shared gw) (f g) (gw_shared gw)) →
  GwInv (on_agent n f gw).
Proof.
  intros Hi Hf. unfold on_agent. destruct (gw_agents gw !! n) as [g|] eqn:Hn.
  - assert (alter f n (gw_agents gw) = <[n := f g]> (gw_agents gw)) as ->; [|by apply (GwInv_step gw n g); auto].
    apply list_eq. intros m. destruct (decide (m = n)) as [->|Hne].
    + rewrite list_lookup_alter_eq, Hn, list_lookup_insert_eq; [done|by eapply lookup_lt_Some].
    + by rewrite list_lookup_alter_ne, list_lookup_insert_ne.
  - assert (alter f n (gw_agents gw) = gw_agents gw) as ->; [|by destruct gw].
    apply list_eq. intros m. destruct (decide (m = n)) as [->|Hne]; [by rewrite list_lookup_alter_eq, Hn|by rewrite list_lookup_alter_ne].
Qed.
Lemma GwInv_current gw cur : GwInv gw → GwInv (MkGateway cur (gw_agents gw) (gw_shared gw)).
Proof. intros []. by split. Qed.
Lemma RetireAgent_inv funcId gw : GwInv gw → GwInv (RetireAgent funcId gw).
Proof.
  intros Hi. unfold RetireAgent. destruct (gw_current gw !! funcId); [|done].
  apply (GwInv_on_agent (MkGateway _ _ _)); [by apply GwInv_current|]. intros g Hn. by eapply close_agent_Step, gi_agent.
Qed.
Lemma RetireAgent_length funcId gw : length (gw_agents (RetireAgent funcId gw)) = length (gw_agents gw).
Proof. unfold RetireAgent. destruct (gw_current gw !! funcId); [|done]. simpl. by rewrite length_alter. Qed.

(** An agent that has done nothing yet. *)
Lemma FuncAgent_New_inv c (route : FuncRouteTarget (F:=F)) :
  fits usize (fa_parallelLeve (FuncAgent_New route)) → (∀ p, c = Some p → fa_parallelLeve (FuncAgent_New route) = p) →
  AgentInv c (FuncAgent_New route).
Proof.
  intros Hf Hp. split; simpl; try done.
  - intros i [w Hi]. by apply lookup_empty_Some in Hi.
  - apply NoDup_nil_2.
  - intros i. split; [by intros ?%elem_of_nil|]. intros (w & Hi & _). by apply lookup_empty_Some in Hi.
  - intros i e Hin. by apply elem_of_nil in Hin.
Qed.
Lemma agent_of_inv gw (route : FuncRouteTarget (F:=F)) :
  GwInv gw → good_input (GClient route 0 0) gw → GwInv (agent_of route gw).2.
Proof.
  intros Hi [Hf Hp]. unfold agent_of. destruct (gw_current gw !! AgentKey route); [done|].
  pose proof (FuncAgent_New_inv (calm (FuncAgent_New route)) route Hf (λ p Hc, proj1 (Hp p Hc))) as Hnew.
  split; simpl.
  - intros m g. rewrite lookup_app_Some, list_lookup_singleton_Some. intros [Hm|(_ & _ & <-)]; [by apply (gi_agent gw Hi m)|done].
  - intros key. rewrite lsum_app, <-(gi_leases gw Hi).
    assert (lsum (mine key) [FuncAgent_New route] = 0%Z) as ->; [|lia]. unfold lsum, mine. simpl. by case_decide.
  - apply (gi_cap gw Hi).
  - rewrite fmap_app, concat_app. simpl. rewrite app_nil_r. apply (gi_requests gw Hi).
  - rewrite fmap_app, concat_app. simpl. rewrite app_nil_r. apply (gi_conns gw Hi).
  - intros m g p. rewrite lookup_app_Some, list_lookup_singleton_Some.
    intros [Hm|(_ & _ & <-)] Hcp; [by apply (gi_positive gw Hi m g)|by apply Hp].
  - rewrite fmap_app, concat_app. simpl. rewrite app_nil_r. apply (gi_fresh gw Hi).
Qed.

Lemma agent_of_length gw (route : FuncRouteTarget (F:=F)) :
  (∀ key n, gw_current gw !! key = Some n → n < length (gw_agents gw)) →
  (agent_of route gw).1 < length (gw_agents (agent_of route gw).2).
Proof.
  intros Hc. unfold agent_of. destruct (gw_current gw !! AgentKey route) eqn:Hk; simpl; [by eapply Hc|].
  rewrite length_app. simpl. lia.
Qed.

(** The agents the manager knows are there. *)
Definition current_ok gw : Prop := ∀ key n, gw_current gw !! key = Some n → n < length (gw_agents gw).
Lemma agent_of_current gw (route : FuncRouteTarget (F:=F)) : current_ok gw → current_ok (agent_of route gw).2.
Proof.
  intros Hc. unfold agent_of. destruct (gw_current gw !! AgentKey route) eqn:Hk; [done|].
  intros key n. simpl. rewrite length_app. simpl. intros [[<- <-]|[_ Hn%Hc]]%lookup_insert_Some; lia.
Qed.
Lemma RetireAgent_current funcId gw : current_ok gw → current_ok (RetireAgent funcId gw).
Proof.
  intros Hc key n. rewrite RetireAgent_length. unfold RetireAgent. destruct (gw_current gw !! funcId); [|apply Hc].
  simpl. intros [_ Hn]%lookup_delete_Some. by eapply Hc.
Qed.
Lemma retire_all stale gw :
  GwInv gw → current_ok gw → let gw' := foldl (λ gw funcId, RetireAgent funcId gw) gw stale in
  GwInv gw' ∧ current_ok gw' ∧ length (gw_agents gw') = length (gw_agents gw).
Proof.
  revert gw. induction stale as [|k stale IH]; intros gw Hi Hc; simpl; [done|].
  destruct (IH (RetireAgent k gw) (RetireAgent_inv k gw Hi) (RetireAgent_current k gw Hc)) as (? & ? & ->).
  by rewrite RetireAgent_length.
Qed.

(** A request gets its number and goes to the agent's channel, or is refused. *)
Definition ask (n : nat) (caller : option string) (timestamp timeout : Z) gw : Gateway :=
  let sh := gw_shared gw in
  match at_agent n (EnqReq caller timestamp timeout (sh_reqs sh))
    (MkGateway (gw_current gw) (gw_agents gw) (set_numbers (S (sh_reqs sh)) (sh_uuids sh) (sh_conns sh) (sh_now sh) sh)) with
  | (Err e, gw) => MkGateway (gw_current gw) (gw_agents gw) (add_answers [(sh_reqs sh, AError e)] (gw_shared gw))
  | (_, gw) => gw
  end.
Lemma ask_inv n caller timestamp timeout gw :
  GwInv gw → n < length (gw_agents gw) → GwInv (ask n caller timestamp timeout gw).
Proof.
  intros Hi [g Hn]%lookup_lt_is_Some. set (tx := sh_reqs (gw_shared gw)).
  pose proof (gi_requests gw Hi) as Hr. fold tx in Hr.
  unfold ask, at_agent, EnqReq. simpl. rewrite Hn. simpl. case_decide; simpl; fold tx.
  - set (g' := set_reqs _ _ g). pose proof (gi_agent gw Hi n g Hn) as Hg.
    assert (AgentInv (calm g') g') as Hg' by (destruct Hg; by split).
    destruct (concat_split pending _ n g g' Hn) as (rp & Hp & Hp').
    destruct (concat_split agent_conns _ n g g' Hn) as (rc & Hc & Hc').
    assert (n < length (gw_agents gw)) by by eapply lookup_lt_Some.
    split; simpl.
    + intros m gm. destruct (decide (m = n)) as [->|Hne].
      * rewrite list_lookup_insert_eq by done. by intros [= <-].
      * rewrite list_lookup_insert_ne by done. apply (gi_agent gw Hi).
    + intros key. rewrite (lsum_split _ _ _ _ _ Hn), <-(gi_leases gw Hi). change (mine key g') with (mine key g). lia.
    + apply (gi_cap gw Hi).
    + fold tx. change (0 :: seq 1 tx) with (seq 0 (S tx)). rewrite seq_S. simpl. rewrite <-Hr, Hp', Hp. unfold pending. simpl.
      rewrite !fmap_app. simpl. solve_Permutation.
    + rewrite Hc'. change (agent_conns g') with (agent_conns g). rewrite <-Hc. apply (gi_conns gw Hi).
    + intros m gm p. destruct (decide (m = n)) as [->|Hne].
      * rewrite list_lookup_insert_eq by done. intros [= <-]. exact (gi_positive gw Hi n g p Hn).
      * rewrite list_lookup_insert_ne by done. apply (gi_positive gw Hi).
    + intros c. rewrite Hc'. change (agent_conns g') with (agent_conns g). rewrite <-Hc. apply (gi_fresh gw Hi).
  - assert (<[n:=g]> (gw_agents gw) = gw_agents gw) as -> by by apply list_insert_id.
    split; simpl.
    + apply (gi_agent gw Hi).
    + apply (gi_leases gw Hi).
    + apply (gi_cap gw Hi).
    + fold tx. change (0 :: seq 1 tx) with (seq 0 (S tx)). rewrite seq_S. simpl. rewrite <-Hr, fmap_app. simpl. solve_Permutation.
    + apply (gi_conns gw Hi).
    + apply (gi_positive gw Hi).
    + apply (gi_fresh gw Hi).
Qed.
Lemma GetClient_inv (route : FuncRouteTarget (F:=F)) timeout timestamp gw :
  GwInv gw → current_ok gw → good_input (GClient route timeout timestamp) gw →
  GwInv (GetClient route timeout timestamp gw) ∧ current_ok (GetClient route timeout timestamp gw).
Proof.
  intros Hi Hc Hgood. unfold GetClient. pose proof (agent_of_inv gw route Hi Hgood) as Hi1.
  pose proof (agent_of_current gw route Hc) as Hc1. pose proof (agent_of_length gw route Hc) as Hn.
  destruct (agent_of route gw) as [n gw1]. simpl in *.
  destruct (retire_all (stale_agents route gw) gw1 Hi1 Hc1) as (Hi2 & Hc2 & Hlen). simpl in *.
  set (gw2 := foldl _ gw1 _) in *. clearbody gw2. rewrite <-Hlen in Hn. split; [by apply ask_inv|].
  unfold at_agent. simpl. destruct (gw_agents gw2 !! n) as [g|] eqn:Hg; simpl; [|done].
  unfold EnqReq. case_decide; simpl; intros key m Hm; simpl; rewrite length_insert; by eapply Hc2.
Qed.

(** ** Every run *)

Lemma at_agent_inv P n (m : sm (FuncAgent (F:=F) * Shared) Share.Error unit) gw gw' g :
  GwInv gw → gw_agents gw !! n = Some g →
  run P m (λ _ s', Step (calm g) cap g (gw_shared gw) s'.1 s'.2) (g, gw_shared gw) →
  at_agent n m gw = (Ok tt, gw') → GwInv gw'.
Proof.
  intros Hi Hn Hrun. unfold at_agent. rewrite Hn. unfold run in Hrun.
  destruct (m (g, gw_shared gw)) as [[[]|e|w] [g' sh']]; intros [= <-]. by apply (GwInv_step gw n g).
Qed.
Lemma client_nodup gw n g i w : GwInv gw → gw_agents gw !! n = Some g → fa_tasks g !! i = Some w → NoDup (fw_clients w).
Proof.
  intros Hi Hn Hw. destruct (concat_split agent_conns _ n g g Hn) as (r & Hc & _).
  pose proof (gi_conns gw Hi) as Hnd. rewrite Hc in Hnd. apply NoDup_app in Hnd as (Hnd & _).
  unfold agent_conns in Hnd. rewrite (wcat_split _ _ _ _ Hw) in Hnd. apply NoDup_app in Hnd as (Hnd & _).
  unfold conns in Hnd. apply NoDup_app in Hnd as (_ & _ & Hnd). by apply NoDup_app in Hnd as (_ & _ & ?).
Qed.
Lemma at_agent_current {A} n (m : sm (FuncAgent (F:=F) * Shared) Share.Error A) gw : current_ok gw → current_ok (at_agent n m gw).2.
Proof.
  intros Hc. unfold at_agent. destruct (gw_agents gw !! n) as [g|] eqn:Hn; [|done].
  destruct (m (g, gw_shared gw)) as [r [g' sh']]. intros key k. simpl. rewrite length_insert. apply Hc.
Qed.
Lemma on_agent_current n f gw : current_ok gw → current_ok (on_agent n f gw).
Proof. intros Hc key k. simpl. rewrite length_alter. apply Hc. Qed.

Lemma gw_step_inv ev gw gw' :
  GwInv gw → current_ok gw → enabled ev gw = true → good_input ev gw → gw_step ev gw = (Ok tt, gw') → GwInv gw' ∧ current_ok gw'.
Proof.
  intros Hi Hc Hen Hgood. destruct ev as [route timeout timestamp|funcId|n ev|n i ev|n i conn|n|now]; simpl in *.
  - intros [= <-]. by apply GetClient_inv.
  - intros [= <-]. split; [by apply RetireAgent_inv|by apply RetireAgent_current].
  - intros Hs. split; [|by pose proof (at_agent_current n (agent_step ev) gw Hc) as Hc'; rewrite Hs in Hc'].
    destruct (gw_agents gw !! n) as [g|] eqn:Hn; [|done].
    eapply at_agent_inv; [done|exact Hn| |exact Hs]. apply agent_step_ok; [by eapply gi_pre|done|by apply Hgood].
  - intros Hs. split; [|by pose proof (at_agent_current n (worker_step i ev) gw Hc) as Hc'; rewrite Hs in Hc'].
    destruct (gw_agents gw !! n) as [g|] eqn:Hn; [|done].
    eapply at_agent_inv; [done|exact Hn| |exact Hs]. apply worker_step_ok; [by eapply gi_pre|done].
  - intros [= <-]. split; [|by apply on_agent_current]. apply GwInv_on_agent; [done|]. intros g Hn. rewrite Hn in Hen.
    destruct (fa_tasks g !! i) as [w|] eqn:Hw; [|done]. apply bool_decide_eq_true in Hen.
    rewrite (on_task_put i _ g w Hw). apply drop_ok; [by eapply gi_pre|done..| |].
    + by eapply client_nodup.
    + intros p Hp. by eapply gi_positive.
  - intros [= <-]. split; [|by apply on_agent_current]. apply GwInv_on_agent; [done|]. intros g Hn.
    unfold Throttle_Refill. destruct (decide (fa_tokens g < 2)%Z); [|by eapply Step_refl, gi_agent]. by eapply pc_Step, gi_agent.
  - intros [= <-]. split; [|done]. by destruct Hi.
Qed.
Lemma reachable_inv gw : gw_reachable gw → GwInv gw ∧ current_ok gw.
Proof.
  induction 1 as [|gw ev gw' _ [Hi Hc] Hen Hgood Hs]; [|by eapply gw_step_inv].
  split; [|intros key n Hk; simpl in Hk; by apply lookup_empty_Some in Hk]. split; simpl; try done.
  - intros key. unfold Lease_Count. rewrite lookup_empty. simpl. lia.
  - apply NoDup_nil_2.
  - by intros c ?%elem_of_nil.
Qed.
End runs.
