(* ===== verification/GatewayScenario.v ===== *)
(** * Runs of a small gateway

    The runs at which the properties of the gateway are evaluated. *)

From S2P Require Import Prelude.
From S2P Require Import Text.
From S2P Require Import BTree.
From S2P Require Import Common.
From S2P Require Import DataObj.
From S2P Require Import Resource.
From S2P Require Import Specs.
From S2P Require Import Worker.
From S2P Require Import Billing.
From S2P Require Import FuncAgent.
From S2P Require Import GatewayTasks.
From S2P Require Import GatewayInv.
From S2P Require Import GatewaySteps.
From S2P Require Import AgentSteps.
From S2P Require Import Gateway.
From S2P Require Import GatewayRuns.

(** Floats are not looked at; a worker more is needed when there are more
    requests than slots. *)
#[local] Instance gw_lit : FloatLit unit := λ _, tt.
#[local] Instance gw_float : GatewayFloat unit := {| over_ratio _ reqs slots := (slots <? reqs)%Z; to_millis _ := 1000%Z |}.
#[local] Instance gw_config : GatewayConfig unit :=
  {| gatewayId := 5%Z; endpointsDefaultPolicy := EndpointGatewayPolicySpec_default; uuid n := pretty n |}.
Abbreviation SampleGateway := (Gateway (F:=unit)).

Definition policy_of (par : Z) : FuncPolicySpec unit :=
  MkFuncPolicySpec 0 0 1 1 par 10 tt default_ScaleOutPolicy tt default_runtime_config.
Definition sample_obj {T} (tenant ns name : string) (o : T) : DataObject T := MkDataObject "" tenant ns name ∅ ∅ 0 1 1 o.
Definition gw_func (par : Z) (tenant ns nm : string) : Function unit :=
  sample_obj tenant ns nm (MkFuncObject (MkFuncSpec 1 (MkResources 100 4096 0 0 (MkGPUResource "Any" 1 14000 1))
    (MkStandby File File File) (DataObj.Obj (policy_of par))) (MkFuncObjStatus Normal 0 0)).
(** A tenant's endpoint, which a function of the platform backs. *)
Definition endpoint_route (par : Z) : FuncRouteTarget (F:=unit) :=
  MkRoute (MkFuncIdentity "t" "endpoints" "m" 1) (MkFuncIdentity "inferx" "endpoint" "m" 1) (gw_func par "inferx" "endpoint" "m")
    (policy_of par) (Some "t").
(** A tenant's own function. *)
Definition func_route (par : Z) (nm : string) : FuncRouteTarget (F:=unit) :=
  MkRoute (MkFuncIdentity "t" "ns" nm 1) (MkFuncIdentity "t" "ns" nm 1) (gw_func par "t" "ns" nm) (policy_of par) None.
Definition repo_of (par : Z) : GwObjRepo unit :=
  MkRepo ∅ ∅ {[ "t/ns/m" := sample_obj "t" "ns" "m" (policy_of par) ]}.
Definition granted (id : string) : LeaseWorkerResp + Share.Error := inl (MkLeaseWorkerResp "" id 1 true 2 80 false).

(** ** Runs *)

Definition gw_goodb (allowed : option Z) (cap : Z) (ev : Event (F:=unit)) (gw : SampleGateway) : bool :=
  match ev with
  | GClient route _ _ =>
      let par := parallel (rt_policy route) in
      bool_decide (fits usize par) && match allowed with Some p => bool_decide (par = p) && (0 <? p)%Z | None => true end
  | GAgent n (AHead repo) =>
      match gw_agents gw !! n with Some g => (max_replica repo g <=? cap)%Z | None => true end
  | GAgent n (APolicy repo) =>
      match gw_agents gw !! n with
      | Some g => let par := fa_parallelLeve (UpdatePolicy repo g) in
                  bool_decide (fits usize par) && match allowed with Some p => bool_decide (par = p) | None => true end
      | None => true
      end
  | _ => true
  end.
Lemma gw_goodb_spec allowed cap ev gw :
  gw_goodb allowed cap ev gw = true → good_input (λ _, allowed) (λ _, cap) ev gw.
Proof.
  destruct ev as [route timeout timestamp|funcId|n [repo| | |repo| |]|n i ev|n i conn|n|now]; simpl; try done.
  - intros [Hf%bool_decide_eq_true Hp]%andb_true_iff. split; [done|]. intros p Hc. unfold calm in Hc. subst allowed.
    apply andb_true_iff in Hp as [Hp%bool_decide_eq_true Hpos]. lia.
  - intros Hg g Hn key _. rewrite Hn in Hg. lia.
  - intros Hg g Hn. rewrite Hn in Hg. apply andb_true_iff in Hg as [Hf%bool_decide_eq_true Hp]. split; [done|].
    intros p Hc. unfold calm in Hc. subst allowed. by apply bool_decide_eq_true in Hp.
Qed.
(** The state after the events, unless one cannot happen, is not good, or
    panics. *)
Fixpoint gw_passes (allowed : option Z) (cap : Z) (l : list (Event (F:=unit))) (gw : SampleGateway) : option SampleGateway :=
  match l with
  | [] => Some gw
  | ev :: l =>
      if enabled ev gw && gw_goodb allowed cap ev gw then
        match gw_step ev gw with (Ok _, gw') => gw_passes allowed cap l gw' | _ => None end
      else None
  end.
Lemma gw_passes_reachable allowed cap l gw gw' :
  gw_reachable (λ _, allowed) (λ _, cap) gw → gw_passes allowed cap l gw = Some gw' → gw_reachable (λ _, allowed) (λ _, cap) gw'.
Proof.
  revert gw. induction l as [|ev l IH]; intros gw Hr; simpl; [by intros [= ->]|].
  destruct (enabled ev gw) eqn:He, (gw_goodb allowed cap ev gw) eqn:Hg; simpl; try done.
  destruct (gw_step ev gw) as [[[]|e|w] gw1] eqn:Hs; [|done..]. apply IH. eapply gw_next; [done..| |done]. by apply gw_goodb_spec.
Qed.
Definition gw_run (allowed : option Z) (l : list (Event (F:=unit))) : SampleGateway :=
  default Gateway_New (gw_passes allowed 1 l Gateway_New).
Lemma gw_run_reachable allowed l : gw_reachable (λ _, allowed) (λ _, 1%Z) (gw_run allowed l).
Proof.
  unfold gw_run. destruct (gw_passes _ _ _ _) as [gw|] eqn:Hp; simpl; [|apply gw_start].
  eapply gw_passes_reachable; [apply gw_start|exact Hp].
Qed.

(** A client asks for a connection, the request is queued, a worker leases a
    pod and takes it, the client has a connection. *)
Definition start (route : FuncRouteTarget (F:=unit)) (clients : nat) : list (Event (F:=unit)) :=
  replicate clients (GClient route 60000 0) ++
  [GAgent 0 (AHead (repo_of 2)); GAgent 0 AReq; GAgent 0 (AHead (repo_of 2))].
Definition served_run : list (Event (F:=unit)) :=
  start (endpoint_route 2) 3 ++
  [GWorker 0 1 (WLease (repo_of 2) (granted "7")); GWorker 0 1 WRun; GWorker 0 1 (WServe (λ _, false) None);
   GWorker 0 1 (WServe (λ _, false) None); GWorker 0 1 WRun; GDrop 0 1 0].
Definition served_state : SampleGateway := gw_run (Some 2%Z) served_run.
Example served_runs :
  (sh_answers (gw_shared served_state)) = [(0, AClient 0 true); (1, AClient 1 true)] ∧
  (λ g, (fa_activeReqCnt g, length (fa_reqQueue g), map_to_list (fw_clients <$> fa_tasks g))) <$> gw_agents served_state
    = [(3%Z, 1, [(1%Z, [1])])] ∧
  map_to_list (sh_leases (gw_shared served_state)) = [("t/endpoints/m", 1%Z)].
Proof. by vm_compute. Qed.

(** ** What goes wrong *)

(** The lease of the only worker fails, the function is removed, the agent ends:
    the request stays in its queue. *)
Definition retired_run : list (Event (F:=unit)) :=
  start (func_route 2 "m") 1 ++
  [GWorker 0 1 (WLease (repo_of 2) (inr (Share.SchedulerErr "no resource"))); GRetire "t/ns/m/1"; GAgent 0 AClose].
Definition retired_state : SampleGateway := gw_run (Some 2%Z) retired_run.
Example retired_runs :
  sh_answers (gw_shared retired_state) = [] ∧
  (λ g, (cr_tx <$> fa_reqQueue g, fa_pc g, map_to_list (fw_pc <$> fa_tasks g))) <$> gw_agents retired_state
    = [([0], QEnd, [(1%Z, PEnd)])].
Proof. by vm_compute. Qed.

(** The policy of a function whose worker serves two requests is changed to one
    request at a time. *)
Definition shrink_run : list (Event (F:=unit)) :=
  start (func_route 2 "m") 2 ++
  [GWorker 0 1 (WLease (repo_of 2) (granted "7")); GWorker 0 1 WRun; GWorker 0 1 (WServe (λ _, false) None);
   GWorker 0 1 (WServe (λ _, false) None); GWorker 0 1 WRun; GAgent 0 (APolicy (repo_of 1)); GWorker 0 1 WBill].
Example policy_shrink_panics :
  enabled (GWorker 0 1 WRun) (gw_run None shrink_run) = true ∧
  (gw_step (GWorker 0 1 WRun) (gw_run None shrink_run)).1 = Panic "arithmetic overflow".
Proof. by vm_compute. Qed.

(** The policy is changed from one request at a time to five: the channel by
    which connections come back was made for one. *)
Definition grow_run : list (Event (F:=unit)) :=
  replicate 3 (GClient (func_route 1 "m") 60000 0) ++
  [GAgent 0 (AHead (repo_of 1)); GAgent 0 AReq; GAgent 0 (AHead (repo_of 1)); GAgent 0 (APolicy (repo_of 5));
   GWorker 0 1 (WLease (repo_of 5) (granted "7")); GWorker 0 1 WRun; GWorker 0 1 (WServe (λ _, false) None);
   GWorker 0 1 (WServe (λ _, false) None); GWorker 0 1 (WServe (λ _, false) None); GWorker 0 1 WRun;
   GDrop 0 1 0; GDrop 0 1 1; GDrop 0 1 2; GWorker 0 1 (WReturn (λ _, false) (λ _, false)); GWorker 0 1 WRun; GWorker 0 1 WRun].
Example policy_growth_leaks :
  (λ g, (fa_activeReqCnt g, (λ w, (fw_state w, fw_ongoingReqCnt w, held w)) <$> fa_tasks g !! 1%Z)) <$> gw_agents (gw_run None grow_run)
    = [(1%Z, Some (FProcessing, 1%Z, 0%Z))].
Proof. by vm_compute. Qed.

(** A request for the function [llama] retires the agent of [llama-7b]. *)
Example prefix_retires_other_function :
  gw_current (gw_run (Some 2%Z) [GClient (func_route 2 "llama-7b") 60000 0]) !! "t/ns/llama-7b/1" = Some 0 ∧
  gw_current (gw_run (Some 2%Z) [GClient (func_route 2 "llama-7b") 60000 0; GClient (func_route 2 "llama") 60000 0]) !! "t/ns/llama-7b/1"
    = None.
Proof. by vm_compute. Qed.

(** The update of a worker that fails after its agent has ended is dropped; its
    pod is never handed back. *)
Definition dropped_run : list (Event (F:=unit)) :=
  start (func_route 2 "m") 1 ++
  [GWorker 0 1 (WLease (repo_of 2) (granted "7")); GWorker 0 1 WRun; GRetire "t/ns/m/1"; GAgent 0 AClose;
   GWorker 0 1 (WServe (λ _, false) (Some (Share.CommonError "refused")))].
Example failed_worker_of_retired_agent :
  (λ g, (fa_returns g, length (fa_dropped g), map_to_list (fw_pc <$> fa_tasks g))) <$> gw_agents (gw_run (Some 2%Z) dropped_run)
    = [([], 2, [(1%Z, PEnd)])].
Proof. by vm_compute. Qed.

(** A policy that allows no request at a time: the agent's task panics. *)
Definition zero_run : list (Event (F:=unit)) :=
  [GClient (func_route 0 "m") 60000 0; GAgent 0 (AHead (repo_of 0)); GAgent 0 AReq].
Example zero_parallel_panics :
  enabled (GAgent 0 (AHead (repo_of 0))) (gw_run None zero_run) = true ∧
  (gw_step (GAgent 0 (AHead (repo_of 0))) (gw_run None zero_run)).1 = Panic "mpsc bounded channel requires buffer > 0".
Proof. by vm_compute. Qed.

(** The queue is cleaned from its oldest request only: one that timed out behind
    one that did not stays. *)
Example timed_out_behind :
  let r (tx : nat) (timeout : Z) := MkClientReq None true 0 timeout tx in
  CleanTimeout 5000 [r 0 60000%Z; r 1 1000%Z] = ([], [r 0 60000%Z; r 1 1000%Z]).
Proof. by vm_compute. Qed.
