(* ===== verification/GatewayProps.v ===== *)
(** * What a gateway guarantees

    The properties of the runs of a gateway, a run at which they are evaluated,
    and runs that show what goes wrong. *)

From S2P Require Import Prelude.
From S2P Require Import Text.
From S2P Require Import BTree.
From S2P Require Import Common.
From S2P Require Import DataObj.
From S2P Require Import Resource.
From S2P Require Import Specs.
From S2P Require Import Worker.
From S2P Require Import Billing.
From S2P Require Import FuncAgent.
From S2P Require Import GatewayTasks.
From S2P Require Import GatewayInv.
From S2P Require Import GatewaySteps.
From S2P Require Import AgentSteps.
From S2P Require Import Gateway.
From S2P Require Import GatewayRuns.
From S2P Require Import GatewayScenario.

Section views.
Context {F : Type} `{FloatLit F, GatewayFloat F, GatewayConfig F}.
Implicit Types (g : FuncAgent (F:=F)) (gw : Gateway (F:=F)).

(** The workers that hold a replica of an endpoint. *)
Definition replicas (key : string) gw : Z :=
  lsum (λ g, if decide (ac_endpointLeaseKey (fa_config g) = Some key)
             then Z.of_nat (size (filter (λ p, fw_lease_released p.2 = false) (fa_tasks g))) else 0%Z) (gw_agents gw).
(** The connections all clients and all workers of the gateway have. *)
Definition connections gw : list nat := concat (agent_conns <$> gw_agents gw).
(** The requests that wait: in a channel, in a queue, or taken by a worker. *)
Definition waiting gw : list nat := concat (pending <$> gw_agents gw).
(** No task of the agent is left to do anything. *)
Definition over g : Prop := fa_pc g = QEnd ∧ ∀ i w, fa_tasks g !! i = Some w → fw_pc w = PEnd.
(** What a run relies on: the scheduler names a pod by its number, the pod's
    memory and the agent's slots fit their integers, a channel can be made. *)
Definition trusted (ev : Event (F:=F)) gw : Prop :=
  match ev with
  | GWorker n i (WLease repo (inl resp)) => ∀ g, gw_agents gw !! n = Some g →
      ∃ id info, parse_i64 (lp_id resp) = Some id ∧ lease_tracking repo g id (lp_keepalive resp) (gw_shared gw) = Ok info
  | GWorker n _ WPoll => ∀ g, gw_agents gw !! n = Some g → fits usize (Z.of_nat (size (fa_workers g)) * fa_parallelLeve g)
  | GAgent n (AHead _) => ∀ g, gw_agents gw !! n = Some g →
      fits usize (Z.of_nat (size (fa_workers g)) * fa_parallelLeve g) ∧ (fa_parallelLeve g * 2 ≤ ty_max usize / 8)%Z
  | _ => True
  end.
Definition overb g : bool :=
  bool_decide (fa_pc g = QEnd) && forallb (λ p, bool_decide (fw_pc p.2 = PEnd)) (map_to_list (fa_tasks g)).
Lemma over_check g : overb g = true → over g.
Proof.
  unfold overb. intros [Hpc%bool_decide_eq_true Hall]%andb_true_iff. split; [done|]. intros i w Hi%elem_of_map_to_list.
  rewrite forallb_forall in Hall. apply list_elem_of_In, Hall in Hi. by apply bool_decide_eq_true in Hi.
Qed.
Lemma wsum_unreleased (m : gmap Z FuncWorker) :
  wsum unreleased m = Z.of_nat (size (filter (λ p, fw_lease_released p.2 = false) m)).
Proof.
  induction m as [|i w m Hi IH] using map_ind; [done|]. rewrite wsum_new by done. unfold unreleased at 1.
  destruct (fw_lease_released w) eqn:Hr.
  - rewrite map_filter_insert_False by (simpl; congruence). rewrite delete_id by done. lia.
  - rewrite map_filter_insert_True by done. rewrite map_size_insert_None; [lia|]. apply map_lookup_filter_None. by left.
Qed.
End views.

Lemma lsum_ext {A} (f f' : A → Z) l : (∀ a, f a = f' a) → lsum f l = lsum f' l.
Proof. intros Hf. induction l as [|a l IH]; simpl; [done|]. unfold lsum in *. simpl. by rewrite Hf, IH. Qed.
Lemma at_agent_ok {F : Type} (P : Prop) (Q : FuncAgent (F:=F) * Shared → Prop) n (m : sm (FuncAgent (F:=F) * Shared) Share.Error unit) gw g :
  gw_agents gw !! n = Some g → run P m (λ _, Q) (g, gw_shared gw) → ¬ P → (at_agent n m gw).1 = Ok tt.
Proof. intros Hn Hrun HP. unfold at_agent. rewrite Hn. unfold run in Hrun. by destruct (m _) as [[[]|e|w] [g' sh']]. Qed.

(** ** Agents that are over *)

Section still.
Context {F : Type} `{FloatLit F, GatewayFloat F, GatewayConfig F}.
Implicit Types (g : FuncAgent (F:=F)) (gw : Gateway (F:=F)).
Definition still n r gw : Prop := ∃ g, gw_agents gw !! n = Some g ∧ over g ∧ r ∈ fa_reqQueue g.

(** What keeps an agent over. *)
Definition keeps_over (f : FuncAgent (F:=F) → FuncAgent (F:=F)) : Prop :=
  ∀ g, fa_reqQueue (f g) = fa_reqQueue g ∧ fa_pc (f g) = fa_pc g ∧
    (∀ (i : Z) (w : FuncWorker), fa_tasks (f g) !! i = Some w → ∃ w0, fa_tasks g !! i = Some w0 ∧ fw_pc w = fw_pc w0).
Lemma still_on_agent n r m f gw : keeps_over f → still n r gw → still n r (on_agent m f gw).
Proof.
  intros Hf (g & Hn & [Hpc Hend] & Hr). unfold on_agent. destruct (decide (m = n)) as [->|Hne].
  - exists (f g). simpl. rewrite list_lookup_alter_eq, Hn. destruct (Hf g) as (Hq & Hp & Ht). split; [done|].
    rewrite Hq. split; [|done]. split; [congruence|]. intros i w (w0 & Hi & ->)%Ht. by eapply Hend.
  - exists g. simpl. by rewrite list_lookup_alter_ne.
Qed.
Lemma keeps_over_task i f : (∀ w, fw_pc (f w) = fw_pc w) → keeps_over (on_task i f).
Proof.
  intros Hf g. split_and!; [done..|]. intros j w. simpl. rewrite lookup_alter. case_decide; [|eauto].
  subst j. intros (w0 & Hi & ->)%fmap_Some. eauto.
Qed.
Lemma keeps_over_close : keeps_over close_agent.
Proof.
  intros g. unfold close_agent. simpl. generalize (set_elems (fa_workers g)) as l. intros l. induction l as [|i l (Hq & Hp & Ht)].
  - simpl. split_and!; eauto.
  - simpl. split_and!; [done..|]. intros j w. rewrite lookup_alter. case_decide as Hij.
    + intros (w0 & Hi & ->)%fmap_Some. subst j. apply Ht in Hi as (w1 & ? & ?). by exists w1.
    + apply Ht.
Qed.
Lemma still_agents n r gw cur sh : still n r gw → still n r (MkGateway cur (gw_agents gw) sh).
Proof. done. Qed.
Lemma still_retire n r k gw : still n r gw → still n r (RetireAgent k gw).
Proof.
  intros Hs. unfold RetireAgent. destruct (gw_current gw !! k); [|done].
  by apply (still_on_agent n r _ _ (MkGateway _ _ _) keeps_over_close).
Qed.
Lemma still_at_other {A} n r m (call : sm (FuncAgent (F:=F) * Shared) Share.Error A) gw :
  m ≠ n → still n r gw → still n r (at_agent m call gw).2.
Proof.
  intros Hne (g & Hn & Hs). unfold at_agent. destruct (gw_agents gw !! m) as [gm|]; [|by exists g].
  destruct (call _) as [r0 [g' sh']]. exists g. simpl. by rewrite list_lookup_insert_ne.
Qed.
Lemma still_client n r (route : FuncRouteTarget (F:=F)) timeout timestamp gw :
  still n r gw → still n r (GetClient route timeout timestamp gw).
Proof.
  intros Hs. unfold GetClient. assert (still n r (agent_of route gw).2) as Hs1.
  { unfold agent_of. destruct (gw_current gw !! AgentKey route); [done|]. destruct Hs as (g & Hn & Hs). exists g.
    simpl. split; [|done]. apply lookup_app_Some. by left. }
  destruct (agent_of route gw) as [k gw1]. simpl in Hs1.
  assert (still n r (foldl (λ gw funcId, RetireAgent funcId gw) gw1 (stale_agents route gw))) as Hs2.
  { generalize (stale_agents route gw) as l. intros l. revert gw1 Hs1. induction l as [|a l IH]; intros gw1 Hs1; [done|].
    apply IH. by apply still_retire. }
  set (gw2 := foldl _ gw1 _) in *. clearbody gw2. set (gw3 := MkGateway _ _ _).
  assert (still n r gw3) as Hs3 by done. clearbody gw3. set (call := EnqReq _ _ _ _).
  destruct (decide (k = n)) as [->|Hne].
  - destruct Hs3 as (g & Hn & [Hpc Hend] & Hr). unfold at_agent. rewrite Hn. unfold call, EnqReq. simpl.
    rewrite decide_False by naive_solver. exists g. simpl. split; [|done]. apply list_lookup_insert_eq. by eapply lookup_lt_Some.
  - pose proof (still_at_other n r k call gw3 Hne Hs3) as Hs4. by destruct (at_agent k call gw3) as [[] gw4].
Qed.
Lemma still_step n r ev gw : still n r gw → enabled ev gw = true → still n r (gw_step ev gw).2.
Proof.
  intros Hs Hen. destruct ev as [route timeout timestamp|funcId|m ev|m i ev|m i conn|m|now]; simpl in *.
  - by apply still_client.
  - by apply still_retire.
  - apply still_at_other; [|done]. intros ->. destruct Hs as (g & Hn & [Hpc _] & _). rewrite Hn in Hen.
    unfold agent_enabled in Hen. by rewrite Hpc in Hen.
  - apply still_at_other; [|done]. intros ->. destruct Hs as (g & Hn & [_ Hend] & _). rewrite Hn in Hen.
    unfold worker_enabled in Hen. destruct (fa_tasks g !! i) as [w|] eqn:Hi; [|done]. by rewrite (Hend i w Hi) in Hen.
  - apply still_on_agent; [|done]. apply keeps_over_task. intros w. unfold QHttpCallClient_drop.
    destruct (fw_pc w) eqn:Hpc; try case_decide; done.
  - apply still_on_agent; [|done]. intros g. unfold Throttle_Refill.
    destruct (decide (fa_tokens g < 2)%Z); simpl; split_and!; eauto.
  - by apply still_agents.
Qed.
End still.

Section props.
Context {F : Type} `{FloatLit F, GatewayFloat F, GatewayConfig F}.
Context (allowed : AgentConfig (F:=F) → option Z) (cap : string → Z).
Implicit Types (g : FuncAgent (F:=F)) (gw : Gateway (F:=F)) (i : Z) (n : nat).
Abbreviation reachable := (gw_reachable allowed cap).

Lemma reachable_agent gw n g : reachable gw → gw_agents gw !! n = Some g → AgentInv (calm allowed g) g.
Proof. intros Hr Hn. by eapply gi_agent, Hn; [apply reachable_inv]. Qed.

(** C10: in every run the atomic counters of an agent are what they count:
    [activeReqCnt] the requests that wait in its queue and those its workers
    have taken and not given back, [totalSlot] and [startingSlot] the slots of
    the workers that serve and of those that are leasing. *)
Theorem counters_are_exact gw n g :
  reachable gw → gw_agents gw !! n = Some g →
  fa_activeReqCnt g = cast usize (Z.of_nat (length (fa_reqQueue g)) + wsum load (fa_tasks g)) ∧
  fa_totalSlot g = cast usize (wsum slots (fa_tasks g)) ∧
  fa_startingSlot g = cast usize (wsum starting (fa_tasks g)).
Proof. intros Hr Hn. destruct (reachable_agent gw n g Hr Hn). done. Qed.

(** C11: an endpoint never has more replicas leased than its policies allow,
    over all agents and versions that serve it, and the limiter counts them. *)
Theorem endpoint_replicas_capped gw key :
  reachable gw →
  Lease_Count key (sh_leases (gw_shared gw)) = replicas key gw ∧ (replicas key gw ≤ Z.max 0 (cap key))%Z.
Proof.
  intros [Hi _]%reachable_inv. assert (Lease_Count key (sh_leases (gw_shared gw)) = replicas key gw) as Heq.
  { rewrite (gi_leases _ _ gw Hi). apply lsum_ext. intros g. unfold mine. by rewrite wsum_unreleased. }
  split; [done|]. rewrite <-Heq. apply (gi_cap _ _ gw Hi).
Qed.

(** C9: every request that was ever made is answered exactly once, or waits in
    exactly one place. *)
Theorem requests_answered_once gw :
  reachable gw →
  (sh_answers (gw_shared gw)).*1 ++ waiting gw ≡ₚ seq 0 (sh_reqs (gw_shared gw)) ∧
  NoDup ((sh_answers (gw_shared gw)).*1 ++ waiting gw).
Proof.
  intros [Hi _]%reachable_inv. pose proof (gi_requests _ _ gw Hi) as Hp. split; [done|].
  unfold waiting. rewrite Hp. apply NoDup_seq.
Qed.

(** C25: a connection to a pod is in one place at a time: with one client, on its
    way back to one worker, or in one worker's pool. *)
Theorem connections_exclusive gw : reachable gw → NoDup (connections gw).
Proof. intros [Hi _]%reachable_inv. apply (gi_conns _ _ gw Hi). Qed.

(** The calls of the task that returns a pod. *)
Lemma return_loop_spec (reply : nat → option string) fuel r b waits success :
  fuel + r = 10 → 0 < fuel → return_loop reply fuel r b = (waits, success) →
  r + length waits < 10 ∧ (∀ k, k < length waits → ∃ e, reply (r + k) = Some e ∧ contains "NotExist" e = false) ∧
  if success then reply (r + length waits) = None
  else ∃ e, reply (r + length waits) = Some e ∧ (contains "NotExist" e = true ∨ r + length waits = 9).
Proof.
  revert r b waits success. induction fuel as [|fuel IH]; intros r b waits success Hf Hpos; [lia|]. cbn [return_loop].
  destruct (reply r) as [e|] eqn:Hr.
  2:{ intros [= <- <-]. cbn. rewrite Nat.add_0_r. split_and!; [lia|lia|done]. }
  destruct (contains "NotExist" e) eqn:He.
  { intros [= <- <-]. cbn. rewrite Nat.add_0_r. split_and!; [lia|lia|]. exists e. auto. }
  case_decide.
  { intros [= <- <-]. cbn. rewrite Nat.add_0_r. split_and!; [lia|lia|]. exists e. split; [done|]. right. lia. }
  destruct (return_loop reply fuel (S r) _) as [waits' success'] eqn:Hrun. intros [= <- <-].
  apply IH in Hrun as (Hl & Hk & Hend); [|lia..]. cbn [length]. rewrite <-Nat.add_succ_comm. split_and!; [lia| |done].
  intros [|k] Hlt; [exists e; by rewrite Nat.add_0_r|]. rewrite <-Nat.add_succ_comm. apply Hk. lia.
Qed.
(** C24: in every run up to the first panic (a worker's task that panics, the
    finding at func_worker.rs:750, returns nothing), for each worker at most one
    task is started that returns its pod to the scheduler, and none while the
    worker's own task runs.  When the task of a worker that had a pod has ended,
    that task was started, or an update that starts it is on its way to the
    agent, or the log says that the update was dropped: one of these, once.  The
    task that returns a pod calls the scheduler until it accepts, or says that
    the pod does not exist, or ten calls have failed; so one return may be asked
    for up to ten times, each time after an answer that was an error. *)
Theorem workers_returned_once gw n g :
  reachable gw → gw_agents gw !! n = Some g →
  NoDup (trail g) ∧
  (∀ i, i ∈ trail g ↔ ∃ w, fa_tasks g !! i = Some w ∧ fw_pc w = PEnd ∧ fw_state w = FFinish) ∧
  (∀ i w, fa_tasks g !! i = Some w → fw_pc w ≠ PEnd → i ∈ fa_workers g ∧ fw_lease_released w = false) ∧
  (∀ reply, let '(waits, success) := return_task reply in let last := length waits in
     last < 10 ∧ (∀ k, k < last → ∃ e, reply k = Some e ∧ contains "NotExist" e = false) ∧
     if success then reply last = None else ∃ e, reply last = Some e ∧ (contains "NotExist" e = true ∨ last = 9)).
Proof.
  intros Hr Hn. pose proof (reachable_agent gw n g Hr Hn) as Hg. split_and!; [apply Hg..| |].
  2:{ intros reply. unfold return_task. destruct (return_loop reply 10 0 500) as [waits success] eqn:Hrun.
      by apply return_loop_spec in Hrun; [|lia..]. }
  intros i w Hi Hpc. destruct (iv_worker _ g Hg i w Hi) as [Hl _ Hlive _ _].
  destruct (fw_pc w) eqn:Hw; try (destruct Hlive as (? & ? & _); [unfold live; by rewrite Hw|done]).
  by destruct (Hl eq_refl) as (? & ? & _).
Qed.

(** With policies that always allow the same number of requests at a time, a
    worker that serves never has more of them, all of them are accounted for
    (none of its connections is lost), and no task of the gateway panics. *)
Theorem constant_policy_runs_on gw :
  reachable gw → (∀ n g, gw_agents gw !! n = Some g → is_Some (calm allowed g)) →
  (∀ n g i w p, gw_agents gw !! n = Some g → calm allowed g = Some p → fa_tasks g !! i = Some w → live w →
     held w = fw_ongoingReqCnt w ∧ (fw_ongoingReqCnt w ≤ p)%Z) ∧
  (∀ ev, enabled ev gw = true → good_input allowed cap ev gw → trusted ev gw → (gw_step ev gw).1 = Ok tt).
Proof.
  intros Hr Hcalm. split.
  - intros n g i w p Hn Hp Hi Hl. pose proof (reachable_agent gw n g Hr Hn) as Hg.
    destruct (wk_calm _ _ _ (iv_worker _ g Hg i w Hi) p Hp) as [_ Hc]. destruct (Hc Hl). done.
  - apply reachable_inv in Hr as [Hi _]. intros ev Hen Hgood Ht.
    destruct ev as [route timeout timestamp|funcId|n ev|n i ev|n i conn|n|now]; simpl in *; try done.
    + destruct (gw_agents gw !! n) as [g|] eqn:Hn; [|done].
      apply (at_agent_ok (agent_panics ev g) (λ _, True) n _ gw g Hn).
      { eapply run_mono; [eapply agent_step_ok; [by eapply gi_pre|done|by apply Hgood]|done]. }
      destruct ev; simpl in Ht |- *; try tauto. destruct (Ht g eq_refl) as [Hf Hp].
      destruct (Hcalm n g Hn) as [p Hcp]. pose proof (gi_positive _ _ gw Hi n g p Hn Hcp).
      destruct (iv_parallel _ g (gi_agent _ _ gw Hi n g Hn)) as [_ Heq]. rewrite (Heq p Hcp) in *. intros [?|?]; [done|lia].
    + destruct (gw_agents gw !! n) as [g|] eqn:Hn; [|done].
      apply (at_agent_ok (worker_panics i ev g (gw_shared gw)) (λ _, True) n _ gw g Hn).
      { eapply run_mono; [eapply (worker_step_ok _ cap); [by eapply gi_pre|done]|done]. }
      destruct ev as [repo [resp|e]| | | | | | | |]; simpl in *; try tauto.
      * destruct (Ht g eq_refl) as (id & info & -> & ->). by intros [? ?].
      * intros (w & Hw & Hlt). destruct (Hcalm n g Hn) as [p Hcp]. pose proof (gi_agent _ _ gw Hi n g Hn) as Hg.
        destruct (iv_parallel _ g Hg) as [_ Heq]. rewrite (Heq p Hcp) in Hlt.
        destruct (wk_calm _ _ _ (iv_worker _ g Hg i w Hw) p Hcp) as [_ Hc]. unfold worker_enabled in Hen. rewrite Hw in Hen.
        destruct (fw_pc w) as [| |[]| |[]|] eqn:Hpc; try done; (destruct Hc; [unfold live; by rewrite Hpc|lia]).
      * intros Hno. by apply Hno, Ht.
Qed.

(** ** A retired agent *)

(** C38: the queue of a retired agent whose tasks have all ended keeps its
    requests for ever: no step of the gateway answers one, not even with an
    error; the client that waits for the answer holds the queue alive. *)
Theorem retired_requests_hang gw n g r ev gw' :
  reachable gw → gw_agents gw !! n = Some g → over g → r ∈ fa_reqQueue g →
  enabled ev gw = true → good_input allowed cap ev gw → gw_step ev gw = (Ok tt, gw') →
  ∃ g', gw_agents gw' !! n = Some g' ∧ over g' ∧ r ∈ fa_reqQueue g' ∧ cr_tx r ∉ (sh_answers (gw_shared gw')).*1.
Proof.
  intros Hr Hn Ho Hq Hen Hgood Hstep. assert (still n r gw') as (g' & Hn' & Ho' & Hq').
  { pose proof (still_step n r ev gw) as Hs. rewrite Hstep in Hs. apply Hs; [by exists g|done]. }
  exists g'. split_and!; [done..|]. intros Hin.
  assert (reachable gw') as [Hi _]%reachable_inv by by eapply gw_next.
  pose proof (gi_requests _ _ gw' Hi) as Hp. assert (NoDup ((sh_answers (gw_shared gw')).*1 ++ waiting gw')) as Hnd.
  { unfold waiting. rewrite Hp. apply NoDup_seq. }
  apply NoDup_app in Hnd as (_ & Hdis & _). apply (Hdis _ Hin). apply list_elem_of_In, in_concat.
  exists (pending g'). split; apply list_elem_of_In.
  - apply list_elem_of_fmap. exists g'. split; [done|]. by eapply list_elem_of_lookup_2.
  - unfold pending. apply list_elem_of_fmap. exists r. split; [done|]. rewrite !elem_of_app. auto.
Qed.
End props.

(** ** At the runs of the small gateway *)

#[local] Existing Instance gw_lit.
#[local] Existing Instance gw_float.
#[local] Existing Instance gw_config.
Abbreviation two := (λ _ : AgentConfig (F:=unit), Some 2%Z).
Abbreviation one_replica := (λ _ : string, 1%Z).

Lemma counters_are_exact_witness : ∃ g, gw_agents served_state !! 0 = Some g ∧ fa_activeReqCnt g = 3%Z ∧
  fa_activeReqCnt g = cast usize (Z.of_nat (length (fa_reqQueue g)) + wsum load (fa_tasks g)).
Proof.
  destruct (gw_agents served_state !! 0) as [g|] eqn:Hn; [|by vm_compute in Hn].
  exists g. split; [done|]. split; [by vm_compute in Hn; injection Hn as <-|].
  apply (counters_are_exact two one_replica served_state 0 g (gw_run_reachable _ _) Hn).
Defined.
Lemma endpoint_replicas_capped_witness : replicas "t/endpoints/m" served_state = 1%Z ∧ (replicas "t/endpoints/m" served_state ≤ 1)%Z.
Proof.
  split; [by vm_compute|]. apply (endpoint_replicas_capped two one_replica served_state "t/endpoints/m" (gw_run_reachable _ _)).
Defined.
Lemma requests_answered_once_witness : waiting served_state = [2] ∧
  NoDup ((sh_answers (gw_shared served_state)).*1 ++ waiting served_state).
Proof.
  split; [by vm_compute|]. apply (requests_answered_once two one_replica served_state (gw_run_reachable _ _)).
Defined.
Lemma connections_exclusive_witness : connections served_state = [0; 1] ∧ NoDup (connections served_state).
Proof. split; [by vm_compute|]. apply (connections_exclusive two one_replica served_state (gw_run_reachable _ _)). Defined.
Lemma workers_returned_once_witness : ∃ g, gw_agents (gw_run (Some 2%Z) dropped_run) !! 0 = Some g ∧ trail g = [1%Z] ∧ NoDup (trail g).
Proof.
  destruct (gw_agents (gw_run (Some 2%Z) dropped_run) !! 0) as [g|] eqn:Hn; [|by vm_compute in Hn].
  exists g. split; [done|]. split; [by vm_compute in Hn; injection Hn as <-|].
  apply (workers_returned_once two one_replica _ 0 g (gw_run_reachable _ _) Hn).
Defined.
Lemma constant_policy_runs_on_witness :
  (gw_step (GWorker 0 1 (WReturn (λ _, true) (λ _, true))) served_state).1 = Ok tt.
Proof.
  apply (constant_policy_runs_on two one_replica served_state (gw_run_reachable _ _)); [by intros; eexists|by vm_compute|done|done].
Defined.
Lemma retired_requests_hang_witness : ∃ (g : FuncAgent (F:=unit)) (r : FuncClientReq), r ∈ fa_reqQueue g ∧ cr_tx r = 0 ∧
  cr_tx r ∉ (sh_answers (gw_shared (gw_step (GTime 100000000000) retired_state).2)).*1.
Proof.
  destruct (gw_agents retired_state !! 0) as [g|] eqn:Hn; [|by vm_compute in Hn].
  assert ((λ x : FuncAgent (F:=unit), (cr_tx <$> fa_reqQueue x, overb x)) <$> gw_agents retired_state !! 0 = Some ([0], true)) as Hf by (by vm_compute).
  rewrite Hn in Hf; cbn [fmap option_fmap option_map] in Hf. injection Hf as Hq Hov.
  destruct (fa_reqQueue g) as [|r q] eqn:Hr; [done|]. injection Hq as Htx _.
  assert (r ∈ fa_reqQueue g) as Hin by (rewrite Hr; by left).
  exists g, r. split; [exact Hin|]. split; [exact Htx|].
  destruct (retired_requests_hang two one_replica retired_state 0 g r (GTime 100000000000) (gw_step (GTime 100000000000) retired_state).2 (gw_run_reachable _ _) Hn (over_check _ Hov) Hin)
    as (g' & _ & _ & _ & Hnot); [by vm_compute|done|by vm_compute|exact Hnot].
Defined.
