(* ===== verification/Atomic.v ===== *)
(** * Programs of atomic actions

    Calls that several tasks of a service run at the same time on shared state:
    a call is a tree of atomic actions (what it does under one lock, or one
    operation on an atomic), and another task may act between any two of them.
    [run] is the call when nothing interferes. *)

From S2P Require Import Prelude.

Inductive prog (S A : Type) : Type :=
| Ret (a : A)
| Act (upd : S → S) (k : S → prog S A).
Arguments Ret {S A} a.
Arguments Act {S A} upd k.

#[global] Instance prog_ret {S} : MRet (prog S) := fun _ a => Ret a.
#[global] Instance prog_bind {S} : MBind (prog S) := fun A B k =>
  fix bind p := match p with Ret a => k a | Act upd q => Act upd (λ s, bind (q s)) end.

Section prog.
Context {S A : Type}.
Implicit Types (p : prog S A).

(** One action that looks, and one that changes. *)
Definition reads (f : S → A) : prog S A := Act id (λ s, Ret (f s)).
Definition acts (f : S → S) : prog S unit := Act f (λ _, Ret tt).
Definition atomically (f : S → A * S) : prog S A := Act (λ s, (f s).2) (λ s, Ret (f s).1).
Fixpoint eachP {B} (f : B → prog S unit) (l : list B) : prog S unit :=
  match l with [] => Ret tt | b :: l => _ ← f b; eachP f l end.
Fixpoint foldP {B} (f : A → B → prog S A) (a : A) (l : list B) : prog S A :=
  match l with [] => Ret a | b :: l => a ← f a b; foldP f a l end.

Fixpoint run p (s : S) : A * S :=
  match p with Ret a => (a, s) | Act upd k => run (k s) (upd s) end.

(** [p] keeps [I] with each of its actions, whatever the others do meanwhile as
    long as they keep it too; every action changes the state along [G]; and the
    result satisfies [Q]. *)
Fixpoint keeps (I : S → Prop) (G : S → S → Prop) (Q : A → Prop) p : Prop :=
  match p with
  | Ret a => Q a
  | Act upd k => ∀ s, I s → I (upd s) ∧ G s (upd s) ∧ keeps I G Q (k s)
  end.
End prog.

Section rules.
Context {S : Type} (I : S → Prop) (G : S → S → Prop).

Lemma actions_bind {A B} (P : A → Prop) (Q : B → Prop) (p : prog S A) (k : A → prog S B) :
  keeps I G P p → (∀ a, P a → keeps I G Q (k a)) → keeps I G Q (p ≫= k).
Proof.
  intros Hp Hk. induction p as [a|upd q IH]; cbn in *; [by apply Hk|].
  intros s Hs. destruct (Hp s Hs) as (Hi & Hg & Hq). split_and!; [done..|]. by apply IH.
Qed.
Lemma keeps_mono {A} (P Q : A → Prop) (p : prog S A) : keeps I G P p → (∀ a, P a → Q a) → keeps I G Q p.
Proof.
  intros Hp Hpq. induction p as [a|upd q IH]; cbn in *; [by apply Hpq|].
  intros s Hs. destruct (Hp s Hs) as (Hi & Hg & Hq). split_and!; [done..|]. by apply IH.
Qed.
Lemma keeps_reads {A} (Q : A → Prop) (f : S → A) :
  (∀ s, I s → G s s) → (∀ s, I s → Q (f s)) → keeps I G Q (reads f).
Proof. intros Hg Hq s Hs. split_and!; [done|by apply Hg|by apply Hq]. Qed.
Lemma keeps_acts (Q : unit → Prop) (f : S → S) :
  (∀ s, I s → I (f s) ∧ G s (f s)) → Q tt → keeps I G Q (acts f).
Proof. intros Hf Hq s Hs. destruct (Hf s Hs) as [Hi Hg]. by split_and!. Qed.
Lemma keeps_atomically {A} (Q : A → Prop) (f : S → A * S) :
  (∀ s, I s → I (f s).2 ∧ G s (f s).2 ∧ Q (f s).1) → keeps I G Q (atomically f).
Proof. intros Hf s Hs. by apply Hf. Qed.
Lemma keeps_eachP {B} (f : B → prog S unit) (l : list B) :
  (∀ b, b ∈ l → keeps I G (λ _, True) (f b)) → keeps I G (λ _, True) (eachP f l).
Proof.
  induction l as [|b l IH]; intros Hf; [done|]. cbn [eachP]. apply (actions_bind (λ _, True)); [apply Hf; by left|].
  intros _ _. apply IH. intros b' Hb. apply Hf. by right.
Qed.
Lemma keeps_foldP {A B} (P : A → Prop) (f : A → B → prog S A) a (l : list B) :
  P a → (∀ a b, P a → b ∈ l → keeps I G P (f a b)) → keeps I G P (foldP f a l).
Proof.
  revert a. induction l as [|b l IH]; intros a Ha Hf; [done|]. cbn [foldP].
  apply (actions_bind P); [apply Hf; [done|by left]|].
  intros a' Ha'. apply IH; [done|]. intros a'' b' Ha'' Hb. apply Hf; [done|by right].
Qed.
(** What an uninterrupted run keeps. *)
Lemma keeps_run {A} (Q : A → Prop) (p : prog S A) s :
  keeps I G Q p → I s → I (run p s).2 ∧ Q (run p s).1.
Proof.
  revert s. induction p as [a|upd k IH]; intros s Hp Hs; [done|].
  destruct (Hp s Hs) as (Hi & _ & Hk). by apply IH.
Qed.
End rules.

Lemma prog_run_bind {S A B} (p : prog S A) (k : A → prog S B) s :
  run (p ≫= k) s = run (k (run p s).1) (run p s).2.
Proof. revert s. induction p as [a|upd q IH]; intros s; [done|]. apply IH. Qed.
