(* ===== verification/External.v ===== *)
(** * External endpoints of the gateway
      (ixshare/src/gateway/external_endpoint.rs, secret.rs, http_gw_external.rs)

    An external endpoint is served by replicas of another provider.  The gateway
    keeps a mirror of the table of endpoints, their replicas, and a limiter of
    requests in flight for each replica.  Requests, administrators and the
    controller of ceilings work on them at the same time; a definition of type
    [prog Ext] is a call as the sequence of its atomic actions: one for what is
    done under one lock, one for each query and each operation on an atomic. *)

From S2P Require Import Prelude.
From S2P Require Import Text.
From S2P Require Import BTree.
From S2P Require Import Common.
From S2P Require Import Atomic.

(** ixshare/src/gateway/external_endpoint.rs:56-56 [ReplicaId] *)
Abbreviation ReplicaId := string.

(** ixshare/src/gateway/external_endpoint.rs:65-69 [DiscoveredReplica] *)
Record DiscoveredReplica := MkReplica { dr_id : ReplicaId; dr_base_url : string; dr_metrics_url : option string }.
#[global] Instance DiscoveredReplica_eq_dec : EqDecision DiscoveredReplica.
Proof. solve_decision. Defined.
(** ixshare/src/gateway/external_endpoint.rs:72-78 [ReplicaConfig] *)
Record ReplicaConfig := MkReplicaConfig { rc_base_url : string; rc_metrics_url : option string; rc_id : option string }.
(** ixshare/src/gateway/external_endpoint.rs:82-87 [BackendConfig] *)
Inductive BackendConfig := Explicit (replicas : list ReplicaConfig).

(** What is used of crates: JSON values with the configuration that serde reads
    from one, the hash of std's [DefaultHasher] (its algorithm is not specified)
    and the scheme of a text that parses as a URL. *)
Class ExternalCrates (J : Type) := {
  json_eq_dec :: EqDecision J;
  BackendConfig_from_json : J → option BackendConfig;
  hrw_score : string → ReplicaId → Z;
  url_scheme : string → option string;
}.

Section external.
Context {J : Type} {crates : ExternalCrates J}.

(** ixshare/src/gateway/secret.rs:236-250 [ExternalEndpoint] *)
Record ExternalEndpoint := MkEndpoint {
  slug : string; base_url : string; upstream_model : string; provider_api_key : string; published : bool;
  max_concurrency : Z; last_published_by : option string; metrics_url : option string; backends : option J;
}.
#[global] Instance ExternalEndpoint_eq_dec : EqDecision ExternalEndpoint.
Proof. solve_decision. Defined.
Implicit Types (ep : ExternalEndpoint) (rid : ReplicaId).

Definition config ep : option BackendConfig := backends ep ≫= BackendConfig_from_json.

(** ixshare/src/gateway/external_endpoint.rs:48-53 [is_valid_slug] *)
Definition slug_char (c : ascii) : bool :=
  let n := nat_of_ascii c in
  (bool_decide (48 ≤ n ≤ 57) || bool_decide (65 ≤ n ≤ 90) || bool_decide (97 ≤ n ≤ 122)
   || bool_decide (c = "-"%char) || bool_decide (c = "_"%char) || bool_decide (c = "."%char))%nat.
(** ixshare/src/gateway/external_endpoint.rs:48-53 [is_valid_slug] *)
Definition is_valid_slug (s : string) : bool := negb (bool_decide (s = "")) && forallb slug_char (chars s).

(** ** Replicas *)

Fixpoint resolve_explicit (seen : gset ReplicaId) (replicas : list ReplicaConfig) : outcome string (list DiscoveredReplica) :=
  match replicas with
  | [] => Ok []
  | r :: replicas =>
      let id := default (rc_base_url r) (rc_id r) in
      if decide (id ∈ seen) then Err ("duplicate replica id: " +:+ id)
      else
        out ← resolve_explicit ({[id]} ∪ seen) replicas;
        Ok (MkReplica id (rc_base_url r) (rc_metrics_url r) :: out)
  end.
(** ixshare/src/gateway/external_endpoint.rs:95-123 [resolve_replicas] *)
Definition resolve_replicas ep : outcome string (list DiscoveredReplica) :=
  match config ep with
  | Some (Explicit replicas) => resolve_explicit ∅ replicas
  | None => Ok [MkReplica "default" (base_url ep) (metrics_url ep)]
  end.

(** The order of [sort_by(|a, b| b.0.cmp(&a.0))], which is stable: highest score
    first. *)
Definition score_ge (a b : Z * DiscoveredReplica) : Prop := (b.1 ≤ a.1)%Z.
#[global] Instance score_ge_dec : RelDecision score_ge.
Proof. intros a b. unfold score_ge. apply _. Defined.
Fixpoint insert_sorted (x : Z * DiscoveredReplica) (l : list (Z * DiscoveredReplica)) : list (Z * DiscoveredReplica) :=
  match l with
  | [] => [x]
  | y :: l' => if decide (score_ge x y) then x :: l else y :: insert_sorted x l'
  end.
Definition sort_desc (l : list (Z * DiscoveredReplica)) : list (Z * DiscoveredReplica) := foldr insert_sorted [] l.
(** ixshare/src/gateway/external_endpoint.rs:132-139 [affinity_order] *)
Definition affinity_order (replicas : list DiscoveredReplica) (tenant : string) : list DiscoveredReplica :=
  (sort_desc ((λ r, (hrw_score tenant (dr_id r), r)) <$> replicas)).*2.

(** ** The state *)

(** ixshare/src/gateway/external_endpoint.rs:233-236 [ConcurrencyLimiter] *)
Record Limiter := MkLimiter { inflight : Z; ceiling : Z }.
#[global] Instance Limiter_eq_dec : EqDecision Limiter.
Proof. solve_decision. Defined.
(** ixshare/src/gateway/external_endpoint.rs:247 [ConcurrencyPermit]; a limiter is shared ([Arc]): its place in [ex_heap] *)
Abbreviation Permit := (option nat).

(** ixshare/src/gateway/external_endpoint.rs:260-266 [ExternalEndpointMgr], with the table of the database and
    the limiters *)
Record Ext := MkExt {
  ex_db : gmap string ExternalEndpoint;
  ex_map : gmap string ExternalEndpoint;
  ex_limiters : gmap (string * ReplicaId) nat;
  ex_resolved : gmap string (list DiscoveredReplica);
  ex_heap : list Limiter;
}.
Implicit Types (s : Ext).

Definition put_db (d : gmap string ExternalEndpoint) s : Ext := MkExt d (ex_map s) (ex_limiters s) (ex_resolved s) (ex_heap s).
Definition put_map (m : gmap string ExternalEndpoint) s : Ext := MkExt (ex_db s) m (ex_limiters s) (ex_resolved s) (ex_heap s).
Definition put_resolved (r : gmap string (list DiscoveredReplica)) s : Ext :=
  MkExt (ex_db s) (ex_map s) (ex_limiters s) r (ex_heap s).
Definition put_limiters (l : gmap (string * ReplicaId) nat) (h : list Limiter) s : Ext :=
  MkExt (ex_db s) (ex_map s) l (ex_resolved s) h.
Definition put_heap (h : list Limiter) s : Ext := put_limiters (ex_limiters s) h s.

(** The stores of the two atomics of a limiter. *)
Definition set_ceil (c : Z) (l : Limiter) : Limiter := MkLimiter (inflight l) c.
Definition set_inflight (n : Z) (l : Limiter) : Limiter := MkLimiter n (ceiling l).
Definition in_flight (i : nat) s : Z := default 0%Z (inflight <$> ex_heap s !! i).
Definition ceiling_of (i : nat) s : Z := default 0%Z (ceiling <$> ex_heap s !! i).

(** ixshare/src/gateway/external_endpoint.rs:239-244 [ConcurrencyLimiter::new] *)
Definition ConcurrencyLimiter_new (c : Z) : Limiter := MkLimiter 0 c.
(** [entry(key).or_insert_with(|| Arc::new(ConcurrencyLimiter::new(c)))] *)
Definition or_insert (key : string * ReplicaId) (c : Z) s : nat * Ext :=
  match ex_limiters s !! key with
  | Some i => (i, s)
  | None => let i := length (ex_heap s) in
            (i, put_limiters (<[key := i]> (ex_limiters s)) (ex_heap s ++ [ConcurrencyLimiter_new c]) s)
  end.
(** [entry(key).and_modify(|l| l.ceiling.store(c)).or_insert_with(..)] *)
Definition store_or_insert (c : Z) (key : string * ReplicaId) s : Ext :=
  match ex_limiters s !! key with
  | Some i => put_heap (alter (set_ceil c) i (ex_heap s)) s
  | None => (or_insert key c s).2
  end.

(** ** Requests *)

(** ixshare/src/gateway/external_endpoint.rs:252-256 [ConcurrencyPermit::drop] *)
Definition Permit_drop (p : Permit) s : Ext :=
  match p with
  | None => s
  | Some i => put_heap (alter (λ l, set_inflight (cast i64 (inflight l - 1)) l) i (ex_heap s)) s
  end.

(** Where [try_acquire] is: it reads the row's cap, looks for the limiter, makes
    one, loads the two atomics, compares and exchanges; it has a permit, or is
    refused. *)
Inductive AcqPc :=
| AStart
| ALookup (max : Z)
| ACreate (max : Z)
| ALoad (i : nat)
| ACeil (i : nat) (n : Z)
| ACas (i : nat) (n c : Z)
| AGot (p : Permit)
| AFull.
(** ixshare/src/gateway/external_endpoint.rs:542-579 [try_acquire_slot]; one action of it *)
Definition acquire_step (sl : string) rid (pc : AcqPc) s : AcqPc * Ext :=
  match pc with
  | AStart => (let max := default (-1)%Z (max_concurrency <$> ex_map s !! sl) in
               if decide (max < 0)%Z then AGot None else ALookup max, s)
  | ALookup max => (match ex_limiters s !! (sl, rid) with Some i => ALoad i | None => ACreate max end, s)
  | ACreate max => let '(i, s) := or_insert (sl, rid) max s in (ALoad i, s)
  | ALoad i => (ACeil i (in_flight i s), s)
  | ACeil i n => (if decide (ceiling_of i s ≤ n)%Z then AFull else ACas i n (ceiling_of i s), s)
  | ACas i n c =>
      if decide (in_flight i s = n)
      then (AGot (Some i), put_heap (alter (set_inflight (cast i64 (n + 1))) i (ex_heap s)) s)
      else (ALoad i, s)
  | AGot _ | AFull => (pc, s)
  end.
Definition acquired (pc : AcqPc) : option (option Permit) :=
  match pc with AGot p => Some (Some p) | AFull => Some None | _ => None end.

(** A response by its status and its body. *)
Record Response := MkResponse { rs_status : Z; rs_headers : list (string * string); rs_body : string }.
#[global] Instance Response_eq_dec : EqDecision Response.
Proof. solve_decision. Defined.
Definition TOO_MANY_REQUESTS : Z := 429.
Definition SERVICE_UNAVAILABLE : Z := 503.
Definition GATEWAY_TIMEOUT : Z := 504.
Definition BAD_GATEWAY : Z := 502.
Definition is_success (r : Response) : bool := bool_decide (200 ≤ rs_status r < 300)%Z.

(** What came of sending a request: no header in time, an error of the
    transport, or a response. *)
Inductive SendResult :=
| SendTimeout
| SendError (is_connect is_timeout : bool) (e : string)
| SendOk (r : Response).
Definition external_gateway_error (code : Z) (msg : string) : Response := MkResponse code [] msg.
Definition eq_ignore_ascii_case (a b : string) : bool := bool_decide (lower <$> chars a = lower <$> chars b).
(** ixshare/src/gateway/external_endpoint.rs:593-648 [proxy_to_external]; the body is passed on as it comes *)
Definition proxy_to_external (r : SendResult) : outcome (Z * string) Response :=
  match r with
  | SendTimeout => Ok (external_gateway_error GATEWAY_TIMEOUT "service failure: upstream response header timeout")
  | SendError is_connect is_timeout e =>
      if is_connect then Err (BAD_GATEWAY, "service failure: upstream connect error: " +:+ e)
      else Ok (external_gateway_error (if is_timeout then GATEWAY_TIMEOUT else BAD_GATEWAY)
                 ("service failure: upstream transport error: " +:+ e))
  | SendOk r => Ok (MkResponse (rs_status r) (filter (λ h, eq_ignore_ascii_case h.1 "content-length" = false) (rs_headers r)) (rs_body r))
  end.
(** ixshare/src/gateway/external_endpoint.rs:697-700 [external_sub_path] *)
Definition external_sub_path (incoming_path : string) : string :=
  let remain := default incoming_path (strip_prefix "/endpoints" incoming_path) in
  default remain (strip_prefix "/v1" remain).
(** ixshare/src/gateway/external_endpoint.rs:704-710 [external_published_gate] *)
Definition external_published_gate ep : outcome string unit :=
  if published ep then Ok tt else Err ("endpoint " +:+ slug ep +:+ " is unpublished").

(** Where a request is: it tries to get a permit for a replica, waits for the
    replica's answer, has the answer (and a permit until it is passed on), or
    has been answered. *)
Inductive ReqPc :=
| RNext (todo : list DiscoveredReplica) (last_response : option Response)
| RAcquire (pc : AcqPc) (replica : DiscoveredReplica) (todo : list DiscoveredReplica) (last_response : option Response)
| RProxy (permit : Permit) (replica : DiscoveredReplica) (todo : list DiscoveredReplica) (last_response : option Response)
| RDrop (permit : Permit) (replica : DiscoveredReplica) (next : list DiscoveredReplica * option Response + Response)
| RHold (permit : Permit) (replica : DiscoveredReplica) (response : Response)
| RDone (response : Response).
Record Request := MkRequest { rq_slug : string; rq_pc : ReqPc }.
(** ixshare/src/gateway/external_endpoint.rs:157-165 [dispatch_failover] *)
Definition no_replicas (sl : string) : Response :=
  MkResponse SERVICE_UNAVAILABLE [] ("service failure: endpoint " +:+ sl +:+ " has no available replicas").
(** ixshare/src/gateway/external_endpoint.rs:216-227 [dispatch_failover] *)
Definition all_at_capacity (sl : string) : Response :=
  MkResponse TOO_MANY_REQUESTS [] ("service failure: endpoint " +:+ sl +:+ " all replicas at capacity").

(** ixshare/src/gateway/external_endpoint.rs:146-169 [dispatch_failover]; to the first replica *)
Definition dispatch_failover (sl : string) (resolved : list DiscoveredReplica) (tenant : string) : Request :=
  let replicas := affinity_order resolved tenant in
  MkRequest sl (match replicas with [] => RDone (no_replicas sl) | _ => RNext replicas None end).
(** ixshare/src/gateway/external_endpoint.rs:169-186 [dispatch_failover]; the next action of a request that does not wait *)
Definition request_step (r : Request) s : Request * Ext :=
  let go pc := MkRequest (rq_slug r) pc in
  match rq_pc r with
  | RNext [] last => (go (RDone (default (all_at_capacity (rq_slug r)) last)), s)
  | RNext (replica :: todo) last => (go (RAcquire AStart replica todo last), s)
  | RAcquire pc replica todo last =>
      let '(pc, s) := acquire_step (rq_slug r) (dr_id replica) pc s in
      (go match acquired pc with
          | None => RAcquire pc replica todo last
          | Some None => RNext todo last
          | Some (Some permit) => RProxy permit replica todo last
          end, s)
  | RDrop permit _ next => (go match next with inl (todo, last) => RNext todo last | inr response => RDone response end, Permit_drop permit s)
  | RProxy _ _ _ _ | RHold _ _ _ | RDone _ => (r, s)
  end.
(** ixshare/src/gateway/external_endpoint.rs:187-214 [dispatch_failover]; the answer of the replica *)
Definition request_answered (result : SendResult) (r : Request) : Request :=
  MkRequest (rq_slug r)
    match rq_pc r with
    | RProxy permit replica todo last =>
        match proxy_to_external result with
        | Ok response =>
            if bool_decide (rs_status response = TOO_MANY_REQUESTS) || bool_decide (rs_status response = SERVICE_UNAVAILABLE)
            then RDrop permit replica (inl (todo, Some response))
            else if is_success response then RHold permit replica response
            else RDrop permit replica (inr response)
        | _ => RDrop permit replica (inl (todo, last))
        end
    | pc => pc
    end.
(** The response has been passed on, or its client is gone. *)
Definition request_finished (r : Request) : Request :=
  MkRequest (rq_slug r) match rq_pc r with RHold permit replica response => RDrop permit replica (inr response) | pc => pc end.
(** The client is gone while the replica is asked: the call is dropped. *)
Definition request_cancelled (r : Request) : Request :=
  MkRequest (rq_slug r)
    match rq_pc r with RProxy permit replica _ _ => RDrop permit replica (inr (MkResponse 0 [] "")) | pc => pc end.

(** ** The manager *)

(** ixshare/src/gateway/external_endpoint.rs:307-309 [ExternalEndpointMgr::resolved_replicas] *)
Definition resolved_replicas (sl : string) s : list DiscoveredReplica := default [] (ex_resolved s !! sl).
(** ixshare/src/gateway/external_endpoint.rs:327-333 [ExternalEndpointMgr::get_ceiling] *)
Definition get_ceiling (sl : string) rid s : option Z :=
  i ← ex_limiters s !! (sl, rid); ceiling <$> ex_heap s !! i.
(** ixshare/src/gateway/external_endpoint.rs:356-362 [ExternalEndpointMgr::get_inflight] *)
Definition get_inflight (sl : string) rid s : option Z :=
  i ← ex_limiters s !! (sl, rid); inflight <$> ex_heap s !! i.
(** ixshare/src/gateway/external_endpoint.rs:335-354 [ExternalEndpointMgr::set_ceiling] *)
Definition set_ceiling (sl : string) rid (c : Z) s : Ext :=
  match ex_map s !! sl with
  | None => s
  | Some ep =>
      let controlled :=
        match config ep with
        | Some _ => match find (λ r, bool_decide (dr_id r = rid)) (resolved_replicas sl s) with
                    | None => false
                    | Some replica => bool_decide (is_Some (dr_metrics_url replica))
                    end
        | None => bool_decide (is_Some (metrics_url ep))
        end in
      if controlled then
        match ex_limiters s !! (sl, rid) with
        | Some i => put_heap (alter (set_ceil (Z.max c 1)) i (ex_heap s)) s
        | None => s
        end
      else s
  end.
(** ixshare/src/gateway/external_endpoint.rs:366-378 [ExternalEndpointMgr::sweep_limiters] *)
Definition sweep_limiters s : Ext :=
  let retain (p : (string * ReplicaId) * nat) : bool :=
    if decide (in_flight p.2 s ≠ 0%Z) then true
    else match ex_map s !! p.1.1 with None => false | Some ep => bool_decide (0 ≤ max_concurrency ep)%Z end in
  put_limiters (filter (λ p, retain p = true) (ex_limiters s)) (ex_heap s) s.
(** ixshare/src/gateway/external_endpoint.rs:380-382 [ExternalEndpointMgr::Get] *)
Definition Ext_Get (sl : string) s : option ExternalEndpoint := ex_map s !! sl.
(** ixshare/src/gateway/external_endpoint.rs:384-386 [ExternalEndpointMgr::Contains] *)
Definition Ext_Contains (sl : string) s : bool := bool_decide (is_Some (ex_map s !! sl)).
(** ixshare/src/gateway/external_endpoint.rs:388-390 [ExternalEndpointMgr::List] *)
Definition Ext_List s : list ExternalEndpoint := values (ex_map s).

Definition fresh_limiter (row : ExternalEndpoint) s (r : DiscoveredReplica) : Ext :=
  put_limiters (<[(slug row, dr_id r) := length (ex_heap s)]> (ex_limiters s))
    (ex_heap s ++ [ConcurrencyLimiter_new (max_concurrency row)]) s.
(** ixshare/src/gateway/external_endpoint.rs:275-294 [ExternalEndpointMgr::New]; one row *)
Definition hydrate s (row : ExternalEndpoint) : Ext :=
  match resolve_replicas row with
  | Ok replicas =>
      let s := put_map (<[slug row := row]> (ex_map s)) s in
      let s := if decide (0 ≤ max_concurrency row)%Z then foldl (fresh_limiter row) s replicas else s in
      put_resolved (<[slug row := replicas]> (ex_resolved s)) s
  | _ => s
  end.
(** ixshare/src/gateway/external_endpoint.rs:270-301 [ExternalEndpointMgr::New]; on the rows of the database, ordered by slug *)
Definition ExternalEndpointMgr_New (db : gmap string ExternalEndpoint) : Ext := foldl hydrate (MkExt db ∅ ∅ ∅ []) (values db).

(** [limiters.retain(..)] of [upsert_mirror]: the limiters of replicas that are
    gone go, unless requests are in flight. *)
Definition retain_replicas (sl : string) (new_ids : list ReplicaId) s : Ext :=
  put_limiters (filter (λ p, p.1.1 ≠ sl ∨ in_flight p.2 s ≠ 0%Z ∨ p.1.2 ∈ new_ids) (ex_limiters s)) (ex_heap s) s.
Definition store_all (c : Z) (sl : string) (replicas : list DiscoveredReplica) s : Ext :=
  foldl (λ s r, store_or_insert c (sl, dr_id r) s) s replicas.
(** [for ((_, _), l) in limiters.iter_mut().filter(|((s, _), _)| s == slug)] *)
Definition store_slug (c : Z) (sl : string) s : Ext :=
  foldl (λ s p, put_heap (alter (set_ceil c) p.2 (ex_heap s)) s) s
    (filter (λ p, p.1.1 = sl) (map_to_list (ex_limiters s))).
Definition missing_replicas (sl : string) s : bool := bool_decide (ex_resolved s !! sl = None).
Definition insert_resolved (sl : string) (l : list DiscoveredReplica) s : Ext := put_resolved (<[sl := l]> (ex_resolved s)) s.

(** What [upsert_mirror] compares with the row of the mirror. *)
(** ixshare/src/gateway/external_endpoint.rs:402-402 [ExternalEndpointMgr::upsert_mirror] *)
Definition max_changed (old : option ExternalEndpoint) ep : bool :=
  negb (bool_decide (max_concurrency <$> old = Some (max_concurrency ep))).
Definition metrics_changed (old : option ExternalEndpoint) ep : bool :=
  negb (bool_decide (metrics_url <$> old = Some (metrics_url ep))).
Definition backends_changed (old : option ExternalEndpoint) ep : bool :=
  negb (bool_decide (backends <$> old = Some (backends ep))).
Definition replicas_metered (cfg : option BackendConfig) : bool :=
  match cfg with Some (Explicit replicas) => existsb (λ r, bool_decide (is_Some (rc_metrics_url r))) replicas | None => false end.
(** ixshare/src/gateway/external_endpoint.rs:407-409 [ExternalEndpointMgr::upsert_mirror] *)
Definition has_metrics ep : bool := bool_decide (is_Some (metrics_url ep)) || replicas_metered (config ep).

(** ixshare/src/gateway/external_endpoint.rs:411-434 [ExternalEndpointMgr::upsert_mirror]; new backends; false when it returns *)
Definition upsert_backends ep : prog Ext bool :=
  match resolve_replicas ep with
  | Ok resolved =>
      _ ← (if decide (0 ≤ max_concurrency ep)%Z
           then acts (store_all (max_concurrency ep) (slug ep) resolved ∘ retain_replicas (slug ep) (dr_id <$> resolved))
           else mret tt);
      _ ← acts (insert_resolved (slug ep) resolved);
      mret true
  | _ => mret false
  end.
(** ixshare/src/gateway/external_endpoint.rs:435-451 [ExternalEndpointMgr::upsert_mirror]; a row with metrics *)
Definition upsert_dynamic ep : prog Ext unit :=
  r ← reads (λ s, ex_resolved s !! slug ep);
  let resolved := match r with
                  | Some r => r
                  | None => match resolve_replicas ep with Ok r => r | _ => [] end
                  end in
  missing ← reads (missing_replicas (slug ep));
  _ ← (if (missing : bool) then acts (insert_resolved (slug ep) resolved) else mret tt);
  acts (store_all (max_concurrency ep) (slug ep) resolved).
(** ixshare/src/gateway/external_endpoint.rs:463-470 [ExternalEndpointMgr::upsert_mirror]; the default replica *)
Definition upsert_default ep : prog Ext unit :=
  missing ← reads (missing_replicas (slug ep));
  if (missing : bool) then
    match resolve_replicas ep with Ok resolved => acts (insert_resolved (slug ep) resolved) | _ => mret tt end
  else mret tt.
(** ixshare/src/gateway/external_endpoint.rs:397-473 [ExternalEndpointMgr::upsert_mirror] *)
Definition upsert_mirror ep : prog Ext unit :=
  old ← reads (Ext_Get (slug ep));
  go ← (if bool_decide (is_Some (config ep)) && backends_changed old ep then upsert_backends ep
        else if has_metrics ep && bool_decide (0 ≤ max_concurrency ep)%Z then
          _ ← (if max_changed old ep || metrics_changed old ep then upsert_dynamic ep else mret tt); mret true
        else if (max_changed old ep || metrics_changed old ep || backends_changed old ep) && bool_decide (0 ≤ max_concurrency ep)%Z then
          _ ← acts (store_slug (max_concurrency ep) (slug ep)); mret true
        else mret true);
  if (go : bool) then
    _ ← upsert_default ep;
    acts (λ s, put_map (<[slug ep := ep]> (ex_map s)) s)
  else mret tt.

(** ** The table of the database and its administration *)

(** src/dashboard/sql/secret.sql, lines 155-170: a new row is refused when its
    key exists, and any row that violates a check.  A query may also fail. *)
Definition blank (t : string) : bool := bool_decide (forallb (λ c, bool_decide (c = " "%char)) (chars t)).
Definition row_ok ep : bool :=
  negb (blank (slug ep)) && (bool_decide (is_Some (backends ep)) || negb (blank (base_url ep)))
  && bool_decide (-1 ≤ max_concurrency ep)%Z.
Definition sql_refused : Share.Error := Share.Foreign "SqlxError".
Definition query {A} (failure : option Share.Error) (f : Ext → Share.Result A * Ext) : prog Ext (Share.Result A) :=
  atomically (λ s, match failure with Some e => (Err e, s) | None => f s end).
Definition store_row ep s : Share.Result ExternalEndpoint * Ext :=
  if row_ok ep then (Ok ep, put_db (<[slug ep := ep]> (ex_db s)) s) else (Err sql_refused, s).
Definition not_found (sl : string) : Share.Error := Share.NotExist ("external endpoint " +:+ sl +:+ " not found").
(** ixshare/src/gateway/secret.rs:1458-1483 [SqlSecret::InsertExternalEndpoint]; [row] is the row of the values *)
Definition InsertExternalEndpoint (row : ExternalEndpoint) s : Share.Result ExternalEndpoint * Ext :=
  match ex_db s !! slug row with Some _ => (Err sql_refused, s) | None => store_row row s end.
(** ixshare/src/gateway/secret.rs:1486-1518 [SqlSecret::UpdateExternalEndpoint] *)
Definition UpdateExternalEndpoint (sl url model : string) (key : option string) (max : Z) (metrics : option string)
    (back : option J) s : Share.Result ExternalEndpoint * Ext :=
  match ex_db s !! sl with
  | None => (Err (not_found sl), s)
  | Some r => store_row (MkEndpoint sl url model (default (provider_api_key r) key) (published r) max (last_published_by r) metrics back) s
  end.
(** ixshare/src/gateway/secret.rs:1521-1539 [SqlSecret::SetExternalEndpointPublished] *)
Definition SetExternalEndpointPublished (sl : string) (publish : bool) (by_ : string) s : Share.Result ExternalEndpoint * Ext :=
  match ex_db s !! sl with
  | None => (Err (not_found sl), s)
  | Some r => store_row (MkEndpoint sl (base_url r) (upstream_model r) (provider_api_key r) publish (max_concurrency r)
                           (Some by_) (metrics_url r) (backends r)) s
  end.
(** ixshare/src/gateway/secret.rs:1541-1550 [SqlSecret::DeleteExternalEndpoint] *)
Definition DeleteExternalEndpoint (sl : string) s : Share.Result unit * Ext :=
  match ex_db s !! sl with None => (Err (not_found sl), s) | Some _ => (Ok tt, put_db (delete sl (ex_db s)) s) end.

(** A call that goes on with the row it got. *)
Definition write_through (q : prog Ext (Share.Result ExternalEndpoint)) : prog Ext (Share.Result ExternalEndpoint) :=
  r ← q;
  match r with Ok ep => _ ← upsert_mirror ep; mret (Ok ep) | _ => mret r end.
(** ixshare/src/gateway/external_endpoint.rs:475-491 [ExternalEndpointMgr::Create] *)
Definition Ext_Create (failure : option Share.Error) (row : ExternalEndpoint) : prog Ext (Share.Result ExternalEndpoint) :=
  write_through (query failure (InsertExternalEndpoint row)).
(** ixshare/src/gateway/external_endpoint.rs:493-509 [ExternalEndpointMgr::Update] *)
Definition Ext_Update (failure : option Share.Error) (sl url model : string) (key : option string) (max : Z)
    (metrics : option string) (back : option J) : prog Ext (Share.Result ExternalEndpoint) :=
  write_through (query failure (UpdateExternalEndpoint sl url model key max metrics back)).
(** ixshare/src/gateway/external_endpoint.rs:511-523 [ExternalEndpointMgr::SetPublished] *)
Definition SetPublished (failure : option Share.Error) (sl : string) (publish : bool) (by_ : string) :
    prog Ext (Share.Result ExternalEndpoint) :=
  write_through (query failure (SetExternalEndpointPublished sl publish by_)).
(** ixshare/src/gateway/external_endpoint.rs:528-533 [ExternalEndpointMgr::Delete] *)
Definition Ext_Delete (failure : option Share.Error) (sl : string) : prog Ext (Share.Result unit) :=
  r ← query failure (DeleteExternalEndpoint sl);
  match r with
  | Ok _ => _ ← acts (λ s, put_map (delete sl (ex_map s)) s);
            _ ← acts (λ s, put_resolved (delete sl (ex_resolved s)) s); mret (Ok tt)
  | _ => mret r
  end.

(** *** The requests of administrators *)

(** ixshare/src/gateway/http_gw_external.rs:26-37 [ExternalEndpointCreateRequest] *)
Record CreateRequest := MkCreateRequest {
  cq_slug : string; cq_base_url : string; cq_upstream_model : string; cq_provider_api_key : string;
  cq_max_concurrency : Z; cq_metrics_url : option string; cq_backends : option J;
}.
(** ixshare/src/gateway/http_gw_external.rs:44-53 [ExternalEndpointUpdateRequest] *)
Record UpdateRequest := MkUpdateRequest {
  uq_base_url : string; uq_upstream_model : string; uq_provider_api_key : option string;
  uq_max_concurrency : Z; uq_metrics_url : option string; uq_backends : option J;
}.
(** ixshare/src/gateway/http_gw_external.rs:57-67 [ExternalEndpointView] *)
Record EndpointView := MkEndpointView {
  vw_slug : string; vw_base_url : string; vw_upstream_model : string; vw_published : bool; vw_has_api_key : bool;
  vw_max_concurrency : Z; vw_last_published_by : option string; vw_metrics_url : option string; vw_backends : option J;
}.
(** ixshare/src/gateway/http_gw_external.rs:70-82 [ExternalEndpointView::from] *)
Definition view_of ep : EndpointView :=
  MkEndpointView (slug ep) (base_url ep) (upstream_model ep) (published ep)
    (negb (bool_decide (trim (provider_api_key ep) = ""))) (max_concurrency ep) (last_published_by ep) (metrics_url ep) (backends ep).

Definition require (b : bool) (msg : string) : Share.Result unit := if b then Ok tt else Err (Share.CommonError msg).
(** ixshare/src/gateway/http_gw_external.rs:91-95 [validate_base_url] *)
Definition validate_base_url (url : string) : Share.Result unit :=
  require (bool_decide (is_Some (url_scheme url))) ("invalid base_url: " +:+ url).
Definition http_scheme (scheme : string) : bool := bool_decide (scheme = "http") || bool_decide (scheme = "https").
(** ixshare/src/gateway/http_gw_external.rs:102-120 [validate_metrics_url] *)
Definition validate_metrics_url (metrics : option string) (max : Z) : Share.Result unit :=
  match metrics with
  | None => Ok tt
  | Some url =>
      match url_scheme url with
      | None => Err (Share.CommonError ("invalid metrics_url: " +:+ url))
      | Some scheme =>
          _ ← require (http_scheme scheme) ("metrics_url must be http or https: " +:+ url);
          require (bool_decide (0 < max)%Z) "metrics_url may only be set when max_concurrency > 0"
      end
  end.
(** ixshare/src/gateway/http_gw_external.rs:153-174 [validate_replica_url] *)
Definition validate_replica_url (url : string) (metrics : option string) (max : Z) : Share.Result unit :=
  _ ← require (negb (bool_decide (trim url = ""))) "replica base_url is required";
  _ ← require (bool_decide (is_Some (url_scheme url))) ("invalid replica base_url: " +:+ url);
  match metrics with
  | None => Ok tt
  | Some mu =>
      match url_scheme mu with
      | None => Err (Share.CommonError ("invalid replica metrics_url: " +:+ mu))
      | Some scheme =>
          _ ← require (http_scheme scheme) ("replica metrics_url must be http or https: " +:+ mu);
          require (bool_decide (0 < max)%Z) "replica metrics_url requires max_concurrency > 0"
      end
  end.
Fixpoint validate_replicas (max : Z) (seen : gset string) (replicas : list ReplicaConfig) : Share.Result unit :=
  match replicas with
  | [] => Ok tt
  | r :: replicas =>
      _ ← validate_replica_url (rc_base_url r) (rc_metrics_url r) max;
      let id := default (rc_base_url r) (rc_id r) in
      _ ← require (bool_decide (id ∉ seen)) ("duplicate replica id: " +:+ id);
      validate_replicas max ({[id]} ∪ seen) replicas
  end.
(** ixshare/src/gateway/http_gw_external.rs:122-151 [validate_backends] *)
Definition validate_backends (back : option J) (metrics : option string) (max : Z) : Share.Result unit :=
  match back with
  | None => Ok tt
  | Some bv =>
      _ ← require (bool_decide (metrics = None)) "metrics_url must be null when backends is set";
      match BackendConfig_from_json bv with
      | None => Err (Share.CommonError "invalid backends config")
      | Some (Explicit []) => Err (Share.CommonError "backends requires at least one replica")
      | Some (Explicit replicas) => validate_replicas max ∅ replicas
      end
  end.
Definition trimmed (t : option string) : option string := t ≫= λ t, if bool_decide (trim t = "") then None else Some (trim t).
(** What both requests check: the caps, the URLs and the backends. *)
Definition validate_common (model url : string) (max : Z) (metrics : option string) (back : option J) : Share.Result unit :=
  _ ← require (bool_decide (-1 ≤ max)%Z) "max_concurrency must be >= -1 (-1 = unlimited, 0 = reject all)";
  _ ← (if bool_decide (back = None) then validate_base_url url else Ok tt);
  _ ← validate_metrics_url metrics max;
  validate_backends back metrics max.
Definition and_then {A B} (m : Share.Result A) (k : A → prog Ext (Share.Result B)) : prog Ext (Share.Result B) :=
  match m with Ok a => k a | Err e => mret (Err e) | Panic w => mret (Panic w) end.

Definition viewed (p : prog Ext (Share.Result ExternalEndpoint)) : prog Ext (Share.Result EndpointView) :=
  p ≫= λ r, mret (view_of <$> r : Share.Result EndpointView).
(** [EnsurePlatformEndpointAdmin], whose answer is given. *)
Definition admitted (admin : bool) : Share.Result unit := if admin then Ok tt else Err (Share.Foreign "NoPermission").

(** ixshare/src/gateway/http_gw_external.rs:203-265 [HttpGateway::ExternalEndpointCreate]; whether the caller is the platform's administrator
    and whether a function has the name is given *)
Definition ExternalEndpointCreate (admin func_exists : bool) (failure : option Share.Error) (req : CreateRequest) :
    prog Ext (Share.Result EndpointView) :=
  let sl := trim (cq_slug req) in let model := trim (cq_upstream_model req) in let url := trim (cq_base_url req) in
  let metrics := trimmed (cq_metrics_url req) in
  let checked : Share.Result unit :=
    (_ ← admitted admin;
     _ ← require (is_valid_slug sl) "invalid slug (allowed: alphanumeric and -_.)";
     _ ← require (negb (bool_decide (model = ""))) "upstream_model is required";
     _ ← require (negb (bool_decide (trim (cq_provider_api_key req) = ""))) "provider_api_key is required";
     _ ← validate_common model url (cq_max_concurrency req) metrics (cq_backends req);
     require (negb func_exists) ("slug " +:+ sl +:+ " is already a self-hosted endpoint")) in
  and_then checked
    (λ _, known ← reads (Ext_Contains sl);
          if (known : bool) then mret (Err (Share.CommonError ("external endpoint " +:+ sl +:+ " already exists")))
          else
            viewed (Ext_Create failure (MkEndpoint sl url model (trim (cq_provider_api_key req)) false (cq_max_concurrency req) None metrics (cq_backends req)))).
(** ixshare/src/gateway/http_gw_external.rs:267-303 [HttpGateway::ExternalEndpointUpdate] *)
Definition ExternalEndpointUpdate (admin : bool) (failure : option Share.Error) (sl : string) (req : UpdateRequest) :
    prog Ext (Share.Result EndpointView) :=
  let model := trim (uq_upstream_model req) in let url := trim (uq_base_url req) in
  let metrics := trimmed (uq_metrics_url req) in
  let checked : Share.Result unit :=
    (_ ← admitted admin;
     _ ← require (negb (bool_decide (model = ""))) "upstream_model is required";
     validate_common model url (uq_max_concurrency req) metrics (uq_backends req)) in
  and_then checked
    (λ _, viewed (Ext_Update failure sl url model (trimmed (uq_provider_api_key req)) (uq_max_concurrency req) metrics (uq_backends req))).
(** ixshare/src/gateway/http_gw_external.rs:309-334 [HttpGateway::ExternalEndpointDelete]; what the catalog says of the
    endpoint ([or_listed]) and whether its row could be dropped is given *)
Definition ExternalEndpointDelete (admin : bool) (listed : Share.Result (option bool)) (dropped : Share.Result unit)
    (failure1 failure2 : option Share.Error) (sl by_ : string) : prog Ext (Share.Result unit) :=
  and_then (admitted admin)
    (λ _, known ← reads (Ext_Contains sl);
          if negb known then mret (Err (not_found sl))
          else and_then listed (λ row,
            if bool_decide (row = Some true)
            then mret (Err (Share.CommonError ("endpoint " +:+ sl +:+ " is listed on OpenRouter; take it offline and unlist before deleting")))
            else
              r ← SetPublished failure1 sl false by_;
              and_then r (λ _, and_then dropped (λ _, Ext_Delete failure2 sl)))).

(** ixshare/src/gateway/http_gw.rs:275-283 [HttpGateway::PublishEndpoint]; of an external endpoint, once its catalog row is written *)
Definition PublishExternal (failure : option Share.Error) (sl : string) (publish : bool) (by_ : string) : prog Ext (Share.Result unit) :=
  known ← reads (Ext_Contains sl);
  if (known : bool) then r ← SetPublished failure sl publish by_; and_then r (λ _, mret (Ok tt)) else mret (Err (not_found sl)).

(** ixshare/src/gateway/http_gateway.rs:4511-4560 [shared_endpoint_dispatch]; how a request for a model becomes one for an external
    endpoint; [None]: there is none of that name *)
Definition external_request (direct : bool) (model tenant : string) : prog Ext (option Request) :=
  ext ← reads (Ext_Get model);
  match ext with
  | None => mret None
  | Some ext =>
      if direct && negb (published ext) then mret (Some (MkRequest model (RDone (MkResponse 404 [] "service failure: endpoint not found"))))
      else
        resolved ← reads (resolved_replicas (slug ext));
        mret (Some (dispatch_failover (slug ext) resolved tenant))
  end.
End external.
Abbreviation Permit := (option nat).
