(* ===== verification/Ceiling.v ===== *)
(** * The controller of ceilings (ixshare/src/gateway/external_ceiling.rs)

    Now and then the gateway reads the metrics of the replicas that give some,
    and moves the ceiling of each one's limiter: down while requests wait there,
    up by one while the limiter itself is what holds requests back. *)

From S2P Require Import Prelude.
From S2P Require Import Text.
From S2P Require Import BTree.
From S2P Require Import Common.
From S2P Require Import Atomic.
From S2P Require Import External.

(** What is used of [f64]: reading one ([str::parse]), [as i64] (which
    saturates), [f64::max], comparisons, and the two constants. *)
Class MetricsFloat (F : Type) := {
  f_parse : string → option F;
  f_to_i64 : F → Z;
  f_max : F → F → F;
  f_le : F → F → bool;
  f_lt : F → F → bool;
  f_zero : F;
  KV_HIGH_WATER : F;
}.

(** ixshare/src/gateway/external_ceiling.rs:20-20 [MAX_DROP_PER_TICK] *)
Definition MAX_DROP_PER_TICK : Z := 2.
(** ixshare/src/gateway/external_ceiling.rs:22-22 [WAITING_METRIC] *)
Definition WAITING_METRIC : string := "vllm:num_requests_waiting".
(** ixshare/src/gateway/external_ceiling.rs:23-23 [KV_METRIC_V1] *)
Definition KV_METRIC_V1 : string := "vllm:kv_cache_usage_perc".
(** ixshare/src/gateway/external_ceiling.rs:24-24 [KV_METRIC_V0] *)
Definition KV_METRIC_V0 : string := "vllm:gpu_cache_usage_perc".

(** ** Text *)

(** [str::lines] *)
Definition strip_cr (l : list ascii) : list ascii :=
  match reverse l with c :: l' => if decide (nat_of_ascii c = 13) then reverse l' else l | [] => l end.
Definition lines (t : string) : list (list ascii) :=
  let ls := split_go (ascii_of_nat 10) [] (chars t) in
  strip_cr <$> (match reverse ls with [] :: ls' => reverse ls' | _ => ls end).
(** The text up to the first character that [stop] holds of or that is white
    space, and the rest. *)
Fixpoint break_at (stop : ascii → bool) (l : list ascii) : list ascii * list ascii :=
  match l with
  | [] => ([], [])
  | c :: l' => if stop c then ([], l)
               else match first_strip white_space l with
                    | Some _ => ([], l)
                    | None => let '(a, b) := break_at stop l' in (c :: a, b)
                    end
  end.
(** The text after the first closing brace. *)
Fixpoint after_brace (l : list ascii) : option (list ascii) :=
  match l with [] => None | c :: l => if decide (c = "}"%char) then Some l else after_brace l end.
(** [split_whitespace().next().unwrap_or("")] *)
Definition first_token (l : list ascii) : string := of_chars (break_at (λ _, false) (trim_start l)).1.

Section ceiling.
Context {J F : Type} {crates : ExternalCrates J} {floats : MetricsFloat F}.

(** ** The law *)

(** ixshare/src/gateway/external_ceiling.rs:37-51 [step] *)
Definition step (c waiting : Z) (kv : F) (local_inflight : option Z) (threshold : Z) : outcome string Z :=
  if bool_decide (threshold ≤ waiting)%Z || (bool_decide (0 < waiting)%Z && f_le KV_HIGH_WATER kv)
  then d ← chk i64 (c - Z.min waiting MAX_DROP_PER_TICK)%Z; Ok (Z.max d 1)
  else if bool_decide (local_inflight = Some c) && f_lt kv KV_HIGH_WATER && bool_decide (waiting = 0%Z)
  then chk i64 (c + 1)%Z
  else Ok c.

(** ixshare/src/gateway/external_ceiling.rs:54-57 [ScrapedMetrics] *)
Record ScrapedMetrics := MkScraped { sm_waiting : Z; sm_kv : F }.

(** What the scan has found so far. *)
Record Scan := MkScan { sc_waiting : Z; sc_waiting_seen : bool; sc_kv : F; sc_kv_seen : bool }.
(** ixshare/src/gateway/external_ceiling.rs:70-105 [parse_metrics]; one line *)
Definition parse_line (acc : Scan) (raw_line : list ascii) : outcome string Scan :=
  let line := trim_end (trim_start raw_line) in
  if bool_decide (head line = None) || bool_decide (head line = Some "#"%char) then Ok acc
  else
    let '(name, rest) := break_at (λ c, bool_decide (c = "{"%char)) line in
    let name := of_chars name in
    if decide (name ≠ WAITING_METRIC ∧ name ≠ KV_METRIC_V1 ∧ name ≠ KV_METRIC_V0) then Ok acc
    else
      let rest := trim_start rest in
      let labels := match rest with
                    | c :: r => if decide (c = "{"%char) then trim_start <$> after_brace r else Some rest
                    | [] => Some rest
                    end in
      match labels with
      | None => Ok acc
      | Some rest =>
          let value_str := first_token rest in
          match f_parse value_str with
          | None => Err ("unparseable value for " +:+ name +:+ ": " +:+ value_str)
          | Some value =>
              if decide (name = WAITING_METRIC)
              then w ← chk i64 (sc_waiting acc + f_to_i64 value)%Z; Ok (MkScan w true (sc_kv acc) (sc_kv_seen acc))
              else Ok (MkScan (sc_waiting acc) (sc_waiting_seen acc) (f_max (sc_kv acc) value) true)
          end
      end.
(** ixshare/src/gateway/external_ceiling.rs:64-111 [parse_metrics] *)
Definition parse_metrics (text : string) : outcome string ScrapedMetrics :=
  acc ← foldlM parse_line (MkScan 0 false f_zero false) (lines text);
  if sc_waiting_seen acc && sc_kv_seen acc then Ok (MkScraped (sc_waiting acc) (sc_kv acc))
  else Err "missing waiting or kv gauge in scrape".
(** ixshare/src/gateway/external_ceiling.rs:113-127 [scrape]; on the text that was fetched, or the failure *)
Definition scrape (fetched : string + string) : outcome string ScrapedMetrics :=
  match fetched with inl e => Err e | inr text => parse_metrics text end.

(** ** One decision *)

(** ixshare/src/gateway/external_ceiling.rs:130-133 [SlugState] *)
Record SlugState := MkSlugState { st_failures : Z; st_pair : Z * string }.
Definition SlugState_default : SlugState := MkSlugState 0 (0%Z, "").
(** ixshare/src/gateway/external_ceiling.rs:135-161 [decide] *)
Definition decide_ceiling (state : SlugState) (pair : Z * string) (c inflight : option Z) (threshold : Z)
    (scrape_result : outcome string ScrapedMetrics) : outcome string (SlugState * option (Z * Z * ScrapedMetrics)) :=
  let state := if decide (st_pair state = pair) then state else MkSlugState 0 pair in
  match scrape_result with
  | Panic w => Panic w
  | Err _ => n ← chk u32 (st_failures state + 1)%Z; Ok (MkSlugState n pair, None)
  | Ok metrics =>
      let state := MkSlugState 0 pair in
      match c with
      | None => Ok (state, None)
      | Some c =>
          new_c ← step c (sm_waiting metrics) (sm_kv metrics) inflight threshold;
          Ok (state, if decide (new_c = c) then None else Some (c, new_c, metrics))
      end
  end.

(** ** A tick *)

Abbreviation SlugStates := (gmap (string * ReplicaId) SlugState).
(** ixshare/src/gateway/external_ceiling.rs:166-181 [tick]; the replicas with metrics *)
Definition metered (l : list (ExternalEndpoint (J:=J))) : prog (Ext (J:=J)) (list (ExternalEndpoint (J:=J) * DiscoveredReplica)) :=
  foldP (λ acc ep,
    if has_metrics ep && bool_decide (0 ≤ max_concurrency ep)%Z then
      replicas ← reads (resolved_replicas (slug ep));
      mret (acc ++ ((λ r, (ep, r)) <$> filter (λ r, is_Some (dr_metrics_url r)) replicas))
    else mret acc) [] l.
(** ixshare/src/gateway/external_ceiling.rs:195-215 [tick]; one replica, with the result of its scrape *)
Definition control (threshold : Z) (scrapes : string * ReplicaId → string + string)
    (st : outcome string SlugStates) (p : ExternalEndpoint (J:=J) * DiscoveredReplica) : prog (Ext (J:=J)) (outcome string SlugStates) :=
  match st with
  | Ok state =>
      let '(ep, replica) := p in
      let pair := (max_concurrency ep, default "" (dr_metrics_url replica)) in
      let key := (slug ep, dr_id replica) in
      let prior := default SlugState_default (state !! key) in
      c ← reads (get_ceiling (slug ep) (dr_id replica));
      n ← reads (get_inflight (slug ep) (dr_id replica));
      match decide_ceiling prior pair c n threshold (scrape (scrapes key)) with
      | Ok (next, change) =>
          _ ← match change with
              | Some (_, new, _) => acts (set_ceiling (slug ep) (dr_id replica) new)
              | None => mret tt
              end;
          mret (Ok (<[key := next]> state))
      | Err e => mret (Err e)
      | Panic w => mret (Panic w)
      end
  | _ => mret st
  end.
(** ixshare/src/gateway/external_ceiling.rs:163-219 [tick]; [waiting_threshold] is the configured one, [scrapes] what the
    replicas' metrics are *)
Definition tick (waiting_threshold : Z) (scrapes : string * ReplicaId → string + string) (state : SlugStates) :
    prog (Ext (J:=J)) (outcome string SlugStates) :=
  let threshold := Z.max waiting_threshold 1 in
  endpoints ← reads Ext_List;
  dynamic ← metered endpoints;
  let dynamic_keys := (λ p : ExternalEndpoint (J:=J) * DiscoveredReplica, (slug p.1, dr_id p.2)) <$> dynamic in
  let state := filter (λ p, p.1 ∈ dynamic_keys) state in
  st ← match foldlM (λ _ k, match scrape (scrapes k) with Panic w => Panic w | _ => Ok tt end) tt dynamic_keys with
       | Ok _ => foldP (control threshold scrapes) (Ok state) dynamic
       | Err e => mret (Err e)
       | Panic w => mret (Panic w)
       end;
  match st with
  | Ok _ => _ ← acts sweep_limiters; mret st
  | _ => mret st
  end.
End ceiling.
Abbreviation SlugStates := (gmap (string * ReplicaId) SlugState).
