(* ===== verification/ExternalRuns.v ===== *)
(** * Requests, administrators and the controller at the same time

    The tasks of a gateway that work on its external endpoints, as they
    interleave: a step is one atomic action of one task, or something that
    happens to it. *)

From S2P Require Import Prelude.
From S2P Require Import BTree.
From S2P Require Import Common.
From S2P Require Import Atomic.
From S2P Require Import External.
From S2P Require Import Ceiling.

Section runs.
Context {J F : Type} {crates : ExternalCrates J} {floats : MetricsFloat F}.
Abbreviation Ext := (External.Ext (J:=J)).

Inductive Task :=
| TStart (p : prog Ext (option Request))
| TRequest (r : Request)
| TAdmin (p : prog Ext unit).
Inductive Controller := CIdle (st : SlugStates) | CTick (p : prog Ext (outcome string SlugStates)) | CPanicked.
Record Serve := MkServe { sv_ext : Ext; sv_tasks : list Task; sv_ctl : Controller }.

(** What administrators ask for. *)
Inductive AdminOp :=
| OCreate (admin func_exists : bool) (failure : option Share.Error) (req : CreateRequest (J:=J))
| OUpdate (admin : bool) (failure : option Share.Error) (sl : string) (req : UpdateRequest (J:=J))
| OPublish (failure : option Share.Error) (sl : string) (publish : bool) (by_ : string)
| ODelete (admin : bool) (listed : Share.Result (option bool)) (dropped : Share.Result unit)
    (failure1 failure2 : option Share.Error) (sl by_ : string).
Definition admin_call (op : AdminOp) : prog Ext unit :=
  match op with
  | OCreate admin fe failure req => _ ← ExternalEndpointCreate admin fe failure req; mret tt
  | OUpdate admin failure sl req => _ ← ExternalEndpointUpdate admin failure sl req; mret tt
  | OPublish failure sl publish by_ => _ ← PublishExternal failure sl publish by_; mret tt
  | ODelete admin listed dropped f1 f2 sl by_ => _ ← ExternalEndpointDelete admin listed dropped f1 f2 sl by_; mret tt
  end.

Inductive Event :=
| VCall (direct : bool) (model tenant : string)
| VAdmin (op : AdminOp)
| VRun (n : nat)
| VAnswer (n : nat) (result : SendResult)
| VFinish (n : nat)
| VCancel (n : nat)
| VTick (threshold : Z) (scrapes : string * ReplicaId → string + string)
| VControl.

Definition task_step (t : Task) (s : Ext) : Task * Ext :=
  match t with
  | TStart (Ret (Some r)) => (TRequest r, s)
  | TStart (Ret None) => (t, s)
  | TStart (Act upd k) => (TStart (k s), upd s)
  | TRequest r => let '(r, s) := request_step r s in (TRequest r, s)
  | TAdmin (Ret _) => (t, s)
  | TAdmin (Act upd k) => (TAdmin (k s), upd s)
  end.
Definition on_request (f : Request → Request) (t : Task) : Task :=
  match t with TRequest r => TRequest (f r) | _ => t end.
Definition on_task (n : nat) (f : Request → Request) (sv : Serve) : Serve :=
  match sv_tasks sv !! n with
  | None => sv
  | Some t => MkServe (sv_ext sv) (<[n := on_request f t]> (sv_tasks sv)) (sv_ctl sv)
  end.
Definition sv_step (ev : Event) (sv : Serve) : Serve :=
  match ev with
  | VCall direct model tenant =>
      MkServe (sv_ext sv) (sv_tasks sv ++ [TStart (external_request direct model tenant)]) (sv_ctl sv)
  | VAdmin op => MkServe (sv_ext sv) (sv_tasks sv ++ [TAdmin (admin_call op)]) (sv_ctl sv)
  | VRun n =>
      match sv_tasks sv !! n with
      | None => sv
      | Some t => let '(t, s) := task_step t (sv_ext sv) in MkServe s (<[n := t]> (sv_tasks sv)) (sv_ctl sv)
      end
  | VAnswer n result => on_task n (request_answered result) sv
  | VFinish n => on_task n request_finished sv
  | VCancel n => on_task n request_cancelled sv
  | VTick threshold scrapes =>
      match sv_ctl sv with
      | CIdle st => MkServe (sv_ext sv) (sv_tasks sv) (CTick (tick threshold scrapes st))
      | _ => sv
      end
  | VControl =>
      match sv_ctl sv with
      | CTick (Ret (Ok st)) => MkServe (sv_ext sv) (sv_tasks sv) (CIdle st)
      | CTick (Ret _) => MkServe (sv_ext sv) (sv_tasks sv) CPanicked
      | CTick (Act upd k) => MkServe (upd (sv_ext sv)) (sv_tasks sv) (CTick (k (sv_ext sv)))
      | _ => sv
      end
  end.
Definition sv_init (db : gmap string (ExternalEndpoint (J:=J))) : Serve :=
  MkServe (ExternalEndpointMgr_New db) [] (CIdle ∅).
Definition sv_run (db : gmap string ExternalEndpoint) (l : list Event) : Serve := foldl (λ sv ev, sv_step ev sv) (sv_init db) l.

(** ** What tasks hold *)

Definition permit_of (pc : ReqPc) : Permit :=
  match pc with RProxy p _ _ _ | RDrop p _ _ | RHold p _ _ => p | _ => None end.
Definition task_permit (t : Task) : option nat := match t with TRequest r => permit_of (rq_pc r) | _ => None end.
(** How many requests hold a permit of the limiter [i]. *)
Definition holders (i : nat) (l : list Task) : nat := length (filter (λ t, task_permit t = Some i) l).
(** The replica a request is served by, from the permit to the end. *)
Definition served_at (pc : ReqPc) : option ReplicaId :=
  match pc with RProxy _ r _ _ | RDrop _ r _ | RHold _ r _ => Some (dr_id r) | _ => None end.
Definition serves (sl : string) (rid : ReplicaId) (t : Task) : bool :=
  match t with
  | TRequest r => bool_decide (rq_slug r = sl ∧ served_at (rq_pc r) = Some rid)
  | _ => false
  end.
(** How many requests for [sl] the replica [rid] serves. *)
Definition served (sl : string) (rid : ReplicaId) (l : list Task) : nat := length (filter (λ t, serves sl rid t = true) l).
End runs.
