(* ===== verification/ExternalInv.v ===== *)
(** * What every action on external endpoints keeps

    [Inv cap]: limiters are where the table says, one for each replica, and
    their ceilings are 64-bit; with [cap = Some c] the row of one slug stays as
    [c] says, with that cap on all of its limiters.  [Moves cap] is what an
    action of an administrator or of the controller may do: no request in
    flight is counted or forgotten. *)

From S2P Require Import Prelude.
From S2P Require Import BTree.
From S2P Require Import Common.
From S2P Require Import Atomic.
From S2P Require Import External.
From S2P Require Import Ceiling.

Section inv.
Context {J F : Type} {crates : ExternalCrates J} {floats : MetricsFloat F}.
Abbreviation Ext := (External.Ext (J:=J)).
Implicit Types (s : Ext) (ep : ExternalEndpoint (J:=J)).

(** A row that is not touched: its slug, cap and backends; it has no metrics. *)
Record Cap := MkCap { cp_slug : string; cp_max : Z; cp_backends : option J }.
Definition capped (c : Cap) ep : Prop :=
  max_concurrency ep = cp_max c ∧ metrics_url ep = None ∧ backends ep = cp_backends c.
Context (cap : option Cap).
Definition plain (c : Cap) : Prop := (0 ≤ cp_max c)%Z ∧ replicas_metered (cp_backends c ≫= BackendConfig_from_json) = false.
Context (Hplain : ∀ c, cap = Some c → plain c).

Definition fits_row ep : Prop := (max_concurrency ep ≤ ty_max i32)%Z ∧ ∀ c, cap = Some c → slug ep = cp_slug c → capped c ep.
(** A slug the cap does not speak of. *)
Definition other (sl : string) : Prop := ∀ c, cap = Some c → sl ≠ cp_slug c.

Record Good s : Prop := {
  gd_locs : ∀ k i, ex_limiters s !! k = Some i → i < length (ex_heap s);
  gd_inj : ∀ k k' i, ex_limiters s !! k = Some i → ex_limiters s !! k' = Some i → k = k';
  gd_ceil : ∀ i, (ceiling_of i s ≤ ty_max i64)%Z;
  gd_db : ∀ k ep, ex_db s !! k = Some ep → slug ep = k ∧ fits_row ep;
  gd_map : ∀ k ep, ex_map s !! k = Some ep → slug ep = k ∧ fits_row ep;
}.
Record Static (c : Cap) s : Prop := {
  st_map : is_Some (ex_map s !! cp_slug c);
  st_db : is_Some (ex_db s !! cp_slug c);
  st_ceil : ∀ rid i, ex_limiters s !! (cp_slug c, rid) = Some i → ceiling_of i s = cp_max c ∧ (in_flight i s ≤ cp_max c)%Z;
}.
Definition Inv s : Prop := Good s ∧ ∀ c, cap = Some c → Static c s.
Record Moves s s' : Prop := {
  mv_flight : ∀ i, in_flight i s' = in_flight i s;
  mv_length : length (ex_heap s) ≤ length (ex_heap s');
  mv_entry : ∀ c rid i, cap = Some c → ex_limiters s !! (cp_slug c, rid) = Some i → ex_limiters s' !! (cp_slug c, rid) = Some i;
  mv_back : ∀ c rid i, cap = Some c → i < length (ex_heap s) → ex_limiters s' !! (cp_slug c, rid) = Some i →
    ex_limiters s !! (cp_slug c, rid) = Some i;
}.
#[global] Instance Moves_preorder : PreOrder Moves.
Proof.
  split; [by split|]. intros a b c [H1 L1 E1 B1] [H2 L2 E2 B2]. split; [intros i; by rewrite H2|lia|intros; eauto|].
  intros cp rid i Hc Hi Hl. apply B1; [done..|]. apply B2; [done|lia|done].
Qed.

(** An action that keeps the invariant and counts nothing. *)
Definition fine (f : Ext → Ext) : Prop := ∀ s, Inv s → Inv (f s) ∧ Moves s (f s).
Lemma fine_comp f g : fine f → fine g → fine (λ s, g (f s)).
Proof.
  intros Hf Hg s Hs. destruct (Hf s Hs) as [Hi Hm]. destruct (Hg _ Hi) as [Hi' Hm']. split; [done|by etransitivity].
Qed.
Lemma fine_foldl {A} (f : Ext → A → Ext) (l : list A) : (∀ a, a ∈ l → fine (λ s, f s a)) → fine (λ s, foldl f s l).
Proof.
  induction l as [|a l IH]; intros Hf s Hs; [split; [done|reflexivity]|]. cbn.
  apply (fine_comp (λ s, f s a) (λ s, foldl f s l)); [apply Hf; by left| |done]. apply IH. intros b Hb. apply Hf. by right.
Qed.

(** ** Tables *)

Lemma fine_resolved (f : gmap string (list DiscoveredReplica) → gmap string (list DiscoveredReplica)) :
  fine (λ s, put_resolved (f (ex_resolved s)) s).
Proof. intros s [[] Hst]. split; [|by split]. split; [by split|]. intros c Hc. destruct (Hst c Hc). by split. Qed.
Lemma fine_insert_resolved sl l : fine (insert_resolved sl l).
Proof. apply (fine_resolved (<[sl := l]>)). Qed.

Lemma fine_put_map ep : fits_row ep → fine (λ s, put_map (<[slug ep := ep]> (ex_map s)) s).
Proof.
  intros Hep s [[H1 H2 H3 H4 H5] Hst]. split; [|by split]. split.
  - split; try done. cbn. intros k e. rewrite lookup_insert_Some. intros [[<- <-]|[_ He]]; [done|by apply H5].
  - intros c Hc. destruct (Hst c Hc) as [Hm Hd Hl]. split; [|done..]. cbn. destruct (decide (slug ep = cp_slug c)) as [->|Hne].
    + rewrite lookup_insert_eq. by eexists. + by rewrite lookup_insert_ne.
Qed.
Lemma fine_put_db ep : fits_row ep → fine (λ s, put_db (<[slug ep := ep]> (ex_db s)) s).
Proof.
  intros Hep s [[H1 H2 H3 H4 H5] Hst]. split; [|by split]. split.
  - split; try done. cbn. intros k e. rewrite lookup_insert_Some. intros [[<- <-]|[_ He]]; [done|by apply H4].
  - intros c Hc. destruct (Hst c Hc) as [Hm Hd Hl]. split; [done| |done]. cbn. destruct (decide (slug ep = cp_slug c)) as [->|Hne].
    + rewrite lookup_insert_eq. by eexists. + by rewrite lookup_insert_ne.
Qed.
Lemma fine_delete_map sl : other sl → fine (λ s, put_map (delete sl (ex_map s)) s).
Proof.
  intros Ho s [[H1 H2 H3 H4 H5] Hst]. split; [|by split]. split.
  - split; try done. cbn. intros k e [_ He]%lookup_delete_Some. by apply H5.
  - intros c Hc. destruct (Hst c Hc) as [Hm Hd Hl]. split; [|done..]. cbn. rewrite lookup_delete_ne by by apply Ho. done.
Qed.
Lemma fine_delete_db sl : other sl → fine (λ s, put_db (delete sl (ex_db s)) s).
Proof.
  intros Ho s [[H1 H2 H3 H4 H5] Hst]. split; [|by split]. split.
  - split; try done. cbn. intros k e [_ He]%lookup_delete_Some. by apply H4.
  - intros c Hc. destruct (Hst c Hc) as [Hm Hd Hl]. split; [done| |done]. cbn. rewrite lookup_delete_ne by by apply Ho. done.
Qed.

(** ** Limiters *)

Lemma in_flight_alter_ceil i j c s : in_flight i (put_heap (alter (set_ceil c) j (ex_heap s)) s) = in_flight i s.
Proof.
  unfold in_flight. cbn. destruct (decide (i = j)) as [->|Hne].
  - rewrite list_lookup_alter, decide_True by done. by destruct (ex_heap s !! j). - by rewrite list_lookup_alter_ne.
Qed.
Lemma ceiling_alter_ceil i j c s :
  ceiling_of i (put_heap (alter (set_ceil c) j (ex_heap s)) s) = c ∨
  ceiling_of i (put_heap (alter (set_ceil c) j (ex_heap s)) s) = ceiling_of i s.
Proof.
  unfold ceiling_of. cbn. destruct (decide (i = j)) as [->|Hne].
  - rewrite list_lookup_alter, decide_True by done. destruct (ex_heap s !! j); [by left|by right]. - right. by rewrite list_lookup_alter_ne.
Qed.
Lemma ceiling_alter_ceil_ne i j c s : i ≠ j → ceiling_of i (put_heap (alter (set_ceil c) j (ex_heap s)) s) = ceiling_of i s.
Proof. intros Hne. unfold ceiling_of. cbn. by rewrite list_lookup_alter_ne. Qed.

(** The ceiling of a limiter of another slug is stored. *)
Lemma fine_store k i c s :
  ex_limiters s !! k = Some i → (c ≤ ty_max i64)%Z → other k.1 →
  Inv s → Inv (put_heap (alter (set_ceil c) i (ex_heap s)) s) ∧ Moves s (put_heap (alter (set_ceil c) i (ex_heap s)) s).
Proof.
  intros Hk Hc Ho [[H1 H2 H3 H4 H5] Hst]. split.
  2:{ split; [intros j; apply in_flight_alter_ceil|cbn; by rewrite length_alter|done..]. }
  split.
  - split; try done; [intros k' j Hj; cbn; rewrite length_alter; by eapply H1|].
    intros j. destruct (ceiling_alter_ceil j i c s) as [->| ->]; [done|apply H3].
  - intros cp Hcp. destruct (Hst cp Hcp) as [Hm Hd Hl]. split; [done..|]. intros rid j Hj.
    rewrite in_flight_alter_ceil, ceiling_alter_ceil_ne; [by eapply Hl|]. intros ->.
    apply (Ho cp Hcp). by rewrite (H2 _ _ _ Hk Hj).
Qed.
Lemma lookup_app_new (h : list Limiter) l i : (h ++ [l]) !! i = h !! i ∨ (h !! i = None ∧ (h ++ [l]) !! i = Some l) ∨ (h !! i = None ∧ (h ++ [l]) !! i = None).
Proof.
  destruct (decide (i < length h)) as [Hlt|Hge]; [left; by apply lookup_app_l|right].
  rewrite lookup_app_r by lia. rewrite (lookup_ge_None_2 h) by lia. destruct (i - length h) as [|n]; [by left|by right].
Qed.
(** A limiter is made, and put in the table. *)
Definition alloc (key : string * ReplicaId) (c : Z) s : Ext :=
  put_limiters (<[key := length (ex_heap s)]> (ex_limiters s)) (ex_heap s ++ [ConcurrencyLimiter_new c]) s.
Lemma alloc_flight key c s i : in_flight i (alloc key c s) = in_flight i s.
Proof. unfold in_flight. cbn. by destruct (lookup_app_new (ex_heap s) (ConcurrencyLimiter_new c) i) as [->|[[-> ->]|[-> ->]]]. Qed.
Lemma alloc_old key c s i : i < length (ex_heap s) → ceiling_of i (alloc key c s) = ceiling_of i s.
Proof. intros Hi. unfold ceiling_of. cbn. by rewrite lookup_app_l. Qed.
Lemma alloc_new key c s : ceiling_of (length (ex_heap s)) (alloc key c s) = c.
Proof. unfold ceiling_of. cbn. by rewrite lookup_app_r, Nat.sub_diag by done. Qed.
Lemma alloc_good key c s : (c ≤ ty_max i64)%Z → Good s → Good (alloc key c s).
Proof.
  intros Hc [H1 H2 H3 H4 H5]. split; try done.
  - intros k i. cbn. rewrite lookup_insert_Some, length_app. cbn. intros [[_ <-]|[_ Hi%H1]]; lia.
  - intros k k' i. cbn. rewrite !lookup_insert_Some.
    intros [[<- <-]|[_ Hi]] [[<- Hj]|[_ Hj]]; [done|apply H1 in Hj; lia|apply H1 in Hi; lia|by eapply H2].
  - intros i. destruct (decide (i < length (ex_heap s))); [rewrite alloc_old by done; apply H3|].
    destruct (decide (i = length (ex_heap s))) as [->|Hne]; [by rewrite alloc_new|].
    unfold ceiling_of. cbn. rewrite lookup_ge_None_2; [done|]. rewrite length_app. cbn. lia.
Qed.
Definition capped_limiters (c : Cap) s : Prop :=
  ∀ rid i, ex_limiters s !! (cp_slug c, rid) = Some i → ceiling_of i s = cp_max c ∧ (in_flight i s ≤ cp_max c)%Z.
Lemma alloc_capped key m c s :
  cap = Some c → Good s → (key.1 = cp_slug c → m = cp_max c) → capped_limiters c s → capped_limiters c (alloc key m s).
Proof.
  intros Hc Hg Hm Hl rid i. cbn. rewrite lookup_insert_Some, alloc_flight. intros [[-> <-]|[_ Hi]].
  - rewrite alloc_new. split; [by apply Hm|]. unfold in_flight. rewrite lookup_ge_None_2 by done. cbn. by apply Hplain.
  - rewrite alloc_old by (by eapply gd_locs). by eapply Hl.
Qed.
Lemma fine_new key c s :
  ex_limiters s !! key = None → (c ≤ ty_max i64)%Z → (∀ cp, cap = Some cp → key.1 = cp_slug cp → c = cp_max cp) →
  Inv s → Inv (alloc key c s) ∧ Moves s (alloc key c s).
Proof.
  intros Hk Hc Hcap [Hg Hst]. split.
  - split; [by apply alloc_good|]. intros cp Hcp. destruct (Hst cp Hcp) as [Hm Hd Hl]. split; [done..|].
    apply alloc_capped; auto.
  - split; [apply alloc_flight|cbn; rewrite length_app; lia| |]; intros cp rid i _; cbn.
    + intros Hi. rewrite lookup_insert_ne; [done|]. congruence.
    + rewrite lookup_insert_Some. intros Hi [[_ <-]|[_ ?]]; [lia|done].
Qed.

(** *** At the start *)

Lemma hydrate_good row s :
  fits_row row → Good s → (∀ c, cap = Some c → capped_limiters c s) →
  Good (hydrate s row) ∧ ∀ c, cap = Some c → capped_limiters c (hydrate s row).
Proof.
  intros Hrow Hg Hl. unfold hydrate. destruct (resolve_replicas row) as [l| |]; [|done..].
  set (s1 := put_map _ s).
  assert (Good s1 ∧ ∀ c, cap = Some c → capped_limiters c s1) as H1.
  { destruct Hg as [H1 H2 H3 H4 H5]. split; [|done]. split; try done. unfold s1. cbn. intros k e. rewrite lookup_insert_Some.
    intros [[<- <-]|[_ He]]; [done|by apply H5]. }
  clearbody s1. clear Hg Hl. match goal with |- context [put_resolved _ ?s2] => assert (Good s2 ∧ ∀ c, cap = Some c → capped_limiters c s2) as [H2 H3] end.
  { case_decide; [|done]. revert s1 H1. induction l as [|r l IH]; intros s1 [Hg Hl]; [done|]. cbn [foldl].
    destruct Hrow as [Hm Hcap]. apply IH. split; [apply alloc_good; [cbn in *; lia|done]|]. intros c Hc.
    apply alloc_capped; [done|done| |by apply Hl]. intros Heq. by destruct (Hcap c Hc Heq) as [-> _]. }
  split; [|exact H3]. by destruct H2.
Qed.
Lemma hydrate_tables row s :
  ex_db (hydrate s row) = ex_db s ∧
  ex_map (hydrate s row) = if is_ok (resolve_replicas row) then <[slug row := row]> (ex_map s) else ex_map s.
Proof.
  unfold hydrate. destruct (resolve_replicas row) as [l| |]; [|done..]. cbn.
  assert (∀ s, ex_map (foldl (fresh_limiter row) s l) = ex_map s ∧ ex_db (foldl (fresh_limiter row) s l) = ex_db s) as Hf.
  { induction l as [|r l IH]; intros s'; [done|]. cbn. apply (IH (fresh_limiter row s' r)). }
  case_decide; [|done]. by destruct (Hf (put_map (<[slug row:=row]> (ex_map s)) s)) as [-> ->].
Qed.
Lemma New_flight db i : in_flight i (ExternalEndpointMgr_New db) = 0%Z.
Proof.
  assert (∀ row l s, in_flight i (foldl (fresh_limiter row) s l) = in_flight i s) as Hl.
  { intros row l. induction l as [|r l IH]; intros s; [done|]. cbn. rewrite IH. apply (alloc_flight (slug row, dr_id r)). }
  assert (∀ l s, in_flight i (foldl hydrate s l) = in_flight i s) as Hg.
  { induction l as [|row l IH]; intros s; [done|]. cbn. rewrite IH. unfold hydrate. destruct (resolve_replicas row) as [rs| |]; [|done..].
    case_decide; [|done]. apply (Hl row rs (put_map (<[slug row:=row]> (ex_map s)) s)). }
  unfold ExternalEndpointMgr_New. rewrite Hg. unfold in_flight. cbn. by rewrite lookup_nil.
Qed.
(** The table that the gateway starts with: rows under their slugs, and the row
    of the cap with replicas that resolve. *)
Definition good_table (db : gmap string (ExternalEndpoint (J:=J))) : Prop :=
  (∀ k ep, db !! k = Some ep → slug ep = k ∧ fits_row ep) ∧
  (∀ c, cap = Some c → ∃ ep, db !! cp_slug c = Some ep ∧ is_ok (resolve_replicas ep) = true).
Lemma New_inv db : good_table db → Inv (ExternalEndpointMgr_New db).
Proof.
  intros [Hrows Hcap]. unfold ExternalEndpointMgr_New.
  assert (∀ l s, (∀ row, row ∈ l → fits_row row) → Good s → (∀ c, cap = Some c → capped_limiters c s) →
    let s' := foldl hydrate s l in Good s' ∧ (∀ c, cap = Some c → capped_limiters c s') ∧ ex_db s' = ex_db s ∧
    (∀ k, is_Some (ex_map s !! k) → is_Some (ex_map s' !! k)) ∧
    (∀ row, row ∈ l → is_ok (resolve_replicas row) = true → is_Some (ex_map s' !! slug row))) as Hgen.
  { induction l as [|row l IH]; intros s Hl Hg Hc; [split_and!; [done..|]; intros row Hr; by apply elem_of_nil in Hr|].
    destruct (hydrate_good row s) as [Hg1 Hc1]; [apply Hl; by left|done..|].
    destruct (hydrate_tables row s) as [Hdb Hmap].
    destruct (IH (hydrate s row)) as (H1 & H2 & H3 & H4 & H5); [intros r Hr; apply Hl; by right|done..|]. cbn.
    split_and!; [done|done|by rewrite H3| |].
    - intros k Hk. apply H4. rewrite Hmap. destruct (is_ok _); [|done].
      destruct (decide (slug row = k)) as [->|]; [rewrite lookup_insert_eq; by eexists|by rewrite lookup_insert_ne].
    - intros r [->|Hr]%elem_of_cons Hok; [|by apply H5]. apply H4. rewrite Hmap, Hok, lookup_insert_eq. by eexists. }
  destruct (Hgen (values db) (MkExt db ∅ ∅ ∅ [])) as (H1 & H2 & H3 & _ & H5).
  - intros row [k Hk]%elem_of_values. by eapply Hrows.
  - split; try done. all: intros *; unfold ceiling_of; cbn; rewrite ?lookup_nil, ?lookup_empty; done.
  - by intros c _ rid i Hi.
  - split; [done|]. intros c Hc. destruct (Hcap c Hc) as (ep & Hep & Hok). split.
    + assert (slug ep = cp_slug c) as <- by by eapply Hrows. apply H5; [|done]. apply elem_of_values. by eexists.
    + rewrite H3. cbn. by eexists.
    + by apply H2.
Qed.

Lemma fine_or_insert key c s :
  (c ≤ ty_max i64)%Z → (∀ cp, cap = Some cp → key.1 = cp_slug cp → c = cp_max cp) →
  Inv s → Inv (or_insert key c s).2 ∧ Moves s (or_insert key c s).2.
Proof.
  intros Hc Hcap Hs. unfold or_insert. destruct (ex_limiters s !! key) eqn:Hk; [split; [done|reflexivity]|]. by apply fine_new.
Qed.
Lemma fine_store_or_insert c key : (c ≤ ty_max i64)%Z → other key.1 → fine (store_or_insert c key).
Proof.
  intros Hc Ho s Hs. unfold store_or_insert. destruct (ex_limiters s !! key) as [i|] eqn:Hk; [by eapply fine_store|].
  apply fine_or_insert; [done|intros cp Hcp Heq; by destruct (Ho cp Hcp)|done].
Qed.
Lemma fine_store_all c sl l : (c ≤ ty_max i64)%Z → other sl → fine (store_all c sl l).
Proof. intros Hc Ho. apply (fine_foldl (λ s r, store_or_insert c (sl, dr_id r) s)). intros r _. by apply fine_store_or_insert. Qed.

(** Entries are dropped, none of the capped slug. *)
Lemma fine_filter (P : (string * ReplicaId) * nat → Prop) `{∀ p, Decision (P p)} s :
  (∀ c rid i, cap = Some c → ex_limiters s !! (cp_slug c, rid) = Some i → P ((cp_slug c, rid), i)) → Inv s →
  Inv (put_limiters (filter P (ex_limiters s)) (ex_heap s) s) ∧ Moves s (put_limiters (filter P (ex_limiters s)) (ex_heap s) s).
Proof.
  intros HP [[H1 H2 H3 H4 H5] Hst]. split.
  - split.
    + split; try done; cbn.
      * intros k i [Hk _]%map_lookup_filter_Some. by eapply H1.
      * intros k k' i [Hk _]%map_lookup_filter_Some [Hk' _]%map_lookup_filter_Some. by eapply H2.
    + intros c Hc. destruct (Hst c Hc) as [Hm Hd Hl]. split; [done..|]. cbn. intros rid i [Hi _]%map_lookup_filter_Some. by eapply Hl.
  - split; [done..| |]; intros c rid i Hc; cbn.
    + intros Hi. apply map_lookup_filter_Some. split; [done|]. by apply HP.
    + by intros _ [Hi _]%map_lookup_filter_Some.
Qed.
Lemma fine_retain sl ids : other sl → fine (retain_replicas sl ids).
Proof. intros Ho s Hs. apply fine_filter; [|done]. intros c rid i Hc _. left. cbn. intros Heq. by destruct (Ho c Hc). Qed.
Lemma fine_sweep : fine sweep_limiters.
Proof.
  intros s Hs. unfold sweep_limiters. apply fine_filter; [|done]. intros c rid i Hc Hi. cbn.
  case_decide; [done|]. destruct Hs as [[_ _ _ _ H5] Hst]. destruct (Hst c Hc) as [[ep Hep] _ _]. rewrite Hep.
  destruct (H5 _ _ Hep) as [Hs [_ Hcap]]. destruct (Hcap c Hc Hs) as (Hmax & _). apply bool_decide_eq_true. rewrite Hmax. by apply Hplain.
Qed.
Lemma fine_store_slug c sl : (c ≤ ty_max i64)%Z → other sl → fine (store_slug c sl).
Proof.
  intros Hc Ho s Hs. unfold store_slug.
  assert (∀ p, p ∈ filter (λ p, p.1.1 = sl) (map_to_list (ex_limiters s)) → p.1.1 = sl ∧ ex_limiters s !! p.1 = Some p.2) as Hl.
  { intros [k i]. rewrite list_elem_of_filter, elem_of_map_to_list. done. }
  revert Hl. generalize (filter (λ p, p.1.1 = sl) (map_to_list (ex_limiters s))) as l. intros l.
  assert (∀ s', ex_limiters s' = ex_limiters s → Inv s' → (∀ p, p ∈ l → p.1.1 = sl ∧ ex_limiters s !! p.1 = Some p.2) →
          Inv (foldl (λ s p, put_heap (alter (set_ceil c) p.2 (ex_heap s)) s) s' l) ∧
          Moves s' (foldl (λ s p, put_heap (alter (set_ceil c) p.2 (ex_heap s)) s) s' l)) as Hgen; [|by intros; apply Hgen].
  induction l as [|p l IH]; intros s' Heq Hs' Hl; [split; [done|reflexivity]|]. cbn [foldl].
  destruct (Hl p) as [Hsl Hp]; [by left|].
  destruct (fine_store p.1 p.2 c s') as [Hi Hm]; [by rewrite Heq|done|by rewrite Hsl|done|].
  destruct (IH (put_heap (alter (set_ceil c) p.2 (ex_heap s')) s')) as [Hi' Hm']; [done|done|intros q Hq; apply Hl; by right|].
  split; [done|by etransitivity].
Qed.
Lemma fine_set_ceiling sl rid c : (c ≤ ty_max i64)%Z → other sl → fine (set_ceiling sl rid c).
Proof.
  intros Hc Ho s Hs. unfold set_ceiling. destruct (ex_map s !! sl); [|split; [done|reflexivity]].
  match goal with |- context [if ?b then _ else _] => destruct b end; [|split; [done|reflexivity]].
  destruct (ex_limiters s !! (sl, rid)) as [i|] eqn:Hk; [|split; [done|reflexivity]].
  eapply fine_store; [done| |done|done]. assert (1 ≤ ty_max i64)%Z by done. lia.
Qed.
End inv.
