(* ===== verification/ExternalSteps.v ===== *)
(** * Calls on external endpoints keep the invariant, action by action *)

From S2P Require Import Prelude.
From S2P Require Import BTree.
From S2P Require Import Common.
From S2P Require Import Atomic.
From S2P Require Import External.
From S2P Require Import Ceiling.
From S2P Require Import ExternalInv.

Section steps.
Context {J F : Type} {crates : ExternalCrates J} {floats : MetricsFloat F}.
Abbreviation Ext := (External.Ext (J:=J)).
Implicit Types (s : Ext) (ep : ExternalEndpoint (J:=J)).
Context (cap : option (Cap (J:=J))).
Context (Hplain : ∀ c, cap = Some c → plain c).
Abbreviation Inv := (ExternalInv.Inv cap).
Abbreviation Moves := (ExternalInv.Moves cap).
Abbreviation fits_row := (ExternalInv.fits_row cap).
Abbreviation other := (ExternalInv.other cap).
Abbreviation quiet := (keeps Inv Moves).

Lemma quiet_reads {A} (Q : A → Prop) (f : Ext → A) : (∀ s, Inv s → Q (f s)) → quiet Q (reads f).
Proof. intros Hq. apply keeps_reads; [reflexivity|done]. Qed.
Lemma quiet_acts (Q : unit → Prop) f : fine cap f → Q tt → quiet Q (acts f).
Proof. intros Hf Hq. by apply keeps_acts. Qed.
Lemma quiet_when (b : bool) (p : prog Ext unit) :
  (b = true → quiet (λ _, True) p) → quiet (λ _, True) (if b then p else mret tt).
Proof. destruct b; [by intros H; apply H|done]. Qed.
Lemma quiet_then {A B} (P : A → Prop) (Q : B → Prop) (p : prog Ext A) (k : A → prog Ext B) :
  quiet P p → (∀ a, P a → quiet Q (k a)) → quiet Q (p ≫= k).
Proof. apply actions_bind. Qed.

Lemma i32_i64 z : (z ≤ ty_max i32)%Z → (z ≤ ty_max i64)%Z.
Proof. cbn. lia. Qed.

(** ** The mirror *)

Lemma quiet_upsert_backends ep : (max_concurrency ep ≤ ty_max i32)%Z → other (slug ep) → quiet (λ _, True) (upsert_backends ep).
Proof.
  intros Hm%i32_i64 Ho. unfold upsert_backends. destruct (resolve_replicas ep) as [l| |]; [|done..].
  apply (quiet_then (λ _, True)).
  { case_decide; [|done]. apply quiet_acts; [|done].
    apply (fine_comp cap (retain_replicas (slug ep) (dr_id <$> l)) (store_all (max_concurrency ep) (slug ep) l));
      [by apply fine_retain|by apply fine_store_all]. }
  intros _ _. apply (quiet_then (λ _, True)); [|done]. apply quiet_acts; [apply fine_insert_resolved|done].
Qed.
Lemma quiet_upsert_dynamic ep : (max_concurrency ep ≤ ty_max i32)%Z → other (slug ep) → quiet (λ _, True) (upsert_dynamic ep).
Proof.
  intros Hm%i32_i64 Ho. unfold upsert_dynamic. apply (quiet_then (λ _, True)); [by apply quiet_reads|]. intros r _.
  apply (quiet_then (λ _, True)); [by apply quiet_reads|]. intros missing _. apply (quiet_then (λ _, True)).
  { apply quiet_when. intros _. apply quiet_acts; [apply fine_insert_resolved|done]. }
  intros _ _. apply quiet_acts; [by apply fine_store_all|done].
Qed.
Lemma quiet_upsert_default ep : quiet (λ _, True) (upsert_default ep).
Proof.
  unfold upsert_default. apply (quiet_then (λ _, True)); [by apply quiet_reads|]. intros missing _.
  destruct missing; [|done]. destruct (resolve_replicas ep); [|done..]. apply quiet_acts; [apply fine_insert_resolved|done].
Qed.

(** What a row of the mirror tells of the row that replaces it. *)
Definition compared (old : option (ExternalEndpoint (J:=J))) ep : Prop :=
  ∀ c, cap = Some c → slug ep = cp_slug c →
    max_changed old ep = false ∧ metrics_changed old ep = false ∧ backends_changed old ep = false ∧ has_metrics ep = false.
Lemma old_compared ep s : fits_row ep → Inv s → compared (Ext_Get (slug ep) s) ep.
Proof.
  intros [_ Hep] [[_ _ _ _ Hmap] Hst] c Hc Hs. destruct (Hst c Hc) as [[old Hold] _ _].
  unfold Ext_Get. rewrite Hs, Hold. destruct (Hmap _ _ Hold) as [Hso [_ Hcap]].
  destruct (Hcap c Hc Hso) as (Ho1 & Ho2 & Ho3). destruct (Hep c Hc Hs) as (He1 & He2 & He3).
  unfold max_changed, metrics_changed, backends_changed, has_metrics, config.
  rewrite He3, He2, !bool_decide_eq_true_2 by (cbn; congruence). split_and!; [done..|].
  destruct (Hplain c Hc) as [_ ->]. by rewrite bool_decide_eq_false_2 by by intros [? ?].
Qed.
Lemma not_compared old ep : compared old ep → max_changed old ep || metrics_changed old ep || backends_changed old ep = true ∨
  backends_changed old ep = true ∨ has_metrics ep = true → other (slug ep).
Proof.
  intros Hc Hch c Hcap Hs. destruct (Hc c Hcap Hs) as (H1 & H2 & H3 & H4). rewrite H1, H2, H3, H4 in Hch. naive_solver.
Qed.
Lemma quiet_upsert ep : fits_row ep → quiet (λ _, True) (upsert_mirror ep).
Proof.
  intros Hep. pose proof Hep as [Hm _]. unfold upsert_mirror.
  apply (quiet_then (λ old, compared old ep)); [apply quiet_reads; intros s Hs; by apply old_compared|]. intros old Hold.
  apply (quiet_then (λ _, True)).
  { destruct (bool_decide (is_Some (config ep)) && backends_changed old ep) eqn:H1.
    { apply andb_true_iff in H1 as [_ H1]. apply quiet_upsert_backends; [done|]. eapply not_compared; [done|auto]. }
    destruct (has_metrics ep && _) eqn:H2.
    { apply andb_true_iff in H2 as [H2 _]. apply (quiet_then (λ _, True)); [|done]. apply quiet_when. intros _.
      apply quiet_upsert_dynamic; [done|]. eapply not_compared; [done|auto]. }
    destruct ((max_changed old ep || metrics_changed old ep || backends_changed old ep) && _) eqn:H3; [|done].
    apply andb_true_iff in H3 as [H3 _]. apply (quiet_then (λ _, True)); [|done]. apply quiet_acts; [|done].
    apply fine_store_slug; [by apply i32_i64|]. eapply not_compared; [done|auto]. }
  intros go _. destruct go; [|done]. apply (quiet_then (λ _, True)); [apply quiet_upsert_default|]. intros _ _.
  apply quiet_acts; [|done]. by apply fine_put_map.
Qed.

(** ** Queries *)

(** The row that a query answers. *)
Definition answers_row (r : Share.Result (ExternalEndpoint (J:=J))) : Prop := ∀ ep, r = Ok ep → fits_row ep.
Lemma keeps_query {A} (Q : Share.Result A → Prop) failure (f : Ext → Share.Result A * Ext) :
  (∀ e, Q (Err e)) → (∀ s, Inv s → Inv (f s).2 ∧ Moves s (f s).2 ∧ Q (f s).1) → quiet Q (query failure f).
Proof.
  intros He Hf. apply keeps_atomically. intros s Hs. destruct failure; cbn; [|by apply Hf]. split_and!; [done|reflexivity|done].
Qed.
Lemma store_row_quiet ep s : fits_row ep → Inv s → Inv (store_row ep s).2 ∧ Moves s (store_row ep s).2 ∧ answers_row (store_row ep s).1.
Proof.
  intros Hep Hs. unfold store_row. destruct (row_ok ep); cbn; [|split_and!; [done|reflexivity|by intros ?]].
  destruct (fine_put_db cap ep Hep s Hs) as [Hi Hm]. split_and!; [done..|]. intros ep' [= <-]. done.
Qed.
Lemma quiet_write_through q : quiet answers_row q → quiet (λ _, True) (write_through q).
Proof.
  intros Hq. apply (quiet_then answers_row); [done|]. intros r Hr. destruct r as [ep| |]; [|done..].
  apply (quiet_then (λ _, True)); [|done]. by apply quiet_upsert, Hr.
Qed.
Lemma quiet_insert failure row : fits_row row → quiet (λ _, True) (Ext_Create failure row).
Proof.
  intros Hr. apply quiet_write_through, keeps_query; [by intros e ?|]. intros s Hs. unfold InsertExternalEndpoint.
  destruct (ex_db s !! slug row); [split_and!; [done|reflexivity|by intros ?]|by apply store_row_quiet].
Qed.
Lemma quiet_update failure sl url model key max metrics back :
  other sl → (max ≤ ty_max i32)%Z → quiet (λ _, True) (Ext_Update failure sl url model key max metrics back).
Proof.
  intros Ho Hm. apply quiet_write_through, keeps_query; [by intros e ?|]. intros s Hs. unfold UpdateExternalEndpoint.
  destruct (ex_db s !! sl); [|split_and!; [done|reflexivity|by intros ?]]. apply store_row_quiet; [|done].
  split; [done|]. intros c Hc Heq. by destruct (Ho c Hc).
Qed.
Lemma quiet_publish failure sl publish by_ : quiet (λ _, True) (SetPublished failure sl publish by_).
Proof.
  apply quiet_write_through, keeps_query; [by intros e ?|]. intros s Hs. unfold SetExternalEndpointPublished.
  destruct (ex_db s !! sl) as [r|] eqn:Hr; [|split_and!; [done|reflexivity|by intros ?]]. apply store_row_quiet; [|done].
  destruct Hs as [[_ _ _ Hdb _] _]. destruct (Hdb _ _ Hr) as [Hs [Hm Hc]]. split; [done|]. intros c Hcap Heq. apply Hc; [done|].
  by rewrite Hs.
Qed.
Lemma quiet_delete failure sl : other sl → quiet (λ _, True) (Ext_Delete failure sl).
Proof.
  intros Ho. apply (quiet_then (λ _, True)).
  { apply keeps_query; [done|]. intros s Hs. unfold DeleteExternalEndpoint. destruct (ex_db s !! sl); cbn.
    - destruct (fine_delete_db cap sl Ho s Hs). by split_and!. - split_and!; [done|reflexivity|done]. }
  intros r _. destruct r; [|done..]. apply (quiet_then (λ _, True)); [apply quiet_acts; [by apply fine_delete_map|done]|].
  intros _ _. apply (quiet_then (λ _, True)); [|done]. apply quiet_acts; [|done]. apply (fine_resolved cap (delete sl)).
Qed.
Lemma quiet_and_then {A B} (m : Share.Result A) (k : A → prog Ext (Share.Result B)) :
  (∀ a, m = Ok a → quiet (λ _, True) (k a)) → quiet (λ _, True) (and_then m k).
Proof. destruct m; cbn; [by intros H; apply H|done..]. Qed.

(** ** The controller *)

Lemma step_ceiling c w kv n t new : step (F:=F) c w kv n t = Ok new → (c ≤ ty_max i64)%Z → (new ≤ ty_max i64)%Z.
Proof.
  unfold step. intros Hs Hc. destruct (_ || _).
  - inv_ok. unfold fits in *. cbn in *. lia.
  - destruct (_ && _); inv_ok; [|done]. unfold fits in *. lia.
Qed.
Lemma quiet_control t scrapes st p : other (slug p.1) → quiet (λ _, True) (control (J:=J) (F:=F) t scrapes st p).
Proof.
  intros Ho. unfold control. destruct st as [state| |]; [|done..]. destruct p as [ep r].
  apply (quiet_then (λ c, ∀ z, c = Some z → (z ≤ ty_max i64)%Z)).
  { apply quiet_reads. intros s [[_ _ Hc _ _] _] z Hz. unfold get_ceiling in Hz.
    apply bind_Some in Hz as (i & Hi & (l & Hl & ->)%fmap_Some). specialize (Hc i). unfold ceiling_of in Hc. by rewrite Hl in Hc. }
  intros c Hc. apply (quiet_then (λ _, True)); [by apply quiet_reads|]. intros n _.
  destruct (decide_ceiling _ _ _ _ _ _) as [[next change]| |] eqn:Hd; [|done..].
  apply (quiet_then (λ _, True)); [|done]. destruct change as [[[old new] m]|]; [|done]. apply quiet_acts; [|done].
  apply fine_set_ceiling; [|done]. unfold decide_ceiling in Hd. destruct (scrape _); [|by inv_ok; simplify_eq|done].
  destruct c as [z|]; [|by inv_ok; simplify_eq]. inv_ok. simplify_option_eq. eapply step_ceiling; [done|by apply Hc].
Qed.
Lemma quiet_tick t scrapes state : quiet (λ _, True) (tick (J:=J) (F:=F) t scrapes state).
Proof.
  unfold tick.
  apply (quiet_then (λ l, ∀ ep, ep ∈ l → has_metrics ep = true → other (slug ep))).
  { apply quiet_reads. intros s [[_ _ _ _ Hmap] _] ep Hep Hmet c Hc Hs. unfold Ext_List in Hep. apply elem_of_values in Hep as [k Hk].
    destruct (Hmap _ _ Hk) as [_ [_ Hcap]]. destruct (Hcap c Hc Hs) as (_ & Hn & Hb). unfold has_metrics, config in Hmet.
    rewrite Hn, Hb in Hmet. destruct (Hplain c Hc) as [_ Hp]. rewrite Hp in Hmet.
    rewrite bool_decide_eq_false_2 in Hmet by by intros [? ?]. done. }
  intros l Hl. apply (quiet_then (λ d, ∀ p, p ∈ d → other (slug p.1))).
  { unfold metered. apply keeps_foldP; [intros p Hp; by apply elem_of_nil in Hp|]. intros acc ep Hacc Hep.
    destruct (has_metrics ep && _) eqn:Hm; [|done]. apply andb_true_iff in Hm as [Hm _].
    apply (quiet_then (λ _, True)); [by apply quiet_reads|]. intros rs _. cbn. intros p. rewrite elem_of_app.
    intros [Hp|(r & -> & _)%list_elem_of_fmap]; [by apply Hacc|]. by apply Hl. }
  intros d Hd. apply (quiet_then (λ _, True)).
  { destruct (foldlM _ _ _); [|done..]. apply keeps_foldP; [done|]. intros st p _ Hp. by apply quiet_control, Hd. }
  intros st _. destruct st; [|done..]. apply (quiet_then (λ _, True)); [|done]. apply quiet_acts; [by apply fine_sweep|done].
Qed.
End steps.
