(* ===== verification/ExternalSafe.v ===== *)
(** * Every run counts its requests in flight *)

From S2P Require Import Prelude.
From S2P Require Import BTree.
From S2P Require Import Text.
From S2P Require Import Common.
From S2P Require Import Atomic.
From S2P Require Import External.
From S2P Require Import Ceiling.
From S2P Require Import ExternalRuns.
From S2P Require Import ExternalInv.
From S2P Require Import ExternalSteps.

Section safe.
Context {J F : Type} {crates : ExternalCrates J} {floats : MetricsFloat F}.
Abbreviation Ext := (External.Ext (J:=J)).
Abbreviation Serve := (ExternalRuns.Serve (J:=J)).
Context (cap : option (Cap (J:=J))).
Context (Hplain : ∀ c, cap = Some c → plain c).
Abbreviation Inv := (ExternalInv.Inv cap).
Abbreviation Moves := (ExternalInv.Moves cap).
Abbreviation quiet := (keeps Inv Moves).
Implicit Types (s : Ext) (sv : Serve) (peak : nat → Z).

(** What comes in: 32-bit caps; the row of the cap is left alone, but may be
    published. *)
Definition good_event (ev : Event (J:=J)) : Prop :=
  match ev with
  | VAdmin (OCreate _ _ _ req) => (cq_max_concurrency req ≤ ty_max i32)%Z ∧ other cap (trim (cq_slug req))
  | VAdmin (OUpdate _ _ sl req) => (uq_max_concurrency req ≤ ty_max i32)%Z ∧ other cap sl
  | VAdmin (ODelete _ _ _ _ _ sl _) => other cap sl
  | _ => True
  end.

(** The states that a gateway reaches, with the highest ceiling that each
    limiter has had. *)
Inductive reaches (db : gmap string (ExternalEndpoint (J:=J))) : (nat → Z) → Serve → Prop :=
| reaches_init : reaches db (λ i, ceiling_of i (sv_ext (sv_init db))) (sv_init db)
| reaches_step ev peak sv :
    good_event ev → reaches db peak sv →
    reaches db (λ i, Z.max (peak i) (ceiling_of i (sv_ext (sv_step ev sv)))) (sv_step ev sv).

(** ** Requests *)

Definition is_cap (sl : string) (c : Cap (J:=J)) : Prop := cap = Some c ∧ sl = cp_slug c.
Definition at_entry (sl : string) (rid : ReplicaId) (i : nat) s : Prop :=
  i < length (ex_heap s) ∧ (∀ c, is_cap sl c → ex_limiters s !! (cp_slug c, rid) = Some i) ∧
  ∀ c rid', cap = Some c → ex_limiters s !! (cp_slug c, rid') = Some i → sl = cp_slug c.
Definition max_ok (sl : string) (max : Z) : Prop := (max ≤ ty_max i32)%Z ∧ ∀ c, is_cap sl c → max = cp_max c.
Definition acquiring peak (sl : string) (rid : ReplicaId) (pc : AcqPc) s : Prop :=
  match pc with
  | AStart => True
  | ALookup max | ACreate max => max_ok sl max
  | ALoad i | ACeil i _ => at_entry sl rid i s
  | ACas i n c => at_entry sl rid i s ∧ (n < c ≤ peak i)%Z ∧ (c ≤ ty_max i64)%Z ∧ ∀ cp, is_cap sl cp → c = cp_max cp
  | AGot _ | AFull => False
  end.
Definition permit_ok (sl : string) (rid : ReplicaId) (p : Permit) s : Prop :=
  match p with Some i => at_entry sl rid i s | None => ∀ c, ¬ is_cap sl c end.
Definition request_ok peak (r : Request) s : Prop :=
  match rq_pc r with
  | RNext _ _ | RDone _ => True
  | RAcquire pc replica _ _ => acquiring peak (rq_slug r) (dr_id replica) pc s
  | RProxy p replica _ _ | RDrop p replica _ | RHold p replica _ => permit_ok (rq_slug r) (dr_id replica) p s
  end.
(** A request that has not asked a replica yet. *)
Definition fresh (o : option Request) : Prop :=
  ∀ r, o = Some r → match rq_pc r with RNext _ _ | RDone _ => True | _ => False end.
Definition task_ok peak (t : Task (J:=J)) s : Prop :=
  match t with
  | TStart p => quiet fresh p
  | TRequest r => request_ok peak r s
  | TAdmin p => quiet (λ _, True) p
  end.

(** What stays true of the others while one moves. *)
Record Later s s' : Prop := {
  lt_length : length (ex_heap s) ≤ length (ex_heap s');
  lt_entry : ∀ c rid i, cap = Some c → ex_limiters s !! (cp_slug c, rid) = Some i → ex_limiters s' !! (cp_slug c, rid) = Some i;
  lt_back : ∀ c rid i, cap = Some c → i < length (ex_heap s) → ex_limiters s' !! (cp_slug c, rid) = Some i →
    ex_limiters s !! (cp_slug c, rid) = Some i;
}.
Lemma Moves_Later s s' : Moves s s' → Later s s'.
Proof. intros [_ H1 H2 H3]. by split. Qed.
Lemma entry_of sl rid i s : Inv s → ex_limiters s !! (sl, rid) = Some i → at_entry sl rid i s.
Proof.
  intros [[H1 H2 _ _ _] _] Hi. split_and!; [by eapply H1|by intros c [_ <-]|]. intros c rid' Hc Hi'.
  by injection (H2 _ _ _ Hi Hi').
Qed.
Lemma at_entry_later sl rid i s s' : Later s s' → at_entry sl rid i s → at_entry sl rid i s'.
Proof.
  intros [Hl He Hb] (Hi & Hc & Ho). split_and!; [lia| |].
  - intros c Hcap. pose proof Hcap as [? _]. eapply He; [done|]. by apply Hc.
  - intros c rid' Hcap Hi'. apply (Ho c rid' Hcap). by apply Hb.
Qed.
Lemma task_ok_later peak peak' t s s' :
  Later s s' → (∀ i, peak i ≤ peak' i)%Z → task_ok peak t s → task_ok peak' t s'.
Proof.
  intros Hl Hp. destruct t as [p|r|p]; [done| |done]. unfold task_ok, request_ok.
  destruct (rq_pc r) as [|pc rep todo last|p rep ? ?|p rep ?|p rep ?|]; try done.
  2-4: destruct p as [i|]; [by apply at_entry_later|done].
  destruct pc as [| | |i|i n|i n c| |]; try done; [by apply at_entry_later..|]. intros (He & Hc & Hb & Hcap). split_and!; [by eapply at_entry_later| |specialize (Hp i); lia|done..]. lia.
Qed.

(** One action of [try_acquire]. *)
Definition gains (o : option (option Permit)) (i : nat) : Z :=
  match o with Some (Some (Some j)) => if decide (i = j) then 1 else 0 | _ => 0 end.
Lemma in_flight_alter i j n s :
  i < length (ex_heap s) →
  in_flight j (put_heap (alter (set_inflight n) i (ex_heap s)) s) = if decide (j = i) then n else in_flight j s.
Proof.
  intros Hi. unfold in_flight. cbn. case_decide as Hd.
  - subst j. rewrite list_lookup_alter, decide_True by done. destruct (lookup_lt_is_Some_2 _ _ Hi) as [l ->]. done.
  - by rewrite list_lookup_alter_ne.
Qed.
Lemma ceiling_alter f i j s : (∀ l, ceiling (f l) = ceiling l) → ceiling_of j (put_heap (alter f i (ex_heap s)) s) = ceiling_of j s.
Proof.
  intros Hf. unfold ceiling_of. cbn. destruct (decide (j = i)) as [->|Hne]; [|by rewrite list_lookup_alter_ne].
  rewrite list_lookup_alter, decide_True by done. destruct (ex_heap s !! i); [|done]. cbn. by rewrite Hf.
Qed.
(** The count of a limiter changes, not beyond the cap. *)
Lemma counted f i s :
  (∀ l, ceiling (f l) = ceiling l) →
  (∀ c rid, cap = Some c → ex_limiters s !! (cp_slug c, rid) = Some i →
     (in_flight i (put_heap (alter f i (ex_heap s)) s) ≤ cp_max c)%Z) →
  Inv s → Inv (put_heap (alter f i (ex_heap s)) s) ∧ Later s (put_heap (alter f i (ex_heap s)) s).
Proof.
  intros Hf Hb [[H1 H2 H3 H4 H5] Hst]. split; [|split; [cbn; by rewrite length_alter|done..]]. split.
  - split; try done; [intros k j Hj; cbn; rewrite length_alter; by eapply H1|]. intros j. rewrite ceiling_alter by done. apply H3.
  - intros c Hc. destruct (Hst c Hc) as [Hm Hd Hl]. split; [done..|]. intros rid j Hj. rewrite ceiling_alter by done.
    destruct (Hl rid j Hj) as [Hcl Hfl]. split; [done|]. destruct (decide (j = i)) as [->|Hne]; [by eapply Hb|].
    unfold in_flight. cbn. by rewrite list_lookup_alter_ne.
Qed.
Lemma acquire_ok peak sl rid pc s :
  Inv s → (∀ i, ceiling_of i s ≤ peak i)%Z → (∀ i, 0 ≤ in_flight i s)%Z → acquiring peak sl rid pc s →
  let '(pc', s') := acquire_step sl rid pc s in
  Inv s' ∧ Later s s' ∧
  (∀ i, in_flight i s' = in_flight i s + gains (acquired pc') i)%Z ∧
  (∀ i, gains (acquired pc') i = 1 → in_flight i s' ≤ peak i)%Z ∧
  match acquired pc' with
  | None => acquiring peak sl rid pc' s'
  | Some None => True
  | Some (Some p) => permit_ok sl rid p s'
  end.
Proof.
  intros Hs Hpk Hnn Hok.
  assert (∀ pc', gains (acquired pc') = (λ _, 0%Z) → (match acquired pc' with None => acquiring peak sl rid pc' s | Some None => True | Some (Some p) => permit_ok sl rid p s end) →
    Inv s ∧ Later s s ∧ (∀ i, in_flight i s = in_flight i s + gains (acquired pc') i)%Z ∧ (∀ i, gains (acquired pc') i = 1 → in_flight i s ≤ peak i)%Z ∧
    match acquired pc' with None => acquiring peak sl rid pc' s | Some None => True | Some (Some p) => permit_ok sl rid p s end) as Hsame.
  { intros pc' Hg Hp. rewrite Hg. split_and!; [done|by split|intros; lia|done|done]. }
  destruct pc as [|max|max|i|i n|i n c|p|]; cbn [acquire_step]; try done.
  - apply Hsame; [by case_decide|]. destruct Hs as [[_ _ _ _ Hmap] Hst]. destruct (ex_map s !! sl) as [ep|] eqn:Hep; cbn.
    + destruct (Hmap _ _ Hep) as [Hsl [Hm Hcap]]. case_decide; cbn.
      * intros c [Hc ->]. destruct (Hcap c Hc Hsl) as [Heq _]. destruct (Hplain c Hc). lia.
      * split; [done|]. intros c [Hc ->]. by destruct (Hcap c Hc Hsl).
    + intros c [Hc ->]. destruct (Hst c Hc) as [[? ?] _ _]. congruence.
  - destruct (ex_limiters s !! (sl, rid)) as [i|] eqn:Hi; apply Hsame; try done. cbn. by apply entry_of.
  - unfold or_insert. destruct Hok as [Hm Hcap]. destruct (ex_limiters s !! (sl, rid)) as [i|] eqn:Hi.
    { apply Hsame; [done|]. cbn. by apply entry_of. }
    destruct (fine_new cap Hplain (sl, rid) max s) as [Hinv Hmv]; [done|cbn in *; lia|intros cp Hc Hsl; by apply Hcap|done|].
    fold (alloc (sl, rid) max s). split_and!; [done|by apply Moves_Later|intros j; destruct Hmv as [Hf _ _]; rewrite Hf; cbn; lia|done|].
    cbn. apply entry_of; [done|]. cbn. by rewrite lookup_insert_eq.
  - apply Hsame; [done|]. done.
  - case_decide; apply Hsame; try done. cbn. destruct Hs as [[_ _ Hceil _ _] Hst]. specialize (Hpk i). specialize (Hceil i).
    split_and!; [done|lia|done|done|]. intros cp Hcp. destruct Hok as (_ & He & _). pose proof Hcp as [Hc _]. destruct (Hst cp Hc) as [_ _ Hl].
    by eapply Hl, He.
  - destruct Hok as (Hat & Hn & Hc & Hcap). destruct (decide (in_flight i s = n)) as [Hd|Hd].
    2:{ apply Hsame; [done|]. done. }
    assert (cast i64 (n + 1) = n + 1)%Z as Hcast by (apply cast_fits; unfold fits; specialize (Hnn i); cbn in *; lia). rewrite Hcast.
    destruct (counted (set_inflight (n + 1)) i s) as [Hinv Hlt]; [done| |done|].
    { intros cp rid' Hcp Hl. rewrite in_flight_alter, decide_True by first [apply Hat|done]. rewrite <-(Hcap cp); [lia|].
      split; [done|]. destruct Hat as (_ & _ & Ho). by eapply Ho. }
    cbn. split_and!; [done|done| | |].
    + intros j. rewrite in_flight_alter by apply Hat. case_decide; [subst j; lia|lia].
    + intros j. rewrite in_flight_alter by apply Hat. case_decide; [subst j; lia|done].
    + by eapply at_entry_later.
Qed.

(** ** The whole *)

Definition holds (t : Task (J:=J)) (i : nat) : Z := if decide (task_permit t = Some i) then 1 else 0.
Lemma holders_app i l1 l2 : holders (J:=J) i (l1 ++ l2) = holders i l1 + holders i l2.
Proof. unfold holders. by rewrite filter_app, length_app. Qed.
Lemma holders_cons i t l : Z.of_nat (holders i (t :: l)) = (holds t i + Z.of_nat (holders i l))%Z.
Proof. unfold holders, holds. rewrite filter_cons. case_decide; cbn; lia. Qed.
Lemma holders_insert i n t t' l :
  l !! n = Some t → Z.of_nat (holders i (<[n := t']> l)) = (Z.of_nat (holders i l) - holds t i + holds t' i)%Z.
Proof.
  revert n. induction l as [|u l IH]; intros [|n] Hn; [done..| |].
  - injection Hn as ->. change (<[0 := t']> (t :: l)) with (t' :: l). rewrite !holders_cons. lia.
  - change (<[S n := t']> (u :: l)) with (u :: <[n := t']> l). rewrite !holders_cons, (IH n Hn). lia.
Qed.

Record Safe peak sv : Prop := {
  sf_inv : Inv (sv_ext sv);
  sf_count : ∀ i, in_flight i (sv_ext sv) = Z.of_nat (holders i (sv_tasks sv));
  sf_peak : ∀ i, (ceiling_of i (sv_ext sv) ≤ peak i)%Z;
  sf_top : ∀ i, (peak i ≤ ty_max i64)%Z;
  sf_bound : ∀ i, (in_flight i (sv_ext sv) ≤ Z.max 0 (peak i))%Z;
  sf_tasks : ∀ n t, sv_tasks sv !! n = Some t → task_ok peak t (sv_ext sv);
  sf_ctl : match sv_ctl sv with CTick p => quiet (λ _, True) p | _ => True end;
}.

(** What a step of one task does, seen from the others. *)
Lemma Safe_task peak peak' sv n t t' s' :
  Safe peak sv → sv_tasks sv !! n = Some t →
  Inv s' → Later (sv_ext sv) s' → (∀ i, peak i ≤ peak' i)%Z → (∀ i, ceiling_of i s' ≤ peak' i)%Z →
  (∀ i, peak' i ≤ ty_max i64)%Z →
  (∀ i, in_flight i s' = in_flight i (sv_ext sv) - holds t i + holds t' i)%Z →
  (∀ i, holds t i < holds t' i → in_flight i s' ≤ peak' i)%Z →
  task_ok peak' t' s' →
  Safe peak' (MkServe s' (<[n := t']> (sv_tasks sv)) (sv_ctl sv)).
Proof.
  intros [H1 H2 H3 Htop H4 H5 H6] Hn Hinv Hlt Hpk Hce Htop' Hfl Hup Hok. split; cbn [sv_ext sv_tasks sv_ctl]; try done.
  - intros i. rewrite Hfl, H2, (holders_insert _ _ t) by done. done.
  - intros i. specialize (H4 i). specialize (Hpk i). specialize (Hup i). rewrite Hfl in *.
    destruct (decide (holds t i < holds t' i)%Z) as [Hd|Hd]; [specialize (Hup Hd)|]; lia.
  - intros m u. rewrite list_lookup_insert_Some. intros [(<- & <- & _)|[Hne Hm]]; [done|].
    eapply task_ok_later; [done..|by eapply H5].
Qed.

Lemma permit_drop_ok peak sl rid p s :
  Inv s → permit_ok sl rid p s → (∀ i, p = Some i → 1 ≤ in_flight i s ≤ ty_max i64)%Z →
  Inv (Permit_drop p s) ∧ Later s (Permit_drop p s) ∧
  (∀ i, ceiling_of i (Permit_drop p s) = ceiling_of i s) ∧
  (∀ i, in_flight i (Permit_drop p s) = in_flight i s - (if decide (p = Some i) then 1 else 0))%Z.
Proof.
  intros Hs Hp Hpos. destruct p as [i|]; cbn.
  2:{ split_and!; [done|by split|done|]. intros i. rewrite decide_False by done. lia. }
  destruct Hp as (Hi & Hent & Ho). specialize (Hpos i eq_refl).
  assert (∀ j, in_flight j (put_heap (alter (λ l, set_inflight (cast i64 (inflight l - 1)) l) i (ex_heap s)) s)
    = in_flight j s - (if decide (Some i = Some j) then 1 else 0))%Z as Hfl.
  { intros j. unfold in_flight. cbn. destruct (decide (j = i)) as [->|Hne].
    - rewrite list_lookup_alter, decide_True, decide_True by done. destruct (lookup_lt_is_Some_2 _ _ Hi) as [l Hl].
      unfold in_flight in Hpos. rewrite Hl in *. cbn in *. rewrite cast_fits; [done|]. unfold fits. cbn. lia.
    - rewrite list_lookup_alter_ne by done. rewrite decide_False by congruence. lia. }
  destruct (counted (λ l, set_inflight (cast i64 (inflight l - 1)) l) i s) as [Hinv Hlt]; [done| |done|].
  { intros c rid' Hc Hl. rewrite Hfl, decide_True by done. destruct Hs as [_ Hst]. destruct (Hst c Hc) as [_ _ Hll].
    destruct (Hll _ _ Hl). lia. }
  split_and!; [done|done|intros j; by apply ceiling_alter|done].
Qed.

Lemma holds_request r i : holds (TRequest r) i = if decide (permit_of (rq_pc r) = Some i) then 1%Z else 0%Z.
Proof. done. Qed.
Lemma gains_holds (p : Permit) i : gains (Some (Some p)) i = if decide (p = Some i) then 1%Z else 0%Z.
Proof. destruct p as [j|]; cbn; [|done]. by repeat case_decide; try congruence; simplify_eq. Qed.

Lemma request_step_ok peak r s (Hs : Inv s) :
  (∀ i, ceiling_of i s ≤ peak i)%Z → (∀ i, 0 ≤ in_flight i s ≤ ty_max i64)%Z →
  (∀ i, permit_of (rq_pc r) = Some i → 1 ≤ in_flight i s)%Z → request_ok peak r s →
  let '(r', s') := request_step r s in
  Inv s' ∧ Later s s' ∧
  (∀ i, in_flight i s' = in_flight i s - holds (TRequest r) i + holds (TRequest r') i)%Z ∧
  (∀ i, holds (TRequest r) i < holds (TRequest r') i → in_flight i s' ≤ peak i)%Z ∧
  request_ok peak r' s'.
Proof.
  intros Hpk Hb Hpos Hok. destruct r as [sl pc]. unfold request_ok in Hok. cbn [rq_slug rq_pc] in *.
  assert (∀ pc', permit_of pc' = permit_of pc → (match pc' with
      | RNext _ _ | RDone _ => True
      | RAcquire pc replica _ _ => acquiring peak sl (dr_id replica) pc s
      | RProxy p replica _ _ | RDrop p replica _ | RHold p replica _ => permit_ok sl (dr_id replica) p s end) →
    Inv s ∧ Later s s ∧
    (∀ i, in_flight i s = in_flight i s - holds (TRequest (MkRequest sl pc)) i + holds (TRequest (MkRequest sl pc')) i)%Z ∧
    (∀ i, holds (TRequest (MkRequest sl pc)) i < holds (TRequest (MkRequest sl pc')) i → in_flight i s ≤ peak i)%Z ∧
    request_ok peak (MkRequest sl pc') s) as Hsame.
  { intros pc' Hp Hq. split_and!; [done|by split|intros i|intros i|done]; rewrite !holds_request; cbn; rewrite Hp; lia. }
  destruct pc as [todo last|apc replica todo last|p replica todo last|p replica next|p replica resp|resp];
    cbn [request_step rq_pc]; try (apply Hsame; done).
  - destruct todo; by apply Hsame.
  - cbn [rq_slug]. pose proof (acquire_ok peak sl (dr_id replica) apc s Hs Hpk (λ i, proj1 (Hb i)) Hok) as Ha.
    destruct (acquire_step sl (dr_id replica) apc s) as [apc' s']. destruct Ha as (H1 & H2 & H3 & H4 & H5).
    split_and!; [done|done| | |].
    + intros i. rewrite H3, !holds_request. cbn. destruct (acquired apc') as [[p|]|]; cbn [permit_of]; rewrite ?gains_holds;
        cbn [gains]; repeat case_decide; simplify_eq; lia.
    + intros i. rewrite !holds_request. cbn. specialize (H4 i). destruct (acquired apc') as [[p|]|] eqn:Hacq; cbn [permit_of];
        rewrite ?gains_holds in H4; repeat case_decide; simplify_eq; intros; first [by apply H4|lia].
    + unfold request_ok. cbn. by destruct (acquired apc') as [[p|]|].
  - destruct (permit_drop_ok peak sl (dr_id replica) p s) as (H1 & H2 & _ & H4); [done|done| |].
    { intros i Hi. split; [by apply Hpos|apply Hb]. }
    split_and!; [done|done| | |].
    + intros i. rewrite H4, !holds_request. cbn. destruct next as [[? ?]|?]; cbn [permit_of]; repeat case_decide; simplify_eq; lia.
    + intros i. rewrite !holds_request. cbn. destruct next as [[? ?]|?]; cbn [permit_of]; repeat case_decide; simplify_eq; lia.
    + unfold request_ok. cbn. by destruct next as [[? ?]|?].
Qed.

(** *** The calls that start *)

Lemma fresh_request direct model tenant : quiet fresh (external_request direct model tenant).
Proof.
  unfold external_request. apply (quiet_then cap (λ _, True)); [by apply quiet_reads|]. intros [ext|] _; [|by intros r].
  destruct (direct && _); [by intros r [= <-]|]. apply (quiet_then cap (λ _, True)); [by apply quiet_reads|].
  intros rs _ r [= <-]. unfold dispatch_failover. cbn. by destruct (affinity_order rs tenant).
Qed.
Lemma discard {A} (p : prog Ext A) : quiet (λ _, True) p → quiet (λ _, True) (p ≫= λ _, mret tt).
Proof. intros Hp. by apply (quiet_then cap (λ _, True)). Qed.
Lemma quiet_viewed p : quiet (λ _, True) p → quiet (λ _, True) (viewed (J:=J) p).
Proof. intros Hp. unfold viewed. by apply (quiet_then cap (λ _, True)). Qed.
Lemma quiet_admin op : good_event (VAdmin op) → quiet (λ _, True) (admin_call op).
Proof.
  destruct op as [admin fe failure req|admin failure sl req|failure sl publish by_|admin listed dropped f1 f2 sl by_];
    cbn [good_event admin_call]; intros Hev; apply discard.
  - destruct Hev as [Hm Ho]. unfold ExternalEndpointCreate. apply quiet_and_then. intros _ _.
    apply (quiet_then cap (λ _, True)); [by apply quiet_reads|]. intros [] _; [done|].
    apply quiet_viewed, quiet_insert; [done|]. split; [done|]. intros c Hc Heq. by destruct (Ho c Hc).
  - destruct Hev as [Hm Ho]. unfold ExternalEndpointUpdate. apply quiet_and_then. intros _ _. by apply quiet_viewed, quiet_update.
  - unfold PublishExternal. apply (quiet_then cap (λ _, True)); [by apply quiet_reads|]. intros [] _; [|done].
    apply (quiet_then cap (λ _, True)); [by apply quiet_publish|]. intros r _. by apply quiet_and_then.
  - unfold ExternalEndpointDelete. apply quiet_and_then. intros _ _.
    apply (quiet_then cap (λ _, True)); [by apply quiet_reads|]. intros [] _; [|done]. cbn [negb]. apply quiet_and_then. intros row _.
    case_bool_decide; [done|]. apply (quiet_then cap (λ _, True)); [by apply quiet_publish|]. intros r _.
    apply quiet_and_then. intros _ _. apply quiet_and_then. intros _ _. by apply quiet_delete.
Qed.

(** *** The steps *)

Lemma Safe_add peak sv t :
  Safe peak sv → task_permit t = None → task_ok peak t (sv_ext sv) → Safe peak (MkServe (sv_ext sv) (sv_tasks sv ++ [t]) (sv_ctl sv)).
Proof.
  intros [H1 H2 H3 Htop H4 H5 H6] Hp Hok. split; try done; cbn [sv_ext sv_tasks].
  - intros i. rewrite H2, holders_app, Nat2Z.inj_add, holders_cons. unfold holds. rewrite Hp, decide_False by done. cbn. lia.
  - intros n u. rewrite lookup_app_Some. intros [Hn|[_ Hn]]; [by eapply H5|].
    apply list_lookup_singleton_Some in Hn as [_ <-]. done.
Qed.
Lemma Safe_alter peak sv n (f : Request → Request) :
  (∀ r, permit_of (rq_pc (f r)) = permit_of (rq_pc r)) →
  (∀ r, request_ok peak r (sv_ext sv) → request_ok peak (f r) (sv_ext sv)) →
  Safe peak sv → Safe peak (on_task n f sv).
Proof.
  intros Hp Hok Hs. pose proof Hs as [H1 H2 H3 Htop H4 H5 H6]. unfold on_task.
  destruct (sv_tasks sv !! n) as [t|] eqn:Hn; [|done].
  assert (∀ i, holds (on_request f t) i = holds t i) as Hh by (intros i; destruct t; [done| |done]; cbn [on_request]; by rewrite !holds_request, Hp).
  apply (Safe_task peak peak sv n t); try done; [intros i; rewrite Hh; lia|intros i; rewrite Hh; lia|].
  specialize (H5 n t Hn). destruct t; cbn in *; [done|by apply Hok|done].
Qed.

Lemma answered_ok peak s result r : request_ok peak r s → request_ok peak (request_answered result r) s.
Proof.
  unfold request_ok, request_answered. destruct (rq_pc r); cbn; try done. intros Hp.
  destruct (proxy_to_external result) as [resp| |]; try done.
  destruct (_ || _); [done|]. by destruct (is_success resp).
Qed.
Lemma finished_ok peak s r : request_ok peak r s → request_ok peak (request_finished r) s.
Proof. unfold request_ok, request_finished. by destruct (rq_pc r). Qed.
Lemma cancelled_ok peak s r : request_ok peak r s → request_ok peak (request_cancelled r) s.
Proof. unfold request_ok, request_cancelled. by destruct (rq_pc r). Qed.
Lemma answered_permit result r : permit_of (rq_pc (request_answered result r)) = permit_of (rq_pc r).
Proof.
  unfold request_answered. destruct (rq_pc r); cbn; try done.
  destruct (proxy_to_external result) as [resp| |]; try done. destruct (_ || _); [done|]. by destruct (is_success resp).
Qed.

(** The controller, or the task of an administrator, takes an action. *)
Lemma Safe_raise peak peak' sv :
  (∀ i, peak i ≤ peak' i)%Z → (∀ i, peak' i ≤ ty_max i64)%Z → Safe peak sv → Safe peak' sv.
Proof.
  intros Hp Ht [H1 H2 H3 Htop H4 H5 H6]. split; try done.
  - intros i. specialize (H3 i). specialize (Hp i). lia.
  - intros i. specialize (H4 i). specialize (Hp i). lia.
  - intros n t Hn. eapply task_ok_later; [|done|by eapply H5]. by split.
Qed.
Lemma Safe_move peak sv n t t' s' :
  let peak' i := Z.max (peak i) (ceiling_of i s') in
  Safe peak sv → sv_tasks sv !! n = Some t → Inv s' → Moves (sv_ext sv) s' → task_permit t = None → task_permit t' = None →
  task_ok peak' t' s' → Safe peak' (MkServe s' (<[n := t']> (sv_tasks sv)) (sv_ctl sv)).
Proof.
  intros peak' Hs Hn Hi Hm Ht Ht' Hok. pose proof Hs as [H1 H2 H3 Htop H4 H5 H6].
  apply (Safe_task peak peak' sv n t); try done.
  - by apply Moves_Later.
  - intros i. unfold peak'. lia.
  - intros i. unfold peak'. lia.
  - intros i. unfold peak'. destruct Hi as [[_ _ Hc _ _] _]. specialize (Hc i). specialize (Htop i). lia.
  - intros i. destruct Hm as [Hf _ _ _]. rewrite Hf. unfold holds. rewrite Ht, Ht', !decide_False by done. lia.
  - intros i. unfold holds. rewrite Ht, Ht', !decide_False by done. lia.
Qed.

Lemma Safe_step peak sv ev :
  good_event ev → Safe peak sv → Safe (λ i, Z.max (peak i) (ceiling_of i (sv_ext (sv_step ev sv)))) (sv_step ev sv).
Proof.
  intros Hev Hs. pose proof Hs as [H1 H2 H3 Htop H4 H5 H6].
  assert (∀ sv', sv_ext sv' = sv_ext sv → Safe peak sv' → Safe (λ i, Z.max (peak i) (ceiling_of i (sv_ext sv'))) sv') as Hsame.
  { intros sv' Heq Hs'. apply (Safe_raise peak); [intros; lia| |done]. intros i. rewrite Heq. specialize (H3 i). specialize (Htop i). lia. }
  destruct ev as [direct model tenant|op|n|n result|n|n|threshold scrapes|]; cbn [sv_step].
  - apply Hsame; [done|]. apply Safe_add; [done..|]. apply fresh_request.
  - apply Hsame; [done|]. apply Safe_add; [done..|]. by apply quiet_admin.
  - destruct (sv_tasks sv !! n) as [t|] eqn:Hn; [|by apply Hsame]. specialize (H5 n t Hn).
    assert (Safe peak (MkServe (sv_ext sv) (<[n:=t]> (sv_tasks sv)) (sv_ctl sv))) as Hid.
    { rewrite list_insert_id by done. by destruct sv. }
    destruct t as [[o|upd k]|r|[u|upd k]]; cbn [task_step].
    + destruct o as [r|]; cbn [task_step]; [|by apply Hsame]. apply Hsame; [done|]. specialize (H5 r eq_refl).
      apply (Safe_task peak peak sv n (TStart (Ret (Some r)))); try done.
      * intros i. rewrite holds_request. unfold holds. cbn. by destruct (rq_pc r); cbn in *; rewrite ?decide_False by done; lia.
      * intros i. rewrite holds_request. unfold holds. cbn. by destruct (rq_pc r); cbn in *; rewrite ?decide_False by done; lia.
      * unfold task_ok, request_ok. by destruct (rq_pc r).
    + destruct (H5 _ H1) as (Hi & Hm & Hk). by apply Safe_move with (t := TStart (Act upd k)).
    + pose proof (request_step_ok peak r (sv_ext sv) H1 H3) as Hr. destruct (request_step r (sv_ext sv)) as [r' s'] eqn:Hst.
      destruct Hr as (Hi & Hl & Hf & Hb & Hok); [|
        |done|].
      { intros i. specialize (H4 i). specialize (Htop i). rewrite H2 in *. cbn in *. lia. }
      { intros i Hp. rewrite H2. assert (1 ≤ holders i (sv_tasks sv)); [|lia]. unfold holders.
        assert (TRequest r ∈ filter (λ t, task_permit t = Some i) (sv_tasks sv)) as Hin
          by (apply list_elem_of_filter; split; [done|by eapply list_elem_of_lookup_2]).
        destruct (filter _ _); [by apply elem_of_nil in Hin|cbn; lia]. }
      apply (Safe_task peak _ sv n (TRequest r)); try done.
      * intros i. cbn [sv_ext]. lia.
      * intros i. cbn [sv_ext]. lia.
      * intros i. destruct Hi as [[_ _ Hc _ _] _]. specialize (Hc i). specialize (Htop i). cbn [sv_ext]. lia.
      * intros i Hlt. specialize (Hb i Hlt). cbn [sv_ext]. lia.
      * eapply (task_ok_later peak _ (TRequest r')); [|intros; lia|exact Hok]. by split.
    + cbn [task_step]. by apply Hsame.
    + destruct (H5 _ H1) as (Hi & Hm & Hk). by apply Safe_move with (t := TAdmin (Act upd k)).
  - apply Hsame; [unfold on_task; by destruct (sv_tasks sv !! n)|].
    apply Safe_alter; [intros; apply answered_permit|intros; by apply answered_ok|done].
  - apply Hsame; [unfold on_task; by destruct (sv_tasks sv !! n)|].
    apply Safe_alter; [intros r; unfold request_finished; by destruct (rq_pc r)|intros; by apply finished_ok|done].
  - apply Hsame; [unfold on_task; by destruct (sv_tasks sv !! n)|].
    apply Safe_alter; [intros r; unfold request_cancelled; by destruct (rq_pc r)|intros; by apply cancelled_ok|done].
  - destruct (sv_ctl sv) eqn:Hc; try (by apply Hsame). apply Hsame; [done|]. split; try done. by apply quiet_tick.
  - destruct (sv_ctl sv) as [st|[[st|e|w]|upd k]|] eqn:Hc; try (by apply Hsame).
    destruct (H6 _ H1) as (Hi & Hm & Hk). pose proof Hm as [Hf _ _ _]. split; cbn [sv_ext sv_tasks sv_ctl]; try done.
    + intros i. by rewrite Hf.
    + intros i. lia.
    + intros i. destruct Hi as [[_ _ Hce _ _] _]. specialize (Hce i). specialize (Htop i). lia.
    + intros i. rewrite Hf. specialize (H4 i). lia.
    + intros m t Ht. eapply task_ok_later; [by apply Moves_Later| |by eapply H5]. intros i. lia.
Qed.
Lemma reaches_safe db peak sv : good_table cap db → reaches db peak sv → Safe peak sv.
Proof.
  intros Hdb. induction 1 as [|ev peak sv Hev Hr IH]; [|by apply Safe_step].
  assert (Inv (ExternalEndpointMgr_New db)) as Hi by by apply New_inv.
  split; cbn [sv_ext sv_tasks sv_ctl sv_init]; try done.
  - intros i. rewrite New_flight. done.
  - intros i. destruct Hi as [[_ _ Hc _ _] _]. apply Hc.
  - intros i. rewrite New_flight. lia.
Qed.
End safe.
