(* ===== verification/ExternalDispatch.v ===== *)
(** * A request for an external endpoint, from replica to replica *)

From S2P Require Import Prelude.
From S2P Require Import Text.
From S2P Require Import BTree.
From S2P Require Import Common.
From S2P Require Import Atomic.
From S2P Require Import External.
From S2P Require Import Ceiling.
From S2P Require Import ExternalInv.

Section dispatch.
Context {J : Type} {crates : ExternalCrates J}.
Abbreviation Ext := (External.Ext (J:=J)).
Implicit Types (s : Ext).
(** What each replica answers. *)
Context (answers : DiscoveredReplica → SendResult) (sl : string).

(** The request alone: its next action, or the answer it waits for. *)
Definition solo (p : Request * Ext) : Request * Ext :=
  match rq_pc p.1 with
  | RProxy _ replica _ _ => (request_answered (answers replica) p.1, p.2)
  | _ => request_step p.1 p.2
  end.

(** ** The reference *)

(** Whether a replica has room for one more request. *)
Definition cap_of s : Z := default (-1)%Z (max_concurrency <$> ex_map s !! sl).
Definition free s (rid : ReplicaId) : bool :=
  bool_decide (cap_of s < 0)%Z ||
  match ex_limiters s !! (sl, rid) with
  | Some i => bool_decide (in_flight i s < ceiling_of i s)%Z
  | None => bool_decide (0 < cap_of s)%Z
  end.
(** The first replica that has room and gives an answer that is neither a
    failure to connect nor 429 nor 503 decides; after the last one, the last of
    those answers, or 429. *)
Fixpoint failover (room : ReplicaId → bool) (todo : list DiscoveredReplica) (last : option Response) : option DiscoveredReplica * Response :=
  match todo with
  | [] => (None, default (all_at_capacity sl) last)
  | replica :: todo =>
      if room (dr_id replica) then
        match proxy_to_external (answers replica) with
        | Ok response =>
            if bool_decide (rs_status response = TOO_MANY_REQUESTS) || bool_decide (rs_status response = SERVICE_UNAVAILABLE)
            then failover room todo (Some response)
            else if is_success response then (Some replica, response) else (None, response)
        | _ => failover room todo last
        end
      else failover room todo last
  end.

(** ** What a request leaves behind *)

Record Sane s : Prop := {
  sn_locs : ∀ k i, ex_limiters s !! k = Some i → i < length (ex_heap s);
  sn_bounds : ∀ i, (0 ≤ in_flight i s)%Z ∧ (ceiling_of i s ≤ ty_max i64)%Z;
  sn_cap : (cap_of s ≤ ty_max i64)%Z;
}.
(** At most unused limiters for replicas of the endpoint are new. *)
Record Calm s s' : Prop := {
  cm_tables : ex_db s' = ex_db s ∧ ex_map s' = ex_map s ∧ ex_resolved s' = ex_resolved s;
  cm_heap : ∀ i, i < length (ex_heap s) → ex_heap s' !! i = ex_heap s !! i;
  cm_known : ∀ k i, ex_limiters s !! k = Some i → ex_limiters s' !! k = Some i;
  cm_new : ∀ k i, ex_limiters s' !! k = Some i → ex_limiters s !! k = None →
    k.1 = sl ∧ in_flight i s' = 0%Z ∧ ceiling_of i s' = cap_of s;
}.
Lemma Calm_refl s : Calm s s.
Proof. split; try done. intros k i H1 H2. congruence. Qed.
Lemma heap_eq i s s' : ex_heap s' !! i = ex_heap s !! i → in_flight i s' = in_flight i s ∧ ceiling_of i s' = ceiling_of i s.
Proof. intros He. unfold in_flight, ceiling_of. by rewrite He. Qed.
Lemma Calm_cap s s' : Calm s s' → cap_of s' = cap_of s.
Proof. intros [(_ & Hm & _) _ _ _]. unfold cap_of. by rewrite Hm. Qed.
Lemma Calm_free s s' rid : Sane s → Calm s s' → free s' rid = free s rid.
Proof.
  intros Hs Hc. unfold free. rewrite (Calm_cap s s' Hc). f_equal. destruct Hc as [_ Hh Hk Hn].
  destruct (ex_limiters s !! (sl, rid)) as [i|] eqn:Hi.
  - rewrite (Hk _ _ Hi). destruct (heap_eq i s s') as [-> ->]; [by eapply Hh, sn_locs|done].
  - destruct (ex_limiters s' !! (sl, rid)) as [i|] eqn:Hi'; [|done]. by destruct (Hn _ _ Hi' Hi) as (_ & -> & ->).
Qed.

Lemma Calm_trans s1 s2 s3 : Sane s1 → Sane s2 → Calm s1 s2 → Calm s2 s3 → Calm s1 s3.
Proof.
  intros Hs1 Hs2 H1 H2. pose proof (Calm_cap s1 s2 H1) as Hcap. destruct H1 as [(D1 & M1 & R1) Hh1 Hk1 Hn1], H2 as [(D2 & M2 & R2) Hh2 Hk2 Hn2].
  assert (length (ex_heap s1) ≤ length (ex_heap s2)) as Hlen.
  { destruct (decide (length (ex_heap s1) ≤ length (ex_heap s2))) as [|Hgt]; [done|].
    pose proof (Hh1 (length (ex_heap s2)) ltac:(lia)) as Heq. rewrite lookup_ge_None_2 in Heq by done.
    destruct (lookup_lt_is_Some_2 (ex_heap s1) (length (ex_heap s2))); [lia|congruence]. }
  split.
  - by rewrite D2, M2, R2.
  - intros i Hi. rewrite Hh2 by lia. by apply Hh1.
  - auto.
  - intros k i Hk Hnone. destruct (ex_limiters s2 !! k) as [j|] eqn:Hj.
    + pose proof (Hk2 _ _ Hj) as Hk'. assert (i = j) as -> by congruence. destruct (Hn1 _ _ Hj Hnone) as (Hsl & Hf & Hc).
      destruct (heap_eq j s2 s3) as [-> ->]; [by eapply Hh2, sn_locs|done].
    + destruct (Hn2 _ _ Hk Hj) as (Hsl & Hf & Hc). split_and!; [done..|]. by rewrite Hc.
Qed.

(** A permit is taken, and given back. *)
Definition bump (p : Permit) s : Ext :=
  match p with
  | None => s
  | Some i => put_heap (alter (λ l, set_inflight (inflight l + 1) l) i (ex_heap s)) s
  end.
Lemma drop_bump p s : (∀ i, p = Some i → 0 ≤ in_flight i s ≤ ty_max i64)%Z → Permit_drop p (bump p s) = s.
Proof.
  intros Hp. destruct p as [i|]; [|done]. specialize (Hp i eq_refl). destruct s as [db m lim res h]. unfold bump, Permit_drop.
  unfold put_heap, put_limiters. cbn in *. f_equal. rewrite list_alter_alter_eq. etransitivity; [|apply (list_alter_id id h i); done].
  apply list_alter_ext; [|done]. intros [n c] Hl. unfold in_flight in Hp. cbn in Hp. rewrite Hl in Hp. cbn in *.
  rewrite cast_fits; [|unfold fits; cbn; lia]. unfold set_inflight. cbn. f_equal. lia.
Qed.

Definition requesting (pc : ReqPc) s : Request * Ext := (MkRequest sl pc, s).
Lemma or_insert_calm s rid i s' :
  Sane s → or_insert (sl, rid) (cap_of s) s = (i, s') → (0 ≤ cap_of s)%Z →
  Sane s' ∧ Calm s s' ∧ ex_limiters s' !! (sl, rid) = Some i.
Proof.
  intros [H1 H2 H3]. unfold or_insert. destruct (ex_limiters s !! (sl, rid)) as [j|] eqn:Hj; intros [= <- <-] Hcap.
  { split_and!; [by split|apply Calm_refl|done]. }
  fold (alloc (sl, rid) (cap_of s) s). pose proof (alloc_new (sl, rid) (cap_of s) s) as Hnew.
  split_and!; [split| |by cbn; rewrite lookup_insert_eq].
  - intros k i. cbn. rewrite lookup_insert_Some, length_app. cbn. intros [[_ <-]|[_ Hi%H1]]; lia.
  - intros i. rewrite alloc_flight. split; [apply H2|]. destruct (decide (i < length (ex_heap s))); [rewrite alloc_old by done; apply H2|].
    destruct (decide (i = length (ex_heap s))) as [->|Hne]; [by rewrite Hnew|].
    unfold ceiling_of. cbn. rewrite lookup_ge_None_2; [done|]. rewrite length_app. cbn. lia.
  - done.
  - split; [done| | |].
    + intros i Hi. cbn. by rewrite lookup_app_l.
    + intros k i Hk. cbn. rewrite lookup_insert_ne; [done|]. congruence.
    + intros k i. cbn. rewrite lookup_insert_Some. intros [[<- <-]|[_ Hk]] Hnone; [|congruence].
      split_and!; [done| |done]. rewrite alloc_flight. unfold in_flight. by rewrite lookup_ge_None_2.
Qed.

(** The permit is one of the replica's limiter, if the endpoint has a cap. *)
Definition granted (rid : ReplicaId) (p : Permit) s : Prop :=
  match p with None => (cap_of s < 0)%Z | Some i => ex_limiters s !! (sl, rid) = Some i end.
(** [try_acquire] when nothing interferes. *)
Lemma acquire_alone s replica todo last :
  Sane s →
  ∃ n p s', n ≤ 6 ∧ Sane s' ∧ Calm s s' ∧ (∀ i, p = Some i → 0 ≤ in_flight i s' ≤ ty_max i64)%Z ∧
    (free s (dr_id replica) = true → granted (dr_id replica) p s') ∧
    Nat.iter n solo (requesting (RAcquire AStart replica todo last) s) =
    if free s (dr_id replica) then requesting (RProxy p replica todo last) (bump p s') else requesting (RNext todo last) s'.
Proof.
  intros Hs. unfold free. destruct (decide (cap_of s < 0)%Z) as [Hc|Hc].
  { exists 1, None, s. rewrite bool_decide_eq_true_2 by done. split_and!; [lia|done|apply Calm_refl|done|done|].
    cbn. unfold cap_of in Hc. by rewrite decide_True. }
  rewrite bool_decide_eq_false_2 by done. cbn [orb].
  destruct (or_insert (sl, dr_id replica) (cap_of s) s) as [i s'] eqn:Hins.
  destruct (or_insert_calm s (dr_id replica) i s' Hs Hins) as (Hs' & Hcalm & Hent); [lia|].
  set (full := bool_decide (ceiling_of i s' ≤ in_flight i s')%Z).
  assert (match ex_limiters s !! (sl, dr_id replica) with
    | Some i => bool_decide (in_flight i s < ceiling_of i s)%Z | None => bool_decide (0 < cap_of s)%Z end = negb full) as Hfree.
  { pose proof (Calm_free s s' (dr_id replica) Hs Hcalm) as Hf. unfold free in Hf. rewrite (Calm_cap s s' Hcalm), Hent in Hf.
    rewrite bool_decide_eq_false_2 in Hf by done. cbn [orb] in Hf. rewrite <-Hf. unfold full. repeat case_bool_decide; done || lia. }
  rewrite Hfree.
  assert (∃ n, n ≤ 3 ∧ Nat.iter n solo (requesting (RAcquire AStart replica todo last) s) = requesting (RAcquire (ALoad i) replica todo last) s') as (n & Hn & Hload).
  { destruct (ex_limiters s !! (sl, dr_id replica)) as [j|] eqn:Hj.
    - exists 2. split; [lia|]. unfold or_insert in Hins. rewrite Hj in Hins. injection Hins as <- <-.
      cbn. fold (cap_of s). rewrite decide_False by done. cbn. by rewrite Hj.
    - exists 3. split; [lia|]. cbn. fold (cap_of s). rewrite decide_False by done. cbn. rewrite Hj. cbn. by rewrite Hins. }
  assert (in_flight i s' < ceiling_of i s' → 0 ≤ in_flight i s' ≤ ty_max i64)%Z as Hb by (destruct (sn_bounds s' Hs' i); lia).
  unfold full. destruct (decide (ceiling_of i s' ≤ in_flight i s')%Z) as [Hfull|Hfull].
  - exists (2 + n), None, s'. rewrite bool_decide_eq_true_2 by done. split_and!; [lia|done|done|done|done|].
    rewrite Nat.iter_add, Hload. cbn. by rewrite decide_True.
  - exists (3 + n), (Some i), s'. rewrite bool_decide_eq_false_2 by done. split_and!; [lia|done|done| | |].
    2:{ by intros _. } { intros j [= <-]. apply Hb. lia. }
    rewrite Nat.iter_add, Hload. cbn. rewrite decide_False by done. cbn. rewrite decide_True by done. cbn.
    unfold requesting, bump. f_equal. f_equal. apply list_alter_ext; [|done]. intros l Hl. f_equal.
    destruct (sn_bounds s' Hs' i) as [_ Hce]. unfold in_flight, ceiling_of in *. rewrite Hl in *. cbn in *.
    rewrite cast_fits; [done|]. unfold fits. cbn. lia.
Qed.

(** The replica answers, and its permit is given back unless it serves. *)
Definition outcome_of (o : option DiscoveredReplica * Response) (p : Permit) s : Request * Ext :=
  match o with
  | (Some replica, response) => requesting (RHold p replica response) (bump p s)
  | (None, response) => requesting (RDone response) s
  end.
Lemma answer_alone p replica todo last s :
  (∀ i, p = Some i → 0 ≤ in_flight i s ≤ ty_max i64)%Z →
  Nat.iter 2 solo (requesting (RProxy p replica todo last) (bump p s)) =
  match proxy_to_external (answers replica) with
  | Ok response =>
      if bool_decide (rs_status response = TOO_MANY_REQUESTS) || bool_decide (rs_status response = SERVICE_UNAVAILABLE)
      then requesting (RNext todo (Some response)) s
      else if is_success response then requesting (RHold p replica response) (bump p s) else requesting (RDone response) s
  | _ => requesting (RNext todo last) s
  end.
Proof.
  intros Hp. cbn. unfold request_answered. cbn. destruct (proxy_to_external (answers replica)) as [resp| |].
  2-3: cbn; by rewrite drop_bump.
  destruct (_ || _); cbn; [by rewrite drop_bump|]. destruct (is_success resp); cbn; [done|by rewrite drop_bump].
Qed.
Lemma failover_alone todo s0 : Sane s0 → ∀ s last, Sane s → Calm s0 s →
  ∃ n p s', n ≤ 9 * length todo + 1 ∧ Calm s0 s' ∧
    (∀ replica, (failover (free s0) todo last).1 = Some replica → granted (dr_id replica) p s') ∧
    Nat.iter n solo (requesting (RNext todo last) s) = outcome_of (failover (free s0) todo last) p s'.
Proof.
  intros Hs0. induction todo as [|replica todo IH]; intros s last Hs Hc.
  { exists 1, None, s. by split_and!; [cbn; lia|..]. }
  destruct (acquire_alone s replica todo last Hs) as (n & p & s1 & Hn & Hs1 & Hc1 & Hp & Hgr & Hrun).
  assert (Calm s0 s1) as Hc01 by by apply (Calm_trans s0 s). rewrite (Calm_free s0 s _ Hs0 Hc) in Hrun, Hgr.
  assert (Nat.iter (n + 1) solo (requesting (RNext (replica :: todo) last) s) = Nat.iter n solo (requesting (RAcquire AStart replica todo last) s)) as Hfirst
    by by rewrite Nat.iter_add.
  cbn [failover]. destruct (free s0 (dr_id replica)).
  2:{ destruct (IH s1 last Hs1 Hc01) as (m & q & s2 & Hm & Hc2 & Hgr2 & Hrun2). exists (m + (n + 1)), q, s2.
      split_and!; [cbn; lia|done|done|]. by rewrite Nat.iter_add, Hfirst, Hrun. }
  pose proof (answer_alone p replica todo last s1 Hp) as Hans.
  assert (∀ m last', Nat.iter 2 solo (requesting (RProxy p replica todo last) (bump p s1)) = requesting (RNext todo last') s1 →
    m = failover (free s0) todo last' →
    ∃ n p s', n ≤ 9 * length (replica :: todo) + 1 ∧ Calm s0 s' ∧
      (∀ replica, m.1 = Some replica → granted (dr_id replica) p s') ∧
      Nat.iter n solo (requesting (RNext (replica :: todo) last) s) = outcome_of m p s') as Hnext.
  { intros m last' Heq ->. destruct (IH s1 last' Hs1 Hc01) as (k & q & s2 & Hk & Hc2 & Hgr2 & Hrun2). exists (k + (2 + (n + 1))), q, s2.
    split_and!; [cbn; lia|done|done|]. by rewrite (Nat.iter_add k), (Nat.iter_add 2), Hfirst, Hrun, Heq. }
  assert (∀ m, Nat.iter 2 solo (requesting (RProxy p replica todo last) (bump p s1)) = outcome_of m p s1 →
    (∀ r, m.1 = Some r → r = replica) →
    ∃ n p s', n ≤ 9 * length (replica :: todo) + 1 ∧ Calm s0 s' ∧
      (∀ replica, m.1 = Some replica → granted (dr_id replica) p s') ∧
      Nat.iter n solo (requesting (RNext (replica :: todo) last) s) = outcome_of m p s') as Hlast.
  { intros m Heq Hm. exists (2 + (n + 1)), p, s1. split_and!; [cbn; lia|done|intros r ->%Hm; by apply Hgr|]. by rewrite (Nat.iter_add 2), Hfirst, Hrun. }
  destruct (proxy_to_external (answers replica)) as [resp| |]; [|by eapply Hnext..].
  destruct (_ || _); [by eapply Hnext|]. destruct (is_success resp); apply Hlast; [done|cbn; congruence|done|done].
Qed.

Lemma insert_sorted_perm x l : insert_sorted x l ≡ₚ x :: l.
Proof. induction l as [|y l IH]; [done|]. cbn. case_decide; [done|]. rewrite IH. by constructor. Qed.
Lemma insert_sorted_sorted x l : StronglySorted score_ge l → StronglySorted score_ge (insert_sorted x l).
Proof.
  induction 1 as [|y l Hl IH Hy]; cbn; [by repeat constructor|]. unfold score_ge in *. case_decide as Hd.
  - constructor; [by constructor|]. constructor; [done|]. eapply Forall_impl; [exact Hy|]. cbn. intros; lia.
  - constructor; [done|]. rewrite insert_sorted_perm. constructor; [lia|done].
Qed.
Lemma sort_desc_spec l : sort_desc l ≡ₚ l ∧ StronglySorted score_ge (sort_desc l).
Proof.
  induction l as [|x l [IHp IHs]]; [by repeat constructor|]. cbn. fold (sort_desc l).
  split; [by rewrite insert_sorted_perm, IHp|by apply insert_sorted_sorted].
Qed.
(** By falling scores for the tenant. *)
Lemma affinity_order_spec resolved tenant :
  affinity_order resolved tenant ≡ₚ resolved ∧
  StronglySorted (λ a b, (hrw_score tenant (dr_id b) ≤ hrw_score tenant (dr_id a))%Z) (affinity_order resolved tenant).
Proof.
  unfold affinity_order. destruct (sort_desc_spec ((λ r, (hrw_score tenant (dr_id r), r)) <$> resolved)) as [Hp Hs].
  split.
  - rewrite Hp, <-list_fmap_compose. by rewrite list_fmap_id.
  - assert (Forall (λ p, p.1 = hrw_score tenant (dr_id p.2)) (sort_desc ((λ r, (hrw_score tenant (dr_id r), r)) <$> resolved))) as Hall.
    { rewrite Hp. apply Forall_fmap, Forall_forall. done. }
    clear Hp. revert Hall. induction Hs as [|x l Hl IH Hx]; intros Hall; [constructor|]. apply Forall_cons in Hall as [Hx1 Hall]. cbn.
    constructor; [by apply IH|]. apply Forall_fmap. rewrite Forall_forall in Hx, Hall. apply Forall_forall. intros y Hy. specialize (Hx y Hy).
    unfold score_ge in Hx. specialize (Hall y Hy). cbn in *. lia.
Qed.

(** C20: a request that runs alone goes through the replicas in the order of
    their scores for its tenant, each once, and ends as [failover] says, within
    nine actions a replica; it keeps a permit, of the replica that serves it,
    exactly when the answer is a success, and gives back all others. *)
Theorem dispatch_is_failover resolved tenant s :
  Sane s → resolved ≠ [] →
  let order := affinity_order resolved tenant in
  order ≡ₚ resolved ∧ StronglySorted (λ a b, (hrw_score tenant (dr_id b) ≤ hrw_score tenant (dr_id a))%Z) order ∧
  ∃ n p s', n ≤ 9 * length resolved + 1 ∧ Calm s s' ∧
    (∀ replica, (failover (free s) order None).1 = Some replica → granted (dr_id replica) p s') ∧
    Nat.iter n solo (dispatch_failover sl resolved tenant, s) = outcome_of (failover (free s) order None) p s'.
Proof.
  intros Hs Hne order. destruct (affinity_order_spec resolved tenant) as [Hp Hsort]. split_and!; [done..|].
  destruct (failover_alone order s Hs s None Hs (Calm_refl s)) as (n & p & s' & Hn & Hc & Hg & Hrun).
  exists n, p, s'. split_and!; [by rewrite <-Hp|done|done|]. rewrite <-Hrun. unfold dispatch_failover. fold order.
  destruct order eqn:Ho; [|done]. unfold order in Ho. rewrite Ho in Hp. by apply Permutation_nil_l in Hp.
Qed.
End dispatch.
