(* ===== verification/CeilingProps.v ===== *)
(** * What a tick of the controller does to the ceilings *)

From S2P Require Import Prelude.
From S2P Require Import Text.
From S2P Require Import BTree.
From S2P Require Import Common.
From S2P Require Import Atomic.
From S2P Require Import External.
From S2P Require Import Ceiling.
From S2P Require Import ExternalInv.

Section ceiling.
Context {J F : Type} {crates : ExternalCrates J} {floats : MetricsFloat F}.
Abbreviation Ext := (External.Ext (J:=J)).
Implicit Types (s : Ext) (ep : ExternalEndpoint (J:=J)).

(** ** The law *)

Definition waits (w : Z) (kv : F) (threshold : Z) : Prop := (threshold ≤ w)%Z ∨ (0 < w)%Z ∧ f_le KV_HIGH_WATER kv = true.
Definition saturated (c w : Z) (kv : F) (n : option Z) : Prop := w = 0%Z ∧ n = Some c ∧ f_lt kv KV_HIGH_WATER = true.

(** One decision of the controller never overflows and moves a ceiling by at
    most two down and one up, never below one: up exactly when no request waits,
    the cache is below its mark and the limiter is full, down exactly when
    enough requests wait, or some do and the cache is at its mark (and the
    ceiling is not one yet). *)
Lemma step_law c w (kv : F) n threshold :
  (1 ≤ c < ty_max i64)%Z → (1 ≤ threshold)%Z →
  ∃ c', step c w kv n threshold = Ok c' ∧ (Z.max 1 (c - 2) ≤ c' ≤ c + 1)%Z ∧
    ((c < c')%Z ↔ saturated c w kv n) ∧ ((c' < c)%Z ↔ waits w kv threshold ∧ c ≠ 1%Z).
Proof.
  intros Hc Ht. unfold step, saturated, waits, MAX_DROP_PER_TICK.
  destruct (bool_decide (threshold ≤ w)%Z || (bool_decide (0 < w)%Z && f_le KV_HIGH_WATER kv)) eqn:Hd.
  - assert (waits w kv threshold) as Hw.
    { unfold waits. apply orb_true_iff in Hd as [H%bool_decide_eq_true|[H%bool_decide_eq_true H']%andb_true_iff]; auto. }
    assert (0 < w)%Z by (destruct Hw as [?|[? _]]; lia). rewrite chk_fits by (unfold fits in *; cbn in *; lia). cbn [mbind outcome_bind].
    eexists. split; [done|]. unfold waits in Hw. split_and!; [lia|lia|split; [intros; lia|intros [-> _]; lia]|].
    split; [intros; split; [done|lia]|intros [_ Hne]; lia].
  - apply orb_false_iff in Hd as [H1%bool_decide_eq_false H2%andb_false_iff].
    assert (¬ ((threshold ≤ w)%Z ∨ (0 < w)%Z ∧ f_le KV_HIGH_WATER kv = true)) as Hnw.
    { intros [?|[? Hle]]; [lia|]. destruct H2 as [H2%bool_decide_eq_false|H2]; [lia|congruence]. }
    destruct (bool_decide (n = Some c) && f_lt kv KV_HIGH_WATER && bool_decide (w = 0%Z)) eqn:Hu.
    + apply andb_true_iff in Hu as [[Hn%bool_decide_eq_true Hk]%andb_true_iff Hw%bool_decide_eq_true].
      rewrite chk_fits by (unfold fits; cbn in *; lia). eexists. split; [done|]. split_and!; [lia|lia|split; [done|lia]|split; [lia|tauto]].
    + exists c. split; [done|]. split_and!; [lia|lia|split; [lia|]|split; [lia|tauto]].
      intros (-> & -> & Hk). rewrite Hk, !bool_decide_eq_true_2 in Hu by done. done.
Qed.

(** ** A tick alone *)

Context (threshold : Z) (scrapes : string * ReplicaId → string + string).
Definition key_of (p : ExternalEndpoint (J:=J) * DiscoveredReplica) : string * ReplicaId := (slug p.1, dr_id p.2).
(** Where the ceiling of a replica goes, from what its metrics say. *)
Definition target (k : string * ReplicaId) (c n : Z) : Z :=
  match scrape (F:=F) (scrapes k) with
  | Ok m => match step c (sm_waiting m) (sm_kv m) (Some n) (Z.max threshold 1) with
            | Ok c' => if decide (c' = c) then c else Z.max c' 1
            | _ => c
            end
  | _ => c
  end.
(** How often in a row a replica's metrics could not be read. *)
Definition failures (st : SlugStates) (p : ExternalEndpoint (J:=J) * DiscoveredReplica) : Z :=
  match scrape (F:=F) (scrapes (key_of p)) with
  | Ok _ => 0
  | _ => match st !! key_of p with
         | Some v => if decide (st_pair v = (max_concurrency p.1, default "" (dr_metrics_url p.2))) then st_failures v + 1 else 1
         | None => if decide ((0%Z, "") = (max_concurrency p.1, default "" (dr_metrics_url p.2))) then 0 + 1 else 1
         end
  end.

(** The replicas that a tick looks at. *)
Definition is_metered s (p : ExternalEndpoint (J:=J) * DiscoveredReplica) : Prop :=
  ex_map s !! slug p.1 = Some p.1 ∧ has_metrics p.1 = true ∧ p.2 ∈ resolved_replicas (slug p.1) s ∧
  NoDup (dr_id <$> resolved_replicas (slug p.1) s) ∧ is_Some (dr_metrics_url p.2).
Record Ready (l : list (ExternalEndpoint (J:=J) * DiscoveredReplica)) s (st : SlugStates) : Prop := {
  rd_inj : ∀ k k' i, ex_limiters s !! k = Some i → ex_limiters s !! k' = Some i → k = k';
  rd_locs : ∀ k i, ex_limiters s !! k = Some i → i < length (ex_heap s);
  rd_metered : ∀ p, p ∈ l → is_metered s p;
  rd_failures : ∀ p v, p ∈ l → st !! key_of p = Some v → (0 ≤ st_failures v < ty_max u32)%Z;
  rd_ceilings : ∀ p i, p ∈ l → ex_limiters s !! key_of p = Some i → (1 ≤ ceiling_of i s < ty_max i64)%Z;
  rd_scrapes : ∀ k, no_panic (scrape (F:=F) (scrapes k));
}.
Lemma find_replica (l : list DiscoveredReplica) r :
  NoDup (dr_id <$> l) → r ∈ l → find (λ r', bool_decide (dr_id r' = dr_id r)) l = Some r.
Proof.
  induction l as [|x l IH]; intros Hnd Hr; [by apply elem_of_nil in Hr|]. rewrite fmap_cons in Hnd. apply NoDup_cons in Hnd as [Hx Hnd]. cbn.
  apply elem_of_cons in Hr as [->|Hr]; [by rewrite bool_decide_eq_true_2|].
  rewrite bool_decide_eq_false_2; [by apply IH|]. intros Heq. apply Hx. rewrite Heq. by apply list_elem_of_fmap_2.
Qed.
(** The guard of [set_ceiling] lets the controller in. *)
Lemma set_ceiling_metered s p c i :
  is_metered s p → ex_limiters s !! key_of p = Some i →
  set_ceiling (slug p.1) (dr_id p.2) c s = put_heap (alter (set_ceil (Z.max c 1)) i (ex_heap s)) s.
Proof.
  intros (Hm & Hh & Hr & Hnd & Hsome) Hi. unfold set_ceiling. rewrite Hm. destruct (config p.1) as [cfg|] eqn:Hc.
  - rewrite (find_replica _ p.2) by done. rewrite bool_decide_eq_true_2 by done. unfold key_of in Hi. by rewrite Hi.
  - unfold has_metrics in Hh. rewrite Hc in Hh. cbn in Hh. rewrite orb_false_r in Hh. rewrite Hh. unfold key_of in Hi. by rewrite Hi.
Qed.

(** What has moved: the ceilings of the replicas [l]. *)
Record Moved (l : list (ExternalEndpoint (J:=J) * DiscoveredReplica)) s s' : Prop := {
  md_tables : ex_db s' = ex_db s ∧ ex_map s' = ex_map s ∧ ex_limiters s' = ex_limiters s ∧ ex_resolved s' = ex_resolved s;
  md_length : length (ex_heap s') = length (ex_heap s);
  md_flight : ∀ i, in_flight i s' = in_flight i s;
  md_target : ∀ p i, p ∈ l → ex_limiters s !! key_of p = Some i →
    ceiling_of i s' = target (key_of p) (ceiling_of i s) (in_flight i s);
  md_other : ∀ i, (∀ p, p ∈ l → ex_limiters s !! key_of p ≠ Some i) → ceiling_of i s' = ceiling_of i s;
}.
Lemma limiter_reads s k i : ex_limiters s !! k = Some i → i < length (ex_heap s) →
  get_ceiling k.1 k.2 s = Some (ceiling_of i s) ∧ get_inflight k.1 k.2 s = Some (in_flight i s).
Proof.
  intros Hi Hl. unfold get_ceiling, get_inflight, ceiling_of, in_flight. destruct k as [a b]. cbn. rewrite Hi. cbn.
  by destruct (lookup_lt_is_Some_2 _ _ Hl) as [l ->].
Qed.
Lemma target_range k c n : (1 ≤ c < ty_max i64)%Z → (1 ≤ target k c n ≤ c + 1)%Z.
Proof.
  intros Hc. unfold target. destruct (scrape _) as [m| |]; [|lia..].
  destruct (step_law c (sm_waiting m) (sm_kv m) (Some n) (Z.max threshold 1)) as (c' & -> & Hb & _); [done|lia|]. case_decide; lia.
Qed.

Lemma Moved_refl l s :
  (∀ p i, p ∈ l → ex_limiters s !! key_of p = Some i → target (key_of p) (ceiling_of i s) (in_flight i s) = ceiling_of i s) → Moved l s s.
Proof. intros Hl. split; try done. intros p i Hp Hi. by rewrite Hl. Qed.
Lemma Moved_one s p i c :
  i < length (ex_heap s) → is_metered s p → ex_limiters s !! key_of p = Some i →
  target (key_of p) (ceiling_of i s) (in_flight i s) = Z.max c 1 → Moved [p] s (set_ceiling (slug p.1) (dr_id p.2) c s).
Proof.
  intros Hl Hm Hi Ht. rewrite (set_ceiling_metered s p c i) by done. split; try done.
  - cbn. apply length_alter.
  - intros j. apply in_flight_alter_ceil.
  - intros q j ->%list_elem_of_singleton Hj. assert (j = i) as -> by congruence. rewrite Ht. unfold ceiling_of. cbn.
    rewrite list_lookup_alter, decide_True by done. by destruct (lookup_lt_is_Some_2 _ _ Hl) as [l ->].
  - intros j Hj. apply ceiling_alter_ceil_ne. intros ->. by apply (Hj p); [apply list_elem_of_singleton|].
Qed.
(** What a decision comes to. *)
Lemma decide_total l s st p :
  Ready l s st → p ∈ l →
  let prior := default SlugState_default (st !! key_of p) in
  let k := key_of p in
  ∃ v change, decide_ceiling prior (max_concurrency p.1, default "" (dr_metrics_url p.2)) (get_ceiling k.1 k.2 s) (get_inflight k.1 k.2 s)
      (Z.max threshold 1) (scrape (F:=F) (scrapes k)) = Ok (v, change) ∧ st_failures v = failures st p ∧
    match ex_limiters s !! k, change with
    | None, None => True
    | Some i, None => target k (ceiling_of i s) (in_flight i s) = ceiling_of i s
    | Some i, Some (_, new, _) => target k (ceiling_of i s) (in_flight i s) = Z.max new 1
    | None, Some _ => False
    end.
Proof.
  intros Hr Hp prior k. pose proof (rd_scrapes l s st Hr k) as Hsc.
  assert (0 ≤ st_failures prior < ty_max u32)%Z as Hprior.
  { unfold prior. destruct (st !! key_of p) as [v|] eqn:Hv; [by eapply rd_failures|done]. }
  assert (failures st p = match scrape (F:=F) (scrapes k) with Ok _ => 0
    | _ => (if decide (st_pair prior = (max_concurrency p.1, default "" (dr_metrics_url p.2))) then st_failures prior + 1 else 1) end)%Z as Hfail.
  { unfold failures, prior, k. destruct (scrape _); [done|..]; by destruct (st !! _). }
  rewrite Hfail. unfold decide_ceiling. destruct (scrape (scrapes k)) as [m|e|w] eqn:Hscr; [|..|done].
  - destruct (ex_limiters s !! k) as [i|] eqn:Hi.
    + destruct (limiter_reads s k i) as [-> ->]; [done|by eapply rd_locs|].
      destruct (step_law (ceiling_of i s) (sm_waiting m) (sm_kv m) (Some (in_flight i s)) (Z.max threshold 1)) as (c' & Hstep & Hb & _);
        [by eapply rd_ceilings|lia|]. unfold target. rewrite Hscr, Hstep. cbn [mbind outcome_bind].
      eexists _, _. split; [done|]. split; [done|]. by case_decide.
    + unfold get_ceiling. destruct k as [a b]. cbn. rewrite Hi. cbn. by eexists _, _.
  - rewrite chk_fits by (unfold fits; case_decide; cbn in *; lia). cbn [mbind outcome_bind]. eexists _, _. split; [done|].
    split; [cbn; by case_decide|]. destruct (ex_limiters s !! k); [|done]. unfold target. by rewrite Hscr.
Qed.
Lemma control_alone l s st p :
  Ready l s st → p ∈ l →
  ∃ v s', run (control (Z.max threshold 1) scrapes (Ok st) p) s = (Ok (<[key_of p := v]> st), s') ∧
    st_failures v = failures st p ∧ Moved [p] s s'.
Proof.
  intros Hr Hp. destruct (decide_total l s st p Hr Hp) as (v & change & Hd & Hv & Hch). pose proof (rd_metered l s st Hr p Hp) as Hm.
  unfold key_of in Hd. destruct p as [ep r].
  unfold control. rewrite prog_run_bind. cbn [reads run fst snd id]. rewrite prog_run_bind. cbn [reads run fst snd id].
  cbn [fst snd] in Hd. rewrite Hd. rewrite prog_run_bind.
  destruct (ex_limiters s !! key_of (ep, r)) as [i|] eqn:Hi; destruct change as [[[old new] m]|]; cbn [acts run mret prog_ret fst snd];
    try done; eexists _, _; split_and!; try done.
  - apply (Moved_one s (ep, r) i new); [by eapply rd_locs|done..].
  - apply Moved_refl. intros p j ->%list_elem_of_singleton Hj. by simplify_eq.
  - apply Moved_refl. intros p j ->%list_elem_of_singleton Hj. congruence.
Qed.

Lemma Moved_ready p l s s' st v :
  key_of p ∉ (key_of <$> l) → Ready (p :: l) s st → Moved [p] s s' → Ready l s' (<[key_of p := v]> st).
Proof.
  intros Hp [H1 H2 H3 H4 H5 H6] [(_ & Hmap & Hlim & Hres) Hlen _ Ht Ho].
  assert (∀ q, q ∈ l → key_of q ≠ key_of p) as Hne by (intros q Hq Heq; apply Hp; rewrite <-Heq; by apply list_elem_of_fmap_2).
  split; rewrite ?Hlim, ?Hlen; try done.
  - intros q Hq. destruct (H3 q) as (M1 & M2 & M3 & M4 & M5); [by right|]. unfold is_metered, resolved_replicas in *.
    by rewrite Hmap, Hres.
  - intros q w Hq. rewrite lookup_insert_ne by (apply not_eq_sym; by apply Hne). apply H4. by right.
  - intros q i Hq Hi. rewrite Ho; [apply (H5 q); [by right|done]|]. intros r ->%list_elem_of_singleton Hr.
    by apply (Hne q Hq), (H1 _ _ i).
Qed.
Lemma Moved_cons p l s s1 s2 :
  key_of p ∉ (key_of <$> l) → (∀ k k' i, ex_limiters s !! k = Some i → ex_limiters s !! k' = Some i → k = k') →
  Moved [p] s s1 → Moved l s1 s2 → Moved (p :: l) s s2.
Proof.
  intros Hp Hinj [(D1 & M1 & L1 & R1) Len1 F1 T1 O1] [(D2 & M2 & L2 & R2) Len2 F2 T2 O2].
  assert (∀ q, q ∈ l → key_of q ≠ key_of p) as Hne by (intros q Hq Heq; apply Hp; rewrite <-Heq; by apply list_elem_of_fmap_2).
  split.
  - by rewrite D2, M2, L2, R2.
  - by rewrite Len2.
  - intros i. by rewrite F2.
  - intros q i [->|Hq]%elem_of_cons Hi.
    + rewrite O2; [by apply T1; [apply list_elem_of_singleton|]|]. intros r Hr. rewrite L1. intros Hri. by apply (Hne r Hr), (Hinj _ _ i).
    + rewrite (T2 q i Hq) by by rewrite L1. rewrite F1. f_equal. apply O1. intros r ->%list_elem_of_singleton Hr.
      by apply (Hne q Hq), (Hinj _ _ i).
  - intros i Hi. rewrite O2; [apply O1|].
    + intros r ->%list_elem_of_singleton. apply Hi. by left. + intros r Hr. rewrite L1. apply Hi. by right.
Qed.
Lemma controls_alone l s st :
  NoDup (key_of <$> l) → Ready l s st →
  ∃ st' s', run (foldP (control (Z.max threshold 1) scrapes) (Ok st) l) s = (Ok st', s') ∧ Moved l s s' ∧
    (∀ p, p ∈ l → ∃ v, st' !! key_of p = Some v ∧ st_failures v = failures st p) ∧
    ∀ k, k ∉ (key_of <$> l) → st' !! k = st !! k.
Proof.
  revert s st. induction l as [|p l IH]; intros s st Hnd Hr.
  { exists st, s. split_and!; [done|by apply Moved_refl; intros p i Hp; apply elem_of_nil in Hp|by intros p Hp; apply elem_of_nil in Hp|done]. }
  rewrite fmap_cons in Hnd. apply NoDup_cons in Hnd as [Hp Hnd].
  destruct (control_alone (p :: l) s st p Hr) as (v & s1 & Hrun & Hv & Hm1); [by left|].
  destruct (IH s1 (<[key_of p := v]> st) Hnd) as (st' & s2 & Hrun2 & Hm2 & Hin & Hout); [by eapply Moved_ready|].
  exists st', s2. cbn [foldP]. rewrite prog_run_bind, Hrun. cbn [fst snd]. split_and!; [done|by eapply Moved_cons; [|eapply rd_inj|..]| |].
  - intros q [->|Hq]%elem_of_cons; [exists v; split; [rewrite Hout by done; apply lookup_insert_eq|done]|].
    destruct (Hin q Hq) as (w & Hw & Hf). exists w. split; [done|]. rewrite Hf. unfold failures.
    rewrite lookup_insert_ne; [done|]. intros Heq. apply Hp. rewrite Heq. by apply list_elem_of_fmap_2.
  - intros k. rewrite fmap_cons, not_elem_of_cons. intros [Hk Hkl]. rewrite Hout by done. by rewrite lookup_insert_ne.
Qed.

(** The replicas with metrics, in the order of the tick. *)
Definition replicas_of s ep : list (ExternalEndpoint (J:=J) * DiscoveredReplica) :=
  if has_metrics ep && bool_decide (0 ≤ max_concurrency ep)%Z
  then (λ r, (ep, r)) <$> filter (λ r, is_Some (dr_metrics_url r)) (resolved_replicas (slug ep) s) else [].
Lemma metered_alone l acc s :
  run (foldP (λ acc ep,
    if has_metrics ep && bool_decide (0 ≤ max_concurrency ep)%Z then
      replicas ← reads (resolved_replicas (slug ep));
      mret (acc ++ ((λ r, (ep, r)) <$> filter (λ r, is_Some (dr_metrics_url r)) replicas))
    else mret acc) acc l) s = (acc ++ (l ≫= replicas_of s), s).
Proof.
  revert acc. induction l as [|ep l IH]; intros acc; [cbn; by rewrite app_nil_r|]. cbn [foldP]. rewrite prog_run_bind.
  change ((ep :: l) ≫= replicas_of s) with (replicas_of s ep ++ (l ≫= replicas_of s)).
  destruct (has_metrics ep && bool_decide (0 ≤ max_concurrency ep)%Z) eqn:Hep.
  - rewrite prog_run_bind. cbn [run reads mret prog_ret fst snd id]. rewrite IH, <-app_assoc. do 2 f_equal. unfold replicas_of. by rewrite Hep.
  - cbn [run mret prog_ret fst snd]. rewrite IH. do 2 f_equal. unfold replicas_of. by rewrite Hep.
Qed.

Lemma scrapes_ok (keys : list (string * ReplicaId)) :
  (∀ k, no_panic (scrape (F:=F) (scrapes k))) →
  foldlM (λ _ k, match scrape (F:=F) (scrapes k) with Panic w => Panic w | _ => Ok tt end) tt keys = (Ok tt : outcome string unit).
Proof. intros Hs. induction keys as [|k keys IH]; [done|]. cbn. specialize (Hs k). by destruct (scrape (scrapes k)). Qed.
Lemma capped_replica s p : p ∈ (Ext_List s ≫= replicas_of s) → (0 ≤ max_concurrency p.1)%Z.
Proof.
  intros (ep & Hp & _)%list_elem_of_bind. unfold replicas_of in Hp. destruct (_ && _) eqn:He; [|by apply elem_of_nil in Hp].
  apply list_elem_of_fmap in Hp as (r & -> & _). by apply andb_true_iff in He as [_ He%bool_decide_eq_true].
Qed.

(** A tick of the controller that runs alone, with metrics whose numbers do
    not overflow, ends without a panic: the limiter of each replica with metrics
    has the ceiling that the law gives from what its metrics say, its count and
    its old ceiling (a scrape that failed leaves it), every other limiter has
    the ceiling it had, no request in flight is counted or forgotten; the state
    has exactly those replicas, with the number of failures in a row; and of the
    table only idle limiters go, of endpoints that have no cap. *)
Theorem tick_moves_ceilings s st :
  let l := Ext_List s ≫= replicas_of s in
  NoDup (key_of <$> l) → Ready l s st →
  ∃ st' s', run (tick threshold scrapes st) s = (Ok st', s') ∧
    (∀ p i, p ∈ l → ex_limiters s !! key_of p = Some i →
       ex_limiters s' !! key_of p = Some i ∧ ceiling_of i s' = target (key_of p) (ceiling_of i s) (in_flight i s)) ∧
    (∀ i, (∀ p, p ∈ l → ex_limiters s !! key_of p ≠ Some i) → ceiling_of i s' = ceiling_of i s) ∧
    (∀ i, in_flight i s' = in_flight i s) ∧
    (∀ k, is_Some (st' !! k) ↔ k ∈ key_of <$> l) ∧
    (∀ p, p ∈ l → ∃ v, st' !! key_of p = Some v ∧ st_failures v = failures st p) ∧
    (∀ k i, ex_limiters s !! k = Some i → ex_limiters s' !! k = None →
       in_flight i s = 0%Z ∧ ∀ ep, ex_map s !! k.1 = Some ep → (max_concurrency ep < 0)%Z).
Proof.
  intros l Hnd Hr. set (st0 := filter (λ p, p.1 ∈ key_of <$> l) st : SlugStates).
  assert (∀ p, p ∈ l → st0 !! key_of p = st !! key_of p) as Hst0.
  { intros p Hp. unfold st0. destruct (st !! key_of p) as [v|] eqn:Hv.
    - apply map_lookup_filter_Some. split; [done|]. cbn [fst]. by apply list_elem_of_fmap_2.
    - apply map_lookup_filter_None. by left. }
  destruct (controls_alone l s st0 Hnd) as (st' & s1 & Hrun & [(_ & Hmap & Hlim & _) _ Hfl Ht Ho] & Hin & Hout).
  { destruct Hr as [H1 H2 H3 H4 H5 H6]. split; try done. intros p v Hp. rewrite Hst0 by done. by apply H4. }
  exists st', (sweep_limiters s1). split_and!.
  - unfold tick. rewrite prog_run_bind. cbn [reads run fst snd id]. rewrite prog_run_bind. unfold metered. rewrite metered_alone.
    cbn [app fst snd]. fold l. cbv zeta. rewrite prog_run_bind. change ((λ p, (slug p.1, dr_id p.2)) <$> l) with (key_of <$> l).
    rewrite scrapes_ok by apply Hr. fold st0. rewrite Hrun. cbn [fst snd]. rewrite prog_run_bind. done.
  - intros p i Hp Hi. split; [|by apply Ht]. unfold sweep_limiters. cbn [ex_limiters put_limiters].
    apply map_lookup_filter_Some. rewrite Hlim. split; [done|]. cbn. case_decide; [done|].
    destruct (rd_metered l s st Hr p Hp) as (Hm & _). rewrite Hmap, Hm. by apply bool_decide_eq_true, (capped_replica s).
  - intros i Hi. by apply Ho.
  - intros i. apply Hfl.
  - intros k. split.
    + intros [v Hv]. destruct (decide (k ∈ key_of <$> l)) as [|Hk]; [done|]. rewrite Hout in Hv by done. unfold st0 in Hv.
      by apply map_lookup_filter_Some in Hv as [_ ?].
    + intros (p & -> & Hp)%list_elem_of_fmap. destruct (Hin p Hp) as (v & Hv & _). by eexists.
  - intros p Hp. destruct (Hin p Hp) as (v & Hv & Hf). exists v. split; [done|]. rewrite Hf. unfold failures. by rewrite Hst0.
  - intros k i Hi Hnone. cbn in Hnone. rewrite Hlim in Hnone. apply map_lookup_filter_None in Hnone as [?|Hnone]; [congruence|].
    specialize (Hnone i Hi). cbn in Hnone. rewrite Hfl in Hnone. case_decide as Hd; [by exfalso; apply Hnone|].
    split; [by destruct (decide (in_flight i s = 0%Z))|]. intros ep Hep. rewrite Hmap, Hep in Hnone.
    destruct (decide (0 ≤ max_concurrency ep)%Z); [|lia]. exfalso. apply Hnone. by apply bool_decide_eq_true.
Qed.
End ceiling.
