(* ===== verification/ExternalScenario.v ===== *)
(** * Runs of a small set of external endpoints *)

From S2P Require Import Prelude.
From S2P Require Import Text.
From S2P Require Import Common.
From S2P Require Import Atomic.
From S2P Require Import External.
From S2P Require Import Ceiling.
From S2P Require Import ExternalRuns.

(** A configuration of backends as its fields; a longer name of a replica
    scores higher; percentages for floats. *)
Abbreviation SampleJson := (list (string * option string * option string)).
#[export] Instance ext_crates : ExternalCrates SampleJson := {|
  BackendConfig_from_json j := Some (Explicit ((λ r, MkReplicaConfig r.1.1 r.1.2 r.2) <$> j));
  hrw_score _ rid := Z.of_nat (len rid);
  url_scheme t := if starts_with "http://" t then Some "http" else None;
|}.
#[export] Instance ext_floats : MetricsFloat Z := {|
  f_parse := parse_i64; f_to_i64 := id; f_max := Z.max; f_le := Z.leb; f_lt := Z.ltb; f_zero := 0%Z; KV_HIGH_WATER := 90%Z |}.

Definition create (sl url : string) (max : Z) (metrics : option string) (back : option SampleJson) : Event (J:=SampleJson) :=
  VAdmin (OCreate true false None (MkCreateRequest sl url "model" "key" max metrics back)).
Definition update (sl url : string) (max : Z) (metrics : option string) (back : option SampleJson) : Event (J:=SampleJson) :=
  VAdmin (OUpdate true None sl (MkUpdateRequest url "model" None max metrics back)).
Definition steps (n k : nat) : list (Event (J:=SampleJson)) := replicate k (VRun n).
Definition publish (sl : string) : Event (J:=SampleJson) := VAdmin (OPublish None sl true "me").
Definition start : Serve (J:=SampleJson) := sv_init ∅.
Definition go (l : list (Event (J:=SampleJson))) : Serve := sv_run ∅ l.

Definition remove (sl : string) : Event (J:=SampleJson) := VAdmin (ODelete true (Ok None) (Ok tt) None None sl "me").
Definition controls (k : nat) : list (Event (J:=SampleJson)) := replicate k VControl.
(** The metrics text of a replica where [w] requests wait, with the cache a
    tenth full. *)
Definition newline : string := String (ascii_of_nat 10) "".
Definition metrics_text (w : string) : string :=
  WAITING_METRIC +:+ "{engine=1} " +:+ w +:+ newline +:+ "# comment" +:+ newline +:+ KV_METRIC_V1 +:+ " 10 17000" +:+ newline.
Definition scraped (w : string) : Event (J:=SampleJson) := VTick 2 (λ _, inr (metrics_text w)).

(** What a run leaves: base URL and cap of the rows of the table and of the
    mirror, URLs of the replicas, limiters, replicas that serve. *)
Definition rows (m : gmap string (ExternalEndpoint (J:=SampleJson))) := (λ p, (p.1, base_url p.2, max_concurrency p.2)) <$> map_to_list m.
Definition left (sv : Serve (J:=SampleJson)) :=
  (rows (ex_db (sv_ext sv)), rows (ex_map (sv_ext sv)),
   (λ p, (p.1, dr_base_url <$> p.2)) <$> map_to_list (ex_resolved (sv_ext sv)),
   (λ l, (inflight l, ceiling l)) <$> ex_heap (sv_ext sv),
   omap (λ t, match t with TRequest r => served_at (rq_pc r) | _ => None end) (sv_tasks sv)).

(** Two requests for an endpoint that allows one at a time. *)
Definition served_once_run : list (Event (J:=SampleJson)) :=
  create "m" "http://a" 1 None None :: steps 0 10 ++ VCall false "m" "t" :: steps 1 10 ++ VCall false "m" "t" :: steps 2 10.
Example served_once : left (go served_once_run)
  = ([("m", "http://a", 1%Z)], [("m", "http://a", 1%Z)], [("m", ["http://a"])], [(1%Z, 1%Z)], ["default"]).
Proof. by vm_compute. Qed.
(** An endpoint with metrics: two requests hold its two permits and none waits,
    so its ceiling rises. *)
Definition rising_run : list (Event (J:=SampleJson)) :=
  create "m" "http://a" 2 (Some "http://m") None :: steps 0 10 ++ VCall false "m" "t" :: steps 1 10
  ++ VCall false "m" "t" :: steps 2 10 ++ scraped "0" :: controls 20.
Example ceiling_rises : left (go rising_run)
  = ([("m", "http://a", 2%Z)], [("m", "http://a", 2%Z)], [("m", ["http://a"])], [(2%Z, 3%Z)], ["default"; "default"]).
Proof. by vm_compute. Qed.

(** *** What goes wrong *)

(** The administrator moves an endpoint to another URL; its replica keeps the
    old one. *)
Definition moved_run : list (Event (J:=SampleJson)) :=
  create "m" "http://a" (-1) None None :: steps 0 10 ++ update "m" "http://b" (-1) None None :: steps 1 10.
Example moved_endpoint_served_at_old_url : left (go moved_run)
  = ([("m", "http://b", (-1)%Z)], [("m", "http://b", (-1)%Z)], [("m", ["http://a"])], [], []).
Proof. by vm_compute. Qed.
(** While the controller ticks, the administrator closes an endpoint (no
    metrics, cap 0): the ceiling is reset before the row is written, the
    controller stores its ceiling in between, and the endpoint serves on. *)
Definition closed_run : list (Event (J:=SampleJson)) :=
  create "m" "http://a" 7 (Some "http://m") None :: steps 0 10
  ++ scraped "2" :: controls 4 ++ update "m" "http://a" 0 None None :: steps 1 3 ++ controls 20 ++ steps 1 10
  ++ VCall false "m" "t" :: steps 2 10.
Example closed_endpoint_serves : left (go closed_run)
  = ([("m", "http://a", 0%Z)], [("m", "http://a", 0%Z)], [("m", ["http://a"])], [(1%Z, 5%Z)], ["default"]).
Proof. by vm_compute. Qed.
(** Two updates of the same endpoint: the table has the later one, the mirror
    the earlier. *)
Definition crossed_run : list (Event (J:=SampleJson)) :=
  create "m" "http://a" 7 None None :: steps 0 10
  ++ update "m" "http://a" 8 None None :: steps 1 1 ++ update "m" "http://a" 9 None None :: steps 2 10 ++ steps 1 10.
Example mirror_has_older_row : left (go crossed_run)
  = ([("m", "http://a", 9%Z)], [("m", "http://a", 8%Z)], [("m", ["http://a"])], [], []).
Proof. by vm_compute. Qed.
(** A request that has looked up its limiter while the endpoint is deleted,
    swept and created again: two requests where one is allowed. *)
Definition orphan_run : list (Event (J:=SampleJson)) :=
  create "m" "http://a" 1 None None :: steps 0 10 ++ VCall false "m" "t" :: steps 1 7
  ++ remove "m" :: steps 2 20 ++ scraped "0" :: controls 10 ++ create "m" "http://a" 1 None None :: steps 3 10
  ++ VCall false "m" "t" :: steps 4 10 ++ steps 1 10.
Example two_limiters_for_one_replica : left (go orphan_run)
  = ([("m", "http://a", 1%Z)], [("m", "http://a", 1%Z)], [("m", ["http://a"])], [(1%Z, 1%Z); (1%Z, 1%Z)], ["default"; "default"]).
Proof. by vm_compute. Qed.
