(* ===== verification/ExternalProps.v ===== *)
(** * External endpoints: what holds in every run *)

From S2P Require Import Prelude.
From S2P Require Import Text.
From S2P Require Import BTree.
From S2P Require Import Common.
From S2P Require Import Atomic.
From S2P Require Import External.
From S2P Require Import Ceiling.
From S2P Require Import ExternalRuns.
From S2P Require Import ExternalInv.
From S2P Require Import ExternalSteps.
From S2P Require Import ExternalSafe.
From S2P Require Import ExternalDispatch.
From S2P Require Import CeilingProps.
From S2P Require Import ExternalScenario.

Section props.
Context {J F : Type} {crates : ExternalCrates J} {floats : MetricsFloat F}.
Implicit Types (s : Ext (J:=J)) (sv : Serve (J:=J)).

(** The highest ceilings of a run. *)
Definition peaks (db : gmap string (ExternalEndpoint (J:=J))) (l : list (Event (J:=J))) : (nat → Z) * Serve :=
  foldl (λ p ev, let sv := sv_step (F:=F) ev p.2 in (λ i, Z.max (p.1 i) (ceiling_of i (sv_ext sv)), sv))
    (λ i, ceiling_of i (sv_ext (sv_init db)), sv_init db) l.
Lemma peaks_reach cap db l : Forall (good_event cap) l → reaches cap db (peaks db l).1 (peaks db l).2.
Proof.
  intros Hl. induction l as [|ev l IH] using rev_ind; [apply reaches_init|].
  apply Forall_app in Hl as [Hl [He _]%Forall_cons]. unfold peaks. rewrite foldl_app. cbn.
  apply (reaches_step cap db ev); [done|by apply IH].
Qed.

Lemma peaks_run db l : (peaks db l).2 = sv_run (F:=F) db l.
Proof.
  unfold peaks, sv_run. match goal with |- (foldl ?step ?p l).2 = _ => set (f := step); set (start := p) end.
  change (sv_init db) with start.2. generalize start. induction l as [|ev l IH]; intros p; [done|]. apply (IH (f p ev)).
Qed.

(** C18: whatever requests, administrators and the controller do at the same
    time, a limiter counts exactly the requests that hold one of its permits
    (none is lost when a replica fails, when the client goes away or when its
    endpoint is changed, deleted or created again), and never lets in more than
    the highest ceiling it has had. *)
Theorem limiters_count_permits db peak sv i :
  good_table None db → reaches None db peak sv →
  in_flight i (sv_ext sv) = Z.of_nat (holders i (sv_tasks sv)) ∧ (in_flight i (sv_ext sv) ≤ Z.max 0 (peak i))%Z.
Proof. intros Hdb Hr. destruct (reaches_safe None ltac:(done) db peak sv Hdb Hr). auto. Qed.

(** C19: while the row of an endpoint without metrics keeps its cap and its
    replicas (it may be published and unpublished, and other rows may do what
    they want), no replica of it ever serves more requests at a time than its
    cap, through any sweep of the limiters and any interleaving. *)
Theorem static_cap_respected (c : Cap (J:=J)) db peak sv rid :
  plain c → good_table (Some c) db → reaches (Some c) db peak sv →
  (Z.of_nat (served (cp_slug c) rid (sv_tasks sv)) ≤ cp_max c)%Z.
Proof.
  intros Hp Hdb Hr. destruct (reaches_safe (Some c) ltac:(by intros ? [= <-]) db peak sv Hdb Hr) as [[_ Hst] Hcount _ _ _ Htasks _].
  destruct (Hst c eq_refl) as [_ _ Hl]. unfold served.
  assert (∀ t, t ∈ sv_tasks sv → serves (cp_slug c) rid t = true →
    ∃ i, task_permit t = Some i ∧ ex_limiters (sv_ext sv) !! (cp_slug c, rid) = Some i) as Hone.
  { intros t [n Hn]%list_elem_of_lookup_1 Hs. specialize (Htasks n t Hn). destruct t as [|r|]; try done. cbn in *.
    apply bool_decide_eq_true in Hs as [Hs Hat]. unfold request_ok in Htasks. rewrite Hs in Htasks.
    destruct (rq_pc r) as [| |p rep ? ?|p rep ?|p rep ?|]; try done; cbn in *; injection Hat as <-;
      (destruct p as [i|]; [|by destruct (Htasks c)]); exists i; (split; [done|]); by apply Htasks. }
  destruct (ex_limiters (sv_ext sv) !! (cp_slug c, rid)) as [i|] eqn:Hi.
  - destruct (Hl rid i Hi) as [_ Hb]. rewrite Hcount in Hb. etransitivity; [|exact Hb]. apply inj_le. unfold holders.
    clear -Hone. induction (sv_tasks sv) as [|t l IH]; [done|]. rewrite !filter_cons.
    assert (length (filter (λ t, serves (cp_slug c) rid t = true) l) ≤ length (filter (λ t, task_permit t = Some i) l)) as Hle.
    { apply IH. intros u Hu. apply Hone. by right. }
    case_decide as H1; [destruct (Hone t) as (j & Hj & [= <-]); [by left|done|]; rewrite decide_True by done; cbn; lia|].
    case_decide; cbn; lia.
  - rewrite filter_none; [cbn; by apply Hp|]. intros t Ht Hs. by destruct (Hone t Ht Hs) as (j & _ & [=]).
Qed.

(** Storing ceilings leaves the tables alone. *)
Definition same_tables s s' : Prop := ex_db s' = ex_db s ∧ ex_map s' = ex_map s ∧ ex_resolved s' = ex_resolved s.
Lemma store_all_tables c sl l s : same_tables s (store_all c sl l s).
Proof.
  revert s. induction l as [|r l IH]; intros s; [done|]. unfold store_all, same_tables in *. cbn [foldl].
  destruct (IH (store_or_insert c (sl, dr_id r) s)) as (-> & -> & ->). unfold store_or_insert, or_insert.
  by destruct (ex_limiters s !! (sl, dr_id r)).
Qed.
Lemma store_slug_tables c sl s : same_tables s (store_slug c sl s).
Proof.
  unfold store_slug. generalize (filter (λ p : (string * ReplicaId) * nat, p.1.1 = sl) (map_to_list (ex_limiters s))).
  intros l. unfold same_tables. revert s. induction l as [|p l IH]; intros s; [done|]. cbn [foldl].
  by destruct (IH (put_heap (alter (set_ceil c) p.2 (ex_heap s)) s)) as (-> & -> & ->).
Qed.
(** The mirror takes a row without backends of its own, and keeps the replicas
    it has. *)
Lemma upsert_known ep l s :
  config ep = None → ex_resolved s !! slug ep = Some l →
  let s' := (run (upsert_mirror ep) s).2 in
  ex_db s' = ex_db s ∧ ex_map s' = <[slug ep := ep]> (ex_map s) ∧ ex_resolved s' = ex_resolved s.
Proof.
  intros Hc Hl. unfold upsert_mirror. rewrite prog_run_bind, Hc. cbn [reads run]. set (old := Ext_Get (slug ep) s). cbn [fst snd].
  rewrite bool_decide_eq_false_2 by by intros [? ?]. cbn [andb]. rewrite prog_run_bind.
  assert (∀ s1, same_tables s s1 → let s' := (run (_ ← upsert_default ep; acts (λ s, put_map (<[slug ep:=ep]> (ex_map s)) s)) s1).2 in
    ex_db s' = ex_db s ∧ ex_map s' = <[slug ep := ep]> (ex_map s) ∧ ex_resolved s' = ex_resolved s) as Hend.
  { intros s1 (H1 & H2 & H3). unfold upsert_default, missing_replicas. rewrite !prog_run_bind. cbn [reads run fst snd id].
    rewrite H3, Hl. rewrite bool_decide_eq_false_2 by done. cbn. by rewrite H1, H2, H3. }
  destruct (has_metrics ep && _).
  - rewrite prog_run_bind. cbn [run mret prog_ret fst]. apply Hend.
    destruct (max_changed old ep || metrics_changed old ep); [|done]. unfold upsert_dynamic, missing_replicas.
    rewrite !prog_run_bind. cbn [reads run fst snd id]. rewrite Hl.
    rewrite bool_decide_eq_false_2 by done. cbn [run fst snd mret prog_ret acts]. apply store_all_tables.
  - destruct ((_ || _ || _) && _); cbn [run mret prog_ret fst snd]; [|by apply Hend].
    rewrite prog_run_bind. cbn [run acts fst snd mret prog_ret]. apply Hend, store_slug_tables.
Qed.

(** An administrator's update of an endpoint whose replicas are known does
    not reach them when the new row has no backends of its own: the row has the
    new URL, in the table and in the mirror, the requests go to the old one. *)
Theorem update_keeps_replicas s sl old l url model key max metrics back :
  ex_db s !! sl = Some old → ex_resolved s !! sl = Some l → back ≫= BackendConfig_from_json = None →
  (-1 ≤ max)%Z → blank sl = false → blank url = false →
  let ep := MkEndpoint sl url model (default (provider_api_key old) key) (published old) max (last_published_by old) metrics back in
  ∃ s', run (Ext_Update None sl url model key max metrics back) s = (Ok ep, s') ∧
    ex_db s' !! sl = Some ep ∧ ex_map s' !! sl = Some ep ∧ resolved_replicas sl s' = l.
Proof.
  intros Hdb Hres Hback Hmax Hb1 Hb2 ep.
  assert (UpdateExternalEndpoint sl url model key max metrics back s = (Ok ep, put_db (<[sl := ep]> (ex_db s)) s)) as Hq.
  { unfold UpdateExternalEndpoint. rewrite Hdb. fold ep. unfold store_row, row_ok. cbn [slug base_url backends max_concurrency ep].
    rewrite Hb1, Hb2. cbn [negb andb orb]. rewrite orb_true_r, bool_decide_eq_true_2 by done. done. }
  set (s1 := put_db (<[sl := ep]> (ex_db s)) s) in *.
  destruct (upsert_known ep l s1) as (H1 & H2 & H3); [done|done|]. exists (run (upsert_mirror ep) s1).2. split_and!.
  - unfold Ext_Update, write_through. rewrite prog_run_bind. cbn [query atomically run]. rewrite Hq. cbn [fst snd].
    rewrite prog_run_bind. done.
  - rewrite H1. apply lookup_insert_eq.
  - rewrite H2. apply lookup_insert_eq.
  - unfold resolved_replicas. rewrite H3. unfold s1. cbn [ex_resolved put_db]. by rewrite Hres.
Qed.
End props.

(** ** Witnesses *)

Definition two_rows : gmap string (ExternalEndpoint (J:=SampleJson)) :=
  {[ "m" := MkEndpoint "m" "http://a" "model" "key" true 1 None None None;
     "n" := MkEndpoint "n" "http://n" "model" "key" true 3 None (Some "http://n/metrics") None ]}.
Definition one_at_a_time : Cap (J:=SampleJson) := MkCap "m" 1 None.
(** Three requests for [m] and two for [n], a tick, and an update of [n]. *)
Definition busy_run : list (Event (J:=SampleJson)) :=
  VCall true "m" "t" :: steps 0 10 ++ VCall true "m" "t" :: steps 1 10 ++ VCall true "n" "t" :: steps 2 10
  ++ update "n" "http://b" 2 None None :: steps 3 2 ++ scraped "3" :: controls 4 ++ publish "m" :: steps 4 10 ++ controls 10 ++ steps 3 10
  ++ VAnswer 0 (SendOk (MkResponse 200 [] "hello")) :: VFinish 0 :: steps 0 3 ++ VCall true "m" "t" :: steps 5 10.
Definition goodb (cap : option string) (ev : Event (J:=SampleJson)) : bool :=
  match ev with
  | VAdmin (OCreate _ _ _ req) => (cq_max_concurrency req <=? ty_max i32)%Z && bool_decide (Some (trim (cq_slug req)) ≠ cap)
  | VAdmin (OUpdate _ _ sl req) => (uq_max_concurrency req <=? ty_max i32)%Z && bool_decide (Some sl ≠ cap)
  | VAdmin (ODelete _ _ _ _ _ sl _) => bool_decide (Some sl ≠ cap)
  | _ => true
  end.
Lemma goodb_good cap l : forallb (goodb (cp_slug <$> cap)) l = true → Forall (good_event (J:=SampleJson) cap) l.
Proof.
  rewrite forallb_forall, Forall_forall. intros Hl ev Hev%list_elem_of_In. specialize (Hl ev Hev).
  assert (∀ sl, bool_decide (Some sl ≠ cp_slug <$> cap) = true → other cap sl) as Ho.
  { intros sl H%bool_decide_eq_true c -> Heq. apply H. cbn. by rewrite Heq. }
  destruct ev as [|op| | | | | |]; try done. destruct op; cbn [goodb good_event] in *; try done.
  - apply andb_true_iff in Hl as [H1 H2]. split; [lia|by apply Ho]. - apply andb_true_iff in Hl as [H1 H2]. split; [lia|by apply Ho].
  - by apply Ho.
Qed.
Lemma two_rows_good cap : (∀ c, cap = Some c → c = one_at_a_time) → good_table cap two_rows.
Proof.
  intros Hcap. split.
  - intros k ep Hep. unfold two_rows in Hep. apply lookup_insert_Some in Hep as [[<- <-]|[Hne Hep]].
    + split; [done|]. split; [done|]. by intros c ->%Hcap _.
    + apply lookup_singleton_Some in Hep as [<- <-]. split; [done|]. split; [done|]. by intros c ->%Hcap.
  - intros c ->%Hcap. by eexists.
Qed.
Abbreviation busy := (peaks two_rows busy_run).
Lemma busy_reached cap : (∀ c, cap = Some c → c = one_at_a_time) → reaches cap two_rows busy.1 busy.2.
Proof.
  intros Hcap. apply peaks_reach, goodb_good. destruct cap as [c|]; [|by vm_compute]. rewrite (Hcap c eq_refl). by vm_compute.
Qed.
Lemma plain_cap : plain one_at_a_time.
Proof. by split. Qed.

Lemma limiters_count_permits_witness :
  in_flight 0 (sv_ext busy.2) = 1%Z ∧ in_flight 0 (sv_ext busy.2) = Z.of_nat (holders 0 (sv_tasks busy.2)) ∧
  (in_flight 0%nat (sv_ext busy.2) ≤ Z.max 0 (busy.1 0%nat))%Z.
Proof.
  split; [by vm_compute|]. apply (limiters_count_permits two_rows busy.1 busy.2 0); [by apply two_rows_good|by apply busy_reached].
Defined.
Lemma static_cap_respected_witness :
  served "m" "default" (sv_tasks busy.2) = 1 ∧ (Z.of_nat (served "m" "default" (sv_tasks busy.2)) ≤ 1)%Z.
Proof.
  split; [by vm_compute|]. apply (static_cap_respected one_at_a_time two_rows busy.1 busy.2 "default" plain_cap).
  - apply two_rows_good. by intros c [= <-].
  - apply busy_reached. by intros c [= <-].
Defined.
Lemma update_keeps_replicas_witness : ∃ ep s',
  run (Ext_Update None "m" "http://b" "model" None 1 None None) (ExternalEndpointMgr_New two_rows) = (Ok ep, s') ∧
  base_url ep = "http://b" ∧ dr_base_url <$> resolved_replicas "m" s' = ["http://a"].
Proof.
  destruct (update_keeps_replicas (ExternalEndpointMgr_New two_rows) "m" (MkEndpoint "m" "http://a" "model" "key" true 1 None None None)
    [MkReplica "default" "http://a" None] "http://b" "model" None 1 None None) as (s' & Hrun & _ & _ & Hl); [by vm_compute..|].
  eexists _, s'. split; [exact Hrun|]. split; [done|]. by rewrite Hl.
Defined.

(** An endpoint with two replicas, one request at a time on each. *)
Definition two_replicas : gmap string (ExternalEndpoint (J:=SampleJson)) :=
  {[ "p" := MkEndpoint "p" "" "model" "key" true 1 None None (Some [("http://1", Some "http://1/metrics", Some "a"); ("http://2", None, Some "bb")]) ]}.
Definition replicas_of_p : list DiscoveredReplica := [MkReplica "a" "http://1" (Some "http://1/metrics"); MkReplica "bb" "http://2" None].
Definition answers_of_p (r : DiscoveredReplica) : SendResult :=
  if decide (dr_id r = "a") then SendOk (MkResponse 200 [] "hello") else SendOk (MkResponse 429 [] "later").
Lemma two_replicas_good : good_table None two_replicas.
Proof.
  split; [|done]. intros k ep Hep. unfold two_replicas in Hep. apply lookup_singleton_Some in Hep as [<- <-]. by repeat split.
Qed.
Lemma two_replicas_inv : Inv None (ExternalEndpointMgr_New two_replicas).
Proof. apply New_inv; [done|apply two_replicas_good]. Qed.
Lemma two_replicas_sane : Sane "p" (ExternalEndpointMgr_New two_replicas).
Proof.
  destruct two_replicas_inv as [[H1 _ H3 _ _] _]. split; [done| |by vm_compute]. intros i. by rewrite New_flight.
Qed.
Lemma dispatch_is_failover_witness : ∃ n p s',
  affinity_order replicas_of_p "t" = reverse replicas_of_p ∧ n ≤ 19 ∧
  Nat.iter n (solo answers_of_p) (dispatch_failover "p" replicas_of_p "t", ExternalEndpointMgr_New two_replicas)
  = (MkRequest "p" (RHold p (MkReplica "a" "http://1" (Some "http://1/metrics")) (MkResponse 200 [] "hello")), bump p s').
Proof.
  destruct (dispatch_is_failover answers_of_p "p" replicas_of_p "t" (ExternalEndpointMgr_New two_replicas) two_replicas_sane)
    as (_ & _ & n & p & s' & Hn & _ & _ & Hrun); [done|].
  exists n, p, s'. split; [by vm_compute|]. split; [exact Hn|]. rewrite Hrun. unfold outcome_of.
  assert (failover answers_of_p "p" (free "p" (ExternalEndpointMgr_New two_replicas)) (affinity_order replicas_of_p "t") None
    = (Some (MkReplica "a" "http://1" (Some "http://1/metrics")), MkResponse 200 [] "hello")) as -> by (by vm_compute).
  done.
Defined.
(** The metrics say that three requests wait: the ceiling of one stays. *)
Lemma tick_moves_ceilings_witness : ∃ st' s',
  run (tick 2 (λ _, inr (metrics_text "3")) ∅) (ExternalEndpointMgr_New two_replicas) = (Ok st', s') ∧
  ceiling_of 0 s' = 1%Z ∧ ceiling_of 1 s' = 1%Z.
Proof.
  set (s := ExternalEndpointMgr_New two_replicas).
  assert ((Ext_List s ≫= replicas_of s) = [(MkEndpoint "p" "" "model" "key" true 1 None None
     (Some [("http://1", Some "http://1/metrics", Some "a"); ("http://2", None, Some "bb")]), MkReplica "a" "http://1" (Some "http://1/metrics"))]) as Hl
    by (by vm_compute).
  pose proof two_replicas_inv as [[H1 H2 H3 _ _] _].
  destruct (tick_moves_ceilings 2 (λ _, inr (metrics_text "3")) s ∅) as (st' & s' & Hrun & Ht & Ho & _).
  - rewrite Hl. apply NoDup_singleton.
  - rewrite Hl. split; [done|done| | | |].
    + intros q ->%list_elem_of_singleton. split; [by vm_compute|]. split; [done|]. split; [|split; [|by eexists]]; vm_compute.
      * by left. * repeat constructor; set_solver.
    + done.
    + intros q i ->%list_elem_of_singleton Hi. assert (i = 0) as -> by (vm_compute in Hi; congruence). by vm_compute.
    + intros k. by vm_compute.
  - exists st', s'. split; [done|]. rewrite Hl in Ht, Ho. split.
    + destruct (Ht _ 0 ltac:(by apply list_elem_of_singleton)) as [_ ->]; by vm_compute.
    + rewrite Ho; [by vm_compute|]. intros q ->%list_elem_of_singleton. by vm_compute.
Defined.
