(* ===== verification/Calls.v ===== *)
(** * Calls that ask the world

    An asynchronous handler between its start and its end: a tree of the atomic
    actions on shared state, of the questions it puts to the world (other
    services), of the locks it waits for and of what it sends to its client.
    Other tasks act between any two nodes.  The type of a question is the type
    of its answer; [select!] between an answer and the cancellation of a token
    is a node of its own.  Then [?] on the result of a call; the questions a call
    may put to the world, whatever it sees and is answered ([asks]); a call
    alone, whose questions are answered by a server ([serve]); and calls that run
    at once ([together]). *)

From S2P Require Import Prelude.

Inductive call (S : Type) (Q : Type → Type) (O A : Type) : Type :=
| CRet (a : A)
| CPanic (why : string)
| CAct (upd : S → S) (k : S → call S Q O A)
| CAsk {X : Type} (q : Q X) (k : X → call S Q O A)
| CSelect {X : Type} (tok : nat) (q : Q X) (cancelled : call S Q O A) (k : X → call S Q O A)
| CLock (l : nat) (k : call S Q O A)
| CSay (o : O) (k : call S Q O A).
Arguments CRet {S Q O A} a.
Arguments CPanic {S Q O A} why.
Arguments CAct {S Q O A} upd k.
Arguments CAsk {S Q O A X} q k.
Arguments CSelect {S Q O A X} tok q cancelled k.
Arguments CLock {S Q O A} l k.
Arguments CSay {S Q O A} o k.

#[global] Instance call_ret {S Q O} : MRet (call S Q O) := fun _ a => CRet a.
#[global] Instance call_bind {S Q O} : MBind (call S Q O) := fun A B f =>
  fix bind p :=
    match p with
    | CRet a => f a
    | CPanic w => CPanic w
    | CAct upd k => CAct upd (λ s, bind (k s))
    | CAsk q k => CAsk q (λ x, bind (k x))
    | CSelect t q c k => CSelect t q (bind c) (λ x, bind (k x))
    | CLock l k => CLock l (bind k)
    | CSay o k => CSay o (bind k)
    end.

Section calls.
Context {S : Type} {Q : Type → Type} {O : Type}.
Implicit Types (A B : Type).

(** One action that looks, one that changes, one that does both. *)
Definition look {A} (f : S → A) : call S Q O A := CAct id (λ s, CRet (f s)).
Definition act (f : S → S) : call S Q O unit := CAct f (λ _, CRet tt).
Definition once {A} (f : S → A * S) : call S Q O A := CAct (λ s, (f s).2) (λ s, CRet (f s).1).
Definition ask {X} (q : Q X) : call S Q O X := CAsk q (λ x, CRet x).
Definition lock (l : nat) : call S Q O unit := CLock l (CRet tt).
Definition say (o : O) : call S Q O unit := CSay o (CRet tt).
(** What has no effect but may panic. *)
Definition try_ {E A} (m : outcome E A) : call S Q O A :=
  match m with Ok a => CRet a | Err _ => CPanic "unreachable" | Panic w => CPanic w end.
Fixpoint eachC {B} (f : B → call S Q O unit) (l : list B) : call S Q O unit :=
  match l with [] => CRet tt | b :: l => _ ← f b; eachC f l end.

(** Whatever the world answers and the others do, what [p] has said when it
    ends, after [said], satisfies [φ]. *)
Fixpoint says {A} (φ : A → list O → Prop) (p : call S Q O A) (said : list O) : Prop :=
  match p with
  | CRet a => φ a said
  | CPanic _ => True
  | CAct _ k => ∀ s, says φ (k s) said
  | CAsk _ k => ∀ x, says φ (k x) said
  | CSelect _ _ c k => says φ c said ∧ ∀ x, says φ (k x) said
  | CLock _ k => says φ k said
  | CSay o k => says φ k (said ++ [o])
  end.

Lemma says_bind {A B} (φ : B → list O → Prop) (p : call S Q O A) (f : A → call S Q O B) said :
  says (λ a said, says φ (f a) said) p said → says φ (p ≫= f) said.
Proof.
  revert said. induction p as [a|w|upd k IH|X q k IH|X t q c IHc k IH|l k IH|o k IH];
    intros said Hp; cbn in *; auto.
  destruct Hp as [Hc Hk]. split; auto.
Qed.
Lemma says_mono {A} (φ ψ : A → list O → Prop) (p : call S Q O A) said :
  says φ p said → (∀ a said, φ a said → ψ a said) → says ψ p said.
Proof.
  intros Hp Hm. revert said Hp. induction p as [a|w|upd k IH|X q k IH|X t q c IHc k IH|l k IH|o k IH];
    intros said Hp; cbn in *; auto.
  destruct Hp as [Hc Hk]. split; auto.
Qed.

Lemma says_shift {A} (φ : A → list O → Prop) (p : call S Q O A) said m :
  says (λ a m, φ a (said ++ m)) p m → says φ p (said ++ m).
Proof.
  revert m. induction p as [a|w|upd k IH|X q k IH|X t q c IHc k IH|l k IH|o k IH]; intros m Hp; cbn in *; auto.
  - destruct Hp. auto.
  - rewrite <-app_assoc. by apply IH.
Qed.
(** One call after another, by what each of them says. *)
Lemma says_then {A B} (φ : A → list O → Prop) (ψ : B → list O → Prop) (p : call S Q O A) (f : A → call S Q O B) :
  says φ p [] → (∀ a m, φ a m → says (λ b m', ψ b (m ++ m')) (f a) []) → says ψ (p ≫= f) [].
Proof.
  intros Hp Hf. apply says_bind. eapply says_mono; [done|]. intros a m Hm. rewrite <-(app_nil_r m). by apply says_shift, Hf.
Qed.

(** ** What a call relies on and what it may do

    [v] is what a task knows ([at_ s v], which the others keep true); each of its
    actions leads to a [v'] that holds of the new state, and is one it may do.
    To wait for a lock it must be at a place where that is allowed ([waits]); it
    is given the lock in one of the places [got].  In the end [Φ] holds. *)
Section wp.
Context {V : Type} (at_ : S → V → Prop) (may : S → V → S → V → Prop) (waits : nat → V → Prop) (got : nat → V → V → Prop).

Fixpoint wp {A} (p : call S Q O A) (v : V) (Φ : A → V → Prop) : Prop :=
  match p with
  | CRet a => Φ a v
  | CPanic _ => True
  | CAct upd k => ∀ s, at_ s v → ∃ v', at_ (upd s) v' ∧ may s v (upd s) v' ∧ wp (k s) v' Φ
  | CAsk _ k => ∀ x, wp (k x) v Φ
  | CSelect _ _ c k => wp c v Φ ∧ ∀ x, wp (k x) v Φ
  | CLock l k => waits l v ∧ ∀ v', got l v v' → wp k v' Φ
  | CSay _ k => wp k v Φ
  end.

Lemma wp_then {A B} (p : call S Q O A) (f : A → call S Q O B) v (Φ : B → V → Prop) :
  wp p v (λ a v, wp (f a) v Φ) → wp (p ≫= f) v Φ.
Proof.
  revert v. induction p as [a|w|upd k IH|X q k IH|X t q c IHc k IH|l k IH|o k IH];
    intros v Hp; cbn in *; auto.
  - intros s Hs. destruct (Hp s Hs) as (v' & ? & ? & Hk). exists v'. auto.
  - destruct Hp as [Hc Hk]. split; auto.
  - destruct Hp as [Hw Hk]. split; auto.
Qed.
Lemma wp_weaken {A} (p : call S Q O A) v (Φ Ψ : A → V → Prop) :
  wp p v Φ → (∀ a v, Φ a v → Ψ a v) → wp p v Ψ.
Proof.
  intros Hp Hm. revert v Hp. induction p as [a|w|upd k IH|X q k IH|X t q c IHc k IH|l k IH|o k IH];
    intros v Hp; cbn in *; auto.
  - intros s Hs. destruct (Hp s Hs) as (v' & ? & ? & Hk). exists v'. auto.
  - destruct Hp as [Hc Hk]. split; auto.
  - destruct Hp as [Hw Hk]. split; auto.
Qed.
Lemma wp_act (f : S → S) v (Φ : unit → V → Prop) :
  (∀ s, at_ s v → ∃ v', at_ (f s) v' ∧ may s v (f s) v' ∧ Φ tt v') → wp (act f) v Φ.
Proof. done. Qed.
Lemma wp_once {A} (f : S → A * S) v (Φ : A → V → Prop) :
  (∀ s, at_ s v → ∃ v', at_ (f s).2 v' ∧ may s v (f s).2 v' ∧ Φ (f s).1 v') → wp (once f) v Φ.
Proof. done. Qed.
Lemma wp_look {A} (f : S → A) v (Φ : A → V → Prop) :
  (∀ s, may s v s v) → (∀ s, at_ s v → Φ (f s) v) → wp (look f) v Φ.
Proof. intros Hm Hf s Hs. exists v. split_and!; [done|apply Hm|by apply Hf]. Qed.
Lemma wp_ask {X} (q : Q X) v (Φ : X → V → Prop) : (∀ x, Φ x v) → wp (ask q) v Φ.
Proof. done. Qed.
Lemma wp_say o v (Φ : unit → V → Prop) : Φ tt v → wp (say o) v Φ.
Proof. done. Qed.
Lemma wp_return {A} (a : A) v (Φ : A → V → Prop) : Φ a v → wp (mret a) v Φ.
Proof. done. Qed.
Lemma wp_try {E A} (m : outcome E A) v (Φ : A → V → Prop) :
  (∀ a, m = Ok a → Φ a v) → wp (try_ m) v Φ.
Proof. intros Hm. destruct m; cbn; auto. Qed.
Lemma wp_eachC {B} (f : B → call S Q O unit) (l : list B) v (Φ : unit → V → Prop) :
  (∀ b, b ∈ l → wp (f b) v (λ _ v', v' = v)) → Φ tt v → wp (eachC f l) v Φ.
Proof.
  intros Hf HΦ. induction l as [|b l IH]; [done|]. cbn [eachC]. apply wp_then.
  eapply wp_weaken; [apply Hf; by left|]. intros _ ? ->. apply IH. intros b' Hb. apply Hf. by right.
Qed.
End wp.
End calls.

(** Calls that only say something. *)
Fixpoint talk {S Q O A} (p : call S Q O A) : Prop :=
  match p with CRet _ | CPanic _ => True | CSay _ k => talk k | _ => False end.
Lemma talk_bind {S Q O A B} (p : call S Q O A) (f : A → call S Q O B) : talk p → (∀ a, talk (f a)) → talk (p ≫= f).
Proof. intros Hp Hf. induction p; cbn in *; auto. Qed.
Lemma talk_bind_assoc {S Q O A B D} (p : call S Q O A) (f : A → call S Q O B) (g : B → call S Q O D) :
  talk p → (p ≫= f) ≫= g = p ≫= (λ a, f a ≫= g).
Proof. intros Hp. induction p as [| | | | | |o k IH]; try done. cbn in *. f_equal. by apply IH. Qed.
Lemma talk_bind_ext {S Q O A B} (p : call S Q O A) (f g : A → call S Q O B) :
  talk p → (∀ a, f a = g a) → p ≫= f = p ≫= g.
Proof. intros Hp Hfg. induction p as [a| | | | | |o k IH]; try done; cbn in *; [apply Hfg|]. f_equal. by apply IH. Qed.
Lemma wp_talk {S Q O V A} at_ may waits got (p : call S Q O A) (v : V) (Φ : A → V → Prop) :
  talk p → (∀ a, Φ a v) → wp at_ may waits got p v Φ.
Proof. intros Hp HΦ. induction p as [a|w|upd k IH|X q k IH|X t q c IHc k IH|l k IH|o k IH]; try done; cbn in *; auto. Qed.

(** ** Calls that return results, and what they ask *)

Declare Scope call_scope.
Delimit Scope call_scope with call.

Section results.
Context {S : Type} {Q : Type → Type} {O E : Type}.
Implicit Types (A B : Type).
Abbreviation C A := (call S Q O (outcome E A)).

Definition okC {A} (a : A) : C A := CRet (Ok a).
Definition failC {A} (e : E) : C A := CRet (Err e).
Definition bindR {A B} (p : C A) (f : A → C B) : C B :=
  p ≫= λ r, match r with Ok a => f a | Err e => CRet (Err e) | Panic w => CPanic w end.
(** A result that is there already. *)
Definition liftC {A} (m : outcome E A) : C A := match m with Panic w => CPanic w | _ => CRet m end.
(** One action that looks and may fail. *)
Definition readC {A} (f : S → outcome E A) : C A := look f ≫= liftC.
(** A question whose answer may be an error. *)
Definition askC {A} (q : Q (outcome E A)) : C A := ask q ≫= liftC.
(** The errors of a call, as another type sees them. *)
Definition orC {A} (p : C A) (f : E → C A) : C A :=
  p ≫= λ r, match r with Err e => f e | Ok a => okC a | Panic w => CPanic w end.
End results.
Notation "x ⇐ p ; q" := (bindR p (λ x, q)) (at level 20, p at level 100, q at level 200, only parsing) : call_scope.
Notation "' x ⇐ p ; q" := (bindR p (λ y, let x := y in q)) (at level 20, x pattern, p at level 100, q at level 200, only parsing) : call_scope.
Notation "p ⇒ q" := (bindR p (λ _, q)) (at level 100, q at level 200, right associativity, only parsing) : call_scope.

(** ** Calls at once in one task

    The calls of a [FuturesUnordered], polled by the task that holds them: at any
    node of one the world picks which goes on.  A panic is the task's. *)

Section par.
Context {S : Type} {Q : Type → Type} {O : Type} (pick : Q bool).
Implicit Types (A B : Type).

Fixpoint par2 {A B} (p : call S Q O A) : call S Q O B → call S Q O (A * B) :=
  fix par2_r (q : call S Q O B) :=
    match p with
    | CRet a => q ≫= λ b, CRet (a, b)
    | _ =>
        match q with
        | CRet b => p ≫= λ a, CRet (a, b)
        | _ =>
            CAsk pick (λ left : bool,
              if left then
                match p with
                | CRet a => q ≫= λ b, CRet (a, b)
                | CPanic w => CPanic w
                | CAct upd k => CAct upd (λ s, par2 (k s) q)
                | CAsk x k => CAsk x (λ r, par2 (k r) q)
                | CSelect t x c k => CSelect t x (par2 c q) (λ r, par2 (k r) q)
                | CLock l k => CLock l (par2 k q)
                | CSay o k => CSay o (par2 k q)
                end
              else
                match q with
                | CRet b => p ≫= λ a, CRet (a, b)
                | CPanic w => CPanic w
                | CAct upd k => CAct upd (λ s, par2_r (k s))
                | CAsk x k => CAsk x (λ r, par2_r (k r))
                | CSelect t x c k => CSelect t x (par2_r c) (λ r, par2_r (k r))
                | CLock l k => CLock l (par2_r k)
                | CSay o k => CSay o (par2_r k)
                end)
        end
    end.
(** All of them, each with its value. *)
Fixpoint par_all {A} (ps : list (call S Q O A)) : call S Q O (list A) :=
  match ps with
  | [] => CRet []
  | p :: ps => r ← par2 p (par_all ps); CRet (r.1 :: r.2)
  end.

(** [select!] between a future and a ticker: what is done at a tick is done
    between two steps of the future, as often as the world says. *)
Fixpoint timesC (n : nat) (p : call S Q O unit) : call S Q O unit :=
  match n with 0 => CRet tt | Datatypes.S n => _ ← p; timesC n p end.
Section ticking.
Context (ticks : Q nat) (beat : call S Q O unit).
Definition ticked {A} (p : call S Q O A) : call S Q O A := CAsk ticks (λ n, _ ← timesC n beat; p).
Fixpoint ticking {A} (p : call S Q O A) : call S Q O A :=
  match p with
  | CRet a => CRet a
  | CPanic w => CPanic w
  | CAct upd k => ticked (CAct upd (λ s, ticking (k s)))
  | CAsk x k => ticked (CAsk x (λ r, ticking (k r)))
  | CSelect t x c k => ticked (CSelect t x (ticking c) (λ r, ticking (k r)))
  | CLock l k => ticked (CLock l (ticking k))
  | CSay o k => ticked (CSay o (ticking k))
  end.
End ticking.

(** [select!] between a future and the cancellation of [tok]: the future is
    dropped where it waits, [room] being the wait before something is sent. *)
Fixpoint until {A} (room : Q unit) (tok : nat) (p : call S Q O A) : call S Q O (option A) :=
  match p with
  | CRet a => CRet (Some a)
  | CPanic w => CPanic w
  | CAct upd k => CAct upd (λ s, until room tok (k s))
  | CAsk x k => CSelect tok x (CRet None) (λ r, until room tok (k r))
  | CSelect t x c k => CSelect tok room (CRet None) (λ _, CSelect t x (until room tok c) (λ r, until room tok (k r)))
  | CLock l k => CSelect tok room (CRet None) (λ _, CLock l (until room tok k))
  | CSay o k => CSelect tok room (CRet None) (λ _, CSay o (until room tok k))
  end.
End par.

(** ** What a call asks and says *)

Section does.
Context {S : Type} {Q : Type → Type} {O : Type}.
Context (φ : ∀ X, Q X → Prop) (χ : O → Prop).
Implicit Types (A B : Type).

(** Every question satisfies [φ], all that is said [χ] and, if the call ends, its
    value [Ψ]. *)
Fixpoint does {A} (p : call S Q O A) (Ψ : A → Prop) : Prop :=
  match p with
  | CRet a => Ψ a
  | CPanic _ => True
  | CAct _ k => ∀ s, does (k s) Ψ
  | CAsk q k => φ _ q ∧ ∀ x, does (k x) Ψ
  | CSelect _ q c k => φ _ q ∧ does c Ψ ∧ ∀ x, does (k x) Ψ
  | CLock _ k => does k Ψ
  | CSay o k => χ o ∧ does k Ψ
  end.

Lemma does_then {A B} (p : call S Q O A) (f : A → call S Q O B) Ψ :
  does p (λ a, does (f a) Ψ) → does (p ≫= f) Ψ.
Proof.
  induction p as [a|w|upd k IH|X q k IH|X t q c IHc k IH|l k IH|o k IH]; intros Hp; cbn in *; naive_solver.
Qed.
Lemma does_weaken {A} (p : call S Q O A) (Φ Ψ : A → Prop) : does p Φ → (∀ a, Φ a → Ψ a) → does p Ψ.
Proof.
  intros Hp Hm. induction p as [a|w|upd k IH|X q k IH|X t q c IHc k IH|l k IH|o k IH]; cbn in *; naive_solver.
Qed.
Lemma does_ret {A} (a : A) (Ψ : A → Prop) : Ψ a → does (CRet a) Ψ.
Proof. done. Qed.
Lemma does_act {A} (upd : S → S) (k : S → call S Q O A) Ψ : (∀ s, does (k s) Ψ) → does (CAct upd k) Ψ.
Proof. done. Qed.
Lemma does_look {A} (f : S → A) (Ψ : A → Prop) : (∀ s, Ψ (f s)) → does (look f) Ψ.
Proof. done. Qed.
Lemma does_ask {X} (q : Q X) (Ψ : X → Prop) : φ X q → (∀ x, Ψ x) → does (ask q) Ψ.
Proof. done. Qed.
Lemma does_say o (Ψ : unit → Prop) : χ o → Ψ tt → does (say o) Ψ.
Proof. done. Qed.
Lemma does_eachC {B} (f : B → call S Q O unit) (l : list B) :
  (∀ b, b ∈ l → does (f b) (λ _, True)) → does (eachC f l) (λ _, True).
Proof.
  intros Hf. induction l as [|b l IH]; [done|]. cbn [eachC]. apply does_then.
  eapply does_weaken; [apply Hf; by left|]. intros _ _. apply IH. intros b' Hb. apply Hf. by right.
Qed.

(** Calls at once, and a call between whose steps something else is done or that
    is dropped. *)
Lemma does_par2 {A B} pick (p : call S Q O A) (q : call S Q O B) (Ψ1 : A → Prop) (Ψ2 : B → Prop) :
  φ _ pick → does p Ψ1 → does q Ψ2 → does (par2 pick p q) (λ r, Ψ1 r.1 ∧ Ψ2 r.2).
Proof.
  intros Hpick Hp. revert q.
  induction p as [a|w|upd k IHp|X x k IHp|X t x c IHc k IHp|l k IHp|o k IHp]; intros q Hq.
  { destruct q; apply does_then; eapply does_weaken; try exact Hq; intros b' Hb; by split. }
  all: induction q as [b|w'|upd' k' IHq|X' x' k' IHq|X' t' x' c' IHc' k' IHq|l' k' IHq|o' k' IHq].
  all: try (match goal with |- does (par2 _ ?P (CRet ?b)) _ => change (does (P ≫= λ a, CRet (a, b)) (λ r, Ψ1 r.1 ∧ Ψ2 r.2)) end;
            apply does_then; eapply does_weaken; [exact Hp|]; intros a Ha; by split).
  all: split; [done|]; intros [|]; cbn in *; naive_solver.
Qed.
Lemma does_par_all {A} pick (ps : list (call S Q O A)) (Ψ : nat → A → Prop) i :
  φ _ pick → (∀ k p, ps !! k = Some p → does p (Ψ (i + k))) →
  does (par_all pick ps) (λ l, Forall2 (λ k a, Ψ k a) (seq i (length ps)) l).
Proof.
  intros Hpick. revert i. induction ps as [|p ps IH]; intros i Hps; [by constructor|]. cbn [par_all]. apply does_then.
  eapply does_weaken; [apply (does_par2 pick p (par_all pick ps) (Ψ i)); [done| |]|].
  - rewrite <-(Nat.add_0_r i). by apply (Hps 0).
  - apply (IH (Datatypes.S i)). intros k q Hk. rewrite Nat.add_succ_comm. by apply (Hps (Datatypes.S k)).
  - intros [a l] [Ha Hl]. cbn in *. by constructor.
Qed.
Lemma does_timesC n (p : call S Q O unit) : does p (λ _, True) → does (timesC n p) (λ _, True).
Proof. intros Hp. induction n as [|n IH]; [done|]. cbn [timesC]. apply does_then. by eapply does_weaken. Qed.
Lemma does_ticking {A} ticks beat (p : call S Q O A) Ψ :
  φ _ ticks → does beat (λ _, True) → does p Ψ → does (ticking ticks beat p) Ψ.
Proof.
  intros Ht Hb.
  assert (∀ q : call S Q O A, does q Ψ → does (ticked ticks beat q) Ψ) as Hticked.
  { intros q Hq. split; [done|]. intros n. apply does_then. by eapply does_weaken; [apply does_timesC|]. }
  induction p as [a|w|upd k IH|X x k IH|X t x c IHc k IH|l k IH|o k IH]; intros Hp; cbn [ticking]; try done;
    apply Hticked; cbn in *; naive_solver.
Qed.
Lemma does_until {A} room tok (p : call S Q O A) Ψ :
  φ _ room → does p Ψ → does (until room tok p) (λ r, ∀ a, r = Some a → Ψ a).
Proof.
  intros Hr. induction p as [a|w|upd k IH|X x k IH|X t x c IHc k IH|l k IH|o k IH]; intros Hp; cbn in *;
    try (split_and!); naive_solver.
Qed.

Context {E : Type}.
(** What holds of the value of a call that returns one. *)
Definition on_ok {A} (Ψ : A → Prop) (r : outcome E A) : Prop := match r with Ok a => Ψ a | _ => True end.
Lemma does_bindR {A B} (p : call S Q O (outcome E A)) (f : A → call S Q O (outcome E B)) (Ψ : B → Prop) :
  does p (on_ok (λ a, does (f a) (on_ok Ψ))) → does (bindR p f) (on_ok Ψ).
Proof. intros Hp. apply does_then. eapply does_weaken; [apply Hp|]. by intros [a|e|w]. Qed.
Lemma does_liftC {A} (m : outcome E A) (Ψ : A → Prop) :
  (∀ a, m = Ok a → Ψ a) → does (liftC m) (on_ok Ψ).
Proof. destruct m; cbn; auto. Qed.
Lemma does_readC {A} (f : S → outcome E A) (Ψ : A → Prop) :
  (∀ s a, f s = Ok a → Ψ a) → does (readC f) (on_ok Ψ).
Proof. intros Hf. cbn. intros s. destruct (f s) eqn:Hs; cbn; eauto. Qed.
Lemma does_askC {A} (q : Q (outcome E A)) (Ψ : A → Prop) : φ _ q → (∀ a, Ψ a) → does (askC q) (on_ok Ψ).
Proof. intros Hq HΨ. split; [done|]. intros [a|e|w]; cbn; auto. Qed.
Lemma does_orC {A} (p : call S Q O (outcome E A)) f (Ψ : A → Prop) :
  does p (on_ok Ψ) → (∀ e, does (f e) (on_ok Ψ)) → does (orC p f) (on_ok Ψ).
Proof. intros Hp Hf. apply does_then. eapply does_weaken; [apply Hp|]. intros [a|e|w]; cbn; auto. Qed.
Lemma does_any {A} (p : call S Q O (outcome E A)) Ψ : does p Ψ → does p (on_ok (λ _, True)).
Proof. intros Hp. eapply does_weaken; [apply Hp|]. by intros [a|e|w]. Qed.
End does.

Lemma does_mono {S Q O A} (φ ψ : ∀ X, Q X → Prop) (χ χ' : O → Prop) (p : call S Q O A) Ψ :
  (∀ X q, φ X q → ψ X q) → (∀ o, χ o → χ' o) → does φ χ p Ψ → does ψ χ' p Ψ.
Proof.
  intros Hφ Hχ. induction p as [a|w|upd k IH|X q k IH|X t q c IHc k IH|l k IH|o k IH]; intros Hp; cbn in *; naive_solver.
Qed.
(** What is said aside. *)
Abbreviation asks φ := (does φ (λ _, True)).

(** ** A call alone *)

Section serve.
Context {S : Type} {Q : Type → Type} {O W : Type} (server : ∀ X, Q X → W → X * W).

(** Nothing is cancelled and every lock is free. *)
Fixpoint serve {A} (p : call S Q O A) (s : S) (w : W) : outcome unit A * S * W :=
  match p with
  | CRet a => (Ok a, s, w)
  | CPanic why => (Panic why, s, w)
  | CAct upd k => serve (k s) (upd s) w
  | CAsk q k => let '(x, w) := server _ q w in serve (k x) s w
  | CSelect _ q _ k => let '(x, w) := server _ q w in serve (k x) s w
  | CLock _ k => serve k s w
  | CSay _ k => serve k s w
  end.

Lemma serve_bind {A B} (p : call S Q O A) (f : A → call S Q O B) s w :
  serve (p ≫= f) s w =
  match serve p s w with
  | (Ok a, s, w) => serve (f a) s w
  | (Err e, s, w) => (Err e, s, w)
  | (Panic why, s, w) => (Panic why, s, w)
  end.
Proof.
  revert s w. induction p as [a|why|upd k IH|X q k IH|X t q c IHc k IH|l k IH|o k IH]; intros s w; cbn; auto.
  - destruct (server X q w) as [x w']. apply IH.
  - destruct (server X q w) as [x w']. apply IH.
Qed.
Lemma serve_bindR {E A B} (p : call S Q O (outcome E A)) (f : A → call S Q O (outcome E B)) s w :
  serve (bindR p f) s w =
  match serve p s w with
  | (Ok (Ok a), s, w) => serve (f a) s w
  | (Ok (Err e), s, w) => (Ok (Err e), s, w)
  | (Ok (Panic why), s, w) => (Panic why, s, w)
  | (Err e, s, w) => (Err e, s, w)
  | (Panic why, s, w) => (Panic why, s, w)
  end.
Proof. unfold bindR. rewrite serve_bind. by destruct (serve p s w) as [[[[]| |] ?] ?]. Qed.
(** A call alone does what it proves of itself among others. *)
Lemma serve_wp {A V} (at_ : S → V → Prop) may (p : call S Q O A) s w v (Φ : A → V → Prop) a s' w' :
  wp at_ may (λ _ _, False) (λ _ _ _, False) p v Φ → at_ s v → serve p s w = (Ok a, s', w') → ∃ v', at_ s' v' ∧ Φ a v'.
Proof.
  revert s w v. induction p as [b|why|upd k IH|X q k IH|X t q c IHc k IH|l k IH|o k IH]; intros s w v Hp Hat; cbn in *.
  - intros [= <- <- <-]. eauto.
  - done.
  - destruct (Hp s Hat) as (v' & Hat' & _ & Hk). by apply (IH s (upd s) w v').
  - destruct (server X q w) as [x w1]. by eapply IH.
  - destruct (server X q w) as [x w1]. destruct Hp. by eapply IH.
  - by destruct Hp.
  - by eapply IH.
Qed.
End serve.
Lemma served {S W A} (p : A * S * W) a : p.1.1 = a → p = (a, p.1.2, p.2).
Proof. by destruct p as [[? ?] ?]; simpl; intros ->. Qed.

(** ** Calls together

    Some calls run at once, on one state, which the rest of the program changes
    too: between any two nodes of a call the others may act.  Every question
    may have any answer.  Of each call it is kept in which state it started. *)

Section together.
Context {S : Type} {Q : Type → Type} {O A : Type}.
Context (env : S → S → Prop) (starts : call S Q O A → Prop).
Definition pool : Type := list (S * call S Q O A) * S.

Inductive together_step : pool → pool → Prop :=
| step_start ts s p : starts p → together_step (ts, s) (ts ++ [(s, p)], s)
| step_act ts s i s0 upd k : ts !! i = Some (s0, CAct upd k) → together_step (ts, s) (<[i := (s0, k s)]> ts, upd s)
| step_ask ts s i s0 X (q : Q X) k x : ts !! i = Some (s0, CAsk q k) → together_step (ts, s) (<[i := (s0, k x)]> ts, s)
| step_cancelled ts s i s0 X t (q : Q X) c k : ts !! i = Some (s0, CSelect t q c k) → together_step (ts, s) (<[i := (s0, c)]> ts, s)
| step_answered ts s i s0 X t (q : Q X) c k x :
    ts !! i = Some (s0, CSelect t q c k) → together_step (ts, s) (<[i := (s0, k x)]> ts, s)
| step_say ts s i s0 o k : ts !! i = Some (s0, CSay o k) → together_step (ts, s) (<[i := (s0, k)]> ts, s)
| step_env ts s s' : env s s' → together_step (ts, s) (ts, s').
Inductive together (s : S) : pool → Prop :=
| together_nil : together s ([], s)
| together_next w w' : together s w → together_step w w' → together s w'.

(** What each call proves of itself holds of all of them together, when what
    one of them does keeps what the others know; none of them waits for a lock. *)
Context {V : Type} (I : S → Prop) (at_ : S → V → Prop) (may : S → V → S → V → Prop) (start : S → V) (Φ : S → A → V → Prop).
Abbreviation proves p v := (wp at_ may (λ _ _, False) (λ _ _ _, False) p v).
Context (Hmay : ∀ s v s' v' w, may s v s' v' → at_ s w → at_ s' w) (HmayI : ∀ s v s' v', may s v s' v' → I s → I s').
Context (Henv : ∀ s s' w, env s s' → at_ s w → at_ s' w) (HenvI : ∀ s s', env s s' → I s → I s').
Context (Hstart : ∀ s, I s → at_ s (start s)) (Hall : ∀ p s, starts p → I s → proves p (start s) (Φ s)).

Definition going (w : pool) (vs : list V) : Prop := Forall2 (λ p v, at_ w.2 v ∧ proves p.2 v (Φ p.1)) w.1 vs.

Lemma going_insert ts s vs i s0 p s' v v' :
  going (ts, s) vs → vs !! i = Some v → (∀ w, at_ s w → at_ s' w) → at_ s' v' → proves p v' (Φ s0) →
  going (<[i := (s0, p)]> ts, s') (<[i := v']> vs).
Proof using.
  intros Hg Hv Hs Hat Hp. apply Forall2_insert; [|done]. eapply Forall2_impl; [exact Hg|]. intros q w [Hw Hq]. split; [by apply Hs|done].
Qed.
Lemma going_step w w' vs : I w.2 → together_step w w' → going w vs → I w'.2 ∧ ∃ vs', going w' vs'.
Proof using Hmay HmayI Henv HenvI Hstart Hall.
  intros HI Hstep Hg.
  destruct Hstep as [ts s p Hp|ts s i s0 upd k Hi|ts s i s0 X q k x Hi|ts s i s0 X t q c k Hi|ts s i s0 X t q c k x Hi|ts s i s0 o k Hi|ts s s' He].
  1: { split; [done|]. exists (vs ++ [start s]). apply Forall2_app; [done|]. constructor; [|done]. split; [by apply Hstart|by apply Hall]. }
  6: { split; [by eapply HenvI|]. exists vs. eapply Forall2_impl; [exact Hg|]. intros q v [Hw Hq]. split; [by eapply Henv|done]. }
  all: destruct (Forall2_lookup_l _ _ _ _ _ Hg Hi) as (v & Hv & Hat & Hp); cbn in Hp, Hat.
  1: { destruct (Hp s Hat) as (v' & Hat' & Hm & Hk). split; [by eapply HmayI|]. eexists. eapply going_insert; [done..| |done|done]. eauto. }
  all: split; [done|]; eexists; (eapply going_insert; [done..| |done|]); auto; by destruct Hp.
Qed.
Lemma together_going s w : I s → together s w → I w.2 ∧ ∃ vs, going w vs.
Proof using Hmay HmayI Henv HenvI Hstart Hall.
  intros HI. induction 1 as [|w w' _ [HI' [vs Hg]] Hstep]; [|by eapply going_step].
  split; [done|]. exists []. constructor.
Qed.
(** When a call has ended, its value is as it proved. *)
Lemma together_sound s w : I s → together s w →
  I w.2 ∧ ∀ i s0 a, w.1 !! i = Some (s0, CRet a) → ∃ v, at_ w.2 v ∧ Φ s0 a v.
Proof using Hmay HmayI Henv HenvI Hstart Hall.
  intros HI Hw. destruct (together_going s w HI Hw) as [HI' [vs Hg]]. split; [done|].
  intros i s0 a Hi. destruct (Forall2_lookup_l _ _ _ _ _ Hg Hi) as (v & Hv & Hat & Hp). eauto.
Qed.
End together.
