(* ===== verification/ChatStream.v ===== *)
(** * What a model says (ixshare/src/gateway/session.rs)

    The stream of a model's answer is read in chunks and cut into lines; a line
    that carries JSON moves the state of the reader and may send something on to
    the client.  Tags around what the model thinks are taken out of what is
    stored. *)

From S2P Require Import Prelude.
From S2P Require Import Text.
From S2P Require Import Calls.

(** What is used of serde_json's [Value] ([from_str(..).ok()], [get],
    [as_array], [as_str], [as_u64], [as_object().is_some()],
    [from_value::<ToolCall>(..).ok()]) and of axum's [Event::data], which panics
    on texts it cannot put on the wire. *)
Record FunctionCall := MkFunctionCall { fc_name : string; fc_arguments : string }.
(** ixshare/src/gateway/session.rs:463-467 [ToolCall] *)
Record ToolCall := MkToolCall { tc_id : string; tc_type : string; tc_function : FunctionCall }.
#[global] Instance FunctionCall_eq_dec : EqDecision FunctionCall.
Proof. solve_decision. Defined.
#[global] Instance ToolCall_eq_dec : EqDecision ToolCall.
Proof. solve_decision. Defined.
Class ChatCrates (J : Type) := {
  from_str : string → option J;
  jget : string → J → option J;
  jarray : J → option (list J);
  jstr : J → option string;
  ju64 : J → option Z;
  jobject : J → bool;
  tool_call_of : J → option ToolCall;
  sse_accepts : string → bool;
}.

(** ** Tags *)

Fixpoint strip_l (pat l : list ascii) : option (list ascii) :=
  match pat, l with
  | [], l => Some l
  | a :: pat, b :: l => if ascii_dec a b then strip_l pat l else None
  | _ :: _, [] => None
  end.
(** [str::find]: what is before and what is after the first occurrence. *)
Fixpoint find_sub (pat l : list ascii) : option (list ascii * list ascii) :=
  match strip_l pat l with
  | Some post => Some ([], post)
  | None => match l with
            | [] => None
            | c :: l => '(pre, post) ← find_sub pat l; Some (c :: pre, post)
            end
  end.
Definition think_open : list ascii := chars "<think>".
Definition think_close : list ascii := chars "</think>".
(** The loop of [strip_think_tags]; every turn of it takes at least a tag off
    [rest], so its length is fuel enough. *)
Fixpoint strip_tags (fuel : nat) (rest : list ascii) : list ascii :=
  match find_sub think_open rest with
  | None => rest
  | Some (pre, post) =>
      match fuel, find_sub think_close (think_open ++ post) with
      | S fuel, Some (_, rest) => pre ++ strip_tags fuel rest
      | _, _ => pre
      end
  end.
(** ixshare/src/gateway/session.rs:590-610 [strip_think_tags] *)
Definition strip_think_tags (s : string) : string := trim (of_chars (strip_tags (len s) (chars s))).

(** ** Chunks *)

Definition byte_in (lo hi : nat) (c : ascii) : bool := bool_decide (lo ≤ nat_of_ascii c ≤ hi).
Definition replacement : list ascii := ascii_of_nat <$> [239; 191; 189].
(** How many bytes follow a leading byte, and the range of the first of them. *)
Definition utf8_lead (c : ascii) : option (nat * nat * nat) :=
  let n := nat_of_ascii c in
  if decide (194 ≤ n ≤ 223) then Some (1, 128, 191)
  else if decide (n = 224) then Some (2, 160, 191)
  else if decide (n = 237) then Some (2, 128, 159)
  else if decide (225 ≤ n ≤ 239) then Some (2, 128, 191)
  else if decide (n = 240) then Some (3, 144, 191)
  else if decide (n = 244) then Some (3, 128, 143)
  else if decide (241 ≤ n ≤ 243) then Some (3, 128, 191)
  else None.
(** [String::from_utf8_lossy]: a sequence that is cut off or not well-formed is
    replaced, up to where it stops being one. *)
Fixpoint utf8_lossy (l : list ascii) : list ascii :=
  match l with
  | [] => []
  | c :: l =>
      if byte_in 0 127 c then c :: utf8_lossy l
      else
        match utf8_lead c with
        | None => replacement ++ utf8_lossy l
        | Some (n, lo, hi) =>
            match l with
            | c1 :: l1 =>
                if negb (byte_in lo hi c1) then replacement ++ utf8_lossy l
                else if decide (n = 1) then c :: c1 :: utf8_lossy l1
                else
                  match l1 with
                  | c2 :: l2 =>
                      if negb (byte_in 128 191 c2) then replacement ++ utf8_lossy l1
                      else if decide (n = 2) then c :: c1 :: c2 :: utf8_lossy l2
                      else
                        match l2 with
                        | c3 :: l3 =>
                            if negb (byte_in 128 191 c3) then replacement ++ utf8_lossy l2
                            else c :: c1 :: c2 :: c3 :: utf8_lossy l3
                        | [] => replacement
                        end
                  | [] => replacement
                  end
            | [] => replacement
            end
        end
  end.
Definition from_utf8_lossy (s : string) : list ascii := utf8_lossy (chars s).

Definition newline : ascii := ascii_of_nat 10.
Definition carriage_return : ascii := ascii_of_nat 13.
(** The first line of a buffer, without its newline, and the rest. *)
Fixpoint next_line (buf : list ascii) : option (list ascii * list ascii) :=
  match buf with
  | [] => None
  | c :: buf => if ascii_dec c newline then Some ([], buf)
                else '(line, rest) ← next_line buf; Some (c :: line, rest)
  end.
(** [if line.ends_with(c) { line.pop(); }] *)
Definition pop_last (c : ascii) (line : list ascii) : list ascii :=
  match reverse line with
  | c' :: l => if ascii_dec c' c then reverse l else line
  | [] => line
  end.
Definition chomp (line : list ascii) : string := of_chars (pop_last carriage_return line).

(** What is said to the client of a stream.  The JSON of an event's data is
    kept as its fields. *)
Inductive SseEvent :=
| SData (text : string)
| SDone
| SInterrupted
| SError (error message : string)
| SToolCall (index : nat) (name args : string)
| SToolDone (index : nat) (name response : string)
| SCompacting
| SCompacted
| SComplete (message_id : string).
#[global] Instance SseEvent_eq_dec : EqDecision SseEvent.
Proof. solve_decision. Defined.

(** What comes out of the stream of a response, one item for each round of the
    loop that reads it: a chunk, an error, or that the turn is cancelled. *)
Inductive StreamItem := Chunk (bytes : string) | StreamErr (e : string) | StreamCancelled.

Section stream.
Context {J : Type} {crates : ChatCrates J} {S : Type} {Q : Type → Type}.
Abbreviation C := (call S Q SseEvent).

Definition send_delta (delta : string) : C unit :=
  if sse_accepts delta then say (SData delta) else CPanic "SSE field value cannot contain newlines or carriage returns".

Section pump.
Context {St : Type} (on_line : St → string → C (St * bool)).
(** [while let Some(pos) = buf.find('\n') { .. }]; [on_line] answers whether the
    loop goes on.  Each turn takes a character at least off the buffer. *)
(** ixshare/src/gateway/session.rs:700-723 [consume_content_stream] *)
Fixpoint pump_lines (fuel : nat) (buf : list ascii) (st : St) : C (list ascii * St) :=
  match fuel, next_line buf with
  | Datatypes.S fuel, Some (line, rest) =>
      r ← on_line st (chomp line);
      if (r.2 : bool) then pump_lines fuel rest r.1 else mret (rest, r.1)
  | _, _ => mret (buf, st)
  end.
(** The loop over the items of the stream. *)
(** ixshare/src/gateway/session.rs:687-732 [consume_content_stream]; the same loop as of the first answer *)
Fixpoint pump (items : list StreamItem) (buf : list ascii) (st : St) : C (list ascii * St * option (option string)) :=
  match items with
  | [] => mret (buf, st, None)
  | Chunk bytes :: items =>
      let buf := buf ++ from_utf8_lossy bytes in
      r ← pump_lines (length buf) buf st;
      pump items r.1 r.2
  | StreamErr e :: _ => mret (buf, st, Some (Some e))
  | StreamCancelled :: _ => mret (buf, st, Some None)
  end.
End pump.

(** *** Answers without tool calls *)

(** ixshare/src/gateway/session.rs:614-617 [ContentStreamState] *)
Record ContentStreamState := MkContent { st_content : string; st_prompt_tokens : Z }.
(** ixshare/src/gateway/session.rs:620-627 [ContentStreamOutcome] *)
Inductive ContentStreamOutcome :=
| Completed (state : ContentStreamState)
| Interrupted (state : ContentStreamState)
| StreamError (state : ContentStreamState) (error : string).
(** ixshare/src/gateway/session.rs:629-634 [ParsedContentStreamLine] *)
Inductive ParsedContentStreamLine :=
| Ignore
| LineDone
| Usage (prompt_tokens : Z)
| ContentDelta (delta : string).

(** ixshare/src/gateway/session.rs:636-640 [extract_prompt_tokens] *)
Definition extract_prompt_tokens (json : J) : option Z :=
  usage ← jget "usage" json; v ← jget "prompt_tokens" usage; ju64 v.
Definition first_choice (json : J) : option J := c ← jget "choices" json; a ← jarray c; head a.
Definition delta_content (choice : J) : option string := d ← jget "delta" choice; c ← jget "content" d; jstr c.
(** ixshare/src/gateway/session.rs:642-649 [extract_content_delta] *)
Definition extract_content_delta (json : J) : option string := first_choice json ≫= delta_content.
(** ixshare/src/gateway/session.rs:651-668 [parse_content_stream_line] *)
Definition parse_content_stream_line (line : string) : ParsedContentStreamLine :=
  match strip_prefix "data: " line with
  | None => Ignore
  | Some data =>
      if decide (data = "[DONE]") then LineDone
      else
        match from_str data with
        | None => Ignore
        | Some json =>
            match extract_prompt_tokens json with
            | Some prompt_tokens => Usage prompt_tokens
            | None => match extract_content_delta json with Some delta => ContentDelta delta | None => Ignore end
            end
        end
  end.
Definition note_usage (p : Z) (old : Z) : Z := if decide (0 < p)%Z then p else old.
(** ixshare/src/gateway/session.rs:708-722 [consume_content_stream] *)
Definition content_line (st : ContentStreamState) (line : string) : C (ContentStreamState * bool) :=
  match parse_content_stream_line line with
  | Ignore => mret (st, true)
  | LineDone => mret (st, false)
  | Usage p => mret (MkContent (st_content st) (note_usage p (st_prompt_tokens st)), true)
  | ContentDelta delta =>
      _ ← send_delta delta;
      mret (MkContent (st_content st +:+ delta) (st_prompt_tokens st), true)
  end.
(** ixshare/src/gateway/session.rs:675-759 [consume_content_stream] *)
Definition consume_content_stream (items : list StreamItem) : C ContentStreamOutcome :=
  r ← pump content_line items [] (MkContent "" 0);
  let '(buf, st, stopped) := r in
  match stopped with
  | Some None => mret (Interrupted st)
  | Some (Some e) => mret (StreamError st e)
  | None =>
      if decide (buf = []) then mret (Completed st)
      else
        r ← content_line st (chomp (pop_last newline buf));
        mret (Completed r.1)
  end.

(** *** The first answer of a turn *)

Record FirstState := MkFirst {
  fs_content : string; fs_tool_calls : list ToolCall; fs_prompt_tokens : Z; fs_finish_reason : option string;
}.
Definition no_tool_call : ToolCall := MkToolCall "" "function" (MkFunctionCall "" "").
Definition jtext (key : string) (o : J) : option string := v ← jget key o; jstr v.
Definition fill_id (id type_ : string) (slot : ToolCall) : ToolCall :=
  if decide (id ≠ "" ∧ tc_id slot = "") then MkToolCall id type_ (tc_function slot) else slot.
Definition fill_function (function : J) (slot : ToolCall) : ToolCall :=
  let f := tc_function slot in
  let name := match jtext "name" function with
              | Some n => if decide (fc_name f = "") then n else fc_name f
              | None => fc_name f
              end in
  MkToolCall (tc_id slot) (tc_type slot) (MkFunctionCall name (fc_arguments f +:+ default "" (jtext "arguments" function))).
(** ixshare/src/gateway/session.rs:2230-2290 [HandlePromptStream]; one piece of a tool call *)
Definition tool_delta (tool_calls : list ToolCall) (tc : J) : outcome unit (list ToolCall) :=
  if jobject tc then
    let idx := cast usize (default 0%Z (v ← jget "index" tc; ju64 v)) in
    let id := default "" (jtext "id" tc) in
    let type_ := default "function" (jtext "type" tc) in
    tool_calls ← (if decide (Z.of_nat (length tool_calls) ≤ idx)%Z
                  then n ← chk usize (idx + 1); Ok (tool_calls ++ replicate (Z.to_nat n - length tool_calls) no_tool_call)
                  else Ok tool_calls);
    let tool_calls := alter (fill_id id type_) (Z.to_nat idx) tool_calls in
    match jget "function" tc with
    | Some function =>
        if jobject function then Ok (alter (fill_function function) (Z.to_nat idx) tool_calls) else Ok tool_calls
    | None => Ok tool_calls
    end
  else Ok tool_calls.
Definition first_delta (st : FirstState) (choice : J) : C FirstState :=
  match delta_content choice with
  | Some delta => _ ← send_delta delta;
                  mret (MkFirst (fs_content st +:+ delta) (fs_tool_calls st) (fs_prompt_tokens st) (fs_finish_reason st))
  | None => mret st
  end.
Definition usage_tokens (usage : J) : Z := default 0%Z (v ← jget "prompt_tokens" usage; ju64 v).
Definition first_usage (st : FirstState) (usage : J) : FirstState :=
  MkFirst (fs_content st) (fs_tool_calls st) (note_usage (usage_tokens usage) (fs_prompt_tokens st)) (fs_finish_reason st).
(** ixshare/src/gateway/session.rs:2181-2304 [HandlePromptStream]; one line of the first answer *)
Definition first_line (st : FirstState) (line : string) : C (FirstState * bool) :=
  match strip_prefix "data: " line with
  | None => mret (st, true)
  | Some data =>
      if decide (data = "[DONE]") then mret (st, false)
      else
        match from_str data with
        | None => mret (st, true)
        | Some json =>
            match jget "usage" json with
            | Some usage => mret (first_usage st usage, true)
            | None =>
                match first_choice json with
                | None => mret (st, true)
                | Some choice =>
                    st ← first_delta st choice;
                    calls ← try_ (foldlM tool_delta (fs_tool_calls st)
                                    (default [] (d ← jget "delta" choice; t ← jget "tool_calls" d; jarray t)));
                    let fr := match jtext "finish_reason" choice with Some fr => Some fr | None => fs_finish_reason st end in
                    mret (MkFirst (fs_content st) calls (fs_prompt_tokens st) fr, true)
                end
            end
        end
  end.
(** ixshare/src/gateway/session.rs:2328-2357 [HandlePromptStream]; a last line without its newline *)
Definition first_trailing (st : FirstState) (line : string) : C FirstState :=
  match strip_prefix "data: " line with
  | None => mret st
  | Some data =>
      if decide (data = "[DONE]") then mret st
      else
        match from_str data with
        | None => mret st
        | Some json =>
            match jget "usage" json with
            | Some usage => mret (first_usage st usage)
            | None => match first_choice json with Some choice => first_delta st choice | None => mret st end
            end
        end
  end.
(** ixshare/src/gateway/session.rs:2146-2180 [HandlePromptStream]; the first answer: its state, and how it stopped *)
Definition first_stream (items : list StreamItem) : C (FirstState * option (option string)) :=
  r ← pump first_line items [] (MkFirst "" [] 0 None);
  let '(buf, st, stopped) := r in
  if decide (buf = []) then mret (st, stopped)
  else
    st ← first_trailing st (chomp (pop_last newline buf));
    mret (st, stopped).
End stream.
