(* ===== verification/ChatStreamProps.v ===== *)
(** * Reading a stream by chunks is reading its lines *)

From S2P Require Import Prelude.
From S2P Require Import Text.
From S2P Require Import Calls.
From S2P Require Import ChatStream.

(** ** Lines *)

Lemma next_line_None buf : next_line buf = None → newline ∉ buf.
Proof.
  induction buf as [|c buf IH]; cbn; [intros _; apply not_elem_of_nil|]. destruct (ascii_dec c newline) as [->|Hne]; [done|].
  destruct (next_line buf) as [[line rest]|]; [done|]. intros _. apply not_elem_of_cons. auto.
Qed.
Lemma next_line_Some buf line rest : next_line buf = Some (line, rest) → buf = line ++ newline :: rest ∧ newline ∉ line.
Proof.
  revert line. induction buf as [|c buf IH]; intros line; cbn; [done|]. destruct (ascii_dec c newline) as [->|Hne].
  - intros [= <- <-]. split; [done|apply not_elem_of_nil].
  - destruct (next_line buf) as [[line' rest']|]; [|done]. intros [= <- <-]. destruct (IH line') as [-> ?]; [done|].
    split; [done|]. apply not_elem_of_cons. auto.
Qed.
Lemma pop_last_prefix c line : pop_last c line `prefix_of` line.
Proof.
  unfold pop_last. destruct (reverse line) as [|c' l] eqn:E; [done|]. destruct (ascii_dec c' c); [|done].
  exists [c']. apply (f_equal reverse) in E. by rewrite reverse_involutive, reverse_cons in E.
Qed.
(** The lines of a text: all but the last are ended by a newline. *)
Definition pieces (text : list ascii) : list (list ascii) := split_go newline [] text.
Lemma pieces_line line rest : newline ∉ line → pieces (line ++ newline :: rest) = line :: pieces rest.
Proof. intros H. unfold pieces. by rewrite split_go_app. Qed.
Lemma pieces_one line : newline ∉ line → pieces line = [line].
Proof. intros H. unfold pieces. by rewrite split_go_nosep. Qed.

(** A line without data. *)
Definition quiet_line (line : list ascii) : Prop := ¬ chars "data: " `prefix_of` line.
Lemma prefix_before (d l r : list ascii) c : c ∉ d → d `prefix_of` l ++ c :: r → d `prefix_of` l.
Proof.
  revert l. induction d as [|a d IH]; intros l Hd Hp; [apply prefix_nil|]. apply not_elem_of_cons in Hd as [Hne Hd].
  destruct l as [|b l]; cbn in Hp.
  - by apply prefix_cons_inv_1 in Hp as ->.
  - pose proof (prefix_cons_inv_1 _ _ _ _ Hp) as ->. apply prefix_cons, IH; [done|]. by apply prefix_cons_inv_2 in Hp.
Qed.

Lemma data_no_newline : newline ∉ chars "data: ".
Proof. apply (bool_decide_unpack _). by vm_compute. Qed.

Lemma pop_last_none c line : c ∉ line → pop_last c line = line.
Proof.
  intros Hc. unfold pop_last. destruct (reverse line) as [|c' l] eqn:E; [done|]. destruct (ascii_dec c' c) as [->|]; [|done].
  destruct Hc. apply elem_of_reverse. rewrite E. by left.
Qed.

Section stream.
Context {J : Type} {crates : ChatCrates J} {S : Type} {Q : Type → Type}.
Abbreviation C := (call S Q SseEvent).

(** *** Reading only says things *)

Lemma content_line_talk st line : talk (content_line (S:=S) (Q:=Q) st line).
Proof.
  unfold content_line. destruct (parse_content_stream_line line); try done.
  apply talk_bind; [|done]. unfold send_delta. by destruct (sse_accepts _).
Qed.
Lemma pump_lines_talk {St} (on_line : St → string → C (St * bool)) :
  (∀ st line, talk (on_line st line)) → ∀ fuel buf st, talk (pump_lines on_line fuel buf st).
Proof.
  intros Hon fuel. induction fuel as [|fuel IH]; intros buf st; [done|]. cbn. destruct (next_line buf) as [[line rest]|]; [|done].
  apply talk_bind; [done|]. intros [st' []]; [apply IH|done].
Qed.
Lemma pump_talk {St} (on_line : St → string → C (St * bool)) :
  (∀ st line, talk (on_line st line)) → ∀ items buf st, talk (pump on_line items buf st).
Proof.
  intros Hon items. induction items as [|[bytes|e|] items IH]; intros buf st; try done. cbn.
  apply talk_bind; [by apply pump_lines_talk|]. intros r. apply IH.
Qed.
Lemma content_stream_talk items : talk (consume_content_stream (S:=S) (Q:=Q) items).
Proof.
  apply talk_bind; [apply pump_talk, content_line_talk|]. intros [[buf st] [[e|]|]]; try done.
  case_decide; [done|]. apply talk_bind; [apply content_line_talk|done].
Qed.
Lemma first_delta_talk st choice : talk (first_delta (S:=S) (Q:=Q) st choice).
Proof.
  unfold first_delta. destruct (delta_content choice); [|done]. apply talk_bind; [|done]. unfold send_delta. by destruct (sse_accepts _).
Qed.
Lemma first_line_talk st line : talk (first_line (S:=S) (Q:=Q) st line).
Proof.
  unfold first_line. destruct (strip_prefix _ _) as [data|]; [|done]. case_decide; [done|].
  destruct (from_str data) as [json|]; [|done]. destruct (jget "usage" json); [done|].
  destruct (first_choice json) as [choice|]; [|done]. apply talk_bind; [apply first_delta_talk|]. intros st'.
  apply talk_bind; [|done]. by destruct (foldlM _ _ _).
Qed.
Lemma first_stream_talk items : talk (first_stream (S:=S) (Q:=Q) items).
Proof.
  apply talk_bind; [apply pump_talk, first_line_talk|]. intros [[buf st] stopped]. case_decide; [done|].
  apply talk_bind; [|done]. unfold first_trailing. destruct (strip_prefix _ _) as [data|]; [|done]. case_decide; [done|].
  destruct (from_str data) as [json|]; [|done]. destruct (jget "usage" json); [done|].
  destruct (first_choice json) as [choice|]; [|done]. apply first_delta_talk.
Qed.

(** *** The lines of a text *)

(** What a text means: its lines one after the other, until one says it is
    done. *)
Fixpoint follow (st : ContentStreamState) (lines : list (list ascii)) : C ContentStreamState :=
  match lines with
  | [] => mret st
  | [line] => if decide (line = []) then mret st else r ← content_line st (chomp line); mret r.1
  | line :: lines => r ← content_line st (chomp line); if (r.2 : bool) then follow r.1 lines else mret r.1
  end.
(** Nothing but blank lines, comments and the like after the line that says so. *)
Fixpoint tidy (lines : list (list ascii)) : Prop :=
  match lines with
  | [] => True
  | line :: lines => (parse_content_stream_line (chomp line) = LineDone → Forall quiet_line lines) ∧ tidy lines
  end.

Lemma quiet_ignored line x : quiet_line line → chars x `prefix_of` line → parse_content_stream_line x = Ignore.
Proof.
  intros Hq Hx. unfold parse_content_stream_line. destruct (strip_prefix "data: " x) as [data|] eqn:E; [|done].
  destruct Hq. etrans; [|exact Hx]. apply strip_prefix_spec in E as ->. rewrite chars_app. by eexists.
Qed.
Lemma chomp_prefix line : chars (chomp line) `prefix_of` line.
Proof. unfold chomp. rewrite chars_of_chars. apply pop_last_prefix. Qed.
Lemma content_line_quiet st line x : quiet_line line → chars x `prefix_of` line → content_line (S:=S) (Q:=Q) st x = mret (st, true).
Proof. intros Hq Hx. unfold content_line. by rewrite (quiet_ignored line). Qed.
(** The two ways of going on after a line. *)
Lemma content_line_cases {A} st line (f g : ContentStreamState * bool → C A) :
  (∀ st', f (st', true) = g (st', true)) →
  (parse_content_stream_line line = LineDone → f (st, false) = g (st, false)) →
  content_line st line ≫= f = content_line st line ≫= g.
Proof.
  intros Ht Hd. unfold content_line. destruct (parse_content_stream_line line) as [| |p|delta]; cbn; auto.
  unfold send_delta. destruct (sse_accepts delta); cbn; [|done]. f_equal. apply Ht.
Qed.

(** The loop from a state of the buffer on. *)
Definition resume (items : list StreamItem) (buf : list ascii) (st : ContentStreamState) : C ContentStreamOutcome :=
  r ← pump content_line items buf st;
  let '(buf, st, stopped) := r in
  match stopped with
  | Some None => mret (Interrupted st)
  | Some (Some e) => mret (StreamError st e)
  | None =>
      if decide (buf = []) then mret (Completed st)
      else r ← content_line st (chomp (pop_last newline buf)); mret (Completed r.1)
  end.
Definition text_of (chunks : list string) : list ascii := concat (chars <$> chunks).
Abbreviation whole := (λ c, from_utf8_lossy c = chars c).

Lemma resume_chunk c items buf st :
  resume (Chunk c :: items) buf st =
  (r ← pump_lines content_line (length (buf ++ from_utf8_lossy c)) (buf ++ from_utf8_lossy c) st; resume items r.1 r.2).
Proof. unfold resume at 1. cbn [pump]. rewrite talk_bind_assoc by apply pump_lines_talk, content_line_talk. done. Qed.

(** After the end: the rest is passed over. *)
Lemma resume_quiet chunks buf st :
  Forall whole chunks → Forall quiet_line (pieces (buf ++ text_of chunks)) →
  resume (Chunk <$> chunks) buf st = mret (Completed st).
Proof.
  intros Hw. revert buf st. induction Hw as [|c chunks Hc Hw IH]; intros buf st Hq.
  - unfold text_of in Hq. cbn in Hq. rewrite app_nil_r in Hq. unfold resume. cbn. case_decide as Hb; [done|].
    assert (∃ line, quiet_line line ∧ (chars "data: " `prefix_of` buf → chars "data: " `prefix_of` line)) as (line & Hl & Hbl).
    { destruct (next_line buf) as [[line rest]|] eqn:E.
      - apply next_line_Some in E as [-> Hn]. rewrite pieces_line in Hq by done. apply Forall_cons in Hq as [Hq _].
        exists line. split; [done|]. apply prefix_before, data_no_newline.
      - apply next_line_None in E. rewrite pieces_one in Hq by done. apply Forall_cons in Hq as [Hq _]. exists buf. auto. }
    rewrite (content_line_quiet _ buf); [done|by intros ?%Hbl|]. etrans; [apply chomp_prefix|apply pop_last_prefix].
  - cbn [fmap list_fmap]. rewrite resume_chunk, Hc. unfold text_of in Hq. cbn in Hq. fold (text_of chunks) in Hq.
    rewrite (assoc_L (++)) in Hq. revert Hq. generalize (buf ++ chars c) as b. intros b.
    generalize (length b) as fuel. clear buf c Hc. intros fuel. revert b. induction fuel as [|fuel IHf]; intros b Hq; [by apply IH|].
    cbn [pump_lines]. destruct (next_line b) as [[line rest]|] eqn:E; [|by apply IH].
    apply next_line_Some in E as [-> Hn]. rewrite <-(assoc_L (++)) in Hq. cbn in Hq. rewrite pieces_line in Hq by done.
    apply Forall_cons in Hq as [Hl Hq]. rewrite (content_line_quiet _ line) by (apply Hl || apply chomp_prefix).
    exact (IHf rest Hq).
Qed.
Lemma pieces_cons text : ∃ line lines, pieces text = line :: lines.
Proof. destruct (pieces text) as [|line lines] eqn:E; [by apply split_go_nonempty in E|by exists line, lines]. Qed.
Lemma follow_cons st line text :
  follow st (line :: pieces text) = (r ← content_line st (chomp line); if (r.2 : bool) then follow r.1 (pieces text) else mret r.1).
Proof. by destruct (pieces_cons text) as (l & ls & ->). Qed.
Abbreviation done_with := (λ st, mret (Completed st) : C ContentStreamOutcome).

Lemma resume_follows chunks buf st :
  Forall whole chunks → newline ∉ buf → tidy (pieces (buf ++ text_of chunks)) →
  resume (Chunk <$> chunks) buf st = (follow st (pieces (buf ++ text_of chunks)) ≫= done_with).
Proof.
  intros Hw. revert buf st. induction Hw as [|c chunks Hc Hw IH]; intros buf st Hb Ht.
  - unfold text_of in *. cbn in *. rewrite app_nil_r, pieces_one by done. unfold resume. cbn.
    case_decide; [done|]. rewrite pop_last_none by done. by rewrite talk_bind_assoc by apply content_line_talk.
  - cbn [fmap list_fmap]. rewrite resume_chunk, Hc. unfold text_of in *. cbn in *. fold (text_of chunks) in *.
    rewrite (assoc_L (++)) in *. revert Ht. generalize (buf ++ chars c) as b. intros b.
    assert (length b ≤ length b) as Hlen by done. revert Hlen. generalize (length b) at 2 3 as fuel. clear buf Hb c Hc.
    intros fuel. revert b st. induction fuel as [|fuel IHf]; intros b st Hlen Ht.
    { destruct b; [|cbn in Hlen; lia]. apply IH; [apply not_elem_of_nil|done]. }
    cbn [pump_lines]. destruct (next_line b) as [[line rest]|] eqn:E; [|apply IH; [by apply next_line_None|done]].
    apply next_line_Some in E as [-> Hn]. rewrite <-(assoc_L (++)) in *. cbn in *. rewrite pieces_line in * by done.
    cbn in Ht. destruct Ht as [Hd Ht]. rewrite follow_cons, !talk_bind_assoc by apply content_line_talk.
    apply content_line_cases; [|intros Hdone; cbn].
    + intros st'. cbn. apply IHf; [|done]. rewrite length_app in Hlen. cbn in Hlen. lia.
    + apply resume_quiet; [done|]. by apply Hd.
Qed.

(** Reading a streamed answer does not depend on how its text is cut into
    chunks: when no character is cut in two and nothing with data comes after the
    line that says it is done, the reader sends on and keeps what the lines of the
    whole text say, one after the other up to that line, the last one also without
    its newline. *)
Theorem stream_is_read_by_lines (chunks : list string) :
  Forall whole chunks → tidy (pieces (text_of chunks)) →
  consume_content_stream (Chunk <$> chunks) = (follow (MkContent "" 0) (pieces (text_of chunks)) ≫= done_with).
Proof. intros Hw Ht. apply (resume_follows chunks [] _ Hw); [apply not_elem_of_nil|done]. Qed.
End stream.
