(* ===== verification/Session.v ===== *)
(** * Sessions (ixshare/src/gateway/session.rs)

    A session is a conversation of a tenant with a model: the transcript its
    client sees, and the messages the model is sent, which are shortened by
    compaction.  [SessionStore] keeps the sessions, a lock for each session that
    was prompted, and the token that cancels its current stream.  What a handler
    does under one lock is an action; it is a [call] of them. *)

From S2P Require Import Prelude.
From S2P Require Import Text.
From S2P Require Import BTree.
From S2P Require Import Calls.
From S2P Require Import ChatStream.

(** Times are in nanoseconds. *)
Definition SessionTimeoutMinutes : Z := 10.
Definition num_minutes (duration : Z) : Z := Z.quot duration (60 * 1000000000).

Section data.
Context {J : Type}.
(** ixshare/src/gateway/session.rs:68-85 [Part] *)
Inductive Part :=
| PText (text : string)
| PTool (toolName : string) (input : J) (output : option string) (status : string)
| PThinking (text : string)
| PCompaction (summary : string).
(** ixshare/src/gateway/session.rs:55-61 [Message] *)
Record Message := MkMessage {
  m_id : string; m_role : string; m_content : string; m_createdAt : Z; m_parts : list Part;
}.
(** ixshare/src/gateway/session.rs:31-52 [Session] *)
Record Session := MkSession {
  s_id : string; s_title : string; s_tenant : string; s_createdAt : Z; s_updatedAt : Z;
  s_messages : list Message; s_model_messages : list Message;
  s_skill_api_key : string; s_last_prompt_tokens : Z; s_agent_endpoint : string;
}.
(** ixshare/src/gateway/session.rs:89-98 [SessionStore], with the mutexes and tokens it refers to, the clock and
    the number of uuids drawn *)
Record SessionStore := MkStore {
  sessions : gmap string Session;
  session_locks : gmap string nat;
  active_stream_cancels : gmap string nat;
  locks : list bool;          (* whether the mutex is held *)
  tokens : list bool;         (* whether the token is cancelled *)
  now : Z;
  uuids : nat;
}.
End data.
Arguments Part : clear implicits.
Arguments Message : clear implicits.
Arguments Session : clear implicits.
Arguments SessionStore : clear implicits.

(** ** Requests to models *)

(** ixshare/src/gateway/session.rs:439-443 [ToolFunction]; its parameters are one schema for all *)
Record ToolFunction := MkToolFunction { tf_name : string; tf_description : string }.
(** ixshare/src/gateway/session.rs:446-453 [ModelMessage] *)
Record ModelMessage := MkModelMessage {
  mm_role : string; mm_content : string; mm_tool_calls : option (list ToolCall); mm_tool_call_id : option string;
}.
(** ixshare/src/gateway/session.rs:406-425 [ModelRequest]; no model is named and the temperature is 0 in
    all of them, and thinking is off *)
Record ModelRequest := MkModelRequest {
  mr_messages : list ModelMessage; mr_stream : bool; mr_max_tokens : option Z; mr_tools : option (list ToolFunction);
  mr_include_usage : bool;
}.
(** ixshare/src/gateway/secret.rs:485-491 [TenantToolRoute] *)
Record TenantToolRoute := MkRoute {
  tr_tool_name : string; tr_description : option string; tr_owner_tenant : string; tr_owner_namespace : string;
  tr_skillname : string;
}.

(** The length of what [serde_json::to_vec] makes of messages and requests, and
    [Uuid::new_v4]: ids are never drawn twice. *)
Class ChatSizes (J : Type) := {
  message_bytes : Message J → Z;
  model_messages_bytes : list ModelMessage → Z;
  request_bytes : ModelRequest → Z;
  uuid : nat → string;
}.
Class ChatSizesSpec (J : Type) `{ChatSizes J} : Prop := {
  message_bytes_nonneg m : (0 ≤ message_bytes m)%Z;
  uuid_inj :: Inj (=) (=) uuid;
}.
(** The order of the values of a [HashMap]. *)
Class SessionOrder (J : Type) := session_values : gmap string (Session J) → list (Session J).
Class SessionOrderSpec (J : Type) `{SessionOrder J} : Prop :=
  session_values_perm m : session_values m ≡ₚ (map_to_list m).*2.
(** The environment and the configuration. *)
Class ChatConfig := {
  env : string → option string;
  gatewayPort : Z;
  cfg_postturn_ratio : Z;
  cfg_preflight_ratio : Z;
  cfg_first_call_ratio : Z;
  cfg_recent_context_budget : Z;
}.

(** ** Questions to the world *)

(** A response: its status, its body as JSON (or why it is not), as text. *)
Record HttpResponse J := MkHttp { http_status : Z; http_json : string + J; http_text : option string }.
Arguments MkHttp {J}.
Arguments http_status {J}.
Arguments http_json {J}.
Arguments http_text {J}.
(** What a tool call came to; a call that was cancelled while it ran. *)
Inductive SkillReply J := SkillCancelled | SkillFailed (e : string) | SkillResponse (r : HttpResponse J).
Arguments SkillCancelled {J}.
Arguments SkillFailed {J}.
Arguments SkillResponse {J}.

Inductive Question (J : Type) : Type → Type :=
| QTools (tenant : string) : Question J (string + list TenantToolRoute)       (* the tools of a tenant *)
| QMeta (slug : string) : Question J (string + option (option Z))             (* the context length of an endpoint *)
| QPublished (tenant slug : string) : Question J (option string)              (* why an endpoint is not available *)
| QPost (endpoint api_key : string) (req : ModelRequest) : Question J (string + HttpResponse J)
| QStream (tok : nat) : Question J (list StreamItem)                          (* the body of the last response *)
| QSkills (tok : nat) (queries : list (option (string * string))) : Question J (list (nat * SkillReply J) * bool)
                                                  (* the tools that end, in that order; whether that is all of them *).
Arguments QTools {J}.
Arguments QMeta {J}.
Arguments QPublished {J}.
Arguments QPost {J}.
Arguments QStream {J}.
Arguments QSkills {J}.


Section session.
Context {J : Type} {crates : ChatCrates J} {sizes : ChatSizes J} {order : SessionOrder J} {config : ChatConfig}.
Abbreviation Message := (Message J).
Abbreviation Session := (Session J).
Abbreviation SessionStore := (SessionStore J).
Abbreviation C := (call SessionStore (Question J) SseEvent).
Implicit Types (s : SessionStore) (se : Session) (id : string).

(** *** Updates of records *)

Definition put_sessions (x : gmap string Session) s : SessionStore :=
  MkStore x (session_locks s) (active_stream_cancels s) (locks s) (tokens s) (now s) (uuids s).
Definition put_session_locks (x : gmap string nat) (h : list bool) s : SessionStore :=
  MkStore (sessions s) x (active_stream_cancels s) h (tokens s) (now s) (uuids s).
Definition put_cancels (x : gmap string nat) (t : list bool) s : SessionStore :=
  MkStore (sessions s) (session_locks s) x (locks s) t (now s) (uuids s).
Definition set_now (t : Z) s : SessionStore :=
  MkStore (sessions s) (session_locks s) (active_stream_cancels s) (locks s) (tokens s) t (uuids s).
Definition count_uuid s : SessionStore :=
  MkStore (sessions s) (session_locks s) (active_stream_cancels s) (locks s) (tokens s) (now s) (Datatypes.S (uuids s)).
Definition put_messages (l model : list Message) (t : Z) (p : Z) se : Session :=
  MkSession (s_id se) (s_title se) (s_tenant se) (s_createdAt se) t l model (s_skill_api_key se) p (s_agent_endpoint se).

(** *** The store *)

Definition SessionStore_New : SessionStore := MkStore ∅ ∅ ∅ [] [] 0 0.
Definition Uuid_new_v4 s : string * SessionStore := (uuid (uuids s), count_uuid s).
(** [Utc::now()] *)
Definition Utc_now s : Z := now s.
(** ixshare/src/gateway/session.rs:111-136 [SessionStore::CreateSession]; with the id drawn and the time read *)
Definition Store_CreateSession (id : string) (created : Z) (tenant skill_api_key agent_endpoint : string) s : Session * SessionStore :=
  let session := MkSession id ("Session " +:+ of_chars (take 8 (chars id))) tenant created created [] [] skill_api_key 0 agent_endpoint in
  (session, put_sessions (<[id := session]> (sessions s)) s).
(** ixshare/src/gateway/session.rs:138-140 [SessionStore::GetSession] *)
Definition Store_GetSession id s : option Session := sessions s !! id.
(** ixshare/src/gateway/session.rs:145-150 [SessionStore::SessionLock] *)
Definition SessionLock id s : nat * SessionStore :=
  match session_locks s !! id with
  | Some l => (l, s)
  | None => (length (locks s), put_session_locks (<[id := length (locks s)]> (session_locks s)) (locks s ++ [false]) s)
  end.
(** ixshare/src/gateway/session.rs:152-154 [SessionStore::remove_session_lock] *)
Definition remove_session_lock id s : SessionStore := put_session_locks (delete id (session_locks s)) (locks s) s.
(** [CancellationToken::cancel] *)
Definition cancel (tok : nat) (t : list bool) : list bool := <[tok := true]> t.
(** ixshare/src/gateway/session.rs:156-160 [SessionStore::clear_active_stream_cancel] *)
Definition clear_active_stream_cancel id s : SessionStore :=
  match active_stream_cancels s !! id with
  | Some tok => put_cancels (delete id (active_stream_cancels s)) (cancel tok (tokens s)) s
  | None => s
  end.
(** [CancellationToken::new()] *)
Definition CancellationToken_new s : nat * SessionStore :=
  (length (tokens s), put_cancels (active_stream_cancels s) (tokens s ++ [false]) s).
(** ixshare/src/gateway/session.rs:162-167 [SessionStore::register_active_stream_cancel] *)
Definition register_active_stream_cancel id (tok : nat) s : SessionStore :=
  put_cancels (<[id := tok]> (active_stream_cancels s)) (tokens s) s.
(** ixshare/src/gateway/session.rs:169-176 [SessionStore::interrupt_active_stream] *)
Definition interrupt_active_stream id s : bool * SessionStore :=
  match active_stream_cancels s !! id with
  | Some tok => (true, put_cancels (active_stream_cancels s) (cancel tok (tokens s)) s)
  | None => (false, s)
  end.
(** ixshare/src/gateway/session.rs:178-186 [SessionStore::ListSessionsForTenant] *)
Definition ListSessionsForTenant (tenant : string) s : list Session :=
  filter (λ se, s_tenant se = tenant) (session_values (sessions s)).
(** [if let Some(session) = self.sessions.write().await.get_mut(session_id) { .. }] *)
Definition on_session id (f : Session → Session) s : SessionStore := put_sessions (alter f id (sessions s)) s.
(** ixshare/src/gateway/session.rs:188-192 [SessionStore::UpdateTokens] *)
Definition UpdateTokens id (prompt_tokens : Z) s : SessionStore :=
  on_session id (λ se, put_messages (s_messages se) (s_model_messages se) (s_updatedAt se) prompt_tokens se) s.
(** ixshare/src/gateway/session.rs:197-215 [SessionStore::ReplaceModelMessagesWithSummary]; with the message of the summary *)
Definition ReplaceModelMessagesWithSummary id (summary : string) (tail : list Message) s : SessionStore :=
  match sessions s !! id with
  | None => s
  | Some _ =>
      let summary_msg := MkMessage (uuid (uuids s)) "system" summary (now s) [] in
      on_session id (λ se, put_messages (s_messages se) (summary_msg :: tail) (now s) 0 se) (count_uuid s)
  end.
(** ixshare/src/gateway/session.rs:220-232 [SessionStore::AppendCompactionMarker] *)
Definition AppendCompactionMarker id (summary : string) s : SessionStore :=
  match sessions s !! id with
  | None => s
  | Some _ =>
      let marker := MkMessage (uuid (uuids s)) "compaction" "" (now s) [PCompaction summary] in
      on_session id (λ se, put_messages (s_messages se ++ [marker]) (s_model_messages se) (now s) (s_last_prompt_tokens se) se)
        (count_uuid s)
  end.
(** ixshare/src/gateway/session.rs:237-247 [SessionStore::AddMessage]; its answer is used nowhere *)
Definition AddMessage id (message : Message) s : SessionStore :=
  on_session id (λ se, put_messages (s_messages se ++ [message]) (s_model_messages se ++ [message]) (now s) (s_last_prompt_tokens se) se) s.
(** ixshare/src/gateway/session.rs:253-260 [SessionStore::RemoveMessageById] *)
Definition RemoveMessageById id (message_id : string) s : SessionStore :=
  on_session id (λ se, put_messages (filter (λ m, m_id m ≠ message_id) (s_messages se))
                         (filter (λ m, m_id m ≠ message_id) (s_model_messages se)) (now s) (s_last_prompt_tokens se) se) s.
(** ixshare/src/gateway/session.rs:262-274 [SessionStore::GetMessages] *)
Definition GetMessages id (limit : nat) s : list Message :=
  match sessions s !! id with
  | Some se =>
      let msgs := s_messages se in
      if decide (0 < limit ∧ limit < length msgs) then reverse (take limit (reverse msgs)) else msgs
  | None => []
  end.
Definition last_activity se : Z := default (s_createdAt se) (m_createdAt <$> last (s_messages se)).
Definition timed_out (t : Z) se : Prop := (SessionTimeoutMinutes < num_minutes (t - last_activity se))%Z.
#[global] Instance timed_out_dec t se : Decision (timed_out t se).
Proof. unfold timed_out. apply _. Defined.
Definition drop_session id s : SessionStore := put_sessions (delete id (sessions s)) s.
Definition forget_session s id : SessionStore := clear_active_stream_cancel id (remove_session_lock id (drop_session id s)).
(** ixshare/src/gateway/session.rs:276-300 [SessionStore::CheckAndDeleteIfTimedOut]; all under the lock of [sessions] *)
Definition CheckAndDeleteIfTimedOut id s : bool * SessionStore :=
  match sessions s !! id with
  | Some se => if decide (timed_out (now s) se) then (true, forget_session s (s_id se)) else (false, s)
  | None => (false, s)
  end.
(** ixshare/src/gateway/session.rs:306-313 [SessionStore::DeleteSession] *)
Definition Store_DeleteSession id : C bool :=
  removed ← once (λ s, (bool_decide (is_Some (sessions s !! id)), drop_session id s));
  if (removed : bool) then _ ← act (remove_session_lock id); _ ← act (clear_active_stream_cancel id); mret true else mret false.
(** ixshare/src/gateway/session.rs:315-344 [SessionStore::CleanupTimedOutSessions]; the time is read before the lock is taken *)
Definition CleanupTimedOutSessions : C nat :=
  t ← look Utc_now;
  once (λ s, let to_remove := keys (filter (λ p, timed_out t p.2) (sessions s)) in
             (length to_remove, foldl forget_session s to_remove)).

(** *** Helpers *)

Definition parse_env (name : string) (dflt : Z) : Z := default dflt (v ← env name; parse_u64 (trim v)).
Definition slash : ascii := "/"%char.
(** ixshare/src/gateway/session.rs:532-543 [agent_base_url] *)
Definition agent_base_url : string :=
  let public_base := trim_end_matches slash (trim (default "" (env "INFERX_PUBLIC_API_BASE_URL"))) in
  if decide (public_base ≠ "") then public_base else "http://127.0.0.1:" +:+ pretty gatewayPort.
(** ixshare/src/gateway/session.rs:560-588 [agent_endpoint_url] *)
Definition agent_endpoint_url (tenant ep : string) : string :=
  let ep := trim ep in
  if starts_with "http://" ep || starts_with "https://" ep then ep
  else
    let base := agent_base_url in
    let normalized := trim_start_matches slash ep in
    match strip_prefix "endpoints/" normalized with
    | Some slug => base +:+ "/funccall/" +:+ tenant +:+ "/endpoints/" +:+ trim_matches slash slug +:+ "/v1/chat/completions"
    | None =>
        match splitn2 slash normalized with
        | [namespace; modelname] =>
            let namespace := trim_matches slash namespace in
            let modelname := trim_matches slash modelname in
            if decide (namespace ≠ "" ∧ modelname ≠ "")
            then base +:+ "/funccall/" +:+ tenant +:+ "/" +:+ namespace +:+ "/" +:+ modelname +:+ "/v1/chat/completions"
            else base +:+ "/" +:+ normalized
        | _ => base +:+ "/" +:+ normalized
        end
    end.
(** What a slug is without slashes before it and the virtual namespace. *)
Definition bare_slug (slug : string) : string :=
  let slug := trim_start_matches slash (trim slug) in default slug (strip_prefix "endpoints/" slug).
(** ixshare/src/gateway/session.rs:551-555 [agent_model_endpoint] *)
Definition agent_model_endpoint (tenant slug : string) : string := agent_endpoint_url tenant ("endpoints/" +:+ bare_slug slug).
(** ixshare/src/gateway/session.rs:522-530 [skill_endpoint] *)
Definition skill_endpoint (gateway_base_url : string) (route : TenantToolRoute) : string :=
  gateway_base_url +:+ "/skills/" +:+ tr_owner_tenant route +:+ "/" +:+ tr_owner_namespace route +:+ "/" +:+ tr_skillname route
    +:+ "/v1/chat/completions".
(** ixshare/src/gateway/session.rs:504-520 [build_tools_from_routes] *)
Definition build_tools_from_routes (routes : list TenantToolRoute) : list ToolFunction :=
  (λ r, MkToolFunction (tr_tool_name r) (default "" (tr_description r))) <$> routes.
Definition tools_option (routes : list TenantToolRoute) : option (list ToolFunction) :=
  match routes with [] => None | _ => Some (build_tools_from_routes routes) end.

Definition AGENT_FALLBACK_CTX : Z := 8192.
(** ixshare/src/gateway/session.rs:775-794 [agent_model_context_length] *)
Definition agent_model_context_length (slug : string) : C Z :=
  let slug := trim slug in
  if decide (slug = "") then mret AGENT_FALLBACK_CTX
  else
    meta ← ask (QMeta slug);
    match meta with
    | inr (Some (Some ctx)) => if decide (0 < ctx)%Z then mret ctx else mret AGENT_FALLBACK_CTX
    | _ => mret AGENT_FALLBACK_CTX
    end.

Definition saturating_mul (a b : Z) : Z := Z.min (a * b) (ty_max u64).
(** ixshare/src/gateway/session.rs:801-807 [agent_postturn_compaction_ratio] *)
Definition agent_postturn_compaction_ratio : Z := Z.min (parse_env "AGENT_POSTTURN_COMPACTION_RATIO" cfg_postturn_ratio) 100.
(** ixshare/src/gateway/session.rs:812-818 [postturn_compaction_threshold] *)
Definition postturn_compaction_threshold (ctx : Z) : option Z :=
  if decide (ctx = 0)%Z then None else Some (saturating_mul ctx agent_postturn_compaction_ratio / 100)%Z.
(** ixshare/src/gateway/session.rs:822-827 [agent_preflight_compaction_ratio] *)
Definition agent_preflight_compaction_ratio : Z := parse_env "AGENT_PREFLIGHT_COMPACTION_RATIO" cfg_preflight_ratio.
(** ixshare/src/gateway/session.rs:831-836 [agent_first_call_compaction_ratio] *)
Definition agent_first_call_compaction_ratio : Z := parse_env "AGENT_FIRST_CALL_COMPACTION_RATIO" cfg_first_call_ratio.
(** ixshare/src/gateway/session.rs:840-845 [agent_compaction_recent_context_token_budget] *)
Definition agent_compaction_recent_context_token_budget : Z :=
  parse_env "AGENT_COMPACTION_RECENT_CONTEXT_TOKEN_BUDGET" cfg_recent_context_budget.
(** ixshare/src/gateway/session.rs:848-851 [estimate_serialized_tokens]; of so many bytes *)
Definition estimate_serialized_tokens (bytes : Z) : Z := ((bytes + 3) / 4)%Z.
(** ixshare/src/gateway/session.rs:856-861 [estimate_synthesis_tokens] *)
Definition estimate_synthesis_tokens (prior_call_prompt_tokens : Z) (added : list ModelMessage) : outcome unit Z :=
  chk u64 (prior_call_prompt_tokens + estimate_serialized_tokens (model_messages_bytes added)).
(** ixshare/src/gateway/session.rs:865-870 [preflight_decision] *)
Definition preflight_decision (estimate_tokens ctx ratio_pct : Z) : bool :=
  if decide (ctx = 0)%Z then false else bool_decide (saturating_mul ctx ratio_pct / 100 ≤ estimate_tokens)%Z.
Definition COMPACTION_MIN_TAIL : Z := 2.

Definition plain_message (role content : string) : ModelMessage := MkModelMessage role content None None.
Definition FIRST_CALL_SYSTEM_PROMPT : string := 
"You are a helpful assistant. When responding, ALWAYS use proper markdown formatting with explicit newlines:

1. Use double newlines (\n\n) to separate paragraphs
2. Use single newlines for line breaks within sections
3. Format lists with each item on its own line
4. Format tables with each row on its own line
5. Use headers (###) on their own lines with blank lines before and after
6. NEVER run text together without proper spacing

Your responses should be well-formatted markdown that renders correctly.".
Definition SYNTHESIS_SYSTEM_PROMPT : string := "You are a helpful assistant.".
Definition COMPACTION_SYSTEM_PROMPT : string := 
"You are a conversation summarizer. Summarize the conversation history provided by the user into a concise structured summary that preserves all information needed to continue the conversation seamlessly. Do not answer the conversation. Do not mention that you are summarizing. Respond with the summary only, using this structure:

## Summary
[One sentence describing the overall goal or topic]

## Progress
[Bullet list of what has been accomplished]

## Key Facts
[Bullet list of important technical details, decisions, file paths, values]

## Last Exchange
[Brief description of the most recent topic before the tail turns]".
Definition of_history (history : list Message) : list ModelMessage := (λ m, plain_message (m_role m) (m_content m)) <$> history.
(** ixshare/src/gateway/session.rs:881-898 [build_first_call_messages] *)
Definition build_first_call_messages (history : list Message) : list ModelMessage :=
  plain_message "system" FIRST_CALL_SYSTEM_PROMPT :: of_history history.
(** ixshare/src/gateway/session.rs:903-935 [build_synthesis_suffix] *)
Definition build_synthesis_suffix (tool_calls : list ToolCall) (tool_results : list (string * string)) : list ModelMessage :=
  MkModelMessage "assistant" "" (Some tool_calls) None
  :: ((λ r, MkModelMessage "tool" r.2 None (Some r.1)) <$> tool_results).
(** ixshare/src/gateway/session.rs:939-957 [build_synthesis_messages] *)
Definition build_synthesis_messages (history : list Message) (suffix : list ModelMessage) : list ModelMessage :=
  plain_message "system" SYNTHESIS_SYSTEM_PROMPT :: of_history history ++ suffix.

(** *** Compaction *)

(** ixshare/src/gateway/session.rs:959-964 [CompactionResult] *)
Inductive CompactionResult := Compacted | NoChange | NoOp | Failed.
(** The loop that looks for the start of the tail: from the newest message on
    (the head of [rev]), [kept] of them taken, [acc] tokens in them. *)
(** ixshare/src/gateway/session.rs:1005-1017 [compact_session]; the loop *)
Fixpoint tail_size (budget acc : Z) (kept : nat) (rev : list Message) : outcome unit nat :=
  match rev with
  | [] => Ok kept
  | m :: rev =>
      let t := estimate_serialized_tokens (message_bytes m) in
      acc' ← chk u64 (acc + t);
      if decide (budget < acc' ∧ COMPACTION_MIN_TAIL < Z.of_nat kept + 1)%Z then Ok kept
      else tail_size budget acc' (Datatypes.S kept) rev
  end.
(** ixshare/src/gateway/session.rs:1029-1034 [compact_session] *)
Definition history_text (head : list Message) : string :=
  join (of_chars [newline; newline])
    ((λ m, m_role m +:+ ": " +:+ m_content m) <$> filter (λ m, m_role m ≠ "system") head).
(** ixshare/src/gateway/session.rs:1037-1040 [compact_session] *)
Definition previous_summary (head : list Message) : option string :=
  match head with
  | m :: _ => if bool_decide (m_role m = "system") && starts_with "## Summary" (m_content m) then Some (m_content m) else None
  | [] => None
  end.
Definition nl : string := of_chars [newline].
(** ixshare/src/gateway/session.rs:1042-1050 [compact_session] *)
Definition summarize_content (head : list Message) : string :=
  match previous_summary head with
  | Some prev => "Update the summary below with the new conversation history." +:+ nl +:+ "<previous-summary>" +:+ nl +:+ prev +:+ nl
                   +:+ "</previous-summary>" +:+ nl +:+ nl +:+ "New history:" +:+ nl +:+ history_text head
  | None => "Summarize this conversation history:" +:+ nl +:+ nl +:+ history_text head
  end.
Definition is_success (status : Z) : bool := bool_decide (200 ≤ status < 300)%Z.
Definition first_message (json : J) : option J := c ← first_choice json; jget "message" c.
Definition message_content (json : J) : option string := m ← first_message json; c ← jget "content" m; jstr c.
(** ixshare/src/gateway/session.rs:985-1117 [compact_session] *)
Definition compact_session id (endpoint api_key : string) : C CompactionResult :=
  session ← look (Store_GetSession id);
  match session with
  | None => mret NoOp
  | Some session =>
      let messages := s_model_messages session in
      kept ← try_ (tail_size agent_compaction_recent_context_token_budget 0 0 (reverse messages));
      let tail_start := length messages - kept in
      if decide (tail_start = 0) then mret NoOp
      else
        let head := take tail_start messages in
        let tail := drop tail_start messages in
        reply ← ask (QPost endpoint api_key
                       (MkModelRequest [plain_message "system" COMPACTION_SYSTEM_PROMPT; plain_message "user" (summarize_content head)]
                          false (Some 2000%Z) None false));
        match reply with
        | inl _ => mret Failed
        | inr resp =>
            if is_success (http_status resp) then
              match http_json resp with
              | inl _ => mret NoChange
              | inr json =>
                  match message_content json with
                  | None => mret NoChange
                  | Some summary =>
                      let trimmed := trim summary in
                      if decide (trimmed = "") then mret NoChange
                      else
                        _ ← act (ReplaceModelMessagesWithSummary id trimmed tail);
                        _ ← act (AppendCompactionMarker id trimmed);
                        mret Compacted
                  end
              end
            else mret Failed
        end
  end.

(** ixshare/src/gateway/session.rs:1119-1127 [is_context_overflow] *)
Definition is_context_overflow (body : string) : bool :=
  let overflow t := contains "maximum context length" t || contains "context_length_exceeded" t in
  match (json ← from_str body; e ← jget "error" json; m ← jget "message" e; jstr m) with
  | Some msg => overflow msg
  | None => overflow body
  end.
End session.
