(* ===== verification/SessionTurn.v ===== *)
(** * Prompts and routes (ixshare/src/gateway/session.rs)

    A prompt adds its message to the session, asks the model, calls the tools
    the model asks for, asks again with their results, and stores the answer.  A
    prompt with a stream holds the lock of the session from before its message
    is added to the end of the task that reads the answer. *)

From S2P Require Import Prelude.
From S2P Require Import Text.
From S2P Require Import BTree.
From S2P Require Import Calls.
From S2P Require Import ChatStream.
From S2P Require Import Session.

(** The responses of the handlers. *)
Inductive Reply (J : Type) :=
| RSessionNotFound                                   (* 404 *)
| RForbidden                                         (* 403 *)
| RInterrupted                                       (* 409 *)
| RNotFound (message : string)                       (* 404 *)
| RBadRequest (error message : string)               (* 400 *)
| RBadGateway (error message : string)               (* 502 *)
| RPrompt (status : Z) (messageId content : string) (parts : list (Part J))
| RSession (status : Z) (session : Session J) (tool_count : nat)
| RMessages (messages : list (Message J))
| RInterrupt (interrupted : bool)
| RNoContent.                                        (* 204 *)
Arguments RSessionNotFound {J}.
Arguments RForbidden {J}.
Arguments RInterrupted {J}.
Arguments RNotFound {J}.
Arguments RBadRequest {J}.
Arguments RBadGateway {J}.
Arguments RPrompt {J}.
Arguments RSession {J}.
Arguments RMessages {J}.
Arguments RInterrupt {J}.
Arguments RNoContent {J}.

(** What the task of a stream takes with it. *)
Record Turn := MkTurn {
  tn_session : string; tn_user_message : string; tn_endpoint : string; tn_api_key : string;
  tn_routes : list TenantToolRoute; tn_ctx : Z; tn_token : nat;
}.

Section turn.
Context {J : Type} {crates : ChatCrates J} {sizes : ChatSizes J} {config : ChatConfig}.
Abbreviation Message := (Message J).
Abbreviation Session := (Session J).
Abbreviation SessionStore := (SessionStore J).
Abbreviation C := (call SessionStore (Question J) SseEvent).
Implicit Types (s : SessionStore) (id : string) (tn : Turn).

Definition get_model_messages id : C (list Message) :=
  session ← look (Store_GetSession id); mret (default [] (s_model_messages <$> session)).
(** A message with a fresh id: [Uuid::new_v4()], then [Utc::now()]. *)
Definition new_message (role content : string) : C Message :=
  mid ← once Uuid_new_v4;
  t ← look Utc_now;
  mret (MkMessage mid role content t [PText content]).

(** ** What is stored of a turn that is interrupted *)

Definition INTERRUPTED_TOOL_TURN_MESSAGE : string := "Request interrupted after tool execution before a final answer was produced.".
(** ixshare/src/gateway/session.rs:1151-1155 [InterruptedTurnStorageDecision] *)
Inductive InterruptedTurnStorageDecision := DropUserPrompt | StoreAssistantText (text : string) | StoreInterruptedMarker.
(** ixshare/src/gateway/session.rs:1157-1169 [interrupted_turn_storage_decision] *)
Definition interrupted_turn_storage_decision (partial_content : string) (tool_calls : list ToolCall) : InterruptedTurnStorageDecision :=
  let stored_content := strip_think_tags partial_content in
  if decide (stored_content ≠ "") then StoreAssistantText stored_content
  else match tool_calls with [] => DropUserPrompt | _ => StoreInterruptedMarker end.
(** ixshare/src/gateway/session.rs:1171-1182 [emit_interrupted_event] *)
Definition emit_interrupted_event : C unit := _ ← say SInterrupted; say SDone.
(** ixshare/src/gateway/session.rs:1184-1193 [append_assistant_message] *)
Definition append_assistant_message id (content : string) : C string :=
  m ← new_message "assistant" content;
  _ ← act (AddMessage id m);
  mret (m_id m).
(** ixshare/src/gateway/session.rs:1195-1216 [finalize_interrupted_prompt] *)
Definition finalize_interrupted_prompt id (user_message_id partial_content : string) (tool_calls : list ToolCall) : C unit :=
  match interrupted_turn_storage_decision partial_content tool_calls with
  | DropUserPrompt => act (RemoveMessageById id user_message_id)
  | StoreAssistantText text => _ ← append_assistant_message id text; mret tt
  | StoreInterruptedMarker => _ ← append_assistant_message id INTERRUPTED_TOOL_TURN_MESSAGE; mret tt
  end.

(** ** Tools *)

(** ixshare/src/gateway/session.rs:1222-1307 [CallSkillTool]; the query it sends *)
Definition skill_query (arguments : string) : string := default arguments (v ← from_str arguments; jtext "query" v).
(** ixshare/src/gateway/session.rs:1222-1307 [CallSkillTool]; what it makes of the reply *)
Definition CallSkillTool (reply : SkillReply J) : string :=
  match reply with
  | SkillCancelled => "Request interrupted"
  | SkillFailed e => "Skill tool call failed: " +:+ e
  | SkillResponse r =>
      if is_success (http_status r) then
        match http_json r with
        | inl e => "Failed to parse skill response: " +:+ e
        | inr json => match message_content json with
                      | Some content => strip_think_tags content
                      | None => "No content in skill response"
                      end
        end
      else "Skill tool returned error: " +:+ pretty (http_status r)
  end.
Definition find_route (routes : list TenantToolRoute) (name : string) : option TenantToolRoute :=
  head (filter (λ r, tr_tool_name r = name) routes).
(** The calls of a round: where each goes, with its query; none for an unknown tool. *)
Definition skill_queries (routes : list TenantToolRoute) (tool_calls : list ToolCall) : list (option (string * string)) :=
  (λ tc, r ← find_route routes (fc_name (tc_function tc));
         Some (skill_endpoint ("http://127.0.0.1:" +:+ pretty gatewayPort) r, skill_query (fc_arguments (tc_function tc)))) <$> tool_calls.
Definition tool_response (routes : list TenantToolRoute) (tc : ToolCall) (reply : SkillReply J) : string :=
  match find_route routes (fc_name (tc_function tc)) with
  | Some _ => CallSkillTool reply
  | None => "Unknown tool: " +:+ fc_name (tc_function tc)
  end.
(** The results in the order of the calls ([sort_by_key(idx)]), from the
    replies in the order they came. *)
Definition tool_results (routes : list TenantToolRoute) (tool_calls : list ToolCall) (done : list (nat * SkillReply J)) :
    list (string * string) :=
  imap (λ i tc, (tc_id tc, tool_response routes tc (default SkillCancelled ((list_to_map done : gmap nat _) !! i)))) tool_calls.

(** ** Prompts without a stream *)

(** ixshare/src/gateway/session.rs:1319-1322 [ModelBackendError] *)
Record ModelBackendError := MkBackendError { be_message : string; be_tools_executed : bool }.
(** ixshare/src/gateway/session.rs:1337-1356 [classify_endpoint_dispatch_error] *)
Definition classify_endpoint_dispatch_error (raw : string) : option string :=
  let lowered := of_chars (lower <$> chars raw) in
  if contains "is unpublished" lowered || contains "endpoint not found" lowered || contains "does not exist" lowered
  then Some "The selected model is no longer available (it may have been unpublished). Pick a model and start a new session."
  else None.
(** [.map(|c| c.trim()).filter(|c| !c.is_empty())] *)
Definition trimmed_content (c : option string) : option string :=
  c ← c; if decide (trim c = "") then None else Some (trim c).
Definition response_text (r : HttpResponse J) : string := default "" (http_text r).
(** ixshare/src/gateway/session.rs:1503-1575 [CallModelBackend]; the second call, with the results of the tools *)
Definition model_synthesis (messages : list Message) (endpoint api_key : string) (tool_calls : list ToolCall)
    (results : list (string * string)) : C (string * Z + ModelBackendError) :=
  reply ← ask (QPost endpoint api_key
                 (MkModelRequest (build_synthesis_messages messages (build_synthesis_suffix tool_calls results)) false (Some 20000%Z) None false));
  match reply with
  | inl e => mret (inr (MkBackendError ("Synthesis request failed: " +:+ e) true))
  | inr r =>
      if is_success (http_status r) then
        match http_json r with
        | inl e => mret (inr (MkBackendError ("Failed to parse synthesis response: " +:+ e) true))
        | inr json =>
            match trimmed_content (message_content json) with
            | Some c => mret (inl (c, default 0%Z (extract_prompt_tokens json)))
            | None => mret (inr (MkBackendError "Model returned no content" true))
            end
        end
      else mret (inr (MkBackendError ("Synthesis model API error: " +:+ response_text r) true))
  end.
Definition message_tool_calls (json : J) : list J :=
  default [] (m ← first_message json; t ← jget "tool_calls" m; jarray t).
(** ixshare/src/gateway/session.rs:1361-1601 [CallModelBackend] *)
Definition CallModelBackend (messages : list Message) (endpoint api_key : string) (tools : option (list ToolFunction))
    (routes : list TenantToolRoute) : C (string * Z + ModelBackendError) :=
  reply ← ask (QPost endpoint api_key (MkModelRequest (build_first_call_messages messages) false (Some 20000%Z) tools false));
  match reply with
  | inl e => mret (inr (MkBackendError ("Request failed: " +:+ e) false))
  | inr r =>
      if is_success (http_status r) then
        match http_json r with
        | inl e => mret (inr (MkBackendError ("Failed to parse model response: " +:+ e) false))
        | inr json =>
            match message_tool_calls json with
            | [] =>
                match trimmed_content (message_content json) with
                | Some c => mret (inl (c, default 0%Z (extract_prompt_tokens json)))
                | None => mret (inr (MkBackendError "Model returned no content" false))
                end
            | tool_calls_json =>
                let tool_calls := omap tool_call_of tool_calls_json in
                tok ← once CancellationToken_new;   (* one for each tool; nobody cancels them *)
                done ← ask (QSkills tok (skill_queries routes tool_calls));
                model_synthesis messages endpoint api_key tool_calls (tool_results routes tool_calls done.1)
            end
        end
      else mret (inr (MkBackendError ("Model API error: " +:+ response_text r) false))
  end.
Definition over_threshold (ctx prompt_tokens : Z) : bool :=
  match postturn_compaction_threshold ctx with Some t => bool_decide (t ≤ prompt_tokens)%Z | None => false end.
(** What follows a turn: [UpdateTokens], and compaction when the turn used too much. *)
Definition compact_after id (endpoint api_key : string) (ctx prompt_tokens : Z) : C unit :=
  if decide (0 < prompt_tokens)%Z then
    _ ← act (UpdateTokens id prompt_tokens);
    if over_threshold ctx prompt_tokens then _ ← compact_session id endpoint api_key; mret tt else mret tt
  else mret tt.
(** ixshare/src/gateway/session.rs:1609-1734 [HandlePrompt] *)
Definition HandlePrompt id (message : string) (stream : bool) : C (Reply J) :=
  session ← look (Store_GetSession id);
  match session with
  | None => mret RSessionNotFound
  | Some session =>
      timed ← once (CheckAndDeleteIfTimedOut id);
      if (timed : bool) then mret RSessionNotFound
      else
        let endpoint := agent_model_endpoint (s_tenant session) (s_agent_endpoint session) in
        let api_key := s_skill_api_key session in
        ctx ← agent_model_context_length (s_agent_endpoint session);
        routes ← ask (QTools (s_tenant session));
        let routes := match routes with inr r => r | inl _ => [] end in
        user ← new_message "user" message;
        _ ← act (AddMessage id user);
        if stream then mret (RPrompt 307 "" "Use /sessions/{id}/prompt_stream for streaming" [])
        else
          messages ← get_model_messages id;
          answer ← CallModelBackend messages endpoint api_key (tools_option routes) routes;
          match answer with
          | inl (text, prompt_tokens) =>
              mid ← append_assistant_message id text;
              _ ← compact_after id endpoint api_key ctx prompt_tokens;
              mret (RPrompt 200 mid text [PText text])
          | inr e =>
              _ ← (if be_tools_executed e then mret tt else act (RemoveMessageById id (m_id user)));
              mret (RPrompt 500 "" (default ("Model error: " +:+ be_message e) (classify_endpoint_dispatch_error (be_message e))) [])
          end
  end.

(** ** Prompts with a stream *)

Definition is_cancelled (tok : nat) s : bool := bool_decide (tokens s !! tok = Some true).
(** [map_or(false, ..)] of the finish reason. *)
Definition wants_tools (st : FirstState) : bool :=
  negb (bool_decide (fs_tool_calls st = [])) || bool_decide (fs_finish_reason st = Some "tool_calls").
Definition told_compaction tn : C CompactionResult :=
  _ ← say SCompacting;
  r ← compact_session (tn_session tn) (tn_endpoint tn) (tn_api_key tn);
  _ ← say SCompacted;
  mret r.
(** A turn that stops here: whether it goes on, and with which count of tokens. *)
Abbreviation Turned := (option Z).
Definition interrupted tn (partial : string) (tool_calls : list ToolCall) : C Turned :=
  _ ← finalize_interrupted_prompt (tn_session tn) (tn_user_message tn) partial tool_calls;
  _ ← emit_interrupted_event;
  mret None.
Definition new_tokens (state : ContentStreamState) (prompt_tokens : Z) : Z := note_usage (st_prompt_tokens state) prompt_tokens.
Definition synthesis_failed (e : string) : C unit := say (SError "upstream_error" ("Skill synthesis call failed" +:+ e)).
Definition synthesis_request (prior : list Message) (suffix : list ModelMessage) (max_tokens : option Z) : ModelRequest :=
  MkModelRequest (build_synthesis_messages prior suffix) true max_tokens None true.

(** ixshare/src/gateway/session.rs:1753-1941 [run_synthesis_retry] *)
Definition run_synthesis_retry tn (tool_calls : list ToolCall) (suffix : list ModelMessage) (full_content : string)
    (prompt_tokens : Z) : C Turned :=
  prior ← get_model_messages (tn_session tn);
  let max_tokens := if decide (0 < tn_ctx tn)%Z then Z.max (tn_ctx tn / 4) 512 else 4096%Z in
  CSelect (tn_token tn)
    (QPost (tn_endpoint tn) (tn_api_key tn) (synthesis_request prior suffix (Some (cast i32 max_tokens))))
    (interrupted tn full_content tool_calls)
    (λ reply,
      match reply with
      | inl e => _ ← synthesis_failed (": " +:+ e); mret (Some prompt_tokens)
      | inr resp =>
          if is_success (http_status resp) then
            items ← ask (QStream (tn_token tn));
            out ← consume_content_stream items;
            match out with
            | Completed state =>
                let prompt_tokens := new_tokens state prompt_tokens in
                if decide (st_content state ≠ "") then
                  mid ← append_assistant_message (tn_session tn) (strip_think_tags (st_content state));
                  _ ← (if over_threshold (tn_ctx tn) prompt_tokens then _ ← told_compaction tn; mret tt else mret tt);
                  _ ← say (SComplete mid);
                  mret (Some prompt_tokens)
                else
                  _ ← say (SError "empty_response" "Model returned no content");
                  mret (Some prompt_tokens)
            | Interrupted state => interrupted tn (st_content state) tool_calls
            | StreamError state e =>
                _ ← say (SError "stream_error" ("Skill synthesis call failed: " +:+ e));
                mret (Some (new_tokens state prompt_tokens))
            end
          else if decide (http_status resp = 400)%Z then
            _ ← say (SError "upstream_error" "Synthesis failed after compaction; tool results may exceed context window");
            mret (Some prompt_tokens)
          else _ ← synthesis_failed ""; mret (Some prompt_tokens)
      end).
(** ixshare/src/gateway/session.rs:2747-2823 [HandlePromptStream]; the answer to the second request is an error *)
Definition synthesis_refused tn (resp : HttpResponse J) (tool_calls : list ToolCall) (suffix : list ModelMessage)
    (full_content : string) (prompt_tokens : Z) : C Turned :=
  if bool_decide (http_status resp = 400)%Z && is_context_overflow (response_text resp) then
    r ← told_compaction tn;
    match r with
    | Failed => _ ← say (SError "upstream_error" "Synthesis failed and history compaction also failed"); mret (Some prompt_tokens)
    | NoOp => _ ← say (SError "upstream_error" "Request exceeds context window; history is too short to compact further"); mret (Some prompt_tokens)
    | NoChange => _ ← say (SError "upstream_error" "Request exceeds context window; compaction returned no usable summary"); mret (Some prompt_tokens)
    | Compacted => run_synthesis_retry tn tool_calls suffix full_content prompt_tokens
    end
  else _ ← synthesis_failed ""; mret (Some prompt_tokens).
(** ixshare/src/gateway/session.rs:2634-2747 [HandlePromptStream]; the second request and its answer *)
Definition synthesis tn (prior : list Message) (tool_calls : list ToolCall) (suffix : list ModelMessage)
    (full_content : string) (prompt_tokens : Z) : C Turned :=
  CSelect (tn_token tn)
    (QPost (tn_endpoint tn) (tn_api_key tn) (synthesis_request prior suffix None))
    (interrupted tn full_content tool_calls)
    (λ reply,
      match reply with
      | inl e => _ ← synthesis_failed (": " +:+ e); mret (Some prompt_tokens)
      | inr resp =>
          if is_success (http_status resp) then
            items ← ask (QStream (tn_token tn));
            out ← consume_content_stream items;
            match out with
            | Completed state =>
                let prompt_tokens := new_tokens state prompt_tokens in
                if decide (st_content state ≠ "") then
                  _ ← append_assistant_message (tn_session tn) (strip_think_tags (st_content state));
                  _ ← (if over_threshold (tn_ctx tn) prompt_tokens then _ ← told_compaction tn; mret tt else mret tt);
                  mret (Some prompt_tokens)
                else
                  _ ← say (SError "empty_response" "Model returned no content");
                  mret (Some prompt_tokens)
            | Interrupted state => interrupted tn (st_content state) tool_calls
            | StreamError state e =>
                _ ← say (SError "stream_error" ("Skill synthesis call failed: " +:+ e));
                mret (Some (new_tokens state prompt_tokens))
            end
          else synthesis_refused tn resp tool_calls suffix full_content prompt_tokens
      end).
(** ixshare/src/gateway/session.rs:2539-2632 [HandlePromptStream]; compaction before the second request *)
Definition synthesis_preflight tn (tool_calls : list ToolCall) (suffix : list ModelMessage) (full_content : string)
    (prompt_tokens : Z) : C Turned :=
  let syn_ratio := agent_preflight_compaction_ratio in
  prior ← get_model_messages (tn_session tn);
  syn_estimate ← (if decide (0 < prompt_tokens)%Z then try_ (estimate_synthesis_tokens prompt_tokens suffix)
                  else mret (estimate_serialized_tokens (model_messages_bytes (build_synthesis_messages prior suffix))));
  if preflight_decision syn_estimate (tn_ctx tn) syn_ratio then
    _ ← told_compaction tn;
    prior ← get_model_messages (tn_session tn);
    let post_estimate := estimate_serialized_tokens (model_messages_bytes (build_synthesis_messages prior suffix)) in
    if preflight_decision post_estimate (tn_ctx tn) syn_ratio then
      _ ← say (SError "tool_results_too_large"
                 "Current-turn tool results still exceed the usable context window after history compaction");
      _ ← say SDone;
      mret None
    else synthesis tn prior tool_calls suffix full_content prompt_tokens
  else synthesis tn prior tool_calls suffix full_content prompt_tokens.
(** ixshare/src/gateway/session.rs:2400-2538 [HandlePromptStream]; the tools *)
Definition run_tools tn (st : FirstState) : C Turned :=
  let tool_calls := fs_tool_calls st in
  cancelled ← look (is_cancelled (tn_token tn));
  if (cancelled : bool) then interrupted tn (fs_content st) tool_calls
  else
    _ ← eachC (λ p, say (SToolCall p.1 (fc_name (tc_function p.2)) (fc_arguments (tc_function p.2)))) (imap pair tool_calls);
    done ← ask (QSkills (tn_token tn) (skill_queries (tn_routes tn) tool_calls));
    _ ← eachC (λ d, match tool_calls !! d.1 with
                    | Some tc => say (SToolDone d.1 (fc_name (tc_function tc)) (tool_response (tn_routes tn) tc d.2))
                    | None => mret tt
                    end) done.1;
    cancelled ← look (is_cancelled (tn_token tn));
    if (cancelled : bool) then interrupted tn (fs_content st) tool_calls
    else
      let suffix := build_synthesis_suffix tool_calls (tool_results (tn_routes tn) tool_calls done.1) in
      synthesis_preflight tn tool_calls suffix (fs_content st) (fs_prompt_tokens st).
(** ixshare/src/gateway/session.rs:2361-2905 [HandlePromptStream]; what becomes of the first answer *)
Definition after_first tn (st : FirstState) (stopped : option (option string)) : C Turned :=
  match stopped with
  | Some None => interrupted tn (fs_content st) (fs_tool_calls st)
  | Some (Some e) =>
      _ ← (if bool_decide (fs_content st = "") && bool_decide (fs_tool_calls st = [])
           then act (RemoveMessageById (tn_session tn) (tn_user_message tn)) else mret tt);
      _ ← say (SError "stream_error" e);
      _ ← say SDone;
      mret None
  | None =>
      if wants_tools st then run_tools tn st
      else if decide (fs_content st ≠ "") then
        mid ← append_assistant_message (tn_session tn) (fs_content st);
        _ ← say (SComplete mid);
        mret (Some (fs_prompt_tokens st))
      else
        _ ← act (RemoveMessageById (tn_session tn) (tn_user_message tn));
        _ ← say (SError "empty_response" "Model returned no content");
        mret (Some (fs_prompt_tokens st))
  end.
(** ixshare/src/gateway/session.rs:2139-2146 [HandlePromptStream]; 2907-2929; the task of the stream *)
Definition stream_task tn : C unit :=
  items ← ask (QStream (tn_token tn));
  r ← first_stream items;
  turned ← after_first tn r.1 r.2;
  match turned with
  | None => mret tt
  | Some prompt_tokens =>
      _ ← say SDone;
      if decide (0 < prompt_tokens)%Z then
        _ ← act (UpdateTokens (tn_session tn) prompt_tokens);
        if over_threshold (tn_ctx tn) prompt_tokens then _ ← told_compaction tn; mret tt else mret tt
      else mret tt
  end.

(** A handler ends with a response, or leaves the rest to a task. *)
Inductive HandlerEnd := HReply (r : Reply J) | HStream (tn : Turn).
(** ixshare/src/gateway/session.rs:2016-2078 [HandlePromptStream]; the first request, compacted where it is too long *)
Definition first_request id (endpoint api_key : string) (ctx : Z) (tools : option (list ToolFunction)) : C ModelRequest :=
  let max_tokens := if decide (0 < ctx)%Z then cast i32 (Z.max (ctx / 2) 512) else 20000%Z in
  history ← get_model_messages id;
  let request history := MkModelRequest (build_first_call_messages history) true (Some max_tokens) tools true in
  if preflight_decision (estimate_serialized_tokens (request_bytes (request history))) ctx agent_first_call_compaction_ratio then
    _ ← compact_session id endpoint api_key;
    rebuilt ← get_model_messages id;
    mret (request rebuilt)
  else mret (request history).
(** A turn that gets no answer before its stream. *)
Definition abandon tn (r : Reply J) : C HandlerEnd :=
  _ ← act (RemoveMessageById (tn_session tn) (tn_user_message tn));
  _ ← act (clear_active_stream_cancel (tn_session tn));
  mret (HReply r).
(** ixshare/src/gateway/session.rs:2005-2131 [HandlePromptStream]; with the lock of the session held *)
Definition stream_locked id (endpoint api_key slug : string) (routes : list TenantToolRoute) (user : Message) : C HandlerEnd :=
  _ ← act (AddMessage id user);
  tok ← once CancellationToken_new;
  _ ← act (register_active_stream_cancel id tok);
  ctx ← agent_model_context_length slug;
  let tn := MkTurn id (m_id user) endpoint api_key routes ctx tok in
  request ← first_request id endpoint api_key ctx (tools_option routes);
  CSelect tok (QPost endpoint api_key request)
    (abandon tn RInterrupted)
    (λ reply,
      match reply with
      | inl e => abandon tn (RBadGateway "model_unavailable" ("Failed to reach model: " +:+ e))
      | inr resp =>
          if is_success (http_status resp) then mret (HStream tn)
          else
            let e := response_text resp in
            abandon tn (RBadGateway "model_error" (default ("Model error: " +:+ e) (classify_endpoint_dispatch_error e)))
      end).
(** ixshare/src/gateway/session.rs:1943-2004 [HandlePromptStream] *)
Definition HandlePromptStream id (message : string) : C HandlerEnd :=
  session ← look (Store_GetSession id);
  match session with
  | None => mret (HReply RSessionNotFound)
  | Some session =>
      timed ← once (CheckAndDeleteIfTimedOut id);
      if (timed : bool) then mret (HReply RSessionNotFound)
      else
        let endpoint := agent_model_endpoint (s_tenant session) (s_agent_endpoint session) in
        routes ← ask (QTools (s_tenant session));
        let routes := match routes with inr r => r | inl _ => [] end in
        user ← new_message "user" message;
        l ← once (SessionLock id);
        _ ← lock l;
        stream_locked id endpoint (s_skill_api_key session) (s_agent_endpoint session) routes user
  end.
End turn.

(** ** Routes

    Every handler looks a session up for the tenant of its caller first. *)

(** What is used of the caller's token. *)
Record AccessToken := MkAccessToken { restrictTenant : option string; defaultTenant : option string }.
(** ixshare/src/gateway/session.rs:485-491 [caller_tenant] *)
Definition caller_tenant (token : AccessToken) : string :=
  match restrictTenant token with Some t => t | None => default "" (defaultTenant token) end.

Section routes.
Context {J : Type} {crates : ChatCrates J} {sizes : ChatSizes J} {order : SessionOrder J} {config : ChatConfig}.
Abbreviation Session := (Session J).
Abbreviation SessionStore := (SessionStore J).
Abbreviation C := (call SessionStore (Question J) SseEvent).
Implicit Types (s : SessionStore) (id : string) (token : AccessToken).

Definition tool_count (tenant : string) : C nat :=
  r ← ask (QTools tenant); mret (match r with inr l => length l | inl _ => 0 end).
Definition updated_ge (a b : Session) : Prop := (s_updatedAt b ≤ s_updatedAt a)%Z.
#[global] Instance updated_ge_dec : RelDecision updated_ge.
Proof. intros a b. unfold updated_ge. apply _. Defined.
(** ixshare/src/gateway/session.rs:2941-2969 [GetCurrentSession] *)
Definition GetCurrentSession token : C (Reply J) :=
  let tenant := caller_tenant token in
  sessions ← look (ListSessionsForTenant tenant);
  match merge_sort updated_ge sessions with
  | [] => mret (RNotFound "no_session")
  | session :: _ => n ← tool_count tenant; mret (RSession 200 session n)
  end.
(** ixshare/src/gateway/session.rs:2971-3057 [CreateSession] *)
Definition CreateSession token (api_key : string) (agent_endpoint : option string) : C (Reply J) :=
  let tenant := caller_tenant token in
  if decide (tenant = "") then mret (RBadRequest "no_tenant" "No tenant context: set a default tenant or use a tenant-restricted API key")
  else
    match (raw ← agent_endpoint; if decide (trim raw = "") then None else Some raw) with
    | None => mret (RBadRequest "no_agent_model" "select a model")
    | Some raw =>
        let normalized := bare_slug raw in
        why ← ask (QPublished tenant normalized);
        match why with
        | Some msg => mret (RBadRequest "invalid_agent_endpoint" ("Selected model '" +:+ normalized +:+ "' is not available: " +:+ msg))
        | None =>
            id ← once Uuid_new_v4;
            created ← look Utc_now;
            session ← once (Store_CreateSession id created tenant api_key normalized);
            n ← tool_count tenant;
            mret (RSession 201 session n)
        end
    end.
(** ixshare/src/gateway/session.rs:3059-3084 [GetSession] *)
Definition GetSession token id : C (Reply J) :=
  session ← look (Store_GetSession id);
  match session with
  | Some session =>
      if decide (s_tenant session = caller_tenant token)
      then n ← tool_count (caller_tenant token); mret (RSession 200 session n)
      else mret RForbidden
  | None => mret (RNotFound "Session not found")
  end.
(** ixshare/src/gateway/session.rs:3086-3104 [DeleteSession] *)
Definition DeleteSession token id : C (Reply J) :=
  session ← look (Store_GetSession id);
  match session with
  | Some session =>
      if decide (s_tenant session = caller_tenant token)
      then _ ← Store_DeleteSession id; mret RNoContent
      else mret (RNotFound "Session not found")
  | None => mret (RNotFound "Session not found")
  end.
(** ixshare/src/gateway/session.rs:3106-3123 [GetSessionMessages] *)
Definition GetSessionMessages token id (limit : nat) : C (Reply J) :=
  session ← look (Store_GetSession id);
  match session with
  | Some session =>
      if decide (s_tenant session = caller_tenant token)
      then messages ← look (GetMessages id limit); mret (RMessages messages)
      else mret RForbidden
  | None => mret (RNotFound "Session not found")
  end.
(** What [Prompt], [PromptStream] and [InterruptSession] begin with. *)
Definition for_own_session {A} token id (refuse : Reply J → A) (k : C A) : C A :=
  session ← look (Store_GetSession id);
  match session with
  | Some session => if decide (s_tenant session = caller_tenant token) then k else mret (refuse RForbidden)
  | None => mret (refuse RSessionNotFound)
  end.
(** ixshare/src/gateway/session.rs:3125-3142 [Prompt] *)
Definition Prompt token id (message : string) (stream : bool) : C (Reply J) :=
  for_own_session token id (λ r, r) (HandlePrompt id message stream).
(** ixshare/src/gateway/session.rs:3144-3161 [PromptStream] *)
Definition PromptStream token id (message : string) : C HandlerEnd :=
  for_own_session token id HReply (HandlePromptStream id message).
(** ixshare/src/gateway/session.rs:3163-3183 [InterruptSession] *)
Definition InterruptSession token id : C (Reply J) :=
  for_own_session token id (λ r, r) (b ← once (interrupt_active_stream id); mret (RInterrupt b)).
End routes.
