(* ===== verification/SessionRuns.v ===== *)
(** * Sessions, prompted and interrupted at the same time

    The handlers and the tasks of streams as they interleave: a step is one node
    of one of them, the end of one, or something that happens to it. *)

From S2P Require Import Prelude.
From S2P Require Import Calls.
From S2P Require Import ChatStream.
From S2P Require Import Session.
From S2P Require Import SessionTurn.

Section runs.
Context {J : Type} {crates : ChatCrates J} {sizes : ChatSizes J} {order : SessionOrder J} {config : ChatConfig}.
Abbreviation SessionStore := (SessionStore J).
Abbreviation C := (call SessionStore (Question J) SseEvent).
Abbreviation HandlerEnd := (SessionTurn.HandlerEnd (J:=J)).
Implicit Types (s : SessionStore) (id : string).

(** What the world answers. *)
Inductive WorldReply :=
| WTools (r : string + list TenantToolRoute)
| WMeta (r : string + option (option Z))
| WPublished (why : option string)
| WPost (r : string + HttpResponse J)
| WStream (items : list StreamItem)
| WSkills (done : list (nat * SkillReply J)) (all : bool).
Definition answer {X} (q : Question J X) (r : WorldReply) : option X :=
  match q in Question _ X return option X with
  | QTools _ => match r with WTools r => Some r | _ => None end
  | QMeta _ => match r with WMeta r => Some r | _ => None end
  | QPublished _ _ => match r with WPublished r => Some r | _ => None end
  | QPost _ _ _ => match r with WPost r => Some r | _ => None end
  | QStream _ => match r with WStream r => Some r | _ => None end
  | QSkills _ _ => match r with WSkills done all => Some (done, all) | _ => None end
  end.
(** Which answers can come: a stream or the tools are left only when the turn is
    cancelled, and every tool ends once. *)
Definition permits {X} s (q : Question J X) (x : X) : bool :=
  match q in Question _ X return X → bool with
  | QStream tok => λ items, negb (existsb (λ i, match i with StreamCancelled => true | _ => false end) items) || is_cancelled tok s
  | QSkills tok queries => λ '(done, all),
      bool_decide (NoDup done.*1) && forallb (λ i, bool_decide (i < length queries)) done.*1
      && (if (all : bool) then bool_decide (length done = length queries) else is_cancelled tok s)
  | _ => λ _, true
  end x.

(** How a call goes on. *)
Inductive Move := MGo | MAnswer (r : WorldReply) | MCancelled.
Definition set_lock (l : nat) (b : bool) s : SessionStore :=
  MkStore (sessions s) (session_locks s) (active_stream_cancels s) (<[l := b]> (locks s)) (tokens s) (now s) (uuids s).
Definition release (held : option nat) s : SessionStore := match held with Some l => set_lock l false s | None => s end.

Record Moved (A : Type) := MkMoved { mv_call : C A; mv_store : SessionStore; mv_said : list SseEvent; mv_lock : option nat }.
Arguments MkMoved {A}.
Arguments mv_call {A}.
Arguments mv_store {A}.
Arguments mv_said {A}.
Arguments mv_lock {A}.
Definition move {A} (m : Move) (p : C A) s : option (Moved A) :=
  match p, m with
  | CAct upd k, MGo => Some (MkMoved (k s) (upd s) [] None)
  | CSay o k, MGo => Some (MkMoved k s [o] None)
  | CLock l k, MGo => if decide (locks s !! l = Some false) then Some (MkMoved k (set_lock l true s) [] (Some l)) else None
  | CAsk q k, MAnswer r => x ← answer q r; if permits s q x then Some (MkMoved (k x) s [] None) else None
  | CSelect _ q _ k, MAnswer r => x ← answer q r; if permits s q x then Some (MkMoved (k x) s [] None) else None
  | CSelect tok _ c _, MCancelled => if is_cancelled tok s then Some (MkMoved c s [] None) else None
  | _, _ => None
  end.

(** A handler of [prompt_stream] with the lock it holds; the task of a stream
    with what it said; one whose lock is released but whose deferred
    [clear_active_stream_cancel] has not run yet (the lock is declared after it);
    any other handler; and what is over, with its response or what it said, and
    whether it panicked. *)
Inductive Task :=
| TPrompt (id : string) (held : option nat) (p : C HandlerEnd)
| TStream (id : string) (held : nat) (p : C unit) (said : list SseEvent)
| TLeaving (id : string) (said : list SseEvent) (panicked : bool)
| TSimple (p : C (Reply J))
| TOver (reply : option (Reply J)) (said : list SseEvent) (panicked : bool).
Record Serve := MkServe { sv_store : SessionStore; sv_tasks : list Task }.

Inductive Op :=
| OPromptStream (token : AccessToken) (id message : string)
| OPrompt (token : AccessToken) (id message : string) (stream : bool)
| OCurrent (token : AccessToken)
| OCreate (token : AccessToken) (api_key : string) (agent_endpoint : option string)
| OGet (token : AccessToken) (id : string)
| ODelete (token : AccessToken) (id : string)
| OMessages (token : AccessToken) (id : string) (limit : nat)
| OInterrupt (token : AccessToken) (id : string)
| OCleanup.
Definition start (op : Op) : Task :=
  match op with
  | OPromptStream token id message => TPrompt id None (PromptStream token id message)
  | OPrompt token id message stream => TSimple (Prompt token id message stream)
  | OCurrent token => TSimple (GetCurrentSession token)
  | OCreate token api_key ep => TSimple (CreateSession token api_key ep)
  | OGet token id => TSimple (GetSession token id)
  | ODelete token id => TSimple (DeleteSession token id)
  | OMessages token id limit => TSimple (GetSessionMessages token id limit)
  | OInterrupt token id => TSimple (InterruptSession token id)
  | OCleanup => TSimple (_ ← CleanupTimedOutSessions; mret RNoContent)
  end.

Definition move_task (m : Move) (t : Task) s : option (Task * SessionStore) :=
  match t with
  | TPrompt id held p =>
      r ← move m p s;
      Some (TPrompt id (match mv_lock r with Some l => Some l | None => held end) (mv_call r), mv_store r)
  | TStream id l p said => r ← move m p s; Some (TStream id l (mv_call r) (said ++ mv_said r), mv_store r)
  | TSimple p => r ← move m p s; Some (TSimple (mv_call r), mv_store r)
  | TLeaving _ _ _ | TOver _ _ _ => None
  end.
(** The end of a task: its locals are dropped, last declared first. *)
Definition end_task (t : Task) s : option (Task * SessionStore) :=
  match t with
  | TPrompt id held (CRet (HReply r)) => Some (TOver (Some r) [] false, release held s)
  | TPrompt id (Some l) (CRet (HStream tn)) => Some (TStream id l (stream_task tn) [], s)
  | TPrompt id held (CPanic _) => Some (TOver None [] true, release held s)
  | TStream id l (CRet _) said => Some (TLeaving id said false, set_lock l false s)
  | TStream id l (CPanic _) said => Some (TLeaving id said true, set_lock l false s)
  | TLeaving id said b => Some (TOver None said b, clear_active_stream_cancel id s)
  | TSimple (CRet r) => Some (TOver (Some r) [] false, s)
  | TSimple (CPanic _) => Some (TOver None [] true, s)
  | _ => None
  end.
(** The client of a handler goes away. *)
Definition drop_task (t : Task) s : option (Task * SessionStore) :=
  match t with
  | TPrompt id held _ => Some (TOver None [] false, release held s)
  | TSimple _ => Some (TOver None [] false, s)
  | _ => None
  end.

Inductive SEvent :=
| EStart (op : Op)
| EMove (n : nat) (m : Move)
| EEnd (n : nat)
| EDrop (n : nat)
| ETime (t : Z).
Definition on_task (n : nat) (f : Task → SessionStore → option (Task * SessionStore)) (sv : Serve) : Serve :=
  match (t ← sv_tasks sv !! n; f t (sv_store sv)) with
  | Some (t, s) => MkServe s (<[n := t]> (sv_tasks sv))
  | None => sv
  end.
Definition sv_step (ev : SEvent) (sv : Serve) : Serve :=
  match ev with
  | EStart op => MkServe (sv_store sv) (sv_tasks sv ++ [start op])
  | EMove n m => on_task n (move_task m) sv
  | EEnd n => on_task n end_task sv
  | EDrop n => on_task n drop_task sv
  | ETime t => MkServe (set_now t (sv_store sv)) (sv_tasks sv)
  end.
Definition sv_init : Serve := MkServe SessionStore_New [].
Definition sv_run (l : list SEvent) : Serve := foldl (λ sv ev, sv_step ev sv) sv_init l.
(** Runs without prompts that have no stream, which do not take the session's lock. *)
Definition streamed (l : list SEvent) : Prop := ∀ token id message stream, EStart (OPrompt token id message stream) ∉ l.
End runs.
Arguments MkMoved {J A}.
Arguments mv_call {J A}.
Arguments mv_store {J A}.
Arguments mv_said {J A}.
Arguments mv_lock {J A}.
