(* ===== verification/SessionInv.v ===== *)
(** * What holds of sessions while turns are taken

    A transcript is a sequence of turns; what the model is sent is the
    transcript, from some message on and after a summary of the rest.  [at_] is
    what a task knows of the store, by how far it is: before its turn, waiting
    for the lock, or inside the turn, where it knows the session's content.
    [may] is what its actions may do to what the others know. *)

From S2P Require Import Prelude.
From S2P Require Import Text.
From S2P Require Import BTree.
From S2P Require Import Calls.
From S2P Require Import ChatStream.
From S2P Require Import Session.

Lemma sublist_fmap_ {A B} (f : A → B) (l1 l2 : list A) : l1 `sublist_of` l2 → f <$> l1 `sublist_of` f <$> l2.
Proof. induction 1; csimpl; by constructor. Qed.
Lemma NoDup_fmap_filter {A B} (f : A → B) (P : A → Prop) `{∀ y, Decision (P y)} (l : list A) :
  NoDup (f <$> l) → NoDup (f <$> filter P l).
Proof. intros Hl. eapply sublist_NoDup; [exact Hl|]. apply sublist_fmap_, sublist_filter. Qed.

Section inv.
Context {J : Type} {crates : ChatCrates J} {sizes : ChatSizes J} {order : SessionOrder J} {config : ChatConfig}
  {sizes_ok : ChatSizesSpec J}.
Abbreviation Message := (Message J).
Abbreviation Session := (Session J).
Abbreviation SessionStore := (SessionStore J).
Implicit Types (s : SessionStore) (se : Session) (id x : string) (mine : gset string).

(** ** Transcripts *)

(** The transcript without the markers of compaction. *)
Definition visible se : list Message := filter (λ m, m_role m ≠ "compaction") (s_messages se).
(** A prompt and its answer, or a prompt that got none. *)
Inductive turns : list Message → Prop :=
| turns_nil : turns []
| turns_asked l u : turns l → m_role u = "user" → turns (l ++ [u])
| turns_answered l u a : turns l → m_role u = "user" → m_role a = "assistant" → turns (l ++ [u; a]).
(** The context of the model: the transcript, or a summary and the last part of it. *)
Definition in_step se : Prop :=
  s_model_messages se = visible se ∨
  ∃ sum k, s_model_messages se = sum :: drop k (visible se) ∧ k ≤ length (visible se)
    ∧ m_role sum = "system" ∧ m_id sum ∉ m_id <$> s_messages se.
Record wf se : Prop := MkWf {
  wf_nodup : NoDup (m_id <$> s_messages se);
  wf_turns : turns (visible se);
  wf_context : in_step se;
}.
(** The last message is the prompt [u], which waits for its answer. *)
Definition asked (u : string) se : Prop :=
  ∃ l um, visible se = l ++ [um] ∧ turns l ∧ m_role um = "user" ∧ m_id um = u.

Definition ids se : list string := (m_id <$> s_messages se) ++ (m_id <$> s_model_messages se).

Lemma visible_app se l : filter (λ m : Message, m_role m ≠ "compaction") (s_messages se ++ l) = visible se ++ filter (λ m, m_role m ≠ "compaction") l.
Proof. apply filter_app. Qed.
Lemma visible_ids se m : m ∈ visible se → m_id m ∈ m_id <$> s_messages se.
Proof. intros [_ Hm]%list_elem_of_filter. by apply list_elem_of_fmap_2. Qed.

(** *** A message is added *)

Definition with_message (m : Message) (t : Z) se : Session :=
  put_messages (s_messages se ++ [m]) (s_model_messages se ++ [m]) t (s_last_prompt_tokens se) se.
Lemma with_message_visible m t se : m_role m ≠ "compaction" → visible (with_message m t se) = visible se ++ [m].
Proof. intros Hm. unfold visible at 1. cbn. by rewrite visible_app, filter_cons_True, filter_nil. Qed.
Lemma with_message_wf m t se :
  wf se → m_id m ∉ ids se → m_role m ≠ "compaction" → turns (visible se ++ [m]) → wf (with_message m t se).
Proof.
  intros [Hnd Ht Hc] Hm Hr Htm. unfold ids in Hm. rewrite not_elem_of_app in Hm. destruct Hm as [Hm1 Hm2]. split.
  - cbn. rewrite fmap_app. apply NoDup_app. split_and!; [done| |apply NoDup_singleton].
    intros x Hx ->%list_elem_of_singleton. done.
  - by rewrite with_message_visible.
  - unfold in_step. rewrite with_message_visible by done. cbn.
    destruct Hc as [->|(sum & k & Hk & Hle & Hsum & Hid)]; [by left|]. right. exists sum, k.
    rewrite Hk, drop_app_le by done. split_and!; [done| |done|].
    + rewrite length_app. lia.
    + rewrite fmap_app, not_elem_of_app. split; [done|]. intros Heq%list_elem_of_singleton.
      destruct Hm2. rewrite Hk, <-Heq. cbn. by left.
Qed.
Lemma with_message_ids m t se x : x ∈ ids (with_message m t se) → x ∈ ids se ∨ x = m_id m.
Proof. unfold ids. cbn. rewrite !fmap_app. set_solver. Qed.

(** *** A message is taken back *)

Definition without_message (u : string) (t : Z) se : Session :=
  put_messages (filter (λ m, m_id m ≠ u) (s_messages se)) (filter (λ m, m_id m ≠ u) (s_model_messages se)) t
    (s_last_prompt_tokens se) se.
Lemma without_message_ids u t se x : x ∈ ids (without_message u t se) → x ∈ ids se.
Proof.
  unfold ids. cbn. rewrite !elem_of_app, !list_elem_of_fmap.
  intros [(m & -> & [_ Hm]%list_elem_of_filter)|(m & -> & [_ Hm]%list_elem_of_filter)]; eauto.
Qed.
Lemma filter_comm_ {A} (P Q : A → Prop) `{∀ y, Decision (P y), ∀ y, Decision (Q y)} (l : list A) :
  filter P (filter Q l) = filter Q (filter P l).
Proof.
  induction l as [|a l IH]; [done|]. destruct (decide (P a)), (decide (Q a)).
  all: rewrite ?(filter_cons_True P), ?(filter_cons_False P), ?(filter_cons_True Q), ?(filter_cons_False Q) by done.
  all: rewrite ?(filter_cons_True P), ?(filter_cons_False P), ?(filter_cons_True Q), ?(filter_cons_False Q) by done.
  all: by rewrite ?IH.
Qed.
Lemma visible_nodup se : wf se → NoDup (m_id <$> visible se).
Proof. intros [Hnd _ _]. by apply NoDup_fmap_filter. Qed.
Lemma without_asked u se l um :
  NoDup (m_id <$> visible se) → visible se = l ++ [um] → m_id um = u → filter (λ m, m_id m ≠ u) (visible se) = l ∧ u ∉ m_id <$> l.
Proof.
  intros Hnd Hv <-. rewrite Hv, fmap_app in Hnd. apply NoDup_app in Hnd as (_ & Hd & _).
  assert (m_id um ∉ m_id <$> l) as Hn.
  { intros Hin. apply (Hd _ Hin). cbn. by left. }
  split; [|done]. rewrite Hv, filter_app, filter_cons_False, filter_nil, app_nil_r by auto.
  apply filter_all. intros m Hm Heq. apply Hn. rewrite <-Heq. by apply list_elem_of_fmap_2.
Qed.
Lemma without_message_wf u t se : wf se → asked u se → wf (without_message u t se).
Proof.
  intros Hwf (l & um & Hv & Hl & Hr & Hu). destruct Hwf as [Hnd Ht Hc] eqn:E. clear E.
  destruct (without_asked u se l um) as [Hf Hn]; [by apply visible_nodup|done|done|].
  assert (visible (without_message u t se) = l) as Hv'.
  { unfold visible. cbn. rewrite filter_comm_. exact Hf. }
  split.
  - by apply NoDup_fmap_filter.
  - by rewrite Hv'.
  - unfold in_step. rewrite Hv'. cbn. destruct Hc as [->|(sum & k & Hk & Hle & Hsum & Hid)]; [by left|].
    right. exists sum, (k `min` length l). rewrite Hk, Hv.
    assert (m_id sum ≠ u) as Hne.
    { intros Heq. apply Hid. rewrite Heq, <-Hu. apply visible_ids. rewrite Hv. apply elem_of_app. right. by left. }
    rewrite filter_cons_True by done. split_and!; [|lia|done|].
    + f_equal. destruct (decide (k ≤ length l)).
      * rewrite drop_app_le by done. rewrite filter_app, filter_cons_False, filter_nil, app_nil_r by auto.
        rewrite Nat.min_l by lia. apply filter_all. intros m Hm Heq. apply Hn. rewrite <-Heq.
        apply list_elem_of_fmap_2. by eapply elem_of_sublist; [|apply sublist_drop].
      * rewrite (drop_ge (l ++ [um])) by (rewrite length_app; cbn; lia). by rewrite drop_ge by lia.
    + intros (m & Heq & [_ Hm]%list_elem_of_filter)%list_elem_of_fmap. apply Hid. rewrite Heq. by apply list_elem_of_fmap_2.
Qed.

(** *** The context is compacted, and a marker left *)

Definition with_summary (sum : Message) (tail : list Message) (t : Z) se : Session := put_messages (s_messages se) (sum :: tail) t 0 se.
Definition with_marker (m : Message) (t : Z) se : Session :=
  put_messages (s_messages se ++ [m]) (s_model_messages se) t (s_last_prompt_tokens se) se.
Lemma with_summary_wf sum start t se :
  wf se → m_role sum = "system" → m_id sum ∉ ids se → 0 < start ≤ length (s_model_messages se) →
  wf (with_summary sum (drop start (s_model_messages se)) t se).
Proof.
  intros [Hnd Ht Hc] Hr Hid [Hpos Hle]. unfold ids in Hid. rewrite not_elem_of_app in Hid. destruct Hid as [Hid _].
  split; [done..|]. right. unfold with_summary. cbn. fold (visible se).
  destruct Hc as [Heq|(sum0 & k & Hk & Hlk & _ & _)].
  - exists sum, start. by rewrite Heq in *.
  - destruct start as [|start]; [lia|]. exists sum, (k + start). rewrite Hk in *. cbn [drop length] in *. rewrite drop_drop.
    rewrite length_drop in Hle. split_and!; [done|lia|done|done].
Qed.
Lemma with_summary_ids sum start t se x :
  x ∈ ids (with_summary sum (drop start (s_model_messages se)) t se) → x ∈ ids se ∨ x = m_id sum.
Proof.
  unfold ids. cbn. rewrite !elem_of_app, elem_of_cons. intros [?|[?|Hx]]; [tauto..|].
  left. right. eapply elem_of_sublist; [exact Hx|]. apply sublist_fmap_, sublist_drop.
Qed.
Lemma with_marker_visible m t se : m_role m = "compaction" → visible (with_marker m t se) = visible se.
Proof. intros Hm. unfold visible at 1. cbn. rewrite visible_app, filter_cons_False, filter_nil by auto. apply app_nil_r. Qed.
Lemma with_marker_wf m t se : wf se → m_role m = "compaction" → m_id m ∉ ids se → wf (with_marker m t se).
Proof.
  intros [Hnd Ht Hc] Hr Hid. unfold ids in Hid. rewrite not_elem_of_app in Hid. destruct Hid as [Hm1 Hm2]. split.
  - cbn. rewrite fmap_app. apply NoDup_app. split_and!; [done| |apply NoDup_singleton].
    intros x Hx ->%list_elem_of_singleton. done.
  - by rewrite with_marker_visible.
  - unfold in_step. rewrite with_marker_visible by done. cbn.
    destruct Hc as [->|(sum & k & Hk & Hle & Hsum & Hs)]; [by left|]. right. exists sum, k.
    split_and!; [done..|]. rewrite fmap_app, not_elem_of_app. split; [done|]. intros Heq%list_elem_of_singleton.
    destruct Hm2. rewrite Hk, <-Heq. cbn. by left.
Qed.
Lemma with_marker_ids m t se x : x ∈ ids (with_marker m t se) → x ∈ ids se ∨ x = m_id m.
Proof. unfold ids. cbn. rewrite !fmap_app. set_solver. Qed.
Lemma same_messages_wf se se' :
  s_messages se' = s_messages se → s_model_messages se' = s_model_messages se → wf se → wf se'.
Proof. intros H1 H2 [Hnd Ht Hc]. split; unfold visible, in_step, visible in *; by rewrite ?H1, ?H2. Qed.

(** ** What a task knows *)

Definition drawn x s : Prop := ∃ n, n < uuids s ∧ x = uuid n.
Definition placed x s : Prop := ∃ id se, sessions s !! id = Some se ∧ x ∈ ids se.
Record good s : Prop := MkGood {
  good_session id se : sessions s !! id = Some se → s_id se = id ∧ drawn id s ∧ wf se ∧ ∀ x, x ∈ ids se → drawn x s;
  good_locks id l : session_locks s !! id = Some l → l < length (locks s);
}.
(** [mine]: the uuids a task has drawn and not used yet. *)
Inductive Pos :=
| Outside (seen : bool) (mine : gset string)
| Waiting (l : nat) (mine : gset string)
| Gone (mine : gset string)                 (* the session was there and is not any more *)
| Inside (se : Session) (mine : gset string).
Implicit Types (v : Pos).
Definition mine_of v : gset string := match v with Outside _ m | Waiting _ m | Gone m | Inside _ m => m end.
Definition is_inside v : bool := match v with Inside _ _ => true | _ => false end.
(** Whether the task has seen that its session was there. *)
Definition has_seen v : bool := match v with Outside b _ => b | _ => true end.
Definition unused s mine : Prop := ∀ x, x ∈ mine → drawn x s ∧ sessions s !! x = None ∧ ¬ placed x s.
(** [l] is the lock of the session, as long as there is one. *)
Definition lock_of id (l : nat) s : Prop := l < length (locks s) ∧ ∀ se, sessions s !! id = Some se → session_locks s !! id = Some l.

Section of_session.
Context (id : string).
Definition at_ s v : Prop :=
  good s ∧ unused s (mine_of v) ∧
  match v with
  | Outside seen _ => seen = true → drawn id s
  | Waiting l _ => drawn id s ∧ lock_of id l s
  | Gone _ => drawn id s ∧ sessions s !! id = None
  | Inside se mine =>
      drawn id s ∧ (sessions s !! id = Some se ∨ sessions s !! id = None) ∧ wf se ∧
      ∀ x, x ∈ ids se → drawn x s ∧ (x ∉ mine)
  end.
Record may s v s' v' : Prop := MkMay {
  may_uuids : uuids s ≤ uuids s';
  may_heap : locks s `prefix_of` locks s';
  may_mine x : x ∈ mine_of v' → x ∈ mine_of v ∨ (drawn x s' ∧ ¬ drawn x s);
  may_keys x : drawn x s → x ∉ mine_of v → sessions s !! x = None → sessions s' !! x = None;
  may_place x : drawn x s → x ∉ mine_of v → placed x s' → placed x s;
  may_content id' se : sessions s' !! id' = Some se → (is_inside v = true → id' ≠ id) →
    sessions s !! id' = Some se ∨ sessions s !! id' = None;
  may_locks id' se l : sessions s' !! id' = Some se → session_locks s !! id' = Some l → session_locks s' !! id' = Some l;
  may_inside : is_inside v' = is_inside v;
  may_seen : has_seen v' = true → has_seen v = true ∨ is_Some (sessions s !! id);
}.
Definition waits (l : nat) v : Prop := match v with Waiting l' _ => l' = l | _ => False end.
Definition got (l : nat) v v' : Prop := match v with Waiting _ mine => ∃ se, v' = Inside se mine | _ => False end.

Lemma drawn_mono s s' x : uuids s ≤ uuids s' → drawn x s → drawn x s'.
Proof. intros Hle (n & Hn & ->). exists n. split; [lia|done]. Qed.
Lemma may_refl s v : may s v s v.
Proof. split; auto. Qed.

(** Inside a turn: an action on the session, with uuids drawn, changes it to
    [se'] where it is still there. *)
Lemma inside_step s s' se mine se' mine' :
  at_ s (Inside se mine) →
  sessions s' = alter (λ _, se') id (sessions s) → session_locks s' = session_locks s → locks s' = locks s →
  uuids s ≤ uuids s' →
  wf se' → s_id se' = s_id se →
  (∀ x, x ∈ ids se' → x ∈ ids se ∨ x ∈ mine ∨ (drawn x s' ∧ ¬ drawn x s)) →
  (∀ x, x ∈ mine' → (x ∉ ids se') ∧ (x ∈ mine ∨ (drawn x s' ∧ ¬ drawn x s))) →
  at_ s' (Inside se' mine') ∧ may s (Inside se mine) s' (Inside se' mine').
Proof.
  intros (Hg & Hu & Hid & Hse & Hwf & Hids) Es El Eh En Hwf' Esid Hnew Hmine'.
  assert (∀ x, drawn x s → drawn x s') as Hd by (intros x; by apply drawn_mono).
  assert (∀ x, x ∈ ids se' → drawn x s') as Hd'.
  { intros x [Hx|[Hx|[Hx _]]]%Hnew; [by apply Hd, Hids|by apply Hd, Hu|done]. }
  assert (∀ id1 se1, sessions s' !! id1 = Some se1 → (id1 = id ∧ se1 = se' ∧ sessions s !! id = Some se) ∨ (id1 ≠ id ∧ sessions s !! id1 = Some se1)) as Hin.
  { intros id1 se1. rewrite Es. destruct (decide (id1 = id)) as [->|Hne].
    - rewrite lookup_alter_eq. destruct Hse as [Hse|Hse]; rewrite Hse; [|done]. intros [= <-]. auto.
    - rewrite lookup_alter_ne by done. auto. }
  assert (∀ x, drawn x s → x ∉ mine → placed x s' → placed x s) as Hp.
  { intros x Hx Hm (id1 & se1 & [(-> & -> & Hs)|[_ Hs]]%Hin & Hx1); [|by exists id1, se1].
    apply Hnew in Hx1 as [?|[?|[_ ?]]]; [by exists id, se|done..]. }
  split.
  - split_and!.
    + split.
      * intros id1 se1 [(-> & -> & Hs)|[_ Hs]]%Hin.
        { apply Hg in Hs as (? & ? & _). rewrite Esid. split_and!; auto. }
        apply Hg in Hs as (? & ? & ? & ?). split_and!; auto.
      * intros id1 l. rewrite El, Eh. apply Hg.
    + intros x [Hni Hx]%Hmine'. destruct Hx as [Hx|[Hx Hn]].
      * destruct (Hu x Hx) as (? & Hk & Hpl). split_and!; [by apply Hd| |].
        { rewrite Es, lookup_alter_None; done. }
        intros (id1 & se1 & [(-> & -> & Hs)|[_ Hs]]%Hin & Hx1); [done|]. apply Hpl. by exists id1, se1.
      * split_and!; [done| |].
        { apply eq_None_not_Some. intros [se1 [(-> & _ & _)|[_ Hs]]%Hin]; [done|]. apply Hg in Hs as (_ & ? & _). done. }
        intros (id1 & se1 & [(-> & -> & Hs)|[_ Hs]]%Hin & Hx1); [done|]. apply Hg in Hs as (_ & _ & _ & Hi). by apply Hn, Hi.
    + auto.
    + rewrite Es. destruct Hse as [Hse|Hse]; [left; by rewrite lookup_alter_eq, Hse|right; by rewrite lookup_alter_eq, Hse].
    + done.
    + intros x Hx. split; [by apply Hd'|]. by intros [? _]%Hmine'.
  - split; cbn; try done.
    + by rewrite Eh.
    + intros x [_ Hx]%Hmine'. done.
    + intros x Hx Hm Hk. rewrite Es. by apply lookup_alter_None.
    + intros id1 se1 [(-> & -> & Hs)|[_ Hs]]%Hin Hi; [by destruct Hi|auto].
    + intros id1 se1 l _. by rewrite El.
    + auto.
Qed.

(** Any place: sessions are only taken away, and keep their locks. *)
Lemma shrink_step s s' v :
  at_ s v →
  (∀ id1 se1, sessions s' !! id1 = Some se1 → sessions s !! id1 = Some se1) →
  (∀ id1 l, session_locks s' !! id1 = Some l → session_locks s !! id1 = Some l ∨ l < length (locks s')) →
  (∀ id1 se1 l, sessions s' !! id1 = Some se1 → session_locks s !! id1 = Some l → session_locks s' !! id1 = Some l) →
  locks s `prefix_of` locks s' → uuids s ≤ uuids s' →
  at_ s' v ∧ may s v s' v.
Proof.
  intros (Hg & Hu & Hv) Hs Hl1 Hl2 Hp Hn.
  assert (∀ x, drawn x s → drawn x s') as Hd by (intros x; by apply drawn_mono).
  assert (∀ x, placed x s' → placed x s) as Hpl by (intros x (id1 & se1 & ?%Hs & ?); by exists id1, se1).
  assert (∀ x, sessions s !! x = None → sessions s' !! x = None) as Hnone.
  { intros x Hx. apply eq_None_not_Some. intros [se ?%Hs]. congruence. }
  apply prefix_length in Hp as Hlen.
  split.
  - split_and!.
    + split.
      * intros id1 se1 (? & ? & ? & ?)%Hs%Hg. split_and!; auto.
      * intros id1 l [Hl%Hg|?]%Hl1; [lia|done].
    + intros x Hx. destruct (Hu x Hx) as (? & ? & ?). split_and!; auto.
    + destruct v as [seen m|l m|m|se m]; [auto| |destruct Hv; auto|].
      * destruct Hv as (? & ? & Hlk). split; [auto|]. split; [lia|]. intros se Hse. eapply Hl2; [done|].
        eapply Hlk. by apply Hs.
      * destruct Hv as (? & Hse & ? & Hids). split_and!; [auto| |done|].
        { destruct Hse as [Hse|Hse]; [|right; auto]. destruct (sessions s' !! id) as [se'|] eqn:E; [|by right].
          left. apply Hs in E. congruence. }
        intros x Hx. destruct (Hids x Hx). auto.
  - split; auto.
Qed.
(** Before a turn: a uuid is drawn. *)
Lemma draw_step s b mine :
  at_ s (Outside b mine) →
  at_ (count_uuid s) (Outside b ({[uuid (uuids s)]} ∪ mine)) ∧ may s (Outside b mine) (count_uuid s) (Outside b ({[uuid (uuids s)]} ∪ mine)).
Proof.
  intros (Hg & Hu & Hv).
  assert (drawn (uuid (uuids s)) (count_uuid s)) as Hnew by (exists (uuids s); split; [cbn; lia|done]).
  assert (¬ drawn (uuid (uuids s)) s) as Hold by (intros (n & Hn & ?%(inj uuid)); lia).
  assert (∀ x, drawn x s → drawn x (count_uuid s)) as Hd by (intros x; apply drawn_mono; cbn; lia).
  split.
  - split_and!.
    + split; [|apply Hg]. intros id1 se1 (? & ? & ? & ?)%Hg. split_and!; auto.
    + intros x [->%elem_of_singleton|Hx]%elem_of_union.
      * split_and!; [done| |].
        { apply eq_None_not_Some. intros [se (_ & ? & _)%Hg]. done. }
        intros (id1 & se1 & (_ & _ & _ & Hi)%Hg & Hx). by apply Hold, Hi.
      * destruct (Hu x Hx) as (? & ? & ?). split_and!; auto.
    + cbn. auto.
  - split; cbn; try done; auto.
    intros x [->%elem_of_singleton|Hx]%elem_of_union; auto.
Qed.

(** ** What the others do leaves that true *)

End of_session.

Lemma others_step id id0 s w v s' v' :
  at_ id s w → may id0 s v s' v' → good s' →
  (∀ x, x ∈ mine_of w → x ∉ mine_of v) → (has_seen w = true → id ∉ mine_of v) →
  (is_inside v = true → is_inside w = true → id0 = id → sessions s !! id = None) →
  at_ id s' w.
Proof.
  intros (Hg & Hu & Hw) Hm Hg' Hdisj Hseen Hin.
  assert (∀ x, drawn x s → drawn x s') as Hd by (intros x; apply drawn_mono, Hm).
  pose proof (prefix_length _ _ (may_heap _ _ _ _ _ Hm)) as Hlen.
  split_and!; [done| |].
  { intros x Hx. destruct (Hu x Hx) as (? & ? & Hp). split_and!; [auto|apply Hm; auto|].
    intros Hp'. apply Hp. eapply may_place; eauto. }
  assert (∀ se1, drawn id s → id ∉ mine_of v → sessions s' !! id = Some se1 → is_Some (sessions s !! id)) as Hback.
  { intros se1 Hdr Hni Hse. apply not_eq_None_Some. intros Hn. rewrite (may_keys _ _ _ _ _ Hm id) in Hse; done. }
  destruct w as [seen m|l m|m|se m].
  - intros Hs. auto.
  - destruct Hw as (? & ? & Hlk). split; [auto|]. split; [lia|]. intros se1 Hse.
    destruct (Hback se1) as [se0 Hse0]; [auto..|]. eapply may_locks; eauto.
  - destruct Hw as [Hdr Hn]. split; [auto|]. apply eq_None_not_Some. intros [se1 Hse].
    destruct (Hback se1) as [se0 Hse0]; [auto..|]. congruence.
  - destruct Hw as (Hdr & Hse & ? & Hids). split_and!; [auto| |done|].
    + destruct (sessions s' !! id) as [se1|] eqn:E; [|by right]. left. f_equal.
      destruct (Hback se1) as [se0 Hse0]; [auto..|]. destruct Hse as [Hse|Hse]; [|congruence].
      apply (may_content _ _ _ _ _ Hm) in E as [E|E]; [congruence|congruence|].
      intros Hi ->. rewrite Hin in Hse; done.
    + intros x Hx. destruct (Hids x Hx). auto.
Qed.
End inv.
