(* ===== verification/SessionSteps.v ===== *)
(** * Every action of a turn keeps what holds of sessions *)

From S2P Require Import Prelude.
From S2P Require Import Text.
From S2P Require Import BTree.
From S2P Require Import Calls.
From S2P Require Import ChatStream.
From S2P Require Import ChatStreamProps.
From S2P Require Import Session.
From S2P Require Import SessionTurn.
From S2P Require Import SessionInv.

Section steps.
Context {J : Type} {crates : ChatCrates J} {sizes : ChatSizes J} {order : SessionOrder J} {config : ChatConfig}
  {sizes_ok : ChatSizesSpec J}.
Abbreviation Message := (Message J).
Abbreviation Session := (Session J).
Abbreviation SessionStore := (SessionStore J).
Abbreviation C := (call SessionStore (Question J) SseEvent).
Abbreviation Pos := (SessionInv.Pos (J:=J)).
Implicit Types (s : SessionStore) (se : Session) (mine : gset string) (v : Pos).

(** What [alter] does to a key whose value, if any, is known. *)
Lemma alter_known (f : Session → Session) (i : string) se (m : gmap string Session) :
  m !! i = Some se ∨ m !! i = None → alter f i m = alter (λ _, f se) i m.
Proof. intros [Hi|Hi]; apply map_eq; intros j; destruct (decide (j = i)) as [->|]; by rewrite ?lookup_alter_eq, ?lookup_alter_ne, ?Hi. Qed.
Lemma alter_same (i : string) se (m : gmap string Session) : m !! i = Some se ∨ m !! i = None → alter (λ _, se) i m = m.
Proof. intros [Hi|Hi]; apply map_eq; intros j; destruct (decide (j = i)) as [->|]; by rewrite ?lookup_alter_eq, ?lookup_alter_ne, ?Hi. Qed.

Section of_session.
Context (id : string) (ws : nat → Pos → Prop) (gs : nat → Pos → Pos → Prop).
Abbreviation WP := (wp (Q:=Question J) (O:=SseEvent) (at_ id) (may id) ws gs).

(** ** Single actions *)

Record quiet s s' : Prop := MkQuiet {
  quiet_sessions : sessions s' = sessions s;
  quiet_session_locks : session_locks s' = session_locks s;
  quiet_locks : locks s' = locks s;
  quiet_uuids : uuids s' = uuids s;
}.
Lemma quiet_step s s' v : quiet s s' → at_ id s v → at_ id s' v ∧ may id s v s' v.
Proof.
  intros [Es El Eh Eu] Hv. apply shrink_step; rewrite ?Es, ?El, ?Eh, ?Eu; auto.
Qed.
Lemma wp_quiet (f : SessionStore → SessionStore) v (Φ : unit → Pos → Prop) :
  (∀ s, quiet s (f s)) → Φ tt v → WP (act f) v Φ.
Proof. intros Hq HΦ. apply wp_act. intros s Hs. exists v. destruct (quiet_step s (f s) v); auto. Qed.
Lemma wp_quiet_once {A} (f : SessionStore → A * SessionStore) v (Φ : A → Pos → Prop) :
  (∀ s, quiet s (f s).2) → (∀ a, Φ a v) → WP (once f) v Φ.
Proof. intros Hq HΦ. apply wp_once. intros s Hs. exists v. destruct (quiet_step s (f s).2 v); auto. Qed.
Lemma clear_quiet s i : quiet s (clear_active_stream_cancel i s).
Proof. unfold clear_active_stream_cancel. by destruct (active_stream_cancels s !! i). Qed.
Lemma wp_see {A} (f : SessionStore → A) v (Φ : A → Pos → Prop) : (∀ a, Φ a v) → WP (look f) v Φ.
Proof. intros HΦ. apply wp_look; [intros s; apply may_refl|auto]. Qed.

Section inside.
Context (mine : gset string).
Abbreviation In se := (Inside se mine).
(** Whatever the session is then. *)
Definition still {A} (a : A) v : Prop := ∃ se, v = In se.

Lemma wp_get se (Φ : option Session → Pos → Prop) :
  Φ (Some se) (In se) → Φ None (In se) → WP (look (Store_GetSession id)) (In se) Φ.
Proof.
  intros H1 H2. apply wp_look; [intros s; apply may_refl|]. intros s (_ & _ & _ & [Hs|Hs] & _); unfold Store_GetSession; by rewrite Hs.
Qed.
Lemma wp_model_messages se (Φ : list Message → Pos → Prop) :
  (∀ l, Φ l (In se)) → WP (get_model_messages id) (In se) Φ.
Proof. intros HΦ. apply wp_then, wp_see. intros a. apply HΦ. Qed.

Lemma wp_draw_inside se (Φ : string → Pos → Prop) :
  (∀ mid, mid ∉ ids se → mid ∉ mine → Φ mid (Inside se ({[mid]} ∪ mine))) →
  WP (once Uuid_new_v4) (In se) Φ.
Proof.
  intros HΦ. apply wp_once. intros s Hs. cbn.
  assert (¬ drawn (uuid (uuids s)) s) as Hold by (intros (n & Hn & ?%(inj uuid)); lia).
  assert (drawn (uuid (uuids s)) (count_uuid s)) as Hnew by (exists (uuids s); split; [cbn; lia|done]).
  destruct Hs as (Hg & Hu & Hd & Hse & Hwf & Hids) eqn:E. clear E.
  exists (Inside se ({[uuid (uuids s)]} ∪ mine)).
  destruct (inside_step id s (count_uuid s) se mine se ({[uuid (uuids s)]} ∪ mine)) as [? ?]; try done; cbn; auto.
  - by rewrite alter_same.
  - intros x [->%elem_of_singleton|Hx]%elem_of_union; split; auto.
    + intros Hx. by destruct (Hids _ Hx).
    + intros Hx'. by destruct (Hids _ Hx').
  - split_and!; [done..|]. apply HΦ.
    + intros Hx. by destruct (Hids _ Hx).
    + intros Hx. by destruct (Hu _ Hx).
Qed.
Lemma wp_new_message se role content (Φ : Message → Pos → Prop) :
  (∀ m, m_id m ∉ ids se → m_id m ∉ mine → m_role m = role → Φ m (Inside se ({[m_id m]} ∪ mine))) →
  WP (new_message role content) (In se) Φ.
Proof.
  intros HΦ. apply wp_then, wp_draw_inside. intros mid H1 H2. apply wp_then, wp_see. intros t. by apply HΦ.
Qed.

(** An action on the session that draws no uuid. *)
Lemma wp_on_session f se mine' (Φ : unit → Pos → Prop) :
  (∀ t : Z, let se' := f t se in
     wf se → (∀ x, x ∈ ids se → x ∉ mine) →
     wf se' ∧ s_id se' = s_id se ∧ (∀ x, x ∈ ids se' → x ∈ ids se ∨ x ∈ mine) ∧ (∀ x, x ∈ mine' → x ∈ mine ∧ x ∉ ids se') ∧
     Φ tt (Inside se' mine')) →
  WP (act (λ s, on_session id (f (now s)) s)) (In se) Φ.
Proof.
  intros Hf. apply wp_act. intros s Hs. destruct Hs as (Hg & Hu & Hd & Hse & Hwf & Hids) eqn:E. clear E.
  destruct (Hf (now s)) as (Hwf' & Hid & Hnew & Hmine & HΦ); [done|apply Hids|]. exists (Inside (f (now s) se) mine').
  destruct (inside_step id s (on_session id (f (now s)) s) se mine (f (now s) se) mine') as [? ?]; try done.
  - by apply alter_known.
  - intros x [?|?]%Hnew; auto.
  - intros x [? ?]%Hmine. auto.
Qed.

(** ** The messages of a turn *)

Lemma wp_add se m (Φ : unit → Pos → Prop) :
  m_id m ∈ mine → m_role m ≠ "compaction" → (turns (visible se) → turns (visible se ++ [m])) →
  (∀ t, turns (visible se) → Φ tt (Inside (with_message m t se) (mine ∖ {[m_id m]}))) →
  WP (act (AddMessage id m)) (In se) Φ.
Proof.
  intros Hm Hr Ht HΦ. apply (wp_on_session (λ t, with_message m t) se (mine ∖ {[m_id m]})). intros t se' Hwf Hids.
  assert (m_id m ∉ ids se) as Hni by (intros Hx; exact (Hids _ Hx Hm)).
  split_and!; [apply with_message_wf; try done; apply Ht, Hwf|done| | |apply HΦ, Hwf].
  - intros x [?| ->]%with_message_ids; [by left|by right].
  - intros x [Hx Hn]%elem_of_difference. split; [done|]. intros [?|?]%with_message_ids; [by apply (Hids x)|set_solver].
Qed.
Lemma wp_remove se u (Φ : unit → Pos → Prop) :
  asked u se → (∀ se', Φ tt (In se')) → WP (act (RemoveMessageById id u)) (In se) Φ.
Proof.
  intros Ha HΦ. apply (wp_on_session (λ t, without_message u t) se mine). intros t se' Hwf Hids.
  split_and!; [by apply without_message_wf|done| | |apply HΦ].
  - intros x ?%without_message_ids. auto.
  - intros x Hx. split; [done|]. intros ?%without_message_ids. by apply (Hids x).
Qed.
Lemma asked_same u se se' : visible se' = visible se → asked u se → asked u se'.
Proof. intros Hv (l & um & ? & ?). exists l, um. by rewrite Hv. Qed.
Lemma wp_tokens se p (Φ : unit → Pos → Prop) :
  (∀ se', visible se' = visible se → Φ tt (In se')) → WP (act (UpdateTokens id p)) (In se) Φ.
Proof.
  intros HΦ. apply (wp_on_session (λ _ se, put_messages (s_messages se) (s_model_messages se) (s_updatedAt se) p se) se mine).
  intros t se' Hwf Hids. split_and!; [by apply (same_messages_wf se)|done|auto| |by apply HΦ].
  intros x Hx. split; [done|]. intros ?. by apply (Hids x).
Qed.
(** An action that draws the id of the message it makes. *)
Lemma wp_draws f (mk : string → Z → Session → Session) se (Φ : unit → Pos → Prop) :
  (∀ s, f s = match sessions s !! id with
              | None => s
              | Some _ => on_session id (mk (uuid (uuids s)) (now s)) (count_uuid s)
              end) →
  (∀ mid t, let se' := mk mid t se in
     wf se → mid ∉ ids se →
     wf se' ∧ s_id se' = s_id se ∧ (∀ x, x ∈ ids se' → x ∈ ids se ∨ x = mid) ∧ Φ tt (In se')) →
  Φ tt (In se) →
  WP (act f) (In se) Φ.
Proof.
  intros Hf Hmk HΦ. apply wp_act. intros s Hs. rewrite Hf.
  destruct (sessions s !! id) as [se0|] eqn:E; [|exists (In se); split_and!; [done|apply may_refl|done]].
  assert (¬ drawn (uuid (uuids s)) s) as Hold by (intros (n & Hn & ?%(inj uuid)); lia).
  assert (drawn (uuid (uuids s)) (count_uuid s)) as Hnew by (exists (uuids s); split; [cbn; lia|done]).
  destruct Hs as (Hg & Hu & Hd & Hse & Hwf & Hids) eqn:E'. clear E'.
  destruct (Hmk (uuid (uuids s)) (now s)) as (Hwf' & Hid & Hin & HΦ'); [done|by intros [? _]%Hids|].
  eexists (In _). destruct (inside_step id s (on_session id (mk (uuid (uuids s)) (now s)) (count_uuid s)) se mine
    (mk (uuid (uuids s)) (now s) se) mine) as [? ?]; try done.
  - by apply alter_known.
  - cbn. lia.
  - intros x [?| ->]%Hin; auto.
  - intros x Hx. split; [|auto]. intros [Hx'| ->]%Hin; [by apply Hids in Hx' as [_ ?]|]. by apply Hu in Hx as [? _].
Qed.
Lemma wp_replace se start summary (Φ : unit → Pos → Prop) :
  0 < start ≤ length (s_model_messages se) →
  (∀ se', visible se' = visible se → Φ tt (In se')) →
  WP (act (ReplaceModelMessagesWithSummary id summary (drop start (s_model_messages se)))) (In se) Φ.
Proof.
  intros Hst HΦ.
  apply (wp_draws _ (λ mid t, with_summary (MkMessage mid "system" summary t []) (drop start (s_model_messages se)) t)); [| |by apply HΦ].
  - intros s. unfold ReplaceModelMessagesWithSummary. by destruct (sessions s !! id).
  - intros mid t se' Hwf Hmid. split_and!; [by apply with_summary_wf|done| |by apply HΦ].
    intros x [?| ->]%with_summary_ids; auto.
Qed.
Lemma wp_marker se summary (Φ : unit → Pos → Prop) :
  (∀ se', visible se' = visible se → Φ tt (In se')) → WP (act (AppendCompactionMarker id summary)) (In se) Φ.
Proof.
  intros HΦ. apply (wp_draws _ (λ mid t, with_marker (MkMessage mid "compaction" "" t [PCompaction summary]) t)); [| |by apply HΦ].
  - intros s. unfold AppendCompactionMarker. by destruct (sessions s !! id).
  - intros mid t se' Hwf Hmid. split_and!; [by apply with_marker_wf|done| |by apply HΦ, with_marker_visible].
    intros x [?| ->]%with_marker_ids; auto.
Qed.
Lemma tail_size_le budget acc kept rev n : tail_size (J:=J) budget acc kept rev = Ok n → kept ≤ n ≤ kept + length rev.
Proof.
  revert acc kept. induction rev as [|m rev IH]; intros acc kept H; cbn in H; [injection H as <-; cbn; lia|].
  apply bind_Ok in H as (acc' & _ & H). case_decide; [injection H as <-; cbn; lia|]. apply IH in H. cbn. lia.
Qed.
Lemma wp_compact se endpoint api_key (Φ : CompactionResult → Pos → Prop) :
  (∀ r se', visible se' = visible se → Φ r (In se')) → WP (compact_session id endpoint api_key) (In se) Φ.
Proof.
  intros HΦ. apply wp_then, wp_get; [|by apply HΦ]. apply wp_then, wp_try. intros kept Hkept%tail_size_le.
  rewrite length_reverse in Hkept. cbv zeta. case_decide; [by apply HΦ|].
  apply wp_then, wp_ask. intros [e|resp]; [by apply HΦ|].
  destruct (is_success (http_status resp)); [|by apply HΦ]. destruct (http_json resp) as [e|json]; [by apply HΦ|].
  destruct (message_content json) as [summary|]; [|by apply HΦ]. case_decide; [by apply HΦ|].
  apply wp_then, wp_replace; [lia|]. intros se1 H1. apply wp_then, wp_marker. intros se2 H2. apply HΦ. congruence.
Qed.
End inside.

(** ** The functions of a turn

    Whatever happens, in the end the task is still inside its turn. *)
Section turn.
Context (mine : gset string).
Abbreviation In se := (Inside se mine).

Lemma wp_append se u content (Φ : string → Pos → Prop) :
  asked u se → (∀ mid se', Φ mid (In se')) → WP (append_assistant_message id content) (In se) Φ.
Proof.
  intros (l & um & Hv & Hl & Hr & _) HΦ. apply wp_then, wp_new_message. intros m Hni Hm Hrole.
  apply wp_then, wp_add; [set_solver|by rewrite Hrole| |].
  - intros _. rewrite Hv, <-app_assoc. by apply turns_answered.
  - intros t _. replace (({[m_id m]} ∪ mine) ∖ {[m_id m]}) with mine by set_solver. apply HΦ.
Qed.
Lemma wp_finalize se u partial tool_calls (Φ : unit → Pos → Prop) :
  asked u se → (∀ se', Φ tt (In se')) → WP (finalize_interrupted_prompt id u partial tool_calls) (In se) Φ.
Proof.
  intros Ha HΦ. unfold finalize_interrupted_prompt.
  destruct (interrupted_turn_storage_decision partial tool_calls) as [|text|].
  - by eapply wp_remove.
  - apply wp_then. eapply wp_append; [done|]. intros mid se'. apply HΦ.
  - apply wp_then. eapply wp_append; [done|]. intros mid se'. apply HΦ.
Qed.

Section turns.
Context (tn : Turn) (tn_id : tn_session tn = id).
Abbreviation waiting := (asked (tn_user_message tn)).
Abbreviation Done := (λ (_ : option Z) v, ∃ se', v = In se').

Lemma wp_told_compaction se (Φ : CompactionResult → Pos → Prop) :
  (∀ r se', visible se' = visible se → Φ r (In se')) → WP (told_compaction tn) (In se) Φ.
Proof.
  intros HΦ. apply wp_then, wp_say, wp_then. rewrite tn_id. apply wp_compact. intros r se' Hse.
  by apply wp_then, wp_say, wp_return, HΦ.
Qed.
Lemma wp_interrupted se partial tool_calls : waiting se → WP (interrupted tn partial tool_calls) (In se) Done.
Proof.
  intros Ha. apply wp_then. rewrite tn_id. eapply wp_finalize; [done|]. intros se'. cbn. eauto.
Qed.
(** An answer that is stored, with compaction if the turn used too much. *)
Lemma wp_store_answer {A} se text over (f : string → call SessionStore (Question J) SseEvent A) (Φ : A → Pos → Prop) :
  waiting se → (∀ mid se', WP (f mid) (In se') Φ) →
  WP (mid ← append_assistant_message id text;
      _ ← (if (over : bool) then _ ← told_compaction tn; mret tt else mret tt);
      f mid) (In se) Φ.
Proof.
  intros Ha Hf. apply wp_then. eapply wp_append; [done|]. intros mid se'. apply wp_then. destruct over; [|apply Hf].
  apply wp_then, wp_told_compaction. intros r se'' _. apply Hf.
Qed.
Lemma wp_retry se tool_calls suffix full p : waiting se → WP (run_synthesis_retry tn tool_calls suffix full p) (In se) Done.
Proof.
  intros Ha. apply wp_then. rewrite tn_id. apply wp_model_messages. intros prior. split; [by apply wp_interrupted|].
  intros [e|resp]; [cbn; eauto|]. destruct (is_success (http_status resp)); [|case_decide; cbn; eauto].
  apply wp_then, wp_ask. intros items. apply wp_then, wp_talk; [apply content_stream_talk|]. intros [st|st|st e].
  - case_decide; [|cbn; eauto]. apply wp_store_answer; [done|]. cbn. eauto.
  - by apply wp_interrupted.
  - cbn. eauto.
Qed.
Lemma wp_refused se resp tool_calls suffix full p : waiting se → WP (synthesis_refused tn resp tool_calls suffix full p) (In se) Done.
Proof.
  intros Ha. unfold synthesis_refused. destruct (_ && _); [|cbn; eauto].
  apply wp_then, wp_told_compaction. intros r se' Hse. destruct r; [|cbn; eauto..]. apply wp_retry. by eapply asked_same.
Qed.
Lemma wp_synthesis se prior tool_calls suffix full p : waiting se → WP (synthesis tn prior tool_calls suffix full p) (In se) Done.
Proof.
  intros Ha. split; [by apply wp_interrupted|]. intros [e|resp]; [cbn; eauto|].
  destruct (is_success (http_status resp)); [|by apply wp_refused].
  apply wp_then, wp_ask. intros items. apply wp_then, wp_talk; [apply content_stream_talk|]. intros [st|st|st e].
  - rewrite tn_id. case_decide; [|cbn; eauto]. apply wp_store_answer; [done|]. cbn. eauto.
  - by apply wp_interrupted.
  - cbn. eauto.
Qed.
Lemma wp_preflight se tool_calls suffix full p : waiting se → WP (synthesis_preflight tn tool_calls suffix full p) (In se) Done.
Proof.
  intros Ha. apply wp_then. rewrite tn_id. apply wp_model_messages. intros prior. apply wp_then.
  assert (∀ est, WP (if preflight_decision est (tn_ctx tn) agent_preflight_compaction_ratio then
      _ ← told_compaction tn;
      prior ← get_model_messages id;
      let post_estimate := estimate_serialized_tokens (model_messages_bytes (build_synthesis_messages prior suffix)) in
      if preflight_decision post_estimate (tn_ctx tn) agent_preflight_compaction_ratio then
        _ ← say (SError "tool_results_too_large"
                   "Current-turn tool results still exceed the usable context window after history compaction");
        _ ← say SDone;
        mret None
      else synthesis tn prior tool_calls suffix full p
    else synthesis tn prior tool_calls suffix full p) (In se) Done) as Hrest.
  { intros est. destruct (preflight_decision _ _ _); [|by apply wp_synthesis].
    apply wp_then, wp_told_compaction. intros r se' Hse. apply wp_then, wp_model_messages. intros prior'.
    cbn zeta. destruct (preflight_decision _ _ _); [cbn; eauto|]. apply wp_synthesis. by eapply asked_same. }
  case_decide; [|apply Hrest]. apply wp_try. intros est _. apply Hrest.
Qed.
Lemma wp_run_tools se st : waiting se → WP (run_tools tn st) (In se) Done.
Proof.
  intros Ha. apply wp_then, wp_see. intros [|]; [by apply wp_interrupted|].
  apply wp_then, wp_eachC; [done|]. apply wp_then, wp_ask. intros done. apply wp_then, wp_eachC.
  { intros d _. by destruct (_ !! _). }
  apply wp_then, wp_see. intros [|]; [by apply wp_interrupted|]. by apply wp_preflight.
Qed.
Lemma wp_after_first se st stopped : waiting se → WP (after_first tn st stopped) (In se) Done.
Proof.
  intros Ha. destruct stopped as [[e|]|]; cbn [after_first].
  - apply wp_then. destruct (_ && _); [|cbn; eauto]. rewrite tn_id. eapply wp_remove; [done|]. cbn. eauto.
  - by apply wp_interrupted.
  - destruct (wants_tools st); [by apply wp_run_tools|]. case_decide.
    + apply wp_then. rewrite tn_id. eapply wp_append; [done|]. cbn. eauto.
    + apply wp_then. rewrite tn_id. eapply wp_remove; [done|]. cbn. eauto.
Qed.
Lemma wp_stream_task se : waiting se → WP (stream_task tn) (In se) (λ _ v, ∃ se', v = In se').
Proof.
  intros Ha. apply wp_then, wp_ask. intros items. apply wp_then, wp_talk; [apply first_stream_talk|]. intros [st stopped].
  apply wp_then. eapply wp_weaken; [by apply wp_after_first|]. intros [p|] v (se' & ->); [|cbn; eauto].
  apply wp_then, wp_say. case_decide; [|cbn; eauto].
  apply wp_then. rewrite tn_id. apply wp_tokens. intros se1 _. destruct (over_threshold _ _); [|cbn; eauto].
  apply wp_then, wp_told_compaction. intros r se2 _. cbn. eauto.
Qed.
End turns.
End turn.

(** ** Before the turn *)

Record shrinks s s' : Prop := MkShrinks {
  shrinks_sessions i se : sessions s' !! i = Some se → sessions s !! i = Some se;
  shrinks_new i l : session_locks s' !! i = Some l → session_locks s !! i = Some l ∨ l < length (locks s');
  shrinks_locks i se l : sessions s' !! i = Some se → session_locks s !! i = Some l → session_locks s' !! i = Some l;
  shrinks_heap : locks s `prefix_of` locks s';
  shrinks_uuids : uuids s ≤ uuids s';
}.
#[global] Instance shrinks_preorder : PreOrder shrinks.
Proof.
  split; [intros s; split; auto|]. intros s1 s2 s3 [A1 A2 A3 A4 A5] [B1 B2 B3 B4 B5]. split; eauto.
  - intros i l [[?|?]%A2|?]%B2; [by left| |by right]. right. apply prefix_length in B4. lia.
  - by etrans.
  - lia.
Qed.
Lemma shrinks_step s s' v : shrinks s s' → at_ id s v → at_ id s' v ∧ may id s v s' v.
Proof. intros [? ? ? ? ?] Hv. by apply shrink_step. Qed.
Lemma wp_shrinks_once {A} (f : SessionStore → A * SessionStore) v (Φ : A → Pos → Prop) :
  (∀ s, shrinks s (f s).2) → (∀ a, Φ a v) → WP (once f) v Φ.
Proof. intros Hq HΦ. apply wp_once. intros s Hs. exists v. destruct (shrinks_step s (f s).2 v); auto. Qed.
Lemma wp_shrinks (f : SessionStore → SessionStore) v (Φ : unit → Pos → Prop) :
  (∀ s, shrinks s (f s)) → Φ tt v → WP (act f) v Φ.
Proof. intros Hq HΦ. apply wp_act. intros s Hs. exists v. destruct (shrinks_step s (f s) v); auto. Qed.
Lemma quiet_shrinks s s' : quiet s s' → shrinks s s'.
Proof. intros [Es El Eh Eu]. split; rewrite ?Es, ?El, ?Eh, ?Eu; auto. Qed.
Lemma drop_shrinks i s : shrinks s (drop_session i s).
Proof. split; cbn; auto. intros i' se [_ ?]%lookup_delete_Some. done. Qed.
Lemma forget_shrinks i s : shrinks s (forget_session s i).
Proof.
  unfold forget_session. etrans; [|apply quiet_shrinks, clear_quiet]. split; cbn; auto.
  - intros i' se [_ ?]%lookup_delete_Some. done.
  - intros i' l [_ ?]%lookup_delete_Some. auto.
  - intros i' se l [? _]%lookup_delete_Some ?. by apply lookup_delete_Some.
Qed.
Lemma wp_check_timeout i v (Φ : bool → Pos → Prop) : (∀ b, Φ b v) → WP (once (CheckAndDeleteIfTimedOut i)) v Φ.
Proof.
  apply wp_shrinks_once. intros s. unfold CheckAndDeleteIfTimedOut. destruct (sessions s !! i); [|done].
  case_decide; [apply forget_shrinks|done].
Qed.
Lemma wp_see_session b mine (Φ : option Session → Pos → Prop) :
  (∀ se, Φ (Some se) (Outside true mine)) → Φ None (Outside b mine) → WP (look (Store_GetSession id)) (Outside b mine) Φ.
Proof.
  intros HS HN s (Hg & Hu & Hb). unfold Store_GetSession. cbn. destruct (sessions s !! id) as [se|] eqn:E.
  - exists (Outside true mine). assert (drawn id s) as Hd by (by apply Hg in E as (_ & ? & _)).
    split; [by split_and!|]. split; [|apply HS].
    destruct (may_refl id s (Outside b mine)). split; try done. intros _. right. by eexists.
  - exists (Outside b mine). split; [by split_and!|]. split; [apply may_refl|done].
Qed.
Lemma wp_draw b mine (Φ : string → Pos → Prop) :
  (∀ mid, mid ∉ mine → Φ mid (Outside b ({[mid]} ∪ mine))) → WP (once Uuid_new_v4) (Outside b mine) Φ.
Proof.
  intros HΦ. apply wp_once. intros s Hs. destruct (draw_step id s b mine Hs) as [Hat Hmay]. eexists. split_and!; [exact Hat|exact Hmay|].
  apply HΦ. destruct Hs as (_ & Hu & _). intros Hin. apply Hu in Hin as ((n & Hn & ?%(inj uuid)) & _). lia.
Qed.
Lemma wp_session_lock mine (Φ : nat → Pos → Prop) :
  (∀ l, Φ l (Waiting l mine)) → WP (once (SessionLock id)) (Outside true mine) Φ.
Proof.
  intros HΦ. apply wp_once. intros s Hs. exists (Waiting (SessionLock id s).1 mine).
  assert (shrinks s (SessionLock id s).2) as Hsh.
  { unfold SessionLock. destruct (session_locks s !! id) as [l|] eqn:E; [done|]. split; cbn; auto.
    - intros i l. destruct (decide (i = id)) as [->|].
      + rewrite lookup_insert_eq, length_app. intros [= <-]. right. cbn. lia.
      + rewrite lookup_insert_ne by done. auto.
    - intros i se l _ Hl. rewrite lookup_insert_ne; congruence.
    - by eexists. }
  destruct (shrinks_step _ _ _ Hsh Hs) as [Hat Hmay]. destruct Hat as (Hg' & Hu' & Hd') eqn:E. clear E.
  split; [|split; [|apply HΦ]]; [split_and!; [done|done|by apply Hd'|]|].
  - unfold SessionLock. destruct Hs as (Hg & _ & _). destruct (session_locks s !! id) as [l|] eqn:E; cbn.
    + split; [by apply Hg in E|done].
    + split; [cbn; rewrite length_app; cbn; lia|]. intros se _. cbn. by rewrite lookup_insert_eq.
  - by destruct Hmay; split.
Qed.

Definition prompt_end (a : HandlerEnd (J:=J)) v : Prop :=
  match a with
  | HReply _ => True
  | HStream tn => tn_session tn = id ∧ ∃ se, v = Inside se ∅ ∧ asked (tn_user_message tn) se
  end.
Lemma wp_abandon tn r se mine : tn_session tn = id → asked (tn_user_message tn) se → WP (abandon tn r) (Inside se mine) prompt_end.
Proof.
  intros Hid Ha. apply wp_then. rewrite Hid. eapply wp_remove; [done|]. intros se'. apply wp_then, wp_quiet; [intros s; apply clear_quiet|done].
Qed.
Lemma wp_context_length slug v (Φ : Z → Pos → Prop) : (∀ ctx, Φ ctx v) → WP (agent_model_context_length slug) v Φ.
Proof.
  intros HΦ. unfold agent_model_context_length. case_decide; [apply HΦ|]. apply wp_then, wp_ask.
  intros [e|[[ctx|]|]]; try apply HΦ. case_decide; apply HΦ.
Qed.
Lemma wp_first_request endpoint api_key ctx tools se mine (Φ : ModelRequest → Pos → Prop) :
  (∀ r se', visible se' = visible se → Φ r (Inside se' mine)) →
  WP (first_request id endpoint api_key ctx tools) (Inside se mine) Φ.
Proof.
  intros HΦ. apply wp_then, wp_model_messages. intros history. cbv zeta. match goal with |- context [if ?b then _ else _] => destruct b end; [|by apply HΦ].
  apply wp_then, wp_compact. intros r se' Hse. apply wp_then, wp_model_messages. intros l. by apply HΦ.
Qed.
Lemma wp_locked endpoint api_key slug routes user se :
  m_role user = "user" → WP (stream_locked id endpoint api_key slug routes user) (Inside se {[m_id user]}) prompt_end.
Proof.
  intros Hr. apply wp_then, wp_add; [by apply elem_of_singleton|by rewrite Hr|intros Ht; by apply turns_asked|].
  intros t Ht. replace ({[m_id user]} ∖ {[m_id user]} : gset string) with (∅ : gset string) by set_solver.
  assert (asked (m_id user) (with_message user t se)) as Ha.
  { exists (visible se), user. split_and!; [|done..]. apply with_message_visible. by rewrite Hr. }
  apply wp_then, wp_quiet_once; [by intros s|]. intros tok. apply wp_then, wp_quiet; [by intros s|].
  apply wp_then, wp_context_length. intros ctx. apply wp_then, wp_first_request. intros req se' Hse.
  apply (asked_same _ _ se') in Ha; [|done]. split; [by apply wp_abandon|]. intros [e|resp]; [by apply wp_abandon|].
  destruct (is_success (http_status resp)); [|by apply wp_abandon]. cbn. eauto.
Qed.
End of_session.

Lemma wp_handle_prompt_stream id b message :
  wp (at_ id) (may id) waits got (HandlePromptStream id message) (Outside b ∅) (prompt_end id).
Proof.
  apply wp_then, wp_see_session; [|done]. intros se. apply wp_then, wp_check_timeout. intros [|]; [done|].
  apply wp_then, wp_ask. intros routes. apply wp_then, wp_then, wp_draw. intros mid _. apply wp_then, wp_see. intros t.
  apply wp_return, wp_then, wp_session_lock. intros l. apply wp_then. split; [done|]. intros v' [se' ->].
  rewrite union_empty_r_L. by apply wp_locked.
Qed.
End steps.
