(* ===== verification/SessionSafe.v ===== *)
(** * What holds in every run of sessions with streamed prompts *)

From S2P Require Import Prelude.
From S2P Require Import Text.
From S2P Require Import BTree.
From S2P Require Import Calls.
From S2P Require Import ChatStream.
From S2P Require Import Session.
From S2P Require Import SessionTurn.
From S2P Require Import SessionRuns.
From S2P Require Import SessionInv.
From S2P Require Import SessionSteps.

Section safe.
Context {J : Type} {crates : ChatCrates J} {sizes : ChatSizes J} {order : SessionOrder J} {config : ChatConfig}
  {sizes_ok : ChatSizesSpec J}.
Abbreviation Session := (Session J).
Abbreviation SessionStore := (SessionStore J).
Abbreviation Pos := (SessionInv.Pos (J:=J)).
Abbreviation Task := (SessionRuns.Task (J:=J)).
Abbreviation Serve := (SessionRuns.Serve (J:=J)).
Implicit Types (s : SessionStore) (id : string) (t : Task) (sv : Serve) (token : AccessToken).
Abbreviation WP id := (wp (Q:=Question J) (O:=SseEvent) (at_ id) (may id) waits got).
(** A call that never waits for a lock. *)
Abbreviation WPS id := (wp (Q:=Question J) (O:=SseEvent) (at_ id) (may id) (λ _ _, False) got).

(** ** Handlers *)

Lemma wp_own_session id ws {A} token (refuse : Reply J → A) k b (Φ : A → Pos → Prop) :
  (∀ r, Φ (refuse r) (Outside b ∅)) → (∀ r, Φ (refuse r) (Outside true ∅)) →
  wp (Q:=Question J) (O:=SseEvent) (at_ id) (may id) ws got k (Outside true ∅) Φ →
  wp (at_ id) (may id) ws got (for_own_session token id refuse k) (Outside b ∅) Φ.
Proof. intros H1 H2 Hk. apply wp_then, wp_see_session; [|apply H1]. intros se. case_decide; [done|apply H2]. Qed.
Lemma wp_prompt_stream id token message : WP id (PromptStream token id message) (Outside false ∅) (prompt_end id).
Proof. apply wp_own_session; [done..|]. apply wp_handle_prompt_stream. Qed.

Abbreviation Any := (λ _ _, True).
Lemma wp_tool_count id tenant v (Φ : nat → Pos → Prop) : (∀ n, Φ n v) → WPS id (tool_count tenant) v Φ.
Proof. intros HΦ. apply wp_then, wp_ask. intros r. apply HΦ. Qed.
Lemma wp_create id mid created tenant api_key ep b mine (Φ : Session → Pos → Prop) :
  mid ∈ mine → (∀ se mine, Φ se (Outside b mine)) →
  WPS id (once (Store_CreateSession mid created tenant api_key ep)) (Outside b mine) Φ.
Proof.
  intros Hmid HΦ. apply wp_once. intros s (Hg & Hu & Hb). exists (Outside b (mine ∖ {[mid]})). cbn.
  destruct (Hu mid Hmid) as (Hd & Hn & Hp).
  set (se := MkSession _ _ _ _ _ _ _ _ _ _).
  assert (∀ i se1, <[mid:=se]> (sessions s) !! i = Some se1 → (i = mid ∧ se1 = se) ∨ (i ≠ mid ∧ sessions s !! i = Some se1)) as Hin.
  { intros i se1. destruct (decide (i = mid)) as [->|]; [rewrite lookup_insert_eq|rewrite lookup_insert_ne by done]; naive_solver. }
  assert (∀ x, placed x (put_sessions (<[mid:=se]> (sessions s)) s) → placed x s) as Hpl.
  { intros x (i & se1 & [[-> ->]|[_ Hs]]%Hin & Hx); [by apply elem_of_nil in Hx|by exists i, se1]. }
  split; [split_and!|split; [|apply HΦ]].
  - split; [|apply Hg]. intros i se1 [[-> ->]|[_ Hs]]%Hin.
    + split_and!; [done|done| |by intros x ?%elem_of_nil]. split; [constructor|constructor|by left].
    + by apply Hg in Hs.
  - intros x; cbn [mine_of]; intros [Hx Hne]%elem_of_difference. destruct (Hu x Hx) as (? & ? & ?). split_and!; [done| |auto].
    cbn. rewrite lookup_insert_ne; set_solver.
  - done.
  - split; cbn; try done; auto.
    + intros x Hx. left. set_solver.
    + intros x _ Hx Hk. rewrite lookup_insert_ne; [done|]. by intros ->.
    + intros i se1 [[-> ->]|[_ Hs]]%Hin _; auto.
Qed.
Lemma wp_delete id token : WPS id (DeleteSession token id) (Outside false ∅) Any.
Proof.
  apply wp_then, wp_see_session; [|done]. intros se. case_decide; [|done]. apply wp_then, wp_then, wp_once. intros s Hs.
  destruct (shrinks_step id s (drop_session id s) (Outside true ∅)) as [Hat Hmay]; [apply drop_shrinks|done|].
  cbn [fst snd]. case_bool_decide as Hsome; [|exists (Outside true ∅); split_and!; done].
  exists (Gone ∅). destruct Hat as (Hg & Hu & Hd). split; [split_and!; [done|done|by apply Hd|apply lookup_delete_eq]|].
  split; [by destruct Hmay; split|]. apply wp_then, wp_act. clear s Hs Hmay Hsome Hg Hu Hd. intros s Hs. exists (Gone ∅).
  destruct (shrinks_step id s (remove_session_lock id s) (Gone ∅)) as [Hat' Hmay']; [|done|].
  { destruct Hs as (_ & _ & _ & Hn). split; cbn; auto.
    - intros i l [_ ?]%lookup_delete_Some. auto.
    - intros i se' l Hi Hl. apply lookup_delete_Some. split; [|done]. intros <-. congruence. }
  split; [done|]. split; [done|]. apply wp_then, wp_quiet; [intros s'; apply clear_quiet|done].
Qed.
(** A task that begins: any handler but those of prompts. *)
Lemma wp_simple op :
  (∀ token id message stream, op ≠ OPrompt token id message stream) →
  match start op with TSimple p => ∃ id, WPS id p (Outside false ∅) Any | _ => True end.
Proof.
  destruct op as [| |token|token k ep|token id|token id|token id limit|token id|]; intros Hop; cbn [start].
  - done.
  - by destruct (Hop token id message stream).
  - exists "". apply wp_then, wp_see. intros l. destruct (merge_sort _ _); [done|]. by apply wp_then, wp_tool_count.
  - exists "". unfold CreateSession. case_decide; [done|]. destruct (ep ≫= _); [|done]. apply wp_then, wp_ask. intros [why|]; [done|].
    apply wp_then, wp_draw. intros mid _. apply wp_then, wp_see. intros t. apply wp_then, wp_create; [set_solver|]. intros se mine.
    by apply wp_then, wp_tool_count.
  - exists id. apply wp_then, wp_see_session; [|done]. intros se. case_decide; [|done]. by apply wp_then, wp_tool_count.
  - exists id. apply wp_delete.
  - exists id. apply wp_then, wp_see_session; [|done]. intros se. case_decide; [|done]. by apply wp_then, wp_see.
  - exists id. apply wp_own_session; [done..|]. apply wp_then, wp_quiet_once; [|done]. intros s. unfold interrupt_active_stream.
    by destruct (active_stream_cancels s !! id).
  - exists "". apply wp_then, wp_then, wp_see. intros t. apply wp_shrinks_once; [|done]. intros s. cbn [snd].
    generalize (keys (filter (λ p, timed_out t p.2) (sessions s))). intros l. revert s.
    induction l as [|i l IH]; intros s; [done|]. cbn. etrans; [apply forget_shrinks|apply IH].
Qed.

(** ** Runs *)

Definition held_by t : option nat :=
  match t with TPrompt _ held _ => held | TStream _ l _ _ => Some l | _ => None end.
(** What [k] says of the task: its session, and its place. *)
Definition task_ok s t (k : string * Pos) : Prop :=
  at_ k.1 s k.2 ∧
  match t with
  | TPrompt id held p => k.1 = id ∧ WP id p k.2 (prompt_end id)
  | TStream id _ p _ => k.1 = id ∧ WP id p k.2 Any
  | TSimple p => WPS k.1 p k.2 Any
  | TLeaving _ _ _ | TOver _ _ _ => True
  end ∧
  match held_by t with Some l => is_inside k.2 = true ∧ lock_of k.1 l s | None => is_inside k.2 = false end.
Record SInv (sv : Serve) (ks : list (string * Pos)) : Prop := MkSInv {
  si_good : good (sv_store sv);
  si_tasks : Forall2 (task_ok (sv_store sv)) (sv_tasks sv) ks;
  si_mine i j ki kj x : ks !! i = Some ki → ks !! j = Some kj → x ∈ mine_of ki.2 → x ∈ mine_of kj.2 → i = j;
  si_seen i j ki kj : ks !! i = Some ki → ks !! j = Some kj → has_seen ki.2 = true → ki.1 ∉ mine_of kj.2;
  si_holders i j ti tj l : sv_tasks sv !! i = Some ti → sv_tasks sv !! j = Some tj →
    held_by ti = Some l → held_by tj = Some l → i = j;
  si_held i ti l : sv_tasks sv !! i = Some ti → held_by ti = Some l → locks (sv_store sv) !! l = Some true;
}.

Lemma outside_at id s : good s → at_ id s (Outside false ∅).
Proof. intros Hg. split; [done|]. by split; [intros x ?%elem_of_empty|]. Qed.
Lemma seen_drawn id s v : at_ id s v → has_seen v = true → drawn id s.
Proof. intros (_ & _ & Hv) Hs. destruct v as [b m|l m|m|se m]; [by apply Hv|by destruct Hv..]. Qed.

(** A change of the locks, the tokens or the time. *)
Record aside s s' : Prop := MkAside {
  aside_sessions : sessions s' = sessions s;
  aside_locks : session_locks s' = session_locks s;
  aside_heap : length (locks s') = length (locks s);
  aside_uuids : uuids s' = uuids s;
}.
Lemma aside_at id s s' v : aside s s' → at_ id s v → at_ id s' v.
Proof.
  intros [Es El Eh Eu] (Hg & Hu & Hv).
  assert (∀ x, drawn x s → drawn x s') as Hd by (intros x (n & ? & ->); exists n; by rewrite Eu).
  split; [|split].
  - destruct Hg as [H1 H2]. split; [|by rewrite El, Eh]. intros i se. rewrite Es. intros (? & ? & ? & ?)%H1. split_and!; auto.
  - intros x Hx. destruct (Hu x Hx) as (? & ? & Hp). rewrite Es. split_and!; auto. intros (i & se & Hi & ?). apply Hp.
    rewrite Es in Hi. by exists i, se.
  - destruct v as [b m|l m|m|se m].
    + auto.
    + destruct Hv as (? & ? & ?). unfold lock_of. rewrite Es, El, Eh. auto.
    + rewrite Es. destruct Hv. auto.
    + rewrite Es. destruct Hv as (? & ? & ? & Hi). split_and!; auto. intros x Hx. destruct (Hi x Hx). auto.
Qed.
Lemma aside_lock_of id s s' l : aside s s' → lock_of id l s → lock_of id l s'.
Proof. intros [Es El Eh Eu]. unfold lock_of. by rewrite Es, El, Eh. Qed.
Lemma aside_ok s s' t k : aside s s' → task_ok s t k → task_ok s' t k.
Proof.
  intros Ha (Hat & Ht & Hh). split; [by eapply aside_at|]. split; [done|].
  destruct (held_by t); [|done]. destruct Hh. split; [done|by eapply aside_lock_of].
Qed.
Lemma aside_good s s' : aside s s' → good s → good s'.
Proof. intros Ha Hg. destruct (aside_at "" s s' (Outside false ∅) Ha) as [? _]; [by apply outside_at|done]. Qed.
Lemma clear_aside id s : aside s (clear_active_stream_cancel id s).
Proof. unfold clear_active_stream_cancel. by destruct (active_stream_cancels s !! id). Qed.
Lemma set_lock_aside l b s : aside s (set_lock l b s).
Proof. split; try done. cbn. apply length_insert. Qed.

Lemma lock_of_stays id0 id s v s' v' w l :
  may id0 s v s' v' → at_ id s w → has_seen w = true → id ∉ mine_of v → lock_of id l s → lock_of id l s'.
Proof.
  intros Hm Hw Hs Hni [Hl Hlk]. pose proof (prefix_length _ _ (may_heap _ _ _ _ _ Hm)). split; [lia|]. intros se Hse.
  destruct (sessions s !! id) as [se0|] eqn:E; [eapply may_locks; eauto|].
  rewrite (may_keys _ _ _ _ _ Hm id) in Hse; [done|by eapply seen_drawn|done|done].
Qed.

(** One task acts; the others are not disturbed. *)
Lemma act_inv sv ks n t k s' t' v' :
  SInv sv ks → sv_tasks sv !! n = Some t → ks !! n = Some k →
  may k.1 (sv_store sv) k.2 s' v' → task_ok s' t' (k.1, v') → held_by t' = held_by t →
  SInv (MkServe s' (<[n := t']> (sv_tasks sv))) (<[n := (k.1, v')]> ks).
Proof.
  intros [Hg Ht Hmine Hseen Hhold Hheld] Hn Hk Hm Hok' Hheq. pose proof Hok' as (Hat' & _).
  assert (good s') as Hg' by apply Hat'.
  destruct (Forall2_lookup_lr _ _ _ _ _ _ Ht Hn Hk) as (Hat & Hwp & Hin).
  assert (∀ j kj, ks !! j = Some kj → has_seen kj.2 = true → drawn kj.1 (sv_store sv)) as Hdr.
  { intros j kj Hj Hs. destruct (Forall2_lookup_r _ _ _ _ _ Ht Hj) as (tj & _ & Hat'' & _). by eapply seen_drawn. }
  assert (∀ j kj x, ks !! j = Some kj → x ∈ mine_of kj.2 → drawn x (sv_store sv)) as Hdm.
  { intros j kj x Hj Hx. destruct (Forall2_lookup_r _ _ _ _ _ Ht Hj) as (tj & _ & (_ & Hu & _) & _). by apply Hu in Hx as [? _]. }
  assert (∀ i ti, <[n:=t']> (sv_tasks sv) !! i = Some ti → (i = n ∧ ti = t') ∨ (i ≠ n ∧ sv_tasks sv !! i = Some ti)) as Hts.
  { intros i ti. rewrite list_lookup_insert_Some. naive_solver. }
  assert (∀ i ki, <[n:=(k.1, v')]> ks !! i = Some ki → (i = n ∧ ki = (k.1, v')) ∨ (i ≠ n ∧ ks !! i = Some ki)) as Hks.
  { intros i ki. rewrite list_lookup_insert_Some. naive_solver. }
  assert (∀ i ti l, <[n:=t']> (sv_tasks sv) !! i = Some ti → held_by ti = Some l →
    ∃ ti', sv_tasks sv !! i = Some ti' ∧ held_by ti' = Some l) as Hback.
  { intros i ti l [[-> ->]|[_ Hi]]%Hts Hl; [exists t|exists ti]; split; congruence. }
  split; cbn [sv_store sv_tasks].
  - done.
  - apply Forall2_same_length_lookup_2; [rewrite !length_insert; by eapply Forall2_length|].
    intros i ti ki [[-> ->]|[Hne Hti]]%Hts [[Hi ->]|[Hi Hki]]%Hks; try done.
    destruct (Forall2_lookup_lr _ _ _ _ _ _ Ht Hti Hki) as (Hati & Hwpi & Hini).
    assert (has_seen ki.2 = true → ki.1 ∉ mine_of k.2) as Hsep by (by apply (Hseen i n)).
    split; [|split; [done|]].
    + eapply (others_step ki.1 k.1); [done|done|done| |done|].
      * intros x Hx Hx'. apply Hne. by eapply Hmine.
      * intros Hi1 Hi2 Hid. destruct (held_by t) as [l|] eqn:El; [|congruence]. destruct (held_by ti) as [l'|] eqn:El'; [|congruence].
        destruct Hin as [_ [_ Hlk]], Hini as [_ [_ Hlk']]. apply eq_None_not_Some. intros [se Hse].
        rewrite <-Hid in Hse, Hlk'. specialize (Hlk _ Hse). specialize (Hlk' _ Hse).
        apply Hne, (Hhold i n ti t l); congruence.
    + destruct (held_by ti) as [l'|]; [|done]. destruct Hini as [Hi2 Hlk']. split; [done|].
      assert (has_seen ki.2 = true) as Hsee by (by destruct ki as [? []]). eapply lock_of_stays; [done..| |done]. by apply Hsep.
  - intros i j ki kj x [[-> ->]|[Hi Hki]]%Hks [[-> ->]|[Hj Hkj]]%Hks Hxi Hxj; try done.
    + apply (may_mine _ _ _ _ _ Hm) in Hxi as [Hxi|[_ Hxi]]; [by eapply Hmine|]. by destruct Hxi; eapply Hdm.
    + apply (may_mine _ _ _ _ _ Hm) in Hxj as [Hxj|[_ Hxj]]; [by eapply Hmine|]. by destruct Hxj; eapply Hdm.
    + by eapply Hmine.
  - assert (∀ i ki, <[n:=(k.1, v')]> ks !! i = Some ki → has_seen ki.2 = true →
      drawn ki.1 (sv_store sv) ∧ ∀ j kj, ks !! j = Some kj → ki.1 ∉ mine_of kj.2) as Hsn.
    { intros i ki [[-> ->]|[Hi Hki]]%Hks Hs; [|split; [by eapply Hdr|intros j kj Hj; by apply (Hseen i j)]].
      apply (may_seen _ _ _ _ _ Hm) in Hs as [Hs|[se Hse]];
        [split; [by apply (Hdr n k)|intros j kj Hj; by apply (Hseen n j k)]|].
      split; [by apply Hg in Hse as (_ & ? & _)|]. intros j kj Hj Hx.
      destruct (Forall2_lookup_r _ _ _ _ _ Ht Hj) as (tj & _ & (_ & Hu & _) & _). apply Hu in Hx as (_ & ? & _). cbn in *. congruence. }
    intros i j ki kj Hi Hj Hs Hx. destruct (Hsn i ki Hi Hs) as [Hd Hni].
    apply Hks in Hj as [[-> ->]|[_ Hj]]; [|by apply (Hni j kj)].
    apply (may_mine _ _ _ _ _ Hm) in Hx as [Hx|[_ Hx]]; [by apply (Hni n k)|done].
  - intros i j ti tj l Hi Hj Hli Hlj. destruct (Hback _ _ _ Hi Hli) as (? & ? & ?), (Hback _ _ _ Hj Hlj) as (? & ? & ?). by eapply Hhold.
  - intros i ti l Hi Hl. destruct (Hback _ _ _ Hi Hl) as (ti' & Hi' & Hl'). eapply prefix_lookup_Some; [by eapply Hheld|apply Hm].
Qed.

(** A task goes on, or ends; sessions stay as they are. *)
Lemma swap_inv sv ks n t k s' t' k' :
  SInv sv ks → sv_tasks sv !! n = Some t → ks !! n = Some k → aside (sv_store sv) s' → task_ok s' t' k' →
  mine_of k'.2 ⊆ mine_of k.2 → (has_seen k'.2 = true → has_seen k.2 = true ∧ k'.1 = k.1) →
  (∀ l, held_by t' = Some l → locks s' !! l = Some true ∧ (held_by t = Some l ∨ locks (sv_store sv) !! l = Some false)) →
  (∀ i ti l, i ≠ n → sv_tasks sv !! i = Some ti → held_by ti = Some l → locks s' !! l = Some true) →
  SInv (MkServe s' (<[n := t']> (sv_tasks sv))) (<[n := k']> ks).
Proof.
  intros [Hg Ht Hmine Hseen Hhold Hheld] Hn Hk Ha Hok' Hm Hs Hl Hlo.
  assert (∀ i ti, <[n:=t']> (sv_tasks sv) !! i = Some ti → (i = n ∧ ti = t') ∨ (i ≠ n ∧ sv_tasks sv !! i = Some ti)) as Hts.
  { intros i ti. rewrite list_lookup_insert_Some. naive_solver. }
  assert (∀ i ki, <[n:=k']> ks !! i = Some ki → (i = n ∧ ki = k') ∨ (i ≠ n ∧ ks !! i = Some ki)) as Hks.
  { intros i ki. rewrite list_lookup_insert_Some. naive_solver. }
  assert (∀ i ki, <[n:=k']> ks !! i = Some ki → ∃ ki0, ks !! i = Some ki0 ∧ mine_of ki.2 ⊆ mine_of ki0.2 ∧
    (has_seen ki.2 = true → has_seen ki0.2 = true ∧ ki.1 = ki0.1)) as Hold.
  { intros i ki [[-> ->]|[Hi Hki]]%Hks; [by exists k|by exists ki]. }
  assert (∀ i ti l, i ≠ n → sv_tasks sv !! i = Some ti → held_by ti = Some l → held_by t' ≠ Some l) as Hne.
  { intros i ti l Hi Hti Hli Hl'. destruct (Hl l Hl') as [_ [Hl0|Hl0]]; [by destruct Hi; eapply Hhold|].
    specialize (Hheld _ _ _ Hti Hli). congruence. }
  split; cbn [sv_store sv_tasks].
  - by eapply aside_good.
  - apply Forall2_insert; [|done]. eapply Forall2_impl; [done|]. intros. by eapply aside_ok.
  - intros i j ki kj x (ki0 & ? & Hi & _)%Hold (kj0 & ? & Hj & _)%Hold ?%Hi ?%Hj. by eapply Hmine.
  - intros i j ki kj (ki0 & Hi0 & _ & Hi)%Hold (kj0 & ? & Hj & _)%Hold [? ->]%Hi ?%Hj. by eapply (Hseen i j).
  - intros i j ti tj l [[-> ->]|[Hi Hti]]%Hts [[-> ->]|[Hj Htj]]%Hts Hli Hlj; try done.
    + by destruct (Hne _ _ _ Hj Htj Hlj).
    + by destruct (Hne _ _ _ Hi Hti Hli).
    + by eapply Hhold.
  - intros i ti l [[-> ->]|[Hi Hti]]%Hts Hli; [by apply Hl|by eapply Hlo].
Qed.
Lemma aside_refl s : aside s s.
Proof. done. Qed.
(** It ends, and drops the lock it holds. *)
Lemma ends sv ks n t k s' t' :
  SInv sv ks → sv_tasks sv !! n = Some t → ks !! n = Some k → aside (sv_store sv) s' →
  (∀ l, held_by t ≠ Some l → locks s' !! l = locks (sv_store sv) !! l) →
  match t' with TLeaving _ _ _ | TOver _ _ _ => True | _ => False end →
  SInv (MkServe s' (<[n := t']> (sv_tasks sv))) (<[n := (k.1, Outside false ∅)]> ks).
Proof.
  intros Hi Hn Hk Ha Hl Ht'. eapply swap_inv; try done.
  - split; [|by destruct t']. apply outside_at. eapply aside_good; [done|apply Hi].
  - by destruct t'.
  - intros i ti l Hne Hti Hli. rewrite Hl; [by eapply si_held|]. intros Hlt. apply Hne. by eapply si_holders.
Qed.
Lemma release_locks held s l : held ≠ Some l → locks (release held s) !! l = locks s !! l.
Proof. destruct held as [l'|]; [|done]. cbn. intros Hne. rewrite list_lookup_insert_ne; congruence. Qed.
Lemma release_aside held s : aside s (release held s).
Proof. destruct held; [apply set_lock_aside|apply aside_refl]. Qed.
Lemma begins sv ks t id :
  SInv sv ks → task_ok (sv_store sv) t (id, Outside false ∅) → held_by t = None →
  SInv (MkServe (sv_store sv) (sv_tasks sv ++ [t])) (ks ++ [(id, Outside false ∅)]).
Proof.
  intros [Hg Ht Hmine Hseen Hhold Hheld] Hok Hh.
  assert (∀ i ki, (ks ++ [(id, Outside false ∅)]) !! i = Some ki → ks !! i = Some ki ∨ ki = (id, Outside false ∅)) as Hks.
  { intros i ki [?|[_ ?%list_elem_of_lookup_2]]%lookup_app_Some; [by left|]. right. by apply list_elem_of_singleton. }
  assert (∀ i ti l, (sv_tasks sv ++ [t]) !! i = Some ti → held_by ti = Some l → sv_tasks sv !! i = Some ti) as Hts.
  { intros i ti l [?|[_ Hi%list_elem_of_lookup_2]]%lookup_app_Some Hl; [done|]. apply list_elem_of_singleton in Hi as ->. congruence. }
  split; cbn [sv_store sv_tasks].
  - done.
  - apply Forall2_app; [done|]. by constructor.
  - intros i j ki kj x [Hi| ->]%Hks [Hj| ->]%Hks Hxi Hxj; [by eapply Hmine|by apply elem_of_empty in Hxj|by apply elem_of_empty in Hxi..].
  - intros i j ki kj [Hi| ->]%Hks [Hj| ->]%Hks Hs; [by eapply (Hseen i j)|apply not_elem_of_empty|done..].
  - intros i j ti tj l Hi Hj Hli Hlj. eapply (Hhold i j); eauto.
  - intros i ti l Hi Hli. eapply Hheld; eauto.
Qed.

(** A node of a call: an action the task may do, or a lock it gets. *)
Lemma move_wp {A} ws id m (p : call SessionStore (Question J) SseEvent A) s r v (Φ : A → Pos → Prop) :
  wp (at_ id) (may id) ws got p v Φ → at_ id s v → move m p s = Some r →
  (mv_lock r = None ∧ ∃ v', at_ id (mv_store r) v' ∧ may id s v (mv_store r) v' ∧ wp (at_ id) (may id) ws got (mv_call r) v' Φ) ∨
  (∃ l, mv_lock r = Some l ∧ ws l v ∧ locks s !! l = Some false ∧ mv_store r = set_lock l true s ∧
        ∀ v', got l v v' → wp (at_ id) (may id) ws got (mv_call r) v' Φ).
Proof.
  intros Hp Hat Hm. assert (may id s v s v) as Hrefl by apply may_refl.
  destruct p as [a|w|upd k|X q k|X tok q c k|l k|o k], m as [|rep|]; try done; cbn in Hp, Hm.
  - injection Hm as <-. destruct (Hp s Hat) as (v' & ? & ? & ?). left. cbn. eauto.
  - apply bind_Some in Hm as (x & _ & Hm). case_match; [|done]. injection Hm as <-. left. cbn. split; [done|]. exists v. auto.
  - apply bind_Some in Hm as (x & _ & Hm). case_match; [|done]. injection Hm as <-. left. cbn. split; [done|]. exists v.
    destruct Hp. auto.
  - case_match; [|done]. injection Hm as <-. left. cbn. split; [done|]. exists v. destruct Hp. auto.
  - case_decide; [|done]. injection Hm as <-. destruct Hp. right. exists l. auto.
  - injection Hm as <-. left. cbn. split; [done|]. exists v. auto.
Qed.
(** A prompt gets the lock of its session. *)
Lemma acquire_inv sv ks n id p v l k :
  SInv sv ks → sv_tasks sv !! n = Some (TPrompt id None p) → ks !! n = Some (id, v) → waits l v →
  locks (sv_store sv) !! l = Some false → (∀ v', got l v v' → WP id k v' (prompt_end id)) →
  ∃ k', SInv (MkServe (set_lock l true (sv_store sv)) (<[n := TPrompt id (Some l) k]> (sv_tasks sv))) (<[n := k']> ks).
Proof.
  intros Hi Hn Hk Hw Hfree Hgot. destruct v as [|l' mine| |]; try done. cbn in Hw. subst l'.
  destruct (Forall2_lookup_lr _ _ _ _ _ _ (si_tasks _ _ Hi) Hn Hk) as ((Hg & Hu & Hd & Hlk) & _ & _). cbn [fst snd] in *.
  set (se := default (MkSession id "" "" 0 0 [] [] "" 0 "") (sessions (sv_store sv) !! id)).
  exists (id, Inside se mine).
  assert (at_ id (sv_store sv) (Inside se mine)) as Hat.
  { split; [done|]. split; [done|]. split; [done|]. subst se. destruct (sessions (sv_store sv) !! id) as [se|] eqn:E; cbn.
    - apply Hg in E as Hse. destruct Hse as (_ & _ & ? & Hids). split_and!; [by left|done|]. intros x Hx. split; [by apply Hids|].
      intros Hm. apply Hu in Hm as (_ & _ & Hp). apply Hp. by exists id, se.
    - split_and!; [by right| |by intros x ?%elem_of_nil]. split; [constructor|constructor|by left]. }
  eapply (swap_inv _ _ n _ (id, Waiting l mine)); [exact Hi|exact Hn|exact Hk|apply set_lock_aside| | | | |].
  - split; [eapply aside_at; [apply set_lock_aside|exact Hat]|]. split; [split; [done|]|].
    + apply Hgot. by exists se.
    + split; [done|]. eapply aside_lock_of; [apply set_lock_aside|]. exact Hlk.
  - done.
  - done.
  - intros l0 [= <-]. split; [|by right]. cbn. apply list_lookup_insert_eq. apply Hlk.
  - intros i ti l0 Hne Hti Hl0. assert (l0 ≠ l) as Hll.
    { intros ->. pose proof (si_held _ _ Hi _ _ _ Hti Hl0). congruence. }
    cbn. rewrite list_lookup_insert_ne by done. by eapply si_held.
Qed.
Lemma on_task_inv n f sv ks :
  SInv sv ks →
  (∀ t k t' s', sv_tasks sv !! n = Some t → ks !! n = Some k → f t (sv_store sv) = Some (t', s') →
    ∃ k', SInv (MkServe s' (<[n := t']> (sv_tasks sv))) (<[n := k']> ks)) →
  ∃ k', SInv (on_task n f sv) (<[n := k']> ks).
Proof.
  intros Hi Hf. unfold on_task. destruct (sv_tasks sv !! n) as [t|] eqn:Ht; cbn.
  - destruct (Forall2_lookup_l _ _ _ _ _ (si_tasks _ _ Hi) Ht) as (k & Hk & _).
    destruct (f t (sv_store sv)) as [[t' s']|] eqn:E; [by eapply Hf|]. exists k. by rewrite list_insert_id.
  - exists ("", Outside false ∅). rewrite list_insert_ge; [done|]. rewrite <-(Forall2_length _ _ _ (si_tasks _ _ Hi)). by apply lookup_ge_None_1.
Qed.
(** The task keeps the lock it holds while it acts. *)
Lemma keeps_lock sv ks n t k s' v' :
  SInv sv ks → sv_tasks sv !! n = Some t → ks !! n = Some k → may k.1 (sv_store sv) k.2 s' v' →
  match held_by t with Some l => is_inside v' = true ∧ lock_of k.1 l s' | None => is_inside v' = false end.
Proof.
  intros Hi Hn Hk Hm. destruct (Forall2_lookup_lr _ _ _ _ _ _ (si_tasks _ _ Hi) Hn Hk) as (Hat & _ & Hin).
  rewrite (may_inside _ _ _ _ _ Hm). destruct (held_by t); [|done]. destruct Hin as [Hin Hl]. split; [done|].
  assert (has_seen k.2 = true) as Hs by (by destruct k as [? []]).
  eapply lock_of_stays; [done|done|done| |done]. by eapply (si_seen _ _ Hi n n).
Qed.
Lemma move_inv n m sv ks : SInv sv ks → ∃ k', SInv (on_task n (move_task m) sv) (<[n := k']> ks).
Proof.
  intros Hi. eapply on_task_inv; [done|]. intros t [i v] t' s' Hn Hk Hm.
  pose proof (Forall2_lookup_lr _ _ _ _ _ _ (si_tasks _ _ Hi) Hn Hk) as (Hat & Hwp & Hin). cbn [fst snd] in *.
  destruct t as [id held p|id l p said|id said b|p|]; try done; cbn in Hm; apply bind_Some in Hm as (r & Hr & [= <- <-]).
  - destruct Hwp as [-> Hwp]. destruct (move_wp _ _ _ _ _ _ _ _ Hwp Hat Hr) as [(-> & v' & Hat' & Hmay & Hwp')|(l & -> & Hw & Hf & -> & Hg)].
    + exists (id, v'). eapply (act_inv _ _ _ _ (id, v)); try done. split; [done|]. split; [done|].
      exact (keeps_lock _ _ _ _ _ _ _ Hi Hn Hk Hmay).
    + destruct held; [destruct Hin; by destruct v|]. by eapply acquire_inv.
  - destruct Hwp as [-> Hwp]. destruct (move_wp _ _ _ _ _ _ _ _ Hwp Hat Hr) as [(_ & v' & Hat' & Hmay & Hwp')|(l' & _ & Hw & _)].
    + exists (id, v'). eapply (act_inv _ _ _ _ (id, v)); try done. split; [done|]. split; [done|].
      exact (keeps_lock _ _ _ _ _ _ _ Hi Hn Hk Hmay).
    + destruct Hin; by destruct v.
  - destruct (move_wp _ _ _ _ _ _ _ _ Hwp Hat Hr) as [(_ & v' & Hat' & Hmay & Hwp')|(l' & _ & Hw & _)]; [|done].
    exists (i, v'). eapply (act_inv _ _ _ _ (i, v)); try done. split; [done|]. split; [done|].
    exact (keeps_lock _ _ _ _ _ _ _ Hi Hn Hk Hmay).
Qed.
Lemma end_inv n sv ks : SInv sv ks → ∃ k', SInv (on_task n end_task sv) (<[n := k']> ks).
Proof.
  intros Hi. eapply on_task_inv; [done|]. intros t [i v] t' s' Hn Hk He.
  pose proof (Forall2_lookup_lr _ _ _ _ _ _ (si_tasks _ _ Hi) Hn Hk) as (Hat & Hwp & Hin). cbn [fst snd] in *.
  assert (∀ s'' t'', aside (sv_store sv) s'' → (∀ l, held_by t ≠ Some l → locks s'' !! l = locks (sv_store sv) !! l) →
    match t'' with TLeaving _ _ _ | TOver _ _ _ => True | _ => False end →
    ∃ k', SInv (MkServe s'' (<[n := t'']> (sv_tasks sv))) (<[n := k']> ks)) as Hends by (intros; eexists; by eapply ends).
  assert (∀ l, locks (set_lock l false (sv_store sv)) = locks (release (Some l) (sv_store sv))) as Hrel by done.
  destruct t as [id held p|id l p said|id said b|p|]; try done; cbn in He.
  - destruct p as [[r|tn]|w| | | | |]; try by destruct held.
    + assert (He' : Some (TOver (Some r) [] false, release held (sv_store sv)) = Some (t', s')) by (by destruct held). injection He' as <- <-.
      apply Hends; [apply release_aside|apply release_locks|done].
    + destruct held as [l|]; [|done]. injection He as <- <-. destruct Hwp as [-> (Htn & se & -> & Ha)].
      exists (id, Inside se ∅). eapply (act_inv _ _ _ _ (id, _)); try done; [apply may_refl|].
      split; [done|]. split; [|done]. split; [done|]. eapply wp_weaken; [by eapply wp_stream_task|done].
    + assert (He' : Some (TOver None [] true, release held (sv_store sv)) = Some (t', s')) by (by destruct held). injection He' as <- <-.
      apply Hends; [apply release_aside|apply release_locks|done].
  - destruct p; try done; injection He as <- <-; (apply Hends; [apply set_lock_aside| |done]); intros l' Hl'; rewrite Hrel; by apply release_locks.
  - injection He as <- <-. apply Hends; [apply clear_aside| |done]. intros l' _. unfold clear_active_stream_cancel.
    by destruct (active_stream_cancels _ !! _).
  - destruct p; try done; injection He as <- <-; by apply Hends.
Qed.
Lemma drop_inv n sv ks : SInv sv ks → ∃ k', SInv (on_task n drop_task sv) (<[n := k']> ks).
Proof.
  intros Hi. eapply on_task_inv; [done|]. intros t k t' s' Hn Hk He.
  destruct t as [id held p|id l p said|id said b|p|]; try done; injection He as <- <-; eexists; eapply ends; try done.
  - apply release_aside.
  - apply release_locks.
Qed.
(** The task that an event is about. *)
Definition acts (ev : SEvent (J:=J)) : option nat :=
  match ev with EMove n _ | EEnd n | EDrop n => Some n | EStart _ | ETime _ => None end.
Lemma step_inv ev sv ks :
  (∀ token id message stream, ev ≠ EStart (OPrompt token id message stream)) → SInv sv ks →
  ∃ ks', SInv (sv_step ev sv) ks' ∧ ∀ n k, ks !! n = Some k → acts ev ≠ Some n → ks' !! n = Some k.
Proof.
  intros Hev Hi.
  assert (∀ n sv', (∃ k', SInv sv' (<[n := k']> ks)) →
    ∃ ks', SInv sv' ks' ∧ ∀ i k, ks !! i = Some k → Some n ≠ Some i → ks' !! i = Some k) as on_one.
  { intros n sv' [k' Hk']. exists (<[n := k']> ks). split; [done|]. intros i k Hk Hni. rewrite list_lookup_insert_ne; [done|congruence]. }
  destruct ev as [op|n m|n|n|t].
  - cbn. assert (∀ token id message stream, op ≠ OPrompt token id message stream) as Hop by (intros ???? ->; by eapply Hev).
    apply wp_simple in Hop. pose proof (si_good _ _ Hi) as Hg.
    destruct (start op) as [id held p| | |p|] eqn:E; try by destruct op.
    + destruct op; try done. injection E as <- <- <-. eexists.
      split; [|by intros n k ?%(lookup_app_l_Some _ [(id0, Outside false ∅)])]. eapply (begins _ _ _ id0); [done| |done].
      split; [by apply outside_at|]. split; [|done]. split; [done|]. apply wp_prompt_stream.
    + destruct Hop as [id Hop]. eexists. split; [|by intros n k ?%(lookup_app_l_Some _ [(id, Outside false ∅)])]. eapply (begins _ _ _ id); [done| |done]. split; [by apply outside_at|done].
  - apply on_one, move_inv, Hi.
  - apply on_one, end_inv, Hi.
  - apply on_one, drop_inv, Hi.
  - exists ks. split; [|done]. destruct Hi as [Hg Ht H1 H2 H3 H4]. assert (aside (sv_store sv) (set_now t (sv_store sv))) as Ha by done.
    split; try done; cbn; [by eapply aside_good|]. eapply Forall2_impl; [done|]. intros. by eapply aside_ok.
Qed.
Lemma run_inv l : streamed l → ∃ ks, SInv (sv_run l) ks.
Proof.
  intros Hl. unfold sv_run. assert (∃ ks, SInv sv_init ks) as H0.
  { exists []. by split. }
  revert Hl H0. generalize (sv_init : Serve). induction l as [|ev l IH]; intros sv Hl [ks Hi]; [by exists ks|]. cbn. apply IH.
  - intros token id message stream Hin. eapply Hl. by right.
  - destruct (step_inv ev sv ks) as (ks' & Hi' & _); [|done|by exists ks']. intros token id message stream ->. eapply Hl. by left.
Qed.
End safe.
