(* ===== verification/SessionScenario.v ===== *)
(** * Runs of a small store of sessions *)

From S2P Require Import Prelude.
From S2P Require Import Text.
From S2P Require Import Calls.
From S2P Require Import ChatStream.
From S2P Require Import Session.
From S2P Require Import SessionTurn.
From S2P Require Import SessionRuns.

(** Values of JSON, and texts for those that the runs use: the content of a
    message, a count of tokens, a tool call. *)
Inductive SampleValue :=
| JNull | JText (s : string) | JNumber (n : Z) | JArray (l : list SampleValue) | JObject (l : list (string * SampleValue)).
Definition sample_get (key : string) (v : SampleValue) : option SampleValue :=
  match v with JObject l => snd <$> head (filter (λ p, p.1 = key) l) | _ => None end.
Definition delta_of (fields : list (string * SampleValue)) : SampleValue :=
  JObject [("choices", JArray [JObject [("delta", JObject fields)]])].
Definition message_of (text : string) : SampleValue :=
  JObject [("choices", JArray [JObject [("message", JObject [("content", JText text)])]])].
Definition usage_of (n : Z) : string * SampleValue := ("usage", JObject [("prompt_tokens", JNumber n)]).
Definition a_tool_call : SampleValue :=
  JObject [("index", JNumber 0); ("id", JText "t1");
           ("function", JObject [("name", JText "search"); ("arguments", JText "x")])].
Definition sample_from_str (s : string) : option SampleValue :=
  match s with
  | String "c" (String ":" text) => Some (delta_of [("content", JText text)])
  | String "u" (String ":" n) => n ← parse_u64 n; Some (JObject [usage_of n])
  | String "n" (String ":" text) =>
      Some (JObject [("usage", JNull); ("choices", JArray [JObject [("delta", JObject [("content", JText text)])]])])
  | "t" => Some (delta_of [("tool_calls", JArray [a_tool_call])])
  | _ => None
  end.
Definition has_cr (s : string) : bool := existsb (λ c, bool_decide (c = carriage_return)) (chars s).
#[export] Instance sample_crates : ChatCrates SampleValue := {|
  from_str := sample_from_str;
  jget := sample_get;
  jarray v := match v with JArray l => Some l | _ => None end;
  jstr v := match v with JText s => Some s | _ => None end;
  ju64 v := match v with JNumber n => if decide (0 ≤ n)%Z then Some n else None | _ => None end;
  jobject v := match v with JObject _ => true | _ => false end;
  tool_call_of v := None;
  sse_accepts s := negb (has_cr s);
|}.
#[export] Instance sample_sizes : ChatSizes SampleValue := {|
  message_bytes m := Z.of_nat (len (m_content m));
  model_messages_bytes l := foldr Z.add 0%Z ((λ m, Z.of_nat (len (mm_content m))) <$> l);
  request_bytes r := foldr Z.add 0%Z ((λ m, Z.of_nat (len (mm_content m))) <$> mr_messages r);
  uuid n := "id" +:+ pretty n;
|}.
#[export] Instance sample_sizes_spec : ChatSizesSpec SampleValue.
Proof.
  split; [intros m; cbn; lia|]. intros n m Hnm. cbn in Hnm. by apply (inj _), (inj pretty) in Hnm.
Qed.
#[export] Instance sample_order : SessionOrder SampleValue := λ m, (map_to_list m).*2.
#[export] Instance sample_order_spec : SessionOrderSpec SampleValue.
Proof. by intros m. Qed.
#[export] Instance sample_config : ChatConfig := {|
  env _ := None; gatewayPort := 4000%Z; cfg_postturn_ratio := 80%Z; cfg_preflight_ratio := 90%Z;
  cfg_first_call_ratio := 85%Z; cfg_recent_context_budget := 20%Z;
|}.
Abbreviation SEvent := (SEvent (J:=SampleValue)).
Abbreviation Serve := (Serve (J:=SampleValue)).

Definition nl_ : string := of_chars [newline].
Definition data_line (t : string) : string := "data: " +:+ t +:+ nl_.
(** What happened to a session, as roles and contents. *)
Definition texts (l : list (Message SampleValue)) : list (string * string) := (λ m, (m_role m, m_content m)) <$> l.
Definition shown (id : string) (sv : Serve) : option (list (string * string)) :=
  (λ se, texts (s_messages se)) <$> (sessions (sv_store sv) !! id).
Definition sent (id : string) (sv : Serve) : option (list (string * string)) :=
  (λ se, texts (s_model_messages se)) <$> (sessions (sv_store sv) !! id).

Definition me : AccessToken := MkAccessToken (Some "acme") None.
Definition go (n k : nat) : list SEvent := replicate k (EMove n MGo).
Definition answers (n : nat) (r : WorldReply) : SEvent := EMove n (MAnswer r).
Definition body (json : string + SampleValue) : WorldReply (J:=SampleValue) := WPost (inr (MkHttp 200 json None)).
(** Task 0 creates the session "id0". *)
Definition created : list SEvent :=
  [EStart (OCreate me "key" (Some "llama")); answers 0 (WPublished None)] ++ go 0 3 ++ [answers 0 (WTools (inr [])); EEnd 0].
(** A prompt with a stream, up to the answer of the model. *)
Definition prompted (n : nat) (text : string) : list SEvent :=
  [EStart (OPromptStream me "id0" text)] ++ go n 3 ++ [answers n (WTools (inr []))] ++ go n 7
  ++ [answers n (WMeta (inr (Some (Some 1000%Z))))] ++ go n 1.
(** The first answer as a stream. *)
Definition answered (n : nat) (items : list StreamItem) : list SEvent :=
  [answers n (body (inl "no json")); EEnd n; answers n (WStream items)].
(** The end of a stream: the lock is released, then the token is cleared. *)
Definition finished (n : nat) : list SEvent := [EEnd n; EEnd n].

(** ** A turn *)

Definition a_turn : list SEvent :=
  created ++ prompted 1 "hello" ++ answered 1 [Chunk (data_line "c:hi"); Chunk (data_line "u:10")] ++ go 1 9.
Example turn_runs :
  shown "id0" (sv_run a_turn) = Some [("user", "hello"); ("assistant", "hi")] ∧
  drop 1 (sv_tasks (sv_run (a_turn ++ [EEnd 1]))) = [TLeaving "id0" [SData "hi"; SComplete "id2"; SDone] false].
Proof. by vm_compute. Qed.

(** ** What goes wrong *)

(** The next prompt waits for the lock of the first; it is given it before the
    first clears its token, which cancels the next one. *)
Definition stale_clear : list SEvent :=
  a_turn ++ [EStart (OPromptStream me "id0" "again")] ++ go 2 3 ++ [answers 2 (WTools (inr []))] ++ go 2 3
  ++ [EEnd 1] ++ go 2 4 ++ [EEnd 1; answers 2 (WMeta (inr (Some (Some 1000%Z))))] ++ go 2 1
  ++ [EMove 2 MCancelled] ++ go 2 2 ++ [EEnd 2].
Example stale_clear_runs :
  drop 1 (sv_tasks (sv_run stale_clear)) =
    [TOver None [SData "hi"; SComplete "id2"; SDone] false; TOver (Some RInterrupted) [] false] ∧
  shown "id0" (sv_run stale_clear) = Some [("user", "hello"); ("assistant", "hi")].
Proof. by vm_compute. Qed.

(** A turn with tools that used too much is compacted twice: the summary is
    summarized again, and two markers are left. *)
Definition long_question : string := "a question that is so long that it does not fit into the twenty tokens that are kept of the context, by far".
Definition long_summary : string := "## Summary: someone asked a question that is so long that it does not fit into the tokens that are kept".
Definition two_markers : list SEvent :=
  created ++ prompted 1 long_question ++ answered 1 [Chunk (data_line "c:hi"); Chunk (data_line "u:10")] ++ go 1 9 ++ finished 1
  ++ prompted 2 "search" ++ answered 2 [Chunk (data_line "t"); Chunk (data_line "u:100")]
  ++ go 2 2 ++ [answers 2 (WSkills [(0, SkillCancelled)] true)] ++ go 2 3
  ++ [answers 2 (body (inl "")); answers 2 (WStream [Chunk (data_line "c:found"); Chunk (data_line "u:900")])]
  ++ go 2 6 ++ [answers 2 (body (inr (message_of long_summary)))] ++ go 2 7
  ++ [answers 2 (body (inr (message_of long_summary)))] ++ go 2 3 ++ finished 2.
Example two_markers_run :
  shown "id0" (sv_run two_markers) =
    Some [("user", long_question); ("assistant", "hi"); ("user", "search"); ("assistant", "found"); ("compaction", ""); ("compaction", "")] ∧
  sent "id0" (sv_run two_markers) = Some [("system", long_summary); ("assistant", "hi"); ("user", "search"); ("assistant", "found")].
Proof. by vm_compute. Qed.

(** A prompt without a stream does not take the lock: its message comes while
    the context is compacted, and is lost from it. *)
Definition lost_message : list SEvent :=
  created ++ prompted 1 long_question ++ answered 1 [Chunk (data_line "c:hi"); Chunk (data_line "u:10")] ++ go 1 9 ++ finished 1
  ++ prompted 2 "more" ++ answered 2 [Chunk (data_line "c:well"); Chunk (data_line "u:900")] ++ go 2 9
  ++ [EStart (OPrompt me "id0" "and?" false)] ++ go 3 3
  ++ [answers 3 (WMeta (inr (Some (Some 1000%Z)))); answers 3 (WTools (inr []))] ++ go 3 3
  ++ [answers 2 (body (inr (message_of "the summary")))] ++ go 2 3.
Example lost_message_runs :
  shown "id0" (sv_run lost_message) =
    Some [("user", long_question); ("assistant", "hi"); ("user", "more"); ("assistant", "well"); ("user", "and?"); ("compaction", "")] ∧
  sent "id0" (sv_run lost_message) = Some [("system", "the summary"); ("assistant", "hi"); ("user", "more"); ("assistant", "well")].
Proof. by vm_compute. Qed.

(** A carriage return in the answer panics the task of the stream: the prompt
    stays without an answer, and the client is not told. *)
Definition return_panics : list SEvent :=
  created ++ prompted 1 "hello" ++ answered 1 [Chunk (data_line ("c:a" +:+ of_chars [carriage_return] +:+ "b"))] ++ finished 1.
Example return_panics_runs :
  drop 1 (sv_tasks (sv_run return_panics)) = [TOver None [] true] ∧ shown "id0" (sv_run return_panics) = Some [("user", "hello")].
Proof. by vm_compute. Qed.

(** A client that goes away before its stream begins leaves its prompt behind,
    and the token of its turn registered. *)
Definition client_leaves : list SEvent := created ++ prompted 1 "hello" ++ [EDrop 1].
Example client_leaves_runs :
  shown "id0" (sv_run client_leaves) = Some [("user", "hello")] ∧ active_stream_cancels (sv_store (sv_run client_leaves)) !! "id0" = Some 0.
Proof. by vm_compute. Qed.

(** A prompt that asks for a stream on the other route is told to go there, but
    its message is stored. *)
Definition redirected : list SEvent :=
  created ++ [EStart (OPrompt me "id0" "hello" true)] ++ go 1 3
  ++ [answers 1 (WMeta (inr None)); answers 1 (WTools (inr []))] ++ go 1 3 ++ [EEnd 1].
Example redirected_runs :
  drop 1 (sv_tasks (sv_run redirected)) = [TOver (Some (RPrompt 307 "" "Use /sessions/{id}/prompt_stream for streaming" [])) [] false] ∧
  shown "id0" (sv_run redirected) = Some [("user", "hello")].
Proof. by vm_compute. Qed.

(** A session that is deleted while a prompt is on its way to the lock leaves an
    entry for its lock, for ever; the model is asked with no message. *)
Definition deleted_meanwhile : list SEvent :=
  created ++ [EStart (OPromptStream me "id0" "hello")] ++ go 1 3 ++ [answers 1 (WTools (inr []))]
  ++ [EStart (ODelete me "id0")] ++ go 2 4 ++ [EEnd 2] ++ go 1 7 ++ [answers 1 (WMeta (inr (Some (Some 1000%Z))))] ++ go 1 1.
Example deleted_meanwhile_runs :
  sessions (sv_store (sv_run deleted_meanwhile)) !! "id0" = None ∧ session_locks (sv_store (sv_run deleted_meanwhile)) !! "id0" = Some 0 ∧
  match sv_tasks (sv_run deleted_meanwhile) !! 1 with
  | Some (TPrompt _ _ (CSelect tok q _ _)) =>
      match q with QPost _ _ r => mr_messages r = [plain_message "system" FIRST_CALL_SYSTEM_PROMPT] | _ => False end
  | _ => False
  end.
Proof. by vm_compute. Qed.

(** The first answer drops the content of an event whose usage is null; later
    answers do not. *)
Definition null_usage : StreamItem := Chunk (data_line "n:hi").
Example null_usage_runs :
  first_stream (S:=unit) (Q:=λ _, unit) [null_usage] = CRet (MkFirst "" [] 0 None, None) ∧
  consume_content_stream (S:=unit) (Q:=λ _, unit) [null_usage] = CSay (SData "hi") (CRet (Completed (MkContent "hi" 0))).
Proof. by vm_compute. Qed.
(** A tool call in a last line without its newline is not seen. *)
Example last_line_runs :
  first_stream (S:=unit) (Q:=λ _, unit) [Chunk "data: t"] = CRet (MkFirst "" [] 0 None, None) ∧
  first_stream (S:=unit) (Q:=λ _, unit) [Chunk (data_line "t")] =
    CRet (MkFirst "" [MkToolCall "t1" "function" (MkFunctionCall "search" "x")] 0 None, None).
Proof. by vm_compute. Qed.
(** A character that is cut in two by the end of a chunk is replaced. *)
Example cut_character :
  let e_acute := ascii_of_nat <$> [195; 169] in
  from_utf8_lossy (of_chars e_acute) = e_acute ∧
  from_utf8_lossy (of_chars (take 1 e_acute)) ++ from_utf8_lossy (of_chars (drop 1 e_acute)) = replacement ++ replacement.
Proof. by vm_compute. Qed.
(** Ten minutes and a half are not more than ten minutes. *)
Example half_a_minute_more : ¬ timed_out (J:=SampleValue) (630 * 1000000000) (MkSession "" "" "" 0 0 [] [] "" 0 "").
Proof. by vm_compute. Qed.
