(* ===== verification/SessionProps.v ===== *)
(** * What holds of sessions *)

From S2P Require Import Prelude.
From S2P Require Import Text.
From S2P Require Import BTree.
From S2P Require Import Calls.
From S2P Require Import ChatStream.
From S2P Require Import ChatStreamProps.
From S2P Require Import Session.
From S2P Require Import SessionTurn.
From S2P Require Import SessionRuns.
From S2P Require Import SessionInv.
From S2P Require Import SessionSteps.
From S2P Require Import SessionSafe.
From S2P Require Import SessionScenario.

Section said.
Context {J : Type} {crates : ChatCrates J} {sizes : ChatSizes J} {order : SessionOrder J} {config : ChatConfig}.
Abbreviation C := (call (SessionStore J) (Question J) SseEvent).
Implicit Types (m said : list SseEvent) (tn : Turn).

(** ** What a stream says *)

Definition undone {A} (_ : A) m : Prop := SDone ∉ m.
(** A turn that goes on has not said it is done; one that stops has, at the end. *)
Definition turned_says (turned : option Z) m : Prop :=
  match turned with Some _ => SDone ∉ m | None => ∃ body, m = body ++ [SDone] ∧ (SDone ∉ body) end.
(** The end is said once; only that the context is compacted may come after it. *)
Definition ended said : Prop :=
  ∃ body tail, said = body ++ SDone :: tail ∧ (SDone ∉ body) ∧ (tail = [] ∨ tail = [SCompacting; SCompacted]).

Lemma undone_then {A B} (p : C A) (f : A → C B) : says undone p [] → (∀ a, says undone (f a) []) → says undone (p ≫= f) [].
Proof.
  intros Hp Hf. eapply says_then; [done|]. intros a m Hm. eapply says_mono; [apply Hf|]. intros b m' Hm' Hin.
  by apply elem_of_app in Hin as [?|?].
Qed.
Lemma turned_then {A} (p : C A) (f : A → C (option Z)) :
  says undone p [] → (∀ a, says turned_says (f a) []) → says turned_says (p ≫= f) [].
Proof.
  intros Hp Hf. eapply says_then; [done|]. intros a m Hm. eapply says_mono; [apply Hf|]. intros [z|] m' Hm'; cbn in *.
  - intros Hin. by apply elem_of_app in Hin as [?|?].
  - destruct Hm' as (body & -> & Hb). exists (m ++ body). rewrite (assoc_L (++)). split; [done|].
    intros Hin. by apply elem_of_app in Hin as [?|?].
Qed.
Lemma undone_nil {A} (a : A) : undone a [].
Proof. apply not_elem_of_nil. Qed.
Lemma undone_one {A} (a : A) o : o ≠ SDone → undone a [o].
Proof. intros Ho Hin. by apply list_elem_of_singleton in Hin. Qed.
Lemma undone_say o : o ≠ SDone → says undone (say o : C unit) [].
Proof. intros Ho. cbn. by apply undone_one. Qed.
Lemma undone_try {E A} (x : outcome E A) : says undone (try_ x : C A) [].
Proof. destruct x; cbn; [apply undone_nil|done..]. Qed.
Lemma undone_each {B} (f : B → C unit) l : (∀ b, says undone (f b) []) → says undone (eachC f l) [].
Proof. intros Hf. induction l as [|b l IH]; cbn [eachC]; [apply undone_nil|]. by apply undone_then. Qed.
#[local] Hint Resolve undone_nil undone_say undone_try : core.
#[local] Hint Extern 1 (_ ≠ SDone) => discriminate : core.

Lemma undone_append id text : says undone (append_assistant_message id text) [].
Proof. cbn. auto. Qed.
Definition silent {A} (_ : A) m : Prop := m = [].
Lemma silent_then {A B} (φ : B → list SseEvent → Prop) (p : C A) (f : A → C B) :
  says silent p [] → (∀ a, says φ (f a) []) → says φ (p ≫= f) [].
Proof. intros Hp Hf. eapply says_then; [done|]. by intros a m ->. Qed.
Lemma silent_try {E A} (x : outcome E A) : says silent (try_ x : C A) [].
Proof. by destruct x. Qed.
Lemma silent_undone {A} (p : C A) : says silent p [] → says undone p [].
Proof. intros Hp. eapply says_mono; [done|]. intros a m ->. apply undone_nil. Qed.
Lemma silent_compact id endpoint api_key : says silent (compact_session id endpoint api_key) [].
Proof.
  apply silent_then; [by intros s|]. intros [se|]; [|done]. apply silent_then; [apply silent_try|]. intros kept. cbv zeta.
  case_decide; [done|]. apply silent_then; [by intros x|]. intros [e|resp]; [done|].
  destruct (is_success _); [|done]. destruct (http_json resp); [done|].
  destruct (message_content _); [|done]. by case_decide.
Qed.
Lemma told_compaction_says tn : says (λ _ m, m = [SCompacting; SCompacted]) (told_compaction tn) [].
Proof.
  apply (says_then (λ _ m, m = [SCompacting])); [done|]. intros _ m ->. apply silent_then; [apply silent_compact|]. done.
Qed.
Lemma undone_told tn : says undone (told_compaction tn) [].
Proof. eapply says_mono; [apply told_compaction_says|]. intros a m -> Hin. set_solver. Qed.
Lemma undone_finalize id u partial calls : says undone (finalize_interrupted_prompt id u partial calls) [].
Proof. unfold finalize_interrupted_prompt. destruct (interrupted_turn_storage_decision _ _); cbn; auto. Qed.
Lemma interrupted_says tn partial calls : says turned_says (interrupted tn partial calls) [].
Proof.
  apply turned_then; [apply undone_finalize|]. intros _. cbn. exists [SInterrupted]. split; [done|]. set_solver.
Qed.
Lemma undone_model_messages id : says undone (get_model_messages id : C _) [].
Proof. cbn. auto. Qed.
#[local] Hint Resolve undone_append undone_told undone_finalize undone_model_messages interrupted_says : core.

(** Reading: nothing but content is said. *)
Lemma undone_content_line st line : says undone (content_line st line : C _) [].
Proof.
  unfold content_line. destruct (parse_content_stream_line line) as [| |p|delta]; cbn; auto.
  unfold send_delta. destruct (sse_accepts delta); cbn; [by apply undone_one|done].
Qed.
Lemma undone_pump_lines {St} (on_line : St → string → C (St * bool)) fuel buf st :
  (∀ st line, says undone (on_line st line) []) → says undone (pump_lines on_line fuel buf st) [].
Proof.
  intros Hon. revert buf st. induction fuel as [|fuel IH]; intros buf st; [cbn; auto|]. cbn [pump_lines].
  destruct (next_line buf) as [[line rest]|]; [|cbn; auto]. apply undone_then; [done|]. intros [st' []]; [apply IH|cbn; auto].
Qed.
Lemma undone_pump {St} (on_line : St → string → C (St * bool)) items buf st :
  (∀ st line, says undone (on_line st line) []) → says undone (pump on_line items buf st) [].
Proof.
  intros Hon. revert buf st. induction items as [|[b|e|] items IH]; intros buf st; cbn [pump]; [cbn; auto| |cbn; auto..].
  apply undone_then; [by apply undone_pump_lines|]. intros r. apply IH.
Qed.
Lemma undone_content_stream items : says undone (consume_content_stream items : C _) [].
Proof.
  apply undone_then; [apply undone_pump, undone_content_line|]. intros [[buf st] [[e|]|]]; [cbn; auto..|].
  case_decide; [cbn; auto|]. apply undone_then; [apply undone_content_line|]. intros r. cbn. auto.
Qed.
Lemma undone_first_delta st choice : says undone (first_delta st choice : C _) [].
Proof.
  unfold first_delta. destruct (delta_content choice); [|cbn; auto].
  unfold send_delta. destruct (sse_accepts _); cbn; [by apply undone_one|done].
Qed.
Lemma undone_first_line st line : says undone (first_line st line : C _) [].
Proof.
  unfold first_line. destruct (strip_prefix _ _) as [data|]; [|cbn; auto]. case_decide; [cbn; auto|].
  destruct (from_str data) as [json|]; [|cbn; auto]. destruct (jget "usage" json); [cbn; auto|].
  destruct (first_choice json); [|cbn; auto]. apply undone_then; [apply undone_first_delta|]. intros st'.
  apply undone_then; [apply undone_try|]. intros calls. cbn. auto.
Qed.
Lemma undone_first_stream items : says undone (first_stream items : C _) [].
Proof.
  apply undone_then; [apply undone_pump, undone_first_line|]. intros [[buf st] stopped]. case_decide; [cbn; auto|].
  apply undone_then; [|intros st'; cbn; auto]. unfold first_trailing. destruct (strip_prefix _ _) as [data|]; [|cbn; auto].
  case_decide; [cbn; auto|]. destruct (from_str data) as [json|]; [|cbn; auto]. destruct (jget "usage" json); [cbn; auto|].
  destruct (first_choice json); [|cbn; auto]. apply undone_first_delta.
Qed.

(** The branches of a turn. *)
Lemma error_says e msg p : says turned_says (_ ← say (SError e msg); mret (Some p) : C (option Z)) [].
Proof. cbn. set_solver. Qed.
Lemma over_says (b : bool) tn : says undone (if b then _ ← told_compaction tn; mret tt else mret tt : C unit) [].
Proof. destruct b; [|cbn; auto]. apply undone_then; [auto|]. intros r. cbn. auto. Qed.
#[local] Hint Resolve error_says over_says undone_content_stream undone_first_stream : core.
Lemma retry_says tn calls suffix full p : says turned_says (run_synthesis_retry tn calls suffix full p) [].
Proof.
  apply turned_then; [auto|]. intros prior. split; [auto|]. intros [e|resp]; [cbn; set_solver|].
  destruct (is_success _); [|case_decide; cbn; set_solver].
  apply turned_then; [cbn; auto|]. intros items. apply turned_then; [auto|]. intros [st|st|st e]; [|auto|cbn; set_solver].
  case_decide; [|auto]. apply turned_then; [auto|]. intros mid. apply turned_then; [auto|]. intros _. cbn. set_solver.
Qed.
Lemma refused_says tn resp calls suffix full p : says turned_says (synthesis_refused tn resp calls suffix full p) [].
Proof.
  unfold synthesis_refused. destruct (_ && _); [|cbn; set_solver]. apply turned_then; [auto|].
  intros []; [apply retry_says|auto..].
Qed.
Lemma synthesis_says tn prior calls suffix full p : says turned_says (synthesis tn prior calls suffix full p) [].
Proof.
  split; [auto|]. intros [e|resp]; [cbn; set_solver|]. destruct (is_success _); [|apply refused_says].
  apply turned_then; [cbn; auto|]. intros items. apply turned_then; [auto|]. intros [st|st|st e]; [|auto|cbn; set_solver].
  case_decide; [|auto]. apply turned_then; [auto|]. intros mid. apply turned_then; [auto|]. intros _. cbn. set_solver.
Qed.
Lemma preflight_says tn calls suffix full p : says turned_says (synthesis_preflight tn calls suffix full p) [].
Proof.
  apply turned_then; [auto|]. intros prior. apply turned_then; [case_decide; [auto|cbn; auto]|]. intros est.
  destruct (preflight_decision _ _ _); [|apply synthesis_says]. apply turned_then; [auto|]. intros _.
  apply turned_then; [auto|]. intros prior'. cbv zeta. destruct (preflight_decision _ _ _); [|apply synthesis_says].
  cbn. eexists [_]. split; [done|]. set_solver.
Qed.
Lemma tools_says tn st : says turned_says (run_tools tn st) [].
Proof.
  apply turned_then; [cbn; auto|]. intros [|]; [auto|]. apply turned_then; [apply undone_each; auto|]. intros _.
  apply turned_then; [cbn; auto|]. intros done. apply turned_then.
  { apply undone_each. intros d. destruct (_ !! _); [auto|cbn; auto]. }
  intros _. apply turned_then; [cbn; auto|]. intros [|]; [auto|]. apply preflight_says.
Qed.
Lemma after_first_says tn st stopped : says turned_says (after_first tn st stopped) [].
Proof.
  destruct stopped as [[e|]|]; cbn [after_first]; [|auto|].
  - apply turned_then; [destruct (_ && _); cbn; auto|]. intros _. cbn. eexists [_]. split; [done|]. set_solver.
  - destruct (wants_tools st); [apply tools_says|]. case_decide.
    + apply turned_then; [auto|]. intros mid. cbn. set_solver.
    + apply turned_then; [cbn; auto|]. intros _. auto.
Qed.
Lemma stream_task_says tn : says (λ _ : unit, ended) (stream_task tn) [].
Proof.
  apply (says_then (λ _ m, m = [])); [done|]. intros items m ->. eapply says_then; [apply undone_first_stream|].
  intros [st stopped] m1 H1. eapply says_then; [apply after_first_says|]. intros [p|] m2 H2; cbn in H2.
  - apply (says_then (λ _ m, m = [SDone])); [done|]. intros _ m3 ->.
    assert (∀ tail, tail = [] ∨ tail = [SCompacting; SCompacted] → ended ([] ++ m1 ++ m2 ++ [SDone] ++ tail)) as Hend.
    { intros tail Ht. exists (m1 ++ m2), tail. split; [by rewrite <-!(assoc_L (++))|]. split; [|done].
      intros Hin. by apply elem_of_app in Hin as [?|?]. }
    case_decide; [|cbn; apply Hend; auto]. intros s. destruct (over_threshold _ _); [|cbn; apply Hend; auto].
    eapply says_then; [apply told_compaction_says|]. intros r m4 ->. cbn. apply Hend. auto.
  - destruct H2 as (body & -> & Hb). cbn. exists (m1 ++ body), []. rewrite app_nil_r, <-!(assoc_L (++)). split; [done|].
    split; [|by left]. intros Hin. by apply elem_of_app in Hin as [?|?].
Qed.

(** *** In a run *)

Definition said_ok (t : Task (J:=J)) : Prop :=
  match t with
  | TStream _ _ p said => says (λ _ : unit, ended) p said
  | TLeaving _ said false => ended said
  | _ => True
  end.
Lemma move_says {A} (φ : A → list SseEvent → Prop) (mv : Move) (p : C A) s r said :
  says φ p said → move mv p s = Some r → says φ (mv_call r) (said ++ mv_said r).
Proof.
  intros Hp Hm. destruct p as [a|w|upd k|X q k|X tok q c k|l k|o k], mv as [|rep|]; try done; cbn in Hp, Hm.
  - injection Hm as <-. cbn. by rewrite app_nil_r.
  - apply bind_Some in Hm as (x & _ & Hm). case_match; [|done]. injection Hm as <-. cbn. by rewrite app_nil_r.
  - apply bind_Some in Hm as (x & _ & Hm). case_match; [|done]. injection Hm as <-. cbn. rewrite app_nil_r. by destruct Hp.
  - case_match; [|done]. injection Hm as <-. cbn. rewrite app_nil_r. by destruct Hp.
  - case_decide; [|done]. injection Hm as <-. cbn. by rewrite app_nil_r.
  - by injection Hm as <-.
Qed.
Lemma on_task_said n f sv :
  (∀ t s t' s', f t s = Some (t', s') → said_ok t → said_ok t') → Forall said_ok (sv_tasks sv) → Forall said_ok (sv_tasks (on_task n f sv)).
Proof.
  intros Hf Ht. unfold on_task. destruct (sv_tasks sv !! n) as [t|] eqn:Hn; [|done]. cbn.
  destruct (f t (sv_store sv)) as [[t' s']|] eqn:E; [|done]. apply Forall_insert; [done|]. eapply Hf; [done|]. by eapply Forall_lookup_1.
Qed.
Lemma run_said l : Forall said_ok (sv_tasks (sv_run l)).
Proof.
  unfold sv_run. assert (Forall said_ok (sv_tasks (sv_init : SessionRuns.Serve (J:=J)))) as H0 by constructor. revert H0.
  generalize (sv_init : SessionRuns.Serve (J:=J)). induction l as [|ev l IH]; intros sv Hs; [done|]. apply IH. clear IH.
  destruct ev as [op|n m|n|n|t]; [apply Forall_app; split; [done|apply Forall_singleton; by destruct op]|..|done].
  - apply on_task_said; [|done]. intros [id held p|id h p said|id said b|p|] s t' s' Hm Hok; try done; apply bind_Some in Hm as (r & Hr & [= <- <-]); try done.
    by eapply move_says.
  - apply on_task_said; [|done]. intros [id held p|id h p said|id said b|p|] s t' s' He Hok; cbn in He.
    + destruct p as [[r|tn]|w| | | | |], held; simplify_eq; try done. apply stream_task_says.
    + by destruct p; simplify_eq.
    + by simplify_eq.
    + by destruct p; simplify_eq.
    + done.
  - apply on_task_said; [|done]. intros [id held p|id h p said|id said b|p|] s t' s' He Hok; by simplify_eq/=.
Qed.
End said.

(** ** Compaction *)

Section compaction.
Context {J : Type} {crates : ChatCrates J} {sizes : ChatSizes J} {order : SessionOrder J} {config : ChatConfig}
  {sizes_ok : ChatSizesSpec J}.
Implicit Types (l rev : list (Message J)) (s : SessionStore J).

(** The tokens that messages are estimated at. *)
Fixpoint cost l : Z :=
  match l with [] => 0 | m :: l => estimate_serialized_tokens (message_bytes m) + cost l end%Z.
Lemma cost_app l1 l2 : cost (l1 ++ l2) = (cost l1 + cost l2)%Z.
Proof. induction l1; cbn; lia. Qed.
Lemma cost_reverse l : cost (reverse l) = cost l.
Proof. induction l as [|m l IH]; [done|]. rewrite reverse_cons, cost_app, IH. cbn. lia. Qed.
Lemma estimate_nonneg (m : Message J) : (0 ≤ estimate_serialized_tokens (message_bytes m))%Z.
Proof. unfold estimate_serialized_tokens. apply Z.div_pos; [|lia]. pose proof (message_bytes_nonneg m). lia. Qed.
Lemma cost_nonneg l : (0 ≤ cost l)%Z.
Proof. induction l as [|m l IH]; cbn; [lia|]. pose proof (estimate_nonneg m). lia. Qed.
Lemma tail_size_spec budget acc kept rev :
  (0 ≤ acc)%Z → (acc + cost rev ≤ ty_max u64)%Z →
  ∃ j, tail_size budget acc kept rev = Ok (kept + j) ∧ j ≤ length rev
    ∧ (j = 0 ∨ kept + j ≤ 2 ∨ (acc + cost (take j rev) ≤ budget)%Z)
    ∧ (j = length rev ∨ (2 ≤ kept + j ∧ (budget < acc + cost (take (S j) rev))%Z)).
Proof.
  revert acc kept. induction rev as [|m rev IH]; intros acc kept H0 Hfit; cbn [tail_size].
  { exists 0. rewrite Nat.add_0_r. split_and!; auto. }
  cbn [cost] in Hfit. pose proof (estimate_nonneg m) as He. pose proof (cost_nonneg rev) as Hc0.
  rewrite chk_fits by (unfold fits; cbn in *; lia). cbn [mbind outcome_bind]. unfold COMPACTION_MIN_TAIL. case_decide as Hd.
  { exists 0. rewrite Nat.add_0_r. cbn. split_and!; [done|lia|by left|]. right. split; [lia|]. cbn [take cost]. rewrite take_0. cbn [cost]. lia. }
  destruct (IH (acc + estimate_serialized_tokens (message_bytes m))%Z (S kept)) as (j & Hj & Hle & H1 & H2); [lia..|].
  exists (S j). rewrite Hj, Nat.add_succ_comm. cbn [take cost length]. split_and!; [done|lia| |].
  - right. destruct H1 as [->|[?|?]]; [|left; lia|right; lia]. rewrite take_0. cbn [cost]. lia.
  - destruct H2 as [->|[? Hc]]; [by left|]. right. split; [lia|]. cbn [take] in *. lia.
Qed.
Lemma take_reverse l n : n ≤ length l → take n (reverse l) = reverse (drop (length l - n) l).
Proof.
  intros Hn. rewrite <-(take_drop (length l - n) l) at 1. rewrite reverse_app.
  rewrite take_app_le by (rewrite length_reverse, length_drop; lia).
  apply take_ge. rewrite length_reverse, length_drop. lia.
Qed.
(** The last [n] messages are what a context of [l] is cut to. *)
Definition is_tail (n : nat) l : Prop :=
  let budget := agent_compaction_recent_context_token_budget in
  n ≤ length l ∧ (n ≤ 2 ∨ (cost (drop (length l - n) l) ≤ budget)%Z)
  ∧ (n = length l ∨ (2 ≤ n ∧ (budget < cost (drop (length l - S n) l))%Z)).
Lemma tail_size_is_tail l :
  (cost l ≤ ty_max u64)%Z → ∃ n, tail_size agent_compaction_recent_context_token_budget 0 0 (reverse l) = Ok n ∧ is_tail n l.
Proof.
  intros Hfit. destruct (tail_size_spec agent_compaction_recent_context_token_budget 0 0 (reverse l)) as (n & Hn & Hle & H1 & H2);
    [lia|by rewrite cost_reverse|].
  rewrite length_reverse in *. cbn in Hn. exists n. split; [done|]. split_and!; [done| |].
  - destruct H1 as [?|[?|H1]]; [left; lia|left; lia|]. right. by rewrite take_reverse, cost_reverse in H1.
  - destruct (decide (n = length l)) as [|Hne]; [by left|]. right. destruct H2 as [?|[? H2]]; [done|].
    rewrite take_reverse, cost_reverse in H2 by lia. lia.
Qed.

(** The summary that an answer brings, if it brings one. *)
Definition summary_of (reply : string + HttpResponse J) : option string :=
  match reply with
  | inr resp =>
      if is_success (http_status resp) then
        match http_json resp with
        | inr json => summary ← message_content json; if decide (trim summary = "") then None else Some (trim summary)
        | inl _ => None
        end
      else None
  | inl _ => None
  end.
(** An answer came, with a status of success. *)
Definition answered_well (reply : string + HttpResponse J) : bool :=
  match reply with inr resp => is_success (http_status resp) | inl _ => false end.
(** What the model is asked to summarize some messages. *)
Definition summarize_request (head : list (Message J)) : ModelRequest :=
  MkModelRequest [plain_message "system" COMPACTION_SYSTEM_PROMPT; plain_message "user" (summarize_content head)]
    false (Some 2000%Z) None false.

Section served.
Context {W : Type} (server : ∀ X, Question J X → W → X * W).
(** A compaction that nothing else interrupts. *)
Lemma compact_alone id se endpoint api_key s n w :
  sessions s !! id = Some se →
  tail_size agent_compaction_recent_context_token_budget 0 0 (reverse (s_model_messages se)) = Ok n →
  let start := length (s_model_messages se) - n in
  serve server (compact_session id endpoint api_key) s w =
    if decide (start = 0) then (Ok NoOp, s, w)
    else
      let '(reply, w) := server _ (QPost endpoint api_key (summarize_request (take start (s_model_messages se)))) w in
      match summary_of reply with
      | Some summary =>
          (Ok Compacted, AppendCompactionMarker id summary
             (ReplaceModelMessagesWithSummary id summary (drop start (s_model_messages se)) s), w)
      | None => (Ok (if answered_well reply then NoChange else Failed), s, w)
      end.
Proof.
  intros Hse Hn. cbv zeta. unfold compact_session. cbn. unfold Store_GetSession. rewrite Hse, Hn. cbn. case_decide; [done|].
  cbn. unfold summarize_request. destruct (server _ _ w) as [[e|resp] w']; [done|]. cbn. destruct (is_success _); [|done].
  destruct (http_json resp) as [|json]; [done|]. destruct (message_content json) as [summary|]; [|done]. cbn. by case_decide.
Qed.
(** What the two changes of a compaction leave. *)
Lemma compacted_session id se summary tail s :
  sessions s !! id = Some se →
  let sum := MkMessage (uuid (uuids s)) "system" summary (now s) [] in
  let marker := MkMessage (uuid (S (uuids s))) "compaction" "" (now s) [PCompaction summary] in
  sessions (AppendCompactionMarker id summary (ReplaceModelMessagesWithSummary id summary tail s)) =
    <[id := put_messages (s_messages se ++ [marker]) (sum :: tail) (now s) 0 se]> (sessions s).
Proof.
  intros Hse. unfold AppendCompactionMarker, ReplaceModelMessagesWithSummary. rewrite Hse. cbn.
  rewrite lookup_alter_eq, Hse. cbn. apply map_eq. intros x. destruct (decide (x = id)) as [->|].
  - by rewrite lookup_insert_eq, !lookup_alter_eq, Hse.
  - by rewrite lookup_insert_ne, !lookup_alter_ne.
Qed.
(** C17: what a compaction does that nothing else interrupts, whatever the model
    answers.  The context keeps its last messages: the last two, and as many more
    as stay within the budget.  When that is all of it, nothing is asked or done.
    Otherwise the model is asked once, with the messages before them as the text
    to summarize, and only an answer with a status of success, whose JSON has a
    content that is not blank, changes the session: the context is then this
    summary, trimmed, as a system message, and the kept messages; the transcript
    gets a marker with the summary and loses nothing; the count of tokens starts
    again; no other session changes.  After any other answer everything is as it
    was. *)
Theorem compaction_cuts_context s id se endpoint api_key w :
  sessions s !! id = Some se → (cost (s_model_messages se) ≤ ty_max u64)%Z →
  ∃ n, is_tail n (s_model_messages se) ∧
    let l := s_model_messages se in
    let start := length l - n in
    let run := serve server (compact_session id endpoint api_key) s w in
    if decide (n = length l) then run = (Ok NoOp, s, w)
    else
      let '(reply, w') := server _ (QPost endpoint api_key (summarize_request (take start l))) w in
      match summary_of reply with
      | None => run = (Ok (if answered_well reply then NoChange else Failed), s, w')
      | Some summary =>
          ∃ s' se' sum marker, run = (Ok Compacted, s', w')
            ∧ sessions s' = <[id := se']> (sessions s)
            ∧ s_model_messages se' = sum :: drop start l ∧ m_role sum = "system" ∧ m_content sum = summary
            ∧ s_messages se' = s_messages se ++ [marker] ∧ m_role marker = "compaction" ∧ m_parts marker = [PCompaction summary]
            ∧ s_last_prompt_tokens se' = 0%Z
      end.
Proof.
  intros Hse Hfit. destruct (tail_size_is_tail _ Hfit) as (n & Hn & Ht). exists n. split; [done|]. cbv zeta.
  destruct Ht as (Hle & _ & _). rewrite (compact_alone id se endpoint api_key s n w Hse Hn). cbv zeta.
  destruct (decide (n = _)) as [Hall|Hall]; [by rewrite decide_True by lia|]. rewrite decide_False by lia.
  destruct (server _ _ w) as [reply w']. destruct (summary_of reply) as [summary|]; [|done].
  eexists _, _, _, _. split; [done|]. split; [by apply compacted_session|]. done.
Qed.
End served.
End compaction.

(** ** What is kept of an answer *)

Section kept.
Context {J : Type} {crates : ChatCrates J} {S : Type} {Q : Type → Type}.
Abbreviation C := (call S Q SseEvent).
Implicit Types (m said : list SseEvent).

(** The text that a client was sent. *)
Fixpoint sent_text said : string :=
  match said with [] => "" | SData delta :: said => delta +:+ sent_text said | _ :: said => sent_text said end.
Lemma sent_text_app m1 m2 : sent_text (m1 ++ m2) = sent_text m1 +:+ sent_text m2.
Proof. induction m1 as [|[] m1 IH]; cbn; [done|by rewrite IH, sapp_assoc|done..]. Qed.
(** [proj] of a state grows by what is said. *)
Definition grows {A} (proj : A → string) (old : string) (a : A) m : Prop := proj a = old +:+ sent_text m.
Lemma grows_ret {A} (proj : A → string) old (a : A) : proj a = old → says (grows proj old) (CRet a : C A) [].
Proof. intros <-. unfold grows. cbn. by rewrite sapp_nil_r. Qed.
Lemma grows_then {A B} (proj : A → string) (proj' : B → string) old (p : C A) (f : A → C B) :
  says (grows proj old) p [] → (∀ a, says (grows proj' (proj a)) (f a) []) → says (grows proj' old) (p ≫= f) [].
Proof.
  intros Hp Hf. eapply says_then; [done|]. intros a m Ha. eapply says_mono; [apply Hf|]. intros b m' Hb. unfold grows in *.
  by rewrite Hb, Ha, sent_text_app, sapp_assoc.
Qed.
Lemma grows_send {A} (proj : A → string) old delta (a : A) :
  proj a = old +:+ delta → says (grows proj old) (_ ← send_delta delta; mret a : C A) [].
Proof. unfold send_delta. destruct (sse_accepts delta); cbn; [|done]. intros Ha. unfold grows. cbn. by rewrite sapp_nil_r. Qed.
Lemma grows_try {E A B} (proj : B → string) old (x : outcome E A) (f : A → C B) :
  (∀ a, says (grows proj old) (f a) []) → says (grows proj old) (try_ x ≫= f) [].
Proof. destruct x; cbn; auto. Qed.
Lemma grows_pump_lines {St} (proj : St → string) (on_line : St → string → C (St * bool)) fuel buf st :
  (∀ st line, says (grows (λ r, proj r.1) (proj st)) (on_line st line) []) →
  says (grows (λ r, proj r.2) (proj st)) (pump_lines on_line fuel buf st) [].
Proof.
  intros Hon. revert buf st. induction fuel as [|fuel IH]; intros buf st; [by apply grows_ret|]. cbn [pump_lines].
  destruct (next_line buf) as [[line rest]|]; [|by apply grows_ret]. eapply grows_then; [apply Hon|].
  intros [st' []]; [apply IH|by apply grows_ret].
Qed.
Lemma grows_pump {St} (proj : St → string) (on_line : St → string → C (St * bool)) items buf st :
  (∀ st line, says (grows (λ r, proj r.1) (proj st)) (on_line st line) []) →
  says (grows (λ r, proj r.1.2) (proj st)) (pump on_line items buf st) [].
Proof.
  intros Hon. revert buf st. induction items as [|[b|e|] items IH]; intros buf st; cbn [pump];
    [by apply grows_ret| |by apply grows_ret..].
  eapply grows_then; [by apply grows_pump_lines|]. intros r. apply IH.
Qed.
Lemma grows_content_line st line : says (grows (λ r, st_content r.1) (st_content st)) (content_line st line : C _) [].
Proof.
  unfold content_line. destruct (parse_content_stream_line line);
    [by apply grows_ret..|by apply grows_send].
Qed.
Lemma grows_first_delta st choice : says (grows fs_content (fs_content st)) (first_delta st choice : C _) [].
Proof. unfold first_delta. destruct (delta_content choice); [by apply grows_send|by apply grows_ret]. Qed.
Lemma grows_first_line st line : says (grows (λ r, fs_content r.1) (fs_content st)) (first_line st line : C _) [].
Proof.
  unfold first_line. destruct (strip_prefix _ _) as [data|]; [|by apply grows_ret]. case_decide; [by apply grows_ret|].
  destruct (from_str data) as [json|]; [|by apply grows_ret]. destruct (jget "usage" json); [by apply grows_ret|].
  destruct (first_choice json); [|by apply grows_ret]. eapply grows_then; [apply grows_first_delta|]. intros st'. apply grows_try. intros calls.
  by apply grows_ret.
Qed.
Lemma grows_first_trailing st line : says (grows fs_content (fs_content st)) (first_trailing st line : C _) [].
Proof.
  unfold first_trailing. destruct (strip_prefix _ _) as [data|]; [|by apply grows_ret]. case_decide; [by apply grows_ret|].
  destruct (from_str data) as [json|]; [|by apply grows_ret]. destruct (jget "usage" json) as [usage|].
  { by apply grows_ret. }
  destruct (first_choice json); [apply grows_first_delta|by apply grows_ret].
Qed.
Definition outcome_state (out : ContentStreamOutcome) : ContentStreamState :=
  match out with Completed st | Interrupted st | StreamError st _ => st end.

(** C26: whatever a stream brings and however it ends, complete, cancelled or with
    an error, what the turn keeps of the answer is exactly what was sent on to its
    client, in this order: of the first answer of a turn, and of one that follows
    tools. *)
Theorem kept_answer_is_what_was_sent (items : list StreamItem) :
  says (λ r said, fs_content r.1 = sent_text said) (first_stream items : C _) [] ∧
  says (λ out said, st_content (outcome_state out) = sent_text said) (consume_content_stream items : C _) [].
Proof.
  split.
  - apply (grows_then (λ r, fs_content r.1.2) (λ r, fs_content r.1) ""); [apply (grows_pump fs_content _ _ _ (MkFirst "" [] 0 None)), grows_first_line|].
    intros [[buf st] stopped]. case_decide; [by apply grows_ret|].
    eapply grows_then; [apply grows_first_trailing|]. intros st'. by apply grows_ret.
  - apply (grows_then (λ r, st_content r.1.2) (λ out, st_content (outcome_state out)) "").
    { apply (grows_pump st_content _ _ _ (MkContent "" 0)), grows_content_line. }
    intros [[buf st] [[e|]|]]; [by apply grows_ret..|].
    case_decide; [by apply grows_ret|]. eapply grows_then; [apply grows_content_line|]. intros r. by apply grows_ret.
Qed.
End kept.

(** ** Runs *)

Section runs.
Context {J : Type} {crates : ChatCrates J} {sizes : ChatSizes J} {order : SessionOrder J} {config : ChatConfig}
  {sizes_ok : ChatSizesSpec J}.
Abbreviation SEvent := (SessionRuns.SEvent (J:=J)).
Implicit Types (l : list SEvent) (id : string).

Lemma streamed_l l1 l2 : streamed (l1 ++ l2) → streamed l1.
Proof. intros Hs ? ? ? ? Hin. eapply Hs, elem_of_app. by left. Qed.
Lemma run_session l id se : streamed l → sessions (sv_store (sv_run l)) !! id = Some se → wf se.
Proof. intros [ks [[Hg _] _ _ _ _ _]]%run_inv Hse. by apply Hg in Hse as (_ & _ & ? & _). Qed.
(** The turn a task takes: its session, and its lock. *)
Definition turn_of (t : Task (J:=J)) : option (string * nat) :=
  match t with TPrompt id (Some lk) _ | TStream id lk _ _ => Some (id, lk) | _ => None end.
Lemma turn_of_held t id lk : turn_of t = Some (id, lk) → held_by t = Some lk.
Proof. by destruct t as [? []| | | |]; intros; simplify_eq/=. Qed.
Lemma task_turn_id s t k id lk : task_ok s t k → turn_of t = Some (id, lk) → k.1 = id ∧ is_inside k.2 = true ∧ lock_of id lk s.
Proof.
  intros (_ & Ht & Hh) Htn. rewrite (turn_of_held _ _ _ Htn) in Hh. destruct Hh as [Hin Hlk].
  assert (k.1 = id) as <- by (destruct t as [? []| | | |]; simplify_eq/=; by destruct Ht). done.
Qed.
Lemma turn_keeps_place l1 l2 n t id lk ks k :
  SInv (sv_run l1) ks → sv_tasks (sv_run l1) !! n = Some t → ks !! n = Some k → turn_of t = Some (id, lk) →
  streamed (l1 ++ l2) → Forall (λ ev, acts ev ≠ Some n) l2 →
  ∃ ks', SInv (sv_run (l1 ++ l2)) ks' ∧ ks' !! n = Some k.
Proof.
  intros Hi Hn Hk Ht. induction l2 as [|ev l2 IH] using rev_ind; intros Hs Ho; [rewrite app_nil_r; by exists ks|].
  apply Forall_app in Ho as [Ho Hev]. rewrite Forall_singleton in Hev. rewrite (assoc_L (++)) in *. destruct IH as (ks' & Hi' & Hk'); [by eapply streamed_l|done|].
  destruct (step_inv ev (sv_run (l1 ++ l2)) ks') as (ks'' & Hi'' & Hkeep); [|done|].
  { intros ? ? ? ? ->. eapply Hs, elem_of_app. right. by left. }
  exists ks''. unfold sv_run at 1. rewrite foldl_app. eauto.
Qed.

(** C14: in every run of streamed prompts, in whatever order the turns, the
    interruptions, the deletions and the ends of clients come, what the model is
    sent of a session is its transcript, or a summary and the transcript from some
    message on: no message is lost from the end, reordered or made up. *)
Theorem context_follows_transcript l id se :
  streamed l → sessions (sv_store (sv_run l)) !! id = Some se → in_step se.
Proof. intros Hl Hse. apply (run_session l id se Hl Hse). Qed.

(** C15: a transcript is a sequence of turns, in every such run: every answer
    comes right after its prompt, a prompt has at most one, and no two messages have
    the same identifier. *)
Theorem transcript_is_turns l id se :
  streamed l → sessions (sv_store (sv_run l)) !! id = Some se → turns (visible se) ∧ NoDup (m_id <$> s_messages se).
Proof. intros Hl Hse. destruct (run_session l id se Hl Hse). done. Qed.

(** One turn of a session is taken at a time: two tasks that hold its lock,
    before or during their streams, while the session is there, are one. *)
Theorem turns_serialized l i j ti tj id lki lkj se :
  streamed l → sessions (sv_store (sv_run l)) !! id = Some se →
  sv_tasks (sv_run l) !! i = Some ti → sv_tasks (sv_run l) !! j = Some tj →
  turn_of ti = Some (id, lki) → turn_of tj = Some (id, lkj) → i = j.
Proof.
  intros [ks Hi]%run_inv Hse Hti Htj Hri Hrj.
  destruct (Forall2_lookup_l _ _ _ _ _ (si_tasks _ _ Hi) Hti) as (ki & _ & Hki), (Forall2_lookup_l _ _ _ _ _ (si_tasks _ _ Hi) Htj) as (kj & _ & Hkj).
  destruct (task_turn_id _ _ _ _ _ Hki Hri) as (_ & _ & _ & Hlki), (task_turn_id _ _ _ _ _ Hkj Hrj) as (_ & _ & _ & Hlkj).
  assert (lki = lkj) as <- by (apply Hlki in Hse as Hsi; apply Hlkj in Hse as Hsj; congruence).
  eapply si_holders; [done|exact Hti|exact Htj|by eapply turn_of_held..].
Qed.

(** C16: in every run of streamed prompts (a prompt without a stream takes no
    lock, the finding at session.rs:1657), a turn has its session for itself:
    while it waits, for the model, its
    tools or the next piece of an answer, nothing that any other task does changes
    the session, unless it goes away. *)
Theorem turn_has_its_session_alone l1 l2 n t id lk se se' :
  streamed (l1 ++ l2) → sv_tasks (sv_run l1) !! n = Some t → turn_of t = Some (id, lk) →
  Forall (λ ev, acts ev ≠ Some n) l2 →
  sessions (sv_store (sv_run l1)) !! id = Some se → sessions (sv_store (sv_run (l1 ++ l2))) !! id = Some se' → se' = se.
Proof.
  intros Hs Hn Ht Ho Hse Hse'. destruct (run_inv l1) as [ks Hi]; [by eapply streamed_l|].
  destruct (Forall2_lookup_l _ _ _ _ _ (si_tasks _ _ Hi) Hn) as (k & Hk & Hok).
  destruct (turn_keeps_place _ l2 _ _ _ _ _ _ Hi Hn Hk Ht Hs Ho) as (ks' & Hi' & Hk').
  destruct (Forall2_lookup_r _ _ _ _ _ (si_tasks _ _ Hi') Hk') as (t' & _ & Hat' & _).
  destruct (task_turn_id _ _ _ _ _ Hok Ht) as (<- & Hin & _), Hok as (Hat & _).
  destruct k as [i [| | |se0 mine]]; try done. destruct Hat as (_ & _ & _ & Hat & _), Hat' as (_ & _ & _ & Hat' & _). cbn in *.
  destruct Hat, Hat'; congruence.
Qed.
End runs.

(** The task of a stream that ends without a panic has told its client that it
    is done exactly once, and at the end: only that the context is compacted comes
    after it.  In every run, whatever the answers of the model and the tools. *)
Theorem stream_says_done_once {J : Type} {crates : ChatCrates J} {sizes : ChatSizes J} {order : SessionOrder J} {config : ChatConfig}
    (l : list (SessionRuns.SEvent (J:=J))) n id said :
  sv_tasks (sv_run l) !! n = Some (TLeaving id said false) → ended said.
Proof. intros Hn. exact (Forall_lookup_1 _ _ _ _ (run_said l) Hn). Qed.

(** ** Concrete runs *)

Definition starts (f : Op → bool) (ev : SEvent) : bool := match ev with EStart op => f op | _ => false end.
Lemma none_starts (f : Op → bool) (l : list SEvent) op : forallb (λ ev, negb (starts f ev)) l = true → f op = true → EStart op ∉ l.
Proof.
  intros Hl Hop Hin. apply Is_true_eq_left, forallb_True in Hl. eapply Forall_forall in Hl; [|exact Hin].
  cbn in Hl. by rewrite Hop in Hl.
Qed.
Definition is_plain_prompt (op : Op) : bool := match op with OPrompt _ _ _ _ => true | _ => false end.
Definition is_stop (op : Op) : bool := match op with OInterrupt _ _ | ODelete _ _ | OCleanup => true | _ => false end.
Lemma streamed_run (l : list SEvent) : forallb (λ ev, negb (starts is_plain_prompt ev)) l = true → streamed l.
Proof. intros Hl token id message stream. by apply (none_starts is_plain_prompt). Qed.

(** The end of a turn may cancel the next one.  Without any request to
    interrupt or to delete the session, a prompt is answered that it was
    interrupted: the turn before it releases the lock of the session first, and
    takes back "its" token afterwards, which is then the one of the next turn. *)
Theorem ended_turn_cancels_the_next :
  ∃ l : list SEvent, streamed l ∧ (∀ op, is_stop op = true → EStart op ∉ l) ∧
    sv_tasks (sv_run l) !! 2 = Some (TOver (Some RInterrupted) [] false).
Proof.
  exists stale_clear. split; [by apply streamed_run|]. split; [intros op; by apply none_starts|]. by vm_compute.
Qed.

Lemma context_follows_transcript_witness :
  ∃ se, sessions (sv_store (sv_run two_markers)) !! "id0" = Some se ∧ in_step se.
Proof.
  destruct (sessions (sv_store (sv_run two_markers)) !! "id0") as [se|] eqn:E; [|by vm_compute in E].
  exists se. split; [done|]. apply (context_follows_transcript two_markers "id0"); [by apply streamed_run|done].
Defined.
Lemma transcript_is_turns_witness :
  ∃ se, sessions (sv_store (sv_run two_markers)) !! "id0" = Some se ∧ turns (visible se).
Proof.
  destruct (sessions (sv_store (sv_run two_markers)) !! "id0") as [se|] eqn:E; [|by vm_compute in E].
  exists se. split; [done|]. apply (transcript_is_turns two_markers "id0"); [by apply streamed_run|done].
Defined.
Lemma turns_serialized_witness : ∃ t, sv_tasks (sv_run a_turn) !! 1 = Some t ∧ turn_of t = Some ("id0", 0) ∧ 1 = 1.
Proof.
  assert ((sv_tasks (sv_run a_turn) !! 1 ≫= turn_of) = Some ("id0", 0)) as (t & E & Ht)%bind_Some by by vm_compute.
  destruct (sessions (sv_store (sv_run a_turn)) !! "id0") as [se|] eqn:Es; [|by vm_compute in Es].
  exists t. split; [done|]. split; [done|]. exact (turns_serialized a_turn 1 1 t t "id0" 0 0 se (streamed_run a_turn eq_refl) Es E E Ht Ht).
Defined.
(** A turn waits for its answer while the client asks to interrupt it and a
    second prompt waits for the lock. *)
Definition meanwhile : list SEvent :=
  [EStart (OInterrupt me "id0"); EStart (OPromptStream me "id0" "again")] ++ go 2 3 ++ go 3 3 ++ [answers 3 (WTools (inr []))] ++ go 3 4.
Lemma turn_has_its_session_alone_witness :
  ∃ se, sessions (sv_store (sv_run (created ++ prompted 1 "hello"))) !! "id0" = Some se
    ∧ sessions (sv_store (sv_run ((created ++ prompted 1 "hello") ++ meanwhile))) !! "id0" = Some se.
Proof.
  set (l1 := created ++ prompted 1 "hello").
  assert ((sv_tasks (sv_run l1) !! 1 ≫= turn_of) = Some ("id0", 0)) as (t & E & Ht)%bind_Some by by vm_compute.
  destruct (sessions (sv_store (sv_run l1)) !! "id0") as [se|] eqn:Es; [|by vm_compute in Es].
  destruct (sessions (sv_store (sv_run (l1 ++ meanwhile))) !! "id0") as [se'|] eqn:Es'; [|by vm_compute in Es'].
  exists se. split; [done|]. f_equal.
  refine (turn_has_its_session_alone l1 meanwhile 1 t "id0" 0 se se' (streamed_run (l1 ++ meanwhile) eq_refl) E Ht _ Es Es').
  by repeat constructor.
Defined.
Lemma stream_says_done_once_witness : ended [SData "hi"; SComplete "id2"; SDone].
Proof. apply (stream_says_done_once (a_turn ++ [EEnd 1]) 1 "id0"). by vm_compute. Defined.
(** An answer in two chunks, cut inside a line, the last line without its newline. *)
Definition cut_lines : list string := ["data: c:h"; "i" +:+ nl_ +:+ ": a comment" +:+ nl_ +:+ "data: c: there"].
Lemma stream_is_read_by_lines_witness :
  consume_content_stream (S:=unit) (Q:=λ _, unit) (Chunk <$> cut_lines) =
    CSay (SData "hi") (CSay (SData " there") (CRet (Completed (MkContent "hi there" 0)))).
Proof.
  rewrite (stream_is_read_by_lines cut_lines); [by vm_compute|by repeat constructor|].
  vm_compute. split_and!; try done.
Defined.
(** A session of four messages, of which the last two are kept; the model
    answers with a summary. *)
Definition said_by (role text : string) : Message SampleValue := MkMessage "m" role text 0 [].
Definition long_text : string := "a message of more than forty bytes, that is more than ten tokens".
Definition long_talk : list (Message SampleValue) :=
  [said_by "user" long_text; said_by "assistant" long_text; said_by "user" long_text; said_by "assistant" long_text].
Definition long_session : Session SampleValue := MkSession "id0" "talk" "acme" 0 0 long_talk long_talk "key" 900 "endpoint".
Definition long_store : SessionStore SampleValue := put_sessions {["id0" := long_session]} SessionStore_New.
Definition summarizer X (q : Question SampleValue X) (asked : list ModelRequest) : X * list ModelRequest :=
  match q in Question _ X return X * list ModelRequest with
  | QPost _ _ req => (inr (MkHttp 206 (inr (message_of " ## Summary of it ")) None), asked ++ [req])
  | QTools _ => (inr [], asked) | QMeta _ => (inr None, asked) | QPublished _ _ => (None, asked)
  | QStream _ => ([], asked) | QSkills _ _ => (([], true), asked)
  end.
Lemma compaction_cuts_context_witness :
  ∃ s' se' sum marker,
    serve summarizer (compact_session "id0" "endpoint" "key") long_store [] = (Ok Compacted, s', [summarize_request (take 2 long_talk)])
    ∧ sessions s' = <["id0" := se']> (sessions long_store)
    ∧ s_model_messages se' = sum :: drop 2 long_talk ∧ m_role sum = "system" ∧ m_content sum = "## Summary of it"
    ∧ s_messages se' = long_talk ++ [marker] ∧ m_role marker = "compaction" ∧ m_parts marker = [PCompaction "## Summary of it"]
    ∧ s_last_prompt_tokens se' = 0%Z.
Proof.
  destruct (compaction_cuts_context summarizer long_store "id0" long_session "endpoint" "key" []) as (n & Ht & Hrun);
    [by vm_compute|by vm_compute|].
  assert (n = 2) as ->; [|exact Hrun].
  destruct Ht as (Hle & H1 & H2). change (n ≤ 4) in Hle. destruct n as [|[|[|[|[|]]]]]; [..|lia].
  all: revert H1 H2; vm_compute; intuition (lia || congruence).
Defined.
