(* ===== verification/Access.v ===== *)
(** * Access tokens

    auth_layer.rs: who a caller is, what its roles, its scope and the
    restrictions of its key allow, and how roles are written and read. *)

From S2P Require Import Prelude.
From S2P Require Import Text.
From S2P Require Import BTree.
From S2P Require Import Common.

(** ** Pairs as keys of a [BTreeSet] *)

Definition pair_le `{OrdKey A, OrdKey B} (p q : A * B) : Prop :=
  (p.1 ≠ q.1 ∧ kle p.1 q.1) ∨ (p.1 = q.1 ∧ kle p.2 q.2).
#[global] Instance pair_le_dec `{OrdKey A, OrdKey B} : RelDecision (pair_le (A:=A) (B:=B)).
Proof. intros p q. unfold pair_le. apply _. Defined.
#[global] Instance pair_le_po `{OrdKey A, OrdKey B} : PartialOrder (pair_le (A:=A) (B:=B)).
Proof.
  split; [split|].
  - intros p. by right.
  - intros p q r [[Hpq H1']|[Hpq H1']] [[Hqr H2']|[Hqr H2']].
    + left. split; [|by etrans]. intros Heq. apply Hpq, (anti_symm kle); [done|]. by rewrite Heq.
    + left. rewrite <-Hqr. auto.
    + left. rewrite Hpq. auto.
    + right. split; [congruence|by etrans].
  - intros [a b] [c d]; unfold pair_le; simpl. intros [[Hne H1']|[Heq1 H1']] [[Hne' H2']|[Heq H2']].
    + destruct Hne. by apply (anti_symm kle).
    + by destruct Hne.
    + by destruct Hne'.
    + subst. f_equal. by apply (anti_symm kle).
Qed.
#[global] Instance pair_le_total `{OrdKey A, OrdKey B} : Total (pair_le (A:=A) (B:=B)).
Proof.
  intros [a b] [c d]; unfold pair_le; simpl. destruct (decide (a = c)) as [->|Hne].
  - destruct (total kle b d); [left|right]; by right.
  - destruct (total kle a c); [left|right]; left; auto.
Qed.
#[global] Instance pair_key `{OrdKey A, OrdKey B} : OrdKey (A * B) := {| kle := pair_le |}.

(** ** Tokens *)

(** ixshare/src/gateway/auth_layer.rs:284-298 [AccessToken] *)
Record AccessToken := MkAccessToken {
  subject : string;
  username : string;
  display_name : option string;
  email : string;
  email_verified : bool;
  roles : gset string;
  apiKeys : list string;
  scope : string;
  sourceIsApikey : bool;
  restrictTenant : option string;
  restrictNamespace : option string;
  defaultTenant : option string;
  updatetime : Z;                        (* nanoseconds *)
}.
#[global] Instance AccessToken_eq_dec : EqDecision AccessToken.
Proof. solve_decision. Defined.
Implicit Types (self base : AccessToken) (tnt ns : string).

Definition INERX_ADMIN : string := "inferx_admin".
Definition SYSTEM_TENANT : string := "system".
Definition TENANT_ADMIN : string := "/tenant/admin/".
Definition TENANT_USER : string := "/tenant/user/".
Definition NAMSPACE_ADMIN : string := "/namespace/admin/".
Definition NAMSPACE_USER : string := "/namespace/user/".

(** ixshare/src/gateway/auth_layer.rs:308-330 [AccessToken::New] *)
Definition AccessToken_New (now : Z) (username : string) (groups apikeys : list string) : AccessToken :=
  MkAccessToken "" username None "" false (list_to_set groups) apikeys "full" false None None None now.
(** ixshare/src/gateway/auth_layer.rs:332-348 [AccessToken::InferxAdminToken] *)
Definition InferxAdminToken (now : Z) : AccessToken :=
  MkAccessToken "" INERX_ADMIN None "" false ∅ [] "full" false None None None now.
(** ixshare/src/gateway/auth_layer.rs:765-783 [TokenCache::New]; the token of callers that are not known *)
Definition anonymous (now : Z) : AccessToken :=
  MkAccessToken "" "anonymous" None "" false ∅ [] "read" false None None None now.

(** ixshare/src/gateway/auth_layer.rs:350-357 [AccessToken::ScopeLevel] *)
Definition ScopeLevel (scope : string) : nat :=
  match scope with "full" => 3 | "read" => 2 | "inference" => 1 | _ => 3 end.
(** ixshare/src/gateway/auth_layer.rs:359-361 [AccessToken::CheckScope] *)
Definition CheckScope self (required : string) : bool := bool_decide (ScopeLevel required ≤ ScopeLevel (scope self)).
(** ixshare/src/gateway/auth_layer.rs:493-496 [AccessToken::TenantUserRole] *)
Definition TenantUserRole tnt : string := TENANT_USER +:+ tnt.
(** ixshare/src/gateway/auth_layer.rs:498-501 [AccessToken::TenantAdminRole] *)
Definition TenantAdminRole tnt : string := TENANT_ADMIN +:+ tnt.
(** ixshare/src/gateway/auth_layer.rs:503-506 [AccessToken::NamespaceUserRole] *)
Definition NamespaceUserRole tnt ns : string := NAMSPACE_USER +:+ (tnt +:+ String "/" ns).
(** ixshare/src/gateway/auth_layer.rs:508-511 [AccessToken::NamespaceAdminRole] *)
Definition NamespaceAdminRole tnt ns : string := NAMSPACE_ADMIN +:+ (tnt +:+ String "/" ns).
Definition has_role self (r : string) : bool := bool_decide (r ∈ roles self).
(** ixshare/src/gateway/auth_layer.rs:363-368 [AccessToken::HasInferxAdminIdentity] *)
Definition HasInferxAdminIdentity self : bool :=
  bool_decide (username self = INERX_ADMIN) || has_role self (TENANT_ADMIN +:+ SYSTEM_TENANT).
(** ixshare/src/gateway/auth_layer.rs:370-376 [AccessToken::IsSystemScopedInferxAdminApikey] *)
Definition IsSystemScopedInferxAdminApikey self : bool :=
  sourceIsApikey self && CheckScope self "full" && bool_decide (restrictTenant self = Some SYSTEM_TENANT)
  && bool_decide (restrictNamespace self = None) && HasInferxAdminIdentity self.
(** ixshare/src/gateway/auth_layer.rs:378-387 [AccessToken::AllowTenant] *)
Definition AllowTenant self tnt : bool :=
  if IsSystemScopedInferxAdminApikey self then true
  else match restrictTenant self with Some t => bool_decide (t = tnt) | None => true end.
(** ixshare/src/gateway/auth_layer.rs:389-398 [AccessToken::AllowNamespace] *)
Definition AllowNamespace self tnt ns : bool :=
  if negb (AllowTenant self tnt) then false
  else match restrictNamespace self with Some n => bool_decide (n = ns) | None => true end.
(** ixshare/src/gateway/auth_layer.rs:400-403 [AccessToken::HasTenantAdminRole] *)
Definition HasTenantAdminRole self tnt : bool := has_role self (TENANT_ADMIN +:+ tnt).
(** ixshare/src/gateway/auth_layer.rs:405-408 [AccessToken::HasTenantUserRole] *)
Definition HasTenantUserRole self tnt : bool := has_role self (TENANT_USER +:+ tnt).
(** ixshare/src/gateway/auth_layer.rs:410-415 [AccessToken::HasNamespaceAdminRole] *)
Definition HasNamespaceAdminRole self tnt ns : bool := has_role self (NAMSPACE_ADMIN +:+ (tnt +:+ String "/" ns)).
(** ixshare/src/gateway/auth_layer.rs:417-422 [AccessToken::HasNamespaceUserRole] *)
Definition HasNamespaceUserRole self tnt ns : bool := has_role self (NAMSPACE_USER +:+ (tnt +:+ String "/" ns)).
(** ixshare/src/gateway/auth_layer.rs:461-474 [AccessToken::IsInferxAdmin] *)
Definition IsInferxAdmin self : bool :=
  let refused :=
    sourceIsApikey self
    && (negb (CheckScope self "full")
        || (bool_decide (is_Some (restrictTenant self)) || bool_decide (is_Some (restrictNamespace self)))
           && negb (IsSystemScopedInferxAdminApikey self)) in
  if refused then false else HasInferxAdminIdentity self.
(** ixshare/src/gateway/auth_layer.rs:424-434 [AccessToken::HasTenantUserPermission] *)
Definition HasTenantUserPermission self tnt : bool :=
  if IsInferxAdmin self then true
  else if bool_decide (tnt = "public") then true
  else HasTenantUserRole self tnt || HasTenantAdminRole self tnt.
(** ixshare/src/gateway/auth_layer.rs:436-442 [AccessToken::HasNamespaceAdminPermission] *)
Definition HasNamespaceAdminPermission self tnt ns : bool :=
  if IsInferxAdmin self then true else HasTenantAdminRole self tnt || HasNamespaceAdminRole self tnt ns.
(** ixshare/src/gateway/auth_layer.rs:444-459 [AccessToken::HasNamespaceUserPermission] *)
Definition HasNamespaceUserPermission self tnt ns : bool :=
  if IsInferxAdmin self then true
  else if bool_decide (tnt = "public") then true
  else if HasTenantUserPermission self tnt then true
  else HasNamespaceUserRole self tnt ns || HasNamespaceAdminPermission self tnt ns.
(** ixshare/src/gateway/auth_layer.rs:476-478 [AccessToken::UserKey] *)
Definition UserKey self : string := username self.
(** ixshare/src/gateway/auth_layer.rs:480-491 [AccessToken::Timeout]; [duration_since] fails when the clock went back *)
Definition Timeout (now : Z) self : bool :=
  if decide (now < updatetime self)%Z then true else negb (bool_decide (now - updatetime self ≤ 60 * 1000000000)%Z).

(** ixshare/src/gateway/auth_layer.rs:513-523 [AccessToken::IsTenantUser] *)
Definition IsTenantUser self tnt : bool :=
  CheckScope self "read" && (AllowTenant self tnt && HasTenantUserPermission self tnt).
(** ixshare/src/gateway/auth_layer.rs:525-535 [AccessToken::IsNamespaceUser] *)
Definition IsNamespaceUser self tnt ns : bool :=
  CheckScope self "read" && (AllowNamespace self tnt ns && HasNamespaceUserPermission self tnt ns).
(** ixshare/src/gateway/auth_layer.rs:537-551 [AccessToken::IsNamespaceInferenceUser] *)
Definition IsNamespaceInferenceUser self tnt ns : bool :=
  if negb (CheckScope self "inference") then false
  else if bool_decide (tnt = "public") then true
  else AllowNamespace self tnt ns && HasNamespaceUserPermission self tnt ns.
(** ixshare/src/gateway/auth_layer.rs:553-567 [AccessToken::IsTenantAdmin] *)
Definition IsTenantAdmin self tnt : bool :=
  CheckScope self "full" && (AllowTenant self tnt && (IsInferxAdmin self || HasTenantAdminRole self tnt)).
(** ixshare/src/gateway/auth_layer.rs:569-579 [AccessToken::IsNamespaceAdmin] *)
Definition IsNamespaceAdmin self tnt ns : bool :=
  CheckScope self "full" && (AllowNamespace self tnt ns && HasNamespaceAdminPermission self tnt ns).

(** ** The lists of tenants and namespaces *)

(** The roles that begin with [prefix], without it, in order:
    [range((Included(prefix), Unbounded))] up to the first that does not. *)
Definition roles_with (prefix : string) self : list string :=
  omap (strip_prefix prefix) (prefix_scan prefix (gset_to_gmap tt (roles self))).*1.
(** A role of a namespace as a pair; it is asserted to have one separator. *)
Definition namespace_role (s : string) : Share.Result (string * string) :=
  match split "/" s with [t; n] => Ok (t, n) | _ => Panic "assertion failed: splits.len() == 2" end.
(** ixshare/src/gateway/auth_layer.rs:581-596 [AccessToken::AdminTenants] *)
Definition AdminTenants self : list string := filter (λ t, AllowTenant self t) (roles_with TENANT_ADMIN self).
(** The loop of [AdminNamespaces] and of [UserNamespaces]. *)
Definition allowed_namespaces (prefix : string) self : Share.Result (list (string * string)) :=
  foldlM (λ items s, p ← namespace_role s; Ok (if AllowNamespace self p.1 p.2 then items ++ [p] else items))
    [] (roles_with prefix self).
(** ixshare/src/gateway/auth_layer.rs:598-615 [AccessToken::AdminNamespaces] *)
Definition AdminNamespaces self : Share.Result (list (string * string)) := allowed_namespaces NAMSPACE_ADMIN self.
(** ixshare/src/gateway/auth_layer.rs:617-646 [AccessToken::UserTenants] *)
Definition UserTenants self : list string :=
  let items : gset string :=
    list_to_set (filter (λ t, AllowTenant self t) (roles_with TENANT_USER self)) ∪ list_to_set (AdminTenants self) in
  set_elems items ++ (if AllowTenant self "public" then ["public"] else []).
(** ixshare/src/gateway/auth_layer.rs:648-674 [AccessToken::UserNamespaces] *)
Definition UserNamespaces self : Share.Result (list (string * string)) :=
  items ← allowed_namespaces NAMSPACE_USER self;
  admin ← AdminNamespaces self;
  Ok (set_elems (list_to_set items ∪ list_to_set admin : gset (string * string))).

(** ** Roles as texts *)

(** ixshare/src/gateway/auth_layer.rs:220-223 [ObjectType] *)
Inductive ObjectType := OTenant | ONamespace.
(** ixshare/src/gateway/auth_layer.rs:227-230 [UserRole] *)
Inductive UserRole := Admin | User.
#[global] Instance ObjectType_eq_dec : EqDecision ObjectType.
Proof. solve_decision. Defined.
#[global] Instance UserRole_eq_dec : EqDecision UserRole.
Proof. solve_decision. Defined.
(** ixshare/src/gateway/auth_layer.rs:243-248 [RoleBinding] *)
Record RoleBinding := MkRoleBinding { rb_objType : ObjectType; rb_role : UserRole; rb_tenant : string; rb_namespace : string }.
#[global] Instance RoleBinding_eq_dec : EqDecision RoleBinding.
Proof. solve_decision. Defined.
(** ixshare/src/gateway/auth_layer.rs:687-749 [ParseRoleBinding] *)
Definition ParseRoleBinding (input : string) : Share.Result RoleBinding :=
  let parts := split "/" (trim_matches "/" input) in
  if negb (bool_decide (length parts = 3)) && negb (bool_decide (length parts = 4))
  then Err (Share.CommonError ("invalid ParseRoleBinding 1 path: " +:+ input))
  else
    let part i := default "" (parts !! i) in
    role ← match part 1 with
           | "admin" => Ok Admin
           | "user" => Ok User
           | r => Err (Share.CommonError ("unknown role: " +:+ r +:+ " in "))
           end;
    objType ← match part 0 with
              | "tenant" => Ok OTenant
              | "namespace" => Ok ONamespace
              | t => Err (Share.CommonError ("unknown scope: " +:+ t +:+ " in "))
              end;
    match objType with
    | OTenant =>
        if bool_decide (length parts = 3) then Ok (MkRoleBinding objType role (part 2) "")
        else Err (Share.CommonError "invalid ParseRoleBinding 2 path: ")
    | ONamespace =>
        if bool_decide (length parts = 4) then Ok (MkRoleBinding objType role (part 2) (part 3))
        else Err (Share.CommonError "invalid ParseRoleBinding 3 path: ")
    end.
(** ixshare/src/gateway/auth_layer.rs:676-684 [AccessToken::RoleBindings] *)
Definition RoleBindings self : Share.Result (list RoleBinding) :=
  foldlM (λ bindings r, b ← ParseRoleBinding r; Ok (bindings ++ [b])) [] (set_elems (roles self)).

(** ** Restricted keys *)

(** ixshare/src/gateway/secret.rs:20-34 [Apikey]; without the fields that are only stored *)
Record Apikey := MkApikey {
  ak_apikey : string; ak_username : string; ak_keyname : string; access_level : string;
  restrict_tenant : option string; restrict_namespace : option string;
  expires_at : option Z; revoked_at : option Z;
}.
#[global] Instance Apikey_eq_dec : EqDecision Apikey.
Proof. solve_decision. Defined.
(** ixshare/src/gateway/auth_layer.rs:821-823 [TokenCache::NormalizeScope] *)
Definition NormalizeScope (scope : string) : string := scope.
(** ixshare/src/gateway/auth_layer.rs:825-833 [TokenCache::ValidateScope] *)
Definition ValidateScope (scope : string) : Share.Result unit :=
  match scope with
  | "full" | "inference" | "read" => Ok tt
  | _ => Err (Share.CommonError ("invalid apikey access_level " +:+ scope))
  end.
(** ixshare/src/gateway/auth_layer.rs:835-848 [TokenCache::NormalizeRequiredTenant] *)
Definition NormalizeRequiredTenant (restrict_tenant : option string) : Share.Result string :=
  match restrict_tenant with
  | None => Err (Share.CommonError "restrict_tenant is required")
  | Some t => if decide (trim t = "") then Err (Share.CommonError "restrict_tenant cannot be empty") else Ok (trim t)
  end.
(** ixshare/src/gateway/auth_layer.rs:850-863 [TokenCache::NormalizeOptionalNamespace] *)
Definition NormalizeOptionalNamespace (restrict_namespace : option string) : Share.Result (option string) :=
  match restrict_namespace with
  | None => Ok None
  | Some n => if decide (trim n = "") then Err (Share.CommonError "restrict_namespace cannot be empty") else Ok (Some (trim n))
  end.
(** ixshare/src/gateway/auth_layer.rs:865-898 [TokenCache::RoleAllowedByRestriction] *)
Definition RoleAllowedByRestriction (role restrict_tenant : string) (restrict_namespace : option string) : bool :=
  match split "/" (trim_matches "/" role) with
  | ["tenant"; _; t] =>
      if decide (t ≠ restrict_tenant) then false else bool_decide (restrict_namespace = None)
  | ["namespace"; _; t; n] =>
      if decide (t ≠ restrict_tenant) then false
      else match restrict_namespace with Some rn => bool_decide (n = rn) | None => true end
  | _ => false
  end.
(** ixshare/src/gateway/auth_layer.rs:900-932 [TokenCache::ApplyApikeyRestrictions] *)
Definition ApplyApikeyRestrictions (now : Z) base (apikey : Apikey) : Share.Result AccessToken :=
  let normalized_scope := NormalizeScope (access_level apikey) in
  _ ← ValidateScope normalized_scope;
  restrict_tenant ← NormalizeRequiredTenant (restrict_tenant apikey);
  restrict_namespace ← NormalizeOptionalNamespace (restrict_namespace apikey);
  Ok (MkAccessToken (subject base) (username base) (display_name base) (email base) (email_verified base)
        (filter (λ r, RoleAllowedByRestriction r restrict_tenant restrict_namespace) (roles base))
        (apiKeys base) normalized_scope true (Some restrict_tenant) restrict_namespace None now).

(** ** The tenant a caller acts for *)

(** ixshare/src/gateway/auth_layer.rs:64-71 [is_public_funccall_path] *)
Definition is_public_funccall_path (path : string) : bool :=
  let parts := split "/" path in
  bool_decide (4 ≤ length parts)
  && bool_decide (default "" (parts !! 1) ∈ ["funccall"; "directfunccall"; "sampleccall"; "modelcall"])
  && bool_decide (default "" (parts !! 2) = "public").
(** ixshare/src/gateway/auth_layer.rs:164-167 [DefaultTenantValidationError] *)
Inductive DefaultTenantValidationError := Unauthorized (msg : string) | Unavailable (msg : string).
(** ixshare/src/gateway/auth_layer.rs:169-209 [resolve_valid_default_tenant]; a profile is its [default_tenant] *)
Definition resolve_valid_default_tenant self (profile : option (option string)) (allow_missing_profile : bool)
    (tenant_exists : string → string + bool) : outcome DefaultTenantValidationError (option string) :=
  let missing := Err (Unauthorized "missing default tenant for authenticated user") in
  match profile with
  | None => if allow_missing_profile then Ok None else missing
  | Some default_tenant =>
      match (t ← default_tenant; if decide (trim t = "") then None else Some (trim t)) with
      | None => missing
      | Some t =>
          match tenant_exists t with
          | inl e => Err (Unavailable e)
          | inr false => Err (Unauthorized ("default tenant '" +:+ t +:+ "' does not exist"))
          | inr true =>
              if IsTenantUser self t then Ok (Some t)
              else Err (Unauthorized ("default tenant '" +:+ t +:+ "' is not authorized for authenticated user"))
          end
      end
  end.
(** ixshare/src/gateway/http_gateway.rs:369-384 [resolve_skill_calling_tenant] *)
Definition resolve_skill_calling_tenant self (tenant_exists : string → bool) : Share.Result string :=
  match restrictTenant self with
  | Some t => Ok t
  | None =>
      match (dt ← defaultTenant self; if tenant_exists dt && IsTenantUser self dt then Some dt else None) with
      | Some dt => Ok dt
      | None => Err (Share.CommonError "no tenant context: set a default tenant or use a tenant-restricted API key")
      end
  end.
(** ixshare/src/gateway/http_gateway.rs:386-401 [resolve_subscription_tenant] *)
Definition resolve_subscription_tenant self (tenant_exists : string → bool) : Share.Result string :=
  match restrictTenant self with
  | Some t => Ok t
  | None =>
      match (dt ← defaultTenant self; if tenant_exists dt && IsTenantUser self dt then Some dt else None) with
      | Some dt => Ok dt
      | None => Err (Share.CommonError "no tenant context: set a default tenant or use a tenant-restricted API key")
      end
  end.

(** * What tokens allow

    Roles as texts, the lists of a user's tenants, and what a restricted key may do. *)

(** ** Texts of roles *)

(** A name as it is used in roles: not empty, without a slash. *)
Definition plain (s : string) : Prop := s ≠ "" ∧ "/"%char ∉ chars s.
#[global] Instance plain_dec s : Decision (plain s).
Proof. unfold plain. apply _. Defined.

Lemma drop_chars_app c l1 l2 :
  (drop_chars c (l1 ++ l2) = drop_chars c l1 ++ l2) ∨ drop_chars c (l1 ++ l2) = drop_chars c l2.
Proof.
  induction l1 as [|a l1 IH]; [by right|]. simpl. destruct (ascii_dec a c); [done|by left].
Qed.
(** Trimming the end of a text leaves what does not end in the character. *)
Lemma drop_chars_suffix c l : ∃ d, l = d ++ drop_chars c l.
Proof.
  induction l as [|a l [d IH]]; [by exists []|]. simpl. destruct (ascii_dec a c) as [->|_]; [|by exists []].
  exists (c :: d). simpl. by rewrite <-IH.
Qed.
Lemma trim_end_keeps c l x : last l ≠ Some c → l ≠ [] →
  ∃ y z, x = y ++ z ∧ reverse (drop_chars c (reverse (l ++ x))) = l ++ y.
Proof.
  intros Hl Hne. rewrite reverse_app. destruct (drop_chars_app c (reverse x) (reverse l)) as [-> | ->].
  - destruct (drop_chars_suffix c (reverse x)) as [d Hd]. exists (reverse (drop_chars c (reverse x))), (reverse d). split.
    + rewrite <-reverse_app, <-Hd. by rewrite reverse_involutive.
    + by rewrite reverse_app, reverse_involutive.
  - exists [], x. split; [done|]. rewrite drop_chars_id by (by rewrite head_reverse). by rewrite reverse_involutive, app_nil_r.
Qed.
Lemma plain_last s : plain s → last (chars s) ≠ Some "/"%char.
Proof. intros [_ Hs] Hl. apply Hs. by apply last_Some_elem_of. Qed.
Lemma plain_head s : plain s → head (chars s) ≠ Some "/"%char.
Proof. intros [_ Hs] Hl. apply Hs. by apply head_Some_elem_of. Qed.
Lemma plain_chars s : plain s → chars s ≠ [].
Proof. intros [Hs _] Hc. apply Hs. by apply (inj chars). Qed.
Lemma drop_chars_cons c l : drop_chars c (c :: l) = drop_chars c l.
Proof. simpl. by destruct (ascii_dec c c). Qed.
(** Trimming and splitting [/a/x]. *)
Lemma trim_role a x : plain a →
  ∃ y z, x = y +:+ z ∧ trim_matches "/" (String "/" (a +:+ x)) = a +:+ y.
Proof.
  intros Ha. destruct (trim_end_keeps "/"%char (chars a) (chars x)) as (y & z & Hx & Ht); [by apply plain_last|by apply plain_chars|].
  exists (of_chars y), (of_chars z). split.
  - apply (inj chars). by rewrite chars_app, !chars_of_chars.
  - unfold trim_matches, trim_end_matches, trim_start_matches. change (chars (String "/" (a +:+ x))) with ("/"%char :: chars (a +:+ x)).
    rewrite drop_chars_cons, chars_of_chars, (drop_chars_id _ (chars (a +:+ x))).
    + rewrite chars_app, Ht. apply (inj chars). by rewrite chars_app, !chars_of_chars.
    + rewrite chars_app. pose proof (plain_head a Ha). pose proof (plain_chars a Ha). by destruct (chars a).
Qed.
Lemma split_role_head a x : plain a → ∃ l, split "/" (trim_matches "/" (String "/" (a +:+ String "/" x))) = a :: l.
Proof.
  intros Ha. destruct (trim_role a (String "/" x) Ha) as (y & z & Hx & ->). destruct y as [|c y].
  - rewrite sapp_nil_r, split_nosep by apply Ha. by exists [].
  - injection Hx as <- _. rewrite split_app by apply Ha. by eexists.
Qed.

(** ** The rights of a token *)

Inductive right :=
| RPlatform
| RTenantAdmin (tnt : string)
| RTenantUser (tnt : string)
| RNamespaceAdmin (tnt ns : string)
| RNamespaceUser (tnt ns : string)
| RInference (tnt ns : string).
(** Whether the gateway's checks let a token do it. *)
Definition allows self (r : right) : bool :=
  match r with
  | RPlatform => IsInferxAdmin self
  | RTenantAdmin t => IsTenantAdmin self t
  | RTenantUser t => IsTenantUser self t
  | RNamespaceAdmin t n => IsNamespaceAdmin self t n
  | RNamespaceUser t n => IsNamespaceUser self t n
  | RInference t n => IsNamespaceInferenceUser self t n
  end.
(** The scope a right needs. *)
Definition needs (r : right) : string :=
  match r with
  | RPlatform | RTenantAdmin _ | RNamespaceAdmin _ _ => "full"
  | RTenantUser _ | RNamespaceUser _ _ => "read"
  | RInference _ _ => "inference"
  end.
(** A right over nothing but a tenant, or over nothing but one of its namespaces; what is public is everyone's. *)
Definition within (rt : string) (rn : option string) (r : right) : Prop :=
  match r with
  | RPlatform => False
  | RTenantAdmin t => t = rt ∧ rn = None
  | RTenantUser t => t = rt ∧ (rn = None ∨ rt = "public")
  | RNamespaceAdmin t n | RNamespaceUser t n => t = rt ∧ ∀ m, rn = Some m → n = m
  | RInference t n => t = "public" ∨ t = rt ∧ ∀ m, rn = Some m → n = m
  end.

Lemma valid_scope sc : ValidateScope sc = Ok tt → sc ∈ ["full"; "inference"; "read"].
Proof.
  unfold ValidateScope. intros H.
  repeat match type of H with context [match ?x with _ => _ end] => is_var x; destruct x; try discriminate H end;
    (by left) || (by right; left) || (by right; right; left).
Qed.

Lemma restricted_token now base key t : ApplyApikeyRestrictions now base key = Ok t → ∃ rt rn,
  t = MkAccessToken (subject base) (username base) (display_name base) (email base) (email_verified base)
        (filter (λ r, RoleAllowedByRestriction r rt rn) (roles base)) (apiKeys base) (access_level key) true (Some rt) rn None now
  ∧ access_level key ∈ ["full"; "inference"; "read"].
Proof.
  unfold ApplyApikeyRestrictions, NormalizeScope. intros Ht.
  destruct (ValidateScope (access_level key)) as [[]| |] eqn:Hv; try done. simpl in Ht.
  destruct (NormalizeRequiredTenant (restrict_tenant key)) as [rt| |]; try done. simpl in Ht.
  destruct (NormalizeOptionalNamespace (restrict_namespace key)) as [rn| |]; try done. simpl in Ht. injection Ht as <-.
  exists rt, rn. split; [done|]. by apply valid_scope.
Qed.

Section restricted.
Context (now : Z) (base : AccessToken) (key : Apikey) (t : AccessToken).
Context (Hscope : scope base = "full") (Huser : sourceIsApikey base = false).
Context (Hrt : restrictTenant base = None) (Hrn : restrictNamespace base = None).
Context (Ht : ApplyApikeyRestrictions now base key = Ok t).

Lemma restricted_roles r : has_role t r = true → has_role base r = true.
Proof using Ht.
  destruct (restricted_token _ _ _ _ Ht) as (rt & rn & -> & _). unfold has_role. rewrite !bool_decide_eq_true. simpl. rewrite elem_of_filter. by intros [_ ?].
Qed.
Lemma base_free tnt ns : AllowTenant base tnt = true ∧ AllowNamespace base tnt ns = true ∧ ∀ sc, CheckScope base sc = true.
Proof using Hscope Hrt Hrn.
  assert (AllowTenant base tnt = true) as Ha by (unfold AllowTenant; rewrite Hrt; by case_match).
  split_and!; [done| |].
  - unfold AllowNamespace. by rewrite Ha, Hrn.
  - intros sc. unfold CheckScope. rewrite Hscope. apply bool_decide_eq_true. unfold ScopeLevel at 2.
    unfold ScopeLevel. repeat case_match; lia.
Qed.
Lemma base_admin : IsInferxAdmin base = HasInferxAdminIdentity base.
Proof using Huser. unfold IsInferxAdmin. by rewrite Huser. Qed.
Lemma restricted_identity : HasInferxAdminIdentity t = true → IsInferxAdmin base = true.
Proof using Ht Huser.
  rewrite base_admin. unfold HasInferxAdminIdentity. rewrite !orb_true_iff. intros [H|H]; [left|right; by apply restricted_roles].
  destruct (restricted_token _ _ _ _ Ht) as (rt & rn & -> & _). done.
Qed.
Lemma restricted_admin : IsInferxAdmin t = true → IsInferxAdmin base = true.
Proof using Ht Huser. intros H. apply restricted_identity. revert H. unfold IsInferxAdmin. by case_match. Qed.
Lemma restricted_user_permission tnt :
  HasTenantUserPermission t tnt = true → HasTenantUserPermission base tnt = true.
Proof using Ht Huser.
  unfold HasTenantUserPermission, HasTenantUserRole, HasTenantAdminRole. destruct (IsInferxAdmin t) eqn:Ha.
  - by rewrite (restricted_admin Ha).
  - destruct (IsInferxAdmin base); [done|]. case_match; [done|]. rewrite !orb_true_iff. intros [H'|H']; auto using restricted_roles.
Qed.
Lemma restricted_admin_permission tnt ns :
  HasNamespaceAdminPermission t tnt ns = true → HasNamespaceAdminPermission base tnt ns = true.
Proof using Ht Huser.
  unfold HasNamespaceAdminPermission, HasNamespaceAdminRole, HasTenantAdminRole. destruct (IsInferxAdmin t) eqn:Ha.
  - by rewrite (restricted_admin Ha).
  - destruct (IsInferxAdmin base); [done|]. rewrite !orb_true_iff. intros [H'|H']; auto using restricted_roles.
Qed.
Lemma restricted_namespace_permission tnt ns :
  HasNamespaceUserPermission t tnt ns = true → HasNamespaceUserPermission base tnt ns = true.
Proof using Ht Huser.
  unfold HasNamespaceUserPermission, HasNamespaceUserRole. destruct (IsInferxAdmin t) eqn:Ha.
  - by rewrite (restricted_admin Ha).
  - destruct (IsInferxAdmin base); [done|]. case_match; [done|].
    destruct (HasTenantUserPermission t tnt) eqn:Hu.
    { by rewrite (restricted_user_permission _ Hu). }
    destruct (HasTenantUserPermission base tnt); [done|]. rewrite !orb_true_iff.
    intros [H'|H']; auto using restricted_roles, restricted_admin_permission.
Qed.
(** A key gives no right its user has not. *)
Lemma restricted_keeps r : allows t r = true → allows base r = true.
Proof using Ht Huser Hscope Hrt Hrn.
  destruct r as [|tnt|tnt|tnt ns|tnt ns|tnt ns]; cbn [allows];
    unfold IsTenantAdmin, IsTenantUser, IsNamespaceAdmin, IsNamespaceUser, IsNamespaceInferenceUser.
  - apply restricted_admin.
  - destruct (base_free tnt "") as (-> & _ & ->). rewrite !andb_true_iff, orb_true_iff. intros (_ & _ & [H|H]).
    + by rewrite (restricted_admin H).
    + split_and!; [done..|]. apply orb_true_iff. right. by apply restricted_roles.
  - destruct (base_free tnt "") as (-> & _ & ->). rewrite !andb_true_iff. intros (_ & _ & H). by apply restricted_user_permission in H.
  - destruct (base_free tnt ns) as (_ & -> & ->). rewrite !andb_true_iff. intros (_ & _ & H). by apply restricted_admin_permission in H.
  - destruct (base_free tnt ns) as (_ & -> & ->). rewrite !andb_true_iff. intros (_ & _ & H).
    by apply restricted_namespace_permission in H.
  - destruct (base_free tnt ns) as (_ & -> & ->). simpl. case_match; [done|]. case_match; [done|]. rewrite !andb_true_iff.
    intros (_ & H'). by apply restricted_namespace_permission in H'.
Qed.
Lemma restricted_scope r : allows t r = true → ScopeLevel (needs r) ≤ ScopeLevel (access_level key).
Proof using Ht.
  destruct (restricted_token _ _ _ _ Ht) as (rt & rn & Hsh & _). assert (scope t = access_level key) as <- by (by rewrite Hsh).
  assert (sourceIsApikey t = true) as Hs by (by rewrite Hsh).
  rewrite <-(bool_decide_eq_true (_ ≤ _)). change (allows t r = true → CheckScope t (needs r) = true).
  destruct r; cbn [allows needs];
    unfold IsInferxAdmin, IsTenantAdmin, IsTenantUser, IsNamespaceAdmin, IsNamespaceUser, IsNamespaceInferenceUser;
    rewrite ?Hs; by destruct (CheckScope t _).
Qed.
End restricted.

Section confined.
Context (now : Z) (base : AccessToken) (key : Apikey) (t : AccessToken).
Context (Ht : ApplyApikeyRestrictions now base key = Ok t).
Context (Hsys : IsSystemScopedInferxAdminApikey t = false).

Lemma confined_shape : ∃ rt, restrictTenant t = Some rt ∧ sourceIsApikey t = true ∧
  ∀ r, has_role t r = true → RoleAllowedByRestriction r rt (restrictNamespace t) = true.
Proof.
  destruct (restricted_token _ _ _ _ Ht) as (rt & rn & -> & _). exists rt. split_and!; [done..|].
  unfold has_role. intros r. rewrite bool_decide_eq_true. simpl. rewrite elem_of_filter. by intros [? _]; apply Is_true_true.
Qed.
Lemma confined_admin : IsInferxAdmin t = false.
Proof.
  destruct confined_shape as (rt & Hrt & Hs & _). unfold IsInferxAdmin. rewrite Hs, Hsys, Hrt. simpl. by rewrite orb_true_r.
Qed.
Lemma confined_tenant rt tnt : restrictTenant t = Some rt → AllowTenant t tnt = true → tnt = rt.
Proof. intros Hrt. unfold AllowTenant. rewrite Hsys, Hrt. by intros ->%bool_decide_eq_true. Qed.
Lemma confined_namespace rt tnt ns : restrictTenant t = Some rt → AllowNamespace t tnt ns = true →
  tnt = rt ∧ ∀ m, restrictNamespace t = Some m → ns = m.
Proof.
  intros Hrt. unfold AllowNamespace. destruct (AllowTenant t tnt) eqn:Ha; [|done]. simpl. intros Hn. split; [by eapply confined_tenant|].
  intros m Hm. rewrite Hm in Hn. by apply bool_decide_eq_true in Hn.
Qed.
(** A key of one namespace has no role of a tenant. *)
Lemma tenant_role_no_namespace u tnt rt n : RoleAllowedByRestriction ("/tenant/" +:+ (u +:+ String "/" tnt)) rt (Some n) = false.
Proof.
  unfold RoleAllowedByRestriction. change ("/tenant/" +:+ ?x) with (String "/" ("tenant" +:+ String "/" x)).
  destruct (split_role_head "tenant" (u +:+ String "/" tnt)) as [l ->]; [by apply (bool_decide_unpack _)|].
  destruct l as [|? [|? [|? [|? ?]]]]; try done. by case_decide.
Qed.
Lemma confined_no_tenant_role tnt n : restrictNamespace t = Some n →
  HasTenantAdminRole t tnt = false ∧ HasTenantUserRole t tnt = false.
Proof.
  intros Hn. destruct confined_shape as (rt & _ & _ & Hr). rewrite Hn in Hr.
  unfold HasTenantAdminRole, HasTenantUserRole. split; apply not_true_iff_false; intros H%Hr.
  - pose proof (tenant_role_no_namespace "admin" tnt rt n) as Hf. discriminate (eq_trans (eq_sym H) Hf).
  - pose proof (tenant_role_no_namespace "user" tnt rt n) as Hf. discriminate (eq_trans (eq_sym H) Hf).
Qed.
Lemma confined_within rt r : restrictTenant t = Some rt → allows t r = true → within rt (restrictNamespace t) r.
Proof.
  intros Hrt. destruct r as [|tnt|tnt|tnt ns|tnt ns|tnt ns]; cbn [allows within];
    unfold IsTenantAdmin, IsTenantUser, IsNamespaceAdmin, IsNamespaceUser, IsNamespaceInferenceUser.
  - by rewrite confined_admin.
  - rewrite !andb_true_iff, confined_admin. intros (_ & ->%(confined_tenant rt) & H); [|done]. split; [done|].
    destruct (restrictNamespace t) as [n|] eqn:Hn; [|done]. destruct (confined_no_tenant_role rt n Hn). simpl in H. congruence.
  - rewrite !andb_true_iff. intros (_ & ->%(confined_tenant rt) & H); [|done]. split; [done|].
    destruct (restrictNamespace t) as [n|] eqn:Hn; [|by left]. right. revert H. unfold HasTenantUserPermission.
    rewrite confined_admin. destruct (confined_no_tenant_role rt n Hn) as [-> ->]. by case_bool_decide.
  - rewrite !andb_true_iff. intros (_ & H & _). by apply confined_namespace.
  - rewrite !andb_true_iff. intros (_ & H & _). by apply confined_namespace.
  - destruct (negb (CheckScope t "inference")); [done|]. case_bool_decide; [by left|].
    rewrite !andb_true_iff. intros (H' & _). right. by apply confined_namespace.
Qed.
End confined.

(** C3: A restricted key never exceeds its user, its scope or its place.  Of a token the cache makes for an API key, from
    the token of its user, every right is one the user's token has and one the scope of the key includes; and but for a
    full key of a platform administrator for the tenant [system], every right is over the tenant of the key, and for a key
    of a namespace over nothing but that namespace (what is public apart): roles of the whole tenant are gone. *)
Theorem restricted_key_confined now base key t :
  scope base = "full" → sourceIsApikey base = false → restrictTenant base = None → restrictNamespace base = None →
  ApplyApikeyRestrictions now base key = Ok t →
  (∀ r, allows t r = true → allows base r = true ∧ ScopeLevel (needs r) ≤ ScopeLevel (access_level key)) ∧
  (IsSystemScopedInferxAdminApikey t = false →
   ∃ rt, restrictTenant t = Some rt ∧ ∀ r, allows t r = true → within rt (restrictNamespace t) r).
Proof.
  intros Hsc Hu Hrt Hrn Ht. split.
  - intros r Hr. split; [by eapply restricted_keeps|by eapply restricted_scope].
  - intros Hsys. destruct (confined_shape _ _ _ _ Ht Hsys) as (rt & Hrt' & _). exists rt. split; [done|].
    intros r. by eapply confined_within.
Qed.

Definition ann_roles : list string := ["/tenant/admin/acme"; "/tenant/user/beta"; "/namespace/user/acme/prod"; "/namespace/admin/acme/test"].
Definition ann : AccessToken := AccessToken_New 0 "ann" ann_roles [].
Definition ann_key : Apikey := MkApikey "ix_1" "ann" "ci" "read" (Some " acme ") (Some "prod") None None.
Definition ann_token : AccessToken := Eval vm_compute in
  match ApplyApikeyRestrictions 5 ann ann_key with Ok t => t | _ => ann end.
Example ann_token_rights :
  (λ r, allows ann_token r) <$> [RNamespaceUser "acme" "prod"; RNamespaceUser "acme" "test"; RTenantUser "acme"; RTenantUser "beta";
    RNamespaceAdmin "acme" "prod"; RInference "public" "models"] = [true; false; false; false; false; true].
Proof. vm_compute. reflexivity. Qed.
Lemma restricted_key_confined_witness :
  allows ann_token (RNamespaceUser "acme" "prod") = true ∧
  ∃ rt, restrictTenant ann_token = Some rt ∧ ∀ r, allows ann_token r = true → within rt (restrictNamespace ann_token) r.
Proof.
  assert (ApplyApikeyRestrictions 5 ann ann_key = Ok ann_token) as Ht by (vm_compute; reflexivity).
  split; [vm_compute; reflexivity|].
  apply (restricted_key_confined 5 ann ann_key ann_token eq_refl eq_refl eq_refl eq_refl Ht). vm_compute. reflexivity.
Defined.

(** ** The lists of a user *)

Lemma elem_of_roles_with prefix self x : x ∈ roles_with prefix self ↔ prefix +:+ x ∈ roles self.
Proof.
  unfold roles_with. rewrite list_elem_of_omap. split.
  - intros (r & Hr & Hx%strip_prefix_spec). subst r. apply list_elem_of_fmap in Hr as ([k []] & -> & [Hk _]%elem_of_prefix_scan).
    by apply lookup_gset_to_gmap_Some in Hk as [? _].
  - intros Hx. exists (prefix +:+ x). split; [|by apply strip_prefix_spec]. apply list_elem_of_fmap. exists (prefix +:+ x, tt).
    split; [done|]. apply elem_of_prefix_scan. split; [by apply lookup_gset_to_gmap_Some|apply starts_with_app].
Qed.
Lemma elem_of_AdminTenants self t : t ∈ AdminTenants self ↔ AllowTenant self t = true ∧ HasTenantAdminRole self t = true.
Proof.
  unfold AdminTenants, HasTenantAdminRole, has_role. rewrite list_elem_of_filter, elem_of_roles_with, bool_decide_eq_true.
  by rewrite Is_true_true.
Qed.

(** The tenants a user is shown are those it may use.  For a caller that is no platform administrator, with at least
    the scope to read, the list of its tenants has exactly those for which [IsTenantUser] holds, and with the full scope the
    list of those it administers exactly those for which [IsTenantAdmin] holds, whatever its key is restricted to. *)
Theorem user_tenants_are_permitted self t :
  IsInferxAdmin self = false → CheckScope self "read" = true →
  (t ∈ UserTenants self ↔ IsTenantUser self t = true) ∧
  (CheckScope self "full" = true → t ∈ AdminTenants self ↔ IsTenantAdmin self t = true).
Proof.
  intros Ha Hr. split.
  - unfold UserTenants, IsTenantUser, HasTenantUserPermission. rewrite Hr, Ha, elem_of_app, elem_of_set_elems, elem_of_union.
    rewrite !elem_of_list_to_set, list_elem_of_filter, elem_of_roles_with, elem_of_AdminTenants, Is_true_true.
    rewrite !andb_true_iff. destruct (decide (t = "public")) as [->|Hp].
    { rewrite bool_decide_true by done. destruct (AllowTenant self "public"); set_solver. }
    rewrite bool_decide_false by done. unfold HasTenantUserRole, has_role. rewrite orb_true_iff, bool_decide_eq_true.
    assert (t ∉ (if AllowTenant self "public" then ["public"] else [])) by (case_match; set_solver). tauto.
  - intros Hf. rewrite elem_of_AdminTenants. unfold IsTenantAdmin. rewrite Hf, Ha, !andb_true_iff. simpl. tauto.
Qed.
Lemma user_tenants_are_permitted_witness :
  ("beta" ∈ UserTenants ann ↔ IsTenantUser ann "beta" = true) ∧ UserTenants ann = ["acme"; "beta"; "public"].
Proof. split; [apply user_tenants_are_permitted|]; vm_compute; reflexivity. Defined.

(** ** Roles are read as they are written *)

Definition role_text (b : RoleBinding) : string :=
  match rb_objType b, rb_role b with
  | OTenant, Admin => TenantAdminRole (rb_tenant b)
  | OTenant, User => TenantUserRole (rb_tenant b)
  | ONamespace, Admin => NamespaceAdminRole (rb_tenant b) (rb_namespace b)
  | ONamespace, User => NamespaceUserRole (rb_tenant b) (rb_namespace b)
  end.
Definition plain_binding (b : RoleBinding) : Prop :=
  plain (rb_tenant b) ∧ match rb_objType b with OTenant => rb_namespace b = "" | ONamespace => plain (rb_namespace b) end.
(** A text that does not end in a slash, nor is empty. *)
Definition ended (s : string) : Prop := ∃ c, last (chars s) = Some c ∧ c ≠ "/"%char.
Lemma plain_ended s : plain s → ended s.
Proof.
  intros Hs. pose proof (plain_last s Hs). pose proof (plain_chars s Hs) as Hc. unfold ended.
  destruct (last (chars s)) as [c|] eqn:E; [|by apply last_None in E]. exists c. split; [done|congruence].
Qed.
Lemma ended_app s c x : ended x → ended (s +:+ String c x).
Proof.
  intros (d & Hd & Hne). exists d. split; [|done]. rewrite chars_app. change (chars (String c x)) with (c :: chars x).
  rewrite last_app_cons. destruct (chars x); [done|]. by rewrite last_cons_cons.
Qed.
Lemma trim_matches_rooted u x : plain u → ended (u +:+ x) → trim_matches "/" (String "/" (u +:+ x)) = u +:+ x.
Proof.
  intros Hu (c & Hc & Hne). etrans; [|apply (trim_matches_id "/")].
  - unfold trim_matches, trim_start_matches. change (chars (String "/" ?y)) with ("/"%char :: chars y). by rewrite drop_chars_cons.
  - rewrite chars_app. pose proof (plain_head u Hu). pose proof (plain_chars u Hu). by destruct (chars u).
  - rewrite Hc. congruence.
Qed.
Lemma split_role u a x : plain u → plain a → ended x →
  split "/" (trim_matches "/" (String "/" (u +:+ String "/" (a +:+ String "/" x)))) = u :: a :: split "/" x.
Proof.
  intros Hu Ha Hx. rewrite trim_matches_rooted; [|done|by apply ended_app, ended_app].
  destruct Hu as [_ Hu], Ha as [_ Ha]. by rewrite !split_app.
Qed.
Lemma split_pair t n : plain t → plain n → split "/" (t +:+ String "/" n) = [t; n].
Proof. intros [_ Ht] [_ Hn]. by rewrite split_app, split_nosep. Qed.
Lemma split_plain t : plain t → split "/" t = [t].
Proof. intros [_ Ht]. by apply split_nosep. Qed.
Lemma parse_role_text b : plain_binding b → ParseRoleBinding (role_text b) = Ok b.
Proof.
  destruct b as [ty r t n]. intros [Ht Hn]. unfold ParseRoleBinding. cbn [rb_objType rb_tenant rb_namespace] in Hn, Ht.
  assert (split "/" (trim_matches "/" (role_text (MkRoleBinding ty r t n))) =
    match ty with OTenant => "tenant" | ONamespace => "namespace" end :: match r with Admin => "admin" | User => "user" end ::
    match ty with OTenant => [t] | ONamespace => [t; n] end) as ->.
  { destruct ty, r; cbn [role_text rb_objType rb_role rb_tenant rb_namespace].
    - rewrite <-(split_plain t Ht). by apply (split_role "tenant" "admin" t); [by apply (bool_decide_unpack _)..|by apply plain_ended].
    - rewrite <-(split_plain t Ht). by apply (split_role "tenant" "user" t); [by apply (bool_decide_unpack _)..|by apply plain_ended].
    - rewrite <-(split_pair t n Ht Hn).
      by apply (split_role "namespace" "admin" _); [by apply (bool_decide_unpack _)..|by apply ended_app, plain_ended].
    - rewrite <-(split_pair t n Ht Hn).
      by apply (split_role "namespace" "user" _); [by apply (bool_decide_unpack _)..|by apply ended_app, plain_ended]. }
  destruct ty, r; simpl in *; by rewrite ?Hn.
Qed.
Lemma role_text_inj b b' : plain_binding b → plain_binding b' → role_text b = role_text b' → b = b'.
Proof. intros H%parse_role_text H'%parse_role_text He. rewrite He in H. congruence. Qed.

(** C31: Roles are read as they are written.  For names that are not empty and have no slash, each of the four kinds of role
    is parsed to the binding it was written for, so no two bindings have the same text; and of a token whose roles were all
    written so, the list of bindings (answered by [RbacRoleBindingGet]) has exactly those, each once. *)
Theorem role_bindings_roundtrip self (bs : list RoleBinding) :
  Forall plain_binding bs → roles self = list_to_set (role_text <$> bs) →
  Forall (λ b, ParseRoleBinding (role_text b) = Ok b) bs ∧
  ∃ l, RoleBindings self = Ok l ∧ NoDup l ∧ ∀ b, b ∈ l ↔ b ∈ bs.
Proof.
  intros Hbs Hr. split; [eapply Forall_impl; [done|apply parse_role_text]|].
  assert (∀ r, r ∈ set_elems (roles self) → ∃ b, r = role_text b ∧ b ∈ bs) as Hin.
  { intros r. rewrite elem_of_set_elems, Hr, elem_of_list_to_set. by intros (b & -> & Hb)%list_elem_of_fmap; exists b. }
  pose proof (NoDup_set_elems (roles self)) as Hnd. rewrite Forall_forall in Hbs.
  assert (∀ rs acc, (∀ r, r ∈ rs → ∃ b, r = role_text b ∧ b ∈ bs) → ∃ l, rs = role_text <$> l ∧ (∀ b, b ∈ l → b ∈ bs) ∧
    foldlM (λ bindings r, b ← ParseRoleBinding r; Ok (bindings ++ [b])) acc rs = Ok (acc ++ l)) as Hfold.
  { induction rs as [|r rs IH]; intros acc Hrs.
    { exists []. rewrite app_nil_r. split_and!; [done| |done]. by intros b Hb%elem_of_nil. }
    destruct (Hrs r) as (b & -> & Hb); [by left|].
    destruct (IH (acc ++ [b])) as (l & -> & Hl & Hf); [intros r Hr'; apply Hrs; by right|].
    exists (b :: l). split_and!; [done|intros b' [->|H']%elem_of_cons; auto|].
    simpl. rewrite parse_role_text by auto. simpl. by rewrite Hf, <-app_assoc. }
  destruct (Hfold (set_elems (roles self)) [] Hin) as (l & Hl & Hsub & Hf). exists l. split_and!; [done| |].
  - rewrite Hl in Hnd. by apply NoDup_fmap_1 in Hnd.
  - intros b. split; [auto|]. intros Hb. assert (role_text b ∈ role_text <$> l) as (b' & He & Hb')%list_elem_of_fmap.
    { rewrite <-Hl, elem_of_set_elems, Hr, elem_of_list_to_set. apply list_elem_of_fmap. eauto. }
    by rewrite (role_text_inj b b') by auto.
Qed.
Definition ann_bindings : list RoleBinding :=
  [MkRoleBinding OTenant Admin "acme" ""; MkRoleBinding OTenant User "beta" ""; MkRoleBinding ONamespace User "acme" "prod";
   MkRoleBinding ONamespace Admin "acme" "test"].
Lemma role_bindings_roundtrip_witness :
  roles ann = list_to_set (role_text <$> ann_bindings) ∧
  ∃ l, RoleBindings ann = Ok l ∧ NoDup l ∧ ∀ b, b ∈ l ↔ b ∈ ann_bindings.
Proof.
  assert (Forall plain_binding ann_bindings) as H by (repeat constructor; by apply (bool_decide_unpack _)).
  split; [done|]. by apply role_bindings_roundtrip.
Defined.
