(* ===== verification/Etcd.v ===== *)
(** * The store of objects in etcd (ixshare/src/etcd/etcd_store.rs)

    An object is one key, [/registry/<type>/<tenant>/<namespace>/<name>]; its
    revision is the one etcd gives the key.  What is sent to etcd are the
    questions [EtcdRequest]; [EtcdSpec] states what etcd documents of its
    answers.  The lock around the client is left out: it is held for one request. *)

From S2P Require Import Prelude.
From S2P Require Import Text.
From S2P Require Import BTree.
From S2P Require Import Common.
From S2P Require Import Selector.
From S2P Require Import DataObj.
From S2P Require Import Watch.
From S2P Require Import CacheStore.
From S2P Require Import Svc.
From S2P Require Import Calls.

(** [prost::Message::encode] and [decode] of an [Object]. *)
Class Prost (Bytes : Type) := {
  object_encode : Svc.Object → Bytes;
  object_decode : Bytes → Share.Result Svc.Object;
}.
(** Documented behaviour: what is encoded decodes to itself. *)
Class ProstSpec (Bytes : Type) `{Prost Bytes} : Prop :=
  decode_encode (o : Svc.Object) : object_decode (object_encode o) = Ok o.

(** ** Requests of [etcd_client] *)

Section requests.
Context {Bytes : Type}.
(** Transactions compare modification revisions for equality; 0 is that of a key that is not there. *)
Record Compare := MkCompare { cmp_key : string; cmp_mod_revision : Z }.
Inductive TxnOp :=
| OpPut (key : string) (val : Bytes) (lease : option Z)
| OpGet (key : string)
| OpDelete (key : string).
Record Txn := MkTxn { txn_when : list Compare; txn_then : list TxnOp; txn_else : list TxnOp }.
Record KeyValue := MkKeyValue { ev_key : string; ev_value : Bytes; ev_mod_revision : Z }.
(** The answers; the first number is the revision of the header. *)
Inductive TxnOpResponse :=
| RPut (revision : Z)
| RGet (revision : Z) (kvs : list KeyValue)
| RDelete (revision : Z).
Record TxnResponse := MkTxnResponse { succeeded : bool; op_responses : list TxnOpResponse }.
Record RangeResponse := MkRange { rg_revision : Z; rg_kvs : list KeyValue; rg_more : bool; rg_count : Z }.

(** ixshare/src/etcd/etcd_store.rs:681-686 [EtcdOption] *)
Record EtcdOption := MkEtcdOption { eo_limit : option Z; eo_endKey : option string; eo_revision : option Z; eo_prefix : bool }.
Definition EtcdOption_default : EtcdOption := MkEtcdOption None None None false.
(** ixshare/src/etcd/etcd_store.rs:689-691 [EtcdOption::WithLimit] *)
Definition WithLimit (self : EtcdOption) (limit : Z) := MkEtcdOption (Some limit) (eo_endKey self) (eo_revision self) (eo_prefix self).
(** ixshare/src/etcd/etcd_store.rs:693-695 [EtcdOption::WithRange] *)
Definition WithRange (self : EtcdOption) (endKey : string) := MkEtcdOption (eo_limit self) (Some endKey) (eo_revision self) (eo_prefix self).
(** ixshare/src/etcd/etcd_store.rs:697-699 [EtcdOption::WithRevision] *)
Definition WithRevision (self : EtcdOption) (revision : Z) := MkEtcdOption (eo_limit self) (eo_endKey self) (Some revision) (eo_prefix self).
(** ixshare/src/etcd/etcd_store.rs:701-703 [EtcdOption::WithPrefix] *)
Definition WithPrefix (self : EtcdOption) := MkEtcdOption (eo_limit self) (eo_endKey self) (eo_revision self) true.
End requests.
Arguments TxnOp : clear implicits.
Arguments Txn : clear implicits.
Arguments KeyValue : clear implicits.
Arguments TxnOpResponse : clear implicits.
Arguments TxnResponse : clear implicits.
Arguments RangeResponse : clear implicits.

Inductive EtcdRequest (Bytes : Type) : Type → Type :=
| EtcdGet (key : string) (options : option EtcdOption) : EtcdRequest Bytes (Share.Result (RangeResponse Bytes))
| EtcdPut (key : string) (val : Bytes) : EtcdRequest Bytes (Share.Result Z)
| EtcdTxn (t : Txn Bytes) : EtcdRequest Bytes (Share.Result (TxnResponse Bytes))
| EtcdDeletePrefix (key : string) : EtcdRequest Bytes (Share.Result Z)
| EtcdCompact (revision : Z) : EtcdRequest Bytes (Share.Result unit).
Arguments EtcdGet {Bytes}. Arguments EtcdPut {Bytes}. Arguments EtcdTxn {Bytes}.
Arguments EtcdDeletePrefix {Bytes}. Arguments EtcdCompact {Bytes}.

(** A world that has an etcd among others. *)
Class HasEtcd (Bytes : Type) (Q : Type → Type) := to_etcd : ∀ X, EtcdRequest Bytes X → Q X.
#[global] Instance etcd_has_etcd {Bytes} : HasEtcd Bytes (EtcdRequest Bytes) := λ X q, q.

Definition PATH_PREFIX : string := "/registry".
Definition MAX_LIMIT : Z := 10000.

(** ixshare/src/etcd/etcd_store.rs:586-597 [EtcdStore::PrepareKey] *)
Definition PrepareKey (key : string) : Share.Result string :=
  if decide (key = "." ∨ key = "/") then Err (Share.CommonError ("invalid key: " +:+ key))
  else Ok (PATH_PREFIX +:+ String "/" (default key (strip_prefix "/" key))).
(** ixshare/src/etcd/etcd_store.rs:599-609 [EtcdStore::ValidateMinimumResourceVersion] *)
Definition ValidateMinimumResourceVersion (minRevision actualRevision : Z) : Share.Result unit :=
  if decide (minRevision = 0)%Z then Ok tt
  else if decide (actualRevision < minRevision)%Z then Err (Share.MinRevsionErr minRevision actualRevision)
  else Ok tt.
(** Adds one to the last byte that is not 255 and drops what follows; from the end. *)
Fixpoint bump_last (rev_prefix : list ascii) : option (list ascii) :=
  match rev_prefix with
  | [] => None
  | c :: l => if decide (nat_of_ascii c < 255) then Some (ascii_of_nat (S (nat_of_ascii c)) :: l) else bump_last l
  end.
(** ixshare/src/etcd/etcd_store.rs:635-652 [EtcdStore::GetPrefix] *)
Definition GetPrefix (prefix : list ascii) : list ascii :=
  match bump_last (reverse prefix) with Some l => reverse l | None => [ascii_of_nat 0] end.
(** ixshare/src/etcd/etcd_store.rs:629-633 [EtcdStore::GetPrefixRangeEnd]; the bytes are taken to be UTF-8 again,
    as they are for the prefixes of [List], which end in a slash *)
Definition GetPrefixRangeEnd (prefix : string) : string := of_chars (GetPrefix (chars prefix)).

Section store.
Context {Bytes : Type} {codec : Prost Bytes} {Value : Type} `{JsonOps Value, JsonText Value}.
Context {St : Type} {Q : Type → Type} {O : Type} {world : HasEtcd Bytes Q}.
Abbreviation C A := (call St Q O (Share.Result A)).
Abbreviation Obj := (DataObject Value).
Implicit Types (obj : Obj) (key : string).
Open Scope call_scope.

Definition etcd_ask {A} (q : EtcdRequest Bytes (Share.Result A)) : C A := askC (to_etcd _ q).

(** ixshare/src/etcd/etcd_store.rs:60-79 [EtcdStore::Get] *)
Definition EtcdStore_Get key (minRevision : Z) : C (option Obj) :=
  preparedKey ⇐ liftC (PrepareKey key);
  getResp ⇐ etcd_ask (EtcdGet preparedKey None);
  liftC (ValidateMinimumResourceVersion minRevision (rg_revision getResp)) ⇒
  match rg_kvs getResp with
  | [] => okC None
  | kv :: _ =>
      obj ⇐ liftC (object_decode (ev_value kv));
      obj ⇐ liftC (NewFromObject obj (ev_mod_revision kv) (ev_mod_revision kv) 0);
      okC (Some obj)
  end.

(** [obj.Object().Encode()?], [obj.Encode()?] *)
Definition encode_obj obj : Share.Result Bytes := o ← to_Object obj; Ok (object_encode o).
Definition lease_of (leaseId : Z) : option Z := if decide (leaseId = 0)%Z then None else Some leaseId.

(** ixshare/src/etcd/etcd_store.rs:272-301 [EtcdStore::Create] *)
Definition EtcdStore_Create obj (leaseId : Z) : C Obj :=
  preparedKey ⇐ liftC (PrepareKey (StoreKey obj));
  val ⇐ liftC (encode_obj obj);
  resp ⇐ etcd_ask (EtcdTxn (MkTxn [MkCompare preparedKey 0] [OpPut preparedKey val (lease_of leaseId)] []));
  if negb (succeeded resp) then failC (Share.NewKeyExistsErr preparedKey 0)
  else
    match op_responses resp with
    | RPut actualRev :: _ => okC (CopyWithRev obj actualRev actualRev)
    | [] => CPanic "index out of bounds"
    | _ => CPanic "create get unexpect response"
    end.
(** ixshare/src/etcd/etcd_store.rs:303-352 [EtcdStore::Update] *)
Definition EtcdStore_Update (expectedRev : Z) obj (leaseId : Z) : C Obj :=
  preparedKey ⇐ liftC (PrepareKey (StoreKey obj));
  val ⇐ liftC (encode_obj obj);
  let put := OpPut preparedKey val (lease_of leaseId) in
  let txn := if decide (0 < expectedRev)%Z
             then MkTxn [MkCompare preparedKey expectedRev] [put] [OpGet preparedKey]
             else MkTxn [] [put] [] in
  resp ⇐ etcd_ask (EtcdTxn txn);
  match succeeded resp, op_responses resp with
  | _, [] => CPanic "index out of bounds"
  | false, RGet actualRev _ :: _ => failC (Share.UpdateRevNotMatchErr expectedRev actualRev)
  | true, RPut actualRev :: _ => okC (CopyWithRev obj actualRev actualRev)
  | _, _ => CPanic "Delete get unexpect response"
  end.
(** ixshare/src/etcd/etcd_store.rs:354-364 [EtcdStore::GetRev] *)
Definition EtcdStore_GetRev obj : C Z :=
  preparedKey ⇐ liftC (PrepareKey (StoreKey obj));
  val ⇐ liftC (encode_obj obj);
  etcd_ask (EtcdPut preparedKey val).
(** ixshare/src/etcd/etcd_store.rs:366-404 [EtcdStore::Delete] *)
Definition EtcdStore_Delete key (expectedRev : Z) : C Z :=
  preparedKey ⇐ liftC (PrepareKey key);
  let txn := if decide (expectedRev ≠ 0)%Z
             then MkTxn [MkCompare preparedKey expectedRev] [OpDelete preparedKey] [OpGet preparedKey]
             else MkTxn [] [OpDelete preparedKey] [] in
  resp ⇐ etcd_ask (EtcdTxn txn);
  match succeeded resp, op_responses resp with
  | _, [] => CPanic "index out of bounds"
  | false, RGet _ kvs :: _ =>
      match kvs with
      | [] => CPanic "index out of bounds"
      | kv :: _ => failC (Share.DeleteRevNotMatchErr expectedRev (ev_mod_revision kv))
      end
  | true, RDelete actualRev :: _ => okC actualRev
  | _, _ => CPanic "Delete get unexpect response"
  end.
(** ixshare/src/etcd/etcd_store.rs:611-627 [EtcdStore::Clear] *)
Definition EtcdStore_Clear (prefix : string) : C Z :=
  preparedKey ⇐ liftC (PrepareKey prefix);
  etcd_ask (EtcdDeletePrefix preparedKey).
(** ixshare/src/etcd/etcd_store.rs:664-672 [EtcdStore::Compaction] *)
Definition EtcdStore_Compaction (revision : Z) : C unit := etcd_ask (EtcdCompact revision).

(** ** Lists *)

(** What a list is read with: the key to begin at, the options, the revision that is returned if it is known. *)
Record ListPlan := MkListPlan { lp_key : string; lp_option : EtcdOption; lp_returnedRV : Z }.
(** ixshare/src/etcd/etcd_store.rs:81-155 [EtcdStore::List]; the part before the loop *)
Definition list_plan (pagingEnable : bool) (keyPrefix : string) (opts : ListOption) : Share.Result ListPlan :=
  let pred := lo_predicate opts in
  let getOption := if pagingEnable && bool_decide (0 < sp_limit pred)%Z
                   then WithLimit EtcdOption_default (sp_limit pred) else EtcdOption_default in
  let exact := if decide (0 < lo_revision opts)%Z
               then match lo_revisionMatch opts with Exact => lo_revision opts | _ => 0%Z end else 0%Z in
  plan ←
    (if pagingEnable && HasContinue pred then
       '(continueKey, continueRv) ← SelectionPredicate_Continue pred keyPrefix;
       Ok (MkListPlan continueKey (WithRange getOption (GetPrefixRangeEnd keyPrefix)) (Z.max 0 continueRv))
     else if pagingEnable && bool_decide (0 < sp_limit pred)%Z then
       Ok (MkListPlan keyPrefix (WithRange getOption (GetPrefixRangeEnd keyPrefix)) exact)
     else Ok (MkListPlan keyPrefix (WithPrefix getOption) exact));
  Ok (MkListPlan (lp_key plan)
        (if decide (lp_returnedRV plan ≠ 0)%Z then WithRevision (lp_option plan) (lp_returnedRV plan) else lp_option plan)
        (lp_returnedRV plan)).

(** The loop over the keys of one answer: what is collected, the last key that was looked at, whether it stopped early. *)
Fixpoint take_page (paging : bool) (pred : SelectionPredicate) (v : list Obj) (lastKey : string) (kvs : list (KeyValue Bytes))
    : Share.Result (list Obj * string * bool) :=
  match kvs with
  | [] => Ok (v, lastKey, false)
  | kv :: kvs =>
      if paging && bool_decide (sp_limit pred ≤ Z.of_nat (length v))%Z then Ok (v, lastKey, true)
      else
        obj ← object_decode (ev_value kv);
        obj ← NewFromObject obj (ev_mod_revision kv) (ev_mod_revision kv) 0;
        matched ← Predicate_Match pred obj;
        take_page paging pred (if (matched : bool) then v ++ [obj] else v) (ev_key kv) kvs
  end.

(** What the loop leaves: the objects, the revision, whether there is more and after which key, the count of etcd. *)
Record Listed := MkListed { ld_objs : list Obj; ld_rev : Z; ld_more : bool; ld_lastKey : string; ld_count : Z }.
(** ixshare/src/etcd/etcd_store.rs:157-229 [EtcdStore::List]; the loop, at most [fuel] times: it asks for the same
    keys again with a larger limit, until there is no more, or enough is collected *)
Fixpoint list_loop (fuel : nat) (paging : bool) (opts : ListOption) (preparedKey : string) (getOption : EtcdOption)
    (limit returnedRV : Z) (v : list Obj) (lastKey : string) : C (option Listed) :=
  match fuel with
  | 0 => okC None
  | S fuel =>
      let pred := lo_predicate opts in
      getResp ⇐ etcd_ask (EtcdGet preparedKey (Some getOption));
      liftC (ValidateMinimumResourceVersion (lo_revision opts) (rg_revision getResp)) ⇒
      if (length (rg_kvs getResp) =? 0) && rg_more getResp
      then failC (Share.CommonError "no results were found, but etcd indicated there were more values remaining")
      else
        ' (v, lastKey, early) ⇐ liftC (take_page paging pred v lastKey (rg_kvs getResp));
        let hasMore := early || rg_more getResp in
        let returnedRV := if decide (returnedRV = 0)%Z then rg_revision getResp else returnedRV in
        if negb hasMore || negb paging || bool_decide (sp_limit pred ≤ Z.of_nat (length v))%Z
        then okC (Some (MkListed v returnedRV hasMore lastKey (rg_count getResp)))
        else if decide (limit < MAX_LIMIT)%Z
        then let limit := Z.min (limit * 2) MAX_LIMIT in
             list_loop fuel paging opts preparedKey (WithLimit getOption limit) limit returnedRV v lastKey
        else list_loop fuel paging opts preparedKey getOption limit returnedRV v lastKey
  end.
(** ixshare/src/etcd/etcd_store.rs:81-249 [EtcdStore::List]; [None]: it did not end within [fuel] requests.  What is
    added to the last key are two bytes, a zero and the character 0 *)
Definition EtcdStore_List (fuel : nat) (pagingEnable : bool) (prefix : string) (opts : ListOption) : C (option (DataObjList Value)) :=
  preparedKey ⇐ liftC (PrepareKey prefix);
  let keyPrefix := if ends_with "/" preparedKey then preparedKey else preparedKey +:+ "/" in
  let pred := lo_predicate opts in
  plan ⇐ liftC (list_plan pagingEnable keyPrefix opts);
  let paging := pagingEnable && bool_decide (0 < sp_limit pred)%Z in
  r ⇐ list_loop fuel paging opts (lp_key plan) (lp_option plan) (sp_limit pred) (lp_returnedRV plan) [] "";
  match r with
  | None => okC None
  | Some l =>
      if ld_more l then
        next ⇐ liftC (EncodeContinue (ld_lastKey l +:+ String (ascii_of_nat 0) "0") keyPrefix (ld_rev l));
        let remainingItemCount := if SelectionPredicate_Empty pred then (ld_count l - sp_limit pred)%Z else (-1)%Z in
        okC (Some (MkDataObjList (ld_objs l) (ld_rev l) (Some next) remainingItemCount))
      else okC (Some (MkDataObjList (ld_objs l) (ld_rev l) None (-1)))
  end.
End store.
