(* ===== verification/EtcdProps.v ===== *)
(** * What the store in etcd promises

    [EtcdSpec] states what etcd documents about its answers.  Against it, the
    store of [Etcd] is a table of objects with compare-and-swap ([StoreOp],
    [table_op]), and a list without a limit is the selected part of it. *)

From S2P Require Import Prelude.
From S2P Require Import Text.
From S2P Require Import BTree.
From S2P Require Import Common.
From S2P Require Import Selector.
From S2P Require Import DataObj.
From S2P Require Import Watch.
From S2P Require Import CacheStore.
From S2P Require Import Svc.
From S2P Require Import Calls.
From S2P Require Import Etcd.

(** ** Scans of mapped maps *)

Lemma entries_fmap `{OrdKey K} {V W} (f : V → W) (m : gmap K V) : entries (f <$> m) = prod_map id f <$> entries m.
Proof.
  symmetry. apply sorted_entries_unique.
  - pose proof (entries_sorted m) as Hs. induction Hs as [|[k v] l Hs IH Hf]; csimpl; [constructor|].
    constructor; [done|]. rewrite Forall_fmap. eapply Forall_impl; [apply Hf|]. by intros [k' v'].
  - apply entries_sorted.
  - rewrite <-list_fmap_compose. apply (NoDup_keys m).
  - by rewrite !entries_perm, map_to_list_fmap.
Qed.
Lemma take_prefixed_fmap {V W} (f : V → W) start (l : list (string * V)) :
  take_prefixed start (prod_map id f <$> l) = prod_map id f <$> take_prefixed start l.
Proof. induction l as [|[k v] l IH]; csimpl; [done|]. destruct (starts_with start k); csimpl; [|done]. by rewrite IH. Qed.
Lemma filter_keys_fmap {K V W} (P : K → Prop) `{∀ k, Decision (P k)} (f : V → W) (l : list (K * V)) :
  filter (λ p, P p.1) (prod_map id f <$> l) = prod_map id f <$> filter (λ p, P p.1) l.
Proof.
  induction l as [|[k v] l IH]; [done|]. destruct (decide (P k)).
  - rewrite (filter_cons_True _ (k, v)) by done. rewrite fmap_cons, filter_cons_True by done. by rewrite IH.
  - rewrite (filter_cons_False _ (k, v)) by done. rewrite fmap_cons, filter_cons_False by done. done.
Qed.
Lemma prefix_scan_fmap {V W} (f : V → W) start (m : gmap string V) :
  prefix_scan start (f <$> m) = prod_map id f <$> prefix_scan start m.
Proof.
  unfold prefix_scan, range_from. rewrite entries_fmap, <-take_prefixed_fmap. f_equal. apply filter_keys_fmap.
Qed.

(** ** etcd *)

Class EtcdServer (Bytes : Type) := {
  etcd : Type;
  etcd_kvs : etcd → gmap string (Bytes * Z);     (* values with their modification revisions *)
  etcd_rev : etcd → Z;
  etcd_leases : etcd → gset Z;                    (* the leases that are granted and not over *)
  etcd_lease_not_found : Share.Error;             (* the status of a put with another lease, as the client returns it *)
  etcd_answer : ∀ X, EtcdRequest Bytes X → etcd → X * etcd;
}.

Section laws.
Context {Bytes : Type} {server : EtcdServer Bytes}.
Implicit Types (e : etcd) (m : gmap string (Bytes * Z)).

Definition mod_rev m (key : string) : Z := default 0%Z (snd <$> m !! key).
Definition kv_of m (key : string) : list (KeyValue Bytes) :=
  match m !! key with Some (v, r) => [MkKeyValue key v r] | None => [] end.
(** The keys that begin with [prefix], in order. *)
Definition kvs_from m (prefix : string) : list (KeyValue Bytes) :=
  (λ '(k, (v, r)), MkKeyValue k v r) <$> prefix_scan prefix m.
Definition holds m (c : Compare) : bool := bool_decide (mod_rev m (cmp_key c) = cmp_mod_revision c).
(** One operation at a revision: its answer, the keys and the revision after it. *)
Definition op_effect m (rev : Z) (op : TxnOp Bytes) : TxnOpResponse Bytes * gmap string (Bytes * Z) * Z :=
  match op with
  | OpPut k v _ => (RPut (rev + 1)%Z, <[k := (v, (rev + 1)%Z)]> m, (rev + 1)%Z)
  | OpGet k => (RGet rev (kv_of m k), m, rev)
  | OpDelete k =>
      let rev' := if decide (is_Some (m !! k)) then (rev + 1)%Z else rev in
      (RDelete rev', delete k m, rev')
  end.
(** A put may name a lease. *)
Definition lease_held (leases : gset Z) (lease : option Z) : bool :=
  match lease with Some l => bool_decide (l ∈ leases) | None => true end.
Definition op_lease_held e (op : TxnOp Bytes) : bool :=
  match op with OpPut _ _ lease => lease_held (etcd_leases e) lease | _ => true end.
(** What etcd documents of the requests this store makes: transactions of one operation, reads of one key,
    reads of a prefix.  A put with a lease that is not there fails ("requested lease not found") and changes nothing. *)
Class EtcdSpec : Prop := {
  etcd_txn e t op : (if forallb (holds (etcd_kvs e)) (txn_when t) then txn_then t else txn_else t) = [op] →
    op_lease_held e op = true →
    ∃ e', etcd_answer _ (EtcdTxn t) e
          = (Ok (MkTxnResponse (forallb (holds (etcd_kvs e)) (txn_when t)) [(op_effect (etcd_kvs e) (etcd_rev e) op).1.1]), e')
      ∧ etcd_kvs e' = (op_effect (etcd_kvs e) (etcd_rev e) op).1.2 ∧ etcd_rev e' = (op_effect (etcd_kvs e) (etcd_rev e) op).2;
  etcd_txn_no_lease e t op : (if forallb (holds (etcd_kvs e)) (txn_when t) then txn_then t else txn_else t) = [op] →
    op_lease_held e op = false → etcd_answer _ (EtcdTxn t) e = (Err etcd_lease_not_found, e);
  etcd_txn_nothing e t : (if forallb (holds (etcd_kvs e)) (txn_when t) then txn_then t else txn_else t) = [] →
    etcd_answer _ (EtcdTxn t) e = (Ok (MkTxnResponse (forallb (holds (etcd_kvs e)) (txn_when t)) []), e);
  etcd_get e k : etcd_answer _ (EtcdGet k None) e
    = (Ok (MkRange (etcd_rev e) (kv_of (etcd_kvs e) k) false (Z.of_nat (length (kv_of (etcd_kvs e) k)))), e);
  etcd_get_prefix e k : etcd_answer _ (EtcdGet k (Some (MkEtcdOption None None None true))) e
    = (Ok (MkRange (etcd_rev e) (kvs_from (etcd_kvs e) k) false (Z.of_nat (length (kvs_from (etcd_kvs e) k)))), e);
}.
End laws.
Arguments EtcdSpec Bytes {server}.

(** ** The store as a table *)

Section table.
Context {Bytes : Type} {codec : Prost Bytes} {codec_spec : ProstSpec Bytes} {Value : Type}.
Context {Jops : JsonOps Value} {Jtext : JsonText Value} {Jspec : JsonTextSpec Value}.
Context {server : EtcdServer Bytes} {server_spec : EtcdSpec Bytes} {St O : Type}.
Abbreviation Obj := (DataObject Value).
Abbreviation call := (call St (EtcdRequest Bytes) O).
Implicit Types (o : Obj) (m : gmap string Obj) (e : etcd) (s : St) (path key : string).

(** An object as it is read at a revision. *)
Definition at_rev o (r : Z) : Obj :=
  MkDataObject (objType o) (tenant o) (namespace o) (name o) (labels o) (annotations o) r 0 r (object o).
(** The objects that the keys of etcd hold, by path. *)
Record represents e m : Prop := {
  rep_keys path : m !! path = None ↔ etcd_kvs e !! path = None;
  rep_value path o : m !! path = Some o → ∃ b ob, etcd_kvs e !! path = Some (b, revision o) ∧ object_decode b = Ok ob
    ∧ ∀ X, NewFromObject (X:=X) ob (revision o) (revision o) 0 = Ok o;
  rep_now : (0 ≤ etcd_rev e)%Z;
  rep_revision path o : m !! path = Some o → (0 < revision o ≤ etcd_rev e)%Z;
}.

(** The operations, and what they come to. *)
Inductive StoreOp :=
| SCreate o (leaseId : Z)
| SUpdate (expectedRev : Z) o (leaseId : Z)
| SDelete key (expectedRev : Z)
| SGet key (minRevision : Z).
Inductive StoreResult := Written o | Deleted (rev : Z) | Found (r : option Obj).
Definition op_key (op : StoreOp) : string :=
  match op with SCreate o _ | SUpdate _ o _ => StoreKey o | SDelete k _ | SGet k _ => k end.
Definition run_op (op : StoreOp) : call (Share.Result StoreResult) :=
  match op with
  | SCreate o l => bindR (EtcdStore_Create o l) (λ o, okC (Written o))
  | SUpdate r o l => bindR (EtcdStore_Update r o l) (λ o, okC (Written o))
  | SDelete k r => bindR (EtcdStore_Delete k r) (λ x, okC (Deleted x))
  | SGet k r => bindR (EtcdStore_Get k r) (λ x, okC (Found x))
  end.

(** A write with a lease ([0] is none): one that is not held is an error. *)
Definition write (leases : gset Z) m (rev : Z) path o (l : Z) : outcome unit (Share.Result StoreResult) * gmap string Obj * Z :=
  if lease_held leases (lease_of l)
  then (Ok (Ok (Written (CopyWithRev o (rev + 1) (rev + 1)))), <[path := at_rev o (rev + 1)]> m, (rev + 1)%Z)
  else (Ok (Err etcd_lease_not_found), m, rev).
Definition table_op (leases : gset Z) m (rev : Z) path (op : StoreOp) : outcome unit (Share.Result StoreResult) * gmap string Obj * Z :=
  match op with
  | SCreate o l =>
      match m !! path with
      | Some _ => (Ok (Err (Share.NewKeyExistsErr path 0)), m, rev)
      | None => write leases m rev path o l
      end
  | SUpdate expected o l =>
      if decide (0 < expected ∧ default 0 (revision <$> m !! path) ≠ expected)%Z
      then (Ok (Err (Share.UpdateRevNotMatchErr expected rev)), m, rev)
      else write leases m rev path o l
  | SDelete _ expected =>
      if decide (expected ≠ 0 ∧ default 0 (revision <$> m !! path) ≠ expected)%Z
      then match m !! path with
           | Some o => (Ok (Err (Share.DeleteRevNotMatchErr expected (revision o))), m, rev)
           | None => (Panic "index out of bounds", m, rev)
           end
      else let rev' := if decide (is_Some (m !! path)) then (rev + 1)%Z else rev in
           (Ok (Ok (Deleted rev')), delete path m, rev')
  | SGet _ minRevision =>
      if decide (minRevision ≠ 0 ∧ rev < minRevision)%Z
      then (Ok (Err (Share.MinRevsionErr minRevision rev)), m, rev)
      else (Ok (Ok (Found (m !! path))), m, rev)
  end.

Lemma rep_mod_rev e m path : represents e m → mod_rev (etcd_kvs e) path = default 0%Z (revision <$> m !! path).
Proof.
  intros [Hk Hv _ _]. unfold mod_rev. destruct (m !! path) as [o|] eqn:Ho.
  - destruct (Hv _ _ Ho) as (b & ob & -> & _). done.
  - apply Hk in Ho. by rewrite Ho.
Qed.
Lemma rep_some e m path : represents e m → is_Some (m !! path) ↔ is_Some (etcd_kvs e !! path).
Proof. intros [Hk _ _ _]. rewrite <-!not_eq_None_Some. by rewrite Hk. Qed.
Lemma rep_rev_pos e m path o : represents e m → m !! path = Some o → (0 < revision o)%Z.
Proof. intros He Ho. by apply (rep_revision _ _ He) in Ho as [? _]. Qed.
Lemma rep_put e e' m path o r :
  represents e m → r = (etcd_rev e + 1)%Z → etcd_rev e' = r → etcd_kvs e' = <[path := (object_encode (MkObject (objType o) (tenant o) (namespace o) (name o)
     (ToVec (labels o)) (ToVec (annotations o)) (default "" (json_to_string (object o)))), r)]> (etcd_kvs e) →
  represents e' (<[path := at_rev o r]> m).
Proof.
  intros [Hk Hv Hnow Hrev] Hr Hr' He. split.
  - intros p. rewrite He. destruct (decide (p = path)) as [->|Hne].
    + by rewrite !lookup_insert_eq. + by rewrite !lookup_insert_ne.
  - intros p o'. rewrite He. destruct (decide (p = path)) as [->|Hne].
    + rewrite !lookup_insert_eq. intros [= <-]. eexists _, _. split_and!; [done|apply decode_encode|].
      intros X. destruct (json_roundtrip (object o)) as (t & Ht & Hj). unfold NewFromObject. cbn -[of_kvs].
      rewrite Ht. cbn -[of_kvs]. rewrite Hj. cbn -[of_kvs]. by rewrite !of_kvs_ToVec.
    + rewrite !lookup_insert_ne by done. apply Hv.
  - lia.
  - intros p o' [[_ <-]|[_ Ho]]%lookup_insert_Some; [cbn; lia|]. apply Hrev in Ho. lia.
Qed.
Lemma rep_delete e e' m path :
  represents e m → (etcd_rev e ≤ etcd_rev e')%Z → etcd_kvs e' = delete path (etcd_kvs e) → represents e' (delete path m).
Proof.
  intros [Hk Hv Hnow Hrev] Hle He. split.
  - intros p. rewrite He. destruct (decide (p = path)) as [->|Hne].
    + by rewrite !lookup_delete_eq. + by rewrite !lookup_delete_ne.
  - intros p o'. rewrite He. destruct (decide (p = path)) as [->|Hne].
    + by rewrite lookup_delete_eq. + rewrite !lookup_delete_ne by done. apply Hv.
  - lia.
  - intros p o [_ Ho]%lookup_delete_Some. apply Hrev in Ho. lia.
Qed.

Lemma encode_obj_Ok o :
  encode_obj o = Ok (object_encode (MkObject (objType o) (tenant o) (namespace o) (name o)
    (ToVec (labels o)) (ToVec (annotations o)) (default "" (json_to_string (object o))))).
Proof. destruct (json_roundtrip (object o)) as (t & Ht & _). unfold encode_obj, to_Object. by rewrite Ht. Qed.
(** What a transaction of one operation is answered. *)
Lemma serve_txn e (t : Txn Bytes) op :
  (if forallb (holds (etcd_kvs e)) (txn_when t) then txn_then t else txn_else t) = [op] → op_lease_held e op = true →
  ∃ e', (∀ A (k : TxnResponse Bytes → call (Share.Result A)) s, serve etcd_answer (bindR (etcd_ask (EtcdTxn t)) k) s e
        = serve etcd_answer (k (MkTxnResponse (forallb (holds (etcd_kvs e)) (txn_when t))
            [(op_effect (etcd_kvs e) (etcd_rev e) op).1.1])) s e')
    ∧ etcd_kvs e' = (op_effect (etcd_kvs e) (etcd_rev e) op).1.2 ∧ etcd_rev e' = (op_effect (etcd_kvs e) (etcd_rev e) op).2.
Proof.
  intros Ht Hl. destruct (etcd_txn e t op Ht Hl) as (e' & Ha & Hm & Hr). exists e'. split; [|done]. intros A k s.
  rewrite serve_bindR. unfold etcd_ask, askC, ask, to_etcd, etcd_has_etcd. cbn. by rewrite Ha.
Qed.
Lemma serve_txn_no_lease {A} e (t : Txn Bytes) op (k : TxnResponse Bytes → call (Share.Result A)) s :
  (if forallb (holds (etcd_kvs e)) (txn_when t) then txn_then t else txn_else t) = [op] → op_lease_held e op = false →
  serve etcd_answer (bindR (etcd_ask (EtcdTxn t)) k) s e = (Ok (Err etcd_lease_not_found), s, e).
Proof.
  intros Ht Hl. rewrite serve_bindR. unfold etcd_ask, askC, ask, to_etcd, etcd_has_etcd. cbn.
  by rewrite (etcd_txn_no_lease e t op Ht Hl).
Qed.
Lemma serve_get {A} e path (k : RangeResponse Bytes → call (Share.Result A)) s :
  serve etcd_answer (bindR (etcd_ask (EtcdGet path None)) k) s e
  = serve etcd_answer (k (MkRange (etcd_rev e) (kv_of (etcd_kvs e) path) false
      (Z.of_nat (length (kv_of (etcd_kvs e) path))))) s e.
Proof.
  rewrite serve_bindR. unfold etcd_ask, askC, ask, to_etcd, etcd_has_etcd. cbn. by rewrite etcd_get.
Qed.
Lemma serve_liftC {A B} (r : Share.Result A) (k : A → call (Share.Result B)) s e :
  serve etcd_answer (bindR (liftC r) k) s e =
  match r with Ok a => serve etcd_answer (k a) s e | Err x => (Ok (Err x), s, e) | Panic w => (Panic w, s, e) end.
Proof. by destruct r. Qed.

Lemma serve_txn_nothing {A} e (t : Txn Bytes) (k : TxnResponse Bytes → call (Share.Result A)) s :
  (if forallb (holds (etcd_kvs e)) (txn_when t) then txn_then t else txn_else t) = [] →
  serve etcd_answer (bindR (etcd_ask (EtcdTxn t)) k) s e
  = serve etcd_answer (k (MkTxnResponse (forallb (holds (etcd_kvs e)) (txn_when t)) [])) s e.
Proof.
  intros Ht. rewrite serve_bindR. unfold etcd_ask, askC, ask, to_etcd, etcd_has_etcd. cbn. by rewrite (etcd_txn_nothing e t Ht).
Qed.
(** The comparison these transactions make. *)
Lemma guard_holds e m path r (t el : list (TxnOp Bytes)) :
  represents e m → forallb (holds (etcd_kvs e)) (txn_when (MkTxn [MkCompare path r] t el))
                   = bool_decide (default 0 (revision <$> m !! path) = r)%Z.
Proof. intros He. cbn -[holds]. rewrite andb_true_r. unfold holds. cbn. by rewrite (rep_mod_rev e m). Qed.
Ltac txn_step e Hh e' Hm Hr :=
  let Hs := fresh in
  match goal with |- context [EtcdTxn ?t] =>
    edestruct (serve_txn e t) as (e' & Hs & Hm & Hr); [first [rewrite Hh; reflexivity|reflexivity]|first [reflexivity|assumption]|];
    rewrite Hs; clear Hs
  end.
(** The result of one operation of the store: what etcd then is, and what is returned. *)
Definition agrees e m path op s : Prop :=
  ∃ e', serve etcd_answer (run_op op) s e = ((table_op (etcd_leases e) m (etcd_rev e) path op).1.1, s, e')
    ∧ represents e' (table_op (etcd_leases e) m (etcd_rev e) path op).1.2
    ∧ etcd_rev e' = (table_op (etcd_leases e) m (etcd_rev e) path op).2.

Lemma create_is_table e m path s o l :
  represents e m → PrepareKey (StoreKey o) = Ok path → agrees e m path (SCreate o l) s.
Proof.
  intros He Hp. unfold agrees. cbn [run_op table_op]. rewrite serve_bindR. unfold EtcdStore_Create.
  rewrite Hp, serve_liftC, encode_obj_Ok, serve_liftC.
  pose proof (guard_holds e m path 0 [OpPut path (object_encode (MkObject (objType o) (tenant o) (namespace o) (name o)
      (ToVec (labels o)) (ToVec (annotations o)) (default "" (json_to_string (object o))))) (lease_of l)] [] He) as Hh.
  destruct (m !! path) as [o'|] eqn:Ho; cbn [default fmap option_fmap option_map] in Hh.
  - pose proof (rep_rev_pos e m path o' He Ho). cbn [default from_option id] in Hh.
    rewrite bool_decide_false in Hh by (cbn; lia).
    exists e. rewrite serve_txn_nothing by (by rewrite Hh). rewrite Hh. by cbn.
  - rewrite bool_decide_true in Hh by done. unfold write. destruct (lease_held (etcd_leases e) (lease_of l)) eqn:Hlease.
    + txn_step e Hh e' Hm Hr. exists e'. rewrite Hh. cbn. split_and!; [done| |done]. eapply rep_put; done.
    + exists e. by rewrite (serve_txn_no_lease e _ _ _ s ltac:(rewrite Hh; reflexivity) Hlease).
Qed.
Lemma update_is_table e m path s r o l :
  represents e m → PrepareKey (StoreKey o) = Ok path → agrees e m path (SUpdate r o l) s.
Proof.
  intros He Hp. unfold agrees. cbn [run_op table_op]. rewrite serve_bindR. unfold EtcdStore_Update.
  rewrite Hp, serve_liftC, encode_obj_Ok, serve_liftC. cbn zeta. unfold write.
  destruct (decide (0 < r)%Z) as [Hr0|Hr0].
  - match goal with |- context [EtcdTxn ?t] => pose proof (guard_holds e m path r (txn_then t) (txn_else t) He) as Hh end.
    cbn [txn_then txn_else] in Hh. case_bool_decide as Hm.
    + rewrite decide_False by tauto. destruct (lease_held (etcd_leases e) (lease_of l)) eqn:Hlease.
      * txn_step e Hh e' Hm' Hr. exists e'. rewrite Hh. cbn. split_and!; [done| |done]. eapply rep_put; done.
      * exists e. by rewrite (serve_txn_no_lease e _ _ _ s ltac:(rewrite Hh; reflexivity) Hlease).
    + rewrite decide_True by done. txn_step e Hh e' Hm' Hr.
      exists e'. rewrite Hh. cbn. split_and!; [done| |done]. destruct He; split; rewrite ?Hm', ?Hr; auto.
  - rewrite decide_False by lia. destruct (lease_held (etcd_leases e) (lease_of l)) eqn:Hlease.
    + txn_step e I e' Hm' Hr. exists e'. cbn. split_and!; [done| |done]. eapply rep_put; done.
    + exists e. by erewrite serve_txn_no_lease; [|reflexivity|exact Hlease].
Qed.
Lemma delete_is_table e m path s k r :
  represents e m → PrepareKey k = Ok path → agrees e m path (SDelete k r) s.
Proof.
  intros He Hp. unfold agrees. cbn [run_op table_op]. rewrite serve_bindR. unfold EtcdStore_Delete.
  rewrite Hp, serve_liftC. cbn zeta.
  pose proof (rep_some e m path He) as Hsome.
  destruct (decide (r ≠ 0)%Z) as [Hr0|Hr0].
  - pose proof (guard_holds e m path r [OpDelete path] [OpGet path] He) as Hh. case_bool_decide as Hm.
    + rewrite decide_False by tauto. txn_step e Hh e' Hm' Hr.
      exists e'. rewrite Hh. cbn in *. destruct (decide (is_Some (m !! path))), (decide (is_Some (etcd_kvs e !! path)));
        try tauto; split_and!; try done; (eapply rep_delete; [done|lia|done]).
    + rewrite decide_True by done. txn_step e Hh e' Hm' Hr.
      exists e'. rewrite Hh. cbn in *. assert (represents e' m) by (destruct He; split; rewrite ?Hm', ?Hr; auto).
      unfold kv_of. destruct (m !! path) as [o|] eqn:Ho.
      * destruct (rep_value _ _ He _ _ Ho) as (b & ob & -> & _). done.
      * apply (rep_keys _ _ He) in Ho as ->. done.
  - rewrite decide_False by tauto. txn_step e I e' Hm' Hr.
    exists e'. cbn in *. destruct (decide (is_Some (m !! path))), (decide (is_Some (etcd_kvs e !! path)));
        try tauto; split_and!; try done; (eapply rep_delete; [done|lia|done]).
Qed.
Lemma get_is_table e m path s k r :
  represents e m → PrepareKey k = Ok path → agrees e m path (SGet k r) s.
Proof.
  intros He Hp. unfold agrees. cbn [run_op table_op]. rewrite serve_bindR. unfold EtcdStore_Get.
  rewrite Hp, serve_liftC, serve_get, serve_liftC. exists e. cbn [rg_revision rg_kvs].
  unfold ValidateMinimumResourceVersion.
  destruct (decide (r = 0)%Z), (decide (etcd_rev e < r)%Z);
    (rewrite decide_False by tauto) || (rewrite decide_True by done); try done.
  all: unfold kv_of; destruct (m !! path) as [o|] eqn:Ho;
    [destruct (rep_value _ _ He _ _ Ho) as (b & ob & -> & Hd & Hn)|by apply (rep_keys _ _ He) in Ho as ->].
  all: cbn [ev_value ev_mod_revision]; rewrite Hd, serve_liftC, Hn, serve_liftC; done.
Qed.

(** C5: The store in etcd is a table of objects by path with compare-and-swap: against an etcd that keeps what it
    documents, creating, updating, deleting and reading an object return exactly what the table returns (the new
    revision, that the key exists, that the revision is another one, the object with its revision) and leave a
    state that represents the table's; only a deletion at a revision of a key that is gone panics.  A write may
    name a lease; with one that was not granted or is over it fails with etcd's error and changes nothing.  The
    table is the state at that moment: an object written with a lease goes when the lease is over, which is no
    operation of the store. *)
Theorem etcd_store_is_table op e m path s :
  represents e m → PrepareKey (op_key op) = Ok path →
  ∃ e', serve etcd_answer (run_op op) s e = ((table_op (etcd_leases e) m (etcd_rev e) path op).1.1, s, e')
    ∧ represents e' (table_op (etcd_leases e) m (etcd_rev e) path op).1.2
    ∧ etcd_rev e' = (table_op (etcd_leases e) m (etcd_rev e) path op).2.
Proof.
  intros He Hp. destruct op; [by apply create_is_table|by apply update_is_table|by apply delete_is_table|by apply get_is_table].
Qed.

(** *** Lists *)

(** What a value of etcd is read as. *)
Definition read_kv (p : Bytes * Z) : option Obj :=
  match object_decode p.1 with
  | Ok ob => match NewFromObject (X:=unit) ob p.2 p.2 0 with Ok o => Some o | _ => None end
  | _ => None
  end.
Lemma represents_read e m : represents e m → Some <$> m = read_kv <$> etcd_kvs e.
Proof.
  intros [Hk Hv _ _]. apply map_eq. intros path. rewrite !lookup_fmap. destruct (m !! path) as [o|] eqn:Ho.
  - destruct (Hv _ _ Ho) as (b & ob & -> & Hd & Hn). cbn. unfold read_kv. cbn. by rewrite Hd, Hn.
  - apply Hk in Ho. by rewrite Ho.
Qed.
(** The selected objects under a prefix, in the order of their keys. *)
Definition select (pred : SelectionPredicate) (os : list Obj) : Share.Result (list Obj) :=
  foldlM (λ v o, matched ← Predicate_Match pred o; Ok (if (matched : bool) then v ++ [o] else v)) [] os.
Lemma take_page_select pred (l : list (string * (Bytes * Z))) (lo : list (string * Obj)) v lastKey :
  prod_map id read_kv <$> l = prod_map id Some <$> lo →
  ∃ lastKey', take_page false pred v lastKey ((λ '(k, (b, r)), MkKeyValue k b r) <$> l)
  = (v ← foldlM (λ v o, matched ← Predicate_Match pred o; Ok (if (matched : bool) then v ++ [o] else v)) v lo.*2;
     Ok (v, lastKey', false)).
Proof.
  revert lo v lastKey. induction l as [|[k [b r]] l IH]; intros [|[k' o] lo] v lastKey Hl; try done; csimpl in *.
  { by exists lastKey. }
  injection Hl as <- Ho Hl. unfold read_kv in Ho. cbn in Ho.
  destruct (object_decode b) as [ob| |]; try done. cbn.
  assert (NewFromObject (X:=Share.Error) ob r r 0 = Ok o) as ->.
  { unfold NewFromObject in *. destruct (json_from_str (ob_data ob)); [|done]. cbn in *. by simplify_eq. }
  cbn. destruct (Predicate_Match pred o) as [matched| |]; cbn; [|by exists ""..].
  by apply IH.
Qed.
(** A list without a limit is, against an etcd that keeps what it documents, the objects of the table whose path
    is under the prefix and that the predicate selects, each once, in the order of their paths, with the revision of
    etcd; one request is enough. *)
Theorem unlimited_list_is_selection fuel pagingEnable prefix pred match_ e m path s :
  represents e m → PrepareKey prefix = Ok path → sp_limit pred = 0%Z → sp_continue pred = None →
  serve etcd_answer (EtcdStore_List (Datatypes.S fuel) pagingEnable prefix (MkListOption 0 match_ pred)
    : call (Share.Result (option (DataObjList Value)))) s e
  = match select pred (prefix_scan (if ends_with "/" path then path else path +:+ "/") m).*2 with
    | Ok v => (Ok (Ok (Some (MkDataObjList v (etcd_rev e) None (-1)%Z))), s, e)
    | Err x => (Ok (Err x), s, e)
    | Panic w => (Panic w, s, e)
    end.
Proof.
  intros He Hp Hlim Hcont. unfold EtcdStore_List. rewrite Hp, serve_liftC. cbn zeta.
  set (keyPrefix := if ends_with "/" path then path else _).
  cbn [lo_predicate]. rewrite Hlim, bool_decide_false by lia. rewrite andb_false_r.
  assert (list_plan pagingEnable keyPrefix (MkListOption 0 match_ pred)
          = Ok (MkListPlan keyPrefix (MkEtcdOption None None None true) 0)) as ->.
  { unfold list_plan, HasContinue. cbn [lo_predicate lo_revision lo_revisionMatch]. rewrite Hlim, Hcont.
    rewrite (bool_decide_false (0 < 0)%Z) by lia. rewrite (bool_decide_false (is_Some None)) by (by intros []).
    by rewrite !andb_false_r. }
  rewrite serve_liftC. cbn [lp_key lp_option lp_returnedRV]. rewrite serve_bindR. cbn [list_loop lo_predicate lo_revision].
  rewrite serve_bindR. unfold etcd_ask, askC, ask, to_etcd, etcd_has_etcd. cbn [serve mbind call_bind].
  rewrite etcd_get_prefix. cbn [serve liftC]. cbn [rg_kvs rg_revision rg_more].
  rewrite serve_liftC. cbn [ValidateMinimumResourceVersion]. unfold ValidateMinimumResourceVersion. rewrite decide_True by done.
  rewrite andb_false_r. rewrite serve_bindR.
  destruct (take_page_select pred (prefix_scan keyPrefix (etcd_kvs e)) (prefix_scan keyPrefix m) [] "") as [lastKey Ht].
  { rewrite <-!prefix_scan_fmap. f_equal. symmetry. by apply represents_read. }
  unfold kvs_from. rewrite Ht. unfold select. destruct (foldlM _ [] _) as [v|x|w]; cbn; done.
Qed.
End table.

(** ** An etcd in memory *)

#[local] Instance object_codec : Prost Svc.Object := {| object_encode o := o; object_decode := Ok |}.
#[local] Instance object_codec_spec : ProstSpec Svc.Object.
Proof. done. Qed.
#[local] Instance text_json : JsonOps string := {| json_get _ _ := None; json_text v := v |}.
#[local] Instance text_wire : JsonText string := {| json_to_string v := Some v; json_from_str s := Some s |}.
#[local] Instance text_wire_spec : JsonTextSpec string.
Proof. intros t. by exists t. Qed.

(** The keys, the revision, and the leases. *)
Definition memory : Type := gmap string (Svc.Object * Z) * Z * gset Z.
Definition no_such_lease : Share.Error := Share.CommonError "etcdserver: requested lease not found".
Definition op_held (leases : gset Z) (op : TxnOp Svc.Object) : bool :=
  match op with OpPut _ _ lease => lease_held leases lease | _ => true end.
Definition memory_ops (m : memory) (ops : list (TxnOp Svc.Object)) : list (TxnOpResponse Svc.Object) * memory :=
  foldl (λ acc op, let '(r, kvs, rev) := op_effect acc.2.1.1 acc.2.1.2 op in (acc.1 ++ [r], (kvs, rev, acc.2.2))) ([], m) ops.
Definition memory_answer {X} (q : EtcdRequest Svc.Object X) (m : memory) : X * memory :=
  let '(kvs, rev, leases) := m in
  match q with
  | EtcdGet k opt =>
      let l := if decide (opt = None) then kv_of kvs k else kvs_from kvs k in
      (Ok (MkRange rev l false (Z.of_nat (length l))), m)
  | EtcdPut k v => (Ok (rev + 1)%Z, (<[k := (v, (rev + 1)%Z)]> kvs, (rev + 1)%Z, leases))
  | EtcdTxn t =>
      let ok := forallb (holds kvs) (txn_when t) in
      let ops := if ok then txn_then t else txn_else t in
      if forallb (op_held leases) ops then let '(rs, m) := memory_ops m ops in (Ok (MkTxnResponse ok rs), m)
      else (Err no_such_lease, m)
  | EtcdDeletePrefix k => (Ok (rev + 1)%Z, (filter (λ p, starts_with k p.1 = false) kvs, (rev + 1)%Z, leases))
  | EtcdCompact _ => (Ok tt, m)
  end.
#[local] Instance memory_server : EtcdServer Svc.Object :=
  {| etcd := memory; etcd_kvs := fst ∘ fst; etcd_rev := snd ∘ fst; etcd_leases := snd;
     etcd_lease_not_found := no_such_lease; etcd_answer := @memory_answer |}.
#[local] Instance memory_spec : EtcdSpec Svc.Object.
Proof.
  split.
  - intros [[m r] l] t op Ht Hl. cbn in *. rewrite Ht. exists ((op_effect m r op).1.2, (op_effect m r op).2, l).
    unfold memory_ops. cbn. change (op_held l op = true) in Hl. rewrite Hl. cbn. by destruct (op_effect m r op) as [[? ?] ?].
  - intros [[m r] l] t op Ht Hl. cbn in *. rewrite Ht. cbn. change (op_held l op = false) in Hl. by rewrite Hl.
  - intros [[m r] l] t Ht. cbn in *. by rewrite Ht.
  - by intros [[m r] l] k.
  - by intros [[m r] l] k.
Qed.

Definition node_obj (nm : string) (r : Z) : DataObject string := MkDataObject "node" "system" "system" nm ∅ ∅ r 0 r "{}".
Definition no_etcd : etcd (Bytes:=Svc.Object) := (∅, 0%Z, ∅).
Definition node_path : string := "/registry/node/system/system/n1".
Definition one_node : etcd (Bytes:=Svc.Object) :=
  ({[node_path := (MkObject "node" "system" "system" "n1" [] [] "{}", 1%Z)]}, 1%Z, {[5%Z]}).
Lemma no_etcd_represents : represents (Value:=string) no_etcd ∅.
Proof. split; [done|done|done|done]. Qed.
Lemma one_node_represents : represents one_node {[node_path := node_obj "n1" 1]}.
Proof.
  split.
  - intros p. transitivity (node_path ≠ p); [apply lookup_singleton_None|symmetry; apply lookup_singleton_None].
  - intros p o [<- <-]%lookup_singleton_Some. by eexists _, _.
  - done.
  - intros p o [<- <-]%lookup_singleton_Some. done.
Qed.

Lemma etcd_store_is_table_witness :
  ∃ e', serve etcd_answer (run_op (SUpdate 1 (node_obj "n1" 0) 5) : call unit (EtcdRequest Svc.Object) unit _) tt one_node
    = (Ok (Ok (Written (node_obj "n1" 2))), tt, e')
    ∧ represents e' {[node_path := node_obj "n1" 2]} ∧ etcd_rev e' = 2%Z.
Proof.
  apply (etcd_store_is_table (St:=unit) (O:=unit) (SUpdate 1 (node_obj "n1" 0) 5) one_node
    {[node_path := node_obj "n1" 1]} node_path tt one_node_represents). reflexivity.
Defined.
(** The same with a lease that is over. *)
Example write_with_a_lease_that_is_over :
  (serve etcd_answer (run_op (SUpdate 1 (node_obj "n1" 0) 6) : call unit (EtcdRequest Svc.Object) unit _) tt one_node).1.1
    = Ok (Err no_such_lease).
Proof. reflexivity. Qed.
Lemma unlimited_list_is_selection_witness :
  serve etcd_answer (EtcdStore_List 1 true "node" (MkListOption 0 RM_None SelectionPredicate_default)
    : call unit (EtcdRequest Svc.Object) unit (Share.Result (option (DataObjList string)))) tt one_node
  = (Ok (Ok (Some (MkDataObjList [node_obj "n1" 1] 1 None (-1)%Z))), tt, one_node).
Proof.
  apply (unlimited_list_is_selection (St:=unit) (O:=unit) 0 true "node" SelectionPredicate_default RM_None one_node
    {[node_path := node_obj "n1" 1]} "/registry/node" tt one_node_represents); reflexivity.
Defined.
(** A node that is written twice, and deleted at a revision that is not its last. *)
Example stale_deletion :
  let p : call unit (EtcdRequest Svc.Object) unit _ := run_op (Value:=string) (SDelete "node/system/system/n1" 7) in
  (serve etcd_answer p tt one_node).1.1 = Ok (Err (Share.DeleteRevNotMatchErr 7 1))
  ∧ (serve etcd_answer p tt no_etcd).1.1 = Panic "index out of bounds".
Proof. split; reflexivity. Qed.
