(* ===== verification/StateSvc.v ===== *)
(** * The state service (ixshare/src/state_svc: admission.rs, state_svc.rs)

    It admits what is written to the store in etcd, keeps the status of a
    function next to it, and serves reads from the caches of [Svc].  What it
    knows of tenants, namespaces and functions are mirrors, which its informers
    fill ([ProcessDeltaEvent]) and which may lag behind etcd. *)

From S2P Require Import Prelude.
From S2P Require Import Text.
From S2P Require Import BTree.
From S2P Require Import Common.
From S2P Require Import Validation.
From S2P Require Import Selector.
From S2P Require Import SelectorLexer.
From S2P Require Import SelectorParser.
From S2P Require Import Resource.
From S2P Require Import DataObj.
From S2P Require Import Watch.
From S2P Require Import Ring.
From S2P Require Import CacheStore.
From S2P Require Import Svc.
From S2P Require Import Informer.
From S2P Require Import Specs.
From S2P Require Import Calls.
From S2P Require Import Etcd.

Definition PLATFORM_TENANT : string := "inferx".
Definition PLATFORM_SHARED_NAMESPACE : string := "endpoint".
Definition SYSTEM_TENANT : string := "system".
Definition SYSTEM_NAMESPACE : string := "system".

(** inferxlib/src/obj_mgr/namespace_mgr.rs:20-23 [NamespaceObject]; its spec has no fields *)
Record NamespaceObject := MkNamespaceObject { nso_disable : bool }.
Abbreviation Namespace := (DataObject NamespaceObject).

(** The conversions between JSON and the objects of the service, the JSON of an empty object, and how a text is
    printed with [{:?}]. *)
Class ServiceTypes (Value F : Type) := {
  tenant_serde :: Serde Value TenantObject;
  namespace_serde :: Serde Value NamespaceObject;
  func_serde :: Serde Value (FuncObject F);
  policy_serde :: Serde Value (FuncPolicySpec F);
  partial_serde :: Serde Value (PartialFuncPolicySpec F);
  funcstatus_serde :: Serde Value FunctionStatusDef;
  json_empty : Value;
}.
Class DebugText := debug_str : string → string.

(** [format!("{:?}", e)] *)
Definition debug_error `{DebugText} (e : Share.Error) : string :=
  match e with
  | Share.SchedulerErr m => "SchedulerErr(" +:+ debug_str m +:+ ")"
  | Share.SchedulerNoEnoughResource m => "SchedulerNoEnoughResource(" +:+ debug_str m +:+ ")"
  | Share.ScheduleFail _ => "ScheduleFail"
  | Share.NotExist m => "NotExist(" +:+ debug_str m +:+ ")"
  | Share.PeerNotExist m => "PeerNotExist(" +:+ debug_str m +:+ ")"
  | Share.Exist m => "Exist(" +:+ debug_str m +:+ ")"
  | Share.CommonError m => "CommonError(" +:+ debug_str m +:+ ")"
  | Share.StdIOErr m => "StdIOErr(" +:+ m +:+ ")"
  | Share.SerdeJsonError m => "SerdeJsonError(" +:+ m +:+ ")"
  | Share.ReqWestErr m => "ReqWestErr(" +:+ m +:+ ")"
  | Share.TokioChannFull => "TokioChannFull"
  | Share.TokioChannClose => "TokioChannClose"
  | Share.ProcessDone => "ProcessDone"
  | Share.Timeout ms => "Timeout(" +:+ pretty ms +:+ ")"
  | Share.QueueFull => "QueueFull"
  | Share.NoPermission => "NoPermission"
  | Share.MinRevsionErr a b => "MinRevsionErr(MinRevsionErr { minRevision: " +:+ pretty a +:+ ", actualRevision: " +:+ pretty b +:+ " })"
  | Share.NewKeyExistsErr k rv => "NewKeyExistsErr(NewKeyExistsErr { key: " +:+ debug_str k +:+ ", rv: " +:+ pretty rv +:+ " })"
  | Share.DeleteRevNotMatchErr a b => "DeleteRevNotMatchErr(DeleteRevNotMatchErr { expectRv: " +:+ pretty a +:+ ", actualRv: " +:+ pretty b +:+ " })"
  | Share.UpdateRevNotMatchErr a b => "UpdateRevNotMatchErr(UpdateRevNotMatchErr { expectRv: " +:+ pretty a +:+ ", actualRv: " +:+ pretty b +:+ " })"
  | Share.SqlxError _ _ m => "SqlxError(Database(" +:+ m +:+ "))"
  | Share.Foreign m => m
  end.

Section state.
Context {Value F Ch : Type} `{JsonOps Value, JsonText Value} `{Chan Ch (WatchEvent Value)} `{FloatLit F} {types : ServiceTypes Value F}.
Abbreviation Obj := (DataObject Value).
Abbreviation Function := (DataObject (FuncObject F)).

(** ixshare/src/state_svc/state_svc.rs:72-84 [StateSvc]; without the store, which is in etcd, the factory and the listener *)
Record StateSvc := MkStateSvc {
  ss_svcDir : SvcDir Value Ch;
  ss_tenantMgr : gmap string Tenant;
  ss_funcMgr : gmap string Function;
  ss_namespaceMgr : gmap string Namespace;
}.
Implicit Types (self : StateSvc) (obj : Obj).

(** ** Admission *)

(** ixshare/src/state_svc/admission.rs:457-466 [StateSvc::RejectVirtualEndpointsNamespace] *)
Definition RejectVirtualEndpointsNamespace (tenant namespace : string) : Share.Result unit :=
  if decide (tenant ≠ SYSTEM_TENANT ∧ namespace = VIRTUAL_ENDPOINTS_NAMESPACE)
  then Err (Share.CommonError ("namespace " +:+ VIRTUAL_ENDPOINTS_NAMESPACE +:+
         " is reserved for virtual endpoints; only FuncPolicy objects are allowed there"))
  else Ok tt.
(** ixshare/src/state_svc/admission.rs:472-474 [StateSvc::IsPlatformSharedFunc] *)
Definition IsPlatformSharedFunc (tenant namespace : string) : bool :=
  bool_decide (tenant = PLATFORM_TENANT ∧ namespace = PLATFORM_SHARED_NAMESPACE).
(** ixshare/src/state_svc/admission.rs:468-470 [StateSvc::DefaultFunctionPublished] *)
Definition DefaultFunctionPublished (func : Function) : bool := negb (IsPlatformSharedFunc (tenant func) (namespace func)).
(** ixshare/src/state_svc/admission.rs:476-496 [StateSvc::ValidateEndpointsFuncPolicy] *)
Definition ValidateEndpointsFuncPolicy (namespace : string) (p : FuncPolicySpec F) : Share.Result unit :=
  if decide (namespace ≠ VIRTUAL_ENDPOINTS_NAMESPACE) then Ok tt
  else if decide (0 < minReplica p)%Z
  then Err (Share.CommonError "min_replica is not supported for endpoints FuncPolicy; standby is controlled by the platform function")
  else if decide (0 < standbyPerNode p)%Z
  then Err (Share.CommonError "standby_per_node is not supported for endpoints FuncPolicy; standby is controlled by the platform function")
  else Ok tt.
(** ixshare/src/state_svc/admission.rs:310-343 [StateSvc::ValidateTenantFuncPolicyLimit] *)
Definition ValidateTenantFuncPolicyLimit (limit : ResourceLimit) (p : FuncPolicySpec F) : Share.Result unit :=
  let exceeds what (v bound : Z) : Share.Result unit :=
    if decide (bound < v)%Z
    then Err (Share.CommonError ("policy " +:+ what +:+ " " +:+ pretty v +:+ " exceed limit " +:+ pretty bound)) else Ok tt in
  _ ← exceeds "minReplica" (minReplica p) (minReplicaCap limit);
  _ ← exceeds "maxReplica" (maxReplica p) (rl_maxReplica limit);
  _ ← exceeds "standbyPerNode" (standbyPerNode p) (maxStandby limit);
  exceeds "QueueLen" (queueLen p) (maxQueueLen limit).
(** ixshare/src/state_svc/admission.rs:302-308 [StateSvc::FuncPolicyCheck] *)
Definition FuncPolicyCheck self (tenant : string) (p : FuncPolicySpec F) : Share.Result unit :=
  tenant ← Share.lift (Mgr_Get (ss_tenantMgr self) "system" "system" tenant);
  ValidateTenantFuncPolicyLimit (resourceLimit (tn_spec (object tenant))) p.
(** ixshare/src/state_svc/admission.rs:163-185 [StateSvc::ContainersNamespace] *)
Definition ContainersNamespace self (tenant namespace : string) : Share.Result unit :=
  if negb (Contains (ss_tenantMgr self) SYSTEM_TENANT SYSTEM_NAMESPACE tenant)
  then Err (Share.NotExist ("StateSvc has no tenant " +:+ tenant))
  else if negb (Contains (ss_namespaceMgr self) tenant SYSTEM_NAMESPACE namespace)
  then Err (Share.NotExist ("StateSvc has no namespace " +:+ tenant +:+ "/" +:+ namespace))
  else Ok tt.
(** ixshare/src/state_svc/admission.rs:187-208 [StateSvc::CreateTenantCheck] *)
Definition CreateTenantCheck self obj : Share.Result unit :=
  t ← Share.lift (FromDataObject (T:=TenantObject) obj);
  if decide (tenant t ≠ SYSTEM_TENANT ∨ namespace t ≠ SYSTEM_NAMESPACE)
  then Err (Share.NotExist "tenant must be created in tenant system  and namespace system")
  else if Contains (ss_tenantMgr self) SYSTEM_TENANT SYSTEM_NAMESPACE (name t)
  then Err (Share.Exist ("StateSvc has tenant " +:+ name t))
  else Ok tt.
(** ixshare/src/state_svc/admission.rs:210-243 [StateSvc::CreateNamespaceCheck] *)
Definition CreateNamespaceCheck self obj : Share.Result unit :=
  ns ← Share.lift (FromDataObject (T:=NamespaceObject) obj);
  _ ← RejectVirtualEndpointsNamespace (tenant ns) (name ns);
  if negb (Contains (ss_tenantMgr self) SYSTEM_TENANT SYSTEM_NAMESPACE (tenant ns))
  then Err (Share.NotExist ("StateSvc has no tenant " +:+ tenant ns))
  else if decide (namespace ns ≠ SYSTEM_NAMESPACE)
  then Err (Share.NotExist ("namespace must be created in tenant " +:+ tenant ns +:+ "  and namespace system"))
  else if Contains (ss_namespaceMgr self) (tenant obj) (namespace obj) (name obj)
  then Err (Share.Exist ("StateSvc exists namespace " +:+ Key obj))
  else Ok tt.
(** ixshare/src/state_svc/admission.rs:245-292 [StateSvc::CreateFuncCheck] *)
Definition CreateFuncCheck self obj : Share.Result unit :=
  func ← Share.lift (FromDataObject (T:=FuncObject F) obj);
  _ ← RejectVirtualEndpointsNamespace (tenant func) (namespace func);
  _ ← ContainersNamespace self (tenant func) (namespace func);
  tn ← Share.lift (Mgr_Get (ss_tenantMgr self) "system" "system" (tenant func));
  let limit := resourceLimit (tn_spec (object tn)) in
  funcs ← Share.lift (GetObjectsByPrefix (ss_funcMgr self) (tenant func) "" "");
  if Contains (ss_funcMgr self) (tenant obj) (namespace obj) (name obj)
  then Err (Share.Exist ("StateSvc exists func " +:+ Key obj))
  else if decide (cast u64 (maxFuncCnt limit) ≤ Z.of_nat (length funcs))%Z
  then Err (Share.NotExist ("Func count " +:+ pretty (length funcs) +:+ " exceed tenant limit " +:+ pretty (maxFuncCnt limit)))
  else
    let standby := fs_standby (fo_spec (object func)) in
    if negb (allocMemStandby limit)
       && bool_decide (gpuMem standby = Mem ∨ pageableMem standby = Mem ∨ pinndMem standby = Mem)
    then Err (Share.NotExist "Standby is not allowed in tenant allocMemStandby==false")
    else match fs_policy (fo_spec (object func)) with
         | Link _ => Ok tt
         | DataObj.Obj p => FuncPolicyCheck self (tenant func) p
         end.
(** ixshare/src/state_svc/admission.rs:294-300 [StateSvc::CreateFuncPolicyCheck] *)
Definition CreateFuncPolicyCheck self obj : Share.Result unit :=
  p ← Share.lift (FromDataObject (T:=FuncPolicySpec F) obj);
  _ ← ValidateEndpointsFuncPolicy (namespace p) (object p);
  FuncPolicyCheck self (tenant p) (object p).
(** ixshare/src/state_svc/admission.rs:34-52 [StateSvc::CreateObjCheck] *)
Definition CreateObjCheck self obj : Share.Result unit :=
  match objType obj with
  | "tenant" => CreateTenantCheck self obj
  | "namespace" => CreateNamespaceCheck self obj
  | "function" => CreateFuncCheck self obj
  | "funcpolicy" => CreateFuncPolicyCheck self obj
  | _ => Ok tt
  end.
(** ixshare/src/state_svc/admission.rs:371-392 [StateSvc::UpdateTenantCheck] *)
Definition UpdateTenantCheck self obj : Share.Result unit :=
  t ← Share.lift (FromDataObject (T:=TenantObject) obj);
  if decide (tenant t ≠ SYSTEM_TENANT ∨ namespace t ≠ SYSTEM_NAMESPACE)
  then Err (Share.CommonError "tenant must be in tenant system and namespace system")
  else if negb (Contains (ss_tenantMgr self) SYSTEM_TENANT SYSTEM_NAMESPACE (name t))
  then Err (Share.NotExist ("StateSvc doesn't exist tenant " +:+ name t))
  else Ok tt.
(** ixshare/src/state_svc/admission.rs:394-415 [StateSvc::UpdateFuncCheck] *)
Definition UpdateFuncCheck self obj : Share.Result unit :=
  func ← Share.lift (FromDataObject (T:=FuncObject F) obj);
  _ ← RejectVirtualEndpointsNamespace (tenant func) (namespace func);
  _ ← ContainersNamespace self (tenant func) (namespace func);
  if negb (Contains (ss_funcMgr self) (tenant obj) (namespace obj) (name obj))
  then Err (Share.NotExist ("StateSvc doesn't exist func " +:+ Key obj))
  else match fs_policy (fo_spec (object func)) with
       | Link _ => Ok tt
       | DataObj.Obj p => FuncPolicyCheck self (tenant func) p
       end.
(** ixshare/src/state_svc/admission.rs:345-369 [StateSvc::UpdateObjCheck] *)
Definition UpdateObjCheck self obj : Share.Result unit :=
  match objType obj with
  | "namespace" =>
      ns ← Share.lift (FromDataObject (T:=NamespaceObject) obj);
      RejectVirtualEndpointsNamespace (tenant ns) (name ns)
  | "tenant" => UpdateTenantCheck self obj
  | "funcstatus" => Ok tt
  | "function" => UpdateFuncCheck self obj
  | "funcpolicy" => CreateFuncPolicyCheck self obj
  | _ => Err (Share.CommonError (objType obj +:+ " is not allowed update"))
  end.
(** ixshare/src/state_svc/admission.rs:444-455 [StateSvc::DeleteFuncCheck] *)
Definition DeleteFuncCheck self (tenant namespace name : string) : Share.Result unit :=
  _ ← ContainersNamespace self tenant namespace;
  if negb (Contains (ss_funcMgr self) tenant namespace name)
  then Err (Share.NotExist ("StateSvc doesn't exist func " +:+ tenant +:+ "/" +:+ namespace +:+ "/" +:+ name))
  else Ok tt.
(** ixshare/src/state_svc/admission.rs:417-442 [StateSvc::DeleteObjCheck]; no handler calls it *)
Definition DeleteObjCheck self (objType tenant namespace name : string) : Share.Result unit :=
  match objType with
  | "function" => DeleteFuncCheck self tenant namespace name
  | "funcpolicy" => Ok tt
  | _ => Err (Share.CommonError (objType +:+ " is not allowed delete"))
  end.

(** ** Mirrors *)

Definition with_tenants self m := MkStateSvc (ss_svcDir self) m (ss_funcMgr self) (ss_namespaceMgr self).
Definition with_funcs self m := MkStateSvc (ss_svcDir self) (ss_tenantMgr self) m (ss_namespaceMgr self).
Definition with_namespaces self m := MkStateSvc (ss_svcDir self) (ss_tenantMgr self) (ss_funcMgr self) m.
(** [event.oldObj.clone().unwrap()] *)
Definition old_obj (event : DeltaEvent Value) : Share.Result Obj := unwrap_opt (de_oldObj event).
(** ixshare/src/state_svc/state_svc.rs:143-228 [StateSvc::ProcessDeltaEvent]; what an error leaves behind is the state it was
    called in, but for a modified function, of which only the removal may have happened *)
Definition StateSvc_ProcessDeltaEvent (event : DeltaEvent Value) : sm StateSvc Share.Error unit :=
  let obj := de_obj event in
  let put {A} (m : StateSvc → Share.Result A) (f : StateSvc → A → StateSvc) : sm StateSvc Share.Error unit :=
    λ s, match m s with Ok a => (Ok tt, f s a) | Err e => (Err e, s) | Panic w => (Panic w, s) end in
  let fail : sm StateSvc Share.Error unit := λ s, (Err (Share.CommonError "NamespaceMgr::ProcessDeltaEvent "), s) in
  match de_type event, objType obj with
  | EAdded, "tenant" => put (λ s, t ← Share.lift (To obj); Share.lift (Mgr_Add (ss_tenantMgr s) t)) with_tenants
  | EAdded, "function" => put (λ s, f ← Share.lift (To obj); Share.lift (Mgr_Add (ss_funcMgr s) f)) with_funcs
  | EAdded, "namespace" => put (λ s, n ← Share.lift (FromDataObject obj); Share.lift (Mgr_Add (ss_namespaceMgr s) n)) with_namespaces
  | EModified, "tenant" => put (λ s, t ← Share.lift (FromDataObject obj); Share.lift (Mgr_Update (ss_tenantMgr s) t)) with_tenants
  | EModified, "function" =>
      _ ← put (λ s, o ← old_obj event; f ← Share.lift (To o); Share.lift (Mgr_Remove (ss_funcMgr s) f)) with_funcs;
      put (λ s, f ← Share.lift (To obj); Share.lift (Mgr_Add (ss_funcMgr s) f)) with_funcs
  | EModified, "namespace" => put (λ s, n ← Share.lift (FromDataObject obj); Share.lift (Mgr_Update (ss_namespaceMgr s) n)) with_namespaces
  | EDeleted, "function" => put (λ s, o ← old_obj event; f ← Share.lift (To o); Share.lift (Mgr_Remove (ss_funcMgr s) f)) with_funcs
  | EDeleted, "namespace" =>
      put (λ s, o ← old_obj event; n ← Share.lift (FromDataObject o); Share.lift (Mgr_Remove (ss_namespaceMgr s) n)) with_namespaces
  | EDeleted, "tenant" =>
      put (λ s, o ← old_obj event; t ← Share.lift (FromDataObject o); Share.lift (Mgr_Remove (ss_tenantMgr s) t)) with_tenants
  | EInitDone, _ => mret tt
  | _, _ => fail
  end.
(** ixshare/src/state_svc/state_svc.rs:234-244 [StateSvc::handle]; errors are logged *)
Definition StateSvc_handle (event : DeltaEvent Value) : sm StateSvc Share.Error unit :=
  λ s, match StateSvc_ProcessDeltaEvent event s with (Panic w, s) => (Panic w, s) | (_, s) => (Ok tt, s) end.
End state.

(** A process whose state contains that of the service. *)
Class HasStateSvc (Value F Ch St : Type) := state_svc : St → StateSvc (Value:=Value) (F:=F) (Ch:=Ch).

(** ** The service *)

Section service.
Context {Value F Ch : Type} {Jops : JsonOps Value} {Jtext : JsonText Value} {chan : Chan Ch (WatchEvent Value)}.
Context {lit : FloatLit F} {types : ServiceTypes Value F} {debug : DebugText} {Eng : RegexEngine} {Ord : HashOrder}.
Context {Bytes : Type} {codec : Prost Bytes} {St : Type} {Q : Type → Type} {O : Type}.
Context {world : HasEtcd Bytes Q} {own : HasStateSvc Value F Ch St}.
Abbreviation C A := (call St Q O (Share.Result A)).
Abbreviation Obj := (DataObject Value).
Abbreviation Function := (DataObject (FuncObject F)).
Implicit Types (obj : Obj).
Open Scope call_scope.

Definition default_object {T} (objType tenant namespace name : string) (t : T) : DataObject T :=
  MkDataObject objType tenant namespace name ∅ ∅ 0 0 0 t.
(** The status the service writes for a function. *)
Definition new_funcstatus (func : Function) : Obj :=
  DataObject_of (default_object "funcstatus" (tenant func) (namespace func) (name func)
    (MkFunctionStatusDef (fs_version (fo_spec (object func))) (DefaultFunctionPublished func) Normal 0 0)).
(** ixshare/src/state_svc/admission.rs:53-84 [StateSvc::CreateFuncStatus] *)
Definition CreateFuncStatus obj : C unit :=
  if decide (objType obj = "function") then
    func ⇐ liftC (Share.lift (FromDataObject (T:=FuncObject F) obj));
    EtcdStore_Create (new_funcstatus func) 0 ⇒ okC tt
  else okC tt.
(** The loop of [UpdateFuncStatus]: it ends at the third attempt; [n] attempts are left after this one. *)
Fixpoint update_funcstatus (n : nat) (key : string) (status : Obj) : C unit :=
  current ⇐ EtcdStore_Get (Value:=Value) key 0;
  let expected_rev := match current with Some c => revision c | None => 0%Z end in
  r ← EtcdStore_Update expected_rev status 0;
  match r, n with
  | Ok _, _ => okC tt
  | Err (Share.UpdateRevNotMatchErr _ _), S n => update_funcstatus n key status
  | Err e, _ => failC e
  | Panic w, _ => CPanic w
  end.
(** ixshare/src/state_svc/admission.rs:86-142 [StateSvc::UpdateFuncStatus] *)
Definition UpdateFuncStatus obj : C unit :=
  if decide (objType obj = "function") then
    func ⇐ liftC (Share.lift (FromDataObject (T:=FuncObject F) obj));
    update_funcstatus 2 ("funcstatus/" +:+ key_of (tenant func) (namespace func) (name func)) (new_funcstatus func)
  else okC tt.
(** ixshare/src/state_svc/admission.rs:144-161 [StateSvc::DeleteFuncStatus] *)
Definition DeleteFuncStatus (objType tenant namespace name : string) : C unit :=
  if decide (objType = "function")
  then EtcdStore_Delete ("funcstatus/" +:+ key_of tenant namespace name) 0 ⇒ okC tt
  else okC tt.

(** ixshare/src/metastore/cache_store.rs:155-178 [CacheStore::Get], of a cache of the service: revision -1 is read from etcd *)
Definition Cacher_Get (notified : bool) (objType tenant namespace name : string) (rev : Z) : C (option (option Obj)) :=
  cacher ← look (λ s, GetCacher (ss_svcDir (state_svc s)) objType);
  match cacher with
  | None => okC None
  | Some c =>
      if decide (rev = -1)%Z then
        match cs_backendStore c with
        | None => okC (Some None)
        | Some _ => o ⇐ EtcdStore_Get (CacheStore_StoreKey c (key_of tenant namespace name)) rev; okC (Some o)
        end
      else
        readC (λ s, let sd := ss_svcDir (state_svc s) in
          match GetCacher sd objType with
          | None => Ok None
          | Some c => o ← CacheStore_Get (sd_channelRev sd) notified c tenant namespace name rev; Ok (Some o)
          end)
  end.

Definition answer (r : RevResponse) : C RevResponse := okC r.
(** [format!("..: {:?}", e)], at revision 0 *)
Definition refuse (what : string) (e : Share.Error) : C RevResponse := okC (MkRevResponse (what +:+ debug_error e) 0).
(** The object of a request, with its policy completed. *)
Definition admitted_obj (o : Svc.Obj) : Share.Result (Share.Result Obj) :=
  dataobj ← of_Obj o;
  Ok (if decide (objType dataobj = "funcpolicy") then Share.lift (NormalizeFuncPolicyDataObject (F:=F) dataobj) else Ok dataobj).
(** ixshare/src/state_svc/state_svc.rs:303-366 [StateSvc::create] *)
Definition StateSvc_create (req : CreateRequest) : C RevResponse :=
  match cr_obj req with
  | None => answer (MkRevResponse "create error: invalid request" 0)
  | Some o =>
      r ⇐ liftC (admitted_obj o);
      orC (dataobj ⇐ liftC r;
           readC (λ s, CreateObjCheck (state_svc s) dataobj) ⇒
           o ⇐ EtcdStore_Create dataobj 0;
           CreateFuncStatus dataobj ⇒
           answer (MkRevResponse "" (revision o)))
        (refuse "create error: ")
  end.
(** ixshare/src/state_svc/state_svc.rs:368-429 [StateSvc::update] *)
Definition StateSvc_update (req : UpdateRequest) : C RevResponse :=
  match ur_obj req with
  | None => answer (MkRevResponse "update error: invalid request" 0)
  | Some o =>
      r ⇐ liftC (admitted_obj o);
      checked ← (dataobj ⇐ liftC r; readC (λ s, _ ← UpdateObjCheck (state_svc s) dataobj; Ok dataobj));
      match checked with
      | Err e => refuse "update error: " e
      | Panic w => CPanic w
      | Ok dataobj =>
          written ← EtcdStore_Update (ur_expect_rev req) dataobj 0;
          match written with
          | Err e => refuse "create error: " e
          | Panic w => CPanic w
          | Ok o => orC (UpdateFuncStatus dataobj ⇒ answer (MkRevResponse "" (revision o))) (refuse "update funcstatus error: ")
          end
      end
  end.
(** ixshare/src/state_svc/state_svc.rs:431-499 [StateSvc::delete] *)
Definition StateSvc_delete (notified : bool) (req : DeleteRequest) : C RevResponse :=
  let key := dr_obj_type req +:+ String "/" (key_of (dr_tenant req) (dr_namespace req) (dr_name req)) in
  found ← Cacher_Get notified (dr_obj_type req) (dr_tenant req) (dr_namespace req) (dr_name req) (dr_expect_rev req);
  match found with
  | Panic w => CPanic w
  | Err e => refuse "Object delete Fail: " e
  | Ok None => answer (MkRevResponse ("statesvc doesn't support obj type " +:+ dr_obj_type req) 0)
  | Ok (Some None) => answer (MkRevResponse ("delete object " +:+ debug_str key +:+ " Fail not exist") 0)
  | Ok (Some (Some _)) =>
      deleted ← EtcdStore_Delete key (dr_expect_rev req);
      match deleted with
      | Err e => refuse "delete error: " e
      | Panic w => CPanic w
      | Ok rev =>
          orC (DeleteFuncStatus (dr_obj_type req) (dr_tenant req) (dr_namespace req) (dr_name req) ⇒ answer (MkRevResponse "" rev))
            (refuse "delete funcstatus error: ")
      end
  end.
(** ixshare/src/state_svc/state_svc.rs:521-556 [StateSvc::get] *)
Definition StateSvc_get (notified : bool) (req : GetRequest) : C GetResponse :=
  found ← Cacher_Get notified (gr_obj_type req) (gr_tenant req) (gr_namespace req) (gr_name req) (gr_revision req);
  match found with
  | Panic w => CPanic w
  | Err e => okC (MkGetResponse ("Fail: " +:+ debug_error e) None)
  | Ok None => okC (MkGetResponse ("statesvc doesn't support obj type " +:+ gr_obj_type req) None)
  | Ok (Some None) => okC (MkGetResponse "" None)
  | Ok (Some (Some o)) => oj ⇐ liftC (to_Obj o); okC (MkGetResponse "" (Some oj))
  end.
(** ixshare/src/state_svc/state_svc.rs:558-626 [StateSvc::list] *)
Definition StateSvc_list (notified : bool) (req : ListRequest) : C ListResponse :=
  readC (λ s, let sd := ss_svcDir (state_svc s) in
    match GetCacher sd (lr_obj_type req) with
    | None => Ok (MkListResponse ("statesvc list doesn't support obj type " +:+ lr_obj_type req +:+ ", supports ") 0 [])
    | Some cacher =>
        let fail e : Share.Result ListResponse := Ok (MkListResponse ("Fail: " +:+ debug_error e) 0 []) in
        match Share.lift (Parse (lr_label_selector req)) with
        | Err e => fail e
        | Panic w => Panic w
        | Ok labelSelector =>
            match Share.lift (Parse (lr_field_selector req)) with
            | Err e => fail e
            | Panic w => Panic w
            | Ok fieldSelector =>
                let opts := MkListOption (lr_revision req) Exact (MkPredicate labelSelector fieldSelector 0 None) in
                match CacheStore_List (sd_channelRev sd) notified cacher (lr_tenant req) (lr_namespace req) opts with
                | Err e => fail e
                | Panic w => Panic w
                | Ok resp => objs ← to_Objs (dl_objs resp); Ok (MkListResponse "" (dl_revision resp) objs)
                end
            end
        end
    end).
(** ixshare/src/metastore/unique_id.rs:36-48 [Uid::DataObject] *)
Definition Uid_DataObject : Obj := default_object "unique_id" "" "system" "unique_id" json_empty.
(** ixshare/src/state_svc/state_svc.rs:501-519 [StateSvc::uid] *)
Definition StateSvc_uid : C (string * Z) :=
  orC (uid ⇐ EtcdStore_GetRev Uid_DataObject; okC ("", uid)) (λ e, okC ("Fail: " +:+ debug_error e, 0%Z)).
End service.
