(* ===== verification/Platform.v ===== *)
(** * The gateway's shared state and what it asks of other services

    [Gateway] is what the handlers of accounts and objects share in the process
    of a gateway: the caches of tokens, the mirrors of the object repository;
    with it, the state of the state service it calls.  [Request] are the
    questions to the database of secrets, to etcd, to the billing database, to
    the file system and to the random generator. *)

From S2P Require Import Prelude.
From S2P Require Import Text.
From S2P Require Import BTree.
From S2P Require Import Common.
From S2P Require Import Selector.
From S2P Require Import DataObj.
From S2P Require Import Watch.
From S2P Require Import Svc.
From S2P Require Import Specs.
From S2P Require Import Access.
From S2P Require Import Calls.
From S2P Require Import Etcd.
From S2P Require Import StateSvc.

(** ** The database of secrets *)

(** ixshare/src/gateway/secret.rs:48-56 [OnboardInfo]; without its dates *)
Record OnboardInfo := MkOnboard {
  ob_sub : string; ob_username : string; ob_tenant_name : string; ob_status : string; ob_saga_step : Z;
}.
(** The statements: those with bound parameters by what they are bound to, those that are put together as text by that
    text. *)
Inductive Sql : Type → Type :=
| SelectText (query : string) : Sql (Share.Result (list string))            (* one column *)
| ExecText (query : string) : Sql (Share.Result unit)
| InsertApikey (key : Apikey) : Sql (Share.Result unit)
| SelectApikey (apikey : string) : Sql (Share.Result Apikey)
| SelectApikeys (username : string) : Sql (Share.Result (list Apikey))
| DeleteApikeyReturning (keyname username : string) : Sql (Share.Result (list string))
| InsertRole (username rolename : string) : Sql (Share.Result unit)
| SelectOnboard (sub : string) : Sql (Share.Result (option OnboardInfo))
| InsertOnboardRow (sub username tenant_name : string) : Sql (Share.Result bool)   (* false: there is one *)
| SetOnboardStep (sub : string) (saga_step : Z) : Sql (Share.Result unit)          (* never lowers it *)
| SetOnboardStatus (sub status : string) : Sql (Share.Result unit)
| SetOnboardUsername (sub username : string) : Sql (Share.Result unit)
| DeleteOnboardRow (sub : string) : Sql (Share.Result unit)
| CompleteOnboardRows (sub tenant_name : string) (display_name : option string) (email : string) : Sql (Share.Result unit)
    (* the profile of the tenant, the default tenant of the user, and the status, in one transaction *)
| SelectUserProfile (sub : string) : Sql (Share.Result (option (option string))).  (* the default tenant *)

(** ** Other services *)

Inductive FsRequest : Type → Type :=
| FsOpen (path : string) : FsRequest (Share.Result unit)
| FsCreateDirAll (path : string) : FsRequest (Share.Result unit)
| FsRename (from to : string) : FsRequest (Share.Result unit)
| FsCopy (from to : string) : FsRequest (Share.Result unit)
| FsExists (path : string) : FsRequest bool
| FsRemoveDir (path : string) : FsRequest (Share.Result unit)
| FsRemoveDirAll (path : string) : FsRequest (Share.Result unit).

Inductive Request (Bytes : Type) : Type → Type :=
| AskSql {X} (q : Sql X) : Request Bytes X
| AskEtcd {X} (q : EtcdRequest Bytes X) : Request Bytes X
| AskFs {X} (q : FsRequest X) : Request Bytes X
| AskRandom (what : string) : Request Bytes string                               (* random characters *)
| AskRpc : Request Bytes (Share.Result unit)                                     (* whether a call gets through *)
| AskHasCredit (tenant payment_ref : string) : Request Bytes (Share.Result bool)
| AskAddCredit (tenant : string) (amount_cents : Z) (payment_ref : string) : Request Bytes (Share.Result unit)
| AskRecalculateQuota (tenant : string) : Request Bytes (Share.Result bool).
Arguments AskSql {Bytes X}. Arguments AskEtcd {Bytes X}. Arguments AskFs {Bytes X}. Arguments AskRandom {Bytes}.
Arguments AskRpc {Bytes}. Arguments AskHasCredit {Bytes}. Arguments AskAddCredit {Bytes}. Arguments AskRecalculateQuota {Bytes}.
#[global] Instance request_has_etcd {Bytes} : HasEtcd Bytes (Request Bytes) := λ X q, AskEtcd q.

(** ** Configuration *)

(** What the configuration sets of the limits of the platform's tenant. *)
Record InferxTenantPolicy := MkTenantPolicy {
  tp_quota_exempt : option bool; tp_allowMemStandby : option bool; tp_maxFuncCnt : option Z; tp_maxReplica : option Z;
  tp_maxGpu : option Z; tp_maxStandby : option Z; tp_maxQueueLen : option Z;
}.
(** The last time of [chrono::NaiveDateTime], in nanoseconds. *)
Class GatewayConfig := {
  inferxAdminApikey : string;
  enforceBilling : bool;
  onboardBlockedEmailDomains : list string;
  onboardInitialCreditCents : Z;
  inferxTenantPolicy : InferxTenantPolicy;
  naive_max : Z;
}.

(** ** The shared state *)

Section gateway.
Context {Value F Ch R : Type}.
(** A function as the gateway writes it: what is modelled of it, and the rest of its specification. *)
Definition FullFunc : Type := FuncObject F * R.

Record Gateway := MkGateway {
  apikeyStore : gmap string AccessToken;
  usernameStore : gmap string AccessToken;
  clock : Z;                                       (* nanoseconds *)
  repo_tenantMgr : gmap string Tenant;
  repo_namespaceMgr : gmap string Namespace;
  repo_funcMgr : gmap string (DataObject FullFunc);
  repo_service : StateSvc (Value:=Value) (F:=F) (Ch:=Ch);
}.
Definition with_apikeyStore (s : Gateway) m := MkGateway m (usernameStore s) (clock s) (repo_tenantMgr s) (repo_namespaceMgr s) (repo_funcMgr s) (repo_service s).
Definition with_usernameStore (s : Gateway) m := MkGateway (apikeyStore s) m (clock s) (repo_tenantMgr s) (repo_namespaceMgr s) (repo_funcMgr s) (repo_service s).
End gateway.
Arguments FullFunc : clear implicits.
Arguments Gateway : clear implicits.
#[global] Instance gateway_service {Value F Ch R} :
  HasStateSvc Value F Ch (Gateway Value F Ch R) := repo_service.
