(* ===== verification/Accounts.v ===== *)
(** * Accounts (ixshare/src/gateway: auth_layer.rs, secret.rs, http_gw.rs)

    Who is a caller: the cache of tokens, API keys, roles.  A role is a row of
    the table [UserRole]; a token is cached for a minute, by user name and by
    API key. *)

From S2P Require Import Prelude.
From S2P Require Import Text.
From S2P Require Import BTree.
From S2P Require Import Common.
From S2P Require Import Selector.
From S2P Require Import DataObj.
From S2P Require Import Watch.
From S2P Require Import Svc.
From S2P Require Import Specs.
From S2P Require Import Access.
From S2P Require Import Calls.
From S2P Require Import Etcd.
From S2P Require Import StateSvc.
From S2P Require Import Platform.

(** ixshare/src/gateway/auth_layer.rs:213-216 [PermissionType] *)
Inductive PermissionType := PGrant | PRevoke.
(** ixshare/src/gateway/auth_layer.rs:233-240 [Grant] *)
Record Grant := MkGrant {
  gt_objType : ObjectType; gt_tenant : string; gt_namespace : string; gt_name : string; gt_role : UserRole; gt_username : string;
}.
(** ixshare/src/gateway/auth_layer.rs:251-263 [ApikeyCreateRequest] *)
Record ApikeyCreateRequest := MkKeyRequest {
  kr_username : string; kr_keyname : string; kr_access_level : option string;
  kr_restrict_tenant : option string; kr_restrict_namespace : option string; kr_expires_in_days : option Z;
}.
(** ixshare/src/gateway/auth_layer.rs:266-273 [ApikeyCreateResponse] *)
Record ApikeyCreateResponse := MkKeyResponse {
  ks_apikey : string; ks_keyname : string; ks_access_level : string;
  ks_restrict_tenant : option string; ks_restrict_namespace : option string; ks_expires_at : option Z;
}.
(** ixshare/src/gateway/auth_layer.rs:276-281 [ApikeyDeleteRequest] *)
Record ApikeyDeleteRequest := MkKeyDelete { kd_username : string; kd_keyname : string }.
Definition DAY : Z := 86400 * 1000000000.

(** *** Statements put together as text *)

(** ixshare/src/gateway/secret.rs:687-700 [SqlSecret::GetRoles] *)
Definition roles_query (username : string) : string :=
  "select rolename from UserRole where username = '" +:+ username +:+ "'".
(** ixshare/src/gateway/secret.rs:702-717 [SqlSecret::DeleteRole] *)
Definition delete_role_query (username role : string) : string :=
  "delete from UserRole where username = '" +:+ username +:+ "' and rolename='" +:+ role +:+ "'".
Definition users_query (rolename : string) : string :=
  "select username from UserRole where rolename = '" +:+ rolename +:+ "'".

Section accounts.
Context {Value F Ch R Bytes O : Type} {config : GatewayConfig}.
Abbreviation Gateway := (Gateway Value F Ch R).
Abbreviation C A := (call Gateway (Request Bytes) O (Share.Result A)).
Implicit Types (token : AccessToken) (s : Gateway).
Open Scope call_scope.

Definition sql {A} (q : Sql (Share.Result A)) : C A := askC (AskSql q).
(** ixshare/src/gateway/secret.rs:687-700 [SqlSecret::GetRoles] *)
Definition GetRoles (username : string) : C (list string) := sql (SelectText (roles_query username)).
(** ixshare/src/gateway/secret.rs:674-685 [SqlSecret::AddRole] *)
Definition AddRole (username role : string) : C unit := sql (InsertRole username role).
(** ixshare/src/gateway/secret.rs:702-717 [SqlSecret::DeleteRole] *)
Definition DeleteRole (username role : string) : C unit := sql (ExecText (delete_role_query username role)).
(** ixshare/src/gateway/secret.rs:719-731 [SqlSecret::DeleteRolesByUsername] *)
Definition DeleteRolesByUsername (username : string) : C unit :=
  sql (ExecText ("delete from UserRole where username = '" +:+ username +:+ "'")).
(** ixshare/src/gateway/secret.rs:733-746 [SqlSecret::GetTenantAdmins] *)
Definition GetTenantAdmins (tenant : string) : C (list string) := sql (SelectText (users_query ("/tenant/admin/" +:+ tenant))).
(** ixshare/src/gateway/secret.rs:748-761 [SqlSecret::GetTenantUsers] *)
Definition GetTenantUsers (tenant : string) : C (list string) := sql (SelectText (users_query ("/tenant/user/" +:+ tenant))).
(** ixshare/src/gateway/secret.rs:763-776 [SqlSecret::GetNamespaceAdmins] *)
Definition GetNamespaceAdmins (tenant namespace : string) : C (list string) :=
  sql (SelectText (users_query ("/namespace/admin/" +:+ tenant +:+ String "/" namespace))).
(** ixshare/src/gateway/secret.rs:778-791 [SqlSecret::GetNamespaceUsers] *)
Definition GetNamespaceUsers (tenant namespace : string) : C (list string) :=
  sql (SelectText (users_query ("/namespace/user/" +:+ tenant +:+ String "/" namespace))).

(** ** The cache of tokens *)

(** Removes tokens, each under the lock of its store. *)
Definition drop_apikeys (keys : list string) : call Gateway (Request Bytes) O unit :=
  eachC (λ k, act (λ s, with_apikeyStore s (delete k (apikeyStore s)))) keys.
Definition drop_username (username : string) : call Gateway (Request Bytes) O unit :=
  act (λ s, with_usernameStore s (delete username (usernameStore s))).
(** ixshare/src/gateway/auth_layer.rs:807-814 [TokenCache::EvactionToken]; without [updatelock], which only keeps two of these
    apart: others may look between any two of its actions in the code too *)
Definition EvactionToken token : C unit :=
  _ ← drop_apikeys (apiKeys token); _ ← drop_username (UserKey token); okC tt.
(** ixshare/src/gateway/auth_layer.rs:786-805 [TokenCache::Replace]; without [updatelock] *)
Definition Replace (oldToken : option AccessToken) (newtoken : AccessToken) : C unit :=
  (match oldToken with None => okC tt | Some old => EvactionToken old end) ⇒
  act (λ s, with_usernameStore s (<[UserKey newtoken := newtoken]> (usernameStore s))) ≫= λ _, okC tt.
(** What a store of the cache has for a key: a token and whether it is too old. *)
Definition cached (store : Gateway → gmap string AccessToken) (k : string) s : option (AccessToken * bool) :=
  (λ g, (g, Timeout (clock s) g)) <$> store s !! k.

(** ixshare/src/gateway/auth_layer.rs:979-1002 [TokenCache::GetTokenByUsername] *)
Definition GetTokenByUsername (username : string) : C AccessToken :=
  c ← look (cached usernameStore username);
  match c with
  | Some (g, false) => okC g
  | _ =>
      apikeys ⇐ sql (SelectApikeys username);
      groups ⇐ GetRoles username;
      now ← look clock;
      let newToken := AccessToken_New now username groups (ak_apikey <$> apikeys) in
      Replace (fst <$> c) newToken ⇒
      okC newToken
  end.
Definition expired (now : Z) (key : Apikey) : bool :=
  match expires_at key with Some e => bool_decide (e < now)%Z | None => false end.
(** ixshare/src/gateway/auth_layer.rs:934-977 [TokenCache::GetTokenByApikey] *)
Definition GetTokenByApikey (apikey : string) : C AccessToken :=
  if decide (inferxAdminApikey ≠ "" ∧ apikey = inferxAdminApikey) then
    now ← look clock; okC (InferxAdminToken now)
  else
    c ← look (cached apikeyStore apikey);
    match c with
    | Some (g, false) => okC g
    | _ =>
        (if decide (is_Some c) then drop_apikeys [apikey] ≫= λ _, okC tt else okC tt) ⇒
        key ⇐ sql (SelectApikey apikey);
        if decide (is_Some (revoked_at key)) then failC Share.NoPermission
        else
          now ← look clock;
          if expired now key then failC Share.NoPermission
          else
            base_token ⇐ GetTokenByUsername (ak_username key);
            now ← look clock;
            restricted ⇐ liftC (ApplyApikeyRestrictions now base_token key);
            act (λ s, with_apikeyStore s (<[apikey := restricted]> (apikeyStore s))) ≫= λ _,
            okC restricted
    end.

(** ** API keys *)

(** [let username = ..] of [CreateApikey] and [DeleteApiKey]: a user's own keys, or an administrator's choice *)
Definition key_owner token (username : string) : Share.Result string :=
  if decide (username = "" ∨ username = Access.username token) then Ok (Access.username token)
  else if negb (IsInferxAdmin token) then Err Share.NoPermission
  else Ok username.
Definition other_than (what : string) (o : option string) : bool :=
  match o with Some t => negb (bool_decide (trim t = what)) | None => false end.
(** ixshare/src/gateway/auth_layer.rs:1033-1101 [TokenCache::CreateApikey]; the level and the restrictions of the new key *)
Definition key_restrictions token (username : string) (req : ApikeyCreateRequest)
    : Share.Result (string * string * option string) :=
  if IsInferxAdmin token && bool_decide (username = Access.username token) then
    if other_than SYSTEM_TENANT (kr_restrict_tenant req)
    then Err (Share.CommonError "inferx admin self apikey restrict_tenant must be 'system'")
    else if other_than "" (kr_restrict_namespace req)
    then Err (Share.CommonError "inferx admin self apikey does not allow restrict_namespace")
    else if other_than "full" (kr_access_level req)
    then Err (Share.CommonError "inferx admin self apikey access_level must be full")
    else Ok ("full", SYSTEM_TENANT, None)
  else
    let access_level := NormalizeScope (default "inference" (kr_access_level req)) in
    _ ← ValidateScope access_level;
    restrict_tenant ← NormalizeRequiredTenant (kr_restrict_tenant req);
    restrict_namespace ← NormalizeOptionalNamespace (kr_restrict_namespace req);
    if IsInferxAdmin token then Ok (access_level, restrict_tenant, restrict_namespace)
    else
      let allowed := match restrict_namespace with
                     | Some ns => IsTenantUser token restrict_tenant || IsNamespaceUser token restrict_tenant ns
                     | None => IsTenantUser token restrict_tenant
                     end in
      if allowed then Ok (access_level, restrict_tenant, restrict_namespace) else Err Share.NoPermission.
(** [now + chrono::Duration::days(d)] *)
Definition expiry (now : Z) (days : option Z) : Share.Result (option Z) :=
  match days with
  | None => Ok None
  | Some d =>
      if decide (naive_max < now + d * DAY)%Z then Panic "`NaiveDateTime + TimeDelta` overflowed" else Ok (Some (now + d * DAY)%Z)
  end.
(** ixshare/src/gateway/auth_layer.rs:1004-1117 [TokenCache::CreateApikey] *)
Definition CreateApikey token (req : ApikeyCreateRequest) : C ApikeyCreateResponse :=
  username ⇐ liftC (key_owner token (kr_username req));
  if decide (trim (kr_keyname req) = "") then failC (Share.CommonError "apikey keyname cannot be empty")
  else
    ' (access_level, restrict_tenant, restrict_namespace) ⇐ liftC (key_restrictions token username req);
    expires_at ⇐ readC (λ s, expiry (clock s) (kr_expires_in_days req));
    hex ← ask (AskRandom "apikey");
    let raw_apikey := "ix_" +:+ hex in
    sql (InsertApikey (MkApikey raw_apikey username (kr_keyname req) access_level (Some restrict_tenant) restrict_namespace
           expires_at None)) ⇒
    drop_username username ≫= λ _,
    okC (MkKeyResponse raw_apikey (kr_keyname req) access_level (Some restrict_tenant) restrict_namespace expires_at).
(** ixshare/src/gateway/auth_layer.rs:1119-1148 [TokenCache::DeleteApiKey] *)
Definition DeleteApiKey token (req : ApikeyDeleteRequest) : C bool :=
  username ⇐ liftC (key_owner token (kd_username req));
  deleted_keys ⇐ sql (DeleteApikeyReturning (kd_keyname req) username);
  match deleted_keys with
  | [] => okC false
  | _ =>
      act (λ s, with_apikeyStore s (foldl (λ m k, delete k m) (apikeyStore s) deleted_keys)) ≫= λ _,
      drop_username username ≫= λ _, okC true
  end.
(** ixshare/src/gateway/auth_layer.rs:1150-1152 [TokenCache::GetApikeys] *)
Definition GetApikeys (username : string) : C (list Apikey) := sql (SelectApikeys username).

(** ** Roles *)

(** ixshare/src/gateway/auth_layer.rs:1154-1165 [TokenCache::GrantTenantAdminPermission] *)
Definition GrantTenantAdminPermission token (tenant username : string) : C unit :=
  AddRole username (TenantAdminRole tenant) ⇒ EvactionToken token.
(** ixshare/src/gateway/auth_layer.rs:1167-1178 [TokenCache::RevokeTenantAdminPermission] *)
Definition RevokeTenantAdminPermission token (tenant username : string) : C unit :=
  DeleteRole username (TenantAdminRole tenant) ⇒ EvactionToken token.
(** ixshare/src/gateway/auth_layer.rs:1180-1191 [TokenCache::GrantTenantUserPermission] *)
Definition GrantTenantUserPermission token (tenant username : string) : C unit :=
  AddRole username (TenantUserRole tenant) ⇒ EvactionToken token.
(** ixshare/src/gateway/auth_layer.rs:1193-1204 [TokenCache::RevokeTenantUserPermission] *)
Definition RevokeTenantUserPermission token (tenant username : string) : C unit :=
  DeleteRole username (TenantUserRole tenant) ⇒ EvactionToken token.
(** ixshare/src/gateway/auth_layer.rs:1206-1221 [TokenCache::GrantNamespaceAdminPermission] *)
Definition GrantNamespaceAdminPermission token (tenant namespace username : string) : C unit :=
  AddRole username (NamespaceAdminRole tenant namespace) ⇒ EvactionToken token.
(** ixshare/src/gateway/auth_layer.rs:1223-1238 [TokenCache::RevokeNamespaceAdminPermission] *)
Definition RevokeNamespaceAdminPermission token (tenant namespace username : string) : C unit :=
  DeleteRole username (NamespaceAdminRole tenant namespace) ⇒ EvactionToken token.
(** ixshare/src/gateway/auth_layer.rs:1240-1255 [TokenCache::GrantNamespaceUserPermission] *)
Definition GrantNamespaceUserPermission token (tenant namespace username : string) : C unit :=
  AddRole username (NamespaceUserRole tenant namespace) ⇒ EvactionToken token.
(** ixshare/src/gateway/auth_layer.rs:1257-1269 [TokenCache::RevokeNamespaceUserPermission] *)
Definition RevokeNamespaceUserPermission token (tenant namespace username : string) : C unit :=
  DeleteRole username (NamespaceUserRole tenant namespace) ⇒ EvactionToken token.

(** The tenant is known to the gateway, or is the system's. *)
Definition tenant_known (tenantname : string) s : Share.Result unit :=
  match Mgr_Get (repo_tenantMgr s) "system" "system" tenantname with
  | Ok _ => Ok tt
  | Err _ => if decide (tenantname ≠ Access.SYSTEM_TENANT)
             then Err (Share.NotExist ("fail to get tenant " +:+ tenantname)) else Ok tt
  | Panic w => Panic w
  end.
Definition namespace_known (tenant namespace : string) s : Share.Result unit :=
  match Mgr_Get (repo_namespaceMgr s) tenant "system" namespace with
  | Ok _ => Ok tt
  | Err _ => Err (Share.NotExist ("fail to get namespace " +:+ tenant +:+ "/" +:+ namespace))
  | Panic w => Panic w
  end.
(** The token of the user whose role is changed. *)
Definition user_token (tenant username : string) : C AccessToken :=
  orC (GetTokenByUsername username) (λ _, failC (Share.NotExist ("fail to get access token for user " +:+ tenant))).
Definition guard (b : bool) (e : Share.Error) : C unit := if b then okC tt else failC e.
(** ixshare/src/gateway/http_gw.rs:715-776 [HttpGateway::GrantTenantRole] *)
Definition GrantTenantRole token (tenantname : string) (role : UserRole) (username : string) : C unit :=
  readC (tenant_known tenantname) ⇒
  guard (IsInferxAdmin token || IsTenantAdmin token tenantname) Share.NoPermission ⇒
  usertoken ⇐ user_token tenantname username;
  match role with
  | Admin =>
      guard (negb (IsTenantAdmin usertoken tenantname))
        (Share.Exist ("user " +:+ username +:+ " already tenant " +:+ tenantname +:+ " admin")) ⇒
      GrantTenantAdminPermission usertoken tenantname username
  | User =>
      guard (negb (IsTenantUser usertoken tenantname))
        (Share.Exist ("user " +:+ username +:+ " already tenant " +:+ tenantname +:+ " user")) ⇒
      GrantTenantUserPermission usertoken tenantname username
  end.
(** ixshare/src/gateway/http_gw.rs:778-839 [HttpGateway::RevokeTenantRole] *)
Definition RevokeTenantRole token (tenant : string) (role : UserRole) (username : string) : C unit :=
  readC (tenant_known tenant) ⇒
  guard (IsInferxAdmin token || IsTenantAdmin token tenant) Share.NoPermission ⇒
  usertoken ⇐ user_token tenant username;
  match role with
  | Admin =>
      guard (IsTenantAdmin usertoken tenant)
        (Share.NotExist ("user " +:+ username +:+ " is not tenant " +:+ tenant +:+ " admin")) ⇒
      RevokeTenantAdminPermission usertoken tenant username
  | User =>
      guard (IsTenantUser usertoken tenant)
        (Share.NotExist ("user " +:+ username +:+ " already tenant " +:+ tenant +:+ " user")) ⇒
      RevokeTenantUserPermission usertoken tenant username
  end.
Definition namespace_manager token (tenant namespace : string) : bool :=
  IsInferxAdmin token || IsTenantAdmin token tenant || IsNamespaceAdmin token tenant namespace.
(** ixshare/src/gateway/http_gw.rs:841-904 [HttpGateway::GrantNamespaceRole] *)
Definition GrantNamespaceRole token (tenant namespace : string) (role : UserRole) (username : string) : C unit :=
  readC (namespace_known tenant namespace) ⇒
  guard (namespace_manager token tenant namespace) Share.NoPermission ⇒
  usertoken ⇐ user_token tenant username;
  let exists_ := Share.Exist ("user " +:+ username +:+ " already namespace " +:+ tenant +:+ "/" +:+ namespace +:+ " admin") in
  match role with
  | Admin =>
      guard (negb (IsNamespaceAdmin usertoken tenant namespace)) exists_ ⇒
      GrantNamespaceAdminPermission usertoken tenant namespace username
  | User =>
      guard (negb (IsNamespaceUser usertoken tenant namespace)) exists_ ⇒
      GrantNamespaceUserPermission usertoken tenant namespace username
  end.
(** ixshare/src/gateway/http_gw.rs:906-969 [HttpGateway::RevokeNamespaceRole] *)
Definition RevokeNamespaceRole token (tenant namespace : string) (role : UserRole) (username : string) : C unit :=
  readC (namespace_known tenant namespace) ⇒
  guard (namespace_manager token tenant namespace) Share.NoPermission ⇒
  usertoken ⇐ user_token tenant username;
  let is_not := "user " +:+ username +:+ " is not namespace " +:+ tenant +:+ "/" +:+ namespace +:+ " admin" in
  match role with
  | Admin =>
      guard (IsNamespaceAdmin usertoken tenant namespace) (Share.NotExist is_not) ⇒
      RevokeNamespaceAdminPermission usertoken tenant namespace username
  | User =>
      guard (IsNamespaceUser usertoken tenant namespace) (Share.Exist is_not) ⇒
      RevokeNamespaceUserPermission usertoken tenant namespace username
  end.
(** ixshare/src/gateway/http_gw.rs:664-713 [HttpGateway::Rbac] *)
Definition Rbac token (permissionType : PermissionType) (objType : ObjectType) (tenant namespace name : string) (role : UserRole)
    (username : string) : C unit :=
  match objType with
  | OTenant =>
      guard (bool_decide (tenant = "system" ∧ namespace = "system")) (Share.CommonError "invalid tenant or namespace name") ⇒
      match permissionType with
      | PGrant => GrantTenantRole token name role username
      | PRevoke => RevokeTenantRole token name role username
      end
  | ONamespace =>
      guard (bool_decide (namespace = "system")) (Share.CommonError "invalid tenant or namespace name") ⇒
      match permissionType with
      | PGrant => GrantNamespaceRole token tenant name role username
      | PRevoke => RevokeNamespaceRole token tenant name role username
      end
  end.
(** ixshare/src/gateway/http_gw.rs:971-993 [HttpGateway::RbacTenantUsers] *)
Definition RbacTenantUsers token (role tenant : string) : C (list string) :=
  guard (IsInferxAdmin token || IsTenantAdmin token tenant) Share.NoPermission ⇒
  match role with
  | "admin" => GetTenantAdmins tenant
  | "user" => GetTenantUsers tenant
  | _ => failC (Share.CommonError ("the role name " +:+ role +:+ " is not valid"))
  end.
(** ixshare/src/gateway/http_gw.rs:995-1031 [HttpGateway::RbacNamespaceUsers] *)
Definition RbacNamespaceUsers token (role tenant namespace : string) : C (list string) :=
  guard (namespace_manager token tenant namespace) Share.NoPermission ⇒
  match role with
  | "admin" => GetNamespaceAdmins tenant namespace
  | "user" => GetNamespaceUsers tenant namespace
  | _ => failC (Share.CommonError ("the role name " +:+ role +:+ " is not valid"))
  end.
End accounts.
