(* ===== verification/GatewayObjects.v ===== *)
(** * Objects over HTTP (ixshare/src/gateway: http_gw.rs, http_gateway.rs)

    Tenants, namespaces, functions and policies are created, updated and
    deleted by handlers that check the caller's token and then call the state
    service; reads and lists go to it or to the gateway's mirrors.  A call of the
    state service runs its handler, and may fail before it or lose its answer. *)

From S2P Require Import Prelude.
From S2P Require Import Text.
From S2P Require Import BTree.
From S2P Require Import Common.
From S2P Require Import Validation.
From S2P Require Import Selector.
From S2P Require Import SelectorLexer.
From S2P Require Import SelectorParser.
From S2P Require Import Resource.
From S2P Require Import DataObj.
From S2P Require Import Watch.
From S2P Require Import Ring.
From S2P Require Import CacheStore.
From S2P Require Import Svc.
From S2P Require Import Specs.
From S2P Require Import Access.
From S2P Require Import Calls.
From S2P Require Import Etcd.
From S2P Require Import StateSvc.
From S2P Require Import Platform.
From S2P Require Import Accounts.

(** The rest of the specification of a function: how it is read and written with it, and whether it is a knowledge base. *)
Class FuncRest (Value F R : Type) := {
  full_serde :: Serde Value (FullFunc F R);
  is_knowledge_base : R → bool;
}.

(** An answer over HTTP: its status, and a text, or data that is printed as JSON. *)
Inductive HttpReply (A : Type) := HText (status : Z) (text : string) | HData (status : Z) (data : A).
Arguments HText {A}.
Arguments HData {A}.
Definition reply_status {A} (r : HttpReply A) : Z := match r with HText st _ | HData st _ => st end.

(** ** Paths of requests *)

(** ixshare/src/gateway/http_gateway.rs:778-818 [tenant_from_path] *)
Definition tenant_from_path (path : string) : option string :=
  let parts := split "/" path in
  match parts !! 1 with
  | None => None
  | Some "rbac" =>
      match parts !! 2 with Some "tenantusers" | Some "namespaceusers" => parts !! 4 | _ => None end
  | Some "object" => match parts !! 2 with Some "tenant" => parts !! 5 | _ => parts !! 3 end
  | Some "objects" => match parts !! 2 with Some "tenant" => None | _ => parts !! 3 end
  | Some "readypods" | Some "directfunccall" | Some "funccall" | Some "sampleccall" | Some "podlog" | Some "podauditlog"
  | Some "SnapshotSchedule" | Some "faillogs" | Some "faillog" | Some "getreqs" | Some "pods" | Some "pod" | Some "functions"
  | Some "function" | Some "tokenizer" | Some "snapshot" | Some "snapshots" | Some "tenant" => parts !! 2
  | Some _ => None
  end.
(** ixshare/src/gateway/http_gateway.rs:984-988 [is_funccall_path] *)
Definition is_funccall_path (path : string) : bool :=
  starts_with "/funccall/" path || starts_with "/directfunccall/" path || starts_with "/sampleccall/" path.
(** ixshare/src/gateway/http_gateway.rs:854-856 [is_blocked_public_endpoint_inference] *)
Definition is_blocked_public_endpoint_inference (tenant namespace : string) : bool :=
  bool_decide (tenant = "public" ∧ namespace = VIRTUAL_ENDPOINTS_NAMESPACE).

(** *** Paths of knowledge bases *)
Definition KB_DIR : string := "/opt/inferx/kb".
Definition KB_FILE_NAME : string := "kb.data".
(** ixshare/src/gateway/http_gw.rs:65-67 [kb_func_root_path] *)
Definition kb_func_root_path (tenant namespace name : string) : string :=
  KB_DIR +:+ "/" +:+ tenant +:+ "." +:+ namespace +:+ "." +:+ name.
(** ixshare/src/gateway/http_gw.rs:69-71 [kb_version_dir_path] *)
Definition kb_version_dir_path (tenant namespace name : string) (version : Z) : string :=
  kb_func_root_path tenant namespace name +:+ "/" +:+ pretty version.
(** ixshare/src/gateway/http_gw.rs:73-75 [kb_stage_file_path] *)
Definition kb_stage_file_path (tenant namespace name : string) : string :=
  kb_func_root_path tenant namespace name +:+ "/" +:+ KB_FILE_NAME.
(** ixshare/src/gateway/http_gw.rs:77-79 [kb_version_file_path] *)
Definition kb_version_file_path (tenant namespace name : string) (version : Z) : string :=
  kb_version_dir_path tenant namespace name version +:+ "/" +:+ KB_FILE_NAME.

Section objects.
Context {Value F Ch R Bytes O : Type} {config : GatewayConfig}.
Context {Jops : JsonOps Value} {Jtext : JsonText Value} {chan : Chan Ch (WatchEvent Value)}.
Context {lit : FloatLit F} {types : ServiceTypes Value F} {rest : FuncRest Value F R} {debug : DebugText}.
Context {Eng : RegexEngine} {Ord : HashOrder} {codec : Prost Bytes}.
Abbreviation Gateway := (Gateway Value F Ch R).
Abbreviation Task A := (call Gateway (Request Bytes) O A).
Abbreviation C A := (call Gateway (Request Bytes) O (Share.Result A)).
Abbreviation Obj := (DataObject Value).
Abbreviation Function := (DataObject (FullFunc F R)).
Implicit Types (token : AccessToken) (s : Gateway) (obj : Obj).
Open Scope call_scope.

(** ** Calls of the state service *)

Definition rpc {A} (handler : C A) : C A :=
  askC AskRpc ⇒ resp ⇐ handler; askC AskRpc ⇒ okC resp.
(** ixshare/src/metastore/cacher_client.rs:183-194 [CacherClientInner::Create] *)
Definition client_Create obj : C Z :=
  o ⇐ liftC (to_Obj obj);
  resp ⇐ rpc (StateSvc_create (MkCreateRequest (Some o)));
  liftC (rev_result (Ok resp)).
(** ixshare/src/metastore/cacher_client.rs:221-235 [CacherClientInner::Update] *)
Definition client_Update obj (expectRev : Z) : C Z :=
  o ⇐ liftC (to_Obj obj);
  resp ⇐ rpc (StateSvc_update (MkUpdateRequest expectRev (Some o)));
  liftC (rev_result (Ok resp)).
(** ixshare/src/metastore/cacher_client.rs:196-219 [CacherClientInner::Delete] *)
Definition client_Delete (objType tenant namespace name : string) (expectRev : Z) : C Z :=
  resp ⇐ rpc (StateSvc_delete false (MkDeleteRequest objType tenant namespace name expectRev));
  liftC (rev_result (Ok resp)).
(** ixshare/src/metastore/cacher_client.rs:237-263 [CacherClientInner::Get] *)
Definition client_Get (objType tenant namespace name : string) (revision : Z) : C (option Obj) :=
  resp ⇐ rpc (StateSvc_get false (MkGetRequest objType tenant namespace name revision));
  if len (gs_error resp) =? 0 then
    match gs_obj resp with
    | None => okC None
    | Some o => d ⇐ liftC (NewFromObj o); okC (Some d)
    end
  else failC (Share.CommonError (gs_error resp)).
(** ixshare/src/metastore/cacher_client.rs:276-311 [CacherClientInner::List] *)
Definition client_List (objType tenant namespace : string) (opts : ListOption) : C (list Obj) :=
  let req := MkListRequest objType tenant namespace (lo_revision opts)
    (Selector_String (sp_label (lo_predicate opts))) (Selector_String (sp_field (lo_predicate opts))) in
  resp ⇐ rpc (StateSvc_list false req);
  if len (ls_error resp) =? 0 then liftC (of_Objs (ls_objs resp)) else failC (Share.CommonError (ls_error resp)).
(** ixshare/src/metastore/cacher_client.rs:265-274 [CacherClientInner::Uid] *)
Definition client_Uid : C Z :=
  ' (error, uid) ⇐ rpc StateSvc_uid;
  if len error =? 0 then okC uid else failC (Share.CommonError error).

(** ** Quotas *)

(** ixshare/src/gateway/http_gateway.rs:820-833 [tenant_quota_state] *)
Definition tenant_quota_state s (tenant : string) : Share.Result (bool * bool) :=
  if decide (tenant = "") then Ok (false, false)
  else t ← Share.lift (Mgr_Get (repo_tenantMgr s) StateSvc.SYSTEM_TENANT SYSTEM_NAMESPACE tenant);
       Ok (quota_exempt (tn_spec (object t)), quota_exceeded (tn_status (object t))).
Definition quota_exceeded_response {A} (tenant : string) : HttpReply A :=
  HText 429 ("service failure: tenant " +:+ tenant +:+ " quota exceeded").
Definition quota_lookup_failed_response {A} (tenant : string) : HttpReply A :=
  HText 503 ("service failure: tenant " +:+ tenant +:+ " quota lookup failed").
(** ixshare/src/gateway/http_gateway.rs:962-982 [enforce_tenant_quota_for_write] *)
Definition enforce_tenant_quota_for_write {A} token s (tenant : string) : option (HttpReply A) :=
  if IsInferxAdmin token then None
  else match tenant_quota_state s tenant with
       | Ok (true, _) => None
       | Ok (false, true) => Some (quota_exceeded_response tenant)
       | Ok (false, false) => None
       | _ => Some (quota_lookup_failed_response tenant)
       end.
(** ixshare/src/gateway/http_gateway.rs:990-1025 [enforce_tenant_quota_for_request] *)
Definition enforce_tenant_quota_for_request {A} token s (tenant method path : string) : option (HttpReply A) :=
  if IsInferxAdmin token then None
  else match tenant_quota_state s tenant with
       | Ok (true, _) => None
       | Ok (false, true) =>
           if is_funccall_path path then Some (quota_exceeded_response tenant)
           else if bool_decide (method ∈ ["GET"; "HEAD"; "OPTIONS"]) then None
           else Some (quota_exceeded_response tenant)
       | Ok (false, false) => None
       | _ => Some (quota_lookup_failed_response tenant)
       end.
(** ixshare/src/gateway/http_gateway.rs:1027-1090 [TenantQuotaGuard]; [None]: the request goes on *)
Definition TenantQuotaGuard {A} (token : option AccessToken) s (method path : string) : option (HttpReply A) :=
  if negb enforceBilling then None
  else match tenant_from_path path with
       | Some tenant =>
           if decide (tenant = "") then None
           else match token with
                | None => None
                | Some token => if IsInferxAdmin token then None else enforce_tenant_quota_for_request token s tenant method path
                end
       | None => None
       end.
(** ixshare/src/gateway/http_gateway.rs:2112-2170 [FuncCall1]; [None]: the call is dispatched *)
Definition FuncCall1 {A} token (path : string) : option (HttpReply A) :=
  let parts := split "/" path in
  if length parts <? 5 then Some (HText 400 "service failure: Invalid input")
  else
    let p i := default "" (parts !! i) in
    if (5 <? length parts) && (starts_with "sleep" (p 5) || starts_with "wake_up" (p 5))
    then Some (HText 404 "service failure: unsupported")
    else if is_blocked_public_endpoint_inference (p 2) (p 3) then Some (HText 404 "service failure: unsupported")
    else if negb (CheckScope token "inference") then Some (HText 401 "service failure: insufficient scope")
    else if negb (IsNamespaceInferenceUser token (p 2) (p 3)) then Some (HText 401 "service failure: No permission")
    else None.

(** ** Tenants *)

(** ixshare/src/gateway/http_gw.rs:1459-1490 [HttpGateway::CreateTenant] *)
Definition CreateTenant token obj : C Z :=
  guard (IsInferxAdmin token) Share.NoPermission ⇒
  t ⇐ liftC (Share.lift (FromDataObject (T:=TenantObject) obj));
  guard (bool_decide (tenant t = "system" ∧ namespace t = "system")) (Share.CommonError "invalid tenant or namespace name") ⇒
  guard (IsInferxAdmin token) Share.NoPermission ⇒
  client_Create obj.
(** ixshare/src/gateway/http_gw.rs:1492-1513 [HttpGateway::UpdateTenant] *)
Definition UpdateTenant token obj : C Z :=
  t ⇐ liftC (Share.lift (FromDataObject (T:=TenantObject) obj));
  guard (bool_decide (tenant t = "system" ∧ namespace t = "system")) (Share.CommonError "invalid tenant or namespace name") ⇒
  guard (IsTenantAdmin token (name t)) Share.NoPermission ⇒
  client_Update obj 0.
(** ixshare/src/gateway/http_gw.rs:1515-1545 [HttpGateway::DeleteTenant] *)
Definition DeleteTenant token (tenant namespace name : string) : C Z :=
  guard (bool_decide (tenant = "system" ∧ namespace = "system")) (Share.CommonError "invalid tenant or namespace name") ⇒
  guard (IsInferxAdmin token) Share.NoPermission ⇒
  empty ⇐ readC (λ s, Ok (IsEmpty (repo_namespaceMgr s) name "system"));
  guard empty (Share.CommonError ("the tenant " +:+ tenant +:+ " is not empty")) ⇒
  client_Delete "tenant" tenant namespace name 0.

(** ** Namespaces *)

(** ixshare/src/gateway/http_gw.rs:1547-1572 [HttpGateway::CreateNamespace] *)
Definition CreateNamespace token obj : C Z :=
  ns ⇐ liftC (Share.lift (FromDataObject (T:=NamespaceObject) obj));
  guard (bool_decide (namespace ns = "system")) (Share.CommonError "invalid namespace name") ⇒
  guard (IsTenantAdmin token (tenant ns)) Share.NoPermission ⇒
  version ⇐ client_Create obj;
  GrantNamespaceAdminPermission token (tenant ns) (name ns) (username token) ⇒
  okC version.
(** ixshare/src/gateway/http_gw.rs:1574-1582 [HttpGateway::UpdateNamespace] *)
Definition UpdateNamespace token obj : C Z := failC (Share.CommonError "doesn't support namespace update").
(** ixshare/src/gateway/http_gw.rs:1584-1619 [HttpGateway::DeleteNamespace] *)
Definition DeleteNamespace token (tenant namespace name : string) : C Z :=
  guard (bool_decide (namespace = "system")) (Share.CommonError "invalid tenant or namespace name") ⇒
  empty ⇐ readC (λ s, Ok (IsEmpty (repo_funcMgr s) tenant name));
  guard empty (Share.CommonError ("the tenant " +:+ tenant +:+ " is not empty")) ⇒
  guard (IsTenantAdmin token tenant) Share.NoPermission ⇒
  version ⇐ client_Delete "namespace" tenant namespace name 0;
  RevokeNamespaceAdminPermission token tenant name (username token) ⇒
  okC version.

(** ** Functions *)

Definition fs {A} (q : FsRequest (Share.Result A)) : C A := askC (AskFs q).
(** An operation whose failure is only logged. *)
Definition fs_try (q : FsRequest (Share.Result unit)) : Task unit := ask (AskFs q) ≫= λ _, CRet tt.
(** [stage_file.parent()] of a path the gateway built *)
Definition kb_parent (tenant namespace name : string) : string := kb_func_root_path tenant namespace name.
(** ixshare/src/gateway/http_gw.rs:144-153 [HttpGateway::ensure_kb_file_readable] *)
Definition ensure_kb_file_readable (path : string) : C unit :=
  orC (fs (FsOpen path)) (λ e, failC (Share.CommonError ("knowledgebase file " +:+ path +:+ " is not readable: " +:+ debug_error e))).
(** ixshare/src/gateway/http_gw.rs:155-170 [HttpGateway::prepare_kb_stage_promotion] *)
Definition prepare_kb_stage_promotion (tenant namespace name : string) (version : Z) : C unit :=
  ensure_kb_file_readable (kb_stage_file_path tenant namespace name) ⇒
  fs (FsCreateDirAll (kb_version_dir_path tenant namespace name version)) ⇒
  fs (FsRename (kb_stage_file_path tenant namespace name) (kb_version_file_path tenant namespace name version)).
(** ixshare/src/gateway/http_gw.rs:172-203 [HttpGateway::rollback_kb_stage_promotion] *)
Definition rollback_kb_stage_promotion (tenant namespace name : string) (version : Z) : Task unit :=
  there ← ask (AskFs (FsExists (kb_version_file_path tenant namespace name version)));
  (if (there : bool) then
     fs_try (FsCreateDirAll (kb_parent tenant namespace name)) ≫= λ _,
     fs_try (FsRename (kb_version_file_path tenant namespace name version) (kb_stage_file_path tenant namespace name))
   else CRet tt) ≫= λ _,
  fs_try (FsRemoveDir (kb_version_dir_path tenant namespace name version)).
(** ixshare/src/gateway/http_gw.rs:205-221 [HttpGateway::prepare_kb_version_copy] *)
Definition prepare_kb_version_copy (tenant namespace name : string) (old_version new_version : Z) : C unit :=
  ensure_kb_file_readable (kb_version_file_path tenant namespace name old_version) ⇒
  fs (FsCreateDirAll (kb_version_dir_path tenant namespace name new_version)) ⇒
  fs (FsCopy (kb_version_file_path tenant namespace name old_version) (kb_version_file_path tenant namespace name new_version)).
(** ixshare/src/gateway/http_gw.rs:223-231 [HttpGateway::cleanup_kb_version_dir] *)
Definition cleanup_kb_version_dir (version_dir : string) : Task unit := fs_try (FsRemoveDirAll version_dir).

(** [func.object.spec.version = id] *)
Definition with_version (func : Function) (id : Z) : Function :=
  let '(f, r) := object func in
  with_object func (MkFuncObject (MkFuncSpec id (fs_resources (fo_spec f)) (fs_standby (fo_spec f)) (fs_policy (fo_spec f))) (fo_status f), r).
(** [func.object.status = FuncStatus::default()] *)
Definition with_default_status (func : Function) : Function :=
  let '(f, r) := object func in with_object func (MkFuncObject (fo_spec f) (MkFuncObjStatus Normal 0 0), r).
Definition knowledge_base (func : Function) : bool := is_knowledge_base (object func).2.

(** ixshare/src/gateway/http_gw.rs:1621-1660 [HttpGateway::CreateFunc] *)
Definition CreateFunc token obj : C Z :=
  func ⇐ liftC (Share.lift (FromDataObject (T:=FullFunc F R) obj));
  let tenant := tenant func in let namespace := namespace func in
  guard (IsNamespaceAdmin token tenant namespace) Share.NoPermission ⇒
  id ⇐ client_Uid;
  let func := with_version func id in
  (if knowledge_base func then prepare_kb_stage_promotion tenant namespace (name func) id else okC tt) ⇒
  orC (client_Create (DataObject_of func))
    (λ e, (if knowledge_base func then rollback_kb_stage_promotion tenant namespace (name func) id else CRet tt) ≫= λ _, failC e).
(** ixshare/src/gateway/http_gw.rs:1662-1676 [HttpGateway::CreateFuncPolicy] *)
Definition CreateFuncPolicy token obj : C Z :=
  guard (IsNamespaceAdmin token (tenant obj) (namespace obj)) Share.NoPermission ⇒
  client_Create obj.
(** ixshare/src/gateway/http_gw.rs:1678-1735 [HttpGateway::UpdateFunc] *)
Definition UpdateFunc token obj : C Z :=
  guard (IsNamespaceAdmin token (tenant obj) (namespace obj)) Share.NoPermission ⇒
  func ⇐ liftC (Share.lift (FromDataObject (T:=FullFunc F R) obj));
  let tenant := tenant func in let namespace := namespace func in let name := name func in
  existing ⇐ client_Get "function" tenant namespace name 0;
  match existing with
  | None => failC (Share.NotExist ("function " +:+ key_of tenant namespace name +:+ " does not exist"))
  | Some existing =>
      existing ⇐ liftC (Share.lift (To (T:=FullFunc F R) existing));
      let old_version := fs_version (fo_spec (object existing).1) in
      id ⇐ client_Uid;
      let func := with_default_status (with_version func id) in
      copied ⇐ (if knowledge_base func then
                  staged ← ask (AskFs (FsExists (kb_stage_file_path tenant namespace name)));
                  if (staged : bool) then prepare_kb_stage_promotion tenant namespace name id ⇒ okC (Some false)
                  else prepare_kb_version_copy tenant namespace name old_version id ⇒ okC (Some true)
                else okC None);
      orC (client_Update (DataObject_of func) 0)
        (λ e, (match copied with
               | Some true => cleanup_kb_version_dir (kb_version_dir_path tenant namespace name id)
               | Some false => rollback_kb_stage_promotion tenant namespace name id
               | None => CRet tt
               end) ≫= λ _, failC e)
  end.
(** ixshare/src/gateway/http_gw.rs:1737-1751 [HttpGateway::UpdateFuncPolicy] *)
Definition UpdateFuncPolicy token obj : C Z :=
  guard (IsNamespaceAdmin token (tenant obj) (namespace obj)) Share.NoPermission ⇒
  client_Update obj 0.
(** ixshare/src/gateway/http_gw.rs:1753-1770 [HttpGateway::DeleteFunc] *)
Definition DeleteFunc token (tenant namespace name : string) : C Z :=
  guard (IsNamespaceAdmin token tenant namespace) Share.NoPermission ⇒
  client_Delete "function" tenant namespace name 0.
(** ixshare/src/gateway/http_gw.rs:1772-1789 [HttpGateway::DeleteFuncPolicy] *)
Definition DeleteFuncPolicy token (tenant namespace name : string) : C Z :=
  guard (IsNamespaceAdmin token tenant namespace) Share.NoPermission ⇒
  client_Delete "funcpolicy" tenant namespace name 0.

(** ** The handlers *)

(** [match res { Ok(version) => .., Err(e) => .. }] *)
Definition version_reply (res : C Z) : Task (HttpReply unit) :=
  r ← res;
  match r with
  | Ok version => CRet (HText 200 (pretty version))
  | Err e => CRet (HText 400 ("service failure " +:+ debug_error e))
  | Panic w => CPanic w
  end.
(** The tenant whose quota a write counts against. *)
Definition tenant_target obj : string := if decide (objType obj = "tenant") then name obj else tenant obj.
Definition write_quota token (target : string) : Task (option (HttpReply unit)) :=
  look (λ s, if enforceBilling then enforce_tenant_quota_for_write token s target else None).
(** ixshare/src/gateway/http_gateway.rs:4113-4167 [CreateObj] *)
Definition CreateObj token obj : Task (HttpReply unit) :=
  over ← write_quota token (tenant_target obj);
  match over with
  | Some resp => CRet resp
  | None =>
      if bool_decide (objType obj = "tenant") && negb (IsInferxAdmin token) then CRet (HText 401 "service failure: No permission")
      else version_reply
        (match objType obj with
         | "tenant" => CreateTenant token obj
         | "namespace" => CreateNamespace token obj
         | "function" => CreateFunc token obj
         | "funcpolicy" => CreateFuncPolicy token obj
         | _ => client_Create obj
         end)
  end.
(** ixshare/src/gateway/http_gateway.rs:4781-4824 [UpdateObj] *)
Definition UpdateObj token obj : Task (HttpReply unit) :=
  over ← write_quota token (tenant_target obj);
  match over with
  | Some resp => CRet resp
  | None =>
      version_reply
        (match objType obj with
         | "tenant" => UpdateTenant token obj
         | "namespace" => UpdateNamespace token obj
         | "function" => UpdateFunc token obj
         | "funcpolicy" => UpdateFuncPolicy token obj
         | _ => client_Update obj 0
         end)
  end.
(** ixshare/src/gateway/http_gateway.rs:4826-4864 [DeleteObj] *)
Definition DeleteObj token (objType tenant namespace name : string) : Task (HttpReply unit) :=
  version_reply
    (match objType with
     | "tenant" => DeleteTenant token tenant namespace name
     | "namespace" => DeleteNamespace token tenant namespace name
     | "function" => DeleteFunc token tenant namespace name
     | "funcpolicy" => DeleteFuncPolicy token tenant namespace name
     | _ => client_Delete objType tenant namespace name 0
     end).
(** ixshare/src/gateway/http_gateway.rs:4866-4918 [GetObj] *)
Definition GetObj token (objType tenant namespace name : string) : Task (HttpReply Obj) :=
  let has_permission :=
    match objType with
    | "tenant" => IsInferxAdmin token || IsTenantAdmin token name
    | "namespace" => IsNamespaceUser token tenant name
    | _ => IsNamespaceUser token tenant namespace
    end in
  if negb has_permission then CRet (HText 401 "service failure: No permission")
  else
    r ← client_Get objType tenant namespace name 0;
    match r with
    | Ok None => CRet (HText 404 "NOT_FOUND")
    | Ok (Some obj) => CRet (HData 200 obj)
    | Err e => CRet (HText 400 ("service failure " +:+ debug_error e))
    | Panic w => CPanic w
    end.

(** ** Lists *)

Definition names_of {T} (os : list (DataObject T)) : list (string * string) := (λ o, (tenant o, name o)) <$> os.
Definition found {A} (m : Result A) : list A := match m with Ok a => [a] | _ => [] end.
Definition objects_in {T} (m : gmap string (DataObject T)) (tenant namespace : string) : list (DataObject T) :=
  match GetObjects m tenant namespace with Ok l => l | _ => [] end.
(** ixshare/src/gateway/http_gw.rs:1971-1982 [HttpGateway::UserTenants] *)
Definition gw_UserTenants token s : list string :=
  if IsInferxAdmin token then name <$> objects_in (repo_tenantMgr s) "" "" else UserTenants token.
(** ixshare/src/gateway/http_gw.rs:1984-1995 [HttpGateway::AdminTenants] *)
Definition gw_AdminTenants token s : list string :=
  if IsInferxAdmin token then name <$> objects_in (repo_tenantMgr s) "" "" else AdminTenants token.
(** The namespaces of some tenants, with some others, in order. *)
Definition with_namespaces_of (namespaces : list (string * string)) (tenants : list string) s : list (string * string) :=
  set_elems (list_to_set (namespaces ++ tenants ≫= λ t, names_of (objects_in (repo_namespaceMgr s) t "")) : gset (string * string)).
(** ixshare/src/gateway/http_gw.rs:1997-2030 [HttpGateway::AdminNamespaces] *)
Definition gw_AdminNamespaces token s : Share.Result (list (string * string)) :=
  if IsInferxAdmin token then Ok (names_of (objects_in (repo_namespaceMgr s) "" ""))
  else namespaces ← AdminNamespaces token; Ok (with_namespaces_of namespaces (AdminTenants token) s).
(** ixshare/src/gateway/http_gw.rs:2032-2064 [HttpGateway::UserNamespaces] *)
Definition gw_UserNamespaces token s : Share.Result (list (string * string)) :=
  if IsInferxAdmin token then Ok (names_of (objects_in (repo_namespaceMgr s) "" ""))
  else namespaces ← UserNamespaces token; Ok (with_namespaces_of namespaces (UserTenants token) s).

(** ixshare/src/gateway/http_gw.rs:1791-1811 [HttpGateway::ListTenant] *)
Definition ListTenant token s : list Obj :=
  gw_UserTenants token s ≫= λ t, DataObject_of <$> found (Mgr_Get (repo_tenantMgr s) "system" "system" t).
Definition namespace_objs s (p : string * string) : list Obj :=
  DataObject_of <$> found (Mgr_Get (repo_namespaceMgr s) p.1 "system" p.2).
(** ixshare/src/gateway/http_gw.rs:1813-1858 [HttpGateway::ListNamespace] *)
Definition ListNamespace token (tenant namespace : string) s : Share.Result (list Obj) :=
  if decide (tenant = "") then namespaces ← gw_UserNamespaces token s; Ok (namespaces ≫= namespace_objs s)
  else if decide (namespace = "") then
    namespaces ← gw_UserNamespaces token s; Ok (filter (λ p, p.1 = tenant) namespaces ≫= namespace_objs s)
  else Ok (namespace_objs s (tenant, namespace)).
Definition func_objs s (p : string * string) : list Obj := DataObject_of <$> objects_in (repo_funcMgr s) p.1 p.2.
(** ixshare/src/gateway/http_gw.rs:1860-1915 [HttpGateway::ListFunc] *)
Definition ListFunc token (tenant namespace : string) s : Share.Result (list Obj) :=
  if decide (tenant = "") then namespaces ← gw_AdminNamespaces token s; Ok (namespaces ≫= func_objs s)
  else if decide (namespace = "") then
    namespaces ← gw_AdminNamespaces token s; Ok (filter (λ p, p.1 = tenant) namespaces ≫= func_objs s)
  else Ok (func_objs s (tenant, namespace)).
(** [self.client.List(..).await?] for each namespace, appended *)
Fixpoint list_all (objType : string) (namespaces : list (string * string)) (objs : list Obj) : C (list Obj) :=
  match namespaces with
  | [] => okC objs
  | (t, n) :: namespaces =>
      l ⇐ client_List objType t n (MkListOption 0 RM_None SelectionPredicate_default);
      list_all objType namespaces (objs ++ l)
  end.
(** ixshare/src/gateway/http_gw.rs:1917-1969 [HttpGateway::ListObj] *)
Definition ListObj token (objType tenant namespace : string) : C (list Obj) :=
  match objType with
  | "tenant" => readC (λ s, Ok (ListTenant token s))
  | "namespace" => readC (ListNamespace token tenant namespace)
  | "function" => readC (ListFunc token tenant namespace)
  | _ =>
      if decide (tenant = "") then
        namespaces ⇐ readC (gw_UserNamespaces token);
        list_all objType (namespaces ++ [("public", "")]) []
      else if decide (namespace = "") then
        namespaces ⇐ readC (gw_UserNamespaces token);
        list_all objType (filter (λ p, p.1 = tenant) namespaces) []
      else list_all objType [(tenant, namespace)] []
  end.
(** ixshare/src/gateway/http_gateway.rs:4920-4944 [ListObj] *)
Definition ListObj_handler token (objType tenant namespace : string) : Task (HttpReply (list Obj)) :=
  r ← ListObj token objType tenant namespace;
  match r with
  | Ok list => CRet (HData 200 list)
  | Err e => CRet (HText 400 ("service failure " +:+ debug_error e))
  | Panic w => CPanic w
  end.

(** ** Roles and keys over HTTP *)

Definition ok_reply {A} (r : C A) (k : A → HttpReply A) (fail : Share.Error → HttpReply A) : Task (HttpReply A) :=
  r ← r; match r with Ok a => CRet (k a) | Err e => CRet (fail e) | Panic w => CPanic w end.
Definition failure_400 {A} (e : Share.Error) : HttpReply A := HText 400 ("service failure " +:+ debug_error e).
(** ixshare/src/gateway/http_gateway.rs:7595-7639 [RbacGrant] *)
Definition RbacGrant token (grant : Grant) : Task (HttpReply unit) :=
  over ← write_quota token (match gt_objType grant with OTenant => gt_name grant | ONamespace => gt_tenant grant end);
  match over with
  | Some resp => CRet resp
  | None => ok_reply (Rbac token PGrant (gt_objType grant) (gt_tenant grant) (gt_namespace grant) (gt_name grant) (gt_role grant)
                        (gt_username grant)) (λ _, HText 200 "rbac successfully") failure_400
  end.
(** ixshare/src/gateway/http_gateway.rs:7641-7685 [RbacRevoke] *)
Definition RbacRevoke token (grant : Grant) : Task (HttpReply unit) :=
  over ← write_quota token (match gt_objType grant with OTenant => gt_name grant | ONamespace => gt_tenant grant end);
  match over with
  | Some resp => CRet resp
  | None => ok_reply (Rbac token PRevoke (gt_objType grant) (gt_tenant grant) (gt_namespace grant) (gt_name grant) (gt_role grant)
                        (gt_username grant)) (λ _, HText 200 "rbac successfully") failure_400
  end.
(** ixshare/src/gateway/http_gateway.rs:4030-4052 [is_apikey_duplicate_keyname_error] *)
Definition is_apikey_duplicate_keyname_error (err : Share.Error) : bool :=
  match err with
  | Share.SqlxError code cst message =>
      bool_decide (code = Some "23505")
      && (bool_decide (cst ∈ [Some "apikey_idx_username_keyname"; Some "apikey_idx_realm_username"])
          || contains "duplicate key value violates unique constraint" message)
  | _ => false
  end.
(** ixshare/src/gateway/http_gateway.rs:3755-3789 [CreateApikey] *)
Definition CreateApikey_handler token (req : ApikeyCreateRequest) : Task (HttpReply ApikeyCreateResponse) :=
  ok_reply (CreateApikey token req) (HData 200)
    (λ e, if is_apikey_duplicate_keyname_error e
          then HText 409 ("API key name '" +:+ kr_keyname req +:+ "' already exists. Please choose a different key name.")
          else failure_400 e).
(** ixshare/src/gateway/http_gateway.rs:4054-4077 [GetApikeys] *)
Definition GetApikeys_handler token : Task (HttpReply (list Apikey)) := ok_reply (GetApikeys (username token)) (HData 200) failure_400.
(** ixshare/src/gateway/http_gateway.rs:4079-4111 [DeleteApikey] *)
Definition DeleteApikey_handler token (req : ApikeyDeleteRequest) : Task (HttpReply bool) :=
  ok_reply (DeleteApiKey token req)
    (λ exist, if exist then HText 200 ("deleted key '" +:+ kd_keyname req +:+ "'")
              else HText 400 ("apikey " +:+ debug_str (kd_keyname req) +:+ " not exist "))
    failure_400.
(** ixshare/src/gateway/http_gateway.rs:7687-7711 [RbacTenantUsers] *)
Definition RbacTenantUsers_handler token (role tenant : string) : Task (HttpReply (list string)) :=
  ok_reply (RbacTenantUsers token role tenant) (HData 200) failure_400.
(** ixshare/src/gateway/http_gateway.rs:7713-7740 [RbacNamespaceUsers] *)
Definition RbacNamespaceUsers_handler token (role tenant namespace : string) : Task (HttpReply (list string)) :=
  ok_reply (RbacNamespaceUsers token role tenant namespace) (HData 200) failure_400.
(** ixshare/src/gateway/http_gateway.rs:7742-7764 [RbacRoleBindingGet] *)
Definition RbacRoleBindingGet token : Task (HttpReply (list RoleBinding)) := ok_reply (liftC (RoleBindings token)) (HData 200) failure_400.
End objects.
