(* ===== verification/Onboard.v ===== *)
(** * Onboarding (ixshare/src/gateway/http_gw.rs: Onboard)

    A new user gets a tenant, the role of its administrator, a namespace, an API
    key and a credit, in steps that are recorded in the table [UserOnboard], so
    that a call that fails half way is continued by the next one. *)

From S2P Require Import Prelude.
From S2P Require Import Text.
From S2P Require Import BTree.
From S2P Require Import Common.
From S2P Require Import Validation.
From S2P Require Import Selector.
From S2P Require Import SelectorLexer.
From S2P Require Import SelectorParser.
From S2P Require Import DataObj.
From S2P Require Import Watch.
From S2P Require Import Ring.
From S2P Require Import CacheStore.
From S2P Require Import Svc.
From S2P Require Import Specs.
From S2P Require Import Access.
From S2P Require Import Calls.
From S2P Require Import Etcd.
From S2P Require Import StateSvc.
From S2P Require Import Platform.
From S2P Require Import Accounts.
From S2P Require Import GatewayObjects.

Definition ONBOARD_TENANT_PREFIX : string := "tn-".
Definition ONBOARD_DEFAULT_NAMESPACE : string := "default".
Definition ONBOARD_MAX_ATTEMPTS : nat := 3.
Definition ONBOARD_APIKEY_PREFIX : string := "quickstart-inference".
Definition ONBOARD_INITIAL_CREDIT_PAYMENT_REF_PREFIX : string := "onboard-initial-credit".

(** ixshare/src/gateway/http_gw.rs:2431-2438 [IsUniqueViolationError] *)
Definition IsUniqueViolationError (err : Share.Error) : bool :=
  match err with Share.SqlxError code _ _ => bool_decide (code = Some "23505") | _ => false end.
(** ixshare/src/gateway/http_gw.rs:2440-2457 [IsOnboardTenantConflictError] *)
Definition IsOnboardTenantConflictError (err : Share.Error) : bool :=
  match err with
  | Share.SqlxError code cst message =>
      if decide (code ≠ Some "23505") then false
      else if decide (cst = Some "useronboard_idx_tenant_name") then true
      else contains "duplicate key value violates unique constraint" message
  | _ => false
  end.
(** ixshare/src/gateway/http_gw.rs:2459-2490 [IsOnboardApikeyConflictError] *)
Definition IsOnboardApikeyConflictError (err : Share.Error) : bool :=
  match err with
  | Share.SqlxError code cst message =>
      if decide (code ≠ Some "23505") then false
      else if decide (cst ∈ [Some "apikey_idx_username_keyname"; Some "apikey_idx_realm_username"]) then true
      else
        let msg := to_ascii_lowercase message in
        if negb (contains "duplicate key value violates unique constraint" msg) then false
        else contains "apikey" (default "" (to_ascii_lowercase <$> cst)) || contains "(username, keyname)" msg
             || contains "apikey_idx_" msg || contains "apikey" msg
  | _ => false
  end.
(** ixshare/src/gateway/http_gw.rs:2547-2558 [IsCreateConflictError] *)
Definition IsCreateConflictError (err : Share.Error) : bool :=
  match err with
  | Share.Exist _ | Share.NewKeyExistsErr _ _ => true
  | Share.CommonError msg =>
      let msg := to_ascii_lowercase msg in
      contains "already exist" msg || contains "already exists" msg || contains "key exists" msg
  | _ => false
  end.
(** ixshare/src/gateway/http_gw.rs:2560-2566 [IsCasConflictError] *)
Definition IsCasConflictError (err : Share.Error) : bool :=
  match err with
  | Share.UpdateRevNotMatchErr _ _ => true
  | Share.CommonError msg => contains "UpdateRevNotMatchErr" msg
  | _ => false
  end.

Definition alnum (c : ascii) : bool := ascii_alnum c.
(** The loop over the characters of a tenant's name: what is kept, and whether the last was replaced. *)
Fixpoint slug (cs : list ascii) (prev_dash : bool) : list ascii :=
  match cs with
  | [] => []
  | c :: cs => if alnum c then c :: slug cs false else if prev_dash then slug cs true else "-"%char :: slug cs true
  end.
Definition alnum_prefix (n : nat) (sub : string) : string :=
  let l := List.filter alnum (chars (to_ascii_lowercase sub)) in
  match l with [] => "user" | _ => of_chars (take n l) end.
(** ixshare/src/gateway/http_gw.rs:2492-2527 [BuildOnboardInferenceApikeyName] *)
Definition BuildOnboardInferenceApikeyName (tenant_name sub : string) : string :=
  let tenant_slug := trim_matches "-" (of_chars (slug (chars (to_ascii_lowercase tenant_name)) false)) in
  let tenant_slug := if decide (tenant_slug = "") then "tenant" else tenant_slug in
  ONBOARD_APIKEY_PREFIX +:+ "-" +:+ tenant_slug +:+ "-" +:+ alnum_prefix 8 sub.
(** ixshare/src/gateway/http_gw.rs:2529-2545 [BuildOnboardInitialCreditPaymentRef] *)
Definition BuildOnboardInitialCreditPaymentRef (tenant_name sub : string) : string :=
  ONBOARD_INITIAL_CREDIT_PAYMENT_REF_PREFIX +:+ ":" +:+ tenant_name +:+ ":" +:+ alnum_prefix 16 sub.
(** ixshare/src/gateway/http_gw.rs:51-63 [blocked_onboard_email_domain] *)
Definition blocked_onboard_email_domain `{GatewayConfig} (email : string) : option string :=
  match split "@" (to_ascii_lowercase (trim email)) with
  | _ :: domain :: more =>
      let domain := trim (join "@" (domain :: more)) in
      if decide (domain = "") then None
      else if decide (domain ∈ onboardBlockedEmailDomains) then Some domain else None
  | _ => None
  end.

(** *** The limits of the platform's tenant *)

(** ixshare/src/gateway/http_gw.rs:82-90 [HttpGateway::HasInferxTenantPolicyOverrides] *)
Definition HasInferxTenantPolicyOverrides (policy : InferxTenantPolicy) : bool :=
  bool_decide (is_Some (tp_quota_exempt policy)) || bool_decide (is_Some (tp_allowMemStandby policy))
  || bool_decide (is_Some (tp_maxFuncCnt policy)) || bool_decide (is_Some (tp_maxReplica policy))
  || bool_decide (is_Some (tp_maxGpu policy)) || bool_decide (is_Some (tp_maxStandby policy))
  || bool_decide (is_Some (tp_maxQueueLen policy)).
(** ixshare/src/gateway/http_gw.rs:92-142 [HttpGateway::ApplyInferxTenantPolicy] *)
Definition ApplyInferxTenantPolicy (t : TenantObject) (policy : InferxTenantPolicy) : TenantObject * bool :=
  let l := resourceLimit (tn_spec t) in
  let differs {A} `{EqDecision A} (o : option A) (a : A) : bool := match o with Some v => negb (bool_decide (a = v)) | None => false end in
  (MkTenantObject
     (MkTenantSpec
        (MkResourceLimit (default (maxFuncCnt l) (tp_maxFuncCnt policy)) (default (allocMemStandby l) (tp_allowMemStandby policy))
           (minReplicaCap l) (default (maxGpu l) (tp_maxGpu policy)) (default (rl_maxReplica l) (tp_maxReplica policy))
           (default (maxStandby l) (tp_maxStandby policy)) (default (maxQueueLen l) (tp_maxQueueLen policy)))
        (default (quota_exempt (tn_spec t)) (tp_quota_exempt policy)))
     (tn_status t),
   differs (tp_quota_exempt policy) (quota_exempt (tn_spec t)) || differs (tp_allowMemStandby policy) (allocMemStandby l)
   || differs (tp_maxFuncCnt policy) (maxFuncCnt l) || differs (tp_maxReplica policy) (rl_maxReplica l)
   || differs (tp_maxGpu policy) (maxGpu l) || differs (tp_maxStandby policy) (maxStandby l)
   || differs (tp_maxQueueLen policy) (maxQueueLen l)).

Section onboard.
Context {Value F Ch R Bytes O : Type} {config : GatewayConfig}.
Context {Jops : JsonOps Value} {Jtext : JsonText Value} {chan : Chan Ch (WatchEvent Value)}.
Context {lit : FloatLit F} {types : ServiceTypes Value F} {rest : FuncRest Value F R} {debug : DebugText}.
Context {Eng : RegexEngine} {Ord : HashOrder} {codec : Prost Bytes}.
Abbreviation Gateway := (Gateway Value F Ch R).
Abbreviation C A := (call Gateway (Request Bytes) O (Share.Result A)).
Implicit Types (token : AccessToken) (s : Gateway).
Open Scope call_scope.

Definition get_tenant (name : string) : C (option (DataObject Value)) :=
  client_Get "tenant" StateSvc.SYSTEM_TENANT SYSTEM_NAMESPACE name 0.
(** ixshare/src/gateway/http_gw.rs:1451-1457 [HttpGateway::TenantExistsInStore] *)
Definition TenantExistsInStore (tenant_name : string) : C bool :=
  obj ⇐ get_tenant tenant_name; okC (bool_decide (is_Some obj)).
(** ixshare/src/gateway/http_gw.rs:1236-1261 [HttpGateway::CreateOnboardTenant] *)
Definition CreateOnboardTenant (tenant_name : string) : C unit :=
  obj ⇐ get_tenant tenant_name;
  match obj with
  | Some _ => okC tt
  | None =>
      client_Create (DataObject_of (default_object "tenant" StateSvc.SYSTEM_TENANT SYSTEM_NAMESPACE tenant_name
        (MkTenantObject (MkTenantSpec default_resourcelimit false) (MkTenantStatus false false)))) ⇒ okC tt
  end.
(** ixshare/src/gateway/http_gw.rs:1263-1288 [HttpGateway::CreateOnboardNamespace] *)
Definition CreateOnboardNamespace (tenant_name namespace : string) : C unit :=
  obj ⇐ client_Get "namespace" tenant_name SYSTEM_NAMESPACE namespace 0;
  match obj with
  | Some _ => okC tt
  | None => client_Create (DataObject_of (default_object "namespace" tenant_name SYSTEM_NAMESPACE namespace (MkNamespaceObject false))) ⇒ okC tt
  end.
(** ixshare/src/gateway/http_gw.rs:1346-1361 [HttpGateway::EnsureRole] *)
Definition EnsureRole token (username role : string) : C unit :=
  r ← AddRole username role;
  match r with
  | Ok _ => EvactionToken token
  | Err e => if IsUniqueViolationError e then EvactionToken token else failC e
  | Panic w => CPanic w
  end.
(** ixshare/src/gateway/http_gw.rs:1363-1396 [HttpGateway::EnsureOnboardInferenceApikey] *)
Definition EnsureOnboardInferenceApikey token (tenant_name sub : string) : C (string * string) :=
  let keyname := BuildOnboardInferenceApikeyName tenant_name sub in
  let req := MkKeyRequest "" keyname (Some "inference") (Some tenant_name) None None in
  r ← CreateApikey token req;
  match r with
  | Ok resp => okC (ks_apikey resp, keyname)
  | Err e =>
      if IsOnboardApikeyConflictError e then
        keys ⇐ GetApikeys (username token);
        match List.filter (λ k, bool_decide (ak_keyname k = keyname)) keys with
        | k :: _ => okC (ak_apikey k, ak_keyname k)
        | [] => okC ("", keyname)
        end
      else failC e
  | Panic w => CPanic w
  end.
(** ixshare/src/gateway/http_gw.rs:1398-1449 [HttpGateway::EnsureOnboardInitialCredit] *)
Definition EnsureOnboardInitialCredit (tenant_name sub : string) : C unit :=
  if decide (onboardInitialCreditCents ≤ 0)%Z then okC tt
  else
    let payment_ref := BuildOnboardInitialCreditPaymentRef tenant_name sub in
    has ⇐ askC (AskHasCredit tenant_name payment_ref);
    if (has : bool) then okC tt
    else
      askC (AskAddCredit tenant_name onboardInitialCreditCents payment_ref) ⇒
      exceeded ⇐ askC (AskRecalculateQuota tenant_name);
      obj ⇐ get_tenant tenant_name;
      match obj with
      | None => failC (Share.NotExist ("onboard tenant " +:+ tenant_name +:+ " does not exist while adding initial credit"))
      | Some obj =>
          t ⇐ liftC (Share.lift (FromDataObject (T:=TenantObject) obj));
          if decide (quota_exceeded (tn_status (object t)) ≠ exceeded) then
            let status := MkTenantStatus (disable (tn_status (object t))) exceeded in
            client_Update (DataObject_of (with_object t (MkTenantObject (tn_spec (object t)) status))) 0 ⇒ okC tt
          else okC tt
      end.

(** ixshare/src/gateway/http_gw.rs:2419-2429 [GenerateTenantName] *)
Definition GenerateTenantName : C string := suffix ← ask (AskRandom "tenant"); okC (ONBOARD_TENANT_PREFIX +:+ suffix).
(** The loop of [CreatePendingOnboard], [n] times. *)
Fixpoint create_pending (n : nat) (sub username : string) : C (OnboardInfo * bool) :=
  match n with
  | 0 => failC (Share.CommonError "failed to allocate unique tenant_name after 3 attempts")
  | S n =>
      tenant_name ⇐ GenerateTenantName;
      taken ⇐ TenantExistsInStore tenant_name;
      if (taken : bool) then create_pending n sub username
      else
        inserted ← sql (InsertOnboardRow sub username tenant_name);
        match inserted with
        | Ok new =>
            row ⇐ sql (SelectOnboard sub);
            match row with
            | Some info => okC (info, new)
            | None => failC (Share.CommonError (if (new : bool) then "inserted UserOnboard but cannot read sub " +:+ sub
                                                else "UserOnboard conflict but cannot read sub " +:+ sub))
            end
        | Err e => if IsOnboardTenantConflictError e then create_pending n sub username else failC e
        | Panic w => CPanic w
        end
  end.
(** ixshare/src/gateway/http_gw.rs:1181-1234 [HttpGateway::CreatePendingOnboard] *)
Definition CreatePendingOnboard (sub username : string) : C (OnboardInfo * bool) := create_pending ONBOARD_MAX_ATTEMPTS sub username.

(** ixshare/src/gateway/http_gw.rs:1119-1179 [HttpGateway::Onboard]; the steps after the tenant is there *)
Definition onboard_steps token (row : OnboardInfo) (sub : string) (created : bool) : C (string * bool * string * string) :=
  let tenant_name := ob_tenant_name row in let step := ob_saga_step row in
  (if decide (step < 2)%Z then
     EnsureRole token (username token) (TenantAdminRole tenant_name) ⇒ sql (SetOnboardStep sub 2)
   else okC tt) ⇒
  (if decide (step < 3)%Z then
     orC (CreateOnboardNamespace tenant_name ONBOARD_DEFAULT_NAMESPACE) (λ e, if IsCreateConflictError e then okC tt else failC e) ⇒
     EnsureRole token (username token) (NamespaceAdminRole tenant_name ONBOARD_DEFAULT_NAMESPACE) ⇒
     sql (SetOnboardStep sub 3)
   else okC tt) ⇒
  key ⇐ (if decide (step < 4)%Z then
           key ⇐ EnsureOnboardInferenceApikey token tenant_name sub;
           sql (SetOnboardStep sub 4) ⇒ okC key
         else okC ("", ""));
  (if decide (step < 5)%Z then
     EnsureOnboardInitialCredit tenant_name sub ⇒ sql (SetOnboardStep sub 5)
   else okC tt) ⇒
  sql (CompleteOnboardRows sub tenant_name (display_name token) (email token)) ⇒
  okC (tenant_name, created, key.1, key.2).
(** ixshare/src/gateway/http_gw.rs:1083-1118 [HttpGateway::Onboard]; the loop, with [restarts] of it left *)
Fixpoint onboard_loop (restarts : nat) token (row : OnboardInfo) (sub : string) (created : bool) : C (string * bool * string * string) :=
  if decide (ob_saga_step row < 1)%Z then
    r ← CreateOnboardTenant (ob_tenant_name row);
    match r with
    | Ok _ =>
        sql (SetOnboardStep sub 1) ⇒
        onboard_steps token (MkOnboard (ob_sub row) (ob_username row) (ob_tenant_name row) (ob_status row) 1) sub created
    | Err e =>
        if IsCreateConflictError e then
          match restarts with
          | 0 => sql (SetOnboardStatus sub "failed") ⇒
                 failC (Share.CommonError ("onboard exhausted tenant_name retries for sub " +:+ sub))
          | S restarts =>
              sql (DeleteOnboardRow sub) ⇒
              ' (new_row, _) ⇐ CreatePendingOnboard sub (username token);
              onboard_loop restarts token new_row sub true
          end
        else failC e
    | Panic w => CPanic w
    end
  else onboard_steps token row sub created.
(** ixshare/src/gateway/http_gw.rs:1033-1179 [HttpGateway::Onboard] *)
Definition Onboard token : C (string * bool * string * string) :=
  if bool_decide (username token = "anonymous") || sourceIsApikey token || bool_decide (subject token = "") then failC Share.NoPermission
  else
    match blocked_onboard_email_domain (email token) with
    | Some domain => failC (Share.CommonError ("tenant onboarding is blocked for email domain " +:+ domain))
    | None =>
        let sub := subject token in
        info ⇐ sql (SelectOnboard sub);
        ' (row, created) ⇐ match info with Some info => okC (info, false) | None => CreatePendingOnboard sub (username token) end;
        if decide (ob_status row = "complete") then okC (ob_tenant_name row, false, "", "")
        else
          status ⇐ (if decide (ob_status row = "failed") then sql (SetOnboardStatus sub "pending") ⇒ okC "pending" else okC (ob_status row));
          (if decide (ob_username row ≠ username token) then sql (SetOnboardUsername sub (username token)) else okC tt) ⇒
          if decide (status ≠ "pending") then
            failC (Share.CommonError ("invalid UserOnboard status " +:+ status +:+ " for sub " +:+ sub))
          else onboard_loop ONBOARD_MAX_ATTEMPTS token (MkOnboard (ob_sub row) (username token) (ob_tenant_name row) status (ob_saga_step row)) sub created
    end.

(** The loop of [ReconcileInferxTenantPolicy]: it ends at the third attempt; [n] attempts are left after this one. *)
Fixpoint reconcile_policy (n : nat) : C unit :=
  obj ⇐ get_tenant PLATFORM_TENANT;
  match obj with
  | None => failC (Share.NotExist ("platform tenant " +:+ PLATFORM_TENANT +:+ " does not exist during reconcile"))
  | Some obj =>
      t ⇐ liftC (Share.lift (FromDataObject (T:=TenantObject) obj));
      let '(new, changed) := ApplyInferxTenantPolicy (object t) inferxTenantPolicy in
      if negb changed then okC tt
      else
        r ← client_Update (DataObject_of (with_object t new)) (revision t);
        match r, n with
        | Ok _, _ => okC tt
        | Err e, S n => if IsCasConflictError e then reconcile_policy n else failC e
        | Err e, 0 => failC e
        | Panic w, _ => CPanic w
        end
  end.
(** ixshare/src/gateway/http_gw.rs:1305-1344 [HttpGateway::ReconcileInferxTenantPolicy] *)
Definition ReconcileInferxTenantPolicy : C unit :=
  if negb (HasInferxTenantPolicyOverrides inferxTenantPolicy) then okC tt else reconcile_policy 2.
(** ixshare/src/gateway/http_gw.rs:1290-1303 [HttpGateway::EnsurePlatformShared] *)
Definition EnsurePlatformShared : C unit :=
  let ignore_exists (r : C unit) : C unit :=
    orC r (λ e, match e with Share.NewKeyExistsErr _ _ | Share.Exist _ => okC tt | _ => failC e end) in
  ignore_exists (CreateOnboardTenant PLATFORM_TENANT) ⇒
  ignore_exists (CreateOnboardNamespace PLATFORM_TENANT PLATFORM_SHARED_NAMESPACE) ⇒
  ReconcileInferxTenantPolicy.
End onboard.
