(* ===== verification/SkillChain.v ===== *)
(** * Skill chains (ixshare/src/gateway: skill_chain.rs, skill_trace_sse.rs)

    A skill is a model with a prompt that may call other skills as tools: a
    request is a loop of model turns, each of which may ask for several child
    calls, made at the same time as HTTP requests to the gateway itself, with the
    depth of the chain in a header.  The calls are reported to the client as a
    trace, if it asked for one, those of the children included.  [serde_json] and
    the derived decoders are parameters; times are left out of the trace. *)

From S2P Require Import Prelude.
From S2P Require Import Text.
From S2P Require Import BTree.
From S2P Require Import Common.
From S2P Require Import Access.
From S2P Require Import ChatStream.
From S2P Require Import Calls.

Open Scope call_scope.

(** ixshare/src/gateway/skill_chain.rs:29-29 [SKILL_CHAIN_MAX_DEPTH] *)
Definition SKILL_CHAIN_MAX_DEPTH : Z := 5.
Definition SKILL_CHAIN_TOOL_NAME : string := "call_skillep".
(** The names of headers, as [HeaderMap] keeps them. *)
Definition SKILL_CHAIN_CHILD_HEADER : string := "x-inferx-skill-chain-child".
Definition SKILL_CHAIN_DEPTH_HEADER : string := "x-chain-depth".
Definition SKILL_EP_CONSTRAINT : string := "IMPORTANT: When using the call_skillep tool, you MUST only call skill endpoint IDs that are explicitly listed below. Do not invent or assume other skill endpoint IDs exist. If a skill endpoint is not listed below, do not call it.".
(** The first value of each header that is text. *)
Definition Headers : Type := gmap string string.
(** ixshare/src/gateway/skill_chain.rs:37-42 [extract_is_child_request] *)
Definition extract_is_child_request (headers : Headers) : bool := bool_decide (headers !! SKILL_CHAIN_CHILD_HEADER = Some "1").

(** ** Data *)

(** What the code sees of a [serde_json::Value]. *)
Inductive JView (J : Type) := VNull | VString (s : string) | VArray (items : list J) | VObject (entries : list (string * J)) | VOther.
Arguments VNull {J}. Arguments VString {J}. Arguments VArray {J}. Arguments VObject {J}. Arguments VOther {J}.

(** ixshare/src/gateway/skill_chain.rs:169-174 [SkillTraceFailReason] *)
Inductive SkillTraceFailReason := Timeout | MaxDepth | TransportError | InvalidResponse.
#[global] Instance fail_reason_eq : EqDecision SkillTraceFailReason.
Proof. solve_decision. Defined.
(** ixshare/src/gateway/skill_chain.rs:177-184 [SkillTraceFailReason::as_str] *)
Definition fail_reason_str (r : SkillTraceFailReason) : string :=
  match r with Timeout => "timeout" | MaxDepth => "max_depth" | TransportError => "transport_error" | InvalidResponse => "invalid_response" end.
(** ixshare/src/gateway/skill_chain.rs:187-195 [parse_fail_reason] *)
Definition parse_fail_reason (reason : option string) : option SkillTraceFailReason :=
  match reason with
  | Some "timeout" => Some Timeout
  | Some "max_depth" => Some MaxDepth
  | Some "transport_error" => Some TransportError
  | Some "invalid_response" => Some InvalidResponse
  | _ => None
  end.
(** ixshare/src/gateway/skill_chain.rs:197-207 [format_child_fail_reason] *)
Definition format_child_fail_reason (reason : option SkillTraceFailReason) : string :=
  match reason with
  | Some Timeout => "Error: child timed out"
  | Some MaxDepth => "Error: child exceeded max chain depth"
  | Some TransportError => "Error: child transport error"
  | Some InvalidResponse => "Error: child returned invalid response"
  | None => "Error: child failed"
  end.
(** ixshare/src/gateway/skill_chain.rs:225-229 [SkillTraceTokenUsage] *)
Record TokenUsage := MkUsage { us_prompt : Z; us_completion : Z; us_total : Z }.
Definition saturating_add (a b : Z) : Z := Z.min (a + b) (ty_max u64).
(** ixshare/src/gateway/skill_chain.rs:232-238 [SkillTraceTokenUsage::add_assign] *)
Definition usage_add (self other : TokenUsage) : TokenUsage :=
  MkUsage (saturating_add (us_prompt self) (us_prompt other)) (saturating_add (us_completion self) (us_completion other))
    (saturating_add (us_total self) (us_total other)).
(** [if let Some(aggregate) = aggregate_usage.as_mut() { .. } else { .. }] *)
Definition aggregate (total usage : option TokenUsage) : option TokenUsage :=
  match usage with
  | None => total
  | Some u => Some (match total with Some t => usage_add t u | None => u end)
  end.
(** ixshare/src/gateway/skill_chain.rs:434-440 [RawUsage] *)
Record RawUsage := MkRawUsage { ru_prompt : Z; ru_completion : Z; ru_total : option Z }.
(** ixshare/src/gateway/skill_chain.rs:443-455 [RawUsage::into_usage] *)
Definition into_usage (self : RawUsage) : option TokenUsage :=
  let total := default (saturating_add (ru_prompt self) (ru_completion self)) (ru_total self) in
  if decide (ru_prompt self = 0 ∧ ru_completion self = 0 ∧ total = 0)%Z then None
  else Some (MkUsage (ru_prompt self) (ru_completion self) total).

(** ixshare/src/gateway/skill_chain.rs:428-431 [RawToolFunction] *)
Record RawToolFunction := MkRawFunction { rf_name : option string; rf_arguments : option string }.
(** ixshare/src/gateway/skill_chain.rs:422-425 [RawToolCall] *)
Record RawToolCall := MkRawCall { rc_id : option string; rc_function : option RawToolFunction }.
(** ixshare/src/gateway/skill_chain.rs:414-419 [ChatMessagePayload] *)
Record ChatMessagePayload (J : Type) := MkPayload { mp_content : option J; mp_tool_calls : option (list RawToolCall) }.
(** ixshare/src/gateway/skill_chain.rs:404-411 [ChatChoice] *)
Record ChatChoice (J : Type) := MkChoice {
  cc_finish_reason : option string; cc_message : option (ChatMessagePayload J); cc_delta : option (ChatMessagePayload J);
}.
(** ixshare/src/gateway/skill_chain.rs:397-401 [ChatCompletionResponse] *)
Record ChatCompletionResponse (J : Type) := MkCompletion { cr_choices : list (ChatChoice J); cr_usage : option RawUsage }.
(** ixshare/src/gateway/skill_chain.rs:53-62 [ChatMessage] *)
Inductive ChatMessage (J : Type) := CAssistant (tool_calls : list J) | CTool (tool_call_id content : string).
Arguments MkPayload {J}. Arguments mp_content {J}. Arguments mp_tool_calls {J}. Arguments MkChoice {J}.
Arguments cc_finish_reason {J}. Arguments cc_message {J}. Arguments cc_delta {J}. Arguments MkCompletion {J}.
Arguments cr_choices {J}. Arguments cr_usage {J}. Arguments CAssistant {J}. Arguments CTool {J}.
(** ixshare/src/gateway/skill_chain.rs:65-69 [ParsedSkillToolCall] *)
Record ParsedSkillToolCall := MkSkillCall { sk_id : string; sk_name : string; sk_arguments : string }.
(** ixshare/src/gateway/skill_chain.rs:72-76 [ParsedSkillResponse] *)
Record ParsedSkillResponse := MkParsed { pr_tool_calls : list ParsedSkillToolCall; pr_final_text : option string; pr_usage : option TokenUsage }.

(** ixshare/src/gateway/skill_trace_sse.rs:44-74 [SkillTraceEventPayload]; without its times *)
Record TracePayload := MkTracePayload {
  ev_type : string; ev_call_id : string; ev_parent_call_id : option string; ev_depth : Z; ev_skill : string;
  ev_phase : option string; ev_query : option string; ev_output : option string; ev_result_code : option string;
  ev_fail_reason : option string; ev_prompt_tokens : option Z; ev_completion_tokens : option Z; ev_total_tokens : option Z;
}.
(** What is sent to the client of a trace: [: comment], [event: skill_trace], [event: skill_result], [data: [DONE]]. *)
Inductive TraceChunk := TComment (comment : string) | TEvent (payload : TracePayload) | TResult (data : string) | TDone.

(** ixshare/src/gateway/skill_chain.rs:283-287 [SkillTraceLevel] *)
Inductive SkillTraceLevel := LNone | LBasic | LVerbose.
#[global] Instance trace_level_eq : EqDecision SkillTraceLevel.
Proof. solve_decision. Defined.
(** ixshare/src/gateway/skill_chain.rs:290-296 [SkillTraceLevel::as_u8] *)
Definition level_u8 (l : SkillTraceLevel) : Z := match l with LNone => 0 | LBasic => 1 | LVerbose => 2 end.
(** The tool that is offered to the model: the ids it may call, if they are limited. *)
Record ToolDefinition := MkTool { tool_enum : option (list string) }.
(** ixshare/src/gateway/skill_chain.rs:373-387 [SkillModelRequestTemplate]; [stream] is false, there is no [tool_choice] *)
Record Template (J : Type) := MkTemplate {
  tm_max_tokens : option Z; tm_temperature : option J; tm_skill_trace : option Z; tm_tools : option (list ToolDefinition); tm_extra : list (string * J);
}.
(** ixshare/src/gateway/skill_chain.rs:315-333 [SkillChatCompletionsWireRequest]; [wr_skill_trace]: [SkillTraceField] *)
Record WireRequest (J : Type) := MkWire {
  wr_messages : list J; wr_max_tokens : option Z; wr_temperature : option J; wr_stream : option bool; wr_skill_trace : option J;
  wr_mocks : option J; wr_tools : option J; wr_tool_choice : option J; wr_extra : list (string * J);
}.
Arguments MkTemplate {J}. Arguments tm_max_tokens {J}. Arguments tm_temperature {J}. Arguments tm_skill_trace {J}.
Arguments tm_tools {J}. Arguments tm_extra {J}. Arguments MkWire {J}. Arguments wr_messages {J}. Arguments wr_max_tokens {J}.
Arguments wr_temperature {J}. Arguments wr_stream {J}. Arguments wr_skill_trace {J}. Arguments wr_mocks {J}. Arguments wr_tools {J}.
Arguments wr_tool_choice {J}. Arguments wr_extra {J}.

(** [serde_json], and what is derived for it. *)
Class SkillJson (J : Type) := {
  jview : J → JView J;
  jprint : J → string;                                          (* [to_string] *)
  as_u64 : J → option Z;
  json_number : Z → J;
  json_value : string → option J;                               (* [from_slice], [from_str] *)
  completion_of : string → option (ChatCompletionResponse J);
  trace_of : string → string + TracePayload;                    (* its error is a text *)
  trace_text : TracePayload → string;
  chat_value : ChatMessage J → J;
  user_message : string → J;                                    (* a message of the role [user] *)
  turn_bytes : Template J → list J → option string;             (* the body of a turn of the model *)
  wire_of : string → option (WireRequest J);
  temperature_zero : J;
  status_text : Z → string;                                     (* of [StatusCode] *)
  uri_parses : string → bool;                                   (* of [http::Uri] *)
}.
Class SkillConfig := { gatewayPort : Z; skillEPSystemPromptConstraint : bool }.

(** ixshare/src/gateway/skill_chain.rs:337-354 [SkillInvocationContext]; [R]: a [FuncRouteTarget], which is passed on *)
Record SkillInvocationContext (R : Type) := MkContext {
  cx_route : R; cx_calling_tenant : string; cx_display_skill_id : string; cx_logical_funcname : string; cx_remain_path : string;
  cx_prefix : string; cx_skills_namespace : string; cx_is_child_request : bool; cx_child_chain_depth : option Z;
  cx_is_debug_authorized : bool; cx_allowed_child_skilleps : option (gset string); cx_request_headers : Headers;
}.
Arguments MkContext {R}. Arguments cx_route {R}. Arguments cx_calling_tenant {R}. Arguments cx_display_skill_id {R}.
Arguments cx_logical_funcname {R}. Arguments cx_remain_path {R}. Arguments cx_prefix {R}. Arguments cx_skills_namespace
{R}. Arguments cx_is_child_request {R}. Arguments cx_child_chain_depth {R}. Arguments cx_is_debug_authorized {R}.
Arguments cx_allowed_child_skilleps {R}. Arguments cx_request_headers {R}.

(** ** What is read and written *)

Section pure.
Context {J : Type} {js : SkillJson J}.
Implicit Types (v : J) (headers : Headers).

(** [Value::get], [as_str], [as_array]; the keys of an object are unique. *)
Definition jfield (key : string) v : option J :=
  match jview v with VObject entries => (list_to_map entries : gmap string J) !! key | _ => None end.
Definition jstring v : option string := match jview v with VString s => Some s | _ => None end.
Definition jitems v : option (list J) := match jview v with VArray items => Some items | _ => None end.
(** What an item of an array adds to its text. *)
Definition item_text v : string :=
  match jview v with
  | VString s => s
  | VObject _ => default "" (jfield "text" v ≫= jstring)
  | _ => ""
  end.
(** ixshare/src/gateway/skill_chain.rs:1116-1141 [json_text] *)
Definition json_text v : option string :=
  match jview v with
  | VString s => Some s
  | VArray items => let out := foldr String.app "" (item_text <$> items) in if decide (out = "") then None else Some out
  | VNull => None
  | _ => Some (jprint v)
  end.
(** ixshare/src/gateway/skill_chain.rs:1183-1191 [latest_user_query] *)
Definition latest_user_query (history : list J) : option string :=
  head (omap (λ item, if decide (jfield "role" item ≫= jstring = Some "user") then jfield "content" item ≫= json_text else None)
         (reverse history)).

Definition skill_call (c : RawToolCall) : ParsedSkillToolCall :=
  MkSkillCall (default "" (rc_id c)) (default "" (rc_function c ≫= rf_name)) (default "" (rc_function c ≫= rf_arguments)).
(** [a.or_else(|| b)] *)
Definition or_else {A} (a b : option A) : option A := match a with Some _ => a | None => b end.
(** ixshare/src/gateway/skill_chain.rs:997-1053 [parse_skill_response] *)
Definition parse_skill_response (body_bytes : string) : option ParsedSkillResponse :=
  body ← (completion_of body_bytes : option (ChatCompletionResponse J));
  choice ← head (cr_choices body);
  let tool_calls := skill_call <$> default [] (or_else (cc_message choice ≫= mp_tool_calls) (cc_delta choice ≫= mp_tool_calls)) in
  let has_tool_calls := bool_decide (tool_calls ≠ [] ∨ cc_finish_reason choice = Some "tool_calls") in
  let final_text := or_else ((cc_message choice ≫= mp_content) ≫= json_text) ((cc_delta choice ≫= mp_content) ≫= json_text) in
  Some (MkParsed (if has_tool_calls then tool_calls else []) final_text (cr_usage body ≫= into_usage)).
(** ixshare/src/gateway/skill_chain.rs:1055-1067 [extract_raw_tool_calls] *)
Definition extract_raw_tool_calls (body_bytes : string) : option (list J) :=
  body ← (json_value body_bytes : option J);
  choices ← jfield "choices" body;
  items ← jitems choices;
  choice ← head items;
  tool_calls ← or_else (jfield "message" choice ≫= jfield "tool_calls") (jfield "delta" choice ≫= jfield "tool_calls");
  jitems tool_calls.

(** ixshare/src/gateway/skill_chain.rs:1069-1087 [parse_skillep_tool_args] *)
Definition parse_skillep_tool_args (arguments : string) : string + string * string :=
  match json_value arguments with
  | None => inl "Error: invalid tool arguments"
  | Some args =>
      match trim <$> (jfield "skillep_id" args ≫= jstring) with
      | None | Some "" => inl "Error: missing or empty skillep_id. Expected format: owner_tenant/namespace/skillname."
      | Some skillep_id =>
          match jfield "query" args ≫= jstring with
          | None => inl "Error: invalid tool arguments"
          | Some query => inr (skillep_id, query)
          end
      end
  end.
(** ixshare/src/gateway/skill_chain.rs:1089-1105 [split_skillep_id] *)
Definition split_skillep_id (skillep_id : string) : string + string * string * string :=
  let parts := split "/" skillep_id in
  let owner_tenant := default "" (parts !! 0) in
  let namespace := default "" (parts !! 1) in
  let skillname := default "" (parts !! 2) in
  if decide (owner_tenant = "" ∨ namespace = "" ∨ skillname = "" ∨ is_Some (parts !! 3)) then
    inl ("Error: invalid skillep_id '" +:+ (skillep_id +:+ "'. Expected format: owner_tenant/namespace/skillname. Do not retry with the same value."))
  else inr (owner_tenant, namespace, skillname).
(** ixshare/src/gateway/skill_chain.rs:1107-1114 [format_child_tool_error] *)
Definition format_child_tool_error (message : string) : string :=
  if starts_with "Error: " message then message else "Error: " +:+ message.

(** The ids a model may name are offered in order. *)
(** ixshare/src/gateway/skill_chain.rs:917-968 [skill_chain_tool_definition] *)
Definition skill_chain_tool_definition (allowed : option (gset string)) : list ToolDefinition :=
  match allowed with
  | Some ids => if decide (ids = ∅) then [] else [MkTool (Some (merge_sort String.le (elements ids)))]
  | None => [MkTool None]
  end.
(** ixshare/src/gateway/skill_chain.rs:970-984 [apply_skill_chain_tools] *)
Definition apply_skill_chain_tools (template : Template J) (allowed : option (gset string)) : Template J :=
  let tools := match skill_chain_tool_definition allowed with [] => None | tools => Some tools end in
  MkTemplate (tm_max_tokens template) (tm_temperature template) (tm_skill_trace template) tools (tm_extra template).

(** ixshare/src/gateway/skill_chain.rs:595-600 [InternalSkillRequestProfile] *)
Inductive InternalSkillRequestProfile := McpToolLoopback | ChildSkillLoopback.
(** ixshare/src/gateway/skill_chain.rs:607-637 [build_skill_chat_request] *)
Definition build_skill_chat_request (query : string) (skill_trace : SkillTraceLevel) (profile : InternalSkillRequestProfile) : WireRequest J :=
  let messages := [user_message query] in
  match profile with
  | McpToolLoopback =>
      MkWire messages (Some 5000%Z) (Some temperature_zero) (Some false) (Some (json_number (level_u8 skill_trace))) None None None []
  | ChildSkillLoopback => MkWire messages None None (Some false) (Some (json_number (level_u8 skill_trace))) None None None []
  end.

(** ** Requests *)

(** ixshare/src/gateway/skill_chain.rs:358-364 [NormalizedSkillCall]; with the fields of its prepared body *)
Record NormalizedSkillCall := MkNormalized {
  nc_template : Template J; nc_history : list J; nc_effective_trace : SkillTraceLevel; nc_traced : bool; nc_current_depth : Z;
  nc_debug_mocks : gmap string string;
}.
(** ixshare/src/gateway/skill_chain.rs:460-465 [NormalizationError] *)
Inductive NormalizationError := NHttp (status : Z) (message : string) | NCompletionError.

Definition trace_level (field : option J) : outcome NormalizationError SkillTraceLevel :=
  match field with
  | None => Ok LNone
  | Some v =>
      match as_u64 v with
      | Some 0%Z => Ok LNone
      | Some 1%Z => Ok LBasic
      | Some 2%Z => Ok LVerbose
      | _ => Err (NHttp 400 "service failure: invalid skill_trace value")
      end
  end.
Definition no_client_tools (tools : option J) : outcome NormalizationError unit :=
  match jview <$> tools with
  | None | Some (VArray []) => Ok tt
  | Some (VArray _) => Err (NHttp 400 "skill endpoint does not accept client-provided tools")
  | Some _ => Err (NHttp 400 "service failure: invalid request body")
  end.
(** The entries of [mocks] that are texts. *)
Definition debug_mocks (mocks : option J) : gmap string string :=
  match jview <$> mocks with
  | Some (VObject entries) => list_to_map (omap (λ kv : string * J, s ← jstring kv.2; Some (kv.1, s)) entries)
  | _ => ∅
  end.
(** ixshare/src/gateway/skill_chain.rs:475-591 [normalize_skill_call] *)
Definition normalize_skill_call {R} (wire : WireRequest J) (ctx : SkillInvocationContext R) : outcome NormalizationError NormalizedSkillCall :=
  effective_trace ← trace_level (wr_skill_trace wire);
  _ ← (if decide (effective_trace = LVerbose) then
         if negb (cx_is_child_request ctx) && negb (cx_is_debug_authorized ctx)
         then Err (NHttp 403 "service failure: verbose trace requires debug privilege") else Ok tt
       else Ok tt);
  current_depth ← (if cx_is_child_request ctx then
                     match cx_child_chain_depth ctx with
                     | None | Some 0%Z => Err NCompletionError
                     | Some depth => Ok depth
                     end
                   else Ok 1%Z);
  _ ← (if cx_is_child_request ctx then Ok tt else no_client_tools (wr_tools wire));
  let template := MkTemplate (wr_max_tokens wire) (wr_temperature wire)
                    (match wr_skill_trace wire with None => None | Some _ => Some (level_u8 effective_trace) end) None (wr_extra wire) in
  let template := apply_skill_chain_tools template (cx_allowed_child_skilleps ctx) in
  Ok (MkNormalized template (wr_messages wire) effective_trace (match effective_trace with LNone => false | _ => true end)
        current_depth (debug_mocks (wr_mocks wire))).
End pure.
Arguments NormalizedSkillCall J : clear implicits.

(** ** Traces *)

(** ixshare/src/gateway/skill_trace_sse.rs:6-9 [SseParser] *)
Record SseParser := MkParser { pending_event : option string; data_lines : list string }.
(** ixshare/src/gateway/skill_trace_sse.rs:11-14 [SseMessage] *)
Inductive SseMessage := MEvent (event : option string) (data : string) | MComment (comment : string).
(** ixshare/src/gateway/skill_trace_sse.rs:17-38 [SseParser::push_line] *)
Definition push_line (self : SseParser) (line : string) : option SseMessage * SseParser :=
  match strip_prefix ":" line with
  | Some rest => (Some (MComment (trim rest)), self)
  | None =>
      if decide (line = "") then
        let data := join (String newline "") (data_lines self) in
        let event := pending_event self in
        (if decide (data = "" ∧ event = None) then None else Some (MEvent event data), MkParser None [])
      else
        match strip_prefix "event:" line with
        | Some rest => (None, MkParser (Some (trim rest)) (data_lines self))
        | None =>
            match strip_prefix "data:" line with
            | Some rest => (None, MkParser (pending_event self) (data_lines self ++ [trim rest]))
            | None => (None, self)
            end
        end
  end.

(** ixshare/src/gateway/skill_chain.rs:108-114 [SkillChainTraceState]; without its start and its channel *)
Record SkillChainTraceState := MkTrace { ts_root_call_id : string; ts_root_skill : string; ts_include_content : bool }.
(** ixshare/src/gateway/skill_chain.rs:117-122 [SkillChainChildTraceState]; [local_root_call_id] is in [ReadState] *)
Record SkillChainChildTraceState := MkChildTrace { ct_call_id : string; ct_skill : string }.
(** ixshare/src/gateway/skill_chain.rs:134-139 [ForwardedChildTraceNode] *)
Record ForwardedChildTraceNode := MkNode { nd_call_id : string; nd_parent_call_id : option string; nd_depth : Z; nd_skill : string }.
(** ixshare/src/gateway/skill_chain.rs:125-131 [ChildTraceReadResult] *)
Record ChildTraceReadResult := MkReadResult {
  rr_skill_result : option string; rr_code : option string; rr_reason : option SkillTraceFailReason; rr_usage : option TokenUsage;
  rr_open : list ForwardedChildTraceNode;
}.
(** ixshare/src/gateway/skill_chain.rs:142-146 [ChildTraceReadError] *)
Record ChildTraceReadError := MkReadError {
  re_message : string; re_reason : SkillTraceFailReason; re_open : list ForwardedChildTraceNode;
}.
(** ixshare/src/gateway/skill_chain.rs:148-166 [update_open_descendants] *)
Definition update_open_descendants (open : gmap string ForwardedChildTraceNode) (normalized_event_type : string) (direct_child_depth : Z)
    (node : ForwardedChildTraceNode) : gmap string ForwardedChildTraceNode :=
  if decide (nd_depth node ≤ direct_child_depth)%Z then open
  else if decide (normalized_event_type = "subcall_start") then <[nd_call_id node := node]> open
  else if decide (normalized_event_type = "subcall_finish") then delete (nd_call_id node) open
  else open.

(** What the world is asked. *)

(** A request to the gateway itself for a child; its headers as they are added. *)
Record ChildRequest (J : Type) := MkChildRequest { ch_url : string; ch_headers : list (string * string); ch_body : WireRequest J }.
(** Its response: the status, the content type if it is text, and the body, which is read later. *)
Record ChildResponse := MkChildResponse { cr_status : Z; cr_content_type : option string; cr_body : nat }.
(** The arguments of [dispatch_func_call]; [R]: the route. *)
Record ModelRequest (R : Type) := MkModelRequest {
  mq_route : R; mq_tenant : string; mq_namespace : string; mq_funcname : string; mq_path : string; mq_prefix : string;
  mq_headers : Headers; mq_body : string;
}.
Arguments MkChildRequest {J}. Arguments ch_url {J}. Arguments ch_headers {J}. Arguments ch_body {J}.
Arguments MkModelRequest {R}. Arguments mq_headers {R}. Arguments mq_body {R}. Arguments mq_prefix {R}. Arguments mq_path {R}.
Inductive SkillQ (J R : Type) : Type → Type :=
| AskCancelled : SkillQ J R bool
| AskOpen : SkillQ J R bool                                       (* the client still reads *)
| AskRoom : SkillQ J R unit
| AskUuid : SkillQ J R string
| AskTicks : SkillQ J R nat
| AskPick : SkillQ J R bool
| AskOrder : SkillQ J R (list nat)                                (* of the keys of a map, of what ends *)
| AskModel (req : ModelRequest R) : SkillQ J R (Z + Z * list (string * string) * option string)
| AskChild (req : ChildRequest J) : SkillQ J R (string + ChildResponse)
| AskBytes (body : nat) : SkillQ J R (string + string)
| AskChunks (body : nat) : SkillQ J R nat                         (* how many chunks there will be *)
| AskChunk (body : nat) : SkillQ J R (string + string).
Arguments AskCancelled {J R}. Arguments AskOpen {J R}. Arguments AskRoom {J R}. Arguments AskUuid {J R}. Arguments AskTicks {J R}.
Arguments AskPick {J R}. Arguments AskOrder {J R}. Arguments AskModel {J R}. Arguments AskChild {J R}. Arguments AskBytes {J R}.
Arguments AskChunks {J R}. Arguments AskChunk {J R}.

(** The elements in an order the world picks. *)
Fixpoint shuffle {A} (order : list nat) (l : list A) : list A :=
  match order, l with
  | [], _ | _, [] => l
  | i :: order, _ =>
      let i := i mod length l in
      match l !! i with Some a => a :: shuffle order (delete i l) | None => l end
  end.

Section chain.
Context {J : Type} {js : SkillJson J} {config : SkillConfig} {R : Type}.
Abbreviation C := (call unit (SkillQ J R) TraceChunk).
Implicit Types (trace : SkillChainTraceState) (payload : TracePayload).

(** The texts of [emit_trace_comment], [emit_trace_event], [emit_trace_skill_result] and [emit_trace_done]: lines, and an
    empty one. *)
Definition chunk_lines (chunk : TraceChunk) : list string :=
  match chunk with
  | TComment comment => [": " +:+ comment]
  | TEvent payload => ["event: skill_trace"; "data: " +:+ trace_text payload]
  | TResult data => ["event: skill_result"; "data: " +:+ data]
  | TDone => ["data: [DONE]"]
  end.
Definition lines_text (lines : list string) : string := foldr (λ line text, line +:+ String newline text) "" lines.
Definition chunk_text (chunk : TraceChunk) : string := lines_text (chunk_lines chunk ++ [""]).
(** ixshare/src/gateway/skill_chain.rs:673-675 [emit_trace_comment] *)
Definition emit_trace_comment (comment : string) : C unit := say (TComment comment).
(** ixshare/src/gateway/skill_chain.rs:656-667 [maybe_set_trace_content] *)
Definition maybe_set_trace_content trace payload (query output : option string) : TracePayload :=
  if negb (ts_include_content trace) then payload
  else MkTracePayload (ev_type payload) (ev_call_id payload) (ev_parent_call_id payload) (ev_depth payload) (ev_skill payload)
         (ev_phase payload) query output (ev_result_code payload) (ev_fail_reason payload) (ev_prompt_tokens payload)
         (ev_completion_tokens payload) (ev_total_tokens payload).
(** ixshare/src/gateway/skill_chain.rs:729-789 [emit_trace_event] *)
Definition emit_trace_event trace (event_type call_id : string) (parent_call_id : option string) (depth : Z) (skill : string)
    (phase query output result_code : option string) (fail_reason : option SkillTraceFailReason) (usage : option TokenUsage) : C unit :=
  let payload := MkTracePayload event_type call_id parent_call_id depth skill phase None None result_code (fail_reason_str <$> fail_reason)
                   (us_prompt <$> usage) (us_completion <$> usage) (us_total <$> usage) in
  say (TEvent (maybe_set_trace_content trace payload query output)).
(** ixshare/src/gateway/skill_chain.rs:791-806 [emit_trace_skill_result] *)
Definition emit_trace_skill_result (body : string) : C unit := say (TResult (of_chars (from_utf8_lossy body))).
(** ixshare/src/gateway/skill_chain.rs:808-816 [emit_trace_done] *)
Definition emit_trace_done : C unit := say TDone.
(** ixshare/src/gateway/skill_chain.rs:818-835 [emit_root_call_start] *)
Definition emit_root_call_start trace (query : option string) : C bool :=
  _ ← emit_trace_event trace "call_start" (ts_root_call_id trace) None 1 (ts_root_skill trace) None query None None None None;
  ask AskOpen.
(** ixshare/src/gateway/skill_chain.rs:837-859 [emit_root_call_finish] *)
Definition emit_root_call_finish trace (result_code : string) (fail_reason : option SkillTraceFailReason) (usage : option TokenUsage) : C unit :=
  emit_trace_event trace "call_finish" (ts_root_call_id trace) None 1 (ts_root_skill trace) None None None (Some result_code) fail_reason usage.
(** ixshare/src/gateway/skill_chain.rs:861-886 [emit_trace_heartbeat] *)
Definition emit_trace_heartbeat trace (call_id : string) (parent_call_id : option string) (depth : Z) (skill phase : string) : C unit :=
  emit_trace_event trace "heartbeat" call_id parent_call_id depth skill (Some phase) None None None None None.
(** ixshare/src/gateway/skill_chain.rs:888-915 [await_with_trace_heartbeat] *)
Definition await_with_trace_heartbeat {A} (otrace : option SkillChainTraceState) (future : C A) (on_tick : SkillChainTraceState → C unit) : C A :=
  match otrace with
  | None => future
  | Some trace => ticking AskTicks (_ ← emit_trace_comment "heartbeat"; on_tick trace) future
  end.

(** *** The trace of a child *)

(** The usage an event carries, if all of it. *)
Definition payload_usage payload : option TokenUsage :=
  match ev_prompt_tokens payload, ev_completion_tokens payload, ev_total_tokens payload with
  | Some p, Some c, Some t => Some (MkUsage p c t)
  | _, _, _ => None
  end.
Definition is_root_event (type_ : string) payload : bool := bool_decide (ev_depth payload = 1%Z ∧ ev_type payload = type_).
(** Answers what the child's root call is then known as, and the call the event is about. *)
(** ixshare/src/gateway/skill_chain.rs:1804-1881 [forward_child_trace_event] *)
Definition forward_child_trace_event trace (direct_child : SkillChainChildTraceState) (direct_child_depth : Z) (local_root : option string)
    payload : C (option string * option (string * ForwardedChildTraceNode)) :=
  if is_root_event "call_start" payload then CRet (Some (ev_call_id payload), None)
  else if is_root_event "call_finish" payload then CRet (local_root, None)
  else
    let normalized_type := if decide (ev_type payload = "call_start") then "subcall_start"
                           else if decide (ev_type payload = "call_finish") then "subcall_finish"
                           else ev_type payload in
    let call_id := if decide (local_root = Some (ev_call_id payload)) then ct_call_id direct_child else ev_call_id payload in
    let parent_call_id := if decide (ev_depth payload ≤ 1)%Z then Some (ts_root_call_id trace)
                          else if decide (ev_parent_call_id payload = local_root) then Some (ct_call_id direct_child)
                          else ev_parent_call_id payload in
    depth ← try_ (chk u32 (direct_child_depth + Z.max 0 (ev_depth payload - 1)) : outcome unit Z);
    _ ← emit_trace_event trace normalized_type call_id parent_call_id depth (ev_skill payload) (ev_phase payload) (ev_query payload)
          (ev_output payload) (ev_result_code payload) (parse_fail_reason (ev_fail_reason payload)) (payload_usage payload);
    CRet (local_root, Some (normalized_type, MkNode call_id parent_call_id depth (ev_skill payload))).

(** The variables of [read_child_trace_sse]. *)
Record ReadState := MkRead {
  rd_parser : SseParser; rd_skill_result : option string; rd_code : option string; rd_reason : option SkillTraceFailReason;
  rd_usage : option TokenUsage; rd_open : gmap string ForwardedChildTraceNode; rd_done : bool; rd_local_root : option string;
}.
Definition read_init : ReadState := MkRead (MkParser None []) None None None None ∅ false None.
Definition with_parser (parser : SseParser) (st : ReadState) : ReadState :=
  MkRead parser (rd_skill_result st) (rd_code st) (rd_reason st) (rd_usage st) (rd_open st) (rd_done st) (rd_local_root st).
Definition with_result (data : string) (st : ReadState) : ReadState :=
  MkRead (rd_parser st) (Some data) (rd_code st) (rd_reason st) (rd_usage st) (rd_open st) (rd_done st) (rd_local_root st).
Definition with_done (st : ReadState) : ReadState :=
  MkRead (rd_parser st) (rd_skill_result st) (rd_code st) (rd_reason st) (rd_usage st) (rd_open st) true (rd_local_root st).
Definition with_terminal payload (st : ReadState) : ReadState :=
  if is_root_event "call_finish" payload then
    MkRead (rd_parser st) (rd_skill_result st) (ev_result_code payload) (parse_fail_reason (ev_fail_reason payload)) (payload_usage payload)
      (rd_open st) (rd_done st) (rd_local_root st)
  else st.
Definition with_calls (local_root : option string) (open : gmap string ForwardedChildTraceNode) (st : ReadState) : ReadState :=
  MkRead (rd_parser st) (rd_skill_result st) (rd_code st) (rd_reason st) (rd_usage st) open (rd_done st) local_root.

(** [open_descendants.values()] *)
Definition open_values (st : ReadState) : C (list ForwardedChildTraceNode) :=
  order ← ask AskOrder; CRet (shuffle order (map_to_list (rd_open st)).*2).
Definition read_failed {A} (message : string) (reason : SkillTraceFailReason) (st : ReadState) : C (outcome ChildTraceReadError A) :=
  open ← open_values st; failC (MkReadError message reason open).

Section read.
Context (trace : SkillChainTraceState) (direct_child : SkillChainChildTraceState) (direct_child_depth : Z).

(** ixshare/src/gateway/skill_chain.rs:1915-1978 [read_child_trace_sse]; a message *)
Definition on_message (message : SseMessage) (st : ReadState) : C (outcome ChildTraceReadError ReadState) :=
  match message with
  | MComment _ => okC st
  | MEvent event data =>
      if decide (data = "[DONE]") then okC (with_done st)
      else if decide (event = Some "skill_trace") then
        match trace_of data with
        | inl e => read_failed e InvalidResponse st
        | inr payload =>
            let st := with_terminal payload st in
            r ← forward_child_trace_event trace direct_child direct_child_depth (rd_local_root st) payload;
            let open := match r.2 with
                        | Some (normalized_type, node) => update_open_descendants (rd_open st) normalized_type direct_child_depth node
                        | None => rd_open st
                        end in
            okC (with_calls r.1 open st)
        end
      else if decide (event = Some "skill_result") then okC (with_result data st)
      else okC st
  end.
Definition on_trace_line (st : ReadState) (line : string) : C (outcome ChildTraceReadError ReadState) :=
  let '(message, parser) := push_line (rd_parser st) line in
  match message with None => okC (with_parser parser st) | Some message => on_message message (with_parser parser st) end.
(** Each turn takes a character at least off the buffer. *)
(** ixshare/src/gateway/skill_chain.rs:1906-1980 [read_child_trace_sse]; the lines of the buffer *)
Fixpoint read_lines (fuel : nat) (buf : list ascii) (st : ReadState) : C (outcome ChildTraceReadError (list ascii * ReadState)) :=
  match fuel, next_line buf with
  | S fuel, Some (line, rest) =>
      st ⇐ on_trace_line st (chomp line);
      if rd_done st then okC (rest, st) else read_lines fuel rest st
  | _, _ => okC (buf, st)
  end.
(** ixshare/src/gateway/skill_chain.rs:1899-1981 [read_child_trace_sse]; the chunks *)
Fixpoint read_chunks (chunks body : nat) (buf : list ascii) (st : ReadState) : C (outcome ChildTraceReadError (list ascii * ReadState)) :=
  match chunks with
  | 0 => okC (buf, st)
  | S chunks =>
      chunk ← ask (AskChunk body);
      match chunk with
      | inl e => read_failed e TransportError st
      | inr bytes =>
          let buf := buf ++ from_utf8_lossy bytes in
          ' (buf, st) ⇐ read_lines (length buf) buf st;
          if rd_done st then okC (buf, st) else read_chunks chunks body buf st
      end
  end.
(** ixshare/src/gateway/skill_chain.rs:1883-2056 [read_child_trace_sse] *)
Definition read_child_trace_sse (body : nat) : C (outcome ChildTraceReadError ChildTraceReadResult) :=
  chunks ← ask (AskChunks body);
  ' (buf, st) ⇐ read_chunks chunks body [] read_init;
  st ⇐ (if decide (buf = []) then okC st else on_trace_line st (trim_end_matches carriage_return (of_chars buf)));
  if rd_done st then
    open ← open_values st;
    okC (MkReadResult (rd_skill_result st) (rd_code st) (rd_reason st) (rd_usage st) open)
  else read_failed "child trace stream ended before [DONE]" InvalidResponse st.
End read.

(** ** Child calls *)

(** ixshare/src/gateway/skill_chain.rs:85-96 [ParallelChildTaskContext]; without its client and what is logged *)
Record ParallelChildTaskContext := MkChildContext {
  px_current_depth : Z; px_headers : Headers; px_debug_mocks : gmap string string; px_trace : option SkillChainTraceState;
  px_direct_child_depth : Z; px_allowed_skillep_ids : option (gset string);
}.
(** ixshare/src/gateway/skill_chain.rs:99-105 [ParallelChildResult] *)
Record ParallelChildResult := MkChildResult {
  pc_original_index : nat; pc_tool_call_id : string; pc_tool_result : string; pc_fail_reason : option SkillTraceFailReason;
  pc_usage : option TokenUsage;
}.
(** ixshare/src/gateway/skill_chain.rs:644-650 [apply_internal_child_headers] *)
Definition apply_internal_child_headers (next_depth : Z) : list (string * string) :=
  [(SKILL_CHAIN_CHILD_HEADER, "1"); (SKILL_CHAIN_DEPTH_HEADER, pretty next_depth)].
(** ixshare/src/gateway/skill_chain.rs:1298-1312 [copy_forwarded_child_headers] *)
Definition copy_forwarded_child_headers (parent_headers : Headers) : list (string * string) :=
  omap (λ name, v ← parent_headers !! name; Some (name, v)) ["authorization"; "x-request-id"; "traceparent"].
(** The status codes of success. *)
Definition success (status : Z) : bool := bool_decide (200 ≤ status < 300)%Z.
Definition is_event_stream (content_type : option string) : bool :=
  match content_type with Some v => contains "text/event-stream" (to_ascii_lowercase v) | None => false end.
Definition plain_result (bytes : string) : ChildTraceReadResult := MkReadResult (Some bytes) None None None [].

(** ixshare/src/gateway/skill_chain.rs:1528-1542 [execute_parallel_child_call] *)
Definition read_body (resp : ChildResponse) : C (outcome ChildTraceReadError (Z * ChildTraceReadResult)) :=
  bytes ← ask (AskBytes (cr_body resp));
  match bytes with
  | inl e => failC (MkReadError e TransportError [])
  | inr bytes => okC (cr_status resp, plain_result bytes)
  end.
(** ixshare/src/gateway/skill_chain.rs:1493-1543 [execute_parallel_child_call]; the request and what is read of its response *)
Definition child_call (ctx : ParallelChildTaskContext) (child_trace : option SkillChainChildTraceState) (req : ChildRequest J)
    : C (outcome ChildTraceReadError (Z * ChildTraceReadResult)) :=
  resp ← ask (AskChild req);
  match resp with
  | inl e => failC (MkReadError e TransportError [])
  | inr resp =>
      match px_trace ctx, child_trace with
      | Some trace, Some child =>
          if success (cr_status resp) && is_event_stream (cr_content_type resp) then
            result ⇐ read_child_trace_sse trace child (px_direct_child_depth ctx) (cr_body resp);
            okC (cr_status resp, result)
          else read_body resp
      | _, _ => read_body resp
      end
  end.

(** The calls a child left open are reported as failed. *)
(** ixshare/src/gateway/skill_chain.rs:1571-1595 [execute_parallel_child_call] *)
Definition finish_descendants (otrace : option SkillChainTraceState) (reason : SkillTraceFailReason) (open : list ForwardedChildTraceNode) : C unit :=
  match otrace with
  | None => CRet tt
  | Some trace =>
      eachC (λ d, emit_trace_event trace "subcall_finish" (nd_call_id d) (nd_parent_call_id d) (nd_depth d) (nd_skill d)
                    (Some "child_call_end") None None (Some "fail") (Some reason) None) open
  end.
Abbreviation ChildReply := (string * option SkillTraceFailReason * option TokenUsage)%type.
(** ixshare/src/gateway/skill_chain.rs:1680-1729 [execute_parallel_child_call]; the text of a child that ended well *)
Definition child_text (result : ChildTraceReadResult) : ChildReply :=
  match rr_skill_result result with
  | None => ("Error: child trace stream missing skill_result", Some InvalidResponse, rr_usage result)
  | Some bytes =>
      match parse_skill_response bytes with
      | None => (format_child_tool_error "child returned invalid response", Some InvalidResponse, rr_usage result)
      | Some parsed =>
          match pr_final_text parsed with
          | None | Some "" => ("Error: child returned empty response", Some InvalidResponse, pr_usage parsed)
          | Some text => (text, None, pr_usage parsed)
          end
      end
  end.
(** ixshare/src/gateway/skill_chain.rs:1569-1732 [execute_parallel_child_call]; what is made of a child's response *)
Definition child_reply (otrace : option SkillChainTraceState) (r : outcome ChildTraceReadError (Z * ChildTraceReadResult)) : C ChildReply :=
  match r with
  | Panic w => CPanic w
  | Err err =>
      _ ← finish_descendants otrace (re_reason err) (re_open err);
      CRet (format_child_tool_error (re_message err), Some (re_reason err), None)
  | Ok (status, result) =>
      if success status then
        match rr_open result with
        | [] =>
            if decide (rr_code result = Some "fail") then CRet (format_child_fail_reason (rr_reason result), rr_reason result, rr_usage result)
            else CRet (child_text result)
        | open =>
            _ ← finish_descendants otrace InvalidResponse open;
            CRet ("Error: child trace stream left open descendant calls", Some InvalidResponse, rr_usage result)
        end
      else
        let detail := trim (of_chars (from_utf8_lossy (default "" (rr_skill_result result)))) in
        let message := if decide (detail = "") then "child call failed with " +:+ status_text status else detail in
        CRet (format_child_tool_error message, Some TransportError, rr_usage result)
  end.

(** ixshare/src/gateway/skill_chain.rs:1475-1481 [execute_parallel_child_call] *)
Definition child_url (owner_tenant namespace skillname : string) : string :=
  "http://127.0.0.1:" +:+ (pretty gatewayPort +:+ ("/skills/" +:+ (owner_tenant +:+ ("/" +:+ (namespace +:+ ("/" +:+ (skillname +:+ "/v1/chat/completions"))))))).
(** ixshare/src/gateway/skill_chain.rs:1465-1469 [execute_parallel_child_call] *)
Definition child_trace_level (otrace : option SkillChainTraceState) : SkillTraceLevel :=
  match otrace with None => LNone | Some t => if ts_include_content t then LVerbose else LBasic end.
(** ixshare/src/gateway/skill_chain.rs:1470-1488 [execute_parallel_child_call] *)
Definition child_request (ctx : ParallelChildTaskContext) (owner_tenant namespace skillname query : string) (next_depth : Z) : ChildRequest J :=
  MkChildRequest (child_url owner_tenant namespace skillname)
    (("content-type", "application/json") :: apply_internal_child_headers next_depth ++ copy_forwarded_child_headers (px_headers ctx))
    (build_skill_chat_request query (child_trace_level (px_trace ctx)) ChildSkillLoopback).
(** The start and the finish of a child, if there is a trace. *)
(** ixshare/src/gateway/skill_chain.rs:1381-1420 [execute_parallel_child_call]; and the same of a child that is called *)
Definition with_child_trace (ctx : ParallelChildTaskContext) (skillep_id query : string)
    (run : option SkillChainChildTraceState → C ChildReply) : C ChildReply :=
  match px_trace ctx with
  | None => run None
  | Some trace =>
      call_id ← ask AskUuid;
      _ ← emit_trace_event trace "subcall_start" call_id (Some (ts_root_call_id trace)) (px_direct_child_depth ctx) skillep_id
            (Some "child_call_start") (Some query) None None None None;
      r ← run (Some (MkChildTrace call_id skillep_id));
      let '(tool_result, fail_reason, usage) := r in
      _ ← emit_trace_event trace "subcall_finish" call_id (Some (ts_root_call_id trace)) (px_direct_child_depth ctx) skillep_id
            (Some "child_call_end") None (Some tool_result) (Some (match fail_reason with Some _ => "fail" | None => "pass" end))
            fail_reason usage;
      CRet r
  end.
Definition child_beat (ctx : ParallelChildTaskContext) (child_trace : option SkillChainChildTraceState) (trace : SkillChainTraceState) : C unit :=
  match child_trace with
  | None => CRet tt
  | Some child => emit_trace_heartbeat trace (ct_call_id child) (Some (ts_root_call_id trace)) (px_direct_child_depth ctx) (ct_skill child) "child_call"
  end.
(** ixshare/src/gateway/skill_chain.rs:1379-1777 [execute_parallel_child_call]; the call of a skill that is allowed *)
Definition call_child (ctx : ParallelChildTaskContext) (skillep_id owner_tenant namespace skillname query : string) : C ChildReply :=
  match px_debug_mocks ctx !! skillep_id with
  | Some mocked_result => with_child_trace ctx skillep_id query (λ _, CRet (mocked_result, None, None))
  | None =>
      match (chk u32 (px_current_depth ctx + 1) : outcome unit Z) with
      | Ok next_depth =>
          if decide (next_depth ≤ SKILL_CHAIN_MAX_DEPTH)%Z then
            with_child_trace ctx skillep_id query (λ child_trace,
              r ← await_with_trace_heartbeat (px_trace ctx)
                    (child_call ctx child_trace (child_request ctx owner_tenant namespace skillname query next_depth)) (child_beat ctx child_trace);
              child_reply (px_trace ctx) r)
          else CRet ("Error: max chain depth exceeded", Some MaxDepth, None)
      | _ => CRet ("Error: max chain depth exceeded", Some MaxDepth, None)
      end
  end.
Definition not_allowed (allowed : option (gset string)) (skillep_id : string) : bool :=
  match allowed with Some ids => bool_decide (skillep_id ∉ ids) | None => false end.
(** ixshare/src/gateway/skill_chain.rs:1314-1377 [execute_parallel_child_call] *)
Definition execute_parallel_child_call (ctx : ParallelChildTaskContext) (original_index : nat) (call : ParsedSkillToolCall) : C ParallelChildResult :=
  let refused message := CRet (MkChildResult original_index (sk_id call) message None None) in
  match parse_skillep_tool_args (sk_arguments call) with
  | inl err => refused err
  | inr (skillep_id, query) =>
      match split_skillep_id skillep_id with
      | inl err => refused err
      | inr (owner_tenant, namespace, skillname) =>
          if not_allowed (px_allowed_skillep_ids ctx) skillep_id
          then refused "Error: skill endpoint not in allowed list"
          else
            r ← call_child ctx skillep_id owner_tenant namespace skillname query;
            let '(tool_result, fail_reason, usage) := r in
            CRet (MkChildResult original_index (sk_id call) tool_result fail_reason usage)
      end
  end.

(** [results], with the ones that are not there yet, as the calls end. *)
Definition commit_result (results : list (option ParallelChildResult)) (result : ParallelChildResult) : list (option ParallelChildResult) :=
  let i := pc_original_index result in
  <[i := Some result]> (results ++ replicate (S i - length results) None).
(** ixshare/src/gateway/skill_chain.rs:1788-1802 [drive_parallel_child_tasks]; of the results in the order in which the calls end *)
Definition drive_parallel_child_tasks (ended : list ParallelChildResult) : list ParallelChildResult :=
  omap id (foldl commit_result [] ended).

(** ** The chain *)

(** ixshare/src/gateway/skill_chain.rs:209-215 [SkillChainFinalResponse] *)
Record SkillChainFinalResponse := MkFinal {
  fr_status : Z; fr_headers : list (string * string); fr_body : string; fr_is_openai_chat_completion : bool; fr_usage : option TokenUsage;
}.
(** ixshare/src/gateway/skill_chain.rs:217-220 [SkillChainExecutionError] *)
Inductive SkillChainExecutionError := DownstreamStatus (status : Z) | ChainResponse (status : Z) (message : string).
Definition ct_json : Headers → Headers := insert "content-type" "application/json".

(** ixshare/src/gateway/skill_chain.rs:2085-2093 [execute_skill_chain] *)
Definition chain_prefix (prefix : string) : string :=
  if skillEPSystemPromptConstraint then
    if decide (trim prefix = "") then SKILL_EP_CONSTRAINT
    else SKILL_EP_CONSTRAINT +:+ (String newline (String newline (trim prefix)))
  else prefix.
(** ixshare/src/gateway/skill_chain.rs:2146-2188 [execute_skill_chain]; the request of a turn, and the response with its body *)
Definition model_turn (ctx : SkillInvocationContext R) (body : string)
    : C (outcome SkillChainExecutionError (Z * list (string * string) * string)) :=
  let headers := ct_json (delete SKILL_CHAIN_DEPTH_HEADER (delete SKILL_CHAIN_CHILD_HEADER (cx_request_headers ctx))) in
  reply ← ask (AskModel (MkModelRequest (cx_route ctx) (cx_calling_tenant ctx) (cx_skills_namespace ctx) (cx_logical_funcname ctx)
                           (cx_remain_path ctx) (chain_prefix (cx_prefix ctx)) headers body));
  match reply with
  | inl status => failC (DownstreamStatus status)
  | inr (status, headers, Some bytes) => okC (status, headers, bytes)
  | inr (_, _, None) => failC (ChainResponse 502 "service failure: failed to read model response")
  end.
Definition root_beat (trace : SkillChainTraceState) : C unit :=
  emit_trace_heartbeat trace (ts_root_call_id trace) None 1 (ts_root_skill trace) "model_inference".
(** What a turn with a tool that is not offered is answered. *)
Definition unsupported_content (call : ParsedSkillToolCall) : string :=
  if decide (sk_name call = SKILL_CHAIN_TOOL_NAME) then "Error: turn aborted (other tool in same response was unsupported)"
  else format_child_tool_error ("unsupported tool '" +:+ (sk_name call +:+ "'")).
(** ixshare/src/gateway/skill_chain.rs:2349-2372 [execute_skill_chain]; the results of the child calls of a turn *)
Definition call_children (ctx : SkillInvocationContext R) (chain : NormalizedSkillCall J) (otrace : option SkillChainTraceState)
    (tool_calls : list ParsedSkillToolCall) : C (list ParallelChildResult) :=
  let child_ctx := MkChildContext (nc_current_depth chain) (cx_request_headers ctx) (nc_debug_mocks chain) otrace 2
                     (cx_allowed_child_skilleps ctx) in
  results ← par_all AskPick (imap (execute_parallel_child_call child_ctx) tool_calls);
  order ← ask AskOrder;
  CRet (drive_parallel_child_tasks (shuffle order results)).

(** One turn after another, at most [turns]; [None]: it has not ended. *)
(** ixshare/src/gateway/skill_chain.rs:2098-2391 [execute_skill_chain]; the loop *)
Fixpoint chain_loop (turns : nat) (ctx : SkillInvocationContext R) (chain : NormalizedSkillCall J) (otrace : option SkillChainTraceState)
    (history : list J) (usage : option TokenUsage) : C (outcome SkillChainExecutionError (option SkillChainFinalResponse)) :=
  match turns with
  | 0 => okC None
  | S turns =>
      cancelled ← ask AskCancelled;
      if (cancelled : bool) then failC (ChainResponse 503 "service failure: chain cancelled")
      else
        match turn_bytes (nc_template chain) history with
        | None => failC (ChainResponse 500 "service failure: failed to build request body")
        | Some body_bytes =>
            if negb (uri_parses (cx_remain_path ctx)) then CPanic "called `Result::unwrap()` on an `Err` value: InvalidUri"
            else
              ' (status, headers, resp_bytes) ⇐ await_with_trace_heartbeat otrace (model_turn ctx body_bytes) root_beat;
              match parse_skill_response resp_bytes with
              | None => okC (Some (MkFinal status headers resp_bytes false usage))
              | Some parsed =>
                  let usage := aggregate usage (pr_usage parsed) in
                  match pr_tool_calls parsed with
                  | [] => okC (Some (MkFinal status headers resp_bytes true usage))
                  | tool_calls =>
                      match extract_raw_tool_calls resp_bytes with
                      | None => failC (ChainResponse 502 "service failure: failed to preserve tool call history")
                      | Some raw_tool_calls =>
                          let history := history ++ [chat_value (CAssistant raw_tool_calls)] in
                          if decide (Exists (λ call, sk_name call ≠ SKILL_CHAIN_TOOL_NAME) tool_calls) then
                            let answers := (λ call, chat_value (CTool (sk_id call) (unsupported_content call))) <$> tool_calls in
                            chain_loop turns ctx chain otrace (history ++ answers) usage
                          else
                            results ← call_children ctx chain otrace tool_calls;
                            let answers := (λ r, chat_value (CTool (pc_tool_call_id r) (pc_tool_result r))) <$> results in
                            chain_loop turns ctx chain otrace (history ++ answers) (foldl aggregate usage (pc_usage <$> results))
                      end
                  end
              end
        end
  end.
(** ixshare/src/gateway/skill_chain.rs:2058-2096 [execute_skill_chain] *)
Definition execute_skill_chain (turns : nat) (ctx : SkillInvocationContext R) (chain : NormalizedSkillCall J) (otrace : option SkillChainTraceState)
    : C (outcome SkillChainExecutionError (option SkillChainFinalResponse)) :=
  chain_loop turns ctx chain otrace (nc_history chain) None.

(** ** Handlers *)

(** What a request is answered.  [RStream]: the trace of a task that is started. *)
Inductive ChainReply :=
| RPlain (status : Z) (headers : list (string * string)) (body : string)
| RInvalidChildDepth
| RStream (trace : SkillChainTraceState) (chain : NormalizedSkillCall J).
(** ixshare/src/gateway/skill_chain.rs:2414-2512 [handle_skill_call_chain]; its error is a status *)
Definition handle_skill_call_chain (turns : nat) (wire : WireRequest J) (ctx : SkillInvocationContext R) : C (outcome Z (option ChainReply)) :=
  match normalize_skill_call wire ctx with
  | Panic w => CPanic w
  | Err (NHttp status message) => okC (Some (RPlain status [] message))
  | Err NCompletionError => okC (Some RInvalidChildDepth)
  | Ok chain =>
      if nc_traced chain then
        root_call_id ← ask AskUuid;
        okC (Some (RStream (MkTrace root_call_id (cx_display_skill_id ctx) (bool_decide (nc_effective_trace chain = LVerbose))) chain))
      else
        r ← execute_skill_chain turns ctx chain None;
        match r with
        | Ok (Some final) => okC (Some (RPlain (fr_status final) (fr_headers final) (fr_body final)))
        | Ok None => okC None
        | Err (DownstreamStatus status) => failC status
        | Err (ChainResponse status message) => okC (Some (RPlain status [] message))
        | Panic w => CPanic w
        end
  end.
(** Dropped when the client is gone or the token is cancelled; [false]: the chain has not ended in its turns. *)
(** ixshare/src/gateway/skill_chain.rs:2521-2578 [handle_skill_call_chain]; the task of a trace *)
Definition chain_task (turns : nat) (ctx : SkillInvocationContext R) (trace : SkillChainTraceState) (chain : NormalizedSkillCall J) : C bool :=
  open ← emit_root_call_start trace (latest_user_query (nc_history chain));
  if negb open then CRet true
  else
    result ← until AskRoom 0 (execute_skill_chain turns ctx chain (Some trace));
    match result with
    | None => CRet true
    | Some (Ok None) => CRet false
    | Some (Panic w) => CPanic w
    | Some (Ok (Some final)) =>
        _ ← (if fr_is_openai_chat_completion final then
               _ ← emit_root_call_finish trace "pass" None (fr_usage final);
               emit_trace_skill_result (fr_body final)
             else emit_root_call_finish trace "fail" (Some InvalidResponse) None);
        _ ← emit_trace_done; CRet true
    | Some (Err _) =>
        _ ← emit_root_call_finish trace "fail" (Some TransportError) None;
        _ ← emit_trace_done; CRet true
    end.

(** [str::parse::<u32>] *)
Definition parse_u32 (s : string) : option Z := n ← parse_u64 s; if decide (fits u32 n) then Some n else None.
(** ixshare/src/gateway/http_gateway.rs:3645-3652 [SkillCall] *)
Definition child_depth_header (headers : Headers) : option Z :=
  if extract_is_child_request headers then headers !! SKILL_CHAIN_DEPTH_HEADER ≫= parse_u32 else None.
(** A chat with a skill, its route being resolved; [body]: [None] if it cannot be read or is too large. *)
(** ixshare/src/gateway/http_gateway.rs:3638-3696 [SkillCall] *)
Definition SkillCall_chat (turns : nat) (token : AccessToken) (owner_tenant namespace skillname : string) (route : R)
    (calling_tenant logical_namespace logical_funcname remainPath prefix : string) (allowed : option (list string))
    (req_headers : Headers) (body : option string) : C (outcome Z (option ChainReply)) :=
  let is_debug_authorized := IsNamespaceAdmin token owner_tenant namespace || IsInferxAdmin token in
  let is_child_request := extract_is_child_request req_headers in
  match b ← body; wire_of b with
  | None => okC (Some (RPlain 400 [] "service failure: invalid request body"))
  | Some wire =>
      handle_skill_call_chain turns wire
        (MkContext route calling_tenant (owner_tenant +:+ ("/" +:+ (namespace +:+ ("/" +:+ skillname)))) logical_funcname remainPath prefix
           logical_namespace is_child_request (child_depth_header req_headers) is_debug_authorized (list_to_set <$> allowed) req_headers)
  end.
End chain.
