(* ===== verification/SkillProps.v ===== *)
(** * What skill chains promise (ixshare/src/gateway: skill_chain.rs, skill_trace_sse.rs)

    A chain calls only skills it may call, at most five deep, with three of the
    caller's headers; every tool call of a model is answered, in order; the trace
    of a caller who may not see contents has none; a trace is read as it was
    written.  Then what does not hold: a header makes of any request that of a
    child, and a chain has no limit on its turns. *)

From S2P Require Import Prelude.
From S2P Require Import Text.
From S2P Require Import Common.
From S2P Require Import Access.
From S2P Require Import ChatStream.
From S2P Require Import Calls.
From S2P Require Import SkillChain.

Open Scope call_scope.

(** ** Orders the world picks *)

Lemma shuffle_perm {A} (order : list nat) (l : list A) : shuffle order l ≡ₚ l.
Proof.
  revert l. induction order as [|i order IH]; intros [|a l]; try done. cbn [shuffle].
  destruct (_ !! _) as [b|] eqn:Hb; [|done]. rewrite IH. symmetry. by apply delete_Permutation.
Qed.
Lemma omap_holes {A} (l : list (option A)) (res : list A) : (∀ i, l !! i ≫= id = res !! i) → omap id l = res.
Proof.
  revert res. induction l as [|x l IH]; intros res Hl.
  { destruct res as [|r res]; [done|]. by specialize (Hl 0). }
  pose proof (Hl 0) as H0. cbn in H0. destruct x as [r|]; cbn.
  - destruct res as [|r' res]; [done|]. cbn in H0. injection H0 as ->. f_equal. apply IH. intros i. apply (Hl (S i)).
  - destruct res as [|r' res]; [|done]. apply IH. intros i. rewrite lookup_nil. apply (Hl (S i)).
Qed.
Lemma commit_lookup results r i :
  commit_result results r !! i ≫= id = if decide (i = pc_original_index r) then Some r else results !! i ≫= id.
Proof.
  unfold commit_result. set (j := pc_original_index r).
  assert (j < length (results ++ replicate (S j - length results) None)) as Hj by (rewrite length_app, length_replicate; lia).
  case_decide as Hi; [subst i; by rewrite list_lookup_insert_eq|].
  rewrite list_lookup_insert_ne by done. destruct (decide (i < length results)).
  - by rewrite lookup_app_l.
  - rewrite lookup_app_r by lia. rewrite (lookup_ge_None_2 results) by lia.
    destruct (replicate _ _ !! _) as [x|] eqn:Hx; [|done]. by apply lookup_replicate in Hx as [-> _].
Qed.
Lemma commit_all ended results i :
  (∀ r r', r ∈ ended → r' ∈ ended → pc_original_index r = pc_original_index r' → r = r') →
  (∀ r, r ∈ ended → pc_original_index r = i → foldl commit_result results ended !! i ≫= id = Some r) ∧
  (Forall (λ r, pc_original_index r ≠ i) ended → foldl commit_result results ended !! i ≫= id = results !! i ≫= id).
Proof.
  revert results. induction ended as [|r ended IH] using rev_ind; intros results Hinj.
  { split; [set_solver|done]. }
  rewrite foldl_app. cbn [foldl]. rewrite commit_lookup.
  destruct (IH results) as [IH1 IH2]; [intros ?? ??; apply Hinj; set_solver|]. split.
  - intros r' Hr' Hi. case_decide as Hd; [f_equal; apply Hinj; [set_solver..|congruence]|].
    apply IH1; [|done]. apply elem_of_app in Hr' as [Hr'| ->%list_elem_of_singleton]; [done|congruence].
  - intros [Hf [Hr _]%Forall_cons]%Forall_app. rewrite decide_False by congruence. by apply IH2.
Qed.
(** The results are in the order of the calls, in whichever order these end. *)
Lemma drive_in_order results ended :
  ended ≡ₚ results → (∀ i r, results !! i = Some r → pc_original_index r = i) → drive_parallel_child_tasks ended = results.
Proof.
  intros Hp Hix. apply omap_holes. intros i. destruct (commit_all ended [] i) as [H1 H2].
  { intros r r'. rewrite Hp. intros [k Hk]%list_elem_of_lookup_1 [k' Hk']%list_elem_of_lookup_1 He.
    rewrite (Hix _ _ Hk), (Hix _ _ Hk') in He. congruence. }
  destruct (results !! i) as [r|] eqn:Hr.
  - apply H1; [rewrite Hp; by eapply list_elem_of_lookup_2|by apply Hix].
  - rewrite H2; [done|]. apply Forall_forall. intros r. rewrite Hp. intros [k Hk]%list_elem_of_lookup_1. rewrite (Hix _ _ Hk). congruence.
Qed.

(** ** What a chain asks and says *)

Section safe.
Context {J : Type} {js : SkillJson J} {config : SkillConfig} {R : Type}.
Abbreviation C := (call unit (SkillQ J R) TraceChunk).

(** A child call of a request at [depth]: of a skill it may call, one deeper, with
    headers of the request. *)
Definition child_allowed (ctx : SkillInvocationContext R) (depth : Z) (req : ChildRequest J) : Prop :=
  ∃ skillep_id owner_tenant namespace skillname kept,
    split_skillep_id skillep_id = inr (owner_tenant, namespace, skillname) ∧
    not_allowed (cx_allowed_child_skilleps ctx) skillep_id = false ∧
    ch_url req = child_url owner_tenant namespace skillname ∧
    (depth + 1 ≤ SKILL_CHAIN_MAX_DEPTH)%Z ∧
    ch_headers req = [("content-type", "application/json"); (SKILL_CHAIN_CHILD_HEADER, "1");
                      (SKILL_CHAIN_DEPTH_HEADER, pretty (depth + 1)%Z)] ++ kept ∧
    Forall (λ kv, kv.1 ∈ ["authorization"; "x-request-id"; "traceparent"] ∧ cx_request_headers ctx !! kv.1 = Some kv.2) kept.
(** What a turn adds to the conversation: the calls of the model, and an answer to each. *)
Definition is_round (messages : list J) : Prop :=
  ∃ bytes parsed raw answers,
    parse_skill_response bytes = Some parsed ∧ extract_raw_tool_calls bytes = Some raw ∧ pr_tool_calls parsed ≠ [] ∧
    answers.*1 = sk_id <$> pr_tool_calls parsed ∧
    messages = chat_value (CAssistant raw) :: ((λ a, chat_value (CTool a.1 a.2)) <$> (answers : list (string * string))).
Definition answered (start history : list J) : Prop := ∃ rounds, history = start ++ concat rounds ∧ Forall is_round rounds.
Definition model_asked (ctx : SkillInvocationContext R) (chain : NormalizedSkillCall J) (req : ModelRequest R) : Prop :=
  (mq_headers req !! SKILL_CHAIN_CHILD_HEADER = None ∧ mq_headers req !! SKILL_CHAIN_DEPTH_HEADER = None) ∧
  ∃ history, turn_bytes (nc_template chain) history = Some (mq_body req) ∧ answered (nc_history chain) history.
Definition question_ok (ctx : SkillInvocationContext R) (chain : NormalizedSkillCall J) (X : Type) (q : SkillQ J R X) : Prop :=
  match q with
  | AskChild req => child_allowed ctx (nc_current_depth chain) req
  | AskModel req => model_asked ctx chain req
  | _ => True
  end.
(** An event without contents, but to those who may see them. *)
Definition discreet (contents : bool) (o : TraceChunk) : Prop :=
  match o with TEvent payload => contents = false → ev_query payload = None ∧ ev_output payload = None | _ => True end.

Context (ctx : SkillInvocationContext R) (chain : NormalizedSkillCall J) (contents : bool).
Abbreviation ok p := (does (question_ok ctx chain) (discreet contents) p (λ _, True)).
Implicit Types (trace : SkillChainTraceState).

Lemma ok_then {A B} (p : C A) (f : A → C B) : ok p → (∀ a, ok (f a)) → ok (p ≫= f).
Proof using. intros Hp Hf. apply does_then. eapply does_weaken; [exact Hp|]. auto. Qed.
Lemma ok_bindR {E A B} (p : C (outcome E A)) (f : A → C (outcome E B)) : ok p → (∀ a, ok (f a)) → ok (bindR p f).
Proof using. intros Hp Hf. apply ok_then; [done|]. intros [a|e|w]; [apply Hf|done..]. Qed.

Section traced.
Context (trace : SkillChainTraceState) (Htrace : ts_include_content trace = contents).

Lemma ok_event ty id par depth skill phase query output code reason usage :
  ok (emit_trace_event trace ty id par depth skill phase query output code reason usage).
Proof using Htrace.
  split; [|done]. cbn. intros Hc. unfold maybe_set_trace_content. by rewrite Htrace, Hc.
Qed.
Lemma ok_forward child depth root payload : ok (forward_child_trace_event trace child depth root payload).
Proof using Htrace.
  unfold forward_child_trace_event. repeat (case_match; [done|]).
  apply ok_then; [by destruct (chk _ _)|]. intros d. apply ok_then; [apply ok_event|done].
Qed.
Lemma ok_message child depth message st : ok (on_message trace child depth message st).
Proof using Htrace.
  destruct message as [event data|]; [|done]. unfold on_message. repeat (case_decide; try done).
  destruct (trace_of data); [done|]. apply ok_then; [apply ok_forward|]. by intros [? [[??]|]].
Qed.
Lemma ok_trace_line child depth st line : ok (on_trace_line trace child depth st line).
Proof using Htrace. unfold on_trace_line. destruct (push_line _ _) as [[m|] parser]; [apply ok_message|done]. Qed.
Lemma ok_read child depth body : ok (read_child_trace_sse trace child depth body).
Proof using Htrace.
  assert (∀ fuel buf st, ok (read_lines trace child depth fuel buf st)) as Hlines.
  { induction fuel as [|fuel IH]; intros buf st; [done|]. cbn [read_lines]. destruct (next_line buf) as [[line rest]|]; [|done].
    apply ok_bindR; [apply ok_trace_line|]. intros st'. by destruct (rd_done st'). }
  assert (∀ n buf st, ok (read_chunks trace child depth n body buf st)) as Hchunks.
  { induction n as [|n IH]; intros buf st; [done|]. cbn [read_chunks]. apply ok_then; [done|]. intros [e|bytes]; [done|].
    apply ok_bindR; [apply Hlines|]. intros [buf' st']. by destruct (rd_done st'). }
  apply ok_then; [done|]. intros n. apply ok_bindR; [apply Hchunks|]. intros [buf st].
  apply ok_bindR; [case_decide; [done|apply ok_trace_line]|]. intros st'. destruct (rd_done st'); [|done]. by apply ok_then.
Qed.
End traced.

(** The trace, if there is one, is that of the caller. *)
Definition traced_by (otrace : option SkillChainTraceState) : Prop := ∀ trace, otrace = Some trace → ts_include_content trace = contents.
Lemma ok_heartbeat {A} otrace (future : C A) on_tick Ψ :
  (∀ trace, otrace = Some trace → ok (on_tick trace)) →
  does (question_ok ctx chain) (discreet contents) future Ψ →
  does (question_ok ctx chain) (discreet contents) (await_with_trace_heartbeat otrace future on_tick) Ψ.
Proof using. intros Hb Hf. destruct otrace as [trace|]; [|done]. apply does_ticking; [done| |done]. apply ok_then; [done|]. intros _. by apply Hb. Qed.

Section children.
Context (pctx : ParallelChildTaskContext) (Htrace : traced_by (px_trace pctx)).
Context (Hdepth : px_current_depth pctx = nc_current_depth chain) (Hheaders : px_headers pctx = cx_request_headers ctx)
  (Hallowed : px_allowed_skillep_ids pctx = cx_allowed_child_skilleps ctx).

Lemma ok_child_call child_trace req :
  child_allowed ctx (nc_current_depth chain) req → ok (child_call pctx child_trace req).
Proof using Htrace.
  intros Hreq. apply ok_then; [done|]. intros [e|resp]; [done|].
  assert (ok (read_body resp)) as Hall by (split; [done|]; by intros [e|bytes]).
  destruct (px_trace pctx) as [trace|] eqn:Ht; [|done]. destruct child_trace as [child|]; [|done]. destruct (_ && _); [|done].
  apply ok_bindR; [|done]. apply ok_read. by apply Htrace.
Qed.
Lemma ok_descendants reason open : ok (finish_descendants (px_trace pctx) reason open).
Proof using Htrace.
  unfold finish_descendants. destruct (px_trace pctx) as [trace|] eqn:Ht; [|done].
  apply does_eachC. intros d _. apply ok_event. by apply Htrace.
Qed.
Lemma ok_child_reply r : ok (child_reply (px_trace pctx) r).
Proof using Htrace.
  destruct r as [[status result]|err|w]; [|by apply ok_then; [apply ok_descendants|]|done].
  unfold child_reply. destruct (success status); [|done]. destruct (rr_open result); [by case_decide|].
  by apply ok_then; [apply ok_descendants|].
Qed.
Lemma ok_child_traced skillep_id query run : (∀ child, ok (run child)) → ok (with_child_trace pctx skillep_id query run).
Proof using Htrace.
  intros Hrun. unfold with_child_trace. destruct (px_trace pctx) as [trace|] eqn:Ht; [|apply Hrun].
  apply ok_then; [done|]. intros id. apply ok_then; [apply ok_event; by apply Htrace|]. intros _.
  apply ok_then; [apply Hrun|]. intros [[text reason] usage]. apply ok_then; [|done]. apply ok_event. by apply Htrace.
Qed.
Lemma forwarded_kept headers :
  Forall (λ kv, kv.1 ∈ ["authorization"; "x-request-id"; "traceparent"] ∧ (headers : Headers) !! kv.1 = Some kv.2)
    (copy_forwarded_child_headers headers).
Proof using.
  apply Forall_forall. intros kv (name & Hn & Hkv)%list_elem_of_omap.
  destruct (headers !! name) as [v|] eqn:Hv; [|done]. by injection Hkv as <-.
Qed.
Lemma ok_call_child skillep_id owner_tenant namespace skillname query :
  split_skillep_id skillep_id = inr (owner_tenant, namespace, skillname) →
  not_allowed (cx_allowed_child_skilleps ctx) skillep_id = false →
  ok (call_child pctx skillep_id owner_tenant namespace skillname query).
Proof using Htrace Hdepth Hheaders.
  intros Hid Hok. unfold call_child. destruct (px_debug_mocks pctx !! skillep_id); [by apply ok_child_traced|].
  destruct (chk _ _) as [d| |] eqn:Hd; try done. case_decide as Hmax; [|done].
  assert (d = nc_current_depth chain + 1)%Z as ->.
  { unfold chk in Hd. case_decide; [|done]. injection Hd as <-. by rewrite Hdepth. }
  apply ok_child_traced. intros child. apply ok_then; [|apply ok_child_reply]. apply ok_heartbeat.
  { intros trace Ht. destruct child; [|done]. apply ok_event. by apply Htrace. }
  apply ok_child_call. exists skillep_id, owner_tenant, namespace, skillname, (copy_forwarded_child_headers (px_headers pctx)).
  split_and!; try done. rewrite Hheaders. apply forwarded_kept.
Qed.
Lemma ok_execute_child i call :
  does (question_ok ctx chain) (discreet contents) (execute_parallel_child_call pctx i call)
    (λ r, pc_original_index r = i ∧ pc_tool_call_id r = sk_id call).
Proof using Htrace Hdepth Hheaders Hallowed.
  unfold execute_parallel_child_call. destruct (parse_skillep_tool_args _) as [e|[id query]]; [done|].
  destruct (split_skillep_id id) as [e|[[owner ns] name]] eqn:Hid; [done|]. rewrite Hallowed.
  destruct (not_allowed _ id) eqn:Hok; [done|]. apply does_then. eapply does_weaken; [by apply ok_call_child|].
  intros [[text reason] usage] _. done.
Qed.
End children.

(** *** Turns *)

Lemma ok_call_children otrace tool_calls : traced_by otrace →
  does (question_ok ctx chain) (discreet contents) (call_children ctx chain otrace tool_calls)
    (λ results, pc_tool_call_id <$> results = sk_id <$> tool_calls).
Proof using.
  intros Ht. unfold call_children. apply does_then.
  set (child_ctx := MkChildContext _ _ _ _ _ _).
  eapply does_weaken; [apply (does_par_all _ _ _ _ (λ k r, pc_original_index r = k ∧ Some (pc_tool_call_id r) = sk_id <$> tool_calls !! k) 0)|].
  - done.
  - intros k p Hp. rewrite list_lookup_imap in Hp. destruct (tool_calls !! k) as [call|] eqn:Hk; [|done]. injection Hp as <-.
    eapply does_weaken; [by apply ok_execute_child|]. intros r [Hi Hid]. cbn. rewrite Hk. cbn. by rewrite Hid.
  - intros results Hr. rewrite length_imap in Hr. split; [done|]. intros order.
    change (pc_tool_call_id <$> drive_parallel_child_tasks (shuffle order results) = sk_id <$> tool_calls).
    assert (∀ i r, results !! i = Some r → pc_original_index r = i ∧ Some (pc_tool_call_id r) = sk_id <$> tool_calls !! i) as Hres.
    { intros i r Hi. destruct (Forall2_lookup_r _ _ _ _ _ Hr Hi) as (k & Hk & H). apply lookup_seq in Hk as [-> _]. by cbn in *. }
    rewrite (drive_in_order results); [|apply shuffle_perm|intros i r Hi; by apply Hres].
    apply list_eq. intros i. rewrite !list_lookup_fmap. destruct (results !! i) as [r|] eqn:Hi.
    + destruct (Hres _ _ Hi) as [_ Hid]. cbn. rewrite Hid. by destruct (tool_calls !! i).
    + apply lookup_ge_None_1 in Hi. apply Forall2_length in Hr. rewrite length_seq in Hr.
      by rewrite (lookup_ge_None_2 tool_calls) by lia.
Qed.
Lemma model_headers (headers : Headers) :
  ct_json (delete SKILL_CHAIN_DEPTH_HEADER (delete SKILL_CHAIN_CHILD_HEADER headers)) !! SKILL_CHAIN_CHILD_HEADER = None ∧
  ct_json (delete SKILL_CHAIN_DEPTH_HEADER (delete SKILL_CHAIN_CHILD_HEADER headers)) !! SKILL_CHAIN_DEPTH_HEADER = None.
Proof using.
  unfold ct_json, Headers in *. split; rewrite lookup_insert_ne by done; [rewrite lookup_delete_ne by done|]; apply lookup_delete_eq.
Qed.
Lemma ok_model_turn body history :
  turn_bytes (nc_template chain) history = Some body → answered (nc_history chain) history → ok (model_turn ctx body).
Proof using.
  intros Hb Hh. apply ok_then; [|by intros [?|[[? ?] [?|]]]]. split; [|done]. split; [apply model_headers|by exists history].
Qed.
Lemma answered_more history bytes parsed raw (answers : list (string * string)) :
  answered (nc_history chain) history → parse_skill_response bytes = Some parsed → extract_raw_tool_calls bytes = Some raw →
  pr_tool_calls parsed ≠ [] → answers.*1 = sk_id <$> pr_tool_calls parsed →
  answered (nc_history chain) (history ++ [chat_value (CAssistant raw)] ++ ((λ a, chat_value (CTool a.1 a.2)) <$> answers)).
Proof using.
  intros (rounds & -> & Hr) Hp Hraw Hne Hids. exists (rounds ++ [chat_value (CAssistant raw) :: ((λ a, chat_value (CTool a.1 a.2)) <$> answers)]).
  split; [by rewrite concat_app; cbn; rewrite app_nil_r, <-(assoc_L (++))|]. apply Forall_app. split; [done|]. apply Forall_singleton.
  by exists bytes, parsed, raw, answers.
Qed.
Lemma ok_chain_loop turns otrace history usage :
  traced_by otrace → answered (nc_history chain) history → ok (chain_loop turns ctx chain otrace history usage).
Proof using.
  intros Ht. revert history usage. induction turns as [|turns IH]; intros history usage Hh; [done|]. cbn [chain_loop].
  apply ok_then; [done|]. intros [|]; [done|]. destruct (turn_bytes _ _) as [body|] eqn:Hb; [|done]. destruct (negb _); [done|].
  apply ok_bindR.
  { apply ok_heartbeat; [|by eapply ok_model_turn]. intros trace Htr. apply ok_event. by apply Ht. }
  intros [[status headers] bytes]. destruct (parse_skill_response bytes) as [parsed|] eqn:Hp; [|done].
  destruct (pr_tool_calls parsed) as [|c cs] eqn:Hcs; [done|]. rewrite <-Hcs.
  destruct (extract_raw_tool_calls bytes) as [raw|] eqn:Hraw; [|done]. case_decide as Hex.
  - apply IH. rewrite <-(assoc_L (++)).
    pose proof (answered_more history bytes parsed raw ((λ call, (sk_id call, unsupported_content call)) <$> pr_tool_calls parsed)) as Hm.
    rewrite <-!list_fmap_compose in Hm. apply Hm; try done. by rewrite Hcs.
  - apply does_then. eapply does_weaken; [by apply ok_call_children|]. intros results Hres. apply IH. rewrite <-(assoc_L (++)).
    pose proof (answered_more history bytes parsed raw ((λ r, (pc_tool_call_id r, pc_tool_result r)) <$> results)) as Hm.
    rewrite <-!list_fmap_compose in Hm. apply Hm; try done. by rewrite Hcs.
Qed.
Lemma ok_execute turns otrace : traced_by otrace → ok (execute_skill_chain turns ctx chain otrace).
Proof using. intros Ht. apply ok_chain_loop; [done|]. exists []. by rewrite app_nil_r. Qed.
Lemma ok_task turns trace : ts_include_content trace = contents → ok (chain_task turns ctx trace chain).
Proof using.
  intros Ht. unfold chain_task.
  assert (∀ ty id par depth skill phase query output code reason usage,
    ok (emit_trace_event trace ty id par depth skill phase query output code reason usage)) as He by (intros; by apply ok_event).
  assert (∀ code reason usage, ok (emit_root_call_finish trace code reason usage)) as Hfin by (intros; apply He).
  apply ok_then; [by apply ok_then; [apply He|]|]. intros [|]; [|done]. cbn [negb].
  apply ok_then; [eapply does_weaken; [eapply does_until; [done|]; apply ok_execute; by intros ? [= <-]|done]|].
  intros [[[final|]|e|w]|]; try done; (apply ok_then; [|done]); [|apply Hfin].
  destruct (fr_is_openai_chat_completion final); [by apply ok_then; [apply Hfin|]|apply Hfin].
Qed.
End safe.

(** ** What a request asks and says *)

Section requests.
Context {J : Type} {js : SkillJson J} {config : SkillConfig} {R : Type}.
Implicit Types (ctx : SkillInvocationContext R) (wire : WireRequest J) (chain : NormalizedSkillCall J).

Definition chain_depth ctx : Z := if cx_is_child_request ctx then default 0%Z (cx_child_chain_depth ctx) else 1%Z.
Lemma normalize_ok wire ctx chain : normalize_skill_call wire ctx = Ok chain →
  nc_current_depth chain = chain_depth ctx ∧ nc_history chain = wr_messages wire ∧
  (nc_effective_trace chain = LVerbose → cx_is_child_request ctx = true ∨ cx_is_debug_authorized ctx = true).
Proof.
  unfold normalize_skill_call, chain_depth. intros Hn.
  apply bind_Ok in Hn as (level & _ & Hn). apply bind_Ok in Hn as ([] & Hv & Hn). apply bind_Ok in Hn as (depth & Hd & Hn).
  apply bind_Ok in Hn as ([] & _ & Hn). injection Hn as <-. cbn. split_and!; [|done|].
  - destruct (cx_is_child_request ctx); [|by injection Hd]. destruct (cx_child_chain_depth ctx) as [[| |]|]; try done; by injection Hd.
  - intros ->. cbn in Hv. destruct (cx_is_child_request ctx), (cx_is_debug_authorized ctx); auto; done.
Qed.
Lemma handle_does turns wire ctx contents :
  match normalize_skill_call wire ctx with
  | Ok chain =>
      does (question_ok ctx chain) (discreet contents) (handle_skill_call_chain turns wire ctx)
        (on_ok (λ r, ∀ trace chain', r = Some (RStream trace chain') →
           chain' = chain ∧ ts_include_content trace = bool_decide (nc_effective_trace chain = LVerbose)))
  | _ => does (λ _ _, False) (λ _, False) (handle_skill_call_chain turns wire ctx)
           (on_ok (λ r, ∀ trace chain', r ≠ Some (RStream trace chain')))
  end.
Proof.
  unfold handle_skill_call_chain. destruct (normalize_skill_call wire ctx) as [chain|[]|] eqn:Hn; try done.
  destruct (nc_traced chain); [split; [done|]; intros id; by intros ?? [= <- <-]|].
  apply does_then. eapply does_weaken; [by apply (ok_execute ctx chain contents)|].
  intros [[final|]|[]|w] _; try done; by intros ?? [=].
Qed.
(** A request, and the task it may start. *)
Definition request_does (φ : ∀ X, SkillQ J R X → Prop) (χ : TraceChunk → Prop) (turns : nat) wire ctx : Prop :=
  does φ χ (handle_skill_call_chain turns wire ctx)
    (on_ok (λ r, ∀ trace chain, r = Some (RStream trace chain) → does φ χ (chain_task turns ctx trace chain) (λ _, True))).
Lemma request_does_ok (φ : ∀ X, SkillQ J R X → Prop) (χ : TraceChunk → Prop) turns wire ctx :
  (∀ chain, normalize_skill_call wire ctx = Ok chain →
     (∀ X q, question_ok ctx chain X q → φ X q) ∧ (∀ o, discreet (bool_decide (nc_effective_trace chain = LVerbose)) o → χ o)) →
  request_does φ χ turns wire ctx.
Proof.
  intros Hφ. unfold request_does.
  destruct (normalize_skill_call wire ctx) as [chain|e|w] eqn:Hn.
  2-3: pose proof (handle_does turns wire ctx false) as Hh; rewrite Hn in Hh;
    eapply does_mono; [| |eapply does_weaken; [exact Hh|]]; try done; intros [r|?|?] Hr; try done; intros trace chain Hs; by destruct (Hr trace chain).
  destruct (Hφ chain eq_refl) as [Hq Ho]. pose proof (handle_does turns wire ctx (bool_decide (nc_effective_trace chain = LVerbose))) as Hh.
  rewrite Hn in Hh. eapply does_mono; [exact Hq|exact Ho|]. eapply does_weaken; [exact Hh|].
  intros [r|?|?] Hr; try done. intros trace chain' Hs. destruct (Hr trace chain' Hs) as [-> Ht].
  eapply does_mono; [exact Hq|exact Ho|]. by apply ok_task.
Qed.

(** C21: Whatever the models and the children answer and however the child calls of a turn interleave, a request for a skill
    calls only skills that its skill may call (all, if that has no list), each one deeper than the request, which is at most
    five, and passes on nothing but the caller's authorization, request id and trace parent; the model never sees the headers
    of a child call. *)
Theorem chain_calls_are_bounded turns wire ctx :
  request_does (λ X q, match q with
                       | AskChild req => child_allowed ctx (chain_depth ctx) req
                       | AskModel req => mq_headers req !! SKILL_CHAIN_CHILD_HEADER = None ∧ mq_headers req !! SKILL_CHAIN_DEPTH_HEADER = None
                       | _ => True
                       end) (λ _, True) turns wire ctx.
Proof.
  apply request_does_ok. intros chain (Hd & _ & _)%normalize_ok. split; [|done]. intros X q. destruct q; try done.
  - by intros [? _].
  - cbn. by rewrite Hd.
Qed.
(** C22: Every body sent to the model is the turn of a conversation that starts with the request's messages and goes on with
    rounds: the calls of a response, as they came, and then one answer to each of them, in their order and with their ids, in
    whichever order the calls ended. *)
Theorem tool_calls_are_answered turns wire ctx :
  request_does (λ X q, match q with
                       | AskModel req => ∃ template history, turn_bytes template history = Some (mq_body req) ∧ answered (wr_messages wire) history
                       | _ => True
                       end) (λ _, True) turns wire ctx.
Proof.
  apply request_does_ok. intros chain (_ & Hh & _)%normalize_ok. split; [|done]. intros X q. destruct q; try done.
  intros [_ (history & Hb & Ha)]. exists (nc_template chain), history. by rewrite <-Hh.
Qed.
(** C23: The trace of a request that is no child's, of a caller without the privilege to debug, has no query and no output,
    not of the calls of the skill and not of those below them, whatever these send. *)
Theorem trace_hides_contents turns wire ctx :
  cx_is_child_request ctx = false → cx_is_debug_authorized ctx = false →
  request_does (λ _ _, True) (λ o, match o with TEvent payload => ev_query payload = None ∧ ev_output payload = None | _ => True end) turns wire ctx.
Proof.
  intros Hchild Hdebug. apply request_does_ok. intros chain (_ & _ & Hv)%normalize_ok. split; [done|]. intros o Ho.
  destruct o; try done. apply Ho. apply bool_decide_eq_false. intros [?|?]%Hv; congruence.
Qed.
End requests.

(** ** Traces as text *)

Section text.
Context {J : Type} {js : SkillJson J}.

(** The messages a reader makes of the lines of a buffer, as [read_lines] does. *)
Fixpoint sse_messages (fuel : nat) (buf : list ascii) (parser : SseParser) : list SseMessage :=
  match fuel, next_line buf with
  | S fuel, Some (line, rest) =>
      let '(message, parser) := push_line parser (chomp line) in option_list message ++ sse_messages fuel rest parser
  | _, _ => []
  end.
Definition sse_read (text : string) : list SseMessage := sse_messages (len text) (chars text) (MkParser None []).
(** What a chunk is to a reader. *)
Definition message_of (chunk : TraceChunk) : SseMessage :=
  match chunk with
  | TComment comment => MComment comment
  | TEvent payload => MEvent (Some "skill_trace") (trace_text payload)
  | TResult data => MEvent (Some "skill_result") data
  | TDone => MEvent None "[DONE]"
  end.
Definition one_line (s : string) : Prop := newline ∉ chars s ∧ carriage_return ∉ chars s ∧ trim s = s.
Definition chunk_plain (chunk : TraceChunk) : Prop :=
  match chunk with TComment s | TResult s => one_line s | TEvent payload => one_line (trace_text payload) | TDone => True end.

Lemma next_line_app line rest : newline ∉ line → next_line (line ++ newline :: rest) = Some (line, rest).
Proof.
  induction line as [|c line IH]; intros Hn; cbn.
  - by destruct (ascii_dec newline newline).
  - destruct (ascii_dec c newline) as [->|]; [set_solver|]. rewrite IH by set_solver. done.
Qed.
Lemma chomp_id line : carriage_return ∉ line → chomp line = of_chars line.
Proof.
  intros Hc. unfold chomp, pop_last. destruct (reverse line) as [|c l] eqn:Hr; [done|].
  destruct (ascii_dec c carriage_return) as [->|]; [|done]. destruct Hc. rewrite <-elem_of_reverse, Hr. by left.
Qed.
Lemma sse_line fuel line rest parser : newline ∉ chars line → carriage_return ∉ chars line →
  sse_messages (S fuel) (chars (line +:+ String newline rest)) parser =
  option_list (push_line parser line).1 ++ sse_messages fuel (chars rest) (push_line parser line).2.
Proof.
  intros Hn Hc. cbn [sse_messages]. rewrite chars_app. change (chars (String newline rest)) with (newline :: chars rest).
  rewrite next_line_app, chomp_id, of_chars_chars by done. by destruct (push_line parser line).
Qed.
Lemma trim_space s : trim (String " " s) = trim s.
Proof. done. Qed.

Fixpoint push_lines (lines : list string) (parser : SseParser) : list SseMessage * SseParser :=
  match lines with
  | [] => ([], parser)
  | line :: lines =>
      let '(message, parser) := push_line parser line in
      let '(messages, parser) := push_lines lines parser in (option_list message ++ messages, parser)
  end.
Definition plain_line (line : string) : Prop := newline ∉ chars line ∧ carriage_return ∉ chars line.
Lemma sse_lines lines rest parser fuel : Forall plain_line lines → len (lines_text lines +:+ rest) ≤ fuel →
  ∃ fuel', len rest ≤ fuel' ∧
  sse_messages fuel (chars (lines_text lines +:+ rest)) parser =
  (push_lines lines parser).1 ++ sse_messages fuel' (chars rest) (push_lines lines parser).2.
Proof.
  intros Hl. revert parser fuel. induction Hl as [|line lines [Hn Hc] Hl IH]; intros parser fuel Hf; [by exists fuel|].
  cbn [lines_text foldr] in *. rewrite <-sapp_assoc in *. change ((String newline ?a) +:+ ?b) with (String newline (a +:+ b)) in *.
  rewrite !len_chars, chars_app, length_app in Hf. change (chars (String ?a ?b)) with (a :: chars b) in Hf. cbn [length] in Hf.
  destruct fuel as [|fuel]; [lia|]. rewrite sse_line by done. cbn [push_lines]. destruct (push_line parser line) as [message parser'].
  destruct (IH parser' fuel) as (fuel' & Hf' & Heq).
  { rewrite len_chars. unfold lines_text. lia. }
  exists fuel'. split; [done|]. fold (lines_text lines). cbn [fst snd]. rewrite Heq. destruct (push_lines lines parser') as [messages parser''].
  cbn. by rewrite <-(assoc_L (++)).
Qed.
Lemma plain_app pre s : plain_line pre → plain_line s → plain_line (pre +:+ s).
Proof. intros [? ?] [? ?]. unfold plain_line. rewrite chars_app. set_solver. Qed.
Lemma push_data parser data : trim data = data →
  push_line parser ("data: " +:+ data) = (None, MkParser (pending_event parser) (data_lines parser ++ [data])).
Proof.
  intros Ht. transitivity (@None SseMessage, MkParser (pending_event parser) (data_lines parser ++ [trim (String " " data)])); [done|].
  by rewrite trim_space, Ht.
Qed.
Lemma push_end event data : push_line (MkParser (Some event) ([] ++ [data])) "" = (Some (MEvent (Some event) data), MkParser None []).
Proof. unfold push_line. cbn -[decide]. rewrite decide_True by done. by rewrite decide_False by (by intros [? [=]]). Qed.
Lemma push_comment parser s : trim s = s → push_line parser (": " +:+ s) = (Some (MComment s), parser).
Proof. intros Ht. transitivity (Some (MComment (trim (String " " s))), parser); [done|]. by rewrite trim_space, Ht. Qed.
Lemma chunk_read chunk : chunk_plain chunk →
  Forall plain_line (chunk_lines chunk ++ [""]) ∧ push_lines (chunk_lines chunk ++ [""]) (MkParser None []) = ([message_of chunk], MkParser None []).
Proof.
  assert (∀ s, bool_decide (plain_line s) = true → plain_line s) as Hdec by (intros s; by apply bool_decide_eq_true).
  destruct chunk as [c|payload|data|]; intros Hp; cbn [chunk_plain chunk_lines app] in *; try destruct Hp as (Hn & Hc & Ht); split;
    try (repeat constructor; try (apply plain_app; [|by split]); by apply Hdec); cbn [push_lines].
  - by rewrite push_comment.
  - change (push_line _ "event: skill_trace") with (@None SseMessage, MkParser (Some "skill_trace") []).
    cbv beta iota. rewrite push_data by done. cbn [pending_event data_lines]. by rewrite push_end.
  - change (push_line _ "event: skill_result") with (@None SseMessage, MkParser (Some "skill_result") []).
    cbv beta iota. rewrite push_data by done. cbn [pending_event data_lines]. by rewrite push_end.
Qed.
(** C33: The text a trace is sent as, if its comments, its results and the JSON texts of its events are each one line without
    blanks at either end, is read by the parser of traces as what was sent, message for message. *)
Theorem trace_text_roundtrip chunks : Forall chunk_plain chunks → sse_read (foldr String.app "" (chunk_text <$> chunks)) = message_of <$> chunks.
Proof.
  intros Hc. unfold sse_read. set (text := foldr _ _ _). assert (len text ≤ len text) as Hf by done. revert Hf. generalize (len text) at 2 3 as fuel.
  subst text. induction Hc as [|chunk chunks Hchunk Hc IH]; intros fuel Hf; [by destruct fuel|]. cbn [fmap list_fmap foldr] in *.
  destruct (chunk_read chunk Hchunk) as [Hl Hpush]. destruct (sse_lines _ _ (MkParser None []) _ Hl Hf) as (fuel' & Hf' & Heq).
  etransitivity; [exact Heq|]. rewrite Hpush. cbn [fst snd app]. f_equal. by apply IH.
Qed.
End text.

(** ** What does not hold *)

Section faults.
Context {J : Type} {js : SkillJson J} {config : SkillConfig} {R : Type}.

(** C34: A chat with a skill that has been admitted (the token has the inference scope, the skill is there and ready, the
    caller's tenant and its quota are in order, the route is resolved: what [SkillCall] checks before the body), whose body
    parses and asks for trace level 2, and which carries the headers child "1" and depth "1" is believed to come from a
    chain, whatever the roles of its token: it gets the trace with its contents.  Without the child header the same request
    is refused with 403 unless the token administers the skill's namespace or the platform. *)
Theorem forged_child_sees_contents turns token owner_tenant namespace skillname (route : R) calling_tenant logical_namespace logical_funcname
    remainPath prefix allowed headers body wire level :
  headers !! SKILL_CHAIN_CHILD_HEADER = Some "1" → headers !! SKILL_CHAIN_DEPTH_HEADER = Some "1" →
  wire_of body = Some wire → wr_skill_trace wire = Some level → as_u64 level = Some 2%Z →
  let chat headers := SkillCall_chat turns token owner_tenant namespace skillname route calling_tenant logical_namespace logical_funcname
                        remainPath prefix allowed headers (Some body) in
  (∃ chain, chat headers =
     call_id ← ask AskUuid;
     okC (Some (RStream (MkTrace call_id (owner_tenant +:+ ("/" +:+ (namespace +:+ ("/" +:+ skillname)))) true) chain))) ∧
  (IsNamespaceAdmin token owner_tenant namespace = false → IsInferxAdmin token = false →
   chat (delete SKILL_CHAIN_CHILD_HEADER headers) = okC (Some (RPlain 403 [] "service failure: verbose trace requires debug privilege"))).
Proof.
  intros Hchild Hdepth Hwire Hlevel H2. unfold SkillCall_chat. cbn [mbind option_bind]. rewrite Hwire. split.
  - assert (extract_is_child_request headers = true) as Hex by (by apply bool_decide_eq_true).
    unfold child_depth_header. rewrite Hex, Hdepth. unfold handle_skill_call_chain, normalize_skill_call, trace_level. rewrite Hlevel, H2.
    by eexists.
  - intros Hadmin Hinferx.
    assert (extract_is_child_request (delete SKILL_CHAIN_CHILD_HEADER headers) = false) as Hex.
    { apply bool_decide_eq_false. unfold Headers in *. by rewrite lookup_delete_eq. }
    unfold handle_skill_call_chain, normalize_skill_call, trace_level. rewrite Hlevel, H2, Hex, Hadmin, Hinferx. done.
Qed.

(** A response that calls a tool which is not offered, what a turn of it adds to the conversation, and a model that always
    responds with it; the world keeps the bodies it was asked with. *)
Definition unsupported_response (bytes : string) : Prop :=
  ∃ parsed raw, parse_skill_response bytes = Some parsed ∧ extract_raw_tool_calls bytes = Some raw ∧
  Exists (λ call, sk_name call ≠ SKILL_CHAIN_TOOL_NAME) (pr_tool_calls parsed).
Definition refusal (bytes : string) : list J :=
  match parse_skill_response bytes, extract_raw_tool_calls bytes with
  | Some parsed, Some raw =>
      chat_value (CAssistant raw) :: ((λ call, chat_value (CTool (sk_id call) (unsupported_content call))) <$> pr_tool_calls parsed)
  | _, _ => []
  end.
Definition stubborn (bytes : string) (X : Type) (q : SkillQ J R X) (asked : list string) : X * list string :=
  match q with
  | AskCancelled => (false, asked)
  | AskOpen => (true, asked)
  | AskRoom => (tt, asked)
  | AskUuid => ("", asked)
  | AskTicks => (0, asked)
  | AskPick => (true, asked)
  | AskOrder => ([], asked)
  | AskModel req => (inr (200%Z, [], Some bytes), asked ++ [mq_body req])
  | AskChild _ => (inl "", asked)
  | AskBytes _ => (inl "", asked)
  | AskChunks _ => (0, asked)
  | AskChunk _ => (inl "", asked)
  end.
(** C39: A chain has no limit on its turns.  When a model answers every turn with the same response, which calls a tool it was
    not offered, an untraced chain whose request is not cancelled is never answered: for as many turns as one likes, the
    model is asked once a turn, each time with the request's messages followed by the exchange of every turn before (the
    assistant message with the calls, and a refusal for each call), so that what it is asked grows without bound.  (The
    request's URI parses and its bodies can be printed.) *)
Theorem chain_has_no_turn_limit bytes (ctx : SkillInvocationContext R) chain :
  unsupported_response bytes → (∀ template history, is_Some (turn_bytes template history)) → uri_parses (cx_remain_path ctx) = true →
  2 ≤ length (refusal bytes) ∧
  ∀ turns, ∃ bodies, serve (stubborn bytes) (execute_skill_chain turns ctx chain None) tt [] = (Ok (Ok None), tt, bodies) ∧
    Forall2 (λ turn body, turn_bytes (nc_template chain) (nc_history chain ++ mjoin (replicate turn (refusal bytes))) = Some body)
      (seq 0 turns) bodies.
Proof.
  intros (parsed & raw & Hp & Hraw & Hex) Hturn Huri.
  assert (refusal bytes = chat_value (CAssistant raw) ::
    ((λ call, chat_value (CTool (sk_id call) (unsupported_content call))) <$> pr_tool_calls parsed)) as Href
    by (unfold refusal; by rewrite Hp, Hraw).
  split.
  { rewrite Href. simpl. rewrite length_fmap. destruct (pr_tool_calls parsed); [by apply Exists_nil in Hex|simpl; lia]. }
  assert (∀ turns done usage asked, ∃ bodies,
    serve (stubborn bytes) (chain_loop turns ctx chain None (nc_history chain ++ mjoin (replicate done (refusal bytes))) usage) tt asked
      = (Ok (Ok None), tt, asked ++ bodies) ∧
    Forall2 (λ turn body, turn_bytes (nc_template chain) (nc_history chain ++ mjoin (replicate turn (refusal bytes))) = Some body)
      (seq done turns) bodies) as Hloop.
  2:{ intros turns. destruct (Hloop turns 0 None []) as (bodies & Hrun & Hbodies). exists bodies. split; [|done].
      simpl in Hrun. by rewrite app_nil_r in Hrun. }
  induction turns as [|turns IH]; intros done_turns usage asked; [exists []; split; [by rewrite app_nil_r|constructor]|].
  destruct (Hturn (nc_template chain) (nc_history chain ++ mjoin (replicate done_turns (refusal bytes)))) as [body Hbody].
  destruct (IH (S done_turns) (aggregate usage (pr_usage parsed)) (asked ++ [body])) as (bodies & Hrun & Hbodies).
  exists (body :: bodies). split; [|by constructor].
  cbn [chain_loop]. rewrite serve_bind. cbn [ask serve stubborn].
  rewrite Hbody, Huri. cbn [negb]. rewrite serve_bindR. cbn. rewrite Hp.
  destruct (pr_tool_calls parsed) as [|c cs] eqn:Hcs; [by apply Exists_nil in Hex|]. rewrite Hraw, decide_True by done.
  rewrite replicate_S_end, join_app in Hrun. cbn [mjoin list_join] in Hrun. rewrite app_nil_r, app_assoc in Hrun.
  rewrite <-(app_assoc asked) in Hrun. etransitivity; [|exact Hrun]. by rewrite Href, <-app_assoc.
Qed.
End faults.

(** ** A small world *)

Inductive Toy := ToyNull | ToyString (s : string) | ToyNumber (n : Z) | ToyArray (items : list Toy) | ToyObject (entries : list (string * Toy)).
Definition toy_call (name : string) : ChatCompletionResponse Toy :=
  MkCompletion [MkChoice (Some "tool_calls")
    (Some (MkPayload None (Some [MkRawCall (Some "1") (Some (MkRawFunction (Some name) (Some "args")))]))) None] None.
(** Bodies are named: "search" and "call" call a tool, "done" is an answer, "traced" a request. *)
#[local] Instance toy : SkillJson Toy := {
  jview := λ v, match v with ToyNull => VNull | ToyString s => VString s | ToyNumber _ => VOther | ToyArray l => VArray l | ToyObject l => VObject l end;
  jprint := λ _, "";
  as_u64 := λ v, match v with ToyNumber n => Some n | _ => None end;
  json_number := ToyNumber;
  json_value := λ b,
    if decide (b = "args") then Some (ToyObject [("skillep_id", ToyString "acme/math/sum"); ("query", ToyString "1+1")])
    else if decide (b = "search" ∨ b = "call") then
      Some (ToyObject [("choices", ToyArray [ToyObject [("message", ToyObject [("tool_calls", ToyArray [ToyNull])])]])])
    else None;
  completion_of := λ b,
    if decide (b = "search") then Some (toy_call "search")
    else if decide (b = "call") then Some (toy_call SKILL_CHAIN_TOOL_NAME)
    else if decide (b = "done") then Some (MkCompletion [MkChoice (Some "stop") (Some (MkPayload (Some (ToyString "2")) None)) None] None)
    else None;
  trace_of := λ e, inl e;
  trace_text := λ _, "{}";
  chat_value := λ m, match m with CAssistant calls => ToyArray calls | CTool id content => ToyObject [("id", ToyString id); ("content", ToyString content)] end;
  user_message := ToyString;
  turn_bytes := λ _ history, Some (pretty (length history));
  wire_of := λ b, if decide (b = "traced") then Some (MkWire [] None None None (Some (ToyNumber 2)) None None None []) else None;
  temperature_zero := ToyNumber 0;
  status_text := pretty;
  uri_parses := λ _, true;
}.
#[local] Instance toy_config : SkillConfig := { gatewayPort := 4000; skillEPSystemPromptConstraint := true }.
Definition toy_ctx (allowed : option (gset string)) (depth : Z) : SkillInvocationContext unit :=
  MkContext tt "acme" "acme/math/top" "f" "/v1/chat/completions" "" "skills" true (Some depth) false allowed ∅.
Definition toy_wire : WireRequest Toy := MkWire [ToyString "hi"] None None None None None None None [].
(** The model calls once and then answers; the world keeps the urls of the children and the turns of the model. *)
Definition toy_server (X : Type) (q : SkillQ Toy unit X) (w : list string * nat) : X * (list string * nat) :=
  match q with
  | AskCancelled => (false, w)
  | AskOpen => (true, w)
  | AskRoom => (tt, w)
  | AskUuid => ("", w)
  | AskTicks => (0, w)
  | AskPick => (true, w)
  | AskOrder => ([], w)
  | AskModel _ => (inr (200%Z, [], Some (if decide (w.2 = 0) then "call" else "done")), (w.1, S w.2))
  | AskChild req => (inr (MkChildResponse 200 None 0), (w.1 ++ [ch_url req], w.2))
  | AskBytes _ => (inr "done", w)
  | AskChunks _ => (0, w)
  | AskChunk _ => (inl "", w)
  end.
Definition toy_run (allowed : option (gset string)) (depth : Z) :=
  serve toy_server (handle_skill_call_chain 3 toy_wire (toy_ctx allowed depth)) tt ([], 0).
(** An allowed child is called, one that is not listed or too deep is not; the answer is the model's. *)
Example chain_runs :
  toy_run None 4 = (Ok (Ok (Some (RPlain 200 [] "done"))), tt, (["http://127.0.0.1:4000/skills/acme/math/sum/v1/chat/completions"], 2)) ∧
  toy_run (Some {["acme/math/other"]}) 4 = (Ok (Ok (Some (RPlain 200 [] "done"))), tt, ([], 2)) ∧
  toy_run None 5 = (Ok (Ok (Some (RPlain 200 [] "done"))), tt, ([], 2)).
Proof. split_and!; vm_compute; reflexivity. Qed.

Lemma trace_hides_contents_witness :
  request_does (λ _ _, True) (λ o, match o with TEvent payload => ev_query payload = None ∧ ev_output payload = None | _ => True end) 3
    (MkWire [ToyString "hi"] None None None (Some (ToyNumber 1)) None None None [])
    (MkContext tt "acme" "acme/math/top" "f" "/v1/chat/completions" "" "skills" false None false None ∅).
Proof. apply trace_hides_contents; reflexivity. Defined.
Definition toy_trace : list TraceChunk :=
  [TComment "heartbeat"; TEvent (MkTracePayload "call_start" "1" None 1 "acme/math/top" None None None None None None None None); TResult "{}"; TDone].
Lemma trace_text_roundtrip_witness :
  sse_read (foldr String.app "" (chunk_text <$> toy_trace)) = [MComment "heartbeat"; MEvent (Some "skill_trace") "{}"; MEvent (Some "skill_result") "{}"; MEvent None "[DONE]"].
Proof.
  change (sse_read (foldr String.app "" (chunk_text <$> toy_trace)) = message_of <$> toy_trace).
  apply (trace_text_roundtrip toy_trace).
  repeat constructor; cbn; try (by apply (bool_decide_unpack _); vm_compute); vm_compute; reflexivity.
Defined.
Definition mallory : AccessToken := MkAccessToken "" "mallory" None "" false ∅ [] "full" false None None None 0.
Definition forged : Headers := {[SKILL_CHAIN_CHILD_HEADER := "1"; SKILL_CHAIN_DEPTH_HEADER := "1"]}.
Lemma forged_child_sees_contents_witness :
  let chat headers : call unit (SkillQ Toy unit) TraceChunk (outcome Z (option ChainReply)) :=
    SkillCall_chat 3 mallory "acme" "math" "top" tt "mallory" "skills" "f"
      "/v1/chat/completions" "" None headers (Some "traced") in
  (∃ chain, chat forged = call_id ← ask AskUuid; okC (Some (RStream (MkTrace call_id "acme/math/top" true) chain))) ∧
  chat (delete SKILL_CHAIN_CHILD_HEADER forged) = okC (Some (RPlain 403 [] "service failure: verbose trace requires debug privilege")).
Proof.
  intros chat. destruct (forged_child_sees_contents (R:=unit) 3 mallory "acme" "math" "top" tt "mallory" "skills" "f" "/v1/chat/completions" "" None
    forged "traced" (MkWire [] None None None (Some (ToyNumber 2)) None None None []) (ToyNumber 2)) as [H1 H2]; try reflexivity.
  split; [exact H1|]. apply H2; reflexivity.
Defined.
Lemma chain_has_no_turn_limit_witness :
  let chain := MkNormalized (MkTemplate None None None None []) [ToyString "hi"] LNone false 1 ∅ in
  ∃ bodies, serve (stubborn (R:=unit) "search") (execute_skill_chain 100 (toy_ctx None 1) chain None) tt [] = (Ok (Ok None), tt, bodies) ∧
    length bodies = 100.
Proof.
  intros chain. destruct (chain_has_no_turn_limit "search" (toy_ctx None 1) chain) as [_ Hturns]; [|by eexists|reflexivity|].
  { eexists _, _. split_and!; [reflexivity|reflexivity|]. by apply Exists_cons_hd. }
  destruct (Hturns 100) as (bodies & Hrun & Hbodies). exists bodies. split; [exact Hrun|].
  by rewrite <-(Forall2_length _ _ _ Hbodies), length_seq.
Defined.
(** A result that is more than one line is cut at the first: the model's answer is sent as it is, without [data:] on each
    line. *)
Lemma multiline_result_is_cut :
  sse_read (chunk_text (TResult (String "{" (String newline "}")))) = [MEvent (Some "skill_result") "{"].
Proof. vm_compute. reflexivity. Qed.
