(* ===== verification/AccountProps.v ===== *)
(** * Tokens and roles

    Proofs about [Accounts]: what the caches of tokens hold and how old it may
    be, when a grant or a revocation takes effect, and which keys a key can
    make. *)

From S2P Require Import Prelude.
From S2P Require Import Text.
From S2P Require Import BTree.
From S2P Require Import Common.
From S2P Require Import DataObj.
From S2P Require Import Watch.
From S2P Require Import Svc.
From S2P Require Import Specs.
From S2P Require Import Access.
From S2P Require Import Calls.
From S2P Require Import Etcd.
From S2P Require Import StateSvc.
From S2P Require Import Platform.
From S2P Require Import Accounts.

(** ** Well-formed tokens *)

(** A user's token: all of the user's roles, nothing restricted. *)
Definition user_token (u : string) (g : AccessToken) : Prop :=
  username g = u ∧ scope g = "full" ∧ sourceIsApikey g = false ∧ restrictTenant g = None ∧ restrictNamespace g = None.
(** A key's token: its user's token, restricted as the key is. *)
Definition key_token (g : AccessToken) : Prop :=
  ∃ now base key, user_token (ak_username key) base ∧ ApplyApikeyRestrictions now base key = Ok g.
Definition admin_token (g : AccessToken) : Prop := ∃ now, g = InferxAdminToken now.
Definition MINUTE : Z := 60 * 1000000000.

(** The calls that read or change the caches. *)
Inductive AccountCall :=
| CallTokenByUsername (username : string)
| CallTokenByApikey (apikey : string)
| CallCreateApikey (token : AccessToken) (req : ApikeyCreateRequest)
| CallDeleteApiKey (token : AccessToken) (req : ApikeyDeleteRequest)
| CallRbac (token : AccessToken) (permissionType : PermissionType) (objType : ObjectType) (tenant namespace name : string)
    (role : UserRole) (username : string)
| CallGrantNamespaceAdmin (token : AccessToken) (tenant namespace username : string)     (* when a namespace is made *)
| CallRevokeNamespaceAdmin (token : AccessToken) (tenant namespace username : string).

Section caches.
Context {Value F Ch R Bytes O : Type} {config : GatewayConfig}.
Abbreviation Gateway := (Gateway Value F Ch R).
Abbreviation C A := (call Gateway (Request Bytes) O (Share.Result A)).
Implicit Types (token g : AccessToken) (s : Gateway) (v : Z).
Open Scope call_scope.

Definition account_call (c : AccountCall) : C (option AccessToken) :=
  match c with
  | CallTokenByUsername u => g ⇐ GetTokenByUsername u; okC (Some g)
  | CallTokenByApikey k => g ⇐ GetTokenByApikey k; okC (Some g)
  | CallCreateApikey token req => CreateApikey token req ⇒ okC None
  | CallDeleteApiKey token req => DeleteApiKey token req ⇒ okC None
  | CallRbac token p ty t n nm role u => Rbac token p ty t n nm role u ⇒ okC None
  | CallGrantNamespaceAdmin token t n u => GrantNamespaceAdminPermission token t n u ⇒ okC None
  | CallRevokeNamespaceAdmin token t n u => RevokeNamespaceAdminPermission token t n u ⇒ okC None
  end.

Definition caches_ok s : Prop :=
  map_Forall user_token (usernameStore s) ∧ map_Forall (λ _, key_token) (apikeyStore s).
(** What the rest of the program does: time goes on, the mirrors change, the caches do not. *)
Definition elsewhere s s' : Prop :=
  (clock s ≤ clock s')%Z ∧ apikeyStore s' = apikeyStore s ∧ usernameStore s' = usernameStore s.

(** A task that knows the clock is past [v]. *)
Definition at_ s v : Prop := (v ≤ clock s)%Z ∧ caches_ok s.
Definition may s v s' v' : Prop := clock s' = clock s ∧ (caches_ok s → caches_ok s') ∧ v' = v.
Abbreviation proves p v Φ := (wp at_ may (λ _ _, False) (λ _ _ _, False) p v Φ).
(** Whatever it is answered, the value of [p], if there is one, satisfies [Ψ]. *)
Definition gives {A} (p : C A) v (Ψ : A → Prop) : Prop := proves p v (λ r v', v' = v ∧ on_ok Ψ r).

Lemma gives_bind {A B} (p : C A) (f : A → C B) v (Ψ : A → Prop) (Φ : B → Prop) :
  gives p v Ψ → (∀ a, Ψ a → gives (f a) v Φ) → gives (bindR p f) v Φ.
Proof.
  intros Hp Hf. apply wp_then. eapply wp_weaken; [exact Hp|]. intros [a|e|w] ? [-> Ha]; [by apply Hf|done..].
Qed.
Lemma gives_then {A B} (p : C A) (q : C B) v (Φ : B → Prop) :
  gives p v (λ _, True) → gives q v Φ → gives (bindR p (λ _, q)) v Φ.
Proof. intros Hp Hq. by eapply gives_bind. Qed.
Lemma gives_weaken {A} (p : C A) v (Ψ Φ : A → Prop) : gives p v Ψ → (∀ a, Ψ a → Φ a) → gives p v Φ.
Proof. intros Hp Hm. eapply wp_weaken; [exact Hp|]. intros [a|e|w] ? [-> Ha]; split; simpl in *; auto. Qed.
Lemma gives_ok {A} (a : A) v (Ψ : A → Prop) : Ψ a → gives (okC a) v Ψ.
Proof. by split. Qed.
Lemma gives_fail {A} e v (Ψ : A → Prop) : gives (failC e) v Ψ.
Proof. by split. Qed.
Lemma gives_lift {A} (m : Share.Result A) v (Ψ : A → Prop) : (∀ a, m = Ok a → Ψ a) → gives (liftC m) v Ψ.
Proof. by destruct m; cbn; auto. Qed.
Lemma may_same s v : may s v s v.
Proof. by split_and!. Qed.
Lemma gives_read {A} (f : Gateway → Share.Result A) v (Ψ : A → Prop) :
  (∀ s a, at_ s v → f s = Ok a → Ψ a) → gives (readC f) v Ψ.
Proof. intros Hf s Hs. exists v. split_and!; [done|apply may_same|]. apply gives_lift. eauto. Qed.
Lemma gives_look {A B} (f : Gateway → A) (k : A → C B) v (Ψ : B → Prop) :
  (∀ s, at_ s v → gives (k (f s)) v Ψ) → gives (look f ≫= k) v Ψ.
Proof. intros Hf s Hs. exists v. split_and!; [done|apply may_same|by apply Hf]. Qed.
Lemma gives_sql {A} (q : Sql (Share.Result A)) v : gives (sql q) v (λ _, True).
Proof. intros [a|e|w]; cbn; auto. Qed.
Lemma gives_or {A} (p : C A) f v (Ψ : A → Prop) : gives p v Ψ → (∀ e, gives (f e) v Ψ) → gives (orC p f) v Ψ.
Proof. intros Hp Hf. apply wp_then. eapply wp_weaken; [exact Hp|]. intros [a|e|w] ? [-> Ha]; [by split|apply Hf|done]. Qed.
(** A change of the caches that keeps them as they should be. *)
Lemma gives_act {B} (f : Gateway → Gateway) (k : C B) v (Ψ : B → Prop) :
  (∀ s, clock (f s) = clock s ∧ (caches_ok s → caches_ok (f s))) → gives k v Ψ → gives (act f ≫= λ _, k) v Ψ.
Proof.
  intros Hf Hk s [Hv Hc]. destruct (Hf s) as [He Hf']. exists v. split_and!; [split; [by rewrite He|auto]|by split_and!|done].
Qed.
Lemma gives_when {A} (b : bool) e (k : C A) v (Ψ : A → Prop) : (b = true → gives k v Ψ) → gives (guard b e ⇒ k) v Ψ.
Proof. destruct b; [intros Hk; by apply Hk|intros _; by split]. Qed.

Lemma gives_drop_username {B} u (k : C B) v (Ψ : B → Prop) : gives k v Ψ → gives (drop_username u ≫= λ _, k) v Ψ.
Proof. apply gives_act. intros s. split; [done|]. intros [Hu Hk]. split; [by apply map_Forall_delete|done]. Qed.
Lemma foldl_delete_ok (P : string → AccessToken → Prop) (keys : list string) (m : gmap string AccessToken) :
  map_Forall P m → map_Forall P (foldl (λ m k, delete k m) m keys).
Proof. revert m. induction keys as [|k keys IH]; intros m Hm; simpl; [done|]. by apply IH, map_Forall_delete. Qed.
Lemma gives_drop_apikeys {B} keys (k : C B) v (Ψ : B → Prop) : gives k v Ψ → gives (drop_apikeys keys ≫= λ _, k) v Ψ.
Proof.
  intros Hk. induction keys as [|key keys IH]; [done|].
  change (gives (act (λ s, with_apikeyStore s (delete key (apikeyStore s))) ≫= λ _, drop_apikeys keys ≫= λ _, k) v Ψ).
  apply gives_act; [|done]. intros s. split; [done|]. intros [Hu Hs]. split; [done|by apply map_Forall_delete].
Qed.
Lemma gives_evict token v : gives (EvactionToken token) v (λ _, True).
Proof. apply gives_drop_apikeys, gives_drop_username. by split. Qed.

(** *** Tokens of users *)

Definition recent v g : Prop := (v - MINUTE ≤ updatetime g)%Z.
Lemma not_timeout now g v : Timeout now g = false → (v ≤ now)%Z → recent v g.
Proof. unfold Timeout, recent, MINUTE. case_decide; [done|]. rewrite negb_false_iff, bool_decide_eq_true. lia. Qed.
Lemma new_user_token now u groups keys : user_token u (AccessToken_New now u groups keys).
Proof. by split_and!. Qed.
Lemma gives_by_username u v : gives (GetTokenByUsername u) v (λ g, user_token u g ∧ recent v g).
Proof.
  apply gives_look. intros s [Hv [Hu Hk]]. unfold cached.
  assert (gives (apikeys ⇐ sql (SelectApikeys u);
      groups ⇐ GetRoles u;
      now ← look clock;
      let newToken := AccessToken_New now u groups (ak_apikey <$> apikeys) in
      Replace (fst <$> ((λ g, (g, Timeout (clock s) g)) <$> usernameStore s !! u)) newToken ⇒ okC newToken) v
    (λ g, user_token u g ∧ recent v g)) as Hread.
  { eapply gives_bind; [apply gives_sql|]. intros keys _. eapply gives_bind; [apply gives_sql|]. intros groups _.
    apply gives_look. intros s' [Hv' _]. apply gives_then.
    - apply gives_then; [destruct (usernameStore s !! u); [apply gives_evict|by apply gives_ok]|].
      apply gives_act; [|by apply gives_ok]. intros s''. split; [done|]. intros [Hu' Hk']. split; [|done].
      apply map_Forall_insert_2; [apply new_user_token|done].
    - apply gives_ok. split; [apply new_user_token|]. unfold recent, MINUTE. simpl. lia. }
  destruct (usernameStore s !! u) as [g|] eqn:Hg; [|exact Hread]. simpl in *.
  destruct (Timeout (clock s) g) eqn:Ht; [exact Hread|]. apply gives_ok. split; [by apply Hu|by eapply not_timeout].
Qed.
Lemma cached_spec store k s v g : at_ s v → cached store k s = Some (g, false) → store s !! k = Some g ∧ recent v g.
Proof.
  intros [Hv _]. unfold cached. destruct (store s !! k) as [g'|]; [|done]. intros [= <- Ht]. split; [done|by eapply not_timeout].
Qed.
(** A key's token made anew. *)
Lemma gives_key_read k v : gives
  (key ⇐ sql (SelectApikey k);
   if decide (is_Some (revoked_at key)) then failC Share.NoPermission
   else
     now ← look clock;
     if expired now key then failC Share.NoPermission
     else
       base_token ⇐ GetTokenByUsername (ak_username key);
       now ← look clock;
       restricted ⇐ liftC (ApplyApikeyRestrictions now base_token key);
       act (λ s, with_apikeyStore s (<[k := restricted]> (apikeyStore s))) ≫= λ _,
       okC restricted) v (λ g, key_token g ∧ recent v g).
Proof.
  eapply gives_bind; [apply gives_sql|]. intros key _. case_decide; [apply gives_fail|].
  apply gives_look. intros s' Hs'. case_match; [apply gives_fail|].
  eapply gives_bind; [apply gives_by_username|]. intros base [Hb _].
  apply gives_look. intros s'' [Hv'' _].
  apply (gives_bind _ _ _ (λ g, key_token g ∧ updatetime g = clock s'')).
  { apply gives_lift. intros g Hg. split; [by eexists _, _, _|]. by destruct (restricted_token _ _ _ _ Hg) as (rt & rn & -> & _). }
  intros g [Hg Ht]. apply gives_act.
  { intros s3. split; [done|]. intros [Hu Hk]. split; [done|]. by apply map_Forall_insert_2. }
  apply gives_ok. split; [done|]. unfold recent, MINUTE. lia.
Qed.
Lemma gives_by_apikey k v : gives (GetTokenByApikey k) v (λ g, (key_token g ∨ admin_token g) ∧ recent v g).
Proof.
  unfold GetTokenByApikey. case_decide.
  { apply gives_look. intros s [Hv _]. apply gives_ok. split; [right; by eexists|]. unfold recent, MINUTE. cbn. lia. }
  apply gives_look. intros s Hs. destruct (cached apikeyStore k s) as [[g []]|] eqn:Hc.
  2: { apply (cached_spec _ _ _ v) in Hc as [Hg Hr]; [|done]. apply gives_ok. split; [left|done]. destruct Hs as [_ [_ Hk]]. by eapply Hk. }
  all: apply gives_then; [case_decide; [apply gives_drop_apikeys|]; by apply gives_ok|].
  all: eapply gives_weaken; [apply gives_key_read|]; intros g' [? ?]; split; [by left|done].
Qed.

(** *** The other calls change nothing but by leaving tokens out *)

Lemma gives_create_key token req v : gives (CreateApikey token req) v (λ _, True).
Proof.
  eapply (gives_bind _ _ _ (λ _, True)); [by apply gives_lift|]. intros u _. case_decide; [apply gives_fail|].
  eapply (gives_bind _ _ _ (λ _, True)); [by apply gives_lift|]. intros [[level rt] rn] _.
  eapply (gives_bind _ _ _ (λ _, True)); [by apply gives_read|]. intros ex _.
  intros hex. apply gives_then; [apply gives_sql|]. apply gives_drop_username. by apply gives_ok.
Qed.
Lemma gives_delete_key token req v : gives (DeleteApiKey token req) v (λ _, True).
Proof.
  eapply (gives_bind _ _ _ (λ _, True)); [by apply gives_lift|]. intros u _. eapply gives_bind; [apply gives_sql|]. intros keys _.
  destruct keys as [|k keys]; [by apply gives_ok|]. apply gives_act.
  { intros s. split; [done|]. intros [Hu Hk]. split; [done|]. by apply (foldl_delete_ok (λ _, key_token)). }
  apply gives_drop_username. by apply gives_ok.
Qed.
Lemma gives_change_role {A} (q : Sql (Share.Result A)) token v : gives (sql q ⇒ EvactionToken token) v (λ _, True).
Proof. apply gives_then; [apply gives_sql|apply gives_evict]. Qed.
Lemma gives_user_token tenant u v : gives (Accounts.user_token tenant u) v (λ _, True).
Proof. apply gives_or; [|intros; apply gives_fail]. eapply gives_weaken; [apply gives_by_username|done]. Qed.
Lemma gives_rbac token p ty t n nm role u v : gives (Rbac token p ty t n nm role u) v (λ _, True).
Proof.
  destruct ty; (apply gives_when; intros _); destruct p;
    unfold GrantTenantRole, RevokeTenantRole, GrantNamespaceRole, RevokeNamespaceRole;
    (apply gives_then; [by apply gives_read|]); (apply gives_when; intros _);
    (eapply gives_bind; [apply gives_user_token|]); intros ut _; cbv zeta; destruct role; apply gives_when; intros _; apply gives_change_role.
Qed.
Lemma gives_account_call c v :
  gives (account_call c) v (λ og, ∀ g, og = Some g → (user_token (username g) g ∨ key_token g ∨ admin_token g) ∧ recent v g).
Proof.
  destruct c; cbn [account_call].
  - eapply gives_bind; [apply gives_by_username|]. intros g [Hg Hr]. apply gives_ok. intros ? [= <-]. split; [left|done].
    by destruct (Hg) as [-> _].
  - eapply gives_bind; [apply gives_by_apikey|]. intros g [Hg Hr]. apply gives_ok. intros ? [= <-]. split; [by right|done].
  - apply gives_then; [apply gives_create_key|by apply gives_ok].
  - apply gives_then; [apply gives_delete_key|by apply gives_ok].
  - apply gives_then; [apply gives_rbac|by apply gives_ok].
  - apply gives_then; [apply gives_change_role|by apply gives_ok].
  - apply gives_then; [apply gives_change_role|by apply gives_ok].
Qed.
End caches.

(** ** In every interleaving *)

Section interleaved.
Context {Value F Ch R Bytes O : Type} {config : GatewayConfig}.
Implicit Types (s : Gateway Value F Ch R).
Abbreviation runs s w :=
  (together (Q:=Request Bytes) (O:=O) (A:=Share.Result (option AccessToken)) elsewhere (λ p, ∃ c, p = account_call c) s w).

Lemma account_rely s v s' v' w : may s v s' v' → at_ s w → at_ s' w.
Proof. intros (Hc & Hk & _) [Hw Hs]. split; [by rewrite Hc|auto]. Qed.
Lemma elsewhere_caches s s' : elsewhere s s' → caches_ok s → caches_ok s'.
Proof. intros (_ & Ha & Hu) [Hs Hk]. split; [by rewrite Hu|by rewrite Ha]. Qed.
Lemma elsewhere_at s s' v : elsewhere s s' → at_ s v → at_ s' v.
Proof. intros He [Hv Hs]. split; [destruct He; lia|by eapply elsewhere_caches]. Qed.
Lemma runs_sound s w : caches_ok s → runs s w → caches_ok w.2 ∧
  ∀ i s0 g, w.1 !! i = Some (s0, CRet (Ok (Some g))) →
    (user_token (username g) g ∨ key_token g ∨ admin_token g) ∧ recent (clock s0) g.
Proof.
  intros Hs Hw.
  eapply (together_sound elsewhere _ caches_ok at_ may clock (λ s0 r v', v' = clock s0 ∧ on_ok (λ og, ∀ g, og = Some g →
    (user_token (username g) g ∨ key_token g ∨ admin_token g) ∧ recent (clock s0) g) r)) in Hw as [HI Hend]; [..|exact Hs].
  - split; [done|]. intros i s0 g Hi. destruct (Hend _ _ _ Hi) as (v & _ & _ & Hg). by apply Hg.
  - intros. by eapply account_rely.
  - intros ???? (_ & H & _). exact H.
  - intros. by eapply elsewhere_at.
  - intros. by eapply elsewhere_caches.
  - intros s0 H0. by split.
  - intros p s0 [c ->] _. apply gives_account_call.
Qed.

(** C12: The caches of tokens are well typed.  Whatever calls read tokens, make and delete keys, grant and revoke roles at
    once, in every interleaving of their actions, whatever the database answers: what is cached under a user name is a token
    of that user with the full scope and no restriction, what is cached under an API key is a user's token restricted as one
    of the user's keys is, and every token a call returns is one of these or the platform administrator's. *)
Theorem token_caches_are_typed s w : caches_ok s → runs s w →
  caches_ok w.2 ∧ ∀ i s0 g, w.1 !! i = Some (s0, CRet (Ok (Some g))) → user_token (username g) g ∨ key_token g ∨ admin_token g.
Proof. intros Hs Hw. destruct (runs_sound s w Hs Hw) as [Hc Hend]. split; [done|]. intros i s0 g Hi. by eapply Hend. Qed.
(** C13: A token's time stamp is at most a minute old.  In every interleaving, whatever is cached, a token that a call
    returns was stamped at most 60 seconds before the call started (by a clock that does not go back).  A user's token is
    stamped when its roles have been read from the database.  A key's token is stamped when it is made of its user's token,
    which may be a cached one that was itself stamped up to 60 seconds before: the roles of a key's token can be older than
    its stamp says ([old_roles_of_a_key], the finding at auth_layer.rs:970). *)
Theorem tokens_are_recent s w i s0 g : caches_ok s → runs s w → w.1 !! i = Some (s0, CRet (Ok (Some g))) →
  (clock s0 - 60 * 1000000000 ≤ updatetime g)%Z.
Proof. intros Hs Hw Hi. destruct (runs_sound s w Hs Hw) as [_ Hend]. by eapply Hend. Qed.
End interleaved.

(** *** A run: a user's token is read, and cached *)

#[local] Instance test_config : GatewayConfig :=
  {| inferxAdminApikey := "ix_root"; enforceBilling := true; onboardBlockedEmailDomains := []; onboardInitialCreditCents := 0;
     inferxTenantPolicy := MkTenantPolicy None None None None None None None; naive_max := 10 ^ 30 |}.
Definition TestGateway : Type := Gateway unit unit unit unit.
Definition empty_gateway (now : Z) : TestGateway :=
  MkGateway ∅ ∅ now ∅ ∅ ∅ (MkStateSvc (MkSvcDir ∅ 0 "") ∅ ∅ ∅).
Definition ann_minted : AccessToken := AccessToken_New 100 "ann" ["/tenant/user/acme"] [].
Lemma empty_caches now : caches_ok (empty_gateway now).
Proof. split; apply map_Forall_empty. Qed.
Lemma ann_run : ∃ ts s, ts !! 0 = Some (empty_gateway 100, CRet (Ok (Some ann_minted))) ∧ usernameStore s !! "ann" = Some ann_minted ∧
  together (Q:=Request unit) (O:=unit) elsewhere (λ p, ∃ c, p = account_call c) (empty_gateway 100) (ts, s).
Proof.
  eexists _, _. split_and!; cycle 2.
  - eapply together_next; [eapply together_next; [eapply together_next; [eapply together_next; [eapply together_next;
      [eapply together_next; [apply together_nil|]|]|]|]|]|].
    + apply (step_start _ _ _ _ (account_call (CallTokenByUsername "ann"))). by eexists.
    + eapply (step_act _ _ _ _ 0). reflexivity.
    + eapply (step_ask _ _ _ _ 0 _ _ _ _ (Ok [])). reflexivity.
    + eapply (step_ask _ _ _ _ 0 _ _ _ _ (Ok ["/tenant/user/acme"])). reflexivity.
    + eapply (step_act _ _ _ _ 0). reflexivity.
    + eapply (step_act _ _ _ _ 0). reflexivity.
  - reflexivity.
  - reflexivity.
Qed.
Lemma token_caches_are_typed_witness : ∃ s : TestGateway, usernameStore s !! "ann" = Some ann_minted ∧ caches_ok s.
Proof.
  destruct ann_run as (ts & s & _ & Hs & Hr). exists s. split; [exact Hs|].
  apply (token_caches_are_typed (empty_gateway 100) (ts, s) (empty_caches 100) Hr).
Defined.
Lemma tokens_are_recent_witness : (clock (empty_gateway 100) - 60 * 1000000000 ≤ updatetime ann_minted)%Z.
Proof.
  destruct ann_run as (ts & s & Hi & _ & Hr).
  apply (tokens_are_recent (empty_gateway 100) (ts, s) 0 (empty_gateway 100) _ (empty_caches 100) Hr Hi).
Defined.

(** The user's token of second 0 is restricted for a key in second 59, and returned for that key in second 118. *)
Definition at_second (n : Z) (s : TestGateway) : TestGateway :=
  MkGateway (apikeyStore s) (usernameStore s) (100 + n * 1000000000) (repo_tenantMgr s) (repo_namespaceMgr s) (repo_funcMgr s) (repo_service s).
Lemma later n s : (clock s ≤ 100 + n * 1000000000)%Z → elsewhere s (at_second n s).
Proof. intros. by split_and!. Qed.
Definition ann_key : Apikey := MkApikey "k" "ann" "key" "full" (Some "acme") None None None.
Ltac after_steps n := match n with 0 => apply together_nil | S ?n => eapply together_next; [after_steps n|] end.
Lemma old_roles_of_a_key : ∃ ts s s0 g, ts !! 2 = Some (s0, CRet (Ok (Some g))) ∧ roles g = roles ann_minted ∧
  sourceIsApikey g = true ∧ (clock s0 - updatetime ann_minted = 118 * 1000000000)%Z ∧
  together (Q:=Request unit) (O:=unit) elsewhere (λ p, ∃ c, p = account_call c) (empty_gateway 100) (ts, s).
Proof.
  eexists _, _, _, _. split_and!; cycle 4.
  - after_steps 17.
    + apply (step_start _ _ _ _ (account_call (CallTokenByUsername "ann"))). by eexists.
    + eapply (step_act _ _ _ _ 0). reflexivity.
    + eapply (step_ask _ _ _ _ 0 _ _ _ _ (Ok [])). reflexivity.
    + eapply (step_ask _ _ _ _ 0 _ _ _ _ (Ok ["/tenant/user/acme"])). reflexivity.
    + eapply (step_act _ _ _ _ 0). reflexivity.
    + eapply (step_act _ _ _ _ 0). reflexivity.
    + apply step_env, (later 59). done.
    + apply (step_start _ _ _ _ (account_call (CallTokenByApikey "k"))). by eexists.
    + eapply (step_act _ _ _ _ 1). reflexivity.
    + eapply (step_ask _ _ _ _ 1 _ _ _ _ (Ok ann_key)). reflexivity.
    + eapply (step_act _ _ _ _ 1). reflexivity.
    + eapply (step_act _ _ _ _ 1). reflexivity.
    + eapply (step_act _ _ _ _ 1). reflexivity.
    + eapply (step_act _ _ _ _ 1). reflexivity.
    + apply step_env, (later 118). done.
    + apply (step_start _ _ _ _ (account_call (CallTokenByApikey "k"))). by eexists.
    + eapply (step_act _ _ _ _ 2). reflexivity.
  - reflexivity.
  - reflexivity.
  - reflexivity.
  - reflexivity.
Qed.

(** ** When a change of roles takes effect *)

Definition unquoted (s : string) : Prop := "'"%char ∉ chars s.
#[global] Instance unquoted_dec s : Decision (unquoted s).
Proof. unfold unquoted. apply _. Defined.
Lemma unquoted_app s t : unquoted s → unquoted t → unquoted (s +:+ t).
Proof. unfold unquoted. rewrite chars_app. set_solver. Qed.
(** What the handlers of roles rely on of the database: for names without a quote, the table [UserRole] is read and changed
    as the text of the statement says. *)
Class RolesTable (Bytes W : Type) (server : ∀ X, Request Bytes X → W → X * W) := {
  role_rows : W → gset (string * string);
  select_roles u w : unquoted u → ∃ l, server _ (AskSql (SelectText (roles_query u))) w = (Ok l, w) ∧ ∀ r, r ∈ l ↔ (u, r) ∈ role_rows w;
  select_keys u w : ∃ keys w', server _ (AskSql (SelectApikeys u)) w = (Ok keys, w') ∧ role_rows w' = role_rows w;
  insert_role u r w w' : server _ (AskSql (InsertRole u r)) w = (Ok tt, w') → role_rows w' = {[(u, r)]} ∪ role_rows w;
  delete_role u r w w' : unquoted u → unquoted r → server _ (AskSql (ExecText (delete_role_query u r))) w = (Ok tt, w') →
    role_rows w' = role_rows w ∖ {[(u, r)]};
}.

Section effect.
Context {Value F Ch R Bytes O W : Type} {config : GatewayConfig} {server : ∀ X, Request Bytes X → W → X * W}.
Context {table : RolesTable Bytes W server}.
Abbreviation C A := (call (Gateway Value F Ch R) (Request Bytes) O (Share.Result A)).
Implicit Types (s : Gateway Value F Ch R) (w : W) (g : AccessToken).
Open Scope call_scope.

Lemma serve_guard {A} b e (k : C A) s w a s' w' :
  serve server (guard b e ⇒ k) s w = (Ok (Ok a), s', w') → b = true ∧ serve server k s w = (Ok (Ok a), s', w').
Proof. by destruct b. Qed.
Lemma serve_read {A B} (f : Gateway Value F Ch R → Share.Result A) (k : C B) s w a s' w' :
  serve server (readC f ⇒ k) s w = (Ok (Ok a), s', w') → serve server k s w = (Ok (Ok a), s', w').
Proof. rewrite serve_bindR. cbn. by destruct (f s). Qed.
Lemma serve_sql {A B} (q : Sql (Share.Result A)) (f : A → C B) s w a w' :
  server _ (AskSql q) w = (Ok a, w') → serve server (x ⇐ sql q; f x) s w = serve server (f a) s w'.
Proof. intros Hq. unfold sql, askC. cbn. by rewrite Hq. Qed.
Lemma serve_evict g s w : ∃ s', serve server (EvactionToken g : C unit) s w = (Ok (Ok tt), s', w)
  ∧ usernameStore s' = delete (username g) (usernameStore s).
Proof.
  unfold EvactionToken. revert s. induction (apiKeys g) as [|k keys IH]; intros s; [by eexists|].
  destruct (IH (with_apikeyStore s (delete k (apikeyStore s)))) as (s' & Hs' & Hu). exists s'. split; [exact Hs'|exact Hu].
Qed.
Lemma serve_replace o g s w : ∃ s', serve server (Replace o g : C unit) s w = (Ok (Ok tt), s', w).
Proof.
  unfold Replace. rewrite serve_bindR. destruct o as [old|]; [|by eexists].
  destruct (serve_evict old s w) as (s' & -> & _). by eexists.
Qed.
(** Reading a user's token leaves the roles as they are; if none is cached it has the roles of the table. *)
Lemma serve_by_username u s w : unquoted u → ∃ g s' w', serve server (GetTokenByUsername u : C _) s w = (Ok (Ok g), s', w')
  ∧ role_rows w' = role_rows w ∧ (usernameStore s !! u = None → ∀ r, r ∈ roles g ↔ (u, r) ∈ role_rows w).
Proof.
  intros Hu. unfold GetTokenByUsername. cbn [mbind call_bind look serve].
  assert (∀ c s, ∃ g s' w', serve server (apikeys ⇐ sql (SelectApikeys u); groups ⇐ GetRoles u; now ← look clock;
      let newToken := AccessToken_New now u groups (ak_apikey <$> apikeys) in
      Replace c newToken ⇒ okC newToken : C _) s w = (Ok (Ok g), s', w')
    ∧ role_rows w' = role_rows w ∧ ∀ r, r ∈ roles g ↔ (u, r) ∈ role_rows w) as Hread.
  { intros c s0. destruct (select_keys u w) as (keys & w1 & Hk & Hw1). destruct (select_roles u w1 Hu) as (l & Hl & Hin).
    rewrite (serve_sql _ _ _ _ _ _ Hk). unfold GetRoles. rewrite (serve_sql _ _ _ _ _ _ Hl). cbn [serve mbind call_bind look].
    set (g := AccessToken_New _ _ _ _). destruct (serve_replace c g s0 w1) as (s' & Hs').
    rewrite serve_bindR. change (id s0) with s0. rewrite Hs'.
    exists g, s', w1. split_and!; [done..|]. intros r. rewrite <-Hw1, <-Hin. unfold g. cbn. by rewrite elem_of_list_to_set. }
  destruct (cached usernameStore u s) as [[g []]|] eqn:Hc.
  - destruct (Hread (Some g) s) as (g' & s' & w' & Hs & Hw & Hr). exists g', s', w'. auto.
  - exists g, s, w. split_and!; [done..|]. intros Hn. unfold cached in Hc. by rewrite Hn in Hc.
  - destruct (Hread None s) as (g' & s' & w' & Hs & Hw & Hr). exists g', s', w'. auto.
Qed.
(** The token whose roles are changed is of that user. *)
Lemma serve_user_token tenant u s w g s' w' : caches_ok s → unquoted u →
  serve server (Accounts.user_token tenant u : C _) s w = (Ok (Ok g), s', w') → username g = u ∧ role_rows w' = role_rows w.
Proof.
  intros Hs Hu. unfold Accounts.user_token, orC. rewrite serve_bind.
  destruct (serve_by_username u s w Hu) as (g' & s1 & w1 & Hg & Hw & _). rewrite Hg. cbn. intros [= <- <- <-]. split; [|done].
  destruct (serve_wp _ at_ may _ _ _ (clock s) _ _ _ _ (gives_by_username u (clock s)) (conj (Z.le_refl _) Hs) Hg) as (v & _ & _ & Ht & _).
  by destruct Ht.
Qed.
Definition changed (ty : ObjectType) (tenant name : string) (role : UserRole) : RoleBinding :=
  match ty with OTenant => MkRoleBinding OTenant role name "" | ONamespace => MkRoleBinding ONamespace role tenant name end.
Lemma unquoted_changed ty tenant name role : unquoted tenant → unquoted name → unquoted (role_text (changed ty tenant name role)).
Proof.
  intros Ht Hn. assert (unquoted (tenant +:+ String "/" name)) as Htn.
  { apply unquoted_app; [done|]. apply (unquoted_app "/"); [|done]. by apply (bool_decide_unpack _). }
  by destruct ty, role; (apply unquoted_app; [by apply (bool_decide_unpack _)|]).
Qed.
(** A handler that changes one role of a user, and leaves its token out of the cache. *)
Lemma serve_change q tenant u s w s1 w1 (ok : AccessToken → bool) (e : Share.Error) :
  caches_ok s → unquoted u →
  serve server (g ⇐ Accounts.user_token tenant u; guard (ok g) e ⇒ sql q ⇒ EvactionToken g : C unit) s w = (Ok (Ok tt), s1, w1) →
  ∃ w0, role_rows w0 = role_rows w ∧ server _ (AskSql q) w0 = (Ok tt, w1) ∧ usernameStore s1 !! u = None.
Proof.
  intros Hs Hu. rewrite serve_bindR.
  destruct (serve server (Accounts.user_token tenant u) s w) as [[[[g|e1|w']| |] s0] w0] eqn:Hg; try done.
  apply serve_user_token in Hg as [Hg Hw]; [|done..]. intros [_ Hc]%serve_guard. rewrite serve_bindR in Hc. cbn in Hc.
  destruct (server _ (AskSql q) w0) as [[[]|e2|p] w2] eqn:Hq; cbn in Hc; try done.
  destruct (serve_evict g s0 w2) as (s' & He & Hu'). rewrite He in Hc. injection Hc as <- <-.
  exists w0. split_and!; [done..|]. by rewrite Hu', Hg, lookup_delete_eq.
Qed.

(** C6: A grant and a revocation take effect at once.  When [Rbac] of a role has answered without an error and nothing else
    ran, the next token of that user, whatever was cached, has exactly the roles of the table, with the role that was
    granted, or without the one that was revoked, for every kind of role.  (Names have no quote: the statements are put
    together as text.) *)
Theorem role_changes_take_effect tok p ty tenant namespace name role u s w s1 w1 :
  caches_ok s → unquoted u → unquoted tenant → unquoted name →
  serve server (Rbac tok p ty tenant namespace name role u : C unit) s w = (Ok (Ok tt), s1, w1) →
  ∃ g s2 w2, serve server (GetTokenByUsername u : C _) s1 w1 = (Ok (Ok g), s2, w2) ∧
    ∀ r, r ∈ roles g ↔ match p with
                       | PGrant => r = role_text (changed ty tenant name role) ∨ (u, r) ∈ role_rows w
                       | PRevoke => r ≠ role_text (changed ty tenant name role) ∧ (u, r) ∈ role_rows w
                       end.
Proof.
  intros Hs Hu Ht Hn Hr.
  assert (∃ w0, role_rows w0 = role_rows w ∧ usernameStore s1 !! u = None ∧
    server _ (AskSql (match p with PGrant => InsertRole u (role_text (changed ty tenant name role))
                      | PRevoke => ExecText (delete_role_query u (role_text (changed ty tenant name role))) end)) w0 = (Ok tt, w1))
    as (w0 & Hw0 & Hnone & Hq).
  { destruct ty; cbn [Rbac] in Hr; apply serve_guard in Hr as [_ Hr]; destruct p;
      [unfold GrantTenantRole in Hr|unfold RevokeTenantRole in Hr|unfold GrantNamespaceRole in Hr|unfold RevokeNamespaceRole in Hr];
      apply serve_read, serve_guard in Hr as [_ Hr]; destruct role;
      (eapply serve_change in Hr as (w0 & Hw0 & Hq & Hnone); [exists w0; auto|done..]). }
  destruct (serve_by_username u s1 w1 Hu) as (g & s2 & w2 & Hg & _ & Hroles). exists g, s2, w2. split; [done|].
  intros r. rewrite (Hroles Hnone r). destruct p.
  - rewrite (insert_role _ _ _ _ Hq), Hw0. set_solver.
  - rewrite (delete_role _ _ _ _ Hu (unquoted_changed _ _ _ _ Ht Hn) Hq), Hw0. set_solver.
Qed.
End effect.

(** *** A small database, and a revocation *)

Definition closed {A} : Share.Result A := Err (Share.CommonError "not served").
(** The rows of [UserRole]; statements as text are recognised by what they are made of. *)
Definition memory_sql {X} (q : Sql X) (w : gset (string * string)) : X * gset (string * string) :=
  match q in Sql X return X * gset (string * string) with
  | SelectText q => (Ok (elements (set_map (D:=gset string) snd (filter (λ p, roles_query p.1 = q) w))), w)
  | ExecText q => (Ok tt, filter (λ p, ¬ (delete_role_query p.1 p.2 = q ∧ unquoted p.1)) w)
  | SelectApikeys _ => (Ok [], w)
  | InsertRole u r => (Ok tt, {[(u, r)]} ∪ w)
  | InsertApikey _ => (Ok tt, w) | SelectApikey _ => (closed, w) | DeleteApikeyReturning _ _ => (closed, w)
  | SelectOnboard _ => (closed, w) | InsertOnboardRow _ _ _ => (closed, w) | SetOnboardStep _ _ => (closed, w)
  | SetOnboardStatus _ _ => (closed, w) | SetOnboardUsername _ _ => (closed, w) | DeleteOnboardRow _ => (closed, w)
  | CompleteOnboardRows _ _ _ _ => (closed, w) | SelectUserProfile _ => (closed, w)
  end.
Definition memory_db X (q : Request unit X) (w : gset (string * string)) : X * gset (string * string) :=
  match q in Request _ X return X * gset (string * string) with
  | AskSql q => memory_sql q w
  | AskEtcd q => (match q in EtcdRequest _ X return X with
                  | EtcdGet _ _ => closed | EtcdPut _ _ => closed | EtcdTxn _ => closed | EtcdDeletePrefix _ => closed
                  | EtcdCompact _ => closed end, w)
  | AskFs q => (match q in FsRequest X return X with
                | FsOpen _ => closed | FsCreateDirAll _ => closed | FsRename _ _ => closed | FsCopy _ _ => closed
                | FsExists _ => false | FsRemoveDir _ => closed | FsRemoveDirAll _ => closed end, w)
  | AskRandom _ => ("0a1b", w)
  | AskRpc => (closed, w) | AskHasCredit _ _ => (closed, w) | AskAddCredit _ _ _ => (closed, w) | AskRecalculateQuota _ => (closed, w)
  end.
(** A text up to the first quote. *)
Lemma quoted_inj x y s t : unquoted x → unquoted y → x +:+ String "'" s = y +:+ String "'" t → x = y ∧ s = t.
Proof.
  intros Hx Hy He. assert (x = y) as ->.
  { apply (f_equal (split "'")) in He. rewrite !split_app in He by done. by injection He. }
  split; [done|]. apply (inj (String.append y)) in He. by injection He.
Qed.
Lemma after_inj (x s t : string) : x +:+ s = x +:+ t → s = t.
Proof. apply (inj (String.append x)). Qed.
Lemma before_inj (x s t : string) : s +:+ x = t +:+ x → s = t.
Proof. intros He%(f_equal chars). rewrite !chars_app in He. apply (inj chars). by apply (inj (.++ chars x)) in He. Qed.
Lemma roles_query_inj u v : roles_query u = roles_query v → u = v.
Proof. intros He. by apply after_inj, before_inj in He. Qed.
Lemma delete_role_query_inj u r u' r' : unquoted u → unquoted u' →
  delete_role_query u r = delete_role_query u' r' → u = u' ∧ r = r'.
Proof.
  intros Hu Hu' He. apply after_inj in He. apply (quoted_inj u u' _ _ Hu Hu') in He as [-> He]. split; [done|].
  by apply (after_inj " and rolename='"), before_inj in He.
Qed.
#[local] Instance memory_table : RolesTable unit (gset (string * string)) memory_db.
Proof.
  refine {| role_rows := id |}.
  - intros u w Hu. eexists. split; [reflexivity|]. intros r. rewrite elem_of_elements, elem_of_map. split.
    + intros ([u' r'] & -> & [Hq Hin]%elem_of_filter). simpl in *. by rewrite (roles_query_inj u u').
    + intros Hin. exists (u, r). split; [done|]. by apply elem_of_filter.
  - intros u w. by eexists _, _.
  - intros u r w w' [_ <-]%pair_eq. done.
  - intros u r w w' Hu Hr [_ <-]%pair_eq.
    change (filter (λ p, ¬ (delete_role_query p.1 p.2 = delete_role_query u r ∧ unquoted p.1)) w = w ∖ {[(u, r)]}). apply set_eq. intros [u' r']. rewrite elem_of_filter, elem_of_difference, elem_of_singleton. simpl.
    split; intros [H1 H2]; (split; [first [exact H2|idtac]|first [exact H1|idtac]]).
    + intros [= -> ->]. by apply H1.
    + intros (Hq & Hu'). apply H2. by destruct (delete_role_query_inj u' r' u r) as [-> ->].
Defined.
Definition ann_rows : gset (string * string) := {[("ann", "/tenant/user/acme"); ("ann", "/tenant/admin/beta")]}.
Definition root : AccessToken := InferxAdminToken 0.
Definition acme : Tenant :=
  MkDataObject "tenant" "system" "system" "acme" ∅ ∅ 1 0 1 (MkTenantObject (MkTenantSpec default_resourcelimit false) (MkTenantStatus false false)).
Definition with_acme : TestGateway :=
  MkGateway ∅ {["ann" := AccessToken_New 99 "ann" ["/tenant/user/acme"; "/tenant/admin/beta"] []]} 100 {["system/system/acme" := acme]} ∅ ∅
    (MkStateSvc (MkSvcDir ∅ 0 "") ∅ ∅ ∅).
Lemma with_acme_caches : caches_ok with_acme.
Proof. split; [|apply map_Forall_empty]. apply map_Forall_singleton. by split_and!. Qed.
Definition revoked : outcome unit (Share.Result unit) * TestGateway * gset (string * string) :=
  serve memory_db (Rbac root PRevoke OTenant "system" "system" "acme" User "ann"
                     : call TestGateway (Request unit) unit (Share.Result unit)) with_acme ann_rows.
Lemma role_changes_take_effect_witness : revoked.1.1 = Ok (Ok tt) ∧
  ∃ g s2 w2, serve memory_db (GetTokenByUsername "ann" : call TestGateway (Request unit) unit _) revoked.1.2 revoked.2 = (Ok (Ok g), s2, w2)
    ∧ ∀ r, r ∈ roles g ↔ r ≠ "/tenant/user/acme" ∧ ("ann", r) ∈ ann_rows.
Proof.
  assert (revoked.1.1 = Ok (Ok tt)) as Hr by (vm_compute; reflexivity). split; [exact Hr|].
  apply (role_changes_take_effect (O:=unit) (server:=memory_db) (table:=memory_table) root PRevoke OTenant "system" "system" "acme" User "ann" with_acme ann_rows revoked.1.2 revoked.2
    with_acme_caches); [by apply (bool_decide_unpack _)..|]. by apply served.
Defined.

(** ** A key that makes a stronger one *)

Section escalation.
Context {Value F Ch R Bytes O W : Type} {config : GatewayConfig} {server : ∀ X, Request Bytes X → W → X * W}.
Implicit Types (s : Gateway Value F Ch R) (w : W).

Lemma restricted_admin_role now base key g tnt :
  ApplyApikeyRestrictions now base key = Ok g → plain tnt → restrictTenant g = Some tnt → restrictNamespace g = None →
  HasTenantAdminRole base tnt = true → HasTenantAdminRole g tnt = true.
Proof.
  intros (rt & rn & -> & _)%restricted_token Htn. cbn. intros [= ->] -> Hb. unfold HasTenantAdminRole, has_role in *.
  apply bool_decide_eq_true. apply bool_decide_eq_true in Hb. cbn. apply elem_of_filter. split; [|done].
  unfold RoleAllowedByRestriction. change (TENANT_ADMIN +:+ tnt) with (String "/" ("tenant" +:+ String "/" ("admin" +:+ String "/" tnt))).
  rewrite split_role, split_plain; [|done|by apply (bool_decide_unpack _)..|by apply plain_ended]. by rewrite decide_False by naive_solver.
Qed.

(** C36: A key that may only read makes a key that may do everything.  A user who administers a tenant makes a key with the
    scope [read] for it; whoever has this key administers nothing with it, but with it makes another key with the scope
    [full], which the same cache turns into a token that administers the tenant: the scope of the caller is not compared
    with the one it asks for. *)
Theorem read_key_makes_full_key now now' u base key g tnt keyname hex s w w1 w2 :
  user_token u base → IsInferxAdmin base = false → plain tnt → trim tnt = tnt → trim keyname ≠ "" →
  HasTenantAdminRole base tnt = true →
  ApplyApikeyRestrictions now base key = Ok g → access_level key = "read" → restrictTenant g = Some tnt → restrictNamespace g = None →
  server _ (AskRandom "apikey") w = (hex, w1) →
  let stronger := MkApikey ("ix_" +:+ hex) u keyname "full" (Some tnt) None None None in
  server _ (AskSql (InsertApikey stronger)) w1 = (Ok tt, w2) →
  IsTenantAdmin g tnt = false ∧
  (∃ s', serve server (CreateApikey g (MkKeyRequest "" keyname (Some "full") (Some tnt) None None) : call _ (Request Bytes) O _) s w
         = (Ok (Ok (MkKeyResponse ("ix_" +:+ hex) keyname "full" (Some tnt) None None)), s', w2)) ∧
  ∃ g', ApplyApikeyRestrictions now' base stronger = Ok g' ∧ IsTenantAdmin g' tnt = true.
Proof.
  intros (Hu & Hsc & Hsrc & Hrt & Hrn) Ha Htn Htrim Hkn Hadm Hg Hread Hgt Hgn Hhex stronger Hins.
  assert (NormalizeRequiredTenant (Some tnt) = Ok tnt) as Hnorm.
  { unfold NormalizeRequiredTenant. rewrite Htrim, decide_False; [done|]. by destruct Htn. }
  destruct (restricted_token _ _ _ _ Hg) as (rt & rn & Hshape & _).
  assert (scope g = "read" ∧ username g = u) as [Hgs Hgu] by (by rewrite Hshape, <-Hread, <-Hu).
  assert (IsInferxAdmin g = false) as Hga.
  { apply not_true_iff_false. intros Hc%(restricted_admin _ _ _ _ Hsrc Hg). congruence. }
  split_and!.
  - unfold IsTenantAdmin, CheckScope. by rewrite Hgs.
  - assert (key_restrictions g u (MkKeyRequest "" keyname (Some "full") (Some tnt) None None) = Ok ("full", tnt, None)) as Hk.
    { unfold key_restrictions. rewrite Hga. cbn [andb kr_access_level kr_restrict_tenant kr_restrict_namespace default].
      cbn [ValidateScope NormalizeScope mbind outcome_bind]. rewrite Hnorm. cbn.
      unfold IsTenantUser, CheckScope, AllowTenant, HasTenantUserPermission.
      rewrite Hgs, Hgt, Hga, (restricted_admin_role _ _ _ _ _ Hg Htn Hgt Hgn Hadm), orb_true_r. cbn.
      rewrite !(bool_decide_true (tnt = tnt)) by done. by destruct (IsSystemScopedInferxAdminApikey g), (bool_decide (tnt = "public")). }
    eexists. unfold CreateApikey, key_owner. cbn [kr_username kr_keyname]. rewrite decide_True by (by left).
    rewrite Hgu, serve_bindR. cbn [liftC serve]. rewrite decide_False by done. rewrite serve_bindR, Hk. cbn [liftC serve].
    rewrite serve_bindR. cbn. rewrite Hhex. cbn. fold stronger. rewrite Hins. done.
  - unfold ApplyApikeyRestrictions. cbn [access_level restrict_tenant restrict_namespace stronger NormalizeScope ValidateScope mbind outcome_bind].
    rewrite Hnorm. cbn [mbind outcome_bind NormalizeOptionalNamespace]. eexists. split; [done|].
    set (g' := MkAccessToken _ _ _ _ _ _ _ _ _ _ _ _ _).
    assert (ApplyApikeyRestrictions now' base stronger = Ok g') as Hg'.
    { unfold ApplyApikeyRestrictions. cbn [access_level restrict_tenant restrict_namespace stronger NormalizeScope ValidateScope mbind outcome_bind].
      by rewrite Hnorm. }
    unfold IsTenantAdmin. rewrite (restricted_admin_role _ _ _ _ _ Hg' Htn eq_refl eq_refl Hadm), orb_true_r, andb_true_r.
    unfold AllowTenant. cbn [restrictTenant g']. rewrite bool_decide_true by done. by case_match.
Qed.
End escalation.
Definition reader_key : Apikey := MkApikey "ix_1" "ann" "dash" "read" (Some "acme") None None None.
Definition reader : AccessToken := Eval vm_compute in match ApplyApikeyRestrictions 5 ann reader_key with Ok t => t | _ => ann end.
Lemma read_key_makes_full_key_witness : IsTenantAdmin reader "acme" = false ∧
  ∃ g', ApplyApikeyRestrictions 9 ann (MkApikey "ix_0a1b" "ann" "ops" "full" (Some "acme") None None None) = Ok g' ∧ IsTenantAdmin g' "acme" = true.
Proof.
  assert (ApplyApikeyRestrictions 5 ann reader_key = Ok reader) as Hg by (vm_compute; reflexivity).
  assert (trim "ops" ≠ "") as Hk by (by apply (bool_decide_unpack _)).
  assert (plain "acme") as Hp by (by apply (bool_decide_unpack _)).
  destruct (read_key_makes_full_key (O:=unit) (server:=memory_db) 5 9 "ann" ann reader_key reader "acme" "ops" "0a1b" with_acme ann_rows ann_rows
    ann_rows (new_user_token 0 "ann" ann_roles []) eq_refl Hp eq_refl Hk eq_refl Hg eq_refl eq_refl eq_refl eq_refl eq_refl)
    as (Hn & _ & Hf).
  by split.
Defined.
