(* ===== verification/ObjectProps.v ===== *)
(** * Who may write which object

    Proofs about [GatewayObjects] and [StateSvc]: what the handlers of tenants,
    namespaces, functions and policies ask of etcd and of the database, for
    every caller, whatever they see and are answered; and what is not checked. *)

From S2P Require Import Prelude.
From S2P Require Import Text.
From S2P Require Import BTree.
From S2P Require Import Common.
From S2P Require Import Validation.
From S2P Require Import Selector.
From S2P Require Import SelectorLexer.
From S2P Require Import SelectorParser.
From S2P Require Import Resource.
From S2P Require Import DataObj.
From S2P Require Import Watch.
From S2P Require Import Ring.
From S2P Require Import CacheStore.
From S2P Require Import Svc.
From S2P Require Import Specs.
From S2P Require Import Access.
From S2P Require Import Calls.
From S2P Require Import Etcd.
From S2P Require Import StateSvc.
From S2P Require Import Platform.
From S2P Require Import Accounts.
From S2P Require Import GatewayObjects.

(** ** What a caller may write *)

Definition object_key (ty tnt ns nm : string) : string := ty +:+ String "/" (key_of tnt ns nm).
(** Keys of etcd, and whether they are deleted. *)
Inductive may_write (token : AccessToken) : bool → string → Prop :=
| write_tenant (del : bool) nm k :
    IsInferxAdmin token || negb del && IsTenantAdmin token nm = true →
    PrepareKey (object_key "tenant" "system" "system" nm) = Ok k → may_write token del k
| write_namespace del tnt nm k :
    IsTenantAdmin token tnt = true → PrepareKey (object_key "namespace" tnt "system" nm) = Ok k → may_write token del k
| write_function del ty tnt ns nm k :
    ty ∈ ["function"; "funcstatus"; "funcpolicy"] → IsNamespaceAdmin token tnt ns = true →
    PrepareKey (object_key ty tnt ns nm) = Ok k → may_write token del k
| write_uid k : PrepareKey (object_key "unique_id" "" "system" "unique_id") = Ok k → may_write token false k.
Definition may_change_role (token : AccessToken) (u r : string) : Prop :=
  u = username token ∧ ∃ tnt nm, r = NamespaceAdminRole tnt nm ∧ IsTenantAdmin token tnt = true.
Definition op_ok {Bytes} (token : AccessToken) (op : TxnOp Bytes) : Prop :=
  match op with OpPut k _ _ => may_write token false k | OpGet _ => True | OpDelete k => may_write token true k end.
Definition etcd_ok {Bytes X} (token : AccessToken) (q : EtcdRequest Bytes X) : Prop :=
  match q with
  | EtcdGet _ _ => True
  | EtcdPut k _ => may_write token false k
  | EtcdTxn t => Forall (op_ok token) (txn_then t) ∧ Forall (op_ok token) (txn_else t)
  | EtcdDeletePrefix _ | EtcdCompact _ => False
  end.
Definition sql_ok {X} (token : AccessToken) (q : Sql X) : Prop :=
  match q with
  | InsertRole u r => may_change_role token u r
  | ExecText q => ∃ u r, q = delete_role_query u r ∧ may_change_role token u r
  | _ => False
  end.
Definition permitted {Bytes} (token : AccessToken) X (q : Request Bytes X) : Prop :=
  match q with
  | AskSql q => sql_ok token q
  | AskEtcd q => etcd_ok token q
  | AskFs _ | AskRpc => True
  | _ => False
  end.

Section writes.
Context {Value F Ch R Bytes O : Type} {config : GatewayConfig}.
Context {Jops : JsonOps Value} {Jtext : JsonText Value} {chan : Chan Ch (WatchEvent Value)}.
Context {lit : FloatLit F} {types : ServiceTypes Value F} {rest : FuncRest Value F R} {debug : DebugText}.
Context {Eng : RegexEngine} {Ord : HashOrder} {codec : Prost Bytes}.
Abbreviation Gateway := (Gateway Value F Ch R).
Abbreviation Task A := (call Gateway (Request Bytes) O A).
Abbreviation C A := (call Gateway (Request Bytes) O (Share.Result A)).
Abbreviation Obj := (DataObject Value).
Context (token : AccessToken).
Implicit Types (s : Gateway) (obj : Obj).
Open Scope call_scope.
(** The questions of [p] are permitted. *)
Definition careful {A} (p : Task A) : Prop := asks (permitted token) p (λ _, True).

Lemma careful_bind {A B} (p : Task A) (f : A → Task B) : careful p → (∀ a, careful (f a)) → careful (p ≫= f).
Proof. intros Hp Hf. apply does_then. eapply does_weaken; [exact Hp|]. intros a _. apply Hf. Qed.
Lemma careful_weaken {A} (p : Task A) Ψ : asks (permitted token) p Ψ → careful p.
Proof. intros Hp. by eapply does_weaken. Qed.
Lemma careful_bindR {A B} (p : C A) (f : A → C B) : careful p → (∀ a, careful (f a)) → careful (bindR p f).
Proof. intros Hp Hf. apply careful_bind; [done|]. intros [a|e|w]; [apply Hf|done..]. Qed.
Lemma careful_or {A} (p : C A) f : careful p → (∀ e, careful (f e)) → careful (orC p f).
Proof. intros Hp Hf. apply careful_bind; [done|]. intros [a|e|w]; [done|apply Hf|done]. Qed.
Lemma careful_lift {A} (m : Share.Result A) : careful (liftC m : C A).
Proof. by destruct m. Qed.
Lemma careful_liftb {A B} (m : Share.Result A) (f : A → C B) : (∀ a, m = Ok a → careful (f a)) → careful (bindR (liftC m) f).
Proof. intros Hf. destruct m; [by apply Hf|done..]. Qed.
Lemma careful_readb {A B} (g : Gateway → Share.Result A) (f : A → C B) : (∀ a, careful (f a)) → careful (bindR (readC g) f).
Proof. intros Hf s. change (careful (bindR (liftC (g s)) f)). destruct (g s); [by apply Hf|done..]. Qed.
Lemma careful_askb {A B} (q : Request Bytes (Share.Result A)) (f : A → C B) :
  permitted token _ q → (∀ a, careful (f a)) → careful (bindR (askC q) f).
Proof. intros Hq Hf. split; [done|]. intros [a|e|w]; [by apply Hf|done..]. Qed.
Lemma careful_guard {A} b e (k : C A) : (b = true → careful k) → careful (guard b e ⇒ k).
Proof. destruct b; [intros Hk; by apply Hk|done]. Qed.

(** *** Writes of the store *)

Definition writable (del : bool) (key : string) : Prop := ∀ k, PrepareKey key = Ok k → may_write token del k.

Lemma careful_store_get key r : careful (EtcdStore_Get (Value:=Value) key r : C _).
Proof.
  apply careful_liftb. intros k _. apply careful_askb; [done|]. intros resp. apply careful_liftb. intros _ _.
  destruct (rg_kvs resp) as [|kv kvs]; [done|]. apply careful_liftb. intros o _. by apply careful_liftb.
Qed.
Lemma careful_create obj l : writable false (StoreKey obj) → careful (EtcdStore_Create obj l : C _).
Proof.
  intros Hw. apply careful_liftb. intros k Hk. apply careful_liftb. intros val _. apply careful_askb.
  { split; [|done]. constructor; [by apply Hw|done]. }
  intros resp. destruct (negb (succeeded resp)); [done|]. by destruct (op_responses resp) as [|[]].
Qed.
Lemma careful_update e obj l : writable false (StoreKey obj) → careful (EtcdStore_Update e obj l : C _).
Proof.
  intros Hw. apply careful_liftb. intros k Hk. apply careful_liftb. intros val _. apply careful_askb.
  { case_decide; (split; [constructor; [by apply Hw|done]|]); repeat constructor. }
  intros resp. by destruct (succeeded resp), (op_responses resp) as [|[]].
Qed.
Lemma careful_delete key e : writable true key → careful (EtcdStore_Delete key e : C _).
Proof.
  intros Hw. apply careful_liftb. intros k Hk. apply careful_askb.
  { case_decide; (split; [constructor; [by apply Hw|done]|]); repeat constructor. }
  intros resp. destruct (succeeded resp), (op_responses resp) as [|[r|r kvs|r] l]; try done. by destruct kvs.
Qed.
Lemma careful_getrev obj : writable false (StoreKey obj) → careful (EtcdStore_GetRev obj : C _).
Proof.
  intros Hw. apply careful_liftb. intros k Hk. apply careful_liftb. intros val _. split; [by apply Hw|].
  intros x. by destruct x.
Qed.

(** *** The service *)

(** Two objects of the same name. *)
Definition same_name {T U} (o : DataObject T) (o' : DataObject U) : Prop :=
  objType o = objType o' ∧ tenant o = tenant o' ∧ namespace o = namespace o' ∧ name o = name o'.
Lemma same_StoreKey {T U} (o : DataObject T) (o' : DataObject U) : same_name o o' → StoreKey o = StoreKey o'.
Proof. intros (H1 & H2 & H3 & H4). unfold StoreKey, Key. by rewrite H1, H2, H3, H4. Qed.
Lemma To_same {T} `{Serde Value T} obj (t : DataObject T) : Share.lift (FromDataObject obj) = Ok t → same_name obj t.
Proof. unfold FromDataObject, To. destruct (from_value (object obj)); [|done..]. by intros [= <-]. Qed.
Lemma sent_same obj o r obj' : to_Obj (X:=Share.Error) obj = Ok o → admitted_obj (F:=F) (Value:=Value) o = Ok r → r = Ok obj' →
  same_name obj obj'.
Proof.
  unfold to_Obj, admitted_obj, of_Obj. intros Ho Hr ->.
  destruct (unwrap_opt (json_to_string (object obj))) as [d| |]; try done. injection Ho as <-. cbn in Hr.
  destruct (unwrap_opt (json_from_str d)) as [v| |]; try done. cbn in Hr. case_decide; injection Hr as Hr; [|by subst].
  unfold NormalizeFuncPolicyDataObject, To in Hr. destruct (from_value _); try done. cbn in Hr. by injection Hr as <-.
Qed.
(** What writing an object writes: the object, and the status of a function. *)
Definition obj_writable (del : bool) {T} (o : DataObject T) : Prop :=
  writable del (StoreKey o) ∧ (objType o = "function" → writable del (object_key "funcstatus" (tenant o) (namespace o) (name o))).
Lemma obj_writable_same del {T U} (o : DataObject T) (o' : DataObject U) : same_name o o' → obj_writable del o → obj_writable del o'.
Proof.
  intros Hs [H1 H2]. destruct Hs as (E1 & E2 & E3 & E4). unfold obj_writable. rewrite <-E1, <-E2, <-E3, <-E4. split; [|done].
  rewrite <-(same_StoreKey o o'); [done|]. by split_and!.
Qed.
Lemma careful_create_status obj : obj_writable false obj → careful (CreateFuncStatus obj : C _).
Proof.
  intros [_ Hw]. unfold CreateFuncStatus. case_decide; [|done]. apply careful_liftb. intros func (_ & E2 & E3 & E4)%To_same.
  apply careful_bindR; [|done]. apply careful_create. change (writable false (object_key "funcstatus" (tenant func) (namespace func) (name func))).
  rewrite <-E2, <-E3, <-E4. auto.
Qed.
Lemma careful_update_loop n key status : writable false (StoreKey status) → careful (update_funcstatus n key status : C _).
Proof.
  intros Hw. induction n as [|n IH]; (apply careful_bindR; [apply careful_store_get|]); intros cur;
    (apply careful_bind; [by apply careful_update|]); intros [o|[]|w]; done.
Qed.
Lemma careful_update_status obj : obj_writable false obj → careful (UpdateFuncStatus obj : C _).
Proof.
  intros [_ Hw]. unfold UpdateFuncStatus. case_decide; [|done]. apply careful_liftb. intros func (_ & E2 & E3 & E4)%To_same.
  apply careful_update_loop. change (writable false (object_key "funcstatus" (tenant func) (namespace func) (name func))).
  rewrite <-E2, <-E3, <-E4. auto.
Qed.
Lemma careful_cacher_get b ty t n nm rev : careful (Cacher_Get b ty t n nm rev : C (option (option Obj))).
Proof.
  apply careful_bind; [done|]. intros [c|]; [|done]. case_decide.
  - destruct (cs_backendStore c); [|done]. apply careful_bindR; [apply careful_store_get|done].
  - intros s. apply careful_lift.
Qed.
Lemma careful_rpc {A} (p : C A) : careful p → careful (rpc p).
Proof. intros Hp. apply careful_askb; [done|]. intros _. apply careful_bindR; [done|]. intros a. by apply careful_askb. Qed.
Lemma careful_client_create obj : obj_writable false obj → careful (client_Create obj : C _).
Proof.
  intros Hw. apply careful_liftb. intros o Ho. apply careful_bindR; [|intros; apply careful_lift]. apply careful_rpc.
  unfold StateSvc_create. cbn [cr_obj]. apply careful_liftb. intros r Hr. apply careful_or; [|done].
  apply careful_liftb. intros obj' Hobj. apply (obj_writable_same _ _ obj') in Hw; [|by eapply sent_same].
  apply careful_readb. intros _. apply careful_bindR; [by apply careful_create, Hw|]. intros o'.
  apply careful_bindR; [by apply careful_create_status|done].
Qed.
Lemma careful_client_update obj e : obj_writable false obj → careful (client_Update obj e : C _).
Proof.
  intros Hw. apply careful_liftb. intros o Ho. apply careful_bindR; [|intros; apply careful_lift]. apply careful_rpc.
  unfold StateSvc_update. cbn [ur_obj ur_expect_rev]. apply careful_liftb. intros r Hr. apply does_then.
  apply (does_weaken _ _ _ (on_ok (λ obj', r = Ok obj'))).
  { apply does_bindR. destruct r as [obj'| |]; [|done..]. intros s. destruct (UpdateObjCheck _ _) as [[]| |]; done. }
  intros [obj'|err|w] Hobj; [|done..]. apply (obj_writable_same _ _ obj') in Hw; [|by eapply sent_same].
  apply careful_bind; [by apply careful_update, Hw|]. intros [o'|err|w]; [|done..].
  apply careful_or; [|done]. apply careful_bindR; [by apply careful_update_status|done].
Qed.
Lemma careful_client_delete ty t n nm e : writable true (object_key ty t n nm) →
  (ty = "function" → writable true (object_key "funcstatus" t n nm)) → careful (client_Delete ty t n nm e : C _).
Proof.
  intros Hw Hs. apply careful_bindR; [|intros; apply careful_lift]. apply careful_rpc.
  apply careful_bind; [apply careful_cacher_get|]. intros [[[o|]|]|err|w]; try done. cbn [dr_obj_type dr_tenant dr_namespace dr_name dr_expect_rev].
  apply careful_bind; [by apply careful_delete|]. intros [rev|err|w]; try done. apply careful_or; [|done].
  apply careful_bindR; [|done]. unfold DeleteFuncStatus. case_decide; [|done]. apply careful_bindR; [|done]. apply careful_delete. auto.
Qed.
Lemma careful_client_get ty t n nm r : careful (client_Get ty t n nm r : C _).
Proof.
  apply careful_bindR.
  - apply careful_rpc, careful_bind; [apply careful_cacher_get|]. intros [[[o|]|]|err|w]; try done. by apply careful_liftb.
  - intros resp. case_match; [|done]. destruct (gs_obj resp); [|done]. by apply careful_liftb.
Qed.
Lemma careful_uid : careful (client_Uid : C Z).
Proof.
  apply careful_bindR; [|intros [err uid]; by case_match]. apply careful_rpc, careful_or; [|done].
  apply careful_bindR; [|done]. apply careful_getrev. intros k Hk. by apply write_uid.
Qed.

(** *** The handlers *)

Lemma careful_fs {A} (q : FsRequest (Share.Result A)) : careful (fs q : C A).
Proof. split; [done|]. by intros []. Qed.
Lemma careful_fs_try q : careful (fs_try q : Task unit).
Proof. done. Qed.
Lemma careful_readable path : careful (ensure_kb_file_readable path : C unit).
Proof. apply careful_or; [apply careful_fs|done]. Qed.
Lemma careful_promotion t n nm v : careful (prepare_kb_stage_promotion t n nm v : C unit).
Proof. apply careful_bindR; [apply careful_readable|]. intros _. apply careful_bindR; [apply careful_fs|]. intros _. apply careful_fs. Qed.
Lemma careful_copy t n nm v v' : careful (prepare_kb_version_copy t n nm v v' : C unit).
Proof. apply careful_bindR; [apply careful_readable|]. intros _. apply careful_bindR; [apply careful_fs|]. intros _. apply careful_fs. Qed.
Lemma careful_rollback t n nm v : careful (rollback_kb_stage_promotion t n nm v : Task unit).
Proof. apply careful_bind; [done|]. intros b. apply careful_bind; [by destruct b|]. intros _. apply careful_fs_try. Qed.
Lemma careful_evict g : careful (EvactionToken g : C unit).
Proof.
  apply careful_bind; [|done]. unfold drop_apikeys. induction (apiKeys g) as [|k keys IH]; [done|]. intros s. exact IH.
Qed.

(** What may be written of a tenant, a namespace, a function or its policy. *)
Lemma writable_tenant (del : bool) {T} (o : DataObject T) :
  objType o = "tenant" → tenant o = "system" → namespace o = "system" →
  IsInferxAdmin token || negb del && IsTenantAdmin token (name o) = true → obj_writable del o.
Proof.
  intros Hty Ht Hn Ha. split; [|congruence]. unfold writable, StoreKey, Key. rewrite Hty, Ht, Hn. intros k Hk. by eapply write_tenant.
Qed.
Lemma writable_namespace del {T} (o : DataObject T) :
  objType o = "namespace" → namespace o = "system" → IsTenantAdmin token (tenant o) = true → obj_writable del o.
Proof. intros Hty Hn Ha. split; [|congruence]. unfold writable, StoreKey, Key. rewrite Hty, Hn. intros k Hk. by eapply write_namespace. Qed.
Lemma writable_function del {T} (o : DataObject T) :
  objType o ∈ ["function"; "funcpolicy"] → IsNamespaceAdmin token (tenant o) (namespace o) = true → obj_writable del o.
Proof.
  intros Hty Ha. split; [|intros _]; intros k Hk.
  - apply (write_function _ _ (objType o) (tenant o) (namespace o) (name o)); [set_solver|done..].
  - apply (write_function _ _ "funcstatus" (tenant o) (namespace o) (name o)); [set_solver|done..].
Qed.
Lemma may_own_namespace tnt nm : IsTenantAdmin token tnt = true → may_change_role token (username token) (NamespaceAdminRole tnt nm).
Proof. intros Ha. split; [done|]. eauto. Qed.

Lemma careful_CreateTenant obj : objType obj = "tenant" → careful (CreateTenant token obj : C Z).
Proof.
  intros Hty. apply careful_guard. intros Ha. apply careful_liftb. intros t (E1 & E2 & E3 & E4)%To_same.
  apply careful_guard. intros [Ht Hn]%bool_decide_eq_true. apply careful_guard. intros _. apply careful_client_create.
  apply writable_tenant; [done|congruence..|]. by rewrite Ha.
Qed.
Lemma careful_UpdateTenant obj : objType obj = "tenant" → careful (UpdateTenant token obj : C Z).
Proof.
  intros Hty. apply careful_liftb. intros t (E1 & E2 & E3 & E4)%To_same.
  apply careful_guard. intros [Ht Hn]%bool_decide_eq_true. apply careful_guard. intros Ha. apply careful_client_update.
  apply writable_tenant; [done|congruence..|]. by rewrite E4, Ha, orb_true_r.
Qed.
Lemma careful_DeleteTenant t n nm : careful (DeleteTenant token t n nm : C Z).
Proof.
  apply careful_guard. intros [-> ->]%bool_decide_eq_true. apply careful_guard. intros Ha. apply careful_readb. intros b.
  apply careful_guard. intros _. apply careful_client_delete; [|done]. intros k Hk. eapply write_tenant; [by rewrite Ha|done].
Qed.
Lemma careful_CreateNamespace obj : objType obj = "namespace" → careful (CreateNamespace token obj : C Z).
Proof.
  intros Hty. apply careful_liftb. intros ns (E1 & E2 & E3 & E4)%To_same.
  apply careful_guard. intros Hn%bool_decide_eq_true. apply careful_guard. intros Ha. apply careful_bindR.
  - apply careful_client_create, writable_namespace; [done|congruence|]. by rewrite E2.
  - intros v. apply careful_bindR; [|done]. apply careful_askb; [by apply may_own_namespace|]. intros _. apply careful_evict.
Qed.
Lemma careful_DeleteNamespace t n nm : careful (DeleteNamespace token t n nm : C Z).
Proof.
  apply careful_guard. intros ->%bool_decide_eq_true. apply careful_readb. intros b. apply careful_guard. intros _.
  apply careful_guard. intros Ha. apply careful_bindR.
  - apply careful_client_delete; [|done]. intros k Hk. by eapply write_namespace.
  - intros v. apply careful_bindR; [|done]. apply careful_askb; [|intros _; apply careful_evict].
    eexists _, _. split; [reflexivity|by apply may_own_namespace].
Qed.
Lemma careful_CreateFunc obj : objType obj = "function" → careful (CreateFunc token obj : C Z).
Proof.
  intros Hty. apply careful_liftb. intros func (E1 & E2 & E3 & E4)%To_same. apply careful_guard. intros Ha.
  apply careful_bindR; [apply careful_uid|]. intros id. apply careful_bindR; [case_match; [apply careful_promotion|done]|]. intros _.
  apply careful_or.
  - apply careful_client_create, writable_function; unfold with_version; destruct (object func); [|done]. cbn. rewrite <-E1, Hty. by left.
  - intros e. apply careful_bind; [case_match; [apply careful_rollback|done]|done].
Qed.
Lemma careful_UpdateFunc obj : objType obj = "function" → careful (UpdateFunc token obj : C Z).
Proof.
  intros Hty. apply careful_guard. intros Ha. apply careful_liftb. intros func (E1 & E2 & E3 & E4)%To_same.
  apply careful_bindR; [apply careful_client_get|]. intros [existing|]; [|done]. apply careful_liftb. intros ex _.
  apply careful_bindR; [apply careful_uid|]. intros id. apply careful_bindR.
  - case_match; [|done]. apply careful_bind; [done|]. intros [].
    + apply careful_bindR; [apply careful_promotion|done].
    + apply careful_bindR; [apply careful_copy|done].
  - intros copied. apply careful_or.
    + apply careful_client_update, writable_function; unfold with_default_status, with_version; destruct (object func); cbn.
      * rewrite <-E1, Hty. by left.
      * by rewrite <-E2, <-E3.
    + intros e. apply careful_bind; [|done]. destruct copied as [[]|]; [done|apply careful_rollback|done].
Qed.
Lemma careful_reply (res : C Z) : careful res → careful (version_reply res).
Proof. intros Hr. apply careful_bind; [done|]. by intros [v|e|w]. Qed.
Lemma careful_quota {A} target (k : option (HttpReply unit) → Task A) : (∀ o, careful (k o)) → careful (write_quota token target ≫= k).
Proof. intros Hk. by apply careful_bind. Qed.
End writes.

(** C2: What is written is what the caller may write.  For every caller and every request to create, update or delete a
    tenant, a namespace, a function or a function policy, whatever the handler sees of the shared state and is answered:
    every key of etcd it asks to put or delete is that of a tenant (for platform administrators, or, but for deletion, for
    an administrator of that tenant), of a namespace of a tenant the caller administers, of a function, its status or its
    policy in a namespace the caller administers, or the one key of unique numbers.  And of the tables of the database it
    asks for two changes only: the insertion of a role of the caller itself, and the statement that deletes one
    ([delete_role_query], with the caller's name and the role put into its text), each the administration of a namespace of
    a tenant the caller administers.  That statement deletes just this row when neither the name nor the role has a quote
    ([RolesTable]); with a quote it is another statement, which is the finding at secret.rs:687. *)
Theorem object_writes_are_permitted {Value F Ch R Bytes O : Type} {config : GatewayConfig} {Jops : JsonOps Value} {Jtext : JsonText Value}
    {chan : Chan Ch (WatchEvent Value)} {lit : FloatLit F} {types : ServiceTypes Value F} {rest : FuncRest Value F R}
    {debug : DebugText} {Eng : RegexEngine} {Ord : HashOrder} {codec : Prost Bytes}
    (token : AccessToken) (obj : DataObject Value) (ty tnt ns nm : string) :
  objType obj ∈ ["tenant"; "namespace"; "function"; "funcpolicy"] → ty ∈ ["tenant"; "namespace"; "function"; "funcpolicy"] →
  let asked (p : call (Gateway Value F Ch R) (Request Bytes) O (HttpReply unit)) := asks (permitted token) p (λ _, True) in
  asked (CreateObj token obj) ∧ asked (UpdateObj token obj) ∧ asked (DeleteObj token ty tnt ns nm).
Proof.
  intros Hobj Hty asked.
  assert (∀ p target, asked p → asked (over ← write_quota token target; match over with Some resp => CRet resp | None => p end)) as Hq.
  { intros p target Hp. apply careful_quota. by intros []. }
  split_and!.
  - unfold CreateObj. apply careful_quota. intros [resp|]; [done|].
    destruct (_ && _); [done|]. apply careful_reply.
    repeat (apply elem_of_cons in Hobj as [Hobj|Hobj]); [..|by apply elem_of_nil in Hobj]; rewrite Hobj.
    + by apply careful_CreateTenant.
    + by apply careful_CreateNamespace.
    + by apply careful_CreateFunc.
    + apply careful_guard. intros Ha. apply careful_client_create, writable_function; [rewrite Hobj; set_solver|done].
  - apply Hq, careful_reply.
    repeat (apply elem_of_cons in Hobj as [Hobj|Hobj]); [..|by apply elem_of_nil in Hobj]; rewrite Hobj.
    + by apply careful_UpdateTenant.
    + done.
    + by apply careful_UpdateFunc.
    + apply careful_guard. intros Ha. apply careful_client_update, writable_function; [rewrite Hobj; set_solver|done].
  - apply careful_reply.
    repeat (apply elem_of_cons in Hty as [Hty|Hty]); [..|by apply elem_of_nil in Hty]; subst ty.
    + apply careful_DeleteTenant.
    + apply careful_DeleteNamespace.
    + apply careful_guard. intros Ha. apply careful_client_delete; [|intros _]; intros k Hk;
        eapply write_function; [| |exact Hk| | |exact Hk]; [set_solver|done|set_solver|done].
    + apply careful_guard. intros Ha. apply careful_client_delete; [|done]. intros k Hk. eapply write_function; [|done..]. set_solver.
Qed.

(** ** What is not checked *)

Section unchecked.
Context {Value F Ch R Bytes O W : Type} {config : GatewayConfig}.
Context {Jops : JsonOps Value} {Jtext : JsonText Value} {Jspec : JsonTextSpec Value} {chan : Chan Ch (WatchEvent Value)}.
Context {lit : FloatLit F} {types : ServiceTypes Value F} {rest : FuncRest Value F R} {debug : DebugText}.
Context {Eng : RegexEngine} {Ord : HashOrder} {codec : Prost Bytes}.
Context {server : ∀ X, Request Bytes X → W → X * W} (Hrpc : ∀ w, server _ AskRpc w = (Ok tt, w)).
Abbreviation Gateway := (Gateway Value F Ch R).
Abbreviation Task A := (call Gateway (Request Bytes) O A).
Abbreviation C A := (call Gateway (Request Bytes) O (Share.Result A)).
Abbreviation Obj := (DataObject Value).
Implicit Types (s : Gateway) (obj : Obj) (w : W) (token : AccessToken).
Open Scope call_scope.

Lemma serve_lift_ok {A B} (m : Share.Result A) (f : A → C B) a s w : m = Ok a → serve server (bindR (liftC m) f) s w = serve server (f a) s w.
Proof. by intros ->. Qed.
Lemma serve_ask {A B} (q : Request Bytes (Share.Result A)) (f : A → C B) a s w w' :
  server _ q w = (Ok a, w') → serve server (bindR (askC q) f) s w = serve server (f a) s w'.
Proof. intros Hq. unfold askC. cbn. by rewrite Hq. Qed.
Lemma serve_rpc {A B} (p : C A) (f : A → C B) a s w s' w' :
  serve server p s w = (Ok (Ok a), s', w') → serve server (bindR (rpc p) f) s w = serve server (f a) s' w'.
Proof using Hrpc.
  intros Hp. rewrite serve_bindR. unfold rpc at 1. rewrite (serve_ask _ _ tt _ _ w) by apply Hrpc.
  rewrite serve_bindR, Hp. by rewrite (serve_ask _ _ tt _ _ w') by apply Hrpc.
Qed.
(** A write that etcd accepts. *)
Definition put_txn (when : list Compare) (k : string) (val : Bytes) : Request Bytes (Share.Result (TxnResponse Bytes)) :=
  AskEtcd (EtcdTxn (MkTxn when [OpPut k val None] [])).

Lemma serve_client_create obj s w w' k val rev :
  objType obj ≠ "funcpolicy" → objType obj ≠ "function" → CreateObjCheck (state_svc s) obj = Ok tt →
  PrepareKey (StoreKey obj) = Ok k → encode_obj obj = Ok val →
  server _ (put_txn [MkCompare k 0] k val) w = (Ok (MkTxnResponse true [RPut rev]), w') →
  serve server (client_Create obj : C Z) s w = (Ok (Ok rev), s, w').
Proof using Hrpc Jspec.
  intros Hp Hf Hc Hk Hv Ht. destruct (to_Obj_Ok obj) as (oj & Hto & _ & Hof).
  unfold client_Create. rewrite (serve_lift_ok _ _ oj) by apply Hto.
  assert (serve server (StateSvc_create (MkCreateRequest (Some oj)) : C _) s w = (Ok (Ok (MkRevResponse "" rev)), s, w')) as Hs.
  { unfold StateSvc_create. cbn [cr_obj]. rewrite (serve_lift_ok _ _ (Ok obj)).
    2: { unfold admitted_obj. rewrite Hof. cbn. by rewrite decide_False. }
    unfold orC. rewrite serve_bind. rewrite (serve_lift_ok _ _ obj) by done. rewrite serve_bindR. cbn [readC look mbind call_bind serve liftC].
    change (id s) with s. rewrite Hc. cbn [liftC serve]. rewrite serve_bindR. unfold EtcdStore_Create at 1.
    rewrite (serve_lift_ok _ _ k) by done. rewrite (serve_lift_ok _ _ val) by done.
    unfold etcd_ask. rewrite (serve_ask _ _ (MkTxnResponse true [RPut rev]) _ _ w') by exact Ht. cbn [succeeded op_responses negb serve okC].
    rewrite serve_bindR. unfold CreateFuncStatus. rewrite decide_False by done. done. }
  by rewrite (serve_rpc _ _ _ _ _ _ _ Hs).
Qed.
Definition kinds : list string := ["tenant"; "namespace"; "function"; "funcpolicy"].
Lemma other_kind {A} (ty : string) (a b c d e : A) : ty ∉ kinds →
  match ty with "tenant" => a | "namespace" => b | "function" => c | "funcpolicy" => d | _ => e end = e.
Proof using.
  intros Hty. unfold kinds in Hty. rewrite !not_elem_of_cons in Hty. destruct Hty as (H1 & H2 & H3 & H4 & _).
  repeat match goal with
  | |- ?e = ?e => reflexivity
  | H : ?x ≠ ?x |- _ => by destruct H
  | |- context [match ?x with _ => _ end] => is_var x; destruct x
  end.
Qed.
Lemma serve_reply (res : C Z) s w rev s' w' :
  serve server res s w = (Ok (Ok rev), s', w') → serve server (version_reply res) s w = (Ok (HText 200 (pretty rev)), s', w').
Proof using. intros Hr. unfold version_reply. by rewrite serve_bind, Hr. Qed.
(** The check of the tenant's quota lets the write pass. *)
Definition passes_quota token s (target : string) : Prop :=
  enforceBilling = false ∨ enforce_tenant_quota_for_write (A:=unit) token s target = None.
Lemma serve_quota {A} token target (k : option (HttpReply unit) → Task A) s w :
  passes_quota token s target → serve server (write_quota token target ≫= k) s w = serve server (k None) s w.
Proof using. intros Hb. unfold write_quota. cbn. change (id s) with s. destruct Hb as [->| ->]; [done|]. by destruct enforceBilling. Qed.

(** C35: Objects of other kinds are everyone's.  An object that is no tenant, namespace, function or policy (a node, a pod,
    a snapshot, the status of a function) is created for every caller, the anonymous one too: the handler looks at no
    role before it asks the state service, which does not know the caller and admits it, and it is stored.  This is so when
    billing is not enforced, and when it is for every write that the check of the quota lets pass, a check that asks who
    the caller is only to let platform administrators through: the object names no tenant, or one that exists and is
    exempt or not over its quota.  (The object's key is a valid one and is not taken, and etcd accepts the write.) *)
Theorem anyone_may_write_other_objects token obj s w w' k val rev :
  objType obj ∉ kinds → passes_quota token s (tenant obj) → PrepareKey (StoreKey obj) = Ok k → encode_obj obj = Ok val →
  server _ (put_txn [MkCompare k 0] k val) w = (Ok (MkTxnResponse true [RPut rev]), w') →
  serve server (CreateObj token obj : Task (HttpReply unit)) s w = (Ok (HText 200 (pretty rev)), s, w').
Proof using Hrpc Jspec.
  intros Hty Hb Hk Hv Ht. pose proof Hty as Hn. unfold kinds in Hn. unfold CreateObj, tenant_target.
  rewrite decide_False by set_solver. rewrite serve_quota by done.
  rewrite bool_decide_false by set_solver. cbn [andb]. apply serve_reply. rewrite other_kind by done.
  eapply serve_client_create; [set_solver..| |done|done|done]. by apply other_kind.
Qed.

Lemma serve_client_update obj s w w' k val rev :
  objType obj ≠ "funcpolicy" → objType obj ≠ "function" → UpdateObjCheck (state_svc s) obj = Ok tt →
  PrepareKey (StoreKey obj) = Ok k → encode_obj obj = Ok val →
  server _ (put_txn [] k val) w = (Ok (MkTxnResponse true [RPut rev]), w') →
  serve server (client_Update obj 0 : C Z) s w = (Ok (Ok rev), s, w').
Proof using Hrpc Jspec.
  intros Hp Hf Hc Hk Hv Ht. destruct (to_Obj_Ok obj) as (oj & Hto & _ & Hof).
  unfold client_Update. rewrite (serve_lift_ok _ _ oj) by apply Hto.
  assert (serve server (StateSvc_update (MkUpdateRequest 0 (Some oj)) : C _) s w = (Ok (Ok (MkRevResponse "" rev)), s, w')) as Hs.
  { unfold StateSvc_update. cbn [ur_obj ur_expect_rev]. rewrite (serve_lift_ok _ _ (Ok obj)).
    2: { unfold admitted_obj. rewrite Hof. cbn. by rewrite decide_False. }
    rewrite serve_bind. rewrite (serve_lift_ok _ _ obj) by done. unfold readC. rewrite serve_bind. cbn [look serve].
    change (id s) with s. rewrite Hc. cbn [mbind outcome_bind liftC serve]. rewrite serve_bind. unfold EtcdStore_Update.
    rewrite (serve_lift_ok _ _ k) by done. rewrite (serve_lift_ok _ _ val) by done. rewrite (decide_False (P:=(0 < 0)%Z)) by lia.
    unfold etcd_ask. rewrite (serve_ask _ _ (MkTxnResponse true [RPut rev]) _ _ w') by exact Ht. cbn [succeeded op_responses serve okC].
    unfold orC. rewrite serve_bind. rewrite serve_bindR. unfold UpdateFuncStatus. rewrite decide_False by done. done. }
  by rewrite (serve_rpc _ _ _ _ _ _ _ Hs).
Qed.

(** C37: A tenant's administrator sets the tenant's own limits.  An update of the tenant object by an administrator of that
    tenant (one that exists, the object well formed), with whatever limits, and exempt from quotas, is stored as it is sent, when billing is not enforced or the
    tenant is not over its quota yet (of one that is, the update is refused with 429 unless a platform administrator sends
    it); when the gateway's mirror of tenants shows it, no request for the tenant is refused for its quota any more,
    whoever makes it. *)
Theorem tenant_admin_lifts_limits token obj (t : DataObject TenantObject) s w w' k val rev :
  objType obj = "tenant" → FromDataObject obj = Ok t → tenant obj = "system" → namespace obj = "system" → name obj ≠ "" →
  quota_exempt (tn_spec (object t)) = true →
  IsTenantAdmin token (name obj) = true → passes_quota token s (name obj) →
  Contains (ss_tenantMgr (state_svc s)) "system" "system" (name obj) = true →
  PrepareKey (StoreKey obj) = Ok k → encode_obj obj = Ok val →
  server _ (put_txn [] k val) w = (Ok (MkTxnResponse true [RPut rev]), w') →
  serve server (UpdateObj token obj : Task (HttpReply unit)) s w = (Ok (HText 200 (pretty rev)), s, w') ∧
  ∀ s' caller path method, repo_tenantMgr s' !! key_of "system" "system" (name obj) = Some t →
    enforce_tenant_quota_for_request (A:=unit) caller s' (name obj) method path = None ∧
    enforce_tenant_quota_for_write (A:=unit) caller s' (name obj) = None.
Proof using Hrpc Jspec.
  intros Hty Hto Htn Hns Hnm Hex Ha Hq Hcon Hk Hv Htxn.
  assert (Share.lift (FromDataObject obj) = Ok t) as Hl by (by rewrite Hto). destruct (To_same _ _ Hl) as (E1 & E2 & E3 & E4). split.
  - unfold UpdateObj, tenant_target. rewrite decide_True by done.
    rewrite serve_quota by done. apply serve_reply. rewrite Hty. unfold UpdateTenant. rewrite (serve_lift_ok _ _ t) by done.
    rewrite bool_decide_true by (split; congruence). cbn [guard]. rewrite serve_bindR. cbn [okC serve]. rewrite serve_bindR, <-E4, Ha. cbn [guard okC serve].
    eapply serve_client_update; [congruence..| |done|done|done].
    unfold UpdateObjCheck. rewrite Hty. unfold UpdateTenantCheck. rewrite Hl. cbn [mbind outcome_bind].
    rewrite <-E2, <-E3, <-E4, Htn, Hns. rewrite decide_False by naive_solver. change StateSvc.SYSTEM_TENANT with "system". change SYSTEM_NAMESPACE with "system". by rewrite Hcon.
  - intros s' caller path method Hm.
    assert (tenant_quota_state s' (name obj) = Ok (true, quota_exceeded (tn_status (object t)))) as Hst.
    { unfold tenant_quota_state. rewrite decide_False by done. unfold Mgr_Get. change StateSvc.SYSTEM_TENANT with "system".
      change SYSTEM_NAMESPACE with "system". rewrite Hm. cbn. by rewrite Hex. }
    unfold enforce_tenant_quota_for_request, enforce_tenant_quota_for_write. rewrite Hst. by destruct (IsInferxAdmin caller).
Qed.
End unchecked.

(** *** A small platform *)

#[local] Instance text_json : JsonOps string := {| json_get _ _ := None; json_text v := v |}.
#[local] Instance text_wire : JsonText string := {| json_to_string v := Some v; json_from_str s := Some s |}.
#[local] Instance text_wire_spec : JsonTextSpec string.
Proof. intros v. by exists v. Qed.
#[local] Instance unit_lit : FloatLit unit := λ _, tt.
#[local] Instance no_debug : DebugText := λ s, s.
#[local] Instance no_regex : RegexEngine := λ _ _, false.
#[local] Instance set_order : HashOrder := λ _ s, elements s.
#[local] Instance object_codec : Prost Svc.Object := {| object_encode o := o; object_decode := Ok |}.
Definition closed_serde {T} (text : string) : Serde string T := {| from_value _ := Err (Common.SerdeJsonError text); to_value _ := text |}.
Definition tenant_of (exempt : bool) : TenantObject := MkTenantObject (MkTenantSpec default_resourcelimit exempt) (MkTenantStatus false false).
#[local] Instance text_types : ServiceTypes string unit := {|
  tenant_serde := {| from_value v := Ok (tenant_of (bool_decide (v = "exempt")));
                     to_value t := if quota_exempt (tn_spec t) then "exempt" else "limited" |};
  namespace_serde := closed_serde "namespace"; func_serde := closed_serde "function"; policy_serde := closed_serde "policy";
  partial_serde := closed_serde "partial"; funcstatus_serde := closed_serde "status"; json_empty := "{}" |}.
#[local] Instance text_rest : FuncRest string unit unit := {| full_serde := closed_serde "function"; is_knowledge_base _ := false |}.
#[local] Instance free_config : GatewayConfig :=
  {| inferxAdminApikey := ""; enforceBilling := false; onboardBlockedEmailDomains := []; onboardInitialCreditCents := 0;
     inferxTenantPolicy := MkTenantPolicy None None None None None None None; naive_max := 10 ^ 30 |}.
Definition Platform_ : Type := Gateway string unit (queue (WatchEvent string)) unit.
Definition Store : Type := gmap string Svc.Object.
(** An etcd that takes every put, at revision 7; nothing else is served. *)
Definition put_server X (q : Request Svc.Object X) (w : Store) : X * Store :=
  let no {A} : Share.Result A := Err (Share.CommonError "not served") in
  match q in Request _ X return X * Store with
  | AskEtcd q =>
      match q in EtcdRequest _ X return X * Store with
      | EtcdTxn t => match txn_then t with
                     | OpPut k v _ :: _ => (Ok (MkTxnResponse true [RPut 7]), <[k := v]> w)
                     | _ => (no, w)
                     end
      | EtcdGet _ _ => (no, w) | EtcdPut _ _ => (no, w) | EtcdDeletePrefix _ => (no, w) | EtcdCompact _ => (no, w)
      end
  | AskRpc => (Ok tt, w)
  | AskSql q => (match q in Sql X return X with
                 | SelectText _ => no | ExecText _ => no | InsertApikey _ => no | SelectApikey _ => no | SelectApikeys _ => no
                 | DeleteApikeyReturning _ _ => no | InsertRole _ _ => no | SelectOnboard _ => no | InsertOnboardRow _ _ _ => no
                 | SetOnboardStep _ _ => no | SetOnboardStatus _ _ => no | SetOnboardUsername _ _ => no | DeleteOnboardRow _ => no
                 | CompleteOnboardRows _ _ _ _ => no | SelectUserProfile _ => no end, w)
  | AskFs q => (match q in FsRequest X return X with
                | FsOpen _ => no | FsCreateDirAll _ => no | FsRename _ _ => no | FsCopy _ _ => no | FsExists _ => false
                | FsRemoveDir _ => no | FsRemoveDirAll _ => no end, w)
  | AskRandom _ => ("", w)
  | AskHasCredit _ _ => (no, w) | AskAddCredit _ _ _ => (no, w) | AskRecalculateQuota _ => (no, w)
  end.
Definition tenant_obj (exempt : bool) : DataObject string :=
  MkDataObject "tenant" "system" "system" "acme" ∅ ∅ 0 0 1 (if exempt then "exempt" else "limited").
Definition acme_tenant (exempt : bool) : Tenant := MkDataObject "tenant" "system" "system" "acme" ∅ ∅ 0 0 1 (tenant_of exempt).
Definition small_platform : Platform_ :=
  let tenants := {["system/system/acme" := acme_tenant false]} in
  MkGateway ∅ ∅ 100 tenants ∅ ∅ (MkStateSvc (MkSvcDir ∅ 0 "") tenants ∅ ∅).
Definition acme_admin : AccessToken := AccessToken_New 0 "ann" ["/tenant/admin/acme"] [].

Lemma object_writes_are_permitted_witness :
  asks (permitted acme_admin) (UpdateObj acme_admin (tenant_obj true) : call Platform_ (Request Svc.Object) unit (HttpReply unit)) (λ _, True).
Proof. apply (object_writes_are_permitted (O:=unit) acme_admin (tenant_obj true) "tenant" "" "" ""); left. Defined.
(** A node, made by a caller that is not known. *)
Definition a_node : DataObject string := MkDataObject "node_info" "system" "system" "n1" ∅ ∅ 0 0 0 "{}".
Definition node_wire : Svc.Object := MkObject "node_info" "system" "system" "n1" [] [] "{}".
Lemma anyone_may_write_other_objects_witness :
  serve put_server (CreateObj (anonymous 0) a_node : call Platform_ (Request Svc.Object) unit (HttpReply unit)) small_platform ∅
  = (Ok (HText 200 "7"), small_platform, {["/registry/node_info/system/system/n1" := node_wire]}).
Proof.
  apply (anyone_may_write_other_objects (O:=unit) (server:=put_server) (λ w, eq_refl) (anonymous 0) a_node small_platform ∅ _
    "/registry/node_info/system/system/n1" node_wire 7); [by apply (bool_decide_unpack _)|by left|reflexivity..].
Defined.
Lemma tenant_admin_lifts_limits_witness :
  serve put_server (UpdateObj acme_admin (tenant_obj true) : call Platform_ (Request Svc.Object) unit (HttpReply unit)) small_platform ∅
  = (Ok (HText 200 "7"), small_platform,
     {["/registry/tenant/system/system/acme" := MkObject "tenant" "system" "system" "acme" [] [] "exempt"]}).
Proof.
  apply (tenant_admin_lifts_limits (O:=unit) (server:=put_server) (λ w, eq_refl) acme_admin (tenant_obj true) (acme_tenant true) small_platform ∅ _
    "/registry/tenant/system/system/acme" (MkObject "tenant" "system" "system" "acme" [] [] "exempt") 7); try reflexivity; [done|by left].
Defined.
